(* ===== verification/_CoqProject ===== *)
-Q . S2P
Prelude.v
Mem.v
Golay.v
OverlayBuffer.v
OverlayBufferSpec.v
OverlayBufferCodec.v
OverlayBufferFill.v
OverlayBufferEdge.v
Limit.v
RotBuf.v
StrCtype.v
StrNum.v
StrBase64.v
StrUri.v
Strbuf.v
StrPrint.v
StrScan.v
DataFormats.v
MdpCursor.v
MdpFilter.v
MdpFilterProps.v
MdpFilterPrint.v
MdpFilterSafe.v
OverlayAddress.v
OverlayAddressTree.v
OverlayAddressWalk.v
OverlayAddressCodec.v
OverlayAddressRound.v
LinkWindow.v
OverlayFrame.v
OverlayFrameRound.v
MdpFilterDirectory.v
FdQueue.v
FdQueueSpec.v
FdQueueRefine.v
FdQueuePoll.v
FdQueueProps.v
Prog.v
OverlayQueue.v
OverlayQueueSpec.v
OverlayQueueTimer.v
OverlayQueueInv.v
OverlayQueuePacket.v
OverlayQueueSend.v
OverlayQueueAppend.v
OverlayQueueAck.v
OverlayQueueDemo.v
OverlayQueueProps.v
Msp.v
MspSpec.v
MspLive.v
MspStream.v
MspProcess.v
MspClose.v
MspReceive.v
MspProps.v
MspAccept.v
MspDemo.v
FdQueueClient.v
RadioLink.v
RadioLinkSafe.v
RadioLinkRound.v
RadioLinkWords.v
RadioLinkStream.v
RadioLinkTx.v
RadioLinkProps.v
RadioLinkDemo.v
RouteLink.v
RouteLinkPath.v
RouteLinkBest.v
RouteLinkFind.v
RouteLinkProps.v
LinkState.v
LinkStateWrite.v
LinkStateRead.v
LinkStateApply.v
LinkSend.v
LinkSendRuns.v
LinkStateProps.v
