(* ===== verification/Prelude.v ===== *)
(** * Verification of the core of Serval DNA

    Serval DNA (src/app/src/main/jni/serval-dna/) is the daemon of a mesh network:
    overlay frames are assembled in growable buffers, routes are chosen from what the
    neighbours report, payloads are queued under rate limits and sent in packets, on packet radio in frames that are protected by a Golay
    and a Reed-Solomon code; applications exchange streams; and every part of the daemon runs from one scheduler of alarms and watched file handles. The parts
    share a library of string and buffer primitives. This development translates
    those parts to executable definitions and proves what makes them correct.

    ** Files

    - [Prelude]: outcomes of C code ([Ret], [Aborted] for a failed assertion or
      FATAL, [Undef] for undefined behaviour), machine integers as [Z] with their
      wrap-around, byte sequences, tactics and hints. The class [Arch] holds the
      width of [size_t], 32 or 64 bits as in Application.mk.
    - [Mem]: memory as objects of bytes; loads, stores and mem.c's [_emalloc]
      over a malloc(3) parameter.
    - [Golay]: golay.c, encoder and decoder. A code word with up to three
      flipped bits of its 24 decodes to the encoded data.
    - [OverlayBuffer]: overlay_buffer.c, every operation. [OverlayBufferSpec] is
      the invariant, kept by every operation on a reachable buffer whose conditions
      hold, without undefined behaviour; [OverlayBufferCodec] shows which appended
      fields are read back as they were, and what is read of the others; [OverlayBufferEdge] has strings and packed integers,
      and where the code does not do what it means to.
    - [Limit]: limit.c, with the clock as an argument: how many events a limit
      allows in a period and when the next is allowed.
    - [RotBuf]: rotbuf.h and rotbuf.c; a rotated buffer simulates a plain one.
    - [StrCtype], [StrNum], [StrBase64], [StrUri], [StrPrint]: the character
      tables of str.h and the conversions of str.c and strbuf_helpers.c, with
      their round trips. [Strbuf]: strbuf.c, a refinement of unbounded text that
      is cut off at the buffer's size.
    - [FdQueue]: fdqueue.c. The entries are a finite map from addresses, linked
      through their own fields as in the source. [FdQueueSpec] relates the linked
      lists to sequences, [FdQueueRefine] shows that scheduling, unscheduling and
      moving are insertion, removal and transfer on sorted sequences,
      [FdQueuePoll] has the table of watched handles and the invariant, and
      [FdQueueProps] what the scheduler promises: every sequence of allowed calls
      and every call of [fd_poll2] keeps it well formed and returns.
    - [StrScan], [DataFormats]: the prefix and number scanning of str.c and the
      text formats of dataformats.c, with the syntax they accept.
    - [MdpCursor], [MdpFilter]: mdp_filter.c, the packet filter: its cursor, the
      parser and printer of rules, loading them and deciding packets.
      [MdpFilterProps] shows that the parser accepts the grammar of rules and
      decides by the first rule that applies, [MdpFilterPrint] that printed rules
      are read back, and [MdpFilterSafe] that parsing any text, unless a read fails,
      ends and reads nothing outside it. The class [Directory] states what the filter needs of
      the search for subscribers.
    - [OverlayAddress]: the tree of subscribers of overlay_address.c.
      [OverlayAddressTree] shows that a search refines a finite map of
      identifiers, [OverlayAddressWalk] that the walks visit the subscribers in
      order. [OverlayAddressCodec] has addresses in packets and the explain
      messages, [OverlayAddressRound] their round trip from one node to
      another. [MdpFilterDirectory] shows that searches of the tree are a
      [Directory].
    - [LinkWindow]: the windows of sequence numbers of route_link.c, by which
      duplicates are recognised and packets acknowledged.
    - [OverlayBufferFill]: buffers of limited size, which packets are written to.
    - [OverlayFrame]: overlay_payload.c and overlay_packetformats.c, the writers and
      the readers of packets. [OverlayFrameRound] shows that payloads are read as
      they were written, and what goes wrong after one that does not fit.
    - [Prog]: C functions on shared state, and what it means that they return.
    - [OverlayQueue]: overlay_queue.c, with the choice of destinations and their
      reference counts from route_link.c. Frames and destinations are finite maps
      from addresses, frames linked through their fields. [OverlayQueueSpec] has
      the queues as sequences, the counts and the payloads in memory,
      [OverlayQueueTimer] the alarm, [OverlayQueueInv] the invariant and what keeps
      it, [OverlayQueuePacket] and [OverlayQueueSend] the filling of packets,
      [OverlayQueueAppend] queueing, [OverlayQueueAck] acknowledgements,
      [OverlayQueueDemo] an example and [OverlayQueueProps] the theorems. The class
      [Surroundings] is what the queues need of the functions they call elsewhere.
    - [Msp]: mesh streams (msp_client.c, all but the debug output): sockets in a linked
      list, windows of packets in memory, the calls of the application, processing and
      received datagrams. [MspSpec] shows that a window is the sequence of its packets
      by their true numbers, [MspLive] what holds of a connected end, in a world that
      is [Benign], [MspStream] what the operations do to a stream, [MspProcess],
      [MspClose] and [MspReceive] that the code does it; [MspProps] has two ends and
      the network between them and the theorems, [MspAccept] the datagram with which any
      listening process can be stopped, [MspDemo] an exchange with losses and
      cases in which the code fails.
    - [RadioLink]: packet radio (radio_link.c, all but the status page): packets are cut
      into frames with a Golay code word and a Reed-Solomon block, written to a serial
      line in turns with heartbeat requests, and looked for in the bytes that arrive.
      [RadioLinkSafe] shows that the search ends and stays in its arrays for any bytes,
      up to one kind of frame that makes it leave them,
      [RadioLinkRound] and [RadioLinkWords] what a frame, a request or a report does
      when it arrives, [RadioLinkStream] what a line of them says, [RadioLinkTx] that
      the sender writes such a line; [RadioLinkProps] has two radios and the theorems,
      [RadioLinkDemo] an exchange. The classes [Fec], [FecLaws] and [FecClean] are what
      is used of the Reed-Solomon codec. [FdQueueClient] is what a component that owns
      an alarm relies on the scheduler for.
    - [RouteLink]: the choice of routes (route_link.c, overlay_link.c): the links that
      each neighbour reports, the scores of the paths through them, and the search for
      the best route to a subscriber. [RouteLinkPath] shows that a score is that of the
      path along the cached parents, and when these are current along the transmitters, [RouteLinkBest] that the references to
      destinations stay counted, [RouteLinkFind] that the search ends and takes the best
      offer; [RouteLinkProps] has the theorems, where their invariant comes from, and
      two cases in which a route is wrong after a change.
    - [LinkState], [LinkSend]: link state messages (route_link.c): a record of a link, the
      message that tells the routes that are due, and its reception into the tables of
      [RouteLink]. [LinkStateWrite] and [LinkStateRead] show that a record is read as it
      was written, [LinkStateApply] what it does to the tables, [LinkSendRuns] that a
      message tells the routes as they are; [LinkStateProps] puts a sender and a
      receiver together, and has a message that stops the daemon.

    ** Correspondence with the source

    A definition has the name of the C function or structure it translates;
    helpers are loops or blocks of one function. State is passed explicitly, and
    a function that can fail an assertion or have undefined behaviour returns an
    [outcome]. Logging calls, which do not change the state, are left out.
    Integers are kept at their C width wherever a value can reach it.

    ** Bounds and fuel

    Loops over a sequence recurse on it. The list walks of [FdQueue] have the
    number of entries in memory, plus one, as fuel; [seg_length] shows that a list
    without a cycle is never longer. The decoder of [Golay] tries the 23 rotations
    and the 24 trial positions of the source; its correctness is decided over the
    error patterns of weight at most three, which the linearity of the code makes
    enough. The parser of rules is given
    the length of its text as fuel and consumes a character in each round; the
    walks of the subscriber tree recurse at most once for each of the 64 nibbles of
    an identifier, and the reader of explain messages once for each byte. The
    loops over a queue have the number of frames in memory as fuel, which is at least
    the length of the queue (queue_size).
    The loops of the mesh streams have the number of packets or sockets in memory as
    fuel; delivery to the application has one round for each byte and packet in memory,
    enough because a handler that takes nothing ends it (weight_total). The theorems
    about streams assume that no datagram arrives after 2^14 later packets have been
    sent, since packets are numbered modulo 2^16.
    The loops of the radio run for up to 2^20 rounds: the search takes at most 766
    rounds for each of the 765 bytes of the buffer (rounds), and the loop that writes
    is bounded by the space the radio reports, 3234 bytes at most (work). The theorem
    about two radios covers 500,000 calls, since the sequence number and the space of
    the radio are ints that the code does not keep from overflowing.
    The score of a link has the number of links of its neighbour as fuel, the search for
    a route the number of subscribers: each call marks a link or a subscriber that was
    not marked (idle, room).
    A link state message is read in at most one round for each of its bytes, since a
    record has at least one (receive_loop).

    ** What is outside

    malloc(3), poll(2), the clock and the functions an alarm calls are arguments of
    the definitions that use them, with what is assumed of them stated as
    hypotheses. Not modelled: the network, file and database code, the vendored
    libraries (the Reed-Solomon codec among them) and the Java side, which are
    input and output or third-party code; and the upper layers of the daemon that
    rest on them: datagram bindings, calls, Rhizome, MeshMS, the keyring,
    configuration, the command line and the HTTP server. *)

(** ** Shared vocabulary: outcomes of C code, machine integers, byte sequences and
    the generic lemmas the components use. *)

From stdpp Require Export base decidable option list list_numbers numbers gmap strings.
From Stdlib Require Export ZArith Lia Btauto.
Open Scope Z_scope.

(** ** Outcomes

    A C function called on a given state either returns, stops the process
    through a failed [assert] (or [FATAL]), or has no defined behaviour (a load
    or store outside a live object, an oversized shift, a division by zero). *)

Inductive outcome (A : Type) : Type :=
| Ret (a : A)
| Aborted
| Undef.
Arguments Ret {A} a.
Arguments Aborted {A}.
Arguments Undef {A}.

#[export] Instance outcome_ret : MRet outcome := @Ret.
#[export] Instance outcome_bind : MBind outcome :=
  λ A B f m, match m with Ret a => f a | Aborted => Aborted | Undef => Undef end.

Declare Scope c_scope.
Delimit Scope c_scope with c.

(** [assert!] is C's [assert]; [defined!] guards a step whose behaviour is
    undefined when the condition is false. *)
Notation "'assert!' b ; k" := (if b then k else Aborted)
  (at level 20, b at level 100, k at level 200, right associativity, only parsing) : c_scope.
Notation "'defined!' b ; k" := (if b then k else Undef)
  (at level 20, b at level 100, k at level 200, right associativity, only parsing) : c_scope.
Open Scope c_scope.

Definition is_ret {A} (m : outcome A) : Prop := ∃ a, m = Ret a.

Lemma bind_ret_l {A B} (a : A) (f : A → outcome B) : (Ret a ≫= f) = f a.
Proof. reflexivity. Qed.

(** The code does not go wrong: it returns a result that satisfies [P], or stops
    at an assertion. *)
Definition safely {A} (P : A → Prop) (m : outcome A) : Prop :=
  match m with Ret a => P a | Aborted => True | Undef => False end.
Lemma safely_bind {A B} (P : A → Prop) (Q : B → Prop) (m : outcome A) (f : A → outcome B) :
  safely P m → (∀ a, P a → safely Q (f a)) → safely Q (m ≫= f).
Proof. destruct m; cbn; auto. Qed.
Lemma safely_impl {A} (P Q : A → Prop) (m : outcome A) : safely P m → (∀ a, P a → Q a) → safely Q m.
Proof. destruct m; cbn; auto. Qed.

Lemma bind_ret_inv {A B} (m : outcome A) (f : A → outcome B) b :
  (m ≫= f) = Ret b → ∃ a, m = Ret a ∧ f a = Ret b.
Proof. destruct m; simpl; intros; [eauto|discriminate|discriminate]. Qed.

(** ** Target architecture

    The library is built for armeabi-v7a, arm64-v8a, x86 and x86_64
    (Application.mk): [size_t] has 32 or 64 bits. *)

Class Arch := {
  size_bits : Z;
  size_bits_ok : size_bits = 32 ∨ size_bits = 64;
}.

Definition arm32 : Arch := {| size_bits := 32; size_bits_ok := or_introl eq_refl |}.
Definition arm64 : Arch := {| size_bits := 64; size_bits_ok := or_intror eq_refl |}.

(** ** Machine integers *)

Definition wrapu (w z : Z) : Z := z mod 2 ^ w.
Definition wraps (w z : Z) : Z := (z + 2 ^ (w - 1)) mod 2 ^ w - 2 ^ (w - 1).

Abbreviation u8 := (wrapu 8).
Abbreviation u16 := (wrapu 16).
Abbreviation u32 := (wrapu 32).
Abbreviation u64 := (wrapu 64).
Abbreviation i8 := (wraps 8).
Abbreviation i16 := (wraps 16).
Abbreviation i32 := (wraps 32).
Abbreviation i64 := (wraps 64).

Definition SIZE_MAX `{Arch} : Z := 2 ^ size_bits - 1.
(** Addition of [size_t] values. *)
Definition szadd `{Arch} (a b : Z) : Z := wrapu size_bits (a + b).

Lemma SIZE_MAX_pos `{Arch} : 2 ^ 32 - 1 ≤ SIZE_MAX.
Proof. unfold SIZE_MAX. destruct size_bits_ok as [-> | ->]; lia. Qed.

Lemma szadd_small `{Arch} a b : 0 ≤ a → 0 ≤ b → a + b ≤ SIZE_MAX → szadd a b = a + b.
Proof. unfold szadd, wrapu, SIZE_MAX. intros. apply Z.mod_small. lia. Qed.

Lemma szadd_range `{Arch} a b : 0 ≤ szadd a b ≤ SIZE_MAX.
Proof.
  unfold szadd, wrapu, SIZE_MAX.
  pose proof (Z.mod_pos_bound (a + b) (2 ^ size_bits)) as Hb.
  destruct size_bits_ok as [E|E]; rewrite E in *; lia.
Qed.

Lemma wrapu_small w z : 0 ≤ z < 2 ^ w → wrapu w z = z.
Proof. apply Z.mod_small. Qed.

Lemma wrapu_range w z : 0 ≤ w → 0 ≤ wrapu w z < 2 ^ w.
Proof. intros. apply Z.mod_pos_bound. lia. Qed.

Lemma wraps_small w z : 0 < w → - 2 ^ (w - 1) ≤ z < 2 ^ (w - 1) → wraps w z = z.
Proof.
  intros Hw Hz. unfold wraps. rewrite Z.mod_small; [lia|].
  replace (2 ^ w) with (2 * 2 ^ (w - 1)); [lia|].
  rewrite <- Z.pow_succ_r by lia. f_equal. lia.
Qed.

Lemma wrapu_wraps w z : 0 < w → wrapu w (wraps w z) = wrapu w z.
Proof.
  intros. unfold wrapu, wraps. rewrite Zminus_mod_idemp_l. f_equal. lia.
Qed.

(** ** Bits and bytes *)

(** The [k]-th byte of [v], as [(v >> 8*k) & 0xFF] extracts it. *)
Definition byte_at (v k : Z) : Z := Z.land (Z.shiftr v (8 * k)) 255.

Definition is_byte (b : Z) : Prop := 0 ≤ b < 256.
#[export] Instance is_byte_dec b : Decision (is_byte b).
Proof. unfold is_byte. apply _. Defined.

Lemma land_255 z : Z.land z 255 = z mod 256.
Proof. change 255 with (Z.ones 8). rewrite Z.land_ones by lia. reflexivity. Qed.

Lemma land_127 z : Z.land z 127 = z mod 128.
Proof. change 127 with (Z.ones 7). rewrite Z.land_ones by lia. reflexivity. Qed.

Lemma byte_at_is_byte v k : is_byte (byte_at v k).
Proof. unfold byte_at, is_byte. rewrite land_255. apply Z.mod_pos_bound. lia. Qed.

Lemma byte_at_div v k : 0 ≤ k → byte_at v k = (v / 2 ^ (8 * k)) mod 256.
Proof. intros. unfold byte_at. rewrite land_255, Z.shiftr_div_pow2 by lia. done. Qed.

Lemma land_lxor_distr a b c : Z.land (Z.lxor a b) c = Z.lxor (Z.land a c) (Z.land b c).
Proof. apply Z.bits_inj'. intros n _. rewrite ?Z.lxor_spec, ?Z.land_spec, ?Z.lxor_spec. btauto. Qed.

Lemma mod_pow2_testbit x k n : 0 ≤ k → 0 ≤ n →
  Z.testbit (x mod 2 ^ k) n = (n <? k) && Z.testbit x n.
Proof.
  intros. destruct (Z.ltb_spec n k).
  - by rewrite Z.mod_pow2_bits_low by lia.
  - by rewrite Z.mod_pow2_bits_high by lia.
Qed.

Lemma lxor_range k a b : 0 ≤ k → 0 ≤ a < 2 ^ k → 0 ≤ b < 2 ^ k → 0 ≤ Z.lxor a b < 2 ^ k.
Proof.
  intros Hk Ha Hb.
  assert (Z.lxor a b = Z.lxor a b mod 2 ^ k) as ->; [|apply Z.mod_pos_bound; lia].
  rewrite <- Z.land_ones, land_lxor_distr, !Z.land_ones by lia. by rewrite !Z.mod_small.
Qed.

(** A number whose low [k] bits are clear can be or-ed with a [k]-bit number by
    adding. *)
Lemma lor_add a b k : 0 ≤ k → 0 ≤ b < 2 ^ k → a mod 2 ^ k = 0 → Z.lor a b = a + b.
Proof.
  intros Hk Hb Ha.
  assert (Z.land a b = 0) as Hl.
  { apply Z.bits_inj'. intros n Hn. rewrite Z.land_spec, Z.bits_0.
    destruct (decide (n < k)) as [Hlt|Hge].
    - rewrite <- (Z.mod_pow2_bits_low a k n) by lia. by rewrite Ha, Z.bits_0.
    - rewrite <- (Z.mod_small b (2 ^ k)) by lia.
      rewrite Z.mod_pow2_bits_high by lia. apply andb_false_r. }
  rewrite <- Z.lxor_lor by done. by rewrite Z.add_nocarry_lxor.
Qed.

Lemma lor_shiftl_add a b k : 0 ≤ k → 0 ≤ b < 2 ^ k → Z.lor (Z.shiftl a k) b = a * 2 ^ k + b.
Proof.
  intros. rewrite Z.shiftl_mul_pow2 by lia.
  apply (lor_add _ _ k); [lia|lia|]. apply Z.mod_mul. lia.
Qed.

(** Big-endian and little-endian values of byte sequences, and their inverses. *)
Fixpoint le_value (l : list Z) : Z :=
  match l with [] => 0 | b :: l => b + 256 * le_value l end.
Definition be_value (l : list Z) : Z := le_value (reverse l).

Fixpoint le_bytes (n : nat) (v : Z) : list Z :=
  match n with O => [] | S n => v mod 256 :: le_bytes n (v / 256) end.
Definition be_bytes (n : nat) (v : Z) : list Z := reverse (le_bytes n v).

Lemma le_bytes_length n v : length (le_bytes n v) = n.
Proof. revert v. induction n; intros; simpl; auto. Qed.

Lemma be_bytes_length n v : length (be_bytes n v) = n.
Proof. unfold be_bytes. by rewrite length_reverse, le_bytes_length. Qed.

Lemma le_bytes_bytes n v : Forall is_byte (le_bytes n v).
Proof.
  revert v. induction n; intros; simpl; constructor; [|auto].
  apply Z.mod_pos_bound. lia.
Qed.

Lemma be_bytes_bytes n v : Forall is_byte (be_bytes n v).
Proof. apply Forall_reverse, le_bytes_bytes. Qed.

Lemma le_value_bytes n v : 0 ≤ v < 2 ^ (8 * Z.of_nat n) → le_value (le_bytes n v) = v.
Proof.
  revert v. induction n as [|n IH]; intros v Hv.
  { simpl in *. lia. }
  cbn [le_bytes le_value]. rewrite IH.
  { pose proof (Z.div_mod v 256). lia. }
  replace (8 * Z.of_nat (S n)) with (8 + 8 * Z.of_nat n) in Hv by lia.
  rewrite Z.pow_add_r in Hv by lia. change (2 ^ 8) with 256 in Hv.
  split; [apply Z.div_pos; lia|]. apply Z.div_lt_upper_bound; lia.
Qed.

Lemma be_value_bytes n v : 0 ≤ v < 2 ^ (8 * Z.of_nat n) → be_value (be_bytes n v) = v.
Proof. intros. unfold be_value, be_bytes. rewrite reverse_involutive. by apply le_value_bytes. Qed.

Lemma byte_at_shift v k : 0 ≤ k → byte_at (v / 256) k = byte_at v (k + 1).
Proof.
  intros. rewrite !byte_at_div by lia. rewrite Z.div_div by lia. do 2 f_equal.
  replace (8 * (k + 1)) with (8 + 8 * k) by lia. by rewrite Z.pow_add_r by lia.
Qed.

Lemma le_bytes_byte_at n v : le_bytes n v = (λ k, byte_at v (Z.of_nat k)) <$> seq 0 n.
Proof.
  revert v. induction n as [|n IH]; intros v; [done|]. cbn [le_bytes seq fmap list_fmap]. f_equal.
  - rewrite byte_at_div by lia. simpl. by rewrite Z.div_1_r.
  - rewrite IH, <- seq_shift, <- list_fmap_compose. apply list_fmap_ext. intros i k _.
    simpl. rewrite byte_at_shift by lia. f_equal. lia.
Qed.

(** Or-ing a group of bits above or below disjoint bits adds it. *)
Lemma lor_low a b k : 0 ≤ k → 0 ≤ a < 2 ^ k → Z.lor a (b * 2 ^ k) = a + b * 2 ^ k.
Proof.
  intros. rewrite Z.lor_comm, (lor_add _ _ k); [lia|lia|lia|]. apply Z.mod_mul. lia.
Qed.
Lemma lor_high a b k : 0 ≤ k → 0 ≤ b < 2 ^ k → Z.lor (a * 2 ^ k) b = a * 2 ^ k + b.
Proof. intros. apply (lor_add _ _ k); [lia|lia|]. apply Z.mod_mul. lia. Qed.

Lemma le_value_range l : Forall is_byte l → 0 ≤ le_value l < 2 ^ (8 * Z.of_nat (length l)).
Proof.
  induction 1 as [|b l Hb _ IH]; [simpl; lia|].
  cbn [le_value length]. replace (8 * Z.of_nat (S (length l))) with (8 + 8 * Z.of_nat (length l)) by lia.
  rewrite Z.pow_add_r by lia. change (2 ^ 8) with 256. unfold is_byte in Hb. lia.
Qed.

(** Induction on a list three elements at a time. *)
Lemma list_ind3 {A} (P : list A → Prop) : P [] → (∀ a, P [a]) → (∀ a b, P [a; b]) →
  (∀ a b c l, P l → P (a :: b :: c :: l)) → ∀ l, P l.
Proof.
  intros H0 H1 H2 H3. fix IH 1. intros [|a [|b [|c l]]]; [done|apply H1|apply H2|apply H3, IH].
Qed.

(** A decidable statement about a range of integers, by enumeration. *)
Lemma forall_range (P : Z → bool) n : forallb P (seqZ 0 n) = true → ∀ x, 0 ≤ x < n → P x = true.
Proof.
  intros H x Hx. rewrite forallb_forall in H. apply H, list_elem_of_In, elem_of_seqZ. lia.
Qed.

Definition ret_eqb (a : outcome Z) (z : Z) : bool :=
  match a with Ret x => x =? z | _ => false end.
Lemma ret_eqb_true a z : ret_eqb a z = true → a = Ret z.
Proof. destruct a; simpl; [|done|done]. by intros ->%Z.eqb_eq. Qed.

(** ** Automation *)

(** Case analysis on the conditions of the code's [if]s, turning boolean
    comparisons into arithmetic facts. *)
Ltac bool_props :=
  repeat match goal with
  | H : andb _ _ = true |- _ => apply andb_prop in H; destruct H
  | H : orb _ _ = false |- _ => apply orb_false_elim in H; destruct H
  | H : negb _ = true |- _ => apply negb_true_iff in H
  | H : negb _ = false |- _ => apply negb_false_iff in H
  | H : (_ <? _) = true |- _ => apply Z.ltb_lt in H
  | H : (_ <? _) = false |- _ => apply Z.ltb_ge in H
  | H : (_ <=? _) = true |- _ => apply Z.leb_le in H
  | H : (_ <=? _) = false |- _ => apply Z.leb_gt in H
  | H : (_ =? _) = true |- _ => apply Z.eqb_eq in H
  | H : (_ =? _) = false |- _ => apply Z.eqb_neq in H
  end.

Ltac case_if :=
  match goal with
  | |- context [if ?b then _ else _] => destruct b eqn:?; bool_props
  | H : context [if ?b then _ else _] |- _ => destruct b eqn:?; bool_props
  end.

(** Rewrites the first goal comparison that arithmetic decides. *)
Ltac decide_cmp :=
  match goal with
  | |- context [?a <? ?b] =>
      first [rewrite (proj2 (Z.ltb_lt a b)) by lia | rewrite (proj2 (Z.ltb_ge a b)) by lia]
  | |- context [?a <=? ?b] =>
      first [rewrite (proj2 (Z.leb_le a b)) by lia | rewrite (proj2 (Z.leb_gt a b)) by lia]
  | |- context [?a =? ?b] =>
      first [rewrite (proj2 (Z.eqb_eq a b)) by lia | rewrite (proj2 (Z.eqb_neq a b)) by lia]
  end.

(** Linear arithmetic with quotients and remainders by constants. *)
Ltac div_lia := Z.to_euclidean_division_equations; lia.

Create HintDb serval.
Create Rewrite HintDb serval.
#[export] Hint Resolve byte_at_is_byte le_bytes_bytes be_bytes_bytes szadd_range : serval.
#[export] Hint Rewrite le_bytes_length be_bytes_length : serval.
