(* ===== verification/Mem.v ===== *)
(** * Objects in C memory

    The heap is a finite map from live objects to their bytes; a pointer is an
    object and an offset. Accesses outside a live object are undefined
    behaviour. [malloc(3)] is a parameter: an allocator answers a request with
    the contents of a new object or with NULL (mem.c reports the failure and
    hands NULL to its caller). *)

From S2P Require Import Prelude.

Record ptr := Ptr { blk : nat; off : Z }.
#[export] Instance ptr_eq_dec : EqDecision ptr.
Proof. solve_decision. Defined.

Abbreviation mem := (gmap nat (list Z)).

Definition ptr_add (p : ptr) (n : Z) : ptr := Ptr (blk p) (off p + n).

(** The bytes of the object [p] points into, when [n] bytes at [p] lie in it. *)
Definition object_at (m : mem) (p : ptr) (n : Z) : option (list Z) :=
  match m !! blk p with
  | Some l =>
      if (0 <=? off p) && (0 <=? n) && (off p + n <=? Z.of_nat (length l)) then Some l else None
  | None => None
  end.

Definition load_bytes (m : mem) (p : ptr) (n : Z) : outcome (list Z) :=
  match object_at m p n with
  | Some l => Ret (take (Z.to_nat n) (drop (Z.to_nat (off p)) l))
  | None => Undef
  end.

Definition load (m : mem) (p : ptr) : outcome Z :=
  match object_at m p 1 with
  | Some l => match l !! Z.to_nat (off p) with Some b => Ret b | None => Undef end
  | None => Undef
  end.

(** Consecutive stores of [bs] at [p]. *)
Definition store_bytes (m : mem) (p : ptr) (bs : list Z) : outcome mem :=
  match object_at m p (Z.of_nat (length bs)) with
  | Some l =>
      Ret (<[blk p := take (Z.to_nat (off p)) l ++ bs
                      ++ drop (Z.to_nat (off p) + length bs) l]> m)
  | None => Undef
  end.

Class Allocator := {
  malloc_answer : mem → Z → option (list Z);
  malloc_answer_length m n l : malloc_answer m n = Some l → Z.of_nat (length l) = n;
}.

(** mem.c: _emalloc *)
Definition emalloc `{Allocator} (m : mem) (n : Z) : mem * option ptr :=
  match malloc_answer m n with
  | Some l => let b := fresh (dom m) in (<[b := l]> m, Some (Ptr b 0))
  | None => (m, None)
  end.

Definition free (m : mem) (p : ptr) : outcome mem :=
  match m !! blk p with
  | Some _ => if off p =? 0 then Ret (delete (blk p) m) else Undef
  | None => Undef
  end.

(** No request fails. *)
Definition malloc_total `{Allocator} : Prop := ∀ m n, 0 ≤ n → malloc_answer m n ≠ None.

(** An allocator that never fails and clears what it returns. *)
Definition calloc_answer (m : mem) (n : Z) : option (list Z) :=
  if 0 <=? n then Some (replicate (Z.to_nat n) 0) else None.

Lemma calloc_answer_length m n l : calloc_answer m n = Some l → Z.of_nat (length l) = n.
Proof.
  unfold calloc_answer. case_if; [|done]. intros [= <-]. rewrite length_replicate. lia.
Qed.

Definition calloc_allocator : Allocator :=
  {| malloc_answer := calloc_answer; malloc_answer_length := calloc_answer_length |}.

Lemma calloc_total : @malloc_total calloc_allocator.
Proof. intros m n Hn. simpl. unfold calloc_answer. by decide_cmp. Qed.

(** ** Facts *)

Lemma object_at_Some m p n l :
  object_at m p n = Some l ↔
  m !! blk p = Some l ∧ 0 ≤ off p ∧ 0 ≤ n ∧ off p + n ≤ Z.of_nat (length l).
Proof.
  unfold object_at. destruct (m !! blk p) as [l'|] eqn:E; [|split; [done|by intros [? _]]].
  case_if; split.
  - intros [= ->]. auto with lia.
  - intros [[= ->] _]. done.
  - done.
  - intros ([= ->] & ? & ? & ?). exfalso.
    rewrite !andb_false_iff in Heqb. destruct Heqb as [[E1|E1]|E1]; bool_props; lia.
Qed.

Lemma load_bytes_Ret m p n l :
  m !! blk p = Some l → 0 ≤ off p → 0 ≤ n → off p + n ≤ Z.of_nat (length l) →
  load_bytes m p n = Ret (take (Z.to_nat n) (drop (Z.to_nat (off p)) l)).
Proof.
  intros. unfold load_bytes. by rewrite (proj2 (object_at_Some m p n l)).
Qed.

Lemma store_bytes_Ret m p bs l :
  m !! blk p = Some l → 0 ≤ off p → off p + Z.of_nat (length bs) ≤ Z.of_nat (length l) →
  store_bytes m p bs = Ret (<[blk p := take (Z.to_nat (off p)) l ++ bs
                      ++ drop (Z.to_nat (off p) + length bs) l]> m).
Proof.
  intros. unfold store_bytes. rewrite (proj2 (object_at_Some m p _ l)); [done|]. auto with lia.
Qed.

Lemma load_Ret m p l b :
  m !! blk p = Some l → 0 ≤ off p → l !! Z.to_nat (off p) = Some b → load m p = Ret b.
Proof.
  intros Hm Ho Hl. unfold load. pose proof (lookup_lt_Some _ _ _ Hl).
  rewrite (proj2 (object_at_Some m p 1 l)); [by rewrite Hl|]. auto with lia.
Qed.

Lemma splice_length {A} (l bs : list A) k : (k + length bs ≤ length l)%nat →
  length (take k l ++ bs ++ drop (k + length bs) l) = length l.
Proof. intros. rewrite !length_app, length_take, length_drop. lia. Qed.

(** Overwriting inside a region leaves what is before it. *)
Lemma take_splice {A} (l bs : list A) k n : (n ≤ k)%nat → (k ≤ length l)%nat →
  take n (take k l ++ bs ++ drop (k + length bs) l) = take n l.
Proof.
  intros. rewrite take_app_le by (rewrite length_take; lia).
  rewrite take_take. f_equal. lia.
Qed.

Lemma take_splice_end {A} (l bs : list A) k : (k ≤ length l)%nat →
  take (k + length bs) (take k l ++ bs ++ drop (k + length bs) l) = take k l ++ bs.
Proof.
  intros. rewrite app_assoc. apply take_app_length'. rewrite length_app, length_take. lia.
Qed.

Lemma list_split_at {A} (l : list A) n : (n ≤ length l)%nat →
  ∃ x y, l = x ++ y ∧ length x = n.
Proof. exists (take n l), (drop n l). rewrite take_drop, length_take. split; [done|lia]. Qed.

(** Overwriting part of a window into a list, seen through the window. *)
Lemma splice_window {A} (l bs : list A) k a o :
  (k + a ≤ length l)%nat → (o + length bs ≤ a)%nat →
  take a (drop k (take (k + o) l ++ bs ++ drop (k + o + length bs) l))
  = take o (take a (drop k l)) ++ bs ++ drop (o + length bs) (take a (drop k l)).
Proof.
  intros Hk Ho.
  destruct (list_split_at l k) as (l1 & r & -> & <-); [lia|]. rewrite length_app in Hk.
  destruct (list_split_at r a) as (l2 & l3 & -> & <-); [lia|].
  destruct (list_split_at l2 o) as (x & r & -> & <-); [lia|]. rewrite length_app in Ho.
  destruct (list_split_at r (length bs)) as (y & z & -> & Hy); [lia|].
  assert (take (length l1 + length x) (l1 ++ (x ++ y ++ z) ++ l3) = l1 ++ x) as ->.
  { replace (l1 ++ (x ++ y ++ z) ++ l3) with ((l1 ++ x) ++ y ++ z ++ l3)
      by (by rewrite <- !app_assoc).
    apply take_app_length'. by rewrite length_app. }
  assert (drop (length l1 + length x + length bs) (l1 ++ (x ++ y ++ z) ++ l3) = z ++ l3) as ->.
  { replace (l1 ++ (x ++ y ++ z) ++ l3) with ((l1 ++ x ++ y) ++ z ++ l3)
      by (by rewrite <- !app_assoc).
    apply drop_app_length'. rewrite !length_app. lia. }
  rewrite drop_app_length, take_app_length, take_app_length.
  assert (drop (length x + length bs) (x ++ y ++ z) = z) as ->.
  { rewrite app_assoc. apply drop_app_length'. rewrite length_app. lia. }
  rewrite <- app_assoc, drop_app_length.
  replace (x ++ bs ++ z ++ l3) with ((x ++ bs ++ z) ++ l3) by (by rewrite <- !app_assoc).
  apply take_app_length'. rewrite !length_app. lia.
Qed.
