(* ===== verification/Golay.v ===== *)
(** * The Golay codec of the packet radio link (golay.c)

    The link header of every radio packet is protected by the extended binary
    Golay code: 12 data bits, 11 check bits and a parity bit in three bytes. *)

From S2P Require Import Prelude.

Module Golay.

(** golay.c: POLY *)
Definition POLY : Z := 0xAE3.

(** One round of the division loop shared by [golay] and [syndrome]:
    [if (cw & 1) cw ^= POLY; cw >>= 1]. *)
Definition div_step (cw : Z) : Z :=
  Z.shiftr (if Z.testbit cw 0 then Z.lxor cw POLY else cw) 1.

Definition golay (cw : Z) : Z :=
  let c := Z.land cw 0xfff in
  let cw := Nat.iter 12 div_step c in
  Z.lor (u32 (Z.shiftl cw 12)) c.

Definition parity (cw : Z) : Z :=
  let p := Z.land cw 0xFF in
  let p := Z.lxor p (Z.land (Z.shiftr cw 8) 0xFF) in
  let p := Z.lxor p (Z.land (Z.shiftr cw 16) 0xFF) in
  let p := Z.lxor p (Z.shiftr p 4) in
  let p := Z.lxor p (Z.shiftr p 2) in
  let p := Z.lxor p (Z.shiftr p 1) in
  Z.land p 1.

(** [data[0] | (data[1]<<8) | (data[2]<<16)] *)
Definition pack3 (data : Z * Z * Z) : Z :=
  let '(d0, d1, d2) := data in
  Z.lor (Z.lor d0 (Z.shiftl d1 8)) (Z.shiftl d2 16).
Definition unpack3 (cw : Z) : Z * Z * Z :=
  (Z.land cw 0xFF, Z.land (Z.shiftr cw 8) 0xFF, Z.land (Z.shiftr cw 16) 0xFF).

(** The three bytes at [data] are replaced by the code word of their low 12 bits. *)
Definition golay_encode (data : Z * Z * Z) : Z * Z * Z :=
  let cw := pack3 data in
  let cw := golay cw in
  let cw := if negb (parity cw =? 0) then Z.lor cw 0x800000 else cw in
  unpack3 cw.

Definition syndrome (cw : Z) : Z :=
  let cw := Z.land cw 0x7fffff in
  u32 (Z.shiftl (Nat.iter 12 div_step cw) 12).

Definition wgt : list Z := [0;1;1;2;1;2;2;3;1;2;2;3;2;3;3;4].

(** [while ((k<6) && (cw)) ...]: [n] is [6 - k]. *)
Fixpoint weight_loop (n : nat) (cw bits : Z) : Z :=
  match n with
  | O => bits
  | S n =>
      if cw =? 0 then bits
      else weight_loop n (Z.shiftr cw 4)
             (bits + default 0 (wgt !! Z.to_nat (Z.land cw 0xf)))
  end.
Definition weight (cw : Z) : Z := weight_loop 6 cw 0.

Definition rotate_left_step (cw : Z) : Z :=
  if negb (Z.land cw 0x400000 =? 0) then Z.lor (u32 (Z.shiftl cw 1)) 1
  else u32 (Z.shiftl cw 1).
Definition rotate_left (cw : Z) (n : nat) : Z :=
  Z.land (Nat.iter n rotate_left_step cw) 0x7fffff.

Definition rotate_right_step (cw : Z) : Z :=
  if negb (Z.land cw 1 =? 0) then Z.lor (Z.shiftr cw 1) 0x400000
  else Z.shiftr cw 1.
Definition rotate_right (cw : Z) (n : nat) : Z :=
  Z.land (Nat.iter n rotate_right_step cw) 0x7fffff.

(** The loop [for (i=0; i<23; i++)] over the cyclic shifts; [n] is [23 - i].
    [inl (cw, errs)] is the early return, [inr errs] falls out of the loop with
    the last weight left in [*errs]. *)
Fixpoint correct_shifts (n : nat) (w cw s errs : Z) : (Z * Z) + Z :=
  match n with
  | O => inr errs
  | S n' =>
      let errs := weight s in
      if errs <=? w then
        inl (rotate_right (Z.lxor cw s) (23 - n), errs)
      else
        let cw := rotate_left cw 1 in
        correct_shifts n' w cw (syndrome cw) errs
  end.

(** The loop [while (j<23)]; [n] is [23 - j]. Each round that does not return
    increments [j]. Returns the code word and the final value of [*errs]. *)
Fixpoint correct_loop (n : nat) (cwsaver cw mask w errs : Z) : Z * Z :=
  match n with
  | O => (cwsaver, errs)
  | S n' =>
      let j := 23 - Z.of_nat n in
      let '(cw, mask, w) :=
        if negb (j =? -1) then
          let mask := if 0 <? j then u32 (mask + mask) else mask in
          (Z.lxor cwsaver mask, mask, 2)
        else (cw, mask, w) in
      let s := syndrome cw in
      if negb (s =? 0) then
        match correct_shifts 23 w cw s errs with
        | inl r => r
        | inr errs => correct_loop n' cwsaver cw mask w errs
        end
      else (cw, errs)
  end.

Definition correct (cw : Z) : Z * Z := correct_loop 24 cw cw 1 3 0.

(** Returns the 12 data bits and [*errs]. *)
Definition golay_decode (data : Z * Z * Z) : Z * Z :=
  let cw := pack3 data in
  let parity_bit := Z.land cw 0x800000 in
  let cw := Z.land cw (Z.lnot 0x800000) in
  let '(cw, errs) := correct cw in
  let cw := Z.lor cw parity_bit in
  let errs := if negb (parity cw =? 0) then errs + 1 else errs in
  (Z.land cw 0xFFF, errs).

(** ** Linearity

    Every stage of the decoder is linear over GF(2) in the received word, so its
    behaviour on a damaged code word is determined by the error pattern alone. *)

Definition is23 (x : Z) : Prop := 0 ≤ x < 2 ^ 23.

Lemma is23_land x : is23 (Z.land x 0x7fffff).
Proof.
  unfold is23. change 0x7fffff with (Z.ones 23). rewrite Z.land_ones by lia.
  apply Z.mod_pos_bound. lia.
Qed.

Lemma is23_lxor a b : is23 a → is23 b → is23 (Z.lxor a b).
Proof. apply lxor_range. lia. Qed.

Lemma land23 x : is23 x → Z.land x 0x7fffff = x.
Proof.
  intros. change 0x7fffff with (Z.ones 23). rewrite Z.land_ones by lia.
  by apply Z.mod_small.
Qed.

Lemma lxor_cancel a b : Z.lxor a (Z.lxor a b) = b.
Proof. by rewrite <- Z.lxor_assoc, Z.lxor_nilpotent, Z.lxor_0_l. Qed.

Lemma u32_lxor a b : u32 (Z.lxor a b) = Z.lxor (u32 a) (u32 b).
Proof. unfold wrapu. rewrite <- !Z.land_ones by lia. apply land_lxor_distr. Qed.

Lemma div_step_lxor a b : div_step (Z.lxor a b) = Z.lxor (div_step a) (div_step b).
Proof.
  unfold div_step. rewrite Z.lxor_spec, <- Z.shiftr_lxor. f_equal.
  destruct (Z.testbit a 0), (Z.testbit b 0); simpl; apply Z.bits_inj'; intros n _;
    rewrite ?Z.lxor_spec; btauto.
Qed.

Lemma div_steps_lxor n a b :
  Nat.iter n div_step (Z.lxor a b) = Z.lxor (Nat.iter n div_step a) (Nat.iter n div_step b).
Proof. induction n as [|n IH]; simpl; [done|]. by rewrite IH, div_step_lxor. Qed.

Lemma syndrome_lxor a b : syndrome (Z.lxor a b) = Z.lxor (syndrome a) (syndrome b).
Proof.
  unfold syndrome. by rewrite land_lxor_distr, div_steps_lxor, Z.shiftl_lxor, u32_lxor.
Qed.

(** The rotations, bit by bit. *)
Lemma land_pow2_test x k : 0 ≤ k → negb (Z.land x (2 ^ k) =? 0) = Z.testbit x k.
Proof.
  intros Hk. destruct (Z.testbit x k) eqn:E.
  - apply negb_true_iff, Z.eqb_neq. intros H0.
    assert (Z.testbit (Z.land x (2 ^ k)) k = true) as Ht.
    { by rewrite Z.land_spec, E, Z.pow2_bits_true by lia. }
    by rewrite H0, Z.bits_0 in Ht.
  - apply negb_false_iff, Z.eqb_eq, Z.bits_inj'. intros n Hn.
    rewrite Z.land_spec, Z.bits_0. destruct (decide (n = k)) as [->|Hne].
    + by rewrite E.
    + rewrite Z.pow2_bits_false by lia. apply andb_false_r.
Qed.

Lemma rotate_left_bits x n : is23 x → 0 ≤ n →
  Z.testbit (rotate_left x 1) n =
  (n <? 23) && (if n =? 0 then Z.testbit x 22 else Z.testbit x (n - 1)).
Proof.
  intros Hx Hn. unfold rotate_left. change 0x7fffff with (Z.ones 23).
  rewrite Z.land_ones, mod_pow2_testbit by lia. f_equal.
  change (Nat.iter 1 rotate_left_step x) with (rotate_left_step x). unfold rotate_left_step.
  change 0x400000 with (2 ^ 22). rewrite land_pow2_test by lia.
  assert (Z.testbit (u32 (Z.shiftl x 1)) n = Z.testbit x (n - 1)) as Hs.
  { unfold wrapu. rewrite mod_pow2_testbit, Z.shiftl_spec by lia. destruct (Z.ltb_spec n 32); [done|].
    simpl. symmetry. rewrite <- (Z.mod_small x (2 ^ 23)) by apply Hx.
    apply Z.mod_pow2_bits_high. lia. }
  destruct (Z.testbit x 22) eqn:E.
  - rewrite Z.lor_spec, Hs. change 1 with (2 ^ 0) at 2. rewrite Z.pow2_bits_eqb by lia.
    rewrite (Z.eqb_sym 0 n). destruct (n =? 0); rewrite ?orb_true_r, ?orb_false_r; done.
  - rewrite Hs. destruct (Z.eqb_spec n 0); [|done]. subst n. by rewrite Z.testbit_neg_r by lia.
Qed.

Lemma rotate_left_is23 x : is23 (rotate_left x 1).
Proof. apply is23_land. Qed.

Lemma rotate_left_lxor a b : is23 a → is23 b →
  rotate_left (Z.lxor a b) 1 = Z.lxor (rotate_left a 1) (rotate_left b 1).
Proof.
  intros Ha Hb. apply Z.bits_inj'. intros n Hn.
  rewrite Z.lxor_spec, !rotate_left_bits by auto using is23_lxor.
  rewrite !Z.lxor_spec. destruct (n <? 23), (n =? 0); simpl; btauto.
Qed.

Lemma rotate_right_step_bits x n : is23 x → 0 ≤ n →
  Z.testbit (rotate_right_step x) n = if n =? 22 then Z.testbit x 0 else Z.testbit x (n + 1).
Proof.
  intros Hx Hn. unfold rotate_right_step.
  change (Z.land x 1) with (Z.land x (2 ^ 0)). rewrite land_pow2_test by lia.
  assert (Z.testbit x 23 = false) as H23.
  { rewrite <- (Z.mod_small x (2 ^ 23)) by apply Hx. apply Z.mod_pow2_bits_high. lia. }
  change 0x400000 with (2 ^ 22).
  destruct (Z.testbit x 0) eqn:E;
    rewrite ?Z.lor_spec, Z.shiftr_spec, ?Z.pow2_bits_eqb by lia;
    destruct (Z.eqb_spec n 22) as [->|]; try rewrite (proj2 (Z.eqb_neq 22 n)) by lia;
    simpl; rewrite ?H23, ?orb_true_r, ?orb_false_r; done.
Qed.

Lemma rotate_right_step_is23 x : is23 x → is23 (rotate_right_step x).
Proof.
  intros Hx. rewrite <- (land23 x Hx). clear Hx.
  assert (∀ y, is23 y → rotate_right_step y = Z.land (rotate_right_step y) 0x7fffff) as Hy.
  { intros y Hy. apply Z.bits_inj'. intros n Hn. change 0x7fffff with (Z.ones 23).
    rewrite Z.land_ones, mod_pow2_testbit, rotate_right_step_bits by (done || lia).
    destruct (Z.ltb_spec n 23); [done|]. rewrite (proj2 (Z.eqb_neq n 22)) by lia.
    rewrite <- (Z.mod_small y (2 ^ 23)) by apply Hy. apply Z.mod_pow2_bits_high. lia. }
  rewrite Hy by apply is23_land. apply is23_land.
Qed.

Lemma rotate_right_step_lxor a b : is23 a → is23 b →
  rotate_right_step (Z.lxor a b) = Z.lxor (rotate_right_step a) (rotate_right_step b).
Proof.
  intros Ha Hb. apply Z.bits_inj'. intros n Hn.
  rewrite Z.lxor_spec, !rotate_right_step_bits by auto using is23_lxor.
  rewrite !Z.lxor_spec. by destruct (n =? 22).
Qed.

Lemma rotate_right_step_left x : is23 x → rotate_right_step (rotate_left x 1) = x.
Proof.
  intros Hx. apply Z.bits_inj'. intros n Hn.
  rewrite rotate_right_step_bits by auto using rotate_left_is23.
  assert (23 ≤ n → Z.testbit x n = false) as Hhi.
  { intros. rewrite <- (Z.mod_small x (2 ^ 23)) by apply Hx. apply Z.mod_pow2_bits_high. lia. }
  destruct (Z.eqb_spec n 22) as [->|Hne]; rewrite rotate_left_bits by (done || lia).
  - done.
  - rewrite (proj2 (Z.eqb_neq (n + 1) 0)) by lia. replace (n + 1 - 1) with n by lia.
    destruct (Z.ltb_spec (n + 1) 23); simpl; [done|]. symmetry. apply Hhi. lia.
Qed.

Lemma rotate_right_iter_is23 n x : is23 x → is23 (Nat.iter n rotate_right_step x).
Proof. intros. induction n; simpl; auto using rotate_right_step_is23. Qed.

Lemma rotate_right_lxor n a b : is23 a → is23 b →
  rotate_right (Z.lxor a b) n = Z.lxor (rotate_right a n) (rotate_right b n).
Proof.
  intros. unfold rotate_right. rewrite <- land_lxor_distr. f_equal.
  induction n as [|n IH]; simpl; [done|].
  by rewrite IH, rotate_right_step_lxor by auto using rotate_right_iter_is23.
Qed.

Lemma rotate_left_iter_is23 i c : is23 c → is23 (Nat.iter i (λ x, rotate_left x 1) c).
Proof. intros. destruct i; simpl; auto using rotate_left_is23. Qed.

Lemma rotate_right_left i c : is23 c →
  rotate_right (Nat.iter i (λ x, rotate_left x 1) c) i = c.
Proof.
  intros Hc. unfold rotate_right. rewrite land23.
  - revert c Hc. induction i as [|i IH]; intros c Hc; [done|].
    rewrite Nat.iter_succ_r, (Nat.iter_succ i _ (λ x, rotate_left x 1) c).
    rewrite rotate_right_step_left by auto using rotate_left_iter_is23. auto.
  - auto using rotate_right_iter_is23, rotate_left_iter_is23.
Qed.

(** ** Code words *)

(** A 23-bit word is a code word when its syndrome vanishes. *)
Definition codeword (c : Z) : Prop := is23 c ∧ syndrome c = 0.

(** Dividing a word whose 12 data bits are clear only shifts it. *)
Lemma div_steps_shifted n h : 0 ≤ h → Nat.iter n div_step (Z.shiftl h (Z.of_nat n)) = h.
Proof.
  intros Hh. induction n as [|n IH]; [apply Z.shiftl_0_r|].
  rewrite Nat.iter_succ_r. unfold div_step at 2.
  rewrite Z.shiftl_spec_low by lia. rewrite Z.shiftr_shiftl_l by lia.
  by replace (Z.of_nat (S n) - 1) with (Z.of_nat n) by lia.
Qed.

Lemma div_steps_high h : 0 ≤ h → Nat.iter 12 div_step (Z.shiftl h 12) = h.
Proof. apply (div_steps_shifted 12). Qed.

Lemma word_split x : Z.lxor (Z.land x 0xfff) (Z.shiftl (Z.shiftr x 12) 12) = x.
Proof.
  apply Z.bits_inj'. intros n Hn. change 0xfff with (Z.ones 12).
  rewrite Z.lxor_spec, Z.land_ones, mod_pow2_testbit by lia.
  destruct (Z.ltb_spec n 12).
  - rewrite Z.shiftl_spec_low by lia. apply xorb_false_r.
  - rewrite Z.shiftl_spec, Z.shiftr_spec by lia. simpl. by replace (n - 12 + 12) with n by lia.
Qed.

Lemma div_step_range x : 0 ≤ x < 2 ^ 12 → 0 ≤ div_step x < 2 ^ 11.
Proof.
  intros Hx. unfold div_step.
  assert (∀ y, 0 ≤ y < 2 ^ 12 → 0 ≤ Z.shiftr y 1 < 2 ^ 11) as Hs.
  { intros y Hy. rewrite Z.shiftr_div_pow2 by lia. change (2 ^ 1) with 2.
    split; [apply Z.div_pos; lia|apply Z.div_lt_upper_bound; lia]. }
  destruct (Z.testbit x 0); apply Hs; [|done].
  apply lxor_range; unfold POLY; lia.
Qed.

Lemma div_steps_range n x : 0 ≤ x < 2 ^ 12 → 0 ≤ Nat.iter (S n) div_step x < 2 ^ 11.
Proof.
  intros Hx. induction n as [|n IH]; [by apply div_step_range|].
  rewrite Nat.iter_succ. apply div_step_range. lia.
Qed.

Lemma land_fff_range x : 0 ≤ Z.land x 0xfff < 2 ^ 12.
Proof. change 0xfff with (Z.ones 12). rewrite Z.land_ones by lia. apply Z.mod_pos_bound. lia. Qed.

Lemma u32_shiftl12 h : 0 ≤ h < 2 ^ 11 → u32 (Z.shiftl h 12) = Z.shiftl h 12.
Proof.
  intros. apply wrapu_small. rewrite Z.shiftl_mul_pow2 by lia. lia.
Qed.

Lemma golay_lxor_form x :
  golay x = Z.lxor (Z.land x 0xfff) (Z.shiftl (Nat.iter 12 div_step (Z.land x 0xfff)) 12).
Proof.
  pose proof (land_fff_range x) as Hr. pose proof (div_steps_range 11 _ Hr) as Hd.
  unfold golay. rewrite u32_shiftl12 by done.
  rewrite Z.lxor_comm. symmetry. apply Z.lxor_lor, Z.bits_inj'. intros n Hn.
  rewrite Z.land_spec, Z.bits_0. destruct (decide (n < 12)).
  - by rewrite Z.shiftl_spec_low by lia.
  - change 0xfff with (Z.ones 12) at 2.
    rewrite Z.land_ones, mod_pow2_testbit, (proj2 (Z.ltb_ge n 12)) by lia. apply andb_false_r.
Qed.

Lemma shiftr12_range c : is23 c → 0 ≤ Z.shiftr c 12 < 2 ^ 11.
Proof.
  unfold is23. intros. rewrite Z.shiftr_div_pow2 by lia.
  split; [apply Z.div_pos; lia|apply Z.div_lt_upper_bound; lia].
Qed.

Lemma syndrome_split c : is23 c →
  syndrome c = Z.shiftl (Z.lxor (Nat.iter 12 div_step (Z.land c 0xfff)) (Z.shiftr c 12)) 12.
Proof.
  intros Hc. unfold syndrome. rewrite (land23 c Hc).
  pose proof (shiftr12_range c Hc) as Hh.
  rewrite <- (word_split c) at 1. rewrite div_steps_lxor, div_steps_high by lia.
  pose proof (div_steps_range 11 _ (land_fff_range c)) as Hd. revert Hd.
  generalize (Nat.iter 12 div_step (Z.land c 0xfff)). intros d Hd.
  apply u32_shiftl12, lxor_range; [lia|done|done].
Qed.

(** A code word is the encoding of its own data bits. *)
Lemma codeword_golay c : codeword c → c = golay c.
Proof.
  intros [Hc Hs]. rewrite golay_lxor_form. rewrite syndrome_split in Hs by done.
  revert Hs. generalize (Nat.iter 12 div_step (Z.land c 0xfff)). intros d Hs.
  apply Z.shiftl_eq_0_iff, Z.lxor_eq in Hs; [|lia]. subst d. symmetry. apply word_split.
Qed.

(** The code words of all 4096 data values are cyclic: rotating one gives another. *)
Lemma golay_table :
  forallb (λ d, let c := golay (Z.of_nat d) in
                (syndrome c =? 0) && (syndrome (rotate_left c 1) =? 0)) (seq 0 4096) = true.
Proof. vm_compute. reflexivity. Qed.

Lemma golay_low x : golay x = golay (Z.land x 0xfff).
Proof. unfold golay. by rewrite <- (Z.land_assoc x). Qed.

Lemma golay_checked x : syndrome (golay x) = 0 ∧ syndrome (rotate_left (golay x) 1) = 0.
Proof.
  rewrite golay_low. pose proof (land_fff_range x) as Hr.
  pose proof golay_table as Ht. rewrite forallb_forall in Ht.
  specialize (Ht (Z.to_nat (Z.land x 0xfff))). rewrite Z2Nat.id in Ht by lia.
  assert (In (Z.to_nat (Z.land x 4095)) (seq 0 4096)) as Hin by (apply in_seq; lia).
  specialize (Ht Hin). cbv zeta in Ht. bool_props. done.
Qed.

Lemma golay_is23 x : is23 (golay x).
Proof.
  rewrite golay_lxor_form. pose proof (land_fff_range x) as Hr.
  apply is23_lxor; unfold is23; [lia|].
  pose proof (div_steps_range 11 _ Hr). rewrite Z.shiftl_mul_pow2 by lia. lia.
Qed.

Lemma golay_codeword x : codeword (golay x).
Proof. exact (conj (golay_is23 x) (proj1 (golay_checked x))). Qed.

Lemma codeword_rotate c : codeword c → codeword (rotate_left c 1).
Proof.
  intros Hc. split; [apply rotate_left_is23|].
  rewrite (codeword_golay c Hc). exact (proj2 (golay_checked c)).
Qed.

Lemma golay_data x : Z.land (golay x) 0xfff = Z.land x 0xfff.
Proof.
  rewrite golay_lxor_form, land_lxor_distr, <- Z.land_assoc.
  change (Z.land 0xfff 0xfff) with 0xfff.
  change 0xfff with (Z.ones 12) at 3. rewrite Z.land_ones, Z.shiftl_mul_pow2 by lia.
  rewrite Z.mod_mul by lia. apply Z.lxor_0_r.
Qed.

(** ** Decoding depends on the error pattern only *)

Lemma syndrome_codeword_lxor c e : codeword c → syndrome (Z.lxor c e) = syndrome e.
Proof. intros [_ H]. by rewrite syndrome_lxor, H, Z.lxor_0_l. Qed.

Lemma syndrome_is23 x : is23 (syndrome x).
Proof.
  assert (syndrome x = syndrome (Z.land x 0x7fffff)) as ->.
  { unfold syndrome. by rewrite <- (Z.land_assoc x). }
  rewrite syndrome_split by apply is23_land.
  pose proof (shiftr12_range _ (is23_land x)) as Hh.
  pose proof (div_steps_range 11 _ (land_fff_range (Z.land x 0x7fffff))) as Hd.
  unfold is23. rewrite Z.shiftl_mul_pow2 by lia.
  enough (0 ≤ Z.lxor (Nat.iter 12 div_step (Z.land (Z.land x 8388607) 4095))
                (Z.shiftr (Z.land x 8388607) 12) < 2 ^ 11) by lia.
  apply lxor_range; [lia|done|done].
Qed.

Definition shift_result (c : Z) (r : (Z * Z) + Z) : (Z * Z) + Z :=
  match r with inl (x, errs) => inl (Z.lxor c x, errs) | inr errs => inr errs end.

Lemma correct_shifts_lxor n c x w e errs : (n ≤ 23)%nat → codeword c → is23 e →
  x = Nat.iter (23 - n) (λ y, rotate_left y 1) c → codeword x →
  correct_shifts n w (Z.lxor x e) (syndrome e) errs
  = shift_result c (correct_shifts n w e (syndrome e) errs).
Proof.
  revert x e errs. induction n as [|n IH]; intros x e errs Hn Hc He Hx Hcx; [done|].
  cbn [correct_shifts]. destruct (weight (syndrome e) <=? w).
  - simpl. rewrite Z.lxor_assoc, rotate_right_lxor
      by first [apply Hcx | auto using is23_lxor, syndrome_is23].
    rewrite Hx at 1. by rewrite rotate_right_left by apply Hc.
  - rewrite rotate_left_lxor by first [apply Hcx | done].
    rewrite syndrome_codeword_lxor by by apply codeword_rotate.
    apply IH; [lia|done|apply rotate_left_is23| |by apply codeword_rotate].
    rewrite Hx. replace (23 - n)%nat with (S (23 - S n)) by lia. done.
Qed.

Lemma mask_double k : 0 ≤ k < 22 → u32 (2 ^ k + 2 ^ k) = 2 ^ (k + 1).
Proof.
  intros. replace (2 ^ k + 2 ^ k) with (2 ^ (k + 1)) by (rewrite Z.pow_add_r by lia; lia).
  apply wrapu_small. split; [lia|]. apply Z.pow_lt_mono_r; lia.
Qed.

Lemma correct_loop_lxor n c e t w errs : (n ≤ 24)%nat → codeword c → is23 e → is23 t →
  let mask := 2 ^ Z.max 0 (22 - Z.of_nat n) in
  correct_loop n (Z.lxor c e) (Z.lxor c t) mask w errs
  = (Z.lxor c (correct_loop n e t mask w errs).1, (correct_loop n e t mask w errs).2).
Proof.
  revert t w errs. induction n as [|n IH]; intros t w errs Hn Hc He Ht mask; [done|].
  cbn [correct_loop]. cbv zeta. set (j := 23 - Z.of_nat (S n)).
  set (mask' := if 0 <? j then u32 (mask + mask) else mask).
  assert (mask' = 2 ^ Z.max 0 (22 - Z.of_nat n)) as Hm.
  { unfold mask', mask. destruct (Z.ltb_spec 0 j).
    - rewrite mask_double by lia. f_equal. lia.
    - f_equal. lia. }
  assert (is23 mask') as Hm23.
  { rewrite Hm. unfold is23. split; [lia|]. apply Z.pow_lt_mono_r; lia. }
  assert (∀ t' mask'' w', is23 t' → mask'' = 2 ^ Z.max 0 (22 - Z.of_nat n) →
    (if negb (syndrome (Z.lxor c t') =? 0) then
       match correct_shifts 23 w' (Z.lxor c t') (syndrome (Z.lxor c t')) errs with
       | inl r => r
       | inr errs => correct_loop n (Z.lxor c e) (Z.lxor c t') mask'' w' errs end
     else (Z.lxor c t', errs))
    = prod_map (Z.lxor c) id
      (if negb (syndrome t' =? 0) then
        match correct_shifts 23 w' t' (syndrome t') errs with
        | inl r => r
        | inr errs => correct_loop n e t' mask'' w' errs end
       else (t', errs))) as Hbody.
  { intros t' mask'' w' Ht' ->. rewrite syndrome_codeword_lxor by done.
    destruct (syndrome t' =? 0); [done|]. cbn [negb].
    rewrite (correct_shifts_lxor 23 c c) by done.
    destruct (correct_shifts 23 w' t' (syndrome t') errs) as [[x k]|k]; simpl; [done|].
    rewrite IH by (done || lia). done. }
  destruct (negb (j =? -1)) eqn:Ej.
  - rewrite Z.lxor_assoc, (Hbody (Z.lxor e mask') mask' 2) by auto using is23_lxor.
    by destruct (if negb _ then _ else _).
  - rewrite (Hbody t mask w); [by destruct (if negb _ then _ else _)|done|].
    bool_props. unfold mask. f_equal. lia.
Qed.

Lemma correct_lxor c e : codeword c → is23 e →
  correct (Z.lxor c e) = (Z.lxor c (correct e).1, (correct e).2).
Proof. intros. unfold correct. by apply (correct_loop_lxor 24). Qed.

(** ** Error patterns of up to three flipped bits *)

(** The 24-bit pattern with the bits at the given positions flipped. *)
Definition flips (ps : list Z) : Z := foldr (λ p e, Z.lxor (Z.shiftl 1 p) e) 0 ps.

(** Transmission of an encoded header with the given bit positions flipped. *)
Definition corrupt (data : Z * Z * Z) (ps : list Z) : Z * Z * Z :=
  unpack3 (Z.lxor (pack3 data) (flips ps)).

Definition pattern (i j k : Z) : Z := Z.land (flips [i; j; k]) 0x7fffff.

(** All patterns of at most three of the 23 protected bits (position 23, the
    parity bit, is outside the mask and stands for no flip) are corrected, and
    the reported count is the number of flips or one less. *)
Definition pattern_ok (e : Z) : bool :=
  let '(cw, errs) := correct e in
  (cw =? 0) && (weight e - 1 <=? errs) && (errs <=? weight e) && (implb (errs =? 0) (e =? 0)).

Lemma pattern_table :
  forallb (λ i, forallb (λ j, forallb (λ k,
    pattern_ok (pattern (Z.of_nat i) (Z.of_nat j) (Z.of_nat k)))
    (seq 0 (S j))) (seq 0 (S i))) (seq 0 24) = true.
Proof. vm_compute. reflexivity. Qed.

Lemma pattern_ok_sorted i j k : 0 ≤ k ≤ j → j ≤ i < 24 → pattern_ok (pattern i j k) = true.
Proof.
  intros Hk Hi. pose proof pattern_table as Ht.
  rewrite forallb_forall in Ht. specialize (Ht (Z.to_nat i) ltac:(apply in_seq; lia)).
  cbv beta in Ht. rewrite forallb_forall in Ht.
  specialize (Ht (Z.to_nat j) ltac:(apply in_seq; lia)). cbv beta in Ht.
  rewrite forallb_forall in Ht. specialize (Ht (Z.to_nat k) ltac:(apply in_seq; lia)).
  cbv beta in Ht. by rewrite !Z2Nat.id in Ht by lia.
Qed.

Lemma pattern_swap12 i j k : pattern i j k = pattern j i k.
Proof.
  unfold pattern. f_equal. cbn [flips foldr]. rewrite !Z.lxor_0_r, <- !Z.lxor_assoc.
  f_equal. apply Z.lxor_comm.
Qed.
Lemma pattern_swap23 i j k : pattern i j k = pattern i k j.
Proof.
  unfold pattern. f_equal. cbn [flips foldr]. rewrite !Z.lxor_0_r. f_equal. apply Z.lxor_comm.
Qed.

Lemma pattern_ok_any i j k : 0 ≤ i < 24 → 0 ≤ j < 24 → 0 ≤ k < 24 →
  pattern_ok (pattern i j k) = true.
Proof.
  intros. destruct (Z.le_ge_cases i j), (Z.le_ge_cases j k), (Z.le_ge_cases i k);
    first
    [ apply pattern_ok_sorted; lia
    | rewrite pattern_swap12; apply pattern_ok_sorted; lia
    | rewrite pattern_swap23; apply pattern_ok_sorted; lia
    | rewrite pattern_swap12, pattern_swap23; apply pattern_ok_sorted; lia
    | rewrite pattern_swap23, pattern_swap12; apply pattern_ok_sorted; lia
    | rewrite pattern_swap12, pattern_swap23, pattern_swap12; apply pattern_ok_sorted; lia ].
Qed.

(** Flipping nothing more: position 23 lies outside the protected bits. *)
Lemma flips_pad ps :
  Z.land (flips (ps ++ [23])) 0x7fffff = Z.land (flips ps) 0x7fffff.
Proof.
  induction ps as [|p ps IH]; [done|]. cbn [flips foldr app].
  fold (flips (ps ++ [23])) (flips ps). by rewrite !land_lxor_distr, IH.
Qed.

Lemma flips_ok ps : (length ps ≤ 3)%nat → Forall (λ p, 0 ≤ p < 24) ps →
  pattern_ok (Z.land (flips ps) 0x7fffff) = true.
Proof.
  intros Hl Hf. destruct ps as [|a [|b [|c [|? ?]]]]; [..|simpl in Hl; lia];
    repeat match goal with H : Forall _ (_ :: _) |- _ => apply Forall_cons in H; destruct H end.
  - apply (pattern_ok_any 23 23 23); lia.
  - rewrite <- flips_pad, <- flips_pad. by apply (pattern_ok_any a 23 23).
  - rewrite <- flips_pad. by apply (pattern_ok_any a b 23).
  - by apply (pattern_ok_any a b c).
Qed.

(** ** Bytes of a 24-bit word *)

Lemma land_ff_bits x n : 0 ≤ n → Z.testbit (Z.land x 0xFF) n = (n <? 8) && Z.testbit x n.
Proof. intros. change 0xFF with (Z.ones 8). by rewrite Z.land_ones, mod_pow2_testbit by lia. Qed.

Lemma pack3_unpack3 cw : 0 ≤ cw < 2 ^ 24 → pack3 (unpack3 cw) = cw.
Proof.
  intros Hcw. apply Z.bits_inj'. intros n Hn. unfold pack3, unpack3.
  rewrite !Z.lor_spec, !Z.shiftl_spec, land_ff_bits by lia.
  assert (∀ k, 0 ≤ k → Z.testbit (Z.land (Z.shiftr cw k) 255) (n - k)
      = (k <=? n) && (n - k <? 8) && Z.testbit cw n) as Hb.
  { intros k Hk. destruct (Z.leb_spec k n).
    - rewrite land_ff_bits, Z.shiftr_spec by lia. by replace (n - k + k) with n by lia.
    - by rewrite Z.testbit_neg_r by lia. }
  rewrite !Hb by lia. destruct (Z.ltb_spec n 24).
  - destruct (Z.testbit cw n); [|by rewrite !andb_false_r].
    repeat match goal with |- context [?a <? ?b] => destruct (Z.ltb_spec a b)
           | |- context [?a <=? ?b] => destruct (Z.leb_spec a b) end; simpl; lia || done.
  - rewrite <- (Z.mod_small cw (2 ^ 24)), Z.mod_pow2_bits_high by lia. by rewrite !andb_false_r.
Qed.

Lemma flips_range ps : Forall (λ p, 0 ≤ p < 24) ps → 0 ≤ flips ps < 2 ^ 24.
Proof.
  induction 1 as [|p ps Hp _ IH]; [simpl; lia|]. cbn [flips foldr]. fold (flips ps).
  apply lxor_range; [lia| |done]. rewrite Z.shiftl_1_l. split; [lia|].
  apply Z.pow_lt_mono_r; lia.
Qed.

(** What the encoder emits: the code word of the data, possibly with the parity bit. *)
Lemma golay_encode_word data :
  ∃ p, (p = 0 ∨ p = 0x800000) ∧ pack3 (golay_encode data) = Z.lxor (golay (pack3 data)) p.
Proof.
  unfold golay_encode. set (c := golay (pack3 data)).
  pose proof (golay_is23 (pack3 data)) as Hc. fold c in Hc. unfold is23 in Hc.
  destruct (negb (parity c =? 0)).
  - exists 0x800000. split; [auto|].
    assert (Z.lor c 0x800000 = Z.lxor c 0x800000) as ->.
    { symmetry. apply Z.lxor_lor, Z.bits_inj'. intros n Hn. change 0x800000 with (2 ^ 23).
      rewrite Z.land_spec, Z.bits_0, Z.pow2_bits_eqb by lia.
      destruct (Z.eqb_spec 23 n) as [<-|]; [|apply andb_false_r].
      rewrite <- (Z.mod_small c (2 ^ 23)), Z.mod_pow2_bits_high by lia. done. }
    apply pack3_unpack3, lxor_range; lia.
  - exists 0. split; [auto|]. rewrite Z.lxor_0_r. apply pack3_unpack3. lia.
Qed.

Lemma land_not_parity x : 0 ≤ x < 2 ^ 24 → Z.land x (Z.lnot 0x800000) = Z.land x 0x7fffff.
Proof.
  intros Hx. apply Z.bits_inj'. intros n Hn.
  change 0x800000 with (2 ^ 23). change 0x7fffff with (Z.ones 23).
  rewrite Z.land_ones, mod_pow2_testbit, Z.land_spec, Z.lnot_spec, Z.pow2_bits_eqb by lia.
  destruct (Z.eqb_spec 23 n) as [<-|]; [rewrite andb_false_r; done|]. rewrite andb_true_r.
  destruct (Z.ltb_spec n 23); [done|].
  rewrite <- (Z.mod_small x (2 ^ 24)), Z.mod_pow2_bits_high by lia. done.
Qed.

(** The decoder's view of a corrupted header. *)
Lemma decode_corrupt data ps :
  Forall (λ p, 0 ≤ p < 24) ps →
  let e := Z.land (flips ps) 0x7fffff in
  let w := Z.lxor (pack3 (golay_encode data)) (flips ps) in
  golay_decode (corrupt (golay_encode data) ps) =
  let '(x, errs) := correct e in
  let cw := Z.lor (Z.lxor (golay (pack3 data)) x) (Z.land w 0x800000) in
  (Z.land cw 0xFFF, if negb (parity cw =? 0) then errs + 1 else errs).
Proof.
  intros Hps e w. destruct (golay_encode_word data) as (p & Hp & Hw).
  pose proof (golay_is23 (pack3 data)) as Hc. pose proof (flips_range ps Hps) as Hf.
  assert (0 ≤ w < 2 ^ 24) as Hw24.
  { unfold w. rewrite Hw. unfold is23 in Hc. apply lxor_range; [lia| |done].
    apply lxor_range; lia. }
  unfold corrupt, golay_decode. rewrite pack3_unpack3 by done. fold w.
  rewrite land_not_parity by done.
  assert (Z.land w 0x7fffff = Z.lxor (golay (pack3 data)) e) as ->.
  { unfold w, e. rewrite Hw, !land_lxor_distr, (land23 _ Hc).
    assert (Z.land p 0x7fffff = 0) as -> by (destruct Hp as [-> | ->]; done).
    by rewrite Z.lxor_0_r. }
  rewrite correct_lxor by first [apply golay_codeword | apply is23_land].
  by destruct (correct e).
Qed.

Lemma land_fff_parity w : Z.land (Z.land w 0x800000) 0xFFF = 0.
Proof. by rewrite <- Z.land_assoc, Z.land_0_r. Qed.

(** Encoded headers have even parity. *)
Lemma encode_parity_table :
  forallb (λ d, let c := golay (Z.of_nat d) in
     (parity (if negb (parity c =? 0) then Z.lor c 0x800000 else c) =? 0) &&
     (Z.land c 0x800000 =? 0)) (seq 0 4096) = true.
Proof. vm_compute. reflexivity. Qed.

Lemma encode_unpack data : unpack3 (pack3 (golay_encode data)) = golay_encode data.
Proof.
  unfold golay_encode. pose proof (golay_is23 (pack3 data)) as Hc. revert Hc. unfold is23.
  generalize (golay (pack3 data)). intros c Hc. f_equal. apply pack3_unpack3.
  destruct (negb (parity c =? 0)); [|lia].
  change 0x800000 with (Z.shiftl 1 23). rewrite Z.lor_comm, lor_shiftl_add by lia. lia.
Qed.

Lemma golay_encode_parity data : parity (pack3 (golay_encode data)) = 0.
Proof.
  unfold golay_encode. rewrite golay_low. pose proof (land_fff_range (pack3 data)) as Hr.
  pose proof encode_parity_table as Ht. rewrite forallb_forall in Ht.
  specialize (Ht (Z.to_nat (Z.land (pack3 data) 4095)) ltac:(apply in_seq; lia)).
  rewrite Z2Nat.id in Ht by lia. cbv zeta in Ht. revert Ht.
  pose proof (golay_is23 (Z.land (pack3 data) 4095)) as Hc. unfold is23 in Hc.
  set (c := golay (Z.land (pack3 data) 4095)) in *. intros Ht. bool_props.
  rewrite pack3_unpack3; [done|].
  destruct (negb (parity c =? 0)); [|lia].
  change 0x800000 with (Z.shiftl 1 23). rewrite Z.lor_comm, lor_shiftl_add by lia. lia.
Qed.

(** Re-attaching the untouched parity bit to the corrected code word gives back
    the word that was sent. *)
Lemma reattach_parity data e : 0 ≤ e < 2 ^ 23 →
  Z.lor (golay (pack3 data)) (Z.land (Z.lxor (pack3 (golay_encode data)) e) 0x800000)
  = pack3 (golay_encode data).
Proof.
  intros He. destruct (golay_encode_word data) as (p & Hp & ->).
  pose proof (golay_is23 (pack3 data)) as Hc. unfold is23 in Hc.
  assert (∀ x, 0 ≤ x < 2 ^ 23 → Z.land x 0x800000 = 0) as Hz.
  { intros x Hx. change 0x800000 with (2 ^ 23). apply Z.bits_inj'. intros n Hn.
    rewrite Z.land_spec, Z.bits_0, Z.pow2_bits_eqb by lia.
    destruct (Z.eqb_spec 23 n) as [<-|]; [|apply andb_false_r].
    by rewrite <- (Z.mod_small x (2 ^ 23)), Z.mod_pow2_bits_high by lia. }
  rewrite !land_lxor_distr, (Hz e), (Hz (golay _)), Z.lxor_0_l, Z.lxor_0_r by done.
  assert (Z.land p 0x800000 = p) as -> by (destruct Hp as [-> | ->]; done).
  symmetry. apply Z.lxor_lor. destruct Hp as [-> | ->]; [apply Z.land_0_r|by apply Hz].
Qed.

Lemma pattern_ok_elim e : pattern_ok e = true →
  ∃ errs, correct e = (0, errs) ∧ weight e - 1 ≤ errs ≤ weight e ∧ (errs = 0 → e = 0).
Proof.
  unfold pattern_ok. destruct (correct e) as [x errs]. intros H. bool_props. subst x.
  exists errs. split; [done|]. split; [lia|]. intros ->. by apply Z.eqb_eq.
Qed.

Lemma correct_flips ps : (length ps ≤ 3)%nat → Forall (λ p, 0 ≤ p < 24) ps →
  let e := Z.land (flips ps) 0x7fffff in
  ∃ errs, correct e = (0, errs) ∧ weight e - 1 ≤ errs ≤ weight e ∧ (errs = 0 → e = 0).
Proof. intros Hl Hps e. by apply pattern_ok_elim, flips_ok. Qed.

Lemma golay_decode_flips (data : Z * Z * Z) (ps : list Z) : (length ps ≤ 3)%nat → Forall (λ p, 0 ≤ p < 24) ps →
  (golay_decode (corrupt (golay_encode data) ps)).1 = Z.land (pack3 data) 0xFFF.
Proof.
  intros Hl Hps. rewrite decode_corrupt by done. cbv zeta.
  destruct (correct_flips ps Hl Hps) as (errs & -> & _). cbn [fst].
  rewrite Z.lxor_0_r, Z.land_lor_distr_l, land_fff_parity, Z.lor_0_r.
  apply golay_data.
Qed.

(** C1: a header encoded by [golay_encode] and received with any three or fewer
    of its 24 bits flipped is decoded by [golay_decode] to the 12 data bits that
    were encoded. *)
Theorem golay_corrects_three (data : Z * Z * Z) (ps : list Z) :
  (length ps ≤ 3)%nat → Forall (λ p, 0 ≤ p < 24) ps →
  (golay_decode (corrupt (golay_encode data) ps)).1 = Z.land (pack3 data) 0xFFF.
Proof. apply golay_decode_flips. Qed.

Lemma golay_corrects_three_witness :
  (golay_decode (corrupt (golay_encode (0xab, 0x0c, 0)) [1; 11; 23])).1 = 0xcab.
Proof.
  apply (golay_corrects_three (0xab, 0x0c, 0) [1; 11; 23]); [simpl; lia|].
  repeat constructor; lia.
Defined.

(** When at most three of the 23 protected bits are flipped, the error count
    reported by [golay_decode] is the number of flipped bits or one less, and it
    is zero only when the header was not damaged. *)
Theorem golay_error_count (data : Z * Z * Z) (ps : list Z) :
  (length ps ≤ 3)%nat → Forall (λ p, 0 ≤ p < 23) ps →
  let errs := (golay_decode (corrupt (golay_encode data) ps)).2 in
  weight (flips ps) - 1 ≤ errs ≤ weight (flips ps) ∧
  (errs = 0 → corrupt (golay_encode data) ps = golay_encode data).
Proof.
  intros Hl Hps. cbv zeta.
  assert (Forall (λ p, 0 ≤ p < 24) ps) as Hps'.
  { eapply Forall_impl; [exact Hps|]. simpl. lia. }
  assert (is23 (flips ps)) as Hf.
  { clear Hl Hps'. induction Hps as [|p ps Hp _ IH]; [unfold is23; simpl; lia|].
    cbn [flips foldr]. fold (flips ps). apply is23_lxor; [|done].
    unfold is23. rewrite Z.shiftl_1_l. split; [lia|]. apply Z.pow_lt_mono_r; lia. }
  rewrite decode_corrupt by done. cbv zeta.
  destruct (correct_flips ps Hl Hps') as (errs & -> & He & Hz). cbn [snd].
  rewrite (land23 _ Hf) in He, Hz. rewrite Z.lxor_0_r, reattach_parity by done.
  rewrite golay_encode_parity. cbn [negb Z.eqb]. split; [done|]. intros ->. unfold corrupt.
  rewrite Hz, Z.lxor_0_r by done. apply encode_unpack.
Qed.

Lemma golay_error_count_witness :
  (golay_decode (corrupt (golay_encode (0xab, 0x0c, 0)) [0; 1; 11])).2 = 2 ∧
  weight (flips [0; 1; 11]) - 1 ≤ (golay_decode (corrupt (golay_encode (0xab, 0x0c, 0)) [0; 1; 11])).2.
Proof.
  split; [vm_compute; reflexivity|].
  apply (golay_error_count (0xab, 0x0c, 0) [0; 1; 11]); [simpl; lia|].
  repeat constructor; lia.
Defined.

End Golay.
