(* ===== verification/OverlayBuffer.v ===== *)
(** * Overlay buffers (overlay_buffer.c, overlay_buffer.h)

    Byte buffers with a position, a checkpoint and a size limit, through which
    every overlay packet is built and parsed. The buffer structure is a record;
    the memory it points to is an object of [Mem]. *)

From S2P Require Import Prelude Mem.

Module OB.
Section OB.
Context {arch : Arch} {allocator : Allocator}.

(** overlay_buffer.h: struct overlay_buffer *)
Record overlay_buffer := Buf {
  bytes : option ptr;
  checkpointLength : Z;
  position : Z;
  sizeLimit : Z;
  allocSize : Z;
  allocated : option ptr;
}.

Definition set_position (b : overlay_buffer) (v : Z) : overlay_buffer :=
  Buf (bytes b) (checkpointLength b) v (sizeLimit b) (allocSize b) (allocated b).
Definition set_checkpoint (b : overlay_buffer) (v : Z) : overlay_buffer :=
  Buf (bytes b) v (position b) (sizeLimit b) (allocSize b) (allocated b).
Definition set_sizeLimit (b : overlay_buffer) (v : Z) : overlay_buffer :=
  Buf (bytes b) (checkpointLength b) (position b) v (allocSize b) (allocated b).
Definition set_storage (b : overlay_buffer) (p : ptr) (n : Z) : overlay_buffer :=
  Buf (Some p) (checkpointLength b) (position b) (sizeLimit b) n (Some p).

(** Six pointer-sized fields. *)
Definition sizeof_overlay_buffer : Z := 6 * (size_bits / 8).

(** [emalloc_zero(sizeof(struct overlay_buffer))]: the structure itself is not
    addressed through [mem], only its failure to be allocated matters. *)
Definition new_struct (m : mem) : option overlay_buffer :=
  match malloc_answer m sizeof_overlay_buffer with
  | Some _ => Some (Buf None 0 0 0 0 None)
  | None => None
  end.

Definition ob_unlimitsize (b : overlay_buffer) : overlay_buffer := set_sizeLimit b SIZE_MAX.

Definition ob_new (m : mem) : option overlay_buffer :=
  ret ← new_struct m; Some (ob_unlimitsize ret).

Definition ob_static (m : mem) (p : option ptr) (size : Z) : option overlay_buffer :=
  ret ← new_struct m;
  Some (ob_unlimitsize (Buf p (checkpointLength ret) (position ret) (sizeLimit ret) size None)).

Definition ob_slice (m : mem) (b : overlay_buffer) (offset length : Z) : option overlay_buffer :=
  if allocSize b <? szadd offset length then None
  else
    ret ← new_struct m;
    Some (ob_unlimitsize (Buf ((λ p, ptr_add p offset) <$> bytes b) (checkpointLength ret)
                            (position ret) (sizeLimit ret) length None)).

Definition ob_checkpoint (b : overlay_buffer) : overlay_buffer := set_checkpoint b (position b).
Definition ob_rewind (b : overlay_buffer) : overlay_buffer := set_position b (checkpointLength b).

Definition is_static (b : overlay_buffer) : bool :=
  bool_decide (is_Some (bytes b)) && bool_decide (allocated b = None).

Definition ob_limitsize (b : overlay_buffer) (n : Z) : outcome overlay_buffer :=
  assert! negb (n =? SIZE_MAX);
  assert! position b <=? n;
  assert! checkpointLength b <=? n;
  assert! negb (is_static b) || (n <=? allocSize b);
  Ret (set_sizeLimit b n).

Definition ob_flip (b : overlay_buffer) : outcome overlay_buffer :=
  let b := set_checkpoint b 0 in
  b ← ob_limitsize b (position b);
  Ret (set_position b 0).

Definition ob_clear (b : overlay_buffer) : overlay_buffer :=
  ob_unlimitsize (set_position (set_checkpoint b 0) 0).

Definition ob_free (m : mem) (b : overlay_buffer) : outcome mem :=
  match allocated b with Some p => free m p | None => Ret m end.

(** The rounding of a new allocation in [_ob_makespace]. *)
Definition round_size (newSize : Z) : Z :=
  let newSize := if newSize <? 64 then 64 else newSize in
  let newSize := if negb (Z.land newSize 63 =? 0)
                 then szadd newSize (64 - Z.land newSize 63) else newSize in
  let newSize := if (1024 <? newSize) && negb (Z.land newSize 1023 =? 0)
                 then szadd newSize (1024 - Z.land newSize 1023) else newSize in
  if (65536 <? newSize) && negb (Z.land newSize 65535 =? 0)
  then szadd newSize (65536 - Z.land newSize 65535) else newSize.

(** [if (b->position) bcopy(b->bytes,new,b->position)] *)
Definition copy_old (m : mem) (b : overlay_buffer) (new : ptr) : outcome mem :=
  if negb (position b =? 0) then
    match bytes b with
    | Some old => bs ← load_bytes m old (position b); store_bytes m new bs
    | None => Undef
    end
  else Ret m.

(** [if (b->allocated) { assert(b->allocated == b->bytes); free(b->allocated); }] *)
Definition free_old (m : mem) (b : overlay_buffer) : outcome mem :=
  match allocated b with
  | Some old =>
      assert! bool_decide (allocated b = bytes b);
      free m old
  | None => Ret m
  end.

(** Returns whether space is available (1 or 0 in the source). *)
Definition ob_makespace (m : mem) (b : overlay_buffer) (n : Z) : outcome (mem * overlay_buffer * bool) :=
  assert! (position b =? 0) || bool_decide (is_Some (bytes b));
  if sizeLimit b <? szadd (position b) n then Ret (m, b, false)
  else if szadd (position b) n <=? allocSize b then Ret (m, b, true)
  else if is_static b then Ret (m, b, false)
  else
    let newSize := round_size (szadd (position b) n) in
    match emalloc m newSize with
    | (m, None) => Ret (m, b, false)
    | (m, Some new) =>
        m ← copy_old m b new;
        m ← free_old m b;
        Ret (m, set_storage b new newSize, true)
    end.

(** The address [&b->bytes[b->position]]. *)
Definition cur_ptr (b : overlay_buffer) : option ptr :=
  (λ p, ptr_add p (position b)) <$> bytes b.

Definition store_at (m : mem) (p : option ptr) (bs : list Z) : outcome mem :=
  match p with Some p => store_bytes m p bs | None => Undef end.

(** The shape shared by the [_ob_append_*] functions: the bytes are stored when
    there is room, and the position advances in any case. *)
Definition append_raw (m : mem) (b : overlay_buffer) (bs : list Z) : outcome (mem * overlay_buffer) :=
  r ← ob_makespace m b (Z.of_nat (length bs));
  let '(m, b, ok) := r in
  m ← (if (ok : bool) then store_at m (cur_ptr b) bs else Ret m);
  Ret (m, set_position b (szadd (position b) (Z.of_nat (length bs)))).

Definition ob_append_byte (m : mem) (b : overlay_buffer) (byte : Z) : outcome (mem * overlay_buffer) :=
  append_raw m b [byte].

(** Returns the address of the reserved space, or NULL. *)
Definition ob_append_space (m : mem) (b : overlay_buffer) (count : Z) :
    outcome (mem * overlay_buffer * option ptr) :=
  assert! 0 <? count;
  r ← ob_makespace m b count;
  let '(m, b, ok) := r in
  Ret (m, set_position b (szadd (position b) count), if (ok : bool) then cur_ptr b else None).

Definition ob_append_bytes (m : mem) (b : overlay_buffer) (bs : list Z) : outcome (mem * overlay_buffer) :=
  assert! 0 <? Z.of_nat (length bs);
  append_raw m b bs.

(** The string [str] is given without its terminating nul. *)
Definition ob_append_str (m : mem) (b : overlay_buffer) (str : list Z) : outcome (mem * overlay_buffer) :=
  ob_append_bytes m b (str ++ [0]).

Definition ob_append_ui16 (m : mem) (b : overlay_buffer) (v : Z) : outcome (mem * overlay_buffer) :=
  append_raw m b [Z.land (Z.shiftr v 8) 0xFF; Z.land v 0xFF].

Definition ob_append_ui16_rv (m : mem) (b : overlay_buffer) (v : Z) : outcome (mem * overlay_buffer) :=
  append_raw m b [Z.land v 0xFF; Z.land (Z.shiftr v 8) 0xFF].

Definition ob_append_ui32 (m : mem) (b : overlay_buffer) (v : Z) : outcome (mem * overlay_buffer) :=
  append_raw m b [Z.land (Z.shiftr v 24) 0xFF; Z.land (Z.shiftr v 16) 0xFF;
                  Z.land (Z.shiftr v 8) 0xFF; Z.land v 0xFF].

Definition ob_append_ui32_rv (m : mem) (b : overlay_buffer) (v : Z) : outcome (mem * overlay_buffer) :=
  append_raw m b [Z.land v 0xFF; Z.land (Z.shiftr v 8) 0xFF;
                  Z.land (Z.shiftr v 16) 0xFF; Z.land (Z.shiftr v 24) 0xFF].

Definition ob_append_ui64 (m : mem) (b : overlay_buffer) (v : Z) : outcome (mem * overlay_buffer) :=
  append_raw m b [Z.land (Z.shiftr v 56) 0xFF; Z.land (Z.shiftr v 48) 0xFF;
                  Z.land (Z.shiftr v 40) 0xFF; Z.land (Z.shiftr v 32) 0xFF;
                  Z.land (Z.shiftr v 24) 0xFF; Z.land (Z.shiftr v 16) 0xFF;
                  Z.land (Z.shiftr v 8) 0xFF; Z.land v 0xFF].

Definition ob_append_ui64_rv (m : mem) (b : overlay_buffer) (v : Z) : outcome (mem * overlay_buffer) :=
  append_raw m b [Z.land v 0xFF; Z.land (Z.shiftr v 8) 0xFF;
                  Z.land (Z.shiftr v 16) 0xFF; Z.land (Z.shiftr v 24) 0xFF;
                  Z.land (Z.shiftr v 32) 0xFF; Z.land (Z.shiftr v 40) 0xFF;
                  Z.land (Z.shiftr v 48) 0xFF; Z.land (Z.shiftr v 56) 0xFF].

(** [(v&0x7f) | (v>0x7f?0x80:0)]: the next byte of a packed integer. *)
Definition packed_byte (v : Z) : Z :=
  Z.lor (Z.land v 0x7f) (if 0x7f <? v then 0x80 else 0).

(** [do { ...; v >>= 7; ret++; } while (v)]; a 64-bit value has at most ten
    groups of seven bits. *)
Fixpoint measure_loop (fuel : nat) (v ret : Z) : Z :=
  match fuel with
  | O => ret
  | S fuel =>
      let v := Z.shiftr v 7 in
      if v =? 0 then ret + 1 else measure_loop fuel v (ret + 1)
  end.
Definition measure_packed_uint (v : Z) : Z := measure_loop 10 v 0.

Fixpoint pack_loop (fuel : nat) (v : Z) : list Z :=
  match fuel with
  | O => []
  | S fuel =>
      let byte := packed_byte v in
      let v := Z.shiftr v 7 in
      byte :: (if v =? 0 then [] else pack_loop fuel v)
  end.
(** The bytes written at [buffer]; their number is the return value. *)
Definition pack_uint (v : Z) : list Z := pack_loop 10 v.

(** [x << s] for [int] operands: undefined for counts outside [0..31], otherwise
    truncated to 32 bits. *)
Definition shl_int (x s : Z) : outcome Z :=
  defined! (0 <=? s) && (s <? 32);
  Ret (i32 (Z.shiftl x s)).

(** Returns the number of bytes consumed (-1 on failure) and [*v]. *)
Fixpoint unpack_loop (buffer : list Z) (i v : Z) : outcome (Z * Z) :=
  match buffer with
  | [] => Ret (-1, v)
  | byte :: buffer =>
      x ← shl_int (Z.land byte 0x7f) (i * 7);
      let v := Z.lor v (u64 x) in
      let i := i + 1 in
      if Z.land byte 0x80 =? 0 then Ret (i, v) else unpack_loop buffer i v
  end.
Definition unpack_uint (buffer : list Z) : outcome (Z * Z) := unpack_loop buffer 0 0.

(** [do { ob_append_byte(b, ...); v = v >> 7; } while (v != 0)]; [fuel] bounds the
    number of groups. *)
Fixpoint append_packed (fuel : nat) (m : mem) (b : overlay_buffer) (v : Z) : outcome (mem * overlay_buffer) :=
  match fuel with
  | O => Ret (m, b)
  | S fuel =>
      r ← ob_append_byte m b (packed_byte v);
      let '(m, b) := r in
      let v := Z.shiftr v 7 in
      if negb (v =? 0) then append_packed fuel m b v else Ret (m, b)
  end.
Definition ob_append_packed_ui32 (m : mem) (b : overlay_buffer) (v : Z) : outcome (mem * overlay_buffer) :=
  append_packed 5 m b v.
Definition ob_append_packed_ui64 (m : mem) (b : overlay_buffer) (v : Z) : outcome (mem * overlay_buffer) :=
  append_packed 10 m b v.

(** Whether [length] bytes at the position may be read (0 in the source). *)
Definition test_offset (b : overlay_buffer) (length : Z) : bool :=
  if sizeLimit b <? szadd (position b) length then false
  else if allocSize b <? szadd (position b) length then false
  else true.

Definition read_at (m : mem) (b : overlay_buffer) (ofs n : Z) : outcome (list Z) :=
  match bytes b with Some p => load_bytes m (ptr_add p ofs) n | None => Undef end.

Definition read_byte (m : mem) (b : overlay_buffer) (ofs : Z) : outcome Z :=
  match bytes b with Some p => load m (ptr_add p ofs) | None => Undef end.

Definition ob_peek (m : mem) (b : overlay_buffer) : outcome Z :=
  if test_offset b 1 then read_byte m b (position b) else Ret (-1).

Definition ob_skip (b : overlay_buffer) (n : Z) : overlay_buffer :=
  set_position b (szadd (position b) n).

(** [while (test_offset(b, ofs)==0) ...]: a result is the offset of the nul. *)
Fixpoint str_scan (fuel : nat) (m : mem) (b : overlay_buffer) (ofs : Z) : outcome (option Z) :=
  match fuel with
  | O => Ret None
  | S fuel =>
      if test_offset b ofs then
        c ← read_byte m b (szadd (position b) ofs);
        if c =? 0 then Ret (Some ofs) else str_scan fuel m b (ofs + 1)
      else Ret None
  end.

(** Returns the string (NULL is [None]) and advances past its nul. *)
Definition ob_get_str_ptr (m : mem) (b : overlay_buffer) : outcome (overlay_buffer * option ptr) :=
  let fuel := Z.to_nat (Z.min (sizeLimit b) (allocSize b) - position b + 2) in
  r ← str_scan fuel m b 0;
  match r with
  | Some ofs => Ret (set_position b (szadd (position b) (ofs + 1)), cur_ptr b)
  | None => Ret (b, None)
  end.

(** [None] is the failure return (-1). *)
Definition ob_get_bytes (m : mem) (b : overlay_buffer) (len : Z) : outcome (overlay_buffer * option (list Z)) :=
  if test_offset b len then
    bs ← read_at m b (position b) len;
    Ret (set_position b (szadd (position b) len), Some bs)
  else Ret (b, None).

Definition ob_get_bytes_ptr (b : overlay_buffer) (len : Z) : overlay_buffer * option ptr :=
  if test_offset b len then (set_position b (szadd (position b) len), cur_ptr b)
  else (b, None).

(** The fixed-width readers load their bytes at the position, combine them and
    advance; when the range is not readable they return a constant. *)
Definition get_fixed (m : mem) (b : overlay_buffer) (n : Z) (fail : Z) (combine : list Z → Z) :
    outcome (overlay_buffer * Z) :=
  if test_offset b n then
    bs ← read_at m b (position b) n;
    Ret (set_position b (szadd (position b) n), combine bs)
  else Ret (b, fail).

Definition nthb (bs : list Z) (i : nat) : Z := default 0 (bs !! i).

(** [bytes[i] << s] with the byte promoted to [int]. *)
Definition shl_byte (x s : Z) : Z := i32 (Z.shiftl x s).

Definition ob_get_ui32 (m : mem) (b : overlay_buffer) : outcome (overlay_buffer * Z) :=
  get_fixed m b 4 0xFFFFFFFF (λ bs,
    u32 (Z.lor (Z.lor (Z.lor (u32 (Z.shiftl (nthb bs 0) 24)) (u32 (shl_byte (nthb bs 1) 16)))
                      (u32 (shl_byte (nthb bs 2) 8))) (nthb bs 3))).

Definition ob_get_ui32_rv (m : mem) (b : overlay_buffer) : outcome (overlay_buffer * Z) :=
  get_fixed m b 4 0xFFFFFFFF (λ bs,
    u32 (Z.lor (u32 (Z.lor (Z.lor (nthb bs 0) (shl_byte (nthb bs 1) 8)) (shl_byte (nthb bs 2) 16)))
               (u32 (Z.shiftl (nthb bs 3) 24)))).

Definition ob_get_ui64 (m : mem) (b : overlay_buffer) : outcome (overlay_buffer * Z) :=
  get_fixed m b 8 0xFFFFFFFF (λ bs,
    foldl Z.lor 0
      [u64 (Z.shiftl (nthb bs 0) 56); u64 (Z.shiftl (nthb bs 1) 48);
       u64 (Z.shiftl (nthb bs 2) 40); u64 (Z.shiftl (nthb bs 3) 36);
       u64 (shl_byte (nthb bs 4) 24); u64 (shl_byte (nthb bs 5) 16);
       u64 (shl_byte (nthb bs 6) 8); nthb bs 7]).

Definition ob_get_ui64_rv (m : mem) (b : overlay_buffer) : outcome (overlay_buffer * Z) :=
  get_fixed m b 8 0xFFFFFFFF (λ bs,
    foldl Z.lor 0
      [nthb bs 0; u64 (Z.shiftl (nthb bs 1) 8);
       u64 (Z.shiftl (nthb bs 2) 16); u64 (Z.shiftl (nthb bs 3) 24);
       u64 (Z.shiftl (nthb bs 4) 32); u64 (Z.shiftl (nthb bs 5) 40);
       u64 (Z.shiftl (nthb bs 6) 48); u64 (Z.shiftl (nthb bs 7) 56)]).

Definition ob_get_ui16 (m : mem) (b : overlay_buffer) : outcome (overlay_buffer * Z) :=
  get_fixed m b 2 0xFFFF (λ bs, u16 (Z.lor (shl_byte (nthb bs 0) 8) (nthb bs 1))).

Definition ob_get_ui16_rv (m : mem) (b : overlay_buffer) : outcome (overlay_buffer * Z) :=
  get_fixed m b 2 0xFFFF (λ bs, u16 (Z.lor (nthb bs 0) (shl_byte (nthb bs 1) 8))).

Definition ob_get (m : mem) (b : overlay_buffer) : outcome (overlay_buffer * Z) :=
  if test_offset b 1 then
    c ← read_byte m b (position b);
    Ret (set_position b (szadd (position b) 1), c)
  else Ret (b, -1).

(** [do { ... } while (byte & 0x80)] for an accumulator of [w] bits. The loop
    consumes a readable byte per round, so [fuel] is the number of readable
    bytes plus one. A failed read returns [WHY(...)], which is -1. *)
Fixpoint get_packed (w : Z) (fuel : nat) (m : mem) (b : overlay_buffer) (ret shift : Z) :
    outcome (overlay_buffer * Z) :=
  match fuel with
  | O => Undef
  | S fuel =>
      r ← ob_get m b;
      let '(b, byte) := r in
      if byte <? 0 then Ret (b, wrapu w (-1))
      else
        x ← shl_int (Z.land byte 0x7f) shift;
        let ret := Z.lor ret (wrapu w x) in
        let shift := shift + 7 in
        if negb (Z.land byte 0x80 =? 0) then get_packed w fuel m b ret shift
        else Ret (b, ret)
  end.
Definition readable (b : overlay_buffer) : nat :=
  Z.to_nat (Z.min (sizeLimit b) (allocSize b) - position b).
Definition ob_get_packed_ui32 (m : mem) (b : overlay_buffer) : outcome (overlay_buffer * Z) :=
  get_packed 32 (S (readable b)) m b 0 0.
Definition ob_get_packed_ui64 (m : mem) (b : overlay_buffer) : outcome (overlay_buffer * Z) :=
  get_packed 64 (S (readable b)) m b 0 0.

Definition set_bytes (m : mem) (b : overlay_buffer) (offset : Z) (bs : list Z) : outcome mem :=
  assert! szadd offset (Z.of_nat (length bs)) <=? sizeLimit b;
  assert! szadd offset (Z.of_nat (length bs)) <=? allocSize b;
  store_at m ((λ p, ptr_add p offset) <$> bytes b) bs.

Definition ob_set_ui16 (m : mem) (b : overlay_buffer) (offset v : Z) : outcome mem :=
  set_bytes m b offset [Z.land (Z.shiftr v 8) 0xFF; Z.land v 0xFF].

Definition ob_set (m : mem) (b : overlay_buffer) (offset byte : Z) : outcome mem :=
  set_bytes m b offset [byte].

Definition ob_position (b : overlay_buffer) : Z := position b.
Definition ob_limit (b : overlay_buffer) : Z := sizeLimit b.

Definition ob_remaining (b : overlay_buffer) : outcome Z :=
  assert! negb (sizeLimit b =? SIZE_MAX);
  assert! position b <=? sizeLimit b;
  Ret (sizeLimit b - position b).

Definition ob_overrun (b : overlay_buffer) : bool :=
  (if negb (sizeLimit b =? SIZE_MAX) && (sizeLimit b <? allocSize b)
   then sizeLimit b else allocSize b) <? position b.

Definition ob_dup (m : mem) (b : overlay_buffer) : outcome (mem * option overlay_buffer) :=
  match new_struct m with
  | None => Ret (m, None)
  | Some ret =>
      let ret := Buf (bytes ret) (checkpointLength b) (position b) (sizeLimit b)
                     (allocSize ret) (allocated ret) in
      match bytes b with
      | Some p =>
          if negb (allocSize b =? 0) then
            byteCount ← (if negb (sizeLimit b =? SIZE_MAX) then
                           assert! position b <=? sizeLimit b; Ret (sizeLimit b)
                         else Ret (position b));
            let byteCount := if allocSize b <? byteCount then allocSize b else byteCount in
            if negb (byteCount =? 0) then
              bs ← load_bytes m p byteCount;
              r ← ob_append_bytes m ret bs;
              Ret (r.1, Some r.2)
            else Ret (m, Some ret)
          else Ret (m, Some ret)
      | None => Ret (m, Some ret)
      end
  end.

(** ** Well-formed buffers *)

(** The bytes the buffer describes. *)
Definition region (m : mem) (b : overlay_buffer) : list Z :=
  match bytes b with
  | Some p => match m !! blk p with
              | Some l => take (Z.to_nat (allocSize b)) (drop (Z.to_nat (off p)) l)
              | None => []
              end
  | None => []
  end.

(** A recorded position lies in the allocation, or beyond the size limit (an
    overrun that the limit keeps reporting), or the buffer cannot be grown. *)
Definition settled (b : overlay_buffer) (x : Z) : Prop :=
  x ≤ allocSize b ∨ sizeLimit b < x ∨ is_static b = true.

Record ob_inv (m : mem) (b : overlay_buffer) : Prop := {
  inv_checkpoint : 0 ≤ checkpointLength b ≤ SIZE_MAX;
  inv_position : 0 ≤ position b ≤ SIZE_MAX;
  inv_limit : 0 ≤ sizeLimit b ≤ SIZE_MAX;
  inv_alloc : 0 ≤ allocSize b ≤ SIZE_MAX;
  inv_live : match bytes b with
             | Some p => ∃ l, m !! blk p = Some l ∧ 0 ≤ off p ∧
                              off p + allocSize b ≤ Z.of_nat (length l)
             | None => allocSize b = 0 ∧ allocated b = None
             end;
  inv_own q : allocated b = Some q → bytes b = Some q ∧ off q = 0;
  inv_settled_pos : settled b (position b);
  inv_settled_check : settled b (checkpointLength b);
}.

Lemma region_length m b : ob_inv m b → Z.of_nat (length (region m b)) = allocSize b.
Proof.
  intros Hi. pose proof (inv_live _ _ Hi) as Hl. pose proof (inv_alloc _ _ Hi) as Ha.
  unfold region. destruct (bytes b) as [p|]; [|simpl; lia].
  destruct Hl as (l & -> & ? & ?). rewrite length_take, length_drop. lia.
Qed.

Lemma read_at_region m b ofs n : ob_inv m b → 0 ≤ ofs → 0 < n → ofs + n ≤ allocSize b →
  read_at m b ofs n = Ret (take (Z.to_nat n) (drop (Z.to_nat ofs) (region m b))).
Proof.
  intros Hi Ho Hn Hle. pose proof (inv_live _ _ Hi) as Hl. unfold read_at, region.
  destruct (bytes b) as [p|]; [|lia]. destruct Hl as (l & Hm & ? & ?). rewrite Hm.
  rewrite (load_bytes_Ret _ _ _ l) by (simpl; done || lia). simpl. f_equal.
  rewrite skipn_firstn_comm, take_take, drop_drop. f_equal; [lia|]. f_equal. lia.
Qed.

Lemma read_byte_region m b ofs : ob_inv m b → 0 ≤ ofs → ofs < allocSize b →
  ∃ c, region m b !! Z.to_nat ofs = Some c ∧ read_byte m b ofs = Ret c.
Proof.
  intros Hi Ho Hle. pose proof (inv_live _ _ Hi) as Hl. pose proof (region_length _ _ Hi) as Hr.
  destruct (lookup_lt_is_Some_2 (region m b) (Z.to_nat ofs)) as [c Hc]; [lia|].
  exists c. split; [done|]. unfold read_byte, region in *.
  destruct (bytes b) as [p|]; [|lia]. destruct Hl as (l & Hm & ? & ?). rewrite Hm in Hc.
  apply (load_Ret _ _ l); simpl; [done|lia|].
  rewrite lookup_take_lt in Hc by lia. rewrite lookup_drop in Hc. rewrite <- Hc. f_equal. lia.
Qed.

(** Changing the cursors of a buffer does not change its bytes. *)
Lemma region_same m b b' : bytes b' = bytes b → allocSize b' = allocSize b →
  region m b' = region m b.
Proof. unfold region. by intros -> ->. Qed.

Lemma store_at_region m b ofs bs : ob_inv m b → 0 ≤ ofs → bs ≠ [] →
  ofs + Z.of_nat (length bs) ≤ allocSize b →
  ∃ m', store_at m ((λ p, ptr_add p ofs) <$> bytes b) bs = Ret m' ∧ ob_inv m' b ∧
        region m' b = take (Z.to_nat ofs) (region m b) ++ bs
                      ++ drop (Z.to_nat ofs + length bs) (region m b).
Proof.
  intros Hi Ho Hbs Hle. pose proof (inv_live _ _ Hi) as Hl.
  assert (0 < Z.of_nat (length bs)) by (destruct bs; [done|simpl; lia]).
  destruct (bytes b) as [p|] eqn:Eb; [|lia]. destruct Hl as (l & Hm & ? & ?). simpl.
  rewrite (store_bytes_Ret _ _ _ l) by (simpl; done || lia). simpl. eexists. split; [done|].
  split.
  - destruct Hi. split; try done. rewrite Eb. simpl.
    eexists. rewrite lookup_insert_eq. split; [done|]. split; [done|].
    rewrite splice_length by lia. lia.
  - unfold region. rewrite Eb, lookup_insert_eq, Hm. simpl.
    rewrite Z2Nat.inj_add by lia. apply splice_window; lia.
Qed.

(** ** Growing a buffer *)

Lemma round_up_mask x k mask : 0 ≤ x → 0 < k → mask = 2 ^ k - 1 → x + 2 ^ k ≤ SIZE_MAX →
  let y := if negb (Z.land x mask =? 0) then szadd x (2 ^ k - Z.land x mask) else x in
  x ≤ y < x + 2 ^ k ∧ y mod 2 ^ k = 0.
Proof.
  intros Hx Hk -> Hmax. replace (2 ^ k - 1) with (Z.ones k) by (rewrite Z.ones_equiv; lia).
  rewrite Z.land_ones by lia. pose proof (Z.mod_pos_bound x (2 ^ k) ltac:(lia)) as Hm.
  cbv zeta. case_if.
  - rewrite szadd_small by lia. split; [lia|].
    replace (x + (2 ^ k - x mod 2 ^ k)) with ((x / 2 ^ k + 1) * 2 ^ k)
      by (pose proof (Z.div_mod x (2 ^ k)); lia).
    apply Z.mod_mul. lia.
  - split; [lia|done].
Qed.

Lemma mod_pow2_weaken y j k : 0 ≤ j ≤ k → y mod 2 ^ k = 0 → y mod 2 ^ j = 0.
Proof.
  intros Hjk Hy. apply Z.mod_divide in Hy; [|lia]. apply Z.mod_divide; [lia|].
  etransitivity; [|exact Hy]. exists (2 ^ (k - j)). rewrite <- Z.pow_add_r by lia. f_equal. lia.
Qed.

(** A new allocation holds what was asked for and is a multiple of 64 bytes. *)
Lemma round_size_spec n : 0 ≤ n → n + 2 ^ 17 ≤ SIZE_MAX →
  n ≤ round_size n ≤ n + 2 ^ 17 ∧ round_size n mod 64 = 0.
Proof.
  intros Hn Hmax. unfold round_size. pose proof SIZE_MAX_pos.
  set (n1 := if n <? 64 then 64 else n).
  assert (n ≤ n1 ≤ n + 64) as H1 by (unfold n1; case_if; lia).
  pose proof (round_up_mask n1 6 63 ltac:(lia) ltac:(lia) eq_refl ltac:(lia)) as H2.
  cbv zeta in H2. change (2 ^ 6) with 64 in H2.
  set (n2 := if negb (Z.land n1 63 =? 0) then _ else n1) in *.
  destruct H2 as [H2 H2m].
  assert (∀ x k mask, 0 ≤ x → 6 ≤ k → mask = 2 ^ k - 1 → x + 2 ^ k ≤ SIZE_MAX → x mod 64 = 0 →
    let y := if (mask + 1 <? x) && negb (Z.land x mask =? 0)
             then szadd x (mask + 1 - Z.land x mask) else x in
    x ≤ y < x + 2 ^ k ∧ y mod 64 = 0) as Hr.
  { intros x k mask Hx Hk Hmask Hxm Hx64. cbv zeta.
    pose proof (round_up_mask x k mask ltac:(lia) ltac:(lia) Hmask Hxm) as [Hy Hym].
    replace (mask + 1) with (2 ^ k) by lia. destruct (2 ^ k <? x); simpl; [|lia].
    destruct (negb (Z.land x mask =? 0)); [|lia]. split; [lia|].
    apply (mod_pow2_weaken _ 6 k); [lia|done]. }
  pose proof (Hr n2 10 1023 ltac:(lia) ltac:(lia) eq_refl ltac:(lia) H2m) as H3. cbv zeta in H3.
  change (1023 + 1) with 1024 in H3.
  set (n3 := if (1024 <? n2) && negb (Z.land n2 1023 =? 0) then _ else n2) in *.
  destruct H3 as [H3 H3m].
  pose proof (Hr n3 16 65535 ltac:(lia) ltac:(lia) eq_refl ltac:(lia) H3m) as H4.
  cbv zeta in H4. change (65535 + 1) with 65536 in H4. destruct H4 as [H4 H4m].
  split; [lia|exact H4m].
Qed.

(** Whether an append of [n] bytes at the position is stored. *)
Definition fits (b : overlay_buffer) (n : Z) : bool :=
  (position b + n <=? sizeLimit b) && (negb (is_static b) || (position b + n <=? allocSize b)).

(** The state in which [_ob_makespace] does not fail its assertion. *)
Definition can_append (b : overlay_buffer) (n : Z) : Prop :=
  0 ≤ n ∧ position b + n + 2 ^ 17 ≤ SIZE_MAX ∧ (position b = 0 ∨ bytes b ≠ None).

Lemma is_static_spec b : is_static b = true ↔ bytes b ≠ None ∧ allocated b = None.
Proof.
  unfold is_static. rewrite andb_true_iff, !bool_decide_eq_true, <- not_eq_None_Some. done.
Qed.

(** The fields [_ob_makespace] leaves alone. *)
Definition same_cursors (b b' : overlay_buffer) : Prop :=
  position b' = position b ∧ checkpointLength b' = checkpointLength b ∧
  sizeLimit b' = sizeLimit b ∧ is_static b' = is_static b ∧ allocSize b ≤ allocSize b'.

Lemma copy_old_spec m b nb nl : ob_inv m b → m !! nb = None →
  position b ≤ allocSize b → position b ≤ Z.of_nat (length nl) →
  ∃ nl', copy_old (<[nb := nl]> m) b (Ptr nb 0) = Ret (<[nb := nl']> m) ∧
    length nl' = length nl ∧
    take (Z.to_nat (position b)) nl' = take (Z.to_nat (position b)) (region m b).
Proof.
  intros Hi Hfresh Hpa Hnl. pose proof (inv_position _ _ Hi) as Hp.
  pose proof (inv_live _ _ Hi) as Hl. unfold copy_old.
  destruct (Z.eqb_spec (position b) 0) as [E0|E0]; simpl.
  { exists nl. by rewrite E0. }
  unfold region. destruct (bytes b) as [p|] eqn:Eb; [|lia].
  destruct Hl as (l & Hm & ? & ?). rewrite Hm.
  assert (nb ≠ blk p) as Hne by (intros E; rewrite <- E in Hm; congruence).
  rewrite (load_bytes_Ret _ _ _ l); [|by rewrite lookup_insert_ne|lia..].
  set (bs := take (Z.to_nat (position b)) (drop (Z.to_nat (off p)) l)). simpl.
  assert (length bs = Z.to_nat (position b)) as Hbs.
  { unfold bs. rewrite length_take, length_drop. lia. }
  rewrite (store_bytes_Ret _ _ _ nl); [|by rewrite lookup_insert_eq|simpl; lia..].
  exists (bs ++ drop (length bs) nl). simpl. rewrite insert_insert_eq.
  split; [done|]. split; [rewrite length_app, length_drop; lia|].
  rewrite <- Hbs at 1. rewrite take_app_length. unfold bs. rewrite take_take. f_equal. lia.
Qed.

Lemma free_old_spec m b nb nl : ob_inv m b → m !! nb = None →
  ∃ m', free_old (<[nb := nl]> m) b = Ret m' ∧ m' !! nb = Some nl.
Proof.
  intros Hi Hfresh. pose proof (inv_live _ _ Hi) as Hl. unfold free_old.
  destruct (allocated b) as [old|] eqn:Eal; [|eexists; split; [done|]; by rewrite lookup_insert_eq].
  destruct (inv_own _ _ Hi old Eal) as [Eb Eo]. rewrite Eb in *.
  destruct Hl as (l & Hm & _ & _). rewrite bool_decide_eq_true_2 by done.
  assert (nb ≠ blk old) as Hne by (intros E; rewrite <- E in Hm; congruence).
  unfold free. rewrite lookup_insert_ne, Hm, Eo by done. simpl.
  eexists. split; [done|]. by rewrite lookup_delete_ne, lookup_insert_eq by done.
Qed.

(** A freshly allocated storage that is large enough gives a well-formed buffer. *)
Lemma set_storage_inv m0 m b nb nl n : ob_inv m0 b → is_static b = false → m !! nb = Some nl →
  position b ≤ n → allocSize b ≤ n ≤ SIZE_MAX → n = Z.of_nat (length nl) →
  ob_inv m (set_storage b (Ptr nb 0) n).
Proof.
  intros Hi Hst Hm Hpn Hn Hlen. pose proof (inv_settled_check _ _ Hi) as Hsc.
  unfold settled in Hsc. rewrite Hst in Hsc.
  destruct Hi. split; simpl; try done; try lia.
  - exists nl. repeat split; [done|lia|lia].
  - by intros q [= <-].
  - by left.
  - destruct Hsc as [?|[?|?]]; [left; simpl; lia|right; left; simpl; lia|done].
Qed.

Lemma can_append_assert b n : can_append b n →
  (position b =? 0) || bool_decide (is_Some (bytes b)) = true.
Proof.
  intros (_ & _ & [->|Hb]); [done|].
  rewrite bool_decide_eq_true_2 by by apply not_eq_None_Some. apply orb_true_r.
Qed.

Lemma ob_makespace_grow m b n : malloc_total → ob_inv m b → can_append b n →
  is_static b = false → allocSize b < position b + n → position b + n ≤ sizeLimit b →
  ∃ m' b', ob_makespace m b n = Ret (m', b', true) ∧ ob_inv m' b' ∧ same_cursors b b' ∧
    position b + n ≤ allocSize b' ∧
    take (Z.to_nat (position b)) (region m' b') = take (Z.to_nat (position b)) (region m b).
Proof.
  intros Hmt Hi Hc Hst Hgrow Hlim. pose proof (can_append_assert b n Hc) as Has.
  destruct Hc as (Hn & Hmax & _).
  pose proof (inv_position _ _ Hi) as Hp. pose proof (inv_alloc _ _ Hi) as Ha.
  pose proof (inv_settled_pos _ _ Hi) as Hsp. unfold settled in Hsp. rewrite Hst in Hsp.
  assert (position b ≤ allocSize b) as Hpa by (destruct Hsp as [?|[?|?]]; [lia|lia|done]).
  unfold ob_makespace. rewrite Has, Hst, szadd_small by lia. do 2 decide_cmp. cbv iota.
  destruct (round_size_spec (position b + n) ltac:(lia) ltac:(lia)) as [Hrs _].
  unfold emalloc. set (newSize := round_size (position b + n)) in *.
  destruct (malloc_answer m newSize) as [nl|] eqn:Enl; [|exfalso; eapply Hmt; [|exact Enl]; lia].
  pose proof (malloc_answer_length _ _ _ Enl) as Hnl.
  set (nb := fresh (dom m)).
  assert (m !! nb = None) as Hfresh by apply not_elem_of_dom, is_fresh.
  destruct (copy_old_spec m b nb nl Hi Hfresh) as (nl' & -> & Hnl' & Hcopy); [lia..|].
  rewrite bind_ret_l. destruct (free_old_spec m b nb nl' Hi Hfresh) as (m3 & -> & Hm3).
  rewrite bind_ret_l. exists m3, (set_storage b (Ptr nb 0) newSize). split; [done|].
  split; [|split; [|split; [simpl; lia|]]].
  - apply (set_storage_inv m _ _ _ nl'); done || lia.
  - unfold same_cursors. split_and!; done || (simpl; lia).
  - unfold region at 1. simpl. rewrite Hm3, drop_0, take_take, <- Hcopy. f_equal. lia.
Qed.

Lemma ob_makespace_spec m b n : malloc_total → ob_inv m b → can_append b n →
  ∃ m' b', ob_makespace m b n = Ret (m', b', fits b n) ∧ ob_inv m' b' ∧ same_cursors b b' ∧
    (fits b n = true → position b + n ≤ allocSize b') ∧
    take (Z.to_nat (position b)) (region m' b') = take (Z.to_nat (position b)) (region m b).
Proof.
  intros Hmt Hi Hc. pose proof (can_append_assert b n Hc) as Has.
  pose proof (inv_position _ _ Hi) as Hp.
  destruct (decide (is_static b = false ∧ allocSize b < position b + n ≤ sizeLimit b))
    as [(Hst & Hgrow & Hlim)|Hno].
  - destruct (ob_makespace_grow m b n) as (m' & b' & -> & ? & ? & ? & ?); try done.
    exists m', b'. unfold fits. rewrite Hst. decide_cmp. by split_and!.
  - destruct Hc as (Hn & Hmax & _). exists m, b.
    assert (same_cursors b b) by (unfold same_cursors; split_and!; done || lia).
    unfold ob_makespace, fits. rewrite Has, szadd_small by lia.
    destruct (Z.ltb_spec (sizeLimit b) (position b + n)); [decide_cmp; by split_and!|].
    destruct (Z.leb_spec (position b + n) (allocSize b)).
    + decide_cmp. rewrite orb_true_r. by split_and!.
    + destruct (is_static b) eqn:Est; [|exfalso; apply Hno; split; [done|lia]].
      decide_cmp. by split_and!.
Qed.

Lemma set_position_inv m b x : ob_inv m b → 0 ≤ x ≤ SIZE_MAX → settled b x →
  ob_inv m (set_position b x).
Proof. intros [] Hx Hs. by split. Qed.

Lemma same_cursors_settled b b' x : same_cursors b b' → settled b x → settled b' x.
Proof.
  unfold settled. intros (_ & _ & -> & -> & ?) [?|[?|?]]; [left; lia|auto|auto].
Qed.

Lemma advance_settled b b' n : same_cursors b b' →
  (fits b n = true → position b + n ≤ allocSize b') → settled b' (position b + n).
Proof.
  intros (_ & _ & Hlim & Hst & _) Hroom. unfold settled. rewrite Hlim, Hst.
  destruct (fits b n) eqn:Hfit; [left; auto|]. unfold fits in Hfit.
  rewrite andb_false_iff, orb_false_iff in Hfit.
  destruct Hfit as [?|[? ?]]; bool_props; auto with lia.
Qed.

(** What an append leaves: the position has advanced and, when the bytes fit,
    they follow what had been written. *)
Record appended (m : mem) (b : overlay_buffer) (bs : list Z) (m' : mem) (b' : overlay_buffer) : Prop := {
  app_inv : ob_inv m' b';
  app_position : position b' = position b + Z.of_nat (length bs);
  app_checkpoint : checkpointLength b' = checkpointLength b;
  app_limit : sizeLimit b' = sizeLimit b;
  app_static : is_static b' = is_static b;
  app_alloc : allocSize b ≤ allocSize b';
  app_fits : fits b (Z.of_nat (length bs)) = true → position b' ≤ allocSize b' ∧
     take (Z.to_nat (position b')) (region m' b')
     = take (Z.to_nat (position b)) (region m b) ++ bs;
  app_kept : take (Z.to_nat (position b)) (region m' b') = take (Z.to_nat (position b)) (region m b);
}.

Lemma append_raw_spec m b bs : malloc_total → ob_inv m b → bs ≠ [] →
  can_append b (Z.of_nat (length bs)) →
  ∃ m' b', append_raw m b bs = Ret (m', b') ∧ appended m b bs m' b'.
Proof.
  intros Hmt Hi Hbs Hc. pose proof (inv_position _ _ Hi) as Hp.
  destruct (ob_makespace_spec m b _ Hmt Hi Hc) as (m1 & b1 & Hms & Hi1 & Hsame & Hroom & Hkeep).
  pose proof (same_cursors_settled b b1) as Hset.
  pose proof Hsame as (Hpos & Hchk & Hlim & Hst & Hal).
  destruct Hc as (Hn & Hmax & _). set (n := Z.of_nat (length bs)) in *.
  unfold append_raw. fold n. rewrite Hms, bind_ret_l, Hpos, szadd_small by lia.
  destruct (fits b n) eqn:Hfit.
  - specialize (Hroom eq_refl).
    destruct (store_at_region m1 b1 (position b) bs) as (m2 & Hst2 & Hi2 & Hreg); try (done || lia).
    unfold cur_ptr. rewrite Hpos, Hst2, bind_ret_l.
    eexists _, _. split; [done|]. split; simpl; try done.
    + apply set_position_inv; [done|lia|left; lia].
    + intros _. split; [lia|]. rewrite (region_same m2 b1) by done. rewrite Hreg, <- Hkeep.
      pose proof (region_length _ _ Hi1). rewrite Z2Nat.inj_add by lia.
      replace (Z.to_nat n) with (length bs) by lia. apply take_splice_end. lia.
    + rewrite (region_same m2 b1) by done. rewrite Hreg, <- Hkeep.
      pose proof (region_length _ _ Hi1). apply take_splice; lia.
  - rewrite bind_ret_l. eexists _, _. split; [done|]. split; simpl; try done.
    + apply set_position_inv; [done|lia|]. apply (advance_settled b); [done|congruence].
    + fold n. congruence.
Qed.

(** ** The combining expressions of the fixed-width readers *)

Lemma shl_byte_small b k : is_byte b → 0 ≤ k ≤ 16 → shl_byte b k = b * 2 ^ k.
Proof.
  unfold is_byte. intros Hb Hk. unfold shl_byte. rewrite Z.shiftl_mul_pow2 by lia.
  assert (2 ^ k ≤ 2 ^ 16) by (apply Z.pow_le_mono_r; lia).
  apply wraps_small; [lia|]. simpl. nia.
Qed.

Lemma shiftl_byte_small w b k : is_byte b → 0 ≤ k → k + 8 ≤ w → wrapu w (Z.shiftl b k) = b * 2 ^ k.
Proof.
  unfold is_byte. intros Hb Hk Hw. rewrite Z.shiftl_mul_pow2 by lia.
  assert (2 ^ (k + 8) ≤ 2 ^ w) by (apply Z.pow_le_mono_r; lia).
  rewrite Z.pow_add_r in * by lia. apply wrapu_small. nia.
Qed.

End OB.

(** Folds a chain of disjoint ors of shifted bytes into a sum. *)
Ltac combine_bytes :=
  rewrite ?shl_byte_small, ?shiftl_byte_small by (done || lia);
  unfold is_byte in *.

Lemma combine_be16 b0 b1 : is_byte b0 → is_byte b1 →
  u16 (Z.lor (shl_byte b0 8) b1) = be_value [b0; b1].
Proof.
  intros. combine_bytes. rewrite lor_high by lia. unfold be_value. simpl.
  rewrite wrapu_small; lia.
Qed.

Lemma combine_le16 b0 b1 : is_byte b0 → is_byte b1 →
  u16 (Z.lor b0 (shl_byte b1 8)) = le_value [b0; b1].
Proof. intros. combine_bytes. rewrite lor_low by lia. simpl. rewrite wrapu_small; lia. Qed.

Lemma combine_be32 b0 b1 b2 b3 : is_byte b0 → is_byte b1 → is_byte b2 → is_byte b3 →
  u32 (Z.lor (Z.lor (Z.lor (u32 (Z.shiftl b0 24)) (u32 (shl_byte b1 16)))
                    (u32 (shl_byte b2 8))) b3) = be_value [b0; b1; b2; b3].
Proof.
  intros. combine_bytes. rewrite !(wrapu_small 32 (_ * _)) by lia.
  rewrite (lor_high b0 _ 24) by lia.
  replace (b0 * 2 ^ 24 + b1 * 2 ^ 16) with ((b0 * 256 + b1) * 2 ^ 16) by lia.
  rewrite lor_high by lia.
  replace ((b0 * 256 + b1) * 2 ^ 16 + b2 * 2 ^ 8) with ((b0 * 65536 + b1 * 256 + b2) * 2 ^ 8) by lia.
  rewrite lor_high by lia. unfold be_value. simpl. rewrite wrapu_small; lia.
Qed.

Lemma combine_le32 b0 b1 b2 b3 : is_byte b0 → is_byte b1 → is_byte b2 → is_byte b3 →
  u32 (Z.lor (u32 (Z.lor (Z.lor b0 (shl_byte b1 8)) (shl_byte b2 16))) (u32 (Z.shiftl b3 24)))
  = le_value [b0; b1; b2; b3].
Proof.
  intros. combine_bytes. rewrite (lor_low b0), (lor_low _ b2) by lia.
  rewrite (wrapu_small 32 (_ + _)), lor_low by lia. simpl. rewrite wrapu_small; lia.
Qed.

Lemma combine_le64 b0 b1 b2 b3 b4 b5 b6 b7 :
  Forall is_byte [b0; b1; b2; b3; b4; b5; b6; b7] →
  foldl Z.lor 0 [b0; u64 (Z.shiftl b1 8); u64 (Z.shiftl b2 16); u64 (Z.shiftl b3 24);
    u64 (Z.shiftl b4 32); u64 (Z.shiftl b5 40); u64 (Z.shiftl b6 48); u64 (Z.shiftl b7 56)]
  = le_value [b0; b1; b2; b3; b4; b5; b6; b7].
Proof.
  intros Hf. rewrite !Forall_cons in Hf. destruct_and!. cbn [foldl]. combine_bytes.
  rewrite Z.lor_0_l, (lor_low b0), (lor_low _ b2), (lor_low _ b3), (lor_low _ b4),
    (lor_low _ b5), (lor_low _ b6), (lor_low _ b7) by lia. simpl. lia.
Qed.

End OB.
