(* ===== verification/OverlayBufferSpec.v ===== *)
(** * What overlay buffers guarantee

    Memory safety of every buffer operation, the round trip of the fields
    written to a buffer and read back, and the functions that miss their
    contract. *)

From S2P Require Import Prelude Mem OverlayBuffer.
Import OB.

Module OBSpec.
Section OBSpec.
Context {arch : Arch} {allocator : Allocator}.

(** ** Operations as steps *)

Inductive ob_op :=
| Checkpoint | Rewind | LimitSize (n : Z) | UnlimitSize | Flip | Clear
| AppendByte (v : Z) | AppendSpace (n : Z) | AppendBytes (l : list Z) | AppendStr (l : list Z)
| AppendUi16 (v : Z) | AppendUi16Rv (v : Z) | AppendUi32 (v : Z) | AppendUi32Rv (v : Z)
| AppendUi64 (v : Z) | AppendUi64Rv (v : Z) | AppendPacked32 (v : Z) | AppendPacked64 (v : Z)
| Peek | Skip (n : Z) | Get | GetBytes (n : Z) | GetBytesPtr (n : Z)
| GetUi16 | GetUi16Rv | GetUi32 | GetUi32Rv | GetUi64 | GetUi64Rv
| SetByte (offset v : Z) | SetUi16 (offset v : Z)
| GetStrPtr | GetPacked32 | GetPacked64 | Remaining | Dup.

(** The memory and the buffer after an operation. *)
Definition run (m : mem) (b : overlay_buffer) (op : ob_op) : outcome (mem * overlay_buffer) :=
  match op with
  | Checkpoint => Ret (m, ob_checkpoint b)
  | Rewind => Ret (m, ob_rewind b)
  | LimitSize n => b ← ob_limitsize b n; Ret (m, b)
  | UnlimitSize => Ret (m, ob_unlimitsize b)
  | Flip => b ← ob_flip b; Ret (m, b)
  | Clear => Ret (m, ob_clear b)
  | AppendByte v => ob_append_byte m b v
  | AppendSpace n => r ← ob_append_space m b n; Ret r.1
  | AppendBytes l => ob_append_bytes m b l
  | AppendStr l => ob_append_str m b l
  | AppendUi16 v => ob_append_ui16 m b v
  | AppendUi16Rv v => ob_append_ui16_rv m b v
  | AppendUi32 v => ob_append_ui32 m b v
  | AppendUi32Rv v => ob_append_ui32_rv m b v
  | AppendUi64 v => ob_append_ui64 m b v
  | AppendUi64Rv v => ob_append_ui64_rv m b v
  | AppendPacked32 v => ob_append_packed_ui32 m b v
  | AppendPacked64 v => ob_append_packed_ui64 m b v
  | Peek => _ ← ob_peek m b; Ret (m, b)
  | Skip n => Ret (m, ob_skip b n)
  | Get => r ← ob_get m b; Ret (m, r.1)
  | GetBytes n => r ← ob_get_bytes m b n; Ret (m, r.1)
  | GetBytesPtr n => Ret (m, (ob_get_bytes_ptr b n).1)
  | GetUi16 => r ← ob_get_ui16 m b; Ret (m, r.1)
  | GetUi16Rv => r ← ob_get_ui16_rv m b; Ret (m, r.1)
  | GetUi32 => r ← ob_get_ui32 m b; Ret (m, r.1)
  | GetUi32Rv => r ← ob_get_ui32_rv m b; Ret (m, r.1)
  | GetUi64 => r ← ob_get_ui64 m b; Ret (m, r.1)
  | GetUi64Rv => r ← ob_get_ui64_rv m b; Ret (m, r.1)
  | SetByte o v => m ← ob_set m b o v; Ret (m, b)
  | SetUi16 o v => m ← ob_set_ui16 m b o v; Ret (m, b)
  | GetStrPtr => r ← ob_get_str_ptr m b; Ret (m, r.1)
  | GetPacked32 => r ← ob_get_packed_ui32 m b; Ret (m, r.1)
  | GetPacked64 => r ← ob_get_packed_ui64 m b; Ret (m, r.1)
  | Remaining => _ ← ob_remaining b; Ret (m, b)
  | Dup => r ← ob_dup m b; Ret (r.1, b)
  end.

(** Both recorded positions lie in storage that will not be moved from under
    them: raising the size limit is safe. *)
Definition in_storage (b : overlay_buffer) : Prop :=
  (position b ≤ allocSize b ∧ checkpointLength b ≤ allocSize b) ∨ is_static b = true.

(** The bytes from the position on that may be read. *)
Definition unread (m : mem) (b : overlay_buffer) : list Z :=
  drop (Z.to_nat (position b)) (take (Z.to_nat (sizeLimit b)) (region m b)).
(** A packed integer ends within [k] groups, or the bytes do. *)
Fixpoint packed_ends (k : nat) (l : list Z) : bool :=
  match l, k with
  | [], _ => true
  | _, O => false
  | c :: l, S k => (Z.land c 0x80 =? 0) || packed_ends k l
  end.

(** What the caller must ensure: the conditions the functions assert, positions
    that do not wrap around, no change of limit after an overrun; of what is read, that
    a string ends before the storage does and a packed integer after five groups at most;
    and that a buffer is copied at its start only. *)
Definition op_ok (m : mem) (b : overlay_buffer) (op : ob_op) : Prop :=
  match op with
  | Checkpoint | Rewind | Clear => True
  | LimitSize n =>
      0 ≤ n < SIZE_MAX ∧ position b ≤ n ∧ checkpointLength b ≤ n ∧
      (is_static b = true → n ≤ allocSize b) ∧ in_storage b
  | UnlimitSize => in_storage b
  | Flip => position b < SIZE_MAX ∧ (is_static b = true → position b ≤ allocSize b)
  | AppendByte _ => can_append b 1
  | AppendSpace n => 0 < n ∧ can_append b n
  | AppendBytes l => l ≠ [] ∧ can_append b (Z.of_nat (length l))
  | AppendStr l => can_append b (Z.of_nat (length l) + 1)
  | AppendUi16 _ | AppendUi16Rv _ => can_append b 2
  | AppendUi32 _ | AppendUi32Rv _ => can_append b 4
  | AppendUi64 _ | AppendUi64Rv _ => can_append b 8
  | AppendPacked32 _ => can_append b 5 ∧ (bytes b ≠ None ∨ 0 < sizeLimit b)
  | AppendPacked64 _ => can_append b 10 ∧ (bytes b ≠ None ∨ 0 < sizeLimit b)
  | Peek | Get | GetUi16 | GetUi16Rv | GetUi32 | GetUi32Rv | GetUi64 | GetUi64Rv =>
      position b + 8 ≤ SIZE_MAX
  | Skip n => 0 ≤ n ∧ position b + n ≤ SIZE_MAX ∧ settled b (position b + n)
  | GetBytes n | GetBytesPtr n => 0 < n ∧ position b + n ≤ SIZE_MAX
  | SetByte o _ => 0 ≤ o ∧ o + 1 ≤ sizeLimit b ∧ o + 1 ≤ allocSize b
  | SetUi16 o _ => 0 ≤ o ∧ o + 2 ≤ sizeLimit b ∧ o + 2 ≤ allocSize b
  | GetStrPtr => 0 ∈ unread m b ∨ sizeLimit b < Z.max (position b) (allocSize b)
  | GetPacked32 | GetPacked64 => packed_ends 5 (unread m b) = true ∧ position b < SIZE_MAX ∧ sizeLimit b < SIZE_MAX
  | Remaining => sizeLimit b ≠ SIZE_MAX ∧ position b ≤ sizeLimit b
  | Dup => position b = 0 ∧ checkpointLength b = 0 ∧ (sizeLimit b = SIZE_MAX ∨ sizeLimit b + 2 ^ 17 ≤ SIZE_MAX)
  end.

(** ** Preservation of the invariant *)

Lemma test_offset_spec b n : 0 ≤ position b → 0 ≤ n → position b + n ≤ SIZE_MAX →
  test_offset b n = (position b + n <=? sizeLimit b) && (position b + n <=? allocSize b).
Proof.
  intros. unfold test_offset. rewrite szadd_small by lia.
  destruct (Z.ltb_spec (sizeLimit b) (position b + n)); [by decide_cmp|].
  destruct (Z.ltb_spec (allocSize b) (position b + n)); by do 2 decide_cmp.
Qed.

Lemma advance_inv m b n : ob_inv m b → 0 ≤ n → position b + n ≤ SIZE_MAX →
  test_offset b n = true → ob_inv m (set_position b (szadd (position b) n)).
Proof.
  intros Hi Hn Hmax. pose proof (inv_position _ _ Hi).
  rewrite test_offset_spec, szadd_small by lia. intros Ht. bool_props.
  apply set_position_inv; [done|lia|left; lia].
Qed.

Lemma get_fixed_safe m b n fail f : ob_inv m b → 0 < n → position b + n ≤ SIZE_MAX →
  ∃ b' v, get_fixed m b n fail f = Ret (b', v) ∧ ob_inv m b'.
Proof.
  intros Hi Hn Hmax. pose proof (inv_position _ _ Hi). unfold get_fixed.
  destruct (test_offset b n) eqn:Ht; [|by eexists _, _].
  pose proof Ht as Ht'. rewrite test_offset_spec in Ht' by lia. bool_props.
  rewrite read_at_region by (done || lia). rewrite bind_ret_l.
  eexists _, _. split; [done|]. apply advance_inv; done || lia.
Qed.

Lemma ob_get_safe m b : ob_inv m b → position b + 1 ≤ SIZE_MAX →
  ∃ b' v, ob_get m b = Ret (b', v) ∧ ob_inv m b'.
Proof.
  intros Hi Hmax. pose proof (inv_position _ _ Hi). unfold ob_get.
  destruct (test_offset b 1) eqn:Ht; [|by eexists _, _].
  pose proof Ht as Ht'. rewrite test_offset_spec in Ht' by lia. bool_props.
  destruct (read_byte_region m b (position b)) as (c & _ & ->); [done|lia|lia|].
  rewrite bind_ret_l. eexists _, _. split; [done|]. apply advance_inv; done || lia.
Qed.

Lemma append_safe m b bs : malloc_total → ob_inv m b → bs ≠ [] →
  can_append b (Z.of_nat (length bs)) →
  ∃ m' b', append_raw m b bs = Ret (m', b') ∧ ob_inv m' b'.
Proof.
  intros Hmt Hi Hbs Hc.
  destruct (append_raw_spec m b bs Hmt Hi Hbs Hc) as (m' & b' & ? & []). eauto.
Qed.

Lemma position_bytes m b : ob_inv m b → 0 < position b ≤ allocSize b → bytes b ≠ None.
Proof.
  intros Hi Hp E. pose proof (inv_live _ _ Hi) as Hl. rewrite E in Hl. lia.
Qed.

(** Storage is never given up by an append. *)
Lemma append_bytes_kept m b bs m' b' : append_raw m b bs = Ret (m', b') →
  bytes b ≠ None → bytes b' ≠ None.
Proof.
  unfold append_raw. intros Ha Hb. apply bind_ret_inv in Ha as ([[m1 b1] ok] & Hm & Ha).
  apply bind_ret_inv in Ha as (m2 & _ & [= _ <-]). simpl. revert Hm.
  unfold ob_makespace. repeat (case_if; try discriminate); try (by intros [= _ <- _]).
  destruct (emalloc m _) as [m3 [new|]]; [|by intros [= _ <- _]].
  intros Hm. apply bind_ret_inv in Hm as (? & _ & Hm).
  by apply bind_ret_inv in Hm as (? & _ & [= _ <- _]).
Qed.

(** An append leaves every object alone that is not the buffer's own, and does not
    move the buffer into one. *)
Definition apart (b : overlay_buffer) (k : nat) : Prop := ∀ p, bytes b = Some p → blk p ≠ k.
Lemma makespace_frame m b n m' b' ok k l : ob_makespace m b n = Ret (m', b', ok) → m !! k = Some l → apart b k →
  m' !! k = Some l ∧ apart b' k.
Proof.
  intros Hm Hk Hap. revert Hm. unfold ob_makespace. repeat (case_if; try discriminate); try (by intros [= <- <- _]).
  unfold emalloc. destruct (malloc_answer m _) as [nl|]; [|by intros [= <- <- _]].
  set (nb := fresh (dom m)). assert (nb ≠ k) as Hne.
  { intros E. pose proof (is_fresh (dom m)) as Hf. fold nb in Hf. rewrite E in Hf. apply Hf, elem_of_dom. by eexists. }
  intros Hm. apply bind_ret_inv in Hm as (m2 & Hc & Hm). apply bind_ret_inv in Hm as (m3 & Hf & [= <- <- _]).
  assert (m2 !! k = Some l) as Hk2.
  { revert Hc. unfold copy_old. case_if; [|intros [= <-]; by rewrite lookup_insert_ne].
    destruct (bytes b); [|done]. intros Hc. apply bind_ret_inv in Hc as (? & _ & Hc). revert Hc. unfold store_bytes.
    destruct (object_at _ _ _); [|done]. intros [= <-]. cbn [blk]. by rewrite !lookup_insert_ne. }
  split; [|intros p; cbn; intros [= <-]; done]. revert Hf. unfold free_old. destruct (allocated b) as [old|]; [|by intros [= <-]].
  destruct (bool_decide_reflect (Some old = bytes b)) as [Hb|]; [|done]. unfold free. destruct (m2 !! blk old); [|done].
  destruct (off old =? 0); [|done]. intros [= <-]. rewrite lookup_delete_ne; [done|]. by apply Hap.
Qed.
Lemma append_frame m b bs m' b' k l : append_raw m b bs = Ret (m', b') → m !! k = Some l → apart b k →
  m' !! k = Some l ∧ apart b' k.
Proof.
  unfold append_raw. intros Ha Hk Hap. apply bind_ret_inv in Ha as ([[m1 b1] ok] & Hm & Ha).
  destruct (makespace_frame _ _ _ _ _ _ _ _ Hm Hk Hap) as [Hk1 Hap1].
  apply bind_ret_inv in Ha as (m2 & Hs & [= <- <-]). split; [|exact Hap1].
  revert Hs. destruct ok; [|by intros [= <-]]. unfold store_at, cur_ptr. destruct (bytes b1) as [p|] eqn:Eb; [|done]. cbn.
  unfold store_bytes. destruct (object_at _ _ _); [|done]. intros [= <-]. cbn [blk ptr_add]. by rewrite lookup_insert_ne by (by apply Hap1).
Qed.

Lemma append_packed_safe fuel m b v : malloc_total → ob_inv m b →
  can_append b (Z.of_nat fuel) → bytes b ≠ None ∨ 0 < sizeLimit b →
  ∃ m' b', append_packed fuel m b v = Ret (m', b') ∧ ob_inv m' b'.
Proof.
  revert m b v. induction fuel as [|fuel IH]; intros m b v Hmt Hi Hc Hb; [by eexists _, _|].
  assert (can_append b 1) as Hc1 by (destruct Hc as (? & ? & ?); split_and!; done || lia).
  cbn [append_packed]. unfold ob_append_byte.
  destruct (append_raw_spec m b [packed_byte v] Hmt Hi ltac:(done) Hc1) as (m1 & b1 & Hap & []).
  rewrite Hap, bind_ret_l. case_if; [|by eexists _, _].
  assert (bytes b1 ≠ None) as Hb1.
  { destruct (decide (bytes b = None)) as [E|E]; [|by eapply append_bytes_kept].
    destruct Hb as [?|Hl]; [done|]. pose proof (inv_position _ _ Hi).
    destruct Hc as (_ & _ & [Hp|?]); [|done].
    assert (fits b (Z.of_nat (length [packed_byte v])) = true) as Hf.
    { unfold fits, is_static. rewrite E, Hp. simpl. by decide_cmp. }
    destruct (app_fits0 Hf) as [Hle _]. simpl in *. apply (position_bytes m1); [done|lia]. }
  simpl in *. apply IH; [done..| |by left].
  destruct Hc as (? & ? & _). split_and!; [lia|lia|by right].
Qed.

Lemma set_sizeLimit_inv m b n : ob_inv m b → 0 ≤ n ≤ SIZE_MAX → in_storage b →
  ob_inv m (set_sizeLimit b n).
Proof.
  intros [] Hn Hin. split; simpl; try done;
    (destruct Hin as [[? ?]|?]; [by left|right; by right]).
Qed.

Lemma ob_flip_inv m b : ob_inv m b → position b < SIZE_MAX →
  (is_static b = true → position b ≤ allocSize b) →
  ∃ b', ob_flip b = Ret b' ∧ ob_inv m b'.
Proof.
  intros Hi Hmax Hst. pose proof (inv_position _ _ Hi). pose proof (inv_alloc _ _ Hi).
  unfold ob_flip, ob_limitsize. simpl. do 3 decide_cmp. cbn [negb].
  assert (negb (is_static (set_checkpoint b 0)) || (position b <=? allocSize b) = true) as ->.
  { change (is_static (set_checkpoint b 0)) with (is_static b).
    destruct (is_static b); [simpl; decide_cmp; done|done]. }
  eexists. split; [done|]. destruct Hi. split; simpl; try done; try lia; left; simpl; lia.
Qed.

Lemma append_space_safe m b n : malloc_total → ob_inv m b → 0 < n → can_append b n →
  ∃ m' b' p, ob_append_space m b n = Ret (m', b', p) ∧ ob_inv m' b'.
Proof.
  intros Hmt Hi Hn Hc. pose proof (inv_position _ _ Hi).
  destruct (ob_makespace_spec m b n Hmt Hi Hc) as (m1 & b1 & Hms & Hi1 & Hsame & Hroom & _).
  unfold ob_append_space. rewrite (proj2 (Z.ltb_lt 0 n)), Hms, bind_ret_l by done.
  eexists _, _, _. split; [done|]. pose proof (advance_settled _ _ _ Hsame Hroom) as Hs.
  destruct Hsame as (Hpos & _). destruct Hc as (_ & ? & _). rewrite Hpos, szadd_small by lia.
  apply set_position_inv; done || lia.
Qed.

Lemma append_bytes_safe m b bs : malloc_total → ob_inv m b → bs ≠ [] →
  can_append b (Z.of_nat (length bs)) →
  ∃ m' b', ob_append_bytes m b bs = Ret (m', b') ∧ ob_inv m' b'.
Proof.
  intros. unfold ob_append_bytes. rewrite (proj2 (Z.ltb_lt 0 _)); [by apply append_safe|].
  destruct bs; [done|simpl; lia].
Qed.

Lemma get_bytes_safe m b n : ob_inv m b → 0 < n → position b + n ≤ SIZE_MAX →
  ∃ b' v, ob_get_bytes m b n = Ret (b', v) ∧ ob_inv m b'.
Proof.
  intros Hi Hn Hmax. pose proof (inv_position _ _ Hi). unfold ob_get_bytes.
  destruct (test_offset b n) eqn:Ht; [|by eexists _, _].
  pose proof Ht as Ht'. rewrite test_offset_spec in Ht' by lia. bool_props.
  rewrite read_at_region by (done || lia). rewrite bind_ret_l.
  eexists _, _. split; [done|]. apply advance_inv; done || lia.
Qed.

Lemma peek_safe m b : ob_inv m b → position b + 1 ≤ SIZE_MAX → is_ret (ob_peek m b).
Proof.
  intros Hi Hmax. pose proof (inv_position _ _ Hi). unfold ob_peek.
  destruct (test_offset b 1) eqn:Ht; [|by eexists].
  rewrite test_offset_spec in Ht by lia. bool_props.
  destruct (read_byte_region m b (position b)) as (c & _ & ->); [done|lia|lia|by eexists].
Qed.

Lemma set_bytes_safe m b o bs : ob_inv m b → bs ≠ [] → 0 ≤ o →
  o + Z.of_nat (length bs) ≤ sizeLimit b → o + Z.of_nat (length bs) ≤ allocSize b →
  ∃ m', set_bytes m b o bs = Ret m' ∧ ob_inv m' b.
Proof.
  intros Hi Hbs Ho Hl Ha. pose proof (inv_alloc _ _ Hi). unfold set_bytes.
  rewrite szadd_small by lia. do 2 decide_cmp.
  destruct (store_at_region m b o bs) as (m' & ? & ? & _); [done..|]. eauto.
Qed.

(** *** Strings, packed integers and copies *)

Lemma unread_at m b i c : unread m b !! i = Some c ↔ region m b !! (Z.to_nat (position b) + i)%nat = Some c ∧ (Z.to_nat (position b) + i < Z.to_nat (sizeLimit b))%nat.
Proof. unfold unread. rewrite lookup_drop. apply lookup_take_Some. Qed.
Lemma str_scan_safe fuel m b : ∀ ofs, ob_inv m b → 0 ≤ ofs → Z.min (sizeLimit b) (allocSize b) - position b + 2 - ofs ≤ Z.of_nat fuel →
  position b + ofs ≤ SIZE_MAX → (0 ∈ drop (Z.to_nat ofs) (unread m b) ∨ sizeLimit b < Z.max (position b) (allocSize b)) →
  ∃ r, str_scan fuel m b ofs = Ret r ∧ ∀ k, r = Some k → 0 ≤ k ∧ position b + k < allocSize b ∧ position b + k ≤ sizeLimit b.
Proof.
  induction fuel as [|fuel IH]; intros ofs Hi Ho Hf Hmax Hok; cbn [str_scan]; [by exists None|].
  pose proof (inv_position _ _ Hi). pose proof (inv_limit _ _ Hi). pose proof (inv_alloc _ _ Hi). pose proof (region_length _ _ Hi) as Hlen.
  rewrite test_offset_spec by lia. destruct (Z.leb_spec (position b + ofs) (sizeLimit b)); [|by exists None]. destruct (Z.leb_spec (position b + ofs) (allocSize b)); [|by exists None]. cbn [andb].
  assert (position b + ofs < allocSize b) as Hin. { destruct Hok as [Hin|?]; [|lia]. apply list_elem_of_lookup_1 in Hin as [i Hi']. rewrite lookup_drop in Hi'. apply unread_at in Hi' as [Hr%lookup_lt_Some _]. lia. }
  rewrite szadd_small by lia. destruct (read_byte_region m b (position b + ofs)) as (c & Hc & ->); [done|lia|lia|]. rewrite bind_ret_l.
  destruct (Z.eqb_spec c 0) as [->|Hc0]; [exists (Some ofs); split; [done|]; intros k [= <-]; lia|]. apply IH; [done|lia|lia| |].
  - pose proof SIZE_MAX_pos. lia.
  - destruct Hok as [Hin0|?]; [left|by right]. destruct (drop (Z.to_nat ofs) (unread m b)) as [|x l] eqn:El; [by apply elem_of_nil in Hin0|]. replace (Z.to_nat (ofs + 1)) with (1 + Z.to_nat ofs)%nat by lia. rewrite Nat.add_comm, <- drop_drop, El. cbn. rewrite drop_0.
    apply elem_of_cons in Hin0 as [<-|?]; [|done]. exfalso. assert (unread m b !! Z.to_nat ofs = Some 0) as Hx by (rewrite <- (Nat.add_0_r (Z.to_nat ofs)), <- lookup_drop, El; done). apply unread_at in Hx as [Hx _]. rewrite <- Z2Nat.inj_add in Hx by lia. congruence.
Qed.
Lemma get_str_safe m b : ob_inv m b → op_ok m b GetStrPtr → ∃ b' p, ob_get_str_ptr m b = Ret (b', p) ∧ ob_inv m b'.
Proof.
  intros Hi Hok. pose proof (inv_position _ _ Hi). pose proof (inv_alloc _ _ Hi). unfold ob_get_str_ptr.
  destruct (str_scan_safe (Z.to_nat (Z.min (sizeLimit b) (allocSize b) - position b + 2)) m b 0 Hi) as (r & -> & Hr); [lia|lia|lia|by rewrite drop_0|]. rewrite bind_ret_l.
  destruct r as [k|]; eexists _, _; (split; [reflexivity|]); [|done]. destruct (Hr k eq_refl) as (? & ? & ?). rewrite szadd_small by lia. apply set_position_inv; [done|lia|left; lia].
Qed.

Lemma unread_next m b c l : ob_inv m b → unread m b = c :: l → position b < SIZE_MAX → unread m (set_position b (szadd (position b) 1)) = l.
Proof.
  intros Hi E Hp. pose proof (inv_position _ _ Hi). rewrite szadd_small by lia. unfold unread in *. cbn. change (region m (set_position b _)) with (region m b).
  replace (Z.to_nat (position b + 1)) with (Z.to_nat (position b) + 1)%nat by lia. by rewrite <- drop_drop, E.
Qed.
Lemma get_packed_safe w k : ∀ fuel m b ret shift, ob_inv m b → packed_ends k (unread m b) = true → position b < SIZE_MAX → sizeLimit b < SIZE_MAX → (length (unread m b) < fuel)%nat → 0 ≤ shift → shift + 7 * Z.of_nat k ≤ 35 →
  ∃ b' v, get_packed w fuel m b ret shift = Ret (b', v) ∧ ob_inv m b'.
Proof.
  induction k as [|k IH]; intros fuel m b ret shift Hi Hends Hp Hlim Hf Hs Hk; (destruct fuel as [|fuel]; [lia|]); cbn [get_packed]; pose proof (inv_position _ _ Hi); pose proof (inv_limit _ _ Hi); pose proof (region_length _ _ Hi) as Hlen; pose proof (inv_alloc _ _ Hi);
    unfold ob_get; rewrite test_offset_spec by lia; (destruct (unread m b) as [|c l] eqn:El;
    [assert (¬ (position b + 1 ≤ sizeLimit b ∧ position b + 1 ≤ allocSize b)) as Hno by (intros [? ?]; apply (f_equal length) in El; unfold unread in El; rewrite length_drop, length_take in El; cbn in El; lia);
     destruct (Z.leb_spec (position b + 1) (sizeLimit b)); destruct (Z.leb_spec (position b + 1) (allocSize b)); try lia; cbn [andb]; rewrite bind_ret_l; cbn; by eexists _, _|]); [done|].
  assert (unread m b !! 0%nat = Some c) as Hc by (by rewrite El). apply unread_at in Hc as [Hc Hlt]. rewrite Nat.add_0_r in Hc, Hlt. pose proof (lookup_lt_Some _ _ _ Hc). do 2 decide_cmp. cbn [andb].
  destruct (read_byte_region m b (position b)) as (c' & Hc' & ->); [done|lia|lia|]. rewrite Hc in Hc'. injection Hc' as <-. rewrite bind_ret_l, bind_ret_l. assert (ob_inv m (set_position b (szadd (position b) 1))) as Hi' by (apply advance_inv; [done|lia|lia|]; rewrite test_offset_spec by lia; by do 2 decide_cmp).
  destruct (Z.ltb_spec c 0); [by eexists _, _|]. unfold shl_int. decide_cmp. decide_cmp. cbn [andb]. rewrite bind_ret_l. cbn [packed_ends] in Hends. apply orb_true_iff in Hends.
  destruct (Z.eqb_spec (Z.land c 128) 0) as [E0|E0]; cbn [negb]; [by eexists _, _|]. destruct Hends as [?|Hends]; [done|]. pose proof (unread_next m b c l Hi El Hp) as En. apply IH; rewrite ?En; cbn [length] in Hf; try done; cbn; rewrite ?szadd_small by lia; try lia.
Qed.
Lemma packed_safe w m b : ob_inv m b → packed_ends 5 (unread m b) = true → position b < SIZE_MAX → sizeLimit b < SIZE_MAX →
  ∃ b' v, get_packed w (S (readable b)) m b 0 0 = Ret (b', v) ∧ ob_inv m b'.
Proof.
  intros Hi He Hp Hlim. pose proof (region_length _ _ Hi). pose proof (inv_position _ _ Hi). pose proof (inv_limit _ _ Hi). apply (get_packed_safe w 5); try done. unfold unread, readable. rewrite length_drop, length_take. lia.
Qed.

(** The copy has its own storage. *)
Lemma dup_safe m b : malloc_total → ob_inv m b → op_ok m b Dup → ∃ m' o, ob_dup m b = Ret (m', o) ∧ ob_inv m' b ∧ ∀ b', o = Some b' → ob_inv m' b'.
Proof.
  intros Hmt Hi (Hp & Hcp & Hlim). pose proof (inv_limit _ _ Hi). pose proof (inv_alloc _ _ Hi). pose proof (inv_live _ _ Hi) as Hl. pose proof SIZE_MAX_pos. unfold ob_dup, new_struct.
  destruct (malloc_answer m sizeof_overlay_buffer) as [nw|]; [|by eexists _, _]. cbn [bytes allocSize allocated]. rewrite Hp, Hcp.
  set (ret := Buf None 0 0 (sizeLimit b) 0 None).
  assert (ob_inv m ret) as Hret by (split; cbn; try done; try lia; left; cbn; lia).
  assert (∃ m' o, Ret (m, Some ret) = Ret (m', o) ∧ ob_inv m' b ∧ ∀ b', o = Some b' → ob_inv m' b') as Hplain by (eexists _, _; split; [reflexivity|]; split; [done|]; by intros b' [= <-]).
  destruct (bytes b) as [p|] eqn:Eb; [|exact Hplain]. destruct Hl as (l & Hm & Ho & Hle). destruct (Z.eqb_spec (allocSize b) 0) as [|Hal]; cbn [negb]; [exact Hplain|].
  set (count := if negb (sizeLimit b =? SIZE_MAX) then sizeLimit b else 0).
  assert ((if negb (sizeLimit b =? SIZE_MAX) then assert! 0 <=? sizeLimit b; Ret (sizeLimit b) else Ret 0) = Ret count) as -> by (unfold count; destruct (Z.eqb_spec (sizeLimit b) SIZE_MAX); cbn [negb]; [done|]; by decide_cmp). rewrite bind_ret_l.
  set (n := if allocSize b <? count then allocSize b else count). assert (0 ≤ n ≤ allocSize b ∧ (n = 0 ∨ n + 2 ^ 17 ≤ SIZE_MAX)) as [Hn Hn']. { unfold n, count. destruct (Z.eqb_spec (sizeLimit b) SIZE_MAX); cbn [negb]; case_if; lia. }
  destruct (Z.eqb_spec n 0) as [|Hn0]; cbn [negb]; [exact Hplain|]. destruct Hn' as [?|Hn']; [done|].
  rewrite (load_bytes_Ret m p n l) by (done || lia). rewrite bind_ret_l. set (bs := take _ _). assert (Z.of_nat (length bs) = n) as Hbs by (unfold bs; rewrite length_take, length_drop; lia).
  destruct (append_raw_spec m ret bs Hmt Hret) as (m' & b' & Ha & Happ); [by intros E; rewrite E in Hbs; cbn in Hbs|split_and!; [lia|cbn; lia|by left]|].
  unfold ob_append_bytes. decide_cmp. rewrite Ha, bind_ret_l. eexists _, _. split; [reflexivity|]. cbn [fst]. destruct (append_frame _ _ _ _ _ (blk p) l Ha Hm) as [Hk _]; [done|]. split; [|intros x [= <-]; apply Happ].
  destruct Hi as [I1 I2 I3 I4 I5 I6 I7 I8]. split; try done. rewrite Eb. by exists l.
Qed.

(** Every operation whose conditions hold returns and leaves a well-formed buffer. *)
Lemma run_safe m b op : malloc_total → ob_inv m b → op_ok m b op →
  ∃ m' b', run m b op = Ret (m', b') ∧ ob_inv m' b'.
Proof.
  intros Hmt Hi Hok. pose proof (inv_position _ _ Hi) as Hp. pose proof (inv_alloc _ _ Hi) as Hal.
  destruct op; cbn [run op_ok] in *.
  all: try (apply append_safe; done).
  all: try (unfold ob_get_ui16, ob_get_ui16_rv, ob_get_ui32, ob_get_ui32_rv, ob_get_ui64,
          ob_get_ui64_rv;
        match goal with |- context [get_fixed _ _ ?n ?f ?c] =>
          destruct (get_fixed_safe m b n f c) as (b' & ? & -> & ?); [done|lia|lia|];
          by eexists _, _ end).
  - (* Checkpoint *) eexists _, _. split; [done|]. destruct Hi. by split.
  - (* Rewind *) eexists _, _. split; [done|]. destruct Hi. by split.
  - (* LimitSize *)
    destruct Hok as (? & ? & ? & ? & Hin). unfold ob_limitsize. decide_cmp. cbn [negb].
    do 2 decide_cmp. cbv iota.
    assert (negb (is_static b) || (n <=? allocSize b) = true) as ->.
    { destruct (is_static b); [simpl; by decide_cmp; auto|done]. }
    eexists _, _. split; [done|]. by apply set_sizeLimit_inv; [|lia|].
  - (* UnlimitSize *) eexists _, _. split; [done|]. pose proof SIZE_MAX_pos.
    apply set_sizeLimit_inv; [done|lia|done].
  - (* Flip *) destruct Hok. destruct (ob_flip_inv m b) as (? & -> & ?); [done..|]. by eexists _, _.
  - (* Clear *) eexists _, _. split; [done|]. pose proof SIZE_MAX_pos. destruct Hi.
    split; simpl; try done; try lia; left; simpl; lia.
  - (* AppendSpace *) destruct Hok.
    destruct (append_space_safe m b n) as (? & ? & ? & -> & ?); [done..|]. by eexists _, _.
  - (* AppendBytes *) destruct Hok. by apply append_bytes_safe.
  - (* AppendStr *) apply append_bytes_safe; [done..| |].
    + by destruct l.
    + by rewrite length_app, Nat2Z.inj_add.
  - (* Packed32 *) destruct Hok. by apply append_packed_safe.
  - destruct Hok. by apply append_packed_safe.
  - (* Peek *) destruct (peek_safe m b) as (? & ->); [done|lia|]. by eexists _, _.
  - (* Skip *) destruct Hok as (? & ? & ?). eexists _, _. split; [done|]. unfold ob_skip.
    rewrite szadd_small by lia. apply set_position_inv; done || lia.
  - (* Get *) destruct (ob_get_safe m b) as (? & ? & -> & ?); [done|lia|]. by eexists _, _.
  - (* GetBytes *) destruct Hok.
    destruct (get_bytes_safe m b n) as (? & ? & -> & ?); [done|lia|lia|]. by eexists _, _.
  - (* GetBytesPtr *) destruct Hok. unfold ob_get_bytes_ptr.
    destruct (test_offset b n) eqn:?; eexists _, _; (split; [done|]); [|done].
    apply advance_inv; done || lia.
  - (* SetByte *) destruct Hok as (? & ? & ?).
    destruct (set_bytes_safe m b offset [v]) as (? & Hs & ?); [done..|].
    unfold ob_set. rewrite Hs. by eexists _, _.
  - (* SetUi16 *) destruct Hok as (? & ? & ?). unfold ob_set_ui16.
    match goal with |- context [set_bytes _ _ _ ?bs] =>
      destruct (set_bytes_safe m b offset bs) as (? & Hs & ?); [done..|] end.
    rewrite Hs. by eexists _, _.
  - (* GetStrPtr *) destruct (get_str_safe m b Hi Hok) as (? & ? & -> & ?). by eexists _, _.
  - (* GetPacked32 *) destruct Hok as (? & ? & ?). destruct (packed_safe 32 m b) as (? & ? & E & ?); [done..|]. unfold ob_get_packed_ui32. rewrite E. by eexists _, _.
  - (* GetPacked64 *) destruct Hok as (? & ? & ?). destruct (packed_safe 64 m b) as (? & ? & E & ?); [done..|]. unfold ob_get_packed_ui64. rewrite E. by eexists _, _.
  - (* Remaining *) destruct Hok. unfold ob_remaining. rewrite (proj2 (Z.eqb_neq _ _)) by done. decide_cmp. by eexists _, _.
  - (* Dup *) destruct (dup_safe m b Hmt Hi Hok) as (? & ? & -> & ? & _). by eexists _, _.
Qed.

(** ** Reachable buffers *)

Inductive reachable : mem → overlay_buffer → Prop :=
| reach_new m b : ob_new m = Some b → reachable m b
| reach_static m p l n b :
    m !! blk p = Some l → 0 ≤ off p → 0 ≤ n ≤ SIZE_MAX → off p + n ≤ Z.of_nat (length l) →
    ob_static m (Some p) n = Some b → reachable m b
| reach_slice m b o n b' :
    reachable m b → 0 ≤ o → 0 ≤ n → o + n ≤ SIZE_MAX →
    ob_slice m b o n = Some b' → reachable m b'
| reach_dup m b m' b' : reachable m b → op_ok m b Dup → ob_dup m b = Ret (m', Some b') → reachable m' b'
| reach_step m b op m' b' :
    reachable m b → op_ok m b op → run m b op = Ret (m', b') → reachable m' b'.

Lemma ob_new_inv m b : ob_new m = Some b → ob_inv m b.
Proof.
  unfold ob_new, new_struct. destruct (malloc_answer _ _); [|done]. intros [= <-].
  pose proof SIZE_MAX_pos.
  split; simpl; try done; try lia; left; simpl; lia.
Qed.

Lemma ob_static_inv m p l n b :
  m !! blk p = Some l → 0 ≤ off p → 0 ≤ n ≤ SIZE_MAX → off p + n ≤ Z.of_nat (length l) →
  ob_static m (Some p) n = Some b → ob_inv m b.
Proof.
  unfold ob_static, new_struct. intros Hm Ho Hn Hl. destruct (malloc_answer _ _); [|done].
  intros [= <-]. pose proof SIZE_MAX_pos.
  split; simpl; try done; try lia; try (left; simpl; lia). by exists l.
Qed.

Lemma ob_slice_inv m b o n b' : ob_inv m b → 0 ≤ o → 0 ≤ n → o + n ≤ SIZE_MAX →
  ob_slice m b o n = Some b' → ob_inv m b'.
Proof.
  unfold ob_slice, new_struct. intros Hi Ho Hn Hmax. rewrite szadd_small by lia.
  case_if; [done|]. destruct (malloc_answer _ _); [|done]. intros [= <-].
  pose proof SIZE_MAX_pos. pose proof (inv_live _ _ Hi) as Hl. pose proof (inv_alloc _ _ Hi).
  split; simpl; try done; try lia; try (left; simpl; lia).
  destruct (bytes b) as [p|]; simpl; [|split; [lia|done]].
  destruct Hl as (l0 & ? & ? & ?). exists l0. simpl. auto with lia.
Qed.

Lemma reachable_inv m b : malloc_total → reachable m b → ob_inv m b.
Proof.
  intros Hmt. induction 1 as [m b|m p l n b|m b o n b' _ IH|m b m' b' _ IH Hok Hd|m b op m' b' _ IH Hok Hrun].
  - by apply ob_new_inv.
  - eauto using ob_static_inv.
  - eauto using ob_slice_inv.
  - destruct (dup_safe m b Hmt IH Hok) as (? & ? & E & _ & Hb). rewrite Hd in E. injection E as <- <-. by apply Hb.
  - destruct (run_safe m b op Hmt IH Hok) as (? & ? & Hr & ?).
    rewrite Hrun in Hr. by injection Hr as <- <-.
Qed.


End OBSpec.


End OBSpec.
