(* ===== verification/OverlayBufferCodec.v ===== *)
(** * Round trip of the fields of an overlay packet

    A packet is built by appending fields to a new buffer, flipped, and parsed
    by reading the same kinds of fields in the same order. *)

From S2P Require Import Prelude Mem OverlayBuffer OverlayBufferSpec.
Import OB OBSpec.

Module OBCodec.
Section OBCodec.
Context {arch : Arch} {allocator : Allocator}.

(** The kinds of field with a writer and a matching reader. *)
Inductive field :=
| FByte (v : Z) | FBytes (l : list Z)
| FUi16 (v : Z) | FUi16Rv (v : Z) | FUi32 (v : Z) | FUi32Rv (v : Z) | FUi64Rv (v : Z)
| FPacked32 (v : Z) | FPacked64 (v : Z) | FUi64 (v : Z).

Definition write_field (m : mem) (b : overlay_buffer) (f : field) : outcome (mem * overlay_buffer) :=
  match f with
  | FByte v => ob_append_byte m b v
  | FBytes l => ob_append_bytes m b l
  | FUi16 v => ob_append_ui16 m b v
  | FUi16Rv v => ob_append_ui16_rv m b v
  | FUi32 v => ob_append_ui32 m b v
  | FUi32Rv v => ob_append_ui32_rv m b v
  | FUi64Rv v => ob_append_ui64_rv m b v
  | FPacked32 v => ob_append_packed_ui32 m b v
  | FPacked64 v => ob_append_packed_ui64 m b v
  | FUi64 v => ob_append_ui64 m b v
  end.

(** Reads a field of the same kind (and length) as [f]; [None] when
    [ob_get_bytes] or [ob_get] reports failure. *)
Definition read_field (m : mem) (b : overlay_buffer) (f : field) : outcome (overlay_buffer * option field) :=
  match f with
  | FByte _ => '(b, x) ← ob_get m b; Ret (b, if x <? 0 then None else Some (FByte x))
  | FBytes l => '(b, x) ← ob_get_bytes m b (Z.of_nat (length l)); Ret (b, option_map FBytes x)
  | FUi16 _ => '(b, x) ← ob_get_ui16 m b; Ret (b, Some (FUi16 x))
  | FUi16Rv _ => '(b, x) ← ob_get_ui16_rv m b; Ret (b, Some (FUi16Rv x))
  | FUi32 _ => '(b, x) ← ob_get_ui32 m b; Ret (b, Some (FUi32 x))
  | FUi32Rv _ => '(b, x) ← ob_get_ui32_rv m b; Ret (b, Some (FUi32Rv x))
  | FUi64Rv _ => '(b, x) ← ob_get_ui64_rv m b; Ret (b, Some (FUi64Rv x))
  | FPacked32 _ => '(b, x) ← ob_get_packed_ui32 m b; Ret (b, Some (FPacked32 x))
  | FPacked64 _ => '(b, x) ← ob_get_packed_ui64 m b; Ret (b, Some (FPacked64 x))
  | FUi64 _ => '(b, x) ← ob_get_ui64 m b; Ret (b, Some (FUi64 x))
  end.

Fixpoint write_fields (m : mem) (b : overlay_buffer) (fs : list field) : outcome (mem * overlay_buffer) :=
  match fs with
  | [] => Ret (m, b)
  | f :: fs => r ← write_field m b f; write_fields r.1 r.2 fs
  end.

Fixpoint read_fields (m : mem) (b : overlay_buffer) (fs : list field) :
    outcome (overlay_buffer * list (option field)) :=
  match fs with
  | [] => Ret (b, [])
  | f :: fs =>
      r ← read_field m b f;
      rs ← read_fields m r.1 fs;
      Ret (rs.1, r.2 :: rs.2)
  end.

(** Values that fit their field. From 2^35 on the behaviour of the 64-bit packed reader is
    undefined ([OBEdge.ob_packed_ui64_wide]). *)
Definition field_ok (f : field) : Prop :=
  match f with
  | FByte v => is_byte v
  | FBytes l => l ≠ []
  | FUi16 v | FUi16Rv v => 0 ≤ v < 2 ^ 16
  | FUi32 v | FUi32Rv v | FPacked32 v => 0 ≤ v < 2 ^ 32
  | FUi64 v | FUi64Rv v => 0 ≤ v < 2 ^ 64
  | FPacked64 v => 0 ≤ v < 2 ^ 35
  end.

(** The four bits [y mod 16] with the sign extended to 36 bits. *)
Definition extend4 (y : Z) : Z := if y mod 16 <? 8 then y mod 16 else y mod 16 + 2 ^ 36 - 16.
(** What is read. Two readers differ from their writers: the big-endian 64-bit reader puts
    the fourth byte four bits too high and extends the sign of the fifth, and the packed
    one extends the sign of the fifth group, which is shifted as an [int]. *)
Definition received (f : field) : field :=
  match f with
  | FUi64 v => FUi64 (Z.lor (Z.lor (v / 2 ^ 40 * 2 ^ 40) ((v / 2 ^ 32) mod 2 ^ 8 * 2 ^ 36)) (u64 (i32 v)))
  | FPacked64 v => FPacked64 (v mod 2 ^ 28 + extend4 (v / 2 ^ 28) * 2 ^ 28)
  | f => f
  end.
(** The values that come back. *)
Definition faithful (f : field) : bool :=
  match f with
  | FUi64 v => ((v / 2 ^ 31) mod 2 ^ 9 =? 0) || (2 ^ 64 - 2 ^ 31 <=? v)
  | FPacked64 v => v <? 2 ^ 31
  | _ => true
  end.

(** The bytes of a field. *)
Definition encode (f : field) : list Z :=
  match f with
  | FByte v => [v]
  | FBytes l => l
  | FUi16 v => be_bytes 2 v
  | FUi16Rv v => le_bytes 2 v
  | FUi32 v => be_bytes 4 v
  | FUi32Rv v => le_bytes 4 v
  | FUi64Rv v => le_bytes 8 v
  | FPacked32 v => pack_loop 5 v
  | FPacked64 v => pack_loop 10 v
  | FUi64 v => be_bytes 8 v
  end.

Definition encode_all (fs : list field) : list Z := concat (encode <$> fs).

(** ** Writing *)

(** The buffer is a growable one that holds exactly [w]. *)
Record writing (m : mem) (b : overlay_buffer) (w : list Z) : Prop := {
  wr_inv : ob_inv m b;
  wr_static : is_static b = false;
  wr_limit : sizeLimit b = SIZE_MAX;
  wr_position : position b = Z.of_nat (length w);
  wr_room : position b ≤ allocSize b;
  wr_content : take (length w) (region m b) = w;
}.

Lemma writing_new m b : ob_new m = Some b → writing m b [].
Proof.
  intros Hn. pose proof (ob_new_inv m b Hn) as Hi. revert Hn.
  unfold ob_new, new_struct. destruct (malloc_answer _ _); [|done]. intros [= <-].
  split; simpl; done || lia.
Qed.

Lemma append_writing m b w bs : malloc_total → writing m b w → bs ≠ [] →
  Z.of_nat (length w) + Z.of_nat (length bs) + 2 ^ 17 ≤ SIZE_MAX →
  ∃ m' b', append_raw m b bs = Ret (m', b') ∧ writing m' b' (w ++ bs).
Proof.
  intros Hmt [Hi Hst Hlim Hpos Hroom Hcont] Hbs Hmax.
  assert (can_append b (Z.of_nat (length bs))) as Hc.
  { split; [lia|]. split; [lia|]. destruct (decide (position b = 0)); [by left|right].
    apply (position_bytes m); [done|lia]. }
  destruct (append_raw_spec m b bs Hmt Hi Hbs Hc) as (m' & b' & Ha & [Hi' Hpos' _ Hlim' Hst' _ Hfits _]).
  assert (fits b (Z.of_nat (length bs)) = true) as Hf.
  { unfold fits. rewrite Hst, Hlim. by decide_cmp. }
  destruct (Hfits Hf) as [Hle Htake].
  exists m', b'. split; [done|]. split; [done|congruence|congruence| |done|].
  - rewrite length_app. lia.
  - rewrite length_app. rewrite Hpos', Hpos in Htake.
    rewrite Z2Nat.inj_add, !Nat2Z.id, Hcont in Htake by lia. done.
Qed.

Lemma pack_loop_nonempty fuel v : pack_loop (S fuel) v ≠ [].
Proof. done. Qed.

Lemma append_packed_writing fuel m b w v : malloc_total → writing m b w →
  Z.of_nat (length w) + Z.of_nat (length (pack_loop fuel v)) + 2 ^ 17 ≤ SIZE_MAX →
  ∃ m' b', append_packed fuel m b v = Ret (m', b') ∧ writing m' b' (w ++ pack_loop fuel v).
Proof.
  intros Hmt. revert m b w v. induction fuel as [|fuel IH]; intros m b w v Hw Hmax.
  { exists m, b. simpl. by rewrite app_nil_r. }
  cbn [append_packed pack_loop length] in *. cbv zeta in *. unfold ob_append_byte.
  destruct (append_writing m b w [packed_byte v] Hmt Hw) as (m1 & b1 & -> & Hw1);
    [done|simpl; lia|].
  rewrite bind_ret_l. destruct (Z.shiftr v 7 =? 0); cbn [negb]; [by exists m1, b1|].
  destruct (IH m1 b1 _ (Z.shiftr v 7) Hw1) as (m2 & b2 & -> & Hw2).
  { rewrite length_app. simpl in *. lia. }
  exists m2, b2. split; [done|]. by rewrite <- app_assoc in Hw2.
Qed.

Lemma be_bytes_2 v : be_bytes 2 v = [Z.land (Z.shiftr v 8) 0xFF; Z.land v 0xFF].
Proof. unfold be_bytes. by rewrite le_bytes_byte_at. Qed.
Lemma le_bytes_2 v : le_bytes 2 v = [Z.land v 0xFF; Z.land (Z.shiftr v 8) 0xFF].
Proof. by rewrite le_bytes_byte_at. Qed.
Lemma be_bytes_4 v : be_bytes 4 v = [Z.land (Z.shiftr v 24) 0xFF; Z.land (Z.shiftr v 16) 0xFF;
                                    Z.land (Z.shiftr v 8) 0xFF; Z.land v 0xFF].
Proof. unfold be_bytes. by rewrite le_bytes_byte_at. Qed.
Lemma le_bytes_4 v : le_bytes 4 v = [Z.land v 0xFF; Z.land (Z.shiftr v 8) 0xFF;
                                    Z.land (Z.shiftr v 16) 0xFF; Z.land (Z.shiftr v 24) 0xFF].
Proof. by rewrite le_bytes_byte_at. Qed.
Lemma le_bytes_8 v : le_bytes 8 v = [Z.land v 0xFF; Z.land (Z.shiftr v 8) 0xFF;
                  Z.land (Z.shiftr v 16) 0xFF; Z.land (Z.shiftr v 24) 0xFF;
                  Z.land (Z.shiftr v 32) 0xFF; Z.land (Z.shiftr v 40) 0xFF;
                  Z.land (Z.shiftr v 48) 0xFF; Z.land (Z.shiftr v 56) 0xFF].
Proof. by rewrite le_bytes_byte_at. Qed.

Lemma be_bytes_8 v : be_bytes 8 v = [Z.land (Z.shiftr v 56) 0xFF; Z.land (Z.shiftr v 48) 0xFF;
                  Z.land (Z.shiftr v 40) 0xFF; Z.land (Z.shiftr v 32) 0xFF;
                  Z.land (Z.shiftr v 24) 0xFF; Z.land (Z.shiftr v 16) 0xFF;
                  Z.land (Z.shiftr v 8) 0xFF; Z.land v 0xFF].
Proof. unfold be_bytes. by rewrite le_bytes_byte_at. Qed.

Lemma write_field_spec m b w f : malloc_total → writing m b w → field_ok f →
  Z.of_nat (length w) + Z.of_nat (length (encode f)) + 2 ^ 17 ≤ SIZE_MAX →
  ∃ m' b', write_field m b f = Ret (m', b') ∧ writing m' b' (w ++ encode f).
Proof.
  intros Hmt Hw Hok Hmax. destruct f; cbn [write_field encode] in *.
  3: rewrite be_bytes_2 in *. 4: rewrite le_bytes_2 in *. 5: rewrite be_bytes_4 in *.
  6: rewrite le_bytes_4 in *. 7: rewrite le_bytes_8 in *. 10: rewrite be_bytes_8 in *.
  1,3,4,5,6,7,10: by apply append_writing.
  - unfold ob_append_bytes. simpl in Hok. rewrite (proj2 (Z.ltb_lt 0 _));
      [by apply append_writing|]. destruct l; [done|simpl; lia].
  - by apply append_packed_writing.
  - by apply append_packed_writing.
Qed.

Lemma write_fields_spec m b w fs : malloc_total → writing m b w → Forall field_ok fs →
  Z.of_nat (length w) + Z.of_nat (length (encode_all fs)) + 2 ^ 17 ≤ SIZE_MAX →
  ∃ m' b', write_fields m b fs = Ret (m', b') ∧ writing m' b' (w ++ encode_all fs).
Proof.
  intros Hmt Hw Hok. revert m b w Hw.
  induction Hok as [|f fs Hf _ IH]; intros m b w Hw Hmax; cbn [write_fields].
  { exists m, b. unfold encode_all. simpl. by rewrite app_nil_r. }
  unfold encode_all in *. cbn [fmap list_fmap concat] in *. rewrite length_app in Hmax.
  destruct (write_field_spec m b w f Hmt Hw Hf) as (m1 & b1 & -> & Hw1); [lia|].
  rewrite bind_ret_l. simpl.
  destruct (IH m1 b1 _ Hw1) as (m2 & b2 & -> & Hw2); [rewrite length_app; lia|].
  exists m2, b2. by rewrite app_assoc.
Qed.

(** ** Reading *)

(** The buffer is limited to the bytes [w], of which [k] have been consumed. *)
Record reading (m : mem) (b : overlay_buffer) (w : list Z) (k : nat) : Prop := {
  rd_inv : ob_inv m b;
  rd_limit : sizeLimit b = Z.of_nat (length w);
  rd_position : position b = Z.of_nat k;
  rd_room : Z.of_nat (length w) ≤ allocSize b;
  rd_content : take (length w) (region m b) = w;
}.

Lemma flip_reading m b w : writing m b w → Z.of_nat (length w) < SIZE_MAX →
  ∃ b', ob_flip b = Ret b' ∧ reading m b' w 0.
Proof.
  intros [Hi Hst Hlim Hpos Hroom Hcont] Hmax.
  destruct (ob_flip_inv m b) as (b' & Hf & Hi'); [done|lia|congruence|].
  exists b'. split; [done|]. revert Hf. unfold ob_flip, ob_limitsize. simpl.
  repeat (case_if; try discriminate). intros [= <-]. split; simpl; done || lia.
Qed.

Lemma reading_next m b x bs y : reading m b (x ++ bs ++ y) (length x) → bs ≠ [] →
  let n := Z.of_nat (length bs) in
  test_offset b n = true ∧ read_at m b (position b) n = Ret bs ∧
  reading m (set_position b (szadd (position b) n)) (x ++ bs ++ y) (length (x ++ bs)).
Proof.
  intros [Hi Hlim Hpos Hroom Hcont] Hbs n.
  assert (0 < n) by (unfold n; destruct bs; [done|simpl; lia]).
  pose proof (inv_limit _ _ Hi). rewrite !length_app in *.
  assert (position b + n ≤ sizeLimit b) by lia.
  assert (test_offset b n = true) as Ht by (rewrite test_offset_spec by lia; by do 2 decide_cmp).
  split; [done|]. split.
  - rewrite read_at_region by (done || lia). f_equal.
    rewrite Hpos, Nat2Z.id. unfold n. rewrite Nat2Z.id.
    replace (drop (length x) (region m b)) with
      (drop (length x) (take (length x + (length bs + length y)) (region m b)
        ++ drop (length x + (length bs + length y)) (region m b))) by (by rewrite take_drop).
    rewrite Hcont, <- app_assoc, drop_app_length, <- app_assoc. apply take_app_length.
  - split; simpl; rewrite ?length_app; try done.
    + by apply advance_inv; [|lia|lia|].
    + rewrite szadd_small by lia. lia.
Qed.

Lemma get_fixed_reading m b x bs y n fail f : reading m b (x ++ bs ++ y) (length x) →
  bs ≠ [] → Z.of_nat (length bs) = n →
  ∃ b', get_fixed m b n fail f = Ret (b', f bs) ∧ reading m b' (x ++ bs ++ y) (length (x ++ bs)).
Proof.
  intros Hr Hbs <-. destruct (reading_next m b x bs y Hr Hbs) as (Ht & Hrd & Hr').
  unfold get_fixed. rewrite Ht, Hrd, bind_ret_l. by eexists.
Qed.

Lemma get_bytes_reading m b x bs y : reading m b (x ++ bs ++ y) (length x) → bs ≠ [] →
  ∃ b', ob_get_bytes m b (Z.of_nat (length bs)) = Ret (b', Some bs) ∧
        reading m b' (x ++ bs ++ y) (length (x ++ bs)).
Proof.
  intros Hr Hbs. destruct (reading_next m b x bs y Hr Hbs) as (Ht & Hrd & Hr').
  unfold ob_get_bytes. rewrite Ht, Hrd, bind_ret_l. by eexists.
Qed.

Lemma ob_get_reading m b x c y : reading m b (x ++ c :: y) (length x) →
  ∃ b', ob_get m b = Ret (b', c) ∧ reading m b' (x ++ c :: y) (length (x ++ [c])).
Proof.
  intros Hr. destruct (reading_next m b x [c] y Hr) as (Ht & _ & Hr'); [done|].
  destruct Hr as [Hi Hlim Hpos Hroom Hcont]. pose proof (inv_limit _ _ Hi).
  change (Z.of_nat (length [c])) with 1 in *. cbn [app] in Hr'.
  unfold ob_get. rewrite Ht. rewrite length_app in *. cbn [length] in *.
  destruct (read_byte_region m b (position b)) as (c' & Hc & ->); [done|lia|lia|].
  assert (c' = c) as ->.
  { rewrite Hpos, Nat2Z.id in Hc.
    assert ((x ++ c :: y) !! length x = Some c) as Hx by by apply list_lookup_middle.
    rewrite <- Hcont, lookup_take_lt in Hx by lia. congruence. }
  rewrite bind_ret_l. eexists. split; [done|]. done.
Qed.

(** ** Packed integers *)

Lemma packed_byte_value v : 0 ≤ v →
  packed_byte v = v mod 128 + (if 127 <? v then 128 else 0).
Proof.
  intros. unfold packed_byte. rewrite land_127.
  pose proof (Z.mod_pos_bound v 128 ltac:(lia)). case_if.
  - change 128 with (1 * 2 ^ 7) at 2. rewrite lor_low by lia. lia.
  - rewrite Z.lor_0_r. lia.
Qed.

Lemma packed_byte_low v : 0 ≤ v → Z.land (packed_byte v) 0x7f = v mod 128.
Proof.
  intros. rewrite packed_byte_value, land_127 by done. case_if.
  - rewrite <- (Z.mul_1_l 128) at 2. rewrite Z.mod_add by lia. apply Z.mod_mod. lia.
  - rewrite Z.add_0_r. apply Z.mod_mod. lia.
Qed.

Lemma packed_byte_more v : 0 ≤ v → (Z.land (packed_byte v) 0x80 =? 0) = (Z.shiftr v 7 =? 0).
Proof.
  intros Hv. rewrite Z.shiftr_div_pow2 by lia. change (2 ^ 7) with 128.
  assert (Z.land (packed_byte v) 0x80 = if 127 <? v then 0x80 else 0) as ->.
  { rewrite packed_byte_value by done. pose proof (Z.mod_pos_bound v 128 ltac:(lia)) as Hm.
    assert (∀ x, 0 ≤ x < 128 → Z.land x 128 = 0) as Hz.
    { intros x Hx. change 128 with (1 * 2 ^ 7). apply Z.bits_inj'. intros n Hn.
      rewrite Z.land_spec, Z.bits_0, Z.mul_1_l, Z.pow2_bits_eqb by lia.
      destruct (Z.eqb_spec 7 n) as [<-|]; [|apply andb_false_r].
      by rewrite <- (Z.mod_small x (2 ^ 7)), Z.mod_pow2_bits_high by lia. }
    case_if; [|rewrite Z.add_0_r; by apply Hz].
    replace (v mod 128 + 128) with (1 * 2 ^ 7 + v mod 128) by lia. rewrite <- lor_high by lia.
    rewrite Z.land_lor_distr_l, (Hz (v mod 128)) by done. done. }
  destruct (Z.ltb_spec 127 v).
  - assert (1 ≤ v / 128) by (apply Z.div_le_lower_bound; lia).
    by rewrite (proj2 (Z.eqb_neq (v / 128) 0)) by lia.
  - rewrite Z.div_small by lia. done.
Qed.

(** Widths of the accumulator and the values it can decode: a group is shifted
    as an [int], so the 64-bit reader is only right below 2^31. *)
Definition packed_bound (w : Z) : Z := if w =? 32 then 2 ^ 32 else 2 ^ 31.

Lemma group_value w g s : w = 32 ∨ w = 64 → 0 ≤ g < 128 → 0 ≤ s < 32 →
  g * 2 ^ s < packed_bound w →
  shl_int g s = Ret (i32 (Z.shiftl g s)) ∧ wrapu w (i32 (Z.shiftl g s)) = g * 2 ^ s.
Proof.
  intros Hw Hg Hs Hb. unfold shl_int. do 2 decide_cmp. split; [done|].
  rewrite Z.shiftl_mul_pow2 by lia. destruct Hw as [-> | ->]; unfold packed_bound in Hb; simpl in Hb.
  - rewrite wrapu_wraps, wrapu_small; lia.
  - rewrite wraps_small, wrapu_small; lia.
Qed.

Lemma pack_loop_unfold n v : pack_loop (S n) v =
  packed_byte v :: (if Z.shiftr v 7 =? 0 then [] else pack_loop n (Z.shiftr v 7)).
Proof. done. Qed.

(** The groups after the first have one group less. *)
Lemma group_rest n v : 0 ≤ v < 2 ^ (7 * Z.of_nat (S n)) → 0 ≤ v / 128 < 2 ^ (7 * Z.of_nat n).
Proof.
  intros Hv. split; [apply Z.div_pos; lia|]. apply Z.div_lt_upper_bound; [lia|].
  change 128 with (2 ^ 7). rewrite <- Z.pow_add_r by lia.
  replace (7 + 7 * Z.of_nat n) with (7 * Z.of_nat (S n)) by lia. lia.
Qed.

Lemma get_packed_reading w n fuel m b x v y acc s : w = 32 ∨ w = 64 →
  reading m b (x ++ pack_loop n v ++ y) (length x) →
  (0 < n)%nat → 0 ≤ v < 2 ^ (7 * Z.of_nat n) → 0 ≤ s < 32 → v * 2 ^ s < packed_bound w →
  0 ≤ acc < 2 ^ s → (length (pack_loop n v) ≤ fuel)%nat →
  ∃ b', get_packed w fuel m b acc s = Ret (b', acc + v * 2 ^ s) ∧
        reading m b' (x ++ pack_loop n v ++ y) (length (x ++ pack_loop n v)).
Proof.
  intros Hw. revert n m b x v acc s.
  induction fuel as [|fuel IH]; intros n m b x v acc s Hr Hn Hv Hs Hb Hacc Hfuel.
  { destruct n; [lia|]. rewrite pack_loop_unfold in Hfuel. simpl in Hfuel. lia. }
  destruct n as [|n]; [lia|]. rewrite pack_loop_unfold in *. cbn [get_packed].
  destruct (ob_get_reading m b x _ (_ ++ y) Hr) as (b1 & -> & Hr1). rewrite bind_ret_l.
  pose proof (Z.mod_pos_bound v 128 ltac:(lia)) as Hm.
  pose proof (Z.div_mod v 128 ltac:(lia)) as Hdm.
  assert (0 ≤ v / 128) as Hq by (apply Z.div_pos; lia).
  assert (0 ≤ packed_byte v) as Hpb by (rewrite packed_byte_value by lia; case_if; lia).
  decide_cmp. rewrite packed_byte_low, packed_byte_more by lia.
  destruct (group_value w (v mod 128) s) as [-> Hgv]; [done..|nia|]. rewrite bind_ret_l, Hgv.
  rewrite lor_low by lia. rewrite Z.shiftr_div_pow2 in * by lia. change (2 ^ 7) with 128 in *.
  destruct (Z.eqb_spec (v / 128) 0) as [E|E]; simpl.
  - exists b1. split; [|done]. do 2 f_equal. rewrite E in Hdm. nia.
  - assert (1 * 2 ^ (s + 7) ≤ v * 2 ^ s) as Hs7.
    { rewrite Z.pow_add_r by lia. change (2 ^ 7) with 128. nia. }
    assert (s + 7 < 32) as Hs32.
    { apply (Z.pow_lt_mono_r_iff 2); [lia|lia|]. unfold packed_bound in Hb. case_if; lia. }
    set (L := pack_loop n (v / 128)) in *.
    change (packed_byte v :: L ++ y) with ([packed_byte v] ++ L ++ y) in *.
    change ((packed_byte v :: L) ++ y) with ([packed_byte v] ++ L ++ y) in *.
    change (packed_byte v :: L) with ([packed_byte v] ++ L) in *. rewrite !(app_assoc x) in *.
    assert (0 < n)%nat by (destruct n; [simpl in *; exfalso; nia|lia]).
    pose proof (group_rest n v Hv) as Hv'.
    destruct (IH n m b1 (x ++ [packed_byte v]) (v / 128) (acc + v mod 128 * 2 ^ s) (s + 7))
      as (b2 & -> & Hr2); [done|done|done|lia| | | |].
    + rewrite Z.pow_add_r by lia. change (2 ^ 7) with 128. nia.
    + rewrite Z.pow_add_r by lia. change (2 ^ 7) with 128. nia.
    + rewrite length_app in Hfuel. simpl in Hfuel. unfold L in Hfuel. lia.
    + exists b2. split; [|done]. do 2 f_equal. rewrite Z.pow_add_r by lia.
      change (2 ^ 7) with 128. nia.
Qed.

Lemma get_packed_field w n m b x v y : w = 32 ∨ w = 64 → (0 < n)%nat →
  reading m b (x ++ pack_loop n v ++ y) (length x) →
  0 ≤ v < 2 ^ (7 * Z.of_nat n) → v < packed_bound w →
  ∃ b', get_packed w (S (readable b)) m b 0 0 = Ret (b', v) ∧
        reading m b' (x ++ pack_loop n v ++ y) (length (x ++ pack_loop n v)).
Proof.
  intros Hw Hn Hr Hv Hb.
  destruct (get_packed_reading w n (S (readable b)) m b x v y 0 0) as (b' & Hg & Hr');
    try done; try lia.
  - destruct Hr as [_ Hlim Hpos Hroom _]. unfold readable. rewrite Hlim, Hpos.
    rewrite !length_app in *. lia.
  - exists b'. by rewrite Z.add_0_l, Z.mul_1_r in Hg.
Qed.

(** A fifth group is shifted into the sign of an [int]. *)
Lemma fifth_group y : 0 ≤ y < 128 → u64 (i32 (Z.shiftl y 28)) = extend4 y * 2 ^ 28.
Proof.
  intros Hy. assert (∀ n, (n < 128)%nat → u64 (i32 (Z.shiftl (Z.of_nat n) 28)) = extend4 (Z.of_nat n) * 2 ^ 28) as H; [|rewrite <- (Z2Nat.id y) by lia; apply H; lia].
  intros n Hn. assert (forallb (λ n, u64 (i32 (Z.shiftl (Z.of_nat n) 28)) =? extend4 (Z.of_nat n) * 2 ^ 28) (seq 0 128) = true) as Hall by (vm_compute; reflexivity).
  rewrite forallb_forall in Hall. apply Z.eqb_eq, Hall, in_seq. lia.
Qed.
Definition wide (x : Z) : Z := x mod 2 ^ 28 + extend4 (x / 2 ^ 28) * 2 ^ 28.
(** A group before the fifth is kept. *)
Lemma wide_step g q s : 0 ≤ s ≤ 21 → 0 ≤ g < 128 → 0 ≤ q → (∃ j, 28 = s + 7 + 7 * j ∧ 0 ≤ j) → wide (g * 2 ^ s + q * 2 ^ (s + 7)) = g * 2 ^ s + wide (q * 2 ^ (s + 7)).
Proof.
  intros Hs Hg Hq (j & Hj & Hj0). set (d := 2 ^ (s + 7)). assert (2 ^ 28 = 2 ^ (7 * j) * d) as E by (unfold d; rewrite <- Z.pow_add_r by lia; f_equal; lia). assert (0 < d) by (unfold d; lia). assert (0 < 2 ^ (7 * j)) by lia.
  assert (0 ≤ g * 2 ^ s < d) as Hr by (unfold d; rewrite Z.pow_add_r by lia; change (2 ^ 7) with 128; nia). set (r := g * 2 ^ s) in *. set (c := 2 ^ (7 * j)) in *.
  pose proof (Z.div_mod q c ltac:(lia)) as Hdm. pose proof (Z.mod_pos_bound q c ltac:(lia)) as Hm. unfold wide. rewrite !E.
  assert (q mod c * d + d ≤ c * d) as Hlast by nia. assert (0 ≤ q mod c * d) by nia. assert (r + q * d = c * d * (q / c) + (r + q mod c * d)) as Hsplit by (rewrite Hdm at 1; ring).
  assert ((r + q * d) / (c * d) = q / c) as -> by (symmetry; apply (Z.div_unique_pos _ _ _ (r + q mod c * d)); lia).
  assert ((r + q * d) mod (c * d) = r + q mod c * d) as -> by (symmetry; apply (Z.mod_unique_pos _ _ (q / c)); lia).
  assert ((q * d) / (c * d) = q / c ∧ (q * d) mod (c * d) = q mod c * d) as [-> ->]. { split; [by rewrite Z.div_mul_cancel_r by lia|by rewrite Z.mul_mod_distr_r by lia]. }
  lia.
Qed.
Lemma get_packed_wide k : ∀ n fuel m b x v y acc, let s := 28 - 7 * Z.of_nat k in (k ≤ 4)%nat → (k < n)%nat → reading m b (x ++ pack_loop n v ++ y) (length x) → 0 ≤ v < 2 ^ (7 * Z.of_nat (S k)) → 0 ≤ acc < 2 ^ s → (length (pack_loop n v) ≤ fuel)%nat →
  ∃ b', get_packed 64 fuel m b acc s = Ret (b', acc + wide (v * 2 ^ s)) ∧ reading m b' (x ++ pack_loop n v ++ y) (length (x ++ pack_loop n v)).
Proof.
  induction k as [|k IH]; intros n fuel m b x v y acc s Hk Hn Hr Hv Hacc Hfuel; (destruct n as [|n]; [lia|]); rewrite pack_loop_unfold in *; (destruct fuel as [|fuel]; [cbn in Hfuel; lia|]); cbn [get_packed];
    destruct (ob_get_reading m b x _ (_ ++ y) Hr) as (b1 & -> & Hr1); rewrite bind_ret_l;
    pose proof (Z.mod_pos_bound v 128 ltac:(lia)) as Hm; pose proof (Z.div_mod v 128 ltac:(lia)) as Hdm; assert (0 ≤ v / 128) as Hq by (apply Z.div_pos; lia);
    assert (0 ≤ packed_byte v) as Hpb by (rewrite packed_byte_value by lia; case_if; lia); decide_cmp; rewrite packed_byte_low, packed_byte_more by lia; rewrite Z.shiftr_div_pow2 in * by lia; change (2 ^ 7) with 128 in *; unfold shl_int.
  - change (28 - 7 * Z.of_nat 0) with 28 in s. unfold s in *. clear s. change (2 ^ (7 * Z.of_nat 1)) with 128 in Hv. do 2 decide_cmp. cbn [andb]. assert (v / 128 = 0) as E0 by (apply Z.div_small; lia). rewrite E0 in *. rewrite Z.mod_small by lia. rewrite bind_ret_l. cbn [Z.eqb negb]. exists b1. split; [|done]. do 2 f_equal.
    rewrite fifth_group by lia. rewrite lor_low by lia. unfold wide. rewrite Z.mod_mul, Z.div_mul by lia. lia.
  - assert (0 ≤ s ≤ 21) as Hs by (unfold s; lia). do 2 decide_cmp. cbn [andb]. rewrite bind_ret_l. assert (v mod 128 * 2 ^ s < 2 ^ 28) as Hb by (assert (2 ^ s ≤ 2 ^ 21) by (apply Z.pow_le_mono_r; lia); nia).
    rewrite Z.shiftl_mul_pow2, wraps_small, wrapu_small by (cbn; lia). rewrite lor_low by lia.
    assert (wide (v * 2 ^ s) = v mod 128 * 2 ^ s + wide (v / 128 * 2 ^ (s + 7))) as Hw. { rewrite <- wide_step; [|done|done|done|exists (Z.of_nat k); unfold s; lia]. f_equal. rewrite Z.pow_add_r by lia. change (2 ^ 7) with 128. nia. }
    destruct (Z.eqb_spec (v / 128) 0) as [E|E]; cbn [negb].
    + exists b1. split; [|done]. do 2 f_equal. rewrite Hw, E, Z.mul_0_l. change (wide 0) with 0. lia.
    + set (L := pack_loop n (v / 128)) in *. change (packed_byte v :: L ++ y) with ([packed_byte v] ++ L ++ y) in *. change ((packed_byte v :: L) ++ y) with ([packed_byte v] ++ L ++ y) in *. change (packed_byte v :: L) with ([packed_byte v] ++ L) in *. rewrite !(app_assoc x) in *.
      destruct (IH n fuel m b1 (x ++ [packed_byte v]) (v / 128) y (acc + v mod 128 * 2 ^ s)) as (b2 & E2 & Hr2); [lia|lia|done|by apply group_rest| | |].
      * replace (28 - 7 * Z.of_nat k) with (s + 7) by (unfold s; lia). rewrite Z.pow_add_r by lia. change (2 ^ 7) with 128. nia.
      * rewrite length_app in Hfuel. cbn in Hfuel. unfold L in Hfuel. lia.
      * replace (28 - 7 * Z.of_nat k) with (s + 7) in E2 by (unfold s; lia). exists b2. split; [|done]. rewrite E2. do 2 f_equal. rewrite Hw. lia.
Qed.

Lemma land_is_byte v : is_byte (Z.land v 0xFF).
Proof. rewrite land_255. apply Z.mod_pos_bound. lia. Qed.

(** A fixed-width field: [bytes] writes it, [combine] inverts that. *)
Lemma get_fixed_field m b x bs y n fail combine v : reading m b (x ++ bs ++ y) (length x) →
  Z.of_nat (length bs) = n → 0 < n → combine bs = v →
  ∃ b', get_fixed m b n fail combine = Ret (b', v) ∧ reading m b' (x ++ bs ++ y) (length (x ++ bs)).
Proof.
  intros Hr Hl Hn <-. apply get_fixed_reading; [done| |done]. intros ->. simpl in Hl. lia.
Qed.

(** Reads back the fixed-width field whose bytes are [bs]: [Hv] says that [bs]
    has the value written, [Hbs] lists its bytes, [Hc] that the reader's
    expression is their value. *)
Ltac fixed_field Hv Hbs Hc :=
  match goal with
  | Hr : reading ?m ?b (?x ++ ?bs ++ ?y) _, Hok : _ ≤ ?v < _
    |- context [get_fixed ?m ?b ?n ?fail ?f] =>
      let b' := fresh "b'" in let Hg := fresh in
      destruct (get_fixed_field m b x bs y n fail f v Hr) as (b' & Hg & ?);
      [done|done| |rewrite Hg; by exists b'];
      refine (eq_trans _ (Hv Hok)); rewrite Hbs;
      apply Hc; repeat constructor; apply land_is_byte
  end.

(** *** The big-endian 64-bit field *)

Lemma extended32 lo : 0 ≤ lo < 2 ^ 32 → u64 (i32 lo) = lo + (if lo <? 2 ^ 31 then 0 else 2 ^ 64 - 2 ^ 32).
Proof.
  intros Hx. unfold wrapu, wraps. destruct (Z.ltb_spec lo (2 ^ 31)); [rewrite (Z.mod_small (lo + _)) by (cbn; lia); rewrite Z.mod_small; cbn; lia|].
  assert ((lo + 2 ^ (32 - 1)) mod 2 ^ 32 = lo - 2 ^ 31) as -> by (symmetry; apply (Z.mod_unique_pos _ _ 1); cbn; lia). symmetry. apply (Z.mod_unique_pos _ _ (-1)); cbn; lia.
Qed.
Lemma misread64 b0 b1 b2 b3 b4 b5 b6 b7 : Forall is_byte [b0; b1; b2; b3; b4; b5; b6; b7] →
  foldl Z.lor 0 [u64 (Z.shiftl b0 56); u64 (Z.shiftl b1 48); u64 (Z.shiftl b2 40); u64 (Z.shiftl b3 36); u64 (shl_byte b4 24); u64 (shl_byte b5 16); u64 (shl_byte b6 8); b7] =
  let v := be_value [b0; b1; b2; b3; b4; b5; b6; b7] in Z.lor (Z.lor (v / 2 ^ 40 * 2 ^ 40) ((v / 2 ^ 32) mod 2 ^ 8 * 2 ^ 36)) (u64 (i32 v)).
Proof.
  intros Hf. cbv zeta. set (v := be_value [b0; b1; b2; b3; b4; b5; b6; b7]). rewrite !Forall_cons in Hf. destruct_and!. unfold is_byte in *.
  set (hi := (b0 * 256 + b1) * 256 + b2). set (lo := ((b4 * 256 + b5) * 256 + b6) * 256 + b7). assert (v = hi * 2 ^ 40 + b3 * 2 ^ 32 + lo) as Ev by (unfold v, hi, lo, be_value; cbn; lia).
  assert (0 ≤ lo < 2 ^ 32) by (unfold lo; lia). assert (v / 2 ^ 40 = hi) as -> by (symmetry; apply (Z.div_unique_pos _ _ _ (b3 * 2 ^ 32 + lo)); lia).
  assert (v / 2 ^ 32 = hi * 256 + b3) as -> by (symmetry; apply (Z.div_unique_pos _ _ _ lo); lia). assert ((hi * 256 + b3) mod 2 ^ 8 = b3) as -> by (symmetry; apply (Z.mod_unique_pos _ _ hi); lia).
  assert (u64 (i32 v) = Z.lor (u64 (shl_byte b4 24)) (b5 * 2 ^ 16 + b6 * 2 ^ 8 + b7)) as ->.
  { unfold shl_byte. rewrite Z.shiftl_mul_pow2 by lia. 
    assert (i32 v = i32 lo) as ->. { unfold wraps. f_equal. rewrite Ev. replace (hi * 2 ^ 40 + b3 * 2 ^ 32 + lo + 2 ^ (32 - 1)) with (lo + 2 ^ (32 - 1) + (hi * 256 + b3) * 2 ^ 32) by lia. apply Z.mod_add. lia. }
    rewrite !extended32 by lia. assert ((b4 * 2 ^ 24 <? 2 ^ 31) = (lo <? 2 ^ 31)) as ->. { unfold lo. destruct (Z.ltb_spec (b4 * 2 ^ 24) (2 ^ 31)); destruct (Z.ltb_spec (((b4 * 256 + b5) * 256 + b6) * 256 + b7) (2 ^ 31)); lia. }
    set (e := if lo <? 2 ^ 31 then 0 else 2 ^ 40 - 2 ^ 8). replace (b4 * 2 ^ 24 + (if lo <? 2 ^ 31 then 0 else 2 ^ 64 - 2 ^ 32)) with ((b4 + e) * 2 ^ 24) by (unfold e; destruct (lo <? 2 ^ 31); lia). rewrite lor_high by lia. unfold lo at 1, e. destruct (lo <? 2 ^ 31); lia. }
  cbn [foldl]. rewrite Z.lor_0_l. unfold shl_byte. rewrite !Z.shiftl_mul_pow2 by lia. rewrite (wraps_small 32 (b5 * _)), (wraps_small 32 (b6 * _)) by (cbn; lia). rewrite !(wrapu_small 64 (_ * _)) by lia.
  assert (hi * 2 ^ 40 = Z.lor (Z.lor (b0 * 2 ^ 56) (b1 * 2 ^ 48)) (b2 * 2 ^ 40)) as ->. { rewrite (lor_high b0 _ 56) by lia. replace (b0 * 2 ^ 56 + b1 * 2 ^ 48) with ((b0 * 256 + b1) * 2 ^ 48) by lia. rewrite lor_high by lia. unfold hi. lia. }
  replace (b5 * 2 ^ 16 + b6 * 2 ^ 8 + b7) with (Z.lor (Z.lor (b5 * 2 ^ 16) (b6 * 2 ^ 8)) b7). { by rewrite !Z.lor_assoc. }
  rewrite (lor_high b5 _ 16) by lia. replace (b5 * 2 ^ 16 + b6 * 2 ^ 8) with ((b5 * 256 + b6) * 2 ^ 8) by lia. rewrite lor_high by lia. lia.
Qed.

Lemma read_field_spec m b x f y : field_ok f → reading m b (x ++ encode f ++ y) (length x) →
  ∃ b', read_field m b f = Ret (b', Some (received f)) ∧
        reading m b' (x ++ encode f ++ y) (length (x ++ encode f)).
Proof.
  destruct f as [v|l|v|v|v|v|v|v|v|v]; cbn [field_ok encode read_field received]; intros Hok Hr.
  - destruct (ob_get_reading m b x v y Hr) as (b' & -> & ?). exists b'. split; [|done].
    rewrite bind_ret_l. destruct Hok. by decide_cmp.
  - destruct (get_bytes_reading m b x l y Hr Hok) as (b' & -> & ?). by exists b'.
  - unfold ob_get_ui16. fixed_field (be_value_bytes 2 v) (be_bytes_2 v) combine_be16.
  - unfold ob_get_ui16_rv. fixed_field (le_value_bytes 2 v) (le_bytes_2 v) combine_le16.
  - unfold ob_get_ui32. fixed_field (be_value_bytes 4 v) (be_bytes_4 v) combine_be32.
  - unfold ob_get_ui32_rv. fixed_field (le_value_bytes 4 v) (le_bytes_4 v) combine_le32.
  - unfold ob_get_ui64_rv. fixed_field (le_value_bytes 8 v) (le_bytes_8 v) combine_le64.
  - destruct (get_packed_field 32 5 m b x v y) as (b' & Hg & ?); [auto|lia|done|lia|apply Hok|].
    unfold ob_get_packed_ui32. rewrite Hg. by exists b'.
  - destruct (get_packed_wide 4 10 (S (readable b)) m b x v y 0) as (b' & Hg & ?); [lia|lia|done|done|lia| |].
    + destruct Hr as [_ Hlim Hpos Hroom _]. unfold readable. rewrite Hlim, Hpos. rewrite !length_app in *. lia.
    + change (28 - 7 * Z.of_nat 4) with 0 in Hg. rewrite Z.mul_1_r, Z.add_0_l in Hg. unfold ob_get_packed_ui64. rewrite Hg. by exists b'.
  - unfold ob_get_ui64. destruct (get_fixed_field m b x (be_bytes 8 v) y 8 0xFFFFFFFF (λ bs, foldl Z.lor 0 [u64 (Z.shiftl (nthb bs 0) 56); u64 (Z.shiftl (nthb bs 1) 48); u64 (Z.shiftl (nthb bs 2) 40); u64 (Z.shiftl (nthb bs 3) 36); u64 (shl_byte (nthb bs 4) 24); u64 (shl_byte (nthb bs 5) 16); u64 (shl_byte (nthb bs 6) 8); nthb bs 7])
      (Z.lor (Z.lor (v / 2 ^ 40 * 2 ^ 40) ((v / 2 ^ 32) mod 2 ^ 8 * 2 ^ 36)) (u64 (i32 v))) Hr) as (b' & Hg & ?); [done|lia| |rewrite Hg; by exists b'].
    pose proof (be_value_bytes 8 v Hok) as E. rewrite be_bytes_8 in E |- *. etransitivity; [apply misread64; repeat constructor; apply land_is_byte|]. cbv zeta. cbv [nthb lookup list_lookup default from_option id]. by rewrite E.
Qed.

Lemma read_fields_spec m b x fs y : Forall field_ok fs →
  reading m b (x ++ encode_all fs ++ y) (length x) →
  ∃ b', read_fields m b fs = Ret (b', Some ∘ received <$> fs) ∧
        reading m b' (x ++ encode_all fs ++ y) (length (x ++ encode_all fs)).
Proof.
  intros Hok. revert b x. induction Hok as [|f fs Hf _ IH]; intros b x Hr.
  { exists b. split; [done|]. unfold encode_all. simpl. by rewrite app_nil_r. }
  change (encode_all (f :: fs)) with (encode f ++ encode_all fs) in *.
  rewrite <- (app_assoc (encode f)) in Hr |- *. cbn [read_fields].
  destruct (read_field_spec m b x f _ Hf Hr) as (b1 & -> & Hr1). rewrite bind_ret_l. simpl.
  rewrite (app_assoc x) in Hr1 |- *.
  destruct (IH b1 (x ++ encode f) Hr1) as (b2 & -> & Hr2). rewrite bind_ret_l.
  exists b2. split; [done|]. by rewrite (app_assoc x).
Qed.

(** *** Which values come back *)

Lemma log2_below x n : 0 ≤ x < 2 ^ n → 0 < n → Z.log2 x < n.
Proof. intros Hx Hn. destruct (decide (x = 0)) as [->|]; [done|]. apply Z.log2_lt_pow2; lia. Qed.
Lemma lor_range a c n : 0 < n → 0 ≤ a < 2 ^ n → 0 ≤ c < 2 ^ n → 0 ≤ Z.lor a c < 2 ^ n.
Proof.
  intros Hn Ha Hc. assert (0 ≤ Z.lor a c) as H0 by (apply Z.lor_nonneg; lia). split; [done|]. destruct (decide (Z.lor a c = 0)) as [->|]; [lia|]. apply Z.log2_lt_pow2; [lia|]. rewrite Z.log2_lor by lia. apply Z.max_lub_lt; by apply log2_below.
Qed.
Lemma lor_multiple a c k : 0 ≤ k → Z.lor (a * 2 ^ k) (c * 2 ^ k) = Z.lor a c * 2 ^ k.
Proof. intros. rewrite <- !Z.shiftl_mul_pow2 by done. symmetry. apply Z.shiftl_lor. Qed.
Lemma received_ui64 v : 0 ≤ v < 2 ^ 64 → received (FUi64 v) = FUi64 v ↔ faithful (FUi64 v) = true.
Proof.
  intros Hv. cbn [received faithful]. set (hi := v / 2 ^ 40). set (b3 := (v / 2 ^ 32) mod 2 ^ 8). set (lo := v mod 2 ^ 32).
  assert (0 ≤ hi < 2 ^ 24 ∧ 0 ≤ b3 < 2 ^ 8 ∧ 0 ≤ lo < 2 ^ 32 ∧ v = hi * 2 ^ 40 + b3 * 2 ^ 32 + lo) as (Hhi & Hb3 & Hlo & Ev).
  { pose proof (Z.div_mod v (2 ^ 32) ltac:(lia)) as H1. pose proof (Z.div_mod (v / 2 ^ 32) (2 ^ 8) ltac:(lia)) as H2. rewrite Z.div_div in H2 by lia. change (2 ^ 32 * 2 ^ 8) with (2 ^ 40) in H2. pose proof (Z.mod_pos_bound v (2 ^ 32) ltac:(lia)) as H3. pose proof (Z.mod_pos_bound (v / 2 ^ 32) (2 ^ 8) ltac:(lia)) as H4. fold hi b3 in H2. fold lo in H1, H3. fold b3 in H4. assert (0 ≤ hi) by (apply Z.div_pos; lia). lia. }
  assert (i32 v = i32 lo) as ->. { unfold wraps. f_equal. rewrite Ev at 1. replace (hi * 2 ^ 40 + b3 * 2 ^ 32 + lo + 2 ^ (32 - 1)) with (lo + 2 ^ (32 - 1) + (hi * 256 + b3) * 2 ^ 32) by lia. apply Z.mod_add. lia. }
  rewrite extended32 by done. replace (hi * 2 ^ 40) with (hi * 16 * 2 ^ 36) by lia. rewrite lor_multiple by lia. set (X := Z.lor (hi * 16) b3).
  rewrite orb_true_iff, Z.eqb_eq, Z.leb_le. assert (v / 2 ^ 31 = (hi * 256 + b3) * 2 + lo / 2 ^ 31) as E31. { pose proof (Z.div_mod lo (2 ^ 31) ltac:(lia)). pose proof (Z.mod_pos_bound lo (2 ^ 31) ltac:(lia)). symmetry. apply (Z.div_unique_pos _ _ _ (lo mod 2 ^ 31)); lia. }
  assert ((v / 2 ^ 31) mod 2 ^ 9 = b3 * 2 + lo / 2 ^ 31) as ->. { assert (0 ≤ lo / 2 ^ 31 < 2) by (split; [apply Z.div_pos; lia|apply Z.div_lt_upper_bound; lia]). symmetry. apply (Z.mod_unique_pos _ _ hi); lia. }
  destruct (Z.ltb_spec lo (2 ^ 31)) as [Hl|Hl].
  - rewrite Z.add_0_r, lor_high by lia. rewrite (Z.div_small lo) by lia. split.
    + intros [= E]. left. assert (X * 16 = hi * 256 + b3) as EX by lia. assert (b3 = 16 * (b3 / 16)) as Eb. { pose proof (Z.div_mod b3 16 ltac:(lia)). pose proof (Z.mod_pos_bound b3 16 ltac:(lia)). lia. }
      assert (X = Z.lor hi (b3 / 16) * 16) as EX2. { unfold X. rewrite Eb at 1. rewrite (Z.mul_comm 16). apply (lor_multiple hi (b3 / 16) 4). lia. } assert (0 ≤ b3 / 16 < 16) by (split; [apply Z.div_pos; lia|apply Z.div_lt_upper_bound; lia]). lia.
    + intros [E|E]; [|lia]. assert (b3 = 0) as -> by lia. unfold X. rewrite Z.lor_0_r. f_equal. lia.
  - assert (lo / 2 ^ 31 = 1) as -> by (symmetry; apply (Z.div_unique_pos _ _ _ (lo - 2 ^ 31)); lia).
    assert (Z.lor (X * 2 ^ 36) (lo + (2 ^ 64 - 2 ^ 32)) = lo + (2 ^ 64 - 2 ^ 32)) as ->.
    { replace (lo + (2 ^ 64 - 2 ^ 32)) with (Z.ones 32 * 2 ^ 32 + lo) by (change (Z.ones 32) with (2 ^ 32 - 1); lia). rewrite <- (lor_high (Z.ones 32) lo 32) by lia. rewrite Z.lor_assoc. f_equal. replace (X * 2 ^ 36) with (X * 16 * 2 ^ 32) by lia. rewrite lor_multiple by lia. f_equal.
      assert (0 ≤ X < 2 ^ 28) as HX by (unfold X; apply lor_range; lia).
      apply Z.lor_ones_low; [lia|]. apply log2_below; lia. }
    split; [intros [= E]; right; lia|]. intros [E|E]; [lia|]. f_equal. lia.
Qed.
Lemma received_faithful f : field_ok f → received f = f ↔ faithful f = true.
Proof.
  destruct f as [v|l|v|v|v|v|v|v|v|v]; cbn [field_ok]; intros Hok; try (by cbn); [|by apply received_ui64]. cbn [received faithful]. rewrite Z.ltb_lt. set (y := v / 2 ^ 28).
  pose proof (Z.div_mod v (2 ^ 28) ltac:(lia)) as Hdm. fold y in Hdm. pose proof (Z.mod_pos_bound v (2 ^ 28) ltac:(lia)). assert (0 ≤ y < 128) as Hy by (unfold y; split; [apply Z.div_pos; lia|apply Z.div_lt_upper_bound; lia]).
  pose proof (Z.mod_pos_bound y 16 ltac:(lia)). unfold extend4. destruct (decide (y < 8)) as [Hlt|Hge].
  - rewrite (Z.mod_small y) by lia. decide_cmp. split; [lia|]. intros _. f_equal. lia.
  - split; [|lia]. intros [= E]. destruct (Z.ltb_spec (y mod 16) 8); [|lia]. assert (y mod 16 = y) as E' by lia. lia.
Qed.

(** C15: A packet built in a new buffer from any sequence of fields (bytes, byte strings, 16, 32 and 64-bit integers of either byte order, packed integers), flipped and parsed field by field, leaves the reader at its end and gives every field back as it was, but for two readers: a big-endian 64-bit integer comes back exactly when its bits 31 to 39 are zero or all from 31 on are one, a packed 64-bit integer below 2^35 exactly when it is below 2^31; the others come back as [received] says. It is assumed that [malloc] gives what is asked for. *)
Theorem ob_fields_roundtrip m b fs :
  malloc_total → ob_new m = Some b → Forall field_ok fs →
  Z.of_nat (length (encode_all fs)) + 2 ^ 17 ≤ SIZE_MAX →
  (∃ m' b1 b2 b3, write_fields m b fs = Ret (m', b1) ∧ ob_flip b1 = Ret b2 ∧
    read_fields m' b2 fs = Ret (b3, Some ∘ received <$> fs) ∧
    ob_remaining b3 = Ret 0 ∧ ob_overrun b3 = false) ∧
  Forall (λ f, received f = f ↔ faithful f = true) fs.
Proof.
  intros Hmt Hnew Hok Hmax. split; [|eapply Forall_impl; [exact Hok|]; apply received_faithful].
  destruct (write_fields_spec m b [] fs Hmt (writing_new m b Hnew) Hok) as (m' & b1 & Hw & Hwr);
    [simpl; lia|].
  destruct (flip_reading m' b1 _ Hwr) as (b2 & Hf & Hrd); [simpl; lia|].
  rewrite <- (app_nil_r ([] ++ encode_all fs)), <- app_assoc in Hrd.
  destruct (read_fields_spec m' b2 [] fs [] Hok Hrd) as (b3 & Hr & [_ Hlim Hpos Hroom _]).
  exists m', b1, b2, b3. split_and!; try done; rewrite app_nil_r in *; simpl in *.
  - unfold ob_remaining. rewrite Hlim, Hpos. decide_cmp. simpl. decide_cmp. f_equal. lia.
  - unfold ob_overrun. rewrite Hlim, Hpos. case_if; by decide_cmp.
Qed.

End OBCodec.

(** A header-like packet on the 64-bit build: the last two fields are misread. *)
Lemma ob_fields_roundtrip_witness :
  let fs := [FByte 7; FUi16 0xBEEF; FPacked32 0xFFFFFFFF; FBytes [1; 2; 3]; FUi64Rv (2 ^ 63); FUi64 5; FPacked64 300; FUi64 (2 ^ 32); FPacked64 (2 ^ 31)] in
  ∃ b m' b1 b2 b3, @ob_new arm64 calloc_allocator ∅ = Some b ∧
    @write_fields arm64 calloc_allocator ∅ b fs = Ret (m', b1) ∧ @ob_flip arm64 b1 = Ret b2 ∧
    @read_fields arm64 m' b2 fs = Ret (b3, Some <$> (take 7 fs ++ [FUi64 (2 ^ 36); FPacked64 (2 ^ 64 - 2 ^ 31)])).
Proof.
  intros fs. set (b := @Buf None 0 0 (@SIZE_MAX arm64) 0 None).
  assert (@ob_new arm64 calloc_allocator ∅ = Some b) as Hnew by reflexivity.
  assert (Forall field_ok fs) as Hok.
  { repeat constructor; simpl; unfold is_byte; done || lia. }
  assert (Z.of_nat (length (encode_all fs)) + 2 ^ 17 ≤ @SIZE_MAX arm64) as Hmax
    by (vm_compute; congruence).
  destruct (@ob_fields_roundtrip arm64 calloc_allocator ∅ b fs calloc_total Hnew Hok Hmax)
    as ((m' & b1 & b2 & b3 & Hw & Hf & Hr & _) & _).
  exists b, m', b1, b2, b3. exact (conj Hnew (conj Hw (conj Hf Hr))).
Defined.

End OBCodec.
