(* ===== verification/OverlayBufferFill.v ===== *)
(** * Filling a buffer of limited size

    A packet is written into a buffer with a size limit: what does not fit is cut
    off by going back to the last checkpoint. *)

From S2P Require Import Prelude Mem OverlayBuffer OverlayBufferSpec OverlayBufferCodec.
Import OB OBSpec OBCodec.

Module OBFill.
Section OBFill.
Context {arch : Arch} {allocator : Allocator}.

(** A description of what a buffer holds that appends extend. *)
Definition appends (W : mem → overlay_buffer → list Z → Prop) : Prop := ∀ m b w bs, W m b w → bs ≠ [] →
  Z.of_nat (length w) + Z.of_nat (length bs) + 2 ^ 17 ≤ SIZE_MAX →
  ∃ m' b', append_raw m b bs = Ret (m', b') ∧ W m' b' (w ++ bs).
Lemma writing_appends : malloc_total → appends writing.
Proof. intros Hm m b w bs. by apply append_writing. Qed.

(** Objects that are not the buffer's own are kept. *)
Lemma appends_frame W k l : appends W → appends (λ m b w, W m b w ∧ m !! k = Some l ∧ apart b k).
Proof.
  intros HW m b w bs (Hw & Hk & Ha) Hbs Hmax. destruct (HW m b w bs Hw Hbs Hmax) as (m' & b' & Hap & Hw').
  exists m', b'. destruct (append_frame _ _ _ _ _ _ _ Hap Hk Ha). done.
Qed.

(** The buffer is limited to [L] bytes and its checkpoint is at [cp]. [w] has been
    appended; as long as it is within the limit the buffer holds it, and the part
    before the checkpoint is there in any case. *)
Record filling (L : Z) (cp : nat) (m : mem) (b : overlay_buffer) (w : list Z) : Prop := {
  fi_inv : ob_inv m b;
  fi_static : is_static b = false;
  fi_limit : sizeLimit b = L;
  fi_small : L + 2 ^ 18 ≤ SIZE_MAX;
  fi_bytes : bytes b ≠ None;
  fi_position : position b = Z.of_nat (length w);
  fi_room : Z.of_nat (length w) ≤ L → position b ≤ allocSize b ∧ take (length w) (region m b) = w;
  fi_checkpoint : checkpointLength b = Z.of_nat cp;
  fi_kept : (cp ≤ length w)%nat ∧ Z.of_nat cp ≤ L ∧ Z.of_nat cp ≤ allocSize b ∧ take cp (region m b) = take cp w;
}.

Lemma filling_appends L cp : malloc_total → appends (filling L cp).
Proof.
  intros Hmt m b w bs [Hi Hst Hlim Hsm Hby Hpos Hroom Hcp (K1 & K2 & K3 & K4)] Hbs Hmax.
  assert (can_append b (Z.of_nat (length bs))) as Hc by (split_and!; [lia|lia|by right]).
  destruct (append_raw_spec m b bs Hmt Hi Hbs Hc) as (m' & b' & Ha & [Hi' Hpos' Hcp' Hlim' Hst' Hal' Hfits Hkept]).
  exists m', b'. split; [done|]. rewrite Hpos, Nat2Z.id in Hkept.
  split; [done|congruence|congruence|done|by eapply append_bytes_kept|rewrite length_app; lia| |congruence|].
  - intros Hle. rewrite length_app in *. destruct (Hroom ltac:(lia)) as [R1 R2].
    assert (fits b (Z.of_nat (length bs)) = true) as Hf.
    { unfold fits. rewrite Hst, Hlim, (proj2 (Z.leb_le _ _)) by lia. done. }
    destruct (Hfits Hf) as [F1 F2]. split; [lia|].
    rewrite Hpos', Hpos, Z2Nat.inj_add, !Nat2Z.id, R2 in F2 by lia. done.
  - split_and!; [rewrite length_app; lia|done|lia|].
    apply (f_equal (take cp)) in Hkept. rewrite !take_take, Nat.min_l in Hkept by lia.
    by rewrite Hkept, K4, take_app_le.
Qed.

Lemma checkpoint_filling L cp m b w : filling L cp m b w → Z.of_nat (length w) ≤ L → filling L (length w) m (ob_checkpoint b) w.
Proof.
  intros [Hi Hst Hlim Hsm Hby Hpos Hroom Hcp (K1 & K2 & K3 & K4)] Hle. destruct (Hroom Hle) as [R1 R2].
  split; try done; cbn [checkpointLength ob_checkpoint set_checkpoint allocSize].
  - destruct Hi. by split.
  - split_and!; [lia|done|lia|by rewrite (region_same m b), firstn_all].
Qed.

Lemma rewind_filling L cp m b w : filling L cp m b w → filling L cp m (ob_rewind b) (take cp w).
Proof.
  intros [Hi Hst Hlim Hsm Hby Hpos Hroom Hcp (K1 & K2 & K3 & K4)].
  assert (length (take cp w) = cp) as Hl by (rewrite length_take; lia).
  split; try done; cbn [ob_rewind set_position position allocSize].
  - destruct Hi. by split.
  - by rewrite Hl.
  - intros _. rewrite Hl, Hcp. split; [lia|]. by rewrite (region_same m b).
  - rewrite Hl. split_and!; [lia|lia|lia|]. rewrite (region_same m b), K4, take_take by done. f_equal. lia.
Qed.

Lemma filling_overrun L cp m b w : filling L cp m b w → ob_overrun b = bool_decide (L < Z.of_nat (length w)).
Proof.
  intros [Hi Hst Hlim Hsm Hby Hpos Hroom Hcp _]. unfold ob_overrun. rewrite Hlim, Hpos, (proj2 (Z.eqb_neq L SIZE_MAX)) by lia. cbn [negb andb].
  destruct (bool_decide_reflect (L < Z.of_nat (length w))) as [Hlt|Hge].
  - apply Z.ltb_lt. destruct (Z.ltb_spec L (allocSize b)); lia.
  - apply Z.ltb_ge. destruct (Hroom ltac:(lia)) as [R _]. destruct (Z.ltb_spec L (allocSize b)); lia.
Qed.

(** A byte that was appended after the checkpoint is replaced. *)
Lemma set_filling L cp m b x v v' y : filling L cp m b (x ++ v :: y) → (cp ≤ length x)%nat → Z.of_nat (length (x ++ v :: y)) ≤ L →
  ∃ m', ob_set m b (Z.of_nat (length x)) v' = Ret m' ∧ filling L cp m' b (x ++ v' :: y).
Proof.
  intros [Hi Hst Hlim Hsm Hby Hpos Hroom Hcp (K1 & K2 & K3 & K4)] Hc Hle. destruct (Hroom Hle) as [R1 R2]. pose proof (inv_alloc _ _ Hi). rewrite length_app in *. cbn [length] in *.
  destruct (store_at_region m b (Z.of_nat (length x)) [v'] Hi) as (m' & Hs & Hi' & Hreg); [lia|done|cbn; lia|].
  exists m'. unfold ob_set, set_bytes. cbn [length]. rewrite szadd_small by lia. rewrite !(proj2 (Z.leb_le _ _)) by lia. split; [done|].
  rewrite Nat2Z.id in Hreg. cbn [length app] in Hreg. assert (take (length x) (region m b) = x) as Hx. { apply (f_equal (take (length x))) in R2. rewrite take_take, Nat.min_l, take_app_length in R2 by lia. done. }
  assert (take (length y) (drop (S (length x)) (region m b)) = y) as Hy.
  { replace (length x + S (length y))%nat with (S (length x) + length y)%nat in R2 by lia. apply (f_equal (drop (S (length x)))) in R2. rewrite <- take_drop_commute in R2. replace (x ++ v :: y) with ((x ++ [v]) ++ y) in R2 by (by rewrite <- app_assoc). rewrite drop_app_length' in R2 by (rewrite length_app; cbn; lia). exact R2. }
  rewrite Hx in Hreg. replace (length x + 1)%nat with (S (length x)) in Hreg by lia.
  split; try done; rewrite ?length_app; cbn [length]; try done.
  - intros _. split; [lia|]. rewrite Hreg. rewrite take_app_ge by lia. replace (length x + S (length y) - length x)%nat with (S (length y)) by lia. cbn [take]. by rewrite Hy.
  - split_and!; [lia|lia|lia|]. rewrite Hreg. by rewrite !take_app_le by lia.
Qed.

(** A new buffer that is limited to [L] bytes, and the first byte of it. *)
Record unfilled (L : Z) (m : mem) (b : overlay_buffer) : Prop := {
  un_inv : ob_inv m b;
  un_static : is_static b = false;
  un_limit : sizeLimit b = L;
  un_small : 1 ≤ L ∧ L + 2 ^ 18 ≤ SIZE_MAX;
  un_position : position b = 0;
  un_checkpoint : checkpointLength b = 0;
}.
Lemma unfilled_new L m b : ob_new m = Some b → 1 ≤ L → L + 2 ^ 18 ≤ SIZE_MAX → ∃ b', ob_limitsize b L = Ret b' ∧ unfilled L m (ob_checkpoint b').
Proof.
  intros Hn H1 HL. pose proof (writing_new m b Hn) as [Hi Hst Hlim Hpos Hroom _]. assert (checkpointLength b = 0) as Hc by (revert Hn; unfold ob_new, new_struct; destruct (malloc_answer _ _); [by intros [= <-]|done]).
  unfold ob_limitsize. rewrite Hst, Hc. rewrite Hpos. cbn [length negb orb]. rewrite (proj2 (Z.eqb_neq L SIZE_MAX)) by lia. cbn [negb]. rewrite !(proj2 (Z.leb_le _ _)) by lia. eexists. split; [reflexivity|]. assert (ob_inv m (ob_checkpoint (set_sizeLimit b L))) as Hi'. { destruct Hi. split; cbn; try done; try lia; by left. }
  by split.
Qed.
Lemma first_filling L m b v : malloc_total → unfilled L m b → ∃ m' b', append_raw m b [v] = Ret (m', b') ∧ filling L 0 m' b' [v].
Proof.
  intros Hmt [Hi Hst Hlim [H1 Hsm] Hpos Hcp]. assert (can_append b (Z.of_nat (length [v]))) as Hc by (split_and!; [lia|cbn; lia|by left]).
  destruct (append_raw_spec m b [v] Hmt Hi ltac:(done) Hc) as (m' & b' & Ha & [Hi' Hpos' Hcp' Hlim' Hst' Hal' Hfits Hkept]). exists m', b'. split; [done|].
  assert (fits b (Z.of_nat (length [v])) = true) as Hf. { unfold fits. rewrite Hst, Hlim, (proj2 (Z.leb_le _ _)) by (cbn; lia). done. }
  destruct (Hfits Hf) as [F1 F2]. rewrite Hpos', Hpos in F2. change (Z.to_nat (0 + Z.of_nat (length [v]))) with 1%nat in F2. change (Z.to_nat 0) with 0%nat in F2. cbn [take app] in F2.
  assert (position b' = 1) as Hp1 by (rewrite Hpos', Hpos; done). split; try done; try congruence; try exact Hp1.
  - apply (position_bytes m'); [done|]. lia.
  - rewrite Hcp', Hcp. done.
  - split_and!; [lia|lia|pose proof (inv_alloc _ _ Hi'); lia|done].
Qed.

(** A message that was written within its limit can be read. *)
Lemma filling_flip L cp m b w : filling L cp m b w → Z.of_nat (length w) ≤ L → ∃ b', ob_flip b = Ret b' ∧ reading m b' w 0.
Proof.
  intros [Hi Hst Hlim Hsm Hby Hpos Hroom Hcp (K1 & K2 & K3 & K4)] Hle. destruct (Hroom Hle) as [R1 R2]. destruct (ob_flip_inv m b) as (b' & Hf & Hi'); [done|lia|congruence|].
  exists b'. split; [done|]. revert Hf. unfold ob_flip, ob_limitsize. simpl. repeat (case_if; try discriminate). intros [= <-]. split; simpl; done || lia.
Qed.

End OBFill.
End OBFill.
