(* ===== verification/OverlayBufferEdge.v ===== *)
(** * Strings and packed integers in overlay buffers, and the readers' limits

    Round trips of nul-terminated strings and of the packed integers kept
    outside buffers ([pack_uint], [unpack_uint], [measure_packed_uint]), and
    concrete inputs on which a reader does not invert its writer or leaves the
    buffer. *)

From S2P Require Import Prelude Mem OverlayBuffer OverlayBufferSpec OverlayBufferCodec.
Import OB OBSpec OBCodec.

Module OBEdge.
Section OBEdge.
Context {arch : Arch} {allocator : Allocator}.

(** ** Strings *)

Lemma reading_byte m b w k i c : reading m b w k → w !! i = Some c →
  read_byte m b (Z.of_nat i) = Ret c.
Proof.
  intros [Hi Hlim Hpos Hroom Hcont] Hc. pose proof (lookup_lt_Some _ _ _ Hc).
  destruct (read_byte_region m b (Z.of_nat i)) as (c' & Hc' & ->); [done|lia|lia|].
  rewrite Nat2Z.id in Hc'. rewrite <- Hcont, lookup_take_lt in Hc by lia. congruence.
Qed.

Lemma str_scan_reading m b x s1 s2 y fuel :
  reading m b (x ++ (s1 ++ s2) ++ 0 :: y) (length x) → 0 ∉ s2 → (length s2 < fuel)%nat →
  str_scan fuel m b (Z.of_nat (length s1)) = Ret (Some (Z.of_nat (length (s1 ++ s2)))).
Proof.
  intros Hr. revert s1 fuel Hr. induction s2 as [|c s2 IH]; intros s1 fuel Hr Hn Hf;
    (destruct fuel as [|fuel]; [simpl in Hf; lia|]); cbn [str_scan];
    pose proof (inv_limit _ _ (rd_inv _ _ _ _ Hr)); pose proof (inv_alloc _ _ (rd_inv _ _ _ _ Hr));
    pose proof (rd_limit _ _ _ _ Hr) as Hlim; pose proof (rd_position _ _ _ _ Hr) as Hpos;
    pose proof (rd_room _ _ _ _ Hr) as Hroom; rewrite !length_app in Hlim, Hroom;
    cbn [length] in Hlim, Hroom; rewrite test_offset_spec, szadd_small, Hpos by lia;
    do 2 decide_cmp; cbn [andb]; rewrite <- Nat2Z.inj_add.
  - rewrite (reading_byte m b _ _ _ 0 Hr); [by rewrite app_nil_r|].
    rewrite lookup_app_r by lia. replace (length x + length s1 - length x)%nat with (length s1) by lia.
    rewrite app_nil_r. apply list_lookup_middle. done.
  - rewrite not_elem_of_cons in Hn. destruct Hn as [Hc Hn].
    rewrite (reading_byte m b _ _ _ c Hr).
    2: { rewrite lookup_app_r by lia. rewrite <- app_assoc. apply list_lookup_middle. lia. }
    rewrite bind_ret_l. decide_cmp.
    rewrite (cons_middle c s1 s2), (app_assoc s1) in Hr |- *.
    replace (Z.of_nat (length s1) + 1) with (Z.of_nat (length (s1 ++ [c])))
      by (rewrite length_app; simpl; lia).
    apply IH; [done|done|simpl in Hf; lia].
Qed.

(** A string appended to a new buffer is found again by [ob_get_str_ptr]:
    the pointer returned addresses the string and its nul, and the position
    moves past them. *)
Theorem ob_str_roundtrip m b s :
  malloc_total → ob_new m = Some b → 0 ∉ s → Z.of_nat (length s) + 1 + 2 ^ 17 ≤ SIZE_MAX →
  ∃ m' b1 b2 b3 p, ob_append_str m b s = Ret (m', b1) ∧ ob_flip b1 = Ret b2 ∧
    ob_get_str_ptr m' b2 = Ret (b3, Some p) ∧
    load_bytes m' p (Z.of_nat (length s) + 1) = Ret (s ++ [0]) ∧ ob_remaining b3 = Ret 0.
Proof.
  intros Hmt Hnew Hn Hmax.
  destruct (append_writing m b [] (s ++ [0]) Hmt (writing_new m b Hnew)) as (m' & b1 & Ha & Hw);
    [by destruct s|rewrite length_app; simpl; lia|].
  destruct (flip_reading m' b1 _ Hw) as (b2 & Hf & Hr); [cbn [app]; rewrite length_app; simpl; lia|].
  assert (reading m' b2 ([] ++ (s ++ [0]) ++ []) 0) as Hr0 by by rewrite app_nil_r.
  destruct (reading_next m' b2 [] (s ++ [0]) [] Hr0) as (_ & Hrd & _); [by destruct s|].
  destruct (rd_inv _ _ _ _ Hr). pose proof (rd_limit _ _ _ _ Hr) as Hlim.
  pose proof (rd_position _ _ _ _ Hr) as Hpos. pose proof (rd_room _ _ _ _ Hr) as Hroom.
  cbn [app] in *. rewrite length_app in *. cbn [length app] in *.
  unfold read_at in Hrd. destruct (bytes b2) as [p|] eqn:Ep; [|done].
  eexists m', b1, b2, _, (ptr_add p (position b2)). split_and!.
  - unfold ob_append_str, ob_append_bytes. rewrite length_app. simpl. by decide_cmp.
  - done.
  - unfold ob_get_str_ptr.
    pose proof (str_scan_reading m' b2 [] [] s []
      (Z.to_nat (Z.min (sizeLimit b2) (allocSize b2) - position b2 + 2)) Hr Hn ltac:(lia)) as Hs.
    cbn [length app] in Hs. change (Z.of_nat 0) with 0 in Hs. rewrite Hs, bind_ret_l. unfold cur_ptr. rewrite Ep. simpl. done.
  - rewrite <- Hrd. f_equal. lia.
  - unfold ob_remaining. simpl. rewrite Hlim, Hpos, szadd_small by lia. decide_cmp. simpl.
    decide_cmp. f_equal. lia.
Qed.

End OBEdge.

Lemma ob_str_roundtrip_witness :
  ∃ b m' b1 b2 b3 p, @ob_new arm32 calloc_allocator ∅ = Some b ∧
    @ob_append_str arm32 calloc_allocator ∅ b [104; 105] = Ret (m', b1) ∧ @ob_flip arm32 b1 = Ret b2 ∧
    @ob_get_str_ptr arm32 m' b2 = Ret (b3, Some p) ∧ load_bytes m' p 3 = Ret [104; 105; 0].
Proof.
  set (b := @Buf None 0 0 (@SIZE_MAX arm32) 0 None).
  assert (@ob_new arm32 calloc_allocator ∅ = Some b) as Hnew by reflexivity.
  assert (0 ∉ [104; 105]) as Hn by (rewrite !not_elem_of_cons; split_and!; [done..|apply not_elem_of_nil]).
  destruct (@ob_str_roundtrip arm32 calloc_allocator ∅ b [104; 105] calloc_total Hnew Hn)
    as (m' & b1 & b2 & b3 & p & H1 & H2 & H3 & H4 & _); [vm_compute; congruence|].
  exists b, m', b1, b2, b3, p. exact (conj Hnew (conj H1 (conj H2 (conj H3 H4)))).
Defined.

(** ** Packed integers outside buffers *)

Lemma unpack_loop_pack n v i acc : 0 ≤ i → (0 < n)%nat → 0 ≤ v < 2 ^ (7 * Z.of_nat n) →
  i * 7 < 32 → v * 2 ^ (i * 7) < 2 ^ 31 → 0 ≤ acc < 2 ^ (i * 7) →
  ∀ rest, unpack_loop (pack_loop n v ++ rest) i acc
          = Ret (i + Z.of_nat (length (pack_loop n v)), acc + v * 2 ^ (i * 7)).
Proof.
  revert v i acc. induction n as [|n IH]; intros v i acc Hi Hn Hv Hs Hb Hacc rest; [lia|].
  rewrite pack_loop_unfold. cbn [app unpack_loop].
  pose proof (Z.mod_pos_bound v 128 ltac:(lia)) as Hm.
  pose proof (Z.div_mod v 128 ltac:(lia)) as Hdm.
  assert (0 ≤ v / 128) as Hq by (apply Z.div_pos; lia).
  rewrite packed_byte_low, packed_byte_more by lia.
  destruct (group_value 64 (v mod 128) (i * 7)) as [-> Hgv]; [by right|done|lia|unfold packed_bound; simpl; nia|].
  rewrite bind_ret_l, Hgv, lor_low by lia.
  rewrite Z.shiftr_div_pow2 by lia. change (2 ^ 7) with 128.
  destruct (Z.eqb_spec (v / 128) 0) as [E|E]; simpl.
  - do 2 f_equal. rewrite E in Hdm. nia.
  - assert (1 * 2 ^ (i * 7 + 7) ≤ v * 2 ^ (i * 7)) as Hs7.
    { rewrite Z.pow_add_r by lia. change (2 ^ 7) with 128. nia. }
    assert (i * 7 + 7 < 31) as Hs32 by (apply (Z.pow_lt_mono_r_iff 2); lia).
    assert (0 < n)%nat by (destruct n; [simpl in *; exfalso; nia|lia]).
    rewrite IH; [|lia|done|by apply group_rest|lia| |];
      replace ((i + 1) * 7) with (i * 7 + 7) by lia; rewrite ?Z.pow_add_r by lia;
      change (2 ^ 7) with 128; [|nia|nia].
    do 2 f_equal; [simpl; lia|nia].
Qed.

Lemma measure_loop_length fuel v acc :
  measure_loop fuel v acc = acc + Z.of_nat (length (pack_loop fuel v)).
Proof.
  revert v acc. induction fuel as [|fuel IH]; intros v acc; [simpl; lia|].
  rewrite pack_loop_unfold. cbn [measure_loop length]. cbv zeta.
  destruct (Z.shiftr v 7 =? 0); [simpl; lia|]. rewrite IH. lia.
Qed.

(** [measure_packed_uint] is the number of bytes [pack_uint] writes, at most
    ten, and below 2^31 [unpack_uint] reads the integer back from a buffer that
    starts with them, consuming exactly those bytes. *)
Theorem pack_uint_roundtrip v rest : 0 ≤ v < 2 ^ 64 →
  Z.of_nat (length (pack_uint v)) = measure_packed_uint v ∧ 1 ≤ measure_packed_uint v ≤ 10 ∧
  (v < 2 ^ 31 → unpack_uint (pack_uint v ++ rest) = Ret (measure_packed_uint v, v)).
Proof.
  intros Hv. unfold measure_packed_uint, pack_uint, unpack_uint. rewrite measure_loop_length.
  split; [lia|]. split.
  - assert (∀ n w, (length (pack_loop n w) ≤ n)%nat) as Hle.
    { induction n as [|n IH]; intros w; [done|]. rewrite pack_loop_unfold. simpl.
      case_if; [simpl; lia|]. specialize (IH (Z.shiftr w 7)). lia. }
    specialize (Hle 10%nat v). rewrite pack_loop_unfold in *. cbn [length] in *. lia.
  - intros Hb. rewrite unpack_loop_pack by lia. do 2 f_equal. lia.
Qed.

Lemma pack_uint_roundtrip_witness : unpack_uint (pack_uint 300 ++ [9]) = Ret (2, 300).
Proof. refine (proj2 (proj2 (pack_uint_roundtrip 300 [9] _)) _); lia. Defined.

(** ** Where reading back fails *)

(** [ob_get_ui64] shifts its fourth byte by 36 and lets its fifth extend its
    sign, so it does not read back what [ob_append_ui64] wrote: 2^32 comes back
    as 2^36, and 2^31 as the 64-bit sign extension of -2^31. *)
Theorem ob_ui64_not_inverted :
  (λ v, r ← @ob_append_ui64 arm64 calloc_allocator ∅ (Buf None 0 0 (@SIZE_MAX arm64) 0 None) v;
        b ← @ob_flip arm64 r.2; g ← @ob_get_ui64 arm64 r.1 b; Ret g.2) <$> [2 ^ 32; 2 ^ 31]
  = [Ret (2 ^ 36); Ret (2 ^ 64 - 2 ^ 31)].
Proof. vm_compute. reflexivity. Qed.

(** The packed readers shift each group of seven bits as an [int]: a 64-bit
    value of 2^31 written by [ob_append_packed_ui64] comes back sign-extended,
    and the sixth group of a larger value is shifted by 35, which is undefined
    behaviour; a remote peer can send such an encoding to either reader. *)
Theorem ob_packed_ui64_wide :
  (λ v, r ← @ob_append_packed_ui64 arm64 calloc_allocator ∅ (Buf None 0 0 (@SIZE_MAX arm64) 0 None) v;
        b ← @ob_flip arm64 r.2; g ← @ob_get_packed_ui64 arm64 r.1 b; Ret g.2)
    <$> [2 ^ 31; 2 ^ 35]
  = [Ret (2 ^ 64 - 2 ^ 31); Undef] ∧
  unpack_uint (pack_uint (2 ^ 35)) = Undef.
Proof. vm_compute. auto. Qed.

(** [ob_get_str_ptr] tests an offset before reading the byte after it: on a
    buffer over exactly its object whose bytes hold no nul, it reads one byte
    past the object. *)
Theorem ob_get_str_ptr_overread :
  let m := {[ 0%nat := [104; 105] ]} in
  let b := @Buf (Some (Ptr 0 0)) 0 0 (@SIZE_MAX arm32) 2 None in
  @ob_inv arm32 m b ∧ @ob_static arm32 calloc_allocator m (Some (Ptr 0 0)) 2 = Some b ∧
  @ob_get_str_ptr arm32 m b = Undef.
Proof.
  intros m b. split_and!; [|reflexivity|reflexivity].
  split; simpl; try (vm_compute; intuition congruence); try (right; right; done); try done.
  by exists [104; 105].
Qed.

(** [ob_dup] copies the position before it appends the bytes, so it
    fails an assertion on every buffer with bytes whose position is past
    its start, instead of copying it. *)
Theorem ob_dup_aborts `{Arch} `{Allocator} m b :
  malloc_total → ob_inv m b → 0 < position b ≤ allocSize b → position b ≤ sizeLimit b →
  ob_dup m b = Aborted.
Proof.
  intros Hmt Hi Hp Hlim. pose proof (inv_live _ _ Hi) as Hl. unfold ob_dup, new_struct.
  pose proof (inv_limit _ _ Hi). pose proof (inv_alloc _ _ Hi).
  destruct (malloc_answer m sizeof_overlay_buffer) eqn:E.
  2: { exfalso. eapply Hmt; [|exact E]. unfold sizeof_overlay_buffer.
       destruct size_bits_ok as [-> | ->]; done. }
  destruct (bytes b) as [p|]; [|lia]. destruct Hl as (l0 & Hm & ? & ?). cbv zeta. simpl.
  rewrite (proj2 (Z.eqb_neq (allocSize b) 0)) by lia. cbn [negb].
  set (bc := if negb (sizeLimit b =? SIZE_MAX) then _ else _).
  assert (∃ c, bc = Ret c ∧ 0 < c) as (c & -> & Hc).
  { unfold bc. case_if; [rewrite (proj2 (Z.leb_le _ _)) by lia|]; eexists; (split; [done|lia]). }
  rewrite bind_ret_l. set (k := if allocSize b <? c then allocSize b else c).
  assert (0 < k ≤ allocSize b) as Hk by (unfold k; case_if; lia).
  rewrite (proj2 (Z.eqb_neq k 0)) by lia. cbn [negb].
  rewrite (load_bytes_Ret m p k l0) by (done || lia). rewrite bind_ret_l.
  unfold ob_append_bytes. rewrite length_take, length_drop. decide_cmp.
  unfold append_raw, ob_makespace. simpl. rewrite (proj2 (Z.eqb_neq (position b) 0)) by lia. done.
Qed.

Lemma ob_dup_aborts_witness :
  let m := {[ 0%nat := [104; 105] ]} in
  @ob_dup arm32 calloc_allocator m (@Buf (Some (Ptr 0 0)) 0 1 2 2 None) = Aborted.
Proof.
  intros m. apply (@ob_dup_aborts arm32 calloc_allocator);
    [apply calloc_total| |simpl; lia|simpl; lia].
  split; simpl; try (vm_compute; intuition congruence); try (right; right; done); try done.
  by exists [104; 105].
Defined.

End OBEdge.
