(* ===== verification/Limit.v ===== *)
(** * Rate limits (limit.c, limit.h)

    A limit allows a burst of events per interval. The clock [gettime_ms] is an
    argument of the operations that read it. *)

From S2P Require Import Prelude.

Module Limit.

(** limit.h: struct limit_state. Times are 64-bit counts of milliseconds. *)
Record limit_state := LimitState {
  rate_micro_seconds : Z;
  burst_length : Z;
  burst_size : Z;
  sent : Z;
  next_interval : Z;
}.

Definition MIN_BURST_LENGTH : Z := 5000.

Definition update_limit_state (s : limit_state) (now : Z) : limit_state :=
  if (now <? next_interval s) || (burst_size s =? 0) then s
  else
    let next :=
      if now <? i64 (next_interval s + burst_length s)
      then i64 (next_interval s + burst_length s)
      else i64 (now + burst_length s) in
    LimitState (rate_micro_seconds s) (burst_length s) (burst_size s) 0 next.

Definition limit_next_allowed (s : limit_state) (now : Z) : limit_state * Z :=
  if burst_size s =? 0 then (s, now)
  else
    let s := update_limit_state s now in
    if sent s <? burst_size s then (s, now) else (s, next_interval s).

(** Returns 0 when the event is allowed, -1 when it is not. *)
Definition limit_is_allowed (s : limit_state) (now : Z) : limit_state * Z :=
  if burst_size s =? 0 then (s, 0)
  else
    let s := update_limit_state s now in
    if burst_size s <=? sent s then (s, -1)
    else (LimitState (rate_micro_seconds s) (burst_length s) (burst_size s)
                     (i32 (sent s + 1)) (next_interval s), 0).

(** [(burst_size * rate) / 1000.0] is computed in double precision and truncated
    to a [time_ms_t]; for a 32-bit dividend that is the integer quotient. *)
Definition limit_init (s : limit_state) (rate : Z) : limit_state :=
  if rate =? 0 then LimitState rate 0 0 (sent s) (next_interval s)
  else
    let size := i32 (u32 (MIN_BURST_LENGTH / rate + 1)) in
    LimitState rate (u32 (size * rate) / 1000) size (sent s) (next_interval s).

(** ** Properties *)

(** A limit in use: a burst and an interval, and a count within the burst. *)
Record limit_ok (s : limit_state) : Prop := {
  ok_size : 0 < burst_size s < 2 ^ 31;
  ok_length : 0 < burst_length s < 2 ^ 32;
  ok_sent : 0 ≤ sent s ≤ burst_size s;
  ok_next : 0 ≤ next_interval s < 2 ^ 62 + 2 ^ 32;
}.

(** Times of this range keep the sums below in 64 bits. *)
Definition time_ok (now : Z) : Prop := 0 ≤ now < 2 ^ 62.

Lemma i64_small x : 0 ≤ x < 2 ^ 63 → i64 x = x.
Proof. intros. apply wraps_small; simpl; lia. Qed.

(** What an update leaves: the interval in force contains [now]. *)
Lemma update_spec s now : limit_ok s → time_ok now →
  let s' := update_limit_state s now in
  limit_ok s' ∧ burst_size s' = burst_size s ∧ burst_length s' = burst_length s ∧
  now < next_interval s' ∧
  (s' = s ∨ sent s' = 0 ∧ next_interval s ≤ now ∧
            next_interval s + burst_length s ≤ next_interval s' ≤ now + burst_length s).
Proof.
  intros [Hsz Hlen Hsent Hnext] Ht s'. unfold s', update_limit_state, time_ok in *.
  rewrite (proj2 (Z.eqb_neq (burst_size s) 0)), orb_false_r by lia.
  destruct (Z.ltb_spec now (next_interval s)).
  { split_and!; [by split|done|done|done|by left]. }
  rewrite !i64_small by lia.
  destruct (Z.ltb_spec now (next_interval s + burst_length s));
    (split_and!; simpl; [split; simpl; lia|done|done|lia|right; lia]).
Qed.

(** [limit_init] gives a limit in use for every non-zero rate: the burst is
    at least one event, the interval is at least five milliseconds, and it is
    the time the burst takes at the given rate, to the millisecond. *)
Theorem limit_init_spec s rate :
  0 < rate < 2 ^ 32 → 
  let s' := limit_init s rate in
  1 ≤ burst_size s' ≤ 5001 ∧ 5 ≤ burst_length s' ∧
  burst_length s' * 1000 ≤ burst_size s' * rate < (burst_length s' + 1) * 1000.
Proof.
  intros Hr s'. unfold s', limit_init, MIN_BURST_LENGTH.
  rewrite (proj2 (Z.eqb_neq rate 0)) by lia. cbn [burst_size burst_length].
  pose proof (Z.div_mod 5000 rate ltac:(lia)). pose proof (Z.mod_pos_bound 5000 rate ltac:(lia)).
  set (q := 5000 / rate) in *. assert (0 ≤ q ≤ 5000) by (unfold q; split; [apply Z.div_pos; lia|nia]).
  rewrite (wrapu_small 32 (q + 1)), wraps_small by (simpl; lia).
  assert (5000 < (q + 1) * rate) by nia.
  assert ((q + 1) * rate < 2 ^ 32) by (destruct (decide (q = 0)) as [-> | ]; nia).
  rewrite wrapu_small by lia. set (x := (q + 1) * rate) in *.
  pose proof (Z.div_mod x 1000 ltac:(lia)). pose proof (Z.mod_pos_bound x 1000 ltac:(lia)).
  split; [lia|]. split; [|lia]. apply Z.div_le_lower_bound; lia.
Qed.

Lemma limit_init_spec_witness :
  let s' := limit_init (LimitState 0 0 0 0 0) 1500 in
  burst_size s' = 4 ∧ burst_length s' = 6 ∧ 1 ≤ burst_size s' ≤ 5001.
Proof.
  split_and!; [reflexivity|reflexivity| |];
  apply (limit_init_spec (LimitState 0 0 0 0 0) 1500); lia.
Defined.

Lemma limit_is_allowed_spec s now : limit_ok s → time_ok now →
  let s1 := update_limit_state s now in
  let r := limit_is_allowed s now in
  if sent s1 <? burst_size s then
    r = (LimitState (rate_micro_seconds s1) (burst_length s1) (burst_size s1) (sent s1 + 1) (next_interval s1), 0)
  else r = (s1, -1).
Proof.
  intros Hok Ht s1 r. destruct (update_spec s now Hok Ht) as ([Hsz _ Hsent _] & Hbs & _).
  change (update_limit_state s now) with s1 in Hsz, Hsent, Hbs.
  unfold r, limit_is_allowed. rewrite (proj2 (Z.eqb_neq (burst_size s) 0)) by lia. fold s1.
  rewrite Hbs in *. destruct (Z.ltb_spec (sent s1) (burst_size s)); decide_cmp; [|done].
  by rewrite wraps_small by (simpl; lia).
Qed.

Lemma limit_is_allowed_ok s now : limit_ok s → time_ok now →
  limit_ok (limit_is_allowed s now).1 ∧
  burst_size (limit_is_allowed s now).1 = burst_size s ∧
  burst_length (limit_is_allowed s now).1 = burst_length s ∧
  now < next_interval (limit_is_allowed s now).1.
Proof.
  intros Hok Ht. pose proof (limit_is_allowed_spec s now Hok Ht) as Hr. cbv zeta in Hr.
  destruct (update_spec s now Hok Ht) as ([] & Hbs & Hbl & Hn & _).
  destruct (Z.ltb_spec (sent (update_limit_state s now)) (burst_size s));
    rewrite Hr; simpl; (split_and!; [split; simpl; lia|done..]).
Qed.

(** When [limit_next_allowed] names a time, that time is not before now, is
    at most one interval away, and an event at that time is allowed. *)
Theorem limit_next_allowed_sound s now :
  limit_ok s → time_ok now → next_interval s ≤ now + burst_length s →
  let '(s', t) := limit_next_allowed s now in
  now ≤ t ≤ now + burst_length s ∧ (time_ok t → (limit_is_allowed s' t).2 = 0).
Proof.
  intros Hok Ht Hfar. unfold limit_next_allowed. pose proof (ok_size _ Hok) as Hsz.
  rewrite (proj2 (Z.eqb_neq (burst_size s) 0)) by lia.
  destruct (update_spec s now Hok Ht) as (Hok' & Hbs & Hbl & Hn & Hor). pose proof (ok_length _ Hok).
  set (s1 := update_limit_state s now) in *.
  assert (next_interval s1 ≤ now + burst_length s) by (destruct Hor as [->|]; lia).
  destruct (Z.ltb_spec (sent s1) (burst_size s1)).
  - split; [lia|]. intros _. pose proof (limit_is_allowed_spec s1 now Hok' Ht) as Hr. cbv zeta in Hr.
    destruct (update_spec s1 now Hok' Ht) as (_ & _ & _ & _ & [E|E]); [|lia].
    rewrite E in Hr. revert Hr. decide_cmp. by intros ->.
  - split; [lia|]. intros Ht'. pose proof (limit_is_allowed_spec s1 _ Hok' Ht') as Hr. cbv zeta in Hr.
    destruct (update_spec s1 (next_interval s1) Hok' Ht') as (_ & _ & _ & Hn' & [E|[E _]]);
      [rewrite E in Hn'; lia|].
    rewrite E in Hr. revert Hr. decide_cmp. by intros ->.
Qed.

Lemma limit_next_allowed_sound_witness :
  let s := LimitState 1500 6 4 4 105 in
  limit_next_allowed s 103 = (s, 105) ∧ (limit_is_allowed s 105).2 = 0.
Proof.
  intros s. split; [reflexivity|].
  assert (limit_ok s) as Hok by (split; simpl; lia).
  refine (proj2 (limit_next_allowed_sound s 103 Hok _ _) _); unfold time_ok; simpl; lia.
Defined.

(** ** The rate over a period *)

(** The number of events allowed when they are attempted at the given times. *)
Fixpoint allowed (s : limit_state) (times : list Z) : Z :=
  match times with
  | [] => 0
  | t :: times =>
      let '(s', r) := limit_is_allowed s t in
      (if r =? 0 then 1 else 0) + allowed s' times
  end.

(** Times that do not go backwards, in the period from [t0] to [t1]. *)
Fixpoint in_order (t0 t1 : Z) (times : list Z) : Prop :=
  match times with
  | [] => True
  | t :: times => t0 ≤ t ≤ t1 ∧ in_order t t1 times
  end.

(** Each new interval ends a burst length later than the last, so the rest of
    the current burst and the intervals that begin before [t1] bound the count. *)
Lemma allowed_bound s times t0 t1 : limit_ok s → in_order t0 t1 times → 0 ≤ t0 → t1 < 2 ^ 62 →
  allowed s times ≤ burst_size s - sent s
    + burst_size s * (Z.max 0 (t1 + burst_length s - next_interval s) / burst_length s).
Proof.
  revert s t0. induction times as [|t times IH]; intros s t0 Hok Hord H0 H1; simpl allowed.
  { destruct Hok as [Hsz Hlen Hsent _]. pose proof (Z.div_pos
      (Z.max 0 (t1 + burst_length s - next_interval s)) (burst_length s) ltac:(lia) ltac:(lia)). nia. }
  destruct Hord as [Ht Hord]. assert (time_ok t) as Htok by (unfold time_ok; lia).
  pose proof (limit_is_allowed_spec s t Hok Htok) as Hr. cbv zeta in Hr.
  destruct (limit_is_allowed_ok s t Hok Htok) as (Hok' & Hbs' & Hbl' & _).
  destruct (update_spec s t Hok Htok) as (Hok1 & Hbs & Hbl & Hn & Hor).
  set (s1 := update_limit_state s t) in *. destruct (limit_is_allowed s t) as [s' r]. simpl in *.
  specialize (IH s' t Hok' Hord ltac:(lia) H1). rewrite Hbs', Hbl' in IH.
  destruct Hok as [Hsz Hlen Hsent _]. destruct Hok1 as [_ _ Hsent1 _].
  assert ((if r =? 0 then 1 else 0) = sent s' - sent s1 ∧ next_interval s' = next_interval s1)
    as [-> Hnext].
  { destruct (sent s1 <? burst_size s); injection Hr as -> ->; simpl; lia. }
  rewrite Hnext in IH.
  destruct Hor as [E | (E & ? & Hstep)]; rewrite E in *; [lia|]. rewrite !Z.max_r in * by lia.
  assert ((t1 + burst_length s - next_interval s1) / burst_length s + 1
    ≤ (t1 + burst_length s - next_interval s) / burst_length s); [|nia].
  rewrite <- Z.div_add by lia. apply Z.div_le_mono; lia.
Qed.

(** The first event after an idle time begins an interval, whatever was counted before. *)
Lemma allowed_update s t times : limit_ok s → time_ok t → allowed s (t :: times) = allowed (update_limit_state s t) (t :: times).
Proof.
  intros Hok Ht. destruct (update_spec s t Hok Ht) as (Hok1 & Hbs & Hbl & Hn & _). set (s1 := update_limit_state s t) in *.
  assert (update_limit_state s1 t = s1) as E by (unfold update_limit_state at 1; by decide_cmp).
  cbn [allowed]. unfold limit_is_allowed. rewrite (proj2 (Z.eqb_neq (burst_size s) 0)), (proj2 (Z.eqb_neq (burst_size s1) 0)) by (destruct Hok, Hok1; lia).
  fold s1. by rewrite E.
Qed.
Lemma burst_bound s times t0 t1 : limit_ok s → t0 < next_interval s → in_order t0 t1 times → 0 ≤ t0 ≤ t1 → t1 < 2 ^ 62 →
  allowed s times ≤ burst_size s * ((t1 - t0 - 1) / burst_length s + 2).
Proof.
  intros Hok Hn Hord H0 H1. pose proof (allowed_bound s times t0 t1 Hok Hord ltac:(lia) H1) as Hb.
  destruct Hok as [Hsz Hlen Hsent _].
  assert (Z.max 0 (t1 + burst_length s - next_interval s) / burst_length s
    ≤ (t1 - t0 - 1) / burst_length s + 1); [|nia].
  rewrite <- Z.div_add by lia. apply Z.div_le_mono; lia.
Qed.
Lemma any_bound s times t0 t1 : limit_ok s → in_order t0 t1 times → 0 ≤ t0 ≤ t1 → t1 < 2 ^ 62 →
  allowed s times ≤ burst_size s * ((t1 - t0 - 1) / burst_length s + 2).
Proof.
  intros Hok Hord H0 H1. destruct times as [|t times]; cbn [allowed in_order] in *.
  { assert (-1 ≤ (t1 - t0 - 1) / burst_length s) by (destruct Hok; apply Z.div_le_lower_bound; lia). destruct Hok; nia. }
  destruct Hord as [Ht Hord]. assert (time_ok t) as Htok by (unfold time_ok; lia). change (allowed s (t :: times) ≤ burst_size s * ((t1 - t0 - 1) / burst_length s + 2)). rewrite allowed_update by done.
  destruct (update_spec s t Hok Htok) as (Hok1 & Hbs & Hbl & Hn & _). set (s1 := update_limit_state s t) in *.
  pose proof (burst_bound s1 (t :: times) t t1 Hok1 Hn ltac:(cbn; split; [lia|done]) ltac:(lia) H1) as Hb. rewrite Hbs, Hbl in Hb.
  assert ((t1 - t - 1) / burst_length s ≤ (t1 - t0 - 1) / burst_length s) by (destruct Hok; apply Z.div_le_mono; lia). destruct Hok; nia.
Qed.

(** *** Bursts that are as many as can be *)

Definition counting (s : limit_state) (n next : Z) : limit_state := LimitState (rate_micro_seconds s) (burst_length s) (burst_size s) n next.
Lemma counting_ok s n next : limit_ok s → 0 ≤ n ≤ burst_size s → 0 ≤ next < 2 ^ 62 + 2 ^ 32 → limit_ok (counting s n next).
Proof. intros [] ? ?. by split. Qed.
Lemma allowed_within s n next t times : limit_ok s → 0 ≤ n < burst_size s → t < next < 2 ^ 62 + 2 ^ 32 → time_ok t →
  allowed (counting s n next) (t :: times) = 1 + allowed (counting s (n + 1) next) times.
Proof.
  intros Hok Hn Hnext Ht. assert (limit_ok (counting s n next)) as Hok' by (apply counting_ok; [done|lia|unfold time_ok in Ht; lia]). pose proof (limit_is_allowed_spec _ t Hok' Ht) as Hr. cbv zeta in Hr.
  assert (update_limit_state (counting s n next) t = counting s n next) as E by (unfold update_limit_state; cbn; by decide_cmp). rewrite E in Hr. cbn [counting sent burst_size rate_micro_seconds burst_length next_interval] in Hr. rewrite (proj2 (Z.ltb_lt n (burst_size s))) in Hr by lia.
  cbn [allowed]. by rewrite Hr.
Qed.
Lemma allowed_burst s k next t times : ∀ n, limit_ok s → 0 ≤ n → n + Z.of_nat k = burst_size s → t < next < 2 ^ 62 + 2 ^ 32 → time_ok t →
  allowed (counting s n next) (replicate k t ++ times) = Z.of_nat k + allowed (counting s (burst_size s) next) times.
Proof.
  induction k as [|k IH]; intros n Hok Hn Hk Hnext Ht; cbn [replicate app]; [by replace n with (burst_size s) by lia|].
  rewrite allowed_within by (done || lia). rewrite IH by (done || lia). lia.
Qed.
(** A burst at the end of an interval, and one at the end of each that follows. *)
Fixpoint bursts (b t len : Z) (k : nat) : list Z := match k with O => [] | S k => replicate (Z.to_nat b) t ++ bursts b (t + len) len k end.
Lemma bursts_allowed s k : ∀ t n, limit_ok s → 0 ≤ n ≤ burst_size s → 0 ≤ t → t + Z.of_nat k * burst_length s < 2 ^ 62 + 2 ^ 32 → (k = O ∨ t + (Z.of_nat k - 1) * burst_length s < 2 ^ 62) →
  allowed (counting s n t) (bursts (burst_size s) t (burst_length s) k) = Z.of_nat k * burst_size s.
Proof.
  induction k as [|k IH]; intros t n Hok Hn Ht Hfar Hlast; [done|]. cbn [bursts]. pose proof Hok as [Hsz Hlen _ _]. destruct Hlast as [?|Hlast]; [done|]. assert (time_ok t) as Htok by (unfold time_ok; nia).
  assert (limit_ok (counting s n t)) as Hok' by (apply counting_ok; [done|lia|unfold time_ok in Htok; lia]).
  destruct (Z.to_nat (burst_size s)) as [|m] eqn:Em; [lia|]. cbn [replicate app]. rewrite allowed_update by done.
  assert (update_limit_state (counting s n t) t = counting s 0 (t + burst_length s)) as ->. { unfold update_limit_state, counting. cbn [next_interval burst_size burst_length rate_micro_seconds]. rewrite Z.ltb_irrefl, (proj2 (Z.eqb_neq (burst_size s) 0)) by lia. cbn [orb]. rewrite i64_small by (unfold time_ok in Htok; lia). by rewrite (proj2 (Z.ltb_lt t (t + burst_length s))) by lia. }
  change (t :: replicate m t ++ ?l) with (replicate (S m) t ++ l). rewrite allowed_burst by (done || nia). rewrite IH by (done || nia). nia.
Qed.
Lemma in_order_replicate n t0 t t1 l : t0 ≤ t ≤ t1 → in_order t t1 l → in_order t0 t1 (replicate n t ++ l).
Proof. revert t0. induction n as [|n IH]; intros t0 Ht Hl; cbn. { destruct l as [|x l]; [done|]. cbn in *. split; [lia|apply Hl]. } split; [done|]. apply IH; [lia|done]. Qed.
Lemma in_order_bursts b len t1 k : ∀ t0 t, 0 < len → t0 ≤ t → (k = O ∨ t + (Z.of_nat k - 1) * len ≤ t1) → in_order t0 t1 (bursts b t len k).
Proof. induction k as [|k IH]; intros t0 t Hlen Ht Hk; cbn; [done|]. destruct Hk as [?|Hk]; [done|]. apply in_order_replicate; [nia|]. apply IH; [done|lia|]. destruct k; [by left|right; nia]. Qed.

(** C32: In a period from [t0] to [t1], a limit in use, whatever it has counted before and however the events are attempted, allows at most a burst for each interval that begins in the period, and one more; and that many are allowed in some case, for every limit and period. *)
Theorem limit_rate s times t0 t1 : limit_ok s → in_order t0 t1 times → 0 ≤ t0 ≤ t1 → t1 < 2 ^ 62 →
  let most := burst_size s * ((t1 - t0 - 1) / burst_length s + 2) in
  allowed s times ≤ most ∧ ∃ n next times', limit_ok (counting s n next) ∧ in_order t0 t1 times' ∧ allowed (counting s n next) times' = most.
Proof.
  intros Hok Hord H0 H1 most. split; [by apply (any_bound s times)|]. pose proof Hok as [Hsz Hlen _ _]. set (k := (t1 - t0 - 1) / burst_length s + 1).
  pose proof (Z.div_mod (t1 - t0 - 1) (burst_length s) ltac:(lia)) as Hdiv. pose proof (Z.mod_pos_bound (t1 - t0 - 1) (burst_length s) ltac:(lia)) as Hmod.
  assert (0 ≤ k) as Hk by (unfold k; assert (-1 ≤ (t1 - t0 - 1) / burst_length s) by (apply Z.div_le_lower_bound; lia); lia).
  exists 0, (t0 + 1), (replicate (Z.to_nat (burst_size s)) t0 ++ bursts (burst_size s) (t0 + 1) (burst_length s) (Z.to_nat k)). split; [apply counting_ok; [done|lia|lia]|].
  assert (Z.to_nat k = O ∨ t0 + 1 + (Z.of_nat (Z.to_nat k) - 1) * burst_length s ≤ t1) as Hend. { rewrite Z2Nat.id by done. destruct (decide (k = 0)) as [->|Hne]; [by left|right]. unfold k. nia. }
  split.
  - apply in_order_replicate; [lia|]. apply in_order_bursts; [lia|lia|done].
  - rewrite allowed_burst by (done || (unfold time_ok; lia)). rewrite bursts_allowed; [|done|lia|lia| |].
    + rewrite !Z2Nat.id by lia. unfold most, k. lia.
    + destruct Hend as [->|Hend]; [lia|]. nia.
    + destruct Hend as [?|Hend]; [by left|right; lia].
Qed.

Lemma limit_rate_witness : let s := LimitState 1500 6 4 0 0 in
  allowed s [100; 101; 102; 103; 104; 110; 110] = 6 ∧ allowed s [100; 101; 102; 103; 104; 110; 110] ≤ 4 * ((110 - 100 - 1) / 6 + 2) ∧
  ∃ n next times', limit_ok (counting s n next) ∧ in_order 100 110 times' ∧ allowed (counting s n next) times' = 12.
Proof.
  intros s. split; [reflexivity|]. apply (limit_rate s [100; 101; 102; 103; 104; 110; 110] 100 110); [split; simpl; lia|simpl; lia..].
Defined.

End Limit.
