(* ===== verification/RotBuf.v ===== *)
(** * Rotated buffers (rotbuf.h, rotbuf.c)

    A buffer whose first byte is at an offset and whose content wraps around,
    with one cursor. The four pointers of a [rotbuf] point into one object, so
    they are offsets in that object; sums of addresses are not wrapped. *)

From S2P Require Import Prelude Mem.

Module RotBuf.

(** rotbuf.h: struct rotbuf; [wrap] is an [unsigned int]. *)
Record rotbuf := Rot {
  obj : nat;
  buf : Z;
  ebuf : Z;
  start : Z;
  cursor : Z;
  wrap : Z;
}.

Definition set_cursor (rb : rotbuf) (c w : Z) : rotbuf :=
  Rot (obj rb) (buf rb) (ebuf rb) (start rb) c w.

(** [%] by a zero size is undefined. *)
Definition rotbuf_init (p : ptr) (size rot : Z) : outcome rotbuf :=
  defined! negb (size =? 0);
  let start := off p + (if rot <? 0 then size - 1 - (-1 - rot) mod size else rot mod size) in
  Ret (Rot (blk p) (off p) (off p + size) start start 0).

Definition rotbuf_reset (rb : rotbuf) : rotbuf := set_cursor rb (start rb) 0.

Definition rotbuf_position (rb : rotbuf) : Z :=
  if negb (wrap rb =? 0) then ebuf rb - buf rb
  else if start rb <=? cursor rb then cursor rb - start rb
  else (cursor rb - buf rb) + (ebuf rb - start rb).

Definition rotbuf_remain (rb : rotbuf) : Z :=
  if negb (wrap rb =? 0) then 0
  else if cursor rb <? start rb then start rb - cursor rb
  else (ebuf rb - cursor rb) + (start rb - buf rb).

Definition rotbuf_count `{Arch} (rb : rotbuf) : Z :=
  if negb (wrap rb =? 0) then wrapu size_bits ((ebuf rb - buf rb) + wrap rb - 1)
  else rotbuf_position rb.

Definition rotbuf_advance (rb : rotbuf) (len : Z) : rotbuf :=
  if negb (wrap rb =? 0) then set_cursor rb (cursor rb) (u32 (wrap rb + len))
  else if negb (len =? 0) then
    if start rb <=? cursor rb then
      let c := cursor rb + len in
      if ebuf rb <=? c then
        let c := c - (ebuf rb - buf rb) in
        if start rb <=? c then set_cursor rb (start rb) (u32 (1 + (c - start rb)))
        else set_cursor rb c (wrap rb)
      else set_cursor rb c (wrap rb)
    else
      let c := cursor rb + len in
      if start rb <=? c then set_cursor rb (start rb) (u32 (1 + (c - start rb)))
      else set_cursor rb c (wrap rb)
  else rb.

(** [if (cursor == ebuf) cursor = buf; if (cursor == start) wrap = 1] after
    [cursor++]. *)
Definition step_cursor (rb : rotbuf) : rotbuf :=
  let c := cursor rb + 1 in
  let c := if c =? ebuf rb then buf rb else c in
  set_cursor rb c (if c =? start rb then 1 else wrap rb).

(** EOF is -1. *)
Definition EOF : Z := -1.

Definition rotbuf_getc (m : mem) (rb : rotbuf) : outcome (rotbuf * Z) :=
  if negb (wrap rb =? 0) then Ret (set_cursor rb (cursor rb) (u32 (wrap rb + 1)), EOF)
  else
    c ← load m (Ptr (obj rb) (cursor rb));
    Ret (step_cursor rb, c).

(** The destination is an array of its own: its bytes are the result. *)
Fixpoint rotbuf_getbuf (m : mem) (rb : rotbuf) (len : nat) : outcome (rotbuf * list Z) :=
  match len with
  | O => Ret (rb, [])
  | S len =>
      r ← rotbuf_getc m rb;
      rs ← rotbuf_getbuf m r.1 len;
      Ret (rs.1, u8 r.2 :: rs.2)
  end.

Definition rotbuf_putc (m : mem) (rb : rotbuf) (c : Z) : outcome (mem * rotbuf) :=
  if negb (wrap rb =? 0) then Ret (m, set_cursor rb (cursor rb) (u32 (wrap rb + 1)))
  else
    m ← store_bytes m (Ptr (obj rb) (cursor rb)) [c];
    Ret (m, step_cursor rb).

(** The source bytes are those of an array of its own. *)
Fixpoint rotbuf_putbuf (m : mem) (rb : rotbuf) (bs : list Z) : outcome (mem * rotbuf) :=
  match bs with
  | [] => Ret (m, rb)
  | c :: bs => r ← rotbuf_putc m rb c; rotbuf_putbuf r.1 r.2 bs
  end.

Definition rotbuf_delta (origin dest : rotbuf) : outcome Z :=
  assert! bool_decide (obj origin = obj dest) && (buf origin =? buf dest);
  assert! ebuf origin =? ebuf dest;
  assert! start origin =? start dest;
  let org := cursor origin in
  let dst := cursor dest in
  let org := if org <? start origin then org + (ebuf origin - buf origin) else org in
  assert! start origin <=? org;
  let dst := if dst <? start dest then dst + (ebuf dest - buf dest) else dst in
  assert! start dest <=? dst;
  Ret (dst - org).

(** The chunk, as the offset of its first byte and its length; [None] is the
    return value 0. *)
Definition rotbuf_next_chunk (rb : rotbuf) : rotbuf * option (Z * Z) :=
  if negb (wrap rb =? 0) then (rb, None)
  else if start rb <=? cursor rb then
    let rb' := set_cursor rb (buf rb) (if buf rb =? start rb then u32 (wrap rb + 1) else wrap rb) in
    (rb', Some (cursor rb, ebuf rb - cursor rb))
  else (set_cursor rb (start rb) (u32 (wrap rb + 1)), Some (cursor rb, start rb - cursor rb)).

(** ** Well-formedness and content *)

Definition size (rb : rotbuf) : Z := ebuf rb - buf rb.

Record rb_inv (m : mem) (rb : rotbuf) : Prop := {
  inv_obj : ∃ l, m !! obj rb = Some l ∧ 0 ≤ buf rb ∧ ebuf rb ≤ Z.of_nat (length l);
  inv_start : buf rb ≤ start rb < ebuf rb;
  inv_cursor : buf rb ≤ cursor rb < ebuf rb;
  inv_wrap : 0 ≤ wrap rb < 2 ^ 32;
  inv_full : wrap rb ≠ 0 → cursor rb = start rb;
}.

(** The offset of the [k]-th byte of the content. *)
Definition addr (rb : rotbuf) (k : Z) : Z := buf rb + (start rb - buf rb + k) mod size rb.

(** The content in order, from the start around to the byte before it. *)
Definition content (m : mem) (rb : rotbuf) : list Z :=
  (λ k, default 0 (default [] (m !! obj rb) !! Z.to_nat (addr rb (Z.of_nat k))))
    <$> seq 0 (Z.to_nat (size rb)).

Lemma content_length m rb : length (content m rb) = Z.to_nat (size rb).
Proof. unfold content. by rewrite length_fmap, length_seq. Qed.

Lemma mod_once x n : 0 < n → 0 ≤ x < 2 * n → x mod n = if x <? n then x else x - n.
Proof.
  intros Hn Hx. destruct (Z.ltb_spec x n); [apply Z.mod_small; lia|].
  replace x with (x - n + 1 * n) at 1 by lia. rewrite Z.mod_add by lia. apply Z.mod_small. lia.
Qed.

Lemma addr_spec m rb k : rb_inv m rb → 0 ≤ k < size rb →
  addr rb k = if start rb + k <? ebuf rb then start rb + k else start rb + k - size rb.
Proof.
  intros [_ Hs _ _ _] Hk. unfold addr, size in *. rewrite mod_once by lia.
  destruct (Z.ltb_spec (start rb + k) (ebuf rb)); case_if; lia.
Qed.

(** The cursor is on the byte of its position. *)
Lemma addr_position m rb : rb_inv m rb → wrap rb = 0 →
  0 ≤ rotbuf_position rb < size rb ∧ addr rb (rotbuf_position rb) = cursor rb.
Proof.
  intros Hi Hw. assert (0 ≤ rotbuf_position rb < size rb) as Hp.
  { destruct Hi as [_ Hs Hc _ _]. unfold rotbuf_position, size. rewrite Hw. simpl. case_if; lia. }
  split; [done|]. rewrite (addr_spec m) by done. destruct Hi as [_ Hs Hc _ _].
  unfold rotbuf_position, size in *. rewrite Hw. simpl.
  destruct (Z.leb_spec (start rb) (cursor rb)); case_if; lia.
Qed.

Lemma content_lookup m rb k l : rb_inv m rb → m !! obj rb = Some l → 0 ≤ k < size rb →
  content m rb !! Z.to_nat k = l !! Z.to_nat (addr rb k).
Proof.
  intros Hi Hl Hk. unfold content. rewrite list_lookup_fmap, lookup_seq_lt by lia. simpl.
  rewrite Hl, Z2Nat.id by lia. simpl.
  assert (Z.to_nat (addr rb k) < length l)%nat as Hlt.
  { rewrite (addr_spec m) by done. destruct Hi as [(l' & ? & ? & ?) Hs _ _ _].
    assert (l' = l) as -> by congruence. unfold size in *. case_if; lia. }
  destruct (lookup_lt_is_Some_2 l _ Hlt) as [c ->]. done.
Qed.

(** The total advance count of the rotbuf.h comment. *)
Definition total (rb : rotbuf) : Z :=
  if wrap rb =? 0 then rotbuf_position rb else size rb + wrap rb - 1.

Lemma total_nonneg m rb : rb_inv m rb → 0 ≤ total rb ∧ (total rb < size rb ↔ wrap rb = 0).
Proof.
  intros Hi. unfold total. pose proof (inv_wrap _ _ Hi). pose proof (inv_start _ _ Hi).
  destruct (Z.eqb_spec (wrap rb) 0) as [E|E].
  - pose proof (proj1 (addr_position m rb Hi E)). lia.
  - unfold size. lia.
Qed.

Lemma rotbuf_count_total `{Arch} m rb : rb_inv m rb → total rb < 2 ^ 32 → rotbuf_count rb = total rb.
Proof.
  intros Hi Ht. destruct (total_nonneg m rb Hi) as [Hn _]. unfold rotbuf_count, total, size in *.
  destruct (Z.eqb_spec (wrap rb) 0); simpl; [done|]. apply wrapu_small.
  assert (2 ^ 32 ≤ 2 ^ size_bits) by (destruct size_bits_ok as [-> | ->]; lia). lia.
Qed.

Lemma set_cursor_inv m rb c w : rb_inv m rb → buf rb ≤ c < ebuf rb → 0 ≤ w < 2 ^ 32 →
  (w ≠ 0 → c = start rb) → rb_inv m (set_cursor rb c w).
Proof. intros [] ???. by split. Qed.

Lemma step_cursor_spec m rb : rb_inv m rb → wrap rb = 0 →
  rb_inv m (step_cursor rb) ∧ total (step_cursor rb) = total rb + 1.
Proof.
  intros Hi Hw. destruct (addr_position m rb Hi Hw) as [Hp _]. pose proof Hi as [_ Hs Hc _ _].
  unfold step_cursor. rewrite Hw. split.
  - apply set_cursor_inv; [done|repeat case_if; lia|case_if; lia|]. case_if; [done|lia].
  - unfold total, rotbuf_position, size in *. simpl. rewrite Hw. simpl.
    repeat (case_if; simpl in *; try lia).
Qed.

Lemma rotbuf_advance_spec m rb len : rb_inv m rb → 0 ≤ len → total rb + len < 2 ^ 32 →
  rb_inv m (rotbuf_advance rb len) ∧ total (rotbuf_advance rb len) = total rb + len.
Proof.
  intros Hi Hlen Hmax. destruct (total_nonneg m rb Hi) as [Hn Hsz]. pose proof Hi as [_ Hs Hc Hw Hf].
  unfold rotbuf_advance. unfold total, rotbuf_position, size in Hmax, Hn.
  destruct (Z.eqb_spec (wrap rb) 0) as [E|E]; simpl.
  - destruct (Z.eqb_spec len 0) as [->|]; simpl; [split; [done|lia]|].
    destruct (Z.leb_spec (start rb) (cursor rb)); repeat case_if;
      rewrite ?wrapu_small by lia;
      (split; [apply set_cursor_inv; done || lia|]);
      unfold total, rotbuf_position, size; simpl; rewrite ?E; simpl; repeat (decide_cmp; simpl); lia.
  - rewrite wrapu_small by lia. split; [apply set_cursor_inv; auto; lia|].
    unfold total, size; simpl. repeat decide_cmp. lia.
Qed.

Lemma addr_inj m rb j k : rb_inv m rb → 0 ≤ j < size rb → 0 ≤ k < size rb →
  addr rb j = addr rb k → j = k.
Proof.
  intros Hi Hj Hk. rewrite !(addr_spec m) by done. unfold size in *.
  pose proof (inv_start _ _ Hi). repeat case_if; lia.
Qed.

(** Storing at the cursor replaces the byte of its position. *)
Lemma store_content m rb c : rb_inv m rb → wrap rb = 0 →
  ∃ m', store_bytes m (Ptr (obj rb) (cursor rb)) [c] = Ret m' ∧ rb_inv m' rb ∧
        content m' rb = <[Z.to_nat (total rb) := c]> (content m rb).
Proof.
  intros Hi Hw. destruct (addr_position m rb Hi Hw) as [Hp Ha].
  pose proof Hi as [(l & Hl & Hb & He) Hs Hc Hwr Hf].
  rewrite (store_bytes_Ret _ _ _ l) by (simpl; done || lia). simpl.
  assert (take (Z.to_nat (cursor rb)) l ++ c :: drop (Z.to_nat (cursor rb) + 1) l
    = <[Z.to_nat (cursor rb) := c]> l) as ->.
  { rewrite insert_take_drop by lia. do 3 f_equal. lia. }
  eexists. split; [done|].
  assert (rb_inv (<[obj rb := <[Z.to_nat (cursor rb) := c]> l]> m) rb) as Hi'.
  { split; try done. eexists. rewrite lookup_insert_eq, length_insert. by split_and!. }
  split; [done|]. unfold total. rewrite Hw. simpl. apply list_eq. intros i.
  destruct (decide (i < Z.to_nat (size rb))%nat) as [Hlt|Hge].
  2: { rewrite !lookup_ge_None_2; [done|rewrite length_insert, content_length; lia|].
       rewrite content_length. lia. }
  rewrite <- (Nat2Z.id i).
  rewrite (content_lookup _ rb _ (<[Z.to_nat (cursor rb) := c]> l)); [|done|by rewrite lookup_insert_eq|lia].
  assert (0 ≤ addr rb (Z.of_nat i) < Z.of_nat (length l)) as Har.
  { rewrite (addr_spec m) by (done || lia). unfold size in *. case_if; lia. }
  destruct (decide (Z.of_nat i = rotbuf_position rb)) as [->|Hne].
  - rewrite Ha, !list_lookup_insert_eq; [done|rewrite content_length; lia|lia].
  - rewrite !list_lookup_insert_ne.
    + symmetry. apply content_lookup; [done|done|lia].
    + lia.
    + intros E. apply Hne. apply (addr_inj m rb); [done|lia|done|lia].
Qed.

Lemma rotbuf_putc_spec m rb c : rb_inv m rb → total rb + 1 < 2 ^ 32 →
  ∃ m' rb', rotbuf_putc m rb c = Ret (m', rb') ∧ rb_inv m' rb' ∧ total rb' = total rb + 1 ∧
    content m' rb' = <[Z.to_nat (total rb) := c]> (content m rb).
Proof.
  intros Hi Hmax. unfold rotbuf_putc. destruct (total_nonneg m rb Hi) as [Hn Hsz].
  destruct (Z.eqb_spec (wrap rb) 0) as [E|E]; simpl.
  - destruct (store_content m rb c Hi E) as (m' & -> & Hi' & Hc). rewrite bind_ret_l.
    destruct (step_cursor_spec m' rb Hi' E). by eexists _, _.
  - pose proof (rotbuf_advance_spec m rb 1 Hi ltac:(lia) Hmax) as Ha.
    unfold rotbuf_advance in Ha. revert Ha. decide_cmp. simpl. intros [? ?].
    eexists _, _. split_and!; [done..|]. rewrite list_insert_ge; [done|].
    rewrite content_length. lia.
Qed.

Lemma rotbuf_getc_spec m rb : rb_inv m rb → total rb + 1 < 2 ^ 32 →
  ∃ rb', rotbuf_getc m rb = Ret (rb', default EOF (content m rb !! Z.to_nat (total rb))) ∧
    rb_inv m rb' ∧ total rb' = total rb + 1 ∧ content m rb' = content m rb.
Proof.
  intros Hi Hmax. unfold rotbuf_getc. destruct (total_nonneg m rb Hi) as [Hn Hsz].
  destruct (Z.eqb_spec (wrap rb) 0) as [E|E]; simpl.
  - destruct (addr_position m rb Hi E) as [Hp Ha]. pose proof Hi as [(l & Hl & Hb & He) _ Hc _ _].
    destruct (lookup_lt_is_Some_2 l (Z.to_nat (cursor rb))) as [c Hlc]; [lia|].
    rewrite (load_Ret _ _ l c) by (simpl; done || lia). rewrite bind_ret_l.
    unfold total at 1. rewrite E. simpl. rewrite (content_lookup _ _ _ l), Ha, Hlc by done.
    destruct (step_cursor_spec m rb Hi E). by eexists.
  - pose proof (rotbuf_advance_spec m rb 1 Hi ltac:(lia) Hmax) as Ha.
    unfold rotbuf_advance in Ha. revert Ha. decide_cmp. simpl. intros [? ?].
    rewrite lookup_ge_None_2; [|rewrite content_length; lia]. by eexists.
Qed.

(** ** Refinement of a plain buffer with a count

    A rotated buffer behaves as its content in order and the number of bytes
    read, written or skipped: beyond the end nothing is stored and reads give
    EOF. *)

Inductive op := Put (c : Z) | Get | Advance (len : Z) | Reset.

Definition step (m : mem) (rb : rotbuf) (o : op) : outcome (mem * rotbuf * option Z) :=
  match o with
  | Put c => r ← rotbuf_putc m rb c; Ret (r.1, r.2, None)
  | Get => r ← rotbuf_getc m rb; Ret (m, r.1, Some r.2)
  | Advance len => Ret (m, rotbuf_advance rb len, None)
  | Reset => Ret (m, rotbuf_reset rb, None)
  end.

Fixpoint run (m : mem) (rb : rotbuf) (os : list op) : outcome (mem * rotbuf * list (option Z)) :=
  match os with
  | [] => Ret (m, rb, [])
  | o :: os =>
      r ← step m rb o;
      rs ← run r.1.1 r.1.2 os;
      Ret (rs.1, r.2 :: rs.2)
  end.

Definition plain_step (l : list Z) (k : Z) (o : op) : list Z * Z * option Z :=
  match o with
  | Put c => (<[Z.to_nat k := c]> l, k + 1, None)
  | Get => (l, k + 1, Some (default EOF (l !! Z.to_nat k)))
  | Advance len => (l, k + len, None)
  | Reset => (l, 0, None)
  end.

Fixpoint plain_run (l : list Z) (k : Z) (os : list op) : list Z * Z * list (option Z) :=
  match os with
  | [] => (l, k, [])
  | o :: os =>
      let r := plain_step l k o in
      let rs := plain_run r.1.1 r.1.2 os in
      (rs.1, r.2 :: rs.2)
  end.

(** The furthest the count can get. *)
Definition advance_of (o : op) : Z :=
  match o with Put _ | Get => 1 | Advance len => len | Reset => 0 end.
Fixpoint advances (os : list op) : Z :=
  match os with [] => 0 | o :: os => advance_of o + advances os end.
Definition op_ok (o : op) : Prop := 0 ≤ advance_of o.

Definition represents (m : mem) (rb : rotbuf) (l : list Z) (k : Z) : Prop :=
  rb_inv m rb ∧ content m rb = l ∧ total rb = k.

Lemma step_refines m rb l k o : represents m rb l k → op_ok o → k + advance_of o < 2 ^ 32 →
  let r := plain_step l k o in
  ∃ m' rb', step m rb o = Ret (m', rb', r.2) ∧ represents m' rb' r.1.1 r.1.2 ∧ 0 ≤ r.1.2 ≤ k + advance_of o.
Proof.
  intros (Hi & Hc & Ht) Hok Hmax r. destruct (total_nonneg m rb Hi) as [Hn _].
  unfold op_ok, represents in *. subst l k r. destruct o; simpl in *.
  - destruct (rotbuf_putc_spec m rb c Hi Hmax) as (m' & rb' & -> & ? & ? & ?).
    eexists _, _. split_and!; done || lia.
  - destruct (rotbuf_getc_spec m rb Hi Hmax) as (rb' & -> & ? & ? & ?).
    eexists _, _. split_and!; done || lia.
  - destruct (rotbuf_advance_spec m rb len Hi Hok Hmax) as (? & ?).
    eexists _, _. split_and!; try done; try lia.
    unfold rotbuf_advance. repeat case_if; done.
  - eexists _, _. split_and!; try done; try lia.
    + destruct Hi. by split; simpl.
    + unfold total, rotbuf_reset, rotbuf_position. simpl. decide_cmp. lia.
Qed.

(** C18: any sequence of puts, gets, advances and resets on a rotated buffer
    returns (no access leaves its object), and gives the results and the final
    content and count of the same sequence on a plain buffer that holds the
    content in order, as long as the count stays below 2^32. *)
Theorem rotbuf_refines_plain `{Arch} m rb l k os :
  represents m rb l k → Forall op_ok os → k + advances os < 2 ^ 32 →
  ∃ m' rb', run m rb os = Ret (m', rb', (plain_run l k os).2) ∧
    represents m' rb' (plain_run l k os).1.1 (plain_run l k os).1.2 ∧
    rotbuf_count rb' = (plain_run l k os).1.2.
Proof.
  intros Hrep Hok. revert m rb l k Hrep. induction Hok as [|o os Ho Hos IH]; intros m rb l k Hrep Hmax.
  - exists m, rb. simpl in *. split_and!; [done..|]. destruct Hrep as (Hi & _ & <-).
    apply (rotbuf_count_total m); [done|lia].
  - assert (0 ≤ advances os) by (clear -Hos; induction Hos; unfold op_ok in *; simpl; lia).
    cbn [run plain_run advances] in *.
    destruct (step_refines m rb l k o Hrep Ho) as (m1 & rb1 & -> & Hrep1 & Hk); [lia|].
    rewrite bind_ret_l. cbn [fst snd].
    destruct (IH m1 rb1 _ _ Hrep1) as (m2 & rb2 & -> & Hrep2 & Hc); [lia|].
    rewrite bind_ret_l. by exists m2, rb2.
Qed.

Lemma rotbuf_refines_plain_witness :
  let m := {[ 0%nat := [1; 2; 3] ]} in
  let os := [Advance 1; Put 9; Get; Get; Reset; Get] in
  ∃ rb m' rb', rotbuf_init (Ptr 0 0) 3 (-1) = Ret rb ∧
    run m rb os = Ret (m', rb', [None; None; Some 2; Some EOF; None; Some 3]) ∧
    content m' rb' = [3; 9; 2].
Proof.
  intros m os. exists (Rot 0 0 3 2 2 0).
  assert (represents m (Rot 0 0 3 2 2 0) [3; 1; 2] 0) as Hrep.
  { split; [|split; reflexivity]. split; simpl; try lia. by exists [1; 2; 3]. }
  destruct (@rotbuf_refines_plain arm32 m _ _ _ os Hrep) as (m' & rb' & Hrun & (_ & Hc & _) & _);
    [repeat constructor; unfold op_ok; simpl; lia|simpl; lia|].
  exists m', rb'. split; [reflexivity|]. split; [exact Hrun|]. by rewrite Hc.
Defined.

(** ** Initialisation, and writing then reading *)

Lemma rotbuf_init_spec m p n rot l : m !! blk p = Some l → 0 ≤ off p → 0 < n →
  off p + n ≤ Z.of_nat (length l) →
  ∃ rb, rotbuf_init p n rot = Ret rb ∧ rb_inv m rb ∧ total rb = 0 ∧ size rb = n ∧
        start rb = off p + rot mod n.
Proof.
  intros Hl Ho Hn Hle. unfold rotbuf_init. decide_cmp. simpl.
  assert ((if rot <? 0 then n - 1 - (-1 - rot) mod n else rot mod n) = rot mod n) as ->.
  { case_if; [|done].
    pose proof (Z.div_mod (-1 - rot) n ltac:(lia)). pose proof (Z.mod_pos_bound (-1 - rot) n Hn).
    apply (Z.mod_unique_pos _ _ (-1 - (-1 - rot) / n)); lia. }
  pose proof (Z.mod_pos_bound rot n Hn).
  eexists. split; [done|]. split_and!; simpl; try done.
  - split; simpl; try lia. by exists l.
  - unfold total, rotbuf_position; simpl. decide_cmp. lia.
  - unfold size. simpl. lia.
Qed.

Lemma rotbuf_putbuf_spec m rb bs : rb_inv m rb → total rb + Z.of_nat (length bs) < 2 ^ 32 →
  ∃ m' rb', rotbuf_putbuf m rb bs = Ret (m', rb') ∧ rb_inv m' rb' ∧
    total rb' = total rb + Z.of_nat (length bs) ∧
    content m' rb' = list_inserts (Z.to_nat (total rb)) bs (content m rb).
Proof.
  revert m rb. induction bs as [|c bs IH]; intros m rb Hi Hmax; cbn [rotbuf_putbuf length] in *.
  { exists m, rb. split_and!; try done. simpl. lia. }
  destruct (rotbuf_putc_spec m rb c Hi) as (m1 & rb1 & -> & Hi1 & Ht1 & Hc1); [lia|].
  rewrite bind_ret_l. simpl. destruct (total_nonneg m rb Hi) as [Hn _].
  destruct (IH m1 rb1 Hi1) as (m2 & rb2 & -> & Hi2 & Ht2 & Hc2); [lia|].
  exists m2, rb2. split_and!; [done|done|lia|].
  rewrite Hc2, Hc1, Ht1, Z2Nat.inj_add by lia. change (Z.to_nat 1) with 1%nat.
  rewrite Nat.add_1_r, list_insert_inserts_lt by lia. done.
Qed.

Lemma rotbuf_getbuf_spec m rb n : rb_inv m rb → total rb + Z.of_nat n < 2 ^ 32 →
  ∃ rb', rotbuf_getbuf m rb n
    = Ret (rb', (λ i, u8 (default EOF (content m rb !! (Z.to_nat (total rb) + i)%nat))) <$> seq 0 n) ∧
    rb_inv m rb' ∧ total rb' = total rb + Z.of_nat n ∧ content m rb' = content m rb.
Proof.
  revert rb. induction n as [|n IH]; intros rb Hi Hmax; cbn [rotbuf_getbuf].
  { exists rb. split_and!; try done. lia. }
  destruct (rotbuf_getc_spec m rb Hi) as (rb1 & -> & Hi1 & Ht1 & Hc1); [lia|].
  rewrite bind_ret_l. simpl. destruct (total_nonneg m rb Hi) as [Hn _].
  destruct (IH rb1 Hi1) as (rb2 & -> & Hi2 & Ht2 & Hc2); [lia|]. rewrite bind_ret_l. simpl.
  exists rb2. split_and!; [|done|lia|congruence]. do 2 f_equal. f_equal.
  - by rewrite Nat.add_0_r.
  - rewrite <- seq_shift, <- list_fmap_compose. apply list_fmap_ext. intros i j _. simpl.
    rewrite Hc1, Ht1. do 3 f_equal. lia.
Qed.

Lemma get_written l bs : Forall is_byte bs → (length bs ≤ length l)%nat →
  (λ i, u8 (default EOF (list_inserts 0 bs l !! i))) <$> seq 0 (length bs) = bs.
Proof.
  intros Hb Hle. apply list_eq. intros i.
  destruct (decide (i < length bs)%nat) as [Hlt|Hge].
  - rewrite list_lookup_fmap, lookup_seq_lt by done. simpl.
    rewrite list_lookup_inserts by lia. rewrite Nat.sub_0_r.
    destruct (lookup_lt_is_Some_2 bs i Hlt) as [c Hc]. rewrite Hc. simpl. f_equal.
    apply wrapu_small. exact (proj1 (Forall_lookup _ _) Hb i c Hc).
  - rewrite !lookup_ge_None_2; [done|lia|]. rewrite length_fmap, length_seq. lia.
Qed.

(** Position and remainder split the size. *)
Lemma position_remain m rb : rb_inv m rb →
  rotbuf_position rb = Z.min (total rb) (size rb) ∧ rotbuf_remain rb = size rb - rotbuf_position rb.
Proof.
  intros [_ Hs Hc Hw Hf]. unfold total, rotbuf_remain, rotbuf_position, size.
  destruct (Z.eqb_spec (wrap rb) 0); simpl; [|lia].
  destruct (Z.leb_spec (start rb) (cursor rb)); decide_cmp; lia.
Qed.

Lemma size_content m rb : rb_inv m rb → size rb = Z.of_nat (length (content m rb)).
Proof. intros [_ Hs _ _ _]. rewrite content_length. unfold size. lia. Qed.

(** Whatever the rotation, bytes put into a fresh rotated buffer that is
    large enough are counted by its position and come back from the start. *)
Theorem rotbuf_write_read m p n rot l bs rb :
  m !! blk p = Some l → 0 ≤ off p → off p + n ≤ Z.of_nat (length l) →
  rotbuf_init p n rot = Ret rb → 0 < n < 2 ^ 32 → Z.of_nat (length bs) ≤ n → Forall is_byte bs →
  ∃ m' rb1 rb2, rotbuf_putbuf m rb bs = Ret (m', rb1) ∧
    rotbuf_position rb1 = Z.of_nat (length bs) ∧ rotbuf_remain rb1 = n - Z.of_nat (length bs) ∧
    rotbuf_getbuf m' (rotbuf_reset rb1) (length bs) = Ret (rb2, bs).
Proof.
  intros Hl Ho Hle Hinit Hn Hbs Hb.
  destruct (rotbuf_init_spec m p n rot l) as (rb0 & Hrb0 & Hi & Ht & Hsz & _); [done|done|lia|done|].
  assert (rb0 = rb) as -> by congruence.
  destruct (rotbuf_putbuf_spec m rb bs Hi) as (m' & rb1 & Hp & Hi1 & Ht1 & Hc1); [lia|].
  assert (size rb1 = n) as Hsz1.
  { rewrite (size_content m'), Hc1, length_inserts, <- (size_content m); done. }
  destruct (position_remain m' rb1 Hi1) as [Hpos Hrem].
  assert (rb_inv m' (rotbuf_reset rb1) ∧ total (rotbuf_reset rb1) = 0) as [Hi2 Ht2].
  { destruct Hi1. split; [by split|].
    unfold total, rotbuf_reset, rotbuf_position; simpl. decide_cmp. lia. }
  destruct (rotbuf_getbuf_spec m' (rotbuf_reset rb1) (length bs) Hi2) as (rb2 & Hg & _); [lia|].
  exists m', rb1, rb2. split_and!; [done|lia|lia|]. rewrite Hg, Ht2. do 2 f_equal. simpl.
  change (content m' (rotbuf_reset rb1)) with (content m' rb1). rewrite Hc1, Ht.
  apply get_written; [done|]. rewrite content_length. lia.
Qed.

Lemma rotbuf_write_read_witness :
  ∃ rb m' rb1 rb2, rotbuf_init (Ptr 0 1) 4 3 = Ret rb ∧
    rotbuf_putbuf {[ 0%nat := [1; 2; 3; 4; 5; 6] ]} rb [7; 8; 9] = Ret (m', rb1) ∧
    rotbuf_getbuf m' (rotbuf_reset rb1) 3 = Ret (rb2, [7; 8; 9]).
Proof.
  destruct (rotbuf_write_read {[ 0%nat := [1; 2; 3; 4; 5; 6] ]} (Ptr 0 1) 4 3 [1; 2; 3; 4; 5; 6]
    [7; 8; 9] (Rot 0 1 5 4 4 0)) as (m' & rb1 & rb2 & H1 & _ & _ & H2);
    [reflexivity|simpl; lia|simpl; lia|reflexivity|lia|simpl; lia| |].
  { repeat constructor; unfold is_byte; lia. }
  exists (Rot 0 1 5 4 4 0), m', rb1, rb2. exact (conj eq_refl (conj H1 H2)).
Defined.

(** ** Chunks *)

Lemma content_chunks m rb l : rb_inv m rb → m !! obj rb = Some l →
  content m rb = take (Z.to_nat (ebuf rb - start rb)) (drop (Z.to_nat (start rb)) l)
                 ++ take (Z.to_nat (start rb - buf rb)) (drop (Z.to_nat (buf rb)) l).
Proof.
  intros Hi Hl. pose proof Hi as [(l' & Hl' & Hb & He) Hs _ _ _].
  assert (l' = l) as -> by congruence. apply list_eq. intros i.
  assert (length (take (Z.to_nat (ebuf rb - start rb)) (drop (Z.to_nat (start rb)) l))
    = Z.to_nat (ebuf rb - start rb)) as Hlen by (rewrite length_take, length_drop; lia).
  destruct (decide (i < Z.to_nat (size rb))%nat) as [Hlt|Hge].
  2: { unfold size in *. rewrite !lookup_ge_None_2; [done|
       rewrite length_app, Hlen, length_take, length_drop; lia|rewrite content_length; unfold size; lia]. }
  rewrite <- (Nat2Z.id i) at 1. rewrite (content_lookup m rb _ l) by (done || lia).
  rewrite (addr_spec m) by (done || lia). unfold size in *. case_if.
  - rewrite lookup_app_l, lookup_take_lt, lookup_drop by lia. f_equal. lia.
  - rewrite lookup_app_r, Hlen, lookup_take_lt, lookup_drop by lia. f_equal. lia.
Qed.

(** [while (rotbuf_next_chunk(rb, &buf, &len)) ...]: the bytes of the chunks. *)
Fixpoint chunks (fuel : nat) (m : mem) (rb : rotbuf) : outcome (rotbuf * list (list Z)) :=
  match fuel with
  | O => Undef
  | S fuel =>
      match rotbuf_next_chunk rb with
      | (rb, None) => Ret (rb, [])
      | (rb, Some (o, n)) =>
          c ← load_bytes m (Ptr (obj rb) o) n;
          r ← chunks fuel m rb;
          Ret (r.1, c :: r.2)
      end
  end.

(** C33: Iterating [rotbuf_next_chunk] ends after at most two chunks, all inside
    the buffer, which together are the content from the position on, and leaves
    the buffer full. *)
Theorem rotbuf_chunks_cover m rb : rb_inv m rb →
  ∃ rb' cs, chunks 3 m rb = Ret (rb', cs) ∧ (length cs ≤ 2)%nat ∧
    concat cs = drop (Z.to_nat (total rb)) (content m rb) ∧ rotbuf_remain rb' = 0.
Proof.
  intros Hi. pose proof Hi as [(l & Hl & Hb & He) Hs Hc Hw Hf]. cbn [chunks].
  unfold rotbuf_next_chunk at 1. destruct (total_nonneg m rb Hi) as [Hn Hsz].
  destruct (Z.eqb_spec (wrap rb) 0) as [E|E]; cbn [negb].
  2: { exists rb, []. split_and!; [done|simpl; lia| |].
       - rewrite drop_ge; [done|]. rewrite content_length. lia.
       - unfold rotbuf_remain. by rewrite (proj2 (Z.eqb_neq (wrap rb) 0)) by done. }
  rewrite (content_chunks m rb l Hi Hl). unfold total, rotbuf_position. rewrite E. cbn [negb Z.eqb].
  assert (length (take (Z.to_nat (ebuf rb - start rb)) (drop (Z.to_nat (start rb)) l))
    = Z.to_nat (ebuf rb - start rb)) as Hlen by (rewrite length_take, length_drop; lia).
  destruct (Z.leb_spec (start rb) (cursor rb)).
  - cbn [obj set_cursor]. rewrite (load_bytes_Ret _ _ _ l) by (simpl; done || lia).
    rewrite bind_ret_l, drop_app_le by lia. rewrite skipn_firstn_comm, drop_drop. cbn [off].
    replace (Z.to_nat (start rb) + Z.to_nat (cursor rb - start rb))%nat with (Z.to_nat (cursor rb)) by lia.
    replace (Z.to_nat (ebuf rb - start rb) - Z.to_nat (cursor rb - start rb))%nat
      with (Z.to_nat (ebuf rb - cursor rb)) by lia.
    set (c1 := take (Z.to_nat (ebuf rb - cursor rb)) _).
    destruct (Z.eqb_spec (buf rb) (start rb)) as [Eb|Eb].
    + eexists _, _. split; [reflexivity|]. simpl. rewrite Eb, Z.sub_diag. split_and!; [lia|done|done].
    + unfold rotbuf_next_chunk. simpl. decide_cmp. cbn [obj set_cursor].
      rewrite (load_bytes_Ret _ _ _ l) by (simpl; done || lia). rewrite !bind_ret_l.
      eexists _, _. split; [reflexivity|]. simpl. split_and!; [lia|by rewrite app_nil_r|done].
  - cbn [obj set_cursor]. rewrite (load_bytes_Ret _ _ _ l) by (simpl; done || lia). cbn [off].
    rewrite bind_ret_l. eexists _, _. split; [reflexivity|]. simpl. split_and!; [lia| |done].
    rewrite app_nil_r, drop_app_ge, Hlen, skipn_firstn_comm, drop_drop by lia.
    f_equal; [lia|]. f_equal. lia.
Qed.

Lemma rotbuf_chunks_cover_witness :
  ∃ rb' cs, chunks 3 {[ 0%nat := [1; 2; 3; 4; 5] ]} (Rot 0 0 5 2 3 0) = Ret (rb', cs) ∧
    concat cs = [4; 5; 1; 2].
Proof.
  destruct (rotbuf_chunks_cover {[ 0%nat := [1; 2; 3; 4; 5] ]} (Rot 0 0 5 2 3 0))
    as (rb' & cs & H1 & _ & H2 & _); [split; simpl; try lia; by exists [1; 2; 3; 4; 5]|].
  by exists rb', cs.
Defined.

(** The delta of two cursors that have not wrapped is the difference of
    their positions; once the destination has wrapped its cursor is back at the
    start, and the delta is counted from position 0 although its position is
    the size of the buffer. *)
Theorem rotbuf_delta_positions m origin dest :
  rb_inv m origin → rb_inv m dest → obj origin = obj dest → buf origin = buf dest →
  ebuf origin = ebuf dest → start origin = start dest → wrap origin = 0 →
  rotbuf_delta origin dest =
    Ret ((if wrap dest =? 0 then rotbuf_position dest else 0) - rotbuf_position origin).
Proof.
  intros [_ Hs1 Hc1 _ _] [_ Hs2 Hc2 _ Hf2] Ho Hb He Hst Hw1. unfold rotbuf_delta, rotbuf_position.
  rewrite bool_decide_eq_true_2 by done. rewrite Hw1. rewrite Hb, He, Hst in *. cbn [andb].
  rewrite !Z.eqb_refl. cbn [negb].
  destruct (Z.leb_spec (start dest) (cursor origin)); decide_cmp; cbv zeta; decide_cmp;
  (destruct (Z.eqb_spec (wrap dest) 0) as [E|E]; [|specialize (Hf2 E)]); cbn [negb];
  (destruct (Z.leb_spec (start dest) (cursor dest)); [|try lia]); decide_cmp; try decide_cmp; f_equal; lia.
Qed.

Lemma rotbuf_delta_positions_witness :
  rotbuf_delta (Rot 0 0 5 2 3 0) (Rot 0 0 5 2 1 0) = Ret (4 - 1) ∧
  rotbuf_delta (Rot 0 0 5 2 3 0) (Rot 0 0 5 2 2 1) = Ret (0 - 1) ∧
  rotbuf_position (Rot 0 0 5 2 2 1) = 5.
Proof.
  split_and!; [| |reflexivity];
    apply (rotbuf_delta_positions {[ 0%nat := [1; 2; 3; 4; 5] ]}); try reflexivity;
    split; simpl; try lia; by exists [1; 2; 3; 4; 5].
Defined.

End RotBuf.
