(* ===== verification/StrCtype.v ===== *)
(** * Character classes (str.h, str.c)

    The tables behind the character predicates, entry by entry, and the
    predicates. A C string is the list of the bytes that can be read from its
    pointer on, its nul included; characters are their unsigned byte values. *)

From S2P Require Import Prelude.
From Stdlib Require Import Ascii.

(** The value of a character constant. *)
Definition chr (a : ascii) : Z := Z.of_N (N_of_ascii a).

(** [s[k]]: undefined past the end of what can be read. *)
Definition char_at (s : list Z) (k : nat) : outcome Z :=
  match s !! k with Some x => Ret x | None => Undef end.

Lemma char_at_0 x s : char_at (x :: s) 0 = Ret x.
Proof. done. Qed.

Module Ctype.

(** ** The tables *)

Notation "a .| b" := (Z.lor a b) (at level 50, left associativity).

Definition _B64 : Z := Z.shiftl 1 6.
Definition _B64U : Z := Z.shiftl 1 7.
Definition BASE64_MASK : Z := 0x3f.
Definition HEX_MASK : Z := 0xf.
Definition _SEP : Z := Z.shiftl 1 4.
Definition _URI_SCHEME : Z := Z.shiftl 1 5.
Definition _URI_UNRES : Z := Z.shiftl 1 6.
Definition _URI_RES : Z := Z.shiftl 1 7.
Definition _BND : Z := Z.shiftl 1 0.

Definition _serval_ctype_0 : list (ascii * Z) :=
  [("A"%char, _B64 .| _B64U .| 0); ("B"%char, _B64 .| _B64U .| 1); ("C"%char, _B64 .| _B64U .| 2);
   ("D"%char, _B64 .| _B64U .| 3); ("E"%char, _B64 .| _B64U .| 4); ("F"%char, _B64 .| _B64U .| 5);
   ("G"%char, _B64 .| _B64U .| 6); ("H"%char, _B64 .| _B64U .| 7); ("I"%char, _B64 .| _B64U .| 8);
   ("J"%char, _B64 .| _B64U .| 9); ("K"%char, _B64 .| _B64U .| 10);
   ("L"%char, _B64 .| _B64U .| 11); ("M"%char, _B64 .| _B64U .| 12);
   ("N"%char, _B64 .| _B64U .| 13); ("O"%char, _B64 .| _B64U .| 14);
   ("P"%char, _B64 .| _B64U .| 15); ("Q"%char, _B64 .| _B64U .| 16);
   ("R"%char, _B64 .| _B64U .| 17); ("S"%char, _B64 .| _B64U .| 18);
   ("T"%char, _B64 .| _B64U .| 19); ("U"%char, _B64 .| _B64U .| 20);
   ("V"%char, _B64 .| _B64U .| 21); ("W"%char, _B64 .| _B64U .| 22);
   ("X"%char, _B64 .| _B64U .| 23); ("Y"%char, _B64 .| _B64U .| 24);
   ("Z"%char, _B64 .| _B64U .| 25); ("a"%char, _B64 .| _B64U .| 26);
   ("b"%char, _B64 .| _B64U .| 27); ("c"%char, _B64 .| _B64U .| 28);
   ("d"%char, _B64 .| _B64U .| 29); ("e"%char, _B64 .| _B64U .| 30);
   ("f"%char, _B64 .| _B64U .| 31); ("g"%char, _B64 .| _B64U .| 32);
   ("h"%char, _B64 .| _B64U .| 33); ("i"%char, _B64 .| _B64U .| 34);
   ("j"%char, _B64 .| _B64U .| 35); ("k"%char, _B64 .| _B64U .| 36);
   ("l"%char, _B64 .| _B64U .| 37); ("m"%char, _B64 .| _B64U .| 38);
   ("n"%char, _B64 .| _B64U .| 39); ("o"%char, _B64 .| _B64U .| 40);
   ("p"%char, _B64 .| _B64U .| 41); ("q"%char, _B64 .| _B64U .| 42);
   ("r"%char, _B64 .| _B64U .| 43); ("s"%char, _B64 .| _B64U .| 44);
   ("t"%char, _B64 .| _B64U .| 45); ("u"%char, _B64 .| _B64U .| 46);
   ("v"%char, _B64 .| _B64U .| 47); ("w"%char, _B64 .| _B64U .| 48);
   ("x"%char, _B64 .| _B64U .| 49); ("y"%char, _B64 .| _B64U .| 50);
   ("z"%char, _B64 .| _B64U .| 51); ("0"%char, _B64 .| _B64U .| 52);
   ("1"%char, _B64 .| _B64U .| 53); ("2"%char, _B64 .| _B64U .| 54);
   ("3"%char, _B64 .| _B64U .| 55); ("4"%char, _B64 .| _B64U .| 56);
   ("5"%char, _B64 .| _B64U .| 57); ("6"%char, _B64 .| _B64U .| 58);
   ("7"%char, _B64 .| _B64U .| 59); ("8"%char, _B64 .| _B64U .| 60);
   ("9"%char, _B64 .| _B64U .| 61); ("+"%char, _B64 .| 62); ("/"%char, _B64 .| 63);
   ("-"%char, _B64U .| 62); ("_"%char, _B64U .| 63)].

Definition _serval_ctype_1 : list (ascii * Z) :=
  [("A"%char, _URI_SCHEME .| _URI_UNRES .| 10); ("B"%char, _URI_SCHEME .| _URI_UNRES .| 11);
   ("C"%char, _URI_SCHEME .| _URI_UNRES .| 12); ("D"%char, _URI_SCHEME .| _URI_UNRES .| 13);
   ("E"%char, _URI_SCHEME .| _URI_UNRES .| 14); ("F"%char, _URI_SCHEME .| _URI_UNRES .| 15);
   ("G"%char, _URI_SCHEME .| _URI_UNRES); ("H"%char, _URI_SCHEME .| _URI_UNRES);
   ("I"%char, _URI_SCHEME .| _URI_UNRES); ("J"%char, _URI_SCHEME .| _URI_UNRES);
   ("K"%char, _URI_SCHEME .| _URI_UNRES); ("L"%char, _URI_SCHEME .| _URI_UNRES);
   ("M"%char, _URI_SCHEME .| _URI_UNRES); ("N"%char, _URI_SCHEME .| _URI_UNRES);
   ("O"%char, _URI_SCHEME .| _URI_UNRES); ("P"%char, _URI_SCHEME .| _URI_UNRES);
   ("Q"%char, _URI_SCHEME .| _URI_UNRES); ("R"%char, _URI_SCHEME .| _URI_UNRES);
   ("S"%char, _URI_SCHEME .| _URI_UNRES); ("T"%char, _URI_SCHEME .| _URI_UNRES);
   ("U"%char, _URI_SCHEME .| _URI_UNRES); ("V"%char, _URI_SCHEME .| _URI_UNRES);
   ("W"%char, _URI_SCHEME .| _URI_UNRES); ("X"%char, _URI_SCHEME .| _URI_UNRES);
   ("Y"%char, _URI_SCHEME .| _URI_UNRES); ("Z"%char, _URI_SCHEME .| _URI_UNRES);
   ("a"%char, _URI_SCHEME .| _URI_UNRES .| 10); ("b"%char, _URI_SCHEME .| _URI_UNRES .| 11);
   ("c"%char, _URI_SCHEME .| _URI_UNRES .| 12); ("d"%char, _URI_SCHEME .| _URI_UNRES .| 13);
   ("e"%char, _URI_SCHEME .| _URI_UNRES .| 14); ("f"%char, _URI_SCHEME .| _URI_UNRES .| 15);
   ("g"%char, _URI_SCHEME .| _URI_UNRES); ("h"%char, _URI_SCHEME .| _URI_UNRES);
   ("i"%char, _URI_SCHEME .| _URI_UNRES); ("j"%char, _URI_SCHEME .| _URI_UNRES);
   ("k"%char, _URI_SCHEME .| _URI_UNRES); ("l"%char, _URI_SCHEME .| _URI_UNRES);
   ("m"%char, _URI_SCHEME .| _URI_UNRES); ("n"%char, _URI_SCHEME .| _URI_UNRES);
   ("o"%char, _URI_SCHEME .| _URI_UNRES); ("p"%char, _URI_SCHEME .| _URI_UNRES);
   ("q"%char, _URI_SCHEME .| _URI_UNRES); ("r"%char, _URI_SCHEME .| _URI_UNRES);
   ("s"%char, _URI_SCHEME .| _URI_UNRES); ("t"%char, _URI_SCHEME .| _URI_UNRES);
   ("u"%char, _URI_SCHEME .| _URI_UNRES); ("v"%char, _URI_SCHEME .| _URI_UNRES);
   ("w"%char, _URI_SCHEME .| _URI_UNRES); ("x"%char, _URI_SCHEME .| _URI_UNRES);
   ("y"%char, _URI_SCHEME .| _URI_UNRES); ("z"%char, _URI_SCHEME .| _URI_UNRES);
   ("0"%char, _URI_SCHEME .| _URI_UNRES .| 0); ("1"%char, _URI_SCHEME .| _URI_UNRES .| 1);
   ("2"%char, _URI_SCHEME .| _URI_UNRES .| 2); ("3"%char, _URI_SCHEME .| _URI_UNRES .| 3);
   ("4"%char, _URI_SCHEME .| _URI_UNRES .| 4); ("5"%char, _URI_SCHEME .| _URI_UNRES .| 5);
   ("6"%char, _URI_SCHEME .| _URI_UNRES .| 6); ("7"%char, _URI_SCHEME .| _URI_UNRES .| 7);
   ("8"%char, _URI_SCHEME .| _URI_UNRES .| 8); ("9"%char, _URI_SCHEME .| _URI_UNRES .| 9);
   ("009"%char, _SEP); (" "%char, _SEP); ("_"%char, _URI_UNRES); ("="%char, _SEP .| _URI_RES);
   ("<"%char, _SEP); (">"%char, _SEP); (";"%char, _SEP .| _URI_RES); (":"%char, _SEP .| _URI_RES);
   ("\"%char, _SEP); ("'"%char, _URI_RES); ("034"%char, _SEP); ("/"%char, _SEP .| _URI_RES);
   ("["%char, _SEP .| _URI_RES); ("]"%char, _SEP .| _URI_RES); ("{"%char, _SEP); ("}"%char, _SEP);
   ("("%char, _SEP .| _URI_RES); (")"%char, _SEP .| _URI_RES); (","%char, _SEP .| _URI_RES);
   ("."%char, _URI_SCHEME .| _URI_UNRES); ("?"%char, _SEP .| _URI_RES); ("!"%char, _URI_RES);
   ("+"%char, _URI_SCHEME .| _URI_RES); ("-"%char, _URI_SCHEME .| _URI_UNRES);
   ("*"%char, _URI_RES); ("$"%char, _URI_RES); ("&"%char, _URI_RES); ("#"%char, _URI_RES);
   ("@"%char, _SEP .| _URI_RES); ("~"%char, _URI_UNRES)].

Definition _serval_ctype_2 : list (ascii * Z) :=
  [("A"%char, _BND); ("B"%char, _BND); ("C"%char, _BND); ("D"%char, _BND); ("E"%char, _BND);
   ("F"%char, _BND); ("G"%char, _BND); ("H"%char, _BND); ("I"%char, _BND); ("J"%char, _BND);
   ("K"%char, _BND); ("L"%char, _BND); ("M"%char, _BND); ("N"%char, _BND); ("O"%char, _BND);
   ("P"%char, _BND); ("Q"%char, _BND); ("R"%char, _BND); ("S"%char, _BND); ("T"%char, _BND);
   ("U"%char, _BND); ("V"%char, _BND); ("W"%char, _BND); ("X"%char, _BND); ("Y"%char, _BND);
   ("Z"%char, _BND); ("a"%char, _BND); ("b"%char, _BND); ("c"%char, _BND); ("d"%char, _BND);
   ("e"%char, _BND); ("f"%char, _BND); ("g"%char, _BND); ("h"%char, _BND); ("i"%char, _BND);
   ("j"%char, _BND); ("k"%char, _BND); ("l"%char, _BND); ("m"%char, _BND); ("n"%char, _BND);
   ("o"%char, _BND); ("p"%char, _BND); ("q"%char, _BND); ("r"%char, _BND); ("s"%char, _BND);
   ("t"%char, _BND); ("u"%char, _BND); ("v"%char, _BND); ("w"%char, _BND); ("x"%char, _BND);
   ("y"%char, _BND); ("z"%char, _BND); ("0"%char, _BND); ("1"%char, _BND); ("2"%char, _BND);
   ("3"%char, _BND); ("4"%char, _BND); ("5"%char, _BND); ("6"%char, _BND); ("7"%char, _BND);
   ("8"%char, _BND); ("9"%char, _BND); ("+"%char, _BND); ("/"%char, _BND); ("="%char, _BND);
   ("-"%char, _BND); ("."%char, _BND); (":"%char, _BND); ("_"%char, _BND); ("("%char, _BND);
   (")"%char, _BND); (","%char, _BND); ("?"%char, _BND); (" "%char, _BND)].

(** The tables are declared with [UINT8_MAX], that is 255, entries: the index
    255 is outside them. Entries that are not listed are 0. *)
Definition entry (t : list (ascii * Z)) (x : Z) : Z :=
  match find (λ p, chr p.1 =? x) t with Some p => p.2 | None => 0 end.
Definition index (t : list (ascii * Z)) (x : Z) : outcome Z :=
  defined! u8 x <? 255;
  Ret (entry t (u8 x)).
Definition flag (t : list (ascii * Z)) (x f : Z) : outcome bool :=
  v ← index t x; Ret (negb (Z.land v f =? 0)).

(** ** Predicates *)

Definition is_base64_digit (x : Z) : outcome bool := flag _serval_ctype_0 x _B64.
Definition is_base64url_digit (x : Z) : outcome bool := flag _serval_ctype_0 x _B64U.
Definition is_base64_pad (x : Z) : bool := x =? chr "=".
Definition is_base64url_pad (x : Z) : bool := x =? chr "=".
Definition base64_digit (x : Z) : outcome Z :=
  v ← index _serval_ctype_0 x; Ret (Z.land v BASE64_MASK).
Definition base64url_digit (x : Z) : outcome Z :=
  v ← index _serval_ctype_0 x; Ret (Z.land v BASE64_MASK).
Definition is_multipart_boundary (x : Z) : outcome bool := flag _serval_ctype_2 x _BND.
Definition is_http_separator (x : Z) : outcome bool := flag _serval_ctype_1 x _SEP.
Definition is_uri_char_scheme (x : Z) : outcome bool := flag _serval_ctype_1 x _URI_SCHEME.
Definition is_uri_char_unreserved (x : Z) : outcome bool := flag _serval_ctype_1 x _URI_UNRES.
Definition is_uri_char_reserved (x : Z) : outcome bool := flag _serval_ctype_1 x _URI_RES.

(** ctype(3) in the C locale. *)
Definition between (a x b : Z) : bool := (a <=? x) && (x <=? b).
Definition isdigit (x : Z) : bool := between (chr "0") x (chr "9").
Definition isxdigit (x : Z) : bool :=
  isdigit x || between (chr "A") x (chr "F") || between (chr "a") x (chr "f").
Definition isalpha (x : Z) : bool := between (chr "A") x (chr "Z") || between (chr "a") x (chr "z").
Definition isspace (x : Z) : bool := (x =? 32) || between 9 x 13.
Definition iscntrl (x : Z) : bool := between 0 x 31 || (x =? 127).
Definition isascii (x : Z) : bool := between 0 x 127.

Definition is_http_char (x : Z) : bool := isascii x.
Definition is_http_ctl (x : Z) : bool := iscntrl x.
Definition is_http_token (x : Z) : outcome bool :=
  if is_http_char x && negb (is_http_ctl x) then b ← is_http_separator x; Ret (negb b)
  else Ret false.

(** The digit's value or -1. *)
Definition hexvalue (x : Z) : outcome Z :=
  if isxdigit x then v ← index _serval_ctype_1 x; Ret (Z.land v HEX_MASK) else Ret (-1).

(** [for (; *s; ++s) ...]; [prev] is the character before [s]. *)
Fixpoint boundary_loop (s : list Z) (prev : Z) : outcome bool :=
  match s with
  | [] => Undef
  | x :: s =>
      if x =? 0 then Ret (negb (prev =? chr " "))
      else b ← is_multipart_boundary x; if (b : bool) then boundary_loop s x else Ret false
  end.
Definition is_valid_multipart_boundary_string (s : list Z) : outcome bool :=
  x ← char_at s 0;
  if x =? 0 then Ret false else boundary_loop s 0.

(** [while (len--) if (!isxdigit( *text++)) return 0] *)
Fixpoint is_xsubstring (text : list Z) (len : nat) : outcome bool :=
  match len with
  | O => Ret true
  | S len => match text with
             | [] => Undef
             | x :: text => if isxdigit x then is_xsubstring text len else Ret false
             end
  end.
Fixpoint is_xstring (text : list Z) (len : nat) : outcome bool :=
  match text with
  | [] => Undef
  | x :: text =>
      match len with
      | O => Ret (x =? 0)
      | S len => if isxdigit x then is_xstring text len else Ret false
      end
  end.

(** ** What the tables say *)

Definition one_of (s : string) (x : Z) : bool :=
  existsb (λ a, chr a =? x) (String.list_ascii_of_string s).
Definition isalnum (x : Z) : bool := isalpha x || isdigit x.

Definition bool_eqb (a : outcome bool) (b : bool) : bool :=
  match a with Ret x => Bool.eqb x b | _ => false end.
Lemma bool_eqb_true a b : bool_eqb a b = true → a = Ret b.
Proof. destruct a; simpl; [|done|done]. by intros ->%eqb_prop. Qed.

Definition classes_check (x : Z) : bool :=
  bool_eqb (is_uri_char_unreserved x) (isalnum x || one_of "-._~" x)
  && bool_eqb (is_uri_char_reserved x) (one_of ":/?#[]@!$&'()*+,;=" x)
  && bool_eqb (is_uri_char_scheme x) (isalnum x || one_of "+-." x)
  && bool_eqb (is_http_separator x) (one_of "()<>@,;:\/[]?={} " x || (x =? 34) || (x =? 9))
  && bool_eqb (is_multipart_boundary x) (isalnum x || one_of "+_,-./:=?() " x)
  && bool_eqb (is_base64_digit x) (isalnum x || one_of "+/" x)
  && bool_eqb (is_base64url_digit x) (isalnum x || one_of "-_" x).

Lemma classes_checked x : 0 ≤ x < 255 → classes_check x = true.
Proof. apply forall_range. vm_compute. reflexivity. Qed.

(** On every character but the one of code 255, the table predicates are
    the character classes of RFC 3986 (URI), RFC 2616 (HTTP separators),
    RFC 4648 (Base64) and the multipart boundary characters; code 255 is
    outside the tables. *)
Theorem ctype_classes x : 0 ≤ x < 255 →
  is_uri_char_unreserved x = Ret (isalnum x || one_of "-._~" x) ∧
  is_uri_char_reserved x = Ret (one_of ":/?#[]@!$&'()*+,;=" x) ∧
  is_uri_char_scheme x = Ret (isalnum x || one_of "+-." x) ∧
  is_http_separator x = Ret (one_of "()<>@,;:\/[]?={} " x || (x =? 34) || (x =? 9)) ∧
  is_multipart_boundary x = Ret (isalnum x || one_of "+_,-./:=?() " x) ∧
  is_base64_digit x = Ret (isalnum x || one_of "+/" x) ∧
  is_base64url_digit x = Ret (isalnum x || one_of "-_" x) ∧
  is_base64_digit 255 = Undef.
Proof.
  intros Hx. pose proof (classes_checked x Hx) as Hc. unfold classes_check in Hc. bool_props.
  split_and!; try by apply bool_eqb_true. reflexivity.
Qed.

Lemma ctype_classes_witness : is_uri_char_unreserved 126 = Ret true.
Proof. apply (ctype_classes 126). lia. Defined.

End Ctype.
