(* ===== verification/StrNum.v ===== *)
(** * Hexadecimal strings and numeric strings (str.c)

    Conversions between bytes and hexadecimal text, and the parsers of unsigned
    integers. A destination array is a result: the list of bytes written to it. *)

From S2P Require Import Prelude StrCtype.
From Stdlib Require Import Ascii.
Import Ctype.

Module StrNum.

(** ** Operations *)

Definition hexdigit_upper : list Z :=
  chr <$> ["0"; "1"; "2"; "3"; "4"; "5"; "6"; "7"; "8"; "9"; "A"; "B"; "C"; "D"; "E"; "F"]%char.

Definition hexdigit (x : Z) : Z := default 0 (hexdigit_upper !! Z.to_nat x).

(** [for (i = 0; i < dstStrLen; ++i) ...]: [n] is [dstStrLen - i]. The source
    pointer moves on after an odd [i]. *)
Fixpoint tohex_loop (n : nat) (i : Z) (src : list Z) : outcome (list Z) :=
  match n with
  | O => Ret [0]
  | S n =>
      match src with
      | [] => Undef
      | b :: src' =>
          if negb (Z.land i 1 =? 0) then
            rest ← tohex_loop n (i + 1) src';
            Ret (hexdigit (Z.land b 0xf) :: rest)
          else
            rest ← tohex_loop n (i + 1) src;
            Ret (hexdigit (Z.shiftr b 4) :: rest)
      end
  end.
Definition tohex (dstStrLen : nat) (srcBinary : list Z) : outcome (list Z) :=
  tohex_loop dstStrLen 0 srcBinary.

(** [n] bytes have been produced. Returns the bytes produced from here on and
    what [*afterHex] points to. *)
Fixpoint fromhex_loop (dstsiz n : Z) (srcHex : list Z) : outcome (list Z * list Z) :=
  if (dstsiz =? -1) || (n <? dstsiz) then
    match srcHex with
    | [] => Undef
    | h :: t =>
        high ← hexvalue h;
        if high =? -1 then Ret ([], srcHex)
        else
          match t with
          | [] => Undef
          | l :: rest =>
              low ← hexvalue l;
              if low =? -1 then Ret ([], srcHex)
              else
                r ← fromhex_loop dstsiz (n + 1) rest;
                Ret (u8 (Z.shiftl high 4 + low) :: r.1, r.2)
          end
    end
  else Ret ([], srcHex).
Definition strn_fromhex (dstsiz : Z) (srcHex : list Z) : outcome (list Z * list Z) :=
  fromhex_loop dstsiz 0 srcHex.

(** The bytes written and the return value (-1 is [SIZE_MAX]). *)
Definition fromhex `{Arch} (srcHex : list Z) (nbinary : Z) : outcome (list Z * Z) :=
  r ← strn_fromhex (wraps size_bits nbinary) srcHex;
  Ret (r.1, if Z.of_nat (length r.1) =? nbinary then nbinary else SIZE_MAX).

Definition fromhexstr `{Arch} (srcHex : list Z) (nbinary : Z) : outcome (list Z * Z) :=
  r ← strn_fromhex (wraps size_bits nbinary) srcHex;
  if Z.of_nat (length r.1) =? nbinary then
    p ← char_at r.2 0;
    Ret (r.1, if p =? 0 then 0 else -1)
  else Ret (r.1, -1).

(** The loop of the [strn_to_uint*] functions for a [w]-bit value, given the
    function's overflow test. [lim] is what is left of [strlen] characters, or
    [None] when the string ends at its nul. Returns the number of characters
    consumed, [s], [value] and [newvalue]. *)
Fixpoint uint_loop (w : Z) (overflow : Z → Z → bool) (base : Z) (lim : option nat)
    (s : list Z) (k value newvalue : Z) : outcome (Z * list Z * Z * Z) :=
  match lim with
  | Some O => Ret (k, s, value, newvalue)
  | _ =>
      match s with
      | [] => Undef
      | x :: t =>
          if bool_decide (lim = None) && (x =? 0) then Ret (k, s, value, newvalue)
          else
            digit ← hexvalue x;
            if (digit <? 0) || (base <=? digit) then Ret (k, s, value, newvalue)
            else
              let newvalue := wrapu w (value * base + digit) in
              if overflow value newvalue then Ret (k, s, value, newvalue)
              else uint_loop w overflow base (pred <$> lim) t (k + 1) newvalue newvalue
      end
  end.

(** The result, if the return value is 1, and what [*afterp] points to; [strlen]
    0 means a nul-terminated string. *)
Definition strn_to_uint (w : Z) (overflow : Z → Z → bool) (str : list Z) (strlen : nat) (base : Z)
    (afterp : bool) : outcome (option Z * list Z) :=
  assert! 0 <? base;
  assert! base <=? 16;
  '(k, s, value, newvalue) ←
    uint_loop w overflow base (if decide (strlen = 0%nat) then None else Some strlen) str 0 0 0;
  unfinished ←
    (if decide (strlen = 0%nat) then x ← char_at s 0; Ret (negb (x =? 0))
     else Ret (negb (k =? Z.of_nat strlen)));
  Ret (if (k =? 0) || negb (value =? newvalue) || (negb afterp && unfinished)
       then None else Some value, s).

Definition strn_to_uint16 (str : list Z) (strlen : nat) (base : Z) (afterp : bool) :=
  strn_to_uint 16 (λ value newvalue, negb (newvalue / base =? value)) str strlen base afterp.
Definition strn_to_uint32 (str : list Z) (strlen : nat) (base : Z) (afterp : bool) :=
  strn_to_uint 32 (λ value newvalue, newvalue <? value) str strlen base afterp.
Definition strn_to_uint64 (str : list Z) (strlen : nat) (base : Z) (afterp : bool) :=
  strn_to_uint 64 (λ value newvalue, newvalue <? value) str strlen base afterp.
Definition str_to_uint16 (str : list Z) (base : Z) (afterp : bool) := strn_to_uint16 str 0 base afterp.
Definition str_to_uint32 (str : list Z) (base : Z) (afterp : bool) := strn_to_uint32 str 0 base afterp.
Definition str_to_uint64 (str : list Z) (base : Z) (afterp : bool) := strn_to_uint64 str 0 base afterp.
Definition str_is_uint64_decimal (str : list Z) : outcome bool :=
  r ← str_to_uint64 str 10 false; Ret (bool_decide (is_Some r.1)).

(** ** Hexadecimal round trip *)

Lemma hexvalue_hexdigit x : 0 ≤ x < 16 → hexvalue (hexdigit x) = Ret x.
Proof.
  intros Hx. apply ret_eqb_true.
  exact (forall_range (λ x, ret_eqb (hexvalue (hexdigit x)) x) 16 eq_refl x Hx).
Qed.

(** The two digits of a byte. *)
Definition hex2 (b : Z) : list Z := [hexdigit (Z.shiftr b 4); hexdigit (Z.land b 0xf)].
Definition hex (bs : list Z) : list Z := concat (hex2 <$> bs).

Lemma hex_cons b bs : hex (b :: bs) = hexdigit (Z.shiftr b 4) :: hexdigit (Z.land b 0xf) :: hex bs.
Proof. done. Qed.

Lemma nibbles b : is_byte b →
  0 ≤ Z.shiftr b 4 < 16 ∧ 0 ≤ Z.land b 0xf < 16 ∧ Z.shiftl (Z.shiftr b 4) 4 + Z.land b 0xf = b.
Proof.
  intros Hb. unfold is_byte in Hb. change 0xf with (Z.ones 4).
  rewrite Z.land_ones, Z.shiftr_div_pow2, Z.shiftl_mul_pow2 by lia. change (2 ^ 4) with 16.
  pose proof (Z.div_mod b 16 ltac:(lia)). pose proof (Z.mod_pos_bound b 16 ltac:(lia)).
  assert (0 ≤ b / 16 < 16) by (split; [apply Z.div_pos; lia|apply Z.div_lt_upper_bound; lia]). lia.
Qed.

Lemma land_1_even i : Z.even i = true → (Z.land i 1 =? 0) = true ∧ (Z.land (i + 1) 1 =? 0) = false.
Proof.
  intros He. apply Z.even_spec in He as [q ->]. change 1 with (Z.ones 1) at 1 3.
  rewrite !Z.land_ones by lia. change (2 ^ 1) with 2. split.
  - rewrite Z.mul_comm, Z.mod_mul by lia. done.
  - rewrite Z.add_comm, Z.mul_comm, Z.mod_add by lia. done.
Qed.

Lemma tohex_loop_spec bs i rest : Z.even i = true →
  tohex_loop (2 * length bs) i (bs ++ rest) = Ret (hex bs ++ [0]).
Proof.
  revert i. induction bs as [|b bs IH]; intros i Hi; [done|].
  replace (2 * length (b :: bs))%nat with (S (S (2 * length bs))) by (simpl; lia).
  destruct (land_1_even i Hi) as [H0 H1]. cbn [tohex_loop app]. rewrite H0, H1. cbn [negb].
  rewrite IH; [done|]. by rewrite <- Z.add_assoc, Z.even_add, Hi.
Qed.

(** Decoding stops at the limit, or at a character that is no digit. *)
Lemma fromhex_loop_hex bs d n rest : Forall is_byte bs → 0 ≤ n → n + Z.of_nat (length bs) ≤ d →
  (n + Z.of_nat (length bs) = d ∨ ∃ x t, rest = x :: t ∧ isxdigit x = false) →
  fromhex_loop d n (hex bs ++ rest) = Ret (bs, rest).
Proof.
  intros Hb. revert n. induction Hb as [|b bs Hb _ IH]; intros n Hn Hle Hend.
  - simpl in *. destruct Hend as [E|(x & t & -> & Hx)].
    + destruct rest; simpl; do 2 decide_cmp; done.
    + simpl. destruct ((d =? -1) || (n <? d)); [|done]. unfold hexvalue. by rewrite Hx.
  - rewrite hex_cons. destruct (nibbles b Hb) as (Hh & Hl & Hv). cbn [app fromhex_loop length] in *.
    assert ((d =? -1) || (n <? d) = true) as -> by (do 2 decide_cmp; done).
    rewrite !hexvalue_hexdigit, !bind_ret_l by done.
    rewrite (proj2 (Z.eqb_neq (Z.shiftr b 4) (-1))), ?bind_ret_l by lia.
    rewrite (proj2 (Z.eqb_neq (Z.land b 15) (-1))) by lia.
    rewrite IH, bind_ret_l, Hv, wrapu_small; [done|exact Hb|lia|lia|].
    destruct Hend as [?|?]; [left; lia|by right].
Qed.

(** The text [tohex] makes of an array of bytes is two digits per byte and a
    nul, and [fromhexstr] and [fromhex] read the bytes back from it. *)
Theorem hex_roundtrip `{Arch} bs : Forall is_byte bs → Z.of_nat (length bs) < 2 ^ 31 →
  ∃ text, tohex (2 * length bs) bs = Ret text ∧ length text = (2 * length bs + 1)%nat ∧
    fromhexstr text (Z.of_nat (length bs)) = Ret (bs, 0) ∧
    fromhex text (Z.of_nat (length bs)) = Ret (bs, Z.of_nat (length bs)).
Proof.
  intros Hb Hlen. exists (hex bs ++ [0]). split.
  { unfold tohex. rewrite <- (app_nil_r bs) at 2. by apply tohex_loop_spec. }
  split. { rewrite length_app. simpl. f_equal. induction bs as [|b bs IH]; [done|].
           inversion Hb; subst. rewrite hex_cons. simpl in *. rewrite IH by (done || lia). lia. }
  assert (strn_fromhex (wraps size_bits (Z.of_nat (length bs))) (hex bs ++ [0]) = Ret (bs, [0])) as Hs.
  { rewrite wraps_small by (destruct size_bits_ok as [-> | ->]; simpl; lia).
    apply fromhex_loop_hex; [done|lia|lia|by left]. }
  unfold fromhexstr, fromhex. rewrite Hs, !bind_ret_l. simpl. rewrite Z.eqb_refl. done.
Qed.

Lemma hex_roundtrip_witness :
  ∃ text, tohex 4 [0xC0; 0x1D] = Ret text ∧ @fromhexstr arm64 text 2 = Ret ([0xC0; 0x1D], 0).
Proof.
  destruct (@hex_roundtrip arm64 [0xC0; 0x1D]) as (text & H1 & _ & H2 & _);
    [repeat constructor; unfold is_byte; lia|simpl; lia|].
  by exists text.
Defined.

(** ** Parsing unsigned integers *)

(** The characters [cs] are digits of the given base with values [ds]. *)
Definition digits (base : Z) (cs ds : list Z) : Prop :=
  Forall2 (λ x d, hexvalue x = Ret d ∧ 0 ≤ d < base) cs ds.
(** The number they write, after those that make [v]. *)
Definition num (base v : Z) (ds : list Z) : Z := foldl (λ v d, v * base + d) v ds.
(** A character that is no digit of the base (the nul for example). *)
Definition non_digit (base x : Z) : Prop := ∃ d, hexvalue x = Ret d ∧ (d < 0 ∨ base ≤ d).

Lemma num_mono base v ds : 0 < base → 0 ≤ v → Forall (λ d, 0 ≤ d < base) ds → v ≤ num base v ds.
Proof.
  intros Hb Hv Hd. unfold num. revert v Hv.
  induction Hd as [|d ds Hd _ IH]; intros v Hv; simpl; [lia|].
  specialize (IH (v * base + d) ltac:(nia)). nia.
Qed.

Lemma digits_values base cs ds : digits base cs ds → Forall (λ d, 0 ≤ d < base) ds.
Proof. induction 1 as [|x d cs ds [_ Hd] _ IH]; by constructor. Qed.

Lemma hexvalue_nonzero x d : hexvalue x = Ret d → 0 ≤ d → x ≠ 0.
Proof. intros Hx Hd ->. revert Hx. vm_compute. intros [= <-]. lia. Qed.

Lemma non_digit_nul base : non_digit base 0.
Proof. exists (-1). split; [reflexivity|lia]. Qed.

(** An overflow test that stays silent on a product that fits. *)
Definition quiet (w base : Z) (overflow : Z → Z → bool) : Prop :=
  ∀ v d, 0 ≤ v → 0 ≤ d < base → v * base + d < 2 ^ w → overflow v (v * base + d) = false.

(** One digit. *)
Lemma uint_loop_digit w overflow base x d t k v : hexvalue x = Ret d → 0 ≤ d < base →
  uint_loop w overflow base None (x :: t) k v v =
    let nv := wrapu w (v * base + d) in
    if overflow v nv then Ret (k, x :: t, v, nv)
    else uint_loop w overflow base None t (k + 1) nv nv.
Proof.
  intros Hx Hd. cbn [uint_loop]. rewrite (proj2 (Z.eqb_neq x 0)) by (eapply hexvalue_nonzero; [done|lia]).
  rewrite andb_false_r, Hx, bind_ret_l. do 2 decide_cmp. done.
Qed.

Lemma uint_loop_stop w overflow base x t k v : non_digit base x →
  uint_loop w overflow base None (x :: t) k v v = Ret (k, x :: t, v, v).
Proof.
  intros (d & Hx & Hd). cbn [uint_loop]. case_if; [done|]. rewrite Hx, bind_ret_l.
  destruct Hd; [by decide_cmp|]. rewrite (proj2 (Z.leb_le base d)), orb_true_r by lia. done.
Qed.

Lemma uint_loop_fits w overflow base cs ds x t k v : 0 < base → quiet w base overflow →
  digits base cs ds → non_digit base x → 0 ≤ v → num base v ds < 2 ^ w →
  uint_loop w overflow base None (cs ++ x :: t) k v v =
    Ret (k + Z.of_nat (length cs), x :: t, num base v ds, num base v ds).
Proof.
  intros Hb Hq Hds Hx. revert k v. induction Hds as [|y d cs ds [Hy Hd] Hds IH]; intros k v Hv Hfit.
  { cbn [app length num foldl]. rewrite uint_loop_stop by done. do 4 f_equal. lia. }
  assert (v * base + d < 2 ^ w) as Hlt.
  { pose proof (num_mono base (v * base + d) ds Hb ltac:(nia) (digits_values _ _ _ Hds)).
    unfold num in *. simpl in Hfit. lia. }
  rewrite <- app_comm_cons, (uint_loop_digit _ _ _ y d) by done. cbv zeta.
  rewrite (wrapu_small w) by nia. rewrite Hq by done. rewrite IH by (done || nia).
  simpl. do 4 f_equal. lia.
Qed.

(** The overflow tests of the parsers. *)
Lemma quiet_div w base : 0 < base → quiet w base (λ value newvalue, negb (newvalue / base =? value)).
Proof.
  intros Hb v d Hv Hd _. rewrite Z.add_comm, Z.div_add, Z.div_small by lia. by rewrite Z.add_0_l, Z.eqb_refl.
Qed.
Lemma quiet_lt w base : 0 < base → quiet w base (λ value newvalue, newvalue <? value).
Proof. intros Hb v d Hv Hd _. apply Z.ltb_ge. nia. Qed.

Lemma strn_to_uint_fits w overflow base cs ds x t : 1 ≤ base ≤ 16 → quiet w base overflow →
  digits base cs ds → cs ≠ [] → non_digit base x → num base 0 ds < 2 ^ w →
  strn_to_uint w overflow (cs ++ x :: t) 0 base true = Ret (Some (num base 0 ds), x :: t).
Proof.
  intros Hb Hq Hds Hne Hx Hfit. unfold strn_to_uint. do 2 decide_cmp.
  rewrite decide_True by done. rewrite (uint_loop_fits _ _ _ cs ds) by (done || lia).
  rewrite bind_ret_l. rewrite decide_True by done. rewrite char_at_0.
  rewrite bind_ret_l, Z.eqb_refl, (proj2 (Z.eqb_neq (0 + Z.of_nat (length cs)) 0)); [done|].
  destruct cs; [done|simpl; lia].
Qed.

(** The same for a string of a given length. *)
Lemma uint_loop_lim w overflow base cs ds r k v : 0 < base → quiet w base overflow →
  digits base cs ds → (∀ x, head r = Some x → non_digit base x) → 0 ≤ v → num base v ds < 2 ^ w →
  uint_loop w overflow base (Some (length cs + length r)%nat) (cs ++ r) k v v =
    Ret (k + Z.of_nat (length cs), r, num base v ds, num base v ds).
Proof.
  intros Hb Hq Hds Hr. revert k v. induction Hds as [|y d cs ds [Hy Hd] Hds IH]; intros k v Hv Hfit.
  { cbn [app length num foldl]. rewrite Z.add_0_r. destruct r as [|x r]; [done|]. cbn [length Nat.add uint_loop].
    destruct (Hr x eq_refl) as (d & Hx & Hd). rewrite bool_decide_false by done. cbn [andb].
    rewrite Hx, bind_ret_l. destruct Hd; [by decide_cmp|]. rewrite (proj2 (Z.leb_le base d)), orb_true_r by lia. done. }
  assert (v * base + d < 2 ^ w) as Hlt.
  { pose proof (num_mono base (v * base + d) ds Hb ltac:(nia) (digits_values _ _ _ Hds)).
    unfold num in *. simpl in Hfit. lia. }
  cbn [app length Nat.add uint_loop]. rewrite bool_decide_false by done. cbn [andb].
  rewrite Hy, bind_ret_l. rewrite (proj2 (Z.ltb_ge d 0)), (proj2 (Z.leb_gt base d)) by lia. cbn [orb].
  rewrite (wrapu_small w) by nia. rewrite Hq by done. cbn [fmap option_fmap option_map pred].
  rewrite IH by (done || nia). cbn [num foldl]. do 4 f_equal. lia.
Qed.
Lemma strn_to_uint_lim w overflow base cs ds r : 1 ≤ base ≤ 16 → quiet w base overflow →
  digits base cs ds → cs ≠ [] → (∀ x, head r = Some x → non_digit base x) → num base 0 ds < 2 ^ w →
  strn_to_uint w overflow (cs ++ r) (length cs + length r) base true = Ret (Some (num base 0 ds), r).
Proof.
  intros Hb Hq Hds Hne Hr Hfit. unfold strn_to_uint. do 2 decide_cmp.
  assert (length cs ≠ 0)%nat by (by destruct cs).
  rewrite !(decide_False (P := (length cs + length r = 0)%nat)) by lia.
  rewrite (uint_loop_lim _ _ _ cs ds) by (done || lia). rewrite !bind_ret_l.
  rewrite (proj2 (Z.eqb_neq (0 + Z.of_nat (length cs)) 0)), Z.eqb_refl by lia. rewrite decide_False by lia. done.
Qed.

(** A string of digits whose value fits is parsed to that value by the
    16, 32 and 64-bit parsers, which point [*afterp] at the first character
    that is no digit. *)
Theorem str_to_uint_complete base cs ds x t :
  1 ≤ base ≤ 16 → digits base cs ds → cs ≠ [] → non_digit base x →
  (num base 0 ds < 2 ^ 16 → str_to_uint16 (cs ++ x :: t) base true = Ret (Some (num base 0 ds), x :: t)) ∧
  (num base 0 ds < 2 ^ 32 → str_to_uint32 (cs ++ x :: t) base true = Ret (Some (num base 0 ds), x :: t)) ∧
  (num base 0 ds < 2 ^ 64 → str_to_uint64 (cs ++ x :: t) base true = Ret (Some (num base 0 ds), x :: t)).
Proof.
  intros Hb Hds Hne Hx.
  split_and!; intros Hfit; apply strn_to_uint_fits; try done; (apply quiet_div || apply quiet_lt); lia.
Qed.

Lemma str_to_uint_complete_witness :
  str_to_uint32 (chr <$> ["4"; "2"; "9"; "4"; "9"; "6"; "7"; "2"; "9"; "5"; ","; "0"]%char) 10 true
  = Ret (Some (2 ^ 32 - 1), chr <$> [","; "0"]%char).
Proof.
  refine (proj1 (proj2 (str_to_uint_complete 10
    (chr <$> ["4"; "2"; "9"; "4"; "9"; "6"; "7"; "2"; "9"; "5"]%char) [4; 2; 9; 4; 9; 6; 7; 2; 9; 5]
    (chr ",") [chr "0"] _ _ _ _)) _); [lia| |done| |].
  - repeat (constructor; [split; [reflexivity|lia]|]). constructor.
  - exists (-1). split; [reflexivity|lia].
  - reflexivity.
Defined.

Lemma uint16_loop base cs ds x t k v : 1 ≤ base ≤ 16 → digits base cs ds → non_digit base x →
  0 ≤ v < 2 ^ 16 →
  let overflow := λ value newvalue, negb (newvalue / base =? value) in
  if num base v ds <? 2 ^ 16 then
    uint_loop 16 overflow base None (cs ++ x :: t) k v v =
      Ret (k + Z.of_nat (length cs), x :: t, num base v ds, num base v ds)
  else ∃ k' y t' v' nv', uint_loop 16 overflow base None (cs ++ x :: t) k v v =
         Ret (k', y :: t', v', nv') ∧ y ≠ 0.
Proof.
  intros Hb Hds Hx Hv overflow.
  assert (quiet 16 base overflow) as Hq by (apply quiet_div; lia).
  destruct (Z.ltb_spec (num base v ds) (2 ^ 16)) as [Hlt|Hge].
  { apply uint_loop_fits; done || lia. }
  revert k v Hv Hge. induction Hds as [|y d cs ds [Hy Hd] Hds IH]; intros k v Hv Hge; [simpl in Hge; lia|].
  rewrite <- app_comm_cons, (uint_loop_digit _ _ _ y d) by done. cbv zeta.
  destruct (Z.ltb_spec (v * base + d) (2 ^ 16)).
  - rewrite wrapu_small by nia. rewrite Hq by (done || lia). apply IH; [nia|done].
  - assert (overflow v (u16 (v * base + d)) = true) as ->.
    { unfold overflow. apply negb_true_iff, Z.eqb_neq. intros E.
      assert (u16 (v * base + d) = v * base + d - 2 ^ 16 * ((v * base + d) / 2 ^ 16)) as Hm
        by (unfold wrapu; pose proof (Z.div_mod (v * base + d) (2 ^ 16)); lia).
      assert (1 ≤ (v * base + d) / 2 ^ 16) by (apply Z.div_le_lower_bound; lia).
      pose proof (Z.div_mod (u16 (v * base + d)) base ltac:(lia)).
      pose proof (Z.mod_pos_bound (u16 (v * base + d)) base ltac:(lia)). rewrite E in *. lia. }
    eexists _, _, _, _, _. split; [done|]. eapply hexvalue_nonzero; [done|lia].
Qed.

(** Without [afterp], [str_to_uint16] succeeds exactly on a non-empty string
    of digits that ends at its nul and whose value is below 2^16, with that
    value. *)
Theorem str_to_uint16_exact base cs ds x t :
  1 ≤ base ≤ 16 → digits base cs ds → non_digit base x →
  ∃ after, str_to_uint16 (cs ++ x :: t) base false =
    Ret (if bool_decide (cs ≠ []) && (x =? 0) && (num base 0 ds <? 2 ^ 16)
         then Some (num base 0 ds) else None, after).
Proof.
  intros Hb Hds Hx. unfold str_to_uint16, strn_to_uint16, strn_to_uint. do 2 decide_cmp.
  rewrite decide_True by done.
  pose proof (uint16_loop base cs ds x t 0 0 Hb Hds Hx ltac:(lia)) as Hl. cbv zeta in Hl.
  destruct (Z.ltb_spec (num base 0 ds) (2 ^ 16)).
  - rewrite Hl, bind_ret_l. rewrite decide_True by done. simpl. rewrite Z.eqb_refl. eexists. do 2 f_equal.
    destruct cs; simpl; [done|]. by destruct (x =? 0).
  - destruct Hl as (k' & y & t' & v' & nv' & -> & Hy). rewrite bind_ret_l. rewrite decide_True by done.
    simpl. decide_cmp. simpl. rewrite orb_true_r, andb_false_r. by eexists.
Qed.

Lemma str_to_uint16_exact_witness :
  ∃ after, str_to_uint16 (chr <$> ["6"; "5"; "5"; "3"; "6"; "000"]%char) 10 false = Ret (None, after).
Proof.
  refine (str_to_uint16_exact 10 (chr <$> ["6"; "5"; "5"; "3"; "6"]%char) [6; 5; 5; 3; 6] 0 [] _ _ _).
  - lia.
  - repeat (constructor; [split; [reflexivity|lia]|]). constructor.
  - apply non_digit_nul.
Defined.

(** The overflow test [newvalue < value] of the 32 and 64-bit parsers misses
    products that wrap to a larger value: ten billion is accepted as 1410065408,
    and thirty quintillion as a 64-bit number. The 16-bit parser detects every
    overflow, but when the wrapped product equals the value so far it reports
    success for the digits before it: 72817 gives 7281 with [*afterp] at the
    last digit. *)
Theorem str_to_uint_overflow_missed :
  str_to_uint32 (chr <$> ["1"; "0"; "0"; "0"; "0"; "0"; "0"; "0"; "0"; "0"; "0"; "000"]%char) 10 false
    = Ret (Some 1410065408, [0]) ∧
  str_to_uint64 (chr <$> ["3"; "0"; "0"; "0"; "0"; "0"; "0"; "0"; "0"; "0"; "0"; "0"; "0";
                          "0"; "0"; "0"; "0"; "0"; "0"; "0"; "000"]%char) 10 false
    = Ret (Some (30 * 10 ^ 18 - 2 ^ 64), [0]) ∧
  str_to_uint16 (chr <$> ["7"; "2"; "8"; "1"; "7"; "000"]%char) 10 true
    = Ret (Some 7281, [chr "7"; 0]).
Proof. vm_compute. auto. Qed.

End StrNum.
