(* ===== verification/StrBase64.v ===== *)
(** * Base64 (str.c)

    The encoders and decoders for the standard and the URL alphabet. *)

From S2P Require Import Prelude StrCtype.
From Stdlib Require Import Ascii.
Import Ctype.

Module StrBase64.

(** ** Operations *)

Definition alphabet : list ascii :=
  ["A";"B";"C";"D";"E";"F";"G";"H";"I";"J";"K";"L";"M";"N";"O";"P";
   "Q";"R";"S";"T";"U";"V";"W";"X";"Y";"Z";"a";"b";"c";"d";"e";"f";
   "g";"h";"i";"j";"k";"l";"m";"n";"o";"p";"q";"r";"s";"t";"u";"v";
   "w";"x";"y";"z";"0";"1";"2";"3";"4";"5";"6";"7";"8";"9"]%char.
Definition base64_symbols : list Z := chr <$> alphabet ++ ["+"; "/"; "="]%char.
Definition base64url_symbols : list Z := chr <$> alphabet ++ ["-"; "_"; "="]%char.

Definition symbol (symbols : list Z) (i : Z) : Z := default 0 (symbols !! Z.to_nat i).

(** One byte of the encoder's [switch (place)]: the symbols stored, [place] and [buf]. *)
Definition encode_byte (symbols : list Z) (place buf src : Z) : list Z * Z * Z :=
  if place =? 0 then
    ([symbol symbols (Z.shiftr src 2)], 1, Z.land (Z.shiftl src 4) 0x3f)
  else if place =? 1 then
    ([symbol symbols (Z.lor (Z.shiftr src 4) buf)], 2, Z.land (Z.shiftl src 2) 0x3f)
  else
    ([symbol symbols (Z.lor (Z.shiftr src 6) buf); symbol symbols (Z.land src 0x3f)], 0, buf).

(** [for (; cnt; --cnt, ++src)] over one buffer. *)
Fixpoint encode_buf (symbols : list Z) (place buf : Z) (src : list Z) : list Z * Z * Z :=
  match src with
  | [] => ([], place, buf)
  | b :: src =>
      let '(out, place, buf) := encode_byte symbols place buf b in
      let '(outs, place, buf) := encode_buf symbols place buf src in
      (out ++ outs, place, buf)
  end.

(** [for (iovc = 0; iovc != iovcnt; ++iovc)] over the buffers. *)
Fixpoint encode_bufs (symbols : list Z) (place buf : Z) (iov : list (list Z)) : list Z * Z * Z :=
  match iov with
  | [] => ([], place, buf)
  | src :: iov =>
      let '(out, place, buf) := encode_buf symbols place buf src in
      let '(outs, place, buf) := encode_bufs symbols place buf iov in
      (out ++ outs, place, buf)
  end.

(** The characters written at [dstBase64]; their number is the return value. *)
Definition _base64_encodev (symbols : list Z) (iov : list (list Z)) : list Z :=
  let '(out, place, buf) := encode_bufs symbols 0 0 iov in
  out ++ (if negb (place =? 0) then [symbol symbols buf] else [])
      ++ (if place =? 1 then [symbol symbols 64; symbol symbols 64]
          else if place =? 2 then [symbol symbols 64] else []).

Definition base64_encodev (iov : list (list Z)) : list Z := _base64_encodev base64_symbols iov.
Definition base64url_encodev (iov : list (list Z)) : list Z := _base64_encodev base64url_symbols iov.
Definition base64_encode (src : list Z) : list Z := _base64_encodev base64_symbols [src].
Definition base64url_encode (src : list Z) : list Z := _base64_encodev base64url_symbols [src].
Definition to_base64_str (src : list Z) : list Z := base64_encode src ++ [0].
Definition to_base64url_str (src : list Z) : list Z := base64url_encode src ++ [0].

Definition BASE64_ENCODED_LEN (n : Z) : Z := (n + 2) / 3 * 4.

(** The predicates a decoder is called with. *)
Record codec := Codec {
  isdigit_pred : Z → outcome bool;
  ispad_pred : Z → bool;
  todigit : Z → outcome Z;
}.
Definition base64_codec : codec := Codec is_base64_digit is_base64_pad base64_digit.
Definition base64url_codec : codec := Codec is_base64url_digit is_base64url_pad base64url_digit.

(** The decoder's local variables; [out] is what has been stored at [dstBinary]. *)
Record decoder := Decoder {
  dbuf : Z;
  ndigits : Z;
  npads : Z;
  nbytes : Z;
  first_pad : option (list Z);
  out : list Z;
}.

Definition set_pads (d : decoder) (n : Z) (fp : option (list Z)) : decoder :=
  Decoder (dbuf d) (ndigits d) n (nbytes d) fp (out d).

(** [switch (place)] for the digit [v]. *)
Definition decode_digit (d : decoder) (place v : Z) : decoder :=
  let store b buf := Decoder buf (ndigits d + 1) (npads d) (nbytes d + 1) (first_pad d) (out d ++ [b]) in
  if place =? 0 then Decoder (u8 (Z.shiftl v 2)) (ndigits d + 1) (npads d) (nbytes d) (first_pad d) (out d)
  else if place =? 1 then store (Z.lor (dbuf d) (Z.shiftr v 4)) (u8 (Z.shiftl v 4))
  else if place =? 2 then store (Z.lor (dbuf d) (Z.shiftr v 2)) (u8 (Z.shiftl v 6))
  else store (Z.lor (dbuf d) v) (dbuf d).
(** The [B64_CONSUME_ALL] case: count without storing. *)
Definition count_digit (d : decoder) (place : Z) : decoder :=
  Decoder (dbuf d) (ndigits d + 1) (npads d) (if place =? 0 then nbytes d else nbytes d + 1)
          (first_pad d) (out d).

(** The loop. [lim] is what is left of [srclen] characters, [None] for a
    [srclen] of 0. [dstsiz] is [None] when [dstBinary] is NULL. Returns [src]
    where the loop ends. *)
Fixpoint decode_loop (cd : codec) (dstsiz : option Z) (consume_all : bool) (skip : Z → bool)
    (lim : option nat) (src : list Z) (d : decoder) : outcome (list Z * decoder) :=
  match lim with
  | Some O => Ret (src, d)
  | _ =>
      match src with
      | [] => Undef
      | x :: t =>
          isd ← isdigit_pred cd x;
          let isp := ispad_pred cd x in
          let continue := decode_loop cd dstsiz consume_all skip (pred <$> lim) t in
          if negb isd && negb isp && skip x then continue d
          else
            assert! npads d <=? 2;
            if npads d =? 2 then Ret (src, d)
            else
              let place := Z.land (ndigits d) 3 in
              if npads d =? 1 then
                if place =? 3 then Ret (src, d)
                else
                  assert! place =? 2;
                  if isp then continue (set_pads d 2 (first_pad d))
                  else match first_pad d with Some p => Ret (p, d) | None => Aborted end
              else
                assert! npads d =? 0;
                if isp && (2 <=? place) then continue (set_pads d 1 (Some src))
                else if negb isd then Ret (src, d)
                else if match dstsiz with Some n => nbytes d <? n | None => false end then
                  v ← todigit cd x;
                  continue (decode_digit d place v)
                else if consume_all then continue (count_digit d place)
                else Ret (src, Decoder (dbuf d) (ndigits d + 1) (npads d) (nbytes d) (first_pad d) (out d))
      end
  end.

(** Returns the bytes stored, the return value and [*afterp] ([afterp] says
    whether it is wanted). *)
Definition _base64_decode (cd : codec) (dstsiz : option Z) (srcBase64 : list Z) (srclen : nat)
    (afterp : bool) (consume_all : bool) (skip : Z → bool) : outcome (list Z * Z * list Z) :=
  r ← decode_loop cd dstsiz consume_all skip (if decide (srclen = 0%nat) then None else Some srclen)
        srcBase64 (Decoder 0 0 0 0 None []);
  let '(src, d) := r in
  if afterp : bool then Ret (out d, nbytes d, src)
  else
    x ← char_at src 0;
    Ret (out d, if x =? 0 then nbytes d else 0, src).

Definition base64_decode := _base64_decode base64_codec.
Definition base64url_decode := _base64_decode base64url_codec.

(** ** Encoding *)

Lemma encode_buf_app symbols p buf l1 l2 :
  encode_buf symbols p buf (l1 ++ l2) =
    let '(o1, p1, b1) := encode_buf symbols p buf l1 in
    let '(o2, p2, b2) := encode_buf symbols p1 b1 l2 in (o1 ++ o2, p2, b2).
Proof.
  revert p buf. induction l1 as [|b l1 IH]; intros p buf; simpl.
  { by destruct (encode_buf symbols p buf l2) as [[? ?] ?]. }
  destruct (encode_byte symbols p buf b) as [[o p1] b1]. rewrite IH.
  destruct (encode_buf symbols p1 b1 l1) as [[o1 p2] b2].
  destruct (encode_buf symbols p2 b2 l2) as [[o2 p3] b3]. by rewrite app_assoc.
Qed.

Lemma encode_bufs_concat symbols p buf iov :
  encode_bufs symbols p buf iov = encode_buf symbols p buf (concat iov).
Proof.
  revert p buf. induction iov as [|l iov IH]; intros p buf; simpl; [done|].
  rewrite encode_buf_app. destruct (encode_buf symbols p buf l) as [[o p1] b1]. by rewrite IH.
Qed.

(** The encoding of a list of bytes, three at a time. *)
Lemma encodev_single symbols iov : _base64_encodev symbols iov = _base64_encodev symbols [concat iov].
Proof. unfold _base64_encodev. rewrite !encode_bufs_concat. simpl. by rewrite app_nil_r. Qed.

Lemma encode_nil symbols : _base64_encodev symbols [[]] = [].
Proof. done. Qed.

Lemma encode_one symbols a : _base64_encodev symbols [[a]] =
  [symbol symbols (Z.shiftr a 2); symbol symbols (Z.land (Z.shiftl a 4) 0x3f);
   symbol symbols 64; symbol symbols 64].
Proof. done. Qed.

Lemma encode_two symbols a b : _base64_encodev symbols [[a; b]] =
  [symbol symbols (Z.shiftr a 2); symbol symbols (Z.lor (Z.shiftr b 4) (Z.land (Z.shiftl a 4) 0x3f));
   symbol symbols (Z.land (Z.shiftl b 2) 0x3f); symbol symbols 64].
Proof. done. Qed.

(** [buf] is only read after it has been set. *)
Lemma encode_buf_start symbols buf buf' l :
  match encode_buf symbols 0 buf l, encode_buf symbols 0 buf' l with
  | (o, p, b), (o', p', b') => o = o' ∧ p = p' ∧ (p ≠ 0 → b = b')
  end.
Proof.
  revert l buf buf'. apply (list_ind3 (λ l, ∀ buf buf', _)); [done|done|done|].
  intros a b c l IH buf buf'. change (a :: b :: c :: l) with ([a; b; c] ++ l).
  rewrite !encode_buf_app. cbn [encode_buf encode_byte Z.eqb Pos.eqb app].
  specialize (IH (Z.land (Z.shiftl b 2) 63) (Z.land (Z.shiftl b 2) 63)).
  destruct (encode_buf symbols 0 (Z.land (Z.shiftl b 2) 63) l) as [[o p] bf]. done.
Qed.

Lemma encode_three symbols a b c l : _base64_encodev symbols [a :: b :: c :: l] =
  symbol symbols (Z.shiftr a 2) :: symbol symbols (Z.lor (Z.shiftr b 4) (Z.land (Z.shiftl a 4) 0x3f)) ::
  symbol symbols (Z.lor (Z.shiftr c 6) (Z.land (Z.shiftl b 2) 0x3f)) :: symbol symbols (Z.land c 0x3f) ::
  _base64_encodev symbols [l].
Proof.
  unfold _base64_encodev. rewrite !encode_bufs_concat. cbn [concat]. rewrite !app_nil_r.
  change (a :: b :: c :: l) with ([a; b; c] ++ l). rewrite encode_buf_app.
  cbn [encode_buf encode_byte Z.eqb Pos.eqb app].
  pose proof (encode_buf_start symbols (Z.land (Z.shiftl b 2) 63) 0 l) as Hs.
  destruct (encode_buf symbols 0 (Z.land (Z.shiftl b 2) 63) l) as [[o p] bf].
  destruct (encode_buf symbols 0 0 l) as [[o' p'] bf']. destruct Hs as (-> & -> & Hb).
  destruct (Z.eqb_spec p' 0) as [->|Hp]; [done|]. rewrite Hb by done. done.
Qed.

(** Gathering several buffers encodes their concatenation, and the number of
    characters is [BASE64_ENCODED_LEN] of the number of bytes. *)
Theorem base64_encodev_gather symbols iov :
  _base64_encodev symbols iov = _base64_encodev symbols [concat iov] ∧
  Z.of_nat (length (_base64_encodev symbols iov)) = BASE64_ENCODED_LEN (Z.of_nat (length (concat iov))).
Proof.
  rewrite encodev_single. split; [done|]. generalize (concat iov). clear iov.
  apply list_ind3; [done|done|done|]. intros a b c l IH. rewrite encode_three.
  cbn [length]. rewrite !Nat2Z.inj_succ, IH. unfold BASE64_ENCODED_LEN.
  replace (Z.succ (Z.succ (Z.succ (Z.of_nat (length l)))) + 2) with (Z.of_nat (length l) + 2 + 1 * 3) by lia.
  rewrite Z.div_add by lia. lia.
Qed.

(** ** Decoding *)

(** The codec reads the alphabet of [symbols]. *)
Record reads (cd : codec) (symbols : list Z) : Prop := {
  reads_digit v : 0 ≤ v < 64 → isdigit_pred cd (symbol symbols v) = Ret true;
  reads_no_pad v : 0 ≤ v < 64 → ispad_pred cd (symbol symbols v) = false;
  reads_value v : 0 ≤ v < 64 → todigit cd (symbol symbols v) = Ret v;
  reads_pad : isdigit_pred cd (symbol symbols 64) = Ret false ∧ ispad_pred cd (symbol symbols 64) = true;
  reads_nul : isdigit_pred cd 0 = Ret false ∧ ispad_pred cd 0 = false;
}.

Definition reads_check (cd : codec) (symbols : list Z) (v : Z) : bool :=
  match isdigit_pred cd (symbol symbols v) with Ret true => true | _ => false end
  && negb (ispad_pred cd (symbol symbols v)) && ret_eqb (todigit cd (symbol symbols v)) v.

Lemma reads_by_check cd symbols : forallb (reads_check cd symbols) (seqZ 0 64) = true →
  isdigit_pred cd (symbol symbols 64) = Ret false ∧ ispad_pred cd (symbol symbols 64) = true →
  isdigit_pred cd 0 = Ret false ∧ ispad_pred cd 0 = false → reads cd symbols.
Proof.
  intros Hf Hp Hn. pose proof (forall_range _ _ Hf) as H. unfold reads_check in H.
  split; [| | |done|done]; intros v Hv; specialize (H v Hv); bool_props.
  - by destruct (isdigit_pred cd (symbol symbols v)) as [[]| |].
  - done.
  - by apply ret_eqb_true.
Qed.

Lemma base64_reads : reads base64_codec base64_symbols.
Proof. apply reads_by_check; vm_compute; auto. Qed.
Lemma base64url_reads : reads base64url_codec base64url_symbols.
Proof. apply reads_by_check; vm_compute; auto. Qed.

(** The sextets of three bytes, and the bytes they make again. *)
Lemma sextets a b c : is_byte a → is_byte b → is_byte c →
  let s1 := Z.shiftr a 2 in
  let s2 := Z.lor (Z.shiftr b 4) (Z.land (Z.shiftl a 4) 0x3f) in
  let s3 := Z.lor (Z.shiftr c 6) (Z.land (Z.shiftl b 2) 0x3f) in
  let s4 := Z.land c 0x3f in
  0 ≤ s1 < 64 ∧ 0 ≤ s2 < 64 ∧ 0 ≤ s3 < 64 ∧ 0 ≤ s4 < 64 ∧
  Z.lor (u8 (Z.shiftl s1 2)) (Z.shiftr s2 4) = a ∧
  Z.lor (u8 (Z.shiftl s2 4)) (Z.shiftr s3 2) = b ∧
  Z.lor (u8 (Z.shiftl s3 6)) s4 = c.
Proof.
  unfold is_byte. intros Ha Hb Hc. cbv zeta. unfold wrapu. change 0x3f with (Z.ones 6).
  rewrite !Z.land_ones, !Z.shiftr_div_pow2, !Z.shiftl_mul_pow2 by lia.
  change (2 ^ 2) with 4. change (2 ^ 4) with 16. change (2 ^ 6) with 64. change (2 ^ 8) with 256.
  assert (0 ≤ a / 4 < 64 ∧ 0 ≤ a mod 4 < 4) by div_lia.
  assert (0 ≤ b / 16 < 16 ∧ 0 ≤ b mod 16 < 16) by div_lia.
  assert (0 ≤ c / 64 < 4 ∧ 0 ≤ c mod 64 < 64) by div_lia.
  assert ((a * 16) mod 64 = a mod 4 * 2 ^ 4) as -> by (change (2 ^ 4) with 16; div_lia).
  assert ((b * 4) mod 64 = b mod 16 * 2 ^ 2) as -> by (change (2 ^ 2) with 4; div_lia).
  rewrite (lor_low (b / 16)), (lor_low (c / 64)) by lia.
  assert ((a / 4 * 4) mod 256 = a / 4 * 2 ^ 2) as -> by (change (2 ^ 2) with 4; div_lia).
  assert (((b / 16 + a mod 4 * 2 ^ 4) * 16) mod 256 = b / 16 * 2 ^ 4) as ->
    by (change (2 ^ 4) with 16; div_lia).
  assert (((c / 64 + b mod 16 * 2 ^ 2) * 64) mod 256 = c / 64 * 2 ^ 6) as ->
    by (change (2 ^ 2) with 4; change (2 ^ 6) with 64; div_lia).
  assert ((b / 16 + a mod 4 * 2 ^ 4) / 16 = a mod 4) as -> by (change (2 ^ 4) with 16; div_lia).
  assert ((c / 64 + b mod 16 * 2 ^ 2) / 4 = b mod 16) as -> by (change (2 ^ 2) with 4; div_lia).
  rewrite (lor_high (a / 4)), (lor_high (b / 16)), (lor_high (c / 64)) by lia.
  change (2 ^ 2) with 4. change (2 ^ 4) with 16. change (2 ^ 6) with 64. div_lia.
Qed.

(** The limit of a source of [n] characters, or of a nul-terminated one. *)
Definition bound (sized : bool) (n : nat) : option nat := if sized then Some n else None.

Lemma land_3 q r : 0 ≤ r < 4 → Z.land (4 * q + r) 3 = r.
Proof.
  intros. change 3 with (Z.ones 2). rewrite Z.land_ones by lia. change (2 ^ 2) with 4.
  rewrite Z.add_comm, Z.mul_comm, Z.mod_add by lia. apply Z.mod_small. lia.
Qed.

Section Decoding.
Context (cd : codec) (symbols : list Z) (Hcd : reads cd symbols).
Context (dst : Z) (consume_all : bool) (skip : Z → bool) (sized : bool).

Abbreviation loop m := (decode_loop cd (Some dst) consume_all skip (bound sized m)).

Lemma loop_digit m v t buf q r nb fp o : 0 ≤ v < 64 → 0 ≤ r < 4 → nb < dst →
  loop (S m) (symbol symbols v :: t) (Decoder buf (4 * q + r) 0 nb fp o) =
  loop m t (decode_digit (Decoder buf (4 * q + r) 0 nb fp o) r v).
Proof.
  intros Hv Hr Hnb. unfold bound. destruct sized; cbn [decode_loop];
    rewrite (reads_digit _ _ Hcd), bind_ret_l, (reads_no_pad _ _ Hcd) by done;
    cbn [negb andb npads ndigits nbytes Z.eqb Z.leb Z.compare]; rewrite land_3, (proj2 (Z.ltb_lt nb dst)) by done;
    by rewrite (reads_value _ _ Hcd), bind_ret_l by done.
Qed.

(** A pad after two or three digits of a group, then a second after two. *)
Lemma loop_pad m t buf q r nb fp o : 2 ≤ r < 4 →
  loop (S m) (symbol symbols 64 :: t) (Decoder buf (4 * q + r) 0 nb fp o) =
  loop m t (Decoder buf (4 * q + r) 1 nb (Some (symbol symbols 64 :: t)) o).
Proof.
  intros Hr. destruct (reads_pad _ _ Hcd) as [H1 H2].
  unfold bound. destruct sized; cbn [decode_loop]; rewrite H1, H2, bind_ret_l;
    cbn [negb andb npads ndigits nbytes Z.eqb Z.leb Z.compare]; rewrite land_3 by lia;
    by rewrite (proj2 (Z.leb_le 2 r)) by lia.
Qed.
Lemma loop_pad_pad m t buf q nb fp o :
  loop (S m) (symbol symbols 64 :: t) (Decoder buf (4 * q + 2) 1 nb fp o) =
  loop m t (Decoder buf (4 * q + 2) 2 nb fp o).
Proof.
  destruct (reads_pad _ _ Hcd) as [H1 H2].
  unfold bound. destruct sized; cbn [decode_loop]; rewrite H1, H2, bind_ret_l;
    cbn [negb andb npads ndigits nbytes Z.eqb Z.leb Z.compare]; by rewrite land_3 by lia.
Qed.

(** The source ends: by its length, or at a nul. *)
Definition at_end (rest : list Z) : Prop := sized = true ∨ ∃ t, rest = 0 :: t ∧ skip 0 = false.

Lemma loop_end rest buf q r pads nb fp o : at_end rest →
  (r = 0 ∧ pads = 0 ∨ r = 2 ∧ pads = 2 ∨ r = 3 ∧ pads = 1) →
  loop 0 rest (Decoder buf (4 * q + r) pads nb fp o) = Ret (rest, Decoder buf (4 * q + r) pads nb fp o).
Proof.
  intros Hend Hp. unfold bound, at_end in *. destruct sized; [by destruct rest|].
  destruct Hend as [?|(t & -> & Hs)]; [done|]. destruct (reads_nul _ _ Hcd) as [H1 H2].
  cbn [decode_loop]. rewrite H1, H2, bind_ret_l, Hs. cbn [negb andb npads ndigits].
  destruct Hp as [[-> ->]|[[-> ->]|[-> ->]]]; by rewrite land_3 by lia.
Qed.

Lemma decode_encode bs : Forall is_byte bs → ∀ rest buf q nb fp o, at_end rest →
  nb + Z.of_nat (length bs) ≤ dst →
  ∃ d, loop (length (_base64_encodev symbols [bs])) (_base64_encodev symbols [bs] ++ rest)
         (Decoder buf (4 * q) 0 nb fp o) = Ret (rest, d) ∧
       out d = o ++ bs ∧ nbytes d = nb + Z.of_nat (length bs).
Proof.
  revert bs. apply (list_ind3 (λ bs, Forall is_byte bs → ∀ rest buf q nb fp o, _ → _ → _)).
  - intros _ rest buf q nb fp o Hend Hn. rewrite encode_nil, <- (Z.add_0_r (4 * q)). simpl app.
    rewrite loop_end by auto. eexists. split; [done|]. simpl. rewrite app_nil_r. split; [done|lia].
  - intros a [Ha _]%Forall_cons rest buf q nb fp o Hend Hn. cbn [length] in Hn.
    destruct (sextets a 0 0 Ha) as (H1 & H2 & _ & _ & Ea & _); [unfold is_byte; lia..|].
    rewrite Z.lor_0_l in H2, Ea.
    rewrite encode_one, <- (Z.add_0_r (4 * q)). cbn [length app].
    rewrite loop_digit by lia. cbn [decode_digit Z.eqb ndigits npads nbytes first_pad out dbuf].
    rewrite Z.add_0_r, loop_digit by lia. cbn [decode_digit Z.eqb Pos.eqb ndigits npads nbytes first_pad out dbuf].
    replace (4 * q + 1 + 1) with (4 * q + 2) by lia.
    rewrite loop_pad, loop_pad_pad, loop_end by (lia || auto). eexists. split; [done|]. simpl.
    rewrite Ea. split; [done|lia].
  - intros a b [Ha [Hb _]%Forall_cons]%Forall_cons rest buf q nb fp o Hend Hn. cbn [length] in Hn.
    destruct (sextets a b 0 Ha Hb) as (H1 & H2 & H3 & _ & Ea & Eb & _); [unfold is_byte; lia..|].
    rewrite Z.lor_0_l in H3, Eb.
    rewrite encode_two, <- (Z.add_0_r (4 * q)). cbn [length app].
    rewrite loop_digit by lia. cbn [decode_digit Z.eqb ndigits npads nbytes first_pad out dbuf].
    rewrite Z.add_0_r, loop_digit by lia. cbn [decode_digit Z.eqb Pos.eqb ndigits npads nbytes first_pad out dbuf].
    replace (4 * q + 1 + 1) with (4 * q + 2) by lia.
    rewrite loop_digit by lia. cbn [decode_digit Z.eqb Pos.eqb ndigits npads nbytes first_pad out dbuf].
    replace (4 * q + 2 + 1) with (4 * q + 3) by lia.
    rewrite loop_pad, loop_end by (lia || auto). eexists. split; [done|]. simpl.
    rewrite Ea, Eb, <- app_assoc. split; [done|lia].
  - intros a b c l IH [Ha [Hb [Hc Hl]%Forall_cons]%Forall_cons]%Forall_cons rest buf q nb fp o Hend Hn.
    cbn [length] in Hn.
    destruct (sextets a b c Ha Hb Hc) as (H1 & H2 & H3 & H4 & Ea & Eb & Ec).
    rewrite encode_three, <- (Z.add_0_r (4 * q)). cbn [length app].
    rewrite loop_digit by lia. cbn [decode_digit Z.eqb ndigits npads nbytes first_pad out dbuf].
    rewrite Z.add_0_r, loop_digit by lia. cbn [decode_digit Z.eqb Pos.eqb ndigits npads nbytes first_pad out dbuf].
    replace (4 * q + 1 + 1) with (4 * q + 2) by lia.
    rewrite loop_digit by lia. cbn [decode_digit Z.eqb Pos.eqb ndigits npads nbytes first_pad out dbuf].
    replace (4 * q + 2 + 1) with (4 * q + 3) by lia.
    rewrite loop_digit by lia. cbn [decode_digit Z.eqb Pos.eqb ndigits npads nbytes first_pad out dbuf].
    replace (4 * q + 3 + 1) with (4 * (q + 1)) by lia.
    edestruct IH as (d & -> & Ho & Hnb); [done|exact Hend| |]; [|exists d; split; [done|]].
    + lia.
    + rewrite Ho, Hnb, Ea, Eb, Ec, <- !app_assoc. simpl. split; [done|lia].
Qed.

End Decoding.

Lemma decode_str cd symbols dst consume_all skip bs : reads cd symbols → Forall is_byte bs →
  Z.of_nat (length bs) ≤ dst → skip 0 = false →
  _base64_decode cd (Some dst) (_base64_encodev symbols [bs] ++ [0]) 0 false consume_all skip
  = Ret (bs, Z.of_nat (length bs), [0]).
Proof.
  intros Hcd Hb Hn Hs. unfold _base64_decode. rewrite decide_True by done.
  destruct (decode_encode cd symbols Hcd dst consume_all skip false bs Hb [0] 0 0 0 None [])
    as (d & Hd & Ho & Hnb); [right; by exists []|lia|].
  change (4 * 0) with 0 in Hd. unfold bound in Hd. rewrite Hd, bind_ret_l, char_at_0, bind_ret_l.
  by rewrite Ho, Hnb.
Qed.

Lemma decode_sized cd symbols dst consume_all skip bs rest : reads cd symbols → Forall is_byte bs →
  Z.of_nat (length bs) ≤ dst → bs ≠ [] →
  _base64_decode cd (Some dst) (_base64_encodev symbols [bs] ++ rest)
    (length (_base64_encodev symbols [bs])) true consume_all skip
  = Ret (bs, Z.of_nat (length bs), rest).
Proof.
  intros Hcd Hb Hn Hne. unfold _base64_decode. rewrite decide_False.
  2: { destruct bs as [|a [|b [|c l]]]; [done|..]; by rewrite ?encode_one, ?encode_two, ?encode_three. }
  destruct (decode_encode cd symbols Hcd dst consume_all skip true bs Hb rest 0 0 0 None [])
    as (d & Hd & Ho & Hnb); [by left|lia|].
  change (4 * 0) with 0 in Hd. unfold bound in Hd. rewrite Hd, bind_ret_l. by rewrite Ho, Hnb.
Qed.

(** C23: decoding inverts encoding in both alphabets, for a nul-terminated string
    and for a given length followed by anything, when the destination is large
    enough. *)
Theorem base64_roundtrip bs rest dst consume_all skip :
  Forall is_byte bs → Z.of_nat (length bs) ≤ dst → skip 0 = false →
  base64_decode (Some dst) (to_base64_str bs) 0 false consume_all skip
    = Ret (bs, Z.of_nat (length bs), [0]) ∧
  base64url_decode (Some dst) (to_base64url_str bs) 0 false consume_all skip
    = Ret (bs, Z.of_nat (length bs), [0]) ∧
  (bs ≠ [] → 
   base64_decode (Some dst) (base64_encode bs ++ rest) (length (base64_encode bs)) true consume_all skip
     = Ret (bs, Z.of_nat (length bs), rest) ∧
   base64url_decode (Some dst) (base64url_encode bs ++ rest) (length (base64url_encode bs)) true consume_all skip
     = Ret (bs, Z.of_nat (length bs), rest)).
Proof.
  intros Hb Hn Hs. split_and!; [| |intros Hne; split].
  - by apply decode_str; [apply base64_reads|..].
  - by apply decode_str; [apply base64url_reads|..].
  - by apply decode_sized; [apply base64_reads|..].
  - by apply decode_sized; [apply base64url_reads|..].
Qed.

Lemma base64_roundtrip_witness :
  to_base64url_str [0xFB; 0xFF; 0x10; 7] = chr <$> ["-"; "_"; "8"; "Q"; "B"; "w"; "="; "="; "000"]%char ∧
  base64url_decode (Some 4) (to_base64url_str [0xFB; 0xFF; 0x10; 7]) 0 false false (λ _, false)
  = Ret ([0xFB; 0xFF; 0x10; 7], 4, [0]).
Proof.
  split; [reflexivity|].
  apply (base64_roundtrip [0xFB; 0xFF; 0x10; 7] [] 4 false (λ _, false));
    [repeat constructor; unfold is_byte; lia|simpl; lia|reflexivity].
Defined.

(** When [afterp] is NULL the decoder looks at the character after the
    source to see that it is a nul, also when the source has a length: it reads
    past a source of the given length that is not followed by anything. *)
Theorem base64_decode_overread :
  base64_decode (Some 3) (base64_encode [1; 2; 3]) 4 false false (λ _, false) = Undef ∧
  base64_decode (Some 3) (base64_encode [1; 2; 3]) 4 true false (λ _, false) = Ret ([1; 2; 3], 3, []).
Proof. vm_compute. auto. Qed.

End StrBase64.
