(* ===== verification/StrUri.v ===== *)
(** * URI encoding and decoding (str.c)

    Percent-encoding of bytes, its www-form variant and the decoders. *)

From S2P Require Import Prelude StrCtype StrNum.
From Stdlib Require Import Ascii.
Import Ctype StrNum.

Module StrUri.

(** ** Operations *)

(** [dstsiz == -1 || dst < dstend] after [n] characters. *)
Definition room (dstsiz n : Z) : bool := (dstsiz =? -1) || (n <? dstsiz).

(** The characters for one byte, and whether they are produced. *)
Definition encode_char (www_form : bool) (dstsiz n x : Z) : outcome (option (list Z)) :=
  if www_form && (x =? chr " ") then Ret (Some [chr "+"])
  else
    u ← is_uri_char_unreserved x;
    if (u : bool) then Ret (Some [x])
    else if n + 3 <=? dstsiz then
      Ret (Some [chr "%"; hexdigit (Z.land x 0xf); hexdigit (Z.shiftr x 4)])
    else Ret None.

(** The loop over the bytes of the first buffer: the characters produced from
    here on and the bytes left in the buffer. *)
Fixpoint encode_buf (www_form : bool) (dstsiz n : Z) (src : list Z) : outcome (list Z * list Z) :=
  match src with
  | [] => Ret ([], [])
  | x :: t =>
      if room dstsiz n then
        e ← encode_char www_form dstsiz n x;
        match e with
        | Some cs =>
            r ← encode_buf www_form dstsiz (n + Z.of_nat (length cs)) t;
            Ret (cs ++ r.1, r.2)
        | None => Ret ([], src)
        end
      else Ret ([], src)
  end.

(** The characters produced and the buffers left ([*iovp], [*iovcntp]); an empty
    buffer is passed over while there is room. *)
Fixpoint _uri_encodev (www_form : bool) (dstsiz n : Z) (iov : list (list Z)) :
    outcome (list Z * list (list Z)) :=
  match iov with
  | [] => Ret ([], [])
  | src :: iov' =>
      r ← encode_buf www_form dstsiz n src;
      let n := n + Z.of_nat (length r.1) in
      match r.2 with
      | [] =>
          if room dstsiz n then
            rs ← _uri_encodev www_form dstsiz n iov';
            Ret (r.1 ++ rs.1, rs.2)
          else Ret (r.1, [] :: iov')
      | rest => Ret (r.1, rest :: iov')
      end
  end.

(** The characters produced and what [*afterp] points to. *)
Definition _uri_encode (www_form : bool) (dstsiz : Z) (src : list Z) : outcome (list Z * list Z) :=
  r ← _uri_encodev www_form dstsiz 0 [src];
  Ret (r.1, concat r.2).

Definition uri_encode := _uri_encode false.
Definition www_form_uri_encode := _uri_encode true.
Definition uri_encodev (dstsiz : Z) := _uri_encodev false dstsiz 0.
Definition www_form_uri_encodev (dstsiz : Z) := _uri_encodev true dstsiz 0.

(** [src] is the [srclen] characters at [srcUrienc]; [n] bytes have been
    produced. Returns the bytes produced from here on and the characters left. *)
Fixpoint uri_decode_loop (www_form : bool) (dstsiz n : Z) (src : list Z) : outcome (list Z * list Z) :=
  match src with
  | [] => Ret ([], [])
  | x :: t =>
      if room dstsiz n then
        if www_form && (x =? chr "+") then
          r ← uri_decode_loop www_form dstsiz (n + 1) t;
          Ret (chr " " :: r.1, r.2)
        else
          let plain := r ← uri_decode_loop www_form dstsiz (n + 1) t; Ret (x :: r.1, r.2) in
          match t with
          | h :: l :: t' =>
              if (x =? chr "%") && isxdigit h && isxdigit l then
                high ← hexvalue h;
                low ← hexvalue l;
                r ← uri_decode_loop www_form dstsiz (n + 1) t';
                Ret (u8 (Z.shiftl high 4 + low) :: r.1, r.2)
              else plain
          | _ => plain
          end
      else Ret ([], src)
  end.
Definition _uri_decode (www_form : bool) (dstsiz : Z) (src : list Z) := uri_decode_loop www_form dstsiz 0 src.
Definition uri_decode := _uri_decode false.
Definition www_form_uri_decode := _uri_decode true.

(** ** Encoding a prefix *)

(** What one byte is encoded as when there is room for it. *)
Definition unreserved (x : Z) : bool := isalnum x || one_of "-._~" x.
Definition encoded (www_form : bool) (x : Z) : list Z :=
  if www_form && (x =? chr " ") then [chr "+"]
  else if unreserved x then [x]
  else [chr "%"; hexdigit (Z.land x 0xf); hexdigit (Z.shiftr x 4)].
(** Bytes the tables cover. *)
Definition covered (x : Z) : Prop := 0 ≤ x < 255.

Lemma unreserved_spec x : covered x → is_uri_char_unreserved x = Ret (unreserved x).
Proof.
  intros Hx. pose proof (classes_checked x Hx) as Hc. unfold classes_check in Hc. bool_props.
  by apply bool_eqb_true.
Qed.

Lemma encode_char_spec www dstsiz n x : covered x →
  encode_char www dstsiz n x =
    Ret (if www && (x =? chr " ") || unreserved x || (n + 3 <=? dstsiz)
         then Some (encoded www x) else None).
Proof.
  intros Hx. unfold encode_char, encoded. destruct (www && (x =? chr " ")); [done|].
  rewrite unreserved_spec, bind_ret_l by done. destruct (unreserved x); [done|]. simpl.
  by destruct (n + 3 <=? dstsiz).
Qed.

Lemma encoded_length www x : length (encoded www x) = 1%nat ∨ length (encoded www x) = 3%nat.
Proof. unfold encoded. repeat case_if; auto. Qed.

(** How far a buffer of [dstsiz] characters gets: the encoding of a prefix. *)
Lemma encode_buf_prefix www dstsiz n src : Forall covered src → 0 ≤ n →
  ∃ done rest, encode_buf www dstsiz n src = Ret (concat (encoded www <$> done), rest) ∧
    src = done ++ rest ∧
    (dstsiz ≠ -1 → n ≤ dstsiz → n + Z.of_nat (length (concat (encoded www <$> done))) ≤ dstsiz) ∧
    (0 ≤ dstsiz → rest ≠ [] → dstsiz < n + Z.of_nat (length (concat (encoded www <$> done))) + 3).
Proof.
  intros Hc. revert n. induction Hc as [|x t Hx _ IH]; intros n Hn; cbn [encode_buf].
  { exists [], []. simpl. split_and!; [done|done|lia|done]. }
  destruct (room dstsiz n) eqn:Hroom.
  2: { exists [], (x :: t). simpl. unfold room in Hroom. bool_props. split_and!; [done|done|lia|lia]. }
  rewrite encode_char_spec, bind_ret_l by done.
  destruct (www && (x =? chr " ") || unreserved x || (n + 3 <=? dstsiz)) eqn:Hfit.
  2: { exists [], (x :: t). simpl. bool_props. split_and!; [done|done|lia|lia]. }
  destruct (IH (n + Z.of_nat (length (encoded www x))) ltac:(lia)) as (dn & rest & -> & -> & Hle & Hgt).
  exists (x :: dn), rest. rewrite bind_ret_l. cbn [fmap list_fmap concat fst snd].
  rewrite length_app. split_and!; [done|done| |intros Hd Hr; specialize (Hgt Hd Hr); lia].
  intros Hd Hnd. cut (n + Z.of_nat (length (encoded www x)) ≤ dstsiz); [lia|].
  unfold encoded. unfold room in Hroom. apply orb_true_iff in Hroom.
  destruct Hroom as [?|?]; bool_props; [lia|].
  destruct (www && (x =? chr " ")); [simpl; lia|]. destruct (unreserved x); [simpl; lia|].
  cbn [orb] in Hfit. bool_props. simpl. lia.
Qed.

(** The encoders produce the encoding of a prefix of the bytes (never part
    of an escape), within [dstsiz] characters, leave the rest of the bytes to
    the caller, and stop early only when fewer than three characters are free. *)
Theorem uri_encode_prefix www dstsiz src : Forall covered src → 0 ≤ dstsiz →
  ∃ done rest, _uri_encode www dstsiz src = Ret (concat (encoded www <$> done), rest) ∧
    src = done ++ rest ∧ Z.of_nat (length (concat (encoded www <$> done))) ≤ dstsiz ∧
    (rest ≠ [] → dstsiz < Z.of_nat (length (concat (encoded www <$> done))) + 3).
Proof.
  intros Hc Hd. destruct (encode_buf_prefix www dstsiz 0 src Hc ltac:(lia))
    as (dn & rest & He & Hsrc & Hle & Hgt).
  exists dn, rest. unfold _uri_encode. cbn [_uri_encodev]. rewrite He, bind_ret_l. cbn [fst snd].
  split_and!; [|done|lia|].
  - destruct rest as [|y rest].
    + case_if; rewrite ?bind_ret_l; cbn [fst snd]; by rewrite ?app_nil_r.
    + rewrite bind_ret_l. cbn [fst snd concat]. by rewrite app_nil_r.
  - intros Hr. specialize (Hgt Hd Hr). lia.
Qed.

Lemma uri_encode_prefix_witness :
  uri_encode 4 [97; 32; 98] = Ret (chr <$> ["a"; "%"; "0"; "2"]%char, [98]) ∧
  ∃ done rest, _uri_encode false 4 [97; 32; 98] = Ret (concat (encoded false <$> done), rest) ∧
    [97; 32; 98] = done ++ rest.
Proof.
  split; [reflexivity|].
  destruct (uri_encode_prefix false 4 [97; 32; 98]) as (dn & rest & H1 & H2 & _);
    [repeat constructor; unfold covered; lia|lia|]. by exists dn, rest.
Defined.

(** ** Decoding what was encoded *)

(** The byte an encoded byte is decoded to: the encoder writes the low digit of
    an escape first. *)
Definition decoded (www_form : bool) (x : Z) : Z :=
  if www_form && (x =? chr " ") || unreserved x then x
  else Z.shiftl (Z.land x 0xf) 4 + Z.shiftr x 4.

Lemma isxdigit_hexdigit x : 0 ≤ x < 16 → isxdigit (hexdigit x) = true.
Proof. exact (forall_range (λ x, isxdigit (hexdigit x)) 16 eq_refl x). Qed.

Lemma unreserved_plain x : unreserved x = true → x ≠ chr "%" ∧ x ≠ chr "+".
Proof. intros H. split; intros ->; revert H; vm_compute; done. Qed.

Lemma decode_encoded www dstsiz n x rest : is_byte x → room dstsiz n = true →
  uri_decode_loop www dstsiz n (encoded www x ++ rest) =
    (r ← uri_decode_loop www dstsiz (n + 1) rest; Ret (decoded www x :: r.1, r.2)).
Proof.
  intros Hx Hroom. unfold encoded, decoded. destruct (www && (x =? chr " ")) eqn:Hw.
  { bool_props. subst x. cbn [app uri_decode_loop orb]. rewrite Hroom. by subst www. }
  destruct (unreserved x) eqn:Hu; cbn [orb app uri_decode_loop]; rewrite Hroom.
  - destruct (unreserved_plain x Hu) as [H1 H2]. apply Z.eqb_neq in H1, H2.
    rewrite H2, andb_false_r. destruct rest as [|h [|l t']]; [done|done|]. by rewrite H1.
  - destruct (nibbles x Hx) as (Hh & Hl & _).
    assert (www && (chr "%" =? chr "+") = false) as -> by (by destruct www).
    rewrite !isxdigit_hexdigit by done. cbn [andb].
    rewrite !hexvalue_hexdigit, !bind_ret_l by done. rewrite wrapu_small; [done|].
    rewrite Z.shiftl_mul_pow2 by lia. change (2 ^ 4) with 16. change (2 ^ 8) with 256. lia.
Qed.

Lemma decode_all www dstsiz n bs : Forall is_byte bs → 0 ≤ n →
  dstsiz = -1 ∨ n + Z.of_nat (length bs) ≤ dstsiz →
  uri_decode_loop www dstsiz n (concat (encoded www <$> bs)) = Ret (decoded www <$> bs, []).
Proof.
  intros Hb. revert n. induction Hb as [|x bs Hx _ IH]; intros n Hn Hd; [done|].
  cbn [fmap list_fmap concat length] in *.
  assert (room dstsiz n = true) as Hroom.
  { unfold room. destruct Hd as [->|Hd]; [done|]. rewrite (proj2 (Z.ltb_lt n dstsiz)) by lia.
    apply orb_true_r. }
  rewrite decode_encoded by done. unfold fmap in IH. rewrite IH; [done|lia|lia].
Qed.

(** Decoding the encoding of bytes gives back every byte that is not
    escaped, and gives the escaped ones with their two halves exchanged: the
    encoder writes the digits of an escape in the wrong order. *)
Theorem uri_encode_decode www src dstsiz out : Forall covered src →
  _uri_encode www dstsiz src = Ret (out, []) → 0 ≤ dstsiz →
  _uri_decode www (-1) out = Ret (decoded www <$> src, []).
Proof.
  intros Hc He Hd. destruct (encode_buf_prefix www dstsiz 0 src Hc ltac:(lia))
    as (dn & rest & Hb & Hsrc & _).
  unfold _uri_encode in He. cbn [_uri_encodev] in He. rewrite Hb, bind_ret_l in He.
  cbn [fst snd] in He. destruct rest as [|y rest].
  - assert (out = concat (encoded www <$> dn)) as ->.
    { revert He. case_if; rewrite ?bind_ret_l; cbn [fst snd]; by rewrite ?app_nil_r; intros [= ->]. }
    rewrite app_nil_r in Hsrc. subst dn. apply decode_all; [|lia|by left].
    apply (Forall_impl _ _ _ Hc). unfold covered, is_byte. lia.
  - rewrite bind_ret_l in He. cbn [fst snd concat] in He. by injection He.
Qed.

Lemma uri_encode_decode_witness :
  _uri_decode false (-1) (chr <$> ["a"; "%"; "0"; "2"; "%"; "F"; "2"]%char) = Ret (decoded false <$> [97; 32; 47], []) ∧
  decoded false <$> [97; 32; 47] = [97; 2; 242].
Proof.
  split; [|reflexivity].
  apply (uri_encode_decode false [97; 32; 47] 9); [repeat constructor; unfold covered; lia|reflexivity|lia].
Defined.

(** With a [dstsiz] of -1, which the interface documents for counting, the
    encoder stops at the first byte that needs an escape. *)
Theorem uri_encode_count_stops : uri_encode (-1) [97; 32; 98] = Ret ([97], [32; 98]).
Proof. reflexivity. Qed.

End StrUri.
