(* ===== verification/Strbuf.v ===== *)
(** * String buffers (strbuf.c, strbuf.h)

    A strbuf appends to a fixed array without overrunning it and counts what it
    was given. The pointers of a strbuf are offsets from its start; the array is
    the list of its bytes, passed along and updated. *)

From S2P Require Import Prelude Mem StrCtype StrNum.
Import StrNum.

Module Strbuf.

(** ** State and operations *)

(** strbuf.h: struct strbuf. [null] says that [start] is NULL, so that [end_] and
    [current] are plain addresses; an [end_] of [None] is a NULL pointer. *)
Record strbuf := Sb { null : bool; end_ : option Z; current : Z }.

Definition set_current (sb : strbuf) (c : Z) : strbuf := Sb (null sb) (end_ sb) c.

(** Stores [bs] at the given offset of the array. *)
Definition put (cells : list Z) (o : Z) (bs : list Z) : outcome (list Z) :=
  defined! (0 <=? o) && (o + Z.of_nat (length bs) <=? Z.of_nat (length cells));
  Ret (take (Z.to_nat o) cells ++ bs ++ drop (Z.to_nat o + length bs) cells).

(** [!sb->end || sb->current < sb->end] *)
Definition has_room (sb : strbuf) : bool :=
  match end_ sb with None => true | Some e => current sb <? e end.

Definition strbuf_reset (cells : list Z) (sb : strbuf) : outcome (list Z * strbuf) :=
  let sb := set_current sb 0 in
  if negb (null sb) && match end_ sb with None => true | Some e => current sb <=? e end
  then cells ← put cells (current sb) [0]; Ret (cells, sb)
  else Ret (cells, sb).

Definition strbuf_init `{Arch} (cells : list Z) (is_null : bool) (size : Z) : outcome (list Z * strbuf) :=
  let e := if 0 <=? size then
             if is_null then (if size =? 1 then None else Some (wrapu size_bits (size - 1)))
             else Some (size - 1)
           else None in
  strbuf_reset cells (Sb is_null e 0).

(** The characters of a nul-terminated array before its nul, at most [n]; reading
    past the array is undefined. *)
Fixpoint c_prefix (n : nat) (text : list Z) : outcome (list Z) :=
  match n with
  | O => Ret []
  | S n =>
      match text with
      | [] => Undef
      | x :: text => if x =? 0 then Ret [] else r ← c_prefix n text; Ret (x :: r)
      end
  end.

(** [text] is the array read from, its nul included if it has one. *)
Definition strbuf_ncat (cells : list Z) (sb : strbuf) (text : list Z) (len : Z) :
    outcome (list Z * strbuf) :=
  cells ←
    (if negb (len =? 0) && negb (null sb) && has_room sb then
       let n := match end_ sb with Some e => Z.min (e - current sb) len | None => len end in
       cs ← c_prefix (Z.to_nat n) text;
       put cells (current sb) (cs ++ [0])
     else Ret cells);
  Ret (cells, set_current sb (current sb + len)).

(** [text] is the string without its nul. *)
Definition strbuf_puts (cells : list Z) (sb : strbuf) (text : list Z) : outcome (list Z * strbuf) :=
  let len := Z.of_nat (length text) in
  cells ←
    (if null sb then Ret cells
     else match end_ sb with
          | None => put cells (current sb) (text ++ [0])
          | Some e =>
              if current sb <? e
              then put cells (current sb) (take (Z.to_nat (e - current sb)) text ++ [0])
              else Ret cells
          end);
  Ret (cells, set_current sb (current sb + len)).

(** The first [strlen] digits of [data], at most [n] of them written. *)
Definition strbuf_tohex (cells : list Z) (sb : strbuf) (strlen : Z) (data : list Z) :
    outcome (list Z * strbuf) :=
  let p := current sb in
  let sb := set_current sb (p + strlen) in
  if null sb then Ret (cells, sb)
  else
    let e := match end_ sb with Some e => if e <? current sb then e else current sb
             | None => current sb end in
    let n := Z.to_nat (Z.min strlen (Z.max 0 (e - p))) in
    text ← tohex n data;
    cells ← (if decide (n = 0%nat) then Ret cells else put cells p (take n text));
    cells ← put cells e [0];
    Ret (cells, sb).

Definition strbuf_putc (cells : list Z) (sb : strbuf) (ch : Z) : outcome (list Z * strbuf) :=
  cells ← (if negb (null sb) && has_room sb then put cells (current sb) [ch; 0] else Ret cells);
  Ret (cells, set_current sb (current sb + 1)).

(** What vsprintf or vsnprintf makes of a format and its arguments: a text, or a failure
    (-1) after which some bytes may have been stored. *)
Inductive printed := Printed (text : list Z) | Failed (stored : list Z).
Definition strbuf_vsprintf (cells : list Z) (sb : strbuf) (p : printed) : outcome (list Z * strbuf) :=
  let n := match p with Printed text => Z.of_nat (length text) | Failed _ => -1 end in
  (* the bytes that a call with the given space stores *)
  let stores space := match p with Printed text => take space text ++ [0] | Failed stored => take (S space) stored end in
  cells ←
    (if negb (null sb) && bool_decide (end_ sb = None) then
       put cells (current sb) (match p with Printed text => text ++ [0] | Failed stored => stored end)
     else match end_ sb with
          | Some e =>
              if negb (null sb) && (current sb <? e) then
                let space := e - current sb + 1 in
                cells ← put cells (current sb) (stores (Z.to_nat (space - 1)));
                if space <=? n then put cells e [0] else Ret cells
              else Ret cells
          | None => Ret cells
          end);
  Ret (cells, if negb (n =? -1) then set_current sb (current sb + n) else sb).
(** A call whose format and arguments produce the text. *)
Definition strbuf_sprintf (cells : list Z) (sb : strbuf) (text : list Z) : outcome (list Z * strbuf) := strbuf_vsprintf cells sb (Printed text).

Definition strbuf_end (sb : strbuf) : Z :=
  match end_ sb with Some e => if e <? current sb then e else current sb | None => current sb end.
Definition strbuf_is_empty (sb : strbuf) : bool :=
  null sb && bool_decide (end_ sb = None) && (current sb =? 0).
Definition strbuf_size (sb : strbuf) : Z := match end_ sb with Some e => e + 1 | None => -1 end.
Definition strbuf_len `{Arch} (sb : strbuf) : Z := wrapu size_bits (strbuf_end sb).
Definition strbuf_remaining `{Arch} (sb : strbuf) : Z :=
  match end_ sb with
  | None => SIZE_MAX
  | Some e => if e <? current sb then 0 else e - current sb
  end.
Definition strbuf_count (sb : strbuf) : Z := current sb.
Definition strbuf_overrun (sb : strbuf) : bool :=
  match end_ sb with Some e => e <? current sb | None => false end.

(** The offset from the start of the pointer returned, [None] for NULL. *)
Definition strbuf_substr (sb : strbuf) (offset : Z) : option Z :=
  if null sb then None
  else if offset <? 0 then
    let s := strbuf_end sb + offset in
    Some (if s <? 0 then 0 else s)
  else Some (match end_ sb with Some e => if e <? offset then e else offset | None => offset end).

Definition strbuf_trunc (cells : list Z) (sb : strbuf) (offset : Z) : outcome (list Z * strbuf) :=
  let sb :=
    if offset <? 0 then
      let e := strbuf_end sb in
      set_current sb (if offset <=? 0 - e then 0 else e + offset)
    else if offset <? current sb then set_current sb offset else sb in
  if negb (null sb) && has_room sb
  then cells ← put cells (current sb) [0]; Ret (cells, sb)
  else Ret (cells, sb).

(** ** What a strbuf over an array promises

    The array holds as much of the text as fits, then a nul; the count is the
    length of the whole text. *)

Record holds (cells : list Z) (sb : strbuf) (text : list Z) : Prop := {
  h_null : null sb = false;
  h_cells : cells ≠ [];
  h_end : end_ sb = Some (Z.of_nat (length cells) - 1);
  h_current : current sb = Z.of_nat (length text);
  h_text : ∃ tail, cells = take (length cells - 1) text ++ 0 :: tail;
}.

Lemma put_spec cells o bs : 0 ≤ o → o + Z.of_nat (length bs) ≤ Z.of_nat (length cells) →
  put cells o bs = Ret (take (Z.to_nat o) cells ++ bs ++ drop (Z.to_nat o + length bs) cells).
Proof. intros. unfold put. do 2 decide_cmp. done. Qed.

(** Storing what fits of more text, and a nul, at the end of what is there. *)
Lemma append_holds cells sb text more : holds cells sb text → (length text < length cells - 1)%nat →
  ∃ cells', put cells (current sb) (take (length cells - 1 - length text) more ++ [0]) = Ret cells' ∧
    length cells' = length cells ∧
    holds cells' (set_current sb (current sb + Z.of_nat (length more))) (text ++ more).
Proof.
  intros [Hn Hne He Hc (tail & Ht)] Hlt. set (k := (length cells - 1 - length text)%nat).
  rewrite put_spec; [|lia|rewrite length_app, length_take, Hc; simpl; lia].
  set (cells' := _ ++ _ ++ _). exists cells'. split; [done|].
  assert (length cells' = length cells) as Hlen.
  { apply splice_length. rewrite length_app, length_take, Hc. simpl. lia. }
  split; [done|]. split; simpl.
  - done.
  - intros E. rewrite E in Hlen. simpl in Hlen. lia.
  - by rewrite Hlen.
  - rewrite length_app, Hc. lia.
  - rewrite Hlen. eexists. unfold cells'. rewrite Hc, Nat2Z.id, take_app_ge by lia.
    assert (take (length text) cells = text) as ->.
    { rewrite Ht. rewrite (take_ge text) by lia. apply take_app_length. }
    fold k. rewrite <- !app_assoc. done.
Qed.

(** Text that follows a full array only counts. *)
Lemma count_holds cells sb text more : holds cells sb text → (length cells - 1 ≤ length text)%nat →
  holds cells (set_current sb (current sb + Z.of_nat (length more))) (text ++ more).
Proof.
  intros [Hn Hne He Hc (tail & Ht)] Hle. split; simpl; try done.
  - rewrite length_app, Hc. lia.
  - exists tail. by rewrite take_app_le by lia.
Qed.

(** Whether there is room, in terms of the text. *)
Lemma holds_room cells sb text : holds cells sb text →
  (current sb <? Z.of_nat (length cells) - 1) = bool_decide (length text < length cells - 1)%nat.
Proof.
  intros [Hn Hne He Hc _]. rewrite Hc. destruct cells; [done|]. simpl length in *.
  destruct (bool_decide_reflect (length text < S (length cells) - 1)%nat); [apply Z.ltb_lt|apply Z.ltb_ge]; lia.
Qed.

Lemma strbuf_puts_holds cells sb text more : holds cells sb text →
  ∃ cells' sb', strbuf_puts cells sb more = Ret (cells', sb') ∧ length cells' = length cells ∧
    holds cells' sb' (text ++ more).
Proof.
  intros Hh. pose proof (holds_room _ _ _ Hh) as Hr. pose proof (h_end _ _ _ Hh) as He.
  pose proof (h_current _ _ _ Hh) as Hc.
  unfold strbuf_puts. rewrite (h_null _ _ _ Hh), He, Hr.
  destruct (bool_decide_reflect (length text < length cells - 1)%nat) as [Hlt|Hge].
  - destruct (append_holds cells sb text more Hh Hlt) as (cells' & Hp & Hl & Hh').
    replace (Z.to_nat (Z.of_nat (length cells) - 1 - current sb)) with (length cells - 1 - length text)%nat by lia.
    rewrite Hp, bind_ret_l. by eexists _, _.
  - rewrite bind_ret_l. eexists _, _. split; [done|]. split; [done|]. apply count_holds; [done|lia].
Qed.

Lemma has_room_holds cells sb text : holds cells sb text →
  has_room sb = bool_decide (length text < length cells - 1)%nat.
Proof. intros Hh. unfold has_room. rewrite (h_end _ _ _ Hh). by apply holds_room. Qed.

Lemma strbuf_putc_holds cells sb text ch : holds cells sb text →
  ∃ cells' sb', strbuf_putc cells sb ch = Ret (cells', sb') ∧ length cells' = length cells ∧
    holds cells' sb' (text ++ [ch]).
Proof.
  intros Hh. unfold strbuf_putc. rewrite (h_null _ _ _ Hh), (has_room_holds _ _ _ Hh). cbn [negb andb].
  destruct (bool_decide_reflect (length text < length cells - 1)%nat) as [Hlt|Hge].
  - destruct (append_holds cells sb text [ch] Hh Hlt) as (cells' & Hp & Hl & Hh').
    rewrite take_ge in Hp by (simpl; lia). simpl app in Hp. rewrite Hp, bind_ret_l. by eexists _, _.
  - rewrite bind_ret_l. eexists _, _. split; [done|]. split; [done|].
    apply (count_holds cells sb text [ch] Hh). lia.
Qed.

Lemma c_prefix_spec n text : 0 ∉ take n text → (n ≤ length text)%nat → c_prefix n text = Ret (take n text).
Proof.
  revert text. induction n as [|n IH]; intros [|x text] Hz Hn; simpl in *; try done; [lia|].
  rewrite not_elem_of_cons in Hz. destruct Hz. decide_cmp. rewrite IH by (done || lia). done.
Qed.

Lemma strbuf_ncat_holds cells sb text more len : holds cells sb text → 0 ∉ take len more →
  (len ≤ length more)%nat →
  ∃ cells' sb', strbuf_ncat cells sb more (Z.of_nat len) = Ret (cells', sb') ∧
    length cells' = length cells ∧ holds cells' sb' (text ++ take len more).
Proof.
  intros Hh Hz Hlen. unfold strbuf_ncat. rewrite (h_null _ _ _ Hh), (has_room_holds _ _ _ Hh). cbn [negb].
  rewrite andb_true_r, (h_end _ _ _ Hh). pose proof (h_current _ _ _ Hh) as Hc.
  destruct (bool_decide_reflect (length text < length cells - 1)%nat) as [Hlt|Hge].
  - destruct (append_holds cells sb text (take len more) Hh Hlt) as (cells' & Hp & Hl & Hh').
    rewrite length_take, Nat.min_l in Hh' by lia. rewrite take_take in Hp.
    destruct (Z.eqb_spec (Z.of_nat len) 0) as [E|E]; cbn [negb andb].
    + rewrite bind_ret_l. eexists _, _. split; [done|]. split; [done|].
      replace len with 0%nat by lia. rewrite take_0, app_nil_r, Z.add_0_r.
      destruct Hh; by split.
    + replace (Z.to_nat (Z.min (Z.of_nat (length cells) - 1 - current sb) (Z.of_nat len)))
        with ((length cells - 1 - length text) `min` len)%nat by lia.
      rewrite c_prefix_spec, bind_ret_l, Hp, bind_ret_l; [by eexists _, _| |lia].
      intros Hin. apply Hz. rewrite <- take_take in Hin.
      apply elem_of_take in Hin as (i & Hi & _). by apply list_elem_of_lookup_2 in Hi.
  - rewrite andb_false_r, bind_ret_l. eexists _, _. split; [done|]. split; [done|].
    pose proof (count_holds cells sb text (take len more) Hh ltac:(lia)) as Hh'.
    by rewrite length_take, Nat.min_l in Hh' by lia.
Qed.

Lemma put_end_nul cells sb text : holds cells sb text → (length cells - 1 ≤ length text)%nat →
  put cells (Z.of_nat (length cells) - 1) [0] = Ret cells.
Proof.
  intros [Hn Hne He Hc (tail & Ht)] Hle. assert (0 < length cells)%nat by (destruct cells; [done|simpl; lia]).
  rewrite put_spec by (simpl; lia). f_equal. simpl.
  replace (Z.to_nat (Z.of_nat (length cells) - 1)) with (length cells - 1)%nat by lia.
  rewrite (drop_ge cells) by lia.
  assert (length tail = 0%nat) as Htl.
  { apply (f_equal length) in Ht. rewrite length_app, length_take in Ht. simpl in Ht. lia. }
  destruct tail; [|done]. remember (length cells - 1)%nat as n eqn:En. clear En He. subst cells.
  rewrite take_app_le by (rewrite length_take; lia). by rewrite take_take, Nat.min_id.
Qed.

Lemma strbuf_vsprintf_holds cells sb text more : holds cells sb text →
  ∃ cells' sb', strbuf_vsprintf cells sb (Printed more) = Ret (cells', sb') ∧ length cells' = length cells ∧
    holds cells' sb' (text ++ more).
Proof.
  intros Hh. pose proof (holds_room _ _ _ Hh) as Hr. pose proof (h_current _ _ _ Hh) as Hc.
  unfold strbuf_vsprintf. cbv zeta. rewrite (proj2 (Z.eqb_neq (Z.of_nat (length more)) (-1))) by lia. rewrite (h_null _ _ _ Hh), (h_end _ _ _ Hh), Hr. cbn [negb andb].
  rewrite bool_decide_eq_false_2 by done.
  destruct (bool_decide_reflect (length text < length cells - 1)%nat) as [Hlt|Hge].
  - destruct (append_holds cells sb text more Hh Hlt) as (cells' & Hp & Hl & Hh').
    replace (Z.to_nat (Z.of_nat (length cells) - 1 - current sb + 1 - 1))
      with (length cells - 1 - length text)%nat by lia.
    rewrite Hp, bind_ret_l. case_if.
    + pose proof (put_end_nul _ _ _ Hh') as Hend. rewrite Hl, length_app in Hend.
      rewrite Hend, bind_ret_l by lia. by eexists _, _.
    + rewrite bind_ret_l. by eexists _, _.
  - rewrite bind_ret_l. eexists _, _. split; [done|]. split; [done|]. apply count_holds; [done|lia].
Qed.

(** Cutting the text to its first [j] characters. *)
Lemma cut_holds cells sb text j : holds cells sb text → (j ≤ length text)%nat →
  let sb' := set_current sb (Z.of_nat j) in
  if has_room sb' then
    ∃ cells', put cells (Z.of_nat j) [0] = Ret cells' ∧ length cells' = length cells ∧
      holds cells' sb' (take j text)
  else holds cells sb' (take j text).
Proof.
  intros [Hn Hne He Hc (tail & Ht)] Hj sb'. unfold has_room. simpl. rewrite He.
  destruct (Z.ltb_spec (Z.of_nat j) (Z.of_nat (length cells) - 1)) as [Hlt|Hge].
  - rewrite put_spec by (simpl; lia). eexists. split; [done|].
    assert (length (take (Z.to_nat (Z.of_nat j)) cells ++ [0] ++ drop (Z.to_nat (Z.of_nat j) + 1) cells)
      = length cells) as Hlen by (apply (splice_length cells [0]); simpl; lia).
    simpl in Hlen |- *. split; [done|]. split; simpl; try done.
    + intros E. rewrite E in Hlen. simpl in Hlen. lia.
    + by rewrite Hlen.
    + rewrite length_take. lia.
    + rewrite Hlen, Nat2Z.id. eexists. f_equal. rewrite (take_ge (take j text)) by (rewrite length_take; lia).
      rewrite Ht at 1. rewrite take_app_le by (rewrite length_take; lia).
      rewrite take_take. f_equal. lia.
  - split; simpl; try done.
    + rewrite length_take. lia.
    + exists tail. rewrite take_take. by replace ((length cells - 1) `min` j)%nat with (length cells - 1)%nat by lia.
Qed.

(** The text after a truncation. *)
Definition trunc_at (size : nat) (text : list Z) (offset : Z) : nat :=
  if offset <? 0 then Z.to_nat (Z.of_nat (length text `min` (size - 1)) + offset)
  else length text `min` Z.to_nat offset.

Lemma strbuf_trunc_holds cells sb text offset : holds cells sb text →
  ∃ cells' sb', strbuf_trunc cells sb offset = Ret (cells', sb') ∧ length cells' = length cells ∧
    holds cells' sb' (take (trunc_at (length cells) text offset) text).
Proof.
  intros Hh. set (j := trunc_at (length cells) text offset). pose proof (h_current _ _ _ Hh) as Hc.
  assert (0 < length cells)%nat by (pose proof (h_cells _ _ _ Hh); destruct cells; [done|simpl; lia]).
  assert (j ≤ length text)%nat as Hj by (unfold j, trunc_at; case_if; lia).
  unfold strbuf_trunc. set (sb' := if offset <? 0 then _ else _).
  assert (sb' = set_current sb (Z.of_nat j)) as ->.
  { unfold sb', strbuf_end. rewrite (h_end _ _ _ Hh), Hc. unfold j, trunc_at. case_if.
    - f_equal. repeat case_if; lia.
    - case_if; [f_equal; lia|]. destruct sb as [n e c]. simpl in *. unfold set_current. simpl. f_equal. lia. }
  pose proof (cut_holds cells sb text j Hh Hj) as Hcut. cbv zeta in Hcut.
  change (null (set_current sb (Z.of_nat j))) with (null sb).
  change (current (set_current sb (Z.of_nat j))) with (Z.of_nat j).
  rewrite (h_null _ _ _ Hh). cbn [negb andb].
  destruct (has_room (set_current sb (Z.of_nat j))).
  - destruct Hcut as (cells' & -> & Hl & Hh'). rewrite bind_ret_l. by eexists _, _.
  - by eexists _, _.
Qed.

Lemma strbuf_reset_holds cells sb text : holds cells sb text →
  ∃ cells' sb', strbuf_reset cells sb = Ret (cells', sb') ∧ length cells' = length cells ∧
    holds cells' sb' [].
Proof.
  intros Hh. unfold strbuf_reset. cbn [null end_ current set_current].
  rewrite (h_null _ _ _ Hh), (h_end _ _ _ Hh). pose proof Hh as [Hn Hne He Hc (tail & Ht)].
  assert (0 < length cells)%nat by (destruct cells; [done|simpl; lia]).
  rewrite (proj2 (Z.leb_le 0 _)) by lia. cbn [negb andb]. rewrite put_spec by (simpl; lia).
  rewrite bind_ret_l. eexists _, _. split; [done|]. simpl. rewrite length_drop.
  split; [lia|]. split; simpl; try done.
  - rewrite He. f_equal. rewrite length_drop. lia.
  - rewrite length_drop, take_nil. by eexists.
Qed.

(** The digits a [strbuf_tohex] of [strlen] digits appends. *)
Lemma tohex_take bs n rest : (n ≤ 2 * length bs)%nat →
  ∃ t, tohex n (bs ++ rest) = Ret t ∧ take n t = take n (hex bs) ∧ length t = S n.
Proof.
  unfold tohex. assert (Z.even 0 = true) as H by done. revert H. generalize 0. revert n.
  induction bs as [|b bs IH]; intros n i Hi Hn.
  { assert (n = 0)%nat as -> by (simpl in Hn; lia). by exists [0]. }
  destruct (land_1_even i Hi) as [H0 H1]. rewrite hex_cons.
  destruct n as [|[|n]].
  - by exists [0].
  - cbn [tohex_loop app]. rewrite H0. simpl. by eexists.
  - cbn [tohex_loop app]. rewrite H0, H1. cbn [negb].
    destruct (IH n (i + 1 + 1)) as (t & -> & Ht & Hl).
    { by rewrite <- Z.add_assoc, Z.even_add, Hi. }
    { simpl in Hn. lia. }
    rewrite !bind_ret_l. eexists. split; [done|]. simpl. by rewrite Ht, Hl.
Qed.

Lemma hex_length bs : length (hex bs) = (2 * length bs)%nat.
Proof. induction bs as [|b bs IH]; [done|]. rewrite hex_cons. simpl. lia. Qed.

Lemma put_put cells o a b cells' : put cells o (a ++ b) = Ret cells' → 0 ≤ o →
  (c ← put cells o a; put c (o + Z.of_nat (length a)) b) = Ret cells'.
Proof.
  unfold put at 1. rewrite length_app. case_if; [|done]. intros [= <-] Ho.
  rewrite put_spec by lia. rewrite bind_ret_l.
  rewrite put_spec; [|lia|rewrite !length_app, length_take, length_drop; lia]. f_equal.
  rewrite Z2Nat.inj_add, Nat2Z.id by lia.
  set (x := take (Z.to_nat o) cells). assert (length x = Z.to_nat o) as Hx by (unfold x; rewrite length_take; lia).
  rewrite (app_assoc x a). rewrite take_app_length' by (rewrite length_app; lia).
  rewrite drop_app_ge by (rewrite length_app; lia).
  rewrite length_app, drop_drop, <- !app_assoc. do 4 f_equal. lia.
Qed.

Lemma strbuf_tohex_holds cells sb text n data : holds cells sb text → (n ≤ 2 * length data)%nat →
  ∃ cells' sb', strbuf_tohex cells sb (Z.of_nat n) data = Ret (cells', sb') ∧
    length cells' = length cells ∧ holds cells' sb' (text ++ take n (hex data)).
Proof.
  intros Hh Hn. pose proof (h_current _ _ _ Hh) as Hc. pose proof (hex_length data) as Hhl.
  assert (0 < length cells)%nat by (pose proof (h_cells _ _ _ Hh); destruct cells; [done|simpl; lia]).
  unfold strbuf_tohex. cbn [null end_ current set_current].
  rewrite (h_null _ _ _ Hh), (h_end _ _ _ Hh). cbv zeta.
  set (e := if Z.of_nat (length cells) - 1 <? _ then _ else _).
  set (k := Z.to_nat (Z.min (Z.of_nat n) (Z.max 0 (e - current sb)))).
  destruct (tohex_take data k []) as (t & Hto & Htk & Htl); [unfold k; lia|].
  rewrite app_nil_r in Hto. rewrite Hto, bind_ret_l.
  assert (length (take n (hex data)) = n) as Hln by (rewrite length_take; lia).
  destruct (decide (length text < length cells - 1)%nat) as [Hlt|Hge].
  - destruct (append_holds cells sb text (take n (hex data)) Hh Hlt) as (cells' & Hp & Hl & Hh').
    assert (k = (length cells - 1 - length text) `min` n)%nat as Hk by (unfold k, e; case_if; lia).
    assert (e = current sb + Z.of_nat k) as He by (unfold k, e; case_if; lia).
    rewrite take_take, <- Hk, <- Htk in Hp. rewrite Hln in Hh'.
    assert ((c ← (if decide (k = 0%nat) then Ret cells else put cells (current sb) (take k t)); put c e [0])
      = Ret cells') as Hw.
    { destruct (decide (k = 0%nat)) as [E|E].
      - rewrite bind_ret_l, He, E, Z.add_0_r. by rewrite E, take_0 in Hp.
      - pose proof (put_put _ _ _ _ _ Hp ltac:(lia)) as Hpp.
        rewrite length_take, Nat.min_l in Hpp by lia. by rewrite He. }
    apply bind_ret_inv in Hw as (c & -> & Hw). rewrite bind_ret_l, Hw, bind_ret_l. by eexists _, _.
  - assert (k = 0%nat) as Hk by (unfold k, e; case_if; lia).
    assert (e = Z.of_nat (length cells) - 1) as He by (unfold k, e in *; case_if; lia).
    rewrite decide_True, bind_ret_l, He, (put_end_nul _ _ _ Hh), bind_ret_l by (done || lia).
    eexists _, _. split; [done|]. split; [done|].
    pose proof (count_holds cells sb text (take n (hex data)) Hh ltac:(lia)) as Hh'. by rewrite Hln in Hh'.
Qed.

(** ** Sequences of operations *)

Inductive op :=
| Puts (text : list Z) | Putc (ch : Z) | Ncat (text : list Z) (len : nat) | Sprintf (text : list Z)
| Tohex (strlen : nat) (data : list Z) | Trunc (offset : Z) | Reset.

Definition step (cells : list Z) (sb : strbuf) (o : op) : outcome (list Z * strbuf) :=
  match o with
  | Puts text => strbuf_puts cells sb text
  | Putc ch => strbuf_putc cells sb ch
  | Ncat text len => strbuf_ncat cells sb text (Z.of_nat len)
  | Sprintf text => strbuf_sprintf cells sb text
  | Tohex strlen data => strbuf_tohex cells sb (Z.of_nat strlen) data
  | Trunc offset => strbuf_trunc cells sb offset
  | Reset => strbuf_reset cells sb
  end.
Fixpoint run (cells : list Z) (sb : strbuf) (os : list op) : outcome (list Z * strbuf) :=
  match os with
  | [] => Ret (cells, sb)
  | o :: os => r ← step cells sb o; run r.1 r.2 os
  end.

(** The same operations on an unbounded text; [size] matters to a truncation
    from the end of what was kept. *)
Definition text_step (size : nat) (text : list Z) (o : op) : list Z :=
  match o with
  | Puts t | Sprintf t => text ++ t
  | Putc ch => text ++ [ch]
  | Ncat t len => text ++ take len t
  | Tohex strlen data => text ++ take strlen (hex data)
  | Trunc offset => take (trunc_at size text offset) text
  | Reset => []
  end.
Definition op_ok (o : op) : Prop :=
  match o with
  | Ncat t len => (0 ∉ take len t) ∧ (len ≤ length t)%nat
  | Tohex strlen data => (strlen ≤ 2 * length data)%nat
  | _ => True
  end.

Lemma step_holds cells sb text o : holds cells sb text → op_ok o →
  ∃ cells' sb', step cells sb o = Ret (cells', sb') ∧ length cells' = length cells ∧
    holds cells' sb' (text_step (length cells) text o).
Proof.
  intros Hh Hok. destruct o; simpl in *.
  - by apply strbuf_puts_holds.
  - by apply strbuf_putc_holds.
  - destruct Hok. by apply strbuf_ncat_holds.
  - by apply strbuf_vsprintf_holds.
  - by apply strbuf_tohex_holds.
  - by apply strbuf_trunc_holds.
  - by apply (strbuf_reset_holds _ _ text).
Qed.

Lemma run_holds cells sb text os : holds cells sb text → Forall op_ok os →
  ∃ cells' sb', run cells sb os = Ret (cells', sb') ∧ length cells' = length cells ∧
    holds cells' sb' (foldl (text_step (length cells)) text os).
Proof.
  intros Hh Hok. revert cells sb text Hh. induction Hok as [|o os Ho _ IH]; intros cells sb text Hh.
  { by exists cells, sb. }
  destruct (step_holds cells sb text o Hh Ho) as (c1 & sb1 & Hs & Hl1 & Hh1). cbn [run]. rewrite Hs, bind_ret_l.
  cbn [fst snd foldl].
  destruct (IH c1 sb1 _ Hh1) as (c2 & sb2 & -> & Hl2 & Hh2). rewrite Hl1 in *.
  by exists c2, sb2.
Qed.

Lemma strbuf_init_holds `{Arch} cells : cells ≠ [] →
  ∃ cells' sb, strbuf_init cells false (Z.of_nat (length cells)) = Ret (cells', sb) ∧
    length cells' = length cells ∧ holds cells' sb [].
Proof.
  intros Hne. unfold strbuf_init, strbuf_reset. assert (0 < length cells)%nat by (destruct cells; [done|simpl; lia]).
  rewrite (proj2 (Z.leb_le 0 (Z.of_nat (length cells)))) by lia. cbn [null end_ current set_current].
  rewrite (proj2 (Z.leb_le 0 (Z.of_nat (length cells) - 1))) by lia. cbn [negb andb].
  rewrite put_spec by (simpl; lia). rewrite bind_ret_l. eexists _, _. split; [done|]. simpl.
  rewrite length_drop. split; [lia|]. split; simpl; try done.
  - f_equal. rewrite length_drop. lia.
  - rewrite length_drop, take_nil. by eexists.
Qed.

(** C24: through any sequence of appends, truncations and resets, a strbuf over
    an array never writes outside it, keeps in it the part of the text that
    fits followed by a nul, counts the whole text, and reports an overrun
    exactly when the text and its nul do not fit, so not any more when it was
    cut or reset. The appends are those that [op_ok] allows: [strbuf_ncat] is
    given at least as many characters as it is to append, since it counts a
    shorter string wrongly, [strbuf_tohex] as much data as it prints, and the
    formats of [strbuf_sprintf] do not fail. *)
Theorem strbuf_refines_text `{Arch} cells os : cells ≠ [] → Forall op_ok os →
  let size := length cells in
  let text := foldl (text_step size) [] os in
  ∃ cells0 sb0 cells' sb' tail,
    strbuf_init cells false (Z.of_nat size) = Ret (cells0, sb0) ∧
    run cells0 sb0 os = Ret (cells', sb') ∧ length cells' = size ∧
    cells' = take (size - 1) text ++ 0 :: tail ∧
    strbuf_count sb' = Z.of_nat (length text) ∧
    strbuf_overrun sb' = bool_decide (size ≤ length text)%nat.
Proof.
  intros Hne Hok size text. destruct (strbuf_init_holds cells Hne) as (c0 & sb0 & Hi & Hl0 & Hh0).
  destruct (run_holds c0 sb0 [] os Hh0 Hok) as (c1 & sb1 & Hr & Hl1 & Hh1). rewrite Hl0 in *.
  destruct Hh1 as [_ Hne1 He1 Hc1 (tail & Ht)]. rewrite Hl1 in *.
  exists c0, sb0, c1, sb1, tail. split_and!; try done.
  unfold strbuf_overrun. rewrite He1, Hc1. fold size. fold text.
  assert (0 < size)%nat by (unfold size; destruct cells; [done|simpl; lia]).
  destruct (bool_decide_reflect (size ≤ length text)%nat); [apply Z.ltb_lt|apply Z.ltb_ge]; lia.
Qed.

(** An overrun, and none any more after the text was cut. *)
Lemma strbuf_refines_text_witness :
  (∃ cells0 sb0 cells' sb', @strbuf_init arm64 [9; 9; 9; 9; 9; 9] false 6 = Ret (cells0, sb0) ∧
    run cells0 sb0 [Puts [97; 98]; Tohex 4 [0x1F; 2]; Trunc (-1); Putc 99; Putc 100] = Ret (cells', sb') ∧
    strbuf_count sb' = 6 ∧ strbuf_overrun sb' = true) ∧
  ∃ cells0 sb0 cells' sb', @strbuf_init arm64 [9; 9; 9] false 3 = Ret (cells0, sb0) ∧
    run cells0 sb0 [Puts [97; 98; 99]; Trunc 1] = Ret (cells', sb') ∧ strbuf_overrun sb' = false.
Proof.
  split; [|destruct (@strbuf_refines_text arm64 [9; 9; 9] [Puts [97; 98; 99]; Trunc 1]) as (c0 & sb0 & c1 & sb1 & tail & H1 & H2 & _ & _ & _ & H4);
    [done|repeat constructor|exists c0, sb0, c1, sb1; split_and!; done]].
  destruct (@strbuf_refines_text arm64 [9; 9; 9; 9; 9; 9]
    [Puts [97; 98]; Tohex 4 [0x1F; 2]; Trunc (-1); Putc 99; Putc 100])
    as (c0 & sb0 & c1 & sb1 & tail & H1 & H2 & _ & _ & H3 & H4).
  - done.
  - repeat constructor.
  - exists c0, sb0, c1, sb1. split_and!; done.
Defined.

(** A format that fails leaves what it stored, without a nul, and counts nothing. *)
Example strbuf_vsprintf_fails : strbuf_vsprintf [0; 9; 9; 9] (Sb false (Some 3) 0) (Failed [97; 98]) = Ret ([97; 98; 9; 9], Sb false (Some 3) 0).
Proof. vm_compute. done. Qed.

(** [strbuf_ncat] of a string shorter than the maximum counts the maximum,
    where its documentation says the length of the string: what is appended
    next leaves a nul in between. And [strbuf_tohex] on an array of size 0
    stores a nul before the array. *)
Theorem strbuf_ncat_counts_maximum :
  (r ← strbuf_ncat [0; 9; 9; 9; 9; 9] (Sb false (Some 5) 0) [97; 0] 3; strbuf_putc r.1 r.2 98)
    = Ret ([97; 0; 9; 98; 0; 9], Sb false (Some 5) 4) ∧
  (r ← @strbuf_init arm64 [] false 0; strbuf_tohex r.1 r.2 2 [0xAB]) = Undef.
Proof. vm_compute. auto. Qed.

End Strbuf.
