(* ===== verification/StrPrint.v ===== *)
(** * Printable representation of byte strings (strbuf_helpers.c, str.c)

    [strbuf_toprint_quoted_len] and [toprint] escape bytes for display;
    [strn_fromprint] reads the escapes back. *)

From S2P Require Import Prelude Mem StrCtype StrNum Strbuf.
From Stdlib Require Import Ascii.
Import Ctype StrNum Strbuf.

Module StrPrint.

(** ** Operations *)

Definition backslash : Z := chr "\".
Definition hexdigit_lower : list Z :=
  chr <$> ["0"; "1"; "2"; "3"; "4"; "5"; "6"; "7"; "8"; "9"; "a"; "b"; "c"; "d"; "e"; "f"]%char.
Definition lowhex (x : Z) : Z := default 0 (hexdigit_lower !! Z.to_nat x).

(** A byte above 126 is outside [' '..'~'] whether [char] is signed or not. The
    last case is the format \x%02x. *)
Definition _toprint (cells : list Z) (sb : strbuf) (x : Z) : outcome (list Z * strbuf) :=
  if x =? 0 then strbuf_puts cells sb [backslash; chr "0"]
  else if x =? 10 then strbuf_puts cells sb [backslash; chr "n"]
  else if x =? 13 then strbuf_puts cells sb [backslash; chr "r"]
  else if x =? 9 then strbuf_puts cells sb [backslash; chr "t"]
  else if x =? backslash then strbuf_puts cells sb [backslash; backslash]
  else if between (chr " ") x (chr "~") then strbuf_putc cells sb x
  else strbuf_sprintf cells sb [backslash; chr "x"; lowhex (Z.shiftr x 4); lowhex (Z.land x 0xf)].

(** [quote] is 0 when there is none; the suffix is "...". *)
Definition suffix : list Z := replicate 3 (chr ".").
Definition _overrun_quote (cells : list Z) (sb : strbuf) (quote : Z) : outcome (list Z * strbuf) :=
  if strbuf_overrun sb then
    '(cells, sb) ← strbuf_trunc cells sb (- Z.of_nat (length suffix) - (if quote =? 0 then 0 else 1));
    '(cells, sb) ← (if quote =? 0 then Ret (cells, sb) else strbuf_putc cells sb quote);
    strbuf_puts cells sb suffix
  else Ret (cells, sb).

(** [for (; len && !strbuf_overrun(sb); ++buf, --len)] over the [len] bytes of
    [buf]; [quotes] is [None] for a NULL pointer. *)
Fixpoint toprint_loop (cells : list Z) (sb : strbuf) (quotes : option (Z * Z)) (buf : list Z) :
    outcome (list Z * strbuf) :=
  match buf with
  | [] => Ret (cells, sb)
  | x :: buf =>
      if negb (strbuf_overrun sb) then
        r ← (if bool_decide (Some x = snd <$> quotes) then
               r ← strbuf_putc cells sb backslash; strbuf_putc r.1 r.2 x
             else _toprint cells sb x);
        toprint_loop r.1 r.2 quotes buf
      else Ret (cells, sb)
  end.

Definition put_quote (cells : list Z) (sb : strbuf) (q : Z) : outcome (list Z * strbuf) :=
  if q =? 0 then Ret (cells, sb) else strbuf_putc cells sb q.

Definition strbuf_toprint_quoted_len (cells : list Z) (sb : strbuf) (quotes : option (Z * Z))
    (buf : list Z) : outcome (list Z * strbuf) :=
  r ← put_quote cells sb (default 0 (fst <$> quotes));
  r ← toprint_loop r.1 r.2 quotes buf;
  r ← put_quote r.1 r.2 (default 0 (snd <$> quotes));
  _overrun_quote r.1 r.2 (default 0 (snd <$> quotes)).

(** The array [dstStr] of [dstBufSiz] bytes afterwards. *)
Definition toprint `{Arch} (dstStr srcBuf : list Z) (quotes : option (Z * Z)) : outcome (list Z) :=
  r ← strbuf_init dstStr false (Z.of_nat (length dstStr));
  r ← strbuf_toprint_quoted_len r.1 r.2 quotes srcBuf;
  Ret r.1.

(** [n] bytes have been stored at [dst] and [lim] is [esrc - src], or [None] when
    [srclen] was 0. Returns the bytes stored from here on and [*afterp]. *)
Fixpoint fromprint_loop (dstsiz n : Z) (lim : option Z) (endquote : Z) (src : list Z) :
    outcome (list Z * list Z) :=
  if match lim with Some k => 0 <? k | None => true end then
    match src with
    | [] => Undef
    | x :: t =>
        let go d used rest :=
          r ← fromprint_loop dstsiz (n + 1) ((λ k, k - used) <$> lim) endquote rest;
          Ret (d :: r.1, r.2) in
        if negb (x =? 0) && negb (x =? endquote) && (n <? dstsiz) then
          if x =? backslash then
            match t with
            | [] => Undef
            | y :: t' =>
                if y =? 0 then go backslash 1 t
                else if y =? chr "0" then go 0 2 t'
                else if y =? chr "n" then go 10 2 t'
                else if y =? chr "r" then go 13 2 t'
                else if y =? chr "t" then go 9 2 t'
                else if y =? chr "x" then
                  match t' with
                  | [] => Undef
                  | h :: t2 =>
                      if isxdigit h then
                        match t2 with
                        | [] => Undef
                        | l :: t3 =>
                            if isxdigit l then
                              high ← hexvalue h;
                              low ← hexvalue l;
                              go (u8 (Z.shiftl high 4 + low)) 4 t3
                            else go y 2 t'
                        end
                      else go y 2 t'
                  end
                else go y 2 t'
            end
          else go x 1 t
        else Ret ([], src)
    end
  else Ret ([], src).
Definition strn_fromprint (dstsiz : Z) (src : list Z) (srclen endquote : Z) : outcome (list Z * list Z) :=
  fromprint_loop dstsiz 0 (if srclen =? 0 then None else Some srclen) endquote src.

(** ** The text *)

Definition escape (quotes : option (Z * Z)) (x : Z) : list Z :=
  if bool_decide (Some x = snd <$> quotes) then [backslash; x]
  else if x =? 0 then [backslash; chr "0"]
  else if x =? 10 then [backslash; chr "n"]
  else if x =? 13 then [backslash; chr "r"]
  else if x =? 9 then [backslash; chr "t"]
  else if x =? backslash then [backslash; backslash]
  else if between (chr " ") x (chr "~") then [x]
  else [backslash; chr "x"; lowhex (Z.shiftr x 4); lowhex (Z.land x 0xf)].
Definition escapes (quotes : option (Z * Z)) (bs : list Z) : list Z := concat (escape quotes <$> bs).
Definition quote_text (q : Z) : list Z := if q =? 0 then [] else [q].
Definition printed (quotes : option (Z * Z)) (bs : list Z) : list Z :=
  quote_text (default 0 (fst <$> quotes)) ++ escapes quotes bs ++ quote_text (default 0 (snd <$> quotes)).

Lemma toprint_holds cells sb text quotes x : holds cells sb text →
  ∃ cells' sb', (if bool_decide (Some x = snd <$> quotes) then
        r ← strbuf_putc cells sb backslash; strbuf_putc r.1 r.2 x
      else _toprint cells sb x) = Ret (cells', sb') ∧
    length cells' = length cells ∧ holds cells' sb' (text ++ escape quotes x).
Proof.
  intros Hh. unfold escape, _toprint.
  case_if; [|repeat case_if; by (apply strbuf_puts_holds || apply strbuf_putc_holds || apply strbuf_vsprintf_holds)].
  destruct (strbuf_putc_holds cells sb text backslash Hh) as (c1 & sb1 & -> & Hl1 & Hh1).
  rewrite bind_ret_l. cbn [fst snd].
  destruct (strbuf_putc_holds c1 sb1 _ x Hh1) as (c2 & sb2 & -> & Hl2 & Hh2).
  exists c2, sb2. rewrite <- app_assoc in Hh2. split; [done|]. split; [congruence|done].
Qed.

Lemma put_quote_holds cells sb text q : holds cells sb text →
  ∃ cells' sb', put_quote cells sb q = Ret (cells', sb') ∧ length cells' = length cells ∧
    holds cells' sb' (text ++ quote_text q).
Proof.
  intros Hh. unfold put_quote, quote_text. case_if; [|by apply strbuf_putc_holds].
  exists cells, sb. by rewrite app_nil_r.
Qed.

Lemma overrun_holds cells sb text : holds cells sb text →
  strbuf_overrun sb = bool_decide (length cells ≤ length text)%nat.
Proof.
  intros [_ Hne He Hc _]. unfold strbuf_overrun. rewrite He, Hc.
  assert (0 < length cells)%nat by (destruct cells; [done|simpl; lia]).
  destruct (bool_decide_reflect (length cells ≤ length text)%nat); [apply Z.ltb_lt|apply Z.ltb_ge]; lia.
Qed.

(** The loop appends every escape, or stops once the array is full. *)
Lemma toprint_loop_holds quotes buf cells sb text : holds cells sb text →
  ∃ cells' sb' text', toprint_loop cells sb quotes buf = Ret (cells', sb') ∧
    length cells' = length cells ∧ holds cells' sb' text' ∧
    (text' = text ++ escapes quotes buf ∨ (length cells ≤ length text')%nat ∧
       (length text' ≤ length (text ++ escapes quotes buf))%nat).
Proof.
  revert cells sb text. induction buf as [|x buf IH]; intros cells sb text Hh; cbn [toprint_loop].
  { exists cells, sb, text. unfold escapes. simpl. rewrite app_nil_r. auto. }
  rewrite (overrun_holds _ _ _ Hh).
  destruct (bool_decide_reflect (length cells ≤ length text)%nat) as [Hfull|Hroom]; cbn [negb].
  { exists cells, sb, text. rewrite length_app. auto with lia. }
  destruct (toprint_holds cells sb text quotes x Hh) as (c1 & sb1 & -> & Hl1 & Hh1).
  rewrite bind_ret_l. cbn [fst snd].
  destruct (IH c1 sb1 _ Hh1) as (c2 & sb2 & t2 & Hr & Hl2 & Hh2 & Hor). rewrite Hl1 in *.
  exists c2, sb2, t2. change (escapes quotes (x :: buf)) with (escape quotes x ++ escapes quotes buf).
  rewrite app_assoc. auto.
Qed.

Lemma overrun_quote_holds cells sb text q : holds cells sb text →
  ∃ cells' sb' text', _overrun_quote cells sb q = Ret (cells', sb') ∧
    length cells' = length cells ∧ holds cells' sb' text' ∧
    (if strbuf_overrun sb
     then text' = take (Z.to_nat (Z.of_nat (length cells) - 4 - (if q =? 0 then 0 else 1))) text
                  ++ quote_text q ++ suffix
     else text' = text).
Proof.
  intros Hh. unfold _overrun_quote. pose proof (overrun_holds _ _ _ Hh) as Ho.
  destruct (strbuf_overrun sb); [|by exists cells, sb, text].
  symmetry in Ho. apply bool_decide_eq_true in Ho.
  edestruct (strbuf_trunc_holds cells sb text) as (c1 & sb1 & -> & Hl1 & Hh1); [done|].
  rewrite bind_ret_l.
  destruct (put_quote_holds c1 sb1 _ q Hh1) as (c2 & sb2 & Hq & Hl2 & Hh2).
  unfold put_quote in Hq. rewrite Hq, bind_ret_l.
  destruct (strbuf_puts_holds c2 sb2 _ suffix Hh2) as (c3 & sb3 & -> & Hl3 & Hh3).
  eexists _, _, _. split; [done|]. split; [congruence|]. split; [exact Hh3|]. rewrite <- app_assoc.
  f_equal. f_equal. unfold trunc_at. change (Z.of_nat (length suffix)) with 3.
  rewrite (proj2 (Z.ltb_lt _ 0)) by (case_if; lia). case_if; lia.
Qed.

(** The whole text when it fits, otherwise a cut text that ends with the closing
    quote and dots; the array is never overrun. *)
Lemma toprint_quoted_holds cells sb quotes buf : holds cells sb [] →
  ∃ cells' sb' text', strbuf_toprint_quoted_len cells sb quotes buf = Ret (cells', sb') ∧
    length cells' = length cells ∧ holds cells' sb' text' ∧
    if bool_decide (length (printed quotes buf) < length cells)%nat then text' = printed quotes buf
    else ∃ t, text' = t ++ quote_text (default 0 (snd <$> quotes)) ++ suffix.
Proof.
  intros Hh. unfold strbuf_toprint_quoted_len, printed.
  set (q0 := default 0 (fst <$> quotes)). set (q1 := default 0 (snd <$> quotes)).
  destruct (put_quote_holds cells sb [] q0 Hh) as (c1 & sb1 & -> & Hl1 & Hh1).
  rewrite bind_ret_l. cbn [fst snd app] in *.
  destruct (toprint_loop_holds quotes buf c1 sb1 _ Hh1) as (c2 & sb2 & t2 & -> & Hl2 & Hh2 & Hor).
  rewrite bind_ret_l. cbn [fst snd].
  destruct (put_quote_holds c2 sb2 t2 q1 Hh2) as (c3 & sb3 & -> & Hl3 & Hh3).
  rewrite bind_ret_l. cbn [fst snd].
  destruct (overrun_quote_holds c3 sb3 _ q1 Hh3) as (c4 & sb4 & t4 & -> & Hl4 & Hh4 & Ht4).
  rewrite (overrun_holds _ _ _ Hh3) in Ht4.
  exists c4, sb4, t4. split; [done|]. split; [congruence|]. split; [done|].
  assert (length c3 = length cells) as Hl by congruence. rewrite Hl, length_app in Ht4.
  rewrite app_assoc, length_app. rewrite Hl1 in Hor.
  destruct Hor as [->|[Hge Hle]].
  - case_bool_decide; case_bool_decide; try lia; [by eexists|done].
  - rewrite bool_decide_eq_true_2 in Ht4 by lia. rewrite bool_decide_eq_false_2 by lia. by eexists.
Qed.

(** ** Reading the text back *)

(** A closing quote whose escape [strn_fromprint] reads as itself. *)
Definition quote_ok (q : Z) : Prop :=
  q ≠ 0 ∧ q ≠ backslash ∧ q ≠ chr "0" ∧ q ≠ chr "n" ∧ q ≠ chr "r" ∧ q ≠ chr "t" ∧ q ≠ chr "x".

Lemma lowhex_spec x : 0 ≤ x < 16 → isxdigit (lowhex x) = true ∧ hexvalue (lowhex x) = Ret x.
Proof.
  intros Hx. split.
  - exact (forall_range (λ x, isxdigit (lowhex x)) 16 eq_refl x Hx).
  - apply ret_eqb_true. exact (forall_range (λ x, ret_eqb (hexvalue (lowhex x)) x) 16 eq_refl x Hx).
Qed.

Lemma fromprint_backslash dstsiz n q y t : q ≠ backslash → n < dstsiz →
  let go d rest := r ← fromprint_loop dstsiz (n + 1) None q rest; Ret (d :: r.1, r.2) in
  fromprint_loop dstsiz n None q (backslash :: y :: t) =
    if y =? 0 then go backslash (y :: t)
    else if y =? chr "0" then go 0 t
    else if y =? chr "n" then go 10 t
    else if y =? chr "r" then go 13 t
    else if y =? chr "t" then go 9 t
    else if y =? chr "x" then
      match t with
      | [] => Undef
      | h :: t2 =>
          if isxdigit h then
            match t2 with
            | [] => Undef
            | l :: t3 =>
                if isxdigit l then
                  high ← hexvalue h; low ← hexvalue l; go (u8 (Z.shiftl high 4 + low)) t3
                else go y t
            end
          else go y t
      end
    else go y t.
Proof.
  intros Hq Hn go. unfold go. remember (y :: t) as yt eqn:E. cbn [fromprint_loop].
  rewrite (proj2 (Z.eqb_neq backslash q)), (proj2 (Z.ltb_lt n dstsiz)) by congruence.
  cbn [fmap option_fmap option_map]. rewrite E. reflexivity.
Qed.

Lemma fromprint_escape dstsiz n q0 q x rest : is_byte x → quote_ok q → n < dstsiz →
  fromprint_loop dstsiz n None q (escape (Some (q0, q)) x ++ rest) =
    (r ← fromprint_loop dstsiz (n + 1) None q rest; Ret (x :: r.1, r.2)).
Proof.
  intros Hx (H0 & Hb & Hq0 & Hqn & Hqr & Hqt & Hqx) Hn. unfold escape. cbn [fmap option_fmap option_map snd].
  case_bool_decide as Eq.
  { injection Eq as ->. cbn [app]. rewrite fromprint_backslash by done. cbv zeta.
    repeat (rewrite (proj2 (Z.eqb_neq q _)) by done). done. }
  destruct (Z.eqb_spec x 0) as [->|N0]; [cbn [app]; by rewrite fromprint_backslash by done|].
  destruct (Z.eqb_spec x 10) as [->|N10]; [cbn [app]; by rewrite fromprint_backslash by done|].
  destruct (Z.eqb_spec x 13) as [->|N13]; [cbn [app]; by rewrite fromprint_backslash by done|].
  destruct (Z.eqb_spec x 9) as [->|N9]; [cbn [app]; by rewrite fromprint_backslash by done|].
  destruct (Z.eqb_spec x backslash) as [->|Nb]; [cbn [app]; by rewrite fromprint_backslash by done|].
  case_if.
  - assert (x ≠ q) by congruence. cbn [app]. remember rest as rest' eqn:E. cbn [fromprint_loop].
    rewrite (proj2 (Z.eqb_neq x 0)), (proj2 (Z.eqb_neq x q)), (proj2 (Z.ltb_lt n dstsiz)),
      (proj2 (Z.eqb_neq x backslash)) by done. done.
  - destruct (nibbles x Hx) as (Hh & Hl & Hv). destruct (lowhex_spec _ Hh) as [Xh Vh].
    destruct (lowhex_spec _ Hl) as [Xl Vl]. cbn [app]. rewrite fromprint_backslash by done. cbv zeta.
    repeat (rewrite (proj2 (Z.eqb_neq (chr "x") _)) by done). rewrite Z.eqb_refl, Xh, Xl, Vh, bind_ret_l, Vl.
    rewrite bind_ret_l, Hv, wrapu_small by done. done.
Qed.

Lemma fromprint_escapes dstsiz n q0 q bs rest : Forall is_byte bs → quote_ok q →
  n + Z.of_nat (length bs) ≤ dstsiz →
  fromprint_loop dstsiz n None q (escapes (Some (q0, q)) bs ++ q :: rest) = Ret (bs, q :: rest).
Proof.
  intros Hb Hq. revert n. induction Hb as [|x bs Hx _ IH]; intros n Hn.
  - cbn [escapes fmap list_fmap concat app fromprint_loop]. rewrite Z.eqb_refl. cbn [negb].
    by rewrite andb_false_r.
  - change (escapes (Some (q0, q)) (x :: bs)) with (escape (Some (q0, q)) x ++ escapes (Some (q0, q)) bs).
    cbn [length] in Hn. rewrite <- app_assoc, fromprint_escape by (done || lia).
    rewrite IH by lia. done.
Qed.

(** [toprint] into an array that is large enough writes the quoted, escaped
    text and a nul, and [strn_fromprint] after the opening quote gives the bytes
    back and stops at the closing quote. Into a smaller array it writes a cut
    text that ends with the closing quote and dots, without overrunning it. *)
Theorem toprint_fromprint `{Arch} dst bs q0 q :
  dst ≠ [] → Forall is_byte bs → quote_ok q → q0 ≠ 0 →
  ∃ dst', toprint dst bs (Some (q0, q)) = Ret dst' ∧ length dst' = length dst ∧
    (Z.of_nat (length (printed (Some (q0, q)) bs)) < Z.of_nat (length dst) →
     ∃ tail, dst' = q0 :: escapes (Some (q0, q)) bs ++ q :: 0 :: tail ∧
       strn_fromprint (Z.of_nat (length bs)) (drop 1 dst') 0 q = Ret (bs, q :: 0 :: tail)).
Proof.
  intros Hne Hb Hq Hq0. destruct (strbuf_init_holds dst Hne) as (c0 & sb0 & Hi & Hl0 & Hh0).
  destruct (toprint_quoted_holds c0 sb0 (Some (q0, q)) bs Hh0) as (c1 & sb1 & t1 & Hp & Hl1 & Hh1 & Ht1).
  exists c1. unfold toprint. rewrite Hi, bind_ret_l. cbn [fst snd]. rewrite Hp, bind_ret_l.
  split; [done|]. split; [congruence|]. intros Hfit.
  rewrite bool_decide_eq_true_2 in Ht1 by lia. subst t1.
  destruct Hh1 as [_ _ _ _ (tail & Hc)]. exists tail.
  rewrite (take_ge (printed _ _)) in Hc by lia.
  assert (printed (Some (q0, q)) bs = q0 :: escapes (Some (q0, q)) bs ++ [q]) as Hpr.
  { unfold printed, quote_text. simpl. destruct Hq as [Hq _]. by do 2 decide_cmp. }
  rewrite Hpr in Hc. rewrite <- app_comm_cons, <- app_assoc in Hc. split; [exact Hc|].
  rewrite Hc. simpl drop. unfold strn_fromprint. simpl Z.eqb. cbv iota.
  apply fromprint_escapes; done || lia.
Qed.

Lemma toprint_fromprint_witness :
  ∃ dst' tail, @toprint arm64 (replicate 20 1) [97; 0; 34; 200] (Some (34, 34)) = Ret dst' ∧
    strn_fromprint 4 (drop 1 dst') 0 34 = Ret ([97; 0; 34; 200], 34 :: 0 :: tail).
Proof.
  destruct (@toprint_fromprint arm64 (replicate 20 1) [97; 0; 34; 200] 34 34) as (dst' & H1 & _ & H2).
  - done.
  - repeat constructor; unfold is_byte; lia.
  - unfold quote_ok. split_and!; vm_compute; congruence.
  - lia.
  - destruct H2 as (tail & _ & H3); [vm_compute; congruence|]. exists dst', tail. exact (conj H1 H3).
Defined.

End StrPrint.
