(* ===== verification/StrScan.v ===== *)
(** * Searching strings, command lines and scaled numbers (str.c)

    Prefix tests, searches, the splitting of a command line, and numbers with a
    scale symbol. *)

From S2P Require Import Prelude StrCtype StrNum Strbuf.
From Stdlib Require Import Ascii.
Import Ctype StrNum Strbuf.

Module StrScan.

(** ** Case *)

Definition toupper (x : Z) : Z := if between (chr "a") x (chr "z") then x - 32 else x.
Definition tolower (x : Z) : Z := if between (chr "A") x (chr "Z") then x + 32 else x.

(** The characters up to the nul, changed in place. *)
Fixpoint map_inplace (f : Z → Z) (str : list Z) : outcome (list Z) :=
  match str with
  | [] => Undef
  | x :: str' => if x =? 0 then Ret str else r ← map_inplace f str'; Ret (f x :: r)
  end.
Definition str_toupper_inplace := map_inplace toupper.
Definition str_tolower_inplace := map_inplace tolower.

Fixpoint is_all_matching (ptr : list Z) (len : nat) (value : Z) : outcome bool :=
  match len with
  | O => Ret true
  | S len =>
      match ptr with
      | [] => Undef
      | x :: ptr => if negb (x =? value) then Ret false else is_all_matching ptr len value
      end
  end.

(** ** Prefixes

    [substring] is its characters before the nul. The result is what [*afterp]
    points to when the return value is 1. *)

Fixpoint str_startswith (str substring : list Z) {struct substring} : outcome (option (list Z)) :=
  match substring with
  | [] => Ret (Some str)
  | c :: substring =>
      match str with
      | [] => Undef
      | x :: str => if c =? x then str_startswith str substring else Ret None
      end
  end.

(** [len] is [None] for -1. *)
Fixpoint strn_startswith (str : list Z) (len : option nat) (substring : list Z) {struct substring} :
    outcome (option (list Z)) :=
  match substring with
  | [] => Ret (Some str)
  | c :: substring =>
      match len with
      | Some O => Ret None
      | _ =>
          match str with
          | [] => Undef
          | x :: str => if c =? x then strn_startswith str (pred <$> len) substring else Ret None
          end
      end
  end.

Fixpoint strcase_startswith (str substring : list Z) {struct substring} : outcome (option (list Z)) :=
  match substring with
  | [] => Ret (Some str)
  | c :: substring =>
      match str with
      | [] => Undef
      | x :: str =>
          if negb (x =? 0) && (toupper c =? toupper x) then strcase_startswith str substring else Ret None
      end
  end.

Fixpoint strncase_startswith (str : list Z) (len : nat) (substring : list Z) {struct substring} :
    outcome (option (list Z)) :=
  match substring with
  | [] => Ret (Some str)
  | c :: substring =>
      match len with
      | O => Ret None
      | S len =>
          match str with
          | [] => Undef
          | x :: str => if toupper c =? toupper x then strncase_startswith str len substring else Ret None
          end
      end
  end.

(** ** Searching and comparing *)

(** The string from the character on, or [None] for NULL. *)
Fixpoint strnchr (s : list Z) (n : nat) (c : Z) : outcome (option (list Z)) :=
  match n with
  | O => Ret None
  | S n =>
      match s with
      | [] => Undef
      | x :: s' => if x =? c then Ret (Some s) else if x =? 0 then Ret None else strnchr s' n c
      end
  end.

(** strncmp(3) and strncasecmp(3), the characters compared through [f]. *)
Fixpoint cmp_loop (f : Z → Z) (s1 s2 : list Z) (n : nat) {struct n} : outcome Z :=
  match n with
  | O => Ret 0
  | S n =>
      match s1, s2 with
      | x :: s1, y :: s2 =>
          if f x <? f y then Ret (-1) else if f y <? f x then Ret 1
          else if x =? 0 then Ret 0 else cmp_loop f s1 s2 n
      | _, _ => Undef
      end
  end.
Definition strncmp := cmp_loop id.
Definition strncasecmp := cmp_loop tolower.

Fixpoint strlen (s : list Z) : outcome nat :=
  match s with
  | [] => Undef
  | x :: s => if x =? 0 then Ret 0%nat else n ← strlen s; Ret (S n)
  end.

Definition str_cmp_with (cmp : list Z → list Z → nat → outcome Z) (str1 : list Z) (len1 : nat) (str2 : list Z) :
    outcome Z :=
  r ← cmp str1 str2 len1;
  if negb (r =? 0) then Ret r
  else
    len2 ← strlen str2;
    Ret (if decide (len1 < len2)%nat then -1 else if decide (len2 < len1)%nat then 1 else 0).
Definition strn_str_cmp := str_cmp_with strncmp.
Definition strn_str_casecmp := str_cmp_with strncasecmp.

(** [for (; *haystack && haystack_len >= needle_len; ++haystack, --haystack_len)] *)
Fixpoint str_str_loop (haystack needle : list Z) (needle_len haystack_len : nat) : outcome (option (list Z)) :=
  match haystack with
  | [] => Undef
  | x :: rest =>
      if x =? 0 then Ret None
      else if decide (haystack_len < needle_len)%nat then Ret None
      else
        r ← strncmp haystack needle needle_len;
        if r =? 0 then Ret (Some haystack)
        else str_str_loop rest needle needle_len (pred haystack_len)
  end.
Definition str_str (haystack needle : list Z) (haystack_len : nat) : outcome (option (list Z)) :=
  needle_len ← strlen needle;
  if decide (needle_len = 0%nat) then Ret (Some haystack)
  else if decide (haystack_len < needle_len)%nat then Ret None
  else str_str_loop haystack needle needle_len haystack_len.

(** ** Command lines *)

(** [cmdline] from position [pos] on; [argc] arguments have been stored. Returns
    the changed text and the positions of the arguments from here on. *)
Fixpoint argv_loop (delim : Z) (max_argv argc : nat) (cmdline : list Z) (pos : nat) :
    outcome (list Z * list nat) :=
  match cmdline with
  | [] => Undef
  | x :: rest =>
      if x =? 0 then Ret (cmdline, [])
      else if x =? delim then
        next ← char_at rest 0;
        let more := negb (next =? 0) && bool_decide (argc < max_argv)%nat in
        r ← argv_loop delim max_argv (if more then S argc else argc) rest (S pos);
        Ret (0 :: r.1, if more then S pos :: r.2 else r.2)
      else
        r ← argv_loop delim max_argv argc rest (S pos);
        Ret (x :: r.1, r.2)
  end.

Definition parse_argv (cmdline : list Z) (delim : Z) (max_argv : nat) : outcome (list Z * list nat) :=
  x ← char_at cmdline 0;
  let first := negb (x =? 0) && bool_decide (0 < max_argv)%nat in
  r ← argv_loop delim max_argv (if first then 1 else 0) cmdline 0;
  Ret (r.1, if first then 0%nat :: r.2 else r.2).

(** ** Scaled numbers *)

Definition scale_factors : list (Z * Z) :=
  [(chr "G", 1024 * 1024 * 1024); (chr "g", 1000 * 1000 * 1000); (chr "M", 1024 * 1024);
   (chr "m", 1000 * 1000); (chr "K", 1024); (chr "k", 1000)].

Fixpoint find_symbol (l : list (Z * Z)) (x : Z) : option Z :=
  match l with
  | [] => None
  | (symbol, factor) :: l => if symbol =? x then Some factor else find_symbol l x
  end.

(** The factor and what [*afterp] points to. *)
Definition scale_factor (str : list Z) (afterp : bool) : outcome (Z * list Z) :=
  x ← char_at str 0;
  let '(factor, str) := match find_symbol scale_factors x with
                        | Some f => (f, tail str)
                        | None => (1, str)
                        end in
  if afterp : bool then Ret (factor, str)
  else y ← char_at str 0; Ret (if negb (y =? 0) then 0 else factor, str).

(** The parsers of scaled numbers for a [w]-bit result, given the parser of the
    number. *)
Definition str_to_uint_scaled (w : Z) (parse : list Z → Z → bool → outcome (option Z * list Z))
    (str : list Z) (base : Z) (afterp : bool) : outcome (option Z * list Z) :=
  r ← parse str base true;
  match r with
  | (None, end_) => Ret (None, end_)
  | (Some value, end_) =>
      f ← scale_factor end_ true;
      let value := wrapu w (value * f.1) in
      if afterp : bool then Ret (Some value, f.2)
      else x ← char_at f.2 0; Ret (if negb (x =? 0) then None else Some value, f.2)
  end.
Definition str_to_uint32_scaled := str_to_uint_scaled 32 str_to_uint32.
Definition str_to_uint64_scaled := str_to_uint_scaled 64 str_to_uint64.

(** The decimal digits of a number, as [%llu] prints them. *)
Fixpoint decimal_loop (fuel : nat) (v : Z) (acc : list Z) : list Z :=
  match fuel with
  | O => acc
  | S fuel =>
      let acc := (chr "0" + v mod 10) :: acc in
      if v / 10 =? 0 then acc else decimal_loop fuel (v / 10) acc
  end.
Definition decimal (v : Z) : list Z := decimal_loop 20 v [].

(** The first factor that divides the value, as the symbol and the quotient. *)
Fixpoint scale_value (l : list (Z * Z)) (value : Z) : option Z * Z :=
  match l with
  | [] => (None, value)
  | (symbol, factor) :: l =>
      if value mod factor =? 0 then (Some symbol, value / factor) else scale_value l value
  end.

(** The array after the call, and the return value. *)
Definition uint_scaled_to_str `{Arch} (str : list Z) (len value : Z) : outcome (list Z * Z) :=
  let '(symbol, value) := scale_value scale_factors value in
  r ← strbuf_init str false len;
  r ← strbuf_sprintf r.1 r.2 (decimal value);
  r ← match symbol with Some c => strbuf_putc r.1 r.2 c | None => Ret r end;
  Ret (r.1, if strbuf_overrun r.2 then 0 else 1).
Definition uint32_scaled_to_str `{Arch} := uint_scaled_to_str.
Definition uint64_scaled_to_str `{Arch} := uint_scaled_to_str.

(** ** Prefix tests *)

(** The limit leaves room for [n] characters. *)
Definition allows (len : option nat) (n : nat) : Prop :=
  match len with None => True | Some k => (n ≤ k)%nat end.

Lemma str_startswith_app sub rest : str_startswith (sub ++ rest) sub = Ret (Some rest).
Proof. induction sub as [|c sub IH]; [done|]. cbn [app str_startswith]. by rewrite Z.eqb_refl. Qed.

Lemma str_startswith_inv str sub rest : str_startswith str sub = Ret (Some rest) → str = sub ++ rest.
Proof.
  revert str. induction sub as [|c sub IH]; intros str; cbn [str_startswith]; [by intros [= <-]|].
  destruct str as [|x str]; [done|]. destruct (Z.eqb_spec c x) as [->|]; [|done].
  intros ->%IH. done.
Qed.

Lemma strn_startswith_app sub rest len : allows len (length sub) →
  strn_startswith (sub ++ rest) len sub = Ret (Some rest).
Proof.
  revert len. induction sub as [|c sub IH]; intros len Hl; [done|].
  cbn [app strn_startswith length] in *. rewrite Z.eqb_refl.
  destruct len as [[|k]|]; simpl in *; [lia| |]; apply IH; simpl; lia || done.
Qed.

Lemma strn_startswith_inv str len sub rest : strn_startswith str len sub = Ret (Some rest) →
  str = sub ++ rest ∧ allows len (length sub).
Proof.
  revert str len. induction sub as [|c sub IH]; intros str len; cbn [strn_startswith].
  { intros [= <-]. split; [done|]. destruct len; simpl; lia || done. }
  destruct len as [[|k]|]; [done| |].
  - destruct str as [|x str]; [done|]. destruct (Z.eqb_spec c x) as [->|]; [|done].
    intros [-> Ha]%IH. simpl in *. split; [done|lia].
  - destruct str as [|x str]; [done|]. destruct (Z.eqb_spec c x) as [->|]; [|done].
    intros [-> Ha]%IH. done.
Qed.

(** A string of which [len] characters can be read is decided without looking
    further. *)
Lemma strn_startswith_total str n sub : (n ≤ length str)%nat →
  ∃ r, strn_startswith str (Some n) sub = Ret r.
Proof.
  revert str n. induction sub as [|c sub IH]; intros str n Hn; cbn [strn_startswith]; [by eexists|].
  destruct n as [|n]; [by eexists|]. destruct str as [|x str]; simpl in Hn; [lia|].
  destruct (c =? x); [|by eexists]. apply IH. lia.
Qed.

Lemma str_startswith_total str sub : (length sub ≤ length str)%nat → ∃ r, str_startswith str sub = Ret r.
Proof.
  revert str. induction sub as [|c sub IH]; intros str Hn; cbn [str_startswith]; [by eexists|].
  destruct str as [|x str]; simpl in Hn; [lia|]. destruct (c =? x); [apply IH; lia|by eexists].
Qed.

(** ** Command lines *)

Definition blank (delim : Z) (l : list Z) : list Z := (λ x, if x =? delim then 0 else x) <$> l.
Fixpoint until_nul (l : list Z) : list Z :=
  match l with [] => [] | x :: l => if x =? 0 then [] else x :: until_nul l end.

(** The fields between the delimiters. *)
Fixpoint fields (delim : Z) (l : list Z) : list (list Z) :=
  match l with
  | [] => [[]]
  | x :: l =>
      if x =? delim then [] :: fields delim l
      else match fields delim l with [] => [[x]] | f :: fs => (x :: f) :: fs end
  end.
(** The fields, less an empty one at the end. *)
Definition arguments (delim : Z) (l : list Z) : list (list Z) :=
  let fs := fields delim l in
  if decide (last fs = Some []) then take (length fs - 1) fs else fs.

(** Where the fields after the first start, less an empty one at the end. *)
Fixpoint starts (delim : Z) (l : list Z) : list nat :=
  match l with
  | [] => []
  | x :: l =>
      if x =? delim then (if decide (l = []) then [] else 1%nat :: (S <$> starts delim l))
      else S <$> starts delim l
  end.

Lemma fields_cons delim l : ∃ f fs, fields delim l = f :: fs.
Proof.
  destruct l as [|x l]; simpl; [by eexists _, _|]. destruct (x =? delim); [by eexists _, _|].
  destruct (fields delim l); by eexists _, _.
Qed.

Lemma arguments_delim delim l :
  arguments delim (delim :: l) = if decide (l = []) then [[]] else [] :: arguments delim l.
Proof.
  unfold arguments. cbn [fields]. rewrite Z.eqb_refl. destruct l as [|x l]; [done|].
  rewrite (decide_False (P := x :: l = [])) by done.
  destruct (fields_cons delim (x :: l)) as (f & fs & E). rewrite E, last_cons_cons.
  case_decide; [|done]. cbn [length]. replace (S (S (length fs)) - 1)%nat with (S (S (length fs) - 1)) by lia. done.
Qed.
Lemma arguments_char delim x l : x ≠ delim →
  arguments delim (x :: l) =
    match arguments delim l with [] => [[x]] | f :: fs => (x :: f) :: fs end.
Proof.
  intros Hx. unfold arguments. cbn [fields]. rewrite (proj2 (Z.eqb_neq _ _) Hx).
  destruct (fields_cons delim l) as (f & fs & ->). destruct fs as [|g fs].
  - cbn [last length]. destruct (decide (Some (x :: f) = Some [])); [done|].
    by destruct (decide (Some f = Some [])) as [[= ->]|].
  - rewrite !last_cons_cons. cbn [length].
    case_decide; [|done]. by replace (S (S (length fs)) - 1)%nat with (S (length fs)) by lia.
Qed.
Lemma arguments_nil delim l : arguments delim l = [] → l = [].
Proof.
  destruct l as [|x l]; [done|]. destruct (Z.eqb_spec x delim) as [->|Hne].
  - rewrite arguments_delim. by case_decide.
  - rewrite arguments_char by done. by destruct (arguments delim l).
Qed.

Lemma argv_loop_spec delim max argc text pos : 0 ∉ text → delim ≠ 0 →
  argv_loop delim max argc (text ++ [0]) pos =
    Ret (blank delim text ++ [0], Nat.add pos <$> take (max - argc) (starts delim text)).
Proof.
  intros Hz Hd. revert argc pos. induction text as [|x text IH]; intros argc pos.
  { simpl. by rewrite take_nil. }
  apply not_elem_of_cons in Hz as [Hx Hz]. cbn [argv_loop app starts blank fmap list_fmap].
  rewrite (proj2 (Z.eqb_neq x 0)) by congruence.
  assert (∀ n l, Nat.add (S pos) <$> take n l = Nat.add pos <$> take n (S <$> l)) as Hshift.
  { intros n l. rewrite <- fmap_take, <- list_fmap_compose. apply list_fmap_ext. intros; simpl; lia. }
  destruct (Z.eqb_spec x delim) as [->|Hne].
  - destruct text as [|y text].
    + cbn [app]. rewrite char_at_0, bind_ret_l. simpl. by rewrite take_nil.
    + cbn [app] in *. rewrite char_at_0, bind_ret_l. apply not_elem_of_cons in Hz as Hz'.
      rewrite (proj2 (Z.eqb_neq y 0)) by (destruct Hz'; congruence). cbn [negb andb].
      rewrite (decide_False (P := y :: text = [])) by done.
      case_bool_decide as Hm.
      * rewrite IH by done. cbn [fst snd mbind outcome_bind]. rewrite Hshift.
        replace (max - argc)%nat with (S (max - S argc)) by lia. cbn [take fmap list_fmap].
        by rewrite Nat.add_1_r.
      * rewrite IH by done. replace (max - argc)%nat with 0%nat by lia. done.
  - rewrite IH by done. cbn [mbind outcome_bind fst snd]. by rewrite Hshift.
Qed.

Lemma until_blank delim text : 0 ∉ text →
  Some (until_nul (blank delim text ++ [0])) = head (fields delim text).
Proof.
  induction text as [|x text IH]; intros Hz; [done|]. apply not_elem_of_cons in Hz as [Hx Hz].
  cbn [blank fmap list_fmap app until_nul fields]. destruct (x =? delim); [done|].
  rewrite (proj2 (Z.eqb_neq x 0)) by congruence.
  destruct (fields_cons delim text) as (f & fs & E). specialize (IH Hz). rewrite E in *.
  simpl in *. unfold blank in IH. by injection IH as ->.
Qed.
Lemma head_arguments delim text : text ≠ [] → head (arguments delim text) = head (fields delim text).
Proof.
  intros Hne. destruct (arguments delim text) as [|f fs] eqn:E; [by apply arguments_nil in E|].
  revert E. unfold arguments. destruct (fields_cons delim text) as (g & gs & ->).
  destruct (decide _); [|by intros ->]. destruct gs; simpl; [done|]. by intros [= -> _].
Qed.
Lemma starts_arguments delim text : 0 ∉ text →
  (λ p, until_nul (drop p (blank delim text ++ [0]))) <$> starts delim text = tail (arguments delim text).
Proof.
  induction text as [|x text IH]; intros Hz; [done|]. apply not_elem_of_cons in Hz as [Hx Hz].
  cbn [starts]. specialize (IH Hz). destruct (Z.eqb_spec x delim) as [->|Hne].
  - rewrite arguments_delim. case_decide as Ht; [done|]. cbn [tail fmap list_fmap].
    rewrite <- list_fmap_compose.
    assert (arguments delim text = until_nul (blank delim text ++ [0]) :: tail (arguments delim text)) as ->.
    { pose proof (until_blank delim text Hz) as Hu. rewrite <- head_arguments in Hu by done.
      destruct (arguments delim text); [done|]. simpl in *. by injection Hu as ->. }
    f_equal. exact IH.
  - rewrite arguments_char by done. rewrite <- list_fmap_compose. unfold compose.
    transitivity (tail (arguments delim text)); [|by destruct (arguments delim text)]. exact IH.
Qed.

(** [parse_argv] stores the start of every field between delimiters, less an
    empty field at the end, up to the given maximum, and turns the delimiters into
    nuls: the strings it points to are exactly those fields. *)
Theorem parse_argv_fields delim max text : 0 ∉ text → delim ≠ 0 →
  ∃ out argv, parse_argv (text ++ [0]) delim max = Ret (out, argv) ∧ length out = S (length text) ∧
    (λ p, until_nul (drop p out)) <$> argv = take max (arguments delim text).
Proof.
  intros Hz Hd. unfold parse_argv. destruct text as [|x text].
  { eexists _, _. split; [simpl; reflexivity|]. split; [done|]. by destruct max. }
  cbn [app]. rewrite char_at_0, bind_ret_l. apply not_elem_of_cons in Hz as Hz'.
  rewrite (proj2 (Z.eqb_neq x 0)) by (destruct Hz'; congruence). cbn [negb andb].
  change (x :: text ++ [0]) with ((x :: text) ++ [0]).
  pose proof (until_blank delim (x :: text) Hz) as Hu. rewrite <- head_arguments in Hu by done.
  case_bool_decide as Hm; rewrite argv_loop_spec by done; eexists _, _; (split; [reflexivity|]);
    (split; [simpl; unfold blank; rewrite length_app, length_fmap; simpl; lia|]); cbn [fst snd].
  - destruct max as [|max]; [lia|]. cbn [fmap list_fmap]. rewrite drop_0.
    replace (S max - 1)%nat with max by lia. rewrite <- list_fmap_compose. unfold compose.
    destruct (arguments delim (x :: text)) as [|f fs] eqn:E; [done|]. apply (inj Some) in Hu. rewrite Hu.
    cbn [take]. f_equal. rewrite fmap_take. f_equal.
    etransitivity; [exact (starts_arguments delim (x :: text) Hz)|by rewrite E].
  - replace max with 0%nat by lia. done.
Qed.

Lemma parse_argv_fields_witness :
  ∃ out argv, parse_argv (chr <$> ["l"; "s"; " "; " "; "x"; " "; "000"]%char) (chr " ") 8 = Ret (out, argv) ∧
    (λ p, until_nul (drop p out)) <$> argv = [chr <$> ["l"; "s"]%char; []; chr <$> ["x"]%char].
Proof.
  destruct (parse_argv_fields (chr " ") 8 (chr <$> ["l"; "s"; " "; " "; "x"; " "]%char))
    as (out & argv & H1 & _ & H2); [by apply (bool_decide_unpack _)|done|].
  exists out, argv. exact (conj H1 H2).
Defined.

(** ** Searching *)

Lemma strncmp_needle hay needle : 0 ∉ needle →
  (length needle ≤ length hay)%nat →
  ∃ r, strncmp hay (needle ++ [0]) (length needle) = Ret r ∧
    (r = 0 ↔ take (length needle) hay = needle).
Proof.
  revert hay. unfold strncmp. induction needle as [|c needle IH]; intros hay Hz Hlen; [by exists 0|].
  destruct hay as [|x hay]; simpl in Hlen; [lia|]. apply not_elem_of_cons in Hz as [Hc Hz].
  cbn [length app cmp_loop take]. change (id x) with x. change (id c) with c.
  destruct (Z.ltb_spec x c); [exists (-1); split; [done|]; split; [lia|intros [=]; lia]|].
  destruct (Z.ltb_spec c x); [exists 1; split; [done|]; split; [lia|intros [=]; lia]|].
  assert (x = c) as -> by lia. rewrite (proj2 (Z.eqb_neq c 0)) by congruence.
  destruct (IH hay Hz ltac:(lia)) as (r & -> & Hr). exists r. split; [done|]. rewrite Hr.
  split; [by intros ->|by intros [=]].
Qed.

(** The needle is at the start of the string, within [n] characters. *)
Definition occurs (needle hay : list Z) (n : nat) : Prop :=
  (length needle ≤ n)%nat ∧ take (length needle) hay = needle.

(** [str_str] finds the first place where the needle lies within the given
    length, or none, in text that is followed by at least one more readable
    byte. *)
Theorem str_str_first needle text n rest : 0 ∉ needle → needle ≠ [] → 0 ∉ text → n = length text → rest ≠ [] →
  ∃ r, str_str (text ++ rest) (needle ++ [0]) n = Ret r ∧
    match r with
    | Some found => ∃ i, found = drop i (text ++ rest) ∧ occurs needle (drop i text) (n - i) ∧
        ∀ j, (j < i)%nat → ¬ occurs needle (drop j text) (n - j)
    | None => ∀ j, ¬ occurs needle (drop j text) (n - j)
    end.
Proof.
  intros Hz Hne Ht -> Hrest. unfold str_str.
  assert (strlen (needle ++ [0]) = Ret (length needle)) as ->.
  { clear Hne. induction needle as [|c needle IH]; [done|]. apply not_elem_of_cons in Hz as [Hc Hz].
    cbn [app strlen length]. rewrite (proj2 (Z.eqb_neq c 0)) by congruence. by rewrite IH. }
  rewrite bind_ret_l, decide_False by (by destruct needle). case_decide as Hlen.
  { exists None. split; [done|]. intros j [Hj _]. lia. }
  clear Hlen. induction text as [|x text IH].
  { destruct rest as [|y rest]; [done|]. exists None. split.
    - cbn [app str_str_loop length]. destruct (y =? 0); [done|]. rewrite decide_True; [done|].
      destruct needle; [done|simpl; lia].
    - intros j [Hj _]. destruct needle; [done|simpl in Hj; lia]. }
  apply not_elem_of_cons in Ht as [Hx Ht]. specialize (IH Ht) as (r & Hr & Hspec).
  cbn [app str_str_loop]. rewrite (proj2 (Z.eqb_neq x 0)) by congruence. case_decide as Hlen.
  { exists None. split; [done|]. intros j [Hj _]. simpl in *. lia. }
  destruct (strncmp_needle (x :: text ++ rest) needle Hz) as (c & -> & Hc).
  { simpl in *. rewrite length_app. lia. }
  rewrite bind_ret_l.
  assert (take (length needle) (x :: text ++ rest) = take (length needle) (x :: text)) as Etake.
  { change (x :: text ++ rest) with ((x :: text) ++ rest). apply take_app_le. simpl in *. lia. }
  rewrite Etake in Hc. destruct (Z.eqb_spec c 0) as [->|Hc0].
  - exists (Some (x :: text ++ rest)). split; [done|]. exists 0%nat. split_and!; [done| |lia].
    split; [simpl in *; lia|]. rewrite drop_0. tauto.
  - cbn [length pred]. exists r. split; [done|].
    assert (¬ occurs needle (x :: text) (S (length text))) as Hno by (intros [_ H]; tauto).
    destruct r as [found|].
    + destruct Hspec as (i & -> & Hocc & Hmin). exists (S i). split_and!; [done|done|].
      intros [|j] Hj; [done|]. apply (Hmin j). lia.
    + intros [|j]; [done|]. apply (Hspec j).
Qed.

Lemma str_str_first_witness : ∃ r, str_str [97; 98; 97; 98; 99; 7] [98; 99; 0] 5 = Ret r ∧ r = Some [98; 99; 7].
Proof.
  destruct (str_str_first [98; 99] [97; 98; 97; 98; 99] 5 [7]) as (r & Hr & _);
    try done; try (by apply (bool_decide_unpack _)).
  exists r. split; [exact Hr|]. vm_compute in Hr. by injection Hr as <-.
Defined.

(** With a needle of one character the search reads one byte past the given
    length, although it is meant not to depend on a terminator. *)
Lemma str_str_overread : str_str [97] [98; 0] 1 = Undef.
Proof. reflexivity. Qed.

(** ** Scaled numbers *)

Lemma num_snoc base v ds d : num base v (ds ++ [d]) = num base v ds * base + d.
Proof. unfold num. by rewrite foldl_app. Qed.

Lemma decimal_digit d : 0 ≤ d < 10 → hexvalue (chr "0" + d) = Ret d.
Proof.
  intros Hd. apply ret_eqb_true. exact (forall_range (λ d, ret_eqb (hexvalue (chr "0" + d)) d) 10 eq_refl d Hd).
Qed.

Lemma decimal_loop_spec fuel v acc : 0 ≤ v < 10 ^ Z.of_nat fuel → (0 < fuel)%nat →
  ∃ cs ds, decimal_loop fuel v acc = cs ++ acc ∧ digits 10 cs ds ∧ num 10 0 ds = v ∧ cs ≠ [] ∧
    (length cs ≤ fuel)%nat.
Proof.
  revert v acc. induction fuel as [|fuel IH]; intros v acc Hv Hf; [lia|]. cbn [decimal_loop].
  pose proof (Z.div_mod v 10 ltac:(lia)). pose proof (Z.mod_pos_bound v 10 ltac:(lia)).
  pose proof (decimal_digit (v mod 10) ltac:(lia)) as Hd.
  destruct (Z.eqb_spec (v / 10) 0) as [E|E].
  - exists [chr "0" + v mod 10], [v mod 10]. split_and!; [done| |unfold num; simpl; lia|done|simpl; lia].
    constructor; [|constructor]. split; [done|lia].
  - rewrite Nat2Z.inj_succ, Z.pow_succ_r in Hv by lia.
    destruct (IH (v / 10) ((chr "0" + v mod 10) :: acc)) as (cs & ds & -> & Hds & Hn & Hne & Hlen).
    { split; [apply Z.div_pos; lia|apply Z.div_lt_upper_bound; lia]. }
    { destruct fuel; [|lia]. exfalso. apply E, Z.div_small. simpl in Hv. lia. }
    exists (cs ++ [chr "0" + v mod 10]), (ds ++ [v mod 10]). rewrite <- app_assoc, num_snoc, Hn, length_app.
    split_and!; [done| |lia|by destruct cs|simpl; lia].
    apply Forall2_app; [done|]. constructor; [|constructor]. split; [done|lia].
Qed.

Lemma decimal_spec v : 0 ≤ v < 10 ^ 20 →
  ∃ ds, digits 10 (decimal v) ds ∧ num 10 0 ds = v ∧ decimal v ≠ [] ∧ (length (decimal v) ≤ 20)%nat.
Proof.
  intros Hv. destruct (decimal_loop_spec 20 v [] Hv ltac:(lia)) as (cs & ds & E & ? & ? & ? & ?).
  exists ds. unfold decimal. rewrite E, app_nil_r. by split_and!.
Qed.

(** The symbols are no decimal digits and stand for their factors. *)
Definition symbol_text (s : option Z) : list Z := option_list s.

Lemma scale_value_spec l value s v : (∀ c f, (c, f) ∈ l → 0 < f) → scale_value l value = (s, v) →
  match s with Some c => ∃ f, (c, f) ∈ l ∧ value = v * f | None => v = value end.
Proof.
  intros Hpos. induction l as [|[c f] l IH]; simpl; [by intros [= <- <-]|].
  destruct (Z.eqb_spec (value mod f) 0) as [E|E].
  - intros [= <- <-]. exists f. split; [by left|].
    pose proof (Hpos c f ltac:(by left)). pose proof (Z.div_mod value f ltac:(lia)). lia.
  - intros Hs. apply IH in Hs; [|intros c' f' Hin; apply (Hpos c'); by right].
    destruct s; [|done]. destruct Hs as (f' & ? & ?). exists f'. split; [by right|done].
Qed.

Lemma factors_ok c f : (c, f) ∈ scale_factors →
  find_symbol scale_factors c = Some f ∧ 1 ≤ f ∧ non_digit 10 c ∧ c ≠ 0.
Proof.
  intros Hin. repeat (apply elem_of_cons in Hin as [[= -> ->]|Hin]); [..|by apply not_elem_of_nil in Hin];
    (split_and!; [reflexivity|lia|exists (-1); split; [reflexivity|lia]|done]).
Qed.

(** Printing and reading back with a [w]-bit parser. *)
Lemma scaled_roundtrip_with `{Arch} w overflow parse cells value : 32 ≤ w ≤ 64 → quiet w 10 overflow →
  (∀ str, parse str 10 true = strn_to_uint w overflow str 0 10 true) →
  0 ≤ value < 2 ^ w → (22 ≤ length cells)%nat →
  ∃ cells' after, uint_scaled_to_str cells (Z.of_nat (length cells)) value = Ret (cells', 1) ∧
    str_to_uint_scaled w parse cells' 10 false = Ret (Some value, after).
Proof.
  intros Hw Hq Hparse Hv Hlen. unfold uint_scaled_to_str.
  destruct (scale_value scale_factors value) as [s v] eqn:Es.
  apply scale_value_spec in Es; [|by intros c f (_ & ? & _)%factors_ok; lia].
  assert (2 ^ w ≤ 2 ^ 64) as Hpow by (apply Z.pow_le_mono_r; lia).
  assert (0 ≤ v ≤ value) as Hvv.
  { destruct s as [c|]; [|lia]. destruct Es as (f & (_ & Hf & _)%factors_ok & ->). nia. }
  destruct (decimal_spec v ltac:(lia)) as (ds & Hds & Hnum & Hne & Hdl).
  destruct (strbuf_init_holds cells) as (c0 & sb0 & -> & L0 & H0); [by intros ->; simpl in Hlen; lia|].
  rewrite bind_ret_l. unfold strbuf_sprintf.
  destruct (strbuf_vsprintf_holds c0 sb0 [] (decimal v) H0) as (c1 & sb1 & Hc1 & L1 & H1).
  cbn [fst snd]. rewrite Hc1, bind_ret_l. cbn [fst snd]. cbn [app] in H1.
  assert (∃ c2 sb2, match s with Some c => strbuf_putc c1 sb1 c | None => Ret (c1, sb1) end = Ret (c2, sb2) ∧
    length c2 = length c1 ∧ holds c2 sb2 (decimal v ++ symbol_text s)) as (c2 & sb2 & -> & L2 & H2).
  { destruct s as [c|]; [by apply strbuf_putc_holds|]. exists c1, sb1. simpl. by rewrite app_nil_r. }
  rewrite bind_ret_l. cbn [fst snd].
  assert (length (decimal v ++ symbol_text s) ≤ 21)%nat as Hshort.
  { rewrite length_app. destruct s; simpl; lia. }
  assert (strbuf_overrun sb2 = false) as ->.
  { unfold strbuf_overrun. rewrite (h_end _ _ _ H2), (h_current _ _ _ H2). apply Z.ltb_ge. lia. }
  destruct (h_text _ _ _ H2) as (tl & Ecells). rewrite take_ge in Ecells by lia.
  exists c2. rewrite Ecells, <- app_assoc. unfold str_to_uint_scaled. rewrite Hparse.
  assert (∃ x t, symbol_text s ++ 0 :: tl = x :: t ∧ non_digit 10 x ∧
    ∃ g, scale_factor (x :: t) true = Ret (g, 0 :: tl) ∧ value = v * g) as (x & t & -> & Hx & g & Hg & Eg).
  { destruct s as [c|]; simpl.
    - destruct Es as (f & Hf & ->). destruct (factors_ok c f Hf) as (Hfind & _ & Hnd & _).
      eexists _, _. split; [done|]. split; [done|]. exists f. split; [|done].
      unfold scale_factor. rewrite char_at_0, bind_ret_l, Hfind. done.
    - eexists _, _. split; [done|]. split; [apply non_digit_nul|]. exists 1. split; [done|lia]. }
  rewrite (strn_to_uint_fits _ _ _ _ ds) by (done || lia). rewrite bind_ret_l, Hg, bind_ret_l. cbn [fst snd].
  rewrite char_at_0, bind_ret_l, Hnum, <- Eg, wrapu_small by done. cbn [negb Z.eqb]. eexists. by split.
Qed.

(** A 32 or 64-bit number printed with a scale symbol is read back unchanged,
    when the array has room for 21 characters and a nul. *)
Theorem scaled_roundtrip `{Arch} cells value : (22 ≤ length cells)%nat →
  (0 ≤ value < 2 ^ 32 → ∃ cells' after,
     uint32_scaled_to_str cells (Z.of_nat (length cells)) value = Ret (cells', 1) ∧
     str_to_uint32_scaled cells' 10 false = Ret (Some value, after)) ∧
  (0 ≤ value < 2 ^ 64 → ∃ cells' after,
     uint64_scaled_to_str cells (Z.of_nat (length cells)) value = Ret (cells', 1) ∧
     str_to_uint64_scaled cells' 10 false = Ret (Some value, after)).
Proof.
  intros Hlen. split; intros Hv;
    (eapply scaled_roundtrip_with; [lia|apply quiet_lt; lia|intros; reflexivity|done|done]).
Qed.

Lemma scaled_roundtrip_witness :
  ∃ cells' after, @uint64_scaled_to_str arm64 (replicate 22 7) 22 5242880 = Ret (cells', 1) ∧
    str_to_uint64_scaled cells' 10 false = Ret (Some 5242880, after).
Proof. exact (proj2 (@scaled_roundtrip arm64 (replicate 22 7) 5242880 ltac:(simpl; lia)) ltac:(lia)). Defined.

(** The product with the factor is not checked: 5G is read as a 32-bit 1G. *)
Lemma scaled_wraps :
  str_to_uint32_scaled (chr <$> ["5"; "G"; "000"]%char) 10 false = Ret (Some (2 ^ 30), [0]).
Proof. reflexivity. Qed.

End StrScan.
