(* ===== verification/DataFormats.v ===== *)
(** * Identifiers, phone numbers and serialized integers (dataformats.c)

    The textual forms of subscriber and bundle identifiers, file hashes and keys,
    the syntax checks on manifest fields and phone numbers, and little-endian
    integers. *)

From S2P Require Import Prelude StrCtype StrNum StrScan.
From Stdlib Require Import Ascii.
Import Ctype StrNum StrScan.

Module DataFormats.

(** ** Identifiers *)

Definition SID_SIZE : nat := 32.
Definition SID_STRLEN : nat := 64.
Definition RHIZOME_BUNDLE_ID_BYTES : nat := 32.
Definition RHIZOME_FILEHASH_BYTES : nat := 64.
Definition RHIZOME_BUNDLE_KEY_BYTES : nat := 32.
Definition RHIZOME_CRYPT_KEY_STRLEN : nat := 64.
Definition RHIZOME_BUNDLE_SECRET_MAX_STRLEN : nat := 80.

Definition SID_BROADCAST : list Z := replicate SID_SIZE 0xff.
Definition broadcast_text : list Z :=
  chr <$> ["b"; "r"; "o"; "a"; "d"; "c"; "a"; "s"; "t"]%char.

(** The bytes of a sid_t. *)
Definition is_sid (bs : list Z) : Prop := length bs = SID_SIZE ∧ Forall is_byte bs.

(** memcmp(3): the sign of the first difference. *)
Fixpoint memcmp (a b : list Z) : Z :=
  match a, b with
  | x :: a, y :: b => if x <? y then -1 else if y <? x then 1 else memcmp a b
  | _, _ => 0
  end.
Definition cmp_sid_t := memcmp.
Definition cmp_rhizome_bid_t := memcmp.
Definition cmp_rhizome_filehash_t := memcmp.

Section Parse.
Context `{Arch}.

(** The hexadecimal part of the parsers, for an identifier of [n] bytes. The
    length is [None] for -1; the result is the identifier and the end of its text
    when the return value is 0. *)
Definition parse_hex (n : nat) (hex : list Z) (hexlen : option nat) (endp : bool) :
    outcome (option (list Z * list Z)) :=
  if match hexlen with Some k => negb (Nat.eqb k (2 * n)) | None => false end then Ret None
  else
    r ← fromhex hex (Z.of_nat n);
    if negb (r.2 =? Z.of_nat n) then Ret None
    else
      let end_ := drop (2 * n) hex in
      if endp : bool then Ret (Some (r.1, end_))
      else
        ok ← match hexlen with
             | None => x ← char_at hex (2 * n); Ret (x =? 0)
             | Some _ => Ret true
             end;
        Ret (if (ok : bool) then Some (r.1, end_) else None).

Definition parse_sid_t (hex : list Z) (hexlen : option nat) (endp : bool) :
    outcome (option (list Z * list Z)) :=
  b ← strn_startswith hex hexlen broadcast_text;
  match b with
  | Some end_ =>
      if endp : bool then Ret (Some (SID_BROADCAST, end_))
      else
        ok ← match hexlen with
             | None => x ← char_at end_ 0; Ret (x =? 0)
             | Some _ => Ret true
             end;
        Ret (if (ok : bool) then Some (SID_BROADCAST, end_) else None)
  | None => parse_hex SID_SIZE hex hexlen endp
  end.

Definition value_of (r : outcome (option (list Z * list Z))) : outcome (option (list Z)) :=
  v ← r; Ret (option_map fst v).

Definition str_to_sid_t (hex : list Z) := value_of (parse_sid_t hex None false).
Definition strn_to_sid_t (hex : list Z) (hexlen : nat) := value_of (parse_sid_t hex (Some hexlen) false).

Definition parse_rhizome_bid_t := parse_hex RHIZOME_BUNDLE_ID_BYTES.
Definition str_to_rhizome_bid_t (hex : list Z) := value_of (parse_rhizome_bid_t hex None false).
Definition strn_to_rhizome_bid_t (hex : list Z) (hexlen : nat) :=
  value_of (parse_rhizome_bid_t hex (Some hexlen) false).

Definition parse_rhizome_filehash_t := parse_hex RHIZOME_FILEHASH_BYTES.
Definition str_to_rhizome_filehash_t (hex : list Z) := value_of (parse_rhizome_filehash_t hex None false).
Definition strn_to_rhizome_filehash_t (hex : list Z) (hexlen : nat) :=
  value_of (parse_rhizome_filehash_t hex (Some hexlen) false).

Definition parse_rhizome_bk_t := parse_hex RHIZOME_BUNDLE_KEY_BYTES.
Definition str_to_rhizome_bk_t (hex : list Z) := value_of (parse_rhizome_bk_t hex None false).
Definition strn_to_rhizome_bk_t (hex : list Z) (hexlen : nat) :=
  value_of (parse_rhizome_bk_t hex (Some hexlen) false).

(** ** Pass phrases *)

Definition SERVAL_PASSPHRASE_DIGEST_MAX_BINARY : nat := 64.
Definition salt1 : list Z := chr <$> ["S"; "a"; "g"; "o"; " "; "p"; "u"; "d"; "d"; "i"; "n"; "g"]%char.
Definition salt2 : list Z := chr <$> ["R"; "h"; "u"; "b"; "a"; "r"; "b"; " "; "p"; "i"; "e"]%char.

(** The hash function of NaCl, which is not part of the sources modelled. *)
Variable sha512 : list Z → list Z.

Definition strn_digest_passphrase (dstsiz : nat) (passphrase : list Z) (passlen : nat) : outcome (list Z) :=
  assert! bool_decide (dstsiz ≤ SERVAL_PASSPHRASE_DIGEST_MAX_BINARY)%nat;
  defined! bool_decide (passlen ≤ length passphrase)%nat;
  Ret (take dstsiz (sha512 (salt1 ++ take passlen passphrase ++ salt2))).
Definition str_digest_passphrase (dstsiz : nat) (passphrase : list Z) : outcome (list Z) :=
  n ← strlen passphrase; strn_digest_passphrase dstsiz passphrase n.

Definition strn_to_rhizome_bsk_t (text : list Z) (textlen : nat) : outcome (option (list Z)) :=
  hash ← (if bool_decide (0 < textlen)%nat then x ← char_at text 0; Ret (x =? chr "#") else Ret false);
  if hash : bool then
    if bool_decide (textlen ≤ 1)%nat then Ret None
    else if bool_decide (RHIZOME_BUNDLE_SECRET_MAX_STRLEN + 1 < textlen)%nat then Ret None
    else d ← strn_digest_passphrase RHIZOME_BUNDLE_KEY_BYTES text textlen; Ret (Some d)
  else strn_to_rhizome_bk_t text textlen.
Definition str_to_rhizome_bsk_t (text : list Z) : outcome (option (list Z)) :=
  n ← strlen text; strn_to_rhizome_bsk_t text n.

End Parse.

(** ** Syntax checks *)

(** The length, when the return value is 1. *)
Definition strn_is_subscriber_id (sid : list Z) : outcome (option nat) :=
  r ← strncasecmp sid (broadcast_text ++ [0]) 9;
  if r =? 0 then Ret (Some 9%nat)
  else
    x ← is_xsubstring sid SID_STRLEN;
    Ret (if (x : bool) then Some SID_STRLEN else None).

(** [f(s, &len) && s[len] == '\0'] *)
Definition whole (f : list Z → outcome (option nat)) (s : list Z) : outcome bool :=
  r ← f s;
  match r with
  | Some len => x ← char_at s len; Ret (x =? 0)
  | None => Ret false
  end.
Definition str_is_subscriber_id := whole strn_is_subscriber_id.

Definition rhizome_strn_is_bundle_crypt_key (key : list Z) := is_xsubstring key RHIZOME_CRYPT_KEY_STRLEN.
Definition rhizome_str_is_bundle_crypt_key (key : list Z) := is_xstring key RHIZOME_CRYPT_KEY_STRLEN.

(** [while ( *text && p( *text)) ++text; return *text == '\0'] *)
Fixpoint all_until_nul (p : Z → bool) (text : list Z) : outcome bool :=
  match text with
  | [] => Undef
  | x :: text => if negb (x =? 0) && p x then all_until_nul p text else Ret (x =? 0)
  end.
Definition rhizome_str_is_manifest_service (text : list Z) : outcome bool :=
  x ← char_at text 0;
  if x =? 0 then Ret false
  else all_until_nul (λ x, isalnum x || (x =? chr "_") || (x =? chr ".")) text.
Definition rhizome_str_is_manifest_name : list Z → outcome bool :=
  all_until_nul (λ x, negb (x =? 10) && negb (x =? 13)).

Definition DID_MINSIZE : nat := 5.
Definition DID_MAXSIZE : nat := 32.
Definition is_didchar (c : Z) : bool := isdigit c || (c =? chr "*") || (c =? chr "#") || (c =? chr "+").

(** [for (i = 0; i < DID_MAXSIZE && is_didchar(did[i]); ++i)]; [n] is
    [DID_MAXSIZE - i]. *)
Fixpoint did_loop (n : nat) (did : list Z) : outcome nat :=
  match n with
  | O => Ret 0%nat
  | S n =>
      match did with
      | [] => Undef
      | x :: did => if is_didchar x then i ← did_loop n did; Ret (S i) else Ret 0%nat
      end
  end.
Definition strn_is_did (did : list Z) : outcome (option nat) :=
  i ← did_loop DID_MAXSIZE did;
  Ret (if bool_decide (i < DID_MINSIZE)%nat then None else Some i).
Definition str_is_did := whole strn_is_did.

(** ** Integers *)

(** [for (i = 0; i < n; i++) { *(o++) = v & 0xff; v = v >> 8; }] *)
Fixpoint write_loop (n : nat) (v : Z) : list Z :=
  match n with O => [] | S n => Z.land v 0xff :: write_loop n (Z.shiftr v 8) end.
Definition write_uint64 (v : Z) := write_loop 8 v.
Definition write_uint32 (v : Z) := write_loop 4 v.
Definition write_uint16 (v : Z) := write_loop 2 v.

(** [for (i = 0; i < n; i++) v = (v << 8) | o[n-1-i]], in [w] bits. *)
Definition read_loop (w : Z) (o : list Z) : Z :=
  foldl (λ v b, wrapu w (Z.lor (Z.shiftl v 8) b)) 0 (reverse o).
Definition read_uint (n : nat) (w : Z) (o : list Z) : outcome Z :=
  defined! bool_decide (n ≤ length o)%nat; Ret (read_loop w (take n o)).
Definition read_uint64 := read_uint 8 64.
Definition read_uint32 := read_uint 4 32.
Definition read_uint16 := read_uint 2 16.

Definition compare_wrapped_uint8 (one two : Z) : Z := i8 (one - two).
Definition compare_wrapped_uint16 (one two : Z) : Z := i16 (one - two).

(** ** Hexadecimal text *)

Lemma isxdigit_range x : isxdigit x = true → 0 ≤ x < 128.
Proof.
  unfold isxdigit, isdigit, between. change (chr "0") with 48. change (chr "9") with 57.
  change (chr "A") with 65. change (chr "F") with 70. change (chr "a") with 97. change (chr "f") with 102.
  rewrite !orb_true_iff, !andb_true_iff, !Z.leb_le. intros [[?|?]|?]; lia.
Qed.
Lemma hexvalue_xdigit x : isxdigit x = true → ∃ d, hexvalue x = Ret d ∧ 0 ≤ d < 16.
Proof.
  intros Hx. pose proof (isxdigit_range x Hx) as Hr.
  assert ((if isxdigit x then match hexvalue x with Ret d => (0 <=? d) && (d <? 16) | _ => false end else true) = true) as H
    by exact (forall_range (λ x, if isxdigit x then match hexvalue x with Ret d => (0 <=? d) && (d <? 16) | _ => false end
                               else true) 128 eq_refl x Hr).
  rewrite Hx in H. destruct (hexvalue x) as [d| |]; try done. exists d. bool_props. done.
Qed.
Lemma hexvalue_other x : isxdigit x = false → hexvalue x = Ret (-1).
Proof. intros Hx. unfold hexvalue. by rewrite Hx. Qed.

(** The value of a digit, and the bytes of a text of digits. *)
Definition hexval (x : Z) : Z := match hexvalue x with Ret d => d | _ => 0 end.
Fixpoint unhex (s : list Z) : list Z :=
  match s with h :: l :: s => (16 * hexval h + hexval l) :: unhex s | _ => [] end.

Lemma fromhex_loop_digits k s rest n d : length s = (2 * k)%nat → Forall (λ x, isxdigit x = true) s →
  0 ≤ n → n + Z.of_nat k = d →
  fromhex_loop d n (s ++ rest) = Ret (unhex s, rest) ∧ length (unhex s) = k.
Proof.
  revert s n. induction k as [|k IH]; intros s n Hlen Hs Hn Hd.
  { destruct s; [|done]. split; [|done]. destruct rest; simpl; do 2 decide_cmp; done. }
  destruct s as [|h [|l s]]; [done|simpl in Hlen; lia|]. apply Forall_cons in Hs as [Hh Hs].
  apply Forall_cons in Hs as [Hl Hs].
  destruct (hexvalue_xdigit h Hh) as (dh & Eh & Rh), (hexvalue_xdigit l Hl) as (dl & El & Rl).
  cbn [app fromhex_loop]. rewrite (proj2 (Z.eqb_neq d (-1))), (proj2 (Z.ltb_lt n d)) by lia. cbn [orb].
  rewrite Eh, bind_ret_l, (proj2 (Z.eqb_neq dh (-1))), El, bind_ret_l by lia.
  rewrite (proj2 (Z.eqb_neq dl (-1))) by lia.
  destruct (IH s (n + 1)) as (-> & Hb); [simpl in Hlen; lia|done|lia|lia|]. rewrite bind_ret_l.
  cbn [unhex length fst snd]. split; [|by f_equal]. unfold hexval. rewrite Eh, El, Z.shiftl_mul_pow2 by lia.
  rewrite wrapu_small by lia. do 3 f_equal. lia.
Qed.

Lemma fromhex_loop_short k pre x rest n d : (length pre < 2 * k)%nat → Forall (λ x, isxdigit x = true) pre →
  isxdigit x = false → 0 ≤ n → n + Z.of_nat k = d →
  ∃ bs s, fromhex_loop d n (pre ++ x :: rest) = Ret (bs, s) ∧ (length bs < k)%nat.
Proof.
  revert pre n. induction k as [|k IH]; intros pre n Hlen Hs Hx Hn Hd; [lia|].
  assert ((d =? -1) || (n <? d) = true) as Hgo by (rewrite (proj2 (Z.ltb_lt n d)) by lia; apply orb_true_r).
  destruct pre as [|h [|l pre]]; cbn [app fromhex_loop]; rewrite Hgo.
  - rewrite hexvalue_other by done. eexists [], _. split; [reflexivity|simpl; lia].
  - apply Forall_cons in Hs as [Hh _]. destruct (hexvalue_xdigit h Hh) as (dh & -> & Rh).
    rewrite bind_ret_l, (proj2 (Z.eqb_neq dh (-1))), hexvalue_other by (lia || done).
    eexists [], _. split; [reflexivity|simpl; lia].
  - apply Forall_cons in Hs as [Hh Hs]. apply Forall_cons in Hs as [Hl Hs].
    destruct (hexvalue_xdigit h Hh) as (dh & -> & Rh), (hexvalue_xdigit l Hl) as (dl & El & Rl).
    rewrite bind_ret_l, (proj2 (Z.eqb_neq dh (-1))), El, bind_ret_l by lia.
    rewrite (proj2 (Z.eqb_neq dl (-1))) by lia.
    destruct (IH pre (n + 1)) as (bs & s & -> & Hb); [simpl in Hlen; lia|done|done|lia|lia|].
    eexists _, s. split; [reflexivity|simpl; lia].
Qed.

(** [fromhex] on enough digits, and on too few. *)
Lemma fromhex_digits `{Arch} k s rest : length s = (2 * k)%nat → Forall (λ x, isxdigit x = true) s →
  Z.of_nat k < 2 ^ 31 →
  fromhex (s ++ rest) (Z.of_nat k) = Ret (unhex s, Z.of_nat k) ∧ length (unhex s) = k.
Proof.
  intros Hlen Hs Hk. unfold fromhex, strn_fromhex.
  rewrite wraps_small by (destruct size_bits_ok as [-> | ->]; simpl; lia).
  destruct (fromhex_loop_digits k s rest 0 (Z.of_nat k)) as (-> & Hb); [done|done|lia|lia|].
  rewrite bind_ret_l. cbn [fst]. by rewrite Hb, Z.eqb_refl.
Qed.
Lemma fromhex_short `{Arch} k pre x rest : (length pre < 2 * k)%nat → Forall (λ x, isxdigit x = true) pre →
  isxdigit x = false → Z.of_nat k < 2 ^ 31 →
  ∃ bs n, fromhex (pre ++ x :: rest) (Z.of_nat k) = Ret (bs, n) ∧ n ≠ Z.of_nat k.
Proof.
  intros Hlen Hs Hx Hk. unfold fromhex, strn_fromhex.
  rewrite wraps_small by (destruct size_bits_ok as [-> | ->]; simpl; lia).
  destruct (fromhex_loop_short k pre x rest 0 (Z.of_nat k)) as (bs & s & -> & Hb); [done|done|done|lia|lia|].
  exists bs. rewrite bind_ret_l. cbn [fst]. rewrite (proj2 (Z.eqb_neq _ _)) by lia.
  eexists. split; [done|]. pose proof SIZE_MAX_pos. lia.
Qed.
Lemma fromhex_hex `{Arch} bs rest : Forall is_byte bs → Z.of_nat (length bs) < 2 ^ 31 →
  fromhex (hex bs ++ rest) (Z.of_nat (length bs)) = Ret (bs, Z.of_nat (length bs)).
Proof.
  intros Hb Hlen. unfold fromhex, strn_fromhex.
  rewrite wraps_small by (destruct size_bits_ok as [-> | ->]; simpl; lia).
  rewrite fromhex_loop_hex; [|done|lia|lia|by left]. rewrite bind_ret_l. cbn [fst]. by rewrite Z.eqb_refl.
Qed.

Lemma hex_len bs : length (hex bs) = (2 * length bs)%nat.
Proof. induction bs as [|b bs IH]; [done|]. rewrite hex_cons. simpl. lia. Qed.

(** The text of an identifier is read back, its end found. *)
Lemma parse_hex_text `{Arch} bs rest : Forall is_byte bs → Z.of_nat (length bs) < 2 ^ 31 →
  parse_hex (length bs) (hex bs ++ 0 :: rest) None false = Ret (Some (bs, 0 :: rest)) ∧
  (∀ rest, parse_hex (length bs) (hex bs ++ rest) (Some (2 * length bs)%nat) false = Ret (Some (bs, rest))) ∧
  (∀ rest, parse_hex (length bs) (hex bs ++ rest) None true = Ret (Some (bs, rest))).
Proof.
  intros Hb Hlen. pose proof (hex_len bs) as Hh. unfold parse_hex.
  assert (∀ rest, drop (2 * length bs) (hex bs ++ rest) = rest) as Hdrop.
  { intros r. rewrite <- Hh. apply drop_app_length. }
  rewrite Nat.eqb_refl. cbn [negb]. split_and!; [|intros r..]; rewrite fromhex_hex, bind_ret_l by done;
    cbn [fst snd]; rewrite Z.eqb_refl, Hdrop; cbn [negb]; try done.
  unfold char_at. rewrite <- Hh, lookup_app_r, Nat.sub_diag by lia. done.
Qed.

(** A text that starts with an upper-case digit is not [broadcast]. *)
Lemma hex_not_broadcast bs rest len : Forall is_byte bs → bs ≠ [] →
  strn_startswith (hex bs ++ rest) len broadcast_text = Ret None ∨ len = Some 0%nat.
Proof.
  intros Hb Hne. destruct bs as [|b bs]; [done|]. apply Forall_cons in Hb as [Hb _].
  destruct (nibbles b Hb) as (Hh & _ & _). rewrite hex_cons. cbn [app strn_startswith broadcast_text fmap list_fmap].
  assert ((chr "b" =? hexdigit (Z.shiftr b 4)) = false) as ->.
  { apply negb_true_iff. exact (forall_range (λ x, negb (chr "b" =? hexdigit x)) 16 eq_refl _ Hh). }
  destruct len as [[|k]|]; auto.
Qed.

(** The hexadecimal text of a subscriber identifier, bundle identifier, file
    hash or bundle key is parsed back to it, from a nul-terminated string and from
    the exact number of characters whatever follows them. *)
Theorem id_roundtrip `{Arch} bs rest : Forall is_byte bs →
  (length bs = SID_SIZE →
     str_to_sid_t (hex bs ++ [0]) = Ret (Some bs) ∧ strn_to_sid_t (hex bs ++ rest) SID_STRLEN = Ret (Some bs) ∧
     str_to_rhizome_bid_t (hex bs ++ [0]) = Ret (Some bs) ∧ strn_to_rhizome_bid_t (hex bs ++ rest) 64 = Ret (Some bs) ∧
     str_to_rhizome_bk_t (hex bs ++ [0]) = Ret (Some bs) ∧ strn_to_rhizome_bk_t (hex bs ++ rest) 64 = Ret (Some bs)) ∧
  (length bs = RHIZOME_FILEHASH_BYTES →
     str_to_rhizome_filehash_t (hex bs ++ [0]) = Ret (Some bs) ∧
     strn_to_rhizome_filehash_t (hex bs ++ rest) 128 = Ret (Some bs)).
Proof.
  intros Hb. split; intros Hlen;
    (destruct (parse_hex_text bs [] Hb) as (H1 & H2 & _); [rewrite Hlen; done|]); rewrite Hlen in H1, H2.
  - assert (∀ rest len, len ≠ Some 0%nat → strn_startswith (hex bs ++ rest) len broadcast_text = Ret None) as Hnb.
    { intros r len Hl. destruct (hex_not_broadcast bs r len Hb) as [E|E]; [by intros ->|done|done]. }
    unfold str_to_sid_t, strn_to_sid_t, parse_sid_t. rewrite !Hnb by done. rewrite !bind_ret_l.
    unfold str_to_rhizome_bid_t, strn_to_rhizome_bid_t, str_to_rhizome_bk_t, strn_to_rhizome_bk_t,
      parse_rhizome_bid_t, parse_rhizome_bk_t.
    change RHIZOME_BUNDLE_ID_BYTES with SID_SIZE. change RHIZOME_BUNDLE_KEY_BYTES with SID_SIZE.
    rewrite H1. change (Some SID_STRLEN) with (Some (2 * SID_SIZE)%nat). change (Some 64%nat) with (Some (2 * SID_SIZE)%nat).
    rewrite H2. done.
  - unfold str_to_rhizome_filehash_t, strn_to_rhizome_filehash_t, parse_rhizome_filehash_t. rewrite H1.
    change (Some 128%nat) with (Some (2 * RHIZOME_FILEHASH_BYTES)%nat). rewrite H2. done.
Qed.

Lemma id_roundtrip_witness :
  @str_to_sid_t arm32 (hex (replicate 32 0x5A) ++ [0]) = Ret (Some (replicate 32 0x5A)).
Proof.
  exact (proj1 (proj1 (@id_roundtrip arm32 (replicate 32 0x5A) [] ltac:(by apply (bool_decide_unpack _))) eq_refl)).
Defined.

(** ** Which texts are accepted *)

Definition xdigits (t : list Z) : Prop := Forall (λ x, isxdigit x = true) t.

(** The first [k] characters are digits, or one of them is not. *)
Lemma xdigits_split k t : (∃ s r, t ++ [0] = s ++ r ∧ length s = k ∧ xdigits s) ∨
  (∃ pre x r, t ++ [0] = pre ++ x :: r ∧ (length pre < k)%nat ∧ xdigits pre ∧ isxdigit x = false).
Proof.
  revert t. induction k as [|k IH]; intros t; [left; exists [], (t ++ [0]); split_and!; [done|done|constructor]|].
  destruct t as [|x t]; [right; exists [], 0, []; split_and!; [done|simpl; lia|constructor|done]|].
  destruct (isxdigit x) eqn:Ex; [|right; exists [], x, (t ++ [0]); split_and!; [done|simpl; lia|constructor|done]].
  destruct (IH t) as [(s & r & E & Hl & Hs)|(pre & y & r & E & Hl & Hs & Hy)]; cbn [app]; rewrite E.
  - left. exists (x :: s), r. split_and!; [done|simpl; lia|by constructor].
  - right. exists (x :: pre), y, r. split_and!; [done|simpl; lia|by constructor|done].
Qed.

Lemma nul_position t k : 0 ∉ t → (k ≤ length t)%nat →
  ∃ x, char_at (t ++ [0]) k = Ret x ∧ (x = 0 ↔ length t = k).
Proof.
  intros Hz Hk. unfold char_at. destruct (decide (length t = k)) as [<-|Hne].
  - exists 0. rewrite lookup_app_r, Nat.sub_diag by lia. done.
  - destruct (lookup_lt_is_Some_2 t k ltac:(lia)) as [x Hx]. exists x. rewrite lookup_app_l, Hx by lia.
    split; [done|]. split; [|done]. intros ->. exfalso. apply Hz. by eapply list_elem_of_lookup_2.
Qed.

Lemma app_nul_prefix t s r k : 0 ∉ t → t ++ [0] = s ++ r → length s = k → xdigits s →
  (k ≤ length t)%nat ∧ s = take k t.
Proof.
  intros Hz E Hl Hs. assert (k ≤ length t)%nat as Hk.
  { destruct (decide (k ≤ length t)%nat) as [|Hgt]; [done|]. exfalso.
    assert (length (t ++ [0%Z]) = k + length r)%nat as Hlen by (rewrite E, length_app; lia).
    rewrite length_app in Hlen. simpl in Hlen. assert (r = []) as -> by (destruct r; [done|simpl in Hlen; lia]).
    rewrite app_nil_r in E. subst s. apply Forall_app in Hs as [_ Hs]. apply Forall_cons in Hs as [Hs _]. done. }
  split; [done|]. rewrite <- (take_app_le t [0] k), E by done. rewrite <- Hl. by rewrite take_app_length.
Qed.

Lemma parse_hex_exact `{Arch} n t : 0 ∉ t → Z.of_nat n < 2 ^ 31 →
  ∃ r, value_of (parse_hex n (t ++ [0]) None false) = Ret r ∧
    (is_Some r ↔ length t = (2 * n)%nat ∧ xdigits t).
Proof.
  intros Hz Hn. unfold parse_hex.
  destruct (xdigits_split (2 * n) t) as [(s & r & E & Hl & Hs)|(pre & x & r & E & Hl & Hs & Hx)].
  - destruct (app_nul_prefix t s r _ Hz E Hl Hs) as [Hle Es].
    destruct (fromhex_digits n s r Hl Hs Hn) as (Hf & Hb).
    rewrite E, Hf, bind_ret_l. cbn [snd fst]. rewrite Z.eqb_refl. cbn [negb]. rewrite <- E.
    destruct (nul_position t (2 * n) Hz Hle) as (x & -> & Hx). rewrite !bind_ret_l.
    eexists. split; [reflexivity|]. destruct (Z.eqb_spec x 0) as [->|Hne]; simpl.
    + assert (length t = 2 * n)%nat as Ht by tauto. split; [|by eexists]. intros _. split; [done|].
      rewrite Es, take_ge in Hs by lia. done.
    + split; [by intros [? ?]|tauto].
  - destruct (fromhex_short n pre x r Hl Hs Hx Hn) as (bs & m & Hf & Hm).
    rewrite E, Hf, bind_ret_l. cbn [snd]. rewrite (proj2 (Z.eqb_neq _ _) Hm). cbn [negb].
    exists None. split; [done|]. split; [by intros [? ?]|]. intros [Ht Hall]. exfalso.
    assert (t !! length pre = Some x) as Hp.
    { rewrite <- (lookup_app_l t [0]) by lia. by rewrite E, lookup_app_r, Nat.sub_diag by lia. }
    unfold xdigits in Hall. rewrite Forall_lookup in Hall. rewrite (Hall _ _ Hp) in Hx. done.
Qed.

(** Comparing with [broadcast] in either case of letters. *)
Lemma strncasecmp_text t c : 0 ∉ c → (∀ x, x ∈ c → tolower x = x) →
  ∃ r, strncasecmp (t ++ [0]) (c ++ [0]) (length c) = Ret r ∧
    (r = 0 ↔ tolower <$> take (length c) t = c).
Proof.
  intros Hz Hlow. revert t. unfold strncasecmp. induction c as [|y c IH]; intros t; [by exists 0|].
  apply not_elem_of_cons in Hz as [Hy Hz]. assert (tolower y = y) as Ey by (apply Hlow; by left).
  assert (∀ x, x ∈ c → tolower x = x) as Hlow' by (intros x Hx; apply Hlow; by right).
  cbn [length app cmp_loop]. destruct t as [|x t]; cbn [app take fmap list_fmap]; rewrite Ey.
  - change (tolower 0) with 0. destruct (Z.ltb_spec 0 y); [exists (-1); split; [done|]; split; [lia|done]|].
    destruct (Z.ltb_spec y 0); [exists 1; split; [done|]; split; [lia|done]|]. exfalso. lia.
  - destruct (Z.ltb_spec (tolower x) y); [exists (-1); split; [done|]; split; [lia|intros [=]; lia]|].
    destruct (Z.ltb_spec y (tolower x)); [exists 1; split; [done|]; split; [lia|intros [=]; lia]|].
    assert (tolower x = y) as Ex by lia. rewrite (proj2 (Z.eqb_neq x 0)).
    2: { intros ->. change (tolower 0) with 0 in Ex. congruence. }
    destruct (IH Hz Hlow' t) as (r & -> & Hr). exists r. split; [done|]. rewrite Hr, Ex.
    split; [by intros ->|by intros [=]].
Qed.

Lemma is_xsubstring_spec k t : ∃ b, is_xsubstring (t ++ [0]) k = Ret b ∧
  (b = true ↔ (k ≤ length t)%nat ∧ xdigits (take k t)).
Proof.
  revert t. induction k as [|k IH]; intros t.
  { exists true. split; [by destruct t|]. split; [|done]. intros _. split; [lia|constructor]. }
  destruct t as [|x t]; cbn [app is_xsubstring].
  { exists false. split; [done|]. split; [done|]. simpl. lia. }
  destruct (isxdigit x) eqn:Ex.
  - destruct (IH t) as (b & -> & Hb). exists b. split; [done|]. rewrite Hb. cbn [length take].
    unfold xdigits. rewrite Forall_cons. split; [intros [? ?]; split_and!; [lia|done|done]|].
    intros (? & ? & ?). split; [lia|done].
  - exists false. split; [done|]. split; [done|]. cbn [take]. intros [_ [? _]%Forall_cons]. congruence.
Qed.

Lemma startswith_broadcast t : 0 ∉ t → ∃ r, strn_startswith (t ++ [0]) None broadcast_text = Ret r ∧
  match r with
  | Some e => ∃ t', t = broadcast_text ++ t' ∧ e = t' ++ [0]
  | None => ∀ t', t ≠ broadcast_text ++ t'
  end.
Proof.
  intros Hz. assert (0 ∉ broadcast_text) as Hb by (by apply (bool_decide_unpack _)).
  revert Hz Hb. generalize broadcast_text as c. induction t as [|x t IH]; intros c Hc Hz.
  - destruct c as [|y c]; [eexists; split; [reflexivity|by exists []]|].
    cbn [app strn_startswith]. apply not_elem_of_cons in Hz as [Hy _].
    rewrite (proj2 (Z.eqb_neq y 0)) by congruence. by exists None.
  - destruct c as [|y c]; [eexists; split; [reflexivity|by exists (x :: t)]|].
    apply not_elem_of_cons in Hc as [Hx Hc]. apply not_elem_of_cons in Hz as [Hy Hz].
    cbn [app strn_startswith]. destruct (Z.eqb_spec y x) as [->|Hne].
    + destruct (IH c Hc Hz) as (r & Hr & Hspec). exists r. split; [exact Hr|]. destruct r.
      * destruct Hspec as (t' & -> & ->). by exists t'.
      * intros t' [= ->]. by apply (Hspec t').
    + exists None. split; [done|]. intros t' [=]. done.
Qed.

(** [str_to_sid_t] accepts the word [broadcast] and 64 hexadecimal digits and
    nothing else; [str_is_subscriber_id] accepts the same digits, and [broadcast]
    in any mixture of cases. *)
Theorem sid_syntax `{Arch} t : 0 ∉ t →
  (∃ r, str_to_sid_t (t ++ [0]) = Ret r ∧
     (is_Some r ↔ t = broadcast_text ∨ (length t = SID_STRLEN ∧ xdigits t))) ∧
  (∃ b, str_is_subscriber_id (t ++ [0]) = Ret b ∧
     (b = true ↔ tolower <$> t = broadcast_text ∨ (length t = SID_STRLEN ∧ xdigits t))).
Proof.
  intros Hz. split.
  - unfold str_to_sid_t, parse_sid_t. destruct (startswith_broadcast t Hz) as ([e|] & -> & Hs); rewrite bind_ret_l.
    + destruct Hs as (t' & -> & ->). apply not_elem_of_app in Hz as [_ Hz'].
      destruct (nul_position t' 0 Hz' ltac:(lia)) as (x & -> & Hx). rewrite !bind_ret_l.
      eexists. split; [reflexivity|]. destruct (Z.eqb_spec x 0) as [->|Hne]; simpl.
      * assert (t' = []) as -> by (apply length_zero_iff_nil; tauto). split; [by left|by eexists].
      * split; [by intros [? ?]|]. intros [E|[_ E]].
        -- exfalso. apply Hne, Hx. assert (t' = []) as -> by (apply (app_inv_head broadcast_text); by rewrite app_nil_r). done.
        -- apply Forall_cons in E as [_ E]. by apply Forall_cons in E as [E _].
    + destruct (parse_hex_exact SID_SIZE t Hz ltac:(done)) as (r & Hr & Hspec). exists r. split; [exact Hr|].
      rewrite Hspec. split; [tauto|]. intros [->|?]; [|done]. exfalso. by apply (Hs []).
  - unfold str_is_subscriber_id, whole, strn_is_subscriber_id.
    destruct (strncasecmp_text t broadcast_text) as (r & Hr & Hspec).
    { by apply (bool_decide_unpack _). }
    { intros x Hx. apply list_elem_of_In in Hx. repeat destruct Hx as [<-|Hx]; done. }
    change (length broadcast_text) with 9%nat in *. rewrite Hr, bind_ret_l.
    destruct (Z.eqb_spec r 0) as [->|Hne].
    + rewrite bind_ret_l. assert (tolower <$> take 9 t = broadcast_text) as Ht by tauto.
      assert (9 ≤ length t)%nat as Hlen.
      { apply (f_equal length) in Ht. rewrite length_fmap, length_take in Ht.
        change (length broadcast_text) with 9%nat in Ht. lia. }
      destruct (nul_position t 9 Hz Hlen) as (x & -> & Hx). eexists. split; [reflexivity|].
      rewrite Z.eqb_eq, Hx. split.
      * intros E. left. by rewrite take_ge in Ht by lia.
      * intros [E|[E Hd]]; [by rewrite <- (length_fmap tolower), E|]. exfalso.
        destruct t as [|a [|b t]]; [done|done|]. apply Forall_cons in Hd as [_ Hd].
        apply Forall_cons in Hd as [Hd _]. simpl in Ht. injection Ht as _ Hb _.
        pose proof (isxdigit_range b Hd) as Hr'. revert Hb.
        assert (negb (isxdigit b && (tolower b =? chr "r")) = true) as Hn
          by exact (forall_range (λ b, negb (isxdigit b && (tolower b =? chr "r"))) 128 eq_refl b Hr').
        rewrite Hd in Hn. simpl in Hn. apply negb_true_iff, Z.eqb_neq in Hn. done.
    + destruct (is_xsubstring_spec SID_STRLEN t) as (b & -> & Hb). rewrite !bind_ret_l.
      assert (tolower <$> t ≠ broadcast_text) as Hnb.
      { intros E. apply Hne, Hspec. rewrite fmap_take, E. done. }
      destruct b.
      * destruct Hb as [[Hle Hd] _]; [done|]. destruct (nul_position t SID_STRLEN Hz Hle) as (x & -> & Hx).
        eexists. split; [reflexivity|]. rewrite Z.eqb_eq, Hx. split; [|tauto]. intros E. right. split; [done|].
        rewrite take_ge in Hd by lia. done.
      * eexists. split; [reflexivity|]. split; [done|]. intros [?|[E Hd]]; [done|]. apply Hb.
        rewrite take_ge by lia. split; [lia|done].
Qed.

Lemma sid_syntax_witness : ∃ r, @str_to_sid_t arm64 (broadcast_text ++ [0]) = Ret r ∧ is_Some r.
Proof.
  destruct (proj1 (@sid_syntax arm64 broadcast_text ltac:(by apply (bool_decide_unpack _)))) as (r & Hr & Hi).
  exists r. split; [exact Hr|]. apply Hi. by left.
Defined.

(** ** Phone numbers *)

Lemma did_loop_spec n t : 0 ∉ t → ∃ i, did_loop n (t ++ [0]) = Ret i ∧ (i ≤ n)%nat ∧ (i ≤ length t)%nat ∧
  Forall (λ x, is_didchar x = true) (take i t) ∧ (i = n ∨ i = length t ∨ ¬ Forall (λ x, is_didchar x = true) t).
Proof.
  revert t. induction n as [|n IH]; intros t Hz.
  { exists 0%nat. split; [done|]. split_and!; [lia|lia|constructor|by left]. }
  destruct t as [|x t]; cbn [app did_loop].
  { exists 0%nat. split; [done|]. split_and!; [lia|simpl; lia|constructor|right; by left]. }
  apply not_elem_of_cons in Hz as [Hx Hz]. destruct (is_didchar x) eqn:Ex.
  - destruct (IH t Hz) as (i & -> & Hi & Hl & Hf & Hstop). exists (S i). split; [done|].
    split_and!; [lia|simpl; lia|simpl; by constructor|]. simpl. destruct Hstop as [->|[->|Hno]]; [tauto|tauto|].
    right. right. by intros [_ ?]%Forall_cons.
  - exists 0%nat. split; [done|]. split_and!; [lia|simpl; lia|constructor|]. right. right.
    intros [? _]%Forall_cons. congruence.
Qed.

(** [str_is_did] accepts exactly 5 to 32 digits and stars, hashes and pluses. *)
Lemma did_syntax t : 0 ∉ t → ∃ b, str_is_did (t ++ [0]) = Ret b ∧
  (b = true ↔ (DID_MINSIZE ≤ length t ≤ DID_MAXSIZE)%nat ∧ Forall (λ x, is_didchar x = true) t).
Proof.
  intros Hz. unfold str_is_did, whole, strn_is_did.
  destruct (did_loop_spec DID_MAXSIZE t Hz) as (i & -> & Hi & Hl & Hf & Hstop). rewrite !bind_ret_l.
  case_bool_decide as Hmin.
  - eexists. split; [reflexivity|]. split; [done|]. intros [Hr Hall]. exfalso.
    unfold DID_MINSIZE, DID_MAXSIZE in *. destruct Hstop as [?|[?|?]]; [lia|lia|done].
  - destruct (nul_position t i Hz Hl) as (x & -> & Hx). eexists. split; [reflexivity|].
    rewrite Z.eqb_eq, Hx. split.
    + intros E. split; [lia|]. by rewrite take_ge in Hf by lia.
    + intros [Hr Hall]. destruct Hstop as [->|[?|?]]; [lia|done|done].
Qed.

(** ** Integers *)

Lemma write_loop_bytes n v : write_loop n v = le_bytes n v.
Proof.
  revert v. induction n as [|n IH]; intros v; [done|]. cbn [write_loop le_bytes].
  by rewrite land_255, Z.shiftr_div_pow2, IH by lia.
Qed.

Lemma read_fold w l v k : (∀ b, b ∈ l → is_byte b) → 0 ≤ v < 2 ^ (8 * k) → 0 ≤ k →
  8 * (k + Z.of_nat (length l)) ≤ w →
  foldl (λ v b, wrapu w (Z.lor (Z.shiftl v 8) b)) v l = v * 2 ^ (8 * Z.of_nat (length l)) + le_value (reverse l).
Proof.
  revert v k. induction l as [|b l IH]; intros v k Hb Hv Hk Hw; [simpl; lia|]. cbn [foldl length] in *.
  assert (is_byte b) as Hbb by (apply Hb; by left).
  assert (Z.lor (Z.shiftl v 8) b = v * 256 + b) as -> by (apply (lor_shiftl_add v b 8); [lia|exact Hbb]).
  assert (2 ^ (8 * (k + 1)) = 256 * 2 ^ (8 * k)) as Hp.
  { replace (8 * (k + 1)) with (8 + 8 * k) by lia. by rewrite Z.pow_add_r by lia. }
  assert (2 ^ (8 * (k + 1)) ≤ 2 ^ w) as Hpw by (apply Z.pow_le_mono_r; lia).
  unfold is_byte in Hbb. rewrite wrapu_small by lia.
  rewrite (IH _ (k + 1)); [|intros c Hc; apply Hb; by right|lia|lia|lia].
  rewrite reverse_cons.
  assert (∀ l1 c, le_value (l1 ++ [c]) = le_value l1 + 2 ^ (8 * Z.of_nat (length l1)) * c) as Hsnoc.
  { clear. intros l1 c. induction l1 as [|a l1 IH]; [simpl; lia|]. cbn [app le_value length]. rewrite IH.
    replace (8 * Z.of_nat (S (length l1))) with (8 + 8 * Z.of_nat (length l1)) by lia.
    rewrite Z.pow_add_r by lia. change (2 ^ 8) with 256. ring. }
  rewrite Hsnoc, length_reverse.
  replace (8 * Z.of_nat (S (length l))) with (8 + 8 * Z.of_nat (length l)) by lia.
  rewrite Z.pow_add_r by lia. change (2 ^ 8) with 256. ring.
Qed.

Lemma read_uint_bytes n w v rest : 8 * Z.of_nat n ≤ w → 0 ≤ v < 2 ^ (8 * Z.of_nat n) →
  read_uint n w (le_bytes n v ++ rest) = Ret v.
Proof.
  intros Hw Hv. unfold read_uint. rewrite bool_decide_true by (rewrite length_app, le_bytes_length; lia).
  f_equal. unfold read_loop. rewrite take_app_length' by (by rewrite le_bytes_length).
  rewrite (read_fold w _ 0 0); [|..]; rewrite ?length_reverse, ?le_bytes_length; try lia.
  - rewrite reverse_involutive, le_value_bytes by done. lia.
  - intros b Hb. rewrite elem_of_reverse in Hb. by apply (proj1 (Forall_forall _ _) (le_bytes_bytes n v)).
Qed.

(** Integers are written in little-endian order and read back. *)
Lemma uint_roundtrip v rest :
  (0 ≤ v < 2 ^ 64 → read_uint64 (write_uint64 v ++ rest) = Ret v) ∧
  (0 ≤ v < 2 ^ 32 → read_uint32 (write_uint32 v ++ rest) = Ret v) ∧
  (0 ≤ v < 2 ^ 16 → read_uint16 (write_uint16 v ++ rest) = Ret v).
Proof.
  unfold write_uint64, write_uint32, write_uint16. rewrite !write_loop_bytes.
  split_and!; intros Hv; apply read_uint_bytes; (lia || done).
Qed.

(** Comparison of wrapping counters gives the signed distance. *)
Lemma compare_wrapped_distance a d :
  (-128 ≤ d < 128 → compare_wrapped_uint8 (u8 (a + d)) (u8 a) = d) ∧
  (-32768 ≤ d < 32768 → compare_wrapped_uint16 (u16 (a + d)) (u16 a) = d).
Proof.
  unfold compare_wrapped_uint8, compare_wrapped_uint16, wraps, wrapu. simpl. split; intros Hd; div_lia.
Qed.

End DataFormats.
