(* ===== verification/MdpCursor.v ===== *)
(** * Buffered input for the packet filter parser (mdp_filter.c)

    A cursor reads a file through a buffer of 1024 bytes, in which it keeps what
    has been pinned so that the parser can go back to it. *)

From S2P Require Import Prelude StrCtype StrNum StrScan.
Import StrScan.

Module MdpCursor.

(** ** State *)

(** A FILE open for reading: what is left to read, the end-of-file flag, and whether what
    is left is followed by an error instead of the end. When fread(3) returns less than it
    was asked for it sets the end-of-file flag, or the error flag, which is not looked at. *)
Record file := Stream { unread : list Z; feof : bool; read_fails : bool }.
Definition File (text : list Z) (eof : bool) : file := Stream text eof false.

Definition fread (n : nat) (f : file) : list Z * file :=
  (take n (unread f), Stream (drop n (unread f)) (feof f || negb (read_fails f) && bool_decide (length (unread f) < n)%nat) (read_fails f)).

Definition BUFFER_SIZE : nat := 1024.

(** The pointers are offsets into the buffer; [data] is its content up to [end]. *)
Record cursor := Cursor {
  stream : file;
  data : list Z;
  current : nat;
  pin_ : option nat;
  pins : nat;
}.

Definition end_ (c : cursor) : nat := length (data c).

Definition set_current (c : cursor) (p : nat) : cursor := Cursor (stream c) (data c) p (pin_ c) (pins c).
Definition set_pins (c : cursor) (p : option nat) (n : nat) : cursor := Cursor (stream c) (data c) (current c) p n.

Definition init_cursor (f : file) : cursor := Cursor f [] 0 None 0.

(** ** Operations *)

Definition available (c : cursor) : outcome nat :=
  assert! bool_decide (current c ≤ end_ c)%nat;
  Ret (end_ c - current c)%nat.

(** The loop of [_preload]. It reads at most once more than it makes room, and
    makes room at most once: four rounds are enough, unless a read fails
    ([read_error_hangs]). *)
Fixpoint preload_loop (fuel : nat) (c : cursor) (n : nat) : outcome cursor :=
  let avail := (end_ c - current c)%nat in
  if bool_decide (avail < n)%nat && negb (feof (stream c)) then
    match fuel with
    | O => Undef
    | S fuel =>
        let space := (BUFFER_SIZE - end_ c)%nat in
        stale ← match pin_ c with
                | Some p => assert! bool_decide (p ≤ current c)%nat; Ret p
                | None => Ret (current c)
                end;
        let ahead := if bool_decide (n ≤ avail + space)%nat then (n - avail)%nat
                     else if Nat.eqb stale 0 then space else 0%nat in
        if negb (Nat.eqb ahead 0) then
          let '(bytes, f) := fread ahead (stream c) in
          preload_loop fuel (Cursor f (data c ++ bytes) (current c) (pin_ c) (pins c)) n
        else if negb (Nat.eqb stale 0) then
          assert! bool_decide (stale ≤ end_ c)%nat;
          match pin_ c with
          | Some p =>
              preload_loop fuel (Cursor (stream c) (drop stale (data c)) (current c - stale) (Some 0%nat) (pins c)) n
          | None =>
              preload_loop fuel (Cursor (stream c) (drop stale (data c)) 0 None (pins c)) n
          end
        else Ret c
    end
  else Ret c.
Definition preload (c : cursor) (n : nat) : outcome cursor :=
  assert! bool_decide (current c ≤ end_ c)%nat;
  preload_loop 4 c n.

Definition eof (c : cursor) : outcome (cursor * bool) :=
  c ← preload c 1;
  assert! bool_decide (current c ≤ end_ c)%nat;
  Ret (c, Nat.eqb (current c) (end_ c) && feof (stream c)).

(** EOF is -1; characters are their unsigned values. *)
Definition peek (c : cursor) : outcome (cursor * Z) :=
  r ← eof c;
  let '(c, b) := r in
  if b : bool then Ret (c, -1)
  else
    assert! bool_decide (current c < end_ c)%nat;
    x ← char_at (data c) (current c);
    Ret (c, x).

(** The readable characters from the current one on. *)
Definition preloaded (c : cursor) : outcome (list Z) :=
  assert! bool_decide (current c < end_ c)%nat;
  Ret (drop (current c) (data c)).

Definition skip (c : cursor) (text : list Z) : outcome (cursor * bool) :=
  c ← preload c (length text);
  n ← available c;
  if bool_decide (length text ≤ n)%nat then
    r ← str_startswith (drop (current c) (data c)) text;
    match r with
    | Some after => Ret (set_current c (end_ c - length after), true)
    | None => Ret (c, false)
    end
  else Ret (c, false).

Definition next (c : cursor) : outcome cursor :=
  assert! bool_decide (current c < end_ c)%nat;
  Ret (set_current c (S (current c))).

Definition advance_to (c : cursor) (pos : nat) : outcome cursor :=
  assert! bool_decide (current c ≤ pos)%nat;
  assert! bool_decide (pos ≤ end_ c)%nat;
  Ret (set_current c pos).

Definition pin (c : cursor) : outcome (cursor * nat) :=
  assert! bool_decide (current c < end_ c)%nat;
  match pin_ c with
  | Some p =>
      assert! bool_decide (p ≤ current c)%nat;
      Ret (set_pins c (Some p) (S (pins c)), (current c - p)%nat)
  | None => Ret (set_pins c (Some (current c)) (S (pins c)), 0%nat)
  end.

(** The assertions and the bookkeeping that [_retreat] and [_unpin] share. *)
Definition release (c : cursor) (p : nat) (back : bool) : outcome cursor :=
  assert! bool_decide (current c ≤ end_ c)%nat;
  assert! bool_decide (0 < pins c)%nat;
  match pin_ c with
  | None => Aborted
  | Some q =>
      assert! bool_decide (q ≤ current c)%nat;
      assert! bool_decide (q + p ≤ current c)%nat;
      let c := if back then set_current c (q + p) else c in
      Ret (set_pins c (if Nat.eqb (pred (pins c)) 0 then None else Some q) (pred (pins c)))
  end.
Definition retreat (c : cursor) (p : nat) : outcome cursor := release c p true.
Definition unpin (c : cursor) (p : nat) : outcome cursor := release c p false.

(** ** What a cursor stands for *)

(** The text from the current character on, and the pinned text before it. *)
Definition remaining (c : cursor) : list Z := drop (current c) (data c) ++ unread (stream c).
Definition pinned (c : cursor) : list Z :=
  match pin_ c with Some p => take (current c - p) (drop p (data c)) | None => [] end.
Definition avail (c : cursor) : nat := (end_ c - current c)%nat.

Record ok (c : cursor) : Prop := {
  ok_current : (current c ≤ end_ c)%nat;
  ok_end : (end_ c ≤ BUFFER_SIZE)%nat;
  ok_pin : match pin_ c with Some p => (p ≤ current c)%nat ∧ (0 < pins c)%nat | None => pins c = 0%nat end;
  ok_eof : read_fails (stream c) = false ∧ (feof (stream c) = true → unread (stream c) = []);
}.

(** The most the parser ever asks for, and how much pinned text leaves room for
    it. *)
Definition LOOKAHEAD : nat := 64.
Definition roomy (c : cursor) : Prop := (length (pinned c) + LOOKAHEAD ≤ BUFFER_SIZE)%nat.

(** [c'] differs from [c] in what is buffered only. *)
Record same_text (c c' : cursor) : Prop := {
  st_remaining : remaining c' = remaining c;
  st_pinned : pinned c' = pinned c;
  st_pins : pins c' = pins c;
  st_pin : is_Some (pin_ c') ↔ is_Some (pin_ c);
}.

Lemma same_text_refl c : same_text c c.
Proof. by split. Qed.
Lemma same_text_trans c1 c2 c3 : same_text c1 c2 → same_text c2 c3 → same_text c1 c3.
Proof. intros [] []. split; [congruence..|tauto]. Qed.

Lemma pinned_length c : ok c → length (pinned c) = match pin_ c with Some p => (current c - p)%nat | None => 0%nat end.
Proof.
  intros [Hc He Hp _]. unfold pinned, end_ in *. destruct (pin_ c) as [p|]; [|done].
  rewrite length_take, length_drop. lia.
Qed.

Lemma remaining_length c : ok c → length (remaining c) = (avail c + length (unread (stream c)))%nat.
Proof. intros [Hc He Hp _]. unfold remaining, avail, end_ in *. rewrite length_app, length_drop. lia. Qed.

(** What [preload] guarantees. *)
Record loaded (c c' : cursor) (n : nat) : Prop := {
  ld_ok : ok c';
  ld_same : same_text c c';
  ld_avail : avail c' = Nat.max (avail c) (Nat.min n (length (remaining c)));
  ld_eof : (avail c' < n)%nat → feof (stream c') = true;
}.

(** Enough is buffered, or the file has ended. *)
Lemma preload_done fuel c n : ok c → (n ≤ avail c)%nat ∨ feof (stream c) = true →
  preload_loop fuel c n = Ret c ∧ loaded c c n.
Proof.
  intros Hok Hd. split.
  - destruct fuel; cbn [preload_loop]; fold (avail c);
      (destruct Hd as [Hd| ->]; [rewrite bool_decide_false by lia; done|by rewrite andb_false_r]).
  - pose proof (remaining_length c Hok) as Hr. split; [done|apply same_text_refl| |].
    + destruct Hd as [Hd|Hd]; [lia|]. rewrite (proj2 (ok_eof _ Hok) Hd) in Hr. simpl in Hr. lia.
    + destruct Hd; [lia|done].
Qed.

(** One read is enough when there is room for it. *)
Lemma preload_read fuel c n : ok c → (avail c < n)%nat → feof (stream c) = false →
  (n ≤ BUFFER_SIZE - current c)%nat →
  ∃ c', preload_loop (S fuel) c n = Ret c' ∧ loaded c c' n.
Proof.
  intros Hok Ha Hf Hroom. pose proof Hok as [Hc He Hp [Hfail _]].
  cbn [preload_loop]. fold (avail c). rewrite bool_decide_true, Hf by done. cbn [negb andb].
  assert (∃ stale, match pin_ c with Some p => if bool_decide (p ≤ current c)%nat then Ret p else Aborted
                   | None => Ret (current c) end = Ret stale) as [stale ->].
  { destruct (pin_ c); [|by eexists]. rewrite bool_decide_true by lia. by eexists. }
  rewrite bind_ret_l, (bool_decide_true (n ≤ _)%nat) by (unfold avail, end_, BUFFER_SIZE in *; lia).
  rewrite (proj2 (Nat.eqb_neq _ _)) by lia. cbn [negb]. unfold fread.
  set (c1 := Cursor _ _ _ _ _).
  assert (avail c1 = avail c + Nat.min (n - avail c) (length (unread (stream c))))%nat as Ha1.
  { unfold c1, avail, end_ in *. simpl. rewrite length_app, length_take. lia. }
  assert (remaining c1 = remaining c) as Hrem.
  { unfold remaining, c1. simpl. rewrite drop_app_le by (unfold end_ in Hc; lia).
    by rewrite <- app_assoc, take_drop. }
  assert (ok c1) as Hok1.
  { split; unfold c1, end_; simpl; [rewrite length_app; unfold end_ in *; lia| |done|].
    - rewrite length_app, length_take. unfold avail, end_ in *. lia.
    - rewrite Hf, Hfail. simpl. split; [done|]. intros Hs%bool_decide_eq_true. apply drop_ge. lia. }
  destruct (preload_done fuel c1 n Hok1) as [-> Hl].
  { destruct (decide (length (unread (stream c)) < n - avail c)%nat) as [Hshort|Hlong]; [right|left; lia].
    unfold c1. simpl. rewrite Hfail, bool_decide_true by done. apply orb_true_r. }
  exists c1. split; [done|]. split; [done| |destruct Hl as [_ _ Hl _]; rewrite Hl, Hrem|apply Hl].
  - split; try done. unfold pinned, c1. simpl. destruct (pin_ c) as [p|]; [|done].
    unfold end_ in *. rewrite drop_app_le by lia. by rewrite take_app_le by (rewrite length_drop; lia).
  - pose proof (remaining_length c Hok). lia.
Qed.

(** Making room by dropping what is neither pinned nor ahead. *)
Lemma preload_shift fuel c n stale : ok c → (avail c < n)%nat → feof (stream c) = false →
  (BUFFER_SIZE - current c < n)%nat → stale = match pin_ c with Some p => p | None => current c end →
  (0 < stale)%nat →
  let c1 := Cursor (stream c) (drop stale (data c)) (current c - stale) ((λ _, 0%nat) <$> pin_ c) (pins c) in
  preload_loop (S fuel) c n = preload_loop fuel c1 n ∧ ok c1 ∧ same_text c c1 ∧ avail c1 = avail c.
Proof.
  intros Hok Ha Hf Hroom Hst Hpos c1. pose proof Hok as [Hc He Hp Heof].
  assert (stale ≤ current c)%nat as Hle by (subst stale; destruct (pin_ c); lia).
  split_and!.
  - cbn [preload_loop]. fold (avail c). rewrite bool_decide_true, Hf by done. cbn [negb andb].
    assert (match pin_ c with Some p => if bool_decide (p ≤ current c)%nat then Ret p else Aborted
            | None => Ret (current c) end = Ret stale) as ->.
    { subst stale. destruct (pin_ c); [|done]. by rewrite bool_decide_true by lia. }
    rewrite bind_ret_l, (bool_decide_false (n ≤ _)%nat) by (unfold avail, end_, BUFFER_SIZE in *; lia).
    rewrite (proj2 (Nat.eqb_neq stale 0)) by lia. cbn [Nat.eqb negb].
    rewrite bool_decide_true by lia. unfold c1. destruct (pin_ c) as [p|]; simpl; [done|].
    subst stale. by rewrite Nat.sub_diag.
  - unfold end_ in *. split; unfold c1, end_; simpl; rewrite ?length_drop; try done; [lia|lia|].
    destruct (pin_ c); simpl; [split; [lia|apply Hp]|done].
  - split; try done.
    + unfold remaining, c1. simpl. rewrite drop_drop. by replace (stale + (current c - stale))%nat with (current c) by lia.
    + unfold pinned, c1. simpl. destruct (pin_ c) as [p|]; simpl; [|done]. subst stale.
      by rewrite drop_0, Nat.sub_0_r.
    + unfold c1. simpl. destruct (pin_ c); simpl; split; intros [? ?]; eauto; done.
  - unfold avail, c1, end_. simpl. rewrite length_drop. lia.
Qed.

Lemma preload_spec c n : ok c → roomy c → (n ≤ LOOKAHEAD)%nat → ∃ c', preload c n = Ret c' ∧ loaded c c' n.
Proof.
  intros Hok Hroom Hn. unfold preload. rewrite bool_decide_true by apply Hok.
  destruct (decide (n ≤ avail c)%nat) as [|Ha]; [exists c; apply preload_done; auto|].
  destruct (feof (stream c)) eqn:Hf; [exists c; apply preload_done; auto|].
  pose proof (pinned_length c Hok) as Hpl. unfold roomy in Hroom. rewrite Hpl in Hroom.
  destruct (decide (n ≤ BUFFER_SIZE - current c)%nat) as [Hfit|Hfit]; [apply preload_read; (done || lia)|].
  pose proof (ok_current _ Hok). pose proof (ok_end _ Hok). pose proof (ok_pin _ Hok) as Hp.
  destruct (preload_shift 3 c n _ Hok ltac:(lia) Hf ltac:(lia) eq_refl) as (-> & Hok1 & Hs1 & Ha1).
  { unfold LOOKAHEAD, BUFFER_SIZE in *. destruct (pin_ c); lia. }
  set (c1 := Cursor _ _ _ _ _) in *.
  destruct (preload_read 2 c1 n Hok1) as (c' & -> & [Hok' Hs' Hav Heof]); [lia|done| |].
  { unfold c1. simpl. unfold LOOKAHEAD, BUFFER_SIZE in *. destruct (pin_ c); lia. }
  exists c'. split; [done|]. split; [done|by eapply same_text_trans| |done].
  by rewrite Hav, Ha1, (st_remaining _ _ Hs1).
Qed.

(** ** The operations on text *)

(** [c] is at the text [t], with [u] pinned before it by [k] pins, and at most
    [B] characters have been read ahead. *)
Record view_upto (B : nat) (c : cursor) (t u : list Z) (k : nat) : Prop := {
  v_ok : ok c;
  v_remaining : remaining c = t;
  v_pinned : pinned c = u;
  v_pins : pins c = k;
  v_avail : (avail c ≤ B)%nat;
}.
Arguments v_ok {B} c t u k _.
Arguments v_remaining {B} c t u k _.
Arguments v_pinned {B} c t u k _.
Arguments v_pins {B} c t u k _.
Arguments v_avail {B} c t u k _.

(** Before the parser goes back to a pin it never is further ahead than it asked
    for; in general it is not further ahead than the size of the buffer. *)
Abbreviation view := (view_upto LOOKAHEAD).
Class Ahead (B : nat) : Prop := ahead : (LOOKAHEAD ≤ B)%nat.
Instance ahead_lookahead : Ahead LOOKAHEAD := le_n _.
Instance ahead_buffer : Ahead BUFFER_SIZE.
Proof. unfold Ahead, LOOKAHEAD, BUFFER_SIZE. lia. Qed.

Definition fits (u : list Z) : Prop := (length u + LOOKAHEAD ≤ BUFFER_SIZE)%nat.
(** The pinned text after moving over [xs]. *)
Definition keep (k : nat) (u xs : list Z) : list Z := if decide (k = 0%nat) then u else u ++ xs.

Lemma fits_nil : fits [].
Proof. unfold fits, LOOKAHEAD, BUFFER_SIZE. simpl. lia. Qed.

Lemma view_init text : view (init_cursor (File text false)) text [] 0.
Proof.
  split; try done; [split; simpl; try done; unfold end_, BUFFER_SIZE; simpl; lia|].
  unfold avail, LOOKAHEAD. simpl. lia.
Qed.

Lemma view_preload `{!Ahead B} c t u k n : view_upto B c t u k → fits u → (n ≤ LOOKAHEAD)%nat →
  ∃ c', preload c n = Ret c' ∧ view_upto B c' t u k ∧ avail c' = Nat.max (avail c) (Nat.min n (length t)) ∧
    ((avail c' < n)%nat → feof (stream c') = true).
Proof.
  intros [Hok Hr Hp Hk Ha] Hf Hn. destruct (preload_spec c n Hok) as (c' & Hl & [Hok' Hs Hav He]);
    [by unfold roomy; rewrite Hp|done|].
  rewrite Hr in Hav. exists c'. split_and!; try done. destruct Hs. split; try congruence. pose proof (ahead (B := B)). lia.
Qed.

Lemma view_data `{!Ahead B} c t u k : view_upto B c t u k → drop (current c) (data c) = take (avail c) t.
Proof.
  intros [Hok Hr _ _ _]. rewrite <- Hr. unfold remaining, avail, end_.
  rewrite take_app_le by (rewrite length_drop; lia). rewrite take_ge by (rewrite length_drop; lia). done.
Qed.

(** Moving over text that is buffered. *)
Lemma view_advance `{!Ahead B} c xs t u k : view_upto B c (xs ++ t) u k → (length xs ≤ avail c)%nat →
  view_upto B (set_current c (current c + length xs)) t (keep k u xs) k.
Proof.
  intros Hv Hle. pose proof (view_data _ _ _ _ Hv) as Hd. destruct Hv as [Hok Hr Hp Hk Ha].
  pose proof Hok as [Hc He Hpin Heof]. unfold avail, end_ in *.
  assert (take (length xs) (drop (current c) (data c)) = xs) as Hx.
  { rewrite Hd, take_take, Nat.min_l by lia. by rewrite take_app_length. }
  split; unfold end_, avail; simpl; [|..|done|unfold end_; simpl; lia].
  - split; unfold end_; simpl; try done; [lia|]. destruct (pin_ c); [split; [lia|apply Hpin]|done].
  - unfold remaining in *. simpl. rewrite <- drop_drop.
    rewrite <- (take_drop (length xs) (drop (current c) (data c))), Hx, <- app_assoc in Hr.
    by apply app_inv_head in Hr.
  - unfold pinned, keep in *. simpl. subst u. destruct (pin_ c) as [p|].
    + rewrite decide_False by lia. rewrite <- Hx.
      replace (current c + length (take (length xs) (drop (current c) (data c))) - p)%nat
        with ((current c - p) + length (take (length xs) (drop (current c) (data c))))%nat by lia.
      rewrite <- take_take_drop. f_equal. rewrite drop_drop. replace (p + (current c - p))%nat with (current c) by lia.
      rewrite Hx. done.
    + rewrite decide_True by lia. done.
Qed.

Lemma view_not_eof `{!Ahead B} c x t u k : view_upto B c (x :: t) u k → fits u →
  ∃ c', eof c = Ret (c', false) ∧ view_upto B c' (x :: t) u k ∧ (0 < avail c')%nat.
Proof.
  intros Hv Hf. destruct (view_preload c (x :: t) u k 1 Hv Hf) as (c' & Hl & Hv' & Hav & _);
    [unfold LOOKAHEAD; lia|]. simpl in Hav.
  assert (0 < avail c')%nat as Hpos by lia. exists c'. split_and!; try done.
  unfold eof. rewrite Hl, bind_ret_l, bool_decide_true by apply Hv'.
  unfold avail in Hpos. by rewrite (proj2 (Nat.eqb_neq _ _)) by lia.
Qed.
Lemma view_peek `{!Ahead B} c x t u k : view_upto B c (x :: t) u k → fits u →
  ∃ c', peek c = Ret (c', x) ∧ view_upto B c' (x :: t) u k ∧ (0 < avail c')%nat.
Proof.
  intros Hv Hf. destruct (view_not_eof c x t u k Hv Hf) as (c' & He & Hv' & Hpos).
  exists c'. split_and!; try done. unfold peek. rewrite He, bind_ret_l.
  pose proof (view_data _ _ _ _ Hv') as Hd.
  rewrite bool_decide_true by (unfold avail in Hpos; lia).
  unfold char_at. rewrite <- (Nat.add_0_r (current c')), <- lookup_drop, Hd.
  by destruct (avail c'); [lia|].
Qed.
Lemma view_eof `{!Ahead B} c u k : view_upto B c [] u k → fits u →
  ∃ c', eof c = Ret (c', true) ∧ peek c = Ret (c', -1) ∧ view_upto B c' [] u k.
Proof.
  intros Hv Hf. destruct (view_preload c [] u k 1 Hv Hf) as (c' & Hl & Hv' & Hav & He);
    [unfold LOOKAHEAD; lia|]. simpl in Hav.
  assert (avail c' = 0)%nat as Hz.
  { pose proof (remaining_length _ (v_ok _ _ _ _ Hv')) as Hr. rewrite (v_remaining _ _ _ _ Hv') in Hr. simpl in Hr. lia. }
  pose proof (ok_current _ (v_ok _ _ _ _ Hv')) as Hc.
  assert (eof c = Ret (c', true)) as Heof.
  { unfold eof. rewrite Hl, bind_ret_l, bool_decide_true by done. unfold avail in *.
    rewrite (proj2 (Nat.eqb_eq (current c') (end_ c'))), He by lia. done. }
  exists c'. split_and!; try done. unfold peek. rewrite Heof. done.
Qed.

Lemma view_next `{!Ahead B} c x t u k : view_upto B c (x :: t) u k → (0 < avail c)%nat →
  ∃ c', next c = Ret c' ∧ view_upto B c' t (keep k u [x]) k.
Proof.
  intros Hv Ha. pose proof (view_advance c [x] t u k Hv ltac:(simpl; lia)) as Hv'. simpl in Hv'.
  rewrite Nat.add_1_r in Hv'. eexists. split; [|exact Hv']. unfold next.
  rewrite bool_decide_true by (unfold avail in Ha; lia). done.
Qed.

Lemma view_skip_yes `{!Ahead B} c text t u k : view_upto B c (text ++ t) u k → fits u → (length text ≤ LOOKAHEAD)%nat →
  ∃ c', skip c text = Ret (c', true) ∧ view_upto B c' t (keep k u text) k.
Proof.
  intros Hv Hf Hlen. destruct (view_preload c _ u k (length text) Hv Hf Hlen) as (c' & Hl & Hv' & Hav & _).
  rewrite length_app in Hav. assert (length text ≤ avail c')%nat as Hle by lia.
  eexists. split; [|exact (view_advance c' text t u k Hv' Hle)].
  unfold skip, available. rewrite Hl, bind_ret_l, bool_decide_true by apply Hv'. rewrite bind_ret_l.
  fold (avail c'). rewrite bool_decide_true by done. rewrite (view_data _ _ _ _ Hv').
  rewrite take_app_ge, str_startswith_app, bind_ret_l by done. do 3 f_equal.
  pose proof (view_data _ _ _ _ Hv') as Hd. apply (f_equal length) in Hd.
  rewrite take_app_ge, length_app, length_drop in Hd by done. pose proof (ok_current _ (v_ok _ _ _ _ Hv')).
  unfold avail, end_ in *. lia.
Qed.

Lemma view_skip_no `{!Ahead B} c text t u k : view_upto B c t u k → fits u → (length text ≤ LOOKAHEAD)%nat →
  (∀ t', t ≠ text ++ t') →
  ∃ c', skip c text = Ret (c', false) ∧ view_upto B c' t u k ∧
    avail c' = Nat.max (avail c) (Nat.min (length text) (length t)).
Proof.
  intros Hv Hf Hlen Hno. destruct (view_preload c _ u k (length text) Hv Hf Hlen) as (c' & Hl & Hv' & Hav & _).
  exists c'. split_and!; [|done|done]. unfold skip, available. rewrite Hl, bind_ret_l, bool_decide_true by apply Hv'.
  rewrite bind_ret_l. fold (avail c'). case_bool_decide as Hle; [|done]. rewrite (view_data _ _ _ _ Hv').
  assert (length text ≤ length (take (avail c') t))%nat as Hlt.
  { rewrite length_take. pose proof (remaining_length _ (v_ok _ _ _ _ Hv')) as Hr.
    rewrite (v_remaining _ _ _ _ Hv') in Hr. lia. }
  destruct (str_startswith_total (take (avail c') t) text Hlt) as ([r|] & Hs); rewrite Hs; [|done].
  exfalso. apply str_startswith_inv in Hs. apply (Hno (r ++ drop (avail c') t)).
  by rewrite app_assoc, <- Hs, take_drop.
Qed.

Lemma view_pin `{!Ahead B} c x t : view_upto B c (x :: t) [] 0 → (0 < avail c)%nat →
  ∃ c', pin c = Ret (c', 0%nat) ∧ view_upto B c' (x :: t) [] 1.
Proof.
  intros [[Hc He Hp Heof] Hr Hpd Hk Ha] Hpos. unfold pin. rewrite bool_decide_true by (unfold avail in Hpos; lia).
  rewrite Hk in Hp. destruct (pin_ c) as [p|] eqn:E; [lia|]. eexists. split; [done|].
  split; simpl; try done; [|unfold pinned; simpl; by rewrite Nat.sub_diag|by rewrite Hk].
  split; simpl; try done. lia.
Qed.

(** Giving up the only pin, after moving on or at the place where it was set. *)
Lemma view_unpin `{!Ahead B} c t u : view_upto B c t u 1 → ∃ c', unpin c 0 = Ret c' ∧ view_upto B c' t [] 0.
Proof.
  intros [[Hc He Hp Heof] Hr Hpd Hk Ha]. unfold unpin, release.
  rewrite bool_decide_true, Hk by done. cbn [Nat.leb]. rewrite bool_decide_true by lia.
  destruct (pin_ c) as [p|] eqn:E; [|rewrite Hk in Hp; done]. rewrite !bool_decide_true by lia.
  eexists. split; [done|]. split; simpl; try done.
Qed.
Lemma view_retreat `{!Ahead B} c t : view_upto B c t [] 1 → ∃ c', retreat c 0 = Ret c' ∧ view_upto B c' t [] 0.
Proof.
  intros [[Hc He Hp Heof] Hr Hpd Hk Ha]. unfold retreat, release.
  rewrite bool_decide_true, Hk by done. rewrite bool_decide_true by lia.
  destruct (pin_ c) as [p|] eqn:E; [|rewrite Hk in Hp; done]. rewrite !bool_decide_true by lia.
  assert (p = current c) as ->.
  { unfold pinned in Hpd. rewrite E in Hpd. apply (f_equal length) in Hpd. unfold end_ in *.
    rewrite length_take, length_drop in Hpd. simpl in Hpd. lia. }
  cbn [set_current pins]. rewrite Hk, Nat.add_0_r. eexists. split; [done|]. split; simpl; try done.
Qed.

(** ** Reading on when pinned text fills the buffer *)

(** The buffer is full from its start: what fits is read, and no more. *)
Lemma preload_full fuel c n : ok c → (avail c < n)%nat → feof (stream c) = false →
  (BUFFER_SIZE - current c < n)%nat → match pin_ c with Some p => p | None => current c end = 0%nat →
  ∃ c', preload_loop (S (S fuel)) c n = Ret c' ∧ ok c' ∧ same_text c c' ∧ (avail c ≤ avail c' ≤ Nat.max (avail c) n)%nat.
Proof.
  intros Hok Ha Hf Hroom Hst. pose proof Hok as [Hc He Hp [Hfail Heof]].
  assert (∀ c fuel, ok c → (avail c < n)%nat → feof (stream c) = false → (BUFFER_SIZE - current c < n)%nat →
    match pin_ c with Some p => p | None => current c end = 0%nat → preload_loop (S fuel) c n =
      let space := (BUFFER_SIZE - end_ c)%nat in
      if Nat.eqb space 0 then Ret c
      else preload_loop fuel (Cursor (fread space (stream c)).2 (data c ++ (fread space (stream c)).1) (current c) (pin_ c) (pins c)) n)
    as Hstep.
  { clear. intros c fuel Hok Ha Hf Hroom Hst. pose proof Hok as [Hc He Hp Heof].
    cbn [preload_loop]. fold (avail c). rewrite bool_decide_true, Hf by done. cbn [negb andb].
    assert (match pin_ c with Some p => if bool_decide (p ≤ current c)%nat then Ret p else Aborted
            | None => Ret (current c) end = Ret 0%nat) as ->.
    { destruct (pin_ c); [rewrite bool_decide_true by lia|]; by rewrite Hst. }
    rewrite bind_ret_l, (bool_decide_false (n ≤ _)%nat) by (unfold avail, end_, BUFFER_SIZE in *; lia).
    cbn [Nat.eqb]. cbv zeta. by destruct (BUFFER_SIZE - end_ c)%nat. }
  rewrite Hstep by done. cbv zeta. destruct (Nat.eqb_spec (BUFFER_SIZE - end_ c) 0) as [|Hsp].
  { exists c. split_and!; [done|done|apply same_text_refl|lia|lia]. }
  set (space := (BUFFER_SIZE - end_ c)%nat) in *. unfold fread. cbn [fst snd]. set (c1 := Cursor _ _ _ _ _).
  assert (ok c1) as Hok1.
  { split; unfold c1, end_; simpl; [rewrite length_app; unfold end_ in *; lia| |done|].
    - rewrite length_app, length_take. unfold space, end_ in *. lia.
    - rewrite Hf, Hfail. simpl. split; [done|]. intros Hs%bool_decide_eq_true. apply drop_ge. lia. }
  assert (same_text c c1) as Hsame.
  { split; try done.
    - unfold remaining, c1. simpl. rewrite drop_app_le by (unfold end_ in Hc; lia). by rewrite <- app_assoc, take_drop.
    - unfold pinned, c1. simpl. destruct (pin_ c) as [p|]; [|done].
      unfold end_ in *. rewrite drop_app_le by lia. by rewrite take_app_le by (rewrite length_drop; lia). }
  assert (avail c1 = avail c + Nat.min space (length (unread (stream c))))%nat as Ha1.
  { unfold c1, avail, end_ in *. simpl. rewrite length_app, length_take. lia. }
  assert (avail c1 < n)%nat as Hlt by (rewrite Ha1; unfold avail, space in *; lia).
  destruct (feof (stream c1)) eqn:Hf1.
  { exists c1. destruct (preload_done (S fuel) c1 n Hok1 (or_intror Hf1)) as [-> _]. split_and!; try done; lia. }
  rewrite Hstep by done. cbv zeta.
  assert (BUFFER_SIZE - end_ c1 = 0)%nat as ->.
  { unfold c1 in Hf1. cbn [stream feof] in Hf1. rewrite Hf, Hfail in Hf1. apply bool_decide_eq_false in Hf1.
    unfold c1, end_. cbn [data]. rewrite length_app, length_take. unfold space, end_ in *. lia. }
  exists c1. split_and!; try done; lia.
Qed.

(** Looking ahead never fails: it makes available what there is room for. *)
Lemma preload_any c n : ok c → (n ≤ LOOKAHEAD)%nat →
  ∃ c', preload c n = Ret c' ∧ ok c' ∧ same_text c c' ∧ (avail c ≤ avail c' ≤ Nat.max (avail c) n)%nat.
Proof.
  intros Hok Hn. unfold preload. rewrite bool_decide_true by apply Hok.
  destruct (decide (n ≤ avail c)%nat) as [|Ha].
  { exists c. destruct (preload_done 4 c n Hok) as [-> _]; [by left|]. split_and!; [done|done|apply same_text_refl|lia|lia]. }
  destruct (feof (stream c)) eqn:Hf.
  { exists c. destruct (preload_done 4 c n Hok) as [-> _]; [by right|]. split_and!; [done|done|apply same_text_refl|lia|lia]. }
  assert (∀ c fuel, ok c → (avail c < n)%nat → feof (stream c) = false → (n ≤ BUFFER_SIZE - current c)%nat →
    ∃ c', preload_loop (S fuel) c n = Ret c' ∧ ok c' ∧ same_text c c' ∧ (avail c ≤ avail c' ≤ Nat.max (avail c) n)%nat) as Hread.
  { clear. intros c fuel Hok Ha Hf Hfit. destruct (preload_read fuel c n Hok Ha Hf Hfit) as (c' & -> & [Hok' Hs Hav _]).
    exists c'. split_and!; try done; lia. }
  destruct (decide (n ≤ BUFFER_SIZE - current c)%nat) as [Hfit|Hfit]; [by apply Hread; [|lia|..]|].
  destruct (decide (match pin_ c with Some p => p | None => current c end = 0)%nat) as [Hst|Hst].
  { apply preload_full; (done || lia). }
  destruct (preload_shift 3 c n _ Hok ltac:(lia) Hf ltac:(lia) eq_refl ltac:(lia)) as (-> & Hok1 & Hs1 & Ha1).
  set (c1 := Cursor _ _ _ _ _) in *.
  assert (∃ c', preload_loop 3 c1 n = Ret c' ∧ ok c' ∧ same_text c1 c' ∧ (avail c1 ≤ avail c' ≤ Nat.max (avail c1) n)%nat)
    as (c' & -> & Hok' & Hs' & Hav').
  { destruct (decide (n ≤ BUFFER_SIZE - current c1)%nat) as [Hfit1|Hfit1]; [by apply Hread; [|lia|..]|].
    apply preload_full; try done; [lia|lia|]. unfold c1 in *. cbn in *. destruct (pin_ c); [done|cbn; lia]. }
  exists c'. split_and!; try done; [by eapply same_text_trans|lia|lia].
Qed.

Lemma any_preload `{!Ahead B} c t u k n : view_upto B c t u k → (n ≤ LOOKAHEAD)%nat →
  ∃ c', preload c n = Ret c' ∧ view_upto B c' t u k.
Proof.
  intros [Hok Hr Hp Hk Ha] Hn. destruct (preload_any c n Hok Hn) as (c' & Hl & Hok' & Hs & Hav).
  exists c'. split; [done|]. destruct Hs. pose proof (ahead (B := B)). split; try congruence. lia.
Qed.

(** ** Read errors *)

(** After a read error the loop goes round without end, whatever number of rounds it is given: the error does not set the end-of-file flag, and nothing more is read. *)
Lemma read_error_hangs fuel c n : (current c ≤ end_ c)%nat → match pin_ c with Some p => (p ≤ current c)%nat | None => True end → (avail c < n)%nat → (n ≤ BUFFER_SIZE - current c)%nat →
  feof (stream c) = false → read_fails (stream c) = true → unread (stream c) = [] → preload_loop fuel c n = Undef.
Proof.
  intros Hc Hp Ha Hn Hf Hfail Hu. induction fuel as [|fuel IH]; cbn [preload_loop]; fold (avail c); rewrite bool_decide_true, Hf by done; cbn [negb andb]; [done|].
  assert (∃ stale, match pin_ c with Some p => if bool_decide (p ≤ current c)%nat then Ret p else Aborted | None => Ret (current c) end = Ret stale) as [stale ->] by (destruct (pin_ c); [rewrite bool_decide_true by done|]; by eexists).
  rewrite bind_ret_l, (bool_decide_true (n ≤ _)%nat) by (unfold avail, end_, BUFFER_SIZE in *; lia). rewrite (proj2 (Nat.eqb_neq _ _)) by lia. cbn [negb]. unfold fread. rewrite Hu, take_nil, drop_nil, app_nil_r, Hf, Hfail. cbn [negb andb orb].
  replace (Cursor _ (data c) (current c) (pin_ c) (pins c)) with c; [exact IH|]. destruct c as [[u e f] d cu p ps]; cbn in *. by subst.
Qed.

End MdpCursor.
