(* ===== verification/MdpFilter.v ===== *)
(** * The MDP packet filter (mdp_filter.c)

    Packets are matched against a list of rules; the rules are parsed from a file,
    and reloaded when the file changes. Subscribers are identified by addresses;
    [find_subscriber] of overlay_address.c, which finds or creates the subscriber
    with a given SID, is an argument. *)

From S2P Require Import Prelude StrCtype StrNum StrScan Strbuf DataFormats MdpCursor.
From Stdlib Require Import Ascii.
Import StrNum StrScan DataFormats MdpCursor.

Module MdpFilter.

(** ** Rules *)

Record mdp_portrange := Ports { port_first : Z; port_last : Z }.

Record packet_rule := Rule {
  local_subscriber : option nat;
  remote_subscriber : option nat;
  local_ports : mdp_portrange;
  remote_ports : mdp_portrange;
  flags : Z;
}.

Definition RULE_DROP : Z := Z.shiftl 1 0.
Definition RULE_INBOUND : Z := Z.shiftl 1 1.
Definition RULE_OUTBOUND : Z := Z.shiftl 1 2.
Definition RULE_LOCAL_PORT : Z := Z.shiftl 1 3.
Definition RULE_REMOTE_PORT : Z := Z.shiftl 1 4.

(** [flags & f], as a truth value. *)
Definition has (r : packet_rule) (f : Z) : bool := negb (Z.land (flags r) f =? 0).

(** The rule [emalloc_zero] makes. *)
Definition zero_rule : packet_rule := Rule None None (Ports 0 0) (Ports 0 0) 0.

(** overlay_packet.h: the addresses of struct internal_mdp_header. *)
Record internal_mdp_header := Header {
  source : option nat;
  source_port : Z;
  destination : option nat;
  destination_port : Z;
}.

(** ** Filtering *)

Definition in_range (p : Z) (r : mdp_portrange) : bool := (port_first r <=? p) && (p <=? port_last r).
Definition is_subscriber (rule : option nat) (s : option nat) : bool :=
  bool_decide (rule = None) || bool_decide (s = rule).

(** The condition of the loops: the remote end is the source of an inbound
    packet and the destination of an outbound one. *)
Definition matches (direction : Z) (remote : option nat) (remote_port : Z) (local : option nat) (local_port : Z)
    (rule : packet_rule) : bool :=
  (has rule direction && is_subscriber (remote_subscriber rule) remote
   && (negb (has rule RULE_REMOTE_PORT) || in_range remote_port (remote_ports rule))
   && is_subscriber (local_subscriber rule) local
   && (negb (has rule RULE_LOCAL_PORT) || in_range local_port (local_ports rule)))
  || (Z.land (flags rule) (Z.lor RULE_INBOUND RULE_OUTBOUND) =? 0).

(** The first rule that matches decides. *)
Fixpoint allow_packet (test : packet_rule → bool) (rules : list packet_rule) : Z :=
  match rules with
  | [] => 1
  | rule :: rules =>
      if test rule then (if has rule RULE_DROP then 0 else 1) else allow_packet test rules
  end.

Definition allow_inbound_packet (packet_rules : list packet_rule) (h : internal_mdp_header) : Z :=
  allow_packet (matches RULE_INBOUND (source h) (source_port h) (destination h) (destination_port h)) packet_rules.
Definition allow_outbound_packet (packet_rules : list packet_rule) (h : internal_mdp_header) : Z :=
  allow_packet (matches RULE_OUTBOUND (destination h) (destination_port h) (source h) (source_port h)) packet_rules.

(** ** Printing *)

Definition lowdigit (d : Z) : Z := if d <? 10 then chr "0" + d else chr "a" + (d - 10).
Fixpoint hex_loop (n : nat) (v : Z) (acc : list Z) : list Z :=
  match n with O => acc | S n => hex_loop n (v / 16) (lowdigit (v mod 16) :: acc) end.
(** The format [%#010x]: zero has no prefix. *)
Definition format_port (p : Z) : list Z :=
  if p =? 0 then replicate 10 (chr "0") else chr "0" :: chr "x" :: hex_loop 8 p [].

Definition text (s : string) : list Z := chr <$> String.list_ascii_of_string s.

Definition append_mdp_portrange (range : mdp_portrange) : list Strbuf.op :=
  Strbuf.Sprintf (chr ":" :: format_port (port_first range)) ::
  (if negb (port_last range =? port_first range)
   then [Strbuf.Sprintf (chr "-" :: format_port (port_last range))] else []).

(** The operations on the strbuf; [sid] is the SID of a subscriber. *)
Definition append_packet_rule (sid : nat → list Z) (rule : packet_rule) : list Strbuf.op :=
  Strbuf.Puts (if has rule RULE_DROP then text "drop " else text "allow ") ::
  if negb (Z.land (flags rule) (Z.lor RULE_INBOUND RULE_OUTBOUND) =? 0) then
    match local_subscriber rule with
    | Some s => [Strbuf.Puts (hex (sid s))]
    | None => [Strbuf.Putc (chr "*")]
    end ++
    (if has rule RULE_LOCAL_PORT then append_mdp_portrange (local_ports rule) else []) ++
    [Strbuf.Putc (chr " ")] ++
    (if has rule RULE_INBOUND then [Strbuf.Putc (chr "<")] else []) ++
    (if has rule RULE_OUTBOUND then [Strbuf.Putc (chr ">")] else []) ++
    match remote_subscriber rule with
    | Some s => [Strbuf.Puts (hex (sid s))]
    | None => [Strbuf.Putc (chr "*")]
    end ++
    (if has rule RULE_REMOTE_PORT then append_mdp_portrange (remote_ports rule) else [])
  else [Strbuf.Puts (text "all")].

(** ** Parsing *)

(** What the filter relies on in the directory of subscribers: a subscriber is
    found by its own SID. *)
Class Directory (find_subscriber : list Z → option nat) (sid : nat → list Z) : Prop :=
  directory_sid bs s : find_subscriber bs = Some s → sid s = bs.

Section Parser.
Context `{Arch}.
Variable find_subscriber : list Z → option nat.

(** [while (peek(c) == ' ')]: every round moves on by a character. *)
Fixpoint space_loop (fuel : nat) (c : cursor) (ret : bool) : outcome (cursor * bool) :=
  match fuel with
  | O => Undef
  | S fuel =>
      r ← peek c;
      let '(c, x) := r in
      if x =? chr " " then c ← next c; space_loop fuel c true else Ret (c, ret)
  end.
Definition input_size (c : cursor) : nat := (length (data c) + length (unread (stream c)))%nat.
Definition _space (c : cursor) : outcome (cursor * bool) := space_loop (S (input_size c)) c false.
Definition _optspace (c : cursor) : outcome cursor := r ← _space c; Ret r.1.

Definition _sep (c : cursor) : outcome (cursor * bool) :=
  r ← peek c;
  let '(c, x) := r in
  r ← (if x =? 10 then Ret (c, true) else r ← peek c; Ret (r.1, r.2 =? chr ";"));
  let '(c, b) := r in
  if b : bool then c ← next c; Ret (c, true) else Ret (c, false).

Definition _port (c : cursor) : outcome (cursor * option Z) :=
  r ← skip c (text "0x");
  let '(c, hexadecimal) := r in
  c ← preload c (if (hexadecimal : bool) then 8 else 10);
  s ← preloaded c;
  n ← available c;
  r ← strn_to_uint32 s n (if (hexadecimal : bool) then 16 else 10) true;
  match r with
  | (Some port, end_) => c ← advance_to c (MdpCursor.end_ c - length end_); Ret (c, Some port)
  | (None, _) => Ret (c, None)
  end.

(** The range is updated also when the return value is 0. *)
Definition _portrange (c : cursor) (range : mdp_portrange) : outcome (cursor * mdp_portrange * bool) :=
  r ← _port c;
  match r with
  | (c, None) => Ret (c, range, false)
  | (c, Some first) =>
      c ← _optspace c;
      r ← peek c;
      let '(c, x) := r in
      if x =? chr "-" then
        c ← next c;
        c ← _optspace c;
        r ← _port c;
        match r with
        | (c, None) => Ret (c, Ports first (port_last range), false)
        | (c, Some last) => Ret (c, Ports first last, true)
        end
      else Ret (c, Ports first first, true)
  end.

(** The result holds [*flagsp], [*subscr] and [*portrangep]. *)
Record end_result := End { e_flags : Z; e_subscr : option nat; e_range : mdp_portrange; e_ok : bool }.

(** The part of [_endpoint] before the ports: [*subscr] and whether parsing goes
    on. *)
Definition endpoint_sid (c : cursor) (subscr : option nat) : outcome (cursor * option nat * bool) :=
  c ← preload c SID_STRLEN;
  r ← skip c (text "*");
  let '(c, any) := r in
  if any : bool then Ret (c, None, true)
  else
    s ← preloaded c;
    n ← available c;
    p ← parse_sid_t s (Some n) true;
    match p with
    | Some (sid, end_) =>
        match find_subscriber sid with
        | Some sub => c ← advance_to c (MdpCursor.end_ c - length end_); Ret (c, Some sub, true)
        | None => Ret (c, None, false)
        end
    | None => Ret (c, subscr, false)
    end.

Definition _endpoint (c : cursor) (flags port_flag : Z) (subscr : option nat) (range : mdp_portrange) :
    outcome (cursor * end_result) :=
  r ← endpoint_sid c subscr;
  match r with
  | (c, sub, false) => Ret (c, End flags sub range false)
  | (c, sub, true) =>
      c ← _optspace c;
      r ← peek c;
      let '(c, x) := r in
      if x =? chr ":" then
        c ← next c;
        c ← _optspace c;
        r ← _portrange c range;
        let '(c, range, ok) := r in
        Ret (c, End (if (ok : bool) then Z.lor flags port_flag else flags) sub range ok)
      else Ret (c, End flags sub range true)
  end.

Definition _direction (c : cursor) (flags : Z) : outcome (cursor * Z * bool) :=
  let flags := Z.land flags (Z.lnot (Z.lor RULE_INBOUND RULE_OUTBOUND)) in
  r ← skip c (text "<");
  let '(c, b) := r in
  let flags := if (b : bool) then Z.lor flags RULE_INBOUND else flags in
  r ← skip c (text ">");
  let '(c, b) := r in
  let flags := if (b : bool) then Z.lor flags RULE_OUTBOUND else flags in
  Ret (c, flags, negb (Z.land flags (Z.lor RULE_INBOUND RULE_OUTBOUND) =? 0)).

Definition _pattern (c : cursor) (rule : packet_rule) : outcome (cursor * packet_rule * bool) :=
  r ← pin c;
  let '(c, p) := r in
  r ← _endpoint c (flags rule) RULE_LOCAL_PORT (local_subscriber rule) (local_ports rule);
  let '(c, e) := r in
  c ← (if e_ok e then c ← unpin c p; _optspace c else retreat c p);
  r ← _direction c (e_flags e);
  let '(c, fl, ok) := r in
  let rule := Rule (e_subscr e) (remote_subscriber rule) (e_range e) (remote_ports rule) fl in
  if negb ok then Ret (c, rule, false)
  else
    c ← _optspace c;
    r ← _endpoint c (flags rule) RULE_REMOTE_PORT (remote_subscriber rule) (remote_ports rule);
    let '(c, e) := r in
    Ret (c, Rule (local_subscriber rule) (e_subscr e) (local_ports rule) (e_range e) (e_flags e), e_ok e).

Definition _which (c : cursor) (rule : packet_rule) : outcome (cursor * packet_rule * bool) :=
  r ← skip c (text "all");
  let '(c, b) := r in
  if b : bool then Ret (c, rule, true) else _pattern c rule.

Definition with_flags (rule : packet_rule) (f : Z) : packet_rule :=
  Rule (local_subscriber rule) (remote_subscriber rule) (local_ports rule) (remote_ports rule) f.

Definition _verb (c : cursor) (rule : packet_rule) : outcome (cursor * packet_rule * bool) :=
  r ← skip c (text "allow");
  let '(c, b) := r in
  if b : bool then Ret (c, rule, true)
  else
    r ← skip c (text "drop");
    let '(c, b) := r in
    if b : bool then Ret (c, with_flags rule (Z.lor (flags rule) RULE_DROP), true) else Ret (c, rule, false).

(** [alloc] says whether memory can be allocated. Returns -1, 0 or 1 and the
    rule. *)
Definition _rule (alloc : bool) (c : cursor) : outcome (cursor * Z * option packet_rule) :=
  if negb alloc then Ret (c, -1, None)
  else
    r ← _verb c zero_rule;
    let '(c, rule, b) := r in
    if negb b then Ret (c, 0, None)
    else
      c ← _optspace c;
      r ← _which c rule;
      let '(c, rule, b) := r in
      Ret (if (b : bool) then (c, 1, Some rule) else (c, 0, None)).

(** [while (!eof(c) && _sep(c) && !eof(c))]: a separator is consumed in every
    round. [alloc i] is the result of the [i]-th allocation. *)
Fixpoint rules_loop (fuel : nat) (alloc : nat → bool) (i : nat) (c : cursor) (rules : list packet_rule) :
    outcome (cursor * Z * list packet_rule) :=
  match fuel with
  | O => Undef
  | S fuel =>
      r ← eof c;
      let '(c, e) := r in
      r ← (if (e : bool) then Ret (c, false)
           else r ← _sep c; let '(c, s) := r in
                if (s : bool) then r ← eof c; Ret (r.1, negb r.2) else Ret (c, false));
      let '(c, go) := r in
      if go : bool then
        c ← _optspace c;
        r ← _rule (alloc i) c;
        match r with
        | (c, -1, _) => Ret (c, -1, rules)
        | (c, _, rule) =>
            c ← _optspace c;
            match rule with
            | Some rule => rules_loop fuel alloc (S i) c (rules ++ [rule])
            | None => r ← eof c; Ret (r.1, if r.2 : bool then 1 else 0, rules)
            end
        end
      else r ← eof c; Ret (r.1, if r.2 : bool then 1 else 0, rules)
  end.

Definition _rules (alloc : nat → bool) (c : cursor) : outcome (cursor * Z * list packet_rule) :=
  c ← _optspace c;
  r ← _rule (alloc 0%nat) c;
  match r with
  | (c, -1, _) => Ret (c, -1, [])
  | (c, _, rule) =>
      c ← _optspace c;
      match rule with
      | Some rule => rules_loop (S (input_size c)) alloc 1 c [rule]
      | None => r ← eof c; Ret (r.1, if r.2 : bool then 1 else 0, [])
      end
  end.

(** Returns 0 and the rules, or 1. *)
Definition parse_mdp_packet_rules (alloc : nat → bool) (fp : file) : outcome (Z * option (list packet_rule)) :=
  r ← _rules alloc (init_cursor fp);
  let '(c, r, rules) := r in
  if r =? 1 then Ret (0, Some rules)
  else
    _ ← (if r =? -1 then Ret tt
         else n ← available c;
              if negb (Nat.eqb n 0) then _ ← preloaded c; Ret tt else Ret tt);
    Ret (1, None).

(** ** Reloading *)

(** os.h: struct file_meta, and [cmp_file_meta] as a test for equality; [None] in [get_file_meta]'s place is its failure. *)
Record file_meta := Meta { tv_sec : Z; tv_nsec : Z; size : Z }.
Definition FILE_META_UNKNOWN : file_meta := Meta (-1) (-1) (-1).
Definition same_meta (a b : file_meta) : bool :=
  (tv_sec a =? tv_sec b) && (tv_nsec a =? tv_nsec b) && (size a =? size b).

Record filter_state := Filter { packet_rules : list packet_rule; packet_rules_meta : file_meta }.

(** Freeing the old list has no other effect. *)
Definition clear_mdp_packet_rules (st : filter_state) : filter_state := Filter [] (packet_rules_meta st).
Definition set_mdp_packet_rules (rules : list packet_rule) (st : filter_state) : filter_state :=
  let st := clear_mdp_packet_rules st in Filter rules (packet_rules_meta st).
Definition set_meta (meta : file_meta) (st : filter_state) : filter_state := Filter (packet_rules st) meta.

Definition PACKET_RULES_FILE_MAX_SIZE : Z := 32 * 1024.

(** [configured] says that a path is configured, [path_ok] that it fits its
    buffer; [meta] is what the file system says of the file, [content] what can be
    read from it when it can be opened. *)
Definition reload_mdp_packet_rules (alloc : nat → bool) (configured path_ok : bool) (meta : option file_meta)
    (content : option (list Z)) (st : filter_state) : outcome (Z * filter_state) :=
  if negb configured then Ret (0, set_meta FILE_META_UNKNOWN (clear_mdp_packet_rules st))
  else if negb path_ok then Ret (-1, st)
  else match meta with
  | None => Ret (-1, st)
  | Some meta =>
      if same_meta meta (packet_rules_meta st) then Ret (0, st)
      else if tv_sec meta =? -1 then Ret (1, set_meta meta (clear_mdp_packet_rules st))
      else if PACKET_RULES_FILE_MAX_SIZE <? size meta then Ret (-1, st)
      else if size meta <=? 0 then Ret (1, set_meta meta (clear_mdp_packet_rules st))
      else match content with
      | None => Ret (-1, st)
      | Some bytes =>
          r ← parse_mdp_packet_rules alloc (File bytes false);
          match r with
          | (0, Some new_rules) => Ret (1, set_meta meta (set_mdp_packet_rules new_rules st))
          | _ => Ret (-1, set_meta meta st)
          end
      end
  end.

End Parser.

End MdpFilter.
