(* ===== verification/MdpFilterProps.v ===== *)
(** * What the packet filter promises

    The concrete syntax of filter rules, the completeness of the parser for it, the
    round trip of printed rules, and the behaviour of filtering and reloading. *)

From S2P Require Import Prelude StrCtype StrNum StrScan Strbuf DataFormats MdpCursor MdpFilter.
From Stdlib Require Import Ascii.
Import Ctype StrNum StrScan DataFormats MdpCursor MdpFilter.

Module MdpFilterProps.

(** ** Concrete syntax

    The grammar of the comment above the parser, with the number of spaces at
    every place where spaces are optional. *)

Definition spaces (n : nat) : list Z := replicate n 32.

Inductive sid_form := SAny | SHex (cs : list Z) | SBroadcast.
Inductive port_syntax := PDec (cs : list Z) | PHex (cs : list Z).
Inductive range_syntax := ROne (p : port_syntax) | RTwo (p : port_syntax) (s1 s2 : nat) (q : port_syntax).
Inductive end_syntax := ESid (s : sid_form) | EPorts (s : sid_form) (s1 s2 : nat) (r : range_syntax).
Inductive dir_syntax := DIn | DOut | DBoth.
Inductive which_syntax :=
| WAll
| WPattern (local : option (end_syntax * nat)) (d : dir_syntax) (s : nat) (remote : end_syntax).
Record rule_syntax := RuleText { r_drop : bool; r_spaces : nat; r_which : which_syntax }.

Definition sid_text (s : sid_form) : list Z :=
  match s with SAny => text "*" | SHex cs => cs | SBroadcast => broadcast_text end.
Definition port_text (p : port_syntax) : list Z :=
  match p with PDec cs => cs | PHex cs => text "0x" ++ cs end.
Definition range_text (r : range_syntax) : list Z :=
  match r with
  | ROne p => port_text p
  | RTwo p s1 s2 q => port_text p ++ spaces s1 ++ text "-" ++ spaces s2 ++ port_text q
  end.
Definition end_text (e : end_syntax) : list Z :=
  match e with
  | ESid s => sid_text s
  | EPorts s s1 s2 r => sid_text s ++ spaces s1 ++ text ":" ++ spaces s2 ++ range_text r
  end.
Definition dir_text (d : dir_syntax) : list Z :=
  match d with DIn => text "<" | DOut => text ">" | DBoth => text "<>" end.
Definition which_text (w : which_syntax) : list Z :=
  match w with
  | WAll => text "all"
  | WPattern local d s remote =>
      match local with Some (e, n) => end_text e ++ spaces n | None => [] end ++
      dir_text d ++ spaces s ++ end_text remote
  end.
Definition rule_text (r : rule_syntax) : list Z :=
  (if r_drop r then text "drop" else text "allow") ++ spaces (r_spaces r) ++ which_text (r_which r).

(** ** What it denotes *)

Definition number (base : Z) (cs : list Z) : Z := num base 0 (hexval <$> cs).
Definition port_value (p : port_syntax) : Z :=
  match p with PDec cs => number 10 cs | PHex cs => number 16 cs end.
Definition range_value (r : range_syntax) : mdp_portrange :=
  match r with
  | ROne p => Ports (port_value p) (port_value p)
  | RTwo p _ _ q => Ports (port_value p) (port_value q)
  end.
Definition end_sid (e : end_syntax) : sid_form := match e with ESid s | EPorts s _ _ _ => s end.
Definition end_range (e : end_syntax) (default : mdp_portrange) : mdp_portrange :=
  match e with ESid _ => default | EPorts _ _ _ r => range_value r end.
Definition end_flag (e : end_syntax) (flag : Z) : Z := match e with ESid _ => 0 | EPorts _ _ _ _ => flag end.
Definition dir_flags (d : dir_syntax) : Z :=
  match d with DIn => RULE_INBOUND | DOut => RULE_OUTBOUND | DBoth => Z.lor RULE_INBOUND RULE_OUTBOUND end.

(** ** Well-formed syntax *)

Definition base_digits (base : Z) (max : nat) (cs : list Z) : Prop :=
  cs ≠ [] ∧ (length cs ≤ max)%nat ∧ digits base cs (hexval <$> cs) ∧ number base cs < 2 ^ 32.
Definition port_ok (p : port_syntax) : Prop :=
  match p with PDec cs => base_digits 10 10 cs | PHex cs => base_digits 16 8 cs end.
Definition range_ok (r : range_syntax) : Prop :=
  match r with ROne p => port_ok p | RTwo p _ _ q => port_ok p ∧ port_ok q end.
Definition sid_ok (s : sid_form) : Prop :=
  match s with SHex cs => length cs = SID_STRLEN ∧ xdigits cs | _ => True end.
Definition end_ok (e : end_syntax) : Prop :=
  match e with ESid s => sid_ok s | EPorts s _ _ r => sid_ok s ∧ range_ok r end.

(** Pinned text leaves room for the look-ahead. *)
Definition which_ok (w : which_syntax) : Prop :=
  match w with
  | WAll => True
  | WPattern local _ _ remote =>
      match local with Some (e, n) => end_ok e ∧ fits (end_text e ++ spaces n) | None => True end ∧ end_ok remote
  end.

Section Parser.
Context `{Arch}.
Variable find_subscriber : list Z → option nat.

Definition sid_value (s : sid_form) : option nat :=
  match s with
  | SAny => None
  | SHex cs => find_subscriber (unhex cs)
  | SBroadcast => find_subscriber SID_BROADCAST
  end.
(** The subscriber can be found or created. *)
Definition sid_found (s : sid_form) : Prop := s = SAny ∨ is_Some (sid_value s).
Definition end_found (e : end_syntax) : Prop := sid_found (end_sid e).

Definition which_value (w : which_syntax) (f : Z) : packet_rule :=
  match w with
  | WAll => with_flags zero_rule f
  | WPattern local d _ remote =>
      let lf := match local with Some (e, _) => end_flag e RULE_LOCAL_PORT | None => 0 end in
      Rule (match local with Some (e, _) => sid_value (end_sid e) | None => None end)
        (sid_value (end_sid remote))
        (match local with Some (e, _) => end_range e (Ports 0 0) | None => Ports 0 0 end)
        (end_range remote (Ports 0 0))
        (Z.lor (Z.lor (Z.lor f lf) (dir_flags d)) (end_flag remote RULE_REMOTE_PORT))
  end.
Definition rule_value (r : rule_syntax) : packet_rule :=
  which_value (r_which r) (if r_drop r then RULE_DROP else 0).
Definition which_found (w : which_syntax) : Prop :=
  match w with
  | WAll => True
  | WPattern local _ _ remote =>
      match local with Some (e, _) => end_found e | None => True end ∧ end_found remote
  end.

(** ** Moving over tokens *)

(** There is room for moving over [xs] with [u] pinned. *)
Definition room (k : nat) (u xs : list Z) : Prop := (k = 0%nat ∧ u = []) ∨ fits (u ++ xs).

Lemma room_fits k u xs : room k u xs → fits u.
Proof.
  intros [[_ ->]|Hf]; [apply fits_nil|]. unfold fits in *. rewrite length_app in Hf. lia.
Qed.
Lemma room_keep k u xs ys : room k u (xs ++ ys) → room k (keep k u xs) ys.
Proof.
  unfold keep. intros [[-> ->]|Hf]; [left; by rewrite decide_True|]. right. unfold fits in *.
  rewrite !length_app in *. case_decide; rewrite ?length_app; lia.
Qed.
Lemma room_weaken k u xs ys : room k u (xs ++ ys) → room k u xs.
Proof. intros [?|Hf]; [by left|right]. unfold fits in *. rewrite !length_app in *. lia. Qed.
Lemma keep_app k u xs ys : keep k (keep k u xs) ys = keep k u (xs ++ ys).
Proof. unfold keep. case_decide; [done|]. by rewrite app_assoc. Qed.
Lemma keep_nil k u : keep k u [] = u.
Proof. unfold keep. case_decide; [done|]. by rewrite app_nil_r. Qed.

Definition head_not (t : list Z) (x : Z) : Prop := head t ≠ Some x.

Lemma head_not_prefix t x xs : head_not t x → ∀ t', t ≠ (x :: xs) ++ t'.
Proof. intros Hh t' ->. by apply Hh. Qed.

(** Looking at the next character, or at the end of the file. *)
Lemma view_look c t u k : view c t u k → fits u →
  ∃ c' x, peek c = Ret (c', x) ∧ view c' t u k ∧ x = default (-1) (head t) ∧ (t ≠ [] → (0 < avail c')%nat).
Proof.
  intros Hv Hf. destruct t as [|y t].
  - destruct (view_eof c u k Hv Hf) as (c' & _ & Hp & Hv'). by exists c', (-1).
  - destruct (view_peek c y t u k Hv Hf) as (c' & Hp & Hv' & Ha). by exists c', y.
Qed.
Lemma look_other (t : list Z) (x : Z) : head_not t x → 0 ≤ x → (default (-1) (head t) =? x) = false.
Proof.
  intros Hh Hx. apply Z.eqb_neq. destruct t as [|y t]; simpl; [lia|]. intros ->. by apply Hh.
Qed.

Lemma preloaded_ret c : (0 < avail c)%nat → preloaded c = Ret (drop (current c) (data c)).
Proof. intros Ha. unfold preloaded. by rewrite bool_decide_true by (unfold avail in Ha; lia). Qed.
Lemma available_ret c : (current c ≤ end_ c)%nat → available c = Ret (avail c).
Proof. intros Ha. unfold available. by rewrite bool_decide_true. Qed.

Lemma view_input c t u k : view c t u k → (length t ≤ input_size c)%nat.
Proof.
  intros [Hok <- _ _ _]. unfold remaining, input_size. rewrite length_app, length_drop. lia.
Qed.

Lemma space_loop_spec fuel c n t u k ret : view c (spaces n ++ t) u k → room k u (spaces n) →
  head_not t 32 → (n < fuel)%nat →
  ∃ c' b, space_loop fuel c ret = Ret (c', b) ∧ view c' t (keep k u (spaces n)) k.
Proof.
  revert c n u ret. induction fuel as [|fuel IH]; intros c n u ret Hv Hr Hh Hf; [lia|]. cbn [space_loop].
  destruct (view_look c _ u k Hv (room_fits _ _ _ Hr)) as (c1 & x & -> & Hv1 & -> & Ha). rewrite bind_ret_l.
  destruct n as [|n].
  - cbn [spaces replicate app]. rewrite (look_other t (chr " ")) by done. rewrite keep_nil. by eexists _, _.
  - cbn [spaces replicate app head default]. destruct (view_next c1 32 (spaces n ++ t) u k Hv1) as (c2 & -> & Hv2);
      [by apply Ha|]. rewrite bind_ret_l.
    destruct (IH c2 n (keep k u [32]) true Hv2) as (c' & b & -> & Hv'); [|done|lia|].
    + apply (room_keep k u [32]). done.
    + rewrite keep_app in Hv'. by eexists _, _.
Qed.

Lemma optspace_spec c n t u k : view c (spaces n ++ t) u k → room k u (spaces n) → head_not t 32 →
  ∃ c', _optspace c = Ret c' ∧ view c' t (keep k u (spaces n)) k.
Proof.
  intros Hv Hr Hh. unfold _optspace, _space.
  destruct (space_loop_spec (S (input_size c)) c n t u k false Hv Hr Hh) as (c' & b & -> & Hv').
  - pose proof (view_input _ _ _ _ Hv) as Hi. rewrite length_app in Hi. unfold spaces in Hi.
    rewrite length_replicate in Hi. lia.
  - by exists c'.
Qed.

(** ** Ports *)

(** What may follow a port: nothing, or a character that is no part of one. *)
Definition after_port (t : list Z) : Prop :=
  match t with [] => True | x :: _ => hexvalue x = Ret (-1) ∧ x ≠ chr "x" end.

Lemma digit_not_x base cs : digits base cs (hexval <$> cs) → chr "x" ∉ cs.
Proof.
  intros Hd Hin. apply list_elem_of_lookup_1 in Hin as [i Hi].
  destruct (Forall2_lookup_l _ _ _ _ _ Hd Hi) as (d & _ & Hx & Hr). vm_compute in Hx. injection Hx as <-. lia.
Qed.

(** Reading the digits that have been preloaded. *)
Lemma port_digits c cs t u k base max : view c (cs ++ t) u k → fits u → base_digits base max cs →
  (max ≤ LOOKAHEAD)%nat → 1 ≤ base ≤ 16 → after_port t →
  ∃ c', (c ← preload c max; s ← preloaded c; n ← available c; r ← strn_to_uint32 s n base true;
         match r with
         | (Some port, e) => c ← advance_to c (MdpCursor.end_ c - length e); Ret (c, Some port)
         | (None, _) => Ret (c, None)
         end) = Ret (c', Some (number base cs)) ∧ view c' t (keep k u cs) k.
Proof.
  intros Hv Hf (Hne & Hlen & Hd & Hfit) Hmax Hb Ht.
  destruct (view_preload c _ u k max Hv Hf Hmax) as (c1 & -> & Hv1 & Ha1 & _). rewrite bind_ret_l.
  rewrite length_app in Ha1. assert (length cs ≤ avail c1)%nat as Hle by lia.
  assert (0 < length cs)%nat by (destruct cs; [done|simpl; lia]).
  pose proof (ok_current _ (v_ok _ _ _ _ Hv1)) as Hcur. pose proof (view_data _ _ _ _ Hv1) as Hdata.
  rewrite (preloaded_ret c1) by lia. rewrite bind_ret_l, (available_ret c1), bind_ret_l by done.
  rewrite Hdata, take_app_ge by done.
  set (r := take (avail c1 - length cs) t).
  assert (avail c1 = length cs + length r)%nat as Hav.
  { apply (f_equal length) in Hdata. rewrite take_app_ge, length_app, length_drop in Hdata by done.
    fold r in Hdata. unfold avail, end_ in *. lia. }
  rewrite Hav. unfold strn_to_uint32.
  rewrite (strn_to_uint_lim _ _ _ _ (hexval <$> cs)) by
    (done || (apply quiet_lt; lia) ||
     (intros x Hx; exists (-1); split; [|lia]; unfold r in Hx; destruct t as [|y t];
      [by rewrite take_nil in Hx|]; destruct (avail c1 - length cs)%nat; [done|]; injection Hx as <-; apply Ht)).
  rewrite bind_ret_l. pose proof (view_advance c1 cs t u k Hv1 Hle) as Hv2.
  unfold advance_to. rewrite !bool_decide_true by (unfold avail in *; lia). rewrite bind_ret_l.
  eexists. split; [reflexivity|].
  replace (end_ c1 - length r)%nat with (current c1 + length cs)%nat by (unfold avail in *; lia). done.
Qed.

Lemma port_spec c p t u k : view c (port_text p ++ t) u k → room k u (port_text p) → port_ok p → after_port t →
  ∃ c', _port c = Ret (c', Some (port_value p)) ∧ view c' t (keep k u (port_text p)) k.
Proof.
  intros Hv Hr Hp Ht. pose proof (room_fits _ _ _ Hr) as Hf. unfold _port. destruct p as [cs|cs]; simpl in Hp.
  - pose proof Hp as (Hne & Hlen & Hd & _).
    destruct (view_skip_no c (text "0x") (cs ++ t) u k Hv Hf) as (c1 & -> & Hv1 & _).
    { unfold LOOKAHEAD. simpl. lia. }
    { intros t' E. destruct cs as [|y cs]; [done|]. injection E as -> E. destruct cs as [|z cs].
      - destruct t as [|z t]; [done|]. injection E as -> _. destruct Ht as [_ Ht]. done.
      - injection E as -> _. apply digit_not_x in Hd. apply Hd. right. by left. }
    rewrite bind_ret_l. apply (port_digits c1 cs t u k 10 10); try done; unfold LOOKAHEAD; lia.
  - cbn [port_text] in *. rewrite <- app_assoc in Hv.
    destruct (view_skip_yes c (text "0x") (cs ++ t) u k Hv Hf) as (c1 & -> & Hv1); [unfold LOOKAHEAD; simpl; lia|].
    rewrite bind_ret_l. rewrite <- keep_app.
    apply (port_digits c1 cs t _ k 16 8); try done; [|unfold LOOKAHEAD; lia].
    by eapply room_fits, room_keep.
Qed.

(** ** Port ranges *)

(** What ends an endpoint, after spaces: nothing, a separator or a direction. *)
Definition stop (t : list Z) : Prop :=
  match t with [] => True | x :: _ => x = 10 ∨ x = chr ";" ∨ x = chr "<" ∨ x = chr ">" end.

Lemma stop_not t x : stop t → x ∈ chr <$> [" "; "-"; ":"; "x"]%char → head_not t x.
Proof.
  intros Hs Hx. unfold head_not. destruct t as [|y t]; [done|]. intros [= ->].
  destruct Hs as [-> |[-> |[-> | ->]]]; revert Hx; by apply (bool_decide_unpack _).
Qed.
Lemma stop_after t : stop t → after_port t.
Proof. destruct t as [|x t]; [done|]. by intros [-> |[-> |[-> | ->]]]. Qed.
Lemma spaces_after n t : after_port t → after_port (spaces n ++ t).
Proof. by destruct n. Qed.
Lemma port_head p t : port_ok p → head_not (port_text p ++ t) 32.
Proof.
  destruct p as [cs|cs]; [|done]. intros (Hne & _ & Hd & _) E. destruct cs as [|y cs]; [done|].
  injection E as ->. apply Forall2_cons_1 in Hd as [[_ Hr] _]. change (hexval 32) with (-1) in Hr. lia.
Qed.

(** The spaces after a single port are consumed, those after a second one are
    not. *)
Lemma portrange_spec c r m t u k range : view c (range_text r ++ spaces m ++ t) u k →
  room k u (range_text r ++ spaces m) → range_ok r → stop t →
  ∃ c' m' u', _portrange c range = Ret (c', range_value r, true) ∧ view c' (spaces m' ++ t) u' k ∧
    room k u' (spaces m').
Proof.
  intros Hv Hr Hok Ht. unfold _portrange. destruct r as [p|p s1 s2 q]; cbn [range_text range_ok] in *.
  - destruct (port_spec c p _ u k Hv (room_weaken _ _ _ _ Hr) Hok) as (c1 & -> & Hv1);
      [by apply spaces_after, stop_after|]. rewrite bind_ret_l. apply room_keep in Hr.
    destruct (optspace_spec c1 m t _ k Hv1 Hr) as (c2 & -> & Hv2); [apply stop_not; [done|by left]|].
    rewrite bind_ret_l. rewrite <- (app_nil_r (spaces m)) in Hr. apply room_keep in Hr.
    destruct (view_look _ _ _ _ Hv2 (room_fits _ _ _ Hr)) as (c3 & x & -> & Hv3 & -> & _).
    rewrite bind_ret_l, (look_other t (chr "-")) by (done || (apply stop_not; [done|right; by left])).
    eexists _, 0%nat, _. done.
  - destruct Hok as [Hp Hq]. rewrite <- !app_assoc in Hv, Hr. cbn [text app] in Hv, Hr.
    destruct (port_spec c p _ u k Hv (room_weaken _ _ _ _ Hr) Hp) as (c1 & -> & Hv1);
      [by apply spaces_after|]. rewrite bind_ret_l. apply room_keep in Hr.
    destruct (optspace_spec c1 s1 _ _ k Hv1 (room_weaken _ _ _ _ Hr)) as (c2 & -> & Hv2); [done|].
    rewrite bind_ret_l. apply room_keep in Hr.
    destruct (view_look _ _ _ _ Hv2 (room_fits _ _ _ Hr)) as (c3 & x & -> & Hv3 & -> & Ha).
    rewrite bind_ret_l. cbn [head default]. rewrite Z.eqb_refl.
    destruct (view_next c3 _ _ _ _ Hv3) as (c4 & -> & Hv4); [by apply Ha|]. rewrite bind_ret_l.
    apply (room_keep _ _ [chr "-"]) in Hr.
    destruct (optspace_spec c4 s2 _ _ k Hv4 (room_weaken _ _ _ _ Hr)) as (c5 & -> & Hv5); [by apply port_head|].
    rewrite bind_ret_l. apply room_keep in Hr.
    destruct (port_spec c5 q _ _ k Hv5 (room_weaken _ _ _ _ Hr) Hq) as (c6 & -> & Hv6);
      [by apply spaces_after, stop_after|]. rewrite bind_ret_l. apply room_keep in Hr.
    eexists _, m, _. done.
Qed.

(** ** Endpoints *)

Lemma view_take c t u k : view c t u k → avail c = Nat.min LOOKAHEAD (length t) →
  drop (current c) (data c) = take LOOKAHEAD t ∧ avail c = length (take LOOKAHEAD t).
Proof.
  intros Hv Ha. split; [|by rewrite length_take]. rewrite (view_data _ _ _ _ Hv), Ha.
  destruct (decide (LOOKAHEAD ≤ length t)%nat); [by rewrite Nat.min_l|].
  rewrite Nat.min_r, !take_ge by lia. done.
Qed.

(** The characters at the cursor, once it has looked ahead for a SID that does
    not begin with an asterisk. *)
Lemma endpoint_ahead c t u k sub0 : view c t u k → fits u → t ≠ [] → head_not t (chr "*") →
  ∃ c1, view c1 t u k ∧ avail c1 = length (take LOOKAHEAD t) ∧ endpoint_sid find_subscriber c sub0 =
    (p ← parse_sid_t (take LOOKAHEAD t) (Some (length (take LOOKAHEAD t))) true;
     match p with
     | Some (sid, end_) =>
         match find_subscriber sid with
         | Some sub => c ← advance_to c1 (MdpCursor.end_ c1 - length end_); Ret (c, Some sub, true)
         | None => Ret (c1, None, false)
         end
     | None => Ret (c1, sub0, false)
     end).
Proof.
  intros Hv Hf Hne Hh. unfold endpoint_sid.
  destruct (view_preload c t u k SID_STRLEN Hv Hf (le_n _)) as (c0 & -> & Hv0 & Ha0 & _). rewrite bind_ret_l.
  destruct (view_skip_no c0 (text "*") t u k Hv0 Hf) as (c1 & -> & Hv1 & Ha1);
    [unfold LOOKAHEAD; simpl; lia|by apply head_not_prefix|]. rewrite bind_ret_l.
  assert (0 < length t)%nat by (destruct t; [done|simpl; lia]).
  assert (avail c1 = Nat.min LOOKAHEAD (length t)) as Ha.
  { pose proof (v_avail _ _ _ _ Hv). pose proof (remaining_length _ (v_ok _ _ _ _ Hv)) as Hr.
    rewrite (v_remaining _ _ _ _ Hv) in Hr. change SID_STRLEN with LOOKAHEAD in Ha0. change (length (text "*")) with 1%nat in Ha1. unfold LOOKAHEAD in *. lia. }
  destruct (view_take _ _ _ _ Hv1 Ha) as [Hd Hl].
  exists c1. split_and!; try done. rewrite preloaded_ret by (rewrite Ha; unfold LOOKAHEAD; lia).
  rewrite bind_ret_l, available_ret, bind_ret_l, Hd, Hl by apply Hv1. done.
Qed.

(** Moving to the end of a SID. *)
Lemma endpoint_advance c1 cs t u k (v : option nat) : view c1 (cs ++ t) u k → (length cs ≤ LOOKAHEAD)%nat →
  avail c1 = length (take LOOKAHEAD (cs ++ t)) →
  ∃ c', (c ← advance_to c1 (MdpCursor.end_ c1 - length (drop (length cs) (take LOOKAHEAD (cs ++ t))));
         Ret (c, v, true)) = Ret (c', v, true) ∧ view c' t (keep k u cs) k.
Proof.
  intros Hv Hl Ha. pose proof (ok_current _ (v_ok _ _ _ _ Hv)) as Hc. rewrite length_drop, <- Ha.
  assert (length cs ≤ avail c1)%nat as Hle by (rewrite Ha, length_take, length_app; lia).
  unfold advance_to. rewrite !bool_decide_true by (unfold avail in *; lia). rewrite bind_ret_l.
  eexists. split; [reflexivity|].
  replace (end_ c1 - (avail c1 - length cs))%nat with (current c1 + length cs)%nat by (unfold avail in *; lia).
  by apply view_advance.
Qed.

Lemma hex_parse cs : length cs = SID_STRLEN → xdigits cs →
  parse_sid_t cs (Some SID_STRLEN) true = Ret (Some (unhex cs, [])).
Proof.
  intros Hl Hx. unfold parse_sid_t.
  destruct (strn_startswith_total cs SID_STRLEN broadcast_text) as (r & Hr); [lia|].
  rewrite Hr, bind_ret_l. destruct r as [e|].
  { exfalso. apply strn_startswith_inv in Hr as [-> _]. apply Forall_cons in Hx as [_ Hx].
    by apply Forall_cons in Hx as [Hx _]. }
  unfold parse_hex. change (negb (Nat.eqb SID_STRLEN (2 * SID_SIZE))) with false. cbv iota.
  destruct (fromhex_digits SID_SIZE cs [] Hl Hx) as [Hf _]; [done|]. rewrite app_nil_r in Hf.
  rewrite Hf, bind_ret_l. cbn [fst snd]. rewrite Z.eqb_refl. cbn [negb].
  rewrite drop_ge by (rewrite Hl; done). done.
Qed.

Lemma sid_spec c s t u k sub0 : view c (sid_text s ++ t) u k → fits u → sid_ok s → sid_found s →
  ∃ c', endpoint_sid find_subscriber c sub0 = Ret (c', sid_value s, true) ∧ view c' t (keep k u (sid_text s)) k.
Proof.
  intros Hv Hf Hok Hs. destruct s as [|cs|].
  - unfold endpoint_sid.
    destruct (view_preload c _ u k SID_STRLEN Hv Hf (le_n _)) as (c0 & -> & Hv0 & _). rewrite bind_ret_l.
    destruct (view_skip_yes c0 (text "*") t u k Hv0 Hf) as (c1 & -> & Hv1); [unfold LOOKAHEAD; simpl; lia|].
    rewrite bind_ret_l. by exists c1.
  - destruct Hok as [Hl Hx]. destruct Hs as [|[v Hs]]; [done|]. cbn [sid_text sid_value] in *.
    destruct (endpoint_ahead c (cs ++ t) u k sub0 Hv Hf) as (c1 & Hv1 & Ha & ->); [by destruct cs|..].
    { intros E. destruct cs as [|y cs]; [done|]. injection E as ->. by apply Forall_cons in Hx as [Hx _]. }
    destruct (endpoint_advance c1 cs t u k (Some v) Hv1) as (c' & Hc & Hv'); [by rewrite Hl|done|].
    assert (take LOOKAHEAD (cs ++ t) = cs) as Htk by (rewrite <- (take_app_length cs t) at 2; by rewrite Hl).
    rewrite Htk, Hl in *. rewrite hex_parse, bind_ret_l, Hs by done.
    rewrite drop_ge in Hc by (rewrite Hl; done). exists c'. by rewrite Hc.
  - destruct Hs as [|[v Hs]]; [done|]. cbn [sid_value] in *.
    destruct (endpoint_ahead c _ u k sub0 Hv Hf) as (c1 & Hv1 & Ha & ->); [done|done|].
    destruct (endpoint_advance c1 broadcast_text t u k (Some v) Hv1) as (c' & Hc & Hv'); [by apply (bool_decide_unpack _)|done|].
    cbn [sid_text] in *. rewrite take_app_ge in * by (by apply (bool_decide_unpack _)).
    rewrite drop_app_length in Hc. unfold parse_sid_t.
    rewrite strn_startswith_app, !bind_ret_l, Hs by (unfold allows; rewrite length_app; lia).
    exists c'. by rewrite Hc.
Qed.

(** No endpoint begins with a direction. *)
Lemma sid_missing c x t u k sub0 : view c (x :: t) u k → fits u → x = chr "<" ∨ x = chr ">" →
  ∃ c', endpoint_sid find_subscriber c sub0 = Ret (c', sub0, false) ∧ view c' (x :: t) u k.
Proof.
  intros Hv Hf Hx. destruct (endpoint_ahead c (x :: t) u k sub0 Hv Hf) as (c1 & Hv1 & Ha & ->); [done|by destruct Hx as [-> | ->]|].
  exists c1. split; [|done]. change (take LOOKAHEAD (x :: t)) with (x :: take 63 t).
  assert (isxdigit x = false ∧ (chr "b" =? x) = false) as [Hd Hb] by (by destruct Hx as [-> | ->]).
  unfold parse_sid_t. cbn [strn_startswith broadcast_text fmap list_fmap length]. rewrite Hb, bind_ret_l.
  unfold parse_hex. destruct (Nat.eqb _ _); cbn [negb]; [|done].
  destruct (fromhex_short SID_SIZE [] x (take 63 t)) as (bs & n & Hfr & Hn);
    [simpl; lia|constructor|done|done|]. cbn [app] in Hfr. rewrite Hfr, bind_ret_l. cbn [snd].
  by rewrite (proj2 (Z.eqb_neq _ _) Hn).
Qed.

Lemma range_head r t : range_ok r → head_not (range_text r ++ t) 32.
Proof.
  destruct r as [p|p s1 s2 q]; cbn [range_text range_ok]; [apply port_head|].
  rewrite <- app_assoc. intros [Hp _]. by apply port_head.
Qed.

Lemma endpoint_spec c e m t u k f flag sub0 range : view c (end_text e ++ spaces m ++ t) u k →
  room k u (end_text e ++ spaces m) → end_ok e → end_found e → stop t →
  ∃ c' m' u', _endpoint find_subscriber c f flag sub0 range =
      Ret (c', End (Z.lor f (end_flag e flag)) (sid_value (end_sid e)) (end_range e range) true) ∧
    view c' (spaces m' ++ t) u' k ∧ room k u' (spaces m').
Proof.
  intros Hv Hr Hok Hs Ht. unfold _endpoint, end_found in *.
  destruct e as [s|s s1 s2 r]; cbn [end_text end_ok end_sid] in *.
  - destruct (sid_spec c s _ u k sub0 Hv (room_fits _ _ _ Hr) Hok Hs) as (c1 & -> & Hv1). rewrite bind_ret_l.
    apply room_keep in Hr.
    destruct (optspace_spec c1 m t _ k Hv1 Hr) as (c2 & -> & Hv2); [apply stop_not; [done|by left]|].
    rewrite bind_ret_l. rewrite <- (app_nil_r (spaces m)) in Hr. apply room_keep in Hr.
    destruct (view_look _ _ _ _ Hv2 (room_fits _ _ _ Hr)) as (c3 & x & -> & Hv3 & -> & _).
    rewrite bind_ret_l, (look_other t (chr ":")) by (done || (apply stop_not; [done|right; right; by left])).
    cbn [end_flag end_range]. rewrite Z.lor_0_r. by eexists _, 0%nat, _.
  - destruct Hok as [Hok Hrng]. rewrite <- !app_assoc in Hv, Hr. cbn [text app] in Hv, Hr.
    destruct (sid_spec c s _ u k sub0 Hv (room_fits _ _ _ Hr) Hok Hs) as (c1 & -> & Hv1). rewrite bind_ret_l.
    apply room_keep in Hr.
    destruct (optspace_spec c1 s1 _ _ k Hv1 (room_weaken _ _ _ _ Hr)) as (c2 & -> & Hv2); [done|].
    rewrite bind_ret_l. apply room_keep in Hr.
    destruct (view_look _ _ _ _ Hv2 (room_fits _ _ _ Hr)) as (c3 & x & -> & Hv3 & -> & Ha).
    rewrite bind_ret_l. cbn [head default]. rewrite Z.eqb_refl.
    destruct (view_next c3 _ _ _ _ Hv3) as (c4 & -> & Hv4); [by apply Ha|]. rewrite bind_ret_l.
    apply (room_keep _ _ [chr ":"]) in Hr.
    destruct (optspace_spec c4 s2 _ _ k Hv4 (room_weaken _ _ _ _ Hr)) as (c5 & -> & Hv5); [by apply range_head|].
    rewrite bind_ret_l. apply room_keep in Hr.
    destruct (portrange_spec c5 r m t _ k range Hv5 Hr Hrng Ht) as (c6 & m' & u' & -> & Hv6 & Hr6).
    rewrite bind_ret_l. by eexists _, _, _.
Qed.

(** ** Patterns *)

Lemma keep_free xs : keep 0 [] xs = [].
Proof. done. Qed.
Lemma room_free xs : room 0 [] xs.
Proof. by left. Qed.
Lemma optspace_free c n t : view c (spaces n ++ t) [] 0 → head_not t 32 →
  ∃ c', _optspace c = Ret c' ∧ view c' t [] 0.
Proof. intros Hv Hh. exact (optspace_spec c n t [] 0 Hv (room_free _) Hh). Qed.

(** The flags a rule can have before its direction is read. *)
Definition early_flags : list Z := [0; RULE_DROP; RULE_LOCAL_PORT; Z.lor RULE_DROP RULE_LOCAL_PORT].

Lemma skip_free c xs t : view c (xs ++ t) [] 0 → bool_decide (length xs ≤ LOOKAHEAD)%nat = true →
  ∃ c', skip c xs = Ret (c', true) ∧ view c' t [] 0.
Proof. intros Hv Hl%bool_decide_eq_true. exact (view_skip_yes c xs t [] 0 Hv fits_nil Hl). Qed.
Lemma skip_other c xs x t : view c t [] 0 → head xs = Some x → head_not t x →
  bool_decide (length xs ≤ LOOKAHEAD)%nat = true →
  ∃ c', skip c xs = Ret (c', false) ∧ view c' t [] 0 ∧ (t ≠ [] → 0 < avail c')%nat.
Proof.
  intros Hv Hx Hh Hl%bool_decide_eq_true. destruct xs as [|x' xs]; [done|]. injection Hx as ->.
  destruct (view_skip_no c (x :: xs) t [] 0 Hv fits_nil Hl) as (c' & Hs & Hv' & Ha); [by apply head_not_prefix|].
  exists c'. split_and!; try done. intros Hne. destruct t; [done|]. rewrite Ha. simpl. lia.
Qed.

Lemma direction_flags f d : f ∈ early_flags →
  let g := Z.land f (Z.lnot (Z.lor RULE_INBOUND RULE_OUTBOUND)) in
  let g := if d is DOut then g else Z.lor g RULE_INBOUND in
  let g := if d is DIn then g else Z.lor g RULE_OUTBOUND in
  g = Z.lor f (dir_flags d) ∧ negb (Z.land g (Z.lor RULE_INBOUND RULE_OUTBOUND) =? 0) = true.
Proof.
  intros Hf. repeat (apply elem_of_cons in Hf as [-> |Hf]; [by destruct d|]). by apply elem_of_nil in Hf.
Qed.

Lemma direction_spec c d t f : view c (dir_text d ++ t) [] 0 → head_not t (chr ">") → f ∈ early_flags →
  ∃ c', _direction c f = Ret (c', Z.lor f (dir_flags d), true) ∧ view c' t [] 0.
Proof.
  intros Hv Hh Hf. pose proof (direction_flags f d Hf) as [Hg Hb]. unfold _direction.
  destruct d; cbn [dir_text] in Hv.
  - destruct (skip_free c (text "<") t Hv eq_refl) as (c1 & -> & Hv1). rewrite bind_ret_l.
    destruct (skip_other c1 (text ">") _ t Hv1 eq_refl Hh eq_refl) as (c2 & -> & Hv2 & _). rewrite bind_ret_l, Hb, Hg. eauto.
  - destruct (skip_other c (text "<") _ _ Hv eq_refl ltac:(done) eq_refl) as (c1 & -> & Hv1 & _). rewrite bind_ret_l.
    destruct (skip_free c1 (text ">") t Hv1 eq_refl) as (c2 & -> & Hv2). rewrite bind_ret_l, Hb, Hg. eauto.
  - destruct (skip_free c (text "<") (text ">" ++ t) Hv eq_refl) as (c1 & -> & Hv1). rewrite bind_ret_l.
    destruct (skip_free c1 (text ">") t Hv1 eq_refl) as (c2 & -> & Hv2). rewrite bind_ret_l, Hb, Hg. eauto.
Qed.

(** An endpoint begins with an asterisk, a digit or the letter b. *)
Lemma end_head e t x : end_ok e → isxdigit x = false → x ≠ chr "*" → head_not (end_text e ++ t) x.
Proof.
  assert (∀ s t, sid_ok s → isxdigit x = false → x ≠ chr "*" → head_not (sid_text s ++ t) x) as Hs.
  { clear. intros s t Hok Hx Hne. destruct s as [|cs|]; unfold head_not; [by intros [= <-]| |by intros [= <-]].
    destruct Hok as [Hl Hd]. destruct cs as [|y cs]; [done|]. apply Forall_cons in Hd as [Hd _].
    intros [= ->]. congruence. }
  destruct e as [s|s s1 s2 r]; cbn [end_text end_ok]; [apply Hs|]. rewrite <- app_assoc. intros [Hok _]. by apply Hs.
Qed.
Lemma spaces_head n t x : head_not t x → x ≠ 32 → head_not (spaces n ++ t) x.
Proof. intros Ht Hx. destruct n; [done|]. by intros [= <-]. Qed.

(** The part of a pattern from the direction on. *)
Lemma pattern_end c rule d s remote m t f : view c (dir_text d ++ spaces s ++ end_text remote ++ spaces m ++ t) [] 0 →
  f ∈ early_flags → end_ok remote → end_found remote → stop t →
  ∃ c' m', (r ← _direction c f;
    let '(c, fl, ok) := r in
    let rule := Rule (local_subscriber rule) (remote_subscriber rule) (local_ports rule) (remote_ports rule) fl in
    if negb ok then Ret (c, rule, false)
    else
      c ← _optspace c;
      r ← _endpoint find_subscriber c (flags rule) RULE_REMOTE_PORT (remote_subscriber rule) (remote_ports rule);
      let '(c, e) := r in
      Ret (c, Rule (local_subscriber rule) (e_subscr e) (local_ports rule) (e_range e) (e_flags e), e_ok e)) =
    Ret (c', Rule (local_subscriber rule) (sid_value (end_sid remote)) (local_ports rule)
      (end_range remote (remote_ports rule)) (Z.lor (Z.lor f (dir_flags d)) (end_flag remote RULE_REMOTE_PORT)), true) ∧
    view c' (spaces m' ++ t) [] 0.
Proof.
  intros Hv Hf Hok Hs Ht.
  destruct (direction_spec c d _ f Hv) as (c1 & -> & Hv1); [by apply spaces_head; [apply end_head|]|done|].
  rewrite bind_ret_l. cbn [negb].
  destruct (optspace_free c1 s _ Hv1) as (c2 & -> & Hv2); [by apply end_head|]. rewrite bind_ret_l.
  cbn [flags remote_subscriber remote_ports].
  destruct (endpoint_spec c2 remote m t [] 0 (Z.lor f (dir_flags d)) RULE_REMOTE_PORT (remote_subscriber rule)
              (remote_ports rule) Hv2 (room_free _) Hok Hs Ht) as (c3 & m' & u' & -> & Hv3 & Hr3).
  rewrite bind_ret_l. exists c3, m'. split; [done|]. destruct Hr3 as [[_ ->]|Hr3]; [done|].
  assert (u' = []) as ->; [|done]. destruct Hv3 as [[_ _ Hp _] _ <- Hk _]. unfold pinned.
  destruct (pin_ c3); [lia|done].
Qed.

Lemma early_local f e : f = 0 ∨ f = RULE_DROP → Z.lor f (end_flag e RULE_LOCAL_PORT) ∈ early_flags.
Proof. intros [-> | ->]; destruct e; by apply (bool_decide_unpack _). Qed.

Lemma dir_head d t : ∃ x t', dir_text d ++ t = x :: t' ∧ (x = chr "<" ∨ x = chr ">").
Proof. destruct d; eexists _, _; split; [reflexivity|by left|reflexivity|by right|reflexivity|by left]. Qed.
Lemma dir_stop d t : stop (dir_text d ++ t).
Proof. destruct (dir_head d t) as (x & t' & -> & [-> | ->]); [do 2 right; by left|do 3 right; done]. Qed.

Lemma end_nonempty e t : end_ok e → end_text e ++ t ≠ [].
Proof.
  destruct e as [s|s s1 s2 r]; cbn [end_text end_ok].
  - destruct s as [|cs|]; try done. intros [Hl _]. by destruct cs.
  - intros _ E. apply app_eq_nil in E as [E _]. apply app_eq_nil in E as [_ E]. apply app_eq_nil in E as [_ E]. done.
Qed.

Lemma pattern_spec c local d s remote m t f : let w := WPattern local d s remote in
  view c (which_text w ++ spaces m ++ t) [] 0 → (0 < avail c)%nat → which_ok w → which_found w →
  f = 0 ∨ f = RULE_DROP → stop t →
  ∃ c' m', _pattern find_subscriber c (with_flags zero_rule f) = Ret (c', which_value w f, true) ∧
    view c' (spaces m' ++ t) [] 0.
Proof.
  intros w Hv Ha [Hl Hok] [Hlf Hfd] Hf Ht. unfold _pattern, w in *. cbn [which_text] in Hv. rewrite <- !app_assoc in Hv.
  destruct local as [[e n]|]; cbn [flags local_subscriber local_ports remote_subscriber remote_ports with_flags zero_rule].
  - destruct Hl as [Hl Hfit]. rewrite <- app_assoc in Hv.
    destruct (end_text e ++ _) as [|x t0] eqn:Et; [by apply end_nonempty in Et|].
    destruct (view_pin c x t0 Hv Ha) as (c1 & -> & Hv1). rewrite bind_ret_l. rewrite <- Et in Hv1.
    destruct (endpoint_spec c1 e n _ [] 1 f RULE_LOCAL_PORT None (Ports 0 0) Hv1 ltac:(by right) Hl Hlf)
      as (c2 & m1 & u1 & -> & Hv2 & Hr2); [apply dir_stop|]. rewrite bind_ret_l. cbn [e_ok].
    destruct (view_unpin c2 _ _ Hv2) as (c3 & -> & Hv3). rewrite bind_ret_l.
    destruct (optspace_free c3 m1 _ Hv3) as (c4 & -> & Hv4); [apply stop_not; [apply dir_stop|by left]|].
    rewrite bind_ret_l. cbn [e_flags e_subscr e_range].
    apply (pattern_end c4 (Rule (sid_value (end_sid e)) None (end_range e (Ports 0 0)) (Ports 0 0) 0) d s remote m t);
      [done|by apply early_local|done..].
  - cbn [app] in Hv. destruct (dir_head d (spaces s ++ end_text remote ++ spaces m ++ t)) as (x & t' & E & Hx).
    rewrite E in Hv. destruct (view_pin c x t' Hv Ha) as (c1 & -> & Hv1). rewrite bind_ret_l.
    unfold _endpoint. destruct (sid_missing c1 x t' [] 1 None Hv1 fits_nil Hx) as (c2 & -> & Hv2). rewrite !bind_ret_l.
    cbn [e_ok]. destruct (view_retreat c2 _ Hv2) as (c3 & -> & Hv3). rewrite bind_ret_l, <- E in *.
    cbn [e_flags e_subscr e_range which_value]. rewrite Z.lor_0_r.
    apply (pattern_end c3 (Rule None None (Ports 0 0) (Ports 0 0) 0) d s remote m t); try done.
    rewrite <- (Z.lor_0_r f). by apply (early_local f (ESid SAny)).
Qed.

(** No pattern begins with the word [all]. *)
Lemma end_not_all e t t' : end_ok e → end_text e ++ t ≠ text "all" ++ t'.
Proof.
  assert (∀ s t, sid_ok s → sid_text s ++ t ≠ text "all" ++ t') as Hs.
  { clear. intros s t Hok E. destruct s as [|cs|]; [done| |done]. destruct Hok as [Hl Hd].
    destruct cs as [|x [|y cs]]; [done|done|]. injection E as -> -> E. cbn [app] in E.
    apply Forall_cons in Hd as [_ Hd]. by apply Forall_cons in Hd as [Hd _]. }
  destruct e as [s|s s1 s2 r]; cbn [end_text end_ok]; [apply Hs|]. rewrite <- app_assoc. intros [Hok _]. by apply Hs.
Qed.

Lemma skip_pattern c local d s remote t : view c (which_text (WPattern local d s remote) ++ t) [] 0 →
  which_ok (WPattern local d s remote) →
  ∃ c', skip c (text "all") = Ret (c', false) ∧ view c' (which_text (WPattern local d s remote) ++ t) [] 0 ∧
    (0 < avail c')%nat.
Proof.
  intros Hv [Hl _]. destruct (view_skip_no c (text "all") _ [] 0 Hv fits_nil) as (c' & -> & Hv' & Ha).
  - by apply (bool_decide_unpack _).
  - intros t'. cbn [which_text]. rewrite <- app_assoc. destruct local as [[e n]|]; [|by destruct d].
    rewrite <- app_assoc. apply end_not_all, Hl.
  - exists c'. split_and!; try done. rewrite Ha. change (length (text "all")) with 3%nat.
    cbn [which_text]. rewrite !length_app. enough (0 < length (dir_text d))%nat by lia. destruct d; simpl; lia.
Qed.

Lemma which_spec c w m t f : view c (which_text w ++ spaces m ++ t) [] 0 → which_ok w → which_found w →
  f = 0 ∨ f = RULE_DROP → stop t →
  ∃ c' m', _which find_subscriber c (with_flags zero_rule f) = Ret (c', which_value w f, true) ∧
    view c' (spaces m' ++ t) [] 0.
Proof.
  intros Hv Hok Hfd Hf Ht. unfold _which. destruct w as [|local d s remote].
  { destruct (skip_free c (text "all") _ Hv eq_refl) as (c1 & -> & Hv1). rewrite bind_ret_l. by exists c1, m. }
  destruct (skip_pattern c local d s remote _ Hv Hok) as (c1 & -> & Hv1 & Ha). rewrite bind_ret_l.
  by apply (pattern_spec c1 local d s remote m t f).
Qed.

(** ** Rules *)

Lemma which_head w t x : which_ok w → isxdigit x = false → x ∉ chr <$> ["*"; "<"; ">"]%char →
  head_not (which_text w ++ t) x.
Proof.
  intros Hok Hd Hx. rewrite !fmap_cons, fmap_nil, !not_elem_of_cons in Hx. destruct Hx as (H1 & H2 & H3 & _).
  destruct w as [|local d s remote]; [by intros [= <-]|]. destruct Hok as [Hl _]. cbn [which_text].
  destruct local as [[e n]|]; rewrite <- !app_assoc; [by apply end_head; [apply Hl|..]|].
  cbn [app]. destruct (dir_head d (spaces s ++ end_text remote ++ t)) as (y & t' & -> & Hy).
  intros [= ->]. by destruct Hy.
Qed.

Definition rule_ok (r : rule_syntax) : Prop := which_ok (r_which r) ∧ which_found (r_which r).

Lemma verb_spec c (b : bool) t : view c ((if b then text "drop" else text "allow") ++ t) [] 0 →
  ∃ c', _verb c zero_rule = Ret (c', with_flags zero_rule (if b then RULE_DROP else 0), true) ∧ view c' t [] 0.
Proof.
  intros Hv. unfold _verb. destruct b.
  - destruct (skip_other c (text "allow") _ _ Hv eq_refl ltac:(done) eq_refl) as (c1 & -> & Hv1 & _). rewrite bind_ret_l.
    destruct (skip_free c1 (text "drop") t Hv1 eq_refl) as (c2 & -> & Hv2). rewrite bind_ret_l. by exists c2.
  - destruct (skip_free c (text "allow") t Hv eq_refl) as (c1 & -> & Hv1). rewrite bind_ret_l. by exists c1.
Qed.

Lemma rule_spec c r m t : view c (rule_text r ++ spaces m ++ t) [] 0 → rule_ok r → stop t →
  ∃ c' m', _rule find_subscriber true c = Ret (c', 1, Some (rule_value r)) ∧ view c' (spaces m' ++ t) [] 0.
Proof.
  intros Hv [Hok Hfd] Ht. unfold _rule, rule_text in *. cbn [negb]. rewrite <- !app_assoc in Hv.
  destruct (verb_spec c (r_drop r) _ Hv) as (c1 & -> & Hv1). rewrite bind_ret_l. cbn [negb].
  destruct (optspace_free c1 (r_spaces r) _ Hv1) as (c2 & -> & Hv2); [apply which_head; [done|done|by apply (bool_decide_unpack _)]|]. rewrite bind_ret_l.
  destruct (which_spec c2 (r_which r) m t (if r_drop r then RULE_DROP else 0) Hv2 Hok Hfd) as (c3 & m' & -> & Hv3);
    [destruct (r_drop r); auto|done|]. rewrite bind_ret_l. by exists c3, m'.
Qed.

(** A rule with the spaces around it, the separators, and a whole file. *)
Record line := Line { l_before : nat; l_rule : rule_syntax; l_after : nat }.
Definition line_text (l : line) : list Z := spaces (l_before l) ++ rule_text (l_rule l) ++ spaces (l_after l).
Definition line_ok (l : line) : Prop := rule_ok (l_rule l).
Definition line_value (l : line) : packet_rule := rule_value (l_rule l).

Definition sep_char (newline : bool) : Z := if newline then 10 else chr ";".
Definition more_text (rest : list (bool * line)) (trail : option bool) : list Z :=
  (rest ≫= λ p, sep_char p.1 :: line_text p.2) ++ (sep_char <$> option_list trail).

Inductive rules_syntax := NoRules (n : nat) | SomeRules (l : line) (rest : list (bool * line)) (trail : option bool).
Definition rules_text (f : rules_syntax) : list Z :=
  match f with NoRules n => spaces n | SomeRules l rest trail => line_text l ++ more_text rest trail end.
Definition rules_lines (f : rules_syntax) : list line :=
  match f with NoRules _ => [] | SomeRules l rest _ => l :: (snd <$> rest) end.

Lemma more_cons b l rest trail :
  more_text ((b, l) :: rest) trail = sep_char b :: line_text l ++ more_text rest trail.
Proof. unfold more_text. cbn [mbind list_bind fst snd app]. by rewrite <- app_assoc. Qed.
Lemma more_stop rest trail : stop (more_text rest trail).
Proof.
  destruct rest as [|[[] l] rest]; [|by left|right; by left].
  destruct trail as [[]|]; [by left|right; by left|done].
Qed.
Lemma more_length rest trail : (length rest ≤ length (more_text rest trail))%nat.
Proof.
  unfold more_text. induction rest as [|p rest IH]; [simpl; lia|].
  cbn [mbind list_bind length app]. rewrite <- app_assoc, length_app. cbn [length]. lia.
Qed.

Lemma sep_spec c b t : view c (sep_char b :: t) [] 0 → ∃ c', _sep c = Ret (c', true) ∧ view c' t [] 0.
Proof.
  intros Hv. unfold _sep. destruct (view_peek c _ t [] 0 Hv fits_nil) as (c1 & -> & Hv1 & Ha1).
  rewrite bind_ret_l. destruct b; cbn [sep_char] in *.
  - rewrite Z.eqb_refl, bind_ret_l. destruct (view_next c1 _ t [] 0 Hv1 Ha1) as (c2 & -> & Hv2).
    rewrite bind_ret_l. by exists c2.
  - change (chr ";" =? 10) with false. cbv iota.
    destruct (view_peek c1 _ t [] 0 Hv1 fits_nil) as (c2 & -> & Hv2 & Ha2). rewrite !bind_ret_l.
    cbn [fst snd]. rewrite Z.eqb_refl. destruct (view_next c2 _ t [] 0 Hv2 Ha2) as (c3 & -> & Hv3).
    rewrite bind_ret_l. by exists c3.
Qed.

(** A line: the spaces before it, the rule and the spaces after it. *)
Lemma line_spec c l t : view c (line_text l ++ t) [] 0 → line_ok l → stop t →
  ∃ c1 c2 c', _optspace c = Ret c1 ∧ _rule find_subscriber true c1 = Ret (c2, 1, Some (line_value l)) ∧
    _optspace c2 = Ret c' ∧ view c' t [] 0.
Proof.
  intros Hv Hok Ht. unfold line_text in Hv. rewrite <- !app_assoc in Hv.
  destruct (optspace_free c _ _ Hv) as (c1 & H1 & Hv1); [unfold rule_text; by destruct (r_drop (l_rule l))|].
  destruct (rule_spec c1 _ _ t Hv1 Hok Ht) as (c2 & m & H2 & Hv2).
  destruct (optspace_free c2 _ _ Hv2) as (c3 & H3 & Hv3); [apply stop_not; [done|by left]|].
  by exists c1, c2, c3.
Qed.

Lemma eof_yes c : view c [] [] 0 → ∃ c', eof c = Ret (c', true).
Proof. intros Hv. destruct (view_eof c [] 0 Hv fits_nil) as (c' & He & _). by exists c'. Qed.
Lemma eof_no c t : view c t [] 0 → t ≠ [] → ∃ c', eof c = Ret (c', false) ∧ view c' t [] 0.
Proof.
  intros Hv Hne. destruct t as [|x t]; [done|].
  destruct (view_not_eof c x t [] 0 Hv fits_nil) as (c' & He & Hv' & _). by exists c'.
Qed.

Lemma line_nonempty l t : line_text l ++ t ≠ [].
Proof.
  unfold line_text, rule_text. intros E. apply app_eq_nil in E as [E _]. apply app_eq_nil in E as [_ E].
  apply app_eq_nil in E as [E _]. apply app_eq_nil in E as [E _]. by destruct (r_drop (l_rule l)).
Qed.

Lemma rules_loop_spec alloc rest trail fuel i c acc : (∀ i, alloc i = true) → Forall line_ok (snd <$> rest) →
  view c (more_text rest trail) [] 0 → (length rest < fuel)%nat →
  ∃ c', rules_loop find_subscriber fuel alloc i c acc = Ret (c', 1, acc ++ (line_value <$> (snd <$> rest))).
Proof.
  intros Hal. revert rest i c acc. induction fuel as [|fuel IH]; intros rest i c acc Hok Hv Hf; [lia|].
  cbn [rules_loop]. destruct rest as [|[b l] rest].
  - cbn [fmap list_fmap]. rewrite app_nil_r. destruct trail as [b|]; unfold more_text in Hv; cbn in Hv.
    + destruct (eof_no c _ Hv) as (c1 & -> & Hv1); [done|]. rewrite bind_ret_l.
      destruct (sep_spec c1 b [] Hv1) as (c2 & -> & Hv2). rewrite bind_ret_l.
      destruct (view_eof c2 [] 0 Hv2 fits_nil) as (c3 & -> & _ & Hv3). rewrite !bind_ret_l. cbn [fst snd negb].
      destruct (eof_yes c3 Hv3) as (c4 & ->). rewrite bind_ret_l. by exists c4.
    + destruct (view_eof c [] 0 Hv fits_nil) as (c1 & -> & _ & Hv1). rewrite !bind_ret_l.
      destruct (eof_yes c1 Hv1) as (c2 & ->). rewrite bind_ret_l. by exists c2.
  - rewrite fmap_cons in Hok. apply Forall_cons in Hok as [Hl Hok].
    rewrite more_cons in Hv.
    destruct (eof_no c _ Hv) as (c1 & -> & Hv1); [done|]. rewrite bind_ret_l.
    destruct (sep_spec c1 b _ Hv1) as (c2 & -> & Hv2). rewrite bind_ret_l.
    destruct (eof_no c2 _ Hv2) as (c3 & -> & Hv3); [apply line_nonempty|]. rewrite !bind_ret_l. cbn [fst snd negb].
    destruct (line_spec c3 l _ Hv3 Hl (more_stop _ _)) as (c4 & c5 & c6 & -> & H5 & H6 & Hv6).
    rewrite bind_ret_l, Hal, H5, bind_ret_l. cbv iota. rewrite H6, bind_ret_l.
    destruct (IH rest (S i) c6 (acc ++ [line_value l]) Hok Hv6) as (c' & ->); [simpl in Hf; lia|].
    exists c'. rewrite <- app_assoc. done.
Qed.

Lemma no_rules_spec c n alloc : alloc 0%nat = true → view c (spaces n) [] 0 →
  ∃ c', _rules find_subscriber alloc c = Ret (c', 1, []).
Proof.
  intros Hal Hv. unfold _rules. rewrite <- (app_nil_r (spaces n)) in Hv.
  destruct (optspace_free c n [] Hv) as (c1 & -> & Hv1); [done|]. rewrite bind_ret_l, Hal. unfold _rule. cbn [negb].
  unfold _verb. destruct (skip_other c1 (text "allow") _ [] Hv1 eq_refl ltac:(done) eq_refl) as (c2 & -> & Hv2 & _).
  rewrite bind_ret_l. destruct (skip_other c2 (text "drop") _ [] Hv2 eq_refl ltac:(done) eq_refl) as (c3 & -> & Hv3 & _).
  rewrite !bind_ret_l. cbn [negb]. rewrite bind_ret_l.
  destruct (optspace_free c3 0 [] Hv3) as (c4 & -> & Hv4); [done|]. rewrite bind_ret_l.
  destruct (eof_yes c4 Hv4) as (c5 & ->). rewrite bind_ret_l. by exists c5.
Qed.

Lemma rules_spec alloc f : (∀ i, alloc i = true) → Forall line_ok (rules_lines f) →
  parse_mdp_packet_rules find_subscriber alloc (File (rules_text f) false) =
    Ret (0, Some (line_value <$> rules_lines f)).
Proof.
  intros Hal Hok. unfold parse_mdp_packet_rules. pose proof (view_init (rules_text f)) as Hv.
  destruct f as [n|l rest trail]; cbn [rules_text rules_lines] in *.
  - destruct (no_rules_spec _ n alloc (Hal _) Hv) as (c' & ->). done.
  - apply Forall_cons in Hok as [Hl Hok]. unfold _rules.
    destruct (line_spec _ l _ Hv Hl (more_stop _ _)) as (c1 & c2 & c3 & -> & H2 & H3 & Hv3).
    rewrite bind_ret_l, Hal, H2, bind_ret_l. cbv iota. rewrite H3, bind_ret_l.
    destruct (rules_loop_spec alloc rest trail (S (input_size c3)) 1 c3 [line_value l] Hal Hok Hv3) as (c' & ->).
    { pose proof (view_input _ _ _ _ Hv3). pose proof (more_length rest trail). lia. }
    done.
Qed.

(** C20: every file of rules written in the filter language, whatever the spacing,
    the notation of ports and SIDs and the separators, and with or without a
    separator at its end, is parsed to the list of rules it denotes, in order: as
    long as memory and subscribers can be allocated and no local endpoint is so
    long that the pinned text does not leave room for the look-ahead. *)
Theorem packet_rules_grammar alloc f : (∀ i, alloc i = true) → Forall line_ok (rules_lines f) →
  parse_mdp_packet_rules find_subscriber alloc (File (rules_text f) false) =
    Ret (0, Some (line_value <$> rules_lines f)).
Proof. apply rules_spec. Qed.

End Parser.

(** Any SID is found; a subscriber is known by its first byte. *)
Definition finds (sid : list Z) : option nat := Some (Z.to_nat (default 0 (head sid))).

Definition example_rules : rules_syntax :=
  SomeRules (Line 1 (RuleText true 1 (WPattern (Some (EPorts SAny 0 1 (RTwo (PDec (text "17")) 1 0 (PHex (text "fF"))), 2%nat))
                                        DBoth 1 (ESid SBroadcast))) 0)
    [(false, Line 1 (RuleText false 3 (WPattern None DIn 0 (ESid (SHex (replicate 64 (chr "a")))))) 1);
     (true, Line 0 (RuleText true 1 WAll) 0)] (Some true).

Lemma packet_rules_grammar_witness :
  @parse_mdp_packet_rules arm64 finds (λ _, true) (File (rules_text example_rules) false) =
    Ret (0, Some [Rule None (Some 255%nat) (Ports 17 255) (Ports 0 0) 15;
                  Rule None (Some 170%nat) (Ports 0 0) (Ports 0 0) 2;
                  Rule None None (Ports 0 0) (Ports 0 0) 1]).
Proof.
  apply (@packet_rules_grammar arm64 finds (λ _, true) example_rules); [done|].
  assert (∀ s, sid_found finds s) as Hfound by (intros []; [by left|right..]; by eexists).
  repeat (apply Forall_cons; split); [..|by apply Forall_nil]; split; unfold line_ok, end_found, end_ok, fits; cbn;
    unfold base_digits, digits, xdigits; split_and?; try done; try apply Hfound; try lia;
    try (by apply (bool_decide_unpack _)); by repeat constructor.
Defined.

End MdpFilterProps.
