(* ===== verification/MdpFilterPrint.v ===== *)
(** * Printed rules, the two directions of filtering, and reloading

    The text that [append_packet_rule] makes is in the filter language and denotes
    the rule; filtering outbound packets is filtering inbound ones with the ends
    exchanged; and what a reload leaves behind. *)

From S2P Require Import Prelude StrCtype StrNum StrScan Strbuf DataFormats MdpCursor MdpFilter MdpFilterProps.
From Stdlib Require Import Ascii.
Import Ctype StrNum StrScan DataFormats MdpCursor MdpFilter MdpFilterProps.

Module MdpFilterPrint.

(** ** Ports *)

Lemma lowdigit_value d : 0 ≤ d < 16 → hexvalue (lowdigit d) = Ret d.
Proof. intros Hd. apply ret_eqb_true. exact (forall_range (λ d, ret_eqb (hexvalue (lowdigit d)) d) 16 eq_refl d Hd). Qed.

Lemma hex_loop_length n v acc : length (hex_loop n v acc) = (n + length acc)%nat.
Proof. revert v acc. induction n as [|n IH]; intros v acc; [done|]. cbn [hex_loop]. rewrite IH. simpl. lia. Qed.

Lemma hex_loop_digits n v acc : digits 16 acc (hexval <$> acc) → digits 16 (hex_loop n v acc) (hexval <$> hex_loop n v acc).
Proof.
  revert v acc. induction n as [|n IH]; intros v acc Hd; [done|]. cbn [hex_loop]. apply IH.
  pose proof (Z.mod_pos_bound v 16 ltac:(lia)) as Hr. rewrite fmap_cons. constructor; [|done].
  unfold hexval. by rewrite lowdigit_value.
Qed.

Lemma hex_loop_value n v acc : 0 ≤ v →
  num 16 0 (hexval <$> hex_loop n v acc) = num 16 (v mod 16 ^ Z.of_nat n) (hexval <$> acc).
Proof.
  revert v acc. induction n as [|n IH]; intros v acc Hv; [by rewrite Z.mod_1_r|]. cbn [hex_loop].
  rewrite IH by (apply Z.div_pos; lia). rewrite fmap_cons. cbn [num foldl].
  rewrite Nat2Z.inj_succ, Z.pow_succ_r, Z.rem_mul_r by lia.
  pose proof (Z.mod_pos_bound v 16 ltac:(lia)) as Hr. unfold hexval at 1. rewrite lowdigit_value by done.
  unfold num. f_equal. lia.
Qed.

(** What is printed for a port, and for the other parts of a rule. *)
Definition port_of (p : Z) : port_syntax :=
  if p =? 0 then PDec (replicate 10 (chr "0")) else PHex (hex_loop 8 p []).

Lemma port_of_text p : port_text (port_of p) = format_port p.
Proof. unfold port_of, format_port. by destruct (p =? 0). Qed.
Lemma port_of_spec p : 0 ≤ p < 2 ^ 32 → port_ok (port_of p) ∧ port_value (port_of p) = p.
Proof.
  intros Hp. unfold port_of. destruct (Z.eqb_spec p 0) as [->|Hne].
  - split; [|done]. split_and!; [done|by apply (bool_decide_unpack _)|by repeat constructor|done].
  - pose proof (hex_loop_value 8 p [] ltac:(lia)) as Hv. rewrite Z.mod_small in Hv by (simpl; lia).
    cbn [port_value port_ok]. unfold base_digits, number. rewrite Hv. split; [|done].
    split_and!; [|by rewrite hex_loop_length|by apply hex_loop_digits; constructor|simpl; lia].
    intros E. apply (f_equal length) in E. by rewrite hex_loop_length in E.
Qed.

Definition range_of (r : mdp_portrange) : range_syntax :=
  if port_last r =? port_first r then ROne (port_of (port_first r))
  else RTwo (port_of (port_first r)) 0 0 (port_of (port_last r)).
Definition ports_ok (r : mdp_portrange) : Prop := 0 ≤ port_first r < 2 ^ 32 ∧ 0 ≤ port_last r < 2 ^ 32.

Lemma range_of_spec r : ports_ok r → range_ok (range_of r) ∧ range_value (range_of r) = r.
Proof.
  intros [Hf Hl]. destruct (port_of_spec _ Hf) as [Of Vf], (port_of_spec _ Hl) as [Ol Vl]. unfold range_of.
  destruct r as [f l]. cbn [port_first port_last] in *. destruct (Z.eqb_spec l f) as [->|]; simpl.
  - by rewrite Vf.
  - by rewrite Vf, Vl.
Qed.

(** The text appended by a list of operations that only append. *)
Definition ops_text (os : list Strbuf.op) : list Z := foldl (Strbuf.text_step 0) [] os.
Definition appends (o : Strbuf.op) : Prop :=
  match o with Strbuf.Puts _ | Strbuf.Sprintf _ | Strbuf.Putc _ => True | _ => False end.

Lemma text_from n os t : Forall appends os → foldl (Strbuf.text_step n) t os = t ++ ops_text os.
Proof.
  unfold ops_text. intros Ho. revert n t. induction Ho as [|o os Ho _ IH]; intros n t; [by rewrite app_nil_r|].
  cbn [foldl]. rewrite (IH 0%nat), IH. destruct o; try done; cbn [Strbuf.text_step app]; by rewrite <- app_assoc.
Qed.
Lemma ops_text_app os1 os2 : Forall appends os2 → ops_text (os1 ++ os2) = ops_text os1 ++ ops_text os2.
Proof. intros Ho. unfold ops_text at 1. rewrite foldl_app. by apply text_from. Qed.

Lemma portrange_text r : ops_text (append_mdp_portrange r) = text ":" ++ range_text (range_of r) ∧
  Forall appends (append_mdp_portrange r).
Proof.
  unfold append_mdp_portrange, range_of. destruct (port_last r =? port_first r); cbn [negb range_text];
    rewrite !port_of_text; split; try (by repeat constructor); done.
Qed.

(** ** Rules *)

Section Print.
Context `{Arch}.
Variable find_subscriber : list Z → option nat.
Variable sid : nat → list Z.

Definition known (s : option nat) : Prop :=
  match s with
  | Some s => length (sid s) = SID_SIZE ∧ Forall is_byte (sid s) ∧ find_subscriber (sid s) = Some s
  | None => True
  end.

(** Rules as the parser makes them: a rule without a direction has nothing but
    its verb, ports are 32-bit numbers and zero where they are not flagged, and
    subscribers are found by their SIDs. *)
Record canonical (r : packet_rule) : Prop := {
  ca_flags : 0 ≤ flags r < 32;
  ca_all : Z.land (flags r) (Z.lor RULE_INBOUND RULE_OUTBOUND) = 0 →
    r = with_flags zero_rule 0 ∨ r = with_flags zero_rule RULE_DROP;
  ca_local : known (local_subscriber r);
  ca_remote : known (remote_subscriber r);
  ca_local_ports : if has r RULE_LOCAL_PORT then ports_ok (local_ports r) else local_ports r = Ports 0 0;
  ca_remote_ports : if has r RULE_REMOTE_PORT then ports_ok (remote_ports r) else remote_ports r = Ports 0 0;
}.

Definition sid_of (s : option nat) : sid_form := match s with Some s => SHex (hex (sid s)) | None => SAny end.
Definition end_of (s : option nat) (ports : bool) (r : mdp_portrange) : end_syntax :=
  if ports then EPorts (sid_of s) 0 0 (range_of r) else ESid (sid_of s).
Definition dir_of (i o : bool) : dir_syntax := if i then (if o then DBoth else DIn) else DOut.
Definition rule_of (r : packet_rule) : rule_syntax :=
  RuleText (has r RULE_DROP) 1
    (if negb (Z.land (flags r) (Z.lor RULE_INBOUND RULE_OUTBOUND) =? 0) then
       WPattern (Some (end_of (local_subscriber r) (has r RULE_LOCAL_PORT) (local_ports r), 1%nat))
         (dir_of (has r RULE_INBOUND) (has r RULE_OUTBOUND)) 0
         (end_of (remote_subscriber r) (has r RULE_REMOTE_PORT) (remote_ports r))
     else WAll).

(** The operations for an endpoint, which print its syntax. *)
Definition end_ops (s : option nat) (ports : bool) (r : mdp_portrange) : list Strbuf.op :=
  match s with Some s => [Strbuf.Puts (hex (sid s))] | None => [Strbuf.Putc (chr "*")] end ++
  (if ports then append_mdp_portrange r else []).
Lemma end_ops_text s ports r : ops_text (end_ops s ports r) = end_text (end_of s ports r) ∧
  Forall appends (end_ops s ports r).
Proof.
  unfold end_ops, end_of. destruct (portrange_text r) as [Ht Hp]. split.
  - rewrite ops_text_app by (by destruct ports). destruct ports.
    + rewrite Ht. by destruct s.
    + rewrite app_nil_r. by destruct s.
  - apply Forall_app. split; [by destruct s; repeat constructor|]. by destruct ports.
Qed.

Lemma dir_ops_text i o : i || o = true →
  ops_text ((if i then [Strbuf.Putc (chr "<")] else []) ++ (if o then [Strbuf.Putc (chr ">")] else [])) = dir_text (dir_of i o).
Proof. by destruct i, o. Qed.

Lemma has_direction r : negb (Z.land (flags r) (Z.lor RULE_INBOUND RULE_OUTBOUND) =? 0) =
  has r RULE_INBOUND || has r RULE_OUTBOUND.
Proof.
  unfold has. rewrite Z.land_lor_distr_r, <- negb_andb. f_equal.
  destruct (Z.eqb_spec (Z.lor (Z.land (flags r) RULE_INBOUND) (Z.land (flags r) RULE_OUTBOUND)) 0) as [E|E].
  - apply Z.lor_eq_0_iff in E as [-> ->]. done.
  - symmetry. apply andb_false_iff. rewrite !Z.eqb_neq. destruct (decide (Z.land (flags r) RULE_INBOUND = 0)) as [E1|]; [|by left].
    right. intros E2. by rewrite E1, E2 in E.
Qed.

(** The text that is printed is the text of the rule's syntax. *)
Lemma rule_of_text r : ops_text (append_packet_rule sid r) = rule_text (rule_of r) ∧
  Forall appends (append_packet_rule sid r).
Proof.
  unfold append_packet_rule, rule_of, rule_text. cbn [r_drop r_spaces r_which].
  rewrite has_direction. destruct (has r RULE_INBOUND || has r RULE_OUTBOUND) eqn:Hd.
  - destruct (end_ops_text (local_subscriber r) (has r RULE_LOCAL_PORT) (local_ports r)) as [Hl Al].
    destruct (end_ops_text (remote_subscriber r) (has r RULE_REMOTE_PORT) (remote_ports r)) as [Hr Ar].
    set (l := end_ops (local_subscriber r) _ _) in *. set (m := end_ops (remote_subscriber r) _ _) in *. pose proof (dir_ops_text _ _ Hd) as Ht.
    set (d := (if has r RULE_INBOUND then _ else _) ++ _) in Ht.
    assert (Forall appends d) as Ad by (unfold d; destruct (has r RULE_INBOUND), (has r RULE_OUTBOUND); repeat constructor).
    assert (Forall appends (l ++ [Strbuf.Putc (chr " ")] ++ d ++ m)) as Aall
      by (rewrite !Forall_app; split_and!; try done; by repeat constructor).
    set (v := Strbuf.Puts _). replace (v :: _) with ([v] ++ (l ++ [Strbuf.Putc (chr " ")] ++ d ++ m))
      by (unfold l, d, m, end_ops; rewrite <- !app_assoc; reflexivity).
    split; [|apply Forall_app; split; [by repeat constructor|done]].
    rewrite ops_text_app, ops_text_app, ops_text_app, ops_text_app, Hl, Hr, Ht
      by (done || (rewrite ?Forall_app; split_and?; (done || by repeat constructor))).
    cbn [which_text]. rewrite <- !app_assoc. unfold v. by destruct (has r RULE_DROP).
  - split; [by destruct (has r RULE_DROP)|by repeat constructor].
Qed.

Lemma hexdigit_value d : 0 ≤ d < 16 → isxdigit (hexdigit d) = true ∧ hexval (hexdigit d) = d.
Proof.
  intros Hd. split; [exact (forall_range (λ d, isxdigit (hexdigit d)) 16 eq_refl d Hd)|].
  unfold hexval. by rewrite hexvalue_hexdigit.
Qed.
Lemma hex_syntax bs : Forall is_byte bs → xdigits (hex bs) ∧ unhex (hex bs) = bs.
Proof.
  intros Hb. induction Hb as [|b bs Hb _ [IH1 IH2]]; [by split; [constructor|]|].
  destruct (nibbles b Hb) as (Hh & Hl & He). destruct (hexdigit_value _ Hh) as [Xh Vh], (hexdigit_value _ Hl) as [Xl Vl].
  rewrite hex_cons. split; [by apply Forall_cons; split; [|apply Forall_cons; split]|]. cbn [unhex]. rewrite Vh, Vl, IH2. f_equal.
  rewrite Z.shiftr_div_pow2 by lia. change 15 with (Z.ones 4). rewrite Z.land_ones by lia.
  pose proof (Z.div_mod b (2 ^ 4) ltac:(lia)). lia.
Qed.

Lemma sid_of_spec s : known s → sid_ok (sid_of s) ∧ sid_found find_subscriber (sid_of s) ∧
  sid_value find_subscriber (sid_of s) = s.
Proof.
  destruct s as [s|]; [|intros _; split_and!; [done|by left|done]]. intros (Hl & Hb & Hf). destruct (hex_syntax _ Hb) as [Hx Hu].
  unfold sid_found. cbn [sid_of sid_ok sid_value]. rewrite Hu, Hf, hex_len, Hl. split_and!; eauto.
Qed.

Lemma end_of_spec s (ports : bool) r : known s → (if ports then ports_ok r else r = Ports 0 0) →
  let e := end_of s ports r in
  end_ok e ∧ end_found find_subscriber e ∧ sid_value find_subscriber (end_sid e) = s ∧
  end_range e (Ports 0 0) = r ∧ ∀ f, end_flag e f = if ports then f else 0.
Proof.
  intros Hs Hr e. destruct (sid_of_spec s Hs) as (H1 & H2 & H3). unfold e, end_of, end_found. destruct ports; simpl.
  - destruct (range_of_spec r Hr) as [Hr1 Hr2]. by rewrite Hr2.
  - by subst r.
Qed.

(** The printed part before the direction is short enough to be pinned. *)
Lemma port_short p : (length (port_text (port_of p)) ≤ 10)%nat.
Proof.
  rewrite port_of_text. unfold format_port. destruct (p =? 0); [rewrite length_replicate; lia|].
  cbn [length]. rewrite hex_loop_length. simpl. lia.
Qed.
Lemma end_short s (ports : bool) r : known s → fits (end_text (end_of s ports r) ++ spaces 1).
Proof.
  intros Hs. unfold fits. rewrite length_app.
  enough (length (end_text (end_of s ports r)) ≤ 100)%nat by (unfold LOOKAHEAD, BUFFER_SIZE, spaces; simpl; lia).
  assert (length (sid_text (sid_of s)) ≤ 64)%nat as Hl.
  { destruct s as [s|]; [|simpl; lia]. destruct Hs as (Hl & _). cbn [sid_of sid_text]. rewrite hex_len, Hl. simpl. lia. }
  unfold end_of. destruct ports; cbn [end_text]; [|lia]. rewrite !length_app.
  pose proof (port_short (port_first r)). pose proof (port_short (port_last r)).
  unfold range_of. destruct (_ =? _); cbn [range_text]; rewrite ?length_app; change (length (spaces 0)) with 0%nat; simpl; lia.
Qed.

(** The flags, put together from what is printed. *)
Definition rebuild (f : Z) : Z :=
  let h x := negb (Z.land f x =? 0) in
  Z.lor (Z.lor (Z.lor (if h RULE_DROP then RULE_DROP else 0) (if h RULE_LOCAL_PORT then RULE_LOCAL_PORT else 0))
    (dir_flags (dir_of (h RULE_INBOUND) (h RULE_OUTBOUND)))) (if h RULE_REMOTE_PORT then RULE_REMOTE_PORT else 0).
Lemma rebuild_flags f : 0 ≤ f < 32 →
  negb (Z.land f (Z.lor RULE_INBOUND RULE_OUTBOUND) =? 0) = true → rebuild f = f.
Proof.
  intros Hf Hd. apply Z.eqb_eq.
  pose proof (forall_range (λ f, (Z.land f (Z.lor RULE_INBOUND RULE_OUTBOUND) =? 0) || (rebuild f =? f)) 32 eq_refl f Hf) as E.
  apply negb_true_iff in Hd. cbv beta in E. by rewrite Hd in E.
Qed.

Lemma rule_of_spec r : canonical r → rule_ok find_subscriber (rule_of r) ∧ rule_value find_subscriber (rule_of r) = r.
Proof.
  intros [Hf Hall Hl Hr Hlp Hrp]. unfold rule_ok, rule_value, rule_of. cbn [r_drop r_which].
  rewrite has_direction. destruct (has r RULE_INBOUND || has r RULE_OUTBOUND) eqn:Hd.
  - destruct (end_of_spec _ _ _ Hl Hlp) as (L1 & L2 & L3 & L4 & L5).
    destruct (end_of_spec _ _ _ Hr Hrp) as (R1 & R2 & R3 & R4 & R5).
    split; [split; [split; [split; [done|by apply end_short]|done]|done]|].
    cbn [which_value]. rewrite L3, L4, L5, R3, R4, R5.
    pose proof (has_direction r) as E. rewrite Hd in E. apply rebuild_flags in E; [|done].
    unfold rebuild in E. unfold has. rewrite E. by destruct r.
  - split; [done|]. pose proof (has_direction r) as E. rewrite Hd in E. apply negb_false_iff, Z.eqb_eq in E.
    by destruct (Hall E) as [-> | ->].
Qed.

(** ** Printing and reading back a list of rules *)

(** Each rule on a line of its own, as in a rules file; the program itself prints one rule at a time, for the log. *)
Definition print_rules (rules : list packet_rule) : list Strbuf.op :=
  rules ≫= λ r, append_packet_rule sid r ++ [Strbuf.Putc 10].
Definition line_of (r : packet_rule) : line := Line 0 (rule_of r) 0.
Definition rules_of (rules : list packet_rule) : rules_syntax :=
  match rules with
  | [] => NoRules 0
  | r :: rules => SomeRules (line_of r) ((λ r, (true, line_of r)) <$> rules) (Some true)
  end.

Lemma print_rules_text rules : ops_text (print_rules rules) = rules_text (rules_of rules) ∧
  Forall appends (print_rules rules).
Proof.
  assert (∀ rules, 10 :: ops_text (print_rules rules) = more_text ((λ r, (true, line_of r)) <$> rules) (Some true) ∧
    Forall appends (print_rules rules)) as Hmore.
  { clear. induction rules as [|r rules [IH Hap]]; [done|]. destruct (rule_of_text r) as [Ht Ha].
    cbn [print_rules mbind list_bind]. fold (print_rules rules). split.
    - rewrite !ops_text_app, Ht by (done || by repeat constructor). rewrite fmap_cons.
      rewrite more_cons.
      rewrite <- IH. unfold line_text. cbn [sep_char line_of l_before l_rule l_after spaces replicate app].
      f_equal. rewrite app_nil_r, <- app_assoc. done.
    - rewrite !Forall_app. split_and!; [done|by repeat constructor|done]. }
  destruct rules as [|r rules]; [done|]. destruct (Hmore rules) as [IH Hap], (rule_of_text r) as [Ht Ha].
  cbn [print_rules mbind list_bind]. fold (print_rules rules). split.
  - rewrite !ops_text_app, Ht by (done || by repeat constructor). cbn [rules_of rules_text]. rewrite <- IH.
    unfold line_text. cbn [line_of l_before l_rule l_after spaces replicate app]. by rewrite app_nil_r, <- app_assoc.
  - rewrite !Forall_app. split_and!; [done|by repeat constructor|done].
Qed.

Lemma rules_of_lines rules : rules_lines (rules_of rules) = line_of <$> rules.
Proof. destruct rules as [|r rules]; [done|]. cbn [rules_of rules_lines]. rewrite <- list_fmap_compose. done. Qed.

(** C21: rules as the parser makes them, printed one to a line into a buffer that
    has room for the text, are in the buffer followed by a nul and without an
    overrun, and are read back from it unchanged and in order. *)
Theorem packet_rules_roundtrip alloc rules cells : (∀ i, alloc i = true) → Forall canonical rules →
  (length (ops_text (print_rules rules)) < length cells)%nat →
  ∃ cells0 sb0 cells' sb',
    Strbuf.strbuf_init cells false (Z.of_nat (length cells)) = Ret (cells0, sb0) ∧
    Strbuf.run cells0 sb0 (print_rules rules) = Ret (cells', sb') ∧ Strbuf.strbuf_overrun sb' = false ∧
    parse_mdp_packet_rules find_subscriber alloc (File (take (Z.to_nat (Strbuf.strbuf_count sb')) cells') false) =
      Ret (0, Some rules).
Proof.
  intros Hal Hca Hlen. destruct (print_rules_text rules) as [Ht Hap].
  destruct (Strbuf.strbuf_init_holds cells) as (c0 & sb0 & Hi & Hl0 & Hh0); [intros ->; simpl in Hlen; lia|].
  destruct (Strbuf.run_holds c0 sb0 [] (print_rules rules) Hh0) as (c1 & sb1 & Hr & Hl1 & Hh1).
  { eapply Forall_impl; [exact Hap|]. by intros []. }
  exists c0, sb0, c1, sb1. rewrite Hl0, text_from in Hh1 by done. cbn [app] in Hh1.
  destruct Hh1 as [_ Hne1 He1 Hc1 (tail & Hb)]. split_and!; try done.
  - unfold Strbuf.strbuf_overrun. rewrite He1, Hc1. apply Z.ltb_ge. lia.
  - unfold Strbuf.strbuf_count. rewrite Hc1, Nat2Z.id, Hb, (take_ge (ops_text _)) by lia.
    rewrite take_app_length, Ht, rules_spec; [|done|].
    + rewrite rules_of_lines, <- list_fmap_compose. do 3 f_equal. rewrite <- (list_fmap_id rules) at 2.
      apply list_fmap_ext. intros i r Hi'. rewrite Forall_lookup in Hca. apply rule_of_spec, (Hca i r Hi').
    + rewrite rules_of_lines. apply Forall_fmap. eapply Forall_impl; [exact Hca|]. intros r Hc. by apply rule_of_spec.
Qed.

End Print.

Lemma packet_rules_roundtrip_witness :
  let rules := [Rule (Some 5%nat) None (Ports 0 0xFFFFFFFF) (Ports 0 0) 15; Rule None None (Ports 0 0) (Ports 0 0) 1] in
  ∃ cells0 sb0 cells' sb',
    @Strbuf.strbuf_init arm32 (replicate 200 7) false 200 = Ret (cells0, sb0) ∧
    Strbuf.run cells0 sb0 (print_rules (λ n, replicate 32 (Z.of_nat n)) rules) = Ret (cells', sb') ∧
    Strbuf.strbuf_overrun sb' = false ∧
    @parse_mdp_packet_rules arm32 finds (λ _, true) (File (take (Z.to_nat (Strbuf.strbuf_count sb')) cells') false) =
      Ret (0, Some rules).
Proof.
  intros rules. apply (@packet_rules_roundtrip arm32 finds (λ n, replicate 32 (Z.of_nat n)) (λ _, true) rules (replicate 200 7)).
  - done.
  - apply Forall_cons; split; [|apply Forall_cons; split; [|by apply Forall_nil]]; split; try done; try (by apply (bool_decide_unpack _)).
    right. done.
  - by apply (bool_decide_unpack _).
Defined.

(** ** Filtering *)

(** What it means for a rule to apply to a packet between two ends. *)
Record applies (direction : Z) (remote : option nat) (remote_port : Z) (local : option nat) (local_port : Z)
    (r : packet_rule) : Prop := {
  ap_direction : has r direction = true;
  ap_remote : ∀ s, remote_subscriber r = Some s → remote = Some s;
  ap_remote_port : has r RULE_REMOTE_PORT = true → port_first (remote_ports r) ≤ remote_port ≤ port_last (remote_ports r);
  ap_local : ∀ s, local_subscriber r = Some s → local = Some s;
  ap_local_port : has r RULE_LOCAL_PORT = true → port_first (local_ports r) ≤ local_port ≤ port_last (local_ports r);
}.
Definition for_all (r : packet_rule) : Prop := has r RULE_INBOUND = false ∧ has r RULE_OUTBOUND = false.

Lemma is_subscriber_spec rule s : is_subscriber rule s = true ↔ ∀ x, rule = Some x → s = Some x.
Proof.
  unfold is_subscriber. rewrite orb_true_iff, !bool_decide_eq_true. split.
  - intros [-> | ->] x; congruence.
  - destruct rule as [x|]; [|by left]. intros Hs. right. by apply Hs.
Qed.
Lemma port_test_spec (b : bool) p r : negb b || in_range p r = true ↔ (b = true → port_first r ≤ p ≤ port_last r).
Proof. unfold in_range. rewrite orb_true_iff, andb_true_iff, !Z.leb_le. destruct b; simpl; intuition congruence. Qed.

Lemma matches_spec d remote rp local lp r :
  matches d remote rp local lp r = true ↔ applies d remote rp local lp r ∨ for_all r.
Proof.
  assert ((Z.land (flags r) (Z.lor RULE_INBOUND RULE_OUTBOUND) =? 0) = true ↔ for_all r) as Hd.
  { unfold for_all. by rewrite <- orb_false_iff, <- has_direction, negb_false_iff. }
  unfold matches. rewrite orb_true_iff, !andb_true_iff, !is_subscriber_spec, !port_test_spec, Hd.
  split; (intros [Hm|Hm]; [left|by right]); [destruct Hm as ((((? & ?) & ?) & ?) & ?); by split|by destruct Hm].
Qed.

Lemma allow_packet_spec test rules :
  (allow_packet test rules = 0 ∨ allow_packet test rules = 1) ∧
  (allow_packet test rules = 0 ↔ ∃ pre r post, rules = pre ++ r :: post ∧ Forall (λ r, test r = false) pre ∧
     test r = true ∧ has r RULE_DROP = true).
Proof.
  induction rules as [|r rules [IH1 IH2]]; cbn [allow_packet].
  { split; [by right|]. split; [done|]. intros (pre & r & post & E & _). by destruct pre. }
  destruct (test r) eqn:Et.
  - split; [destruct (has r RULE_DROP); auto|]. split.
    + intros Hd. exists [], r, rules. by destruct (has r RULE_DROP).
    + intros ([|r' pre] & r0 & post & [= -> E] & Hpre & _ & Hd); [by rewrite Hd|].
      apply Forall_cons in Hpre as [Hp _]. congruence.
  - split; [done|]. rewrite IH2. split.
    + intros (pre & r0 & post & -> & Hpre & Hr). exists (r :: pre), r0, post. split_and!; [done|by constructor|apply Hr..].
    + intros ([|r' pre] & r0 & post & [= -> E] & Hpre & Ht & Hd); [congruence|].
      apply Forall_cons in Hpre as [_ Hpre]. by exists pre, r0, post.
Qed.

(** C22: a packet is dropped exactly when the first rule that applies to it is a
    drop rule: the remote end of an inbound packet is its source, of an outbound
    packet its destination, rules without a direction apply to every packet, and
    a packet that no rule applies to is allowed. No rule that names a subscriber at
    the end of the destination, and so none that says [broadcast] there, applies to
    a packet without a destination, which is how broadcast packets arrive here; the
    documentation says that such rules match broadcasts. *)
Theorem filter_first_match rules h :
  let inbound r := applies RULE_INBOUND (source h) (source_port h) (destination h) (destination_port h) r ∨ for_all r in
  let outbound r := applies RULE_OUTBOUND (destination h) (destination_port h) (source h) (source_port h) r ∨ for_all r in
  let dropped (P : packet_rule → Prop) :=
    ∃ pre r post, rules = pre ++ r :: post ∧ Forall (λ r, ¬ P r) pre ∧ P r ∧ has r RULE_DROP = true in
  (allow_inbound_packet rules h = 0 ↔ dropped inbound) ∧ (allow_inbound_packet rules h = 1 ↔ ¬ dropped inbound) ∧
  (allow_outbound_packet rules h = 0 ↔ dropped outbound) ∧ (allow_outbound_packet rules h = 1 ↔ ¬ dropped outbound) ∧
  (destination h = None → ∀ r, ¬ for_all r → (is_Some (local_subscriber r) → ¬ inbound r) ∧ (is_Some (remote_subscriber r) → ¬ outbound r)).
Proof.
  assert (∀ test (P : packet_rule → Prop), (∀ r, test r = true ↔ P r) →
    let dropped := ∃ pre r post, rules = pre ++ r :: post ∧ Forall (λ r, ¬ P r) pre ∧ P r ∧ has r RULE_DROP = true in
    (allow_packet test rules = 0 ↔ dropped) ∧ (allow_packet test rules = 1 ↔ ¬ dropped)) as Hgen.
  { intros test P HP dropped. destruct (allow_packet_spec test rules) as [H01 H0].
    assert (allow_packet test rules = 0 ↔ dropped) as Hd; [|split; [done|]; rewrite <- Hd; lia].
    rewrite H0. unfold dropped. split; intros (pre & r & post & -> & Hpre & Hr & Hd); exists pre, r, post;
      split_and!; try done; try (by apply HP); (eapply Forall_impl; [exact Hpre|]); intros r' Hr'; simpl.
    - rewrite <- HP. congruence.
    - apply not_true_is_false. by rewrite HP. }
  intros inbound outbound dropped. unfold allow_inbound_packet, allow_outbound_packet.
  destruct (Hgen _ inbound (matches_spec _ _ _ _ _)) as [I0 I1], (Hgen _ outbound (matches_spec _ _ _ _ _)) as [O0 O1].
  split_and!; try done. intros Hd r Hr. split; intros [x Hx] [[_ Hre _ Hlo _]|?]; try done; rewrite Hd in *; [specialize (Hlo x Hx)|specialize (Hre x Hx)]; done.
Qed.

(** A packet for all nodes passes a rule that drops what is sent to the broadcast
    address, which is subscriber 9 here, and is dropped by one without an address. *)
Lemma filter_first_match_witness : let h := Header (Some 1%nat) 7 None 70 in
  let broadcast := Rule (Some 9%nat) None (Ports 0 0) (Ports 0 0) (Z.lor RULE_DROP RULE_INBOUND) in
  let any := Rule None None (Ports 70 70) (Ports 0 0) (Z.lor (Z.lor RULE_DROP RULE_INBOUND) RULE_LOCAL_PORT) in
  allow_inbound_packet [broadcast] h = 1 ∧ allow_inbound_packet [broadcast; any] h = 0.
Proof.
  intros h broadcast any. assert (¬ (applies RULE_INBOUND (source h) (source_port h) (destination h) (destination_port h) broadcast ∨ for_all broadcast)) as Hno.
  { destruct (filter_first_match [] h) as (_ & _ & _ & _ & H). apply (H eq_refl broadcast); [by intros [? _]|by eexists]. }
  split.
  - destruct (filter_first_match [broadcast] h) as (_ & H & _). apply H. intros (pre & r & post & E & _ & Hr & _). destruct pre as [|? [|? pre]]; [|discriminate E..]. assert (r = broadcast) as -> by (by injection E). exact (Hno Hr).
  - destruct (filter_first_match [broadcast; any] h) as (H & _). apply H. exists [broadcast], any, []. split_and!; [done| | |done].
    + by apply Forall_singleton.
    + left. split; done.
Defined.

(** ** Reloading *)

Lemma same_meta_refl m : same_meta m m = true.
Proof. unfold same_meta. by rewrite !Z.eqb_refl. Qed.
Lemma same_meta_eq a b : same_meta a b = true → a = b.
Proof.
  unfold same_meta. rewrite !andb_true_iff, !Z.eqb_eq. destruct a, b; cbn. intros [[-> ->] ->]. done.
Qed.

Section Reload.
Context `{Arch}.
Variable find_subscriber : list Z → option nat.

(** C27: reloading the rules replaces them all or keeps them all: a failure keeps
    them, success installs exactly the rules the file denotes, or none when the
    file does not exist or is empty, and a file whose state is already recorded is
    not read again, not even when its text was rejected before. *)
Theorem reload_all_or_nothing alloc path_ok meta content st r st' :
  reload_mdp_packet_rules find_subscriber alloc true path_ok meta content st = Ret (r, st') →
  match r with
  | -1 => packet_rules st' = packet_rules st
  | 0 => st' = st ∧ meta = Some (packet_rules_meta st)
  | 1 => ∃ m, meta = Some m ∧ m ≠ packet_rules_meta st ∧ packet_rules_meta st' = m ∧
      ((tv_sec m = -1 ∨ size m ≤ 0) ∧ packet_rules st' = [] ∨
       ∃ bytes, content = Some bytes ∧ 0 < size m ≤ PACKET_RULES_FILE_MAX_SIZE ∧
         parse_mdp_packet_rules find_subscriber alloc (File bytes false) = Ret (0, Some (packet_rules st')))
  | _ => False
  end ∧
  ∀ m alloc' content', meta = Some m → packet_rules_meta st' = m →
    reload_mdp_packet_rules find_subscriber alloc' true true (Some m) content' st' = Ret (0, st').
Proof.
  intros Hr. split.
  2: { intros m alloc' content' _ <-. unfold reload_mdp_packet_rules. cbn [negb]. by rewrite same_meta_refl. }
  revert Hr. unfold reload_mdp_packet_rules. cbn [negb].
  destruct path_ok; cbn [negb]; [|by intros [= <- <-]]. destruct meta as [m|]; [|by intros [= <- <-]].
  destruct (same_meta m (packet_rules_meta st)) eqn:Em; [apply same_meta_eq in Em as ->; by intros [= <- <-]|].
  assert (m ≠ packet_rules_meta st) as Hne by (intros ->; by rewrite same_meta_refl in Em).
  destruct (Z.eqb_spec (tv_sec m) (-1)) as [Et|Et]; [intros [= <- <-]; exists m; split_and!; [done..|left]; by auto|].
  destruct (Z.ltb_spec PACKET_RULES_FILE_MAX_SIZE (size m)) as [|Hmax]; [by intros [= <- <-]|].
  destruct (Z.leb_spec (size m) 0) as [Hz|Hz]; [intros [= <- <-]; exists m; split_and!; [done..|left]; by auto|].
  destruct content as [bytes|]; [|by intros [= <- <-]].
  destruct (parse_mdp_packet_rules _ _ _) as [[v rules]| |] eqn:Ep; [|done|done]. rewrite bind_ret_l.
  destruct v as [|p|p]; [|by intros [= <- <-]..]. destruct rules as [rules|]; intros [= <- <-]; [|done].
  exists m. split_and!; try done. right. by exists bytes.
Qed.

End Reload.

Lemma reload_all_or_nothing_witness :
  ∃ st', @reload_mdp_packet_rules arm64 finds (λ _, true) true true (Some (Meta 7 0 9)) (Some (text "drop all;"))
      (Filter [] FILE_META_UNKNOWN) = Ret (1, st') ∧
    packet_rules st' = [Rule None None (Ports 0 0) (Ports 0 0) 1] ∧
    @reload_mdp_packet_rules arm64 finds (λ _, true) true true (Some (Meta 7 0 9)) (Some (text "allow all")) st' = Ret (0, st').
Proof.
  eexists. split; [vm_compute; reflexivity|]. split; [done|].
  refine (proj2 (@reload_all_or_nothing arm64 finds (λ _, true) true (Some (Meta 7 0 9)) (Some (text "drop all;"))
    (Filter [] FILE_META_UNKNOWN) 1 _ _) _ _ _ eq_refl _); [vm_compute; reflexivity|done].
Defined.

(** The parser is stopped by an assertion when the file ends where it looks for a
    pattern, an endpoint or a port, instead of rejecting the file. *)
Lemma truncated_rule_aborts `{Arch} find alloc s : (∀ i, alloc i = true) →
  s ∈ ["drop"; "allow"; "drop *>"; "drop *<"; "drop *:"; "drop <*:"; "drop *:1-"]%string →
  parse_mdp_packet_rules find alloc (File (text s) false) = Aborted.
Proof.
  intros Ha Hs. unfold parse_mdp_packet_rules, _rules. rewrite Ha.
  repeat (apply elem_of_cons in Hs as [-> |Hs]; [vm_compute; reflexivity|]). by apply elem_of_nil in Hs.
Qed.

(** The buffer of [alloca_packet_rule] does not hold the longest rules. *)
Lemma longest_rule_truncated : ∃ cells0 sb0 cells' sb',
  let rule := Rule (Some 1%nat) (Some 2%nat) (Ports 1 2) (Ports 3 4) 30 in
  @Strbuf.strbuf_init arm64 (replicate 180 0) false 180 = Ret (cells0, sb0) ∧
  Strbuf.run cells0 sb0 (append_packet_rule (λ n, replicate 32 (Z.of_nat n)) rule) = Ret (cells', sb') ∧
  Strbuf.strbuf_overrun sb' = true ∧ Strbuf.strbuf_count sb' = 181.
Proof. do 4 eexists. split; [vm_compute; reflexivity|]. split; [vm_compute; reflexivity|]. done. Qed.

End MdpFilterPrint.
