(* ===== verification/MdpFilterSafe.v ===== *)
(** * Safety of the packet filter parser

    For every content of the file, well formed or not, and however memory and
    subscribers are allocated: the parser terminates, reads nothing outside its
    buffer, and makes canonical rules only. *)

From S2P Require Import Prelude StrCtype StrNum StrScan Strbuf DataFormats MdpCursor MdpFilter MdpFilterProps MdpFilterPrint.
From Stdlib Require Import Ascii.
Import Ctype StrNum StrScan DataFormats MdpCursor MdpFilter MdpFilterProps MdpFilterPrint.

Module MdpFilterSafe.

Abbreviation wview := (view_upto BUFFER_SIZE).

(** [c] has moved on through the text [t]. *)
Definition moved (t u : list Z) (k : nat) (c : cursor) : Prop :=
  ∃ xs t', t = xs ++ t' ∧ wview c t' (keep k u xs) k.

Lemma moved_view t u k c : wview c t u k → moved t u k c.
Proof. intros Hv. exists [], t. by rewrite keep_nil. Qed.
Lemma moved_trans t u k xs t' c : t = xs ++ t' → moved t' (keep k u xs) k c → moved t u k c.
Proof.
  intros -> (ys & t'' & -> & Hv). exists (xs ++ ys), t''. rewrite <- app_assoc, <- keep_app. done.
Qed.

(** ** Buffer operations *)

Lemma any_skip c text t u k : wview c t u k → (length text ≤ LOOKAHEAD)%nat →
  ∃ c' b, skip c text = Ret (c', b) ∧
    if b : bool then ∃ t', t = text ++ t' ∧ wview c' t' (keep k u text) k else wview c' t u k.
Proof.
  intros Hv Hl. unfold skip. destruct (any_preload c t u k _ Hv Hl) as (c1 & -> & Hv1). rewrite bind_ret_l.
  pose proof (ok_current _ (v_ok _ _ _ _ Hv1)) as Hc. rewrite available_ret, bind_ret_l by done.
  case_bool_decide as Hle; [|by exists c1, false]. pose proof (view_data _ _ _ _ Hv1) as Hd.
  assert (length (drop (current c1) (data c1)) = avail c1) as Hlen by (rewrite length_drop; done).
  destruct (str_startswith_total (drop (current c1) (data c1)) text) as ([r|] & Hs); [lia| |].
  - rewrite Hs, bind_ret_l. apply str_startswith_inv in Hs. eexists _, true. split; [reflexivity|].
    exists (r ++ drop (avail c1) t). assert (t = text ++ r ++ drop (avail c1) t) as Et.
    { by rewrite app_assoc, <- Hs, Hd, take_drop. }
    split; [done|]. rewrite Et in Hv1. pose proof (view_advance c1 text _ u k Hv1 Hle) as Hv2.
    rewrite Hs, length_app in Hlen. replace (end_ c1 - length r)%nat with (current c1 + length text)%nat
      by (unfold avail in *; lia). done.
  - rewrite Hs. by exists c1, false.
Qed.

Lemma any_eof c t u k : wview c t u k → ∃ c' b, eof c = Ret (c', b) ∧ wview c' t u k ∧ (b = true → avail c' = 0%nat).
Proof.
  intros Hv. unfold eof. destruct (any_preload c t u k 1 Hv) as (c1 & -> & Hv1); [unfold LOOKAHEAD; lia|].
  rewrite bind_ret_l, bool_decide_true by apply Hv1. eexists _, _. split_and!; [done|done|].
  intros [E _]%andb_true_iff. apply Nat.eqb_eq in E. unfold avail. lia.
Qed.
Lemma any_peek c t u k : wview c t u k →
  safely (λ r, wview r.1 t u k ∧ (r.2 = -1 ∨ (0 < avail r.1)%nat ∧ ∃ t', t = r.2 :: t')) (peek c).
Proof.
  intros Hv. unfold peek. destruct (any_eof c t u k Hv) as (c1 & b & -> & Hv1 & _). rewrite bind_ret_l.
  destruct b; [by split; [|left]|]. case_bool_decide as Hlt; [|done].
  pose proof (view_data _ _ _ _ Hv1) as Hd. assert (0 < avail c1)%nat as Ha by (unfold avail; lia).
  destruct (data c1 !! current c1) as [x|] eqn:Ex.
  - unfold char_at. rewrite Ex, bind_ret_l. split; [done|]. right. split; [done|].
    rewrite <- (Nat.add_0_r (current c1)), <- lookup_drop, Hd in Ex.
    destruct t as [|y t]; [by rewrite take_nil in Ex|]. destruct (avail c1); [lia|]. injection Ex as ->. by eexists.
  - apply lookup_ge_None in Ex. unfold end_ in Hlt. lia.
Qed.

(** A character that is looked for is there, and can be consumed. *)
Lemma any_next c x t u k : wview c (x :: t) u k → (0 < avail c)%nat →
  ∃ c', next c = Ret c' ∧ moved (x :: t) u k c' ∧ wview c' t (keep k u [x]) k.
Proof.
  intros Hv Ha. destruct (view_next c x t u k Hv Ha) as (c' & Hn & Hv'). exists c'. split_and!; [done| |done].
  by exists [x], t.
Qed.

Lemma any_space fuel c t u k ret : wview c t u k → (length t < fuel)%nat →
  safely (λ r, moved t u k r.1) (space_loop fuel c ret).
Proof.
  revert c t u ret. induction fuel as [|fuel IH]; intros c t u ret Hv Hf; [lia|]. cbn [space_loop].
  eapply safely_bind; [by apply any_peek|]. intros [c1 x] [Hv1 Hx]. cbn [fst snd] in *.
  destruct (Z.eqb_spec x (chr " ")) as [->|]; [|by apply moved_view].
  destruct Hx as [|(Ha & t' & ->)]; [done|]. destruct (any_next c1 _ t' u k Hv1 Ha) as (c2 & -> & _ & Hv2).
  rewrite bind_ret_l. eapply safely_impl; [apply (IH c2 t' _ true Hv2); simpl in Hf; lia|].
  intros [c3 b] Hm. by eapply (moved_trans _ _ _ [_]).
Qed.
Lemma any_optspace c t u k : wview c t u k → safely (moved t u k) (_optspace c).
Proof.
  intros Hv. unfold _optspace, _space. eapply safely_bind; [|intros r Hr; exact Hr].
  apply any_space; [done|]. destruct Hv as [Hok <- _ _ _].
  unfold remaining, input_size. rewrite length_app, length_drop. lia.
Qed.
Lemma moved_optspace c t u k : moved t u k c → safely (moved t u k) (_optspace c).
Proof.
  intros (xs & t' & E & Hv). eapply safely_impl; [by eapply any_optspace|]. intros c' Hm. by eapply moved_trans.
Qed.

(** ** Numbers and SIDs *)

Lemma hexvalue_total x : ∃ d, hexvalue x = Ret d.
Proof.
  destruct (isxdigit x) eqn:E; [destruct (hexvalue_xdigit x E) as (d & Hd & _); by exists d|].
  exists (-1). by apply hexvalue_other.
Qed.

Lemma uint_loop_total w overflow base s k v nv : 0 ≤ w → 0 ≤ v < 2 ^ w →
  ∃ k' cs rest v' nv', uint_loop w overflow base (Some (length s)) s k v nv = Ret (k', rest, v', nv') ∧
    s = cs ++ rest ∧ 0 ≤ v' < 2 ^ w.
Proof.
  intros Hw. revert k v nv. induction s as [|x s IH]; intros k v nv Hv; [by eexists _, [], _, _, _|].
  cbn [length uint_loop]. rewrite bool_decide_false by done. cbn [andb].
  destruct (hexvalue_total x) as [d ->]. rewrite bind_ret_l.
  destruct ((d <? 0) || (base <=? d)); [by eexists _, [], _, _, _|].
  destruct (overflow v _); [by eexists _, [], _, _, _|].
  cbn [fmap option_fmap option_map pred].
  destruct (IH (k + 1) (wrapu w (v * base + d)) (wrapu w (v * base + d))) as (k' & cs & rest & v' & nv' & -> & -> & Hv').
  { by apply wrapu_range. }
  by eexists _, (x :: cs), _, _, _.
Qed.
Lemma uint32_total s base : s ≠ [] → 1 ≤ base ≤ 16 →
  ∃ v cs rest, strn_to_uint32 s (length s) base true = Ret (v, rest) ∧ s = cs ++ rest ∧
    ∀ p, v = Some p → 0 ≤ p < 2 ^ 32.
Proof.
  intros Hne Hb. unfold strn_to_uint32, strn_to_uint. do 2 decide_cmp.
  assert (length s ≠ 0)%nat by (by destruct s). rewrite decide_False by done.
  destruct (uint_loop_total 32 (λ value newvalue, newvalue <? value) base s 0 0 0) as (k & cs & rest & v & nv & -> & -> & Hv);
    [lia|lia|]. rewrite bind_ret_l, decide_False, bind_ret_l by done. eexists _, cs, rest. split_and!; [reflexivity|done|].
  intros p. destruct (_ || _); [done|]. by intros [= <-].
Qed.

Lemma xdigits_or s : xdigits s ∨ ∃ pre x r, s = pre ++ x :: r ∧ xdigits pre ∧ isxdigit x = false.
Proof.
  induction s as [|y s [IH|(pre & x & r & -> & Hp & Hx)]]; [left; constructor| |];
    (destruct (isxdigit y) eqn:E; [|right; eexists [], y, _; split_and!; [reflexivity|constructor|done]]).
  - left. by apply Forall_cons.
  - right. exists (y :: pre), x, r. split_and!; [done|by apply Forall_cons|done].
Qed.
Lemma unhex_bytes s : xdigits s → Forall is_byte (unhex s).
Proof.
  remember (length s) as n eqn:Hn. revert s Hn. induction n as [n IH] using lt_wf_ind. intros s -> Hx.
  destruct s as [|h [|l s]]; [constructor|constructor|]. apply Forall_cons in Hx as [Hh Hx]. apply Forall_cons in Hx as [Hl Hx].
  cbn [unhex]. constructor; [|apply (IH (length s)); [simpl; lia|done|done]].
  destruct (hexvalue_xdigit h Hh) as (dh & Eh & Rh), (hexvalue_xdigit l Hl) as (dl & El & Rl).
  unfold hexval, is_byte. rewrite Eh, El. lia.
Qed.

Lemma parse_sid_total `{Arch} s : ∃ p, parse_sid_t s (Some (length s)) true = Ret p ∧
  match p with Some (bs, rest) => is_sid bs ∧ ∃ cs, s = cs ++ rest | None => True end.
Proof.
  unfold parse_sid_t. destruct (strn_startswith_total s (length s) broadcast_text (le_n _)) as (b & Hb).
  rewrite Hb, bind_ret_l. destruct b as [rest|].
  { eexists. split; [reflexivity|]. apply strn_startswith_inv in Hb as [-> _].
    split; [split; by apply (bool_decide_unpack _)|by eexists]. }
  unfold parse_hex. destruct (Nat.eqb_spec (length s) (2 * SID_SIZE)) as [Hl|]; cbn [negb]; [|by exists None].
  destruct (xdigits_or s) as [Hx|(pre & x & r & -> & Hp & Hx)].
  - destruct (fromhex_digits SID_SIZE s [] Hl Hx) as [Hf Hu]; [done|]. rewrite app_nil_r in Hf.
    rewrite Hf, bind_ret_l. cbn [fst snd]. rewrite Z.eqb_refl. cbn [negb]. eexists. split; [reflexivity|].
    split; [by split; [|apply unhex_bytes]|]. exists (take (2 * SID_SIZE) s). by rewrite take_drop.
  - rewrite length_app in Hl. simpl in Hl. destruct (fromhex_short SID_SIZE pre x r) as (bs & n & -> & Hn); try done; [simpl; lia|].
    rewrite bind_ret_l. cbn [snd]. rewrite (proj2 (Z.eqb_neq _ _) Hn). by exists None.
Qed.

(** ** Ports *)

(** Moving to the end of a part of what is available. *)
Lemma any_advance c cs rest t u k : wview c t u k → drop (current c) (data c) = cs ++ rest →
  ∃ c', advance_to c (MdpCursor.end_ c - length rest) = Ret c' ∧ moved t u k c'.
Proof.
  intros Hv E. pose proof (view_data _ _ _ _ Hv) as Hd. pose proof (ok_current _ (v_ok _ _ _ _ Hv)) as Hc.
  assert (length cs + length rest = avail c)%nat as Hl.
  { rewrite <- length_app, <- E, length_drop. done. }
  unfold advance_to. rewrite !bool_decide_true by (unfold avail in *; lia). eexists. split; [reflexivity|].
  assert (t = cs ++ rest ++ drop (avail c) t) as Et by (by rewrite app_assoc, <- E, Hd, take_drop).
  exists cs, (rest ++ drop (avail c) t). split; [done|]. rewrite Et in Hv.
  replace (end_ c - length rest)%nat with (current c + length cs)%nat by (unfold avail in *; lia).
  apply view_advance; [done|lia].
Qed.

Lemma any_ahead c : ok c → safely (λ s, s = drop (current c) (data c) ∧ s ≠ []) (preloaded c) ∧
  available c = Ret (length (drop (current c) (data c))).
Proof.
  intros Hok. split.
  - unfold preloaded. case_bool_decide as Hlt; [|done]. split; [done|]. intros E. apply (f_equal length) in E.
    rewrite length_drop in E. unfold end_ in Hlt. simpl in E. lia.
  - rewrite available_ret by apply Hok. by rewrite length_drop.
Qed.

Definition port_result (r : option Z) : Prop := match r with Some p => 0 ≤ p < 2 ^ 32 | None => True end.

Lemma any_port c t u k : wview c t u k → safely (λ r, moved t u k r.1 ∧ port_result r.2) (_port c).
Proof.
  intros Hv. unfold _port. destruct (any_skip c (text "0x") t u k Hv) as (c1 & b & -> & Hb); [by apply (bool_decide_unpack _)|].
  rewrite bind_ret_l. assert (∃ xs t', t = xs ++ t' ∧ wview c1 t' (keep k u xs) k) as (xs & t' & Et & Hv1).
  { destruct b; [destruct Hb as (t' & -> & Hv'); by eexists _, _|]. exists [], t. by rewrite keep_nil. }
  destruct (any_preload c1 t' _ k (if b then 8 else 10) Hv1) as (c2 & -> & Hv2); [destruct b; unfold LOOKAHEAD; lia|].
  rewrite bind_ret_l. destruct (any_ahead c2 (v_ok _ _ _ _ Hv2)) as [Hs Hn].
  eapply safely_bind; [exact Hs|]. intros s [-> Hne]. rewrite Hn, bind_ret_l.
  destruct (uint32_total _ (if b then 16 else 10) Hne) as (v & cs & rest & -> & E & Hp); [destruct b; lia|].
  rewrite bind_ret_l. destruct v as [p|].
  - destruct (any_advance c2 cs rest t' _ k Hv2 E) as (c3 & -> & Hm). rewrite bind_ret_l. split; [by eapply moved_trans|by apply Hp].
  - split; [by eapply moved_trans, moved_view|done].
Qed.
Lemma moved_port c t u k : moved t u k c → safely (λ r, moved t u k r.1 ∧ port_result r.2) (_port c).
Proof.
  intros (xs & t' & E & Hv). eapply safely_impl; [by eapply any_port|]. intros r [Hm Hp].
  split; [by eapply moved_trans|done].
Qed.

Lemma moved_peek c t u k : moved t u k c →
  safely (λ r, moved t u k r.1 ∧ (r.2 = -1 ∨ ∃ c', next r.1 = Ret c' ∧ moved t u k c')) (peek c).
Proof.
  intros (xs & t' & E & Hv). eapply safely_impl; [by eapply any_peek|]. intros [c1 x] [Hv1 Hx]. cbn [fst snd] in *.
  split; [by eapply moved_trans, moved_view|]. destruct Hx as [|(Ha & t'' & ->)]; [by left|right].
  destruct (any_next c1 x t'' _ k Hv1 Ha) as (c2 & Hn & Hm & _). exists c2. split; [done|by eapply moved_trans].
Qed.

Lemma moved_portrange c t u k range : moved t u k c →
  safely (λ r, moved t u k r.1.1 ∧ (r.2 = true → ports_ok r.1.2)) (_portrange c range).
Proof.
  intros Hm. unfold _portrange. eapply safely_bind; [by apply moved_port|]. intros [c1 v] [Hm1 Hv]. cbn [fst snd] in *.
  destruct v as [first|]; [|by split]. eapply safely_bind; [by apply moved_optspace|]. intros c2 Hm2.
  eapply safely_bind; [by apply moved_peek|]. intros [c3 x] [Hm3 Hx]. cbn [fst snd] in *.
  destruct (Z.eqb_spec x (chr "-")) as [->|]; [|by split].
  destruct Hx as [|(c4 & -> & Hm4)]; [done|]. rewrite bind_ret_l.
  eapply safely_bind; [by apply moved_optspace|]. intros c5 Hm5.
  eapply safely_bind; [by apply moved_port|]. intros [c6 v] [Hm6 Hl]. cbn [fst snd] in *. by destruct v.
Qed.

(** Going back to the only pin. *)
Lemma any_retreat c t u : wview c t u 1 → ∃ c', retreat c 0 = Ret c' ∧ wview c' (u ++ t) [] 0.
Proof.
  intros [[Hc He Hp Heof] Hr Hpd Hk Ha]. unfold retreat, release.
  rewrite bool_decide_true, Hk by done. rewrite bool_decide_true by lia.
  destruct (pin_ c) as [p|] eqn:E; [|rewrite Hk in Hp; done]. rewrite !bool_decide_true by lia.
  cbn [set_current pins]. rewrite Hk, Nat.add_0_r. eexists. split; [done|]. unfold pinned in Hpd. rewrite E in Hpd.
  split; simpl; try done.
  - split; simpl; try done. unfold end_ in *. simpl. lia.
  - unfold remaining in *. simpl. rewrite <- Hr, <- Hpd, app_assoc. f_equal.
    rewrite <- (take_drop (current c - p) (drop p (data c))) at 1. f_equal. rewrite drop_drop. f_equal. lia.
  - unfold avail, end_ in *. simpl. lia.
Qed.

(** ** Endpoints *)

Section Parser.
Context `{Arch}.
Variable find_subscriber : list Z → option nat.

Definition found (s : option nat) : Prop :=
  match s with Some s => ∃ bs, is_sid bs ∧ find_subscriber bs = Some s | None => True end.

Lemma any_sid c t u k sub0 : wview c t u k →
  safely (λ r, moved t u k r.1.1 ∧ (r.2 = true → found r.1.2)) (endpoint_sid find_subscriber c sub0).
Proof.
  intros Hv. unfold endpoint_sid. destruct (any_preload c t u k SID_STRLEN Hv (le_n _)) as (c1 & -> & Hv1).
  rewrite bind_ret_l. destruct (any_skip c1 (text "*") t u k Hv1) as (c2 & b & -> & Hb); [by apply (bool_decide_unpack _)|].
  rewrite bind_ret_l. destruct b; [destruct Hb as (t' & -> & Hv2); by split; [eexists _, _|]|].
  destruct (any_ahead c2 (v_ok _ _ _ _ Hb)) as [Hs Hn]. eapply safely_bind; [exact Hs|]. intros s [-> Hne].
  rewrite Hn, bind_ret_l. destruct (parse_sid_total (drop (current c2) (data c2))) as (p & -> & Hp). rewrite bind_ret_l.
  destruct p as [[bs rest]|]; [|split; [by apply moved_view|done]]. destruct Hp as [Hsid [cs E]].
  destruct (find_subscriber bs) as [sub|] eqn:Ef; [|split; [by apply moved_view|done]].
  destruct (any_advance c2 cs rest t u k Hb E) as (c3 & -> & Hm). rewrite bind_ret_l. split; [done|]. intros _. by exists bs.
Qed.

(** What an endpoint that is accepted leaves behind. *)
Definition end_good (f flag : Z) (range : mdp_portrange) (e : end_result) : Prop :=
  found (e_subscr e) ∧ (e_flags e = f ∧ e_range e = range ∨ e_flags e = Z.lor f flag ∧ ports_ok (e_range e)).

Lemma any_endpoint c t u k f flag sub0 range : wview c t u k →
  safely (λ r, moved t u k r.1 ∧ if e_ok r.2 then end_good f flag range r.2 else e_flags r.2 = f)
    (_endpoint find_subscriber c f flag sub0 range).
Proof.
  intros Hv. unfold _endpoint. eapply safely_bind; [by apply any_sid|]. intros [[c1 sub] b] [Hm1 Hs]. cbn [fst snd] in *.
  destruct b; [|by split]. eapply safely_bind; [by apply moved_optspace|]. intros c2 Hm2.
  eapply safely_bind; [by apply moved_peek|]. intros [c3 x] [Hm3 Hx]. cbn [fst snd] in *.
  destruct (Z.eqb_spec x (chr ":")) as [->|].
  2: { split; [done|]. split; [by apply Hs|by left]. }
  destruct Hx as [|(c4 & -> & Hm4)]; [done|]. rewrite bind_ret_l.
  eapply safely_bind; [by apply moved_optspace|]. intros c5 Hm5.
  eapply safely_bind; [by apply moved_portrange|]. intros [[c6 r] ok] [Hm6 Hr]. cbn [fst snd] in *.
  split; [done|]. destruct ok; cbn [e_ok]; [|done]. split; [by apply Hs|right]. split; [done|by apply Hr].
Qed.

(** ** Patterns *)

Lemma any_direction c t f : wview c t [] 0 → f ∈ early_flags →
  ∃ c' fl ok, _direction c f = Ret (c', fl, ok) ∧ moved t [] 0 c' ∧
    (ok = true → (∃ d, fl = Z.lor f (dir_flags d)) ∧ ¬ (head_not t (chr "<") ∧ head_not t (chr ">"))).
Proof.
  intros Hv Hf. unfold _direction.
  destruct (any_skip c (text "<") t [] 0 Hv) as (c1 & b1 & -> & H1); [by apply (bool_decide_unpack _)|]. rewrite bind_ret_l.
  assert (∃ xs t', t = xs ++ t' ∧ wview c1 t' [] 0 ∧ (b1 = false → t' = t) ∧ (b1 = true → ¬ head_not t (chr "<")))
    as (xs & t' & Et & Hv1 & Hn1 & Hb1).
  { destruct b1; [destruct H1 as (t' & -> & Hv'); eexists _, t'; split_and!; try done; intros _ Hh; by apply Hh|].
    by exists [], t. }
  destruct (any_skip c1 (text ">") t' [] 0 Hv1) as (c2 & b2 & -> & H2); [by apply (bool_decide_unpack _)|]. rewrite bind_ret_l.
  eexists c2, _, _. split; [reflexivity|]. split.
  - apply (moved_trans t [] 0 xs t' c2 Et). destruct b2; [destruct H2 as (t'' & -> & Hv'); by eexists _, _|by apply moved_view].
  - intros Hok. destruct b1, b2.
    + split; [exists DBoth; exact (proj1 (direction_flags f DBoth Hf))|]. intros [Hh _]. by apply Hb1.
    + split; [exists DIn; exact (proj1 (direction_flags f DIn Hf))|]. intros [Hh _]. by apply Hb1.
    + split; [exists DOut; exact (proj1 (direction_flags f DOut Hf))|]. intros [_ Hh]. destruct H2 as (t'' & E & _).
      rewrite Hn1 in E by done. apply Hh. by rewrite E.
    + exfalso. repeat (apply elem_of_cons in Hf as [-> |Hf]; [by vm_compute in Hok|]). by apply elem_of_nil in Hf.
Qed.

(** No endpoint begins with a direction, whatever has been read ahead. *)
Lemma any_missing c x t sub0 k : wview c (x :: t) [] k → x = chr "<" ∨ x = chr ">" →
  ∃ c', endpoint_sid find_subscriber c sub0 = Ret (c', sub0, false) ∧ wview c' (x :: t) [] k.
Proof.
  intros Hv Hx. unfold endpoint_sid.
  destruct (view_preload c _ [] k SID_STRLEN Hv fits_nil (le_n _)) as (c0 & -> & Hv0 & Ha0 & _). rewrite bind_ret_l.
  destruct (view_skip_no c0 (text "*") (x :: t) [] k Hv0 fits_nil) as (c1 & -> & Hv1 & Ha1);
    [by apply (bool_decide_unpack _)|intros t'; by destruct Hx as [-> | ->]|]. rewrite bind_ret_l.
  assert (0 < avail c1)%nat as Ha by (rewrite Ha1; change (length (text "*")) with 1%nat; cbn [length]; lia).
  rewrite preloaded_ret, bind_ret_l, available_ret, bind_ret_l by (done || apply Hv1).
  rewrite (view_data _ _ _ _ Hv1). destruct (avail c1) as [|n]; [lia|]. cbn [take].
  assert (isxdigit x = false ∧ (chr "b" =? x) = false) as [Hd Hb] by (by destruct Hx as [-> | ->]).
  unfold parse_sid_t. cbn [strn_startswith broadcast_text fmap list_fmap]. rewrite Hb, bind_ret_l.
  exists c1. split; [|done]. unfold parse_hex. destruct (Nat.eqb _ _); cbn [negb]; [|done].
  destruct (fromhex_short SID_SIZE [] x (take n t)) as (bs & m & Hfr & Hm);
    [simpl; lia|constructor|done|done|]. cbn [app] in Hfr. rewrite Hfr, bind_ret_l. cbn [snd].
  by rewrite (proj2 (Z.eqb_neq _ _) Hm).
Qed.

Lemma moved_direction c t f : moved t [] 0 c → f ∈ early_flags →
  ∃ c' fl ok, _direction c f = Ret (c', fl, ok) ∧ moved t [] 0 c' ∧ (ok = true → ∃ d, fl = Z.lor f (dir_flags d)).
Proof.
  intros (xs & t' & E & Hv) Hf. destruct (any_direction c t' f Hv Hf) as (c' & fl & ok & Hd & Hm & Hok).
  exists c', fl, ok. split_and!; [done|by eapply moved_trans|]. intros Ht. by apply Hok.
Qed.
Lemma moved_endpoint c t f flag sub0 range : moved t [] 0 c →
  safely (λ r, moved t [] 0 r.1 ∧ if e_ok r.2 then end_good f flag range r.2 else e_flags r.2 = f)
    (_endpoint find_subscriber c f flag sub0 range).
Proof.
  intros (xs & t' & E & Hv). eapply safely_impl; [by eapply any_endpoint|]. intros r [Hm Hr].
  split; [by eapply moved_trans|done].
Qed.

(** [sid] gives the SID of a subscriber: what it was found by. *)
Variable sid : nat → list Z.
Context `{!Directory find_subscriber sid}.

Lemma found_known s : found s → known find_subscriber sid s.
Proof.
  destruct s as [s|]; [|done]. intros (bs & [Hl Hb] & Hf). pose proof (directory_sid bs s Hf) as E.
  cbn. rewrite E. by split_and!.
Qed.

(** The two ends and the direction make a canonical rule. *)
Lemma canonical_pattern f e1 d e2 : f = 0 ∨ f = RULE_DROP → end_good f RULE_LOCAL_PORT (Ports 0 0) e1 →
  end_good (Z.lor (e_flags e1) (dir_flags d)) RULE_REMOTE_PORT (Ports 0 0) e2 →
  canonical find_subscriber sid (Rule (e_subscr e1) (e_subscr e2) (e_range e1) (e_range e2) (e_flags e2)).
Proof.
  intros Hf [Hs1 He1] [Hs2 He2].
  assert (∃ b1 b2 : bool, e_flags e2 = Z.lor (Z.lor (Z.lor f (if b1 then RULE_LOCAL_PORT else 0)) (dir_flags d)) (if b2 then RULE_REMOTE_PORT else 0)
    ∧ (if b1 then ports_ok (e_range e1) else e_range e1 = Ports 0 0) ∧ (if b2 then ports_ok (e_range e2) else e_range e2 = Ports 0 0))
    as (b1 & b2 & Ef & Hr1 & Hr2).
  { destruct He1 as [[E1 R1]|[E1 R1]], He2 as [[E2 R2]|[E2 R2]]; rewrite E1 in E2;
      [exists false, false|exists false, true|exists true, false|exists true, true]; rewrite ?Z.lor_0_r; done. }
  split; unfold has; cbn [flags local_subscriber remote_subscriber local_ports remote_ports]; rewrite ?Ef;
    [| |by apply found_known..| |]; destruct Hf as [-> | ->], d, b1, b2; try done; by apply (bool_decide_unpack _).
Qed.

(** What the parsers of parts of a rule promise. *)
Definition rule_result (t : list Z) (r : cursor * packet_rule * bool) : Prop :=
  moved t [] 0 r.1.1 ∧ (r.2 = true → canonical find_subscriber sid r.1.2).

Lemma early_good f e : f = 0 ∨ f = RULE_DROP → end_good f RULE_LOCAL_PORT (Ports 0 0) e → e_flags e ∈ early_flags.
Proof.
  intros Hf [_ [[-> _]|[-> _]]]; destruct Hf as [-> | ->]; by apply (bool_decide_unpack _).
Qed.

Lemma pattern_tail c t f e1 : moved t [] 0 c → f = 0 ∨ f = RULE_DROP → end_good f RULE_LOCAL_PORT (Ports 0 0) e1 →
  safely (rule_result t) (r ← _direction c (e_flags e1);
    let '(c, fl, ok) := r in
    let rule := Rule (e_subscr e1) None (e_range e1) (Ports 0 0) fl in
    if negb ok then Ret (c, rule, false)
    else
      c ← _optspace c;
      r ← _endpoint find_subscriber c (flags rule) RULE_REMOTE_PORT (remote_subscriber rule) (remote_ports rule);
      let '(c, e) := r in
      Ret (c, Rule (local_subscriber rule) (e_subscr e) (local_ports rule) (e_range e) (e_flags e), e_ok e)).
Proof.
  intros Hm Hf He1. destruct (moved_direction c t _ Hm (early_good f e1 Hf He1)) as (c1 & fl & ok & -> & Hm1 & Hd).
  rewrite bind_ret_l. destruct ok; cbn [negb]; [|by split]. destruct (Hd eq_refl) as [d ->].
  eapply safely_bind; [by apply moved_optspace|]. intros c2 Hm2.
  eapply safely_bind; [by apply moved_endpoint|]. intros [c3 e] [Hm3 He]. cbn [fst snd flags remote_ports] in *.
  split; [done|]. cbn [fst snd]. intros Hok. rewrite Hok in He. by eapply canonical_pattern.
Qed.

Lemma any_pattern c t f : wview c t [] 0 → f = 0 ∨ f = RULE_DROP →
  safely (rule_result t) (_pattern find_subscriber c (with_flags zero_rule f)).
Proof.
  intros Hv Hf. unfold _pattern. destruct (decide (0 < avail c)%nat) as [Ha|Ha].
  2: { unfold pin. rewrite bool_decide_false by (unfold avail in Ha; lia). done. }
  destruct t as [|x t].
  { pose proof (remaining_length _ (v_ok _ _ _ _ Hv)) as Hr. rewrite (v_remaining _ _ _ _ Hv) in Hr. simpl in Hr. lia. }
  destruct (view_pin c x t Hv Ha) as (c1 & -> & Hv1). rewrite bind_ret_l.
  cbn [flags local_subscriber local_ports remote_subscriber remote_ports with_flags zero_rule].
  destruct (decide (x = chr "<" ∨ x = chr ">")) as [Hx|Hx].
  - unfold _endpoint. destruct (any_missing c1 x t None 1 Hv1 Hx) as (c2 & -> & Hv2). rewrite !bind_ret_l. cbn [e_ok].
    destruct (any_retreat c2 _ _ Hv2) as (c3 & -> & Hv3). rewrite bind_ret_l.
    apply (pattern_tail c3 (x :: t) f (End f None (Ports 0 0) false)); [by apply moved_view|done|]. split; [done|by left].
  - eapply safely_bind; [by apply any_endpoint|]. intros [c2 e] [(xs & t' & Et & Hv2) He]. cbn [fst snd] in *.
    change (keep 1 [] xs) with xs in Hv2. destruct (e_ok e) eqn:Ee.
    + destruct (view_unpin c2 _ _ Hv2) as (c3 & -> & Hv3). rewrite bind_ret_l.
      eapply safely_bind; [apply (moved_optspace c3 (x :: t) [] 0); by exists xs, t'|]. intros c4 Hm4.
      by apply (pattern_tail c4 (x :: t) f e).
    + destruct (any_retreat c2 _ _ Hv2) as (c3 & -> & Hv3). rewrite bind_ret_l, <- Et, He in *.
      destruct (any_direction c3 (x :: t) f Hv3) as (c4 & fl & ok & -> & Hm4 & Hok).
      { rewrite <- (Z.lor_0_r f). by apply (early_local f (ESid SAny)). }
      rewrite bind_ret_l. destruct ok; cbn [negb]; [|by split]. exfalso.
      apply Hok; [done|]. split; intros [= E]; tauto.
Qed.

Lemma any_which c t f : wview c t [] 0 → f = 0 ∨ f = RULE_DROP →
  safely (rule_result t) (_which find_subscriber c (with_flags zero_rule f)).
Proof.
  intros Hv Hf. unfold _which. destruct (any_skip c (text "all") t [] 0 Hv) as (c1 & b & -> & Hb); [by apply (bool_decide_unpack _)|].
  rewrite bind_ret_l. destruct b; [|by apply any_pattern]. destruct Hb as (t' & -> & Hv1).
  split; [by eexists _, _|]. intros _. destruct Hf as [-> | ->]; split; try done; auto.
Qed.

Lemma any_verb c t : wview c t [] 0 → ∃ c' f b, _verb c zero_rule = Ret (c', with_flags zero_rule f, b) ∧
  moved t [] 0 c' ∧ (f = 0 ∨ f = RULE_DROP).
Proof.
  intros Hv. unfold _verb. destruct (any_skip c (text "allow") t [] 0 Hv) as (c1 & b & -> & Hb); [by apply (bool_decide_unpack _)|].
  rewrite bind_ret_l. destruct b.
  { destruct Hb as (t' & -> & Hv1). exists c1, 0, true. split_and!; [done|by eexists _, _|by left]. }
  destruct (any_skip c1 (text "drop") t [] 0 Hb) as (c2 & b & -> & Hb2); [by apply (bool_decide_unpack _)|].
  rewrite bind_ret_l. destruct b.
  - destruct Hb2 as (t' & -> & Hv2). exists c2, RULE_DROP, true. split_and!; [done|by eexists _, _|by right].
  - exists c2, 0, false. split_and!; [done|by apply moved_view|by left].
Qed.

(** ** Rules *)

Lemma any_rule alloc c t : wview c t [] 0 →
  safely (λ r, moved t [] 0 r.1.1 ∧ ∀ rule, r.2 = Some rule → canonical find_subscriber sid rule)
    (_rule find_subscriber alloc c).
Proof.
  intros Hv. unfold _rule. destruct alloc; cbn [negb]; [|by split; [apply moved_view|]].
  destruct (any_verb c t Hv) as (c1 & f & b & -> & Hm1 & Hf). rewrite bind_ret_l. destruct b; cbn [negb]; [|by split].
  eapply safely_bind; [by apply moved_optspace|]. intros c2 (xs & t' & Et & Hv2).
  eapply safely_bind; [by apply any_which|]. intros [[c3 rule] b] [Hm Hc]. cbn [fst snd] in *.
  destruct b; (split; [by eapply moved_trans|]); [|done]. intros r [= <-]. by apply Hc.
Qed.

Lemma any_sep c t : wview c t [] 0 →
  safely (λ r, if r.2 : bool then ∃ x t', t = x :: t' ∧ wview r.1 t' [] 0 else wview r.1 t [] 0) (_sep c).
Proof.
  intros Hv. unfold _sep. eapply safely_bind; [by apply any_peek|]. intros [c1 x] [Hv1 Hx]. cbn [fst snd] in *.
  eapply (safely_bind (λ r, wview r.1 t [] 0 ∧ (r.2 = true → (0 < avail r.1)%nat ∧ ∃ x t', t = x :: t'))).
  - destruct (Z.eqb_spec x 10) as [->|].
    + split; [done|]. intros _. destruct Hx as [|(Ha & t' & ->)]; [done|]. eauto.
    + eapply safely_bind; [by apply any_peek|]. intros [c2 y] [Hv2 Hy]. cbn [fst snd] in *. split; [done|]. cbn [fst snd].
      intros E%Z.eqb_eq. destruct Hy as [->|(Ha & t' & ->)]; [done|]. eauto.
  - intros [c2 b] [Hv2 Hb]. cbn [fst snd] in *. destruct b; [|done]. destruct (Hb eq_refl) as (Ha & y & t' & ->).
    destruct (view_next c2 y t' [] 0 Hv2 Ha) as (c3 & -> & Hv3). rewrite bind_ret_l. by exists y, t'.
Qed.

(** What the loop over the rules ends with. *)
Definition rules_result (r : cursor * Z * list packet_rule) : Prop :=
  (∃ t, wview r.1.1 t [] 0) ∧ Forall (canonical find_subscriber sid) r.2.

Lemma any_end c t acc : wview c t [] 0 → Forall (canonical find_subscriber sid) acc →
  safely rules_result (r ← eof c; Ret (r.1, if r.2 : bool then 1 else 0, acc)).
Proof. intros Hv Hc. destruct (any_eof c t [] 0 Hv) as (c' & b & -> & Hv' & _). rewrite bind_ret_l. split; [by exists t|done]. Qed.

(** A rule and the spaces around it, then the rest or the end. *)
Lemma any_line alloc c t acc K : moved t [] 0 c → Forall (canonical find_subscriber sid) acc →
  (∀ c' t' rule, wview c' t' [] 0 → (length t' ≤ length t)%nat → canonical find_subscriber sid rule →
     safely rules_result (K c' rule)) →
  safely rules_result (r ← _rule find_subscriber alloc c;
    match r with
    | (c, -1, _) => Ret (c, -1, acc)
    | (c, _, rule) =>
        c ← _optspace c;
        match rule with
        | Some rule => K c rule
        | None => r ← eof c; Ret (r.1, if r.2 : bool then 1 else 0, acc)
        end
    end).
Proof.
  intros (xs & t1 & Et & Hv) Hacc HK. eapply safely_bind; [by apply any_rule|].
  intros [[c1 v] rule] [Hm1 Hc]. cbn [fst snd] in *.
  assert (safely rules_result (c ← _optspace c1;
        match rule with
        | Some rule => K c rule
        | None => r ← eof c; Ret (r.1, if r.2 : bool then 1 else 0, acc)
        end)) as Hgo.
  { eapply safely_bind; [by apply moved_optspace|]. intros c2 (ys & t2 & Et2 & Hv2). destruct rule as [rule|].
    - apply (HK c2 t2); [done| |by apply Hc]. rewrite Et, Et2, !length_app. lia.
    - by eapply any_end. }
  destruct v as [|p|[p|p|]]; try done. destruct Hm1 as (ys & t2 & _ & Hv1). split; [by exists t2|done].
Qed.

Lemma any_rules_loop fuel alloc i c t acc : wview c t [] 0 → (length t < fuel)%nat →
  Forall (canonical find_subscriber sid) acc → safely rules_result (rules_loop find_subscriber fuel alloc i c acc).
Proof.
  revert i c t acc. induction fuel as [|fuel IH]; intros i c t acc Hv Hf Hacc; [lia|]. cbn [rules_loop].
  destruct (any_eof c t [] 0 Hv) as (c1 & b & -> & Hv1 & _). rewrite bind_ret_l.
  eapply (safely_bind (λ r, ∃ t', wview r.1 t' [] 0 ∧ (r.2 = true → (length t' < length t)%nat))).
  - destruct b; [by exists t|]. eapply safely_bind; [by apply any_sep|]. intros [c2 s] Hs. cbn [fst snd] in *.
    destruct s; [|by exists t]. destruct Hs as (x & t' & -> & Hv2).
    destruct (any_eof c2 t' [] 0 Hv2) as (c3 & e & -> & Hv3 & _). rewrite bind_ret_l. exists t'. split; [done|]. simpl. lia.
  - intros [c2 go] (t' & Hv2 & Hlt). cbn [fst snd] in *. destruct go; [|by eapply any_end].
    eapply safely_bind; [by apply any_optspace|]. intros c3 Hm3.
    apply (any_line (alloc i) c3 t' acc (λ c rule, rules_loop find_subscriber fuel alloc (S i) c (acc ++ [rule]))); [done|done|].
    intros c4 t4 rule Hv4 Hl4 Hr. apply (IH (S i) c4 t4); [done| |].
    + specialize (Hlt eq_refl). lia.
    + apply Forall_app. split; [done|]. by apply Forall_cons; split; [|apply Forall_nil].
Qed.

Lemma any_rules alloc bytes : safely rules_result (_rules find_subscriber alloc (init_cursor (File bytes false))).
Proof.
  assert (wview (init_cursor (File bytes false)) bytes [] 0) as Hv.
  { destruct (view_init bytes). split; try done. unfold avail, BUFFER_SIZE. simpl. lia. }
  unfold _rules. eapply safely_bind; [by apply any_optspace|]. intros c1 Hm1.
  apply (any_line (alloc 0%nat) c1 bytes [] (λ c rule, rules_loop find_subscriber (S (input_size c)) alloc 1 c [rule])); [done|done|].
  intros c2 t2 rule Hv2 Hl2 Hr. apply (any_rules_loop _ alloc 1 c2 t2); [done| |by apply Forall_cons; split; [|apply Forall_nil]].
  destruct Hv2 as [Hok <- _ _ _]. unfold remaining, input_size. rewrite length_app, length_drop. lia.
Qed.

(** C19: Whatever the rules file contains, as long as no read of it fails, and however allocations go, parsing it terminates, never reads outside its buffer, and either stops at one of its assertions, which some files make it do, rejects the file, or returns rules that are all canonical: with a verb and nothing else when they have no direction, with 32-bit ports where ports are given and zero ports elsewhere, and for subscribers with their SIDs. *)
Theorem parser_safe alloc bytes :
  safely (λ r, match r with
               | (0, Some rules) => Forall (canonical find_subscriber sid) rules
               | (1, None) => True
               | _ => False
               end) (parse_mdp_packet_rules find_subscriber alloc (File bytes false)).
Proof.
  unfold parse_mdp_packet_rules. eapply safely_bind; [apply any_rules|]. intros [[c v] rules] [[t Hv] Hc]. cbn [fst snd] in *.
  destruct (v =? 1); [done|]. eapply (safely_bind (λ _, True)); [|done]. destruct (v =? -1); [done|].
  destruct (any_ahead c (v_ok _ _ _ _ Hv)) as [Hs ->]. rewrite bind_ret_l. destruct (negb _); [|done].
  eapply safely_bind; [exact Hs|done].
Qed.

End Parser.

(** One file is rejected, the other gives two rules. *)
Lemma parser_safe_witness : let find := λ bs, if decide (bs = replicate 32 5) then Some 5%nat else None in let sid := λ _ : nat, replicate 32 5 in
  (∃ v o, @parse_mdp_packet_rules arm32 find (λ _, true) (File (text "drop <0505:" ++ replicate 2000 32) false) = Ret (v, o) ∧ v = 1 ∧ o = None) ∧
  ∃ rules, @parse_mdp_packet_rules arm32 find (λ _, true) (File (text "drop >*:7;allow all") false) = Ret (0, Some rules) ∧ length rules = 2%nat ∧ Forall (canonical find sid) rules.
Proof.
  intros find sid. assert (∀ bs s, find bs = Some s → sid s = bs) as Hfind by (intros bs s; unfold find, sid; by case_decide).
  split.
  - set (f := File _ _). destruct (@parse_mdp_packet_rules arm32 find (λ _, true) f) as [[v o]| |] eqn:E; [|vm_compute in E; discriminate E..]. exists v, o. split; [done|]. vm_compute in E. injection E as <- <-. done.
  - pose proof (@parser_safe arm32 find sid Hfind (λ _, true) (text "drop >*:7;allow all")) as H.
    destruct (@parse_mdp_packet_rules arm32 find (λ _, true) (File (text "drop >*:7;allow all") false)) as [[v [rules|]]| |] eqn:E; [|vm_compute in E; discriminate E..]. exists rules. assert (v = 0 ∧ length rules = 2%nat) as [-> Hl] by (vm_compute in E; injection E as <- <-; done).
    clear E. split; [reflexivity|]. split; [exact Hl|exact H].
Defined.

End MdpFilterSafe.
