(* ===== verification/OverlayAddress.v ===== *)
(** * Subscribers and their addresses (overlay_address.c)

    Subscribers are kept in a tree with sixteen branches to a node, one for each
    value of the next four bits of their identifiers. In packets they are named by
    a prefix of the identifier, by a code, or in full. *)

From S2P Require Import Prelude Mem OverlayBuffer StrCtype StrNum StrScan DataFormats.
Import OB DataFormats.

Module OverlayAddress.

(** ** Data *)

(** overlay_address.h: the fields of struct subscriber that the overlay packets
    use. For the four pointers that forbid freeing a subscriber only whether
    they are set is kept. Subscribers are named by their index in the store, which
    stands for their address. *)
Record subscriber := Subscriber {
  sid : list Z;
  abbreviate_len : nat;
  send_full : bool;
  reachable : Z;
  last_explained : Z;
  link_state : bool;
  destination : bool;
  sync_state : bool;
  identity : bool;
  max_packet_version : Z;
}.
Abbreviation store := (list subscriber).

Definition set_abbreviate_len (s : subscriber) (n : nat) : subscriber :=
  Subscriber (sid s) n (send_full s) (reachable s) (last_explained s) (link_state s) (destination s) (sync_state s) (identity s) (max_packet_version s).
Definition set_send_full (s : subscriber) (b : bool) : subscriber :=
  Subscriber (sid s) (abbreviate_len s) b (reachable s) (last_explained s) (link_state s) (destination s) (sync_state s) (identity s) (max_packet_version s).
Definition set_last_explained (s : subscriber) (t : Z) : subscriber :=
  Subscriber (sid s) (abbreviate_len s) (send_full s) (reachable s) t (link_state s) (destination s) (sync_state s) (identity s) (max_packet_version s).
Definition set_max_packet_version (s : subscriber) (v : Z) : subscriber :=
  Subscriber (sid s) (abbreviate_len s) (send_full s) (reachable s) (last_explained s) (link_state s) (destination s) (sync_state s) (identity s) v.

(** A new subscriber: what [emalloc_zero] makes, with its identifier. *)
Definition new_subscriber (id : list Z) (n : nat) : subscriber := Subscriber id n false 0 0 false false false false 0.

(** A slot of a node holds nothing, a subscriber, or, where the bit of [is_tree]
    is set, another node. *)
#[local] Unset Elimination Schemes.
Inductive slot := Null | Sub (s : nat) | Tree (slots : list slot).
#[local] Set Elimination Schemes.
Abbreviation tree_node := (list slot).
Definition empty_node : tree_node := replicate 16 Null.

Definition get_nibble (sidp : list Z) (pos : nat) : outcome nat :=
  match sidp !! Nat.div2 pos with
  | Some byte => Ret (Z.to_nat (Z.land (if Nat.even pos then Z.shiftr byte 4 else byte) 0xF))
  | None => Undef
  end.

(** [memcmp(a, b, n) == 0], when both objects have [n] bytes. *)
Definition same_bytes (a b : list Z) (n : nat) : outcome bool :=
  defined! bool_decide (n ≤ length a)%nat;
  defined! bool_decide (n ≤ length b)%nat;
  Ret (memcmp (take n a) (take n b) =? 0).

(** ** Finding and making subscribers *)

(** The loop of [_find_subscriber], below the root or another node. [alloc] says
    whether the allocation made at a position succeeds: there is at most one. The
    result is the new node, the new store and [ret]. The loop ends after the last
    nibble. *)
Fixpoint find_loop (fuel : nat) (alloc : nat → bool) (sidp : list Z) (len : nat) (create : bool) (pos : nat)
    (node : tree_node) (ss : store) (ret : option nat) : outcome (tree_node * store * option nat) :=
  match fuel with
  | O => Undef
  | S fuel =>
      nibble ← get_nibble sidp pos;
      let pos := S pos in
      match node !! nibble with
      | None => Undef
      | Some (Tree t) =>
          if bool_decide (pos < len * 2)%nat then
            r ← find_loop fuel alloc sidp len create pos t ss ret;
            let '(t, ss, ret) := r in Ret (<[nibble := Tree t]> node, ss, ret)
          else Ret (node, ss, ret)
      | Some Null =>
          if create then
            if alloc pos then
              defined! bool_decide (SID_SIZE ≤ length sidp)%nat;
              Ret (<[nibble := Sub (length ss)]> node, ss ++ [new_subscriber (take SID_SIZE sidp) pos], Some (length ss))
            else Ret (node, ss, None)
          else Ret (node, ss, ret)
      | Some (Sub s) =>
          match ss !! s with
          | None => Undef
          | Some sub =>
              same ← same_bytes (sid sub) sidp len;
              if (same : bool) then Ret (node, ss, Some s)
              else if negb create then Ret (node, ss, None)
              else if negb (alloc pos) then Ret (node, ss, None)
              else
                nibble' ← get_nibble (sid sub) pos;
                let t := <[nibble' := Sub s]> empty_node in
                let ss := <[s := set_abbreviate_len sub (S pos)]> ss in
                if bool_decide (pos < len * 2)%nat then
                  r ← find_loop fuel alloc sidp len create pos t ss (Some s);
                  let '(t, ss, ret) := r in Ret (<[nibble := Tree t]> node, ss, ret)
                else Ret (<[nibble := Tree t]> node, ss, Some s)
          end
      end
  end.

(** The body of the loop runs at least once. *)
Definition find_subscriber (alloc : nat → bool) (sidp : list Z) (len : nat) (create : bool)
    (root : tree_node) (ss : store) : outcome (tree_node * store * option nat) :=
  find_loop (Nat.max 1 (len * 2)) alloc sidp len (create && bool_decide (len = SID_SIZE)) 0 root ss None.

(** ** Walking the tree *)

Section Walk.
Context {A : Type}.
(** The callback, with what it may change. *)
Variable callback : nat → A → outcome (A * bool).

(** [start] is the identifier of the subscriber to start at. The recursion goes
    no deeper than the tree. *)
Fixpoint walk_tree (fuel : nat) (node : tree_node) (pos : nat) (start : option (list Z)) (a : A) :
    outcome (A * bool) :=
  match fuel with
  | O => Undef
  | S fuel =>
      i ← match start with Some id => get_nibble id pos | None => Ret 0%nat end;
      (fix loop (slots : list slot) (start : option (list Z)) (a : A) : outcome (A * bool) :=
         match slots with
         | [] => Ret (a, false)
         | x :: slots =>
             r ← match x with
                 | Tree t => walk_tree fuel t (S pos) start a
                 | Sub s => callback s a
                 | Null => Ret (a, false)
                 end;
             if r.2 : bool then Ret (r.1, true) else loop slots None r.1
         end) (drop i node) start a
  end.

(** Identifiers have 64 nibbles. *)
Definition DEPTH : nat := 2 * SID_SIZE.

Definition enum_subscribers (root : tree_node) (start : option (list Z)) (a : A) : outcome A :=
  r ← walk_tree (S DEPTH) root 0 start a; Ret r.1.

Variable ss_of : A → store.

Fixpoint prefix_loop (n : nat) (id : list Z) (len : nat) (node : tree_node) (pos : nat) (a : A) : outcome A :=
  match n with
  | O => r ← walk_tree (S DEPTH) node (S pos) None a; Ret r.1
  | S n =>
      i ← get_nibble id pos;
      match node !! i with
      | None => Undef
      | Some (Tree t) => prefix_loop n id len t (S pos) a
      | Some Null => Ret a
      | Some (Sub s) =>
          match ss_of a !! s with
          | None => Undef
          | Some sub =>
              same ← same_bytes (sid sub) id len;
              if (same : bool) then r ← callback s a; Ret r.1 else Ret a
          end
      end
  end.
Definition prefix_matches (root : tree_node) (id : list Z) (len : nat) (a : A) : outcome A :=
  prefix_loop (len * 2) id len root 0 a.

End Walk.

(** ** Freeing *)

(** FATAL stops the process. *)
Definition free_subscriber (s : subscriber) : outcome unit :=
  assert! negb (link_state s || destination s);
  assert! negb (sync_state s);
  assert! negb (identity s);
  Ret tt.

(** The node with its slots cleared. *)
Fixpoint free_children (fuel : nat) (ss : store) (parent : tree_node) : outcome tree_node :=
  match fuel with
  | O => Undef
  | S fuel =>
      (fix loop (slots : list slot) : outcome (list slot) :=
         match slots with
         | [] => Ret []
         | x :: slots =>
             _ ← match x with
                 | Tree t => t ← free_children fuel ss t; Ret tt
                 | Sub s => match ss !! s with Some sub => free_subscriber sub | None => Undef end
                 | Null => Ret tt
                 end;
             rest ← loop slots; Ret (Null :: rest)
         end) parent
  end.
Definition free_subscribers (serverMode : bool) (ss : store) (root : tree_node) : outcome tree_node :=
  assert! negb serverMode;
  free_children (S DEPTH) ss root.

(** ** Broadcast identifiers *)

Definition BROADCAST_LEN : nat := 8.
Definition MAX_BPIS : nat := 1024.
Definition BPI_MASK : Z := 0x3ff.

(** [bpilist] before the first packet. *)
Definition no_bpis : list (list Z) := replicate MAX_BPIS (replicate BROADCAST_LEN 0).

Definition bpi_step (bpi_index byte : Z) : Z :=
  Z.lxor (Z.land (Z.shiftl bpi_index 3) 0xfff8 + Z.land (Z.shiftr bpi_index 13) 0x7) byte.
Definition bpi_index (id : list Z) : Z := Z.land (foldl bpi_step 0 id) BPI_MASK.

Definition overlay_broadcast_drop_check (id : list Z) (bpilist : list (list Z)) : outcome (list (list Z) * Z) :=
  let i := Z.to_nat (bpi_index id) in
  match bpilist !! i with
  | None => Undef
  | Some old =>
      if negb (memcmp old id =? 0) then Ret (<[i := id]> bpilist, 0) else Ret (bpilist, 1)
  end.

(** [random] gives the values of random(3). *)
Definition overlay_broadcast_generate_address (random : nat → Z) : list Z :=
  (λ i, Z.land (random i) 0xff) <$> seq 0 BROADCAST_LEN.

End OverlayAddress.
