(* ===== verification/OverlayAddressTree.v ===== *)
(** * The subscriber tree

    The tree stands for the set of subscribers in the store: what finding a whole
    or abbreviated identifier returns, what making a new subscriber changes, and
    in which order the subscribers are visited. *)

From S2P Require Import Prelude Mem OverlayBuffer StrCtype StrNum StrScan DataFormats OverlayAddress.
Import DataFormats OverlayAddress.

Module OverlayAddressTree.

(** ** Nibbles *)

Definition byte_nibbles (b : Z) : list nat := [Z.to_nat (Z.land (Z.shiftr b 4) 0xF); Z.to_nat (Z.land b 0xF)].
Definition nibbles (bs : list Z) : list nat := bs ≫= byte_nibbles.

Lemma nibbles_app a b : nibbles (a ++ b) = nibbles a ++ nibbles b.
Proof. apply bind_app. Qed.
Lemma nibbles_length bs : length (nibbles bs) = (2 * length bs)%nat.
Proof. induction bs as [|b bs IH]; [done|]. cbn [nibbles mbind list_bind]. fold (nibbles bs). rewrite length_app, IH. simpl. lia. Qed.
Lemma nibbles_take n bs : nibbles (take n bs) = take (2 * n) (nibbles bs).
Proof.
  revert n. induction bs as [|b bs IH]; intros n; [by destruct n|]. destruct n as [|n]; [done|].
  replace (2 * S n)%nat with (S (S (2 * n))) by lia. cbn [take nibbles mbind list_bind app byte_nibbles].
  do 2 f_equal. apply IH.
Qed.

Lemma nibble_small b : (Z.to_nat (Z.land b 0xF) < 16)%nat.
Proof.
  change 0xF with (Z.ones 4). rewrite Z.land_ones by lia. pose proof (Z.mod_pos_bound b (2 ^ 4) ltac:(lia)). lia.
Qed.
Lemma nibbles_small bs : Forall (λ n, n < 16)%nat (nibbles bs).
Proof.
  induction bs as [|b bs IH]; [constructor|]. cbn [nibbles mbind list_bind app byte_nibbles].
  repeat (constructor; [apply nibble_small|]). done.
Qed.

Lemma get_nibble_spec bs pos n : nibbles bs !! pos = Some n → get_nibble bs pos = Ret n.
Proof.
  revert pos. induction bs as [|b bs IH]; intros pos; [by destruct pos|].
  cbn [nibbles mbind list_bind app byte_nibbles]. fold (nibbles bs).
  destruct pos as [|[|pos]]; [by intros [= <-]..|]. intros Hn. apply (IH pos) in Hn. exact Hn.
Qed.

Lemma byte_nibbles_inj a b : is_byte a → is_byte b → byte_nibbles a = byte_nibbles b → a = b.
Proof.
  intros Ha Hb [= H1 H2]. destruct (StrNum.nibbles a Ha) as (Ra1 & Ra2 & Ea), (StrNum.nibbles b Hb) as (Rb1 & Rb2 & Eb).
  assert (∀ x, 0 ≤ x < 16 → Z.land x 0xF = x) as Hl.
  { intros x Hx. change 0xF with (Z.ones 4). rewrite Z.land_ones by lia. by apply Z.mod_small. }
  rewrite !Hl in H1 by done. apply Z2Nat.inj in H1; [|lia..]. apply Z2Nat.inj in H2; [|lia..]. congruence.
Qed.
Lemma nibbles_inj a b : Forall is_byte a → Forall is_byte b → nibbles a = nibbles b → a = b.
Proof.
  intros Ha. revert b. induction Ha as [|x a Hx _ IH]; intros b Hb E; destruct Hb as [|y b Hy Hb]; try done.
  cbn [nibbles mbind list_bind app byte_nibbles] in E. injection E as E1 E2 E.
  f_equal; [|by apply IH]. apply byte_nibbles_inj; [done|done|]. unfold byte_nibbles. by rewrite E1, E2.
Qed.
Lemma memcmp_eq a b : length a = length b → memcmp a b = 0 ↔ a = b.
Proof.
  revert b. induction a as [|x a IH]; intros [|y b] Hl; try done. cbn [memcmp]. simpl in Hl.
  destruct (Z.ltb_spec x y); [split; [done|intros [=]; lia]|]. destruct (Z.ltb_spec y x); [split; [done|intros [=]; lia]|].
  assert (x = y) as -> by lia. rewrite IH by lia. split; [by intros ->|by intros [=]].
Qed.

(** Comparing [n] bytes is comparing [2 n] nibbles. *)
Lemma same_bytes_spec a b n : is_sid a → (n ≤ SID_SIZE)%nat → (n ≤ length b)%nat → Forall is_byte b →
  same_bytes a b n = Ret (bool_decide (take (2 * n) (nibbles a) = take (2 * n) (nibbles b))).
Proof.
  intros [Hl Hb] Hn Hnb Hbb. unfold same_bytes. rewrite !bool_decide_true by lia. f_equal.
  apply eq_true_iff_eq. rewrite bool_decide_eq_true, Z.eqb_eq, memcmp_eq by (rewrite !length_take; lia).
  rewrite <- !nibbles_take. split; [by intros ->|]. apply nibbles_inj; by apply Forall_take.
Qed.

(** ** Well-formed trees *)

(** The slot at the path [p]: subscribers have identifiers that begin with it, and
    abbreviations of its length. *)
Inductive slot_wf (ss : store) : list nat → slot → Prop :=
| wf_null p : slot_wf ss p Null
| wf_sub p s sub : ss !! s = Some sub → is_sid (sid sub) → p `prefix_of` nibbles (sid sub) →
    abbreviate_len sub = length p → slot_wf ss p (Sub s)
| wf_tree p t : length t = 16%nat → (length p < DEPTH)%nat → (∀ n x, t !! n = Some x → slot_wf ss (p ++ [n]) x) →
    slot_wf ss p (Tree t).

(** The subscriber at the end of a path. *)
Fixpoint tree_lookup (node : tree_node) (k : list nat) : option nat :=
  match k with
  | [] => None
  | n :: k =>
      match node !! n with
      | Some (Sub s) => Some s
      | Some (Tree t) => tree_lookup t k
      | _ => None
      end
  end.
Definition slot_lookup (x : slot) (k : list nat) : option nat :=
  match x with Null => None | Sub s => Some s | Tree t => tree_lookup t k end.

Lemma tree_lookup_cons node n k x : node !! n = Some x → tree_lookup node (n :: k) = slot_lookup x k.
Proof. intros Hx. cbn [tree_lookup]. rewrite Hx. by destruct x. Qed.

(** Every subscriber is where its identifier leads to. *)
Record tree_inv (root : tree_node) (ss : store) : Prop := {
  ti_wf : slot_wf ss [] (Tree root);
  ti_known : ∀ s sub, ss !! s = Some sub → is_sid (sid sub) ∧ tree_lookup root (nibbles (sid sub)) = Some s;
}.

Lemma empty_inv : tree_inv empty_node [].
Proof.
  split; [|done]. constructor; [done|unfold DEPTH, SID_SIZE; simpl; lia|].
  intros n x Hx. apply lookup_replicate in Hx as [-> _]. constructor.
Qed.

(** A change of the store matters to a slot only where identifiers lead to it. *)
Lemma wf_frame ss ss' p x : slot_wf ss p x →
  (∀ s sub, ss !! s = Some sub → p `prefix_of` nibbles (sid sub) → ss' !! s = Some sub) → slot_wf ss' p x.
Proof.
  intros Hw. induction Hw as [p|p s sub Hs Hid Hp Ha|p t Hl Hd Ht IH]; intros Hk; [constructor|by econstructor; eauto|].
  constructor; [done|done|]. intros n x Hx. apply (IH n x Hx). intros s sub Hs Hp. apply Hk; [done|].
  by eapply prefix_app_l.
Qed.

Lemma prefix_snoc (p l : list nat) n : p ++ [n] `prefix_of` l ↔ ∃ k, l = p ++ n :: k.
Proof.
  split; intros [k ->]; [exists k; by rewrite <- app_assoc|exists k; by rewrite <- app_assoc].
Qed.

(** ** Making subscribers *)

(** A slot and the store before and after a search that may make a subscriber. *)
Record made (p : list nat) (id : list Z) (x : slot) (ss : store) (x' : slot) (ss' : store) (ret : option nat) : Prop := {
  md_wf : slot_wf ss' p x';
  md_kept : ∀ s sub, ss !! s = Some sub → ¬ p `prefix_of` nibbles (sid sub) → ss' !! s = Some sub;
  md_sids : ∀ s sub, ss !! s = Some sub → ∃ n, ss' !! s = Some (set_abbreviate_len sub n);
  md_lookup : ∀ s sub k, ss !! s = Some sub → nibbles (sid sub) = p ++ k → slot_lookup x k = Some s →
    slot_lookup x' k = Some s;
  md_ret : match ret with
           | Some s => (∃ sub, ss' !! s = Some sub ∧ sid sub = id) ∧
               (∀ k, nibbles id = p ++ k → slot_lookup x' k = Some s) ∧
               (length ss' = length ss ∨ length ss' = S (length ss) ∧ s = length ss)
           | None => length ss' = length ss
           end;
}.

Lemma same_abbreviate sub : set_abbreviate_len sub (abbreviate_len sub) = sub.
Proof. by destruct sub. Qed.

(** The slot is put back into its node. *)
Lemma made_up p n id node x ss x' ss' ret : slot_wf ss p (Tree node) → node !! n = Some x →
  (∃ k, nibbles id = p ++ n :: k) → made (p ++ [n]) id x ss x' ss' ret →
  made p id (Tree node) ss (Tree (<[n := x']> node)) ss' ret.
Proof.
  intros Hw Hx Hid [Hwf Hk Hs Hl Hr]. inversion Hw as [| |? ? Hlen Hd Ht]; subst.
  assert (n < length node)%nat as Hlt by (by eapply lookup_lt_Some).
  assert (∀ k, tree_lookup (<[n := x']> node) (n :: k) = slot_lookup x' k) as Hn.
  { intros k. apply tree_lookup_cons. by apply list_lookup_insert_eq. }
  split.
  - constructor; [by rewrite length_insert|done|]. intros m y Hy.
    destruct (decide (m = n)) as [->|Hne]; [rewrite list_lookup_insert_eq in Hy by done; by injection Hy as <-|].
    rewrite list_lookup_insert_ne in Hy by done. eapply wf_frame; [by apply Ht|].
    intros s sub Hsub Hp. apply Hk; [done|]. intros Hp2. apply prefix_snoc in Hp as [k1 E1]. apply prefix_snoc in Hp2 as [k2 E2].
    rewrite E1 in E2. apply app_inv_head in E2. congruence.
  - intros s sub Hsub Hp. apply Hk; [done|]. intros Hp2. apply Hp. by eapply prefix_app_l.
  - done.
  - intros s sub k Hsub E Hlk. cbn [slot_lookup] in *. destruct k as [|m k]; [done|].
    destruct (decide (m = n)) as [->|Hne].
    + rewrite Hn. rewrite (tree_lookup_cons node n k x Hx) in Hlk. apply (Hl s sub k); [done|by rewrite <- app_assoc|done].
    + cbn [tree_lookup] in *. by rewrite list_lookup_insert_ne.
  - destruct ret as [s|]; [|done]. destruct Hr as (H1 & H2 & H3). split_and!; [done| |done].
    intros k E. destruct Hid as [k0 E0]. rewrite E0 in E. apply app_inv_head in E as <-. cbn [slot_lookup]. rewrite Hn.
    apply H2. by rewrite E0, <- app_assoc.
Qed.

(** A subscriber that is in the way moves into a node of its own. *)
Lemma made_bump p s sub ss n : ss !! s = Some sub → is_sid (sid sub) → abbreviate_len sub = length p →
  (∃ k, nibbles (sid sub) = p ++ n :: k) → (length p < DEPTH)%nat →
  let ss1 := <[s := set_abbreviate_len sub (S (length p))]> ss in
  slot_wf ss1 p (Tree (<[n := Sub s]> empty_node)) ∧ length ss1 = length ss ∧
  (∀ s' sub', ss !! s' = Some sub' → ¬ p `prefix_of` nibbles (sid sub') → ss1 !! s' = Some sub') ∧
  (∀ s' sub', ss !! s' = Some sub' → ∃ m, ss1 !! s' = Some (set_abbreviate_len sub' m)).
Proof.
  intros Hs Hid Ha [k Ek] Hd ss1. assert (s < length ss)%nat as Hlt by (by eapply lookup_lt_Some).
  assert (n < 16)%nat as Hn.
  { pose proof (nibbles_small (sid sub)) as Hf. rewrite Ek in Hf. apply Forall_app in Hf as [_ Hf].
    by apply Forall_cons in Hf as [Hf _]. }
  split_and!.
  - constructor; [by rewrite length_insert|done|]. intros m x Hx.
    destruct (decide (m = n)) as [->|Hne].
    + rewrite list_lookup_insert_eq in Hx by exact Hn. injection Hx as <-.
      econstructor; [by apply list_lookup_insert_eq|done|apply prefix_snoc; by exists k|].
      cbn [set_abbreviate_len abbreviate_len]. rewrite length_app. simpl. lia.
    + rewrite list_lookup_insert_ne in Hx by done. apply lookup_replicate in Hx as [-> _]. constructor.
  - apply length_insert.
  - intros s' sub' Hs' Hp. destruct (decide (s' = s)) as [->|Hne]; [|unfold ss1; by rewrite list_lookup_insert_ne].
    exfalso. apply Hp. rewrite Hs in Hs'. injection Hs' as <-. rewrite Ek. by exists (n :: k).
  - intros s' sub' Hs'. destruct (decide (s' = s)) as [->|Hne].
    + rewrite Hs in Hs'. injection Hs' as <-. exists (S (length p)). by apply list_lookup_insert_eq.
    + exists (abbreviate_len sub'). unfold ss1. rewrite list_lookup_insert_ne by done. by rewrite same_abbreviate.
Qed.

(** Identifiers that lead to the same full path are the same. *)
Lemma sid_nibbles a : is_sid a → length (nibbles a) = DEPTH.
Proof. intros [Hl _]. rewrite nibbles_length, Hl. done. Qed.
Lemma sid_prefix_eq p a b : is_sid a → is_sid b → p `prefix_of` nibbles a → p `prefix_of` nibbles b →
  length p = DEPTH → a = b.
Proof.
  intros Ha Hb [x Ex] [y Ey] Hp. apply nibbles_inj; [apply Ha|apply Hb|].
  pose proof (sid_nibbles a Ha) as La. pose proof (sid_nibbles b Hb) as Lb. rewrite Ex, length_app in La. rewrite Ey, length_app in Lb.
  destruct x; [|simpl in La; lia]. destruct y; [|simpl in Lb; lia]. congruence.
Qed.

(** Two identifiers that begin with [p] and differ go on after it. *)
Lemma sid_next p a b : is_sid a → is_sid b → p `prefix_of` nibbles a → p `prefix_of` nibbles b → a ≠ b →
  (length p < DEPTH)%nat ∧ ∃ n k, nibbles a = p ++ n :: k ∧ nibbles a !! length p = Some n.
Proof.
  intros Ha Hb Hpa Hpb Hne. pose proof (sid_nibbles a Ha) as La. destruct Hpa as [x Ex]. destruct x as [|n k].
  - exfalso. apply Hne. apply (sid_prefix_eq p a b Ha Hb); [by exists []|done|]. rewrite Ex, app_nil_r in La. done.
  - split; [rewrite Ex, length_app in La; simpl in La; lia|]. exists n, k. split; [done|]. rewrite Ex. by apply list_lookup_middle.
Qed.

Lemma same_sid a b : is_sid a → is_sid b → same_bytes a b SID_SIZE = Ret (bool_decide (a = b)).
Proof.
  intros Ha Hb. rewrite same_bytes_spec by (try apply Hb; try done; destruct Hb; lia). f_equal. apply bool_decide_ext.
  rewrite !take_ge by (rewrite nibbles_length; destruct Ha, Hb; lia).
  split; [apply nibbles_inj; [apply Ha|apply Hb]|by intros ->].
Qed.

Lemma made_refl p id x ss : slot_wf ss p x → made p id x ss x ss None.
Proof. intros Hw. split; try done. intros s sub Hs. exists (abbreviate_len sub). by rewrite same_abbreviate. Qed.
Lemma made_found p s sub ss : ss !! s = Some sub → slot_wf ss p (Sub s) → made p (sid sub) (Sub s) ss (Sub s) ss (Some s).
Proof.
  intros Hs Hw. destruct (made_refl p (sid sub) (Sub s) ss Hw). split; try done. split_and!; [by exists sub|done|by left].
Qed.
Lemma made_new p id ss : is_sid id → p `prefix_of` nibbles id →
  made p id Null ss (Sub (length ss)) (ss ++ [new_subscriber (take SID_SIZE id) (length p)]) (Some (length ss)).
Proof.
  intros Hid Hp. rewrite take_ge by (destruct Hid; lia). split.
  - econstructor; [by rewrite lookup_app_r, Nat.sub_diag by lia|done..].
  - intros s sub Hs _. by apply lookup_app_l_Some.
  - intros s sub Hs. exists (abbreviate_len sub). rewrite same_abbreviate. by apply lookup_app_l_Some.
  - done.
  - split_and!; [|done|right; rewrite length_app; simpl; split; [lia|done]].
    eexists. split; [by rewrite lookup_app_r, Nat.sub_diag by lia|]. done.
Qed.
(** The subscriber in the way moves down, and the search goes on there. *)
Lemma made_moved p id s sub ss n t' ss' ret : ss !! s = Some sub → is_sid (sid sub) → abbreviate_len sub = length p →
  (∃ k, nibbles (sid sub) = p ++ n :: k) → (length p < DEPTH)%nat →
  made p id (Tree (<[n := Sub s]> empty_node)) (<[s := set_abbreviate_len sub (S (length p))]> ss) t' ss' ret →
  made p id (Sub s) ss t' ss' ret.
Proof.
  intros Hs Hsid Ha [k Ek] Hd [M1 M2 M3 M4 M5].
  destruct (made_bump p s sub ss n Hs Hsid Ha ltac:(eauto) Hd) as (_ & Hl1 & Hk1 & Hs1).
  set (ss1 := <[s := _]> ss) in *. split.
  - done.
  - intros s' sub' Hs' Hp'. apply M2; [by apply Hk1|done].
  - intros s' sub' Hs'. destruct (Hs1 s' sub' Hs') as [m Hm]. destruct (M3 _ _ Hm) as [m' Hm']. exists m'. by rewrite Hm'.
  - intros s' sub' k2 Hs' Ek2 [= ->]. rewrite Hs in Hs'. injection Hs' as <-.
    destruct (Hs1 s' sub Hs) as [m Hm]. apply (M4 s' _ k2 Hm Ek2).
    rewrite Ek in Ek2. apply app_inv_head in Ek2 as <-. cbn [slot_lookup].
    rewrite (tree_lookup_cons _ n k (Sub s')); [done|]. apply list_lookup_insert_eq.
    pose proof (nibbles_small (sid sub)) as Hf2. rewrite Ek in Hf2. apply Forall_app in Hf2 as [_ Hf2].
    by apply Forall_cons in Hf2 as [Hf2 _].
  - by rewrite Hl1 in M5.
Qed.

Lemma find_loop_make fuel alloc id p n k node ss ret0 : is_sid id → nibbles id = p ++ n :: k →
  (length k < fuel)%nat → slot_wf ss p (Tree node) →
  ∃ node' ss' ret, find_loop fuel alloc id SID_SIZE true (length p) node ss ret0 = Ret (node', ss', ret) ∧
    made p id (Tree node) ss (Tree node') ss' ret ∧ ((∀ i, alloc i = true) → is_Some ret).
Proof.
  intros Hid. revert p n k node ss ret0. induction fuel as [|fuel IH]; intros p n k node ss ret0 E Hf Hw; [lia|].
  pose proof (sid_nibbles id Hid) as HL. rewrite E, length_app in HL. cbn [length] in HL.
  cbn [find_loop]. rewrite (get_nibble_spec id (length p) n), bind_ret_l by (rewrite E; by apply list_lookup_middle).
  inversion Hw as [| |? ? Hlen Hd Ht]; subst.
  assert (n < 16)%nat as Hn.
  { pose proof (nibbles_small id) as Hs. rewrite E in Hs. apply Forall_app in Hs as [_ Hs]. by apply Forall_cons in Hs as [Hs _]. }
  destruct (lookup_lt_is_Some_2 node n) as [x Hx]; [lia|]. rewrite Hx. pose proof (Ht n x Hx) as Hwx.
  assert (p ++ [n] `prefix_of` nibbles id) as Hpid by (apply prefix_snoc; eauto).
  assert (length (p ++ [n]) = S (length p)) as Hpl by (rewrite length_app; simpl; lia).
  assert (∀ x' ss' ret, made (p ++ [n]) id x ss x' ss' ret → made p id (Tree node) ss (Tree (<[n := x']> node)) ss' ret) as Hup
    by (intros x' ss' ret; apply made_up; eauto).
  assert (∀ ss' ret, made (p ++ [n]) id x ss x ss' ret → made p id (Tree node) ss (Tree node) ss' ret) as Hid'
    by (intros ss' ret Hm; apply Hup in Hm; by rewrite list_insert_id in Hm).
  assert (∀ t ss1 ret1, slot_wf ss1 (p ++ [n]) (Tree t) → ∃ t' ss' ret,
    find_loop fuel alloc id SID_SIZE true (S (length p)) t ss1 ret1 = Ret (t', ss', ret) ∧ bool_decide (S (length p) < SID_SIZE * 2)%nat = true ∧
    made (p ++ [n]) id (Tree t) ss1 (Tree t') ss' ret ∧ ((∀ i, alloc i = true) → is_Some ret)) as Hgo.
  { intros t ss1 ret1 Hwt. inversion Hwt as [| |? ? _ Hd1 _]; subst. rewrite Hpl in Hd1. destruct k as [|n1 k]; [simpl in HL; lia|].
    destruct (IH (p ++ [n]) n1 k t ss1 ret1) as (t' & ss' & ret & Hr & Hm & Ha); [by rewrite <- app_assoc|simpl in Hf; lia|done|].
    rewrite Hpl in Hr. exists t', ss', ret. split_and!; try done. apply bool_decide_eq_true. unfold DEPTH in Hd1. lia. }
  inversion Hwx as [|? s sub Hs Hsid Hp Ha|? t Hl1 Hd1 Ht1]; subst x.
  - destruct (alloc (S (length p))) eqn:Eal; eexists _, _, _.
    + rewrite bool_decide_true by (destruct Hid; lia). split; [reflexivity|]. split; [|by eexists]. apply Hup. rewrite <- Hpl. by apply made_new.
    + split; [reflexivity|]. split; [by apply Hid', made_refl|intros Hal; by rewrite Hal in Eal].
  - rewrite Hs, same_sid, bind_ret_l by done. destruct (bool_decide_reflect (sid sub = id)) as [Eid|Eid]; [eexists _, _, _|].
    { split; [reflexivity|]. split; [apply Hid'; rewrite <- Eid; by apply made_found|by eexists]. }
    destruct (alloc (S (length p))) eqn:Eal; cbn [negb].
    2: { eexists _, _, _. split; [reflexivity|]. split; [by apply Hid', made_refl|intros Hal; by rewrite Hal in Eal]. }
    destruct (sid_next _ _ _ Hsid Hid Hp Hpid Eid) as (Hd1 & n' & k' & Ek & Hk).
    rewrite (get_nibble_spec (sid sub) (S (length p)) n'), bind_ret_l by (by rewrite <- Hpl).
    destruct (made_bump (p ++ [n]) s sub ss n' Hs Hsid Ha ltac:(eauto) Hd1) as (Hw1 & _).
    rewrite Hpl in Hw1. destruct (Hgo _ _ (Some s) Hw1) as (t' & ss' & ret & -> & -> & Hm & Hal). rewrite bind_ret_l.
    eexists _, _, _. split; [reflexivity|]. split; [|done]. apply Hup. rewrite <- Hpl in Hm. eapply made_moved; eauto.
  - destruct (Hgo t ss ret0 Hwx) as (t' & ss' & ret & -> & -> & Hm & Hal). rewrite bind_ret_l.
    eexists _, _, _. split; [reflexivity|]. split; [by apply Hup|done].
Qed.

(** ** Finding subscribers *)

(** A subscriber below a path has an abbreviation at least as long. *)
Lemma lookup_depth ss p x k s sub : slot_wf ss p x → slot_lookup x k = Some s → ss !! s = Some sub →
  (length p ≤ abbreviate_len sub)%nat ∧ (∀ t, x = Tree t → length p < abbreviate_len sub)%nat.
Proof.
  intros Hw. revert k. induction Hw as [p|p s' sub' Hs' Hid Hp Ha|p t Hl Hd Ht IH]; intros k Hk Hs; [done| |].
  - injection Hk as ->. rewrite Hs in Hs'. injection Hs' as <-. split; [lia|done].
  - cbn [slot_lookup] in Hk. destruct k as [|n k]; [done|]. cbn [tree_lookup] in Hk.
    destruct (t !! n) as [x|] eqn:Ex; [|done].
    assert (slot_lookup x k = Some s) as Hx by (by destruct x).
    destruct (IH n x Ex k Hx Hs) as [Hlt _]. rewrite length_app in Hlt. simpl in Hlt. split; [lia|]. intros. lia.
Qed.

Lemma abbreviate_bound ss p x k s sub : slot_wf ss p x → slot_lookup x k = Some s → ss !! s = Some sub →
  is_sid (sid sub) → (abbreviate_len sub ≤ 2 * SID_SIZE)%nat.
Proof.
  intros Hw. revert k. induction Hw as [p|p s' sub' Hs' Hid Hp Ha|p t Hl Hd Ht IH]; intros k Hk Hs Hsid; [done| |].
  - injection Hk as ->. rewrite Hs in Hs'. injection Hs' as <-. apply prefix_length in Hp.
    rewrite sid_nibbles in Hp by done. unfold DEPTH in Hp. lia.
  - cbn [slot_lookup] in Hk. destruct k as [|n k]; [done|]. cbn [tree_lookup] in Hk.
    destruct (t !! n) as [x|] eqn:Ex; [|done]. apply (IH n x Ex k); [by destruct x|done..].
Qed.

Lemma nibbles_agree id id' len p n k : take (2 * len) (nibbles id) = take (2 * len) (nibbles id') →
  nibbles id' = p ++ n :: k → (length p < 2 * len)%nat → nibbles id !! length p = Some n.
Proof.
  intros E Ek Hp. rewrite <- (lookup_take_lt (nibbles id) (2 * len)) by done. rewrite E, lookup_take_lt by done.
  rewrite Ek. by apply list_lookup_middle.
Qed.

(** A subscriber is found by every part of its identifier that is as long as its
    abbreviation. *)
Lemma find_loop_hit fuel alloc id len create p k node ss ret0 s sub : slot_wf ss p (Tree node) →
  ss !! s = Some sub → is_sid (sid sub) → nibbles (sid sub) = p ++ k → tree_lookup node k = Some s →
  (len ≤ SID_SIZE)%nat → (len ≤ length id)%nat → Forall is_byte id →
  take (2 * len) (nibbles id) = take (2 * len) (nibbles (sid sub)) → (abbreviate_len sub ≤ 2 * len)%nat →
  (2 * len ≤ length p + fuel)%nat →
  find_loop fuel alloc id len create (length p) node ss ret0 = Ret (node, ss, Some s).
Proof.
  intros Hw Hs Hsid Ek Hlk Hl1 Hl2 Hb Epre Hab. revert p k node ret0 Hw Ek Hlk.
  induction fuel as [|fuel IH]; intros p k node ret0 Hw Ek Hlk Hf;
    pose proof (proj2 (lookup_depth ss p (Tree node) k s sub Hw Hlk Hs) node eq_refl) as Hdp; [lia|].
  destruct k as [|n k]; [done|]. cbn [find_loop].
  rewrite (get_nibble_spec id (length p) n), bind_ret_l by (eapply nibbles_agree; [exact Epre|exact Ek|lia]).
  inversion Hw as [| |? ? Hlen Hd Ht]; subst. cbn [tree_lookup] in Hlk. destruct (node !! n) as [x|] eqn:Ex; [|done].
  destruct x as [|s'|t]; [done| |].
  - injection Hlk as ->. rewrite Hs, same_bytes_spec, bind_ret_l by done. by rewrite bool_decide_true by done.
  - assert (length (p ++ [n]) = S (length p)) as Hpl by (rewrite length_app; simpl; lia).
    pose proof (proj2 (lookup_depth ss (p ++ [n]) (Tree t) k s sub (Ht _ _ Ex) Hlk Hs) t eq_refl) as Hd1.
    rewrite Hpl in Hd1. rewrite bool_decide_true by lia. rewrite <- Hpl.
    rewrite (IH (p ++ [n]) k t ret0) by (done || (by apply Ht) || (by rewrite <- app_assoc) || lia).
    rewrite bind_ret_l, list_insert_id by done. done.
Qed.

(** A search that makes nothing changes nothing, and what it finds is what every
    identifier that begins the same way leads to. *)
Lemma find_loop_look fuel alloc id len p node ss : slot_wf ss p (Tree node) →
  (∀ s sub, ss !! s = Some sub → is_sid (sid sub)) →
  (len ≤ SID_SIZE)%nat → (len ≤ length id)%nat → Forall is_byte id → (length p < 2 * len)%nat →
  (2 * len ≤ length p + fuel)%nat →
  ∃ r, find_loop fuel alloc id len false (length p) node ss None = Ret (node, ss, r) ∧
    ∀ s, r = Some s → (∃ sub, ss !! s = Some sub ∧ take (2 * len) (nibbles (sid sub)) = take (2 * len) (nibbles id) ∧
                        (abbreviate_len sub ≤ 2 * len)%nat) ∧
      ∀ id' k', take (2 * len) (nibbles id') = take (2 * len) (nibbles id) → nibbles id' = p ++ k' →
        tree_lookup node k' = Some s.
Proof.
  intros Hw Hsids Hl1 Hl2 Hb. revert p node Hw. induction fuel as [|fuel IH]; intros p node Hw Hp Hf; [lia|]. cbn [find_loop].
  destruct (lookup_lt_is_Some_2 (nibbles id) (length p)) as [n Hn]; [rewrite nibbles_length; lia|].
  rewrite (get_nibble_spec id (length p) n Hn), bind_ret_l. inversion Hw as [| |? ? Hlen Hd Ht]; subst.
  assert (n < 16)%nat as Hn16 by (pose proof (nibbles_small id) as Hs; rewrite Forall_lookup in Hs; by eapply Hs).
  destruct (lookup_lt_is_Some_2 node n) as [x Hx]; [lia|]. rewrite Hx. pose proof (Ht n x Hx) as Hwx.
  assert (∀ id' k', take (2 * len) (nibbles id') = take (2 * len) (nibbles id) → nibbles id' = p ++ k' →
    ∃ k, k' = n :: k) as Hhead.
  { intros id' k' E Ek. assert (nibbles id' !! length p = Some n) as Hn'.
    { rewrite <- (lookup_take_lt (nibbles id') (2 * len)), E, lookup_take_lt by done. done. }
    rewrite Ek, lookup_app_r, Nat.sub_diag in Hn' by lia. destruct k' as [|m k]; [done|]. injection Hn' as ->. eauto. }
  destruct x as [|s|t].
  - exists None. done.
  - inversion Hwx as [|? ? sub Hs Hsid Hpre Ha|]; subst. rewrite Hs, same_bytes_spec, bind_ret_l by done.
    destruct (bool_decide_reflect (take (2 * len) (nibbles (sid sub)) = take (2 * len) (nibbles id))) as [E|E]; cbn [negb];
      [|by exists None].
    exists (Some s). split; [done|]. intros s0 [= <-]. split.
    + exists sub. split_and!; [done|done|]. rewrite Ha, length_app. simpl. lia.
    + intros id' k' E' Ek'. destruct (Hhead id' k' E' Ek') as [k ->]. by rewrite (tree_lookup_cons _ _ _ _ Hx).
  - assert (length (p ++ [n]) = S (length p)) as Hpl by (rewrite length_app; simpl; lia).
    case_bool_decide as Hlt; [|by exists None]. rewrite <- Hpl.
    destruct (IH (p ++ [n]) t Hwx) as (r & -> & Hr); [lia|lia|]. rewrite bind_ret_l, list_insert_id by done.
    exists r. split; [done|]. intros s Es. destruct (Hr s Es) as [H1 H2]. split; [done|].
    intros id' k' E' Ek'. destruct (Hhead id' k' E' Ek') as [k ->]. rewrite (tree_lookup_cons _ _ _ _ Hx).
    apply (H2 id' k E'). by rewrite <- app_assoc.
Qed.

Lemma known_sid root ss s sub id : tree_inv root ss → ss !! s = Some sub → sid sub = id →
  tree_lookup root (nibbles id) = Some s.
Proof. intros [_ Hk] Hs <-. apply (Hk s sub Hs). Qed.

Lemma sid_head id : is_sid id → ∃ n k, nibbles id = n :: k ∧ length k = pred DEPTH.
Proof.
  intros Hid. pose proof (sid_nibbles id Hid) as HL. destruct (nibbles id) as [|n k]; [done|].
  exists n, k. split; [done|]. simpl in HL. lia.
Qed.

(** What [find_subscriber] does for a whole identifier, creating it if need be. *)
Lemma find_full alloc id root ss : tree_inv root ss → is_sid id →
  ∃ root' ss' ret, find_subscriber alloc id SID_SIZE true root ss = Ret (root', ss', ret) ∧ tree_inv root' ss' ∧
    (∀ s sub, ss !! s = Some sub → ∃ n, ss' !! s = Some (set_abbreviate_len sub n)) ∧
    match ret with
    | Some s => (∃ sub, ss' !! s = Some sub ∧ sid sub = id) ∧
        ((s < length ss)%nat ∧ root' = root ∧ ss' = ss ∨ (id ∉ sid <$> ss) ∧ s = length ss ∧ length ss' = S (length ss))
    | None => (id ∉ sid <$> ss) ∧ length ss' = length ss ∧ ¬ (∀ i, alloc i = true)
    end.
Proof.
  intros Hinv Hid. unfold find_subscriber. rewrite bool_decide_true by done. cbn [andb].
  change (Nat.max 1 (SID_SIZE * 2)) with DEPTH. pose proof Hinv as [Hw Hk].
  destruct (decide (id ∈ sid <$> ss)) as [Hin|Hout].
  - apply list_elem_of_fmap in Hin as (sub & -> & Hin). apply list_elem_of_lookup_1 in Hin as [s Hs].
    destruct (Hk s sub Hs) as [_ Hlk].
    pose proof (find_loop_hit DEPTH alloc (sid sub) SID_SIZE true [] (nibbles (sid sub)) root ss None s sub
      Hw Hs Hid eq_refl Hlk ltac:(done) ltac:(destruct Hid; lia) (proj2 Hid) eq_refl
      (abbreviate_bound ss [] (Tree root) (nibbles (sid sub)) s sub Hw Hlk Hs Hid) (le_n _)) as Hhit.
    change (length []) with 0%nat in Hhit. rewrite Hhit.
    exists root, ss, (Some s). split; [done|]. split; [done|].
    split; [intros s' sub' Hs'; exists (abbreviate_len sub'); by rewrite same_abbreviate|].
    split; [by exists sub|]. left. split_and!; try done. by eapply lookup_lt_Some.
  - destruct (sid_head id Hid) as (n & k & Ek & HL).
    destruct (find_loop_make DEPTH alloc id [] n k root ss None Hid Ek) as (root' & ss' & ret & Hf & [M1 M2 M3 M4 M5] & Hal);
      [rewrite HL; unfold DEPTH, SID_SIZE; simpl; lia|done|].
    change (length []) with 0%nat in Hf. rewrite Hf. exists root', ss', ret.
    assert (∀ s sub', (s < length ss)%nat → ss' !! s = Some sub' → ∃ sub m, ss !! s = Some sub ∧ sub' = set_abbreviate_len sub m) as Hold.
    { intros s sub' Hlt Hs'. destruct (lookup_lt_is_Some_2 ss s Hlt) as [sub Hs]. destruct (M3 s sub Hs) as [m Hm].
      exists sub, m. split; [done|]. congruence. }
    split_and!; [done| |done|].
    + split; [done|]. intros s sub' Hs'. destruct (decide (s < length ss)%nat) as [Hlt|Hge].
      * destruct (Hold s sub' Hlt Hs') as (sub & m & Hs & ->). destruct (Hk s sub Hs) as [H1 H2]. split; [done|].
        by apply (M4 s sub (nibbles (sid sub)) Hs).
      * pose proof (lookup_lt_Some _ _ _ Hs') as Hlt'. destruct ret as [s0|]; [|lia].
        destruct M5 as ((sub0 & Hs0 & E0) & Hlk & [?|[? ->]]); [lia|]. assert (s = length ss) as -> by lia.
        rewrite Hs0 in Hs'. injection Hs' as ->. rewrite E0. split; [done|]. by apply Hlk.
    + destruct ret as [s|].
      * destruct M5 as ((sub' & Hs' & E') & _ & [HLs|[HLs ->]]); (split; [by exists sub'|right]); [exfalso|done].
        pose proof (lookup_lt_Some _ _ _ Hs') as Hlt. rewrite HLs in Hlt. destruct (Hold s sub' Hlt Hs') as (sub & m & Hs & ->).
        apply Hout, list_elem_of_fmap. exists sub. split; [by rewrite <- E'|by eapply list_elem_of_lookup_2].
      * split_and!; [done|done|]. intros Ha. by destruct (Hal Ha).
Qed.

Lemma prefix_nibbles a b n : Forall is_byte a → Forall is_byte b →
  take (2 * n) (nibbles a) = take (2 * n) (nibbles b) ↔ take n a = take n b.
Proof.
  intros Ha Hb. rewrite <- !nibbles_take. split; [|by intros ->]. apply nibbles_inj; by apply Forall_take.
Qed.

Lemma find_part alloc id len create root ss : tree_inv root ss → (0 < len ≤ SID_SIZE)%nat → (len ≤ length id)%nat →
  Forall is_byte id → create = false ∨ len ≠ SID_SIZE →
  ∃ r, find_subscriber alloc id len create root ss = Ret (root, ss, r) ∧
    (∀ s, r = Some s ↔ ∃ sub, ss !! s = Some sub ∧ take len (sid sub) = take len id ∧ (abbreviate_len sub ≤ 2 * len)%nat) ∧
    (∀ s s' sub', r = Some s → ss !! s' = Some sub' → take len (sid sub') = take len id → s' = s).
Proof.
  intros [Hw Hk] Hlen Hl2 Hb Hc. unfold find_subscriber.
  replace (create && bool_decide (len = SID_SIZE)) with false.
  2: { destruct Hc as [-> |Hc]; [done|]. rewrite bool_decide_false by done. by rewrite andb_false_r. }
  assert (∀ s sub, ss !! s = Some sub → is_sid (sid sub)) as Hsids by (intros s sub Hs; apply (Hk s sub Hs)).
  destruct (find_loop_look (Nat.max 1 (len * 2)) alloc id len [] root ss Hw Hsids) as (r & Hr & Hspec); [lia|done|done|simpl; lia|simpl length; lia|].
  change (length []) with 0%nat in Hr. exists r. split; [done|]. split.
  - intros s. split.
    + intros Es. destruct (Hspec s Es) as [(sub & Hs & E & Ha) _]. exists sub. split_and!; try done.
      apply prefix_nibbles; [apply (Hsids s sub Hs)|done|done].
    + intros (sub & Hs & E & Ha). destruct (Hk s sub Hs) as [Hsid Hlk].
      pose proof (find_loop_hit (Nat.max 1 (len * 2)) alloc id len false [] (nibbles (sid sub)) root ss None s sub
        Hw Hs Hsid eq_refl Hlk ltac:(lia) Hl2 Hb) as Hhit.
      change (length []) with 0%nat in Hhit. rewrite Hr in Hhit.
      assert (Ret (root, ss, r) = Ret (root, ss, Some s)) as Heq; [|by injection Heq].
      apply Hhit; [|done|lia]. symmetry. apply prefix_nibbles; [apply Hsid|done|done].
  - intros s s' sub' Es Hs' E. destruct (Hspec s Es) as [_ Hu]. destruct (Hk s' sub' Hs') as [Hsid' Hlk'].
    rewrite (Hu (sid sub') (nibbles (sid sub'))) in Hlk'; [by injection Hlk'| |done].
    apply prefix_nibbles; [apply Hsid'|done|done].
Qed.

(** ** Trees the program can build *)

Definition same_address (a b : subscriber) : Prop := sid a = sid b ∧ abbreviate_len a = abbreviate_len b.

(** From the empty tree, by searches with any arguments, while the rest of the
    program changes what it likes of the subscribers but their addresses. *)
Inductive tree_reachable : tree_node → store → Prop :=
| tr_empty : tree_reachable empty_node []
| tr_find root ss alloc id len create root' ss' r : tree_reachable root ss → Forall is_byte id →
    (0 < len ≤ SID_SIZE)%nat → (len ≤ length id)%nat → (create = true → len = SID_SIZE → length id = SID_SIZE) →
    find_subscriber alloc id len create root ss = Ret (root', ss', r) → tree_reachable root' ss'
| tr_change root ss ss' : tree_reachable root ss → Forall2 same_address ss ss' → tree_reachable root ss'.

Lemma inv_change root ss ss' : tree_inv root ss → Forall2 same_address ss ss' → tree_inv root ss'.
Proof.
  intros [Hw Hk] Hc.
  assert (∀ s sub', ss' !! s = Some sub' → ∃ sub, ss !! s = Some sub ∧ same_address sub sub') as Hr.
  { intros s sub' Hs'. destruct (Forall2_lookup_r _ _ _ _ _ Hc Hs') as (sub & Hs & Ha). eauto. }
  split.
  - clear Hk. revert Hw. generalize (@nil nat) as p, (Tree root) as x. intros p x Hw.
    induction Hw as [p|p s sub Hs Hid Hp Ha|p t Hl Hd Ht IH]; [constructor| |by constructor].
    destruct (Forall2_lookup_l _ _ _ _ _ Hc Hs) as (sub' & Hs' & [E1 E2]).
    econstructor; [exact Hs'|by rewrite <- E1|by rewrite <- E1|by rewrite <- E2].
  - intros s sub' Hs'. destruct (Hr s sub' Hs') as (sub & Hs & [E1 E2]). rewrite <- E1. by apply Hk.
Qed.

Lemma tree_reachable_inv root ss : tree_reachable root ss → tree_inv root ss.
Proof.
  induction 1 as [|root ss alloc id len create root' ss' r _ IH Hb Hlen Hl2 Hfull Hf|root ss ss' _ IH Hc];
    [apply empty_inv| |by eapply inv_change].
  destruct (decide (create = true ∧ len = SID_SIZE)) as [[-> ->]|Hn].
  - destruct (find_full alloc id root ss IH) as (r1 & s1 & ret1 & Hf1 & Hi & _); [split; auto|].
    rewrite Hf1 in Hf. injection Hf as <- <- _. done.
  - destruct (find_part alloc id len create root ss IH Hlen Hl2 Hb) as (r1 & Hf1 & _).
    { destruct create; [right; intros ->; by apply Hn|by left]. }
    rewrite Hf1 in Hf. injection Hf as <- <- _. done.
Qed.

(** C13: in every tree the program can build, searching for a whole identifier with
    permission to create it returns the one subscriber that has it, changes nothing
    when there is one, and otherwise adds it under a new address as the only new
    subscriber; all others keep their addresses and everything but the length of
    their abbreviations. It returns nothing only when the identifier is new and
    memory runs out. *)
Theorem find_subscriber_refines alloc id root ss : tree_reachable root ss → is_sid id →
  ∃ root' ss' ret, find_subscriber alloc id SID_SIZE true root ss = Ret (root', ss', ret) ∧ tree_reachable root' ss' ∧
    (∀ s sub, ss !! s = Some sub → ∃ n, ss' !! s = Some (set_abbreviate_len sub n)) ∧
    (∀ s1 s2 sub1 sub2, ss' !! s1 = Some sub1 → ss' !! s2 = Some sub2 → sid sub1 = sid sub2 → s1 = s2) ∧
    match ret with
    | Some s => (∃ sub, ss' !! s = Some sub ∧ sid sub = id) ∧
        ((s < length ss)%nat ∧ root' = root ∧ ss' = ss ∨ (id ∉ sid <$> ss) ∧ s = length ss ∧ length ss' = S (length ss))
    | None => (id ∉ sid <$> ss) ∧ length ss' = length ss ∧ ¬ (∀ i, alloc i = true)
    end.
Proof.
  intros Hr Hid. destruct (find_full alloc id root ss (tree_reachable_inv _ _ Hr) Hid) as (root' & ss' & ret & Hf & Hi & Hk & Hm).
  exists root', ss', ret. split; [done|]. split; [|split; [done|split; [|done]]].
  - apply (tr_find root ss alloc id SID_SIZE true root' ss' ret Hr); [apply Hid|unfold SID_SIZE; lia|destruct Hid; lia|intros; apply Hid|exact Hf].
  - intros s1 s2 sub1 sub2 H1 H2 E. pose proof (known_sid _ _ s1 sub1 (sid sub2) Hi H1 E) as L1.
    rewrite (known_sid _ _ s2 sub2 (sid sub2) Hi H2 eq_refl) in L1. by injection L1.
Qed.

(** A tree with one subscriber. *)
Definition sid_a : list Z := replicate 32 0x11.
Definition sid_b : list Z := 0x11 :: replicate 31 0x22.
Definition root_a : tree_node := <[1%nat := Sub 0]> empty_node.
Definition store_a : store := [new_subscriber sid_a 1].
Lemma reachable_a : tree_reachable root_a store_a.
Proof.
  apply (tr_find empty_node [] (λ _, true) sid_a SID_SIZE true root_a store_a (Some 0%nat) tr_empty);
    [by apply (bool_decide_unpack _)|unfold SID_SIZE; lia|done|done|reflexivity].
Qed.

Lemma find_subscriber_refines_witness : ∃ root' ss',
  find_subscriber (λ _, true) sid_b SID_SIZE true root_a store_a = Ret (root', ss', Some 1%nat) ∧
  tree_reachable root' ss' ∧ abbreviate_len <$> ss' = [3%nat; 3%nat].
Proof.
  destruct (find_subscriber_refines (λ _, true) sid_b root_a store_a) as (root' & ss' & ret & Hf & Hr & _).
  - exact reachable_a.
  - split; by apply (bool_decide_unpack _).
  - exists root', ss'. vm_compute in Hf. injection Hf as <- <- <-. split_and!; [reflexivity|done|reflexivity].
Defined.

(** C26: Searching for a part of an identifier changes nothing, and finds a
    subscriber exactly when its identifier begins with the part and the part is at
    least as long as its abbreviation; no other identifier then begins with it. *)
Theorem find_abbreviated alloc id len create root ss : tree_reachable root ss → (0 < len < SID_SIZE)%nat →
  (len ≤ length id)%nat → Forall is_byte id →
  ∃ r, find_subscriber alloc id len create root ss = Ret (root, ss, r) ∧
    (∀ s, r = Some s ↔ ∃ sub, ss !! s = Some sub ∧ take len (sid sub) = take len id ∧ (abbreviate_len sub ≤ 2 * len)%nat) ∧
    (∀ s s' sub', r = Some s → ss !! s' = Some sub' → take len (sid sub') = take len id → s' = s).
Proof. intros Hr Hl Hl2 Hb. apply find_part; [by apply tree_reachable_inv|lia|done|done|right; lia]. Qed.

Lemma find_abbreviated_witness : ∃ r, find_subscriber (λ _, true) [0x11] 1 true root_a store_a = Ret (root_a, store_a, r) ∧
  (r = Some 0%nat ↔ ∃ sub, store_a !! 0%nat = Some sub ∧ take 1 (sid sub) = [0x11] ∧ (abbreviate_len sub ≤ 2)%nat).
Proof.
  destruct (find_abbreviated (λ _, true) [0x11] 1 true root_a store_a) as (r & Hf & Hs & _).
  - exact reachable_a.
  - unfold SID_SIZE. lia.
  - done.
  - by apply (bool_decide_unpack _).
  - exists r. split; [exact Hf|exact (Hs 0%nat)].
Defined.

End OverlayAddressTree.
