(* ===== verification/OverlayAddressWalk.v ===== *)
(** * Visiting subscribers

    The walks over the tree visit subscribers in the order of their identifiers:
    all of them, those from a given one on, or those whose identifiers begin with
    given bytes. *)

From S2P Require Import Prelude Mem OverlayBuffer StrCtype StrNum StrScan DataFormats OverlayAddress OverlayAddressTree.
From Stdlib Require Import Sorted.
Import DataFormats OverlayAddress OverlayAddressTree.

Module OverlayAddressWalk.

(** ** The order of a tree *)

Fixpoint order (fuel : nat) (node : tree_node) : list nat :=
  match fuel with
  | O => []
  | S fuel => node ≫= λ x, match x with Null => [] | Sub s => [s] | Tree t => order fuel t end
  end.
Definition slot_order (fuel : nat) (x : slot) : list nat :=
  match x with Null => [] | Sub s => [s] | Tree t => order fuel t end.

Lemma order_unfold fuel node : order (S fuel) node = node ≫= slot_order fuel.
Proof. done. Qed.

(** Enough fuel for a node at the path [p]. *)
Definition enough (fuel : nat) (p : list nat) : Prop := (DEPTH < fuel + length p)%nat.
Lemma enough_step fuel p n : enough (S fuel) p → enough fuel (p ++ [n]).
Proof. unfold enough. rewrite length_app. simpl. lia. Qed.

Lemma wf_slots ss p node : slot_wf ss p (Tree node) → ∀ n x, node !! n = Some x → slot_wf ss (p ++ [n]) x.
Proof. intros Hw. by inversion Hw. Qed.

Lemma wf_length ss p node : slot_wf ss p (Tree node) → length node = 16%nat.
Proof. intros Hw. by inversion Hw. Qed.
Lemma wf_subscriber ss p s : slot_wf ss p (Sub s) →
  ∃ sub, ss !! s = Some sub ∧ is_sid (sid sub) ∧ p `prefix_of` nibbles (sid sub) ∧ abbreviate_len sub = length p.
Proof. intros Hw. inversion Hw; subst. eauto. Qed.

Lemma order_fuel ss fuel fuel' p node : slot_wf ss p (Tree node) → enough fuel p → enough fuel' p →
  order fuel node = order fuel' node.
Proof.
  revert fuel' p node. induction fuel as [|fuel IH]; intros fuel' p node Hw H1 H2.
  { inversion Hw; subst. unfold enough in H1. lia. }
  destruct fuel' as [|fuel']; [inversion Hw; subst; unfold enough in H2; lia|].
  rewrite !order_unfold. apply Forall_bind_ext, Forall_lookup. intros n x Hx. pose proof (wf_slots _ _ _ Hw n x Hx) as Hwx.
  destruct x as [|s|t]; [done|done|]. apply (IH fuel' (p ++ [n])); [done|by apply enough_step..].
Qed.

(** Whose identifiers begin with [p]. *)
Definition below (ss : store) (p : list nat) (s : nat) : Prop :=
  ∃ sub, ss !! s = Some sub ∧ is_sid (sid sub) ∧ p `prefix_of` nibbles (sid sub).
Definition before (ss : store) (s1 s2 : nat) : Prop :=
  ∃ sub1 sub2, ss !! s1 = Some sub1 ∧ ss !! s2 = Some sub2 ∧ cmp_sid_t (sid sub1) (sid sub2) = -1.

Lemma order_below ss fuel p node : slot_wf ss p (Tree node) → Forall (below ss p) (order fuel node).
Proof.
  revert p node. induction fuel as [|fuel IH]; intros p node Hw; [constructor|]. rewrite order_unfold.
  apply Forall_bind, Forall_lookup. intros n x Hx. pose proof (wf_slots _ _ _ Hw n x Hx) as Hwx.
  assert (∀ s, below ss (p ++ [n]) s → below ss p s) as Hb.
  { intros s (sub & Hs & Hid & Hp). exists sub. split_and!; try done. by eapply prefix_app_l. }
  destruct x as [|s|t]; cbn [slot_order]; [constructor| |].
  - inversion Hwx as [|? ? sub Hs Hid Hp Ha|]; subst. apply Forall_cons. split; [|constructor]. apply Hb. by exists sub.
  - eapply Forall_impl; [by apply IH|]. intros s. apply Hb.
Qed.

(** The order of nibbles is the order of bytes. *)
Lemma memcmp_nibbles a b p n1 n2 k1 k2 : Forall is_byte a → Forall is_byte b →
  nibbles a = p ++ n1 :: k1 → nibbles b = p ++ n2 :: k2 → (n1 < n2)%nat → memcmp a b = -1.
Proof.
  intros Ha. revert b p. induction Ha as [|x a Hx Ha IH]; intros b p Hb Ea Eb Hlt; [by destruct p|].
  destruct Hb as [|y b Hy Hb]; [by destruct p|].
  cbn [nibbles mbind list_bind app byte_nibbles] in Ea, Eb. fold (nibbles a) in Ea. fold (nibbles b) in Eb.
  destruct (StrNum.nibbles x Hx) as (Rx1 & Rx2 & Ex), (StrNum.nibbles y Hy) as (Ry1 & Ry2 & Ey).
  assert (∀ z, 0 ≤ z < 16 → Z.land z 0xF = z) as Hl.
  { intros z Hz. change 0xF with (Z.ones 4). rewrite Z.land_ones by lia. by apply Z.mod_small. }
  rewrite (Hl _ Rx1) in Ea. rewrite (Hl _ Ry1) in Eb. rewrite Z.shiftl_mul_pow2 in Ex, Ey by lia.
  cbn [memcmp]. destruct p as [|m1 [|m2 p]].
  - injection Ea as E1 _. injection Eb as E2 _. destruct (Z.ltb_spec x y); [done|]. lia.
  - injection Ea as E1 E1' _. injection Eb as E2 E2' _. destruct (Z.ltb_spec x y); [done|]. lia.
  - injection Ea as E1 E1' Ea. injection Eb as E2 E2' Eb. assert (x = y) as -> by lia.
    rewrite (proj2 (Z.ltb_ge y y)) by lia. by apply (IH b p).
Qed.

Lemma below_before ss p n1 n2 s1 s2 : below ss (p ++ [n1]) s1 → below ss (p ++ [n2]) s2 → (n1 < n2)%nat →
  before ss s1 s2.
Proof.
  intros (sub1 & H1 & Hid1 & Hp1) (sub2 & H2 & Hid2 & Hp2) Hlt. exists sub1, sub2. split_and!; try done.
  apply prefix_snoc in Hp1 as [k1 E1]. apply prefix_snoc in Hp2 as [k2 E2].
  eapply memcmp_nibbles; [apply Hid1|apply Hid2|exact E1|exact E2|done].
Qed.

Lemma sorted_app {A} (R : A → A → Prop) l1 l2 : StronglySorted R l1 → StronglySorted R l2 →
  (∀ x y, x ∈ l1 → y ∈ l2 → R x y) → StronglySorted R (l1 ++ l2).
Proof.
  intros H1 H2 HR. induction H1 as [|x l1 H1 IH Hx]; [done|]. cbn [app]. constructor.
  - apply IH. intros a b Ha Hb. apply HR; [by right|done].
  - apply Forall_app. split; [done|]. apply Forall_forall. intros y Hy. apply HR; [by left|done].
Qed.

Lemma slot_below ss fuel p n x : slot_wf ss (p ++ [n]) x → Forall (below ss (p ++ [n])) (slot_order fuel x).
Proof.
  intros Hw. destruct x as [|s|t]; cbn [slot_order]; [constructor| |by apply order_below].
  inversion Hw as [|? ? sub Hs Hid Hp Ha|]; subst. apply Forall_cons. split; [by exists sub|constructor].
Qed.

Lemma order_sorted ss fuel p node : slot_wf ss p (Tree node) → StronglySorted (before ss) (order fuel node).
Proof.
  revert p node. induction fuel as [|fuel IH]; intros p node Hw; [constructor|]. rewrite order_unfold.
  assert (∀ i l, (∀ n x, l !! n = Some x → slot_wf ss (p ++ [(i + n)%nat]) x) →
    StronglySorted (before ss) (l ≫= slot_order fuel) ∧
    Forall (λ s, ∃ n, (i ≤ n)%nat ∧ below ss (p ++ [n]) s) (l ≫= slot_order fuel)) as Hl.
  { intros i l. revert i. induction l as [|x l IHl]; intros i Hx; [by split; constructor|]. cbn [mbind list_bind].
    pose proof (Hx 0%nat x eq_refl) as H0. rewrite Nat.add_0_r in H0.
    destruct (IHl (S i)) as [S1 F1]; [intros n y Hy; rewrite Nat.add_succ_comm; by apply (Hx (S n))|].
    pose proof (slot_below ss fuel p i x H0) as Fx. split.
    - apply sorted_app; [|done|].
      + destruct x as [|s|t]; cbn [slot_order]; [constructor|repeat constructor|by eapply IH].
      + intros a b Ha Hb. rewrite Forall_forall in Fx, F1. destruct (F1 b Hb) as (n & Hn & Hbn).
        eapply below_before; [by apply Fx|exact Hbn|lia].
    - apply Forall_app. split; [|eapply Forall_impl; [exact F1|]; intros s (n & Hn & Hb); exists n; split; [lia|done]].
      eapply Forall_impl; [exact Fx|]. intros s Hb. by exists i. }
  apply (Hl 0%nat node). by apply wf_slots.
Qed.

Lemma order_lookup ss fuel p node k s : slot_wf ss p (Tree node) → enough fuel p → tree_lookup node k = Some s →
  s ∈ order fuel node.
Proof.
  revert p node k. induction fuel as [|fuel IH]; intros p node k Hw He Hk.
  { inversion Hw; subst. unfold enough in He. lia. }
  destruct k as [|n k]; [done|]. cbn [tree_lookup] in Hk. destruct (node !! n) as [x|] eqn:Ex; [|done].
  rewrite order_unfold. apply list_elem_of_bind. exists x. split; [|by eapply list_elem_of_lookup_2].
  pose proof (wf_slots _ _ _ Hw n x Ex) as Hwx. destruct x as [|s'|t]; [done|injection Hk as ->; by left|].
  by apply (IH (p ++ [n]) t k Hwx); [apply enough_step|].
Qed.

(** Whose identifiers begin with the first [len] bytes of [id]. *)
Definition begins (ss : store) (id : list Z) (len : nat) (s : nat) : Prop :=
  match ss !! s with Some sub => take len (sid sub) = take len id | None => False end.
#[export] Instance begins_dec ss id len s : Decision (begins ss id len s).
Proof. unfold begins. destruct (ss !! s); apply _. Defined.

(** ** Walks *)

Section Walk.
Context {A : Type}.
Variable callback : nat → A → outcome (A * bool).

(** Calling back for each element of a list, until the callback says stop. *)
Fixpoint visit (l : list nat) (a : A) : outcome (A * bool) :=
  match l with
  | [] => Ret (a, false)
  | s :: l => r ← callback s a; if r.2 : bool then Ret (r.1, true) else visit l r.1
  end.

Lemma visit_app l1 l2 a : visit (l1 ++ l2) a = (r ← visit l1 a; if r.2 : bool then Ret r else visit l2 r.1).
Proof.
  revert a. induction l1 as [|s l1 IH]; intros a; [done|]. cbn [app visit].
  destruct (callback s a) as [[a' []]| |]; [done| |done|done]. rewrite !bind_ret_l. apply IH.
Qed.

Lemma visit_one s a : visit [s] a = (r ← callback s a; Ret r).
Proof. cbn [visit]. destruct (callback s a) as [[a' []]| |]; done. Qed.

Lemma bind_ret_r {B} (m : outcome B) : (x ← m; Ret x) = m.
Proof. by destruct m. Qed.

(** The loop over the slots of a node, with what it does for the first of them. *)
Definition slots_loop (walk : tree_node → option (list Z) → A → outcome (A * bool)) :=
  fix loop (slots : list slot) (start : option (list Z)) (a : A) : outcome (A * bool) :=
    match slots with
    | [] => Ret (a, false)
    | x :: slots =>
        r ← match x with Tree t => walk t start a | Sub s => callback s a | Null => Ret (a, false) end;
        if r.2 : bool then Ret (r.1, true) else loop slots None r.1
    end.

Lemma walk_unfold fuel node pos start a : walk_tree callback (S fuel) node pos start a =
  (i ← match start with Some id => get_nibble id pos | None => Ret 0%nat end;
   slots_loop (λ t start a, walk_tree callback fuel t (S pos) start a) (drop i node) start a).
Proof. done. Qed.

Lemma slots_loop_visit fuel walk slots a :
  (∀ n t a, slots !! n = Some (Tree t) → walk t None a = visit (order fuel t) a) →
  slots_loop walk slots None a = visit (slots ≫= slot_order fuel) a.
Proof.
  revert a. induction slots as [|x slots IH]; intros a Hw; [done|]. cbn [slots_loop mbind list_bind].
  rewrite visit_app.
  assert (match x with Tree t => walk t None a | Sub s => callback s a | Null => Ret (a, false) end = visit (slot_order fuel x) a) as ->.
  { destruct x as [|s|t]; cbn [slot_order]; [done|by rewrite visit_one, bind_ret_r|by apply (Hw 0%nat)]. }
  destruct (visit (slot_order fuel x) a) as [[a' []]| |]; [done| |done|done]. rewrite !bind_ret_l. cbn [fst snd].
  apply IH. intros n t a1 Ht. by apply (Hw (S n)).
Qed.

Lemma walk_visit ss fuel p node pos a : slot_wf ss p (Tree node) → enough fuel p →
  walk_tree callback fuel node pos None a = visit (order fuel node) a.
Proof.
  revert p node pos a. induction fuel as [|fuel IH]; intros p node pos a Hw He.
  { inversion Hw; subst. unfold enough in He. lia. }
  rewrite walk_unfold, bind_ret_l, drop_0, order_unfold. apply slots_loop_visit.
  intros n t a' Ht. apply (IH (p ++ [n])); [by apply (wf_slots _ _ _ Hw)|by apply enough_step].
Qed.

(** A walk that starts at a subscriber leaves out those before it. *)
Lemma walk_from ss fuel p node id k s a : slot_wf ss p (Tree node) → enough fuel p →
  nibbles id = p ++ k → tree_lookup node k = Some s →
  ∃ l1 l2, order fuel node = l1 ++ s :: l2 ∧
    walk_tree callback fuel node (length p) (Some id) a = visit (s :: l2) a.
Proof.
  revert p node k a. induction fuel as [|fuel IH]; intros p node k a Hw He Ek Hk.
  { inversion Hw; subst. unfold enough in He. lia. }
  destruct k as [|n k]; [done|]. cbn [tree_lookup] in Hk. destruct (node !! n) as [x|] eqn:Ex; [|done].
  rewrite walk_unfold, (get_nibble_spec id (length p) n), bind_ret_l by (rewrite Ek; by apply list_lookup_middle).
  rewrite (drop_S node x n Ex). cbn [slots_loop].
  assert (order (S fuel) node = (take n node ≫= slot_order fuel) ++ slot_order fuel x ++ (drop (S n) node ≫= slot_order fuel)) as ->.
  { rewrite order_unfold. rewrite <- (take_drop n node) at 1. rewrite bind_app, (drop_S node x n Ex). done. }
  assert (∀ a, slots_loop (λ t start a, walk_tree callback fuel t (S (length p)) start a) (drop (S n) node) None a =
    visit (drop (S n) node ≫= slot_order fuel) a) as Hrest.
  { intros a'. apply slots_loop_visit. intros m t a1 Ht. rewrite lookup_drop in Ht.
    apply (walk_visit ss fuel (p ++ [(S n + m)%nat])); [by apply (wf_slots _ _ _ Hw)|by apply enough_step]. }
  pose proof (wf_slots _ _ _ Hw n x Ex) as Hwx. destruct x as [|s'|t]; [done| |].
  - injection Hk as ->. eexists _, _. split; [reflexivity|]. cbn [visit].
    destruct (callback s a) as [[a' []]| |]; [done| |done|done]. rewrite !bind_ret_l. apply Hrest.
  - destruct (IH (p ++ [n]) t k a Hwx) as (l1 & l2 & El & Ew); [by apply enough_step|by rewrite <- app_assoc|done|].
    rewrite length_app, Nat.add_1_r in Ew. rewrite Ew. cbn [slot_order]. rewrite El.
    exists ((take n node ≫= slot_order fuel) ++ l1), (l2 ++ (drop (S n) node ≫= slot_order fuel)).
    split; [by rewrite <- !app_assoc|]. rewrite app_comm_cons, visit_app.
    destruct (visit (s :: l2) a) as [[a' []]| |]; [done| |done|done]. rewrite !bind_ret_l. apply Hrest.
Qed.

(** ** Prefixes *)

Lemma filter_none (P : nat → Prop) `{∀ s, Decision (P s)} l : Forall (λ s, ¬ P s) l → filter P l = [].
Proof. induction 1 as [|s l Hs _ IH]; [done|]. by rewrite filter_cons_False. Qed.
Lemma filter_all (P : nat → Prop) `{∀ s, Decision (P s)} l : Forall P l → filter P l = l.
Proof. induction 1 as [|s l Hs _ IH]; [done|]. by rewrite filter_cons_True, IH. Qed.

Variable ss : store.
Variable id : list Z.
Variable len : nat.
Hypothesis id_bytes : Forall is_byte id.
Hypothesis id_len : (len ≤ length id)%nat.

(** A subscriber below a path begins with the bytes of the path, and with no
    others. *)
Lemma below_begins p s : below ss p s → p = take (2 * len) (nibbles id) → begins ss id len s.
Proof.
  intros (sub & Hs & Hid & [k Ek]) Ep. unfold begins. rewrite Hs. apply prefix_nibbles; [apply Hid|done|].
  assert (length p = 2 * len)%nat as Hl by (rewrite Ep, length_take, nibbles_length; lia).
  rewrite <- Ep, Ek, <- Hl. apply take_app_length.
Qed.
Lemma below_other p n m s : below ss (p ++ [m]) s → nibbles id !! length p = Some n → (length p < 2 * len)%nat → m ≠ n →
  ¬ begins ss id len s.
Proof.
  intros (sub & Hs & Hid & Hp) Hn Hl Hne. unfold begins. rewrite Hs. intros E. apply Hne.
  apply prefix_nibbles in E; [|apply Hid|done]. apply prefix_snoc in Hp as [k Ek].
  pose proof (nibbles_agree id (sid sub) len p m k (eq_sym E) Ek Hl) as Hm. congruence.
Qed.

Lemma order_prefix fuel p node n x : slot_wf ss p (Tree node) → node !! n = Some x →
  nibbles id !! length p = Some n → (length p < 2 * len)%nat →
  filter (begins ss id len) (order (S fuel) node) = filter (begins ss id len) (slot_order fuel x).
Proof.
  intros Hw Hx Hn Hl. rewrite order_unfold. rewrite <- (take_drop n node) at 1. rewrite bind_app, (drop_S node x n Hx).
  cbn [mbind list_bind]. rewrite !filter_app.
  assert (∀ l, (∀ i y, l !! i = Some y → ∃ m, m ≠ n ∧ node !! m = Some y) →
    filter (begins ss id len) (l ≫= slot_order fuel) = []) as Hnone.
  { intros l Hy. apply filter_none, Forall_bind, Forall_lookup. intros i y Hi. destruct (Hy i y Hi) as (m & Hne & Hm).
    eapply Forall_impl; [apply (slot_below ss fuel p m y), (wf_slots _ _ _ Hw m y Hm)|].
    intros s Hs. by eapply below_other. }
  rewrite (Hnone (take n node)), (Hnone (drop (S n) node)), app_nil_r; [done|..]; intros i y Hi.
  - rewrite lookup_drop in Hi. exists (S n + i)%nat. split; [lia|done].
  - apply lookup_take_Some in Hi as [Hi Hlt]. exists i. split; [lia|done].
Qed.

Variable ss_of : A → store.
Hypothesis len_max : (len ≤ SID_SIZE)%nat.

Lemma prefix_visit n p node a : slot_wf ss p (Tree node) → p = take (length p) (nibbles id) →
  (length p + n = 2 * len)%nat → ss_of a = ss →
  prefix_loop callback ss_of n id len node (length p) a =
    (r ← visit (filter (begins ss id len) (order (S DEPTH) node)) a; Ret r.1).
Proof.
  intros Hw Hp Hn Ha. revert p node Hw Hp Hn. induction n as [|n IH]; intros p node Hw Hp Hn; cbn [prefix_loop].
  - rewrite (walk_visit ss (S DEPTH) p node) by (done || (unfold enough; lia)).
    rewrite filter_all; [done|]. eapply Forall_impl; [by apply order_below|]. intros s Hs.
    apply (below_begins p s Hs). by rewrite Hp, <- Hn, Nat.add_0_r at 1.
  - destruct (lookup_lt_is_Some_2 (nibbles id) (length p)) as [i Hi]; [rewrite nibbles_length; lia|].
    rewrite (get_nibble_spec id (length p) i Hi), bind_ret_l.
    assert (i < 16)%nat as Hi16 by (pose proof (nibbles_small id) as Hs; rewrite Forall_lookup in Hs; by eapply Hs).
    destruct (lookup_lt_is_Some_2 node i) as [x Hx]; [by rewrite (wf_length _ _ _ Hw)|]. rewrite Hx.
    rewrite (order_prefix DEPTH p node i x Hw Hx Hi) by lia. pose proof (wf_slots _ _ _ Hw i x Hx) as Hwx.
    destruct x as [|s|t]; cbn [slot_order]; [done| |].
    + destruct (wf_subscriber _ _ _ Hwx) as (sub & Hs & Hid & _). rewrite Ha, Hs, same_bytes_spec, bind_ret_l by done.
      destruct (bool_decide_reflect (take (2 * len) (nibbles (sid sub)) = take (2 * len) (nibbles id))) as [E|E].
      * rewrite filter_cons_True by (unfold begins; rewrite Hs; apply prefix_nibbles; [apply Hid|done|done]).
        by rewrite visit_one, bind_ret_r.
      * rewrite filter_cons_False; [done|]. unfold begins. rewrite Hs. intros E'. apply E, prefix_nibbles; [apply Hid|done|done].
    + assert (length (p ++ [i]) = S (length p)) as Hpl by (rewrite length_app; simpl; lia). rewrite <- Hpl.
      assert (enough DEPTH (p ++ [i])) as He by (unfold enough; rewrite Hpl; lia).
      rewrite (order_fuel ss DEPTH (S DEPTH) (p ++ [i]) t Hwx He) by (unfold enough in *; lia).
      apply IH; [done| |lia]. rewrite Hpl, (take_S_r _ _ i Hi), <- Hp. done.
Qed.

End Walk.

Lemma sorted_nodup ss l : StronglySorted (before ss) l → NoDup l.
Proof.
  induction 1 as [|s l _ IH Hs]; constructor; [|done]. intros Hin. rewrite Forall_forall in Hs.
  destruct (Hs s Hin) as (sub1 & sub2 & H1 & H2 & E). rewrite H1 in H2. injection H2 as ->.
  assert (memcmp (sid sub2) (sid sub2) = 0) as E0 by (by apply memcmp_eq). unfold cmp_sid_t in E. lia.
Qed.

(** C25: in every tree the program can build, the walks call back for the
    subscribers in the order of their identifiers and once each, until the callback
    says stop: the whole walk for all of them, a walk with a start for it and those
    after it, and a search by prefix for exactly those whose identifiers begin with
    the prefix. The start itself comes first, as the comment on [enum_subscribers]
    says and against the one on [walk_tree]. *)
Theorem subscribers_in_order {A} (callback : nat → A → outcome (A * bool)) root ss : tree_reachable root ss →
  let l := order (S DEPTH) root in
  NoDup l ∧ (∀ s, s ∈ l ↔ (s < length ss)%nat) ∧ StronglySorted (before ss) l ∧
  (∀ a, enum_subscribers callback root None a = (r ← visit callback l a; Ret r.1)) ∧
  (∀ s sub a, ss !! s = Some sub → ∃ l1 l2, l = l1 ++ s :: l2 ∧
     enum_subscribers callback root (Some (sid sub)) a = (r ← visit callback (s :: l2) a; Ret r.1)) ∧
  (∀ ss_of id len a, Forall is_byte id → (len ≤ length id)%nat → (len ≤ SID_SIZE)%nat → ss_of a = ss →
     prefix_matches callback ss_of root id len a = (r ← visit callback (filter (begins ss id len) l) a; Ret r.1)).
Proof.
  intros Hr l. destruct (tree_reachable_inv _ _ Hr) as [Hw Hk].
  assert (enough (S DEPTH) []) as He by (unfold enough; lia).
  pose proof (order_sorted ss (S DEPTH) [] root Hw) as Hs. split_and!; [by eapply sorted_nodup| |done|..].
  - intros s. split.
    + intros Hin. pose proof (order_below ss (S DEPTH) [] root Hw) as Hb. rewrite Forall_forall in Hb.
      destruct (Hb s Hin) as (sub & Hsub & _). by eapply lookup_lt_Some.
    + intros Hlt. destruct (lookup_lt_is_Some_2 ss s Hlt) as [sub Hsub]. destruct (Hk s sub Hsub) as [_ Hlk].
      by apply (order_lookup ss _ [] root (nibbles (sid sub))).
  - intros a. unfold enum_subscribers. by rewrite (walk_visit callback ss (S DEPTH) [] root).
  - intros s sub a Hsub. destruct (Hk s sub Hsub) as [_ Hlk].
    destruct (walk_from callback ss (S DEPTH) [] root (sid sub) (nibbles (sid sub)) s a Hw He eq_refl Hlk) as (l1 & l2 & El & Ew).
    exists l1, l2. split; [done|]. unfold enum_subscribers. change (length []) with 0%nat in Ew. by rewrite Ew.
  - intros ss_of id len a Hb Hl Hm Ha. unfold prefix_matches.
    apply (prefix_visit callback ss id len Hb Hl ss_of Hm (len * 2) [] root a); [done|done|simpl; lia|done].
Qed.

(** Collecting what is visited. *)
Definition collect (s : nat) (a : list nat) : outcome (list nat * bool) := Ret (a ++ [s], false).

(** A tree with two subscribers; the second one found comes last. *)
Definition root_ab : tree_node * store := match find_subscriber (λ _, true) sid_b SID_SIZE true root_a store_a with Ret (root, ss, _) => (root, ss) | _ => (root_a, store_a) end.
Lemma reachable_ab : tree_reachable root_ab.1 root_ab.2.
Proof.
  apply (tr_find root_a store_a (λ _, true) sid_b SID_SIZE true root_ab.1 root_ab.2 (Some 1%nat) reachable_a);
    [by apply (bool_decide_unpack _)|unfold SID_SIZE; lia|done|done|reflexivity].
Qed.

Lemma subscribers_in_order_witness :
  enum_subscribers collect root_ab.1 None [] = Ret [0%nat; 1%nat] ∧
  enum_subscribers collect root_ab.1 (Some sid_b) [] = Ret [1%nat] ∧
  prefix_matches collect (λ _, root_ab.2) root_ab.1 [0x11; 0x22] 2 [] = Ret [1%nat] ∧
  NoDup (order (S DEPTH) root_ab.1).
Proof.
  destruct (subscribers_in_order collect root_ab.1 root_ab.2 reachable_ab) as (Hn & _ & _ & He & Hs & Hp).
  rewrite He, Hp; [|by apply (bool_decide_unpack _)|done|unfold SID_SIZE; lia|done].
  split_and!; [reflexivity| |reflexivity|exact Hn].
  destruct (root_ab.2 !! 1%nat) as [sub|] eqn:Esub; [|discriminate Esub]. assert (sid sub = sid_b) as Esid by (vm_compute in Esub; injection Esub as <-; reflexivity).
  destruct (Hs 1%nat sub [] Esub) as (l1 & l2 & El & Ew). rewrite Esid in Ew. rewrite Ew.
  assert (order (S DEPTH) root_ab.1 = [0%nat; 1%nat]) as Eo by reflexivity. rewrite Eo in El.
  destruct l1 as [|x [|y l1]]; [injection El as E _; discriminate E|injection El as _ <-; reflexivity|injection El as _ _ El; by destruct l1].
Defined.

(** ** Freeing *)

Definition idle (s : subscriber) : bool := negb (link_state s || destination s || sync_state s || identity s).

(** Outside the server the whole tree is freed, unless a subscriber is in use. *)
Lemma free_all ss fuel p node : slot_wf ss p (Tree node) → enough fuel p → Forall (λ x, idle x = true) ss →
  free_children fuel ss node = Ret empty_node.
Proof.
  intros Hw He Hidle. revert p node Hw He. induction fuel as [|fuel IH]; intros p node Hw He.
  { inversion Hw; subst. unfold enough in He. lia. }
  cbn [free_children]. unfold empty_node. rewrite <- (wf_length _ _ _ Hw).
  assert (∀ n x, node !! n = Some x → match x with
      | Tree t => free_children fuel ss t = Ret empty_node
      | Sub s => ∃ sub, ss !! s = Some sub ∧ free_subscriber sub = Ret tt
      | Null => True end) as Hslot.
  { intros n x Hx. pose proof (wf_slots _ _ _ Hw n x Hx) as Hwx. destruct x as [|s|t]; [done| |by apply (IH (p ++ [n])); [|apply enough_step]].
    destruct (wf_subscriber _ _ _ Hwx) as (sub & Hs & _). exists sub. split; [done|].
    rewrite Forall_lookup in Hidle. specialize (Hidle _ _ Hs). unfold idle in Hidle. unfold free_subscriber.
    by destruct (link_state sub), (destination sub), (sync_state sub), (identity sub). }
  clear -Hslot. induction node as [|x node IHn]; [done|]. rewrite IHn by (intros n y Hy; apply (Hslot (S n) y Hy)).
  pose proof (Hslot 0%nat x eq_refl) as Hx. destruct x as [|s|t]; [done|destruct Hx as (sub & -> & ->); done|by rewrite Hx].
Qed.

(** ** Broadcast identifiers *)

(** A table of identifiers, each of them at its own index or not yet used. *)
Definition bpi_table (l : list (list Z)) : Prop := length l = MAX_BPIS ∧ Forall (λ id, length id = BROADCAST_LEN) l.

Lemma bpi_index_range id : (Z.to_nat (bpi_index id) < MAX_BPIS)%nat.
Proof.
  unfold bpi_index, BPI_MASK, MAX_BPIS. change 0x3ff with (Z.ones 10). rewrite Z.land_ones by lia.
  pose proof (Z.mod_pos_bound (foldl bpi_step 0 id) (2 ^ 10) ltac:(lia)). lia.
Qed.

(** An identifier is dropped when it is the last one seen with its index, and
    remembered until another one with the same index arrives. *)
Lemma broadcast_remembered id l : bpi_table l → length id = BROADCAST_LEN →
  ∃ l' r, overlay_broadcast_drop_check id l = Ret (l', r) ∧ bpi_table l' ∧
    (r = 1 ↔ l !! Z.to_nat (bpi_index id) = Some id) ∧ (r = 0 ∨ r = 1) ∧
    overlay_broadcast_drop_check id l' = Ret (l', 1) ∧
    (∀ id', bpi_index id' ≠ bpi_index id → 0 ≤ bpi_index id' → 0 ≤ bpi_index id →
       l' !! Z.to_nat (bpi_index id') = l !! Z.to_nat (bpi_index id')).
Proof.
  intros [Hl Hf] Hid. pose proof (bpi_index_range id) as Hi. unfold overlay_broadcast_drop_check.
  destruct (lookup_lt_is_Some_2 l (Z.to_nat (bpi_index id))) as [old Hold]; [lia|]. rewrite Hold.
  assert (length old = BROADCAST_LEN) as Holdl by (rewrite Forall_lookup in Hf; by eapply Hf).
  assert (memcmp id id = 0) as Hsame by (by apply memcmp_eq).
  destruct (Z.eqb_spec (memcmp old id) 0) as [E|E]; cbn [negb].
  - apply memcmp_eq in E as ->; [|lia]. exists l, 1. rewrite Hold, Hsame. split_and!; try done. by right.
  - eexists _, 0. split; [reflexivity|]. split_and!.
    + split; [by rewrite length_insert|by apply Forall_insert].
    + split; [done|]. intros [= ->]. done.
    + by left.
    + rewrite list_lookup_insert_eq by lia. by rewrite Hsame.
    + intros id' Hne H1 H2. apply list_lookup_insert_ne. lia.
Qed.

(** The identifier of zeros counts as seen from the start. *)
Lemma zero_broadcast_dropped : overlay_broadcast_drop_check (replicate 8 0) no_bpis = Ret (no_bpis, 1).
Proof. vm_compute. reflexivity. Qed.

End OverlayAddressWalk.
