(* ===== verification/OverlayAddressCodec.v ===== *)
(** * Addresses in packets (overlay_address.c)

    Encoding subscribers into packets and decoding them, and the messages by which
    nodes ask for and give whole identifiers. *)

From S2P Require Import Prelude Mem OverlayBuffer OverlayBufferSpec OverlayBufferCodec StrCtype StrNum StrScan DataFormats OverlayAddress OverlayAddressTree.
Import OB OBSpec OBCodec DataFormats OverlayAddress OverlayAddressTree.

Module OverlayAddressCodec.
Section Codec.
Context {arch : Arch} {allocator : Allocator}.

Definition OA_CODE_SELF : Z := 0xff.
Definition OA_CODE_PREVIOUS : Z := 0xfe.
Definition OA_CODE_P2P_YOU : Z := 0xfd.
Definition OA_CODE_P2P_ME : Z := 0xfc.

Definition DECODE_FLAG_ENCODING_HEADER : Z := Z.shiftl 1 0.
Definition DECODE_FLAG_INVALID_ADDRESS : Z := Z.shiftl 1 1.
Definition DECODE_FLAG_DONT_EXPLAIN : Z := Z.shiftl 1 2.
Definition REACHABLE_SELF : Z := Z.shiftl 1 0.
Definition MDP_MTU : Z := 1200.

(** The fields of struct overlay_frame that overlay_address.c sets in an
    explanation. *)
Record explain_frame := Explain { payload : option overlay_buffer; source_full : bool }.

(** overlay_interface.h: what packets need to know of the interface they are sent
    or received on. *)
Record overlay_interface := Interface { if_local_echo : bool; point_to_point : bool; other_device : option nat }.

(** overlay_address.h: struct decode_context. *)
Record decode_context := Ctx {
  interface : option overlay_interface;
  sender_interface : Z;
  packet_version : Z;
  encapsulation : Z;
  flags : Z;
  please_explain : option explain_frame;
  sender : option nat;
  previous : option nat;
  point_to_point_device : option nat;
}.
Definition set_previous (c : decode_context) (s : option nat) : decode_context :=
  Ctx (interface c) (sender_interface c) (packet_version c) (encapsulation c) (flags c) (please_explain c) (sender c) s (point_to_point_device c).
Definition set_flag (c : decode_context) (f : Z) : decode_context :=
  Ctx (interface c) (sender_interface c) (packet_version c) (encapsulation c) (Z.lor (flags c) f) (please_explain c) (sender c) (previous c) (point_to_point_device c).
Definition set_explain (c : decode_context) (e : option explain_frame) : decode_context :=
  Ctx (interface c) (sender_interface c) (packet_version c) (encapsulation c) (flags c) e (sender c) (previous c) (point_to_point_device c).
Definition has_flag (c : decode_context) (f : Z) : bool := negb (Z.land (flags c) f =? 0).

(** ** Encoding *)

(** The number of bytes of the identifier that are sent. *)
Definition abbreviation (ctx : option decode_context) (sub : subscriber) : nat :=
  if send_full sub then SID_SIZE
  else
    let len := Nat.div2 (abbreviate_len sub + 2) in
    let len := match ctx with Some c => if has_flag c DECODE_FLAG_ENCODING_HEADER then S len else len | None => len end in
    if bool_decide (SID_SIZE < len)%nat then SID_SIZE else len.

(** [interface->local_echo]. *)
Definition local_echo (c : decode_context) : outcome bool :=
  match interface c with Some i => Ret (if_local_echo i) | None => Undef end.

(** Whether [OA_CODE_P2P_ME] is sent. *)
Definition is_p2p_me (my_subscriber : option nat) (c : decode_context) (s : nat) (sub : subscriber) : outcome bool :=
  if negb (send_full sub) && bool_decide (my_subscriber = Some s) && bool_decide (is_Some (point_to_point_device c)) then
    if negb (has_flag c DECODE_FLAG_ENCODING_HEADER) then Ret true else e ← local_echo c; Ret (negb e)
  else Ret false.

(** The code byte, if one is sent. *)
Definition address_code (my_subscriber : option nat) (ctx : option decode_context) (s : nat) (sub : subscriber) :
    outcome (option Z) :=
  match ctx with
  | None => Ret None
  | Some c =>
      if bool_decide (point_to_point_device c = Some s) then Ret (Some OA_CODE_P2P_YOU)
      else
        me ← is_p2p_me my_subscriber c s sub;
        Ret (if (me : bool) then Some OA_CODE_P2P_ME
             else if bool_decide (sender c = Some s) then Some OA_CODE_SELF
             else if bool_decide (previous c = Some s) then Some OA_CODE_PREVIOUS
             else None)
  end.

Definition overlay_address_append (my_subscriber : option nat) (ctx : option decode_context) (m : mem) (b : overlay_buffer)
    (ss : store) (s : option nat) : outcome (option decode_context * mem * overlay_buffer * store) :=
  match s with
  | None => Aborted
  | Some s =>
      match ss !! s with
      | None => Undef
      | Some sub =>
          code ← address_code my_subscriber ctx s sub;
          r ← match code with
              | Some code => r ← ob_append_byte m b code; Ret (r.1, r.2, ss)
              | None =>
                  let len := abbreviation ctx sub in
                  let ss := if send_full sub then <[s := set_send_full sub false]> ss else ss in
                  r ← ob_append_byte m b (Z.of_nat len);
                  let '(m, b) := r in
                  defined! bool_decide (len ≤ length (sid sub))%nat;
                  r ← ob_append_bytes m b (take len (sid sub));
                  Ret (r.1, r.2, ss)
              end;
          let '(m, b, ss) := r in
          Ret ((λ c, set_previous c (Some s)) <$> ctx, m, b, ss)
      end
  end.

(** Broadcast identifiers in packets. *)
Definition overlay_broadcast_append (m : mem) (b : overlay_buffer) (id : list Z) : outcome (mem * overlay_buffer) :=
  defined! bool_decide (BROADCAST_LEN ≤ length id)%nat;
  ob_append_bytes m b (take BROADCAST_LEN id).
Definition overlay_broadcast_parse (m : mem) (b : overlay_buffer) : outcome (overlay_buffer * option (list Z)) :=
  ob_get_bytes m b (Z.of_nat BROADCAST_LEN).

(** ** Explaining *)

(** What the decoder works on. [explained] lists the calls of [link_explained] of
    route_link.c; [ticks] and [frames] count the readings of the clock and the
    allocations of frames. *)
Record world := World {
  w_mem : mem;
  w_root : tree_node;
  w_ss : store;
  w_ctx : decode_context;
  explained : list nat;
  ticks : nat;
  frames : nat;
}.
Definition set_ctx (w : world) (c : decode_context) : world :=
  World (w_mem w) (w_root w) (w_ss w) c (explained w) (ticks w) (frames w).
Definition set_ss (w : world) (ss : store) : world :=
  World (w_mem w) (w_root w) ss (w_ctx w) (explained w) (ticks w) (frames w).
Definition set_payload (w : world) (m : mem) (e : explain_frame) (b : overlay_buffer) : world :=
  World m (w_root w) (w_ss w) (set_explain (w_ctx w) (Some (Explain (Some b) (source_full e)))) (explained w) (ticks w) (frames w).

Variable my_subscriber : option nat.
Variable gettime_ms : nat → Z.
Variable frame_alloc : nat → bool.

(** A new frame, with its payload limited to [limit] bytes; the caller deals with
    the failures: [None] for no frame, a frame without payload otherwise. *)
Definition new_explain (w : world) (limit : Z) : outcome (world * option explain_frame) :=
  let w' := World (w_mem w) (w_root w) (w_ss w) (w_ctx w) (explained w) (ticks w) (S (frames w)) in
  if frame_alloc (frames w) then
    match ob_new (w_mem w) with
    | None => Ret (w', Some (Explain None false))
    | Some b => b ← ob_limitsize b limit; Ret (w', Some (Explain (Some b) false))
    end
  else Ret (w', None).

(** The frame that answers, made when there is none; [None] when it cannot be. *)
Definition response_frame (w : world) : outcome (world * option (explain_frame * overlay_buffer)) :=
  match please_explain (w_ctx w) with
  | Some e => match payload e with Some b => Ret (w, Some (e, b)) | None => Undef end
  | None =>
      r ← new_explain w 1024;
      match r with
      | (w, Some e) =>
          match payload e with
          | Some b => Ret (set_ctx w (set_explain (w_ctx w) (Some e)), Some (e, b))
          | None => Ret (w, None)
          end
      | (w, None) => Ret (w, None)
      end
  end.

(** The answer for one subscriber. The callback of the walks: [true] stops. *)
Definition explain_sid (s : nat) (sub : subscriber) (w : world) (e : explain_frame) (b : overlay_buffer) : outcome (world * bool) :=
  let b := ob_checkpoint b in
  r ← ob_append_byte (w_mem w) b (Z.of_nat SID_SIZE);
  let '(m, b) := r in
  r ← ob_append_bytes m b (sid sub);
  let '(m, b) := r in
  if ob_overrun b then Ret (set_payload w m e (ob_rewind b), true)
  else
    let w := set_payload w m e b in
    Ret (World (w_mem w) (w_root w) (w_ss w) (w_ctx w) (explained w ++ [s]) (ticks w) (frames w), false).

Definition add_explain_response (s : nat) (w : world) : outcome (world * bool) :=
  match w_ss w !! s with
  | None => Undef
  | Some sub =>
      let now := gettime_ms (ticks w) in
      let w := World (w_mem w) (w_root w) (w_ss w) (w_ctx w) (explained w) (S (ticks w)) (frames w) in
      if now - last_explained sub <? 500 then Ret (w, false)
      else
        let w := set_ss w (<[s := set_last_explained sub now]> (w_ss w)) in
        r ← response_frame w;
        match r with
        | (w, None) => Ret (w, true)
        | (w, Some (e, b)) =>
            if reachable sub =? REACHABLE_SELF then
              if bool_decide (my_subscriber = Some s) then
                Ret (set_ctx w (set_explain (w_ctx w) (Some (Explain (payload e) true))), false)
              else
                explain_sid s sub (set_ss w (<[s := set_send_full (set_last_explained sub now) true]> (w_ss w))) e b
            else explain_sid s sub w e b
        end
  end.

(** ** Decoding *)

(** The frame that asks, made when there is none. The result of calloc(3) is not
    checked; [None] when the buffer cannot be made: the frame stays without it. *)
Definition request_frame (w : world) : outcome (world * option (explain_frame * overlay_buffer)) :=
  match please_explain (w_ctx w) with
  | Some e => match payload e with Some b => Ret (w, Some (e, b)) | None => Undef end
  | None =>
      r ← new_explain w MDP_MTU;
      match r with
      | (w, Some e) =>
          let w := set_ctx w (set_explain (w_ctx w) (Some e)) in
          match payload e with Some b => Ret (w, Some (e, b)) | None => Ret (w, None) end
      | (w, None) => Undef
      end
  end.

Variable alloc : nat → bool.

(** The result holds [*subscriber] and the return value. *)
Definition find_subscr_buffer (w : world) (b : overlay_buffer) (len : Z) (subscriber : option nat) :
    outcome (world * overlay_buffer * option nat * Z) :=
  if (len <=? 0) || (Z.of_nat SID_SIZE <? len) then Ret (w, b, subscriber, -1)
  else
    match ob_get_bytes_ptr b len with
    | (b, None) => Ret (w, b, subscriber, -1)
    | (b, Some p) =>
        id ← load_bytes (w_mem w) p len;
        r ← find_subscriber alloc id (Z.to_nat len) true (w_root w) (w_ss w);
        let '(root, ss, found) := r in
        let w := World (w_mem w) root ss (w_ctx w) (explained w) (ticks w) (frames w) in
        match found with
        | Some s => Ret (set_ctx w (set_previous (w_ctx w) (Some s)), b, Some s, 0)
        | None =>
            let w := set_ctx w (set_flag (w_ctx w) DECODE_FLAG_INVALID_ADDRESS) in
            if has_flag (w_ctx w) DECODE_FLAG_DONT_EXPLAIN then Ret (w, b, None, 0)
            else
              r ← request_frame w;
              match r with
              | (w, None) => Ret (w, b, None, -1)
              | (w, Some _) =>
                  w ← prefix_matches add_explain_response w_ss (w_root w) id (Z.to_nat len) w;
                  r ← request_frame w;
                  match r with
                  | (w, None) => Undef
                  | (w, Some (e, eb)) =>
                      r ← ob_append_byte (w_mem w) eb len;
                      r ← ob_append_bytes r.1 r.2 id;
                      Ret (set_payload w r.1 e r.2, b, None, 0)
                  end
              end
        end
    end.

Definition overlay_address_parse (w : world) (b : overlay_buffer) (subscriber : option nat) :
    outcome (world * overlay_buffer * option nat * Z) :=
  r ← ob_get (w_mem w) b;
  let '(b, len) := r in
  let c := w_ctx w in
  let invalid := set_ctx w (set_flag c DECODE_FLAG_INVALID_ADDRESS) in
  if len <? 0 then Ret (w, b, subscriber, -1)
  else if len =? OA_CODE_P2P_YOU then
    if bool_decide (is_Some (point_to_point_device c))
    then Ret (set_ctx w (set_previous c my_subscriber), b, my_subscriber, 0)
    else Ret (invalid, b, subscriber, 0)
  else if len =? OA_CODE_P2P_ME then
    match point_to_point_device c with
    | Some s => Ret (set_ctx w (set_previous c (Some s)), b, Some s, 0)
    | None =>
        if negb (has_flag c DECODE_FLAG_DONT_EXPLAIN) then
          r ← request_frame w;
          match r with
          | (w, None) => Ret (w, b, subscriber, -1)
          | (w, Some (e, eb)) =>
              r ← ob_append_byte (w_mem w) eb OA_CODE_P2P_YOU;
              let w := set_payload w r.1 e r.2 in
              Ret (set_ctx w (set_flag (w_ctx w) DECODE_FLAG_INVALID_ADDRESS), b, subscriber, 0)
          end
        else Ret (invalid, b, subscriber, 0)
    end
  else if len =? OA_CODE_SELF then
    match sender c with
    | None => Ret (invalid, b, subscriber, 0)
    | Some s => Ret (set_ctx w (set_previous c (Some s)), b, Some s, 0)
    end
  else if len =? OA_CODE_PREVIOUS then
    match previous c with
    | None => Ret (invalid, b, subscriber, 0)
    | Some s => Ret (w, b, Some s, 0)
    end
  else find_subscr_buffer w b len subscriber.

(** ** Explanations that arrive *)

(** The frame handed to overlay_payload_enqueue of overlay_queue.c. The
    destinations are those of the interface and a unicast one. *)
Record out_frame := Out {
  out_source : option nat;
  out_destination : option nat;
  out_source_full : bool;
  out_ttl : Z;
  out_interface : bool;
  out_unicast : bool;
  out_payload : overlay_buffer;
}.
Definition PAYLOAD_TTL_DEFAULT : Z := 31.

(** [unicast] says whether create_unicast_destination succeeds, [enqueue] whether
    the frame is accepted. Returns the frame that was queued. *)
Definition send_please_explain (enqueue : out_frame → bool) (unicast : bool) (c : decode_context)
    (source destination : option nat) : outcome (option out_frame * Z) :=
  match please_explain c with
  | None => Ret (None, 0)
  | Some e =>
      match payload e with
      | None => Aborted
      | Some b =>
          let src := match source with Some s => Some s | None => my_subscriber end in
          let full := source_full e || bool_decide (sender c = None) in
          frame ← (if bool_decide (is_Some destination) then Ret (Out src destination true PAYLOAD_TTL_DEFAULT false false b)
                   else match interface c with
                        | Some _ => Ret (Out src destination full 1 true unicast b)
                        | None => Aborted
                        end);
          Ret (if enqueue frame then (Some frame, 0) else (None, -1))
      end
  end.

(** Every round consumes a byte of the message. *)
Fixpoint explain_loop (fuel : nat) (w : world) (b : overlay_buffer) : outcome (world * overlay_buffer * bool) :=
  match fuel with
  | O => Undef
  | S fuel =>
      n ← ob_remaining b;
      if 0 <? n then
        r ← ob_get (w_mem w) b;
        let '(b, len) := r in
        if len =? OA_CODE_P2P_YOU then
          match my_subscriber with
          | None => Undef
          | Some me => r ← add_explain_response me w; explain_loop fuel r.1 b
          end
        else if (len <=? 0) || (Z.of_nat SID_SIZE <? len) then Ret (w, b, false)
        else
          match ob_get_bytes_ptr b len with
          | (b, None) => Ret (w, b, false)
          | (b, Some p) =>
              id ← load_bytes (w_mem w) p len;
              if len =? Z.of_nat SID_SIZE then
                r ← find_subscriber alloc id SID_SIZE true (w_root w) (w_ss w);
                let '(root, ss, _) := r in
                explain_loop fuel (World (w_mem w) root ss (w_ctx w) (explained w) (ticks w) (frames w)) b
              else
                w ← prefix_matches add_explain_response w_ss (w_root w) id (Z.to_nat len) w;
                explain_loop fuel w b
          end
      else Ret (w, b, true)
  end.

(** [w] has the store; the context is cleared but for the sender and the interface
    of the frame. *)
Definition process_explain (enqueue : out_frame → bool) (unicast : bool) (w : world) (source destination : option nat)
    (iface : option overlay_interface) (b : overlay_buffer) : outcome (world * overlay_buffer * option out_frame * Z) :=
  let w := set_ctx w (Ctx iface 0 0 0 0 None source None None) in
  r ← explain_loop (S (Z.to_nat (sizeLimit b))) w b;
  let '(w, b, ok) := r in
  if negb ok then Ret (w, b, None, -1)
  else
    r ← send_please_explain enqueue unicast (w_ctx w) destination source;
    Ret (w, b, r.1, 0).

End Codec.
End OverlayAddressCodec.
