(* ===== verification/OverlayAddressRound.v ===== *)
(** * Addresses are understood

    What a sender writes into a packet for a subscriber, the receiver resolves to
    the subscriber with the same identifier; and explanations teach identifiers. *)

From S2P Require Import Prelude Mem OverlayBuffer OverlayBufferSpec OverlayBufferCodec OverlayBufferFill StrCtype StrNum StrScan DataFormats OverlayAddress OverlayAddressTree OverlayAddressCodec.
Import OB OBSpec OBCodec OBFill DataFormats OverlayAddress OverlayAddressTree OverlayAddressCodec.

Module OverlayAddressRound.
Section Round.
Context {arch : Arch} {allocator : Allocator}.

(** ** The two ends of a link *)

(** The same identifier in two stores. *)
Definition same_sid_at (ssA ssB : store) (a b : nat) : Prop :=
  ∃ x y, ssA !! a = Some x ∧ ssB !! b = Some y ∧ sid x = sid y.
Definition resolves (ssA ssB : store) (a b : option nat) : Prop :=
  match a, b with Some a, Some b => same_sid_at ssA ssB a b | None, None => True | _, _ => False end.

(** The contexts of the encoder [A] and the decoder [B] agree: on a point-to-point
    link each is the device of the other. *)
Record linked (myA myB : option nat) (ssA ssB : store) (cA cB : decode_context) : Prop := {
  lk_sender : resolves ssA ssB (sender cA) (sender cB);
  lk_previous : resolves ssA ssB (previous cA) (previous cB);
  lk_p2p : match point_to_point_device cA, point_to_point_device cB with
           | Some _, Some _ => resolves ssA ssB (point_to_point_device cA) myB ∧ resolves ssA ssB myA (point_to_point_device cB)
           | None, None => True
           | _, _ => False
           end;
}.

(** [B] knows the subscriber, and needs little more of it than [A]. *)
Definition understood (ssA ssB : store) (a : nat) : Prop :=
  ∃ b x y, ssA !! a = Some x ∧ ssB !! b = Some y ∧ sid x = sid y ∧ (abbreviate_len y ≤ S (abbreviate_len x))%nat.

(** ** Encoding *)

Lemma abbreviation_range ctx sub : (0 < abbreviation ctx sub ≤ SID_SIZE)%nat.
Proof.
  unfold abbreviation. destruct (send_full sub); [unfold SID_SIZE; lia|].
  assert (0 < Nat.div2 (abbreviate_len sub + 2))%nat by
    (pose proof (Nat.div2_odd (abbreviate_len sub + 2)) as Ho; destruct (Nat.odd _); simpl in Ho; lia).
  case_bool_decide; [unfold SID_SIZE; lia|]. split; [|lia].
  destruct ctx as [c|]; [destruct (has_flag c _)|]; lia.
Qed.
Lemma abbreviation_enough ctx sub y : (abbreviate_len y ≤ S (abbreviate_len sub))%nat → (abbreviate_len y ≤ 2 * SID_SIZE)%nat →
  (abbreviate_len y ≤ 2 * abbreviation ctx sub)%nat.
Proof.
  intros H1 H2. unfold abbreviation. destruct (send_full sub); [done|].
  assert (S (abbreviate_len sub) ≤ 2 * Nat.div2 (abbreviate_len sub + 2))%nat as Hd.
  { pose proof (Nat.div2_odd (abbreviate_len sub + 2)) as Ho. destruct (Nat.odd _); simpl in Ho; lia. }
  case_bool_decide; [done|]. destruct ctx as [c|]; [destruct (has_flag c _)|]; lia.
Qed.

(** What is written for a subscriber. *)
Definition address_bytes (code : option Z) (ctx : option decode_context) (sub : subscriber) : list Z :=
  match code with
  | Some code => [code]
  | None => Z.of_nat (abbreviation ctx sub) :: take (abbreviation ctx sub) (sid sub)
  end.
Lemma address_bytes_length code ctx sub : is_sid (sid sub) → (0 < length (address_bytes code ctx sub) ≤ 33)%nat.
Proof.
  intros [Hl _]. pose proof (abbreviation_range ctx sub). unfold SID_SIZE in *.
  destruct code; simpl; [lia|]. rewrite length_take. lia.
Qed.

Lemma append_spec W my ctx m b w ss s sub code : appends W → W m b w → ss !! s = Some sub → is_sid (sid sub) →
  address_code my ctx s sub = Ret code → Z.of_nat (length w) + 33 + 2 ^ 17 ≤ SIZE_MAX →
  ∃ m' b' ss', overlay_address_append my ctx m b ss (Some s) = Ret ((λ c, set_previous c (Some s)) <$> ctx, m', b', ss') ∧
    W m' b' (w ++ address_bytes code ctx sub) ∧ Forall2 same_address ss ss'.
Proof.
  intros Hm Hw Hs Hsid Hc Hmax. unfold overlay_address_append. rewrite Hs, Hc, bind_ret_l.
  assert (Forall2 same_address ss ss) as Hrefl by (by apply Forall_Forall2_diag, Forall_true).
  assert (∀ x, Forall2 same_address ss (<[s := set_send_full sub x]> ss)) as Hset.
  { intros x. rewrite <- (list_insert_id ss s sub Hs) at 1. apply Forall2_insert; [done|done]. }
  destruct code as [code|]; cbn [address_bytes].
  - unfold ob_append_byte. destruct (Hm m b w [code] Hw ltac:(done)) as (m1 & b1 & -> & Hw1); [simpl; lia|].
    rewrite !bind_ret_l. eexists _, _, _. split; [reflexivity|]. done.
  - pose proof (abbreviation_range ctx sub) as Hr. unfold ob_append_byte, ob_append_bytes. set (len := abbreviation ctx sub) in *.
    destruct (Hm m b w [Z.of_nat len] Hw ltac:(done)) as (m1 & b1 & -> & Hw1); [simpl; lia|]. rewrite bind_ret_l.
    destruct Hsid as [Hl _]. rewrite bool_decide_true by lia.
    assert (length (take len (sid sub)) = len) as Hlt by (rewrite length_take; lia).
    rewrite Hlt, (proj2 (Z.ltb_lt _ _)) by lia.
    destruct (Hm m1 b1 _ (take len (sid sub)) Hw1) as (m2 & b2 & -> & Hw2).
    { intros E. apply (f_equal length) in E. rewrite Hlt in E. simpl in E. lia. }
    { rewrite length_app, Hlt. unfold SID_SIZE in Hr. simpl. lia. }
    rewrite !bind_ret_l. eexists _, _, _. split; [reflexivity|]. split; [by rewrite <- app_assoc in Hw2|].
    destruct (send_full sub); [apply Hset|done].
Qed.

(** ** Decoding *)

(** Taking bytes from a packet by their address. *)
Lemma get_ptr_reading m b x bs y : reading m b (x ++ bs ++ y) (length x) → bs ≠ [] →
  ∃ b' p, ob_get_bytes_ptr b (Z.of_nat (length bs)) = (b', Some p) ∧ load_bytes m p (Z.of_nat (length bs)) = Ret bs ∧
    reading m b' (x ++ bs ++ y) (length (x ++ bs)).
Proof.
  intros Hr Hne. destruct (reading_next m b x bs y Hr Hne) as (Ht & Hrd & Hr'). unfold ob_get_bytes_ptr, cur_ptr, read_at in *.
  rewrite Ht. destruct (bytes b) as [p|]; [|done]. eexists _, _. done.
Qed.

(** A subscriber that is known is found by enough of its identifier. *)
Lemma known_found alloc root ss t y len : tree_reachable root ss → ss !! t = Some y → (0 < len ≤ SID_SIZE)%nat →
  (abbreviate_len y ≤ 2 * len)%nat →
  find_subscriber alloc (take len (sid y)) len true root ss = Ret (root, ss, Some t).
Proof.
  intros Hr Ht Hlen Ha. pose proof (tree_reachable_inv _ _ Hr) as Hi. destruct (ti_known _ _ Hi t y Ht) as [Hsid Hlk].
  destruct (decide (len = SID_SIZE)) as [->|Hne].
  - rewrite take_ge by (destruct Hsid; lia).
    destruct (find_full alloc (sid y) root ss Hi Hsid) as (root' & ss' & ret & -> & _ & _ & Hm).
    assert (sid y ∈ sid <$> ss) as Hin by (apply list_elem_of_fmap; exists y; split; [done|by eapply list_elem_of_lookup_2]).
    destruct ret as [s|]; [|by destruct Hm as [Hm _]]. destruct Hm as [(z & Hz & Ez) [(_ & -> & ->)|[Hm _]]]; [|done].
    pose proof (known_sid _ _ s z (sid y) Hi Hz Ez) as L. rewrite Hlk in L. by injection L as ->.
  - assert (length (take len (sid y)) = len) as Hl by (destruct Hsid; rewrite length_take; lia).
    destruct (find_part alloc (take len (sid y)) len true root ss Hi Hlen) as (r & -> & Hs & _);
      [lia|apply Forall_take, Hsid|by right|].
    f_equal. f_equal. apply Hs. exists y. split_and!; [done|by rewrite take_take, Nat.min_id|done].
Qed.

Lemma address_code_cases my c s sub : is_Some (interface c) → ∃ code, address_code my (Some c) s sub = Ret code ∧
  match code with
  | Some k => k = OA_CODE_P2P_YOU ∧ point_to_point_device c = Some s ∨
              k = OA_CODE_P2P_ME ∧ my = Some s ∧ is_Some (point_to_point_device c) ∨
              k = OA_CODE_SELF ∧ sender c = Some s ∨ k = OA_CODE_PREVIOUS ∧ previous c = Some s
  | None => True
  end.
Proof.
  intros [e He]. unfold address_code. case_bool_decide as H1; [eexists; split; [done|]; by left|].
  assert (∃ me, is_p2p_me my c s sub = Ret me ∧ (me = true → my = Some s ∧ is_Some (point_to_point_device c))) as (me & -> & Hme).
  { unfold is_p2p_me, local_echo. rewrite He. case_bool_decide as E1; [|rewrite andb_false_r; eauto; by exists false].
    case_bool_decide as E2; [|rewrite andb_false_r; by exists false].
    destruct (send_full sub); [by exists false|]. cbn [negb andb]. destruct (negb _); [by exists true|]. rewrite bind_ret_l. by exists (negb (if_local_echo e)). }
  rewrite bind_ret_l. eexists. split; [reflexivity|]. destruct me; [right; left; split; [done|by apply Hme]|].
  case_bool_decide; [do 2 right; by left|]. case_bool_decide; [do 3 right; done|done].
Qed.

Variables (myA myB : option nat) (gettime_ms : nat → Z) (frame_alloc alloc : nat → bool).

(** A part of the identifier is resolved. *)
Lemma parse_abbreviated ctx x w b sub0 t y pre post : tree_reachable (w_root w) (w_ss w) → is_sid (sid x) → w_ss w !! t = Some y → sid x = sid y → (abbreviate_len y ≤ S (abbreviate_len x))%nat →
  reading (w_mem w) b (pre ++ address_bytes None ctx x ++ post) (length pre) →
  ∃ b', overlay_address_parse myB gettime_ms frame_alloc alloc w b sub0 = Ret (set_ctx w (set_previous (w_ctx w) (Some t)), b', Some t, 0) ∧
    reading (w_mem w) b' (pre ++ address_bytes None ctx x ++ post) (length (pre ++ address_bytes None ctx x)).
Proof.
  intros Hr Hsid Ht Esid Hab Hrd. unfold overlay_address_parse. cbn [address_bytes] in *.
  pose proof (abbreviation_range ctx x) as Hlen. set (len := abbreviation ctx x) in *.
  change (Z.of_nat len :: take len (sid x)) with ([Z.of_nat len] ++ take len (sid x)) in Hrd |- *. rewrite <- app_assoc in Hrd.
  destruct (ob_get_reading _ _ _ _ _ Hrd) as (b1 & -> & Hrd1). rewrite bind_ret_l.
  unfold SID_SIZE in Hlen. unfold OA_CODE_P2P_YOU, OA_CODE_P2P_ME, OA_CODE_SELF, OA_CODE_PREVIOUS.
  rewrite (proj2 (Z.ltb_ge _ _)), !(proj2 (Z.eqb_neq _ _)) by lia. unfold find_subscr_buffer.
  rewrite (proj2 (Z.leb_gt _ _)), (proj2 (Z.ltb_ge _ _)) by (unfold SID_SIZE; lia). cbn [orb].
  assert (length (take len (sid x)) = len) as Hl by (destruct Hsid as [Hl _]; rewrite length_take; unfold SID_SIZE in Hl; lia).
  change (pre ++ Z.of_nat len :: take len (sid x) ++ post) with (pre ++ [Z.of_nat len] ++ take len (sid x) ++ post) in Hrd1.
  rewrite app_assoc in Hrd1.
  destruct (get_ptr_reading _ _ _ _ _ Hrd1) as (b2 & p & Hp & Hld & Hrd2).
  { intros E. rewrite E in Hl. simpl in Hl. lia. }
  rewrite Hl in Hp, Hld. rewrite Hp, Hld, bind_ret_l, Nat2Z.id, Esid.
  rewrite (known_found alloc _ _ t y len Hr Ht), bind_ret_l.
  2: { unfold SID_SIZE. lia. }
  2: { apply abbreviation_enough; [done|]. destruct (tree_reachable_inv _ _ Hr) as [Hw Hk]. destruct (Hk t y Ht) as [Hy Hlk].
       by eapply (abbreviate_bound (w_ss w) [] (Tree (w_root w))). }
  exists b2. split; [by destruct w|].
  rewrite Esid in Hrd2. cbn [app] in *. rewrite <- !app_assoc in Hrd2. cbn [app] in Hrd2. exact Hrd2.
Qed.

Lemma parse_spec ssA cA s x code w b sub0 pre post : tree_reachable (w_root w) (w_ss w) →
  linked myA myB ssA (w_ss w) cA (w_ctx w) → ssA !! s = Some x → is_sid (sid x) → understood ssA (w_ss w) s →
  is_Some (interface cA) → address_code myA (Some cA) s x = Ret code →
  reading (w_mem w) b (pre ++ address_bytes code (Some cA) x ++ post) (length pre) →
  ∃ b' t, overlay_address_parse myB gettime_ms frame_alloc alloc w b sub0 =
      Ret (set_ctx w (set_previous (w_ctx w) (Some t)), b', Some t, 0) ∧
    same_sid_at ssA (w_ss w) s t ∧
    reading (w_mem w) b' (pre ++ address_bytes code (Some cA) x ++ post) (length (pre ++ address_bytes code (Some cA) x)).
Proof.
  intros Hr [Ls Lp Ld] Hs Hsid (t & x' & y & Hs' & Ht & Esid & Hab) Hif Hc Hrd. rewrite Hs in Hs'. injection Hs' as <-.
  destruct (address_code_cases myA cA s x Hif) as (code' & Hc' & Hcode). rewrite Hc in Hc'. injection Hc' as <-.
  unfold overlay_address_parse. destruct code as [k|]; cbn [address_bytes] in *.
  - destruct (ob_get_reading _ _ _ _ _ Hrd) as (b1 & -> & Hrd1). rewrite bind_ret_l. exists b1.
    destruct Hcode as [[-> E]|[(-> & E & P)|[[-> E]|[-> E]]]]; cbn [Z.ltb Z.eqb Z.compare].
    + rewrite E in Ld. destruct (point_to_point_device (w_ctx w)) as [d|]; [|done]. destruct Ld as [Ld _].
      rewrite bool_decide_true by eauto. destruct myB as [u|]; [|done]. by exists u.
    + destruct P as [d P]. rewrite P in Ld. destruct (point_to_point_device (w_ctx w)) as [u|]; [|done]. destruct Ld as [_ Ld].
      rewrite E in Ld. by exists u.
    + rewrite E in Ls. destruct (sender (w_ctx w)) as [u|]; [|done]. by exists u.
    + rewrite E in Lp. destruct (previous (w_ctx w)) as [u|] eqn:Eu; [|done]. exists u.
      split; [|done]. unfold set_previous, set_ctx. rewrite <- Eu. by destruct w as [? ? ? [] ? ? ?].
  - destruct (parse_abbreviated (Some cA) x w b sub0 t y pre post Hr Hsid Ht Esid Hab Hrd) as (b' & E & Hrd'). exists b', t. split; [exact E|]. split; [by exists x, y|exact Hrd'].
Qed.

(** ** Packets of addresses *)

Fixpoint append_all (c : decode_context) (m : mem) (b : overlay_buffer) (ss : store) (l : list nat) :
    outcome (decode_context * mem * overlay_buffer * store) :=
  match l with
  | [] => Ret (c, m, b, ss)
  | s :: l =>
      r ← overlay_address_append myA (Some c) m b ss (Some s);
      match r with
      | (Some c, m, b, ss) => append_all c m b ss l
      | (None, _, _, _) => Undef
      end
  end.
Fixpoint parse_all (n : nat) (w : world) (b : overlay_buffer) : outcome (world * overlay_buffer * list (option nat * Z)) :=
  match n with
  | O => Ret (w, b, [])
  | S n =>
      r ← overlay_address_parse myB gettime_ms frame_alloc alloc w b None;
      let '(w, b, s, v) := r in
      r ← parse_all n w b;
      let '(w, b, l) := r in Ret (w, b, (s, v) :: l)
  end.

(** The pieces that are written for a list of subscribers. *)
Inductive script : decode_context → store → list nat → list (list Z) → Prop :=
| sc_nil c ss : script c ss [] []
| sc_cons c ss s l x code ss' chunks : ss !! s = Some x → is_sid (sid x) → is_Some (interface c) →
    address_code myA (Some c) s x = Ret code → Forall2 same_address ss ss' → script (set_previous c (Some s)) ss' l chunks →
    script c ss (s :: l) (address_bytes code (Some c) x :: chunks).

Definition all_sids (ss : store) : Prop := Forall (λ x, is_sid (sid x)) ss.
Lemma same_all_sids ss ss' : Forall2 same_address ss ss' → all_sids ss → all_sids ss'.
Proof.
  intros H2 H1. unfold all_sids in *. apply Forall_lookup. intros i y Hy. destruct (Forall2_lookup_r _ _ _ _ _ H2 Hy) as (x & Hx & [E _]).
  rewrite <- E. rewrite Forall_lookup in H1. by apply (H1 i x).
Qed.

Lemma append_all_spec l c m b w ss : malloc_total → writing m b w → all_sids ss → Forall (λ s, s < length ss)%nat l →
  is_Some (interface c) → Z.of_nat (length w) + 33 * Z.of_nat (length l) + 2 ^ 17 ≤ SIZE_MAX →
  ∃ c' m' b' ss' chunks, append_all c m b ss l = Ret (c', m', b', ss') ∧ writing m' b' (w ++ concat chunks) ∧
    script c ss l chunks ∧ (length (concat chunks) ≤ 33 * length l)%nat.
Proof.
  intros Hm. revert c m b w ss. induction l as [|s l IH]; intros c m b w ss Hw Hsids Hl Hif Hmax.
  { eexists _, _, _, _, []. split_and!; [reflexivity|by rewrite app_nil_r|constructor|done]. }
  apply Forall_cons in Hl as [Hlt Hl]. destruct (lookup_lt_is_Some_2 ss s Hlt) as [x Hx].
  assert (is_sid (sid x)) as Hsid by (unfold all_sids in Hsids; rewrite Forall_lookup in Hsids; by eapply Hsids).
  destruct (address_code_cases myA c s x Hif) as (code & Hc & _). cbn [append_all length] in *.
  destruct (append_spec writing myA (Some c) m b w ss s x code (writing_appends Hm) Hw Hx Hsid Hc) as (m1 & b1 & ss1 & -> & Hw1 & Hs1); [lia|].
  rewrite bind_ret_l. cbn [fmap option_fmap option_map].
  pose proof (address_bytes_length code (Some c) x Hsid) as Hbl.
  destruct (IH (set_previous c (Some s)) m1 b1 _ ss1 Hw1) as (c2 & m2 & b2 & ss2 & chunks & -> & Hw2 & Hsc & Hcl); try done.
  { by eapply same_all_sids. }
  { eapply Forall_impl; [exact Hl|]. intros i Hi. simpl. by rewrite <- (Forall2_length _ _ _ Hs1). }
  { rewrite length_app. lia. }
  eexists _, _, _, _, (_ :: chunks). split_and!; [reflexivity|cbn [concat]; by rewrite app_assoc|by econstructor|].
  cbn [concat length]. rewrite length_app. lia.
Qed.

Lemma same_sid_change ssA ssA' ssB a b : Forall2 same_address ssA ssA' → same_sid_at ssA ssB a b → same_sid_at ssA' ssB a b.
Proof.
  intros H2 (x & y & Hx & Hy & E). destruct (Forall2_lookup_l _ _ _ _ _ H2 Hx) as (x' & Hx' & [E' _]).
  exists x', y. split_and!; [done|done|congruence].
Qed.
Lemma resolves_change ssA ssA' ssB a b : Forall2 same_address ssA ssA' → resolves ssA ssB a b → resolves ssA' ssB a b.
Proof. intros H2. unfold resolves. destruct a, b; try done. by apply same_sid_change. Qed.
Lemma understood_change ssA ssA' ssB a : Forall2 same_address ssA ssA' → understood ssA ssB a → understood ssA' ssB a.
Proof.
  intros H2 (b & x & y & Hx & Hy & E & Ha). destruct (Forall2_lookup_l _ _ _ _ _ H2 Hx) as (x' & Hx' & [E1 E2]).
  exists b, x', y. split_and!; [done|done|congruence|lia].
Qed.
Lemma linked_next ssA ssA' ssB cA cB s t : linked myA myB ssA ssB cA cB → Forall2 same_address ssA ssA' →
  same_sid_at ssA ssB s t → linked myA myB ssA' ssB (set_previous cA (Some s)) (set_previous cB (Some t)).
Proof.
  intros [Ls Lp Ld] H2 Hst. split; cbn [sender previous point_to_point_device set_previous].
  - by eapply resolves_change.
  - by eapply same_sid_change.
  - destruct (point_to_point_device cA), (point_to_point_device cB); try done.
    destruct Ld as [L1 L2]. split; by eapply resolves_change.
Qed.

Lemma parse_all_spec c ss l chunks w b pre : script c ss l chunks → tree_reachable (w_root w) (w_ss w) →
  linked myA myB ss (w_ss w) c (w_ctx w) → Forall (understood ss (w_ss w)) l →
  reading (w_mem w) b (pre ++ concat chunks) (length pre) →
  ∃ w' b' ts, parse_all (length l) w b = Ret (w', b', (λ t, (Some t, 0)) <$> ts) ∧
    w_root w' = w_root w ∧ w_ss w' = w_ss w ∧ Forall2 (same_sid_at ss (w_ss w)) l ts ∧
    reading (w_mem w) b' (pre ++ concat chunks) (length (pre ++ concat chunks)).
Proof.
  intros Hsc. revert w b pre. induction Hsc as [c ss|c ss s l x code ss' chunks Hx Hsid Hif Hc H2 _ IH]; intros w b pre Hr Hlk Hun Hrd.
  { exists w, b, []. split_and!; [done..|constructor|by rewrite app_nil_r in *]. }
  apply Forall_cons in Hun as [Hu Hun]. cbn [concat] in *. cbn [length parse_all].
  destruct (parse_spec ss c s x code w b None pre (concat chunks) Hr Hlk Hx Hsid Hu Hif Hc Hrd) as (b1 & t & -> & Hst & Hrd1).
  rewrite bind_ret_l. rewrite app_assoc in Hrd1.
  destruct (IH (set_ctx w (set_previous (w_ctx w) (Some t))) b1 (pre ++ address_bytes code (Some c) x)) as (w2 & b2 & ts & -> & E1 & E2 & Hts & Hrd2); try done.
  { by eapply linked_next. }
  { eapply Forall_impl; [exact Hun|]. intros i. by apply understood_change. }
  rewrite bind_ret_l. exists w2, b2, (t :: ts). split_and!; [done|done|done| |by rewrite app_assoc].
  constructor; [done|]. cbn [w_ss set_ctx] in Hts.
  assert (Forall2 same_address ss' ss) as H2' by (apply Forall2_flip; eapply Forall2_impl; [exact H2|]; by intros ? ? [-> ->]).
  eapply Forall2_impl; [exact Hts|]. intros a b'. by apply same_sid_change.
Qed.

(** C14: a packet of addresses is understood: for every list of subscribers, in
    whatever way each is written (as a code of the point-to-point link, as the
    sender, as the previous address, as an abbreviation or in full), a receiver
    whose context agrees with the sender's and that knows the subscribers, with
    abbreviations at most a nibble longer, reads back the subscribers with the same
    identifiers and consumes exactly the packet; its tree does not change. *)
Theorem addresses_roundtrip l cA m b ssA rootB ssB cB ex tk fr : malloc_total → ob_new m = Some b →
  all_sids ssA → Forall (λ s, s < length ssA)%nat l → is_Some (interface cA) →
  33 * Z.of_nat (length l) + 2 ^ 17 ≤ SIZE_MAX →
  tree_reachable rootB ssB → linked myA myB ssA ssB cA cB → Forall (understood ssA ssB) l →
  ∃ cA' m' b1 ssA' b2 w' b3 ts,
    append_all cA m b ssA l = Ret (cA', m', b1, ssA') ∧ ob_flip b1 = Ret b2 ∧
    parse_all (length l) (World m' rootB ssB cB ex tk fr) b2 = Ret (w', b3, (λ t, (Some t, 0)) <$> ts) ∧
    Forall2 (same_sid_at ssA ssB) l ts ∧ w_root w' = rootB ∧ w_ss w' = ssB ∧ ob_remaining b3 = Ret 0.
Proof.
  intros Hm Hb Hsids Hl Hif Hmax Hr Hlk Hun.
  destruct (append_all_spec l cA m b [] ssA Hm (writing_new m b Hb) Hsids Hl Hif) as (cA' & m' & b1 & ssA' & chunks & Ha & Hw & Hsc & Hcl);
    [simpl; lia|]. cbn [app] in Hw. pose proof SIZE_MAX_pos as Hsz.
  destruct (flip_reading m' b1 _ Hw) as (b2 & Hf & Hrd); [lia|].
  destruct (parse_all_spec cA ssA l chunks (World m' rootB ssB cB ex tk fr) b2 [] Hsc Hr Hlk Hun Hrd)
    as (w' & b3 & ts & Hp & E1 & E2 & Hts & [_ Hlim Hpos _ _]). cbn [app] in *.
  exists cA', m', b1, ssA', b2, w', b3, ts. split_and!; try done.
  unfold ob_remaining. rewrite Hlim, Hpos. rewrite (proj2 (Z.eqb_neq _ _)) by lia. cbn [negb].
  rewrite (proj2 (Z.leb_le _ _)) by lia. f_equal. lia.
Qed.

(** ** Learning identifiers *)

Definition explanation (ids : list (list Z)) : list Z := ids ≫= λ id, Z.of_nat SID_SIZE :: id.

Definition knows (ss : store) (id : list Z) : Prop := ∃ s x, ss !! s = Some x ∧ sid x = id.
Lemma knows_more ss ss' id : (∀ s sub, ss !! s = Some sub → ∃ n, ss' !! s = Some (set_abbreviate_len sub n)) →
  knows ss id → knows ss' id.
Proof. intros Hm (s & x & Hs & E). destruct (Hm s x Hs) as [n Hn]. by eexists _, _. Qed.

Lemma explain_loop_spec ids fuel w b pre : (∀ i, alloc i = true) → Forall is_sid ids → tree_reachable (w_root w) (w_ss w) →
  reading (w_mem w) b (pre ++ explanation ids) (length pre) → Z.of_nat (length (pre ++ explanation ids)) < SIZE_MAX →
  (length ids < fuel)%nat →
  ∃ w' b', explain_loop myB gettime_ms frame_alloc alloc fuel w b = Ret (w', b', true) ∧ w_ctx w' = w_ctx w ∧
    tree_reachable (w_root w') (w_ss w') ∧ Forall (knows (w_ss w')) ids ∧ (∀ id, knows (w_ss w) id → knows (w_ss w') id) ∧
    (∀ id, knows (w_ss w') id → knows (w_ss w) id ∨ id ∈ ids).
Proof.
  intros Hal Hids. revert fuel w b pre. induction Hids as [|id ids Hid _ IH]; intros fuel w b pre Hr Hrd Hmax Hf;
    (destruct fuel as [|fuel]; [lia|]); cbn [explain_loop].
  - cbn [explanation mbind list_bind] in *. rewrite app_nil_r in *. destruct Hrd as [_ Hlim Hpos _ _].
    unfold ob_remaining. rewrite Hlim, Hpos, (proj2 (Z.eqb_neq _ _)), (proj2 (Z.leb_le _ _)) by lia. cbn [negb].
    rewrite bind_ret_l, Z.sub_diag. exists w, b. split_and!; [done..|constructor|done|by left].
  - change (explanation (id :: ids)) with (Z.of_nat SID_SIZE :: id ++ explanation ids) in *.
    pose proof Hrd as [_ Hlim Hpos _ _]. unfold ob_remaining.
    rewrite Hlim, Hpos, (proj2 (Z.eqb_neq _ _)), (proj2 (Z.leb_le _ _)) by (rewrite ?length_app in *; simpl in *; lia).
    cbn [negb]. rewrite bind_ret_l, (proj2 (Z.ltb_lt 0 _)) by (rewrite length_app; simpl; lia).
    destruct (ob_get_reading _ _ _ _ _ Hrd) as (b1 & -> & Hrd1). rewrite bind_ret_l.
    change (Z.of_nat SID_SIZE =? OA_CODE_P2P_YOU) with false. change (Z.of_nat SID_SIZE <=? 0) with false.
    rewrite Z.ltb_irrefl. cbn [orb]. destruct Hid as [Hl Hb].
    change (pre ++ Z.of_nat SID_SIZE :: id ++ explanation ids) with (pre ++ [Z.of_nat SID_SIZE] ++ id ++ explanation ids) in *.
    rewrite app_assoc in Hrd1.
    destruct (get_ptr_reading _ _ _ _ _ Hrd1) as (b2 & p & Hp & Hld & Hrd2); [by intros ->|].
    rewrite Hl in Hp, Hld. rewrite Hp, Hld, bind_ret_l, Z.eqb_refl.
    destruct (find_full alloc id (w_root w) (w_ss w) (tree_reachable_inv _ _ Hr)) as (root' & ss' & ret & Hfind & _ & Hmore & Hret); [done|].
    rewrite Hfind, bind_ret_l. destruct ret as [s|]; [|by destruct Hret as (_ & _ & Hn)].
    destruct Hret as ((x & Hx & Ex) & Hnew).
    assert (tree_reachable root' ss') as Hr'.
    { apply (tr_find (w_root w) (w_ss w) alloc id SID_SIZE true root' ss' (Some s) Hr); [done|unfold SID_SIZE; lia|lia|done|done]. }
    rewrite app_assoc in Hrd2.
    destruct (IH fuel (World (w_mem w) root' ss' (w_ctx w) (explained w) (ticks w) (frames w)) b2 ((pre ++ [Z.of_nat SID_SIZE]) ++ id))
      as (w' & b' & He & Ec & Hr2 & Hall & Hkeep & Honly); [done| | |simpl in Hf; lia|].
    { exact Hrd2. }
    { rewrite !length_app in *. lia. }
    exists w', b'. split; [exact He|]. split_and!; [done|done| | |].
    + apply Forall_cons. split; [|done]. apply Hkeep. by exists s, x.
    + intros id' Hk. apply Hkeep. by eapply knows_more.
    + intros id' Hk. destruct (Honly id' Hk) as [(s' & x' & Hs' & Ex')|Hin]; [|right; by right]. cbn [w_ss] in Hs'.
      destruct Hnew as [(_ & _ & ->)|(_ & -> & Hlen)]; [left; by exists s', x'|].
      destruct (decide (s' = length (w_ss w))) as [->|Hne]; [right; apply elem_of_cons; left; congruence|left].
      pose proof (lookup_lt_Some _ _ _ Hs') as Hlt. destruct (lookup_lt_is_Some_2 (w_ss w) s') as [x0 Hx0]; [lia|].
      destruct (Hmore s' x0 Hx0) as [n Hn]. exists s', x0. split; [done|]. rewrite Hn in Hs'. injection Hs' as <-. done.
Qed.

(** C28: a message of explanations teaches exactly the identifiers in it: after it
    is processed every one of them is known, what was known stays known, nothing
    else is, and no answer is sent. *)
Theorem explanations_learned ids enqueue unicast w source destination iface b : (∀ i, alloc i = true) → Forall is_sid ids →
  tree_reachable (w_root w) (w_ss w) → reading (w_mem w) b (explanation ids) 0 →
  Z.of_nat (length (explanation ids)) < SIZE_MAX →
  ∃ w' b', process_explain myB gettime_ms frame_alloc alloc enqueue unicast w source destination iface b = Ret (w', b', None, 0) ∧
    tree_reachable (w_root w') (w_ss w') ∧ ∀ id, knows (w_ss w') id ↔ knows (w_ss w) id ∨ id ∈ ids.
Proof.
  intros Hal Hids Hr Hrd Hmax. unfold process_explain. pose proof Hrd as [_ Hlim _ _ _].
  destruct (explain_loop_spec ids (S (Z.to_nat (sizeLimit b))) (set_ctx w (Ctx iface 0 0 0 0 None source None None)) b [])
    as (w' & b' & -> & Ec & Hr' & Hall & Hkeep & Honly); try done.
  { rewrite Hlim, Nat2Z.id. clear. enough (length ids ≤ length (explanation ids))%nat by lia.
    induction ids as [|id ids IH]; [done|]. unfold explanation in *. cbn [mbind list_bind app length]. rewrite length_app. lia. }
  rewrite bind_ret_l. cbn [negb]. unfold send_please_explain. rewrite Ec. cbn [please_explain w_ctx set_ctx]. rewrite bind_ret_l.
  exists w', b'. split_and!; [done|done|]. intros id. split; [apply Honly|]. intros [Hk|Hin]; [by apply Hkeep|].
  rewrite Forall_forall in Hall. by apply Hall.
Qed.

End Round.
(** A link between two nodes that know one subscriber, which is written twice: as
    an abbreviation and as the previous address. *)
Definition plain_interface : overlay_interface := Interface false false None.
Definition plain_context : decode_context := Ctx (Some plain_interface) 0 0 0 0 None None None None.

Lemma addresses_roundtrip_witness :
  ∃ b cA' m' b1 ssA' b2 w' b3, @ob_new arm64 calloc_allocator ∅ = Some b ∧
    @append_all arm64 calloc_allocator None plain_context ∅ b store_a [0; 0]%nat = Ret (cA', m', b1, ssA') ∧
    @ob_flip arm64 b1 = Ret b2 ∧
    @parse_all arm64 calloc_allocator None (λ _, 0) (λ _, true) (λ _, true) 2
      (World m' root_a store_a plain_context [] 0 0) b2 = Ret (w', b3, [(Some 0%nat, 0); (Some 0%nat, 0)]).
Proof.
  set (b := @Buf None 0 0 (@SIZE_MAX arm64) 0 None). exists b.
  assert (all_sids store_a) as Hs by (apply Forall_cons; split; [split; by apply (bool_decide_unpack _)|by apply Forall_nil]).
  assert (understood store_a store_a 0) as Hu by (exists 0%nat, (new_subscriber sid_a 1), (new_subscriber sid_a 1); split_and!; [done..|simpl; lia]).
  assert (linked None None store_a store_a plain_context plain_context) as Hl by done.
  destruct (@addresses_roundtrip arm64 calloc_allocator None None (λ _, 0) (λ _, true) (λ _, true) [0; 0]%nat plain_context ∅ b store_a
    root_a store_a plain_context [] 0 0 calloc_total eq_refl Hs ltac:(by apply (bool_decide_unpack _)) ltac:(by eexists)
    ltac:(vm_compute; congruence) reachable_a Hl ltac:(repeat (apply Forall_cons; split; [exact Hu|]); by apply Forall_nil))
    as (cA' & m' & b1 & ssA' & b2 & w' & b3 & ts & Ha & Hf & Hp & Hts & _).
  exists cA', m', b1, ssA', b2, w', b3. split_and!; [reflexivity|exact Ha|exact Hf|].
  assert (ts = [0; 0]%nat) as ->; [|exact Hp].
  assert (∀ t, same_sid_at store_a store_a 0 t → t = 0%nat) as H0.
  { intros t (x & y & _ & Hy & _). apply lookup_lt_Some in Hy. simpl in Hy. lia. }
  apply Forall2_cons_inv_l in Hts as (t1 & ts1 & H1 & Hts & ->). apply Forall2_cons_inv_l in Hts as (t2 & ts2 & H2 & Hts & ->).
  apply Forall2_nil_inv_l in Hts as ->. by rewrite (H0 t1 H1), (H0 t2 H2).
Defined.

(** A message with one explanation, in a buffer over its bytes. *)
Lemma explanations_learned_witness :
  let bytes := explanation [sid_b] in
  let m : mem := {[ 0%nat := bytes ]} in
  let b := @Buf (Some (Ptr 0 0)) 0 0 33 33 None in
  ∃ w' b', @process_explain arm32 calloc_allocator None (λ _, 0) (λ _, true) (λ _, true) (λ _, true) false
      (World m root_a store_a plain_context [] 0 0) (Some 0%nat) None (Some plain_interface) b = Ret (w', b', None, 0) ∧
    knows (w_ss w') sid_b.
Proof.
  intros bytes m b.
  destruct (@explanations_learned arm32 calloc_allocator None (λ _, 0) (λ _, true) (λ _, true) [sid_b] (λ _, true) false
    (World m root_a store_a plain_context [] 0 0) (Some 0%nat) None (Some plain_interface) b) as (w' & b' & Hp & _ & Hk).
  - done.
  - apply Forall_cons; split; [split; by apply (bool_decide_unpack _)|by apply Forall_nil].
  - exact reachable_a.
  - split; try reflexivity. split; try (vm_compute; intuition congruence); try (left; reflexivity).
    exists bytes. by split_and!.
  - done.
  - exists w', b'. split; [exact Hp|]. apply Hk. right. by left.
Defined.

End OverlayAddressRound.
