(* ===== verification/LinkWindow.v ===== *)
(** * Sequence windows of the link state protocol (route_link.c)

    A node remembers which of the last packets and payloads of a neighbour it has
    heard, as the last sequence number and a mask of the 64 before it. On the wire
    sequence numbers are bytes; the masks come back to the neighbour as
    acknowledgements. *)

From S2P Require Import Prelude.

Module LinkWindow.

(** ** Data *)

(** struct neighbour: the fields that the handling of received payloads uses. *)
Record neighbour := Neighbour {
  n_subscriber : nat;
  using_us : bool;
  routing_through_us : Z;
  mdp_ack_sequence : Z;
  mdp_ack_mask : Z;
}.
Definition set_mdp_ack (n : neighbour) (seq mask : Z) : neighbour :=
  Neighbour (n_subscriber n) (using_us n) (routing_through_us n) seq mask.

(** struct link_in: the fields that count packets. *)
Record link_in := LinkIn { ack_sequence : Z; ack_mask : Z; ack_counter : Z }.

(** ** Duplicate payloads *)

(** The list of neighbours is searched from its head, without making a new one. *)
Definition get_neighbour (neighbours : list neighbour) (s : option nat) : option (nat * neighbour) :=
  list_find (λ n, s = Some (n_subscriber n)) neighbours.

Definition link_received_duplicate (neighbours : list neighbour) (sender : option nat) (payload_seq : Z) :
    list neighbour * bool :=
  match get_neighbour neighbours sender with
  | None => (neighbours, false)
  | Some (i, n) =>
      if mdp_ack_sequence n =? -1 then (<[i := set_mdp_ack n payload_seq (mdp_ack_mask n)]> neighbours, false)
      else if mdp_ack_sequence n =? payload_seq then (neighbours, true)
      else
        let offset := Z.land (mdp_ack_sequence n - 1 - payload_seq) 0xFF in
        if offset <? 64 then
          if negb (Z.land (mdp_ack_mask n) (Z.shiftl 1 offset) =? 0) then (neighbours, true)
          else (<[i := set_mdp_ack n (mdp_ack_sequence n) (Z.lor (mdp_ack_mask n) (Z.shiftl 1 offset))]> neighbours, false)
        else
          let offset := Z.land (payload_seq - mdp_ack_sequence n - 1) 0xFF in
          let mask := if 64 <=? offset then 0
                      else u64 (Z.shiftl (Z.lor (u64 (Z.shiftl (mdp_ack_mask n) 1)) 1) offset) in
          (<[i := set_mdp_ack n payload_seq mask]> neighbours, false)
  end.

Definition link_state_should_forward_broadcast (neighbours : list neighbour) (transmitter : option nat) (now : Z) : Z :=
  match get_neighbour neighbours transmitter with
  | None => 1
  | Some (_, n) => if using_us n && (routing_through_us n <? now) then 0 else 1
  end.

(** ** Packets and their acknowledgement *)

(** Decrementing an [int]. *)
Definition decrement (c : Z) : outcome Z := defined! (- 2 ^ 31 <? c); Ret (c - 1).

(** [while(1)]: the sequence number advances to [sender_seq]; sets the flag when a
    packet was missed. It meets every byte within 256 rounds. *)
Fixpoint missed_loop (fuel : nat) (link : link_in) (sender_seq : Z) (missed : bool) : outcome (link_in * bool) :=
  match fuel with
  | O => Undef
  | S fuel =>
      let seq := Z.land (ack_sequence link + 1) 0xFF in
      if seq =? sender_seq then Ret (LinkIn seq (ack_mask link) (ack_counter link), missed)
      else
        c ← decrement (ack_counter link);
        missed_loop fuel (LinkIn seq (u64 (Z.shiftl (ack_mask link) 1)) c) sender_seq true
  end.

(** The counting of [link_received_packet]: [None] when it reports a duplicate,
    otherwise the new counts and whether a packet was missed. *)
Definition track_sequence (link : link_in) (sender_seq : Z) : outcome (option (link_in * bool)) :=
  if 0 <=? sender_seq then
    if negb (ack_sequence link =? -1) then
      let offset := Z.land (ack_sequence link - 1 - sender_seq) 0xFF in
      if offset <? 64 then
        if negb (Z.land (ack_mask link) (Z.shiftl 1 offset) =? 0) then Ret None
        else Ret (Some (LinkIn (ack_sequence link) (Z.lor (ack_mask link) (Z.shiftl 1 offset)) (ack_counter link), false))
      else
        r ← missed_loop 256 (LinkIn (ack_sequence link) (Z.lor (u64 (Z.shiftl (ack_mask link) 1)) 1) (ack_counter link)) sender_seq false;
        Ret (Some r)
    else Ret (Some (LinkIn sender_seq (ack_mask link) (ack_counter link), false))
  else Ret (Some (link, false)).

(** What an acknowledgement says of a packet that was sent
    ([overlay_queue_ack] of overlay_queue.c). *)
Definition acked (ack_mask ack_seq frame_seq : Z) : bool :=
  let seq_delta := Z.land (ack_seq - frame_seq) 0xFF in
  (seq_delta =? 0) || ((seq_delta <=? 32) && negb (Z.land ack_mask (Z.shiftl 1 (seq_delta - 1)) =? 0)).

(** ** Windows as sets *)

(** Bit [i] of a mask. *)
Lemma mask_bit mask i : 0 ≤ i → negb (Z.land mask (Z.shiftl 1 i) =? 0) = Z.testbit mask i.
Proof.
  intros Hi. rewrite Z.shiftl_1_l. destruct (Z.testbit mask i) eqn:E.
  - apply negb_true_iff, Z.eqb_neq. intros H. assert (Z.testbit (Z.land mask (2 ^ i)) i = false) as H1 by (rewrite H; apply Z.bits_0).
    by rewrite Z.land_spec, E, Z.pow2_bits_true in H1.
  - apply negb_false_iff, Z.eqb_eq, Z.bits_inj'. intros n Hn. rewrite Z.land_spec, Z.bits_0, Z.pow2_bits_eqb by done.
    destruct (Z.eqb_spec i n) as [<-|]; [by rewrite E|apply andb_false_r].
Qed.

(** The window [(seq, mask)] of the numbers [h] heard so far, the greatest of them
    [hi]: bits are set only for numbers that were heard, and for all of them when
    [exact]. *)
Record window (exact : bool) (h : Z → Prop) (hi seq mask : Z) : Prop := {
  wn_hi : h hi;
  wn_max n : h n → n ≤ hi;
  wn_seq : seq = hi mod 256;
  wn_range : 0 ≤ mask < 2 ^ 64;
  wn_heard i : 0 ≤ i < 64 → Z.testbit mask i = true → h (hi - 1 - i);
  wn_all i : 0 ≤ i < 64 → exact = true → h (hi - 1 - i) → Z.testbit mask i = true;
}.

(** The numbers that can be told apart: less than 192 ahead, or at most 64 behind. *)
Definition near (hi n : Z) : Prop := hi - 64 ≤ n < hi + 192.

Lemma behind_offset hi n : near hi n → n < hi → Z.land (hi mod 256 - 1 - n mod 256) 0xFF = hi - 1 - n.
Proof.
  intros [H1 H2] H. rewrite land_255. replace (hi mod 256 - 1 - n mod 256) with (hi mod 256 - (n mod 256 + 1)) by lia.
  rewrite Zminus_mod_idemp_l. replace (hi - (n mod 256 + 1)) with (hi - 1 - n mod 256) by lia.
  rewrite Zminus_mod_idemp_r. apply Z.mod_small. lia.
Qed.
Lemma ahead_offset hi n : near hi n → hi < n → Z.land (hi mod 256 - 1 - n mod 256) 0xFF = 255 - (n - hi).
Proof.
  intros [H1 H2] H. rewrite land_255. replace (hi mod 256 - 1 - n mod 256) with (hi mod 256 - (n mod 256 + 1)) by lia.
  rewrite Zminus_mod_idemp_l. replace (hi - (n mod 256 + 1)) with (hi - 1 - n mod 256) by lia.
  rewrite Zminus_mod_idemp_r. symmetry. apply (Z.mod_unique _ _ (-1)); lia.
Qed.
Lemma step_offset hi n : near hi n → hi < n → Z.land (n mod 256 - hi mod 256 - 1) 0xFF = n - hi - 1.
Proof.
  intros [H1 H2] H. rewrite land_255. replace (n mod 256 - hi mod 256 - 1) with (n mod 256 - (hi mod 256 + 1)) by lia.
  rewrite Zminus_mod_idemp_l. replace (n - (hi mod 256 + 1)) with (n - 1 - hi mod 256) by lia.
  rewrite Zminus_mod_idemp_r. rewrite Z.mod_small; lia.
Qed.
Lemma same_byte hi n : near hi n → hi mod 256 = n mod 256 → n = hi.
Proof.
  intros [H1 H2] H. assert ((n - hi) mod 256 = 0) as Hm by (rewrite Zminus_mod, H, Z.sub_diag; done).
  apply Z.mod_divide in Hm as [k Hk]; lia.
Qed.

Lemma one_bit j : 0 ≤ j → Z.testbit 1 j = (j =? 0).
Proof. intros Hj. change 1 with (2 ^ 0). rewrite Z.pow2_bits_eqb by lia. apply Z.eqb_sym. Qed.

Lemma lor_one_range x : 0 ≤ Z.lor (u64 (Z.shiftl x 1)) 1 < 2 ^ 64.
Proof.
  pose proof (wrapu_range 64 (Z.shiftl x 1) ltac:(lia)) as Hr.
  replace (Z.lor (u64 (Z.shiftl x 1)) 1) with (Z.lor (u64 (Z.shiftl x 1)) 1 mod 2 ^ 64); [apply Z.mod_pos_bound; lia|].
  rewrite <- Z.land_ones, Z.land_lor_distr_l, !Z.land_ones by lia. by rewrite !(Z.mod_small _ (2 ^ 64)) by lia.
Qed.

(** Shifting a window of numbers up. *)
Lemma shifted_bits mask k i : 0 ≤ k → 0 ≤ i < 64 →
  Z.testbit (u64 (Z.shiftl mask k)) i = (k <=? i) && Z.testbit mask (i - k).
Proof.
  intros Hk Hi. unfold wrapu. rewrite mod_pow2_testbit by lia. rewrite (proj2 (Z.ltb_lt i 64)) by lia. cbn [andb].
  destruct (Z.leb_spec k i); cbn [andb]; [by rewrite Z.shiftl_spec by lia|by rewrite Z.shiftl_spec_low by lia].
Qed.

Lemma window_late exact h hi seq mask n : window exact h hi seq mask → near hi n → n < hi →
  window exact (λ x, h x ∨ x = n) hi seq (Z.lor mask (Z.shiftl 1 (hi - 1 - n))).
Proof.
  intros [H1 H2 H3 H4 H5 H6] [N1 N2] Hn. split; [by left|intros x [Hx| ->]; [by apply H2|lia]|done| | |].
  - split; [apply Z.lor_nonneg; split; [lia|apply Z.shiftl_nonneg; lia]|].
    destruct (decide (mask = 0)) as [->|Hm].
    + rewrite Z.lor_0_l, Z.shiftl_1_l. apply Z.pow_lt_mono_r; lia.
    + apply Z.log2_lt_pow2; [|rewrite Z.log2_lor, Z.shiftl_1_l, Z.log2_pow2 by (rewrite ?Z.shiftl_1_l; lia)].
      * assert (0 ≤ Z.lor mask (Z.shiftl 1 (hi - 1 - n))) by (apply Z.lor_nonneg; split; [lia|apply Z.shiftl_nonneg; lia]).
        assert (Z.lor mask (Z.shiftl 1 (hi - 1 - n)) ≠ 0) by (intros E; apply Z.lor_eq_0_iff in E; lia). lia.
      * apply Z.max_lub_lt; [apply Z.log2_lt_pow2; lia|lia].
  - intros i Hi. rewrite Z.lor_spec, Z.shiftl_1_l, Z.pow2_bits_eqb by lia. intros [Hb|Hb]%orb_true_iff; [left; by apply H5|].
    apply Z.eqb_eq in Hb. right. lia.
  - intros i Hi He. rewrite Z.lor_spec, Z.shiftl_1_l, Z.pow2_bits_eqb by lia. intros [Hb|Hb]; [by rewrite (H6 i)|].
    apply orb_true_iff. right. apply Z.eqb_eq. lia.
Qed.

Lemma window_ahead exact h hi seq mask n : window exact h hi seq mask → hi < n →
  window exact (λ x, h x ∨ x = n) n (n mod 256) (u64 (Z.shiftl (Z.lor (u64 (Z.shiftl mask 1)) 1) (n - hi - 1))).
Proof.
  intros [H1 H2 H3 H4 H5 H6] Hn.
  assert (∀ i, 0 ≤ i < 64 → Z.testbit (u64 (Z.shiftl (Z.lor (u64 (Z.shiftl mask 1)) 1) (n - hi - 1))) i =
    (n - hi - 1 <=? i) && ((n - hi <=? i) && Z.testbit mask (i - (n - hi)) || (i =? n - hi - 1))) as Hbit.
  { intros i Hi. rewrite shifted_bits by lia. destruct (Z.leb_spec (n - hi - 1) i); [|done]. cbn [andb].
    rewrite Z.lor_spec, shifted_bits, one_bit by lia. replace (i - (n - hi - 1) - 1) with (i - (n - hi)) by lia. f_equal.
    - by replace (1 <=? i - (n - hi - 1)) with (n - hi <=? i) by (destruct (Z.leb_spec (n - hi) i), (Z.leb_spec 1 (i - (n - hi - 1))); lia || done).
    - destruct (Z.eqb_spec (i - (n - hi - 1)) 0), (Z.eqb_spec i (n - hi - 1)); lia || done. }
  split; [by right|intros x [Hx| ->]; [specialize (H2 x Hx); lia|done]|done|apply wrapu_range; lia| |].
  - intros i Hi. rewrite Hbit by done. intros [_ [[_ Hb]%andb_true_iff|Hb%Z.eqb_eq]%orb_true_iff]%andb_true_iff.
    + left. destruct (Z.leb_spec (n - hi) i) as [Hle|Hlt].
      * replace (n - 1 - i) with (hi - 1 - (i - (n - hi))) by lia. apply H5; [lia|done].
      * rewrite Z.testbit_neg_r in Hb by lia. done.
    + left. by replace (n - 1 - i) with hi by lia.
  - intros i Hi He [Hx|Hx]; [|lia]. rewrite Hbit by done. specialize (H2 _ Hx).
    rewrite (proj2 (Z.leb_le _ _)) by lia. cbn [andb].
    destruct (decide (i = n - hi - 1)) as [->|]; [by rewrite Z.eqb_refl, orb_true_r|].
    rewrite (proj2 (Z.leb_le _ _)) by lia. cbn [andb]. rewrite H6; [done|lia|done|].
    by replace (hi - 1 - (i - (n - hi))) with (n - 1 - i) by lia.
Qed.

Lemma window_more exact (h h' : Z → Prop) hi seq mask : (∀ x, h x ↔ h' x) → window exact h hi seq mask → window exact h' hi seq mask.
Proof.
  intros E [H1 H2 H3 H4 H5 H6]. split; [by apply E|intros x Hx; by apply H2, E|done|done| |].
  - intros i Hi Hb. by apply E, H5.
  - intros i Hi He Hb. by apply H6; [| |apply E].
Qed.

(** ** Streams of numbers *)

(** The next number can be told apart from the numbers heard before. *)
Definition in_reach (past : list Z) (x : Z) : Prop :=
  (∀ y, y ∈ past → y - 64 ≤ x) ∧ (past ≠ [] → ∃ y, y ∈ past ∧ x < y + 192).
Lemma in_reach_near exact past hi seq mask x : window exact (.∈ past) hi seq mask → in_reach past x → near hi x.
Proof.
  intros [H1 H2 _ _ _ _] [N1 N2]. split; [by apply N1|]. destruct N2 as (y & Hy & Hlt); [by intros ->; apply elem_of_nil in H1|].
  specialize (H2 y Hy). lia.
Qed.

(** ** Payloads are recognised *)

Lemma get_neighbour_insert l s i n n' t : get_neighbour l (Some s) = Some (i, n) → n_subscriber n' = n_subscriber n →
  get_neighbour (<[i := n']> l) t = if decide (t = Some s) then Some (i, n') else get_neighbour l t.
Proof.
  unfold get_neighbour. revert i. induction l as [|m l IH]; intros i; [done|]. cbn [list_find].
  destruct (decide (Some s = Some (n_subscriber m))) as [E|E].
  - intros [= <- <-] En. cbn [insert list_insert list_find]. rewrite En.
    repeat (destruct (decide _)); try done; congruence.
  - destruct (list_find _ l) as [[j n0]|] eqn:El; [|done]. intros [= <- <-] En. change (<[_ := n']> (m :: l)) with (m :: <[j := n']> l).
    cbn [list_find]. rewrite (IH j) by done. repeat (destruct (decide _)); try done; congruence.
Qed.
Lemma get_neighbour_subscriber l s i n : get_neighbour l (Some s) = Some (i, n) → n_subscriber n = s ∧ l !! i = Some n.
Proof. intros (H & [= ->] & _)%list_find_Some. done. Qed.

Lemma duplicate_step l s i n past hi x : get_neighbour l (Some s) = Some (i, n) →
  window true (.∈ past) hi (mdp_ack_sequence n) (mdp_ack_mask n) → near hi x →
  ∃ n' hi', link_received_duplicate l (Some s) (x mod 256) = (<[i := n']> l, bool_decide (x ∈ past)) ∧
    n_subscriber n' = n_subscriber n ∧ window true (.∈ past ++ [x]) hi' (mdp_ack_sequence n') (mdp_ack_mask n').
Proof.
  intros Hg Hw Hn. destruct (get_neighbour_subscriber _ _ _ _ Hg) as [_ Hl].
  assert (∀ y, (y ∈ past ∨ y = x) ↔ y ∈ past ++ [x]) as Happ by (intros y; rewrite elem_of_app, list_elem_of_singleton; done).
  assert (x ∈ past → window true (.∈ past ++ [x]) hi (mdp_ack_sequence n) (mdp_ack_mask n)) as Hsame.
  { intros Hx. eapply window_more; [|exact Hw]. intros y. rewrite <- Happ. split; [by left|]. by intros [?| ->]. }
  unfold link_received_duplicate. rewrite Hg. pose proof Hw as [H1 H2 -> H4 H5 H6].
  pose proof (Z.mod_pos_bound hi 256 ltac:(lia)). rewrite (proj2 (Z.eqb_neq _ _)) by lia.
  destruct (Z.eqb_spec (hi mod 256) (x mod 256)) as [E|E].
  { apply same_byte in E as ->; [|done]. exists n, hi. rewrite list_insert_id, bool_decide_true by done. split_and!; [done..|by apply Hsame]. }
  destruct (Z.lt_total x hi) as [Hlt|[->|Hgt]]; [|done|].
  - pose proof Hn as [N1 N2]. rewrite behind_offset, (proj2 (Z.ltb_lt _ _)), mask_bit by (done || lia). destruct (Z.testbit (mdp_ack_mask n) (hi - 1 - x)) eqn:Eb.
    + assert (x ∈ past) as Hx by (replace x with (hi - 1 - (hi - 1 - x)) by lia; apply H5; [lia|done]).
      exists n, hi. rewrite list_insert_id, bool_decide_true by done. split_and!; [done..|by apply Hsame].
    + rewrite bool_decide_false.
      2: { intros Hx. rewrite (H6 (hi - 1 - x)) in Eb; [done|lia|done|]. by replace (hi - 1 - (hi - 1 - x)) with x by lia. }
      eexists _, hi. split; [reflexivity|]. split; [done|]. eapply window_more; [exact Happ|]. by apply window_late.
  - pose proof Hn as [N1 N2]. rewrite ahead_offset, (proj2 (Z.ltb_ge _ _)), step_offset by (done || lia).
    rewrite bool_decide_false by (intros Hx; specialize (H2 x Hx); lia).
    eexists _, x. split; [reflexivity|]. split; [done|]. cbn [mdp_ack_sequence mdp_ack_mask set_mdp_ack].
    eapply window_more; [exact Happ|]. pose proof (window_ahead _ _ _ _ _ _ Hw Hgt) as Ha.
    destruct (Z.leb_spec 64 (x - hi - 1)) as [Hj|]; [|exact Ha].
    destruct Ha as [A1 A2 A3 A4 A5 A6]. split; [done..| |].
    + intros j Hj'. by rewrite Z.bits_0.
    + intros j Hj' He Hx. specialize (A6 j Hj' He Hx). rewrite shifted_bits, (proj2 (Z.leb_gt _ _)) in A6 by lia. done.
Qed.

(** The numbers of the payloads of one sender. *)
Definition heard (s : nat) (es : list (nat * Z)) : list Z := omap (λ e, if decide (e.1 = s) then Some e.2 else None) es.
Lemma elem_of_heard s es x : x ∈ heard s es ↔ (s, x) ∈ es.
Proof.
  unfold heard. rewrite list_elem_of_omap. split.
  - intros ([t y] & Hin & E). cbn in E. case_decide; [|done]. by simplify_eq.
  - intros Hin. exists (s, x). split; [done|]. cbn. by rewrite decide_True.
Qed.
Lemma heard_app s es es' : heard s (es ++ es') = heard s es ++ heard s es'.
Proof. apply omap_app. Qed.

(** What is answered for the payloads that arrive from several senders. *)
Fixpoint verdicts (l : list neighbour) (es : list (nat * Z)) : list bool :=
  match es with
  | [] => []
  | (s, x) :: es => let r := link_received_duplicate l (Some s) (x mod 256) in r.2 :: verdicts r.1 es
  end.
Fixpoint all_in_reach (past es : list (nat * Z)) : Prop :=
  match es with
  | [] => True
  | (s, x) :: es => in_reach (heard s past) x ∧ all_in_reach (past ++ [(s, x)]) es
  end.

Definition fresh (n : neighbour) : Prop := mdp_ack_sequence n = -1 ∧ mdp_ack_mask n = 0.
Definition windows (past : list (nat * Z)) (l : list neighbour) : Prop := ∀ s i n, get_neighbour l (Some s) = Some (i, n) →
  (fresh n ∧ heard s past = []) ∨ ∃ hi, window true (.∈ heard s past) hi (mdp_ack_sequence n) (mdp_ack_mask n).

Lemma first_window x : window true (.∈ [x]) x (x mod 256) 0.
Proof.
  split; [by apply list_elem_of_singleton|intros y Hy; apply list_elem_of_singleton in Hy; lia|done|lia|intros i _; by rewrite Z.bits_0|].
  intros i Hi _ Hx. apply list_elem_of_singleton in Hx. lia.
Qed.

Lemma windows_step past l s x : windows past l → in_reach (heard s past) x →
  let r := link_received_duplicate l (Some s) (x mod 256) in
  windows (past ++ [(s, x)]) r.1 ∧ (∀ t, is_Some (get_neighbour r.1 t) ↔ is_Some (get_neighbour l t)) ∧
  r.2 = bool_decide (is_Some (get_neighbour l (Some s)) ∧ (s, x) ∈ past).
Proof.
  intros Hw Hr r. destruct (get_neighbour l (Some s)) as [[i n]|] eqn:Hg; subst r.
  2: { unfold link_received_duplicate. rewrite Hg. cbn [fst snd]. rewrite bool_decide_false by (by intros [[? ?] _]).
       split_and!; [|done..]. intros t i n Ht. rewrite heard_app. cbn. rewrite decide_False by congruence. rewrite app_nil_r. by apply Hw in Ht. }
  assert (∃ n' hi', link_received_duplicate l (Some s) (x mod 256) = (<[i := n']> l, bool_decide (x ∈ heard s past)) ∧
    n_subscriber n' = n_subscriber n ∧ window true (.∈ heard s past ++ [x]) hi' (mdp_ack_sequence n') (mdp_ack_mask n'))
    as (n' & hi' & -> & En & Hw').
  { destruct (Hw s i n Hg) as [[[E1 E2] E3]|[hi Hwin]]; [|by eapply duplicate_step; [| |eapply in_reach_near]].
    unfold link_received_duplicate. rewrite Hg, E1, E2, E3. cbn [Z.eqb]. eexists _, x. split_and!; [reflexivity|done|apply first_window]. }
  cbn [fst snd]. split_and!.
  - intros t j m. rewrite (get_neighbour_insert l s i n n') by done. rewrite heard_app. cbn.
    case_decide as Et.
    + simplify_eq. intros [= <- <-]. right. exists hi'. by rewrite decide_True.
    + rewrite decide_False by congruence. rewrite app_nil_r. apply Hw.
  - intros t. rewrite (get_neighbour_insert l s i n n') by done. case_decide as Et; [subst t; rewrite Hg|done].
    split; intros _; by eexists.
  - apply bool_decide_ext. rewrite elem_of_heard. split; [intros H; split; [by eexists|done]|by intros [_ H]].
Qed.

Lemma verdicts_spec past l es1 s x es2 : windows past l → all_in_reach past (es1 ++ (s, x) :: es2) →
  verdicts l (es1 ++ (s, x) :: es2) !! length es1 = Some (bool_decide (is_Some (get_neighbour l (Some s)) ∧ (s, x) ∈ past ++ es1)).
Proof.
  revert past l. induction es1 as [|[t y] es1 IH]; intros past l Hw [Hr Hrs]; destruct (windows_step _ _ _ _ Hw Hr) as (Hw' & Hk & Ev).
  - cbn. by rewrite Ev, app_nil_r.
  - cbn [length app verdicts lookup list_lookup]. rewrite (IH (past ++ [(t, y)])) by done. rewrite <- app_assoc. cbn [app].
    f_equal. apply bool_decide_ext. by rewrite Hk.
Qed.

(** C29: a payload is taken for a duplicate exactly when it is one: among payloads
    that arrive from any number of neighbours in any interleaving, each at most 64
    behind and less than 192 ahead of those heard from its sender before, the
    answer is yes when the sender is known and the same number arrived from it
    earlier, although only a byte of the number is sent. *)
Theorem duplicates_exact l es es1 s x es2 : Forall fresh l → all_in_reach [] es → es = es1 ++ (s, x) :: es2 →
  verdicts l es !! length es1 = Some (bool_decide (is_Some (get_neighbour l (Some s)) ∧ (s, x) ∈ es1)).
Proof.
  intros Hf Hr ->. rewrite (verdicts_spec [] l es1 s x es2); [done| |done].
  intros t i n Ht. left. split; [|done]. apply get_neighbour_subscriber in Ht as [_ Ht].
  rewrite Forall_lookup in Hf. by eapply Hf.
Qed.

(** Two senders, of which one repeats itself after a later payload, around the
    wrap of the byte. *)
Lemma duplicates_exact_witness :
  verdicts [Neighbour 7 false 0 (-1) 0; Neighbour 8 false 0 (-1) 0]
    [(7%nat, 255); (8%nat, 255); (7%nat, 256); (7%nat, 255)] !! 3%nat = Some true.
Proof.
  eapply eq_trans; [eapply (duplicates_exact _ _ [(7%nat, 255); (8%nat, 255); (7%nat, 256)] 7 255 [])|].
  - by repeat (apply Forall_cons; split; [done|]).
  - assert (∀ P : Z → Prop, (∀ y, y ∈ [] → P y)) as H0 by (intros P y Hy; by apply elem_of_nil in Hy).
    repeat split; cbn; try done; try apply H0; try (intros y Hy; set_unfold; lia); intros _; exists 255; split; (lia || set_solver).
  - done.
  - by rewrite bool_decide_true by (by apply (bool_decide_unpack _)).
Defined.

(** ** Acknowledgements are right *)

Lemma u64_shift x k : 0 ≤ k → u64 (Z.shiftl (u64 x) k) = u64 (Z.shiftl x k).
Proof. intros Hk. unfold wrapu. rewrite !Z.shiftl_mul_pow2 by lia. apply Zmult_mod_idemp_l. Qed.

Lemma missed_loop_spec d fuel a mask c missed : (0 < d ≤ 256)%nat → (d ≤ fuel)%nat → 0 ≤ mask < 2 ^ 64 →
  - 2 ^ 31 ≤ c - (Z.of_nat d - 1) →
  missed_loop fuel (LinkIn (a mod 256) mask c) ((a + Z.of_nat d) mod 256) missed =
    Ret (LinkIn ((a + Z.of_nat d) mod 256) (u64 (Z.shiftl mask (Z.of_nat d - 1))) (c - (Z.of_nat d - 1)), missed || (1 <? Z.of_nat d)).
Proof.
  revert fuel a mask c missed. induction d as [|d IH]; intros fuel a mask c missed Hd Hf Hm Hc; [lia|].
  destruct fuel as [|fuel]; [lia|]. cbn [missed_loop ack_sequence ack_mask ack_counter].
  rewrite land_255, Zplus_mod_idemp_l. destruct d as [|d].
  - change (Z.of_nat 1) with 1. rewrite Z.eqb_refl. change (1 - 1) with 0. rewrite Z.shiftl_0_r, Z.sub_0_r, wrapu_small by lia.
    by rewrite orb_false_r.
  - rewrite (proj2 (Z.eqb_neq _ _)).
    2: { intros E. assert ((a + Z.of_nat (S (S d)) - (a + 1)) mod 256 = 0) as Hz by (by rewrite Zminus_mod, <- E, Z.sub_diag).
         replace (a + Z.of_nat (S (S d)) - (a + 1)) with (Z.of_nat (S d)) in Hz by lia. rewrite Z.mod_small in Hz; lia. }
    unfold decrement. rewrite (proj2 (Z.ltb_lt _ _)), bind_ret_l by lia.
    replace (a + Z.of_nat (S (S d))) with (a + 1 + Z.of_nat (S d)) by lia.
    rewrite IH by (lia || apply wrapu_range; lia). rewrite (proj2 (Z.ltb_lt 1 (Z.of_nat (S (S d))))), orb_true_r by lia.
    do 2 f_equal. f_equal; [|lia]. rewrite u64_shift by lia. f_equal. rewrite Z.shiftl_shiftl by lia. f_equal. lia.
Qed.

(** The packets that arrive on a link. *)
Fixpoint track_all (link : link_in) (ns : list Z) : outcome link_in :=
  match ns with
  | [] => Ret link
  | n :: ns =>
      r ← track_sequence link (n mod 256);
      track_all (match r with Some (link, _) => link | None => link end) ns
  end.
Fixpoint reach_from (past ns : list Z) : Prop :=
  match ns with [] => True | n :: ns => in_reach past n ∧ reach_from (past ++ [n]) ns end.
(** No packet is the same as the latest one. *)
Fixpoint no_repeat (past ns : list Z) : Prop :=
  match ns with
  | [] => True
  | n :: ns => (n ∈ past → ∃ y, y ∈ past ∧ n < y) ∧ no_repeat (past ++ [n]) ns
  end.

Lemma track_step exact past hi seq mask c x : window exact (.∈ past) hi seq mask → near hi x → - 2 ^ 31 + 255 ≤ c →
  ∃ r, track_sequence (LinkIn seq mask c) (x mod 256) = Ret r ∧
    let link := match r with Some (link, _) => link | None => LinkIn seq mask c end in
    c - 255 ≤ ack_counter link ∧
    ∃ hi', window (exact && negb (x =? hi)) (.∈ past ++ [x]) hi' (ack_sequence link) (ack_mask link).
Proof.
  intros Hw Hn Hc. pose proof Hw as [H1 H2 -> H4 H5 H6]. pose proof Hn as [N1 N2].
  assert (∀ y, (y ∈ past ∨ y = x) ↔ y ∈ past ++ [x]) as Happ by (intros y; rewrite elem_of_app, list_elem_of_singleton; done).
  pose proof (Z.mod_pos_bound hi 256 ltac:(lia)). pose proof (Z.mod_pos_bound x 256 ltac:(lia)).
  unfold track_sequence. cbn [ack_sequence ack_mask ack_counter].
  rewrite (proj2 (Z.leb_le _ _)), (proj2 (Z.eqb_neq _ _)) by lia. cbn [negb].
  destruct (Z.lt_total x hi) as [Hlt|[->|Hgt]].
  - rewrite behind_offset, (proj2 (Z.ltb_lt _ _)), mask_bit, (proj2 (Z.eqb_neq x hi)), andb_true_r by (done || lia).
    destruct (Z.testbit mask (hi - 1 - x)) eqn:Eb.
    + assert (x ∈ past) as Hx by (replace x with (hi - 1 - (hi - 1 - x)) by lia; apply H5; [lia|done]).
      exists None. split; [done|]. split; [cbn; lia|]. exists hi. eapply window_more; [|exact Hw]. intros y. rewrite <- Happ.
      split; [by left|]. by intros [?| ->].
    + eexists. split; [reflexivity|]. split; [cbn; lia|]. exists hi. cbn. eapply window_more; [exact Happ|]. by apply window_late.
  - replace (Z.land (hi mod 256 - 1 - hi mod 256) 255) with 255 by (replace (hi mod 256 - 1 - hi mod 256) with (-1) by lia; done).
    rewrite Z.eqb_refl, andb_false_r. cbn [negb Z.ltb Z.compare Pos.compare Pos.compare_cont].
    pose proof (missed_loop_spec 256 256 hi (Z.lor (u64 (Z.shiftl mask 1)) 1) c false) as Hl.
    replace ((hi + Z.of_nat 256) mod 256) with (hi mod 256) in Hl by (change (Z.of_nat 256) with (1 * 256); by rewrite Z.mod_add by lia).
    rewrite Hl, bind_ret_l by (lia || apply lor_one_range).
    eexists. split; [reflexivity|]. split; [cbn [ack_counter]; lia|]. exists hi. cbn [ack_sequence ack_mask].
    split; [by apply Happ; left|intros y [Hy| ->]%Happ; [by apply H2|lia]| |apply wrapu_range; lia| |done].
    + done.
    + intros i Hi. rewrite shifted_bits, (proj2 (Z.leb_gt _ _)) by lia. done.
  - rewrite ahead_offset, (proj2 (Z.ltb_ge _ _)), (proj2 (Z.eqb_neq x hi)), andb_true_r by (done || lia).
    replace (x mod 256) with ((hi + Z.of_nat (Z.to_nat (x - hi))) mod 256) by (f_equal; lia).
    rewrite missed_loop_spec, bind_ret_l by (lia || apply lor_one_range).
    eexists. split; [reflexivity|]. split; [cbn [ack_counter]; lia|]. exists x. cbn [ack_sequence ack_mask].
    rewrite Z2Nat.id by lia. replace (hi + (x - hi)) with x by lia.
    eapply window_more; [exact Happ|]. by apply window_ahead with (seq := hi mod 256).
Qed.

Lemma track_all_spec exact ns past hi link : window exact (.∈ past) hi (ack_sequence link) (ack_mask link) → reach_from past ns →
  - 2 ^ 31 + 255 * Z.of_nat (length ns) ≤ ack_counter link →
  ∃ link' exact' hi', track_all link ns = Ret link' ∧ (exact = true → no_repeat past ns → exact' = true) ∧
    window exact' (.∈ past ++ ns) hi' (ack_sequence link') (ack_mask link').
Proof.
  revert exact past hi link. induction ns as [|x ns IH]; intros exact past hi [seq mask c] Hw Hr Hc.
  { eexists _, exact, hi. split_and!; [reflexivity|done|by rewrite app_nil_r]. }
  destruct Hr as [Hx Hr]. cbn [length ack_sequence ack_mask ack_counter] in *.
  destruct (track_step exact past hi seq mask c x Hw) as (r & Ht & Hc' & hi1 & Hw1); [by eapply in_reach_near|lia|].
  cbn [track_all]. rewrite Ht, bind_ret_l.
  destruct (IH _ _ _ _ Hw1 Hr) as (link' & exact' & hi' & -> & He & Hw'); [lia|].
  eexists _, exact', hi'. split_and!; [done| |by rewrite <- app_assoc in Hw'].
  intros -> [Hne Hno]. apply He; [|done]. destruct (Z.eqb_spec x hi) as [->|]; [|done].
  destruct Hw as [H1 H2 _ _ _ _]. destruct (Hne H1) as (y & Hy & Hlt). specialize (H2 y Hy). lia.
Qed.

Lemma acked_delta mask hi f k : 8 ≤ k → hi - 256 < f < hi + 224 →
  acked mask (hi mod 256) (f mod 2 ^ k) = bool_decide (f = hi) || (bool_decide (hi - 32 ≤ f < hi) && Z.testbit mask (hi - 1 - f)).
Proof.
  intros Hk Hf. unfold acked.
  assert (Z.land (hi mod 256 - f mod 2 ^ k) 0xFF = (hi - f) mod 256) as ->.
  { rewrite land_255, Zminus_mod_idemp_l. symmetry. rewrite <- Zminus_mod_idemp_r.
    rewrite <- (Zminus_mod_idemp_r hi (f mod 2 ^ k)). do 2 f_equal.
    rewrite <- !(Z.land_ones _ 8), <- Z.land_ones, <- Z.land_assoc by lia. f_equal. apply Z.bits_inj'. intros n Hn.
    rewrite Z.land_spec, !Z.testbit_ones_nonneg by lia. destruct (Z.ltb_spec n 8), (Z.ltb_spec n k); try done. lia. }
  destruct (Z.lt_total f hi) as [Hlt|[->|Hgt]].
  - rewrite Z.mod_small, (proj2 (Z.eqb_neq (hi - f) 0)), (bool_decide_false (f = hi)) by lia. cbn [orb].
    rewrite mask_bit by lia. replace (hi - f - 1) with (hi - 1 - f) by lia. f_equal.
    destruct (Z.leb_spec (hi - f) 32); case_bool_decide; lia || done.
  - by rewrite Z.sub_diag, bool_decide_true.
  - assert ((hi - f) mod 256 = 256 + (hi - f)) as -> by (symmetry; apply (Z.mod_unique _ _ (-1)); lia).
    rewrite (proj2 (Z.eqb_neq _ 0)), (proj2 (Z.leb_gt _ 32)) by lia. rewrite !bool_decide_false by lia. done.
Qed.

(** C30: acknowledgements are right: when the packets of any stream whose numbers
    stay within reach have arrived, the acknowledgement of the link, the last byte
    and the low 32 bits of the mask, confirms a packet to its sender only if it
    has arrived; and the last packet and every one of the 32 before it that
    arrived is confirmed, provided that the latest packet was never repeated at
    once. Nothing goes wrong before the counter of the link has run out. *)
Theorem acks_exact x ns c : reach_from [x] ns → - 2 ^ 31 + 255 * Z.of_nat (length ns) ≤ c →
  ∃ link hi, track_all (LinkIn (-1) 0 c) (x :: ns) = Ret link ∧ hi ∈ x :: ns ∧ (∀ n, n ∈ x :: ns → n ≤ hi) ∧
    ∀ f, hi - 256 < f < hi + 224 →
      let a := acked (u32 (ack_mask link)) (ack_sequence link) (f mod 2 ^ 16) in
      (a = true → f ∈ x :: ns) ∧ (no_repeat [x] ns → f ∈ x :: ns → hi - 32 ≤ f → a = true).
Proof.
  intros Hr Hc. cbn [track_all]. pose proof (Z.mod_pos_bound x 256 ltac:(lia)).
  assert (track_sequence (LinkIn (-1) 0 c) (x mod 256) = Ret (Some (LinkIn (x mod 256) 0 c, false))) as ->.
  { unfold track_sequence. by rewrite (proj2 (Z.leb_le _ _)) by lia. }
  rewrite bind_ret_l.
  destruct (track_all_spec true ns [x] x (LinkIn (x mod 256) 0 c) (first_window x) Hr Hc) as (link & exact & hi & -> & He & [H1 H2 H3 H4 H5 H6]).
  exists link, hi. split; [done|]. split; [exact H1|]. split; [exact H2|]. intros f Hf. rewrite H3, acked_delta by lia. split.
  - intros [E%bool_decide_eq_true|[E%bool_decide_eq_true Hb]%andb_true_iff]%orb_true_iff; [by rewrite E|].
    replace f with (hi - 1 - (hi - 1 - f)) by lia. apply H5; [lia|]. unfold wrapu in Hb. rewrite mod_pow2_testbit in Hb by lia.
    by apply andb_true_iff in Hb as [_ Hb].
  - intros Hno Hin Hge. specialize (H2 f Hin). destruct (decide (f = hi)) as [->|Hne]; [by rewrite bool_decide_true|].
    rewrite (bool_decide_true (hi - 32 ≤ f < hi)) by lia. apply orb_true_iff. right. cbn [andb].
    unfold wrapu. rewrite mod_pow2_testbit, (proj2 (Z.ltb_lt _ _)) by lia. cbn [andb].
    apply H6; [lia|by apply He|]. by replace (hi - 1 - (hi - 1 - f)) with f by lia.
Qed.

(** Packets 254, 256, 255 and 257: 253 did not arrive and is not confirmed. *)
Lemma acks_exact_witness : ∃ link, track_all (LinkIn (-1) 0 16) [254; 256; 255; 257] = Ret link ∧
  acked (u32 (ack_mask link)) (ack_sequence link) 255 = true ∧ acked (u32 (ack_mask link)) (ack_sequence link) 253 ≠ true.
Proof.
  destruct (acks_exact 254 [256; 255; 257] 16) as (link & hi & Ht & Hhi & Hmax & Ha).
  - assert (∀ (l : list Z) x y, y ∈ l → (∀ z, z ∈ l → z - 64 ≤ x) → x < y + 192 → in_reach l x) as Hmk by (intros l x y H1 H2 H3; split; eauto).
    repeat split; try (apply (Hmk _ _ 254); [set_solver|intros z Hz; set_unfold; lia|lia]).
  - vm_compute. congruence.
  - exists link. split; [exact Ht|]. assert (hi = 257) as -> by (specialize (Hmax 257 ltac:(set_solver)); set_unfold; lia).
    split.
    + apply (Ha 255); [lia| |set_solver|lia]. repeat split; intros Hin; set_unfold; lia.
    + intros E. apply (Ha 253) in E; [|lia]. set_unfold. lia.
Defined.

(** A packet that repeats the latest one is not recognised: it counts as 255 missed
    packets, and clears the mask. *)
Lemma latest_repeated_lost seq mask c : is_byte seq → 0 ≤ mask < 2 ^ 64 → - 2 ^ 31 + 255 ≤ c →
  track_sequence (LinkIn seq mask c) seq = Ret (Some (LinkIn seq 0 (c - 255), true)).
Proof.
  intros Hs Hm Hc. unfold track_sequence, is_byte in *. cbn [ack_sequence ack_mask ack_counter].
  rewrite (proj2 (Z.leb_le _ _)), (proj2 (Z.eqb_neq _ _)) by lia. cbn [negb].
  replace (seq - 1 - seq) with (-1) by lia. change (Z.land (-1) 0xFF <? 64) with false. cbn match.
  pose proof (missed_loop_spec 256 256 seq (Z.lor (u64 (Z.shiftl mask 1)) 1) c false) as Hl.
  replace ((seq + Z.of_nat 256) mod 256) with seq in Hl.
  2: { change (Z.of_nat 256) with (1 * 256). by rewrite Z.mod_add, Z.mod_small by lia. }
  rewrite (Z.mod_small seq 256) in Hl by lia. rewrite Hl, bind_ret_l by (lia || apply lor_one_range).
  replace (u64 _) with 0; [done|]. symmetry. apply Z.bits_inj'. intros i Hi. rewrite Z.bits_0.
  destruct (decide (i < 64)); [by rewrite shifted_bits, (proj2 (Z.leb_gt _ _)) by lia|].
  unfold wrapu. by rewrite Z.mod_pow2_bits_high by lia.
Qed.

End LinkWindow.
