(* ===== verification/OverlayFrame.v ===== *)
(** * Overlay packets (overlay_payload.c, overlay_packetformats.c)

    A packet has an envelope header and payloads, each with a header of its own.
    This file has the writers and the readers. *)

From S2P Require Import Prelude Mem OverlayBuffer OverlayBufferSpec OverlayBufferCodec StrCtype StrNum StrScan DataFormats OverlayAddress OverlayAddressTree OverlayAddressCodec LinkWindow.
Import OB OBSpec OBCodec StrScan OverlayAddress OverlayAddressTree OverlayAddressCodec LinkWindow.

Module OverlayFrame.
Section Frame.
Context {arch : Arch} {allocator : Allocator}.

Definition OF_TYPE_SELFANNOUNCE_ACK : Z := 0x20.
Definition OF_TYPE_DATA : Z := 0x30.
Definition OF_TYPE_RHIZOME_ADVERT : Z := 0x50.
Definition OF_TYPE_PLEASEEXPLAIN : Z := 0x60.

Definition PAYLOAD_FLAG_SENDER_SAME : Z := Z.shiftl 1 0.
Definition PAYLOAD_FLAG_TO_BROADCAST : Z := Z.shiftl 1 1.
Definition PAYLOAD_FLAG_ONE_HOP : Z := Z.shiftl 1 2.
Definition PAYLOAD_FLAG_CIPHERED : Z := Z.shiftl 1 4.
Definition PAYLOAD_FLAG_SIGNED : Z := Z.shiftl 1 5.
Definition PAYLOAD_FLAG_ACK_SOON : Z := Z.shiftl 1 6.
Definition PAYLOAD_FLAG_LEGACY_TYPE : Z := Z.shiftl 1 7.
Definition PAYLOAD_TTL_MAX : Z := 31.
Definition HEADER_PROCESS : Z := 1.
Definition HEADER_FORWARD : Z := 2.
Definition ENCAP_OVERLAY : Z := 1.
Definition ENCAP_SINGLE : Z := 2.
Definition PACKET_UNICAST : Z := Z.shiftl 1 0.
Definition PACKET_INTERFACE : Z := Z.shiftl 1 1.
Definition PACKET_SEQ : Z := Z.shiftl 1 2.
Definition SUPPORTED_PACKET_VERSION : Z := 1.

(** [x & f] as a condition. *)
Definition on (x f : Z) : bool := negb (Z.land x f =? 0).

(** overlay_packet.h: the fields of struct overlay_frame that packets carry. *)
Record overlay_frame := Frame {
  f_type : Z;
  modifiers : Z;
  ttl : Z;
  queue : Z;
  mdp_sequence : Z;
  f_source : option nat;
  f_destination : option nat;
  broadcast_id : list Z;
  f_packet_version : Z;
  f_payload : option overlay_buffer;
}.

(** ** Writing payloads *)

Variable my_subscriber : option nat.

Definition header_flags (sender : option nat) (type modifiers : Z) (will_retransmit : bool) (ttl : Z)
    (broadcast : option (list Z)) (next_hop destination source : option nat) : Z :=
  let flags := Z.land modifiers (Z.lor PAYLOAD_FLAG_CIPHERED PAYLOAD_FLAG_SIGNED) in
  let flags := if will_retransmit then Z.lor flags PAYLOAD_FLAG_ACK_SOON else flags in
  let flags := if (ttl =? 1) && bool_decide (broadcast = None) then Z.lor flags PAYLOAD_FLAG_ONE_HOP else flags in
  let flags := if bool_decide (is_Some destination) && bool_decide (destination = next_hop)
               then Z.lor flags PAYLOAD_FLAG_ONE_HOP else flags in
  let flags := if bool_decide (source = sender) then Z.lor flags PAYLOAD_FLAG_SENDER_SAME else flags in
  let flags := if bool_decide (destination = None) then Z.lor flags PAYLOAD_FLAG_TO_BROADCAST else flags in
  if negb (type =? OF_TYPE_DATA) then Z.lor flags PAYLOAD_FLAG_LEGACY_TYPE else flags.

(** The packet that is written: the context of its addresses, its buffer, and the
    subscribers, whose [send_full] is cleared. *)
Record tx := Tx { tx_c : decode_context; tx_m : mem; tx_b : overlay_buffer; tx_ss : store }.

Definition put_byte (v : Z) (t : tx) : outcome tx :=
  r ← ob_append_byte (tx_m t) (tx_b t) v; Ret (Tx (tx_c t) r.1 r.2 (tx_ss t)).
Definition put_address (s : option nat) (t : tx) : outcome tx :=
  r ← overlay_address_append my_subscriber (Some (tx_c t)) (tx_m t) (tx_b t) (tx_ss t) s;
  match r with
  | (Some c, m, b, ss) => Ret (Tx c m b ss)
  | (None, _, _, _) => Undef
  end.
Definition put_broadcast (broadcast : option (list Z)) (t : tx) : outcome tx :=
  match broadcast with
  | Some id => r ← overlay_broadcast_append (tx_m t) (tx_b t) id; Ret (Tx (tx_c t) r.1 r.2 (tx_ss t))
  | None => Undef
  end.

Definition overlay_frame_build_header (packet_version : Z) (t : tx) (queue type modifiers : Z) (will_retransmit : bool)
    (ttl sequence : Z) (broadcast : option (list Z)) (next_hop destination source : option nat) : outcome (tx * Z) :=
  if (ttl <? 0) || (PAYLOAD_TTL_MAX <? ttl) then Ret (t, -1)
  else
    let flags := header_flags (sender (tx_c t)) type modifiers will_retransmit ttl broadcast next_hop destination source in
    t ← put_byte flags t;
    t ← (if negb (on flags PAYLOAD_FLAG_SENDER_SAME) then put_address source t else Ret t);
    t ← (if on flags PAYLOAD_FLAG_TO_BROADCAST then
           if negb (on flags PAYLOAD_FLAG_ONE_HOP) then put_broadcast broadcast t else Ret t
         else
           t ← put_address destination t;
           if negb (on flags PAYLOAD_FLAG_ONE_HOP) then put_address next_hop t else Ret t);
    t ← (if negb (on flags PAYLOAD_FLAG_ONE_HOP) then put_byte (Z.lor ttl (Z.shiftl (Z.land queue 3) 5)) t else Ret t);
    t ← (if on flags PAYLOAD_FLAG_LEGACY_TYPE then put_byte (u8 type) t else Ret t);
    t ← (if 1 <=? packet_version then put_byte (u8 sequence) t else Ret t);
    Ret (t, 0).

(** The payload is in the same memory as the packet. *)
Definition overlay_frame_append_payload (encapsulation : Z) (t : tx) (p : overlay_frame) (next_hop : option nat)
    (will_retransmit : bool) : outcome (tx * Z) :=
  let t := Tx (tx_c t) (tx_m t) (ob_checkpoint (tx_b t)) (tx_ss t) in
  zero ← is_all_matching (broadcast_id p) BROADCAST_LEN 0;
  let broadcast := if bool_decide (f_destination p = None) && negb zero then Some (broadcast_id p) else None in
  r ← overlay_frame_build_header (f_packet_version p) t (queue p) (f_type p) (modifiers p) will_retransmit (ttl p)
        (Z.land (mdp_sequence p) 0xFF) broadcast next_hop (f_destination p) (f_source p);
  let '(t, ret) := r in
  let rewound (t : tx) := Tx (tx_c t) (tx_m t) (ob_rewind (tx_b t)) (tx_ss t) in
  if ret =? -1 then Ret (rewound t, -1)
  else
    match f_payload p with
    | None => Undef
    | Some pb =>
        t ← (if encapsulation =? ENCAP_OVERLAY then
               r ← ob_append_ui16 (tx_m t) (tx_b t) (ob_position pb); Ret (Tx (tx_c t) r.1 r.2 (tx_ss t))
             else Ret t);
        t ← (if negb (ob_position pb =? 0) then
               match bytes pb with
               | None => Undef
               | Some p =>
                   bs ← load_bytes (tx_m t) p (ob_position pb);
                   r ← ob_append_bytes (tx_m t) (tx_b t) bs; Ret (Tx (tx_c t) r.1 r.2 (tx_ss t))
               end
             else Ret t);
        if negb (ob_overrun (tx_b t)) then Ret (t, 0) else Ret (rewound t, -1)
    end.

(** ** Writing the envelope *)

Definition set_p2p (c : decode_context) (s : option nat) : decode_context :=
  Ctx (interface c) (sender_interface c) (packet_version c) (encapsulation c) (flags c) (please_explain c) (sender c) (previous c) s.
Definition put_flags (c : decode_context) (f : Z) : decode_context :=
  Ctx (interface c) (sender_interface c) (packet_version c) (encapsulation c) f (please_explain c) (sender c) (previous c) (point_to_point_device c).
Definition set_sender (c : decode_context) (s : option nat) : decode_context :=
  Ctx (interface c) (sender_interface c) (packet_version c) (encapsulation c) (flags c) (please_explain c) s (previous c) (point_to_point_device c).

(** [iface] is the index of the interface, a [char]. *)
Definition overlay_packet_init_header (packet_version encapsulation : Z) (t : tx) (unicast : bool) (iface seq : Z) : outcome (tx * Z) :=
  if (packet_version <? 0) || (SUPPORTED_PACKET_VERSION <? packet_version) then Ret (t, -1)
  else if negb (encapsulation =? ENCAP_OVERLAY) && negb (encapsulation =? ENCAP_SINGLE) then Ret (t, -1)
  else
    t ← put_byte packet_version t;
    t ← put_byte encapsulation t;
    match interface (tx_c t) with
    | None => Undef
    | Some i =>
        let c := if point_to_point i && bool_decide (is_Some (other_device i)) && (1 <=? packet_version)
                 then set_p2p (tx_c t) (other_device i) else tx_c t in
        t ← put_address my_subscriber (Tx (put_flags c DECODE_FLAG_ENCODING_HEADER) (tx_m t) (tx_b t) (tx_ss t));
        let t := Tx (set_sender (put_flags (tx_c t) 0) my_subscriber) (tx_m t) (tx_b t) (tx_ss t) in
        let flags := if unicast then PACKET_UNICAST else 0 in
        let flags := if negb (iface =? 0) then Z.lor flags PACKET_INTERFACE else flags in
        let flags := if 0 <=? seq then Z.lor flags PACKET_SEQ else flags in
        t ← put_byte flags t;
        t ← (if on flags PACKET_INTERFACE then put_byte (u8 iface) t else Ret t);
        t ← (if on flags PACKET_SEQ then put_byte (u8 seq) t else Ret t);
        Ret (t, 0)
    end.

(** ** Reading payloads *)

Variable gettime_ms : nat → Z.
Variables (frame_alloc alloc : nat → bool).

(** What the reader of a packet works on: the subscribers and the context of the
    packet, its buffer, the frame that is filled in, the next hop of its header,
    the broadcast identifiers and the neighbours; and the calls of
    [link_state_ack_soon]. *)
Record rx := Rx {
  rx_w : world;
  rx_b : overlay_buffer;
  rx_f : overlay_frame;
  rx_next : option nat;
  rx_bpis : list (list Z);
  rx_neighbours : list neighbour;
  rx_acks : list (option nat);
}.
Definition set_w (w : world) (st : rx) : rx := Rx w (rx_b st) (rx_f st) (rx_next st) (rx_bpis st) (rx_neighbours st) (rx_acks st).
Definition set_b (b : overlay_buffer) (st : rx) : rx := Rx (rx_w st) b (rx_f st) (rx_next st) (rx_bpis st) (rx_neighbours st) (rx_acks st).
Definition set_f (f : overlay_frame) (st : rx) : rx := Rx (rx_w st) (rx_b st) f (rx_next st) (rx_bpis st) (rx_neighbours st) (rx_acks st).
Definition set_next (s : option nat) (st : rx) : rx := Rx (rx_w st) (rx_b st) (rx_f st) s (rx_bpis st) (rx_neighbours st) (rx_acks st).
Definition set_bpis (l : list (list Z)) (st : rx) : rx := Rx (rx_w st) (rx_b st) (rx_f st) (rx_next st) l (rx_neighbours st) (rx_acks st).
Definition set_neighbours (l : list neighbour) (st : rx) : rx := Rx (rx_w st) (rx_b st) (rx_f st) (rx_next st) (rx_bpis st) l (rx_acks st).
Definition set_acks (l : list (option nat)) (st : rx) : rx := Rx (rx_w st) (rx_b st) (rx_f st) (rx_next st) (rx_bpis st) (rx_neighbours st) l.

Definition with_source (s : option nat) (f : overlay_frame) : overlay_frame :=
  Frame (f_type f) (modifiers f) (ttl f) (queue f) (mdp_sequence f) s (f_destination f) (broadcast_id f) (f_packet_version f) (f_payload f).
Definition with_destination (s : option nat) (f : overlay_frame) : overlay_frame :=
  Frame (f_type f) (modifiers f) (ttl f) (queue f) (mdp_sequence f) (f_source f) s (broadcast_id f) (f_packet_version f) (f_payload f).
Definition with_broadcast (id : list Z) (f : overlay_frame) : overlay_frame :=
  Frame (f_type f) (modifiers f) (ttl f) (queue f) (mdp_sequence f) (f_source f) (f_destination f) id (f_packet_version f) (f_payload f).
Definition with_ttl (t q : Z) (f : overlay_frame) : overlay_frame :=
  Frame (f_type f) (modifiers f) t q (mdp_sequence f) (f_source f) (f_destination f) (broadcast_id f) (f_packet_version f) (f_payload f).
Definition with_type (t : Z) (f : overlay_frame) : overlay_frame :=
  Frame t (modifiers f) (ttl f) (queue f) (mdp_sequence f) (f_source f) (f_destination f) (broadcast_id f) (f_packet_version f) (f_payload f).
Definition with_modifiers (m v : Z) (f : overlay_frame) : overlay_frame :=
  Frame (f_type f) m (ttl f) (queue f) (mdp_sequence f) (f_source f) (f_destination f) (broadcast_id f) v (f_payload f).
Definition with_payload (p : option overlay_buffer) (f : overlay_frame) : overlay_frame :=
  Frame (f_type f) (modifiers f) (ttl f) (queue f) (mdp_sequence f) (f_source f) (f_destination f) (broadcast_id f) (f_packet_version f) p.

(** Readers, which stop with an error ([None]: the return value -1) or go on. *)
Definition reader (A : Type) : Type := rx → outcome (rx * option A).
Definition go {A} (a : A) : reader A := λ st, Ret (st, Some a).
Definition stop {A} : reader A := λ st, Ret (st, None).
Definition modify (g : rx → rx) : reader unit := λ st, Ret (g st, Some tt).
Definition and_then {A B} (p : reader A) (k : A → reader B) : reader B := λ st,
  r ← p st; match r with (st, Some a) => k a st | (st, None) => Ret (st, None) end.
Notation "'read' x ':=' p ; k" := (and_then p (λ x, k)) (at level 20, x pattern, p at level 100, k at level 200, right associativity).
Notation "'step' p ; k" := (and_then p (λ _, k)) (at level 20, p at level 100, k at level 200, right associativity).

Definition look {A} (g : rx → A) : reader A := λ st, Ret (st, Some (g st)).
(** The field of a subscriber that a pointer refers to. *)
Definition is_self (s : option nat) : reader bool := λ st,
  match s with
  | None => Undef
  | Some s => match w_ss (rx_w st) !! s with Some sub => Ret (st, Some (reachable sub =? REACHABLE_SELF)) | None => Undef end
  end.
Definition get : reader Z := λ st, r ← ob_get (w_mem (rx_w st)) (rx_b st); Ret (set_b r.1 st, Some r.2).
(** [overlay_address_parse] on a variable that holds [s]; [set] assigns it. *)
Definition get_address (s : rx → option nat) (set : option nat → rx → rx) : reader unit := λ st,
  r ← overlay_address_parse my_subscriber gettime_ms frame_alloc alloc (rx_w st) (rx_b st) (s st);
  let '(w, b, s, ret) := r in
  Ret (set s (set_b b (set_w w st)), if ret <? 0 then None else Some tt).

Definition mark_invalid (st : rx) : rx := set_w (set_ctx (rx_w st) (set_flag (w_ctx (rx_w st)) DECODE_FLAG_INVALID_ADDRESS)) st.
(** [process] and [forward] as two truth values. *)
Definition read_source (flags : Z) : reader (bool * bool) :=
  if on flags PAYLOAD_FLAG_SENDER_SAME then
    read sender := look (λ st, sender (w_ctx (rx_w st)));
    step modify (λ st, if bool_decide (sender = None) then mark_invalid st else st);
    step modify (λ st, set_f (with_source sender (rx_f st)) st);
    go (true, true)
  else
    step get_address (λ st, f_source (rx_f st)) (λ s st, set_f (with_source s (rx_f st)) st);
    read s := look (λ st, f_source (rx_f st));
    read self := (if bool_decide (s = None) then go true else is_self s);
    go (if (self : bool) then (false, false) else (true, true)).

Definition read_broadcast (pf : bool * bool) : reader (bool * bool) := λ st,
  r ← overlay_broadcast_parse (w_mem (rx_w st)) (rx_b st);
  match r with
  | (b, None) => Ret (set_b b st, None)
  | (b, Some id) =>
      let st := set_f (with_broadcast id (rx_f st)) (set_b b st) in
      r ← overlay_broadcast_drop_check id (rx_bpis st);
      let '(bpis, dup) := r in
      let pf := if negb (dup =? 0) then (false, false) else pf in
      let st := set_bpis bpis st in
      let w := rx_w st in
      let relay := link_state_should_forward_broadcast (rx_neighbours st) (sender (w_ctx w)) (gettime_ms (ticks w)) in
      let st := set_w (World (w_mem w) (w_root w) (w_ss w) (w_ctx w) (explained w) (S (ticks w)) (frames w)) st in
      Ret (st, Some (pf.1, if relay =? 0 then false else pf.2))
  end.

Definition read_destination (flags : Z) (pf : bool * bool) : reader (bool * bool) :=
  if on flags PAYLOAD_FLAG_TO_BROADCAST then
    read pf := (if negb (on flags PAYLOAD_FLAG_ONE_HOP) then read_broadcast pf else go pf);
    step modify (λ st, set_f (with_destination None (rx_f st)) st);
    go pf
  else
    step get_address (λ st, f_destination (rx_f st)) (λ s st, set_f (with_destination s (rx_f st)) st);
    read d := look (λ st, f_destination (rx_f st));
    read self := (if bool_decide (d = None) then go false else is_self d);
    let pf := (if (self : bool) then pf else (false, pf.2)) in
    if negb (on flags PAYLOAD_FLAG_ONE_HOP) then
      step get_address rx_next set_next;
      read n := look rx_next;
      read self := (if bool_decide (n = None) then go false else is_self n);
      go (if (self : bool) then pf else (pf.1, false))
    else go pf.

Definition read_ttl (flags : Z) (pf : bool * bool) : reader (bool * bool) :=
  step (if on flags PAYLOAD_FLAG_ONE_HOP then modify (λ st, set_f (with_ttl 1 (queue (rx_f st)) (rx_f st)) st)
        else
          read ttl_qos := get;
          if ttl_qos <? 0 then stop
          else modify (λ st, set_f (with_ttl (Z.land ttl_qos 0x1F) (Z.land (Z.shiftr ttl_qos 5) 3) (rx_f st)) st));
  step modify (λ st, let f := rx_f st in if negb (ttl f =? 0) then set_f (with_ttl (ttl f - 1) (queue f) f) st else st);
  read t := look (λ st, ttl (rx_f st));
  go (if t =? 0 then (pf.1, false) else pf).

Definition read_type (flags : Z) : reader unit :=
  if on flags PAYLOAD_FLAG_LEGACY_TYPE then
    read ftype := get;
    if ftype =? -1 then stop else modify (λ st, set_f (with_type ftype (rx_f st)) st)
  else modify (λ st, set_f (with_type OF_TYPE_DATA (rx_f st)) st).

Definition read_sequence (pf : bool * bool) : reader (bool * bool) :=
  read v := look (λ st, packet_version (w_ctx (rx_w st)));
  if 1 <=? v then
    read seq := get;
    if seq =? -1 then stop
    else λ st,
      let r := link_received_duplicate (rx_neighbours st) (sender (w_ctx (rx_w st))) seq in
      Ret (set_neighbours r.1 st, Some (if r.2 then (false, false) else pf))
  else go pf.

(** The value is [forward|process]. *)
Definition parse_header : reader Z :=
  read flags := get;
  if flags <? 0 then stop
  else
    read pf := read_source flags;
    read pf := read_destination flags pf;
    read pf := read_ttl flags pf;
    step read_type flags;
    read pf := read_sequence pf;
    step modify (λ st, set_f (with_modifiers flags (packet_version (w_ctx (rx_w st))) (rx_f st)) st);
    read c := look (λ st, w_ctx (rx_w st));
    let pf := if (pf.2 || pf.1) && has_flag c DECODE_FLAG_INVALID_ADDRESS then (false, false) else pf in
    go (Z.lor (if pf.2 then HEADER_FORWARD else 0) (if pf.1 then HEADER_PROCESS else 0)).
Definition parseMdpPacketHeader (st : rx) : outcome (rx * Z) :=
  r ← parse_header st; Ret (r.1, default (-1) r.2).

(** ** Reading the envelope *)

(** [link_received_packet] of route_link.c. *)
Variable link_received_packet : rx → Z → bool → outcome (rx * Z).

Definition on_ctx (g : decode_context → decode_context) (st : rx) : rx := set_w (set_ctx (rx_w st) (g (w_ctx (rx_w st)))) st.
Definition set_interface (c : decode_context) (i : option overlay_interface) : decode_context :=
  Ctx i (sender_interface c) (packet_version c) (encapsulation c) (flags c) (please_explain c) (sender c) (previous c) (point_to_point_device c).
Definition set_sender_interface (c : decode_context) (i : Z) : decode_context :=
  Ctx (interface c) i (packet_version c) (encapsulation c) (flags c) (please_explain c) (sender c) (previous c) (point_to_point_device c).
Definition set_packet_version (c : decode_context) (v : Z) : decode_context :=
  Ctx (interface c) (sender_interface c) v (encapsulation c) (flags c) (please_explain c) (sender c) (previous c) (point_to_point_device c).
Definition set_encapsulation (c : decode_context) (e : Z) : decode_context :=
  Ctx (interface c) (sender_interface c) (packet_version c) e (flags c) (please_explain c) (sender c) (previous c) (point_to_point_device c).

(** The end of the function, for a sender that was understood: [None] when the
    packet is our own. *)
Definition note_sender (iface : overlay_interface) (s : nat) (st : rx) : outcome (option rx) :=
  match w_ss (rx_w st) !! s with
  | None => Undef
  | Some sub =>
      if reachable sub =? REACHABLE_SELF then Ret None
      else
        let v := packet_version (w_ctx (rx_w st)) in
        let st := if max_packet_version sub <? v
                  then set_w (set_ss (rx_w st) (<[s := set_max_packet_version sub v]> (w_ss (rx_w st)))) st else st in
        Ret (Some (if point_to_point iface && bool_decide (other_device iface ≠ Some s)
                   then on_ctx (λ c, set_p2p (set_interface c (Some (Interface (if_local_echo iface) (point_to_point iface) (Some s)))) (Some s)) st
                   else st))
  end.

(** Whether the packet was received as one sent to this node only is passed on. *)
Definition envelope (iface : overlay_interface) : reader Z :=
  step modify (on_ctx (λ c, set_interface c (Some iface)));
  step modify (on_ctx (λ c, if point_to_point iface && bool_decide (is_Some (other_device iface)) then set_p2p c (other_device iface) else c));
  step modify (on_ctx (λ c, set_sender_interface c 0));
  read v := get;
  step modify (on_ctx (λ c, set_packet_version c v));
  if (v <? 0) || (SUPPORTED_PACKET_VERSION <? v) then stop
  else
    read e := get;
    step modify (on_ctx (λ c, set_encapsulation c e));
    if negb (e =? ENCAP_OVERLAY) && negb (e =? ENCAP_SINGLE) then stop
    else
      step get_address (λ st, sender (w_ctx (rx_w st))) (λ s st, on_ctx (λ c, set_sender c s) st);
      read packet_flags := get;
      step (if on packet_flags PACKET_INTERFACE then read i := get; modify (on_ctx (λ c, set_sender_interface c i)) else go tt);
      read sender_seq := (if on packet_flags PACKET_SEQ then read s := get; go (Z.land s 0xFF) else go (-1));
      λ st,
        known ← match sender (w_ctx (rx_w st)) with Some s => note_sender iface s st | None => Ret (Some st) end;
        match known with
        | None => Ret (st, Some 1)
        | Some st => r ← link_received_packet st sender_seq (on packet_flags PACKET_UNICAST); Ret (r.1, Some r.2)
        end.
Definition parseEnvelopeHeader (iface : overlay_interface) (st : rx) : outcome (rx * Z) :=
  r ← envelope iface st; Ret (r.1, default (-1) r.2).

(** ** Receiving packets *)

(** [overlay_payload_enqueue] of overlay_queue.c, which is given a frame, and the
    functions that [process_incoming_frame] calls. *)
Variable overlay_payload_enqueue : overlay_frame → rx → outcome (rx * Z).
Variables (link_state_legacy_ack overlay_rhizome_saw_advertisements overlay_saw_mdp_containing_frame : rx → outcome rx).
(** For the answers of [process_explain]. *)
Variables (enqueue : out_frame → bool) (unicast : bool).

(** overlay_payload.c: [allocated] says whether there is memory for the frame. *)
Definition op_dup (allocated : bool) (m : mem) (f : overlay_frame) : outcome (mem * option overlay_frame) :=
  if allocated then
    match f_payload f with
    | None => Ret (m, Some f)
    | Some b => r ← ob_dup m b; Ret (r.1, option_map (λ b, with_payload (Some b) f) r.2)
    end
  else Ret (m, None).
(** A frame that is on no queue. *)
Definition op_free (m : mem) (f : overlay_frame) : outcome mem :=
  match f_payload f with Some b => ob_free m b | None => Ret m end.

Definition set_mem (m : mem) (st : rx) : rx :=
  let w := rx_w st in set_w (World m (w_root w) (w_ss w) (w_ctx w) (explained w) (ticks w) (frames w)) st.
Definition next_frame (st : rx) : rx :=
  let w := rx_w st in set_w (World (w_mem w) (w_root w) (w_ss w) (w_ctx w) (explained w) (ticks w) (S (frames w))) st.

(** The value returned is not used. *)
Definition overlay_forward_payload (st : rx) : outcome rx :=
  let f := rx_f st in
  if ttl f =? 0 then Ret st
  else
    r ← op_dup (frame_alloc (frames (rx_w st))) (w_mem (rx_w st)) f;
    let st := next_frame (set_mem r.1 st) in
    match r.2 with
    | None => Ret st
    | Some qf =>
        r ← overlay_payload_enqueue qf st;
        let '(st, ret) := r in
        if negb (ret =? 0) then m ← op_free (w_mem (rx_w st)) qf; Ret (set_mem m st) else Ret st
    end.

Definition process_incoming_frame (st : rx) : outcome rx :=
  let f := rx_f st in
  if f_type f =? OF_TYPE_SELFANNOUNCE_ACK then link_state_legacy_ack st
  else if f_type f =? OF_TYPE_RHIZOME_ADVERT then overlay_rhizome_saw_advertisements st
  else if f_type f =? OF_TYPE_DATA then overlay_saw_mdp_containing_frame st
  else if f_type f =? OF_TYPE_PLEASEEXPLAIN then
    match f_payload f with
    | None => Undef
    | Some b =>
        let c := w_ctx (rx_w st) in
        r ← process_explain my_subscriber gettime_ms frame_alloc alloc enqueue unicast (rx_w st) (f_source f) (f_destination f) (interface c) b;
        let '(w, b, _, _) := r in
        Ret (set_f (with_payload (Some b) f) (set_w (set_ctx w c) st))
    end
  else Ret st.

(** What is done with a payload. [f.next_hop] is never set: it is NULL. *)
Definition deliver (header_valid : Z) (st : rx) : outcome rx :=
  st ← (if on header_valid HEADER_FORWARD then overlay_forward_payload st else Ret st);
  st ← (if on header_valid HEADER_PROCESS then process_incoming_frame st else Ret st);
  let f := rx_f st in
  Ret (if on (modifiers f) PAYLOAD_FLAG_ACK_SOON &&
          (bool_decide (my_subscriber = None) || bool_decide (f_destination f = my_subscriber) || bool_decide (f_destination f = None))
       then set_acks (rx_acks st ++ [sender (w_ctx (rx_w st))]) st else st).

(** [None]: the length does not fit the packet. *)
Definition payload_length (st : rx) : outcome (rx * option Z) :=
  if encapsulation (w_ctx (rx_w st)) =? ENCAP_SINGLE then n ← ob_remaining (rx_b st); Ret (st, Some n)
  else
    r ← ob_get_ui16 (w_mem (rx_w st)) (rx_b st);
    let st := set_b r.1 st in
    n ← ob_remaining (rx_b st);
    Ret (st, if n <? r.2 then None else Some r.2).

(** The loop over the payloads; each starts with a byte of flags. *)
Fixpoint payload_loop (fuel : nat) (st : rx) (ret : Z) : outcome (rx * Z) :=
  match fuel with
  | O => Undef
  | S fuel =>
      n ← ob_remaining (rx_b st);
      if 0 <? n then
        let st := on_ctx (λ c, put_flags c 0) st in
        let st := set_next None st in
        let st := set_f (with_broadcast (replicate BROADCAST_LEN 0) (rx_f st)) st in
        r ← parseMdpPacketHeader st;
        let '(st, header_valid) := r in
        if header_valid <? 0 then Ret (st, -1)
        else
          r ← payload_length st;
          match r with
          | (st, None) => Ret (st, -1)
          | (st, Some payload_len) =>
              let next_payload := i32 (szadd (ob_position (rx_b st)) payload_len) in
              let next (st : rx) :=
                payload_loop fuel (set_f (with_payload None (rx_f st)) (set_b (set_position (rx_b st) (wrapu size_bits next_payload)) st)) ret in
              if negb (header_valid =? 0) then
                match ob_slice (w_mem (rx_w st)) (rx_b st) (ob_position (rx_b st)) payload_len with
                | None => Ret (set_f (with_payload None (rx_f st)) st, ret)
                | Some p =>
                    p ← ob_limitsize p payload_len;
                    st ← deliver header_valid (set_f (with_payload (Some p) (rx_f st)) st);
                    next st
                end
              else next st
          end
      else Ret (st, ret)
  end.

(** [w] has the subscribers; the packet is the object at [packet]. Returns the
    request for explanation that is sent. The interface's count of packets is left
    out. *)
Definition packetOkOverlay (iface : overlay_interface) (w : world) (packet : ptr) (len : Z) (bpis : list (list Z))
    (neighbours : list neighbour) : outcome (rx * option out_frame * Z) :=
  let w := set_ctx w (Ctx None 0 0 0 0 None None None None) in
  match ob_static (w_mem w) (Some packet) len with
  | None => Undef
  | Some b =>
      b ← ob_limitsize b len;
      let f := Frame 0 0 0 0 0 None None (replicate BROADCAST_LEN 0) 0 None in
      r ← parseEnvelopeHeader iface (Rx w b f None bpis neighbours []);
      let '(st, ret) := r in
      if negb (ret =? 0) then Ret (st, None, ret)
      else
        r ← payload_loop (S (Z.to_nat len)) st 0;
        let '(st, ret) := r in
        sent ← send_please_explain my_subscriber enqueue unicast (w_ctx (rx_w st)) my_subscriber (sender (w_ctx (rx_w st)));
        Ret (st, sent.1, ret)
  end.

End Frame.
End OverlayFrame.
