(* ===== verification/OverlayFrameRound.v ===== *)
(** * Payloads in packets are understood

    What [overlay_frame_append_payload] writes, [parseMdpPacketHeader] reads back;
    a payload that does not fit leaves the packet as it was. *)

From S2P Require Import Prelude Mem OverlayBuffer OverlayBufferSpec OverlayBufferCodec OverlayBufferFill StrCtype StrNum StrScan DataFormats OverlayAddress OverlayAddressTree OverlayAddressWalk OverlayAddressCodec OverlayAddressRound LinkWindow OverlayFrame.
Import OB OBSpec OBCodec OBFill StrScan DataFormats OverlayAddress OverlayAddressTree OverlayAddressWalk OverlayAddressCodec OverlayAddressRound LinkWindow OverlayFrame.

Module OverlayFrameRound.
Section Round.
Context {arch : Arch} {allocator : Allocator}.

(** ** The flags of a header *)

Lemma on_bit x k : 0 ≤ k → on x (Z.shiftl 1 k) = Z.testbit x k.
Proof. apply mask_bit. Qed.
Lemma set_if_bit (c : bool) x f k : Z.testbit (if c then Z.lor x f else x) k = Z.testbit x k || (c && Z.testbit f k).
Proof. destruct c; [by rewrite Z.lor_spec|by rewrite orb_false_r]. Qed.

Definition one_hop (ttl : Z) (broadcast : option (list Z)) (next_hop destination : option nat) : bool :=
  ((ttl =? 1) && bool_decide (broadcast = None)) || (bool_decide (is_Some destination) && bool_decide (destination = next_hop)).

Lemma header_flags_bits sender type mods wr ttl bc nh d s :
  let flags := header_flags sender type mods wr ttl bc nh d s in
  on flags PAYLOAD_FLAG_SENDER_SAME = bool_decide (s = sender) ∧
  on flags PAYLOAD_FLAG_TO_BROADCAST = bool_decide (d = None) ∧
  on flags PAYLOAD_FLAG_ONE_HOP = one_hop ttl bc nh d ∧
  on flags PAYLOAD_FLAG_LEGACY_TYPE = negb (type =? OF_TYPE_DATA) ∧
  on flags PAYLOAD_FLAG_ACK_SOON = wr ∧
  on flags PAYLOAD_FLAG_CIPHERED = on mods PAYLOAD_FLAG_CIPHERED ∧
  on flags PAYLOAD_FLAG_SIGNED = on mods PAYLOAD_FLAG_SIGNED ∧ 0 ≤ flags.
Proof.
  intros flags. subst flags. unfold PAYLOAD_FLAG_SENDER_SAME, PAYLOAD_FLAG_TO_BROADCAST, PAYLOAD_FLAG_ONE_HOP, PAYLOAD_FLAG_LEGACY_TYPE,
    PAYLOAD_FLAG_ACK_SOON, PAYLOAD_FLAG_CIPHERED, PAYLOAD_FLAG_SIGNED, one_hop. rewrite !on_bit by lia. unfold header_flags. cbv zeta.
  rewrite !set_if_bit, !Z.land_spec. split_and!.
  8: { repeat match goal with |- context [if ?c then Z.lor _ _ else _] => destruct c end;
       repeat (apply Z.lor_nonneg; split); done || (apply Z.land_nonneg; by right). }
  all: cbn; rewrite ?andb_false_r, ?andb_true_r, ?orb_false_r, ?orb_false_l; done.
Qed.

(** ** Writing *)

Variable myA : option nat.

(** [bs] is what is written for the subscriber [s]; [c] and [ss] become [c'] and
    [ss']. *)
Definition addressed (c : decode_context) (ss : store) (s : nat) (c' : decode_context) (ss' : store) (bs : list Z) : Prop :=
  ∃ x code, ss !! s = Some x ∧ is_sid (sid x) ∧ address_code myA (Some c) s x = Ret code ∧
    bs = address_bytes code (Some c) x ∧ c' = set_previous c (Some s) ∧ Forall2 same_address ss ss' ∧ is_Some (interface c).

(** What has been written so far, in a packet without errors. *)
Record wrote (W : mem → overlay_buffer → list Z → Prop) (w : list Z) (n : nat) (t : tx) : Prop := {
  wt_content : W (tx_m t) (tx_b t) w;
  wt_sids : all_sids (tx_ss t);
  wt_count : length (tx_ss t) = n;
  wt_interface : is_Some (interface (tx_c t));
}.

Lemma put_address_spec W w n t s : appends W → wrote W w n t → (s < n)%nat → Z.of_nat (length w) + 33 + 2 ^ 17 ≤ SIZE_MAX →
  ∃ t' bs, put_address myA (Some s) t = Ret t' ∧ wrote W (w ++ bs) n t' ∧
    addressed (tx_c t) (tx_ss t) s (tx_c t') (tx_ss t') bs ∧ (0 < length bs ≤ 33)%nat.
Proof.
  intros HW [Hw Hs Hn Hi] Hlt Hmax. destruct t as [c m b ss]. cbn [tx_c tx_m tx_b tx_ss] in *. subst n.
  destruct (lookup_lt_is_Some_2 ss s Hlt) as [x Hx].
  assert (is_sid (sid x)) as Hsid by (unfold all_sids in Hs; rewrite Forall_lookup in Hs; by eapply Hs).
  destruct (address_code_cases myA c s x Hi) as (code & Hc & _).
  destruct (append_spec W myA (Some c) m b w ss s x code HW Hw Hx Hsid Hc) as (m1 & b1 & ss1 & Ha & Hw1 & Hs1); [lia|].
  unfold put_address. cbn [tx_c tx_m tx_b tx_ss]. rewrite Ha, bind_ret_l. cbn [fmap option_fmap option_map].
  eexists _, _. split; [reflexivity|]. split; [|split; [by exists x, code|by apply address_bytes_length]].
  split; cbn; [done|by eapply same_all_sids|symmetry; by eapply Forall2_length|done].
Qed.

Lemma put_byte_spec W w n t v : appends W → wrote W w n t → Z.of_nat (length w) + 1 + 2 ^ 17 ≤ SIZE_MAX →
  ∃ t', put_byte v t = Ret t' ∧ wrote W (w ++ [v]) n t' ∧ tx_c t' = tx_c t ∧ tx_ss t' = tx_ss t.
Proof.
  intros HW [Hw Hs Hn Hi] Hmax. destruct t as [c m b ss]. cbn [tx_c tx_m tx_b tx_ss] in *. unfold put_byte, ob_append_byte. cbn [tx_c tx_m tx_b tx_ss].
  destruct (HW m b w [v] Hw ltac:(done)) as (m1 & b1 & -> & Hw1); [cbn [length]; lia|]. rewrite bind_ret_l.
  eexists. split; [reflexivity|]. by split_and!.
Qed.

(** The pieces of a header. *)
Definition source_sent (same : bool) (s : nat) (c : decode_context) (ss : store) (c' : decode_context) (ss' : store) (bs : list Z) : Prop :=
  if same then c' = c ∧ ss' = ss ∧ bs = [] else addressed c ss s c' ss' bs.
Definition destination_sent (hop : bool) (d nh : option nat) (id : list Z) (c : decode_context) (ss : store) (c' : decode_context) (ss' : store)
    (bs : list Z) : Prop :=
  match d with
  | None => c' = c ∧ ss' = ss ∧ bs = if hop then [] else id
  | Some d => ∃ c1 ss1 b1 b2, addressed c ss d c1 ss1 b1 ∧ bs = b1 ++ b2 ∧
      if hop then c' = c1 ∧ ss' = ss1 ∧ b2 = [] else ∃ n, nh = Some n ∧ addressed c1 ss1 n c' ss' b2
  end.
Definition tail_bytes (hop legacy : bool) (ttl queue type version seq : Z) : list Z :=
  (if hop then [] else [Z.lor ttl (Z.shiftl (Z.land queue 3) 5)]) ++ (if legacy then [type] else []) ++ (if 1 <=? version then [seq] else []).

(** A payload whose header can be written: its addresses are known, and it has a
    next hop or a broadcast identifier where one is sent. *)
Record sendable (n : nat) (p : overlay_frame) (nh : option nat) (bc : option (list Z)) (s : nat) : Prop := {
  sd_ttl : 0 ≤ ttl p ≤ 31;
  sd_type : 0 ≤ f_type p < 256;
  sd_source : f_source p = Some s ∧ (s < n)%nat;
  sd_id : length (broadcast_id p) = BROADCAST_LEN;
  sd_hop : match f_destination p with
           | Some d => (d < n)%nat ∧ ∃ h, nh = Some h ∧ (h < n)%nat
           | None => one_hop (ttl p) bc nh None = false → bc = Some (broadcast_id p)
           end;
}.

Lemma put_if_byte W w n t (c : bool) v : appends W → wrote W w n t → Z.of_nat (length w) + 1 + 2 ^ 17 ≤ SIZE_MAX →
  ∃ t', (if c then put_byte v t else Ret t) = Ret t' ∧ wrote W (w ++ if c then [v] else []) n t' ∧ tx_c t' = tx_c t ∧ tx_ss t' = tx_ss t.
Proof. intros. destruct c; [by apply put_byte_spec|]. exists t. by rewrite app_nil_r. Qed.

Lemma put_source_spec W w n t (same : bool) s : appends W → wrote W w n t → (s < n)%nat → Z.of_nat (length w) + 33 + 2 ^ 17 ≤ SIZE_MAX →
  ∃ t' bs, (if negb same then put_address myA (Some s) t else Ret t) = Ret t' ∧ wrote W (w ++ bs) n t' ∧
    source_sent same s (tx_c t) (tx_ss t) (tx_c t') (tx_ss t') bs ∧ (length bs ≤ 33)%nat.
Proof.
  intros HW Ht Hs Hmax. destruct same; cbn [negb source_sent].
  - exists t, []. rewrite app_nil_r. split_and!; try done. cbn. lia.
  - destruct (put_address_spec W w n t s HW Ht Hs Hmax) as (t' & bs & -> & ? & ? & ?). exists t', bs. split_and!; try done. lia.
Qed.

Lemma put_destination_spec W w n t p nh bc s : appends W → wrote W w n t → sendable n p nh bc s → Z.of_nat (length w) + 66 + 2 ^ 17 ≤ SIZE_MAX →
  let hop := one_hop (ttl p) bc nh (f_destination p) in
  ∃ t' bs, (if bool_decide (f_destination p = None) then if negb hop then put_broadcast bc t else Ret t
            else t ← put_address myA (f_destination p) t; if negb hop then put_address myA nh t else Ret t) = Ret t' ∧
    wrote W (w ++ bs) n t' ∧
    destination_sent hop (f_destination p) nh (broadcast_id p) (tx_c t) (tx_ss t) (tx_c t') (tx_ss t') bs ∧ (length bs ≤ 66)%nat.
Proof.
  intros HW Ht [_ _ _ Hid Hh] Hmax hop. destruct (f_destination p) as [d|] eqn:Ed.
  - rewrite bool_decide_false by done. destruct Hh as [Hd (h & -> & Hh)].
    destruct (put_address_spec W w n t d HW Ht Hd) as (t1 & b1 & -> & Ht1 & Ha1 & Hl1); [lia|]. rewrite bind_ret_l.
    destruct (put_source_spec W _ n t1 hop h HW Ht1 Hh) as (t2 & b2 & -> & Ht2 & Ha2 & Hl2); [rewrite length_app; lia|].
    exists t2, (b1 ++ b2). rewrite app_assoc, length_app. split_and!; [done|done| |lia].
    eexists _, _, _, _. split; [exact Ha1|]. split; [done|]. destruct hop; [done|]. exists h. done.
  - rewrite bool_decide_true by done. fold hop in Hh. cbn [destination_sent]. destruct hop; cbn [negb].
    + exists t, []. rewrite app_nil_r. split_and!; try done. cbn. lia.
    + rewrite (Hh eq_refl). unfold put_broadcast, overlay_broadcast_append. rewrite Hid, bool_decide_true by done.
      destruct Ht as [Hw Hs Hn Hi]. unfold ob_append_bytes. rewrite firstn_all2 by lia. rewrite Hid. change (0 <? Z.of_nat BROADCAST_LEN) with true.
      destruct (HW (tx_m t) (tx_b t) w (broadcast_id p) Hw) as (m1 & b1 & -> & Hw1).
      { by intros E; rewrite E in Hid. }
      { rewrite Hid. unfold BROADCAST_LEN. lia. }
      rewrite !bind_ret_l. exists (Tx (tx_c t) m1 b1 (tx_ss t)), (broadcast_id p). split_and!; try done. rewrite Hid. unfold BROADCAST_LEN. lia.
Qed.

(** The header that is written. *)
Definition header_sent (p : overlay_frame) (nh : option nat) (bc : option (list Z)) (wr : bool) (s : nat) (c : decode_context) (ss : store)
    (c' : decode_context) (ss' : store) (bs : list Z) : Prop :=
  let flags := header_flags (sender c) (f_type p) (modifiers p) wr (ttl p) bc nh (f_destination p) (f_source p) in
  let hop := one_hop (ttl p) bc nh (f_destination p) in
  ∃ c1 ss1 b1 b2, source_sent (bool_decide (f_source p = sender c)) s c ss c1 ss1 b1 ∧
    destination_sent hop (f_destination p) nh (broadcast_id p) c1 ss1 c' ss' b2 ∧
    bs = [flags] ++ b1 ++ b2 ++ tail_bytes hop (negb (f_type p =? OF_TYPE_DATA)) (ttl p) (queue p) (f_type p) (f_packet_version p) (u8 (Z.land (mdp_sequence p) 0xFF)).

Lemma build_header_spec W w n t p nh bc wr s : appends W → wrote W w n t → sendable n p nh bc s →
  Z.of_nat (length w) + 110 + 2 ^ 17 ≤ SIZE_MAX →
  ∃ t' bs, overlay_frame_build_header myA (f_packet_version p) t (queue p) (f_type p) (modifiers p) wr (ttl p)
      (Z.land (mdp_sequence p) 0xFF) bc nh (f_destination p) (f_source p) = Ret (t', 0) ∧
    wrote W (w ++ bs) n t' ∧ header_sent p nh bc wr s (tx_c t) (tx_ss t) (tx_c t') (tx_ss t') bs ∧ (length bs ≤ 110)%nat.
Proof.
  intros HW Ht Hsd Hmax. pose proof Hsd as [Httl Htype [Hsrc Hs] Hid Hh].
  unfold overlay_frame_build_header. rewrite (proj2 (Z.ltb_ge _ 0)), (proj2 (Z.ltb_ge PAYLOAD_TTL_MAX _)) by (unfold PAYLOAD_TTL_MAX; lia). cbn [orb].
  set (flags := header_flags _ _ _ _ _ _ _ _ _).
  destruct (header_flags_bits (sender (tx_c t)) (f_type p) (modifiers p) wr (ttl p) bc nh (f_destination p) (f_source p))
    as (F1 & F2 & F3 & F4 & _). fold flags in F1, F2, F3, F4. rewrite F1, F2, F3, F4.
  set (hop := one_hop (ttl p) bc nh (f_destination p)) in *.
  destruct (put_byte_spec W w n t flags HW Ht) as (t1 & -> & Ht1 & Ec1 & Es1); [lia|]. rewrite bind_ret_l, Hsrc.
  destruct (put_source_spec W _ n t1 (bool_decide (Some s = sender (tx_c t))) s HW Ht1 Hs) as (t2 & b1 & -> & Ht2 & Hs2 & Hl2);
    [rewrite length_app; cbn [length]; lia|]. rewrite bind_ret_l.
  destruct (put_destination_spec W _ n t2 p nh bc s HW Ht2 Hsd) as (t3 & b2 & Hput & Ht3 & Hs3 & Hl3);
    [rewrite !length_app; cbn [length]; lia|]. fold hop in Hput, Hs3. rewrite Hput, bind_ret_l.
  destruct (put_if_byte W _ n t3 (negb hop) (Z.lor (ttl p) (Z.shiftl (Z.land (queue p) 3) 5)) HW Ht3) as (t4 & -> & Ht4 & Ec4 & Es4);
    [rewrite !length_app; cbn [length]; lia|]. rewrite bind_ret_l.
  destruct (put_if_byte W _ n t4 (negb (f_type p =? OF_TYPE_DATA)) (u8 (f_type p)) HW Ht4) as (t5 & -> & Ht5 & Ec5 & Es5);
    [rewrite !length_app; destruct (negb hop); cbn [length]; lia|]. rewrite bind_ret_l.
  destruct (put_if_byte W _ n t5 (1 <=? f_packet_version p) (u8 (Z.land (mdp_sequence p) 0xFF)) HW Ht5) as (t6 & -> & Ht6 & Ec6 & Es6);
    [rewrite !length_app; destruct (negb hop), (negb (f_type p =? _)); cbn [length]; lia|]. rewrite bind_ret_l.
  exists t6, ([flags] ++ b1 ++ b2 ++ tail_bytes hop (negb (f_type p =? OF_TYPE_DATA)) (ttl p) (queue p) (f_type p) (f_packet_version p)
    (u8 (Z.land (mdp_sequence p) 0xFF))).
  split; [done|]. split; [|split].
  - rewrite (wrapu_small 8 (f_type p)) in Ht6 by lia. unfold tail_bytes. rewrite !app_assoc in *. destruct hop; exact Ht6.
  - unfold header_sent. rewrite Hsrc. fold flags hop. exists (tx_c t2), (tx_ss t2), b1, b2. rewrite Ec1, Es1 in Hs2.
    rewrite Ec6, Ec5, Ec4, Es6, Es5, Es4. unfold flags. rewrite Hsrc. done.
  - unfold tail_bytes. rewrite !length_app. destruct hop, (negb (f_type p =? _)), (1 <=? f_packet_version p); cbn [length]; lia.
Qed.

(** ** A payload is written whole or not at all *)

Lemma all_matching id : is_all_matching id (length id) 0 = Ret (bool_decide (id = replicate (length id) 0)).
Proof.
  induction id as [|x id IH]; [done|]. cbn [length is_all_matching replicate]. destruct (Z.eqb_spec x 0) as [->|Hx]; cbn [negb].
  - rewrite IH. f_equal. apply bool_decide_ext. split; [intros E; congruence|intros E; congruence].
  - by rewrite bool_decide_false by (by intros [= -> _]).
Qed.

(** The broadcast identifier that is sent: none if it is all zero. *)
Definition broadcast_of (p : overlay_frame) : option (list Z) :=
  if bool_decide (f_destination p = None) && negb (bool_decide (broadcast_id p = replicate (length (broadcast_id p)) 0))
  then Some (broadcast_id p) else None.

(** The payload [pl] in its buffer, beside the packet. *)
Definition beside (pb : overlay_buffer) (pl : list Z) (m : mem) (b : overlay_buffer) : Prop := pl = [] ∨
  ∃ p l, bytes pb = Some p ∧ m !! blk p = Some l ∧ apart b (blk p) ∧ load_bytes m p (Z.of_nat (length pl)) = Ret pl.
Lemma beside_appends W pb pl : appends W → appends (λ m b w, W m b w ∧ beside pb pl m b).
Proof.
  intros HW m b w bs [Hw Hb] Hbs Hmax. destruct (HW m b w bs Hw Hbs Hmax) as (m' & b' & Ha & Hw'). exists m', b'. split; [done|]. split; [done|].
  destruct Hb as [->|(p & l & Hp & Hl & Hap & Hld)]; [by left|]. right. exists p, l.
  destruct (append_frame _ _ _ _ _ _ _ Ha Hl Hap) as [Hl' Hap']. split_and!; [done..|].
  unfold load_bytes, object_at in Hld |- *. rewrite Hl'. by rewrite Hl in Hld.
Qed.

Definition length_bytes (encapsulation : Z) (pl : list Z) : list Z :=
  if encapsulation =? ENCAP_OVERLAY then be_bytes 2 (Z.of_nat (length pl)) else [].

Lemma put_payload_spec W w n t encap pb pl : appends W → wrote (λ m b w, W m b w ∧ beside pb pl m b) w n t →
  position pb = Z.of_nat (length pl) → Z.of_nat (length w) + Z.of_nat (length pl) + 2 + 2 ^ 17 ≤ SIZE_MAX →
  ∃ t', (t ← (if encap =? ENCAP_OVERLAY then
                r ← ob_append_ui16 (tx_m t) (tx_b t) (ob_position pb); Ret (Tx (tx_c t) r.1 r.2 (tx_ss t))
              else Ret t);
         if negb (ob_position pb =? 0) then
           match bytes pb with
           | None => Undef
           | Some p =>
               bs ← load_bytes (tx_m t) p (ob_position pb);
               r ← ob_append_bytes (tx_m t) (tx_b t) bs; Ret (Tx (tx_c t) r.1 r.2 (tx_ss t))
           end
         else Ret t) = Ret t' ∧
    wrote W (w ++ length_bytes encap pl ++ pl) n t' ∧ tx_c t' = tx_c t ∧ tx_ss t' = tx_ss t.
Proof.
  intros HW Ht Hpos Hmax. pose proof (beside_appends W pb pl HW) as HB. unfold ob_position. rewrite Hpos.
  assert (∃ t1, (if encap =? ENCAP_OVERLAY then r ← ob_append_ui16 (tx_m t) (tx_b t) (Z.of_nat (length pl)); Ret (Tx (tx_c t) r.1 r.2 (tx_ss t))
    else Ret t) = Ret t1 ∧ wrote (λ m b w, W m b w ∧ beside pb pl m b) (w ++ length_bytes encap pl) n t1 ∧ tx_c t1 = tx_c t ∧ tx_ss t1 = tx_ss t)
    as (t1 & -> & [[Hw1 Hb1] Hs1 Hn1 Hi1] & Ec & Es).
  { unfold length_bytes. destruct (encap =? ENCAP_OVERLAY); [|exists t; rewrite app_nil_r; by split_and!]. rewrite be_bytes_2. unfold ob_append_ui16.
    destruct Ht as [Hw Hs Hn Hi]. match goal with |- context [append_raw _ _ ?x] => destruct (HB (tx_m t) (tx_b t) w x Hw ltac:(done)) as (m1 & b1 & -> & Hw1) end;
      [cbn [length]; lia|]. rewrite bind_ret_l. eexists. split; [reflexivity|]. by split_and!. }
  rewrite bind_ret_l. destruct (Z.eqb_spec (Z.of_nat (length pl)) 0) as [E|E]; cbn [negb].
  { destruct pl; [|done]. exists t1. rewrite app_nil_r. by split_and!. }
  destruct Hb1 as [->|(p & l & -> & _ & _ & ->)]; [done|]. rewrite bind_ret_l. unfold ob_append_bytes.
  rewrite (proj2 (Z.ltb_lt 0 _)) by lia. destruct (HW (tx_m t1) (tx_b t1) _ pl Hw1) as (m2 & b2 & -> & Hw2).
  { by intros ->. }
  { unfold length_bytes. rewrite length_app. destruct (encap =? _); rewrite ?be_bytes_length; cbn [length]; lia. }
  rewrite bind_ret_l. eexists. split; [reflexivity|]. split; [|done]. rewrite app_assoc. by split.
Qed.

Lemma append_payload_spec L cp w n t p nh wr s encap pb pl : malloc_total → wrote (filling L cp) w n t → Z.of_nat (length w) ≤ L →
  sendable n p nh (broadcast_of p) s → f_payload p = Some pb → position pb = Z.of_nat (length pl) → Z.of_nat (length pl) < 65536 →
  beside pb pl (tx_m t) (tx_b t) →
  ∃ bs t', let fb := bs ++ length_bytes encap pl ++ pl in let fits := bool_decide (Z.of_nat (length (w ++ fb)) ≤ L) in
    overlay_frame_append_payload myA encap t p nh wr = Ret (t', if fits then 0 else -1) ∧
    wrote (filling L (length w)) (if fits then w ++ fb else w) n t' ∧
    header_sent p nh (broadcast_of p) wr s (tx_c t) (tx_ss t) (tx_c t') (tx_ss t') bs.
Proof.
  intros Hm [Hw Hs Hn Hi] Hle Hsd Hpb Hpos Hpl Hbe. pose proof (fi_small _ _ _ _ _ Hw) as Hsm.
  pose proof (checkpoint_filling _ _ _ _ _ Hw Hle) as Hw0. set (t0 := Tx (tx_c t) (tx_m t) (ob_checkpoint (tx_b t)) (tx_ss t)).
  pose proof (filling_appends L (length w) Hm) as HW.
  assert (wrote (λ m b w', filling L (length w) m b w' ∧ beside pb pl m b) w n t0) as Ht0.
  { split; cbn; [|done..]. split; [done|]. destruct Hbe as [->|(q & l & H1 & H2 & H3 & H4)]; [by left|right]. by exists q, l. }
  unfold overlay_frame_append_payload. fold t0. rewrite <- (sd_id _ _ _ _ _ Hsd), all_matching, bind_ret_l. fold (broadcast_of p).
  destruct (build_header_spec _ w n t0 p nh (broadcast_of p) wr s (beside_appends _ pb pl HW) Ht0 Hsd) as (t1 & bs & -> & Ht1 & Hh & Hl); [lia|].
  rewrite bind_ret_l. cbn [Z.eqb]. rewrite Hpb.
  destruct (put_payload_spec _ (w ++ bs) n t1 encap pb pl HW Ht1 Hpos) as (t2 & Hput & Ht2 & Ec & Es); [rewrite length_app; lia|].
  rewrite <- app_assoc in Ht2. set (fb := bs ++ length_bytes encap pl ++ pl) in *.
  match type of Hput with (?a ≫= ?k) = _ => match goal with |- context [a ≫= ?k'] =>
    replace (a ≫= k') with ((a ≫= k) ≫= λ t, if negb (ob_overrun (tx_b t)) then Ret (t, 0) else
      Ret (Tx (tx_c t) (tx_m t) (ob_rewind (tx_b t)) (tx_ss t), -1)) by (by destruct a) end end.
  rewrite Hput, bind_ret_l. destruct Ht2 as [Hw2 Hs2 Hn2 Hi2]. rewrite (filling_overrun _ _ _ _ _ Hw2).
  destruct (bool_decide_reflect (L < Z.of_nat (length (w ++ fb)))) as [Hlt|Hge]; cbn [negb].
  - exists bs, (Tx (tx_c t2) (tx_m t2) (ob_rewind (tx_b t2)) (tx_ss t2)). cbn zeta. rewrite bool_decide_false by (fold fb; lia).
    split_and!; [done| |by cbn; rewrite Ec, Es]. split; cbn; [|done..]. apply rewind_filling in Hw2. by rewrite take_app_length in Hw2.
  - exists bs, t2. cbn zeta. rewrite bool_decide_true by (fold fb; lia). split_and!; [done|by split|by rewrite Ec, Es].
Qed.

(** ** Reading *)

Variables (myB : option nat) (gettime_ms : nat → Z) (frame_alloc alloc : nat → bool).

(** The world of the reader, with another previous address. *)
Definition follow (w : world) (s : option nat) : world := set_ctx w (set_previous (w_ctx w) s).
Lemma follow_same w : follow w (previous (w_ctx w)) = w.
Proof. by destruct w as [? ? ? [] ? ? ?]. Qed.

Definition self_at (ss : store) (t : nat) : bool := match ss !! t with Some x => reachable x =? REACHABLE_SELF | None => false end.

(** Running readers in sequence. *)
Lemma and_then_ret {A B} (p : reader A) (k : A → reader B) st st' a : p st = Ret (st', Some a) → and_then p k st = k a st'.
Proof. intros E. unfold and_then. by rewrite E, bind_ret_l. Qed.
Lemma and_then_look {A B} (g : rx → A) (k : A → reader B) st : and_then (look g) k st = k (g st) st.
Proof. done. Qed.
Lemma and_then_modify {B} (g : rx → rx) (k : unit → reader B) st : and_then (modify g) k st = k tt (g st).
Proof. done. Qed.

Lemma get_spec w b f nx bp nb ac pre v post : reading (w_mem w) b (pre ++ v :: post) (length pre) →
  ∃ b', get (Rx w b f nx bp nb ac) = Ret (Rx w b' f nx bp nb ac, Some v) ∧ reading (w_mem w) b' (pre ++ v :: post) (length (pre ++ [v])).
Proof.
  intros Hr. destruct (ob_get_reading _ _ _ _ _ Hr) as (b' & Hg & Hr'). exists b'. unfold get. cbn [rx_w rx_b]. by rewrite Hg, bind_ret_l.
Qed.

(** What [A] and [B] agree on. *)
Record agreed (ssA : store) (cA : decode_context) (w : world) : Prop := {
  ag_tree : tree_reachable (w_root w) (w_ss w);
  ag_linked : linked myA myB ssA (w_ss w) cA (w_ctx w);
}.

Lemma get_address_spec ssA cA s cA' ssA' bs w b f nx bp nb ac cur set pre post : agreed ssA cA w → addressed cA ssA s cA' ssA' bs →
  understood ssA (w_ss w) s → reading (w_mem w) b (pre ++ bs ++ post) (length pre) →
  ∃ b' t, get_address myB gettime_ms frame_alloc alloc cur set (Rx w b f nx bp nb ac) =
      Ret (set (Some t) (Rx (follow w (Some t)) b' f nx bp nb ac), Some tt) ∧
    same_sid_at ssA (w_ss w) s t ∧ reading (w_mem w) b' (pre ++ bs ++ post) (length (pre ++ bs)) ∧ agreed ssA' cA' (follow w (Some t)).
Proof.
  intros [Ht Hl] (x & code & Hx & Hsid & Hc & -> & -> & H2 & Hi) Hu Hr.
  destruct (parse_spec myA myB gettime_ms frame_alloc alloc ssA cA s x code w b (cur (Rx w b f nx bp nb ac)) pre post Ht Hl Hx Hsid Hu Hi Hc Hr)
    as (b' & t & Hp & Hst & Hr').
  exists b', t. unfold get_address. cbn [rx_w rx_b]. rewrite Hp, bind_ret_l. split_and!; [done..|]. split; [done|]. by eapply linked_next.
Qed.

Lemma is_self_spec w b f nx bp nb ac ssA s t : same_sid_at ssA (w_ss w) s t →
  is_self (Some t) (Rx w b f nx bp nb ac) = Ret (Rx w b f nx bp nb ac, Some (self_at (w_ss w) t)).
Proof. intros (x & y & _ & Hy & _). unfold is_self, self_at. cbn [rx_w]. by rewrite Hy. Qed.

Lemma read_source_spec flags ssA cA s cA' ssA' bs w b f nx bp nb ac pre post : agreed ssA cA w →
  source_sent (on flags PAYLOAD_FLAG_SENDER_SAME) s cA ssA cA' ssA' bs →
  (on flags PAYLOAD_FLAG_SENDER_SAME = true → sender cA = Some s) → understood ssA (w_ss w) s →
  reading (w_mem w) b (pre ++ bs ++ post) (length pre) →
  ∃ b' t prev, let ok := on flags PAYLOAD_FLAG_SENDER_SAME || negb (self_at (w_ss w) t) in
    read_source myB gettime_ms frame_alloc alloc flags (Rx w b f nx bp nb ac) =
      Ret (Rx (follow w prev) b' (with_source (Some t) f) nx bp nb ac, Some (ok, ok)) ∧
    same_sid_at ssA (w_ss w) s t ∧ reading (w_mem w) b' (pre ++ bs ++ post) (length (pre ++ bs)) ∧ agreed ssA' cA' (follow w prev).
Proof.
  intros Ha Hs Hsame Hu Hr. unfold read_source. destruct (on flags PAYLOAD_FLAG_SENDER_SAME); cbn [source_sent] in Hs.
  - destruct Hs as (-> & -> & ->). destruct (sender (w_ctx w)) as [t|] eqn:Et.
    2: { pose proof (lk_sender _ _ _ _ _ _ (ag_linked _ _ _ Ha)) as Hl. by rewrite Et, (Hsame eq_refl) in Hl. }
    exists b, t, (previous (w_ctx w)). rewrite follow_same, app_nil_r. unfold look, and_then, modify, go. cbn [rx_w]. rewrite bind_ret_l, Et. cbn.
    split_and!; [done| |done|done]. pose proof (lk_sender _ _ _ _ _ _ (ag_linked _ _ _ Ha)) as Hl. by rewrite Et, (Hsame eq_refl) in Hl.
  - destruct (get_address_spec ssA cA s cA' ssA' bs w b f nx bp nb ac (λ st, f_source (rx_f st)) (λ s st, set_f (with_source s (rx_f st)) st)
      pre post Ha Hs Hu Hr) as (b' & t & Hg & Hst & Hr' & Ha').
    exists b', t, (Some t). cbn zeta. rewrite (and_then_ret _ _ _ _ _ Hg). unfold set_f.
    cbn [rx_f with_source f_source rx_w rx_b rx_next rx_bpis rx_neighbours rx_acks].
    rewrite and_then_look. cbn [rx_f f_source]. rewrite bool_decide_false by done.
    rewrite (and_then_ret _ _ _ _ _ (is_self_spec (follow w (Some t)) b' (with_source (Some t) f) nx bp nb ac ssA s t Hst)).
    split_and!; [|done..]. cbn [orb follow set_ctx w_ss]. by destruct (self_at (w_ss w) t).
Qed.

(** A world that differs only in the previous address and the number of times the
    clock was read. *)
Definition same_world (w w' : world) : Prop :=
  w_mem w' = w_mem w ∧ w_root w' = w_root w ∧ w_ss w' = w_ss w ∧ ∃ p, w_ctx w' = set_previous (w_ctx w) p.
Lemma same_world_follow w p : same_world w (follow w p).
Proof. split_and!; [done..|]. by exists p. Qed.
Lemma same_world_trans w1 w2 w3 : same_world w1 w2 → same_world w2 w3 → same_world w1 w3.
Proof. intros (A1 & A2 & A3 & p & A4) (B1 & B2 & B3 & q & B4). split_and!; [congruence..|]. exists q. by rewrite B4, A4. Qed.

Definition self_of (ss : store) (t : option nat) : bool := match t with Some t => self_at ss t | None => false end.

Lemma same_address_sym ss ss' : Forall2 same_address ss ss' → Forall2 same_address ss' ss.
Proof. intros H2. apply Forall2_flip. eapply Forall2_impl; [exact H2|]. by intros ? ? [-> ->]. Qed.

Lemma drop_check_total id bp : bpi_table bp → ∃ bp' dup, overlay_broadcast_drop_check id bp = Ret (bp', if (dup : bool) then 1 else 0).
Proof.
  intros [Hl _]. unfold overlay_broadcast_drop_check.
  destruct (lookup_lt_is_Some_2 bp (Z.to_nat (bpi_index id))) as [old Hold]; [rewrite Hl; apply bpi_index_range|].
  rewrite Hold. destruct (memcmp old id =? 0); cbn [negb]; [by exists bp, true|by eexists _, false].
Qed.

Lemma read_broadcast_spec pr fw id w b f nx bp nb ac pre post : bpi_table bp → length id = BROADCAST_LEN →
  reading (w_mem w) b (pre ++ id ++ post) (length pre) →
  ∃ b' w' bp' dup, let relay := negb (link_state_should_forward_broadcast nb (sender (w_ctx w)) (gettime_ms (ticks w)) =? 0) in
    read_broadcast gettime_ms (pr, fw) (Rx w b f nx bp nb ac) =
      Ret (Rx w' b' (with_broadcast id f) nx bp' nb ac, Some (pr && negb dup, fw && (negb dup && relay))) ∧
    overlay_broadcast_drop_check id bp = Ret (bp', if (dup : bool) then 1 else 0) ∧
    same_world w w' ∧ w_ctx w' = w_ctx w ∧ reading (w_mem w) b' (pre ++ id ++ post) (length (pre ++ id)).
Proof.
  intros Hbp Hid Hr. destruct (get_bytes_reading _ _ _ _ _ Hr) as (b' & Hg & Hr'); [by intros ->|]. rewrite Hid in Hg.
  destruct (drop_check_total id bp Hbp) as (bp' & dup & Hd).
  exists b', (World (w_mem w) (w_root w) (w_ss w) (w_ctx w) (explained w) (S (ticks w)) (frames w)), bp', dup.
  unfold read_broadcast, overlay_broadcast_parse. cbn [rx_w rx_b]. rewrite Hg, bind_ret_l. cbn [rx_bpis set_f set_b]. rewrite Hd, bind_ret_l.
  split_and!; [|done|split_and!; [done..|]; exists (previous (w_ctx w)); by destruct (w_ctx w)|done|done].
  cbn. destruct dup, (link_state_should_forward_broadcast _ _ _ =? 0); cbn; by rewrite ?andb_false_r, ?andb_true_r.
Qed.

(** What is read of the destination. *)
Record destination_read (hop : bool) (d nh : option nat) (id : list Z) (ssA : store) (w : world) (bp : list (list Z)) (nb : list neighbour)
    (td nx' : option nat) (bp' : list (list Z)) (dup : bool) : Prop := {
  dr_destination : resolves ssA (w_ss w) d td;
  dr_next : is_Some d → hop = false → resolves ssA (w_ss w) nh nx';
  dr_seen : d = None → hop = false → overlay_broadcast_drop_check id bp = Ret (bp', if dup then 1 else 0);
  dr_bpis : is_Some d ∨ hop = true → bp' = bp;
}.
Definition wanted (hop : bool) (ss : store) (td : option nat) (dup : bool) : bool :=
  match td with Some t => self_at ss t | None => hop || negb dup end.
Definition passed_on (hop : bool) (ss : store) (td nx : option nat) (dup relay : bool) : bool :=
  match td with Some _ => hop || self_of ss nx | None => hop || (negb dup && relay) end.

Lemma read_destination_spec flags (d nh : option nat) id ssA cA cA' ssA' bs w b f nx bp nb ac pr fw pre post : agreed ssA cA w → bpi_table bp →
  length id = BROADCAST_LEN → on flags PAYLOAD_FLAG_TO_BROADCAST = bool_decide (d = None) →
  let hop := on flags PAYLOAD_FLAG_ONE_HOP in
  destination_sent hop d nh id cA ssA cA' ssA' bs →
  (∀ x, d = Some x ∨ nh = Some x → understood ssA (w_ss w) x) →
  reading (w_mem w) b (pre ++ bs ++ post) (length pre) →
  ∃ b' w' td nx' bp' dup,
    let relay := negb (link_state_should_forward_broadcast nb (sender (w_ctx w)) (gettime_ms (ticks w)) =? 0) in
    read_destination myB gettime_ms frame_alloc alloc flags (pr, fw) (Rx w b f nx bp nb ac) =
      Ret (Rx w' b' (with_destination td (if bool_decide (d = None) && negb hop then with_broadcast id f else f)) nx' bp' nb ac,
           Some (pr && wanted hop (w_ss w) td dup, fw && passed_on hop (w_ss w) td nx' dup relay)) ∧
    destination_read hop d nh id ssA w bp nb td nx' bp' dup ∧
    same_world w w' ∧ reading (w_mem w) b' (pre ++ bs ++ post) (length (pre ++ bs)) ∧ agreed ssA' cA' w'.
Proof.
  intros Ha Hbp Hid Hbc hop Hs Hu Hr. unfold read_destination. fold hop. rewrite Hbc. destruct d as [d|].
  - rewrite bool_decide_false by done. destruct Hs as (c1 & ss1 & b1 & b2 & Ha1 & -> & Hs2). rewrite <- app_assoc in Hr.
    destruct (get_address_spec ssA cA d c1 ss1 b1 w b f nx bp nb ac (λ st, f_destination (rx_f st)) (λ s st, set_f (with_destination s (rx_f st)) st)
      pre (b2 ++ post) Ha Ha1 ltac:(by apply Hu; left) Hr) as (b3 & t & Hg & Hst & Hr1 & Hag1).
    rewrite (and_then_ret _ _ _ _ _ Hg). unfold set_f. cbn [rx_f rx_w rx_b rx_next rx_bpis rx_neighbours rx_acks].
    rewrite and_then_look. cbn [rx_f with_destination f_destination]. rewrite bool_decide_false by done.
    rewrite (and_then_ret _ _ _ _ _ (is_self_spec (follow w (Some t)) b3 (with_destination (Some t) f) nx bp nb ac ssA d t Hst)).
    cbn [w_ss follow set_ctx]. destruct hop; cbn [negb].
    + destruct Hs2 as (-> & -> & ->). exists b3, (follow w (Some t)), (Some t), nx, bp, false. cbn zeta. rewrite app_nil_r. cbn [app] in *.
      split_and!; [|by split|apply same_world_follow|done|done].
      unfold go. cbn. by destruct (self_at (w_ss w) t); rewrite ?andb_true_r, ?andb_false_r.
    + destruct Hs2 as (n & -> & Ha2). rewrite app_assoc in Hr1.
      destruct Ha1 as (x1 & code1 & _ & _ & _ & _ & _ & H2 & _).
      destruct (get_address_spec ss1 c1 n cA' ssA' b2 (follow w (Some t)) b3 (with_destination (Some t) f) nx bp nb ac rx_next set_next
        (pre ++ b1) post Hag1 Ha2) as (b4 & t' & Hg2 & Hst2 & Hr2 & Hag2); [|done|].
      { eapply understood_change; [exact H2|]. apply Hu. by right. }
      rewrite (and_then_ret _ _ _ _ _ Hg2). unfold set_next. cbn [rx_f rx_w rx_b rx_next rx_bpis rx_neighbours rx_acks].
      rewrite and_then_look. cbn [rx_next]. rewrite bool_decide_false by done.
      rewrite (and_then_ret _ _ _ _ _ (is_self_spec (follow (follow w (Some t)) (Some t')) b4 (with_destination (Some t) f) (Some t') bp nb ac ss1 n t' Hst2)).
      cbn [w_ss follow set_ctx] in *.
      exists b4, (follow (follow w (Some t)) (Some t')), (Some t), (Some t'), bp, false. cbn zeta. rewrite <- app_assoc in Hr2.
      split_and!; [| |eapply same_world_trans; apply same_world_follow| |done].
      * unfold go. cbn. by destruct (self_at (w_ss w) t), (self_at (w_ss w) t'); rewrite ?andb_true_r, ?andb_false_r.
      * split; try done. intros _ _. cbn. eapply same_sid_change; [by apply same_address_sym|done].
      * rewrite !app_assoc in Hr2 |- *. exact Hr2.
  - rewrite bool_decide_true by done. destruct Hs as (-> & -> & ->). destruct hop; cbn [negb andb].
    + exists b, w, None, nx, bp, false. cbn zeta. rewrite app_nil_r. unfold and_then, go, modify. cbn. rewrite !andb_true_r.
      split_and!; [done|by split| |done|done]. split_and!; [done..|]. exists (previous (w_ctx w)). by destruct (w_ctx w).
    + destruct (read_broadcast_spec pr fw id w b f nx bp nb ac pre post Hbp Hid Hr) as (b' & w' & bp' & dup & Hrb & Hd & Hsw & Ec & Hr').
      exists b', w', None, nx, bp', dup. cbn zeta. rewrite (and_then_ret _ _ _ _ _ Hrb), and_then_modify. unfold go.
      split_and!; [done| |done|done|].
      * split; try done; by intros [[??]|?].
      * destruct Ha as [H1 H2]. destruct Hsw as (_ & E2 & E3 & _). split; rewrite ?E2, ?E3, ?Ec; done.
Qed.

(** The time to live and the queue share a byte. *)
Lemma ttl_queue_byte t q : 0 ≤ t ≤ 31 → let v := Z.lor t (Z.shiftl (Z.land q 3) 5) in
  0 ≤ v ∧ Z.land v 0x1F = t ∧ Z.land (Z.shiftr v 5) 3 = Z.land q 3.
Proof.
  intros Ht v. change (Z.land q 3) with (Z.land q (Z.ones 2)) in *. pose proof (Z.mod_pos_bound q 4 ltac:(lia)) as Hq.
  assert (Z.land q (Z.ones 2) = q mod 4) as Eq by (rewrite Z.land_ones by lia; done).
  assert (v = t + q mod 4 * 32) as -> by (subst v; rewrite Eq, Z.shiftl_mul_pow2 by lia; change (2 ^ 5) with 32; apply (lor_low t _ 5); lia).
  split_and!; [lia| |].
  - change 0x1F with (Z.ones 5). rewrite Z.land_ones by lia. change (2 ^ 5) with 32. rewrite Z.mod_add by lia. apply Z.mod_small. lia.
  - change 3 with (Z.ones 2). rewrite Z.shiftr_div_pow2, !Z.land_ones by lia. change (2 ^ 5) with 32. change (2 ^ 2) with 4.
    rewrite Z.div_add, (Z.div_small t 32), Z.add_0_l by lia. apply Z.mod_mod. lia.
Qed.

Definition ttl_left (hop : bool) (t : Z) : Z := if hop then 0 else Z.max 0 (t - 1).

Lemma read_ttl_spec flags t q pr fw w b f nx bp nb ac pre post : 0 ≤ t ≤ 31 → let hop := on flags PAYLOAD_FLAG_ONE_HOP in
  let bs := if hop then [] else [Z.lor t (Z.shiftl (Z.land q 3) 5)] in
  reading (w_mem w) b (pre ++ bs ++ post) (length pre) →
  ∃ b', read_ttl flags (pr, fw) (Rx w b f nx bp nb ac) =
      Ret (Rx w b' (with_ttl (ttl_left hop t) (if hop then queue f else Z.land q 3) f) nx bp nb ac, Some (pr, fw && negb (ttl_left hop t =? 0))) ∧
    reading (w_mem w) b' (pre ++ bs ++ post) (length (pre ++ bs)).
Proof.
  intros Ht hop bs Hr. unfold read_ttl. fold hop. subst bs. destruct hop.
  - exists b. rewrite app_nil_r. split; [|done]. cbn. by rewrite andb_false_r.
  - destruct (ttl_queue_byte t q Ht) as (V0 & V1 & V2). set (v := Z.lor t (Z.shiftl (Z.land q 3) 5)) in *.
    destruct (get_spec w b f nx bp nb ac pre v post Hr) as (b' & Hg & Hr'). exists b'. split; [|done].
    match goal with |- and_then ?p ?k ?st = _ => rewrite (and_then_ret p k st (Rx w b' (with_ttl t (Z.land q 3) f) nx bp nb ac) tt) end.
    2: { rewrite (and_then_ret _ _ _ _ _ Hg), (proj2 (Z.ltb_ge _ _)) by lia. unfold modify. by rewrite V1, V2. }
    cbn [ttl_left]. rewrite and_then_modify. cbn. destruct (Z.eqb_spec t 0) as [->|E]; cbn.
    + by rewrite andb_false_r.
    + rewrite Z.max_r by lia. destruct (t - 1 =? 0); by rewrite ?andb_false_r, ?andb_true_r.
Qed.

Lemma read_type_spec flags type w b f nx bp nb ac pre post : 0 ≤ type →
  on flags PAYLOAD_FLAG_LEGACY_TYPE = negb (type =? OF_TYPE_DATA) →
  let bs := if negb (type =? OF_TYPE_DATA) then [type] else [] in reading (w_mem w) b (pre ++ bs ++ post) (length pre) →
  ∃ b', read_type flags (Rx w b f nx bp nb ac) = Ret (Rx w b' (with_type type f) nx bp nb ac, Some tt) ∧
    reading (w_mem w) b' (pre ++ bs ++ post) (length (pre ++ bs)).
Proof.
  intros Ht Hf bs Hr. unfold read_type. rewrite Hf. subst bs. destruct (Z.eqb_spec type OF_TYPE_DATA) as [->|E]; cbn [negb] in *.
  - exists b. by rewrite app_nil_r.
  - destruct (get_spec w b f nx bp nb ac pre type post Hr) as (b' & Hg & Hr'). exists b'. split; [|done].
    by rewrite (and_then_ret _ _ _ _ _ Hg), (proj2 (Z.eqb_neq _ _)) by lia.
Qed.

(** The neighbours after a payload with a sequence number, and whether it is a
    duplicate. *)
Definition seen (nb : list neighbour) (sender : option nat) (version seq : Z) : list neighbour * bool :=
  if 1 <=? version then link_received_duplicate nb sender seq else (nb, false).

Lemma read_sequence_spec version seq pr fw w b f nx bp nb ac pre post : 0 ≤ seq → packet_version (w_ctx w) = version →
  let bs := if 1 <=? version then [seq] else [] in reading (w_mem w) b (pre ++ bs ++ post) (length pre) →
  let r := seen nb (sender (w_ctx w)) version seq in
  ∃ b', read_sequence (pr, fw) (Rx w b f nx bp nb ac) = Ret (Rx w b' f nx bp r.1 ac, Some (pr && negb r.2, fw && negb r.2)) ∧
    reading (w_mem w) b' (pre ++ bs ++ post) (length (pre ++ bs)).
Proof.
  intros Hs Hv bs Hr r. unfold read_sequence. rewrite and_then_look. cbn [rx_w]. rewrite Hv. subst bs r. unfold seen. destruct (1 <=? version).
  - destruct (get_spec w b f nx bp nb ac pre seq post Hr) as (b' & Hg & Hr'). exists b'. split; [|done].
    rewrite (and_then_ret _ _ _ _ _ Hg), (proj2 (Z.eqb_neq _ _)) by lia. unfold set_neighbours. cbn [rx_w rx_b rx_f rx_next rx_bpis rx_neighbours rx_acks].
    by destruct (link_received_duplicate _ _ _) as [nb' []]; cbn; rewrite ?andb_false_r, ?andb_true_r.
  - exists b. rewrite app_nil_r. unfold go. cbn. by rewrite !andb_true_r.
Qed.

Lemma source_sent_same same s cA ssA cA' ssA' bs : source_sent same s cA ssA cA' ssA' bs → Forall2 same_address ssA ssA'.
Proof.
  destruct same; cbn [source_sent].
  - intros (-> & -> & _). by apply Forall_Forall2_diag, Forall_true.
  - by intros (x & code & _ & _ & _ & _ & _ & H2 & _).
Qed.
Lemma destination_read_change hop d nh id ssA ssA' w w' bp nb td nx bp' dup : Forall2 same_address ssA' ssA → w_ss w' = w_ss w →
  destination_read hop d nh id ssA' w' bp nb td nx bp' dup → destination_read hop d nh id ssA w bp nb td nx bp' dup.
Proof.
  intros H2 E [D1 D2 D3 D4]. rewrite E in *. split; [by eapply resolves_change| |done|done].
  intros Hd Hh. eapply resolves_change; [done|by apply D2].
Qed.

(** Closes a goal that differs from [H] in how lists are bracketed. *)
Ltac reassoc H :=
  repeat first [rewrite <- app_assoc in H | progress cbn [app] in H];
  repeat first [rewrite <- app_assoc | progress cbn [app]]; exact H.

(** The header of a payload is read as it was written. *)
Lemma parse_header_spec n p nh bc wr s cA ssA cA' ssA' bs w b f nx bp nb ac pre post : agreed ssA cA w → bpi_table bp →
  sendable n p nh bc s → header_sent p nh bc wr s cA ssA cA' ssA' bs →
  (∀ x, x = s ∨ f_destination p = Some x ∨ nh = Some x → understood ssA (w_ss w) x) →
  packet_version (w_ctx w) = f_packet_version p → has_flag (w_ctx w) DECODE_FLAG_INVALID_ADDRESS = false →
  reading (w_mem w) b (pre ++ bs ++ post) (length pre) →
  ∃ b' w' t td nx' bp' dup,
    let flags := header_flags (sender cA) (f_type p) (modifiers p) wr (ttl p) bc nh (f_destination p) (f_source p) in
    let hop := one_hop (ttl p) bc nh (f_destination p) in
    let r := seen nb (sender (w_ctx w)) (f_packet_version p) (mdp_sequence p mod 256) in
    let relay := negb (link_state_should_forward_broadcast nb (sender (w_ctx w)) (gettime_ms (ticks w)) =? 0) in
    let ok := bool_decide (f_source p = sender cA) || negb (self_at (w_ss w) t) in
    let process := ok && wanted hop (w_ss w) td dup && negb r.2 in
    let forward := ok && passed_on hop (w_ss w) td nx' dup relay && negb (ttl_left hop (ttl p) =? 0) && negb r.2 in
    parseMdpPacketHeader myB gettime_ms frame_alloc alloc (Rx w b f nx bp nb ac) =
      Ret (Rx w' b' (Frame (f_type p) flags (ttl_left hop (ttl p)) (if hop then queue f else Z.land (queue p) 3) (mdp_sequence f) (Some t) td
                       (if bool_decide (f_destination p = None) && negb hop then broadcast_id p else broadcast_id f) (f_packet_version p) (f_payload f))
             nx' bp' r.1 ac,
           Z.lor (if forward then HEADER_FORWARD else 0) (if process then HEADER_PROCESS else 0)) ∧
    same_sid_at ssA (w_ss w) s t ∧ destination_read hop (f_destination p) nh (broadcast_id p) ssA w bp nb td nx' bp' dup ∧
    same_world w w' ∧ reading (w_mem w) b' (pre ++ bs ++ post) (length (pre ++ bs)) ∧ agreed ssA' cA' w'.
Proof.
  intros Ha Hbp Hsd (c1 & ss1 & b1 & b2 & Hsrc & Hdst & ->) Hu Hv Hinv Hr. pose proof Hsd as [Httl Htype [Es _] Hid _].
  destruct (header_flags_bits (sender cA) (f_type p) (modifiers p) wr (ttl p) bc nh (f_destination p) (f_source p))
    as (F1 & F2 & F3 & F4 & _ & _ & _ & F0).
  set (flags := header_flags _ _ _ _ _ _ _ _ _) in *. rewrite <- F1 in Hsrc. rewrite <- F3 in Hdst. set (tail := tail_bytes _ _ _ _ _ _ _) in *.
  unfold parseMdpPacketHeader, parse_header.
  destruct (get_spec w b f nx bp nb ac pre flags (b1 ++ b2 ++ tail ++ post)) as (b0 & Hg & Hr0); [reassoc Hr|].
  rewrite (and_then_ret _ _ _ _ _ Hg), (proj2 (Z.ltb_ge _ _)) by done.
  destruct (read_source_spec flags ssA cA s c1 ss1 b1 w b0 f nx bp nb ac (pre ++ [flags]) (b2 ++ tail ++ post) Ha Hsrc) as
    (b3 & t & prev & Hrs & Hst & Hr1 & Ha1); [rewrite F1; intros E%bool_decide_eq_true; congruence|apply Hu; by left|reassoc Hr0|].
  cbn zeta in Hrs. rewrite (and_then_ret _ _ _ _ _ Hrs). set (ok := on flags PAYLOAD_FLAG_SENDER_SAME || negb (self_at (w_ss w) t)) in *.
  pose proof (source_sent_same _ _ _ _ _ _ _ Hsrc) as H2.
  destruct (read_destination_spec flags (f_destination p) nh (broadcast_id p) ss1 c1 cA' ssA' b2 (follow w prev) b3 (with_source (Some t) f) nx bp nb ac
    ok ok (pre ++ [flags] ++ b1) (tail ++ post) Ha1 Hbp Hid F2 Hdst) as (b4 & w4 & td & nx' & bp' & dup & Hrd & Hdr & Hsw & Hr2 & Ha2); [|reassoc Hr1|].
  { intros x Hx. eapply understood_change; [exact H2|]. apply Hu. by right. }
  cbn zeta in Hrd. rewrite (and_then_ret _ _ _ _ _ Hrd). pose proof (same_world_trans _ _ _ (same_world_follow w prev) Hsw) as Hww.
  destruct Hsw as (Em & _ & Ess & q & Ec). cbn [follow set_ctx w_mem w_ss w_ctx ticks] in *. rewrite <- Em in Hr2. unfold tail, tail_bytes in Hr2. rewrite <- F3 in Hr2.
  set (f1 := with_destination td _). set (hop := on flags PAYLOAD_FLAG_ONE_HOP) in *.
  set (x3 := if hop then [] else [_]) in Hr2. set (x4 := if negb (f_type p =? OF_TYPE_DATA) then _ else _) in Hr2. set (x5 := if 1 <=? f_packet_version p then _ else _) in Hr2.
  destruct (read_ttl_spec flags (ttl p) (queue p) (ok && wanted hop (w_ss w) td dup)
    (ok && passed_on hop (w_ss w) td nx' dup (negb (link_state_should_forward_broadcast nb (sender (w_ctx w)) (gettime_ms (ticks w)) =? 0)))
    w4 b4 f1 nx' bp' nb ac (pre ++ [flags] ++ b1 ++ b2) (x4 ++ x5 ++ post) Httl) as (b5 & Hrt & Hr3); [fold hop; fold x3; reassoc Hr2|].
  fold hop in Hrt, Hr3. fold x3 in Hr3. rewrite (and_then_ret _ _ _ _ _ Hrt).
  destruct (read_type_spec flags (f_type p) w4 b5 (with_ttl (ttl_left hop (ttl p)) (if hop then queue f1 else Z.land (queue p) 3) f1) nx' bp' nb ac
    (pre ++ [flags] ++ b1 ++ b2 ++ x3) (x5 ++ post)) as (b6 & Hry & Hr4); [lia|done|fold x4; reassoc Hr3|].
  fold x4 in Hr4. rewrite (and_then_ret _ _ _ _ _ Hry).
  assert (u8 (Z.land (mdp_sequence p) 0xFF) = mdp_sequence p mod 256) as E8.
  { rewrite land_255. apply wrapu_small. apply (Z.mod_pos_bound _ 256). lia. }
  unfold x5 in *. rewrite E8 in *. set (x6 := if 1 <=? f_packet_version p then _ else _) in *.
  match goal with |- context [read_sequence (?a, ?b)] => set (pr := a); set (fw := b) end.
  match goal with |- context [read_sequence (pr, fw) ] => idtac end.
  set (f2 := with_type (f_type p) _).
  destruct (read_sequence_spec (f_packet_version p) (mdp_sequence p mod 256) pr fw w4 b6 f2 nx' bp' nb ac
    (pre ++ [flags] ++ b1 ++ b2 ++ x3 ++ x4) post) as (b7 & Hrq & Hr5); [apply Z.mod_pos_bound; lia|by rewrite Ec|fold x6; reassoc Hr4|].
  fold x6 in Hr5. rewrite (and_then_ret _ _ _ _ _ Hrq), and_then_modify, and_then_look.
  cbn [rx_w rx_f set_f]. rewrite Ec in Hrq |- *. cbn [set_previous packet_version sender] in *. rewrite Hv in *.
  replace (has_flag _ DECODE_FLAG_INVALID_ADDRESS) with false by (by rewrite <- Hinv). rewrite andb_false_r.
  exists b7, w4, t, td, nx', bp', dup. cbn zeta. rewrite <- F3. fold hop. rewrite <- F1. fold ok.
  unfold go. rewrite bind_ret_l. cbn [fst snd default].
  split; [|split; [done|split; [|split; [|split; [|done]]]]].
  - unfold set_f, f2, f1, pr, fw. cbn. destruct (bool_decide (f_destination p = None) && negb hop); done.
  - by apply (destination_read_change _ _ _ _ ssA ss1 w (follow w prev)); [apply same_address_sym| |].
  - exact Hww.
  - rewrite <- Em. unfold tail, tail_bytes. rewrite <- F3, E8. fold hop x3 x4 x6. reassoc Hr5.
Qed.

(** ** A payload arrives *)

Lemma get_ui16_reading m b x v y : reading m b (x ++ be_bytes 2 v ++ y) (length x) → 0 ≤ v < 2 ^ 16 →
  ∃ b', ob_get_ui16 m b = Ret (b', v) ∧ reading m b' (x ++ be_bytes 2 v ++ y) (length (x ++ be_bytes 2 v)).
Proof.
  intros Hr Hv. destruct (read_field_spec m b x (FUi16 v) y Hv Hr) as (b' & Hf & Hr'). exists b'. split; [|done].
  cbn [read_field] in Hf. apply bind_ret_inv in Hf as ([b1 v1] & -> & [= -> ->]). done.
Qed.

Lemma payload_length_spec st encap pl x rest : encapsulation (w_ctx (rx_w st)) = encap → encap = ENCAP_OVERLAY ∨ encap = ENCAP_SINGLE ∧ rest = [] →
  Z.of_nat (length pl) < 65536 → let P := x ++ length_bytes encap pl ++ pl ++ rest in Z.of_nat (length P) < SIZE_MAX →
  reading (w_mem (rx_w st)) (rx_b st) P (length x) →
  ∃ b', payload_length st = Ret (set_b b' st, Some (Z.of_nat (length pl))) ∧
    reading (w_mem (rx_w st)) b' P (length (x ++ length_bytes encap pl)).
Proof.
  intros He Hen Hpl P Hmax Hr. unfold payload_length. rewrite He. unfold length_bytes in *.
  assert (∀ b k, reading (w_mem (rx_w st)) b P k → (k ≤ length P)%nat → ob_remaining b = Ret (Z.of_nat (length P) - Z.of_nat k)) as Hrem.
  { intros b k [_ Hl Hp _ _] Hk. unfold ob_remaining. rewrite Hl, Hp, (proj2 (Z.eqb_neq _ _)), (proj2 (Z.leb_le _ _)) by lia. done. }
  destruct Hen as [->|[-> ->]]; cbn [Z.eqb Pos.eqb ENCAP_OVERLAY ENCAP_SINGLE] in *.
  - destruct (get_ui16_reading _ _ _ _ _ Hr) as (b' & -> & Hr'); [lia|]. rewrite bind_ret_l. cbn [fst snd rx_b set_b].
    rewrite (Hrem b' _ Hr'), bind_ret_l by (unfold P; rewrite !length_app; lia). exists b'. split; [|done].
    rewrite (proj2 (Z.ltb_ge _ _)); [done|]. unfold P. rewrite !length_app. lia.
  - rewrite (Hrem _ _ Hr), bind_ret_l by (unfold P; rewrite !length_app; lia). exists (rx_b st).
    change (if ENCAP_SINGLE =? ENCAP_OVERLAY then be_bytes 2 (Z.of_nat (length pl)) else []) with (@nil Z). rewrite (app_nil_r x). split; [|done].
    replace (Z.of_nat (length P) - Z.of_nat (length x)) with (Z.of_nat (length pl)); [by destruct st|].
    unfold P. rewrite !length_app. cbn [length]. change (ENCAP_SINGLE =? ENCAP_OVERLAY) with false. cbn [length]. lia.
Qed.

(** What the receiver has of a payload: the frame of [st], and the value [v] of
    [parseMdpPacketHeader]. *)
Record received (p : overlay_frame) (nh : option nat) (wr : bool) (s : nat) (cA : decode_context) (ssA : store) (st0 st : rx) (v : Z) : Prop := {
  rc_type : f_type (rx_f st) = f_type p;
  rc_version : f_packet_version (rx_f st) = f_packet_version p;
  rc_source : resolves ssA (w_ss (rx_w st)) (Some s) (f_source (rx_f st));
  rc_destination : resolves ssA (w_ss (rx_w st)) (f_destination p) (f_destination (rx_f st));
  rc_ciphered : on (modifiers (rx_f st)) PAYLOAD_FLAG_CIPHERED = on (modifiers p) PAYLOAD_FLAG_CIPHERED;
  rc_signed : on (modifiers (rx_f st)) PAYLOAD_FLAG_SIGNED = on (modifiers p) PAYLOAD_FLAG_SIGNED;
  rc_ack : on (modifiers (rx_f st)) PAYLOAD_FLAG_ACK_SOON = wr;
  rc_ttl : ttl (rx_f st) = ttl_left (one_hop (ttl p) (broadcast_of p) nh (f_destination p)) (ttl p);
  rc_hops : one_hop (ttl p) (broadcast_of p) nh (f_destination p) = false →
    queue (rx_f st) = Z.land (queue p) 3 ∧
    match f_destination p with None => broadcast_id (rx_f st) = broadcast_id p | Some _ => resolves ssA (w_ss (rx_w st)) nh (rx_next st) end;
  rc_neighbours : rx_neighbours st = (seen (rx_neighbours st0) (sender (w_ctx (rx_w st0))) (f_packet_version p) (mdp_sequence p mod 256)).1;
  rc_store : w_ss (rx_w st) = w_ss (rx_w st0);
  rc_value : ∃ dup, (f_destination p = None → one_hop (ttl p) (broadcast_of p) nh (f_destination p) = false →
      overlay_broadcast_drop_check (broadcast_id p) (rx_bpis st0) = Ret (rx_bpis st, if (dup : bool) then 1 else 0)) ∧
    let hop := one_hop (ttl p) (broadcast_of p) nh (f_destination p) in
    let relay := negb (link_state_should_forward_broadcast (rx_neighbours st0) (sender (w_ctx (rx_w st0))) (gettime_ms (ticks (rx_w st0))) =? 0) in
    let again := (seen (rx_neighbours st0) (sender (w_ctx (rx_w st0))) (f_packet_version p) (mdp_sequence p mod 256)).2 in
    let mine := negb (bool_decide (Some s = sender cA)) && self_of (w_ss (rx_w st)) (f_source (rx_f st)) in
    let process := negb mine && wanted hop (w_ss (rx_w st)) (f_destination (rx_f st)) dup && negb again in
    let forward := negb mine && passed_on hop (w_ss (rx_w st)) (f_destination (rx_f st)) (rx_next st) dup relay && negb (ttl (rx_f st) =? 0) && negb again in
    v = Z.lor (if forward then HEADER_FORWARD else 0) (if process then HEADER_PROCESS else 0);
}.

Lemma received_spec p nh wr s cA ssA cA' ssA' bs st n pre post : agreed ssA cA (rx_w st) → bpi_table (rx_bpis st) →
  sendable n p nh (broadcast_of p) s → header_sent p nh (broadcast_of p) wr s cA ssA cA' ssA' bs →
  (∀ x, x = s ∨ f_destination p = Some x ∨ nh = Some x → understood ssA (w_ss (rx_w st)) x) →
  packet_version (w_ctx (rx_w st)) = f_packet_version p → has_flag (w_ctx (rx_w st)) DECODE_FLAG_INVALID_ADDRESS = false →
  reading (w_mem (rx_w st)) (rx_b st) (pre ++ bs ++ post) (length pre) →
  ∃ st' v, parseMdpPacketHeader myB gettime_ms frame_alloc alloc st = Ret (st', v) ∧ received p nh wr s cA ssA st st' v ∧
    same_world (rx_w st) (rx_w st') ∧ reading (w_mem (rx_w st)) (rx_b st') (pre ++ bs ++ post) (length (pre ++ bs)) ∧ agreed ssA' cA' (rx_w st').
Proof.
  intros Ha Hbp Hsd Hh Hu Hv Hinv Hr. destruct st as [w b f nx bp nb ac]. cbn [rx_w rx_b rx_bpis] in *.
  destruct (parse_header_spec n p nh (broadcast_of p) wr s cA ssA cA' ssA' bs w b f nx bp nb ac pre post Ha Hbp Hsd Hh Hu Hv Hinv Hr)
    as (b' & w' & t & td & nx' & bp' & dup & Hp & Hst & [D1 D2 D3 D4] & Hsw & Hr' & Ha').
  cbn zeta in Hp. eexists _, _. split; [exact Hp|]. pose proof Hsw as (_ & _ & Ess & _).
  destruct (header_flags_bits (sender cA) (f_type p) (modifiers p) wr (ttl p) (broadcast_of p) nh (f_destination p) (f_source p))
    as (_ & _ & _ & _ & F5 & F6 & F7 & _).
  split; [|by split_and!].
  split; cbn [rx_f rx_w rx_next rx_neighbours rx_bpis f_type f_packet_version f_source f_destination modifiers ttl queue broadcast_id]; rewrite ?Ess; try done.
  - intros Eh. rewrite Eh. split; [done|]. destruct (f_destination p); [apply D2; [by eexists|done]|done].
  - exists dup. split; [done|]. cbn zeta. cbn [self_of]. rewrite (proj1 (sd_source _ _ _ _ _ Hsd)).
    by rewrite negb_andb, negb_involutive.
Qed.

(** C10: a payload is written into a packet whole or not at all, and what is written
    is understood. The packet grows by the bytes of the payload when they fit, and
    is as before when they do not. A receiver that agrees with the sender on the
    addresses of the packet so far reads from these bytes, whatever follows them,
    the type, the protection, the source, destination, next hop or broadcast
    identifier, the time to live, one less, and the queue of the payload; decides
    by its own addresses, the broadcasts and the sequence numbers it has seen
    whether to process and to forward it; finds the length and the bytes of the
    payload; and agrees with the sender on what comes after. *)
Theorem payload_roundtrip L cp w n t p nh wr s encap pb pl st : malloc_total → wrote (filling L cp) w n t → Z.of_nat (length w) ≤ L →
  sendable n p nh (broadcast_of p) s → f_payload p = Some pb → position pb = Z.of_nat (length pl) → Z.of_nat (length pl) < 65536 →
  beside pb pl (tx_m t) (tx_b t) →
  agreed (tx_ss t) (tx_c t) (rx_w st) → bpi_table (rx_bpis st) →
  (∀ x, x = s ∨ f_destination p = Some x ∨ nh = Some x → understood (tx_ss t) (w_ss (rx_w st)) x) →
  packet_version (w_ctx (rx_w st)) = f_packet_version p → has_flag (w_ctx (rx_w st)) DECODE_FLAG_INVALID_ADDRESS = false →
  encapsulation (w_ctx (rx_w st)) = encap →
  ∃ fb t', let fits := bool_decide (Z.of_nat (length (w ++ fb)) ≤ L) in
    overlay_frame_append_payload myA encap t p nh wr = Ret (t', if fits then 0 else -1) ∧
    wrote (filling L (length w)) (if fits then w ++ fb else w) n t' ∧
    ∀ rest, encap = ENCAP_OVERLAY ∨ encap = ENCAP_SINGLE ∧ rest = [] → Z.of_nat (length (w ++ fb ++ rest)) < SIZE_MAX →
      reading (w_mem (rx_w st)) (rx_b st) (w ++ fb ++ rest) (length w) →
      ∃ st' st'' v hdr, parseMdpPacketHeader myB gettime_ms frame_alloc alloc st = Ret (st', v) ∧ received p nh wr s (tx_c t) (tx_ss t) st st' v ∧
        payload_length st' = Ret (st'', Some (Z.of_nat (length pl))) ∧ rx_f st'' = rx_f st' ∧ fb = hdr ++ pl ∧
        reading (w_mem (rx_w st)) (rx_b st'') (w ++ fb ++ rest) (length (w ++ hdr)) ∧ agreed (tx_ss t') (tx_c t') (rx_w st'').
Proof.
  intros Hm Ht Hle Hsd Hpb Hpos Hpl Hbe Ha Hbp Hu Hv Hinv Hen.
  destruct (append_payload_spec L cp w n t p nh wr s encap pb pl Hm Ht Hle Hsd Hpb Hpos Hpl Hbe) as (bs & t' & Hap & Ht' & Hh).
  exists (bs ++ length_bytes encap pl ++ pl), t'. cbn zeta in *. split; [done|]. split; [done|]. intros rest Hrest Hmax Hr.
  destruct (received_spec p nh wr s (tx_c t) (tx_ss t) (tx_c t') (tx_ss t') bs st n w (length_bytes encap pl ++ pl ++ rest)
    Ha Hbp Hsd Hh Hu Hv Hinv) as (st' & v & Hp & Hrc & Hsw & Hr' & Ha'); [reassoc Hr|].
  destruct Hsw as (Em & _ & _ & q & Ec). rewrite <- Em in Hr'.
  destruct (payload_length_spec st' encap pl (w ++ bs) rest) as (b' & Hlen & Hr''); [by rewrite Ec|done|done| |reassoc Hr'|].
  { rewrite <- !app_assoc in *. done. }
  exists st', (set_b b' st'), v, (bs ++ length_bytes encap pl). split_and!; try done.
  - by rewrite <- app_assoc.
  - rewrite <- Em. cbn [rx_b set_b]. reassoc Hr''.
Qed.

(** A payload that does not fit misleads the addresses after it: the bytes of
    the packet are as before, but the context remembers as the previous address
    the last one of the payload that was taken back. *)
Theorem rejected_payload_previous L cp w n t p nh wr s encap pb pl d t' : malloc_total → wrote (filling L cp) w n t → Z.of_nat (length w) ≤ L →
  sendable n p nh (broadcast_of p) s → f_payload p = Some pb → position pb = Z.of_nat (length pl) → Z.of_nat (length pl) < 65536 →
  beside pb pl (tx_m t) (tx_b t) → f_destination p = Some d →
  overlay_frame_append_payload myA encap t p nh wr = Ret (t', -1) →
  wrote (filling L (length w)) w n t' ∧ previous (tx_c t') = if bool_decide (Some d = nh) then Some d else if ttl p =? 1 then Some d else nh.
Proof.
  intros Hm Ht Hle Hsd Hpb Hpos Hpl Hbe Hd Hap.
  destruct (append_payload_spec L cp w n t p nh wr s encap pb pl Hm Ht Hle Hsd Hpb Hpos Hpl Hbe) as (bs & t1 & Hap' & Ht1 & Hh).
  cbn zeta in *. rewrite Hap in Hap'. case_bool_decide; [done|]. injection Hap' as <-. split; [done|].
  destruct Hh as (c1 & ss1 & b1 & b2 & _ & Hds & _). rewrite Hd in Hds. destruct Hds as (c2 & ss2 & b3 & b4 & (x & code & _ & _ & _ & _ & -> & _) & _ & Hhop).
  unfold one_hop, broadcast_of in Hhop. rewrite Hd, (bool_decide_false (Some d = None)), (bool_decide_true (is_Some (Some d))) in Hhop by (done || by eexists).
  cbn [andb] in Hhop. rewrite (bool_decide_true (@None (list Z) = None)), andb_true_r in Hhop by done.
  destruct (ttl p =? 1), (bool_decide (Some d = nh)); cbn [orb] in Hhop; try (by destruct Hhop as (-> & _)).
  by destruct Hhop as (n' & -> & (x' & code' & _ & _ & _ & _ & -> & _)).
Qed.

End Round.

(** ** Executions *)

(** Three subscribers: the sender, and two destinations. *)
Definition sids3 : list (list Z) := [replicate 32 0x11; replicate 32 0x22; replicate 32 0x33].
Definition store3 : store := (λ id, new_subscriber id 1) <$> sids3.
Definition root3 : tree_node := <[1%nat := Sub 0]> (<[2%nat := Sub 1]> (<[3%nat := Sub 2]> empty_node)).

Definition sender_context : decode_context := Ctx (Some plain_interface) 0 1 ENCAP_OVERLAY 0 None (Some 0%nat) None None.
Definition payload_buffer (k : nat) (n : Z) : overlay_buffer := Buf (Some (Ptr k 0)) 0 n 1000 1000 None.
Definition frame_to (d : option nat) (k : nat) (n : Z) : overlay_frame :=
  Frame OF_TYPE_DATA 0 1 3 9 (Some 0%nat) d (replicate 8 0) 1 (Some (payload_buffer k n)).
(** A packet with one byte, and room for 60; payloads at 1. *)
Definition packet_memory : mem := {[ 0%nat := 7 :: replicate 63 0; 1%nat := replicate 1000 5 ]}.
Definition packet_buffer : overlay_buffer := Buf (Some (Ptr 0 0)) 0 1 60 64 (Some (Ptr 0 0)).
Definition packet_start : tx := Tx sender_context packet_memory packet_buffer store3.

(** Payloads for the third, the second and the second subscriber: the second
    payload does not fit. *)
Definition write3 `{Arch, Allocator} : outcome (tx * list Z) :=
  r1 ← overlay_frame_append_payload (Some 0%nat) ENCAP_OVERLAY packet_start (frame_to (Some 2%nat) 1 10) (Some 2%nat) false;
  r2 ← overlay_frame_append_payload (Some 0%nat) ENCAP_OVERLAY r1.1 (frame_to (Some 1%nat) 1 40) (Some 1%nat) false;
  r3 ← overlay_frame_append_payload (Some 0%nat) ENCAP_OVERLAY r2.1 (frame_to (Some 1%nat) 1 10) (Some 1%nat) false;
  Ret (r3.1, [r1.2; r2.2; r3.2]).

(** A receiver reads the two payloads that were written. *)
Definition read_two `{Arch, Allocator} (t : tx) : outcome (list (option nat)) :=
  b ← ob_limitsize (tx_b t) (position (tx_b t));
  let w := World (tx_m t) root3 store3 (Ctx (Some plain_interface) 0 1 ENCAP_OVERLAY 0 None (Some 0%nat) None None) [] 0 0 in
  let st := Rx w (set_position b 1) (frame_to None 1 0) None no_bpis [] [] in
  r1 ← parseMdpPacketHeader None (λ _, 0) (λ _, true) (λ _, true) st;
  r ← payload_length r1.1;
  let st := set_b (ob_skip (rx_b r.1) (default 0 r.2)) r.1 in
  r2 ← parseMdpPacketHeader None (λ _, 0) (λ _, true) (λ _, true) st;
  Ret [f_destination (rx_f r1.1); f_destination (rx_f r2.1)].

(** The third payload, for the second subscriber, is read as one for the third. *)
Lemma payload_misdelivered :
  (r ← @write3 arm64 calloc_allocator; l ← @read_two arm64 calloc_allocator r.1; Ret (r.2, l)) = Ret ([0; -1; 0], [Some 2; Some 2]%nat).
Proof. vm_compute. reflexivity. Qed.

Lemma packet_start_wrote : wrote (@filling arm64 60 0) [7] 3 packet_start.
Proof.
  split; [|repeat (apply Forall_cons; split; [split; by apply (bool_decide_unpack _)|]); by apply Forall_nil|done|by eexists].
  split; try reflexivity; try done; try (vm_compute; congruence).
  - split; try (vm_compute; intuition congruence); try (left; vm_compute; congruence).
    + exists (7 :: replicate 63 0). by split_and!.
    + by intros q [= <-].
  - split_and!; [cbn; lia|lia|cbn; lia|done].
Qed.
Lemma payload_beside n : (n ≤ 1000)%nat → beside (payload_buffer 1 (Z.of_nat n)) (replicate n 5) packet_memory packet_buffer.
Proof.
  intros Hn. right. exists (Ptr 1 0), (replicate 1000 5). split_and!; [done|done|by intros p [= <-]|].
  rewrite (load_bytes_Ret _ _ _ (replicate 1000 5)); rewrite ?length_replicate; cbn [off]; try done; try lia.
  rewrite Nat2Z.id, drop_0, take_replicate. f_equal. f_equal. lia.
Qed.
Lemma frame_sendable d k n : (d < 3)%nat → sendable 3 (frame_to (Some d) k n) (Some d) (broadcast_of (frame_to (Some d) k n)) 0.
Proof. intros Hd. split; cbn; [lia|unfold OF_TYPE_DATA; lia|split; [done|lia]|done|split; [done|by exists d]]. Qed.

Lemma rejected_payload_previous_witness : ∃ t', wrote (@filling arm64 60 1) [7] 3 t' ∧ previous (tx_c t') = Some 1%nat.
Proof.
  assert (∃ t', @overlay_frame_append_payload arm64 calloc_allocator (Some 0%nat) ENCAP_OVERLAY packet_start (frame_to (Some 1%nat) 1 100) (Some 1%nat) false
    = Ret (t', -1)) as [t' Ht'] by (eexists; vm_compute; reflexivity).
  destruct (@rejected_payload_previous arm64 calloc_allocator (Some 0%nat) 60 0 [7] 3 packet_start (frame_to (Some 1%nat) 1 100) (Some 1%nat) false 0
    ENCAP_OVERLAY (payload_buffer 1 100) (replicate 100 5) 1 t' calloc_total packet_start_wrote ltac:(vm_compute; congruence)
    (frame_sendable 1 1 100 ltac:(lia)) eq_refl ltac:(by rewrite length_replicate) ltac:(by rewrite length_replicate) (payload_beside 100 ltac:(lia)) eq_refl Ht')
    as [Hw Hp].
  exists t'. split; [exact Hw|]. by rewrite bool_decide_true in Hp.
Defined.

Lemma reachable3 : tree_reachable root3 store3.
Proof.
  assert (∀ k root ss root' ss' s, tree_reachable root ss → is_byte k →
    find_subscriber (λ _, true) (replicate 32 k) SID_SIZE true root ss = Ret (root', ss', Some s) → tree_reachable root' ss') as Hadd.
  { intros k root ss root' ss' s Hr Hk Hf.
    apply (tr_find root ss (λ _, true) (replicate 32 k) SID_SIZE true root' ss' (Some s) Hr); [|unfold SID_SIZE; lia|done|done|exact Hf].
    by apply Forall_replicate. }
  apply (Hadd 0x33 (<[1%nat := Sub 0]> (<[2%nat := Sub 1]> empty_node)) (take 2 store3) _ _ 2%nat); [|by split|reflexivity].
  apply (Hadd 0x22 (<[1%nat := Sub 0]> empty_node) (take 1 store3) _ _ 1%nat); [exact reachable_a|by split|reflexivity].
Qed.
Lemma understood3 x : (x < 3)%nat → understood store3 store3 x.
Proof.
  intros Hx. destruct (lookup_lt_is_Some_2 store3 x Hx) as [y Hy]. exists x, y, y. split_and!; [done..|lia].
Qed.

(** A receiver of the packet. *)
Definition receiver_state : rx :=
  Rx (World packet_memory root3 store3 sender_context [] 0 0) packet_buffer (frame_to None 1 0) None no_bpis [] [].

Lemma payload_roundtrip_witness : ∃ fb t',
  @overlay_frame_append_payload arm64 calloc_allocator (Some 0%nat) ENCAP_OVERLAY packet_start (frame_to (Some 1%nat) 1 10) (Some 1%nat) false
    = Ret (t', if bool_decide (Z.of_nat (length ([7] ++ fb)) ≤ 60) then 0 else -1).
Proof.
  destruct (@payload_roundtrip arm64 calloc_allocator (Some 0%nat) None (λ _, 0) (λ _, true) (λ _, true) 60 0 [7] 3 packet_start
    (frame_to (Some 1%nat) 1 10) (Some 1%nat) false 0 ENCAP_OVERLAY (payload_buffer 1 10) (replicate 10 5) receiver_state calloc_total packet_start_wrote
    ltac:(vm_compute; congruence) (frame_sendable 1 1 10 ltac:(lia)) eq_refl ltac:(by rewrite length_replicate) ltac:(by rewrite length_replicate)
    (payload_beside 10 ltac:(lia))) as (fb & t' & Hap & _).
  - split; [exact reachable3|]. split; [|done|done]. exists (new_subscriber (replicate 32 0x11) 1), (new_subscriber (replicate 32 0x11) 1). done.
  - split; [done|]. by apply Forall_replicate.
  - intros x Hx. apply understood3. destruct Hx as [->|[[= <-]|[= <-]]]; lia.
  - done.
  - done.
  - done.
  - exists fb, t'. exact Hap.
Defined.

End OverlayFrameRound.
