(* ===== verification/MdpFilterDirectory.v ===== *)
(** * The subscriber tree as the directory of the packet filter

    The filter looks subscribers up one after the other, which can add them to the
    tree. Seen from the end, every answer is what the final store holds. *)

From S2P Require Import Prelude Mem OverlayBuffer StrCtype StrNum StrScan Strbuf DataFormats MdpCursor MdpFilter MdpFilterProps MdpFilterPrint MdpFilterSafe OverlayAddress OverlayAddressTree.
Import DataFormats OverlayAddress OverlayAddressTree.

Module MdpFilterDirectory.

(** The subscriber with an identifier, and the identifier of a subscriber. *)
Definition lookup_sid (ss : store) (id : list Z) : option nat := fst <$> list_find (λ x, sid x = id) ss.
Definition sid_at (ss : store) (s : nat) : list Z := default [] (sid <$> ss !! s).

#[export] Instance store_directory ss : MdpFilter.Directory (lookup_sid ss) (sid_at ss).
Proof.
  intros bs s Hf. unfold lookup_sid in Hf. destruct (list_find _ ss) as [[i x]|] eqn:E; [|done].
  injection Hf as <-. apply list_find_Some in E as (Hx & <- & _). unfold sid_at. by rewrite Hx.
Qed.

Lemma lookup_known root ss s x : tree_inv root ss → ss !! s = Some x → lookup_sid ss (sid x) = Some s.
Proof.
  intros Hi Hs. unfold lookup_sid. destruct (list_find (λ y, sid y = sid x) ss) as [[i y]|] eqn:E.
  - apply list_find_Some in E as (Hy & Ey & _). cbn. f_equal.
    pose proof (known_sid _ _ i y (sid x) Hi Hy Ey) as L. rewrite (known_sid _ _ s x (sid x) Hi Hs eq_refl) in L. by injection L.
  - apply list_find_None in E. rewrite Forall_lookup in E. by destruct (E s x Hs).
Qed.

(** A search made while a rules file is loaded, in every tree the program can build, is
    answered as the store that results answers it, and so are the searches before it:
    the subscriber a rule names keeps its identifier. *)
Lemma find_answers alloc id root ss : (∀ j, alloc j = true) → tree_reachable root ss → is_sid id →
  ∃ root' ss' s, find_subscriber alloc id SID_SIZE true root ss = Ret (root', ss', Some s) ∧ tree_reachable root' ss' ∧
    lookup_sid ss' id = Some s ∧ (∀ id s, lookup_sid ss id = Some s → lookup_sid ss' id = Some s).
Proof.
  intros Hal Hr Hid.
  destruct (find_full alloc id root ss (tree_reachable_inv _ _ Hr) Hid) as (root' & ss' & ret & Hf & _ & Hmore & Hret).
  destruct ret as [s|]; [|destruct Hret as (_ & _ & Hn); by destruct Hn]. destruct Hret as ((x & Hx & Ex) & _).
  assert (tree_reachable root' ss') as Hr'.
  { destruct Hid as [Hl Hb]. apply (tr_find root ss alloc id SID_SIZE true root' ss' (Some s) Hr); [done|unfold SID_SIZE; lia|lia|done|done]. }
  pose proof (tree_reachable_inv _ _ Hr') as Hi.
  exists root', ss', s. split_and!; [done|done|rewrite <- Ex; by eapply lookup_known|].
  intros id' s' Hl. pose proof (store_directory ss id' s' Hl) as Hsid. unfold sid_at in Hsid.
  unfold lookup_sid in Hl. destruct (list_find _ ss) as [[k y]|] eqn:E; [|done]. injection Hl as <-.
  apply list_find_Some in E as (Hy & Ey & _). destruct (Hmore k y Hy) as [n Hn]. rewrite <- Ey.
  exact (lookup_known _ _ k _ Hi Hn).
Qed.

End MdpFilterDirectory.
