(* ===== verification/FdQueue.v ===== *)
(** * The scheduler (fdqueue.c, fdqueue.h)

    Alarms wait in the run-soon list and the wake list, move to the run-now list
    when their time comes, and are called by the polling loop together with the
    watched file handles. The scheduled entries are structures linked through
    their own fields: the heap of entries is a finite map from addresses. *)

From S2P Require Import Prelude.

Module FdQueue.

(** ** State *)

Record pollfd := Pollfd { fd : Z; events : Z; revents : Z }.

(** fdqueue.h: struct sched_ent. A function pointer is an identifier; the
    context and the profiling totals are not used by the scheduler's logic. *)
Record sched_ent := Ent {
  _next_wake : option nat;
  _prev_wake : option nat;
  _next_run : option nat;
  _scheduled : bool;
  function : option nat;
  poll : pollfd;
  run_after : Z;
  wake_at : Z;
  run_before : Z;
  alarm : Z;
  deadline : Z;
  _poll_index : Z;
}.

Definition TIME_MS_NEVER_WILL : Z := 2 ^ 63 - 1.
Definition MAX_WATCHED_FDS : nat := 128.

(** The thread-local variables of fdqueue.c, and the entries in memory. *)
Record queue := Queue {
  ents : gmap nat sched_ent;
  fds : list pollfd;
  fdcount : Z;
  fd_callbacks : list (option nat);
  wake_list : option nat;
  run_soon : option nat;
  run_now : option nat;
}.

Definition set_next_wake (v : option nat) (e : sched_ent) : sched_ent :=
  Ent v (_prev_wake e) (_next_run e) (_scheduled e) (function e) (poll e) (run_after e) (wake_at e)
      (run_before e) (alarm e) (deadline e) (_poll_index e).
Definition set_prev_wake (v : option nat) (e : sched_ent) : sched_ent :=
  Ent (_next_wake e) v (_next_run e) (_scheduled e) (function e) (poll e) (run_after e) (wake_at e)
      (run_before e) (alarm e) (deadline e) (_poll_index e).
Definition set_next_run (v : option nat) (e : sched_ent) : sched_ent :=
  Ent (_next_wake e) (_prev_wake e) v (_scheduled e) (function e) (poll e) (run_after e) (wake_at e)
      (run_before e) (alarm e) (deadline e) (_poll_index e).
Definition set_scheduled (v : bool) (after : Z) (e : sched_ent) : sched_ent :=
  Ent (_next_wake e) (_prev_wake e) (_next_run e) v (function e) (poll e) after (wake_at e)
      (run_before e) (alarm e) (deadline e) (_poll_index e).
Definition set_times (after wake before : Z) (e : sched_ent) : sched_ent :=
  Ent (_next_wake e) (_prev_wake e) (_next_run e) (_scheduled e) (function e) (poll e) after wake
      before (alarm e) (deadline e) (_poll_index e).
Definition set_request (after wait before : Z) (e : sched_ent) : sched_ent :=
  Ent (_next_wake e) (_prev_wake e) (_next_run e) (_scheduled e) (function e) (poll e) after (wake_at e)
      (run_before e) wait before (_poll_index e).
Definition set_poll (p : pollfd) (i : Z) (e : sched_ent) : sched_ent :=
  Ent (_next_wake e) (_prev_wake e) (_next_run e) (_scheduled e) (function e) p (run_after e) (wake_at e)
      (run_before e) (alarm e) (deadline e) i.

Definition set_ents (q : queue) (m : gmap nat sched_ent) : queue :=
  Queue m (fds q) (fdcount q) (fd_callbacks q) (wake_list q) (run_soon q) (run_now q).
Definition set_wake_list (q : queue) (v : option nat) : queue :=
  Queue (ents q) (fds q) (fdcount q) (fd_callbacks q) v (run_soon q) (run_now q).
Definition set_run_soon (q : queue) (v : option nat) : queue :=
  Queue (ents q) (fds q) (fdcount q) (fd_callbacks q) (wake_list q) v (run_now q).
Definition set_run_now (q : queue) (v : option nat) : queue :=
  Queue (ents q) (fds q) (fdcount q) (fd_callbacks q) (wake_list q) (run_soon q) v.
Definition set_watch (q : queue) (f : list pollfd) (n : Z) (c : list (option nat)) : queue :=
  Queue (ents q) f n c (wake_list q) (run_soon q) (run_now q).

(** Following a pointer to an entry, and writing through it. *)
Definition ent (q : queue) (a : nat) : outcome sched_ent :=
  match ents q !! a with Some e => Ret e | None => Undef end.
Definition upd (q : queue) (a : nat) (f : sched_ent → sched_ent) : outcome queue :=
  match ents q !! a with Some e => Ret (set_ents q (<[a := f e]> (ents q))) | None => Undef end.

(** ** The run lists *)

Inductive root := Now | Soon.
Definition get_root (q : queue) (r : root) : option nat :=
  match r with Now => run_now q | Soon => run_soon q end.
Definition set_root (q : queue) (r : root) (v : option nat) : queue :=
  match r with Now => set_run_now q v | Soon => set_run_soon q v end.

(** A [struct sched_ent **list] is the address of a root or of a [_next_run]
    field. *)
Inductive loc := AtRoot (r : root) | AtNext (a : nat).
Definition read_loc (q : queue) (list : loc) : outcome (option nat) :=
  match list with
  | AtRoot r => Ret (get_root q r)
  | AtNext a => e ← ent q a; Ret (_next_run e)
  end.
Definition write_loc (q : queue) (list : loc) (v : option nat) : outcome queue :=
  match list with
  | AtRoot r => Ret (set_root q r v)
  | AtNext a => upd q a (set_next_run v)
  end.

(** [while ( *list) { if (key( *list) > k) break; list = &( *list)->_next_run; }].
    A list without a cycle has at most as many entries as there are in memory. *)
Fixpoint find_run (fuel : nat) (q : queue) (key : sched_ent → Z) (k : Z) (list : loc) : outcome loc :=
  match fuel with
  | O => Undef
  | S fuel =>
      cur ← read_loc q list;
      match cur with
      | None => Ret list
      | Some c =>
          e ← ent q c;
          if k <? key e then Ret list else find_run fuel q key k (AtNext c)
      end
  end.
Definition fuel (q : queue) : nat := S (size (ents q)).

Definition insert_run (r : root) (key : sched_ent → Z) (q : queue) (a : nat) : outcome queue :=
  e ← ent q a;
  list ← find_run (fuel q) q key (key e) (AtRoot r);
  cur ← read_loc q list;
  q ← upd q a (set_next_run cur);
  write_loc q list (Some a).
Definition insert_run_now := insert_run Now run_before.
Definition insert_run_soon := insert_run Soon run_after.

Fixpoint remove_run_loop (fuel : nat) (q : queue) (a : nat) (list : loc) : outcome queue :=
  match fuel with
  | O => Undef
  | S fuel =>
      cur ← read_loc q list;
      match cur with
      | None => Ret q
      | Some c =>
          if decide (c = a) then
            e ← ent q a;
            q ← write_loc q list (_next_run e);
            upd q a (set_next_run None)
          else remove_run_loop fuel q a (AtNext c)
      end
  end.
Definition remove_run_list (q : queue) (a : nat) (r : root) : outcome queue :=
  remove_run_loop (fuel q) q a (AtRoot r).

(** ** The wake list *)

(** The loop of [insert_wake_list]: returns [last] and [*list]. *)
Fixpoint find_wake (fuel : nat) (q : queue) (k : Z) (last cur : option nat) :
    outcome (option nat * option nat) :=
  match fuel with
  | O => Undef
  | S fuel =>
      match cur with
      | None => Ret (last, None)
      | Some c =>
          e ← ent q c;
          if k <? wake_at e then Ret (last, cur)
          else find_wake fuel q k (Some c) (_next_wake e)
      end
  end.

Definition insert_wake_list (q : queue) (a : nat) : outcome queue :=
  e ← ent q a;
  if wake_at e =? TIME_MS_NEVER_WILL then Ret q
  else
    r ← find_wake (fuel q) q (wake_at e) None (wake_list q);
    let '(last, cur) := r in
    q ← upd q a (set_next_wake cur);
    q ← match cur with Some c => upd q c (set_prev_wake (Some a)) | None => Ret q end;
    q ← upd q a (set_prev_wake last);
    match last with
    | Some l => upd q l (set_next_wake (Some a))
    | None => Ret (set_wake_list q (Some a))
    end.

Definition remove_wake_list (q : queue) (a : nat) : outcome queue :=
  e ← ent q a;
  let prev := _prev_wake e in
  let next := _next_wake e in
  q ← match prev with
      | Some p => upd q p (set_next_wake next)
      | None => Ret (if decide (wake_list q = Some a) then set_wake_list q next else q)
      end;
  q ← match next with Some n => upd q n (set_prev_wake prev) | None => Ret q end;
  q ← upd q a (set_prev_wake None);
  upd q a (set_next_wake None).

(** ** Scheduling *)

(** [while (run_soon && run_soon->run_after <= now)]; each round takes an entry
    off the run-soon list. *)
Fixpoint move_loop (fuel : nat) (q : queue) (now : Z) : outcome queue :=
  match fuel with
  | O => Undef
  | S fuel =>
      match run_soon q with
      | None => Ret q
      | Some a =>
          e ← ent q a;
          if run_after e <=? now then
            let q := set_run_soon q (_next_run e) in
            q ← remove_wake_list q a;
            q ← insert_run_now q a;
            move_loop fuel q now
          else Ret q
      end
  end.
Definition move_run_list (q : queue) (now : Z) : outcome queue := move_loop (fuel q) q now.

Definition is_scheduled (e : sched_ent) : bool := _scheduled e.

Definition schedule (q : queue) (a : nat) : outcome queue :=
  e ← ent q a;
  let after := if (run_after e =? TIME_MS_NEVER_WILL) || (run_after e =? 0) then alarm e
               else run_after e in
  q ← upd q a (set_times after (alarm e) (deadline e));
  assert! after <=? alarm e;
  assert! after <=? deadline e;
  assert! negb (is_scheduled e);
  assert! bool_decide (is_Some (function e));
  if negb (after =? TIME_MS_NEVER_WILL) then
    q ← insert_wake_list q a;
    q ← insert_run_soon q a;
    upd q a (λ e, set_scheduled true (run_after e) e)
  else Ret q.

Definition unschedule (q : queue) (a : nat) : outcome queue :=
  e ← ent q a;
  if negb (is_scheduled e) then Ret q
  else
    q ← remove_run_list q a Now;
    q ← remove_run_list q a Soon;
    q ← remove_wake_list q a;
    upd q a (set_scheduled false TIME_MS_NEVER_WILL).

(** The macro RESCHEDULE. *)
Definition reschedule (q : queue) (a : nat) (after wait before : Z) : outcome queue :=
  q ← unschedule q a;
  q ← upd q a (set_request after wait before);
  schedule q a.

(** ** Watched file handles *)

(** Indexing the arrays of MAX_WATCHED_FDS elements. *)
Definition get_fd (q : queue) (i : Z) : outcome pollfd :=
  defined! (0 <=? i);
  match fds q !! Z.to_nat i with Some p => Ret p | None => Undef end.
Definition get_callback (q : queue) (i : Z) : outcome (option nat) :=
  defined! (0 <=? i);
  match fd_callbacks q !! Z.to_nat i with Some c => Ret c | None => Undef end.
Definition put_fd (q : queue) (i : Z) (p : pollfd) : outcome queue :=
  defined! (0 <=? i) && (i <? Z.of_nat MAX_WATCHED_FDS);
  Ret (set_watch q (<[Z.to_nat i := p]> (fds q)) (fdcount q) (fd_callbacks q)).
Definition put_callback (q : queue) (i : Z) (c : option nat) : outcome queue :=
  defined! (0 <=? i) && (i <? Z.of_nat MAX_WATCHED_FDS);
  Ret (set_watch q (fds q) (fdcount q) (<[Z.to_nat i := c]> (fd_callbacks q))).
Definition set_fdcount (q : queue) (n : Z) : queue := set_watch q (fds q) n (fd_callbacks q).

(** Returns 0, or -1 when the table is full. *)
Definition watch (q : queue) (a : nat) : outcome (Z * queue) :=
  e ← ent q a;
  assert! bool_decide (is_Some (function e));
  assert! negb (events (poll e) =? 0);
  old ← (if 0 <=? _poll_index e
         then c ← get_callback q (_poll_index e); Ret (bool_decide (c = Some a))
         else Ret false);
  if (old : bool) then
    q ← put_fd q (_poll_index e) (poll e);
    Ret (0, q)
  else if Z.of_nat MAX_WATCHED_FDS <=? fdcount q then Ret (-1, q)
  else
    q ← put_callback q (fdcount q) (Some a);
    let p := Pollfd (fd (poll e)) (events (poll e)) 0 in
    q ← upd q a (set_poll p (fdcount q));
    let index := fdcount q in
    let q := set_fdcount q (fdcount q + 1) in
    q ← put_fd q index p;
    Ret (0, q).

Definition is_watching (q : queue) (a : nat) : outcome bool :=
  e ← ent q a;
  if _poll_index e <? 0 then Ret false
  else
    p ← get_fd q (_poll_index e);
    Ret (fd p =? fd (poll e)).

Definition unwatch (q : queue) (a : nat) : outcome (Z * queue) :=
  e ← ent q a;
  let index := _poll_index e in
  watching ← is_watching q a;
  if negb watching then Ret (-1, q)
  else
    let q := set_fdcount q (fdcount q - 1) in
    q ← (if negb (index =? fdcount q) then
           p ← get_fd q (fdcount q);
           q ← put_fd q index p;
           c ← get_callback q (fdcount q);
           q ← put_callback q index c;
           match c with
           | Some b => upd q b (λ e, set_poll (poll e) index e)
           | None => Undef
           end
         else Ret q);
    p ← get_fd q (fdcount q);
    q ← put_fd q (fdcount q) (Pollfd (-1) (events p) (revents p));
    q ← put_callback q (fdcount q) None;
    q ← upd q a (λ e, set_poll (poll e) (-1) e);
    Ret (0, q).

(** ** The polling loop *)

(** The surroundings of one call of [fd_poll2]: the alarm functions, the
    [waiting] and [wokeup] callbacks, poll(2), which returns its result and the
    [revents] of every handle, and the times [gettime_ms] returns at the six
    places where it is called. *)
Record world := World {
  handler : nat → nat → queue → outcome queue;
  waiting : option (Z → Z → Z → queue → outcome (Z * queue));
  wokeup : option (queue → outcome queue);
  sys_poll : list pollfd → Z → Z * list Z;
  t_overdue : Z;
  t_now : Z;
  t_waited : Z;
  t_move : Z;
  t_check : Z;
  t_io : Z;
}.

Definition call_alarm (w : world) (q : queue) (alarm : option nat) (revents : Z) : outcome queue :=
  match alarm with
  | None => Aborted
  | Some a =>
      e ← ent q a;
      q ← upd q a (λ e, set_poll (Pollfd (fd (poll e)) (events (poll e)) revents) (_poll_index e) e);
      match function e with Some f => handler w f a q | None => Undef end
  end.

(** Takes the first alarm off the run-now list and calls it. *)
Definition run_first (w : world) (q : queue) (a : nat) : outcome queue :=
  e ← ent q a;
  let q := set_run_now q (_next_run e) in
  q ← upd q a (set_scheduled false TIME_MS_NEVER_WILL);
  call_alarm w q (Some a) 0.

Definition overdue (q : queue) (now : Z) : outcome bool :=
  match run_now q with
  | None => Ret false
  | Some a => e ← ent q a; Ret (run_before e <=? now)
  end.

(** How long to wait, in the type [int]. *)
Definition wait_ms (wait_until now : Z) : Z :=
  if wait_until =? TIME_MS_NEVER_WILL then -1
  else if wait_until <=? now then 0
  else i32 (wait_until - now).

(** The time to wait until, the time now, and whether [waiting] was called. *)
Definition choose_wait (w : world) (q : queue) : outcome (Z * Z * bool * queue) :=
  let now := t_now w in
  match run_now q with
  | Some _ => Ret (now, now, false, q)
  | None =>
      next_run ← match run_soon q with Some a => e ← ent q a; Ret (run_after e)
                 | None => Ret TIME_MS_NEVER_WILL end;
      wait_until ← match wake_list q with Some a => e ← ent q a; Ret (wake_at e)
                   | None => Ret TIME_MS_NEVER_WILL end;
      match waiting w with
      | Some f =>
          if now <? wait_until then
            r ← f now next_run wait_until q;
            Ret (r.1, t_waited w, true, r.2)
          else Ret (wait_until, now, false, q)
      | None => Ret (wait_until, now, false, q)
      end
  end.

(** poll(2) stores the [revents] of the first [fdcount] handles. *)
Definition store_revents (fds : list pollfd) (rs : list Z) : list pollfd :=
  zip_with (λ p r, Pollfd (fd p) (events p) r) fds rs ++ drop (length rs) fds.

(** [for (i = fdcount - 1; i >= 0; i--)] *)
Fixpoint io_loop (w : world) (n : nat) (q : queue) : outcome queue :=
  match n with
  | O => Ret q
  | S i =>
      c ← get_callback q (Z.of_nat i);
      q ← match c with
          | None => Ret q
          | Some a =>
              e ← ent q a;
              p ← get_fd q (Z.of_nat i);
              if (fd (poll e) =? fd p) && negb (revents p =? 0)
              then call_alarm w q c (revents p)
              else Ret q
          end;
      io_loop w i q
  end.

Definition fd_poll2 (w : world) (q : queue) : outcome (Z * queue) :=
  late ← overdue q (t_overdue w);
  if (late : bool) then
    match run_now q with
    | Some a => q ← run_first w q a; Ret (1, q)
    | None => Ret (1, q)
    end
  else if bool_decide (run_now q = None) && bool_decide (wake_list q = None) && (fdcount q =? 0)
  then Ret (0, q)
  else
    ch ← choose_wait w q;
    let '(wait_until, now, called_waiting, q) := ch in
    let wait := wait_ms wait_until now in
    let '(r, q) :=
      if fdcount q =? 0 then (0, q)
      else
        let polled := take (Z.to_nat (fdcount q)) (fds q) in
        let '(r, rs) := sys_poll w polled wait in
        (r, set_watch q (store_revents (fds q) (take (length polled) rs)) (fdcount q) (fd_callbacks q)) in
    q ← match wokeup w with
        | Some f => if (called_waiting : bool) then f q else Ret q
        | None => Ret q
        end;
    q ← move_run_list q (t_move w);
    late ← (if wait =? 0 then Ret false else overdue q (t_check w));
    if (late : bool) then Ret (1, q)
    else if 0 <? r then
      q ← io_loop w (Z.to_nat (fdcount q)) q;
      q ← move_run_list q (t_io w);
      Ret (1, q)
    else
      q ← match run_now q with Some a => run_first w q a | None => Ret q end;
      Ret (1, q).

End FdQueue.
