(* ===== verification/FdQueueSpec.v ===== *)
(** * The scheduler's lists

    The linked lists of the scheduler represent sequences of entries; scheduling,
    unscheduling and moving refine insertion into, removal from and transfer
    between sorted sequences. *)

From S2P Require Import Prelude FdQueue.
From Stdlib Require Import Sorted.
Import FdQueue.
#[local] Set Warnings "-clear-no-such-hyp".

Module FdQueueSpec.

(** ** Linked lists *)

(** Following [nx] from [h] visits [l] and ends at [t]. *)
Fixpoint seg (nx : nat → option (option nat)) (h : option nat) (l : list nat) (t : option nat) : Prop :=
  match l with
  | [] => h = t
  | a :: l => h = Some a ∧ ∃ n, nx a = Some n ∧ seg nx n l t
  end.

(** The back links [pv] of [l], the entry before it being [prev]. *)
Fixpoint backs (pv : nat → option (option nat)) (prev : option nat) (l : list nat) : Prop :=
  match l with
  | [] => True
  | a :: l => pv a = Some prev ∧ backs pv (Some a) l
  end.

Lemma seg_ext nx nx' h l t : (∀ b, b ∈ l → nx' b = nx b) → seg nx h l t → seg nx' h l t.
Proof.
  revert h. induction l as [|a l IH]; intros h Hx; [done|]. intros (-> & n & Hn & Hs).
  split; [done|]. exists n. rewrite Hx by (by left). split; [done|]. apply IH; [|done].
  intros b Hb. apply Hx. by right.
Qed.

Lemma seg_head nx h l : seg nx h l None → h = head l.
Proof. destruct l; [done|]. by intros [? _]. Qed.

Lemma backs_ext pv pv' prev l : (∀ b, b ∈ l → pv' b = pv b) → backs pv prev l → backs pv' prev l.
Proof.
  revert prev. induction l as [|a l IH]; intros prev Hx; [done|]. intros [Ha Hb].
  split; [rewrite Hx; [done|by left]|]. apply IH; [|done]. intros b Hin. apply Hx. by right.
Qed.

Lemma seg_app nx h p s t : seg nx h (p ++ s) t ↔ ∃ m, seg nx h p m ∧ seg nx m s t.
Proof.
  revert h. induction p as [|a p IH]; intros h; simpl.
  - split; [intros H; by exists h|by intros (m & -> & H)].
  - split.
    + intros (-> & n & Hn & Hs). apply IH in Hs as (m & H1 & H2). exists m. eauto 6.
    + intros (m & (-> & n & Hn & H1) & H2). split; [done|]. exists n. split; [done|]. apply IH. eauto.
Qed.

Definition is_last (p : list nat) (b : nat) : Prop := last p = Some b.

Lemma last_snoc_in (p : list nat) c : last p = Some c → c ∈ p.
Proof. intros H. apply last_Some in H as (p' & ->). set_solver. Qed.

(** Linking a new entry between [p] and [s]. *)
Lemma seg_insert nx nx' h p s a : seg nx h (p ++ s) None → NoDup (p ++ s) →
  nx' a = Some (head s) →
  (∀ b, b ∈ p ++ s → last p ≠ Some b → nx' b = nx b) →
  (∀ c, last p = Some c → nx' c = Some (Some a)) →
  seg nx' (if decide (p = []) then Some a else h) (p ++ a :: s) None.
Proof.
  intros Hs Hnd Ha Hsame Hlast. revert h Hs. induction p as [|c p IH]; intros h Hs.
  - simpl in *. split; [done|]. exists (head s). split; [done|].
    rewrite <- (seg_head nx h s) by done. apply (seg_ext nx); [|done]. intros b Hb. by apply Hsame.
  - simpl in Hs. destruct Hs as (-> & n & Hn & Hs). simpl. split; [done|].
    exists (if decide (p = []) then Some a else n). apply NoDup_cons in Hnd as [Hc Hnd].
    destruct p as [|d p].
    + rewrite decide_True by done. split; [by apply Hlast|].
      refine (IH Hnd _ _ n Hs); [|done]. intros b Hb _. apply Hsame; [by right|].
      simpl. intros [= ->]. done.
    + rewrite decide_False by done. split.
      * rewrite Hsame; [done|by left|]. rewrite last_cons_cons. intros Hl. apply Hc.
        apply (proj2 (elem_of_app (d :: p) _ c)). left. by apply last_snoc_in.
      * assert (seg nx' (if decide (d :: p = []) then Some a else n) ((d :: p) ++ a :: s) None) as H'.
        { apply (IH Hnd); [| |done].
          - intros b Hb Hl. apply Hsame; [by right|]. by rewrite last_cons_cons.
          - intros b Hl. apply Hlast. by rewrite last_cons_cons. }
        by rewrite decide_False in H'.
Qed.

(** Unlinking the entry between [p] and [s]. *)
Lemma seg_remove nx nx' h p s a : seg nx h (p ++ a :: s) None → NoDup (p ++ a :: s) →
  (∀ b, b ∈ p ++ s → last p ≠ Some b → nx' b = nx b) →
  (∀ c, last p = Some c → nx' c = Some (head s)) →
  seg nx' (if decide (p = []) then head s else h) (p ++ s) None.
Proof.
  intros Hs Hnd Hsame Hlast. revert h Hs. induction p as [|c p IH]; intros h Hs.
  - simpl in *. destruct Hs as (-> & n & Hn & Hs). rewrite <- (seg_head nx n s) by done.
    apply (seg_ext nx); [|done]. intros b Hb. by apply Hsame.
  - simpl in Hs. destruct Hs as (-> & n & Hn & Hs). simpl. split; [done|].
    exists (if decide (p = []) then head s else n). apply NoDup_cons in Hnd as [Hc Hnd].
    destruct p as [|d p].
    + rewrite decide_True by done. split; [by apply Hlast|].
      refine (IH Hnd _ _ n Hs); [|done]. intros b Hb _. apply Hsame; [by right|].
      simpl. intros [= ->]. apply Hc. by right.
    + rewrite decide_False by done. split.
      * rewrite Hsame; [done|by left|]. rewrite last_cons_cons. intros Hl. apply Hc.
        apply (proj2 (elem_of_app (d :: p) _ c)). left. by apply last_snoc_in.
      * assert (seg nx' (if decide (d :: p = []) then head s else n) ((d :: p) ++ s) None) as H'.
        { apply (IH Hnd); [| |done].
          - intros b Hb Hl. apply Hsame; [by right|]. by rewrite last_cons_cons.
          - intros b Hl. apply Hlast. by rewrite last_cons_cons. }
        by rewrite decide_False in H'.
Qed.

Lemma backs_insert pv pv' prev p s a : backs pv prev (p ++ s) → NoDup (p ++ s) →
  pv' a = Some (if decide (p = []) then prev else last p) →
  (∀ b, b ∈ p ++ s → head s ≠ Some b → pv' b = pv b) →
  (∀ b, head s = Some b → pv' b = Some (Some a)) →
  backs pv' prev (p ++ a :: s).
Proof.
  revert prev. induction p as [|c p IH]; intros prev Hb Hnd Ha Hsame Hnext; simpl in *.
  - split; [done|]. destruct s as [|d s]; [done|]. destruct Hb as [_ Hb]. split; [by apply Hnext|].
    apply NoDup_cons in Hnd as [Hd Hnd]. apply (backs_ext pv); [|done].
    intros b Hin. apply Hsame; [by right|]. simpl. intros [= ->]. done.
  - destruct Hb as [Hc Hb]. apply NoDup_cons in Hnd as [Hcn Hnd]. split.
    + rewrite Hsame; [done|by left|]. intros Hh. apply Hcn. apply elem_of_app. right.
      destruct s; [done|]. injection Hh as ->. by left.
    + apply IH; [done|done| | |done].
      * rewrite Ha. by destruct p.
      * intros b Hin Hh. apply Hsame; [by right|done].
Qed.

Lemma backs_remove pv pv' prev p s a : backs pv prev (p ++ a :: s) → NoDup (p ++ a :: s) →
  (∀ b, b ∈ p ++ s → head s ≠ Some b → pv' b = pv b) →
  (∀ b, head s = Some b → pv' b = Some (if decide (p = []) then prev else last p)) →
  backs pv' prev (p ++ s).
Proof.
  revert prev. induction p as [|c p IH]; intros prev Hb Hnd Hsame Hnext; simpl in *.
  - destruct Hb as [_ Hb]. destruct s as [|d s]; [done|]. destruct Hb as [_ Hb].
    split; [by apply Hnext|]. apply NoDup_cons in Hnd as [_ Hnd]. apply NoDup_cons in Hnd as [Hd Hnd].
    apply (backs_ext pv); [|done]. intros b Hin. apply Hsame; [by right|]. simpl. intros [= ->]. done.
  - destruct Hb as [Hc Hb]. apply NoDup_cons in Hnd as [Hcn Hnd]. split.
    + rewrite Hsame; [done|by left|]. intros Hh. apply Hcn. apply elem_of_app. right. right.
      destruct s; [done|]. injection Hh as ->. by left.
    + apply IH; [done|done| |].
      * intros b Hin Hh. apply Hsame; [by right|done].
      * intros b Hh. rewrite (Hnext b Hh). by destruct p.
Qed.

(** The entry between [p] and [s] in a list linked both ways. *)
Lemma linked_at nx pv h p s a prev : seg nx h (p ++ a :: s) None → backs pv prev (p ++ a :: s) →
  nx a = Some (head s) ∧ pv a = Some (if decide (p = []) then prev else last p).
Proof.
  revert h prev. induction p as [|c p IH]; intros h prev Hs Hb; simpl in *.
  - destruct Hs as (-> & n & Hn & Hs). destruct Hb as [Hp _]. split; [|done].
    by rewrite <- (seg_head nx n s).
  - destruct Hs as (-> & n & Hn & Hs). destruct Hb as [_ Hb].
    destruct (IH _ _ Hs Hb) as [H1 H2]. split; [done|]. rewrite H2.
    by destruct p.
Qed.

(** ** The run lists *)

Definition nr (q : queue) (a : nat) : option (option nat) := _next_run <$> ents q !! a.
Definition nw (q : queue) (a : nat) : option (option nat) := _next_wake <$> ents q !! a.
Definition pv (q : queue) (a : nat) : option (option nat) := _prev_wake <$> ents q !! a.
Definition key_of (key : sched_ent → Z) (q : queue) (a : nat) : Z :=
  default 0 (key <$> ents q !! a).

Lemma ent_spec q a e : ents q !! a = Some e → ent q a = Ret e.
Proof. unfold ent. by intros ->. Qed.
Lemma upd_spec q a e f : ents q !! a = Some e → upd q a f = Ret (set_ents q (<[a := f e]> (ents q))).
Proof. unfold upd. by intros ->. Qed.

Lemma nr_inv q a n : nr q a = Some n → ∃ e, ents q !! a = Some e ∧ n = _next_run e.
Proof. unfold nr. rewrite fmap_Some. naive_solver. Qed.
Lemma nw_inv q a n : nw q a = Some n → ∃ e, ents q !! a = Some e ∧ n = _next_wake e.
Proof. unfold nw. rewrite fmap_Some. naive_solver. Qed.

(** What a step on the run list [r] that touches the entries [L] leaves alone. *)
Record run_step (r : root) (q q' : queue) (L : list nat) : Prop := {
  rs_same b : b ∉ L → ents q' !! b = ents q !! b;
  rs_core b : set_next_run None <$> ents q' !! b = set_next_run None <$> ents q !! b;
  rs_root r' : r' ≠ r → get_root q' r' = get_root q r';
  rs_wake : wake_list q' = wake_list q;
  rs_watch : fds q' = fds q ∧ fdcount q' = fdcount q ∧ fd_callbacks q' = fd_callbacks q;
}.

(** The location after the entries [p] from [pos] on. *)
Definition loc_after (pos : loc) (p : list nat) : loc :=
  match last p with Some c => AtNext c | None => pos end.

Lemma loc_after_cons pos c p : loc_after pos (c :: p) = loc_after (AtNext c) p.
Proof.
  unfold loc_after. destruct p as [|d p]; [done|]. rewrite last_cons_cons.
  destruct (last (d :: p)) eqn:E; [done|]. by apply last_None in E.
Qed.

Lemma find_run_spec q key k fuel pos h l : read_loc q pos = Ret h → seg (nr q) h l None →
  (length l < fuel)%nat →
  ∃ p s, l = p ++ s ∧ find_run fuel q key k pos = Ret (loc_after pos p) ∧
    read_loc q (loc_after pos p) = Ret (head s) ∧
    Forall (λ b, key_of key q b ≤ k) p ∧ (∀ b, head s = Some b → k < key_of key q b).
Proof.
  revert pos h l. induction fuel as [|fuel IH]; intros pos h l Hh Hs Hf; [lia|]. cbn [find_run].
  rewrite Hh, bind_ret_l. destruct l as [|c l]; simpl in Hs.
  { subst h. exists [], []. by split_and!. }
  destruct Hs as (-> & n & Hn & Hs). destruct (nr_inv _ _ _ Hn) as (e & He & ->).
  rewrite (ent_spec _ _ e), bind_ret_l by done.
  destruct (Z.ltb_spec k (key e)) as [Hlt|Hge].
  { exists [], (c :: l). split_and!; try done. intros b [= <-]. unfold key_of. by rewrite He. }
  destruct (IH (AtNext c) (_next_run e) l) as (p & s & -> & Hf' & Hr & Hall & Hhd);
    [simpl; by rewrite (ent_spec _ _ e)|done|simpl in Hf; lia|].
  exists (c :: p), s. rewrite loc_after_cons. split_and!; try done.
  constructor; [|done]. unfold key_of. by rewrite He.
Qed.

(** A list without repetition is no longer than the memory. *)
Lemma seg_length q nx h l : (∀ a n, nx a = Some n → is_Some (ents q !! a)) → seg nx h l None → NoDup l →
  (length l < fuel q)%nat.
Proof.
  intros Hnx Hs Hnd. unfold fuel.
  assert (length l ≤ size (ents q))%nat; [|lia].
  rewrite <- (size_dom (ents q)), <- (size_list_to_set (C := gset nat) l) by done.
  apply subseteq_size. intros a Ha%elem_of_list_to_set. apply elem_of_dom.
  revert h Hs. induction l as [|c l IH]; intros h Hs; [by apply not_elem_of_nil in Ha|].
  destruct Hs as (-> & n & Hn & Hs). apply NoDup_cons in Hnd as [_ Hnd].
  apply elem_of_cons in Ha as [->|Ha]; [by eapply Hnx|]. by eapply IH.
Qed.

Lemma nr_live q a n : nr q a = Some n → is_Some (ents q !! a).
Proof. intros (e & -> & _)%nr_inv. done. Qed.
Lemma nw_live q a n : nw q a = Some n → is_Some (ents q !! a).
Proof. intros (e & -> & _)%nw_inv. done. Qed.

Lemma seg_in nx h l t a : seg nx h l t → a ∈ l → is_Some (nx a).
Proof.
  revert h. induction l as [|c l IH]; intros h Hs Ha; [by apply not_elem_of_nil in Ha|].
  destruct Hs as (-> & n & Hn & Hs). apply elem_of_cons in Ha as [->|Ha]; [by eexists|]. by eapply IH.
Qed.

Lemma write_loc_spec r q p v h : seg (nr q) h p v → get_root q r = h ∨ p ≠ [] →
  ∀ w, ∃ q', write_loc q (loc_after (AtRoot r) p) w = Ret q' ∧
    get_root q' r = (if decide (p = []) then w else get_root q r) ∧
    (∀ b, nr q' b = if decide (last p = Some b) then Some w else nr q b) ∧
    run_step r q q' p.
Proof.
  intros Hs Hh w. unfold loc_after. destruct (last p) as [c|] eqn:El.
  - assert (c ∈ p) as Hc by by apply last_snoc_in.
    destruct (seg_in _ _ _ _ _ Hs Hc) as [n Hn]. destruct (nr_inv _ _ _ Hn) as (e & He & ->).
    simpl. rewrite (upd_spec _ _ e) by done. eexists. split; [done|].
    rewrite decide_False by (by intros ->). split; [by destruct r|]. split.
    + intros b. unfold nr. simpl. destruct (decide (Some c = Some b)) as [[= <-]|Hne].
      * by rewrite lookup_insert_eq.
      * rewrite lookup_insert_ne by congruence. done.
    + split; simpl; try done.
      * intros b Hb. rewrite lookup_insert_ne; [done|]. by intros ->.
      * intros b. destruct (decide (c = b)) as [<-|]; [by rewrite lookup_insert_eq, He|].
        by rewrite lookup_insert_ne.
  - apply last_None in El as ->. simpl. eexists. split; [done|].
    split; [by destruct r|]. split; [intros b; by destruct r|].
    destruct r; split; simpl; try done; by intros [].
Qed.

Lemma run_step_trans r q1 q2 q3 L L' : run_step r q1 q2 L → run_step r q2 q3 L' →
  run_step r q1 q3 (L ++ L').
Proof.
  intros [Hs Hc Hr Hw Hf] [Hs' Hc' Hr' Hw' Hf']. split.
  - intros b Hb. rewrite Hs', Hs by set_solver. done.
  - intros b. by rewrite Hc', Hc.
  - intros r' Hne. by rewrite Hr', Hr.
  - congruence.
  - destruct_and!. split_and!; congruence.
Qed.

Lemma run_step_upd r q a e v : ents q !! a = Some e →
  run_step r q (set_ents q (<[a := set_next_run v e]> (ents q))) [a].
Proof.
  intros He. split; simpl; try done.
  - intros b Hb. rewrite lookup_insert_ne; [done|set_solver].
  - intros b. destruct (decide (a = b)) as [<-|]; [by rewrite lookup_insert_eq, He|].
    by rewrite lookup_insert_ne.
Qed.

Lemma run_step_weaken r q q' L L' : (∀ b, b ∈ L → b ∈ L') → run_step r q q' L → run_step r q q' L'.
Proof. intros Hsub [Hs Hc Hr Hw Hf]. split; try done. intros b Hb. apply Hs. auto. Qed.

Lemma nr_upd q a e v b : ents q !! a = Some e →
  nr (set_ents q (<[a := set_next_run v e]> (ents q))) b = if decide (a = b) then Some v else nr q b.
Proof.
  intros He. unfold nr. simpl. destruct (decide (a = b)) as [<-|]; [by rewrite lookup_insert_eq|].
  by rewrite lookup_insert_ne.
Qed.

Lemma insert_run_spec r key q a e l : ents q !! a = Some e → seg (nr q) (get_root q r) l None →
  NoDup l → a ∉ l →
  ∃ q' p s, insert_run r key q a = Ret q' ∧ l = p ++ s ∧
    Forall (λ b, key_of key q b ≤ key e) p ∧ (∀ b, head s = Some b → key e < key_of key q b) ∧
    seg (nr q') (get_root q' r) (p ++ a :: s) None ∧ run_step r q q' (a :: l).
Proof.
  intros He Hs Hnd Ha. unfold insert_run. rewrite (ent_spec _ _ e), bind_ret_l by done.
  destruct (find_run_spec q key (key e) (fuel q) (AtRoot r) (get_root q r) l)
    as (p & s & -> & -> & Hrd & Hall & Hhd); [done|done|by eapply seg_length; [apply nr_live|..]|].
  rewrite bind_ret_l, Hrd, bind_ret_l, (upd_spec _ _ e), bind_ret_l by done.
  set (q1 := set_ents q _). pose proof (nr_upd q a e (head s)) as Hnr. fold q1 in Hnr.
  apply seg_app in Hs as Hs'. destruct Hs' as (m & Hp & Hs2).
  assert (seg (nr q1) (get_root q1 r) p m) as Hp1.
  { replace (get_root q1 r) with (get_root q r) by (by destruct r).
    apply (seg_ext (nr q)); [|done]. intros b Hb. rewrite Hnr, decide_False by (done || set_solver). done. }
  destruct (write_loc_spec r q1 p m _ Hp1 (or_introl eq_refl) (Some a)) as (q2 & -> & Hroot & Hnr2 & Hstep).
  exists q2, p, s. split_and!; try done.
  - rewrite Hroot. replace (get_root q1 r) with (get_root q r) by (by destruct r).
    apply (seg_insert (nr q)); [done|done| | |].
    + rewrite Hnr2, decide_False, Hnr, decide_True by (done || (intros Hl; apply last_snoc_in in Hl; set_solver)).
      done.
    + intros b Hb Hl. rewrite Hnr2, decide_False, Hnr, decide_False by (done || set_solver). done.
    + intros c Hl. by rewrite Hnr2, decide_True.
  - apply (run_step_weaken _ _ _ ([a] ++ p)); [set_solver|].
    eapply run_step_trans; [by apply run_step_upd|done].
Qed.

Lemma remove_run_loop_spec q a fuel pos h l : read_loc q pos = Ret h → seg (nr q) h l None →
  (length l < fuel)%nat → NoDup l →
  ((a ∉ l) ∧ remove_run_loop fuel q a pos = Ret q) ∨
  ∃ p s e, l = p ++ a :: s ∧ ents q !! a = Some e ∧ _next_run e = head s ∧
    remove_run_loop fuel q a pos =
      (q' ← write_loc q (loc_after pos p) (head s); upd q' a (set_next_run None)).
Proof.
  revert pos h l. induction fuel as [|fuel IH]; intros pos h l Hh Hs Hf Hnd; [lia|]. cbn [remove_run_loop].
  rewrite Hh, bind_ret_l. destruct l as [|c l]; simpl in Hs.
  { subst h. left. split; [apply not_elem_of_nil|done]. }
  destruct Hs as (-> & n & Hn & Hs). destruct (nr_inv _ _ _ Hn) as (e & He & ->).
  apply NoDup_cons in Hnd as [Hc Hnd].
  destruct (decide (c = a)) as [->|Hne].
  { right. exists [], l, e. rewrite (ent_spec _ _ e), bind_ret_l by done.
    rewrite (seg_head _ _ _ Hs). by split_and!. }
  destruct (IH (AtNext c) (_next_run e) l) as [[Hni Hr]|(p & s & e' & -> & He' & Hn' & Hr)];
    [simpl; by rewrite (ent_spec _ _ e)|done|simpl in Hf; lia|done| |].
  - left. split; [|done]. apply not_elem_of_cons. by split.
  - right. exists (c :: p), s, e'. rewrite loc_after_cons. by split_and!.
Qed.

Definition without (a : nat) (l : list nat) : list nat := filter (λ b, b ≠ a) l.

Lemma without_notin a l : a ∉ l → without a l = l.
Proof.
  induction l as [|b l IH]; intros Ha; [done|]. apply not_elem_of_cons in Ha as [Hb Ha].
  unfold without in *. rewrite filter_cons_True, IH by congruence. done.
Qed.
Lemma without_mid a p s : a ∉ p → a ∉ s → without a (p ++ a :: s) = p ++ s.
Proof.
  intros Hp Hs. unfold without. rewrite filter_app, filter_cons_False by (intros H; by apply H).
  pose proof (without_notin a p Hp) as Ep. pose proof (without_notin a s Hs) as Es.
  unfold without in Ep, Es. by rewrite Ep, Es.
Qed.
Lemma elem_of_without a b l : b ∈ without a l ↔ b ≠ a ∧ b ∈ l.
Proof. unfold without. rewrite list_elem_of_filter. done. Qed.

Lemma NoDup_mid (a : nat) p s : NoDup (p ++ a :: s) → (a ∉ p) ∧ (a ∉ s) ∧ NoDup (p ++ s).
Proof.
  intros Hnd. pose proof Hnd as Hnd'. rewrite <- Permutation_middle in Hnd'. apply NoDup_cons in Hnd' as [Ha Hnd'].
  rewrite not_elem_of_app in Ha. tauto.
Qed.

Lemma remove_run_spec r q a l : seg (nr q) (get_root q r) l None → NoDup l →
  ∃ q', remove_run_list q a r = Ret q' ∧
    seg (nr q') (get_root q' r) (without a l) None ∧ run_step r q q' l.
Proof.
  intros Hs Hnd. unfold remove_run_list.
  destruct (remove_run_loop_spec q a (fuel q) (AtRoot r) (get_root q r) l)
    as [[Hni Hr]|(p & s & e & -> & He & Hn & Hr)]; [done|done|by eapply seg_length; [apply nr_live|..]|done| |].
  { exists q. rewrite Hr. split; [done|]. rewrite without_notin by done. by split. }
  rewrite Hr. apply seg_app in Hs as Hs'. destruct Hs' as (m & Hp & Hs2).
  destruct (write_loc_spec r q p m _ Hp (or_introl eq_refl) (head s)) as (q1 & -> & Hroot & Hnr1 & Hstep).
  rewrite bind_ret_l. destruct (NoDup_mid _ _ _ Hnd) as (Hap & Has & _).
  assert (ents q1 !! a = Some e) as He1 by (rewrite (rs_same _ _ _ _ Hstep) by done; done).
  rewrite (upd_spec _ _ e) by done. eexists. split; [done|]. rewrite without_mid by done.
  split.
  - replace (get_root (set_ents q1 _) r) with (get_root q1 r) by (by destruct r). rewrite Hroot.
    apply (seg_remove (nr q) _ _ _ _ a); [done|done| |].
    + intros b Hb Hl. rewrite nr_upd, decide_False, Hnr1, decide_False by (done || set_solver). done.
    + intros c Hl. rewrite nr_upd, decide_False, Hnr1, decide_True by (done || (intros ->; by apply last_snoc_in in Hl)).
      done.
  - apply (run_step_weaken _ _ _ (p ++ [a])); [set_solver|].
    eapply run_step_trans; [done|by apply run_step_upd].
Qed.

(** ** The wake list *)

Definition clear_wake (e : sched_ent) : sched_ent := set_next_wake None (set_prev_wake None e).

(** What a step on the wake list that touches the entries [L] leaves alone. *)
Record wake_step (q q' : queue) (L : list nat) : Prop := {
  ws_same b : b ∉ L → ents q' !! b = ents q !! b;
  ws_core b : clear_wake <$> ents q' !! b = clear_wake <$> ents q !! b;
  ws_root r : get_root q' r = get_root q r;
  ws_watch : fds q' = fds q ∧ fdcount q' = fdcount q ∧ fd_callbacks q' = fd_callbacks q;
}.

Lemma wake_step_refl q L : wake_step q q L.
Proof. by split. Qed.
Lemma wake_step_trans q1 q2 q3 L L' : wake_step q1 q2 L → wake_step q2 q3 L' → wake_step q1 q3 (L ++ L').
Proof.
  intros [Hs Hc Hr Hf] [Hs' Hc' Hr' Hf']. split.
  - intros b Hb. rewrite Hs', Hs by set_solver. done.
  - intros b. by rewrite Hc', Hc.
  - intros r. by rewrite Hr', Hr.
  - destruct_and!. split_and!; congruence.
Qed.
Lemma wake_step_weaken q q' L L' : (∀ b, b ∈ L → b ∈ L') → wake_step q q' L → wake_step q q' L'.
Proof. intros Hsub [Hs Hc Hr Hf]. split; try done. intros b Hb. apply Hs. auto. Qed.
Lemma wake_step_live q q' L b : wake_step q q' L → is_Some (ents q !! b) → is_Some (ents q' !! b).
Proof.
  intros Hst [e He]. pose proof (ws_core _ _ _ Hst b) as Hc. rewrite He in Hc. simpl in Hc.
  apply fmap_Some in Hc as (e' & -> & _). done.
Qed.

(** Writing a forward or a back link. *)
Record link_step (q q' : queue) (a : nat) : Prop := {
  ls_root : wake_list q' = wake_list q;
  ls_step : wake_step q q' [a];
}.

Lemma upd_wake_spec q a e f : ents q !! a = Some e → clear_wake (f e) = clear_wake e →
  let q' := set_ents q (<[a := f e]> (ents q)) in
  upd q a f = Ret q' ∧ link_step q q' a.
Proof.
  intros He Hf q'. rewrite (upd_spec _ _ e) by done. split; [done|]. split; [done|].
  split; simpl; try done.
  - intros b Hb. rewrite lookup_insert_ne; [done|set_solver].
  - intros b. destruct (decide (a = b)) as [<-|]; [by rewrite lookup_insert_eq, He; simpl; rewrite Hf|].
    by rewrite lookup_insert_ne.
Qed.

Lemma upd_next_wake q a v : is_Some (ents q !! a) → ∃ q', upd q a (set_next_wake v) = Ret q' ∧
  (∀ b, nw q' b = if decide (a = b) then Some v else nw q b) ∧ (∀ b, pv q' b = pv q b) ∧ link_step q q' a.
Proof.
  intros [e He]. destruct (upd_wake_spec q a e (set_next_wake v) He eq_refl) as [-> Hl].
  eexists. split; [done|]. split_and!; [intros b; unfold nw|intros b; unfold pv|done]; simpl;
    (destruct (decide (a = b)) as [<-|]; [rewrite lookup_insert_eq, ?He|rewrite lookup_insert_ne by done]); done.
Qed.
Lemma upd_prev_wake q a v : is_Some (ents q !! a) → ∃ q', upd q a (set_prev_wake v) = Ret q' ∧
  (∀ b, pv q' b = if decide (a = b) then Some v else pv q b) ∧ (∀ b, nw q' b = nw q b) ∧ link_step q q' a.
Proof.
  intros [e He]. destruct (upd_wake_spec q a e (set_prev_wake v) He eq_refl) as [-> Hl].
  eexists. split; [done|]. split_and!; [intros b; unfold pv|intros b; unfold nw|done]; simpl;
    (destruct (decide (a = b)) as [<-|]; [rewrite lookup_insert_eq, ?He|rewrite lookup_insert_ne by done]); done.
Qed.

(** The same for an entry that may be NULL. *)
Lemma opt_prev_wake q (c v : option nat) : (∀ x, c = Some x → is_Some (ents q !! x)) →
  ∃ q', match c with Some c => upd q c (set_prev_wake v) | None => Ret q end = Ret q' ∧
  (∀ b, pv q' b = if decide (c = Some b) then Some v else pv q b) ∧ (∀ b, nw q' b = nw q b) ∧
  wake_list q' = wake_list q ∧ wake_step q q' (option_list c).
Proof.
  intros Hl. destruct c as [c|]; simpl.
  - destruct (upd_prev_wake q c v) as (q' & -> & Hp & Hn & [Hr Hs]); [by apply Hl|].
    exists q'. split_and!; try done. intros b. rewrite Hp.
    destruct (decide (c = b)) as [<-|]; [by rewrite decide_True|by rewrite decide_False by congruence].
  - exists q. split_and!; try done.
Qed.

Definition wake_rep (q : queue) (l : list nat) : Prop :=
  seg (nw q) (wake_list q) l None ∧ backs (pv q) None l.

Lemma find_wake_spec q k fuel lst cur l : seg (nw q) cur l None → (length l < fuel)%nat →
  ∃ p s, l = p ++ s ∧ find_wake fuel q k lst cur = Ret (if decide (p = []) then lst else last p, head s) ∧
    Forall (λ b, key_of wake_at q b ≤ k) p ∧ (∀ b, head s = Some b → k < key_of wake_at q b).
Proof.
  revert lst cur l. induction fuel as [|fuel IH]; intros lst cur l Hs Hf; [lia|]. cbn [find_wake].
  destruct l as [|c l]; simpl in Hs.
  { subst cur. exists [], []. by split_and!. }
  destruct Hs as (-> & n & Hn & Hs). destruct (nw_inv _ _ _ Hn) as (e & He & ->).
  rewrite (ent_spec _ _ e), bind_ret_l by done.
  destruct (Z.ltb_spec k (wake_at e)) as [Hlt|Hge].
  { exists [], (c :: l). split_and!; try done. intros b [= <-]. unfold key_of. by rewrite He. }
  destruct (IH (Some c) (_next_wake e) l) as (p & s & -> & Hf' & Hall & Hhd); [done|simpl in Hf; lia|].
  exists (c :: p), s. rewrite Hf'. split_and!; try done.
  - by destruct p.
  - constructor; [|done]. unfold key_of. by rewrite He.
Qed.

Lemma head_in (l : list nat) b : head l = Some b → b ∈ l.
Proof. destruct l; [done|]. intros [= <-]. by left. Qed.

Lemma option_list_head (l : list nat) b : b ∈ option_list (head l) → b ∈ l.
Proof.
  destruct l; simpl; [by intros ?%not_elem_of_nil|]. intros ->%list_elem_of_singleton. by left.
Qed.

Lemma seg_in_live q h l b : seg (nw q) h l None → b ∈ l → is_Some (ents q !! b).
Proof. intros Hs Hb. destruct (seg_in _ _ _ _ _ Hs Hb) as [n Hn]. by eapply nw_live. Qed.

Lemma insert_wake_spec q a e l : ents q !! a = Some e → wake_at e ≠ TIME_MS_NEVER_WILL →
  wake_rep q l → NoDup l → a ∉ l →
  ∃ q' p s, insert_wake_list q a = Ret q' ∧ l = p ++ s ∧
    Forall (λ b, key_of wake_at q b ≤ wake_at e) p ∧
    (∀ b, head s = Some b → wake_at e < key_of wake_at q b) ∧
    wake_rep q' (p ++ a :: s) ∧ wake_step q q' (a :: l).
Proof.
  intros He Hw [Hs Hb] Hnd Ha. unfold insert_wake_list. rewrite (ent_spec _ _ e), bind_ret_l by done.
  rewrite (proj2 (Z.eqb_neq _ _)) by done.
  destruct (find_wake_spec q (wake_at e) (fuel q) None (wake_list q) l)
    as (p & s & -> & -> & Hall & Hhd); [done|by eapply seg_length; [apply nw_live|..]|].
  rewrite bind_ret_l. set (lst := if decide (p = []) then None else last p).
  assert (lst = last p) as El by (unfold lst; by destruct p).
  apply not_elem_of_app in Ha as [Hap Has].
  destruct (upd_next_wake q a (head s)) as (q1 & -> & N1 & P1 & [R1 S1]); [by exists e|]. rewrite bind_ret_l.
  destruct (opt_prev_wake q1 (head s) (Some a)) as (q2 & -> & P2 & N2 & R2 & S2).
  { intros x Hx. eapply wake_step_live; [done|]. eapply seg_in_live; [done|].
    apply elem_of_app. right. by apply head_in. }
  rewrite bind_ret_l.
  destruct (upd_prev_wake q2 a lst) as (q3 & -> & P3 & N3 & [R3 S3]).
  { eapply wake_step_live; [done|]. eapply wake_step_live; [done|]. by exists e. }
  rewrite bind_ret_l.
  pose proof (wake_step_trans _ _ _ _ _ S1 (wake_step_trans _ _ _ _ _ S2 S3)) as S13.
  assert (∃ q4, match lst with Some l => upd q3 l (set_next_wake (Some a))
                | None => Ret (set_wake_list q3 (Some a)) end = Ret q4 ∧
      wake_list q4 = (if decide (p = []) then Some a else wake_list q3) ∧
      (∀ b, nw q4 b = if decide (last p = Some b) then Some (Some a) else nw q3 b) ∧
      (∀ b, pv q4 b = pv q3 b) ∧ wake_step q3 q4 p) as (q4 & -> & R4 & N4 & P4 & S4).
  { rewrite El. destruct (last p) as [c|] eqn:Elp.
    - assert (c ∈ p) as Hc by by apply last_snoc_in.
      destruct (upd_next_wake q3 c (Some a)) as (q4 & -> & N4 & P4 & [R4 S4]).
      { eapply wake_step_live; [done|]. eapply seg_in_live; [done|]. apply elem_of_app. by left. }
      exists q4. split_and!; try done.
      + rewrite R4, decide_False; [done|]. by intros ->.
      + intros b. rewrite N4. destruct (decide (c = b)) as [<-|]; [by rewrite decide_True|].
        by rewrite decide_False by congruence.
      + eapply wake_step_weaken; [|done]. intros b Hb'. apply list_elem_of_singleton in Hb' as ->. done.
    - apply last_None in Elp as ->. eexists. split; [done|]. by split_and!. }
  exists q4, p, s. split_and!; try done.
  - split.
    + rewrite R4, R3, R2, R1. apply (seg_insert (nw q)); [done|done| | |].
      * rewrite N4, decide_False by (intros H; by apply last_snoc_in in H).
        by rewrite N3, N2, N1, decide_True.
      * intros b Hb' Hl. rewrite N4, decide_False, N3, N2, N1, decide_False; [done| |done].
        intros <-. by apply elem_of_app in Hb' as [?|?].
      * intros c Hl. by rewrite N4, decide_True.
    + apply (backs_insert (pv q)); [done|done| | |].
      * by rewrite P4, P3, decide_True.
      * intros b Hb' Hh. rewrite P4, P3, decide_False, P2, decide_False, P1; [done|done|].
        intros <-. by apply elem_of_app in Hb' as [?|?].
      * intros b Hh. rewrite P4, P3, decide_False, P2, decide_True; [done|done|].
        intros <-. by apply head_in in Hh.
  - eapply wake_step_weaken; [|apply (wake_step_trans _ _ _ _ _ S13 S4)].
    intros b Hin. pose proof (option_list_head s b) as Hh. revert Hin.
    rewrite ?elem_of_app, ?elem_of_cons, ?elem_of_app, ?list_elem_of_singleton, ?elem_of_nil. tauto.
Qed.

(** The last two writes of [remove_wake_list]. *)
Lemma clear_links_spec q a : is_Some (ents q !! a) →
  ∃ q', (q' ← upd q a (set_prev_wake None); upd q' a (set_next_wake None)) = Ret q' ∧
    (∀ b, nw q' b = if decide (a = b) then Some None else nw q b) ∧
    (∀ b, pv q' b = if decide (a = b) then Some None else pv q b) ∧
    wake_list q' = wake_list q ∧ wake_step q q' [a].
Proof.
  intros Ha. destruct (upd_prev_wake q a None Ha) as (q1 & -> & P1 & N1 & [R1 S1]). rewrite bind_ret_l.
  destruct (upd_next_wake q1 a None) as (q2 & -> & N2 & P2 & [R2 S2]); [by eapply wake_step_live|].
  exists q2. split_and!; try done.
  - intros b. rewrite N2. by rewrite N1.
  - intros b. by rewrite P2.
  - congruence.
  - eapply wake_step_weaken; [|by eapply wake_step_trans]. intros b Hb. by apply elem_of_app in Hb as [?|?].
Qed.

(** Unlinking the forward side: [prev->_next_wake = next], or the root. *)
Lemma unlink_next_spec q p s a : seg (nw q) (wake_list q) (p ++ a :: s) None → NoDup (p ++ a :: s) →
  ∃ q', match last p with
        | Some c => upd q c (set_next_wake (head s))
        | None => Ret (if decide (wake_list q = Some a) then set_wake_list q (head s) else q)
        end = Ret q' ∧
    wake_list q' = (if decide (p = []) then head s else wake_list q) ∧
    (∀ b, nw q' b = if decide (last p = Some b) then Some (head s) else nw q b) ∧
    (∀ b, pv q' b = pv q b) ∧ wake_step q q' p.
Proof.
  intros Hs Hnd. destruct (last p) as [c|] eqn:Elp.
  - assert (c ∈ p) as Hc by by apply last_snoc_in.
    destruct (upd_next_wake q c (head s)) as (q1 & -> & N1 & P1 & [R1 S1]).
    { eapply seg_in_live; [done|]. apply elem_of_app. by left. }
    exists q1. split_and!; try done.
    + rewrite R1, decide_False; [done|]. by intros ->.
    + intros b. rewrite N1. destruct (decide (c = b)) as [<-|]; [by rewrite decide_True|].
      by rewrite decide_False by congruence.
    + eapply wake_step_weaken; [|done]. intros b Hb'. apply list_elem_of_singleton in Hb' as ->. done.
  - apply last_None in Elp as ->. simpl in Hs. destruct Hs as (Hr & _). rewrite decide_True by done.
    eexists. split; [done|]. by split_and!.
Qed.

Lemma remove_wake_in q a l : wake_rep q l → NoDup l → a ∈ l →
  ∃ q', remove_wake_list q a = Ret q' ∧ wake_rep q' (without a l) ∧
    nw q' a = Some None ∧ pv q' a = Some None ∧ wake_step q q' l.
Proof.
  intros [Hs Hb] Hnd Ha. apply list_elem_of_split in Ha as (p & s & ->).
  destruct (NoDup_mid _ _ _ Hnd) as (Hap & Has & Hnd'). rewrite without_mid by done.
  destruct (linked_at _ _ _ _ _ _ _ Hs Hb) as [Hn Hp].
  destruct (nw_inv _ _ _ Hn) as (e & He & En). unfold pv in Hp. rewrite He in Hp. injection Hp as Ep.
  replace (if decide (p = []) then None else last p) with (last p) in Ep by (by destruct p).
  unfold remove_wake_list. rewrite (ent_spec _ _ e), bind_ret_l, <- En, Ep by done. cbv zeta.
  destruct (unlink_next_spec q p s a Hs Hnd) as (q1 & -> & R1 & N1 & P1 & S1). rewrite bind_ret_l.
  destruct (opt_prev_wake q1 (head s) (last p)) as (q2 & -> & P2 & N2 & R2 & S2).
  { intros x Hx. eapply wake_step_live; [done|]. eapply seg_in_live; [done|].
    apply elem_of_app. right. right. by apply head_in. }
  rewrite bind_ret_l.
  destruct (clear_links_spec q2 a) as (q3 & -> & N3 & P3 & R3 & S3).
  { eapply wake_step_live; [done|]. eapply wake_step_live; [done|]. by exists e. }
  exists q3. split_and!; [done|split| | |].
  - rewrite R3, R2, R1. apply (seg_remove (nw q) _ _ _ _ a); [done|done| |].
    + intros b Hb' Hl. rewrite N3, decide_False, N2, N1, decide_False; [done|done|].
      intros <-. by apply elem_of_app in Hb' as [?|?].
    + intros c Hl. rewrite N3, decide_False, N2, N1, decide_True; [done|done|].
      intros <-. by apply last_snoc_in in Hl.
  - apply (backs_remove (pv q) _ _ _ _ a); [done|done| |].
    + intros b Hb' Hh. rewrite P3, decide_False, P2, decide_False, P1; [done|done|].
      intros <-. by apply elem_of_app in Hb' as [?|?].
    + intros b Hh. rewrite P3, decide_False, P2, decide_True; [by destruct p|done|].
      intros <-. by apply head_in in Hh.
  - by rewrite N3, decide_True.
  - by rewrite P3, decide_True.
  - eapply wake_step_weaken; [|apply (wake_step_trans _ _ _ _ _ S1 (wake_step_trans _ _ _ _ _ S2 S3))].
    intros b Hin. pose proof (option_list_head s b) as Hh. revert Hin.
    rewrite ?elem_of_app, ?elem_of_cons, ?elem_of_app, ?list_elem_of_singleton, ?elem_of_nil. tauto.
Qed.

(** An entry that is not in the list and has no links is left as it is. *)
Lemma remove_wake_out q a l : wake_rep q l → a ∉ l → nw q a = Some None → pv q a = Some None →
  ∃ q', remove_wake_list q a = Ret q' ∧ wake_rep q' l ∧
    nw q' a = Some None ∧ pv q' a = Some None ∧ wake_step q q' [a].
Proof.
  intros [Hs Hb] Ha Hn Hp. destruct (nw_inv _ _ _ Hn) as (e & He & En).
  unfold pv in Hp. rewrite He in Hp. injection Hp as Ep.
  unfold remove_wake_list. rewrite (ent_spec _ _ e), bind_ret_l, <- En, Ep by done. cbv zeta.
  rewrite decide_False. 2: { intros Hr. apply seg_head in Hs. apply Ha, head_in. congruence. }
  rewrite !bind_ret_l. destruct (clear_links_spec q a) as (q3 & -> & N3 & P3 & R3 & S3); [by exists e|].
  exists q3. split_and!; [done|split| | |done].
  - rewrite R3. apply (seg_ext (nw q)); [|done]. intros b Hb'. rewrite N3, decide_False; [done|]. by intros <-.
  - apply (backs_ext (pv q)); [|done]. intros b Hb'. rewrite P3, decide_False; [done|]. by intros <-.
  - by rewrite N3, decide_True.
  - by rewrite P3, decide_True.
Qed.

(** ** What the lists represent *)

(** Insertion of [a] after the entries whose key is not larger. *)
Fixpoint place (key : nat → Z) (a : nat) (l : list nat) : list nat :=
  match l with
  | [] => [a]
  | b :: l' => if key a <? key b then a :: l else b :: place key a l'
  end.

Definition sorted_by (key : nat → Z) (l : list nat) : Prop := StronglySorted (λ a b, key a ≤ key b) l.

(** The run-now, run-soon and wake lists are [ns], [ss] and [ws]. *)
Record rep (q : queue) (ns ss ws : list nat) : Prop := {
  rep_now : seg (nr q) (run_now q) ns None;
  rep_soon : seg (nr q) (run_soon q) ss None;
  rep_wake : wake_rep q ws;
  rep_nodup : NoDup (ns ++ ss);
  rep_wnodup : NoDup ws;
  rep_wsub a : a ∈ ws ↔ a ∈ ss ∧ key_of wake_at q a ≠ TIME_MS_NEVER_WILL;
  rep_wout a : is_Some (ents q !! a) → a ∉ ws → nw q a = Some None ∧ pv q a = Some None;
  rep_sched a : _scheduled <$> ents q !! a = Some true ↔ a ∈ ns ++ ss;
  rep_now_sorted : sorted_by (key_of run_before q) ns;
  rep_soon_sorted : sorted_by (key_of run_after q) ss;
  rep_wake_sorted : sorted_by (key_of wake_at q) ws;
}.

Lemma place_split key a p s : Forall (λ b, key b ≤ key a) p → (∀ b, head s = Some b → key a < key b) →
  place key a (p ++ s) = p ++ a :: s.
Proof.
  intros Hp Hs. induction Hp as [|b p Hb _ IH]; simpl.
  - destruct s as [|b s]; [done|]. simpl. by rewrite (proj2 (Z.ltb_lt _ _)) by (by apply Hs).
  - rewrite (proj2 (Z.ltb_ge _ _)) by done. by rewrite IH.
Qed.

Lemma elem_of_place key a b l : b ∈ place key a l ↔ b = a ∨ b ∈ l.
Proof.
  induction l as [|c l IH]; simpl; [rewrite !elem_of_cons; tauto|].
  destruct (key a <? key c); rewrite !elem_of_cons, ?IH, ?elem_of_cons; tauto.
Qed.

Lemma place_perm key a l : place key a l ≡ₚ a :: l.
Proof.
  induction l as [|c l IH]; simpl; [done|]. destruct (key a <? key c); [done|]. rewrite IH. apply perm_swap.
Qed.

Lemma place_sorted key a l : sorted_by key l → sorted_by key (place key a l).
Proof.
  unfold sorted_by. induction 1 as [|b l Hl IH Hb]; simpl; [repeat constructor|].
  destruct (Z.ltb_spec (key a) (key b)).
  - constructor; [by constructor|]. constructor; [lia|]. apply (Forall_impl _ _ _ Hb). lia.
  - constructor; [done|]. rewrite place_perm. by constructor.
Qed.

Lemma sorted_by_ext key key' l : (∀ b, b ∈ l → key' b = key b) → sorted_by key l → sorted_by key' l.
Proof.
  unfold sorted_by. intros Hx Hs. induction Hs as [|b l Hl IH Hb]; constructor.
  - apply IH. intros c Hc. apply Hx. by right.
  - apply Forall_forall. intros c Hc. rewrite !Hx by (by left || by right).
    exact (proj1 (Forall_forall _ _) Hb c Hc).
Qed.

Lemma place_ext key key' a l : key' a = key a → (∀ b, b ∈ l → key' b = key b) →
  place key' a l = place key a l.
Proof.
  intros Ha Hx. induction l as [|b l IH]; simpl; [done|]. rewrite Ha, (Hx b) by (by left).
  destruct (key a <? key b); [done|]. rewrite IH; [done|]. intros c Hc. apply Hx. by right.
Qed.

Lemma without_sorted key a l : sorted_by key l → sorted_by key (without a l).
Proof.
  unfold sorted_by, without. induction 1 as [|b l Hl IH Hb]; [constructor|].
  rewrite filter_cons. case_decide; [|done]. constructor; [done|].
  apply Forall_forall. intros c [_ Hc]%list_elem_of_filter. exact (proj1 (Forall_forall _ _) Hb c Hc).
Qed.

Lemma without_app a p s : without a (p ++ s) = without a p ++ without a s.
Proof. apply filter_app. Qed.

Lemma without_NoDup a l : NoDup l → NoDup (without a l).
Proof. apply NoDup_filter. Qed.

(** A field that a run-list step does not touch. *)
Lemma run_step_field {B} (f : sched_ent → B) r q q' L b : (∀ e, f (set_next_run None e) = f e) →
  run_step r q q' L → f <$> ents q' !! b = f <$> ents q !! b.
Proof.
  intros Hf Hst. pose proof (rs_core _ _ _ _ Hst b) as Hc.
  destruct (ents q' !! b) as [e'|], (ents q !! b) as [e|]; try done. simpl in *.
  apply (inj Some) in Hc. f_equal. by rewrite <- (Hf e'), Hc, Hf.
Qed.
Lemma wake_step_field {B} (f : sched_ent → B) q q' L b : (∀ e, f (clear_wake e) = f e) →
  wake_step q q' L → f <$> ents q' !! b = f <$> ents q !! b.
Proof.
  intros Hf Hst. pose proof (ws_core _ _ _ Hst b) as Hc.
  destruct (ents q' !! b) as [e'|], (ents q !! b) as [e|]; try done. simpl in *.
  apply (inj Some) in Hc. f_equal. by rewrite <- (Hf e'), Hc, Hf.
Qed.

Lemma upd_field {B} (g : sched_ent → B) q a e f b : ents q !! a = Some e → g (f e) = g e →
  g <$> ents (set_ents q (<[a := f e]> (ents q))) !! b = g <$> ents q !! b.
Proof.
  intros He Hg. simpl. destruct (decide (a = b)) as [<-|]; [|by rewrite lookup_insert_ne].
  rewrite lookup_insert_eq, He. simpl. by rewrite Hg.
Qed.

(** An entry that is not scheduled is in no list. *)
Lemma rep_not_in q ns ss ws a : rep q ns ss ws → _scheduled <$> ents q !! a ≠ Some true →
  (a ∉ ns) ∧ (a ∉ ss) ∧ (a ∉ ws).
Proof.
  intros Hr Hs. rewrite (rep_sched _ _ _ _ Hr a), elem_of_app in Hs.
  split_and!; [tauto|tauto|]. rewrite (rep_wsub _ _ _ _ Hr a). tauto.
Qed.

(** Changing fields of an entry that is in no list, other than its links and its
    flag, does not change the lists. *)
Lemma rep_upd q ns ss ws a e f : rep q ns ss ws → ents q !! a = Some e → _scheduled e = false →
  _next_run (f e) = _next_run e → _next_wake (f e) = _next_wake e → _prev_wake (f e) = _prev_wake e →
  _scheduled (f e) = false → rep (set_ents q (<[a := f e]> (ents q))) ns ss ws.
Proof.
  intros Hr He Hse Hnr Hnw Hpv Hs. set (q' := set_ents _ _).
  destruct (rep_not_in q ns ss ws a Hr) as (Hn & Hsn & Hw); [rewrite He; simpl; congruence|].
  assert (∀ key b, b ≠ a → key_of key q' b = key_of key q b) as Hkey.
  { intros key b Hb. unfold key_of. simpl. by rewrite lookup_insert_ne. }
  pose proof (λ b, upd_field _next_run q a e f b He Hnr) as HR.
  pose proof (λ b, upd_field _next_wake q a e f b He Hnw) as HW.
  pose proof (λ b, upd_field _prev_wake q a e f b He Hpv) as HP.
  assert (∀ b (l : list nat), b ∈ l → a ∉ l → b ≠ a) as Hne by (intros b l Hb Ha ->; done).
  destruct Hr as [H1 H2 [H3 H3'] H4 H5 H6 H7 H8 H9 H10 H11]. split; try done.
  - apply (seg_ext (nr q)); [|done]. intros b _. apply HR.
  - apply (seg_ext (nr q)); [|done]. intros b _. apply HR.
  - split; [apply (seg_ext (nw q)); [|done]; intros b _; apply HW|].
    apply (backs_ext (pv q)); [|done]. intros b _. apply HP.
  - intros b. destruct (decide (b = a)) as [->|Hb]; [split; [done|]; by intros [? _]|]. by rewrite Hkey.
  - intros b Hl Hb. unfold nw, pv. rewrite HW, HP. apply H7; [|done].
    revert Hl. simpl. destruct (decide (a = b)) as [<-|]; [by rewrite He|by rewrite lookup_insert_ne].
  - intros b. rewrite <- H8. simpl. destruct (decide (a = b)) as [<-|]; [|by rewrite lookup_insert_ne].
    rewrite lookup_insert_eq, He. simpl. by rewrite Hs, Hse.
  - apply (sorted_by_ext (key_of run_before q)); [|done]. eauto.
  - apply (sorted_by_ext (key_of run_after q)); [|done]. eauto.
  - apply (sorted_by_ext (key_of wake_at q)); [|done]. eauto.
Qed.

(** The run-after time [schedule] uses. *)
Definition effective_after (e : sched_ent) : Z :=
  if (run_after e =? TIME_MS_NEVER_WILL) || (run_after e =? 0) then alarm e else run_after e.

(** Linking an entry into the wake list, where it is to be woken. *)
Lemma insert_wake_opt q a e ws : ents q !! a = Some e → wake_rep q ws → NoDup ws → a ∉ ws →
  nw q a = Some None → pv q a = Some None →
  let ws' := if wake_at e =? TIME_MS_NEVER_WILL then ws else place (key_of wake_at q) a ws in
  ∃ q', insert_wake_list q a = Ret q' ∧ wake_rep q' ws' ∧ wake_step q q' (a :: ws) ∧
    (a ∉ ws' → nw q' a = Some None ∧ pv q' a = Some None).
Proof.
  intros He Hw Hnd Ha Hn Hp ws'. unfold ws'. destruct (Z.eqb_spec (wake_at e) TIME_MS_NEVER_WILL) as [E|E].
  - exists q. unfold insert_wake_list. rewrite (ent_spec _ _ e), bind_ret_l, E, Z.eqb_refl by done.
    split_and!; try done.
  - destruct (insert_wake_spec q a e ws He E Hw Hnd Ha) as (q' & p & s & Hi & -> & Hall & Hhd & Hw' & Hst).
    exists q'. assert (key_of wake_at q a = wake_at e) as Ek by (unfold key_of; by rewrite He).
    rewrite place_split by (by rewrite Ek). split_and!; try done.
    intros Hni. exfalso. apply Hni. apply elem_of_app. right. by left.
Qed.

Lemma flag_scheduled q a e b : ents q !! a = Some e →
  let q' := set_ents q (<[a := set_scheduled true (run_after e) e]> (ents q)) in
  (_scheduled <$> ents q' !! b = if decide (a = b) then Some true else _scheduled <$> ents q !! b) ∧
  (∀ key, (∀ e, key (set_scheduled true (run_after e) e) = key e) → key_of key q' b = key_of key q b).
Proof.
  intros He q'. split.
  - simpl. destruct (decide (a = b)) as [<-|]; [by rewrite lookup_insert_eq|by rewrite lookup_insert_ne].
  - intros key Hk. unfold key_of. f_equal. by apply (upd_field key q a e (λ e, set_scheduled true (run_after e) e)).
Qed.

(** The insertions of [schedule], from a state in which the entry is in no list. *)
Lemma link_spec q a e ns ss ws : rep q ns ss ws → ents q !! a = Some e → _scheduled e = false →
  let ws' := if wake_at e =? TIME_MS_NEVER_WILL then ws else place (key_of wake_at q) a ws in
  ∃ q', (q ← insert_wake_list q a; q ← insert_run_soon q a;
         upd q a (λ e, set_scheduled true (run_after e) e)) = Ret q' ∧
    rep q' ns (place (key_of run_after q) a ss) ws' ∧
    (∀ b, key_of run_after q' b = key_of run_after q b ∧ key_of wake_at q' b = key_of wake_at q b ∧
          key_of run_before q' b = key_of run_before q b).
Proof.
  intros Hr He Hse ws'.
  destruct (rep_not_in q ns ss ws a Hr) as (Hn & Hsn & Hw); [rewrite He; simpl; congruence|].
  destruct (rep_wout _ _ _ _ Hr a) as [Hnn Hpp]; [by exists e|done|].
  pose proof (rep_nodup _ _ _ _ Hr) as Hnd. pose proof Hnd as (Hndn & Hdis & Hnds)%NoDup_app.
  destruct (insert_wake_opt q a e ws He (rep_wake _ _ _ _ Hr) (rep_wnodup _ _ _ _ Hr) Hw Hnn Hpp)
    as (q1 & -> & Hw1 & St1 & Hout1). rewrite bind_ret_l. fold ws' in Hw1, Hout1.
  pose proof (λ b, wake_step_field _next_run q q1 _ b (λ _, eq_refl) St1) as NR1.
  destruct (wake_step_live _ _ _ a St1) as [e1 He1]; [by exists e|].
  assert (∀ key, (∀ e, key (clear_wake e) = key e) → ∀ b, key_of key q1 b = key_of key q b) as K1.
  { intros key Hk b. unfold key_of. f_equal. by apply (wake_step_field key _ _ _ b Hk St1). }
  assert (key_of run_after q1 a = run_after e1) as Ek1 by (unfold key_of; by rewrite He1).
  destruct (insert_run_spec Soon run_after q1 a e1 ss He1) as (q2 & p & s & Hi & Ess & Hall & Hhd & Hs2 & St2).
  { rewrite (ws_root _ _ _ St1 Soon). apply (seg_ext (nr q)); [|apply Hr]. intros b _. apply NR1. }
  { done. } { done. }
  unfold insert_run_soon. rewrite Hi, bind_ret_l.
  assert (p ++ a :: s = place (key_of run_after q) a ss) as Epl.
  { rewrite Ess, place_split; [done| |].
    - apply (Forall_impl _ _ _ Hall). intros b. rewrite K1, <- Ek1, K1 by done. done.
    - intros b Hb. specialize (Hhd b Hb). by rewrite K1, <- Ek1, K1 in Hhd. }
  rewrite Epl in Hs2.
  assert (∀ key, (∀ e, key (set_next_run None e) = key e) → ∀ b, key_of key q2 b = key_of key q1 b) as K2.
  { intros key Hk b. unfold key_of. f_equal. by apply (run_step_field key _ _ _ _ b Hk St2). }
  assert (is_Some (ents q2 !! a)) as [e2 He2].
  { pose proof (rs_core _ _ _ _ St2 a) as Hc. rewrite He1 in Hc. apply fmap_Some in Hc as (e2 & -> & _). done. }
  rewrite (upd_spec _ _ e2) by done. set (q3 := set_ents q2 _).
  pose proof (λ b, flag_scheduled q2 a e2 b He2) as HF. cbv zeta in HF. fold q3 in HF.
  set (fl := λ e, set_scheduled true (run_after e) e) in *.
  pose proof (λ b, upd_field _next_run q2 a e2 fl b He2 eq_refl) as NR3.
  pose proof (λ b, upd_field _next_wake q2 a e2 fl b He2 eq_refl) as NW3.
  pose proof (λ b, upd_field _prev_wake q2 a e2 fl b He2 eq_refl) as PV3.
  change (set_ents q2 _) with q3 in NR3, NW3, PV3.
  pose proof (λ b, run_step_field _next_wake _ _ _ _ b (λ _, eq_refl) St2) as NW2.
  pose proof (λ b, run_step_field _prev_wake _ _ _ _ b (λ _, eq_refl) St2) as PV2.
  assert (∀ b, key_of run_after q3 b = key_of run_after q b ∧ key_of wake_at q3 b = key_of wake_at q b ∧
          key_of run_before q3 b = key_of run_before q b) as HK.
  { intros b. destruct (HF b) as [_ HFk]. rewrite !HFk, !K2, !K1 by done. done. }
  exists q3. split; [done|]. split; [|exact HK].
  assert (∀ b, b ∈ ws' ↔ (b = a ∧ wake_at e ≠ TIME_MS_NEVER_WILL) ∨ b ∈ ws) as Hin.
  { intros b. unfold ws'. destruct (Z.eqb_spec (wake_at e) TIME_MS_NEVER_WILL); [tauto|].
    rewrite elem_of_place. tauto. }
  split.
  - apply (seg_ext (nr q)).
    { intros b Hb. unfold nr. rewrite NR3, (rs_same _ _ _ _ St2 b); [apply NR1|].
      rewrite not_elem_of_cons. split; [by intros ->|]. by apply Hdis. }
    change (run_now q3) with (get_root q2 Now). rewrite (rs_root _ _ _ _ St2 Now) by done.
    rewrite (ws_root _ _ _ St1 Now). apply Hr.
  - change (run_soon q3) with (get_root q2 Soon). apply (seg_ext (nr q2)); [|done]. intros b _. apply NR3.
  - destruct Hw1 as [Hw1 Hb1]. split.
    + change (wake_list q3) with (wake_list q2). rewrite (rs_wake _ _ _ _ St2).
      apply (seg_ext (nw q1)); [|done]. intros b _. unfold nw. by rewrite NW3, NW2.
    + apply (backs_ext (pv q1)); [|done]. intros b _. unfold pv. by rewrite PV3, PV2.
  - rewrite place_perm, <- Permutation_middle. constructor; [|done]. by rewrite not_elem_of_app.
  - unfold ws'. case_if; [apply Hr|]. rewrite place_perm. constructor; [done|apply Hr].
  - intros b. rewrite Hin, (rep_wsub _ _ _ _ Hr b), elem_of_place. destruct (HK b) as (_ & -> & _).
    assert (key_of wake_at q a = wake_at e) as Ea by (unfold key_of; by rewrite He).
    split; [intros [[-> ?]|[? ?]]; [split; [by left|congruence]|tauto]|].
    intros [[->|?] ?]; [left; split; congruence|tauto].
  - intros b Hl Hb. unfold nw, pv. rewrite NW3, NW2, PV3, PV2.
    destruct (decide (b = a)) as [->|Hba]; [by apply Hout1|].
    rewrite (ws_same _ _ _ St1 b). { apply Hr; [|rewrite Hin in Hb; tauto].
      assert (_next_wake <$> ents q3 !! b = _next_wake <$> ents q1 !! b) as Hx by (rewrite NW3; apply NW2).
      destruct Hl as [x Hx']. rewrite Hx' in Hx. simpl in Hx. symmetry in Hx.
      apply fmap_Some in Hx as (y & Hy & _). rewrite (ws_same _ _ _ St1 b) in Hy; [by exists y|].
      rewrite Hin in Hb. rewrite not_elem_of_cons. tauto. }
    rewrite Hin in Hb. rewrite not_elem_of_cons. tauto.
  - intros b. destruct (HF b) as [-> _]. rewrite elem_of_app, elem_of_place.
    rewrite (run_step_field _scheduled _ _ _ _ b (λ _, eq_refl) St2).
    rewrite (wake_step_field _scheduled _ _ _ b (λ _, eq_refl) St1).
    destruct (decide (a = b)) as [<-|]; [split; [by right; left|done]|].
    rewrite (rep_sched _ _ _ _ Hr b), elem_of_app. split; [tauto|]. intros [?|[->|?]]; tauto.
  - apply (sorted_by_ext (key_of run_before q)); [|apply Hr]. intros b _. apply HK.
  - apply (sorted_by_ext (key_of run_after q)); [intros b _; apply HK|]. apply place_sorted, Hr.
  - apply (sorted_by_ext (key_of wake_at q)); [intros b _; apply HK|].
    unfold ws'. case_if; [apply Hr|]. apply place_sorted, Hr.
Qed.

End FdQueueSpec.
