(* ===== verification/FdQueueRefine.v ===== *)
(** * The scheduler refines sorted sequences

    [schedule], [unschedule] and [move_run_list] insert into, remove from and
    transfer between the sorted sequences that the linked lists represent. *)

From S2P Require Import Prelude FdQueue FdQueueSpec.
Import FdQueue FdQueueSpec.

Module FdQueueRefine.

(** ** Keys *)

Lemma run_step_key key r q q' L b : (∀ e, key (set_next_run None e) = key e) → run_step r q q' L →
  key_of key q' b = key_of key q b.
Proof. intros Hk Hst. unfold key_of. f_equal. by eapply run_step_field. Qed.
Lemma wake_step_key key q q' L b : (∀ e, key (clear_wake e) = key e) → wake_step q q' L →
  key_of key q' b = key_of key q b.
Proof. intros Hk Hst. unfold key_of. f_equal. by eapply wake_step_field. Qed.
Lemma key_of_at key q a e : ents q !! a = Some e → key_of key q a = key e.
Proof. intros He. unfold key_of. by rewrite He. Qed.

Lemma field_live {B} (f : sched_ent → B) q q' b : f <$> ents q' !! b = f <$> ents q !! b →
  is_Some (ents q !! b) ↔ is_Some (ents q' !! b).
Proof. destruct (ents q !! b), (ents q' !! b); simpl; intros H; split; try done; by intros [??]. Qed.

(** ** Scheduling *)

Definition schedulable (e : sched_ent) : Prop :=
  _scheduled e = false ∧ is_Some (function e) ∧
  effective_after e ≤ alarm e ∧ effective_after e ≤ deadline e.

#[export] Instance schedulable_dec e : Decision (schedulable e).
Proof. unfold schedulable. apply _. Defined.

(** The sequences after scheduling [a]. *)
Definition soon_after (q : queue) (a : nat) (e : sched_ent) (ss : list nat) : list nat :=
  if effective_after e =? TIME_MS_NEVER_WILL then ss else place (key_of run_after q) a ss.
Definition wake_after (q : queue) (a : nat) (e : sched_ent) (ws : list nat) : list nat :=
  if (effective_after e =? TIME_MS_NEVER_WILL) || (alarm e =? TIME_MS_NEVER_WILL) then ws
  else place (key_of wake_at q) a ws.

(** The assertions of [schedule] in a boolean. *)
Lemma schedule_unfold q a e : ents q !! a = Some e → schedulable e →
  schedule q a =
    (let q1 := set_ents q (<[a := set_times (effective_after e) (alarm e) (deadline e) e]> (ents q)) in
     if effective_after e =? TIME_MS_NEVER_WILL then Ret q1
     else q ← insert_wake_list q1 a; q ← insert_run_soon q a;
          upd q a (λ e, set_scheduled true (run_after e) e)).
Proof.
  intros He (Hs & Hf & Ha & Hd). unfold schedule. rewrite (ent_spec _ _ e), bind_ret_l by done.
  fold (effective_after e). rewrite (upd_spec _ _ e), bind_ret_l by done.
  unfold is_scheduled. rewrite Hs, (proj2 (Z.leb_le _ _) Ha), (proj2 (Z.leb_le _ _) Hd).
  rewrite bool_decide_true by done. simpl. by destruct (effective_after e =? TIME_MS_NEVER_WILL).
Qed.

Lemma schedule_spec q a e ns ss ws : rep q ns ss ws → ents q !! a = Some e → schedulable e →
  ∃ q', schedule q a = Ret q' ∧
    rep q' ns (soon_after q' a e ss) (wake_after q' a e ws) ∧
    key_of run_after q' a = effective_after e ∧ key_of wake_at q' a = alarm e ∧
    key_of run_before q' a = deadline e.
Proof.
  intros Hr He Hok. rewrite (schedule_unfold _ _ e) by done. destruct Hok as (Hs & Hf & Ha & Hd).
  set (e1 := set_times _ _ _ e). cbv zeta. set (q1 := set_ents q _).
  assert (ents q1 !! a = Some e1) as He1 by apply lookup_insert_eq.
  assert (rep q1 ns ss ws) as Hr1 by (by apply (rep_upd q ns ss ws a e (set_times _ _ _))).
  unfold soon_after, wake_after. destruct (Z.eqb_spec (effective_after e) TIME_MS_NEVER_WILL) as [En|En]; simpl.
  { exists q1. rewrite !(key_of_at _ _ _ e1) by done. by split_and!. }
  destruct (link_spec q1 a e1 ns ss ws Hr1 He1 Hs) as (q2 & Hl & Hr2 & HK).
  exists q2. split; [exact Hl|]. change (wake_at e1) with (alarm e) in Hr2.
  rewrite (place_ext (key_of run_after q1) (key_of run_after q2)) by (intros; apply HK).
  rewrite (place_ext (key_of wake_at q1) (key_of wake_at q2)) by (intros; apply HK).
  split; [done|]. destruct (HK a) as (-> & -> & ->). rewrite !(key_of_at _ _ _ e1) by done. by split_and!.
Qed.

(** ** Removing an entry from the wake list, whether it is there or not *)

Lemma remove_wake_spec q a ws : wake_rep q ws → NoDup ws → is_Some (ents q !! a) →
  (a ∉ ws → nw q a = Some None ∧ pv q a = Some None) →
  ∃ q', remove_wake_list q a = Ret q' ∧ wake_rep q' (without a ws) ∧
    nw q' a = Some None ∧ pv q' a = Some None ∧ wake_step q q' (a :: ws).
Proof.
  intros Hw Hnd Hl Hout. destruct (decide (a ∈ ws)) as [Hin|Hin].
  - destruct (remove_wake_in q a ws) as (q' & ? & ? & ? & ? & St); [done..|].
    exists q'. split_and!; try done. eapply wake_step_weaken; [|done]. intros; by right.
  - destruct (Hout Hin). destruct (remove_wake_out q a ws) as (q' & ? & ? & ? & ? & St); [done..|].
    exists q'. rewrite without_notin by done. split_and!; try done.
    eapply wake_step_weaken; [|done]. intros b ->%list_elem_of_singleton. by left.
Qed.

(** What the links of the entries outside the wake list are, after a removal. *)
Lemma without_out q q' a ws b : wake_step q q' (a :: ws) → nw q' a = Some None → pv q' a = Some None →
  (∀ b, is_Some (ents q !! b) → b ∉ ws → nw q b = Some None ∧ pv q b = Some None) →
  is_Some (ents q' !! b) → b ∉ without a ws → nw q' b = Some None ∧ pv q' b = Some None.
Proof.
  intros St Hn Hp Hout Hl Hb. destruct (decide (b = a)) as [->|Hne]; [done|].
  assert (b ∉ ws) as Hws by (intros Hin; apply Hb, elem_of_without; done).
  assert (ents q' !! b = ents q !! b) as Eb.
  { apply (ws_same _ _ _ St). rewrite not_elem_of_cons. done. }
  unfold nw, pv. rewrite Eb in Hl |- *. by apply Hout.
Qed.

(** ** Unscheduling *)

(** Taking [a] off both run lists. *)
Lemma remove_runs_spec q a ns ss : seg (nr q) (run_now q) ns None → seg (nr q) (run_soon q) ss None →
  NoDup (ns ++ ss) →
  ∃ q', (q ← remove_run_list q a Now; remove_run_list q a Soon) = Ret q' ∧
    seg (nr q') (run_now q') (without a ns) None ∧ seg (nr q') (run_soon q') (without a ss) None ∧
    (∀ b, set_next_run None <$> ents q' !! b = set_next_run None <$> ents q !! b) ∧
    wake_list q' = wake_list q ∧
    (fds q' = fds q ∧ fdcount q' = fdcount q ∧ fd_callbacks q' = fd_callbacks q).
Proof.
  intros Hn Hs (Hndn & Hdis & Hnds)%NoDup_app.
  destruct (remove_run_spec Now q a ns Hn Hndn) as (q1 & -> & Hn1 & St1). rewrite bind_ret_l.
  destruct (remove_run_spec Soon q1 a ss) as (q2 & -> & Hs2 & St2); [|done|].
  { rewrite (rs_root _ _ _ _ St1 Soon) by done. apply (seg_ext (nr q)); [|done].
    intros b Hb. unfold nr. rewrite (rs_same _ _ _ _ St1); [done|]. intros Hb'. by apply (Hdis b). }
  exists q2. split_and!; try done.
  - change (run_now q2) with (get_root q2 Now). rewrite (rs_root _ _ _ _ St2 Now) by done.
    apply (seg_ext (nr q1)); [|done]. intros b [_ Hb]%elem_of_without.
    unfold nr. rewrite (rs_same _ _ _ _ St2); [done|]. by apply Hdis.
  - intros b. by rewrite (rs_core _ _ _ _ St2), (rs_core _ _ _ _ St1).
  - by rewrite (rs_wake _ _ _ _ St2), (rs_wake _ _ _ _ St1).
  - etrans; [apply (rs_watch _ _ _ _ St2)|apply (rs_watch _ _ _ _ St1)].
  - etrans; [apply (rs_watch _ _ _ _ St2)|apply (rs_watch _ _ _ _ St1)].
  - etrans; [apply (rs_watch _ _ _ _ St2)|apply (rs_watch _ _ _ _ St1)].
Qed.

Lemma core_field {B} (f : sched_ent → B) (o o' : option sched_ent) :
  (∀ e, f (set_next_run None e) = f e) → set_next_run None <$> o' = set_next_run None <$> o →
  f <$> o' = f <$> o.
Proof.
  intros Hf Hc. destruct o' as [e'|], o as [e|]; try done. simpl in *.
  apply (inj Some) in Hc. f_equal. by rewrite <- (Hf e'), Hc, Hf.
Qed.

(** Clearing the flag of an entry that has been taken off every list. *)
Lemma flag_cleared q a e b : ents q !! a = Some e →
  let q' := set_ents q (<[a := set_scheduled false TIME_MS_NEVER_WILL e]> (ents q)) in
  (b ≠ a → ents q' !! b = ents q !! b) ∧
  _scheduled <$> ents q' !! b = (if decide (a = b) then Some false else _scheduled <$> ents q !! b) ∧
  nr q' b = nr q b ∧ nw q' b = nw q b ∧ pv q' b = pv q b.
Proof.
  intros He q'. unfold q', nr, nw, pv. simpl. destruct (decide (a = b)) as [<-|].
  - rewrite lookup_insert_eq, He. by split_and!.
  - rewrite lookup_insert_ne by done. by split_and!.
Qed.

(** The sequences of [q'] are those of [q] less [a], which is no longer
    scheduled. *)
Lemma rep_drop q q' a ns ss ws : rep q ns ss ws →
  seg (nr q') (run_now q') (without a ns) None → seg (nr q') (run_soon q') (without a ss) None →
  wake_rep q' (without a ws) →
  (∀ b, is_Some (ents q' !! b) → b ∉ without a ws → nw q' b = Some None ∧ pv q' b = Some None) →
  (∀ b, b ≠ a → clear_wake <$> (set_next_run None <$> ents q' !! b) =
                clear_wake <$> (set_next_run None <$> ents q !! b)) →
  _scheduled <$> ents q' !! a ≠ Some true →
  rep q' (without a ns) (without a ss) (without a ws).
Proof.
  intros Hr Hn Hs Hw Hout Hcore Hfl.
  assert (∀ (B : Type) (f : sched_ent → B), (∀ e, f (clear_wake (set_next_run None e)) = f e) →
    ∀ b, b ≠ a → f <$> ents q' !! b = f <$> ents q !! b) as HF.
  { intros B f Hf b Hb. specialize (Hcore b Hb). destruct (ents q' !! b), (ents q !! b); try done.
    simpl in *. apply (inj Some) in Hcore. f_equal. by rewrite <- Hf, Hcore. }
  assert (∀ key, (∀ e, key (clear_wake (set_next_run None e)) = key e) →
    ∀ l b, b ∈ without a l → key_of key q' b = key_of key q b) as HK.
  { intros key Hk l b [Hb _]%elem_of_without. unfold key_of. f_equal. by apply HF. }
  destruct Hr as [H1 H2 H3 H4 H5 H6 H7 H8 H9 H10 H11].
  assert (∀ b, b ≠ a → key_of wake_at q' b = key_of wake_at q b) as Hkw.
  { intros b Hb. unfold key_of. f_equal. by apply HF. }
  split; try done.
  - rewrite <- without_app. by apply without_NoDup.
  - by apply without_NoDup.
  - intros b. rewrite !elem_of_without, H6.
    split; [intros (? & ? & ?)|intros ((? & ?) & ?)]; rewrite Hkw in *; done.
  - intros b. rewrite <- without_app, elem_of_without, <- H8.
    destruct (decide (b = a)) as [->|Hb]; [split; [done|tauto]|]. rewrite HF by done. tauto.
  - apply (sorted_by_ext (key_of run_before q)); [by apply HK|]. by apply without_sorted.
  - apply (sorted_by_ext (key_of run_after q)); [by apply HK|]. by apply without_sorted.
  - apply (sorted_by_ext (key_of wake_at q)); [by apply HK|]. by apply without_sorted.
Qed.

Lemma unschedule_spec q a e ns ss ws : rep q ns ss ws → ents q !! a = Some e →
  ∃ q', unschedule q a = Ret q' ∧ rep q' (without a ns) (without a ss) (without a ws) ∧
    _scheduled <$> ents q' !! a = Some false.
Proof.
  intros Hr He. unfold unschedule. rewrite (ent_spec _ _ e), bind_ret_l by done. unfold is_scheduled.
  destruct (_scheduled e) eqn:Es; simpl.
  2: { destruct (rep_not_in q ns ss ws a Hr) as (? & ? & ?); [rewrite He; simpl; congruence|].
       exists q. rewrite !without_notin by done. rewrite He. simpl. by rewrite Es. }
  destruct (remove_runs_spec q a ns ss) as (q2 & Hrun & Hn2 & Hs2 & Hc2 & Hw2 & _); [apply Hr..|].
  apply bind_ret_inv in Hrun as (q1 & E1 & E2). rewrite E1, bind_ret_l, E2, bind_ret_l.
  pose proof (λ b, core_field _next_wake _ _ (λ _, eq_refl) (Hc2 b)) as NW2.
  pose proof (λ b, core_field _prev_wake _ _ (λ _, eq_refl) (Hc2 b)) as PV2.
  assert (∀ b, is_Some (ents q2 !! b) → b ∉ ws → nw q2 b = Some None ∧ pv q2 b = Some None) as Hout2.
  { intros b Hl Hb. unfold nw, pv. rewrite NW2, PV2. apply Hr; [|done]. by rewrite (field_live _next_wake q q2). }
  assert (is_Some (ents q2 !! a)) as Hl2 by (rewrite <- (field_live _next_wake q q2) by done; by exists e).
  destruct (remove_wake_spec q2 a ws) as (q3 & -> & Hw3 & Hn3 & Hp3 & St3); [|apply Hr|done|by apply Hout2|].
  { destruct (rep_wake _ _ _ _ Hr) as [Hsg Hbk]. split; [|eapply backs_ext; [|exact Hbk]; intros; apply PV2].
    rewrite Hw2. eapply seg_ext; [|exact Hsg]. intros; apply NW2. }
  rewrite bind_ret_l. destruct (wake_step_live _ _ _ a St3 Hl2) as [e3 He3].
  rewrite (upd_spec _ _ e3) by done. pose proof (λ b, flag_cleared q3 a e3 b He3) as HF. cbv zeta in HF.
  set (q4 := set_ents q3 _) in *. exists q4. split; [done|].
  split; [|by rewrite (proj1 (proj2 (HF a))), decide_True].
  pose proof (λ b, wake_step_field _next_run _ _ _ b (λ _, eq_refl) St3) as NR3.
  apply (rep_drop q); [done| | | | | |].
  - apply (seg_ext (nr q2)); [intros b _; rewrite (proj1 (proj2 (proj2 (HF b)))); apply NR3|].
    change (run_now q4) with (get_root q3 Now). by rewrite (ws_root _ _ _ St3 Now).
  - apply (seg_ext (nr q2)); [intros b _; rewrite (proj1 (proj2 (proj2 (HF b)))); apply NR3|].
    change (run_soon q4) with (get_root q3 Soon). by rewrite (ws_root _ _ _ St3 Soon).
  - destruct Hw3 as [Hsg Hbk]. split; [apply (seg_ext (nw q3))|apply (backs_ext (pv q3))]; try done;
      intros b _; apply HF.
  - intros b Hl Hb. destruct (HF b) as (_ & _ & _ & -> & ->). apply (without_out q2 q3 a ws); try done.
    rewrite <- (field_live _next_run q3 q4) in Hl; [done|]. apply (HF b).
  - intros b Hb. rewrite (proj1 (HF b) Hb), <- !option_fmap_compose.
    transitivity (set_next_run None <$> (clear_wake <$> ents q3 !! b)); [by rewrite <- option_fmap_compose|].
    rewrite (ws_core _ _ _ St3). rewrite <- option_fmap_compose.
    transitivity (clear_wake <$> (set_next_run None <$> ents q2 !! b)); [by rewrite <- option_fmap_compose|].
    by rewrite Hc2, <- option_fmap_compose.
  - rewrite (proj1 (proj2 (HF a))), decide_True by done. done.
Qed.

(** ** Moving alarms whose time has come *)

(** The lookups a step of [move_run_list] leaves alone: everything but links. *)
Definition same_core (q q' : queue) : Prop :=
  ∀ b, clear_wake <$> (set_next_run None <$> ents q' !! b) =
       clear_wake <$> (set_next_run None <$> ents q !! b).

Lemma same_core_field {B} (f : sched_ent → B) q q' b : (∀ e, f (clear_wake (set_next_run None e)) = f e) →
  same_core q q' → f <$> ents q' !! b = f <$> ents q !! b.
Proof.
  intros Hf Hc. specialize (Hc b). destruct (ents q' !! b), (ents q !! b); try done.
  simpl in *. apply (inj Some) in Hc. f_equal. by rewrite <- Hf, Hc.
Qed.
Lemma same_core_key key q q' b : (∀ e, key (clear_wake (set_next_run None e)) = key e) →
  same_core q q' → key_of key q' b = key_of key q b.
Proof. intros Hf Hc. unfold key_of. f_equal. by apply same_core_field. Qed.
Lemma same_core_trans q1 q2 q3 : same_core q1 q2 → same_core q2 q3 → same_core q1 q3.
Proof. intros H1 H2 b. by rewrite H2. Qed.

Lemma wake_step_core q q' L : wake_step q q' L → same_core q q'.
Proof.
  intros St b. transitivity (set_next_run None <$> (clear_wake <$> ents q' !! b));
    [by rewrite <- !option_fmap_compose|]. by rewrite (ws_core _ _ _ St), <- !option_fmap_compose.
Qed.
Lemma run_step_core r q q' L : run_step r q q' L → same_core q q'.
Proof. intros St b. by rewrite (rs_core _ _ _ _ St). Qed.

Lemma sorted_tail key a l : sorted_by key (a :: l) → sorted_by key l ∧ Forall (λ b, key a ≤ key b) l.
Proof. unfold sorted_by. by inversion 1. Qed.

(** One round of the loop. *)
Lemma move_step q a e ns ss ws : rep q ns (a :: ss) ws → ents q !! a = Some e →
  ∃ q', (q ← remove_wake_list (set_run_soon q (_next_run e)) a; insert_run_now q a) = Ret q' ∧
    rep q' (place (key_of run_before q) a ns) ss (without a ws) ∧ same_core q q'.
Proof.
  intros Hr He. destruct Hr as [H1 H2 H3 H4 H5 H6 H7 H8 H9 H10 H11].
  pose proof H2 as (_ & n & Hn & H2'). unfold nr in Hn. rewrite He in Hn. injection Hn as <-.
  pose proof H4 as (Hndn & Hdis & (Has & Hnds)%NoDup_cons)%NoDup_app.
  assert (a ∉ ns) as Han by (intros Hin; apply (Hdis a Hin); by left).
  assert (∀ b, b ∈ ns → b ∉ ss) as Hdis' by (intros b Hb Hb'; apply (Hdis b Hb); by right).
  set (q1 := set_run_soon q (_next_run e)).
  destruct (remove_wake_spec q1 a ws) as (q2 & -> & Hw2 & Hn2 & Hp2 & St2);
    [done|done|by exists e|by apply H7; exists e|]. rewrite bind_ret_l.
  destruct (wake_step_live _ _ _ a St2) as [e2 He2]; [by exists e|].
  pose proof (λ b, wake_step_field _next_run _ _ _ b (λ _, eq_refl) St2) as NR2.
  pose proof (wake_step_key run_before q1 q2 _ a (λ _, eq_refl) St2) as K2a.
  pose proof (λ b, wake_step_key run_before q1 q2 _ b (λ _, eq_refl) St2) as K2.
  rewrite (key_of_at _ _ _ _ He2) in K2a.
  destruct (insert_run_spec Now run_before q2 a e2 ns He2) as (q3 & p & s & Hi & Ens & Hall & Hhd & Hs3 & St3).
  { rewrite (ws_root _ _ _ St2 Now). apply (seg_ext (nr q)); [intros b _; apply NR2|done]. }
  { done. } { done. }
  exists q3. split; [exact Hi|].
  assert (same_core q q3) as Hcore.
  { apply (same_core_trans _ q2); [by apply wake_step_core in St2|by eapply run_step_core]. }
  split; [|done].
  assert (p ++ a :: s = place (key_of run_before q) a ns) as Epl.
  { rewrite Ens, place_split; [done| |].
    - apply (Forall_impl _ _ _ Hall). intros b. by rewrite K2a, K2.
    - intros b Hb. specialize (Hhd b Hb). by rewrite K2a, K2 in Hhd. }
  rewrite Epl in Hs3. clear p s Hi Ens Hall Hhd Epl.
  assert (∀ key, (∀ e, key (clear_wake (set_next_run None e)) = key e) →
    ∀ b, key_of key q3 b = key_of key q b) as HK by (intros key Hk b; by apply same_core_key).
  pose proof (λ b, run_step_field _next_wake _ _ _ _ b (λ _, eq_refl) St3) as NW3.
  pose proof (λ b, run_step_field _prev_wake _ _ _ _ b (λ _, eq_refl) St3) as PV3.
  destruct (sorted_tail _ _ _ H10) as [H10' _].
  split.
  - done.
  - change (run_soon q3) with (get_root q3 Soon). rewrite (rs_root _ _ _ _ St3 Soon) by done.
    rewrite (ws_root _ _ _ St2 Soon). apply (seg_ext (nr q)); [|done]. intros b Hb. unfold nr.
    rewrite (rs_same _ _ _ _ St3); [apply NR2|]. rewrite not_elem_of_cons. split; [by intros ->|].
    intros Hb'. by apply (Hdis' b).
  - destruct Hw2 as [Hsg Hbk]. split; [apply (seg_ext (nw q2))|apply (backs_ext (pv q2))]; try done.
    + intros b _. apply NW3.
    + by rewrite (rs_wake _ _ _ _ St3).
    + intros b _. apply PV3.
  - rewrite place_perm. simpl. constructor; [rewrite not_elem_of_app; done|].
    apply NoDup_app. by split_and!.
  - by apply without_NoDup.
  - intros b. rewrite elem_of_without, H6, HK, elem_of_cons by done.
    split; [intros (? & [->|?] & ?); done|]. intros [Hb ?]. split_and!; [by intros ->|by right|done].
  - intros b Hl Hb. unfold nw, pv. rewrite NW3, PV3. apply (without_out q1 q2 a ws); try done.
    by rewrite (field_live _next_wake q2 q3).
  - intros b. rewrite (same_core_field _scheduled q q3) by done.
    rewrite H8, !elem_of_app, elem_of_place, elem_of_cons. tauto.
  - apply (sorted_by_ext (key_of run_before q)); [intros; by apply HK|]. by apply place_sorted.
  - apply (sorted_by_ext (key_of run_after q)); [intros; by apply HK|done].
  - apply (sorted_by_ext (key_of wake_at q)); [intros; by apply HK|]. by apply without_sorted.
Qed.

(** The entries of [l] whose run-after time has come, and the others. *)
Definition due (q : queue) (now : Z) (l : list nat) : list nat :=
  filter (λ a, key_of run_after q a ≤ now) l.
Definition not_due (q : queue) (now : Z) (l : list nat) : list nat :=
  filter (λ a, now < key_of run_after q a) l.
(** Inserting entries into the run-now list one after the other. *)
Definition place_all (key : nat → Z) (l ns : list nat) : list nat := foldl (λ ns a, place key a ns) ns l.

Lemma filter_keys (q q' : queue) now l : (∀ b, key_of run_after q' b = key_of run_after q b) →
  due q' now l = due q now l ∧ not_due q' now l = not_due q now l.
Proof.
  intros HK. unfold due, not_due.
  split; apply list_filter_iff; intros b; by rewrite HK.
Qed.
Lemma place_all_ext key key' l ns : (∀ b, key' b = key b) → place_all key' l ns = place_all key l ns.
Proof.
  intros HK. revert ns. induction l as [|a l IH]; intros ns; [done|]. unfold place_all in *. simpl.
  rewrite (place_ext key key') by auto. apply IH.
Qed.
Lemma place_all_perm key l ns : place_all key l ns ≡ₚ ns ++ l.
Proof.
  revert ns. induction l as [|a l IH]; intros ns; [by rewrite app_nil_r|]. unfold place_all in *. simpl.
  rewrite IH, place_perm. simpl. by rewrite Permutation_middle.
Qed.
Lemma not_due_without q now a l : key_of run_after q a ≤ now → not_due q now (without a l) = not_due q now l.
Proof.
  intros Ha. unfold not_due, without. rewrite list_filter_filter. apply list_filter_iff.
  intros b. split; [by intros [? ?]|]. intros Hb. split; [done|]. intros ->. lia.
Qed.
Lemma none_due q now l : Forall (λ b, now < key_of run_after q b) l →
  due q now l = [] ∧ not_due q now l = l.
Proof.
  unfold due, not_due. induction 1 as [|b l Hb _ [IH1 IH2]]; [done|].
  rewrite filter_cons_False, filter_cons_True, IH2 by lia. done.
Qed.
Lemma wakes_not_due q ns ss ws now : rep q ns ss ws → Forall (λ b, now < key_of run_after q b) ss →
  not_due q now ws = ws.
Proof.
  intros Hr Hall. apply none_due, Forall_forall. intros b [Hb _]%(rep_wsub _ _ _ _ Hr).
  exact (proj1 (Forall_forall _ _) Hall b Hb).
Qed.

Lemma move_loop_spec now fuel q ns ss ws : rep q ns ss ws → (length ss < fuel)%nat →
  ∃ q', move_loop fuel q now = Ret q' ∧
    rep q' (place_all (key_of run_before q) (due q now ss) ns) (not_due q now ss) (not_due q now ws) ∧
    same_core q q'.
Proof.
  revert q ns ss ws. induction fuel as [|fuel IH]; intros q ns ss ws Hr Hf; [lia|]. cbn [move_loop].
  pose proof (rep_soon _ _ _ _ Hr) as Hsg. destruct ss as [|a ss].
  { simpl in Hsg. rewrite Hsg. exists q. split; [done|]. by rewrite (wakes_not_due q ns [] ws). }
  destruct Hsg as (Hroot & n & Hn & Hsg). destruct (nr_inv _ _ _ Hn) as (e & He & ->).
  rewrite Hroot, (ent_spec _ _ e), bind_ret_l by done.
  pose proof (key_of_at run_after _ _ _ He) as Ek.
  destruct (Z.leb_spec (run_after e) now) as [Hle|Hgt].
  - destruct (move_step q a e ns ss ws Hr He) as (q1 & Hq1 & Hr1 & Hc1).
    apply bind_ret_inv in Hq1 as (q0 & E0 & E1). cbv zeta. rewrite E0, bind_ret_l, E1, bind_ret_l.
    destruct (IH q1 _ ss _ Hr1) as (q2 & E2 & Hr2 & Hc2); [simpl in Hf; lia|].
    exists q2. split; [done|]. split; [|by eapply same_core_trans].
    assert (∀ b, key_of run_after q1 b = key_of run_after q b) as HK by (intros; by apply same_core_key).
    destruct (filter_keys q q1 now ss HK) as [Ed End]. destruct (filter_keys q q1 now (without a ws) HK) as [_ Ew].
    rewrite Ed, End, Ew, not_due_without in Hr2 by lia.
    rewrite (place_all_ext (key_of run_before q)) in Hr2 by (intros; by apply same_core_key).
    unfold due at 1, not_due at 1. rewrite filter_cons_True, filter_cons_False by lia. done.
  - exists q. split; [done|].
    assert (Forall (λ b, now < key_of run_after q b) (a :: ss)) as Hall.
    { destruct (sorted_tail _ _ _ (rep_soon_sorted _ _ _ _ Hr)) as [_ Hs].
      constructor; [lia|]. apply (Forall_impl _ _ _ Hs). lia. }
    destruct (none_due q now (a :: ss) Hall) as [-> ->]. by rewrite (wakes_not_due q ns (a :: ss) ws).
Qed.

Lemma move_spec now q ns ss ws : rep q ns ss ws →
  ∃ q', move_run_list q now = Ret q' ∧
    rep q' (place_all (key_of run_before q) (due q now ss) ns) (not_due q now ss) (not_due q now ws) ∧
    same_core q q'.
Proof.
  intros Hr. apply move_loop_spec; [done|].
  eapply seg_length; [apply nr_live|apply Hr|]. by destruct (NoDup_app ns ss) as [(_ & _ & ?) _]; [apply Hr|].
Qed.

End FdQueueRefine.
