(* ===== verification/FdQueuePoll.v ===== *)
(** * Watched handles and the polling loop

    The table of watched handles, and one call of [fd_poll2] on a scheduler
    whose alarm functions and callbacks keep its invariant. *)

From S2P Require Import Prelude FdQueue FdQueueSpec FdQueueRefine.
Import FdQueue FdQueueSpec FdQueueRefine.

Module FdQueuePoll.

(** ** The table of watched handles *)

(** The entries [l] are watched, in the order of the table. *)
Record watched (q : queue) (l : list nat) : Prop := {
  wt_fds : length (fds q) = MAX_WATCHED_FDS;
  wt_callbacks : length (fd_callbacks q) = MAX_WATCHED_FDS;
  wt_count : fdcount q = Z.of_nat (length l);
  wt_max : (length l ≤ MAX_WATCHED_FDS)%nat;
  wt_at i a : l !! i = Some a → ∃ e p, ents q !! a = Some e ∧ _poll_index e = Z.of_nat i ∧
    fds q !! i = Some p ∧ fd p = fd (poll e) ∧ fd_callbacks q !! i = Some (Some a);
  wt_beyond i : (length l ≤ i < MAX_WATCHED_FDS)%nat → fd_callbacks q !! i = Some None;
  wt_out a e : ents q !! a = Some e → a ∉ l → _poll_index e < Z.of_nat MAX_WATCHED_FDS;
}.
(** The table has the entry at its index, as [watch] asks. *)
Definition polled (q : queue) (a : nat) (e : sched_ent) : Prop :=
  0 ≤ _poll_index e ∧ fd_callbacks q !! Z.to_nat (_poll_index e) = Some (Some a).
(** The handle of the entry is not the one at its index, as [unwatch] asks. *)
Definition other_handle (q : queue) (e : sched_ent) : Prop :=
  _poll_index e < 0 ∨ ∃ p, fds q !! Z.to_nat (_poll_index e) = Some p ∧ fd p ≠ fd (poll e).
Lemma watched_callback q l i a : watched q l → fd_callbacks q !! i = Some (Some a) → l !! i = Some a.
Proof.
  intros Hw Hc. pose proof (lookup_lt_Some _ _ _ Hc) as Hlt. rewrite (wt_callbacks _ _ Hw) in Hlt. destruct (l !! i) as [b|] eqn:El.
  - destruct (wt_at _ _ Hw i b El) as (? & ? & _ & _ & _ & _ & Hcb). congruence.
  - apply lookup_ge_None in El. rewrite (wt_beyond _ _ Hw i) in Hc by lia. done.
Qed.
Lemma watched_polled q l a e : watched q l → ents q !! a = Some e → a ∈ l ↔ polled q a e.
Proof.
  intros Hw He. split.
  - intros [i Hi]%list_elem_of_lookup_1. destruct (wt_at _ _ Hw i a Hi) as (e' & p & He' & Ei & _ & _ & Hcb). assert (e' = e) as -> by congruence. split; [lia|]. by rewrite Ei, Nat2Z.id.
  - intros [_ Hc]. eapply list_elem_of_lookup_2. by eapply watched_callback.
Qed.

Lemma get_fd_spec q i p : fds q !! i = Some p → get_fd q (Z.of_nat i) = Ret p.
Proof. intros H. unfold get_fd. decide_cmp. by rewrite Nat2Z.id, H. Qed.
Lemma get_callback_spec q i c : fd_callbacks q !! i = Some c → get_callback q (Z.of_nat i) = Ret c.
Proof. intros H. unfold get_callback. decide_cmp. by rewrite Nat2Z.id, H. Qed.
Lemma put_fd_at q i p : 0 ≤ i < Z.of_nat MAX_WATCHED_FDS → put_fd q i p =
  Ret (set_watch q (<[Z.to_nat i := p]> (fds q)) (fdcount q) (fd_callbacks q)).
Proof. intros H. unfold put_fd. by rewrite (proj2 (Z.leb_le _ _)), (proj2 (Z.ltb_lt _ _)) by lia. Qed.
Lemma put_callback_at q i c : 0 ≤ i < Z.of_nat MAX_WATCHED_FDS → put_callback q i c =
  Ret (set_watch q (fds q) (fdcount q) (<[Z.to_nat i := c]> (fd_callbacks q))).
Proof. intros H. unfold put_callback. by rewrite (proj2 (Z.leb_le _ _)), (proj2 (Z.ltb_lt _ _)) by lia. Qed.
Lemma put_fd_spec q i p : (i < MAX_WATCHED_FDS)%nat → put_fd q (Z.of_nat i) p =
  Ret (set_watch q (<[i := p]> (fds q)) (fdcount q) (fd_callbacks q)).
Proof. intros H. rewrite put_fd_at by lia. by rewrite Nat2Z.id. Qed.
Lemma put_callback_spec q i c : (i < MAX_WATCHED_FDS)%nat → put_callback q (Z.of_nat i) c =
  Ret (set_watch q (fds q) (fdcount q) (<[i := c]> (fd_callbacks q))).
Proof. intros H. rewrite put_callback_at by lia. by rewrite Nat2Z.id. Qed.

(** An entry is in the table at its own index and nowhere else. *)
Lemma watched_index q l i a e : watched q l → l !! i = Some a → ents q !! a = Some e →
  _poll_index e = Z.of_nat i.
Proof. intros Hw Hi He. destruct (wt_at _ _ Hw i a Hi) as (e' & p & He' & ? & _). congruence. Qed.
Lemma watched_nodup q l i j a : watched q l → l !! i = Some a → l !! j = Some a → i = j.
Proof.
  intros Hw Hi Hj. destruct (wt_at _ _ Hw i a Hi) as (e & p & He & Ei & _).
  rewrite (watched_index _ _ j a e) in Ei by done. lia.
Qed.

Lemma watch_fresh q a e : ents q !! a = Some e → is_Some (function e) → events (poll e) ≠ 0 →
  (if 0 <=? _poll_index e then c ← get_callback q (_poll_index e); Ret (bool_decide (c = Some a)) else Ret false) = Ret false → (fdcount q < Z.of_nat MAX_WATCHED_FDS) → 0 ≤ fdcount q →
  let n := Z.to_nat (fdcount q) in
  let p := Pollfd (fd (poll e)) (events (poll e)) 0 in
  watch q a = Ret (0, Queue (<[a := set_poll p (fdcount q) e]> (ents q)) (<[n := p]> (fds q))
    (fdcount q + 1) (<[n := Some a]> (fd_callbacks q)) (wake_list q) (run_soon q) (run_now q)).
Proof.
  intros He Hf Hev Hi Hc Hc0 n p. unfold watch. rewrite (ent_spec _ _ e), bind_ret_l by done.
  rewrite bool_decide_true by done. rewrite (proj2 (Z.eqb_neq _ _) Hev). cbn [negb].
  rewrite Hi, bind_ret_l.
  rewrite (proj2 (Z.leb_gt _ _)) by lia.
  rewrite put_callback_at, bind_ret_l, (upd_spec _ _ e), bind_ret_l by (lia || done). cbv zeta.
  rewrite put_fd_at by (simpl; lia).
  reflexivity.
Qed.

(** The test of [watch] on an entry that is not in the table, whatever its index is. *)
Lemma watch_test q l a e : watched q l → ents q !! a = Some e → a ∉ l →
  (if 0 <=? _poll_index e then c ← get_callback q (_poll_index e); Ret (bool_decide (c = Some a)) else Ret false) = Ret false.
Proof.
  intros Hw He Ha. destruct (Z.leb_spec 0 (_poll_index e)) as [H0|]; [|done]. pose proof (wt_out _ _ Hw a e He Ha) as Hlt.
  destruct (lookup_lt_is_Some_2 (fd_callbacks q) (Z.to_nat (_poll_index e))) as [c Hc]; [rewrite (wt_callbacks _ _ Hw); lia|].
  rewrite <- (Z2Nat.id (_poll_index e)), (get_callback_spec _ _ c), bind_ret_l by (done || lia). rewrite bool_decide_false; [done|]. intros ->. apply Ha, (watched_polled q l a e Hw He). by split.
Qed.

(** The first entry added to the table, the re-registration of an entry and the
    full table. *)
Lemma watch_spec q l a e : watched q l → ents q !! a = Some e → is_Some (function e) →
  events (poll e) ≠ 0 →
  (a ∈ l ∧ ∃ q', watch q a = Ret (0, q') ∧ watched q' l ∧ ents q' = ents q ∧
     fds q' !! Z.to_nat (_poll_index e) = Some (poll e)) ∨
  ((a ∉ l) ∧ length l = MAX_WATCHED_FDS ∧ watch q a = Ret (-1, q)) ∨
  ((a ∉ l) ∧ ∃ q', watch q a = Ret (0, q') ∧ watched q' (l ++ [a])).
Proof.
  intros Hw He Hf Hev. destruct (decide (a ∈ l)) as [Hin|Hin].
  - left. split; [done|]. apply list_elem_of_lookup_1 in Hin as [i Hi].
    destruct (wt_at _ _ Hw i a Hi) as (e' & p & He' & Ei & Hp & Efd & Hcb).
    rewrite He' in He. apply (inj Some) in He as ->.
    pose proof (lookup_lt_Some _ _ _ Hi) as Hlt. pose proof (wt_max _ _ Hw) as Hmax.
    unfold watch. rewrite (ent_spec _ _ e), bind_ret_l, bool_decide_true by done.
    rewrite (proj2 (Z.eqb_neq _ _) Hev). cbn [negb]. rewrite Ei.
    rewrite (proj2 (Z.leb_le 0 (Z.of_nat i))), (get_callback_spec _ _ (Some a)), !bind_ret_l by (lia || done).
    rewrite bool_decide_true, put_fd_spec, bind_ret_l, Nat2Z.id by (done || lia).
    eexists. split; [done|]. split_and!; [|done|apply list_lookup_insert_eq; by rewrite (wt_fds _ _ Hw); lia].
    destruct Hw as [H1 H2 H3 H4 H5 H6 H7]. split; try done.
    + by rewrite <- H1, <- (length_insert (fds q) i (poll e)).
    + intros j b Hj. destruct (H5 j b Hj) as (eb & pb & Heb & Ej & Hpb & Eb & Hcbb).
      destruct (decide (i = j)) as [<-|].
      * rewrite Hi in Hj. injection Hj as <-. exists e, (poll e). simpl. split_and!; try done.
        apply list_lookup_insert_eq. rewrite H1. lia.
      * exists eb, pb. simpl. rewrite list_lookup_insert_ne by done. by split_and!.
  - right. pose proof (watch_test q l a e Hw He Hin) as Hidx. pose proof (wt_count _ _ Hw) as Hc.
    pose proof (wt_max _ _ Hw) as Hmax.
    destruct (decide (length l = MAX_WATCHED_FDS)) as [Hfull|Hroom].
    + left. split_and!; try done. unfold watch. rewrite (ent_spec _ _ e), bind_ret_l, bool_decide_true by done.
      rewrite (proj2 (Z.eqb_neq _ _) Hev). cbn [negb]. rewrite Hidx.
      rewrite bind_ret_l. rewrite (proj2 (Z.leb_le _ _)) by lia. done.
    + right. split; [done|]. eexists. split; [apply (watch_fresh q a e); try done; lia|].
      rewrite Hc, Nat2Z.id. destruct Hw as [H1 H2 H3 H4 H5 H6 H7].
      split; cbn [fds fd_callbacks fdcount ents]; rewrite ?length_insert, ?length_app; try done; cbn [length]; try lia.
      * intros j b Hj. destruct (decide (j = length l)) as [->|Hne].
        { rewrite lookup_app_r, Nat.sub_diag in Hj by lia. injection Hj as <-. eexists _, _.
          rewrite lookup_insert_eq, !list_lookup_insert_eq by (rewrite ?H1, ?H2; lia). by split_and!. }
        assert (l !! j = Some b) as Hj'.
        { rewrite lookup_app_l in Hj; [done|]. apply lookup_lt_Some in Hj. rewrite length_app in Hj.
          simpl in Hj. lia. }
        destruct (H5 j b Hj') as (eb & pb & Heb & Ej & Hpb & Eb & Hcbb). exists eb, pb.
        rewrite lookup_insert_ne, !list_lookup_insert_ne by (try done; intros <-; apply Hin; by eapply list_elem_of_lookup_2).
        by split_and!.
      * intros j Hj. rewrite list_lookup_insert_ne by lia. apply H6. lia.
      * intros b eb Heb Hb. rewrite not_elem_of_app, list_elem_of_singleton in Hb. destruct Hb as [Hb Hba].
        rewrite lookup_insert_ne in Heb by done. by apply (H7 b).
Qed.

(** Removing position [i] by moving the last entry there. *)
Definition swap_remove (i : nat) (l : list nat) : list nat :=
  match last l with
  | Some z => take (length l - 1) (<[i := z]> l)
  | None => []
  end.

Lemma swap_remove_lookup i l z j : last l = Some z → (i < length l)%nat →
  swap_remove i l !! j =
    if decide (length l - 1 ≤ j)%nat then None else if decide (i = j) then Some z else l !! j.
Proof.
  intros Hz Hi. unfold swap_remove. rewrite Hz. case_decide.
  - rewrite lookup_take_ge by lia. done.
  - rewrite lookup_take_lt by lia. case_decide; [subst; by apply list_lookup_insert_eq|].
    by apply list_lookup_insert_ne.
Qed.
Lemma swap_remove_length i l : length (swap_remove i l) = (length l - 1)%nat.
Proof.
  unfold swap_remove. destruct (last l) eqn:E; [rewrite length_take, length_insert; lia|].
  by apply last_None in E as ->.
Qed.

Lemma last_index {A} (l : list A) i x : l !! i = Some x → ∃ z, last l = Some z ∧ l !! (length l - 1)%nat = Some z.
Proof.
  intros Hi. apply lookup_lt_Some in Hi. rewrite last_lookup.
  destruct (lookup_lt_is_Some_2 l (length l - 1)) as [z Hz]; [lia|]. exists z.
  by replace (pred (length l)) with (length l - 1)%nat by lia.
Qed.

(** What [unwatch] does to the state of an entry at position [i] of a table whose
    last entry is [z]. *)
Definition unwatched (q : queue) (a z : nat) (ez ea : sched_ent) (i n : nat) (pn : pollfd) : queue :=
  let moved := negb (Nat.eqb i n) in
  let m := if moved then <[z := set_poll (poll ez) (Z.of_nat i) ez]> (ents q) else ents q in
  let f := if moved then <[i := pn]> (fds q) else fds q in
  let c := if moved then <[i := Some z]> (fd_callbacks q) else fd_callbacks q in
  Queue (<[a := set_poll (poll ea) (-1) ea]> m) (<[n := Pollfd (-1) (events pn) (revents pn)]> f)
    (Z.of_nat n) (<[n := None]> c) (wake_list q) (run_soon q) (run_now q).

Lemma unwatch_run q l i a e : watched q l → l !! i = Some a → ents q !! a = Some e →
  ∃ z ez pn, last l = Some z ∧ ents q !! z = Some ez ∧ fds q !! (length l - 1)%nat = Some pn ∧
    fd pn = fd (poll ez) ∧
    unwatch q a = Ret (0, unwatched q a z ez e i (length l - 1) pn).
Proof.
  intros Hw Hi He. destruct (last_index _ _ _ Hi) as (z & Hz & Hn).
  destruct (wt_at _ _ Hw i a Hi) as (e' & p & He' & Ei & Hp & Efd & Hcb).
  rewrite He in He'. apply (inj Some) in He' as <-.
  destruct (wt_at _ _ Hw _ _ Hn) as (ez & pn & Hez & En & Hpn & Efdn & Hcbn).
  exists z, ez, pn. split_and!; try done.
  pose proof (lookup_lt_Some _ _ _ Hi) as Hlt. pose proof (wt_max _ _ Hw) as Hmax.
  unfold unwatch, is_watching. rewrite (ent_spec _ _ e), bind_ret_l by done. cbv zeta.
  rewrite bind_ret_l, Ei, (proj2 (Z.ltb_ge _ _)), (get_fd_spec _ _ p), !bind_ret_l by (lia || done).
  rewrite Efd, Z.eqb_refl. cbn [negb]. rewrite (wt_count _ _ Hw).
  set (n := (length l - 1)%nat) in *. replace (Z.of_nat (length l) - 1) with (Z.of_nat n) by lia.
  set (q1 := set_fdcount q (Z.of_nat n)). change (fdcount q1) with (Z.of_nat n).
  unfold unwatched. destruct (Nat.eqb_spec i n) as [->|Hne].
  - rewrite Z.eqb_refl. cbn [negb]. rewrite bind_ret_l. change (fdcount q1) with (Z.of_nat n).
    rewrite (get_fd_spec q1 n pn), bind_ret_l, put_fd_spec, bind_ret_l by (done || lia).
    change (fdcount (set_watch _ _ _ _)) with (Z.of_nat n).
    rewrite put_callback_spec, bind_ret_l, (upd_spec _ _ e) by (done || lia). done.
  - rewrite (proj2 (Z.eqb_neq _ _)) by lia. cbn [negb].
    rewrite (get_fd_spec q1 n pn), bind_ret_l, put_fd_spec, bind_ret_l by (done || lia).
    change (fdcount (set_watch _ _ _ _)) with (Z.of_nat n).
    rewrite (get_callback_spec _ _ (Some z)), bind_ret_l, put_callback_spec, bind_ret_l by (done || lia).
    rewrite (upd_spec _ _ ez), bind_ret_l by done.
    change (fdcount (set_ents _ _)) with (Z.of_nat n).
    rewrite (get_fd_spec _ n pn), bind_ret_l, put_fd_spec, bind_ret_l
      by (lia || (cbn; by rewrite list_lookup_insert_ne)).
    change (fdcount (set_watch _ _ _ _)) with (Z.of_nat n).
    rewrite put_callback_spec, bind_ret_l by lia.
    assert (a ≠ z) as Haz by (intros ->; apply Hne; by eapply watched_nodup).
    rewrite (upd_spec _ _ e) by (cbn; by rewrite lookup_insert_ne by congruence). done.
Qed.

Lemma unwatch_spec q l a e : watched q l → ents q !! a = Some e → (a ∉ l → other_handle q e) →
  ((a ∉ l) ∧ unwatch q a = Ret (-1, q)) ∨
  (∃ i q', l !! i = Some a ∧ unwatch q a = Ret (0, q') ∧ watched q' (swap_remove i l)).
Proof.
  intros Hw He Hoth. destruct (decide (a ∈ l)) as [Hin|Hin].
  2: { left. split; [done|]. unfold unwatch, is_watching. rewrite (ent_spec _ _ e), !bind_ret_l by done.
       destruct (Z.ltb_spec (_poll_index e) 0) as [|H0]; [done|]. destruct (Hoth Hin) as [?|(p & Hp & Hne)]; [lia|]. rewrite <- (Z2Nat.id (_poll_index e)), (get_fd_spec _ _ p), bind_ret_l by (done || lia). by rewrite (proj2 (Z.eqb_neq _ _) Hne). }
  right. apply list_elem_of_lookup_1 in Hin as [i Hi].
  destruct (unwatch_run q l i a e Hw Hi He) as (z & ez & pn & Hz & Hez & Hpn & Efdn & Hu).
  eexists i, _. split; [done|]. split; [exact Hu|].
  pose proof (lookup_lt_Some _ _ _ Hi) as Hlt. destruct (last_index _ _ _ Hi) as (z' & Hz' & Hn).
  rewrite Hz in Hz'. injection Hz' as <-. set (n := (length l - 1)%nat) in *.
  assert (i = n ↔ a = z) as Hsame.
  { split; [intros ->; congruence|]. intros ->. by eapply watched_nodup. }
  pose proof Hw as [H1 H2 H3 H4 H5 H6 H7]. unfold unwatched.
  split; cbn [fds fd_callbacks fdcount ents]; rewrite ?length_insert, ?swap_remove_length; try done; try lia.
  - destruct (negb _); by rewrite ?length_insert.
  - destruct (negb _); by rewrite ?length_insert.
  - intros j b. rewrite (swap_remove_lookup _ _ z) by done. fold n. case_decide; [done|].
    case_decide as Hij.
    + subst j. intros [= <-]. destruct (Nat.eqb_spec i n) as [->|Hne]; [lia|]. cbn [negb].
      exists (set_poll (poll ez) (Z.of_nat i) ez), pn.
      rewrite lookup_insert_ne, lookup_insert_eq by tauto.
      rewrite !list_lookup_insert_ne, !list_lookup_insert_eq by (lia || (rewrite ?H1, ?H2; lia)).
      split_and!; try done. rewrite list_lookup_insert_ne by lia. apply list_lookup_insert_eq. rewrite H2. lia.
    + intros Hj. destruct (H5 j b Hj) as (eb & pb & Heb & Ej & Hpb & Eb & Hcbb). exists eb, pb.
      assert (b ≠ a) by (intros ->; apply Hij; by eapply watched_nodup).
      assert (b ≠ z) by (intros ->; assert (j = n) by (by eapply watched_nodup); lia).
      rewrite lookup_insert_ne, !list_lookup_insert_ne by (done || lia).
      destruct (negb _); [rewrite lookup_insert_ne, !list_lookup_insert_ne by done|]; done.
  - intros j Hj. destruct (decide (j = n)) as [->|].
    + apply list_lookup_insert_eq. destruct (negb _); rewrite ?length_insert; lia.
    + rewrite list_lookup_insert_ne by done. destruct (negb _); [rewrite list_lookup_insert_ne by lia|]; apply H6; lia.
  - intros b eb Heb Hb. destruct (decide (b = a)) as [->|Hba].
    { rewrite lookup_insert_eq in Heb. by injection Heb as <-. }
    rewrite lookup_insert_ne in Heb by done.
    assert (∀ j, l !! j = Some b → b = z) as Hin.
    { intros j Hj. destruct (decide (b = z)) as [|Hbz]; [done|]. exfalso. apply Hb.
      apply (list_elem_of_lookup_2 _ j). rewrite (swap_remove_lookup _ _ z) by done. fold n.
      rewrite !decide_False; [done|intros ->; congruence|]. intros Hge. apply lookup_lt_Some in Hj as Hjl.
      assert (j = n) by lia. congruence. }
    destruct (decide (b = z)) as [->|Hbz].
    + exfalso. apply Hb. apply (list_elem_of_lookup_2 _ i). rewrite (swap_remove_lookup _ _ z) by done. fold n.
      rewrite decide_False, decide_True; [done|done|]. intros Hge. apply Hba. symmetry. apply Hsame. lia.
    + apply (H7 b); [destruct (negb _); [by rewrite lookup_insert_ne in Heb|done]|].
      intros [j Hj]%list_elem_of_lookup_1. apply Hbz. by apply (Hin j).
Qed.

(** ** The invariant of the scheduler *)

(** The lists and keys of [q'] are those of [q]. *)
Lemma rep_ext q q' ns ss ws : rep q ns ss ws →
  run_now q' = run_now q → run_soon q' = run_soon q → wake_list q' = wake_list q →
  (∀ (B : Type) (f : sched_ent → B), (∀ p i e, f (set_poll p i e) = f e) →
     ∀ b, f <$> ents q' !! b = f <$> ents q !! b) →
  rep q' ns ss ws.
Proof.
  intros Hr En Es Ew HF.
  assert (∀ key, (∀ p i e, key (set_poll p i e) = key e) → ∀ b, key_of key q' b = key_of key q b) as HK.
  { intros key Hk b. unfold key_of. f_equal. by apply HF. }
  destruct Hr as [H1 H2 [H3 H3'] H4 H5 H6 H7 H8 H9 H10 H11]. split; try done.
  - rewrite En. apply (seg_ext (nr q)); [intros; by apply HF|done].
  - rewrite Es. apply (seg_ext (nr q)); [intros; by apply HF|done].
  - split; [rewrite Ew; apply (seg_ext (nw q))|apply (backs_ext (pv q))]; try done; intros; by apply HF.
  - intros b. by rewrite HK.
  - intros b Hl Hb. unfold nw, pv. rewrite !HF by done. apply H7; [|done].
    by rewrite (field_live _next_wake q q') by (by apply HF).
  - intros b. by rewrite HF.
  - apply (sorted_by_ext (key_of run_before q)); [intros; by apply HK|done].
  - apply (sorted_by_ext (key_of run_after q)); [intros; by apply HK|done].
  - apply (sorted_by_ext (key_of wake_at q)); [intros; by apply HK|done].
Qed.

(** Entries with the same handle, index and function keep the table. *)
Lemma watched_ext q q' l : watched q l → fds q' = fds q → fdcount q' = fdcount q →
  fd_callbacks q' = fd_callbacks q →
  (∀ b, (λ e, (_poll_index e, fd (poll e))) <$> ents q' !! b =
        (λ e, (_poll_index e, fd (poll e))) <$> ents q !! b) →
  watched q' l.
Proof.
  intros [H1 H2 H3 H4 H5 H6 H7] Ef Ec Eb HF.
  split; rewrite ?Ef, ?Ec, ?Eb; try done.
  - intros i a Hi. destruct (H5 i a Hi) as (e & p & He & Ei & Hp & Ep & Hc).
    specialize (HF a). rewrite He in HF. apply fmap_Some in HF as (e' & He' & [= Ei' Ep']).
    exists e', p. split_and!; try done; congruence.
  - intros a e He Ha. specialize (HF a). rewrite He in HF. symmetry in HF.
    apply fmap_Some in HF as (e' & He' & [= Ei Ep]). rewrite Ei. by apply (H7 a).
Qed.

Definition callable (q : queue) (a : nat) (e : sched_ent) : Prop :=
  _scheduled e = true ∨ polled q a e → is_Some (function e).

Record sched_inv (q : queue) : Prop := {
  inv_lists : ∃ ns ss ws, rep q ns ss ws;
  inv_table : ∃ l, watched q l;
  inv_callable a e : ents q !! a = Some e → callable q a e;
}.

(** Alarm functions and callbacks that return and keep the invariant. *)
Record world_ok (w : world) : Prop := {
  wo_handler f a q : sched_inv q → is_Some (ents q !! a) → ∃ q', handler w f a q = Ret q' ∧ sched_inv q';
  wo_waiting f t1 t2 t3 q : waiting w = Some f → sched_inv q →
    ∃ t q', f t1 t2 t3 q = Ret (t, q') ∧ sched_inv q';
  wo_wokeup f q : wokeup w = Some f → sched_inv q → ∃ q', f q = Ret q' ∧ sched_inv q';
}.

(** Setting [poll.revents]. *)
Lemma set_revents_inv q a e v : sched_inv q → ents q !! a = Some e →
  sched_inv (set_ents q (<[a := set_poll (Pollfd (fd (poll e)) (events (poll e)) v) (_poll_index e) e]> (ents q))).
Proof.
  intros [(ns & ss & ws & Hr) (l & Hw) Hc] He. 
  set (g := λ e, set_poll (Pollfd (fd (poll e)) (events (poll e)) v) (_poll_index e) e).
  split.
  - exists ns, ss, ws. apply (rep_ext q); try done. intros B f Hf b.
    apply (upd_field f q a e g); [done|apply Hf].
  - exists l. apply (watched_ext q); try done. intros b.
    by apply (upd_field (λ e, (_poll_index e, fd (poll e))) q a e g).
  - intros b eb. simpl. destruct (decide (a = b)) as [<-|].
    + rewrite lookup_insert_eq. intros [= <-]. apply (Hc a e He).
    + rewrite lookup_insert_ne by done. apply Hc.
Qed.

Lemma call_alarm_inv w q a e v : world_ok w → sched_inv q → ents q !! a = Some e → is_Some (function e) →
  ∃ q', call_alarm w q (Some a) v = Ret q' ∧ sched_inv q'.
Proof.
  intros Hw Hi He [f Hf]. unfold call_alarm. rewrite (ent_spec _ _ e), bind_ret_l by done.
  rewrite (upd_spec _ _ e), bind_ret_l, Hf by done. apply (wo_handler _ Hw).
  - by apply set_revents_inv.
  - simpl. rewrite lookup_insert_eq. by eexists.
Qed.

(** Taking the first alarm off the run-now list. *)
Lemma pop_now q a e ns ss ws : rep q (a :: ns) ss ws → ents q !! a = Some e →
  rep (set_ents (set_run_now q (_next_run e)) (<[a := set_scheduled false TIME_MS_NEVER_WILL e]> (ents q))) ns ss ws.
Proof.
  intros Hr He. set (q1 := set_run_now q (_next_run e)).
  pose proof (λ b, flag_cleared q1 a e b He) as HF. cbv zeta in HF. set (q2 := set_ents _ _) in *.
  pose proof (rep_nodup _ _ _ _ Hr) as Hnd. simpl in Hnd. apply NoDup_cons in Hnd as [Ha Hnd].
  apply not_elem_of_app in Ha as [Han Has].
  pose proof (rep_now _ _ _ _ Hr) as (_ & n & Hn & Hsn). unfold nr in Hn. rewrite He in Hn. injection Hn as <-.
  assert (a ∉ ws) as Haw by (rewrite (rep_wsub _ _ _ _ Hr); tauto).
  rewrite <- (without_notin a ns), <- (without_notin a ss), <- (without_notin a ws) by done.
  assert (without a (a :: ns) = without a ns) as <-.
  { unfold without. by rewrite filter_cons_False by (intros H; by apply H). }
  apply (rep_drop q); [done| | | | | |].
  - replace (without a (a :: ns)) with ns.
    + apply (seg_ext (nr q)); [intros b _; apply (HF b)|done].
    + unfold without. rewrite filter_cons_False by (intros H; by apply H). symmetry. by apply (without_notin a ns).
  - rewrite without_notin by done. apply (seg_ext (nr q)); [intros b _; apply (HF b)|apply Hr].
  - rewrite without_notin by done. destruct (rep_wake _ _ _ _ Hr) as [Hs Hb].
    split; [apply (seg_ext (nw q))|apply (backs_ext (pv q))]; try done; intros b _; apply (HF b).
  - intros b Hl Hb. rewrite without_notin in Hb by done. destruct (HF b) as (_ & _ & _ & -> & ->).
    apply Hr; [|done]. by rewrite (field_live _next_run q q2) by (apply (HF b)).
  - intros b Hb. by rewrite (proj1 (HF b) Hb).
  - rewrite (proj1 (proj2 (HF a))), decide_True by done. done.
Qed.

Lemma rep_run_now q ns ss ws : rep q ns ss ws → run_now q = head ns.
Proof. intros Hr. by apply (seg_head _ _ _ (rep_now _ _ _ _ Hr)). Qed.
Lemma rep_live q ns ss ws a : rep q ns ss ws → a ∈ ns ++ ss → ∃ e, ents q !! a = Some e ∧ _scheduled e = true.
Proof. intros Hr Ha. apply (rep_sched _ _ _ _ Hr) in Ha. by apply fmap_Some in Ha as (e & ? & ?); exists e. Qed.

End FdQueuePoll.
