(* ===== verification/FdQueueProps.v ===== *)
(** * What the scheduler promises

    The behaviour of scheduling, unscheduling, moving, watching and polling. *)

From S2P Require Import Prelude FdQueue FdQueueSpec FdQueueRefine FdQueuePoll.
Import FdQueue FdQueueSpec FdQueueRefine FdQueuePoll.

Module FdQueueProps.

(** ** Steps of the polling loop that keep the invariant *)

Lemma run_first_spec w q a ns ss ws : sched_inv q → rep q (a :: ns) ss ws →
  ∃ e q1, ents q !! a = Some e ∧ is_Some (function e) ∧
    run_first w q a = call_alarm w q1 (Some a) 0 ∧ rep q1 ns ss ws ∧
    ents q1 !! a = Some (set_scheduled false TIME_MS_NEVER_WILL e) ∧ sched_inv q1.
Proof.
  intros [Hl (l & Hw) Hc] Hr. destruct (rep_live q (a :: ns) ss ws a Hr) as (e & He & Hs); [by left|].
  exists e. eexists. split; [done|]. split; [apply (Hc a e He); by left|].
  unfold run_first. rewrite (ent_spec _ _ e), bind_ret_l, (upd_spec _ _ e) by done. rewrite bind_ret_l.
  split; [done|]. pose proof (pop_now _ _ _ _ _ _ Hr He) as Hr1. split; [exact Hr1|].
  split; [apply lookup_insert_eq|]. split; [by eexists _, _, _| |].
  - exists l. apply (watched_ext q); try done. intros b.
    by apply (upd_field (λ e, (_poll_index e, fd (poll e))) q a e (set_scheduled false TIME_MS_NEVER_WILL)).
  - intros b eb. simpl. destruct (decide (a = b)) as [<-|].
    + rewrite lookup_insert_eq. intros [= <-] _. apply (Hc a e He). by left.
    + rewrite lookup_insert_ne by done. apply Hc.
Qed.

Lemma run_first_inv w q a : world_ok w → sched_inv q → run_now q = Some a →
  ∃ q', run_first w q a = Ret q' ∧ sched_inv q'.
Proof.
  intros Hw Hi Ha. destruct (inv_lists _ Hi) as (ns & ss & ws & Hr).
  pose proof (rep_run_now _ _ _ _ Hr) as Eh. rewrite Ha in Eh. destruct ns as [|b ns]; [done|].
  injection Eh as <-. destruct (run_first_spec w q a ns ss ws Hi Hr) as (e & q1 & He & Hf & -> & _ & He1 & Hi1).
  by apply (call_alarm_inv _ _ _ _ _ Hw Hi1 He1).
Qed.

Lemma overdue_ret q now : sched_inv q → ∃ b, overdue q now = Ret b ∧
  (b = true → is_Some (run_now q)).
Proof.
  intros Hi. destruct (inv_lists _ Hi) as (ns & ss & ws & Hr). unfold overdue.
  rewrite (rep_run_now _ _ _ _ Hr). destruct ns as [|a ns]; simpl; [by exists false|].
  destruct (rep_live q (a :: ns) ss ws a Hr) as (e & He & _); [by left|].
  rewrite (ent_spec _ _ e), bind_ret_l by done. by eexists.
Qed.

(** Operations on the lists leave the table of watched handles alone, and what
    the entries say about it. *)
Definition watch_field (e : sched_ent) : option nat * Z * pollfd := (function e, _poll_index e, poll e).
Record same_table (q q' : queue) : Prop := {
  st_fds : fds q' = fds q;
  st_count : fdcount q' = fdcount q;
  st_callbacks : fd_callbacks q' = fd_callbacks q;
  st_field b : watch_field <$> ents q' !! b = watch_field <$> ents q !! b;
}.
Lemma same_table_refl q : same_table q q.
Proof. by split. Qed.
Lemma same_table_trans q1 q2 q3 : same_table q1 q2 → same_table q2 q3 → same_table q1 q3.
Proof. intros [] []. split; intros; congruence. Qed.
#[local] Hint Resolve same_table_refl : serval.

Lemma upd_table q a f q' : (∀ e, watch_field (f e) = watch_field e) → upd q a f = Ret q' → same_table q q'.
Proof.
  intros Hf. unfold upd. destruct (ents q !! a) as [e|] eqn:He; [|done]. intros [= <-]. split; try done.
  intros b. by apply (upd_field watch_field q a e f).
Qed.
Lemma write_loc_table q l v q' : write_loc q l v = Ret q' → same_table q q'.
Proof. destruct l as [[]|a]; simpl; [by intros [= <-]..|by apply upd_table]. Qed.

(** A chain of steps, each of which leaves the table alone. *)
Lemma bind_table {A} (m : outcome A) k q q' : (∀ x, m = Ret x → k x = Ret q' → same_table q q') →
  (m ≫= k) = Ret q' → same_table q q'.
Proof. intros H (x & Hm & Hk)%bind_ret_inv. by apply (H x). Qed.
Lemma bind_table_step (m : outcome queue) k q q' : (∀ q1, m = Ret q1 → same_table q q1) →
  (∀ q1, k q1 = Ret q' → same_table q1 q') → (m ≫= k) = Ret q' → same_table q q'.
Proof. intros H1 H2 (x & Hm & Hk)%bind_ret_inv. eauto using same_table_trans. Qed.

Ltac table_step := first
  [ by apply upd_table | by apply write_loc_table | by intros [= <-]
  | apply bind_table_step; intros ? | apply bind_table; intros ? _ ].

Lemma remove_wake_table q a q' : remove_wake_list q a = Ret q' → same_table q q'.
Proof.
  unfold remove_wake_list. table_step. cbv zeta. table_step.
  { destruct (_prev_wake x); [table_step|]. intros [= <-]. by case_decide. }
  table_step; [destruct (_next_wake x); table_step|]. table_step; table_step.
Qed.
Lemma insert_wake_table q a q' : insert_wake_list q a = Ret q' → same_table q q'.
Proof.
  unfold insert_wake_list. table_step. destruct (_ =? _); [table_step|]. table_step.
  destruct x0 as [lst cur]. table_step; [table_step|]. table_step; [destruct cur; table_step|].
  table_step; [table_step|]. destruct lst; table_step.
Qed.
Lemma insert_run_table r key q a q' : insert_run r key q a = Ret q' → same_table q q'.
Proof. unfold insert_run. do 3 table_step. table_step; table_step. Qed.
Lemma remove_run_table r q a q' : remove_run_list q a r = Ret q' → same_table q q'.
Proof.
  unfold remove_run_list. generalize (AtRoot r) as l. induction (fuel q) as [|n IH]; intros l; [done|].
  cbn [remove_run_loop]. table_step. destruct x as [c|]; [|table_step]. case_decide; [|apply IH].
  table_step. table_step; table_step.
Qed.
Lemma move_loop_table now fuel q q' : move_loop fuel q now = Ret q' → same_table q q'.
Proof.
  revert q. induction fuel as [|fuel IH]; intros q; [done|]. cbn [move_loop].
  destruct (run_soon q) as [a|]; [|table_step]. table_step. destruct (run_after x <=? now); [|table_step].
  table_step; [intros H%remove_wake_table; split; apply H|]. table_step; [by apply insert_run_table|apply IH].
Qed.

(** The invariant after an operation on the lists. *)
Lemma lists_inv q q' ns ss ws : sched_inv q → same_table q q' → rep q' ns ss ws →
  (∀ b e, ents q !! b = Some e → b ∈ ns ++ ss → _scheduled e = true ∨ is_Some (function e)) → sched_inv q'.
Proof.
  intros [_ (l & Hw) Hc] [E1 E2 E3 HF] Hr Hnew. split; [by eexists _, _, _| |].
  - exists l. apply (watched_ext q); try done. intros b. specialize (HF b).
    destruct (ents q' !! b), (ents q !! b); try done. injection HF as Ef Ei Ep. simpl. congruence.
  - intros b e' He'. specialize (HF b). rewrite He' in HF. symmetry in HF.
    apply fmap_Some in HF as (e & He & [= Ef Ei Ep]). unfold callable, polled. rewrite Ef, Ei, E3. intros [Hs|Hp].
    + assert (b ∈ ns ++ ss) as Hb by (apply (rep_sched _ _ _ _ Hr); rewrite He'; simpl; by rewrite Hs).
      destruct (Hnew b e He Hb); [apply (Hc b e He); by left|done].
    + apply (Hc b e He). by right.
Qed.
Lemma rep_was_scheduled q ns ss ws b e : rep q ns ss ws → ents q !! b = Some e → b ∈ ns ++ ss → _scheduled e = true.
Proof. intros Hr He Hb. apply (rep_sched _ _ _ _ Hr) in Hb. rewrite He in Hb. by injection Hb. Qed.

Lemma move_inv q now : sched_inv q → ∃ q', move_run_list q now = Ret q' ∧ sched_inv q'.
Proof.
  intros Hi. destruct (inv_lists _ Hi) as (ns & ss & ws & Hr).
  destruct (move_spec now q ns ss ws Hr) as (q' & Hm & Hr' & Hcore).
  exists q'. split; [done|]. apply (lists_inv _ _ _ _ _ Hi (move_loop_table _ _ _ _ Hm) Hr').
  intros b e He Hb. left. apply (rep_was_scheduled q ns ss ws b e Hr He).
  rewrite place_all_perm, !elem_of_app in Hb. unfold due, not_due in Hb. rewrite !list_elem_of_filter in Hb.
  rewrite elem_of_app. tauto.
Qed.

Lemma schedule_inv q a e : sched_inv q → ents q !! a = Some e → schedulable e →
  ∃ q', schedule q a = Ret q' ∧ sched_inv q'.
Proof.
  intros Hi He Hok. destruct (inv_lists _ Hi) as (ns & ss & ws & Hr).
  destruct (schedule_spec q a e ns ss ws Hr He Hok) as (q' & Hs & Hr' & _). exists q'. split; [done|].
  refine (lists_inv _ _ _ _ _ Hi _ Hr' _).
  - rewrite (schedule_unfold _ _ e) in Hs by done. cbv zeta in Hs. set (q1 := set_ents _ _) in Hs.
    apply (same_table_trans _ q1).
    { eapply (upd_table q a (set_times (effective_after e) (alarm e) (deadline e))); [done|]. by apply upd_spec. }
    revert Hs. destruct (_ =? _); [table_step|]. table_step; [by apply insert_wake_table|].
    table_step; [by apply insert_run_table|table_step].
  - intros b eb Heb Hb. destruct (decide (b = a)) as [->|Hne].
    + right. rewrite He in Heb. apply (inj Some) in Heb as <-. apply Hok.
    + left. apply (rep_was_scheduled q ns ss ws b eb Hr Heb). rewrite elem_of_app in Hb |- *.
      unfold soon_after in Hb. case_if; [done|]. rewrite elem_of_place in Hb. tauto.
Qed.

Lemma unschedule_inv q a e : sched_inv q → ents q !! a = Some e →
  ∃ q', unschedule q a = Ret q' ∧ sched_inv q' ∧ watch_field <$> ents q' !! a = Some (watch_field e) ∧
    _scheduled <$> ents q' !! a = Some false.
Proof.
  intros Hi He. destruct (inv_lists _ Hi) as (ns & ss & ws & Hr).
  destruct (unschedule_spec q a e ns ss ws Hr He) as (q' & Hu & Hr' & Hf). exists q'. split; [done|].
  assert (same_table q q') as Ht.
  { revert Hu. unfold unschedule. table_step. destruct (negb _); [table_step|].
    table_step; [by apply remove_run_table|]. table_step; [by apply remove_run_table|].
    table_step; [by apply remove_wake_table|table_step]. }
  split; [|split; [by rewrite (st_field _ _ Ht), He|done]].
  refine (lists_inv _ _ _ _ _ Hi Ht Hr' _). intros b eb Heb Hb. left.
  apply (rep_was_scheduled q ns ss ws b eb Hr Heb). rewrite <- without_app, elem_of_without in Hb. tauto.
Qed.

(** Watching and unwatching leave the lists alone. *)
Record same_lists (q q' : queue) : Prop := {
  sl_now : run_now q' = run_now q;
  sl_soon : run_soon q' = run_soon q;
  sl_wake : wake_list q' = wake_list q;
  sl_field (B : Type) (f : sched_ent → B) b : (∀ p i e, f (set_poll p i e) = f e) →
    f <$> ents q' !! b = f <$> ents q !! b;
}.
Lemma same_lists_trans q1 q2 q3 : same_lists q1 q2 → same_lists q2 q3 → same_lists q1 q3.
Proof. intros [A1 A2 A3 A4] [B1 B2 B3 B4]. split; try congruence. intros B f b Hf. rewrite B4, A4; done. Qed.
Lemma upd_poll_lists q a f q' : (∀ e, ∃ p i, f e = set_poll p i e) → upd q a f = Ret q' → same_lists q q'.
Proof.
  intros Hf. unfold upd. destruct (ents q !! a) as [e|] eqn:He; [|done]. intros [= <-]. split; try done.
  intros B g b Hg. apply (upd_field g q a e f); [done|]. destruct (Hf e) as (p & i & ->). apply Hg.
Qed.
Lemma put_fd_lists q i p q' : put_fd q i p = Ret q' → same_lists q q'.
Proof. unfold put_fd. case_if; [|done]. by intros [= <-]. Qed.
Lemma put_callback_lists q i p q' : put_callback q i p = Ret q' → same_lists q q'.
Proof. unfold put_callback. case_if; [|done]. by intros [= <-]. Qed.

Lemma watch_lists q a r q' : watch q a = Ret (r, q') → same_lists q q'.
Proof.
  unfold watch. intros (e & _ & H)%bind_ret_inv. case_bool_decide; [|done].
  destruct (negb _); [|done]. apply bind_ret_inv in H as ([|] & _ & H).
  - apply bind_ret_inv in H as (q1 & H1%put_fd_lists & [= _ <-]). done.
  - destruct (_ <=? _); [by injection H as _ <-|]. apply bind_ret_inv in H as (q1 & H1%put_callback_lists & H).
    cbv zeta in H. apply bind_ret_inv in H as (q2 & H2 & H). apply upd_poll_lists in H2; [|by eexists _, _].
    apply bind_ret_inv in H as (q3 & H3%put_fd_lists & [= _ <-]).
    eapply same_lists_trans; [done|]. eapply same_lists_trans; [done|]. split; apply H3.
Qed.
Lemma unwatch_lists q l a e r q' : watched q l → ents q !! a = Some e → (a ∉ l → other_handle q e) → unwatch q a = Ret (r, q') → same_lists q q'.
Proof.
  intros Hw He Ho Hu. destruct (unwatch_spec q l a e Hw He Ho) as [[_ Hq]|(i & q1 & Hi & Hq & _)].
  { rewrite Hq in Hu. by injection Hu as _ <-. }
  destruct (unwatch_run q l i a e Hw Hi He) as (z & ez & pn & Hz & Hez & Hpn & _ & Hr).
  rewrite Hr in Hu. injection Hu as _ <-. unfold unwatched. split; try done. intros B f b Hf. simpl.
  destruct (decide (a = b)) as [<-|]; [rewrite lookup_insert_eq, He; simpl; by rewrite Hf|].
  rewrite lookup_insert_ne by done. destruct (negb _); [|done].
  destruct (decide (z = b)) as [<-|]; [rewrite lookup_insert_eq, Hez; simpl; by rewrite Hf|].
  by rewrite lookup_insert_ne.
Qed.

(** The invariant after an operation on the table. *)
Lemma table_inv q q' l : sched_inv q → same_lists q q' → watched q' l →
  (∀ b e, ents q !! b = Some e → b ∈ l → is_Some (function e)) → sched_inv q'.
Proof.
  intros [(ns & ss & ws & Hr) _ Hc] [E1 E2 E3 HF] Hw Hnew. split; [|by exists l|].
  - exists ns, ss, ws. apply (rep_ext q); try done. intros; by apply HF.
  - intros b e' He'. pose proof (HF _ (λ e, (function e, _scheduled e)) b (λ _ _ _, eq_refl)) as Hb.
    rewrite He' in Hb. symmetry in Hb. apply fmap_Some in Hb as (e & He & [= Ef Es]).
    unfold callable. rewrite Ef, Es. intros [Hs|Hp]; [apply (Hc b e He); by left|].
    apply (Hnew b e He). by apply (watched_polled q' l b e' Hw He').
Qed.
Lemma watched_callable q l b e : sched_inv q → watched q l → ents q !! b = Some e → b ∈ l → is_Some (function e).
Proof.
  intros Hi Hw He Hb. apply (inv_callable _ Hi b e He). right. by apply (watched_polled q l b e Hw He).
Qed.

Lemma watch_inv q a e : sched_inv q → ents q !! a = Some e → is_Some (function e) → events (poll e) ≠ 0 →
  ∃ r q', watch q a = Ret (r, q') ∧ sched_inv q'.
Proof.
  intros Hi He Hf Hev. destruct (inv_table _ Hi) as (l & Hw).
  destruct (watch_spec q l a e Hw He Hf Hev)
    as [(Hin & q' & Hq & Hw' & _)|[(Hin & Hlen & Hq)|(Hin & q' & Hq & Hw')]].
  - eexists _, q'. split; [done|]. apply (table_inv q q' l Hi); [by eapply watch_lists|done|].
    intros b eb Heb Hb. by apply (watched_callable q l b).
  - by eexists _, q.
  - eexists _, q'. split; [done|]. apply (table_inv q q' _ Hi (watch_lists _ _ _ _ Hq) Hw').
    intros b eb Heb [Hb|Hb%list_elem_of_singleton]%elem_of_app; [by apply (watched_callable q l b)|].
    subst b. congruence.
Qed.
Lemma unwatch_inv q a e : sched_inv q → ents q !! a = Some e → polled q a e ∨ other_handle q e → ∃ r q', unwatch q a = Ret (r, q') ∧ sched_inv q'.
Proof.
  intros Hi He Hor. destruct (inv_table _ Hi) as (l & Hw).
  assert (a ∉ l → other_handle q e) as Ho. { intros Ha. destruct Hor as [Hp|?]; [|done]. destruct Ha. by apply (watched_polled q l a e Hw He). }
  destruct (unwatch_spec q l a e Hw He Ho) as [[_ Hq]|(i & q' & Hl & Hq & Hw')]; [by eexists _, q|].
  eexists _, q'. split; [done|]. apply (table_inv q q' _ Hi (unwatch_lists _ _ _ _ _ _ Hw He Ho Hq) Hw').
  intros b eb Heb Hb. apply (watched_callable q l b eb Hi Hw Heb).
  apply list_elem_of_lookup_1 in Hb as [j Hj]. destruct (last_index _ _ _ Hl) as (z & Hz & Hn).
  rewrite (swap_remove_lookup _ _ z) in Hj by (done || by eapply lookup_lt_Some).
  case_decide; [done|]. case_decide; [injection Hj as <-|]; by eapply list_elem_of_lookup_2.
Qed.

(** ** The calls a client of the scheduler makes *)

Inductive call :=
| CSchedule (a : nat)
| CUnschedule (a : nat)
| CReschedule (a : nat) (after wait before : Z)
| CWatch (a : nat)
| CUnwatch (a : nat).

Definition run_call (c : call) (q : queue) : outcome queue :=
  match c with
  | CSchedule a => schedule q a
  | CUnschedule a => unschedule q a
  | CReschedule a after wait before => reschedule q a after wait before
  | CWatch a => r ← watch q a; Ret r.2
  | CUnwatch a => r ← unwatch q a; Ret r.2
  end.

(** What the assertions of the code ask of a call; of [unwatch], that the entry is watched or has not the handle that is watched at its index. *)
Definition allowed (c : call) (q : queue) : Prop :=
  match c with
  | CSchedule a => ∃ e, ents q !! a = Some e ∧ schedulable e
  | CUnschedule a => is_Some (ents q !! a)
  | CUnwatch a => ∃ e, ents q !! a = Some e ∧ (polled q a e ∨ other_handle q e)
  | CReschedule a after wait before =>
      ∃ e, ents q !! a = Some e ∧ schedulable (set_request after wait before (set_scheduled false 0 e))
  | CWatch a => ∃ e, ents q !! a = Some e ∧ is_Some (function e) ∧ events (poll e) ≠ 0
  end.

Lemma reschedule_inv q a e after wait before : sched_inv q → ents q !! a = Some e →
  schedulable (set_request after wait before (set_scheduled false 0 e)) →
  ∃ q', reschedule q a after wait before = Ret q' ∧ sched_inv q'.
Proof.
  intros Hi He Hok. unfold reschedule.
  destruct (unschedule_inv q a e Hi He) as (q1 & -> & Hi1 & Hf1 & Hs1). rewrite bind_ret_l.
  apply fmap_Some in Hf1 as (e1 & He1 & Ef1). rewrite He1 in Hs1. apply (inj Some) in Hs1.
  rewrite (upd_spec _ _ e1), bind_ret_l by done. set (g := set_request after wait before).
  set (q2 := set_ents _ _). assert (ents q2 !! a = Some (g e1)) as He2 by apply lookup_insert_eq.
  apply (schedule_inv q2 a (g e1)); [|done|].
  - destruct (inv_lists _ Hi1) as (ns & ss & ws & Hr). refine (lists_inv q1 q2 ns ss ws Hi1 _ _ _).
    + eapply (upd_table q1 a g); [done|]. by apply upd_spec.
    + by apply (rep_upd q1 ns ss ws a e1 g).
    + intros b eb Heb Hb. left. by apply (rep_was_scheduled q1 ns ss ws b eb).
  - destruct Hok as (_ & Hf & Ha & Hd). injection Ef1 as Ef _ _. unfold schedulable, effective_after, g in *. simpl in *.
    rewrite <- Ef. by split_and!.
Qed.

Lemma call_inv c q : sched_inv q → allowed c q → ∃ q', run_call c q = Ret q' ∧ sched_inv q'.
Proof.
  intros Hi. destruct c as [a|a|a t1 t2 t3|a|a]; simpl.
  - intros (e & He & Hok). by apply (schedule_inv q a e).
  - intros [e He]. destruct (unschedule_inv q a e Hi He) as (q' & ? & ? & _). by exists q'.
  - intros (e & He & Hok). by apply (reschedule_inv q a e).
  - intros (e & He & Hf & Hev). destruct (watch_inv q a e Hi He Hf Hev) as (r & q' & -> & ?). by exists q'.
  - intros (e & He & Hor). destruct (unwatch_inv q a e Hi He Hor) as (r & q' & -> & ?). by exists q'.
Qed.

(** poll(2) storing the events that happened. *)
Lemma store_revents_length l rs : (length rs ≤ length l)%nat → length (store_revents l rs) = length l.
Proof. intros H. unfold store_revents. rewrite length_app, length_zip_with, length_drop. lia. Qed.
Lemma store_revents_fd l rs i p : l !! i = Some p → ∃ p', store_revents l rs !! i = Some p' ∧ fd p' = fd p.
Proof.
  intros Hi. unfold store_revents. destruct (decide (i < length rs)%nat) as [Hlt|Hge].
  - destruct (lookup_lt_is_Some_2 rs i Hlt) as [r Hr]. eexists.
    rewrite lookup_app_l by (rewrite length_zip_with; apply lookup_lt_Some in Hi; lia).
    rewrite lookup_zip_with, Hi, Hr. by split.
  - exists p. split; [|done]. apply lookup_lt_Some in Hi as Hl.
    rewrite lookup_app_r by (rewrite length_zip_with; lia). rewrite length_zip_with, lookup_drop.
    rewrite <- Hi. f_equal. lia.
Qed.
Lemma store_revents_inv q rs : sched_inv q → (length rs ≤ length (fds q))%nat →
  sched_inv (set_watch q (store_revents (fds q) rs) (fdcount q) (fd_callbacks q)).
Proof.
  intros [(ns & ss & ws & Hr) (l & Hw) Hc] Hlen. split; [|exists l|done].
  - exists ns, ss, ws. by apply (rep_ext q).
  - destruct Hw as [H1 H2 H3 H4 H5 H6 H7]. split; try done.
    + simpl. by rewrite store_revents_length.
    + intros i a Hi. destruct (H5 i a Hi) as (e & p & He & Ei & Hp & Ep & Hcb).
      destruct (store_revents_fd (fds q) rs i p Hp) as (p' & Hp' & Efd). exists e, p'.
      split_and!; try done. congruence.
Qed.

Lemma io_loop_inv w n q : world_ok w → sched_inv q → (n ≤ MAX_WATCHED_FDS)%nat →
  ∃ q', io_loop w n q = Ret q' ∧ sched_inv q'.
Proof.
  intros Hw. revert q. induction n as [|n IH]; intros q Hi Hn; [by exists q|]. cbn [io_loop].
  destruct (inv_table _ Hi) as (l & Ht).
  destruct (lookup_lt_is_Some_2 (fd_callbacks q) n) as [c Hc]; [rewrite (wt_callbacks _ _ Ht); lia|].
  rewrite (get_callback_spec _ _ c), bind_ret_l by done. destruct c as [a|].
  2: { rewrite bind_ret_l. apply IH; [done|lia]. }
  assert (l !! n = Some a) as Hl.
  { destruct (l !! n) as [b|] eqn:El.
    - destruct (wt_at _ _ Ht n b El) as (? & ? & _ & _ & _ & _ & Hcb). congruence.
    - apply lookup_ge_None in El. rewrite (wt_beyond _ _ Ht n) in Hc by lia. done. }
  destruct (wt_at _ _ Ht n a Hl) as (e & p & He & Ei & Hp & Ep & _).
  rewrite (ent_spec _ _ e), bind_ret_l, (get_fd_spec _ _ p), bind_ret_l by done.
  destruct (_ && _); [|rewrite bind_ret_l; apply IH; [done|lia]].
  destruct (call_alarm_inv w q a e (revents p) Hw Hi He) as (q1 & -> & Hi1).
  { apply (watched_callable q l a e Hi Ht He). by eapply list_elem_of_lookup_2. }
  rewrite bind_ret_l. apply IH; [done|lia].
Qed.

Lemma choose_wait_inv w q : world_ok w → sched_inv q →
  ∃ t n b q', choose_wait w q = Ret (t, n, b, q') ∧ sched_inv q'.
Proof.
  intros Hw Hi. unfold choose_wait. destruct (run_now q); [by eexists _, _, _, _|].
  destruct (inv_lists _ Hi) as (ns & ss & ws & Hr).
  assert (∃ x, match run_soon q with Some a => e ← ent q a; Ret (run_after e)
                 | None => Ret TIME_MS_NEVER_WILL end = Ret x) as [x ->].
  { pose proof (rep_soon _ _ _ _ Hr) as Hs. destruct ss as [|a ss]; [by rewrite Hs; eexists|].
    destruct Hs as (-> & n & (e & He & _)%nr_inv & _). rewrite (ent_spec _ _ e) by done. by eexists. }
  rewrite bind_ret_l.
  assert (∃ y, match wake_list q with Some a => e ← ent q a; Ret (wake_at e)
                 | None => Ret TIME_MS_NEVER_WILL end = Ret y) as [y ->].
  { destruct (rep_wake _ _ _ _ Hr) as [Hs _]. destruct ws as [|a ws]; [by rewrite Hs; eexists|].
    destruct Hs as (-> & n & (e & He & _)%nw_inv & _). rewrite (ent_spec _ _ e) by done. by eexists. }
  rewrite bind_ret_l. destruct (waiting w) as [f|] eqn:Ef; [|by eexists _, _, _, _].
  destruct (_ <? _); [|by eexists _, _, _, _].
  destruct (wo_waiting _ Hw f (t_now w) x y q Ef Hi) as (t & q' & -> & Hi'). rewrite bind_ret_l.
  by eexists _, _, _, _.
Qed.

(** ** Scheduling *)

(** Scheduling an entry that satisfies the assertions puts it into the
    run-soon list in the order of its run-after time and, unless it is never to
    wake the process, into the wake list in the order of its alarm; an entry that
    will never run is left out, and an entry that breaks an assertion stops the
    process. *)
Theorem schedule_refines q a e ns ss ws : rep q ns ss ws → ents q !! a = Some e →
  (schedulable e → ∃ q', schedule q a = Ret q' ∧
     rep q' ns (soon_after q' a e ss) (wake_after q' a e ws) ∧
     key_of run_after q' a = effective_after e ∧ key_of wake_at q' a = alarm e ∧
     key_of run_before q' a = deadline e) ∧
  (¬ schedulable e → schedule q a = Aborted).
Proof.
  intros Hr He. split; [by apply schedule_spec|]. intros Hn. unfold schedule.
  rewrite (ent_spec _ _ e), bind_ret_l, (upd_spec _ _ e), bind_ret_l by done. fold (effective_after e).
  destruct (Z.leb_spec (effective_after e) (alarm e)) as [H1|]; [|done].
  destruct (Z.leb_spec (effective_after e) (deadline e)) as [H2|]; [|done]. unfold is_scheduled.
  destruct (_scheduled e) eqn:H3; [done|]. cbn [negb]. case_bool_decide as H4; [|done].
  exfalso. apply Hn. by split_and!.
Qed.

(** Unscheduling takes an entry off every list and clears its flag, whichever
    of the lists it is on; on an entry that is not scheduled it changes nothing. *)
Theorem unschedule_refines q a e ns ss ws : rep q ns ss ws → ents q !! a = Some e →
  ∃ q', unschedule q a = Ret q' ∧ rep q' (without a ns) (without a ss) (without a ws) ∧
    _scheduled <$> ents q' !! a = Some false ∧ (_scheduled e = false → q' = q).
Proof.
  intros Hr He. destruct (unschedule_spec q a e ns ss ws Hr He) as (q' & Hu & Hr' & Hf).
  exists q'. split_and!; try done. intros Hs. unfold unschedule, is_scheduled in Hu.
  rewrite (ent_spec _ _ e), bind_ret_l, Hs in Hu by done. by injection Hu.
Qed.

(** [move_run_list] ends, and moves exactly the alarms whose run-after time
    has come from the run-soon and wake lists into the run-now list, in the order
    of their deadlines, alarms with the same deadline in the order of arrival. *)
Theorem move_refines now q ns ss ws : rep q ns ss ws →
  ∃ q', move_run_list q now = Ret q' ∧
    rep q' (place_all (key_of run_before q) (due q now ss) ns) (not_due q now ss) (not_due q now ws) ∧
    place_all (key_of run_before q) (due q now ss) ns ≡ₚ ns ++ due q now ss ∧ same_core q q'.
Proof.
  intros Hr. destruct (move_spec now q ns ss ws Hr) as (q' & ? & ? & ?). exists q'. split_and!; try done.
  apply place_all_perm.
Qed.

(** The calls of a client, one after the other. *)
Fixpoint run_calls (cs : list call) (q : queue) : outcome queue :=
  match cs with [] => Ret q | c :: cs => q ← run_call c q; run_calls cs q end.
Fixpoint all_allowed (cs : list call) (q : queue) : Prop :=
  match cs with
  | [] => True
  | c :: cs => allowed c q ∧ ∀ q', run_call c q = Ret q' → all_allowed cs q'
  end.

(** C17: Every sequence of calls to schedule, unschedule, RESCHEDULE, watch and unwatch, each of which satisfies the assertions of the code where it is made, returns without following a dangling link or leaving the tables, and leaves a well-formed scheduler; entries may start zeroed. An entry that is unwatched has to be watched, or to have another handle than the one at its index in the table: [unwatch] does not tell these apart ([unwatch_zeroed]). *)
Theorem sched_calls_safe cs q : sched_inv q → all_allowed cs q →
  ∃ q', run_calls cs q = Ret q' ∧ sched_inv q'.
Proof.
  revert q. induction cs as [|c cs IH]; intros q Hi; simpl; [intros _; by exists q|].
  intros [Ha Hrest]. destruct (call_inv c q Hi Ha) as (q1 & Hq1 & Hi1). rewrite Hq1, bind_ret_l.
  apply IH; [done|]. by apply Hrest.
Qed.

(** ** Watching *)

(** Watching an entry appends it to the table, updates its event mask when it
    is there already, and fails without effect when the table is full. Unwatching
    fills the gap with the last entry of the table, and fails without effect for
    an entry that is not watched, if it has another handle than the one at its index. *)
Theorem watch_unwatch_refine q l a e : watched q l → ents q !! a = Some e → is_Some (function e) →
  events (poll e) ≠ 0 → (a ∉ l → other_handle q e) →
  (∃ r q', watch q a = Ret (r, q') ∧
     watched q' (if decide (a ∈ l) then l else if decide (length l = MAX_WATCHED_FDS) then l else l ++ [a]) ∧
     r = (if decide (a ∈ l) then 0 else if decide (length l = MAX_WATCHED_FDS) then -1 else 0)) ∧
  (∃ r q', unwatch q a = Ret (r, q') ∧
     (if decide (a ∈ l) then r = 0 ∧ ∃ i, l !! i = Some a ∧ watched q' (swap_remove i l)
      else r = -1 ∧ q' = q)).
Proof.
  intros Hw He Hf Hev Ho. split.
  - destruct (watch_spec q l a e Hw He Hf Hev)
      as [(Hin & q' & Hq & Hw' & _)|[(Hin & Hlen & Hq)|(Hin & q' & Hq & Hw')]].
    + exists 0, q'. by rewrite !decide_True.
    + exists (-1), q. destruct (decide (a ∈ l)); [done|]. by rewrite !decide_True.
    + exists 0, q'. destruct (decide (a ∈ l)); [done|].
      destruct (decide (length l = MAX_WATCHED_FDS)) as [Hl|]; [|done]. exfalso. pose proof (wt_max _ _ Hw') as Hm.
      rewrite length_app in Hm. simpl in Hm. lia.
  - destruct (unwatch_spec q l a e Hw He Ho) as [[Hin Hq]|(i & q' & Hi & Hq & Hw')].
    + exists (-1), q. by rewrite decide_False.
    + exists 0, q'. rewrite decide_True by (by eapply list_elem_of_lookup_2). eauto.
Qed.

(** ** Polling *)

(** C16: a call of [fd_poll2] on a well-formed scheduler returns, whatever poll(2)
    reports and whenever the clock is read, and leaves a well-formed scheduler. It
    returns 0 only when no alarm is runnable or waits to wake the process and no
    handle is watched. *)
Theorem fd_poll2_safe w q : sched_inv q → world_ok w →
  ∃ r q', fd_poll2 w q = Ret (r, q') ∧ sched_inv q' ∧
    ((r = 0 ∧ q' = q ∧ run_now q = None ∧ wake_list q = None ∧ fdcount q = 0) ∨ r = 1).
Proof.
  intros Hi Hw. unfold fd_poll2. destruct (overdue_ret q (t_overdue w) Hi) as (b & -> & Hb). rewrite bind_ret_l.
  destruct b.
  { destruct Hb as [a Ha]; [done|]. rewrite Ha. destruct (run_first_inv w q a Hw Hi Ha) as (q' & -> & Hi').
    exists 1, q'. auto. }
  destruct (_ && _) eqn:Eidle.
  { apply andb_prop in Eidle as [[E1 E2]%andb_prop E3%Z.eqb_eq].
    apply bool_decide_eq_true in E1, E2. exists 0, q. split; [done|]. split; [done|]. left. by split_and!. }
  destruct (choose_wait_inv w q Hw Hi) as (t & n & cw & q1 & -> & Hi1). rewrite bind_ret_l. cbv zeta.
  match goal with |- context [let '(r, q) := ?P in _] => destruct P as [r q2] eqn:EP end.
  assert (sched_inv q2) as Hi2.
  { destruct (fdcount q1 =? 0); [by injection EP as _ <-|]. destruct (sys_poll w _ _) as [r' rs].
    injection EP as _ <-. apply store_revents_inv; [done|]. rewrite !length_take. lia. }
  assert (∃ q3, match wokeup w with Some f => if cw : bool then f q2 else Ret q2 | None => Ret q2 end = Ret q3 ∧
    sched_inv q3) as (q3 & -> & Hi3).
  { destruct (wokeup w) as [f|] eqn:Ef; [|by exists q2]. destruct cw; [|by exists q2]. by apply (wo_wokeup _ Hw). }
  rewrite bind_ret_l. destruct (move_inv q3 (t_move w) Hi3) as (q4 & -> & Hi4). rewrite bind_ret_l.
  assert (∃ b, (if wait_ms t n =? 0 then Ret false else overdue q4 (t_check w)) = Ret b) as [b' ->].
  { destruct (wait_ms t n =? 0); [by exists false|]. by destruct (overdue_ret q4 (t_check w) Hi4) as (b' & -> & _); eexists. }
  rewrite bind_ret_l. destruct b'; [exists 1, q4; auto|]. destruct (0 <? r).
  - destruct (inv_table _ Hi4) as (l & Ht).
    destruct (io_loop_inv w (Z.to_nat (fdcount q4)) q4 Hw Hi4) as (q5 & -> & Hi5).
    { rewrite (wt_count _ _ Ht), Nat2Z.id. apply Ht. }
    rewrite bind_ret_l. destruct (move_inv q5 (t_io w) Hi5) as (q6 & -> & Hi6). exists 1, q6. auto.
  - destruct (run_now q4) as [a|] eqn:Ea; [|exists 1, q4; auto].
    destruct (run_first_inv w q4 a Hw Hi4 Ea) as (q5 & -> & Hi5). exists 1, q5. auto.
Qed.

(** When the first alarm of the run-now list is overdue, [fd_poll2] calls it
    and nothing else. Its deadline is the earliest in the list, and its function
    runs with the alarm off every list and free to schedule itself again. *)
Theorem fd_poll2_overdue w q a ns ss ws : sched_inv q → rep q (a :: ns) ss ws →
  key_of run_before q a ≤ t_overdue w →
  Forall (λ b, key_of run_before q a ≤ key_of run_before q b) ns ∧
  ∃ e q1, ents q1 !! a = Some e ∧ _scheduled e = false ∧ is_Some (function e) ∧ rep q1 ns ss ws ∧
    fd_poll2 w q = (q' ← call_alarm w q1 (Some a) 0; Ret (1, q')).
Proof.
  intros Hi Hr Hle. split; [by apply (sorted_tail _ _ _ (rep_now_sorted _ _ _ _ Hr))|].
  destruct (run_first_spec w q a ns ss ws Hi Hr) as (e & q1 & He & Hf & Hrun & Hr1 & He1 & _).
  eexists _, q1. split; [exact He1|]. split_and!; try done.
  unfold fd_poll2, overdue. rewrite (rep_run_now _ _ _ _ Hr). cbn [head].
  rewrite (ent_spec _ _ e), bind_ret_l by done. rewrite (key_of_at _ _ _ _ He) in Hle.
  rewrite bind_ret_l, (proj2 (Z.leb_le _ _) Hle). by rewrite Hrun.
Qed.

(** The time to wait is passed to poll(2) as an int. Up to 24 days ahead it is
    the time left; an alarm from 2^31 to 2^32 milliseconds ahead gives a negative
    timeout, which makes poll(2) wait for ever and the sleep be skipped. *)
Theorem wait_ms_range t now : t ≠ TIME_MS_NEVER_WILL →
  (t - now < 2 ^ 31 → wait_ms t now = Z.max 0 (t - now)) ∧
  (2 ^ 31 ≤ t - now < 2 ^ 32 → wait_ms t now < 0).
Proof.
  intros Ht. unfold wait_ms. rewrite (proj2 (Z.eqb_neq _ _) Ht). split; intros H.
  - destruct (Z.leb_spec t now); [lia|]. rewrite wraps_small by lia. lia.
  - rewrite (proj2 (Z.leb_gt _ _)) by lia. unfold wraps. change (32 - 1) with 31.
    replace (t - now + 2 ^ 31) with (t - now - 2 ^ 31 + 1 * 2 ^ 32) by lia.
    rewrite Z.mod_add, Z.mod_small by lia. lia.
Qed.

(** ** Witnesses *)

(** A scheduler in which nothing has been scheduled or watched; entries and tables may be zero, as static storage is. *)
Record idle (q : queue) : Prop := {
  idle_roots : run_now q = None ∧ run_soon q = None ∧ wake_list q = None;
  idle_ents a e : ents q !! a = Some e →
    _scheduled e = false ∧ _next_wake e = None ∧ _prev_wake e = None ∧ _poll_index e < Z.of_nat MAX_WATCHED_FDS;
  idle_table : length (fds q) = MAX_WATCHED_FDS ∧ fdcount q = 0 ∧
    fd_callbacks q = replicate MAX_WATCHED_FDS None;
}.

Lemma idle_rep q : idle q → rep q [] [] [].
Proof.
  intros [(E1 & E2 & E3) He _]. split; try done; try (by constructor).
  - intros a. split; [by intros ?%not_elem_of_nil|]. by intros [?%not_elem_of_nil _].
  - intros a [e Ha] _. destruct (He a e Ha) as (_ & En & Ep & _). unfold nw, pv. rewrite Ha. simpl. by rewrite En, Ep.
  - intros a. split; [|by intros ?%not_elem_of_nil]. intros (e & Ha & Hs)%fmap_Some.
    destruct (He a e Ha) as (Hs' & _). congruence.
Qed.
Lemma idle_watched q : idle q → watched q [].
Proof.
  intros [_ He (E1 & E2 & E3)].
  split; rewrite ?E1, ?E2, ?E3; try done; try (by rewrite length_replicate).
  - simpl. lia.
  - intros i [_ Hi]. by apply lookup_replicate_2.
  - intros a e Ha _. by apply (He a).
Qed.
Lemma idle_inv q : idle q → sched_inv q.
Proof.
  intros Hi. split; [exists [], [], []; by apply idle_rep|exists []; by apply idle_watched|].
  intros a e Ha [Hs|Hp]; destruct (idle_ents _ Hi a e Ha) as (? & _ & _ & ?); [congruence|]. apply (watched_polled q [] a e (idle_watched _ Hi) Ha) in Hp. by apply elem_of_nil in Hp.
Qed.

Definition demo_ent (f : nat) (at_ before : Z) : sched_ent :=
  Ent None None None false (Some f) (Pollfd 5 1 0) TIME_MS_NEVER_WILL 0 0 at_ before 0.
Definition demo_map : gmap nat sched_ent :=
  <[1%nat := demo_ent 7 100 200]> (<[2%nat := demo_ent 8 50 300]> ∅).
Definition demo : queue :=
  Queue demo_map (replicate MAX_WATCHED_FDS (Pollfd 0 0 0)) 0 (replicate MAX_WATCHED_FDS None) None None None.
Definition demo_world : world := World (λ _ a q, unschedule q a) None None (λ _ _, (0, [])) 250 0 0 0 0 0.

Lemma demo_idle : idle demo.
Proof.
  split; [done| |done]. intros a e. simpl. unfold demo_map.
  intros [[<- <-]|[_ H]]%lookup_insert_Some; [by split_and!|].
  by apply lookup_insert_Some in H as [[<- <-]|[_ H]]; [split_and!|].
Qed.
Lemma demo_world_ok : world_ok demo_world.
Proof. split; simpl; [|done|done]. intros f a q Hi [e He].
  destruct (unschedule_inv q a e Hi He) as (q' & ? & ? & _). by exists q'.
Qed.

(** Entry 1 of the example, scheduled. *)
Lemma demo_scheduled : ∃ q e, rep q [] [1%nat] [1%nat] ∧ ents q !! 1%nat = Some e ∧
  key_of run_after q 1%nat = 100 ∧ key_of run_before q 1%nat = 200 ∧ sched_inv q.
Proof.
  assert (schedulable (demo_ent 7 100 200)) as Hok by by apply (bool_decide_unpack _).
  destruct (schedule_spec demo 1 (demo_ent 7 100 200) [] [] [] (idle_rep _ demo_idle))
    as (q1 & Hs & Hr1 & Ka & _ & Kb); [done|done|].
  destruct (schedule_inv demo 1 (demo_ent 7 100 200) (idle_inv _ demo_idle)) as (q1' & Hs' & Hi); [done|done|].
  rewrite Hs in Hs'. injection Hs' as <-. change (rep q1 [] [1%nat] [1%nat]) in Hr1.
  destruct (rep_live _ _ _ _ 1 Hr1) as (e & He & _); [by left|]. by exists q1, e.
Qed.

Lemma schedule_refines_witness : ∃ q', schedule demo 1 = Ret q' ∧ rep q' [] [1%nat] [1%nat] ∧
  key_of run_after q' 1 = 100.
Proof.
  destruct (proj1 (schedule_refines demo 1 (demo_ent 7 100 200) [] [] [] (idle_rep _ demo_idle) eq_refl))
    as (q' & Hs & Hr & Hk & _); [by apply (bool_decide_unpack _)|].
  exists q'. exact (conj Hs (conj Hr Hk)).
Defined.

Lemma unschedule_refines_witness : ∃ q q', rep q [] [1%nat] [1%nat] ∧ unschedule q 1 = Ret q' ∧ rep q' [] [] [].
Proof.
  destruct demo_scheduled as (q & e & Hr & He & _).
  destruct (unschedule_refines q 1 e [] [1%nat] [1%nat] Hr He) as (q' & Hu & Hr' & _).
  exists q, q'. exact (conj Hr (conj Hu Hr')).
Defined.

Lemma move_refines_witness : ∃ q q', rep q [] [1%nat] [1%nat] ∧ move_run_list q 150 = Ret q' ∧ rep q' [1%nat] [] [].
Proof.
  destruct demo_scheduled as (q & e & Hr & He & Ka & _).
  destruct (move_refines 150 q [] [1%nat] [1%nat] Hr) as (q' & Hm & Hr' & _ & _).
  unfold due, not_due in Hr'. rewrite filter_cons_True, filter_nil, filter_cons_False in Hr' by lia.
  exists q, q'. exact (conj Hr (conj Hm Hr')).
Defined.

Lemma sched_calls_safe_witness : let cs := [CSchedule 1; CWatch 1; CUnwatch 1; CUnwatch 2; CUnschedule 2] in ∃ q', run_calls cs demo = Ret q' ∧ sched_inv q'.
Proof.
  intros cs. apply (sched_calls_safe cs demo (idle_inv _ demo_idle)).
  split; [exists (demo_ent 7 100 200); split; [done|by apply (bool_decide_unpack _)]|].
  intros q1 H1. vm_compute in H1. injection H1 as <-. split; [eexists; split; [reflexivity|]; split; [by eexists|done]|].
  intros q2 H2. vm_compute in H2. injection H2 as <-. split; [eexists; split; [reflexivity|]; left; split; [done|reflexivity]|].
  intros q3 H3. vm_compute in H3. injection H3 as <-. split; [eexists; split; [reflexivity|]; right; right; eexists; split; [reflexivity|done]|].
  intros q4 H4. vm_compute in H4. injection H4 as <-. split; [by eexists|done].
Defined.

Lemma watch_unwatch_refine_witness : ∃ r q', watch demo 1 = Ret (r, q') ∧ watched q' [1%nat] ∧ r = 0.
Proof.
  refine (proj1 (watch_unwatch_refine demo [] 1 (demo_ent 7 100 200) (idle_watched _ demo_idle) eq_refl
    (mk_is_Some _ 7%nat eq_refl) ltac:(done) _)).
  intros _. right. eexists. split; [reflexivity|done].
Defined.

(** An entry that is zero and was never watched is taken for a watched one, since the table
    starts with zeros too; [unwatch] then moves the entry before the first of the table. *)
Lemma unwatch_zeroed : let q := Queue {[1%nat := Ent None None None false None (Pollfd 0 0 0) 0 0 0 0 0 0]} (replicate MAX_WATCHED_FDS (Pollfd 0 0 0)) 0 (replicate MAX_WATCHED_FDS None) None None None in
  sched_inv q ∧ is_watching q 1 = Ret true ∧ unwatch q 1 = Undef.
Proof.
  intros q. split; [|split; vm_compute; reflexivity]. apply idle_inv. split; [done| |done]. intros a e. cbn. intros [<- <-]%lookup_singleton_Some. done.
Qed.

Lemma fd_poll2_safe_witness : ∃ q r q', rep q [] [1%nat] [1%nat] ∧ fd_poll2 demo_world q = Ret (r, q') ∧ sched_inv q'.
Proof.
  destruct demo_scheduled as (q & e & Hr & He & _ & _ & Hi).
  destruct (fd_poll2_safe demo_world q Hi demo_world_ok) as (r & q' & Hp & Hi' & _).
  exists q, r, q'. exact (conj Hr (conj Hp Hi')).
Defined.

Lemma fd_poll2_overdue_witness : ∃ q q1, rep q [1%nat] [] [] ∧ rep q1 [] [] [] ∧
  fd_poll2 demo_world q = (q' ← call_alarm demo_world q1 (Some 1%nat) 0; Ret (1, q')).
Proof.
  destruct demo_scheduled as (q & e & Hr & He & Ka & Kb & Hi).
  destruct (move_spec 150 q [] [1%nat] [1%nat] Hr) as (q2 & Hm & Hr2 & Hc).
  destruct (move_inv q 150 Hi) as (q2' & Hm' & Hi2). rewrite Hm in Hm'. injection Hm' as <-.
  unfold due, not_due in Hr2. rewrite filter_cons_True, filter_nil, filter_cons_False in Hr2 by lia.
  destruct (fd_poll2_overdue demo_world q2 1 [] [] [] Hi2 Hr2) as (_ & e1 & q1 & _ & _ & _ & Hr1 & Hp).
  { rewrite (same_core_key run_before q q2) by done. rewrite Kb. simpl. lia. }
  exists q2, q1. exact (conj Hr2 (conj Hr1 Hp)).
Defined.

Lemma wait_ms_range_witness : wait_ms (2 ^ 31 + 1000) 1000 < 0 ∧ wait_ms 1500 1000 = 500.
Proof.
  split.
  - apply (proj2 (wait_ms_range (2 ^ 31 + 1000) 1000 ltac:(done))). lia.
  - apply (proj1 (wait_ms_range 1500 1000 ltac:(done))). lia.
Defined.

End FdQueueProps.
