(* ===== verification/Prog.v ===== *)
(** * Stateful code

    A C function that works on shared state is a function from the state to an
    outcome with the new state. [runs] states what it does: from a given state it
    returns, with a result and a state that satisfy the postcondition. *)

From S2P Require Import Prelude.

Module Prog.

Definition prog (S A : Type) : Type := S → outcome (A * S).
#[export] Instance prog_ret {S} : MRet (prog S) := λ A a s, Ret (a, s).
#[export] Instance prog_bind {S} : MBind (prog S) := λ A B f m s,
  match m s with Ret (a, s) => f a s | Aborted => Aborted | Undef => Undef end.

Definition ask {S A} (g : S → A) : prog S A := λ s, Ret (g s, s).
Definition change {S} (g : S → S) : prog S unit := λ s, Ret (tt, g s).
Definition lift {S A} (o : outcome A) : prog S A := λ s, a ← o; Ret (a, s).
Definition aborted {S A} : prog S A := λ _, Aborted.
Definition undefined {S A} : prog S A := λ _, Undef.

Lemma bind_unfold {S A B} (p : prog S A) (k : A → prog S B) s a s' : p s = Ret (a, s') → (p ≫= k) s = k a s'.
Proof. unfold mbind, prog_bind. by intros ->. Qed.

Definition runs {S A} (p : prog S A) (s : S) (Q : A → S → Prop) : Prop := ∃ a s', p s = Ret (a, s') ∧ Q a s'.

Lemma runs_mono {S A} (p : prog S A) s (Q Q' : A → S → Prop) : runs p s Q → (∀ a s', Q a s' → Q' a s') → runs p s Q'.
Proof. intros (a & s' & E & HQ) Hi. exists a, s'. auto. Qed.
Lemma runs_ret {S A} (a : A) (s : S) (Q : A → S → Prop) : Q a s → runs (mret a) s Q.
Proof. intros. by exists a, s. Qed.
Lemma runs_bind {S A B} (p : prog S A) (k : A → prog S B) s (Q : B → S → Prop) :
  runs p s (λ a s', runs (k a) s' Q) → runs (p ≫= k) s Q.
Proof. intros (a & s' & E & b & s'' & E' & HQ). exists b, s''. by rewrite (bind_unfold _ _ _ _ _ E). Qed.
(** Any property of an outcome, after a first part that returns. *)
Lemma bind_gives {S A B} (Φ : outcome (B * S) → Prop) (p : prog S A) (k : A → prog S B) s : runs p s (λ a s', Φ (k a s')) → Φ ((p ≫= k) s).
Proof. intros (a & s' & E & H). by rewrite (bind_unfold _ _ _ _ _ E). Qed.
Lemma runs_assoc {S A B C} (p : prog S A) (q : A → prog S B) (k : B → prog S C) s (Q : C → S → Prop) :
  runs (p ≫= q) s (λ b s', runs (k b) s' Q) → runs (p ≫= λ a, q a ≫= k) s Q.
Proof. intros (b & s' & E & c & s'' & E' & HQ). exists c, s''. split; [|done]. unfold mbind, prog_bind in *. destruct (p s) as [[a s1]| |]; try done. by rewrite E. Qed.
Lemma runs_ask {S A} (g : S → A) s (Q : A → S → Prop) : Q (g s) s → runs (ask g) s Q.
Proof. intros. by exists (g s), s. Qed.
Lemma runs_change {S} (g : S → S) s (Q : unit → S → Prop) : Q tt (g s) → runs (change g) s Q.
Proof. intros. by exists tt, (g s). Qed.
Lemma runs_lift {S A} (o : outcome A) a (s : S) (Q : A → S → Prop) : o = Ret a → Q a s → runs (lift o) s Q.
Proof. intros -> ?. by exists a, s. Qed.

(** [while (1)]: the body is repeated until it breaks, with a result; at most 2^k times. *)
Fixpoint loop {S A} (k : nat) (body : prog S (option A)) : prog S (option A) :=
  match k with
  | O => body
  | Datatypes.S k => r ← loop k body; match r with Some a => mret (Some a) | None => loop k body end
  end.
Definition forever {S A} (k : nat) (body : prog S (option A)) : prog S A :=
  r ← loop k body; match r with Some a => mret a | None => undefined end.

(** From the given state the code returns, or [T] holds and it does something undefined. *)
Definition runs_or {S A} (T : Prop) (p : prog S A) (s : S) (Q : A → S → Prop) : Prop := runs p s Q ∨ p s = Undef ∧ T.
Lemma runs_or_mono {S A} T (p : prog S A) s (Q Q' : A → S → Prop) : runs_or T p s Q → (∀ a s', Q a s' → Q' a s') → runs_or T p s Q'.
Proof. intros [H|H] Hi; [left; by eapply runs_mono|by right]. Qed.
Lemma runs_or_bind {S A B} T (p : prog S A) (k : A → prog S B) s (Q : B → S → Prop) :
  runs_or T p s (λ a s', runs_or T (k a) s' Q) → runs_or T (p ≫= k) s Q.
Proof.
  intros [(a & s' & E & H)|[E HT]]; [|right; split; [|done]; unfold mbind, prog_bind; by rewrite E].
  unfold runs_or, runs. by rewrite (bind_unfold _ _ _ _ _ E).
Qed.
Lemma runs_or_after {S A B} T (p : prog S A) (k : A → prog S B) s a s' (Q : B → S → Prop) : p s = Ret (a, s') → runs_or T (k a) s' Q → runs_or T (p ≫= k) s Q.
Proof. intros E H. apply runs_or_bind. left. by exists a, s'. Qed.
(** A measure that each round decreases and that is less than the number of rounds. *)
Lemma loop_runs_or {S A} T (body : prog S (option A)) (I : S → Prop) (M : S → Z) (Q : A → S → Prop) :
  (∀ s, I s → runs_or T body s (λ r s', match r with Some a => Q a s' | None => I s' ∧ 0 ≤ M s' < M s end)) →
  ∀ k s, I s → runs_or T (loop k body) s (λ r s', match r with Some a => Q a s' | None => I s' ∧ 0 ≤ M s' ∧ M s' + 2 ^ Z.of_nat k ≤ M s end).
Proof.
  intros Hbody. induction k as [|k IH]; intros s Hs; cbn [loop].
  - eapply runs_or_mono; [by apply Hbody|]. cbn beta. intros [a|] s'; [done|]. intros [H1 H2]. split_and!; [done|lia|cbn; lia].
  - apply runs_or_bind. eapply runs_or_mono; [by apply IH|]. cbn beta. intros [a|] s1; [intros HQ; left; by apply runs_ret|]. intros (H1 & H2 & H3).
    eapply runs_or_mono; [by apply IH|]. cbn beta. intros [a|] s2; [done|]. intros (H4 & H5 & H6). split_and!; [done|done|].
    rewrite Nat2Z.inj_succ, Z.pow_succ_r by lia. lia.
Qed.
Lemma forever_runs_or {S A} T (body : prog S (option A)) (I : S → Prop) (M : S → Z) k s (Q : A → S → Prop) :
  (∀ s, I s → runs_or T body s (λ r s', match r with Some a => Q a s' | None => I s' ∧ 0 ≤ M s' < M s end)) →
  I s → M s < 2 ^ Z.of_nat k → runs_or T (forever k body) s Q.
Proof.
  intros Hbody Hs HM. unfold forever. apply runs_or_bind. eapply runs_or_mono; [by apply (loop_runs_or T body I M Q Hbody k)|]. cbn beta.
  intros [a|] s'; [intros HQ; left; by apply runs_ret|]. intros (_ & H1 & H2). lia.
Qed.

Lemma forever_runs {S A} (body : prog S (option A)) (I : S → Prop) (M : S → Z) k s (Q : A → S → Prop) :
  (∀ s, I s → runs body s (λ r s', match r with Some a => Q a s' | None => I s' ∧ 0 ≤ M s' < M s end)) →
  I s → M s < 2 ^ Z.of_nat k → runs (forever k body) s Q.
Proof. intros Hbody Hs HM. destruct (forever_runs_or False body I M k s Q) as [H|[_ []]]; [|done..]. intros s' Hs'. left. by apply Hbody. Qed.

Lemma forever_undef {S A} (body : prog S (option A)) k s : body s = Undef → forever k body s = Undef.
Proof.
  intros E. assert (loop k body s = Undef) as H. { induction k as [|k IH]; [done|]. cbn [loop]. unfold mbind, prog_bind. by rewrite IH. }
  unfold forever, mbind, prog_bind. by rewrite H.
Qed.

(** A loop that ends in its first or its second round. *)
Lemma loop_once {S A} (body : prog S (option A)) k s a s' : body s = Ret (Some a, s') → loop k body s = Ret (Some a, s').
Proof. intros E. induction k as [|k IH]; [done|]. cbn [loop]. by rewrite (bind_unfold _ _ _ _ _ IH). Qed.
Lemma loop_twice {S A} (body : prog S (option A)) k s s1 a s2 : body s = Ret (None, s1) → body s1 = Ret (Some a, s2) → loop (Datatypes.S k) body s = Ret (Some a, s2).
Proof.
  intros E1 E2. induction k as [|k IH].
  - cbn [loop]. rewrite (bind_unfold _ _ _ _ _ E1). done.
  - change (loop (Datatypes.S (Datatypes.S k)) body) with (r ← loop (Datatypes.S k) body; match r with Some a => mret (Some a) | None => loop (Datatypes.S k) body end). by rewrite (bind_unfold _ _ _ _ _ IH).
Qed.
Lemma forever_two {S A} (body : prog S (option A)) k s (Q : A → S → Prop) :
  runs body s (λ r s1, match r with Some a => Q a s1 | None => runs body s1 (λ r s2, match r with Some a => Q a s2 | None => False end) end) → runs (forever (Datatypes.S k) body) s Q.
Proof.
  intros (r & s1 & E1 & H1). unfold forever. apply runs_bind. destruct r as [a|].
  - exists (Some a), s1. split; [by apply loop_once|]. by apply runs_ret.
  - destruct H1 as (r & s2 & E2 & H2). destruct r as [a|]; [|done]. exists (Some a), s2. split; [by eapply loop_twice|]. by apply runs_ret.
Qed.

End Prog.
