(* ===== verification/OverlayQueue.v ===== *)
(** * The queues of outgoing frames (overlay_queue.c)

    Frames wait in one of five queues, linked through their own fields, until they
    are written into a packet for one of their destinations, acknowledged, or too
    old. Destinations are shared and counted. From route_link.c the file has the
    references to destinations and the choice of destinations for a frame; from
    overlay_payload.c the release of a frame. *)

From S2P Require Import Prelude Mem Prog OverlayBuffer OverlayBufferSpec OverlayBufferCodec Limit OverlayAddress OverlayAddressCodec LinkWindow OverlayFrame FdQueue.
Import Prog OB Limit OverlayAddress OverlayAddressCodec LinkWindow OverlayFrame.

Module OverlayQueue.
Section Queues.
Context {arch : Arch} {allocator : Allocator}.

Definition OQ_ISOCHRONOUS_VOICE : nat := 0.
Definition OQ_ISOCHRONOUS_VIDEO : nat := 2.
Definition OQ_OPPORTUNISTIC : nat := 4.
Definition OQ_MAX : nat := 5.
Definition OVERLAY_MAX_INTERFACES : nat := 16.
Definition MAX_PACKET_DESTINATIONS : Z := 16.
Definition INTERFACE_STATE_UP : Z := 1.
Definition SMALL_PACKET_SIZE : Z := 400.
Definition REACHABLE_NONE : Z := 0.
Definition REACHABLE_DIRECT : Z := Z.lor (Z.shiftl 1 1) (Z.shiftl 1 2).
Definition REACHABLE_INDIRECT : Z := Z.shiftl 1 3.
Definition REACHABLE : Z := Z.lor REACHABLE_DIRECT REACHABLE_INDIRECT.

(** ** State *)

(** overlay_interface.h: struct network_destination; of its [ifconfig] the fields
    that sending uses. The interface is its index in [overlay_interfaces]. *)
Record network_destination := Dest {
  _ref_count : Z;
  d_interface : option nat;
  d_unicast : bool;
  send : bool;
  mtu : Z;
  transmit_timeout_ms : Z;
  d_encapsulation : Z;
  min_rtt : Z;
  max_rtt : Z;
  resend_delay : Z;
  sequence_number : Z;
  transfer_limit : limit_state;
}.

(** struct overlay_interface: its state, whether its radio link has a packet to
    send, and what packets need to know of it. *)
Record link_interface := LinkInterface { state : Z; tx_packet : bool; if_packet : overlay_interface }.

(** overlay_packet.h: struct packet_destination. *)
Record packet_destination := PacketDest {
  sent_sequence : Z;
  transmit_time : Z;
  pd_destination : option nat;
  next_hop : option nat;
}.

(** overlay_packet.h: struct overlay_frame, with the fields of [OverlayFrame] in
    [fr]. The array of destinations has sixteen slots, of which the first
    [destination_count] are in use; [send_hook] names a function and its context. *)
Record queued := Queued {
  prev : option nat;
  next : option nat;
  enqueued_at : Z;
  fr : overlay_frame;
  resend : Z;
  send_hook : option nat;
  delay_until : Z;
  destinations : list packet_destination;
  destination_count : Z;
  manual_destinations : bool;
  transmit_count : Z;
  fr_source_full : bool;
}.

Record overlay_txqueue := TxQueue {
  q_first : option nat;
  q_last : option nat;
  q_length : Z;
  maxLength : Z;
  small_packet_grace_interval : Z;
  latencyTarget : Z;
}.

Record outgoing_packet := Outgoing {
  p_destination : option nat;
  packet_seq : Z;
  p_version : Z;
  header_length : Z;
  p_buffer : option overlay_buffer;
  p_context : decode_context;
}.

(** The routes of a subscriber, and the links out to a neighbour (a list of
    timeouts and destinations). *)
Record route := Route { r_next_hop : option nat; r_destination : option nat }.
Record out_neighbour := OutNeighbour { on_subscriber : nat; out_links : list (Z * nat) }.

(** The frames, destinations, interfaces and subscribers in memory; the variables
    of overlay_queue.c; the scheduler; the packet under construction; and the number
    of times the clock has been read. *)
Record qstate := QState {
  q_mem : mem;
  q_ss : store;
  q_routes : list route;
  q_neighbours : list out_neighbour;
  q_frames : gmap nat queued;
  q_tx : list overlay_txqueue;
  q_dests : gmap nat network_destination;
  q_interfaces : list link_interface;
  q_sequence : Z;
  q_sched : FdQueue.queue;
  q_packet : outgoing_packet;
  voice_timeout : Z;
  q_ticks : nat;
}.
Abbreviation code := (prog qstate).

Definition set_qmem (m : mem) (st : qstate) : qstate :=
  QState m (q_ss st) (q_routes st) (q_neighbours st) (q_frames st) (q_tx st) (q_dests st) (q_interfaces st) (q_sequence st) (q_sched st) (q_packet st) (voice_timeout st) (q_ticks st).
Definition set_qss (ss : store) (st : qstate) : qstate :=
  QState (q_mem st) ss (q_routes st) (q_neighbours st) (q_frames st) (q_tx st) (q_dests st) (q_interfaces st) (q_sequence st) (q_sched st) (q_packet st) (voice_timeout st) (q_ticks st).
Definition set_frames (g : gmap nat queued) (st : qstate) : qstate :=
  QState (q_mem st) (q_ss st) (q_routes st) (q_neighbours st) g (q_tx st) (q_dests st) (q_interfaces st) (q_sequence st) (q_sched st) (q_packet st) (voice_timeout st) (q_ticks st).
Definition set_tx (l : list overlay_txqueue) (st : qstate) : qstate :=
  QState (q_mem st) (q_ss st) (q_routes st) (q_neighbours st) (q_frames st) l (q_dests st) (q_interfaces st) (q_sequence st) (q_sched st) (q_packet st) (voice_timeout st) (q_ticks st).
Definition set_dests (g : gmap nat network_destination) (st : qstate) : qstate :=
  QState (q_mem st) (q_ss st) (q_routes st) (q_neighbours st) (q_frames st) (q_tx st) g (q_interfaces st) (q_sequence st) (q_sched st) (q_packet st) (voice_timeout st) (q_ticks st).
Definition set_sequence (n : Z) (st : qstate) : qstate :=
  QState (q_mem st) (q_ss st) (q_routes st) (q_neighbours st) (q_frames st) (q_tx st) (q_dests st) (q_interfaces st) n (q_sched st) (q_packet st) (voice_timeout st) (q_ticks st).
Definition set_sched (s : FdQueue.queue) (st : qstate) : qstate :=
  QState (q_mem st) (q_ss st) (q_routes st) (q_neighbours st) (q_frames st) (q_tx st) (q_dests st) (q_interfaces st) (q_sequence st) s (q_packet st) (voice_timeout st) (q_ticks st).
Definition set_packet (p : outgoing_packet) (st : qstate) : qstate :=
  QState (q_mem st) (q_ss st) (q_routes st) (q_neighbours st) (q_frames st) (q_tx st) (q_dests st) (q_interfaces st) (q_sequence st) (q_sched st) p (voice_timeout st) (q_ticks st).
Definition set_voice (t : Z) (st : qstate) : qstate :=
  QState (q_mem st) (q_ss st) (q_routes st) (q_neighbours st) (q_frames st) (q_tx st) (q_dests st) (q_interfaces st) (q_sequence st) (q_sched st) (q_packet st) t (q_ticks st).
Definition tick (st : qstate) : qstate :=
  QState (q_mem st) (q_ss st) (q_routes st) (q_neighbours st) (q_frames st) (q_tx st) (q_dests st) (q_interfaces st) (q_sequence st) (q_sched st) (q_packet st) (voice_timeout st) (S (q_ticks st)).

Definition set_prev (v : option nat) (f : queued) : queued :=
  Queued v (next f) (enqueued_at f) (fr f) (resend f) (send_hook f) (delay_until f) (destinations f) (destination_count f) (manual_destinations f) (transmit_count f) (fr_source_full f).
Definition set_next (v : option nat) (f : queued) : queued :=
  Queued (prev f) v (enqueued_at f) (fr f) (resend f) (send_hook f) (delay_until f) (destinations f) (destination_count f) (manual_destinations f) (transmit_count f) (fr_source_full f).
Definition set_enqueued_at (v : Z) (f : queued) : queued :=
  Queued (prev f) (next f) v (fr f) (resend f) (send_hook f) (delay_until f) (destinations f) (destination_count f) (manual_destinations f) (transmit_count f) (fr_source_full f).
Definition set_fr (v : overlay_frame) (f : queued) : queued :=
  Queued (prev f) (next f) (enqueued_at f) v (resend f) (send_hook f) (delay_until f) (destinations f) (destination_count f) (manual_destinations f) (transmit_count f) (fr_source_full f).
Definition set_resend (v : Z) (f : queued) : queued :=
  Queued (prev f) (next f) (enqueued_at f) (fr f) v (send_hook f) (delay_until f) (destinations f) (destination_count f) (manual_destinations f) (transmit_count f) (fr_source_full f).
Definition set_delay_until (v : Z) (f : queued) : queued :=
  Queued (prev f) (next f) (enqueued_at f) (fr f) (resend f) (send_hook f) v (destinations f) (destination_count f) (manual_destinations f) (transmit_count f) (fr_source_full f).
Definition set_destinations (v : list packet_destination) (n : Z) (f : queued) : queued :=
  Queued (prev f) (next f) (enqueued_at f) (fr f) (resend f) (send_hook f) (delay_until f) v n (manual_destinations f) (transmit_count f) (fr_source_full f).
Definition set_manual (v : bool) (f : queued) : queued :=
  Queued (prev f) (next f) (enqueued_at f) (fr f) (resend f) (send_hook f) (delay_until f) (destinations f) (destination_count f) v (transmit_count f) (fr_source_full f).
Definition set_transmit_count (v : Z) (f : queued) : queued :=
  Queued (prev f) (next f) (enqueued_at f) (fr f) (resend f) (send_hook f) (delay_until f) (destinations f) (destination_count f) (manual_destinations f) v (fr_source_full f).
Definition with_version (v : Z) (f : overlay_frame) : overlay_frame :=
  Frame (f_type f) (modifiers f) (ttl f) (queue f) (mdp_sequence f) (f_source f) (f_destination f) (broadcast_id f) v (f_payload f).
Definition with_sequence (v : Z) (f : overlay_frame) : overlay_frame :=
  Frame (f_type f) (modifiers f) (ttl f) (queue f) v (f_source f) (f_destination f) (broadcast_id f) (f_packet_version f) (f_payload f).

Definition set_first (v : option nat) (q : overlay_txqueue) : overlay_txqueue :=
  TxQueue v (q_last q) (q_length q) (maxLength q) (small_packet_grace_interval q) (latencyTarget q).
Definition set_last (v : option nat) (q : overlay_txqueue) : overlay_txqueue :=
  TxQueue (q_first q) v (q_length q) (maxLength q) (small_packet_grace_interval q) (latencyTarget q).
Definition set_qlength (v : Z) (q : overlay_txqueue) : overlay_txqueue :=
  TxQueue (q_first q) (q_last q) v (maxLength q) (small_packet_grace_interval q) (latencyTarget q).
Definition set_limits (m l g : Z) (q : overlay_txqueue) : overlay_txqueue :=
  TxQueue (q_first q) (q_last q) (q_length q) m g l.

Definition set_refs (v : Z) (d : network_destination) : network_destination :=
  Dest v (d_interface d) (d_unicast d) (send d) (mtu d) (transmit_timeout_ms d) (d_encapsulation d) (min_rtt d) (max_rtt d) (resend_delay d) (sequence_number d) (transfer_limit d).
Definition set_rtt (mn mx delay : Z) (d : network_destination) : network_destination :=
  Dest (_ref_count d) (d_interface d) (d_unicast d) (send d) (mtu d) (transmit_timeout_ms d) (d_encapsulation d) mn mx delay (sequence_number d) (transfer_limit d).
Definition set_seqno (v : Z) (d : network_destination) : network_destination :=
  Dest (_ref_count d) (d_interface d) (d_unicast d) (send d) (mtu d) (transmit_timeout_ms d) (d_encapsulation d) (min_rtt d) (max_rtt d) (resend_delay d) v (transfer_limit d).
Definition set_limit (v : limit_state) (d : network_destination) : network_destination :=
  Dest (_ref_count d) (d_interface d) (d_unicast d) (send d) (mtu d) (transmit_timeout_ms d) (d_encapsulation d) (min_rtt d) (max_rtt d) (resend_delay d) (sequence_number d) v.

(** Following a pointer, and writing through it. *)
Definition the_frame (a : nat) : code queued := λ st, match q_frames st !! a with Some f => Ret (f, st) | None => Undef end.
Definition upd_frame (a : nat) (g : queued → queued) : code unit := λ st,
  match q_frames st !! a with Some f => Ret (tt, set_frames (<[a := g f]> (q_frames st)) st) | None => Undef end.
Definition the_dest (d : nat) : code network_destination := λ st, match q_dests st !! d with Some x => Ret (x, st) | None => Undef end.
Definition upd_dest (d : nat) (g : network_destination → network_destination) : code unit := λ st,
  match q_dests st !! d with Some x => Ret (tt, set_dests (<[d := g x]> (q_dests st)) st) | None => Undef end.
Definition the_queue (i : nat) : code overlay_txqueue := λ st, match q_tx st !! i with Some q => Ret (q, st) | None => Undef end.
Definition upd_queue (i : nat) (g : overlay_txqueue → overlay_txqueue) : code unit := λ st,
  match q_tx st !! i with Some q => Ret (tt, set_tx (<[i := g q]> (q_tx st)) st) | None => Undef end.
Definition the_interface (i : nat) : code link_interface := λ st, match q_interfaces st !! i with Some x => Ret (x, st) | None => Undef end.
Definition the_subscriber (s : nat) : code subscriber := λ st, match q_ss st !! s with Some x => Ret (x, st) | None => Undef end.
Definition the_route (s : nat) : code route := λ st, match q_routes st !! s with Some x => Ret (x, st) | None => Undef end.
(** A pointer that is dereferenced. *)
Definition deref {A} (p : option A) : code A := match p with Some a => mret a | None => undefined end.
(** [frame->destinations[i]]. *)
Definition slot_of (f : queued) (i : Z) : code packet_destination :=
  if 0 <=? i then deref (destinations f !! Z.to_nat i) else undefined.
Definition put_slot (a : nat) (i : Z) (v : packet_destination) : code unit :=
  f ← the_frame a;
  if (0 <=? i) && (i <? MAX_PACKET_DESTINATIONS)
  then upd_frame a (λ f, set_destinations (<[Z.to_nat i := v]> (destinations f)) (destination_count f) f) else undefined.

Variable gettime_ms : nat → Z.
Definition gettime : code Z := λ st, Ret (gettime_ms (q_ticks st), tick st).

(** ** References to destinations *)

Definition add_destination_ref (d : nat) : code nat := upd_dest d (λ x, set_refs (_ref_count x + 1) x);; mret d.
Definition release_destination_ref (d : nat) : code unit :=
  x ← the_dest d;
  if _ref_count x <=? 1 then change (λ st, set_dests (delete d (q_dests st)) st)
  else upd_dest d (set_refs (_ref_count x - 1)).

Definition frame_remove_destination (a : nat) (i : Z) : code unit :=
  f ← the_frame a;
  s ← slot_of f i;
  d ← deref (pd_destination s);
  release_destination_ref d;;
  upd_frame a (λ f, set_destinations (destinations f) (destination_count f - 1) f);;
  f ← the_frame a;
  if i <? destination_count f then s ← slot_of f (destination_count f); put_slot a i s else mret tt.

(** The new slot keeps the [transmit_time] it had. *)
Definition frame_add_destination (a : nat) (next : option nat) (dest : nat) : code unit :=
  x ← the_dest dest;
  f ← the_frame a;
  if negb (send x) || (MAX_PACKET_DESTINATIONS <=? destination_count f) then mret tt
  else
    let i := destination_count f in
    upd_frame a (λ f, set_destinations (destinations f) (destination_count f + 1) f);;
    s ← slot_of f i;
    d ← add_destination_ref dest;
    put_slot a i (PacketDest (-1) (transmit_time s) (Some d) next).

(** ** Queues *)

Definition overlay_queue_init (l : list overlay_txqueue) : list overlay_txqueue :=
  let l := set_limits 100 0 5 <$> l in
  let l := alter (λ q, set_limits 20 200 (small_packet_grace_interval q) q) OQ_ISOCHRONOUS_VOICE l in
  let l := alter (λ q, set_limits (maxLength q) 200 (small_packet_grace_interval q) q) OQ_ISOCHRONOUS_VIDEO l in
  alter (λ q, set_limits (maxLength q) (latencyTarget q) 100 q) OQ_OPPORTUNISTIC l.

(** overlay_payload.c: 0, or -1 for a frame that is still linked. *)
Definition still_linked (p : option nat) (link : queued → option nat) (a : nat) : code bool :=
  match p with Some b => g ← the_frame b; mret (bool_decide (link g = Some a)) | None => mret false end.
Definition free_frame (a : nat) : code Z :=
  f ← the_frame a;
  linked ← still_linked (prev f) next a;
  if (linked : bool) then mret (-1)
  else
    linked ← still_linked (next f) prev a;
    if (linked : bool) then mret (-1)
    else
      m ← ask q_mem;
      m ← (match f_payload (fr f) with Some b => lift (ob_free m b) | None => mret m end);
      change (λ st, set_frames (delete a (q_frames st)) (set_qmem m st));;
      mret 0.

(** [while(frame->destination_count>0)] *)
Fixpoint release_all (n : nat) (a : nat) : code unit :=
  match n with
  | O => mret tt
  | S n =>
      upd_frame a (λ f, set_destinations (destinations f) (destination_count f - 1) f);;
      f ← the_frame a;
      s ← slot_of f (destination_count f);
      d ← deref (pd_destination s);
      release_destination_ref d;;
      release_all n a
  end.

(** The frame [a] is taken out from between [p] and [n]. *)
Definition unlink (i a : nat) (p n : option nat) : code unit :=
  (match p with
   | Some p => upd_frame p (set_next n)
   | None => q ← the_queue i; if bool_decide (q_first q = Some a) then upd_queue i (set_first n) else mret tt
   end);;
  (match n with
   | Some n => upd_frame n (set_prev p)
   | None => q ← the_queue i; if bool_decide (q_last q = Some a) then upd_queue i (set_last p) else mret tt
   end);;
  upd_queue i (λ q, set_qlength (q_length q - 1) q).

Definition overlay_queue_remove (i : nat) (a : nat) : code (option nat) :=
  f ← the_frame a;
  let p := prev f in
  let n := next f in
  unlink i a p n;;
  f ← the_frame a;
  release_all (Z.to_nat (destination_count f)) a;;
  free_frame a;;
  mret n.

Definition overlay_queue_remaining (queue : Z) : code Z :=
  if (queue <? 0) || (Z.of_nat OQ_MAX <=? queue) then mret (-1)
  else q ← the_queue (Z.to_nat queue); mret (maxLength q - q_length q).

(** ** The timer *)

(** [next_packet], and its function, in the scheduler. *)
Variables (next_packet : nat) (send_alarm : nat).

Definition set_function (v : nat) (e : FdQueue.sched_ent) : FdQueue.sched_ent :=
  FdQueue.Ent (FdQueue._next_wake e) (FdQueue._prev_wake e) (FdQueue._next_run e) (FdQueue._scheduled e) (Some v) (FdQueue.poll e)
    (FdQueue.run_after e) (FdQueue.wake_at e) (FdQueue.run_before e) (FdQueue.alarm e) (FdQueue.deadline e) (FdQueue._poll_index e).
Definition with_sched (g : FdQueue.queue → outcome FdQueue.queue) : code unit := λ st,
  s ← g (q_sched st); Ret (tt, set_sched s st).

(** The body of [overlay_queue_schedule_next]. *)
Definition schedule_next_packet (next_allowed_packet : Z) (s : FdQueue.queue) : outcome FdQueue.queue :=
  e ← FdQueue.ent s next_packet;
  if (FdQueue.alarm e =? 0) || (next_allowed_packet <? FdQueue.alarm e) then
    s ← (if bool_decide (FdQueue.function e = None) then FdQueue.upd s next_packet (set_function send_alarm) else Ret s);
    s ← FdQueue.unschedule s next_packet;
    s ← FdQueue.upd s next_packet (λ e, FdQueue.set_request (FdQueue.run_after e) next_allowed_packet (next_allowed_packet + 15) e);
    FdQueue.schedule s next_packet
  else Ret s.
Definition overlay_queue_schedule_next (next_allowed_packet : Z) : code unit := with_sched (schedule_next_packet next_allowed_packet).

(** [radio_link_is_busy(dest->interface)] *)
Definition radio_link_is_busy (x : network_destination) : code bool :=
  i ← deref (d_interface x);
  y ← the_interface i;
  mret (tx_packet y).

(** The loop of [overlay_calc_queue_time] over the destinations from [i] on. *)
Fixpoint next_allowed_loop (n : nat) (i : Z) (a : nat) (next_allowed_packet : Z) : code Z :=
  match n with
  | O => mret next_allowed_packet
  | S n =>
      f ← the_frame a;
      s ← slot_of f i;
      d ← deref (pd_destination s);
      x ← the_dest d;
      busy ← radio_link_is_busy x;
      if (busy : bool) then next_allowed_loop n (i + 1) a next_allowed_packet
      else
        now ← gettime;
        let r := limit_next_allowed (transfer_limit x) now in
        upd_dest d (set_limit r.1);;
        let t := if negb (transmit_time s =? 0) && (r.2 <? transmit_time s + resend_delay x)
                 then transmit_time s + resend_delay x else r.2 in
        next_allowed_loop n (i + 1) a (if (next_allowed_packet =? 0) || (t <? next_allowed_packet) then t else next_allowed_packet)
  end.

Definition overlay_calc_queue_time (a : nat) : code unit :=
  f ← the_frame a;
  t ← (if 0 <? destination_count f then
         t ← next_allowed_loop (Z.to_nat (destination_count f)) 0 a 0;
         mret (if t =? 0 then None else Some t)
       else mret (if bool_decide (f_destination (fr f) = None) then None else Some 0));
  match t with
  | None => mret tt
  | Some t =>
      let t := if t <? delay_until f then delay_until f else t in
      let t := if t <? enqueued_at f then enqueued_at f else t in
      pl ← deref (f_payload (fr f));
      t ← (if ob_position pl <? SMALL_PACKET_SIZE then
             q ← the_queue (Z.to_nat (queue (fr f)));
             let g := enqueued_at f + small_packet_grace_interval q in
             mret (if t <? g then g else t)
           else mret t);
      overlay_queue_schedule_next t
  end.

(** ** Destinations of a frame (route_link.c) *)

Variable directory_service : option nat.
(** overlay_link.c: a new destination from the configured address, or NULL. *)
Variable load_subscriber_address : nat → code (option nat).

(** The walk over the links out to a neighbour; [bounded]: with the check of
    [destination_count]. *)
Fixpoint add_links (a : nat) (next : option nat) (now : Z) (bounded : bool) (l : list (Z * nat)) : code unit :=
  match l with
  | [] => mret tt
  | (timeout, d) :: l =>
      f ← the_frame a;
      (if (now <=? timeout) && (negb bounded || (destination_count f <? MAX_PACKET_DESTINATIONS))
       then frame_add_destination a next d else mret tt);;
      add_links a next now bounded l
  end.

(** [for (i=frame->destination_count;i>0;i--)]: true when the frame is already
    going to [dest]. *)
Fixpoint drop_stale (n : nat) (a : nat) (dest : option nat) : code bool :=
  match n with
  | O => mret false
  | S i =>
      f ← the_frame a;
      s ← slot_of f (Z.of_nat i);
      if bool_decide (pd_destination s = dest) then mret true
      else frame_remove_destination a (Z.of_nat i);; drop_stale i a dest
  end.

Definition directory_hop (d : nat) : code nat :=
  x ← the_subscriber d;
  match directory_service with
  | Some s =>
      if (reachable x =? REACHABLE_NONE) && negb (bool_decide (d = s))
      then y ← the_subscriber s; mret (if on (reachable y) REACHABLE then s else d)
      else mret d
  | None => mret d
  end.

Definition unicast_destinations (a d : nat) : code unit :=
  hop ← directory_hop d;
  x ← the_subscriber hop;
  f ← the_frame a;
  (if (reachable x =? REACHABLE_NONE) && (destination_count f =? 0) then
     ns ← ask q_neighbours;
     match list_find (λ n, on_subscriber n = d) ns with
     | Some (_, n) => now ← gettime; add_links a (Some hop) now true (out_links n)
     | None => mret tt
     end
   else mret tt);;
  f ← the_frame a;
  (if (reachable x =? REACHABLE_NONE) && (destination_count f =? 0) then
     dest ← load_subscriber_address d;
     match dest with
     | Some dest => frame_add_destination a (Some hop) dest;; release_destination_ref dest
     | None => mret tt
     end
   else mret tt);;
  hop ← (if Z.land (reachable x) REACHABLE =? REACHABLE_INDIRECT then r ← the_route hop; deref (r_next_hop r) else mret hop);
  x ← the_subscriber hop;
  if on (reachable x) REACHABLE_DIRECT then
    r ← the_route hop;
    f ← the_frame a;
    same ← drop_stale (Z.to_nat (destination_count f)) a (r_destination r);
    if (same : bool) then mret tt
    else dest ← deref (r_destination r); frame_add_destination a (Some hop) dest
  else mret tt.

(** [added] marks the interfaces that already have the broadcast. *)
Fixpoint broadcast_destinations (a : nat) (added : list bool) (ns : list out_neighbour) : code unit :=
  match ns with
  | [] => mret tt
  | n :: ns =>
      x ← the_subscriber (on_subscriber n);
      if on (reachable x) REACHABLE_DIRECT then
        r ← the_route (on_subscriber n);
        dest ← deref (r_destination r);
        f ← the_frame a;
        (if max_packet_version x <? f_packet_version (fr f)
         then upd_frame a (λ f, set_fr (with_version (max_packet_version x) (fr f)) f) else mret tt);;
        y ← the_dest dest;
        if negb (d_unicast y) then
          id ← deref (d_interface y);
          was ← deref (added !! id);
          if (was : bool) then broadcast_destinations a added ns
          else frame_add_destination a None dest;; broadcast_destinations a (<[id := true]> added) ns
        else frame_add_destination a None dest;; broadcast_destinations a added ns
      else if negb (on (reachable x) REACHABLE) then
        now ← gettime;
        add_links a None now false (out_links n);;
        broadcast_destinations a added ns
      else broadcast_destinations a added ns
  end.

Definition link_add_destinations (a : nat) : code unit :=
  f ← the_frame a;
  match f_destination (fr f) with
  | Some d => unicast_destinations a d
  | None =>
      if destination_count f =? 0
      then ns ← ask q_neighbours; broadcast_destinations a (replicate OVERLAY_MAX_INTERFACES false) ns
      else mret tt
  end.

(** ** Queueing *)

(** overlay_olsr.c: the hook for broadcasts. *)
Variable olsr_send : nat → code unit.

(** [for (i=0;i<p->destination_count;i++) p->destinations[i].sent_sequence=-1] *)
Fixpoint clear_sent (n : nat) (a : nat) : code unit :=
  match n with
  | O => mret tt
  | S i =>
      clear_sent i a;;
      f ← the_frame a;
      s ← slot_of f (Z.of_nat i);
      put_slot a (Z.of_nat i) (PacketDest (-1) (transmit_time s) (pd_destination s) (next_hop s))
  end.

(** The frame goes to the end of its queue. *)
Definition append_frame_to (i : nat) (a : nat) : code unit :=
  q ← the_queue i;
  (match q_last q with Some l => upd_frame l (set_next (Some a)) | None => mret tt end);;
  upd_frame a (set_prev (q_last q));;
  upd_frame a (set_next None);;
  now ← gettime;
  upd_frame a (set_enqueued_at now);;
  upd_frame a (λ f, set_fr (with_sequence (-1) (fr f)) f);;
  upd_queue i (set_last (Some a));;
  q ← the_queue i;
  (if bool_decide (q_first q = None) then upd_queue i (set_first (Some a)) else mret tt);;
  upd_queue i (λ q, set_qlength (q_length q + 1) q);;
  (if bool_decide (i = OQ_ISOCHRONOUS_VOICE) then now ← gettime; change (set_voice (now + 1000)) else mret tt).

Definition overlay_payload_enqueue (a : nat) : code Z :=
  f ← the_frame a;
  if negb (queue (fr f) <? Z.of_nat OQ_MAX) then aborted
  else
    match f_payload (fr f) with
    | None => aborted
    | Some pl =>
        let i := Z.to_nat (queue (fr f)) in
        q ← the_queue i;
        if ob_overrun pl then mret (-1)
        else if MDP_MTU <=? ob_position pl then aborted
        else if maxLength q <=? q_length q then mret (-1)
        else
          (if f_packet_version (fr f) <=? 0 then upd_frame a (λ f, set_fr (with_version 1 (fr f)) f) else mret tt);;
          (if destination_count f =? 0 then
             if bool_decide (f_destination (fr f) = None) then olsr_send a;; link_add_destinations a else mret tt
           else upd_frame a (set_manual true));;
          f' ← the_frame a;
          if (destination_count f =? 0) && bool_decide (f_destination (fr f) = None) && (destination_count f' =? 0)
          then free_frame a;; mret 0
          else
            (if (destination_count f =? 0) && (resend f' =? 0) then upd_frame a (set_resend 1) else mret tt);;
            clear_sent (Z.to_nat (destination_count f')) a;;
            append_frame_to i a;;
            overlay_calc_queue_time a;;
            mret 0
    end.

(** ** Packets *)

Variable my_subscriber : option nat.

Definition set_p (g : outgoing_packet → outgoing_packet) : code unit := change (λ st, set_packet (g (q_packet st)) st).
Definition p_interface (i : overlay_interface) (p : outgoing_packet) : outgoing_packet :=
  Outgoing (p_destination p) (packet_seq p) (p_version p) (header_length p) (p_buffer p) (set_interface (p_context p) (Some i)).
Definition p_dest (v : Z) (d : nat) (p : outgoing_packet) : outgoing_packet :=
  Outgoing (Some d) (packet_seq p) v (header_length p) (p_buffer p) (set_packet_version (p_context p) v).
Definition p_seq (n : Z) (p : outgoing_packet) : outgoing_packet :=
  Outgoing (p_destination p) n (p_version p) (header_length p) (p_buffer p) (p_context p).
Definition p_buf (b : option overlay_buffer) (p : outgoing_packet) : outgoing_packet :=
  Outgoing (p_destination p) (packet_seq p) (p_version p) (header_length p) b (p_context p).
Definition p_header (n : Z) (p : outgoing_packet) : outgoing_packet :=
  Outgoing (p_destination p) (packet_seq p) (p_version p) n (p_buffer p) (p_context p).

(** Calls of the functions that write packets, on the packet's context and buffer. *)
Definition tx_of (b : overlay_buffer) (st : qstate) : tx := Tx (p_context (q_packet st)) (q_mem st) b (q_ss st).
Definition tx_done (t : tx) (st : qstate) : qstate :=
  let p := q_packet st in
  set_packet (Outgoing (p_destination p) (packet_seq p) (p_version p) (header_length p) (Some (tx_b t)) (tx_c t)) (set_qss (tx_ss t) (set_qmem (tx_m t) st)).
Definition with_tx (b : overlay_buffer) (g : tx → outcome (tx * Z)) : code Z := λ st,
  r ← g (tx_of b st); Ret (r.2, tx_done r.1 st).

(** The index of the interface is passed as a [char]. *)
Definition overlay_init_packet (packet_version : Z) (dest : nat) : code Z :=
  x ← the_dest dest;
  i ← deref (d_interface x);
  y ← the_interface i;
  set_p (p_interface (if_packet y));;
  m ← ask q_mem;
  match ob_new m with
  | None => set_p (p_buf None);; mret (-1)
  | Some b =>
      set_p (p_buf (Some b));;
      set_p (p_dest packet_version dest);;
      add_destination_ref dest;;
      (if sequence_number x <? 0 then set_p (p_seq (-1))
       else
         let n := Z.land (sequence_number x + 1) 0xFFFF in
         upd_dest dest (set_seqno n);; set_p (p_seq n));;
      b ← lift (ob_limitsize b (wrapu size_bits (mtu x)));
      s ← ask (λ st, packet_seq (q_packet st));
      r ← with_tx b (λ t, overlay_packet_init_header my_subscriber packet_version (d_encapsulation x) t (d_unicast x) (i8 (Z.of_nat i)) s);
      p ← ask q_packet;
      b ← deref (p_buffer p);
      if r =? -1 then
        m ← ask q_mem;
        m ← lift (ob_free m b);
        change (set_qmem m);;
        set_p (p_buf None);;
        mret (-1)
      else set_p (p_header (ob_position b));; mret 0
  end.

(** A packet is started for the destination [d] of the frame, in its slot [i], unless
    the interface is busy or the limit of the destination is reached. *)
Definition start_packet (a : nat) (i : Z) (s : packet_destination) (f : queued) (d : nat) (x : network_destination) : code (option bool) :=
  busy ← radio_link_is_busy x;
  if (busy : bool) then mret (Some false)
  else
    t ← gettime;
    let r := limit_is_allowed (transfer_limit x) t in
    upd_dest d (set_limit r.1);;
    if negb (r.2 =? 0) then mret (Some false)
    else
      (if fr_source_full f then
         me ← deref my_subscriber;
         z ← the_subscriber me;
         change (λ st, set_qss (<[me := set_send_full z true]> (q_ss st)) st)
       else mret tt);;
      r ← overlay_init_packet (f_packet_version (fr f)) d;
      if negb (r =? -1) then
        x ← the_dest d;
        put_slot a i (PacketDest (sequence_number x) (transmit_time s) (Some d) (next_hop s));;
        mret (Some true)
      else mret (Some false).

(** Whether [frame->destinations[i]] can be sent to, in the loop that looks for a
    destination: [Some true] ends the loop, [Some false] goes on, [None] goes on
    after taking the destination away. *)
Definition check_destination (a : nat) (i : Z) (now : Z) : code (option bool) :=
  f ← the_frame a;
  s ← slot_of f i;
  match pd_destination s with
  | None => aborted
  | Some d =>
      x ← the_dest d;
      match d_interface x with
      | None => aborted
      | Some j =>
          y ← the_interface j;
          late ← (if negb (state y =? INTERFACE_STATE_UP) || (enqueued_at f + transmit_timeout_ms x <? now) then mret true
                  else pl ← deref (f_payload (fr f)); mret (u32 (mtu x) <? ob_position pl));
          if (late : bool) then mret None
          else
            (match next_hop s with
             | Some h =>
                 z ← the_subscriber h;
                 if max_packet_version z <? f_packet_version (fr f)
                 then upd_frame a (λ f, set_fr (with_version (max_packet_version z) (fr f)) f) else mret tt
             | None => mret tt
             end);;
            if negb (transmit_time s =? 0) && (now <? transmit_time s + resend_delay x) then mret (Some false)
            else
              f ← the_frame a;
              p ← ask q_packet;
              match p_buffer p with
              | Some _ => mret (Some ((f_packet_version (fr f) =? p_version p) && bool_decide (p_destination p = Some d)))
              | None => start_packet a i s f d x
              end
      end
  end.

(** [for (i=frame->destination_count -1;i>=0;i--)] *)
Fixpoint pick_destination (n : nat) (a : nat) (now : Z) : code Z :=
  match n with
  | O => mret (-1)
  | S i =>
      r ← check_destination a (Z.of_nat i) now;
      match r with
      | Some true => mret (Z.of_nat i)
      | Some false => pick_destination i a now
      | None => frame_remove_destination a (Z.of_nat i);; pick_destination i a now
      end
  end.

(** [frame->send_hook] with its context. *)
Variable call_hook : nat → nat → option nat → Z → code Z.

Inductive verdict := Remove | Skip.

(** The frame is written for the destination at [index]. *)
Definition transmit (a : nat) (now index : Z) : code verdict :=
  f ← the_frame a;
  p ← ask q_packet;
  drop ← (match send_hook f with
          | Some h => r ← call_hook h a (p_destination p) (packet_seq p); mret (negb (r =? 0))
          | None => mret false
          end);
  if (drop : bool) then mret Remove
  else
    f ← the_frame a;
    (if mdp_sequence (fr f) =? -1 then
       change (λ st, set_sequence (Z.land (q_sequence st + 1) 0xFFFF) st);;
       n ← ask q_sequence;
       upd_frame a (λ f, set_fr (with_sequence n (fr f)) f)
     else mret tt);;
    f ← the_frame a;
    p ← ask q_packet;
    let will_retransmit := negb ((f_packet_version (fr f) <? 1) || (resend f <=? 0) || (packet_seq p =? -1)) in
    s ← slot_of f index;
    d ← deref (p_destination p);
    x ← the_dest d;
    b ← deref (p_buffer p);
    r ← with_tx b (λ t, overlay_frame_append_payload my_subscriber (d_encapsulation x) t (fr f) (next_hop s) will_retransmit);
    if negb (r =? 0) then upd_frame a (set_delay_until (now + 5));; mret Skip
    else
      upd_frame a (λ f, set_transmit_count (transmit_count f + 1) f);;
      d ← deref (pd_destination s);
      x ← the_dest d;
      put_slot a index (PacketDest (sequence_number x) now (Some d) (next_hop s));;
      if will_retransmit then mret Skip
      else
        frame_remove_destination a index;;
        f ← the_frame a;
        mret (if destination_count f =? 0 then Remove else Skip).

(** One round of the loop of [overlay_stuff_packet], up to the removal of the frame
    or the label [skip]. *)
Definition consider (i : nat) (now : Z) (a : nat) : code verdict :=
  f ← the_frame a;
  q ← the_queue i;
  if negb (latencyTarget q =? 0) && (enqueued_at f + latencyTarget q <? now) then mret Remove
  else if now <? delay_until f then mret Skip
  else
    p ← ask q_packet;
    full ← (match p_buffer p with
            | Some b =>
                d ← deref (p_destination p);
                x ← the_dest d;
                if d_encapsulation x =? ENCAP_SINGLE then mret true
                else pl ← deref (f_payload (fr f)); n ← lift (ob_remaining b); mret (n <? ob_position pl)
            | None => mret false
            end);
    if (full : bool) then mret Skip
    else
      (if manual_destinations f then mret tt else link_add_destinations a);;
      f ← the_frame a;
      n ← ask q_sequence;
      if negb (mdp_sequence (fr f) =? -1) && (64 <=? Z.land (n - mdp_sequence (fr f)) 0xFFFF) then mret Remove
      else
        index ← pick_destination (Z.to_nat (destination_count f)) a now;
        f ← the_frame a;
        if destination_count f =? 0 then mret Remove
        else if index =? -1 then mret Skip
        else transmit a now index.

(** [while(frame)]: every frame is visited once. *)
Fixpoint stuff_loop (fuel : nat) (i : nat) (now : Z) (frame : option nat) : code unit :=
  match frame, fuel with
  | None, _ => mret tt
  | Some _, O => undefined
  | Some a, S fuel =>
      v ← consider i now a;
      match v with
      | Remove => n ← overlay_queue_remove i a; stuff_loop fuel i now n
      | Skip => overlay_calc_queue_time a;; f ← the_frame a; stuff_loop fuel i now (next f)
      end
  end.
Definition overlay_stuff_packet (i : nat) (now : Z) : code unit :=
  q ← the_queue i;
  fuel ← ask (λ st, size (q_frames st));
  stuff_loop fuel i now (q_first q).

(** overlay_interface.c: sends the packet and frees its buffer. *)
Variable overlay_broadcast_ensemble : option nat → overlay_buffer → code unit.

Fixpoint stuff_all (n : nat) (now : Z) : code unit :=
  match n with O => mret tt | S i => stuff_all i now;; overlay_stuff_packet i now end.

Definition overlay_fill_send_packet (now : Z) : code Z :=
  with_sched (λ s,
    s ← FdQueue.unschedule s next_packet;
    FdQueue.upd s next_packet (λ e, FdQueue.set_request (FdQueue.run_after e) 0 0 e));;
  stuff_all OQ_MAX now;;
  p ← ask q_packet;
  ret ← (match p_buffer p with
         | Some b => overlay_broadcast_ensemble (p_destination p) b;; mret 1
         | None => mret 0
         end);
  (match p_destination p with Some d => release_destination_ref d | None => mret tt end);;
  mret ret.

Definition no_context : decode_context := Ctx None 0 0 0 0 None None None None.
Definition overlay_send_packet : code Z :=
  change (set_packet (Outgoing None (-1) 0 0 None no_context));;
  now ← gettime;
  overlay_fill_send_packet now.

Definition overlay_send_tick_packet (dest : nat) : code Z :=
  change (set_packet (Outgoing None 0 0 0 None no_context));;
  r ← overlay_init_packet 0 dest;
  (if negb (r =? -1) then now ← gettime; overlay_fill_send_packet now;; mret tt else mret tt);;
  mret 0.

(** ** Acknowledgements *)

(** [for (j=frame->destination_count -1;j>=0;j--)]: the last slot for [destination]. *)
Fixpoint find_destination (n : nat) (f : queued) (destination : nat) : option (Z * packet_destination) :=
  match n with
  | O => None
  | S j =>
      match destinations f !! j with
      | Some s => if bool_decide (pd_destination s = Some destination) then Some (Z.of_nat j, s) else find_destination j f destination
      | None => None
      end
  end.

(** [this_rtt] and [rtt] are of type [int]. *)
Definition least_rtt (rtt now transmit_time : Z) : Z :=
  let this := i32 (now - transmit_time) in
  let this := if this <? 10 then 10 else this in
  if (rtt =? 0) || (this <? rtt) then this else rtt.

(** What the acknowledgement means for one frame, and the new [rtt]; [Remove]: the
    frame is taken off the queue. *)
Definition ack_frame (a : nat) (neighbour destination : nat) (now ack_mask ack_seq rtt : Z) : code (verdict * Z) :=
  f ← the_frame a;
  match find_destination (Z.to_nat (destination_count f)) f destination with
  | None => mret (Skip, rtt)
  | Some (j, s) =>
      if (0 <=? sent_sequence s) && (bool_decide (next_hop s = Some neighbour) || bool_decide (f_destination (fr f) = None)) then
        if acked ack_mask ack_seq (sent_sequence s) then
          let rtt := least_rtt rtt now (transmit_time s) in
          if bool_decide (is_Some (f_destination (fr f))) || (destination_count f <=? 1) then mret (Remove, rtt)
          else frame_remove_destination a j;; mret (Skip, rtt)
        else if (Z.land (ack_seq - sent_sequence s) 0xFF <? 128) && bool_decide (is_Some (f_destination (fr f))) && (now <? delay_until f) then
          upd_frame a (set_delay_until now);; overlay_calc_queue_time a;; mret (Skip, rtt)
        else mret (Skip, rtt)
      else mret (Skip, rtt)
  end.

Fixpoint ack_loop (fuel : nat) (i : nat) (neighbour destination : nat) (now ack_mask ack_seq rtt : Z) (frame : option nat) : code Z :=
  match frame, fuel with
  | None, _ => mret rtt
  | Some _, O => undefined
  | Some a, S fuel =>
      r ← ack_frame a neighbour destination now ack_mask ack_seq rtt;
      n ← (match r.1 with Remove => overlay_queue_remove i a | Skip => f ← the_frame a; mret (next f) end);
      ack_loop fuel i neighbour destination now ack_mask ack_seq r.2 n
  end.

Fixpoint ack_queues (n : nat) (neighbour destination : nat) (now ack_mask ack_seq : Z) : code Z :=
  match n with
  | O => mret 0
  | S i =>
      rtt ← ack_queues i neighbour destination now ack_mask ack_seq;
      q ← the_queue i;
      fuel ← ask (λ st, size (q_frames st));
      ack_loop fuel i neighbour destination now ack_mask ack_seq rtt (q_first q)
  end.

(** The delay is of type [int]. *)
Definition update_rtt (rtt : Z) (x : network_destination) : outcome network_destination :=
  x ← (if (min_rtt x =? 0) || (rtt <? min_rtt x) then
         let delay := rtt * 2 + 40 in
         if delay <? 2 ^ 31 then Ret (set_rtt rtt (max_rtt x) (if delay <? resend_delay x then delay else resend_delay x) x) else Undef
       else Ret x);
  Ret (if (max_rtt x =? 0) || (max_rtt x <? rtt) then set_rtt (min_rtt x) rtt (resend_delay x) x else x).

(** The destination may have been freed with the last frame for it. *)
Definition overlay_queue_ack (neighbour destination : nat) (ack_mask ack_seq : Z) : code Z :=
  now ← gettime;
  rtt ← ack_queues OQ_MAX neighbour destination now ack_mask ack_seq;
  (if negb (rtt =? 0) then x ← the_dest destination; x ← lift (update_rtt rtt x); upd_dest destination (λ _, x) else mret tt);;
  mret 0.

End Queues.
End OverlayQueue.
