(* ===== verification/OverlayQueueSpec.v ===== *)
(** * Queues as sequences, references as counts

    The linked frames of a queue represent a sequence; the count of a destination is
    the number of references to it. Removing a frame from a queue takes it out of the
    sequence and gives back its references and its memory. *)

From S2P Require Import Prelude Mem Prog OverlayBuffer OverlayBufferSpec OverlayBufferCodec OverlayBufferFill Limit DataFormats OverlayAddress OverlayAddressCodec LinkWindow OverlayFrame FdQueue FdQueueSpec OverlayQueue.
Import Prog OB OBSpec OBFill Limit OverlayAddress OverlayAddressCodec LinkWindow OverlayFrame FdQueueSpec OverlayQueue.

Module OverlayQueueSpec.
Section Spec.
Context {arch : Arch} {allocator : Allocator}.

(** ** Running code step by step *)

Lemma runs_frame a f st (Q : queued → qstate → Prop) : q_frames st !! a = Some f → Q f st → runs (the_frame a) st Q.
Proof. intros E HQ. exists f, st. unfold the_frame. by rewrite E. Qed.
Lemma runs_upd_frame a f g st (Q : unit → qstate → Prop) : q_frames st !! a = Some f →
  Q tt (set_frames (<[a := g f]> (q_frames st)) st) → runs (upd_frame a g) st Q.
Proof. intros E HQ. eexists tt, _. unfold upd_frame. by rewrite E. Qed.
Lemma runs_dest d x st (Q : network_destination → qstate → Prop) : q_dests st !! d = Some x → Q x st → runs (the_dest d) st Q.
Proof. intros E HQ. exists x, st. unfold the_dest. by rewrite E. Qed.
Lemma runs_upd_dest d x g st (Q : unit → qstate → Prop) : q_dests st !! d = Some x →
  Q tt (set_dests (<[d := g x]> (q_dests st)) st) → runs (upd_dest d g) st Q.
Proof. intros E HQ. eexists tt, _. unfold upd_dest. by rewrite E. Qed.
Lemma runs_queue i q st (Q : overlay_txqueue → qstate → Prop) : q_tx st !! i = Some q → Q q st → runs (the_queue i) st Q.
Proof. intros E HQ. exists q, st. unfold the_queue. by rewrite E. Qed.
Lemma runs_upd_queue i q g st (Q : unit → qstate → Prop) : q_tx st !! i = Some q →
  Q tt (set_tx (<[i := g q]> (q_tx st)) st) → runs (upd_queue i g) st Q.
Proof. intros E HQ. eexists tt, _. unfold upd_queue. by rewrite E. Qed.
Lemma runs_interface i x st (Q : link_interface → qstate → Prop) : q_interfaces st !! i = Some x → Q x st → runs (the_interface i) st Q.
Proof. intros E HQ. exists x, st. unfold the_interface. by rewrite E. Qed.
Lemma runs_subscriber s x st (Q : subscriber → qstate → Prop) : q_ss st !! s = Some x → Q x st → runs (the_subscriber s) st Q.
Proof. intros E HQ. exists x, st. unfold the_subscriber. by rewrite E. Qed.
Lemma runs_route s x st (Q : route → qstate → Prop) : q_routes st !! s = Some x → Q x st → runs (the_route s) st Q.
Proof. intros E HQ. exists x, st. unfold the_route. by rewrite E. Qed.
Lemma runs_deref {A} (o : option A) a st (Q : A → qstate → Prop) : o = Some a → Q a st → runs (deref o) st Q.
Proof. intros -> ?. by apply runs_ret. Qed.
Lemma runs_slot f i s st (Q : packet_destination → qstate → Prop) : 0 ≤ i → destinations f !! Z.to_nat i = Some s → Q s st →
  runs (slot_of f i) st Q.
Proof. intros Hi E HQ. unfold slot_of. rewrite (proj2 (Z.leb_le _ _)) by lia. by apply (runs_deref _ s). Qed.
Lemma runs_put_slot a f i s st (Q : unit → qstate → Prop) : q_frames st !! a = Some f → 0 ≤ i < MAX_PACKET_DESTINATIONS →
  Q tt (set_frames (<[a := set_destinations (<[Z.to_nat i := s]> (destinations f)) (destination_count f) f]> (q_frames st)) st) →
  runs (put_slot a i s) st Q.
Proof.
  intros E Hi HQ. unfold put_slot. apply runs_bind, (runs_frame _ f); [done|].
  rewrite (proj2 (Z.leb_le 0 i)), (proj2 (Z.ltb_lt i _)) by lia. cbn [andb]. by apply (runs_upd_frame _ f).
Qed.

(** ** Counting references *)

Definition slots (f : queued) : list packet_destination := take (Z.to_nat (destination_count f)) (destinations f).
Definition refs (d : nat) (f : queued) : nat := length (filter (λ s, pd_destination s = Some d) (slots f)).
(** The references of all frames to [d]. *)
Definition total (fs : gmap nat queued) (d : nat) : nat := map_fold (λ _ f n, (refs d f + n)%nat) 0%nat fs.

Lemma total_new a f fs d : fs !! a = None → total (<[a := f]> fs) d = (refs d f + total fs d)%nat.
Proof. intros Ha. unfold total. rewrite map_fold_insert_L; [done| |done]. intros. lia. Qed.
Lemma total_delete a f fs d : fs !! a = Some f → total fs d = (refs d f + total (delete a fs) d)%nat.
Proof. intros Ha. rewrite <- (total_new a f) by apply lookup_delete_eq. by rewrite insert_delete_id. Qed.
Lemma total_upd a f f' fs d : fs !! a = Some f → (total (<[a := f']> fs) d + refs d f = total fs d + refs d f')%nat.
Proof.
  intros Ha. rewrite (total_delete a f fs) by done. rewrite (total_delete a f') by apply lookup_insert_eq.
  rewrite delete_insert_eq. lia.
Qed.
Lemma total_refs a f fs d : fs !! a = Some f → (refs d f ≤ total fs d)%nat.
Proof. intros Ha. rewrite (total_delete a f fs) by done. lia. Qed.

(** The number of references to every destination. *)
Definition counted (wt : nat → Z) (ds : gmap nat network_destination) : Prop :=
  ∀ d, match ds !! d with Some x => _ref_count x = wt d ∧ 0 < wt d | None => wt d = 0 end.
Definition bump (wt : nat → Z) (d : nat) (k : Z) : nat → Z := λ d', wt d' + if decide (d' = d) then k else 0.

Lemma counted_ext wt wt' ds : (∀ d, wt' d = wt d) → counted wt ds → counted wt' ds.
Proof. intros E H d. specialize (H d). by rewrite E. Qed.
Lemma counted_live wt ds d : counted wt ds → 0 < wt d → ∃ x, ds !! d = Some x.
Proof. intros H Hd. specialize (H d). destruct (ds !! d) as [x|]; [by exists x|lia]. Qed.
Lemma counted_upd wt ds d x x' : counted wt ds → ds !! d = Some x → _ref_count x' = _ref_count x → counted wt (<[d := x']> ds).
Proof.
  intros H E Er d'. pose proof (H d') as Hd. destruct (decide (d = d')) as [<-|]; [rewrite lookup_insert_eq|by rewrite lookup_insert_ne].
  rewrite E in Hd. by rewrite Er.
Qed.

(** Destinations of [ds'] are those of [ds], but for their counts. *)
Definition within (ds ds' : gmap nat network_destination) : Prop :=
  ∀ d x', ds' !! d = Some x' → ∃ x, ds !! d = Some x ∧ set_refs 0 x' = set_refs 0 x.
Lemma within_refl ds : within ds ds.
Proof. intros d x' E. by exists x'. Qed.
Lemma within_trans ds1 ds2 ds3 : within ds1 ds2 → within ds2 ds3 → within ds1 ds3.
Proof. intros H1 H2 d x3 E3. destruct (H2 d x3 E3) as (x2 & E2 & R2). destruct (H1 d x2 E2) as (x1 & E1 & R1). exists x1. by rewrite R2. Qed.

Lemma release_runs wt d st : counted wt (q_dests st) → 0 < wt d →
  runs (release_destination_ref d) st (λ _ st', ∃ ds', st' = set_dests ds' st ∧ counted (bump wt d (-1)) ds' ∧ within (q_dests st) ds').
Proof.
  intros Hc Hd. destruct (counted_live _ _ _ Hc Hd) as [x Ex]. pose proof (Hc d) as Hx. rewrite Ex in Hx. destruct Hx as [Hx _].
  unfold release_destination_ref. apply runs_bind, (runs_dest _ x); [done|]. unfold bump. destruct (Z.leb_spec (_ref_count x) 1) as [Hle|Hgt].
  - apply runs_change. eexists. split; [reflexivity|]. split.
    + intros d'. destruct (decide (d' = d)) as [->|Hne]; [rewrite lookup_delete_eq; lia|]. rewrite lookup_delete_ne by done.
      specialize (Hc d'). destruct (q_dests st !! d'); lia.
    + intros d' x' E. apply lookup_delete_Some in E as [_ E]. by exists x'.
  - apply (runs_upd_dest _ x); [done|]. eexists. split; [reflexivity|]. split.
    + intros d'. destruct (decide (d' = d)) as [->|Hne]; [rewrite lookup_insert_eq; cbn; lia|]. rewrite lookup_insert_ne by done.
      specialize (Hc d'). destruct (q_dests st !! d'); lia.
    + intros d' x' E. apply lookup_insert_Some in E as [[<- <-]|[_ E]]; [by exists x|by exists x'].
Qed.

Lemma add_ref_runs wt d st : counted wt (q_dests st) → 0 < wt d →
  runs (add_destination_ref d) st (λ r st', r = d ∧ ∃ ds', st' = set_dests ds' st ∧ counted (bump wt d 1) ds' ∧ within (q_dests st) ds').
Proof.
  intros Hc Hd. destruct (counted_live _ _ _ Hc Hd) as [x Ex]. unfold add_destination_ref. apply runs_bind, (runs_upd_dest _ x); [done|].
  apply runs_ret. split; [done|]. eexists. split; [reflexivity|]. split.
  - intros d'. unfold bump. pose proof (Hc d') as H'. destruct (decide (d' = d)) as [->|Hne].
    + rewrite lookup_insert_eq. rewrite Ex in H'. cbn. lia.
    + rewrite lookup_insert_ne by done. destruct (q_dests st !! d'); lia.
  - intros d' x' E. apply lookup_insert_Some in E as [[<- <-]|[_ E]]; [by exists x|by exists x'].
Qed.

(** ** Slots of a frame *)

(** The slots in use have a destination; a frame for one subscriber also has next
    hops. [n] is the number of subscribers. *)
Definition slot_ok (n : nat) (f : queued) (s : packet_destination) : Prop :=
  is_Some (pd_destination s) ∧ 0 ≤ transmit_time s < 2 ^ 61 ∧ (∀ h, next_hop s = Some h → (h < n)%nat) ∧
  (is_Some (f_destination (fr f)) → is_Some (next_hop s)).

(** A frame that can be queued and sent. *)
Record frame_ok (n : nat) (f : queued) : Prop := {
  fk_slots : length (destinations f) = 16%nat;
  fk_count : 0 ≤ destination_count f ≤ 16;
  fk_used : Forall (slot_ok n f) (slots f);
  fk_stale : Forall (λ s, 0 ≤ transmit_time s < 2 ^ 61) (destinations f);
  fk_times : 0 ≤ enqueued_at f < 2 ^ 61 ∧ 0 ≤ delay_until f < 2 ^ 61;
  fk_queue : 0 ≤ queue (fr f) < Z.of_nat OQ_MAX;
  fk_ttl : 0 ≤ ttl (fr f) ≤ 31;
  fk_type : 0 ≤ f_type (fr f) < 256;
  fk_source : ∃ s, f_source (fr f) = Some s ∧ (s < n)%nat;
  fk_destination : ∀ d, f_destination (fr f) = Some d → (d < n)%nat;
  fk_broadcast : length (broadcast_id (fr f)) = BROADCAST_LEN ∧
    (f_destination (fr f) = None → ttl (fr f) = 1 ∨ broadcast_id (fr f) ≠ replicate BROADCAST_LEN 0);
  fk_payload : is_Some (f_payload (fr f));
  fk_version : 0 ≤ f_packet_version (fr f) ≤ SUPPORTED_PACKET_VERSION;
}.

Lemma slots_length n f : frame_ok n f → length (slots f) = Z.to_nat (destination_count f).
Proof. intros Hf. unfold slots. rewrite length_take, (fk_slots _ _ Hf). pose proof (fk_count _ _ Hf). lia. Qed.
Lemma slots_lookup f i : 0 ≤ i < destination_count f → slots f !! Z.to_nat i = destinations f !! Z.to_nat i.
Proof. intros Hi. apply lookup_take_lt. lia. Qed.
Lemma slot_at n f i : frame_ok n f → 0 ≤ i < destination_count f → ∃ s, destinations f !! Z.to_nat i = Some s ∧ slot_ok n f s.
Proof.
  intros Hf Hi. pose proof (fk_count _ _ Hf). destruct (lookup_lt_is_Some_2 (destinations f) (Z.to_nat i)) as [s Hs]; [rewrite (fk_slots _ _ Hf); lia|].
  exists s. split; [done|]. pose proof (fk_used _ _ Hf) as Hu. rewrite Forall_lookup in Hu. apply (Hu (Z.to_nat i)). by rewrite slots_lookup.
Qed.
Lemma slot_refs f i s d : 0 ≤ i < destination_count f → destinations f !! Z.to_nat i = Some s → pd_destination s = Some d → (1 ≤ refs d f)%nat.
Proof.
  intros Hi Hs Hd. unfold refs. assert (s ∈ filter (λ s, pd_destination s = Some d) (slots f)) as Hin.
  { apply list_elem_of_filter. split; [done|]. apply list_elem_of_lookup_2 with (Z.to_nat i). by rewrite slots_lookup. }
  destruct (filter _ _); [by apply not_elem_of_nil in Hin|cbn; lia].
Qed.

(** Taking the slot [i] away: the last slot in use takes its place. *)
Definition drop_slot (i : Z) (f : queued) : queued :=
  let n := destination_count f - 1 in
  set_destinations (if i <? n then match destinations f !! Z.to_nat n with Some s => <[Z.to_nat i := s]> (destinations f) | None => destinations f end
                    else destinations f) n f.

Lemma drop_slot_perm n f i s : frame_ok n f → 0 ≤ i < destination_count f → destinations f !! Z.to_nat i = Some s →
  slots f ≡ₚ s :: slots (drop_slot i f).
Proof.
  intros Hf Hi Hs. pose proof (fk_count _ _ Hf). set (k := Z.to_nat (destination_count f - 1)).
  destruct (slot_at n f (destination_count f - 1) Hf) as (t & Ht & _); [lia|]. fold k in Ht.
  assert (slots f = take k (destinations f) ++ [t]) as E.
  { unfold slots. replace (Z.to_nat (destination_count f)) with (S k) by lia. by apply take_S_r. }
  rewrite E. unfold slots, drop_slot. cbn [destinations destination_count set_destinations]. fold k. rewrite Ht.
  destruct (Z.ltb_spec i (destination_count f - 1)) as [Hlt|Hge].
  - rewrite (take_insert_lt (destinations f)) by lia. rewrite Permutation_app_comm. cbn [app].
    assert (take k (destinations f) !! Z.to_nat i = Some s) as Hs' by (rewrite lookup_take_lt by lia; done).
    pose proof (list_insert_id _ _ _ Hs') as Eid. rewrite <- Eid at 1.
    rewrite (insert_take_drop (take k (destinations f)) (Z.to_nat i) s), (insert_take_drop (take k (destinations f)) (Z.to_nat i) t)
      by (by eapply lookup_lt_Some). rewrite <- !Permutation_middle. apply perm_swap.
  - assert (i = destination_count f - 1) as -> by lia. fold k in Hs.
    rewrite Hs in Ht. injection Ht as <-. rewrite Permutation_app_comm. done.
Qed.

Lemma refs_cons d s l : length (filter (λ s, pd_destination s = Some d) (s :: l)) =
  ((if decide (pd_destination s = Some d) then 1 else 0) + length (filter (λ s, pd_destination s = Some d) l))%nat.
Proof. rewrite filter_cons. by case_decide. Qed.

Lemma drop_slot_refs n f i s d : frame_ok n f → 0 ≤ i < destination_count f → destinations f !! Z.to_nat i = Some s →
  refs d f = ((if decide (pd_destination s = Some d) then 1 else 0) + refs d (drop_slot i f))%nat.
Proof. intros Hf Hi Hs. unfold refs. rewrite (drop_slot_perm n f i s) by done. apply refs_cons. Qed.

Lemma drop_slot_ok n f i : frame_ok n f → 0 ≤ i < destination_count f → frame_ok n (drop_slot i f).
Proof.
  intros Hf Hi. pose proof (fk_count _ _ Hf). destruct (slot_at n f i Hf Hi) as (s & Hs & _).
  pose proof (drop_slot_perm n f i s Hf Hi Hs) as Hp. pose proof (fk_used _ _ Hf) as Hu. rewrite Hp in Hu. apply Forall_cons in Hu as [_ Hu].
  destruct (slot_at n f (destination_count f - 1) Hf) as (t & Ht & Hok); [lia|].
  assert (destinations (drop_slot i f) = destinations f ∨ destinations (drop_slot i f) = <[Z.to_nat i := t]> (destinations f)) as Hd.
  { unfold drop_slot. cbn. rewrite Ht. destruct (i <? _); auto. }
  destruct Hf as [H1 H2 H3 H4 H5 H6 H7 H8 H9 H10 H11 H12 H13]. split; try done.
  - destruct Hd as [->| ->]; [done|by rewrite length_insert].
  - cbn. lia.
  - destruct Hd as [->| ->]; [done|]. apply Forall_insert; [done|]. rewrite Forall_lookup in H4. by eapply H4.
Qed.

(** Adding a slot, which keeps the time that was in it. *)
Definition add_slot (next : option nat) (dest : nat) (f : queued) : queued :=
  let i := Z.to_nat (destination_count f) in
  let t := match destinations f !! i with Some s => transmit_time s | None => 0 end in
  set_destinations (<[i := PacketDest (-1) t (Some dest) next]> (destinations f)) (destination_count f + 1) f.

Lemma add_slot_slots n next dest f : frame_ok n f → destination_count f < 16 → ∃ t, 0 ≤ t < 2 ^ 61 ∧
  slots (add_slot next dest f) = slots f ++ [PacketDest (-1) t (Some dest) next] ∧
  destinations (add_slot next dest f) = <[Z.to_nat (destination_count f) := PacketDest (-1) t (Some dest) next]> (destinations f).
Proof.
  intros Hf Hlt. pose proof (fk_count _ _ Hf). pose proof (fk_slots _ _ Hf) as Hl.
  destruct (lookup_lt_is_Some_2 (destinations f) (Z.to_nat (destination_count f))) as [s Hs]; [lia|]. exists (transmit_time s).
  unfold add_slot. rewrite Hs. split_and!; [..|done].
  1,2: pose proof (fk_stale _ _ Hf) as Hst; rewrite Forall_lookup in Hst; specialize (Hst _ _ Hs); lia.
  unfold slots. cbn [destinations destination_count set_destinations]. replace (Z.to_nat (destination_count f + 1)) with (S (Z.to_nat (destination_count f))) by lia.
  rewrite (take_S_r _ _ (PacketDest (-1) (transmit_time s) (Some dest) next)) by (rewrite list_lookup_insert_eq; [done|lia]).
  by rewrite take_insert_ge by lia.
Qed.

Lemma add_slot_refs n next dest f d : frame_ok n f → destination_count f < 16 →
  refs d (add_slot next dest f) = ((if decide (dest = d) then 1 else 0) + refs d f)%nat.
Proof.
  intros Hf Hlt. destruct (add_slot_slots n next dest f Hf Hlt) as (t & _ & E & _). unfold refs. rewrite E, filter_app, length_app, filter_cons.
  cbn [pd_destination]. rewrite filter_nil. destruct (decide (dest = d)) as [->|Hne].
  - rewrite decide_True by done. cbn. lia.
  - rewrite decide_False by congruence. cbn. lia.
Qed.

Lemma add_slot_ok n next dest f : frame_ok n f → destination_count f < 16 → (∀ h, next = Some h → (h < n)%nat) →
  (is_Some (f_destination (fr f)) → is_Some next) → frame_ok n (add_slot next dest f).
Proof.
  intros Hf Hlt Hn Hs. destruct (add_slot_slots n next dest f Hf Hlt) as (t & Ht & Es & Ed). pose proof (fk_count _ _ Hf).
  destruct Hf as [H1 H2 H3 H4 H5 H6 H7 H8 H9 H10 H11 H12 H13]. split; try done.
  - by rewrite Ed, length_insert.
  - cbn. lia.
  - rewrite Es. apply Forall_app. split; [done|]. apply Forall_singleton. split_and!; [by eexists|apply Ht|apply Ht|done|done].
  - rewrite Ed. apply Forall_insert; [done|exact Ht].
Qed.

(** ** What refers to a destination *)

(** References from outside the queues, from frames, and from the packet. *)
Definition weight (ext : nat → Z) (fs : gmap nat queued) (p : option nat) : nat → Z :=
  λ d, ext d + Z.of_nat (total fs d) + if decide (p = Some d) then 1 else 0.

Lemma weight_upd ext fs p a f f' d : fs !! a = Some f →
  weight ext (<[a := f']> fs) p d = weight ext fs p d - Z.of_nat (refs d f) + Z.of_nat (refs d f').
Proof. intros Ha. unfold weight. pose proof (total_upd a f f' fs d Ha). lia. Qed.
Lemma weight_same ext fs p a f f' ds : fs !! a = Some f → slots f' = slots f → counted (weight ext fs p) ds →
  counted (weight ext (<[a := f']> fs) p) ds.
Proof. intros Ha Hs. apply counted_ext. intros d. rewrite (weight_upd _ _ _ _ f) by done. unfold refs. rewrite Hs. lia. Qed.
Lemma weight_slot ext fs p a f i s d : (∀ d, 0 ≤ ext d) → fs !! a = Some f → 0 ≤ i < destination_count f →
  destinations f !! Z.to_nat i = Some s → pd_destination s = Some d → 0 < weight ext fs p d.
Proof.
  intros Hext Ha Hi Hs Hd. pose proof (slot_refs f i s d Hi Hs Hd). pose proof (total_refs a f fs d Ha). specialize (Hext d). unfold weight.
  destruct (decide _); lia.
Qed.

Lemma remove_destination_runs ext n a f i st : (∀ d, 0 ≤ ext d) → q_frames st !! a = Some f → frame_ok n f → 0 ≤ i < destination_count f →
  let p := p_destination (q_packet st) in let fs' := <[a := drop_slot i f]> (q_frames st) in
  counted (weight ext (q_frames st) p) (q_dests st) →
  runs (frame_remove_destination a i) st (λ _ st', ∃ ds', st' = set_dests ds' (set_frames fs' st) ∧
    counted (weight ext fs' p) ds' ∧ within (q_dests st) ds').
Proof.
  intros Hext Ha Hf Hi p fs' Hc. pose proof (fk_count _ _ Hf). destruct (slot_at n f i Hf Hi) as (s & Hs & ([d Hd] & _)).
  unfold frame_remove_destination. apply runs_bind, (runs_frame _ f); [done|]. apply runs_bind, (runs_slot _ _ s); [lia|done|].
  apply runs_bind, (runs_deref _ d); [done|]. apply runs_bind.
  eapply runs_mono; [apply (release_runs _ d st Hc); by apply (weight_slot _ _ _ a f i s)|].
  intros _ ? (ds' & -> & Hc' & Hw). apply runs_bind, (runs_upd_frame _ f); [done|]. cbn [q_frames set_frames set_dests].
  set (f1 := set_destinations _ _ f). apply runs_bind, (runs_frame _ f1); [apply lookup_insert_eq|].
  assert (∃ st', (if i <? destination_count f1 then s ← slot_of f1 (destination_count f1); put_slot a i s else mret tt)
    (set_frames (<[a:=f1]> (q_frames st)) (set_dests ds' st)) = Ret (tt, st') ∧ st' = set_dests ds' (set_frames fs' st)) as (st' & E & ->).
  { unfold fs', drop_slot. cbn [destination_count set_destinations f1]. destruct (Z.ltb_spec i (destination_count f - 1)) as [Hlt|Hge]; [|by eexists].
    destruct (slot_at n f (destination_count f - 1) Hf) as (t & Ht & _); [lia|]. rewrite Ht.
    assert (runs (s ← slot_of f1 (destination_count f - 1); put_slot a i s) (set_frames (<[a:=f1]> (q_frames st)) (set_dests ds' st))
      (λ _ st', st' = set_dests ds' (set_frames (<[a := set_destinations (<[Z.to_nat i := t]> (destinations f)) (destination_count f - 1) f]> (q_frames st)) st))) as ([] & st' & E & ->).
    { apply runs_bind, (runs_slot _ _ t); [lia|done|]. apply (runs_put_slot _ f1); [apply lookup_insert_eq|unfold MAX_PACKET_DESTINATIONS; lia|].
      cbn [q_frames set_frames set_dests]. by rewrite insert_insert_eq. }
    by eexists. }
  exists tt, (set_dests ds' (set_frames fs' st)). split; [exact E|]. exists ds'. split_and!; [done| |done].
  revert Hc'. apply counted_ext. intros d'. unfold fs'. rewrite (weight_upd _ _ _ _ f) by done.
  rewrite (drop_slot_refs n f i s d') by done. rewrite Hd. unfold bump.
  destruct (decide (d' = d)) as [->|Hne]; [rewrite decide_True by done|rewrite decide_False by congruence]; lia.
Qed.

Lemma add_destination_runs ext n a f next dest st : (∀ d, 0 ≤ ext d) → q_frames st !! a = Some f → frame_ok n f → 
  let p := p_destination (q_packet st) in let fs' := <[a := add_slot next dest f]> (q_frames st) in
  counted (weight ext (q_frames st) p) (q_dests st) → 0 < weight ext (q_frames st) p dest →
  runs (frame_add_destination a next dest) st (λ _ st', st' = st ∨ destination_count f < 16 ∧ ∃ ds', st' = set_dests ds' (set_frames fs' st) ∧
    counted (weight ext fs' p) ds' ∧ within (q_dests st) ds').
Proof.
  intros Hext Ha Hf p fs' Hc Hd. pose proof (fk_count _ _ Hf). destruct (counted_live _ _ _ Hc Hd) as [x Hx].
  unfold frame_add_destination. apply runs_bind, (runs_dest _ x); [done|]. apply runs_bind, (runs_frame _ f); [done|].
  destruct (negb (send x) || _) eqn:E; [apply runs_ret; by left|]. apply orb_false_iff in E as [_ E]. apply Z.leb_gt in E. unfold MAX_PACKET_DESTINATIONS in E.
  destruct (lookup_lt_is_Some_2 (destinations f) (Z.to_nat (destination_count f))) as [s Hs]; [rewrite (fk_slots _ _ Hf); lia|].
  apply runs_bind, (runs_upd_frame _ f); [done|]. apply runs_bind, (runs_slot _ _ s); [lia|done|]. apply runs_bind.
  eapply runs_mono; [by apply (add_ref_runs (weight ext (q_frames st) p))|]. cbn beta. intros ? ? (-> & ds' & -> & Hc' & Hw).
  eapply runs_put_slot; [apply lookup_insert_eq|unfold MAX_PACKET_DESTINATIONS; lia|].
  right. split; [done|]. exists ds'. cbn [q_frames set_frames set_dests q_dests]. rewrite insert_insert_eq. split_and!; [|..|done].
  - unfold fs', add_slot. by rewrite Hs.
  - revert Hc'. apply counted_ext. intros d'. unfold fs'. rewrite (weight_upd _ _ _ _ f) by done. rewrite (add_slot_refs n) by done. unfold bump.
    destruct (decide (d' = dest)) as [->|Hne]; [rewrite decide_True by done|rewrite decide_False by congruence]; lia.
Qed.

(** ** Queues as sequences *)

Definition fwd (fs : gmap nat queued) (a : nat) : option (option nat) := next <$> fs !! a.
Definition bwd (fs : gmap nat queued) (a : nat) : option (option nat) := prev <$> fs !! a.

(** The queue [i] holds the frames [l], and no more than its maximum. *)
Record queue_rep (tx : list overlay_txqueue) (fs : gmap nat queued) (i : nat) (l : list nat) : Prop := {
  qr_ends : ∃ q, tx !! i = Some q ∧ q_first q = head l ∧ q_last q = last l ∧ q_length q = Z.of_nat (length l) ∧
    Z.of_nat (length l) ≤ maxLength q ∧ 0 ≤ small_packet_grace_interval q < 2 ^ 31;
  qr_seg : seg (fwd fs) (head l) l None;
  qr_backs : backs (bwd fs) None l;
  qr_nodup : NoDup l;
}.

(** A frame on the queue [i]: it has been queued at some time, and its payload is
    complete and small enough. *)
Definition on_queue (i : nat) (f : queued) : Prop :=
  queue (fr f) = Z.of_nat i ∧ 0 < enqueued_at f ∧ ∃ pl, f_payload (fr f) = Some pl ∧ position pl ≤ allocSize pl ∧ position pl < MDP_MTU.

Record queues (tx : list overlay_txqueue) (fs : gmap nat queued) (ls : list (list nat)) : Prop := {
  qs_count : length ls = OQ_MAX;
  qs_rep i l : ls !! i = Some l → queue_rep tx fs i l;
  qs_apart i j l l' a : ls !! i = Some l → ls !! j = Some l' → a ∈ l → a ∈ l' → i = j;
  qs_on i l a f : ls !! i = Some l → a ∈ l → fs !! a = Some f → on_queue i f;
}.

Lemma queue_live tx fs i l a : queue_rep tx fs i l → a ∈ l → ∃ f, fs !! a = Some f.
Proof.
  intros Hr Ha. destruct (seg_in _ _ _ _ _ (qr_seg _ _ _ _ Hr) Ha) as [x Hx]. unfold fwd in Hx.
  apply fmap_Some in Hx as (f & Hf & _). by exists f.
Qed.

(** What the links and the queue of a frame depend on. *)
Definition same_place (f f' : queued) : Prop :=
  prev f' = prev f ∧ next f' = next f ∧ queue (fr f') = queue (fr f) ∧ enqueued_at f' = enqueued_at f ∧ f_payload (fr f') = f_payload (fr f).
Lemma fwd_upd fs a f f' b : fs !! a = Some f → same_place f f' → fwd (<[a := f']> fs) b = fwd fs b.
Proof.
  intros Ha (_ & Hn & _). unfold fwd. destruct (decide (a = b)) as [<-|]; [by rewrite lookup_insert_eq, Ha; cbn; rewrite Hn|by rewrite lookup_insert_ne].
Qed.
Lemma bwd_upd fs a f f' b : fs !! a = Some f → same_place f f' → bwd (<[a := f']> fs) b = bwd fs b.
Proof.
  intros Ha (Hp & _). unfold bwd. destruct (decide (a = b)) as [<-|]; [by rewrite lookup_insert_eq, Ha; cbn; rewrite Hp|by rewrite lookup_insert_ne].
Qed.

Lemma queues_upd tx fs ls a f f' : queues tx fs ls → fs !! a = Some f → same_place f f' → queues tx (<[a := f']> fs) ls.
Proof.
  intros [H1 H2 H3 H4] Ha Hs. split; [done| |done|].
  - intros i l Hl. destruct (H2 i l Hl) as [R1 R2 R3 R4]. split; [done| | |done].
    + apply (seg_ext (fwd fs)); [|done]. intros b _. by apply (fwd_upd _ _ f).
    + apply (backs_ext (bwd fs)); [|done]. intros b _. by apply (bwd_upd _ _ f).
  - intros i l b g Hl Hb Hg. destruct (decide (a = b)) as [<-|].
    + rewrite lookup_insert_eq in Hg. injection Hg as <-. specialize (H4 i l a f Hl Hb Ha). destruct Hs as (_ & _ & Eq & Ee & Ep).
      unfold on_queue in *. by rewrite Eq, Ee, Ep.
    + rewrite lookup_insert_ne in Hg by done. by apply (H4 i l b).
Qed.

(** ** Buffers of frames and of the packet *)

Definition payload_at (fs : gmap nat queued) (a : nat) (pl : overlay_buffer) : Prop := ∃ f, fs !! a = Some f ∧ f_payload (fr f) = Some pl.

(** The packet under construction, beside the payloads. *)
Definition packet_ok (m : mem) (fs : gmap nat queued) (p : outgoing_packet) : Prop := (p_buffer p = None → p_destination p = None) ∧ ∀ b, p_buffer p = Some b →
  (∃ L cp w, filling L cp m b w ∧ Z.of_nat (length w) ≤ L) ∧ is_Some (interface (p_context p)) ∧ is_Some (p_destination p) ∧
  ∀ a pl q, payload_at fs a pl → bytes pl = Some q → apart b (blk q).

Record mem_ok (m : mem) (fs : gmap nat queued) (p : outgoing_packet) : Prop := {
  mo_payload a pl : payload_at fs a pl → ob_inv m pl ∧ is_static pl = false;
  mo_apart a a' pl pl' q q' : a ≠ a' → payload_at fs a pl → payload_at fs a' pl' → bytes pl = Some q → bytes pl' = Some q' → blk q ≠ blk q';
  mo_packet : packet_ok m fs p;
}.

(** Memory in which the object of a buffer is the same. *)
Definition keeps (m m' : mem) (b : overlay_buffer) : Prop := ∀ q, bytes b = Some q → m' !! blk q = m !! blk q.
Lemma keeps_inv m m' b : keeps m m' b → ob_inv m b → ob_inv m' b.
Proof. intros Hk [H1 H2 H3 H4 H5 H6 H7 H8]. split; try done. destruct (bytes b) as [q|] eqn:E; [|done]. by rewrite (Hk q). Qed.
Lemma keeps_region m m' b : keeps m m' b → region m' b = region m b.
Proof. intros Hk. unfold region. destruct (bytes b) as [q|] eqn:E; [|done]. by rewrite (Hk q). Qed.
Lemma keeps_filling m m' b L cp w : keeps m m' b → filling L cp m b w → filling L cp m' b w.
Proof.
  intros Hk [H1 H2 H3 H4 H5 H6 H7 H8 H9]. pose proof (keeps_region m m' b Hk) as Er.
  split; rewrite ?Er; try done. by apply (keeps_inv m).
Qed.

Lemma mem_ok_upd m fs p a f f' : mem_ok m fs p → fs !! a = Some f → f_payload (fr f') = f_payload (fr f) → mem_ok m (<[a := f']> fs) p.
Proof.
  intros [H1 H2 H3] Ha Hp. assert (∀ b pl, payload_at (<[a := f']> fs) b pl → payload_at fs b pl) as Hsame.
  { intros b pl (g & Hg & Hpl). destruct (decide (a = b)) as [<-|]; [|rewrite lookup_insert_ne in Hg by done; by exists g].
    rewrite lookup_insert_eq in Hg. injection Hg as <-. exists f. by rewrite <- Hp. }
  split.
  - intros b pl Hb. eapply H1. by apply Hsame.
  - intros b b' pl pl' q q' Hne Hb Hb'. by apply (H2 b b'); [|apply Hsame..].
  - destruct H3 as [Hnone H3]. split; [done|]. intros b Hb. destruct (H3 b Hb) as (? & ? & ? & Hap). split_and!; try done.
    intros c pl q Hc. apply (Hap c). by apply Hsame.
Qed.

Lemma free_payload m fs p a f pl : mem_ok m fs p → fs !! a = Some f → f_payload (fr f) = Some pl →
  ∃ m', ob_free m pl = Ret m' ∧ mem_ok m' (delete a fs) p.
Proof.
  intros [H1 H2 H3] Ha Hp. destruct (H1 a pl) as [Hi Hst]; [by exists f|]. unfold ob_free.
  assert (∃ m', match allocated pl with Some q => free m q | None => Ret m end = Ret m' ∧
    ∀ b, (∀ q q', bytes pl = Some q → bytes b = Some q' → blk q' ≠ blk q) → keeps m m' b) as (m' & -> & Hk).
  { destruct (allocated pl) as [q|] eqn:Eq; [|exists m; split; [done|]; by intros]. destruct (inv_own _ _ Hi q Eq) as [Eb Eo].
    pose proof (inv_live _ _ Hi) as Hl. rewrite Eb in Hl. destruct Hl as (l & Hl & _). exists (delete (blk q) m). unfold free. rewrite Hl, Eo.
    split; [done|]. intros b Hne q' Eq'. rewrite lookup_delete_ne; [done|]. intros E. by apply (Hne q q'). }
  assert (∀ b pl, payload_at (delete a fs) b pl → a ≠ b ∧ payload_at fs b pl) as Hsame.
  { intros b pl' (g & Hg & Hpl). apply lookup_delete_Some in Hg as [Hne Hg]. split; [done|]. by exists g. }
  exists m'. split; [done|]. split.
  - intros b pl' (Hne & Hb)%Hsame. destruct (H1 b pl' Hb) as [Hi' Hst']. split; [|done]. apply (keeps_inv m); [|done]. apply Hk.
    intros q q' Eq Eq' E. by apply (H2 a b pl pl' q q'); [..|by exists f| | | |].
  - intros b b' pl1 pl2 q q' Hne (_ & Hb)%Hsame (_ & Hb')%Hsame. by apply (H2 b b').
  - destruct H3 as [Hnone H3]. split; [done|]. intros b Hb. destruct (H3 b Hb) as ((L & cp & w & Hf & Hw) & Hi' & Hd & Hap). split_and!; [|done|done|].
    + exists L, cp, w. split; [|done]. apply (keeps_filling m); [|done]. apply Hk. intros q q' Eq Eq'. by apply (Hap a pl q); [exists f|..].
    + intros c pl' q (_ & Hc)%Hsame. by apply (Hap c).
Qed.

(** ** Unlinking *)

(** All of a frame but its links. *)
Definition core (f : queued) : queued := set_prev None (set_next None f).
Definition links_only (fs fs' : gmap nat queued) : Prop := ∀ b, core <$> fs' !! b = core <$> fs !! b.

Lemma links_only_lookup fs fs' b f' : links_only fs fs' → fs' !! b = Some f' → ∃ f, fs !! b = Some f ∧ core f' = core f.
Proof. intros Hl E. specialize (Hl b). rewrite E in Hl. symmetry in Hl. apply fmap_Some in Hl as (f & Ef & Ec). by exists f. Qed.
Lemma links_only_sym fs fs' : links_only fs fs' → links_only fs' fs.
Proof. intros H b. symmetry. apply H. Qed.
Lemma links_only_trans fs1 fs2 fs3 : links_only fs1 fs2 → links_only fs2 fs3 → links_only fs1 fs3.
Proof. intros H1 H2 b. by rewrite H2. Qed.
Lemma links_only_upd fs b g g' : fs !! b = Some g → core g' = core g → links_only fs (<[b := g']> fs).
Proof.
  intros Hb Hc c. destruct (decide (b = c)) as [<-|]; [rewrite lookup_insert_eq, Hb; cbn; by rewrite Hc|by rewrite lookup_insert_ne].
Qed.
Lemma refs_core d f : refs d (core f) = refs d f.
Proof. done. Qed.
Lemma links_only_total fs fs' d : links_only fs fs' → total fs' d = total fs d.
Proof.
  intros Hl. assert (∀ g, total (core <$> g) d = total g d) as Hc.
  { intros g. induction g as [|a f g Ha _ IH] using map_first_key_ind; [done|].
    rewrite fmap_insert, !total_new by (rewrite ?lookup_fmap, Ha; done). by rewrite IH. }
  rewrite <- (Hc fs), <- (Hc fs'). f_equal. apply map_eq. intros b. by rewrite !lookup_fmap.
Qed.
Lemma frame_ok_core n f f' : core f' = core f → frame_ok n f → frame_ok n f'.
Proof. destruct f, f'. cbn. intros [= -> -> -> -> -> -> -> -> -> ->] [H1 H2 H3 H4 H5 H6 H7 H8 H9 H10 H11 H12 H13]. by split. Qed.

(** Setting a link. *)
Lemma fwd_set_next fs b g v c : fs !! b = Some g →
  fwd (<[b := set_next v g]> fs) c = (if decide (Some b = Some c) then Some v else fwd fs c) ∧ bwd (<[b := set_next v g]> fs) c = bwd fs c.
Proof.
  intros Hb. unfold fwd, bwd. destruct (decide (Some b = Some c)) as [[= <-]|Hne]; [by rewrite lookup_insert_eq, Hb|].
  rewrite lookup_insert_ne by congruence. done.
Qed.
Lemma bwd_set_prev fs b g v c : fs !! b = Some g →
  bwd (<[b := set_prev v g]> fs) c = (if decide (Some b = Some c) then Some v else bwd fs c) ∧ fwd (<[b := set_prev v g]> fs) c = fwd fs c.
Proof.
  intros Hb. unfold fwd, bwd. destruct (decide (Some b = Some c)) as [[= <-]|Hne]; [by rewrite lookup_insert_eq, Hb|].
  rewrite lookup_insert_ne by congruence. done.
Qed.

(** The two ends of a queue after one of its frames is taken out. *)
Definition ends (q q' : overlay_txqueue) (l : list nat) : Prop :=
  q_first q' = head l ∧ q_last q' = last l ∧ q_length q' = q_length q - 1 ∧ maxLength q' = maxLength q ∧
  small_packet_grace_interval q' = small_packet_grace_interval q ∧ latencyTarget q' = latencyTarget q.

(** What [unlink] leaves of the frames and of the queues. *)
Record unlinked (i a : nat) (p s : list nat) (q : overlay_txqueue) (f : queued) (st st' : qstate) : Prop := {
  ul_state : ∃ fs' tx', st' = set_frames fs' (set_tx tx' st);
  ul_links : links_only (q_frames st) (q_frames st');
  ul_self : q_frames st' !! a = Some f;
  ul_fwd c : fwd (q_frames st') c = if decide (last p = Some c) then Some (head s) else fwd (q_frames st) c;
  ul_bwd c : bwd (q_frames st') c = if decide (head s = Some c) then Some (last p) else bwd (q_frames st) c;
  ul_tx : ∃ q', q_tx st' = <[i := q']> (q_tx st) ∧ ends q q' (p ++ s);
}.

Lemma unlink_prev i a st q p s f : q_tx st !! i = Some q → q_first q = head (p ++ a :: s) → q_frames st !! a = Some f → last p ≠ Some a →
  (∀ b, last p = Some b → is_Some (q_frames st !! b)) →
  runs (match last p with
   | Some p => upd_frame p (set_next (head s))
   | None => q ← the_queue i; if bool_decide (q_first q = Some a) then upd_queue i (set_first (head s)) else mret tt
   end) st (λ _ st', ∃ fs', st' = set_frames fs' (set_tx (<[i := set_first (head (p ++ s)) q]> (q_tx st)) st) ∧ links_only (q_frames st) fs' ∧ fs' !! a = Some f ∧
    ∀ c, fwd fs' c = (if decide (last p = Some c) then Some (head s) else fwd (q_frames st) c) ∧ bwd fs' c = bwd (q_frames st) c).
Proof.
  intros Hq Hfirst Ha Hne Hlive. destruct (last p) as [b|] eqn:El.
  - destruct (Hlive b eq_refl) as [g Hg]. apply (runs_upd_frame _ g); [done|]. eexists. split_and!.
    + destruct p as [|c p]; [done|]. cbn in Hfirst |- *. rewrite <- Hfirst. assert (set_first (q_first q) q = q) as -> by (by destruct q).
      rewrite list_insert_id by done. by destruct st.
    + by apply (links_only_upd _ _ g).
    + rewrite lookup_insert_ne; [done|congruence].
    + intros c. by apply fwd_set_next.
  - apply last_None in El as ->. cbn in Hfirst |- *. apply runs_bind, (runs_queue _ q); [done|]. rewrite bool_decide_true by done.
    apply (runs_upd_queue _ q); [done|]. exists (q_frames st). split_and!; [by destruct st|done|done|done].
Qed.

Lemma unlink_next i a st q p s f : q_tx st !! i = Some q → q_last q = last (p ++ a :: s) → q_frames st !! a = Some f → head s ≠ Some a →
  (∀ b, head s = Some b → is_Some (q_frames st !! b)) →
  runs (match head s with
   | Some n => upd_frame n (set_prev (last p))
   | None => q ← the_queue i; if bool_decide (q_last q = Some a) then upd_queue i (set_last (last p)) else mret tt
   end) st (λ _ st', ∃ fs', st' = set_frames fs' (set_tx (<[i := set_last (last (p ++ s)) q]> (q_tx st)) st) ∧ links_only (q_frames st) fs' ∧ fs' !! a = Some f ∧
    ∀ c, bwd fs' c = (if decide (head s = Some c) then Some (last p) else bwd (q_frames st) c) ∧ fwd fs' c = fwd (q_frames st) c).
Proof.
  intros Hq Hlast Ha Hne Hlive. destruct s as [|b s]; cbn [head].
  - rewrite last_snoc in Hlast. apply runs_bind, (runs_queue _ q); [done|]. rewrite bool_decide_true, app_nil_r by done.
    apply (runs_upd_queue _ q); [done|]. exists (q_frames st). split_and!; [by destruct st|done|done|done].
  - destruct (Hlive b eq_refl) as [g Hg]. apply (runs_upd_frame _ g); [done|]. eexists. split_and!.
    + rewrite last_app_cons, last_cons_cons in Hlast. rewrite last_app_cons, <- Hlast. assert (set_last (q_last q) q = q) as -> by (by destruct q).
      rewrite list_insert_id by done. by destruct st.
    + by apply (links_only_upd _ _ g).
    + rewrite lookup_insert_ne; [done|]. intros ->. by apply Hne.
    + intros c. by apply bwd_set_prev.
Qed.

Lemma unlink_runs i a p s f st : queue_rep (q_tx st) (q_frames st) i (p ++ a :: s) → q_frames st !! a = Some f →
  ∃ q, q_tx st !! i = Some q ∧ runs (unlink i a (prev f) (next f)) st (λ _ st', unlinked i a p s q f st st').
Proof.
  intros Hr Ha. pose proof Hr as [(q & Hq & Hfirst & Hlast & Hlen & _) Hs Hb Hnd]. exists q. split; [done|].
  destruct (linked_at _ _ _ _ _ _ _ Hs Hb) as [En Ep]. unfold fwd, bwd in En, Ep. rewrite Ha in En, Ep. injection En as En. injection Ep as Ep.
  assert ((if decide (p = []) then None else last p) = last p) as Hlp by (by destruct p). rewrite Hlp in Ep.
  destruct (NoDup_mid _ _ _ Hnd) as (Hap & Has & _). rewrite En, Ep. unfold unlink. apply runs_bind.
  assert (∀ b, b ∈ p ++ a :: s → is_Some (q_frames st !! b)) as Hlive.
  { intros b Hin. destruct (queue_live _ _ _ _ b Hr Hin) as [g Hg]. by exists g. }
  eapply runs_mono; [apply (unlink_prev i a st q p s f Hq Hfirst Ha)|].
  { intros E. by apply last_snoc_in in E. }
  { intros b Eb. apply Hlive, elem_of_app. left. by apply last_snoc_in. }
  cbn beta. intros _ ? (fs1 & -> & L1 & A1 & F1). apply runs_bind. set (st1 := set_frames _ _).
  assert (i < length (q_tx st))%nat as Hi by (by eapply lookup_lt_Some).
  eapply runs_mono; [apply (unlink_next i a st1 (set_first (head (p ++ s)) q) p s f)|].
  { by apply list_lookup_insert_eq. } { done. } { done. } { intros E. by apply head_in in E. }
  { intros b Eb. cbn. destruct (Hlive b) as [g Hg]; [apply elem_of_app; right; right; by apply head_in|].
    specialize (L1 b). rewrite Hg in L1. apply fmap_Some in L1 as (g' & -> & _). done. }
  cbn beta. intros _ ? (fs2 & -> & L2 & A2 & F2). set (st2 := set_frames _ _). eapply runs_upd_queue; [cbn; rewrite list_lookup_insert_eq; [reflexivity|by rewrite length_insert]|].
  split.
  - eexists _, _. reflexivity.
  - by eapply links_only_trans.
  - done.
  - intros c. cbn. destruct (F2 c) as [_ ->]. cbn. by destruct (F1 c) as [-> _].
  - intros c. cbn. destruct (F2 c) as [-> _]. cbn. by destruct (F1 c) as [_ ->].
  - eexists. cbn. rewrite !list_insert_insert_eq. split; [reflexivity|]. by split_and!.
Qed.

(** The sequences after a frame has been unlinked and freed. *)
Lemma unlinked_queues i a p s q f st st' ls fs' : queues (q_tx st) (q_frames st) ls → ls !! i = Some (p ++ a :: s) → q_tx st !! i = Some q →
  unlinked i a p s q f st st' → links_only (delete a (q_frames st')) fs' → (∀ b, b ≠ a → fwd fs' b = fwd (q_frames st') b ∧ bwd fs' b = bwd (q_frames st') b) →
  queues (q_tx st') fs' (<[i := p ++ s]> ls).
Proof.
  intros Hqs Hl Hq [_ HL _ HF HB (q' & Htx & (E1 & E2 & E3 & E4 & E5 & E6))] HL' Hsame.
  pose proof (qs_rep _ _ _ Hqs i _ Hl) as [(q0 & Hq0 & _ & _ & Hlen & Hmax & Hg) Hs Hb Hnd]. rewrite Hq in Hq0. injection Hq0 as <-.
  destruct (NoDup_mid _ _ _ Hnd) as (Hap & Has & Hnd').
  assert (i < length (q_tx st))%nat as Hi by (by eapply lookup_lt_Some). assert (i < length ls)%nat as Hi' by (by eapply lookup_lt_Some).
  assert (∀ b, b ∈ p ++ s → b ≠ a) as Hna by (intros b Hin ->; apply elem_of_app in Hin as [?|?]; done).
  assert (∀ j l b, <[i := p ++ s]> ls !! j = Some l → b ∈ l → b ≠ a ∧ ∃ l0, ls !! j = Some l0 ∧ b ∈ l0) as Hsub.
  { intros j l b Hj Hin. destruct (decide (i = j)) as [<-|Hne].
    - rewrite list_lookup_insert_eq in Hj by done. injection Hj as <-. split; [by apply Hna|]. exists (p ++ a :: s). split; [done|].
      apply elem_of_app in Hin as [?|?]; apply elem_of_app; [by left|right; by right].
    - rewrite list_lookup_insert_ne in Hj by done. split; [|by exists l]. intros ->.
      by apply Hne, (qs_apart _ _ _ Hqs i j _ _ a Hl Hj); [apply elem_of_app; right; left|]. }
  split.
  - rewrite length_insert. apply Hqs.
  - intros j l Hj. destruct (decide (i = j)) as [<-|Hne].
    + rewrite list_lookup_insert_eq in Hj by done. injection Hj as <-. split; [| | |done].
      * exists q'. rewrite Htx, list_lookup_insert_eq by done. rewrite !length_app in *. cbn [length] in *. split_and!; try done; try congruence; lia.
      * assert (head (p ++ s) = if decide (p = []) then head s else head (p ++ a :: s)) as -> by (by destruct p).
        apply (seg_remove (fwd (q_frames st)) _ _ _ _ a); [done|done| |].
        -- intros b Hin Hlb. destruct (Hsame b (Hna b Hin)) as [-> _]. by rewrite HF, decide_False.
        -- intros c Hc. destruct (Hsame c) as [-> _]; [apply Hna, elem_of_app; left; by apply last_snoc_in|]. by rewrite HF, decide_True.
      * apply (backs_remove (bwd (q_frames st)) _ _ _ _ a); [done|done| |].
        -- intros b Hin Hh. destruct (Hsame b (Hna b Hin)) as [_ ->]. by rewrite HB, decide_False.
        -- intros b Hh. destruct (Hsame b) as [_ ->]; [apply Hna, elem_of_app; right; by apply head_in|]. rewrite HB, decide_True by done. by destruct p.
    + pose proof Hj as Hj'. rewrite list_lookup_insert_ne in Hj' by done. destruct (qs_rep _ _ _ Hqs j l Hj') as [R1 R2 R3 R4].
      assert (∀ b, b ∈ l → b ∉ p ++ a :: s) as Hout by (intros b Hb1 Hb2; by apply Hne, (qs_apart _ _ _ Hqs i j _ _ b Hl Hj')).
      split; [by rewrite Htx, list_lookup_insert_ne| | |done].
      * apply (seg_ext (fwd (q_frames st))); [|done]. intros b Hin. destruct (Hsub j l b Hj Hin) as [Hba _]. destruct (Hsame b Hba) as [-> _].
        rewrite HF, decide_False; [done|]. intros E. apply (Hout b Hin), elem_of_app. left. by apply last_snoc_in.
      * apply (backs_ext (bwd (q_frames st))); [|done]. intros b Hin. destruct (Hsub j l b Hj Hin) as [Hba _]. destruct (Hsame b Hba) as [_ ->].
        rewrite HB, decide_False; [done|]. intros E. apply (Hout b Hin), elem_of_app. right. right. by apply head_in.
  - intros j k l l' b Hj Hk Hbj Hbk. destruct (Hsub j l b Hj Hbj) as (_ & l0 & Hj0 & Hb0). destruct (Hsub k l' b Hk Hbk) as (_ & l1 & Hk0 & Hb1).
    by apply (qs_apart _ _ _ Hqs j k l0 l1 b).
  - intros j l b g Hj Hin Hb'. destruct (Hsub j l b Hj Hin) as (Hba & l0 & Hj0 & Hb0).
    destruct (links_only_lookup _ _ _ _ HL' Hb') as (g1 & Hg1 & Ec1). rewrite lookup_delete_ne in Hg1 by done.
    destruct (links_only_lookup _ _ _ _ HL Hg1) as (g0 & Hg0 & Ec0). pose proof (qs_on _ _ _ Hqs j l0 b g0 Hj0 Hb0 Hg0) as Hon.
    rewrite <- Ec1 in Ec0. destruct g, g0. cbn in Ec0. injection Ec0 as -> -> -> -> -> -> -> -> -> ->. done.
Qed.

End Spec.
End OverlayQueueSpec.
