(* ===== verification/OverlayQueueTimer.v ===== *)
(** * The timer of the queues

    [overlay_queue_schedule_next] keeps one alarm in the scheduler, at the earliest
    time it has been asked for. *)

From S2P Require Import Prelude Prog FdQueue FdQueueSpec FdQueueRefine OverlayQueue.
Import Prog FdQueue FdQueueSpec FdQueueRefine.

Module OverlayQueueTimer.

(** ** What scheduling leaves alone *)

(** The request of an entry: all but its links and the times that [schedule] sets. *)
Definition strip (e : sched_ent) : sched_ent :=
  Ent None None None false (function e) (poll e) 0 0 0 (alarm e) (deadline e) (_poll_index e).
Definition same_requests (q q' : queue) : Prop := ∀ b, strip <$> ents q' !! b = strip <$> ents q !! b.

Lemma same_refl q : same_requests q q.
Proof. done. Qed.
Lemma same_trans q1 q2 q3 : same_requests q1 q2 → same_requests q2 q3 → same_requests q1 q3.
Proof. intros H1 H2 b. by rewrite H2. Qed.
Lemma upd_same q a f q' : upd q a f = Ret q' → (∀ e, strip (f e) = strip e) → same_requests q q'.
Proof.
  unfold upd. destruct (ents q !! a) as [e|] eqn:E; [|done]. intros [= <-] Hf b. cbn. destruct (decide (a = b)) as [<-|].
  - rewrite lookup_insert_eq, E. cbn. by rewrite Hf.
  - by rewrite lookup_insert_ne.
Qed.
Lemma write_same q l v q' : write_loc q l v = Ret q' → same_requests q q'.
Proof. destruct l as [[]|]; cbn; [by intros [= <-]|by intros [= <-]|]. intros E. by apply (upd_same _ _ _ _ E). Qed.

Ltac chase := repeat match goal with
  | H : (_ ≫= _) = Ret _ |- _ => let x := fresh "x" in let E := fresh "E" in apply bind_ret_inv in H as (x & E & H)
  | H : upd _ _ _ = Ret _ |- _ => apply upd_same in H; [|done]
  | H : write_loc _ _ _ = Ret _ |- _ => apply write_same in H
  | H : Ret (if ?c then _ else _) = Ret _ |- _ => destruct c
  | H : Ret _ = Ret _ |- _ => injection H as <-
  | H : match ?o with Some _ => _ | None => _ end = Ret _ |- _ => destruct o
  | H : (if ?c then _ else _) = Ret _ |- _ => destruct c; try discriminate H
  | H : (let '(_, _) := ?x in _) = Ret _ |- _ => destruct x
  end; try (repeat (eapply same_trans; [eassumption|]); done).

Lemma remove_run_same fuel q a l q' : remove_run_loop fuel q a l = Ret q' → same_requests q q'.
Proof. revert l. induction fuel as [|fuel IH]; intros l H; [done|]. cbn [remove_run_loop] in H. chase. by apply IH in H. Qed.
Lemma insert_run_same r key q a q' : insert_run r key q a = Ret q' → same_requests q q'.
Proof. unfold insert_run. intros H. chase. Qed.
Lemma insert_wake_same q a q' : insert_wake_list q a = Ret q' → same_requests q q'.
Proof. unfold insert_wake_list. intros H. chase. Qed.
Lemma remove_wake_same q a q' : remove_wake_list q a = Ret q' → same_requests q q'.
Proof. unfold remove_wake_list. intros H. chase. Qed.

Lemma unschedule_same q a q' : unschedule q a = Ret q' → same_requests q q'.
Proof.
  unfold unschedule. intros H. chase. apply remove_run_same in E0. apply remove_run_same in E1. apply remove_wake_same in E2.
  repeat (eapply same_trans; [eassumption|]). done.
Qed.

Lemma schedule_same q a q' : schedule q a = Ret q' → same_requests q q'.
Proof.
  unfold schedule. intros H. apply bind_ret_inv in H as (e & E & H). apply bind_ret_inv in H as (q1 & E1 & H).
  assert (same_requests q q1) as S1.
  { revert E E1. unfold ent, upd. destruct (ents q !! a) as [e0|] eqn:Ee; [|done]. intros [= <-] [= <-] b. cbn.
    destruct (decide (a = b)) as [<-|]; [by rewrite lookup_insert_eq, Ee|by rewrite lookup_insert_ne]. }
  chase. apply insert_wake_same in E0. apply insert_run_same in E2. repeat (eapply same_trans; [eassumption|]). done.
Qed.

(** ** The alarm *)

Section Timer.
Context {arch : Arch}.
Variables (np send_alarm : nat).

(** The entry of the timer: when it is not in the scheduler's lists its alarm time
    is zero, and the time at which it may run is taken from the alarm time. *)
Record timer_ok (s : queue) : Prop := {
  to_lists : ∃ ns ss ws, rep s ns ss ws;
  to_entry : ∃ e, ents s !! np = Some e ∧ (_scheduled e = false → run_after e = TIME_MS_NEVER_WILL ∨ run_after e = 0) ∧
    (_scheduled e = true → is_Some (function e)) ∧ (alarm e ≠ 0 → _scheduled e = true);
}.
Definition alarm_of (s : queue) : Z := key_of alarm s np.

Lemma unschedule_after q a e q' : unschedule q a = Ret q' → ents q !! a = Some e →
  if _scheduled e then ∃ e', ents q' !! a = Some e' ∧ run_after e' = TIME_MS_NEVER_WILL else q' = q.
Proof.
  intros H He. unfold unschedule in H. rewrite (ent_spec _ _ e), bind_ret_l in H by done. unfold is_scheduled in H.
  destruct (_scheduled e); cbn [negb] in H; [|by injection H as <-].
  apply bind_ret_inv in H as (q1 & _ & H). apply bind_ret_inv in H as (q2 & _ & H). apply bind_ret_inv in H as (q3 & _ & H).
  revert H. unfold upd. destruct (ents q3 !! a) as [e3|]; [|done]. intros [= <-]. eexists. cbn. by rewrite lookup_insert_eq.
Qed.

(** Taking the timer off the lists. *)
Lemma unschedule_timer s e : (∃ ns ss ws, rep s ns ss ws) → ents s !! np = Some e →
  (_scheduled e = false → run_after e = TIME_MS_NEVER_WILL ∨ run_after e = 0) →
  ∃ s' e', unschedule s np = Ret s' ∧ (∃ ns ss ws, rep s' ns ss ws) ∧ ents s' !! np = Some e' ∧ _scheduled e' = false ∧
    (run_after e' = TIME_MS_NEVER_WILL ∨ run_after e' = 0) ∧ strip e' = strip e.
Proof.
  intros (ns & ss & ws & Hr) He Hra. destruct (unschedule_spec s np e ns ss ws Hr He) as (s' & Hu & Hr' & Hs').
  pose proof (unschedule_same _ _ _ Hu np) as Hsame. apply fmap_Some in Hs' as (e' & He' & Hs'). rewrite He, He' in Hsame. apply (inj Some) in Hsame.
  exists s', e'. split_and!; [done|eauto|done|done| |done].
  pose proof (unschedule_after _ _ _ _ Hu He) as Ha. destruct (_scheduled e); [|subst s'; rewrite He in He'; injection He' as <-; auto].
  destruct Ha as (e'' & He'' & ?). rewrite He' in He''. injection He'' as <-. by left.
Qed.

(** Setting the times of the timer, off the lists. *)
Lemma request_timer s e t d : (∃ ns ss ws, rep s ns ss ws) → ents s !! np = Some e → _scheduled e = false →
  ∃ s', upd s np (λ e, set_request (run_after e) t d e) = Ret s' ∧ (∃ ns ss ws, rep s' ns ss ws) ∧
    ents s' !! np = Some (set_request (run_after e) t d e).
Proof.
  intros (ns & ss & ws & Hr) He Hs. rewrite (upd_spec _ _ e) by done. eexists. split; [reflexivity|]. split; [|apply lookup_insert_eq].
  exists ns, ss, ws.
  apply (rep_upd s ns ss ws np e (λ e, set_request (run_after e) t d e)); first [done|exact Hs].
Qed.

Lemma start_timer s e : (∃ ns ss ws, rep s ns ss ws) → ents s !! np = Some e → _scheduled e = false → is_Some (function e) →
  (run_after e = TIME_MS_NEVER_WILL ∨ run_after e = 0) → alarm e < TIME_MS_NEVER_WILL → alarm e ≤ deadline e →
  ∃ s', schedule s np = Ret s' ∧ timer_ok s' ∧ alarm_of s' = alarm e.
Proof.
  intros (ns & ss & ws & Hr) He Hs Hf Hra Ha Hd.
  assert (effective_after e = alarm e) as Hea.
  { unfold effective_after. destruct Hra as [->| ->]; [by rewrite Z.eqb_refl|]. by rewrite Z.eqb_refl, orb_true_r. }
  destruct (schedule_spec s np e ns ss ws Hr He) as (s' & Hsch & Hr' & _); [split_and!; [done|done|lia|lia]|].
  exists s'. split; [done|]. pose proof (schedule_same _ _ _ Hsch np) as Hsame. rewrite He in Hsame. apply fmap_Some in Hsame as (e' & He' & Hsame).
  assert (_scheduled e' = true) as Hs'.
  { assert (_scheduled <$> ents s' !! np = Some true) as H'.
    { apply (rep_sched _ _ _ _ Hr'). apply elem_of_app. right. unfold soon_after. rewrite Hea, (proj2 (Z.eqb_neq _ _)) by lia.
      apply elem_of_place. by left. }
    rewrite He' in H'. by injection H'. }
  destruct e, e'. cbn in *. injection Hsame as -> -> -> -> ->. subst. split.
  - split; [by eauto|]. eexists. split; [exact He'|]. cbn. by split_and!.
  - unfold alarm_of, key_of. by rewrite He'.
Qed.

(** The alarm is at the earlier of its time and the one that is asked for. *)
Lemma schedule_next_ret t s : timer_ok s → 0 ≤ t → t + 15 ≤ TIME_MS_NEVER_WILL →
  ∃ s', OverlayQueue.schedule_next_packet np send_alarm t s = Ret s' ∧ timer_ok s' ∧ let a := alarm_of s in alarm_of s' = if (a =? 0) || (t <? a) then t else a.
Proof.
  intros Hok Ht1 Ht2. pose proof Hok as [Hr (e & He & Hra & Hfn & Hal)].
  assert (alarm_of s = alarm e) as Ea by (unfold alarm_of, key_of; by rewrite He).
  unfold OverlayQueue.schedule_next_packet. rewrite (ent_spec _ _ e), bind_ret_l by done.
  cbv zeta. rewrite Ea. destruct ((alarm e =? 0) || (t <? alarm e)); [|exists s; by rewrite Ea].
  assert (∃ s1 e1, (if bool_decide (function e = None) then upd s np (OverlayQueue.set_function send_alarm) else Ret s) = Ret s1 ∧
    (∃ ns ss ws, rep s1 ns ss ws) ∧ ents s1 !! np = Some e1 ∧ is_Some (function e1) ∧
    (_scheduled e1 = false → run_after e1 = TIME_MS_NEVER_WILL ∨ run_after e1 = 0)) as (s1 & e1 & E1 & Hr1 & He1 & Hf1 & Hra1).
  { destruct (bool_decide_reflect (function e = None)) as [Hn|Hn].
    - assert (_scheduled e = false) as Hs. { destruct (_scheduled e) eqn:Es; [|done]. destruct (Hfn eq_refl) as [? ?]. congruence. }
      rewrite (upd_spec _ _ e) by done. eexists _, _. split; [reflexivity|]. split; [|split; [apply lookup_insert_eq|by split; [eexists|auto]]].
      destruct Hr as (ns & ss & ws & Hr). exists ns, ss, ws.
      apply (rep_upd s ns ss ws np e); first [done|exact Hs].
    - exists s, e. split_and!; [done|done|done| |done]. by apply not_eq_None_Some. }
  destruct (unschedule_timer s1 e1 Hr1 He1 Hra1) as (s2 & e2 & E2 & Hr2 & He2 & Hs2 & Hra2 & Hst2).
  destruct (request_timer s2 e2 t (t + 15) Hr2 He2 Hs2) as (s3 & E3 & Hr3 & He3).
  destruct (start_timer s3 _ Hr3 He3) as (s4 & E4 & Hok4 & Ha4); [done| |done|cbn; lia|cbn; lia|].
  { cbn. destruct e1, e2. cbn in *. by injection Hst2 as ->. }
  exists s4. split; [|done]. by rewrite E1, bind_ret_l, E2, bind_ret_l, E3, bind_ret_l.
Qed.

Context {allocator : Mem.Allocator}.

Lemma schedule_next_runs t (st : OverlayQueue.qstate) : timer_ok (OverlayQueue.q_sched st) → 0 ≤ t → t + 15 ≤ TIME_MS_NEVER_WILL →
  runs (OverlayQueue.overlay_queue_schedule_next np send_alarm t) st (λ _ st', ∃ s', st' = OverlayQueue.set_sched s' st ∧ timer_ok s' ∧
    let a := alarm_of (OverlayQueue.q_sched st) in alarm_of s' = if (a =? 0) || (t <? a) then t else a).
Proof.
  intros Hok Ht1 Ht2. destruct (schedule_next_ret t _ Hok Ht1 Ht2) as (s' & E & H). exists tt, (OverlayQueue.set_sched s' st). split; [|by exists s'].
  unfold OverlayQueue.overlay_queue_schedule_next, OverlayQueue.with_sched. by rewrite E.
Qed.

(** At the start of a packet the timer is stopped. *)
Lemma stop_timer s : timer_ok s → ∃ s', (s ← unschedule s np; upd s np (λ e, set_request (run_after e) 0 0 e)) = Ret s' ∧ timer_ok s' ∧ alarm_of s' = 0.
Proof.
  intros [Hr (e & He & Hra & _ & _)]. destruct (unschedule_timer s e Hr He Hra) as (s1 & e1 & -> & Hr1 & He1 & Hs1 & Hra1 & _).
  rewrite bind_ret_l. destruct (request_timer s1 e1 0 0 Hr1 He1 Hs1) as (s2 & -> & Hr2 & He2). exists s2. split; [done|]. split.
  - split; [done|]. eexists. split; [exact He2|]. cbn. split_and!; [auto|congruence|done].
  - unfold alarm_of, key_of. by rewrite He2.
Qed.

End Timer.
End OverlayQueueTimer.
