(* ===== verification/OverlayQueueInv.v ===== *)
(** * The invariant of the outgoing queues

    The queues represent sequences of frames, every reference to a destination is
    counted, payloads are live and apart from each other and from the packet under
    construction, and the timer is set. The helpers of overlay_queue.c and the choice
    of destinations keep the invariant; so does removing a frame. *)

From S2P Require Import Prelude Mem Prog OverlayBuffer OverlayBufferSpec OverlayBufferCodec OverlayBufferFill Limit DataFormats OverlayAddress OverlayAddressTree OverlayAddressCodec OverlayAddressRound LinkWindow OverlayFrame FdQueue FdQueueSpec OverlayQueue OverlayQueueSpec OverlayQueueTimer.
Import Prog OB OBSpec OBFill Limit OverlayAddress OverlayAddressTree OverlayAddressCodec OverlayAddressRound LinkWindow OverlayFrame FdQueueSpec OverlayQueue OverlayQueueSpec OverlayQueueTimer.

Module OverlayQueueInv.
Section Inv.
Context {arch : Arch} {allocator : Allocator}.
Variables (gettime_ms : nat → Z) (np send_alarm me : nat) (directory_service : option nat).

(** ** The invariant *)

(** A destination that packets can be sent to. *)
Record dest_ok (ni : nat) (x : network_destination) : Prop := {
  dk_interface : ∃ j, d_interface x = Some j ∧ (j < ni)%nat;
  dk_mtu : 64 ≤ mtu x < 2 ^ 31;
  dk_timeout : 0 ≤ transmit_timeout_ms x < 2 ^ 31;
  dk_delay : 0 ≤ resend_delay x < 2 ^ 31;
  dk_encapsulation : d_encapsulation x = ENCAP_OVERLAY ∨ d_encapsulation x = ENCAP_SINGLE;
  dk_limit : burst_size (transfer_limit x) = 0 ∨ limit_ok (transfer_limit x);
}.
Lemma dest_ok_refs ni x x' : set_refs 0 x' = set_refs 0 x → dest_ok ni x → dest_ok ni x'.
Proof. destruct x, x'. cbn. intros [= -> -> -> -> -> -> -> -> -> -> ->] [H1 H2 H3 H4 H5 H6]. by split. Qed.
Lemma within_ok ni ds ds' : within ds ds' → map_Forall (λ _, dest_ok ni) ds → map_Forall (λ _, dest_ok ni) ds'.
Proof. intros Hw Hd d x' E. destruct (Hw d x' E) as (x & Ex & Er). apply (dest_ok_refs ni x); [done|]. by apply (Hd d). Qed.

(** The subscribers and their routes; destinations of routes and links are counted
    in [ext]. *)
Record routes_ok (ext : nat → Z) (ss : store) (routes : list route) (ns : list out_neighbour) (ni : nat) : Prop := {
  ro_ext d : 0 ≤ ext d;
  ro_sids : all_sids ss;
  ro_me : (me < length ss)%nat;
  ro_directory d : directory_service = Some d → (d < length ss)%nat;
  ro_interfaces : (ni ≤ OVERLAY_MAX_INTERFACES)%nat;
  ro_version s x : ss !! s = Some x → 0 ≤ max_packet_version x ≤ SUPPORTED_PACKET_VERSION;
  ro_route s x : ss !! s = Some x → ∃ r, routes !! s = Some r ∧
    (on (reachable x) REACHABLE_DIRECT = true → ∃ d, r_destination r = Some d ∧ 0 < ext d) ∧
    (Z.land (reachable x) REACHABLE = REACHABLE_INDIRECT → ∃ h, r_next_hop r = Some h ∧ (h < length ss)%nat);
  ro_neighbours n : n ∈ ns → (on_subscriber n < length ss)%nat ∧ Forall (λ l, 0 < ext l.2) (out_links n);
}.

Record qinv (ext : nat → Z) (ls : list (list nat)) (st : qstate) : Prop := {
  qi_queues : queues (q_tx st) (q_frames st) ls;
  qi_counted : counted (weight ext (q_frames st) (p_destination (q_packet st))) (q_dests st);
  qi_frames : map_Forall (λ _, frame_ok (length (q_ss st))) (q_frames st);
  qi_dests : map_Forall (λ _, dest_ok (length (q_interfaces st))) (q_dests st);
  qi_routes : routes_ok ext (q_ss st) (q_routes st) (q_neighbours st) (length (q_interfaces st));
  qi_mem : mem_ok (q_mem st) (q_frames st) (q_packet st);
  qi_timer : timer_ok np (q_sched st);
}.

(** What stays of a frame while it is queued. *)
Definition ident (f : queued) : queued :=
  Queued (prev f) (next f) (enqueued_at f) (with_sequence 0 (with_version 0 (fr f))) 0 (send_hook f) 0 [] 0 (manual_destinations f) 0 (fr_source_full f).

(** The subscribers, but for the wish to send their whole identifier. *)
Definition plain (ss : store) : store := (λ x, set_send_full x false) <$> ss.
Lemma plain_length ss ss' : plain ss' = plain ss → length ss' = length ss.
Proof. intros E. apply (f_equal length) in E. unfold plain in E. by rewrite !length_fmap in E. Qed.
Lemma plain_lookup ss ss' s x : plain ss' = plain ss → ss !! s = Some x →
  ∃ x', ss' !! s = Some x' ∧ sid x' = sid x ∧ reachable x' = reachable x ∧ max_packet_version x' = max_packet_version x.
Proof.
  intros E Hs. apply (f_equal (.!! s)) in E. unfold plain in E. rewrite !list_lookup_fmap, Hs in E. cbn in E. apply fmap_Some in E as (x' & -> & Ex).
  exists x'. destruct x, x'. by injection Ex as -> -> -> -> -> -> -> -> ->.
Qed.
Lemma plain_routes ext ss ss' rs ns ni : plain ss' = plain ss → routes_ok ext ss rs ns ni → routes_ok ext ss' rs ns ni.
Proof.
  intros E [H1 H2 H3 H4 H5 H5' H6 H7]. pose proof (plain_length _ _ E) as El. split; rewrite ?El; try done.
  - unfold all_sids in *. rewrite Forall_lookup in *. intros s x Hx. symmetry in E. destruct (plain_lookup _ _ _ _ E Hx) as (x0 & H0 & <- & _). by apply (H2 s).
  - intros s x Hx. symmetry in E. destruct (plain_lookup _ _ _ _ E Hx) as (x0 & H0 & _ & _ & <-). by apply (H5' s).
  - intros s x Hx. symmetry in E. destruct (plain_lookup _ _ _ _ E Hx) as (x0 & H0 & _ & <- & _). by apply H6.
Qed.

(** Code that works on the frame [a]: it keeps what stays of the frame, the other
    frames, the queues, interfaces and routes, and does not stop the timer. *)
Record kept (a : nat) (st st' : qstate) : Prop := {
  ke_ident : ident <$> q_frames st' !! a = ident <$> q_frames st !! a;
  ke_others b : b ≠ a → q_frames st' !! b = q_frames st !! b;
  ke_tx : q_tx st' = q_tx st;
  ke_interfaces : q_interfaces st' = q_interfaces st;
  ke_armed : alarm_of np (q_sched st) ≠ 0 → alarm_of np (q_sched st') ≠ 0;
  ke_plain : plain (q_ss st') = plain (q_ss st);
  ke_routes : q_routes st' = q_routes st ∧ q_neighbours st' = q_neighbours st;
}.
Lemma kept_refl a st : kept a st st.
Proof. by split. Qed.
Lemma kept_trans a st1 st2 st3 : kept a st1 st2 → kept a st2 st3 → kept a st1 st3.
Proof.
  intros [H1 H2 H3 H4 H5 H6 [H7 H8]] [G1 G2 G3 G4 G5 G6 [G7 G8]]. split; [congruence| |congruence|congruence|auto|congruence|split; congruence].
  intros b Hb. by rewrite G2, H2.
Qed.
Definition calm (ext : nat → Z) (ls : list (list nat)) (a : nat) (st st' : qstate) : Prop := qinv ext ls st' ∧ kept a st st'.
Lemma ca_inv ext ls a st st' : calm ext ls a st st' → qinv ext ls st'.
Proof. by intros [? _]. Qed.
Lemma calm_refl ext ls a st : qinv ext ls st → calm ext ls a st st.
Proof. split; [done|apply kept_refl]. Qed.
Lemma calm_trans ext ls a st1 st2 st3 : calm ext ls a st1 st2 → calm ext ls a st2 st3 → calm ext ls a st1 st3.
Proof. intros [_ H1] [H2 H3]. split; [done|]. by eapply kept_trans. Qed.
Lemma kept_live a st st' f : kept a st st' → q_frames st !! a = Some f → ∃ f', q_frames st' !! a = Some f' ∧ ident f' = ident f.
Proof. intros H E. pose proof (ke_ident _ _ _ H) as Hi. rewrite E in Hi. by apply fmap_Some in Hi as (f' & E' & Ei); exists f'. Qed.
Lemma runs_calm {A} (p : prog qstate A) ext ls a st0 st (Q : A → qstate → Prop) : calm ext ls a st0 st →
  runs p st (λ x st', calm ext ls a st st' ∧ Q x st') → runs p st (λ x st', calm ext ls a st0 st' ∧ Q x st').
Proof. intros Hc Hr. eapply runs_mono; [exact Hr|]. intros x st' [H1 H2]. split; [by eapply calm_trans|done]. Qed.

(** Changing a frame and the counts. *)
Lemma qinv_change ext ls st a f f' ds : qinv ext ls st → q_frames st !! a = Some f → same_place f f' → frame_ok (length (q_ss st)) f' →
  counted (weight ext (<[a := f']> (q_frames st)) (p_destination (q_packet st))) ds → map_Forall (λ _, dest_ok (length (q_interfaces st))) ds →
  qinv ext ls (set_dests ds (set_frames (<[a := f']> (q_frames st)) st)).
Proof.
  intros [H1 H2 H3 H4 H5 H6 H7] Ha Hs Hf Hc Hd. split; cbn; try done.
  - by apply (queues_upd _ _ _ _ f).
  - by apply map_Forall_insert_2.
  - apply (mem_ok_upd _ _ _ _ f); [done|done|apply Hs].
Qed.
Lemma qinv_frame ext ls st a f f' ds : qinv ext ls st → q_frames st !! a = Some f → same_place f f' → frame_ok (length (q_ss st)) f' →
  counted (weight ext (<[a := f']> (q_frames st)) (p_destination (q_packet st))) ds → map_Forall (λ _, dest_ok (length (q_interfaces st))) ds →
  ident f' = ident f → calm ext ls a st (set_dests ds (set_frames (<[a := f']> (q_frames st)) st)).
Proof.
  intros Hi Ha Hs Hf Hc Hd Hid. split; [by apply (qinv_change _ _ _ _ f)|].
  split; cbn; try done; [rewrite lookup_insert_eq, Ha; cbn; by rewrite Hid|]. intros b Hb. by rewrite lookup_insert_ne.
Qed.
Lemma qinv_upd ext ls st a f f' : qinv ext ls st → q_frames st !! a = Some f → same_place f f' → frame_ok (length (q_ss st)) f' →
  slots f' = slots f → ident f' = ident f → calm ext ls a st (set_frames (<[a := f']> (q_frames st)) st).
Proof.
  intros Hi Ha Hs Hf Hsl Hid. assert (set_frames (<[a := f']> (q_frames st)) st = set_dests (q_dests st) (set_frames (<[a := f']> (q_frames st)) st)) as -> by done.
  apply (qinv_frame _ _ _ _ f); try done; [|apply Hi]. apply (weight_same _ _ _ _ f); [done|done|apply Hi].
Qed.
Lemma qinv_dest ext ls a st d x x' : qinv ext ls st → q_dests st !! d = Some x → _ref_count x' = _ref_count x → dest_ok (length (q_interfaces st)) x' →
  calm ext ls a st (set_dests (<[d := x']> (q_dests st)) st).
Proof.
  intros [H1 H2 H3 H4 H5 H6 H7] Hd Hr Hok. split; [|by split]. split; cbn; try done.
  - by apply (counted_upd _ _ _ x).
  - by apply map_Forall_insert_2.
Qed.
Lemma qinv_tick ext ls a st : qinv ext ls st → calm ext ls a st (tick st).
Proof. intros [H1 H2 H3 H4 H5 H6 H7]. split; by split. Qed.
Lemma qinv_sched ext ls a st s : qinv ext ls st → timer_ok np s → (alarm_of np (q_sched st) ≠ 0 → alarm_of np s ≠ 0) → calm ext ls a st (set_sched s st).
Proof. intros [H1 H2 H3 H4 H5 H6 H7] Hs Ha. split; by split. Qed.
Lemma runs_gettime ext ls a st (Q : Z → qstate → Prop) : qinv ext ls st → (calm ext ls a st (tick st) → Q (gettime_ms (q_ticks st)) (tick st)) →
  runs (gettime gettime_ms) st Q.
Proof. intros Hi HQ. eexists _, _. split; [reflexivity|]. apply HQ. by apply qinv_tick. Qed.

(** A destination that is referred to. *)
Lemma dest_live ext ls st d : qinv ext ls st → 0 < weight ext (q_frames st) (p_destination (q_packet st)) d →
  ∃ x, q_dests st !! d = Some x ∧ dest_ok (length (q_interfaces st)) x.
Proof. intros Hi Hd. destruct (counted_live _ _ _ (qi_counted _ _ _ Hi) Hd) as [x Hx]. exists x. split; [done|]. by apply (qi_dests _ _ _ Hi d). Qed.
Lemma ext_weight ext ls st d : qinv ext ls st → 0 < ext d → 0 < weight ext (q_frames st) (p_destination (q_packet st)) d.
Proof. intros Hi Hd. unfold weight. destruct (decide _); lia. Qed.
Lemma frame_live ext ls st a f : qinv ext ls st → q_frames st !! a = Some f → frame_ok (length (q_ss st)) f.
Proof. intros Hi Ha. by apply (qi_frames _ _ _ Hi a). Qed.
(** A slot in use. *)
Lemma slot_live ext ls st a f i : qinv ext ls st → q_frames st !! a = Some f → 0 ≤ i < destination_count f →
  ∃ s d x, destinations f !! Z.to_nat i = Some s ∧ slot_ok (length (q_ss st)) f s ∧ pd_destination s = Some d ∧
    q_dests st !! d = Some x ∧ dest_ok (length (q_interfaces st)) x.
Proof.
  intros Hi Ha Hr. destruct (slot_at _ f i (frame_live _ _ _ _ _ Hi Ha) Hr) as (s & Hs & Hok). destruct (proj1 Hok) as [d Hd].
  destruct (dest_live ext ls st d Hi) as (x & Hx & Hx').
  { apply (weight_slot _ _ _ a f i s); try done. apply (ro_ext _ _ _ _ _ (qi_routes _ _ _ Hi)). }
  by exists s, d, x.
Qed.

(** ** Destinations of a frame *)

Lemma remove_destination_calm ext ls a f i st : qinv ext ls st → q_frames st !! a = Some f → 0 ≤ i < destination_count f →
  runs (frame_remove_destination a i) st (λ _ st', calm ext ls a st st' ∧ q_frames st' !! a = Some (drop_slot i f) ∧ q_packet st' = q_packet st).
Proof.
  intros Hi Ha Hr. pose proof (frame_live _ _ _ _ _ Hi Ha) as Hf.
  eapply runs_mono; [apply (remove_destination_runs ext _ a f i st (ro_ext _ _ _ _ _ (qi_routes _ _ _ Hi)) Ha Hf Hr (qi_counted _ _ _ Hi))|].
  cbn beta. intros _ ? (ds & -> & Hc & Hw). split; [|split; [apply lookup_insert_eq|done]].
  apply (qinv_frame _ _ _ _ f); try done; [by apply drop_slot_ok|]. eapply within_ok; [done|apply Hi].
Qed.

Lemma add_destination_calm ext ls a f next dest st : qinv ext ls st → q_frames st !! a = Some f →
  0 < weight ext (q_frames st) (p_destination (q_packet st)) dest → (∀ h, next = Some h → (h < length (q_ss st))%nat) →
  (is_Some (f_destination (fr f)) → is_Some next) →
  runs (frame_add_destination a next dest) st (λ _ st', calm ext ls a st st' ∧ q_packet st' = q_packet st).
Proof.
  intros Hi Ha Hd Hh Hs. pose proof (frame_live _ _ _ _ _ Hi Ha) as Hf.
  eapply runs_mono; [apply (add_destination_runs ext _ a f next dest st (ro_ext _ _ _ _ _ (qi_routes _ _ _ Hi)) Ha Hf (qi_counted _ _ _ Hi) Hd)|].
  cbn beta. intros _ ? [->|(Hlt & ds & -> & Hc & Hw)]; [split; [by apply calm_refl|done]|]. split; [|done].
  apply (qinv_frame _ _ _ _ f); try done; [by apply add_slot_ok|]. eapply within_ok; [done|apply Hi].
Qed.

(** ** When to send next *)

Hypothesis clock : ∀ n, 0 < gettime_ms n < 2 ^ 60.
Definition BIG : Z := 2 ^ 62 + 2 ^ 33.

Lemma next_allowed_ok l now : burst_size l = 0 ∨ limit_ok l → 0 < now < 2 ^ 60 →
  (burst_size (limit_next_allowed l now).1 = 0 ∨ limit_ok (limit_next_allowed l now).1) ∧ 0 < (limit_next_allowed l now).2 < 2 ^ 62 + 2 ^ 32.
Proof.
  intros Hl Hn. unfold limit_next_allowed. destruct (Z.eqb_spec (burst_size l) 0) as [E|E]; [split; [by left|cbn; lia]|].
  destruct Hl as [|Hl]; [done|]. assert (time_ok now) as Ht by (unfold time_ok; lia).
  destruct (update_spec l now Hl Ht) as (Hok & _ & _ & Hnext & _). cbv zeta in *. pose proof (ok_next _ Hok).
  destruct (_ <? _); (split; [by right|cbn; lia]).
Qed.
Lemma is_allowed_ok l now : burst_size l = 0 ∨ limit_ok l → 0 < now < 2 ^ 60 →
  burst_size (limit_is_allowed l now).1 = 0 ∨ limit_ok (limit_is_allowed l now).1.
Proof.
  intros Hl Hn. unfold limit_is_allowed. destruct (Z.eqb_spec (burst_size l) 0) as [E|E]; [by left|].
  destruct Hl as [|Hl]; [done|]. assert (time_ok now) as Ht by (unfold time_ok; lia).
  destruct (update_spec l now Hl Ht) as (Hok & Hb & _). cbv zeta in *. right. destruct (Z.leb_spec (burst_size (update_limit_state l now)) (sent (update_limit_state l now))); [done|].
  destruct Hok as [K1 K2 K3 K4]. split; cbn; [done|done| |done]. rewrite wraps_small by (cbn; lia). lia.
Qed.

(** A destination of the frame whose interface is not busy. *)
Definition ready (st : qstate) (f : queued) (i : Z) : Prop := ∃ s d x j y, destinations f !! Z.to_nat i = Some s ∧ pd_destination s = Some d ∧
  q_dests st !! d = Some x ∧ d_interface x = Some j ∧ q_interfaces st !! j = Some y ∧ tx_packet y = false.

(** The frame can be sent at some time: it has such a destination, or it is for a
    subscriber and destinations will be chosen for it. *)
Definition waiting (st : qstate) (f : queued) : Prop :=
  (∃ j, 0 ≤ j < destination_count f ∧ ready st f j) ∨ destination_count f = 0 ∧ is_Some (f_destination (fr f)).

Lemma busy_runs ext ls st d x (Q : bool → qstate → Prop) : qinv ext ls st → q_dests st !! d = Some x → 
  (∀ j y, d_interface x = Some j → q_interfaces st !! j = Some y → Q (tx_packet y) st) → runs (radio_link_is_busy x) st Q.
Proof.
  intros Hi Hx HQ. destruct (dk_interface _ _ (qi_dests _ _ _ Hi d x Hx)) as (j & Hj & Hlt). destruct (lookup_lt_is_Some_2 (q_interfaces st) j Hlt) as [y Hy].
  unfold radio_link_is_busy. apply runs_bind, (runs_deref _ j); [done|]. apply runs_bind, (runs_interface _ y); [done|]. apply runs_ret. by eapply HQ.
Qed.

Lemma next_allowed_calm ext ls a f n : ∀ i acc st, qinv ext ls st → q_frames st !! a = Some f → 0 ≤ i → i + Z.of_nat n = destination_count f →
  0 ≤ acc < BIG →
  runs (next_allowed_loop gettime_ms n i a acc) st (λ t st', calm ext ls a st st' ∧ 0 ≤ t < BIG ∧ (acc ≠ 0 → t ≠ 0) ∧
    q_frames st' = q_frames st ∧ q_packet st' = q_packet st ∧ ((∃ j, i ≤ j < destination_count f ∧ ready st f j) → t ≠ 0)).
Proof.
  induction n as [|n IH]; intros i acc st Hi Ha Hi0 Hn Hacc; cbn [next_allowed_loop].
  { apply runs_ret. split; [by apply calm_refl|]. split; [done|]. split_and!; try done. intros (j & ? & _). lia. }
  apply runs_bind, (runs_frame _ f); [done|]. destruct (slot_live _ _ _ _ _ i Hi Ha) as (s & d & x & Hs & Hsok & Hd & Hx & Hxok); [lia|].
  apply runs_bind, (runs_slot _ _ s); [lia|done|]. apply runs_bind, (runs_deref _ d); [done|]. apply runs_bind, (runs_dest _ x); [done|].
  apply runs_bind, (busy_runs ext ls _ d); [done|done|]. intros j y Hj Hy. destruct (tx_packet y) eqn:Eb.
  - eapply runs_mono; [apply (IH (i + 1) acc st); try done; lia|]. cbn beta. intros t st' (H1 & H2 & H3 & H4 & H5 & H6). do 5 (split; [done|]).
    intros (k & Hk & Hready). apply H6. exists k. split; [|done]. destruct (decide (k = i)) as [->|]; [|lia].
    destruct Hready as (s' & d' & x' & j' & y' & R1 & R2 & R3 & R4 & R5 & R6). simplify_eq. congruence.
  - apply runs_bind, (runs_gettime ext ls a); [done|]. intros Hc1. apply runs_bind, (runs_upd_dest _ x); [done|].
    pose proof (clock (q_ticks st)) as Hclk. destruct (next_allowed_ok (transfer_limit x) (gettime_ms (q_ticks st)) (dk_limit _ _ Hxok) Hclk) as [Hl Ht].
    set (r := limit_next_allowed _ _) in *. set (t := if negb (transmit_time s =? 0) && _ then _ else _).
    assert (0 < t < BIG) as Htb.
    { unfold t, BIG. destruct Hsok as (_ & ? & _). pose proof (dk_delay _ _ Hxok). destruct (negb _ && (r.2 <? _)) eqn:E; [|lia].
      apply andb_true_iff in E as [_ E]. apply Z.ltb_lt in E. lia. }
    assert (dest_ok (length (q_interfaces st)) (set_limit r.1 x)) as Hok' by (destruct Hxok; by split).
    pose proof (qinv_dest ext ls a (tick st) d x (set_limit r.1 x) (ca_inv _ _ _ _ _ Hc1) Hx eq_refl Hok') as Hc2.
    match goal with |- runs (next_allowed_loop _ _ _ _ ?acc') ?st' _ => set (acc1 := acc'); set (st2 := st') in * end.
    assert (0 < acc1 < BIG) as Hacc1 by (unfold acc1; destruct (Z.eqb_spec acc 0), (Z.ltb_spec t acc); cbn; lia).
    eapply runs_mono; [apply (IH (i + 1) acc1 st2 (ca_inv _ _ _ _ _ Hc2)); [done|lia|lia|lia]|].
    cbn beta. intros t' st' (H1 & H2 & H3 & H4 & H5 & H6).
    assert (t' ≠ 0) by (apply H3; lia). split_and!; try done; try lia.
    eapply calm_trans; [|exact H1]. by eapply calm_trans.
Qed.

Lemma calc_queue_time_calm ext ls a f st : qinv ext ls st → q_frames st !! a = Some f → 0 < enqueued_at f →
  runs (overlay_calc_queue_time gettime_ms np send_alarm a) st (λ _ st', calm ext ls a st st' ∧ q_frames st' = q_frames st ∧ q_packet st' = q_packet st ∧
    (waiting st f → alarm_of np (q_sched st') ≠ 0)).
Proof.
  intros Hi Ha Hen. pose proof (frame_live _ _ _ _ _ Hi Ha) as Hf. unfold overlay_calc_queue_time. apply runs_bind, (runs_frame _ f); [done|].
  apply runs_bind.
  assert (runs (if 0 <? destination_count f then t ← next_allowed_loop gettime_ms (Z.to_nat (destination_count f)) 0 a 0; mret (if t =? 0 then None else Some t)
      else mret (if bool_decide (f_destination (fr f) = None) then None else Some 0)) st
    (λ t st', calm ext ls a st st' ∧ (∀ v, t = Some v → 0 ≤ v < BIG) ∧ q_frames st' = q_frames st ∧ q_packet st' = q_packet st ∧
      (waiting st f → is_Some t))) as Hloop.
  { destruct (Z.ltb_spec 0 (destination_count f)).
    - apply runs_bind. eapply runs_mono; [apply (next_allowed_calm ext ls a f _ 0 0 st Hi Ha); [lia|lia|unfold BIG; lia]|].
      cbn beta. intros t st' (H1 & H2 & _ & H4 & H5 & H6). apply runs_ret. destruct (Z.eqb_spec t 0) as [->|Hne].
      + split_and!; try done. intros [Hr|[? _]]; [by apply H6 in Hr|lia].
      + split_and!; try done. by intros v [= <-].
    - apply runs_ret. split_and!; [by apply calm_refl| |done|done|].
      + intros v. destruct (bool_decide _); [done|]. intros [= <-]. unfold BIG. lia.
      + intros [(j & ? & _)|[_ [d ->]]]; [lia|]. by rewrite bool_decide_false. }
  eapply runs_mono; [exact Hloop|]. cbn beta. intros t st1 (Hc1 & Ht & Ef & Ep & Hr). destruct t as [t|].
  2: { apply runs_ret. split_and!; try done. intros H'. destruct (Hr H') as [? ?]. done. }
  specialize (Ht t eq_refl). cbv zeta. set (t1 := if t <? delay_until f then _ else _). set (t2 := if t1 <? _ then _ else t1).
  destruct (fk_times _ _ Hf) as [Ht1 Ht2]. assert (0 < t2 < BIG) as Htb.
  { unfold t2, t1, BIG in *. destruct (Z.ltb_spec t (delay_until f)); match goal with |- context [?x <? enqueued_at f] => destruct (Z.ltb_spec x (enqueued_at f)) end; lia. }
  destruct (fk_payload _ _ Hf) as [pl Hpl]. apply runs_bind, (runs_deref _ pl); [done|]. apply runs_bind.
  assert (runs (if ob_position pl <? SMALL_PACKET_SIZE then q ← the_queue (Z.to_nat (queue (fr f)));
      mret (if t2 <? enqueued_at f + small_packet_grace_interval q then enqueued_at f + small_packet_grace_interval q else t2) else mret t2) st1
    (λ v st', st' = st1 ∧ t2 ≤ v < BIG)) as Hg.
  { destruct (ob_position pl <? SMALL_PACKET_SIZE); [|apply runs_ret; split; [done|lia]].
    pose proof (qi_queues _ _ _ (ca_inv _ _ _ _ _ Hc1)) as Hqs. pose proof (fk_queue _ _ Hf).
    destruct (lookup_lt_is_Some_2 ls (Z.to_nat (queue (fr f)))) as [l Hl]; [rewrite (qs_count _ _ _ Hqs); lia|].
    destruct (qr_ends _ _ _ _ (qs_rep _ _ _ Hqs _ _ Hl)) as (q & Hq & _ & _ & _ & _ & Hg). apply runs_bind, (runs_queue _ q); [done|].
    apply runs_ret. split; [done|]. destruct (Z.ltb_spec t2 (enqueued_at f + small_packet_grace_interval q)); unfold BIG in *; lia. }
  eapply runs_mono; [exact Hg|]. cbn beta. intros v ? (-> & Hv).
  eapply runs_mono; [apply (schedule_next_runs np send_alarm v st1 (qi_timer _ _ _ (ca_inv _ _ _ _ _ Hc1))); unfold BIG, FdQueue.TIME_MS_NEVER_WILL in *; lia|].
  cbn beta zeta. intros _ ? (s' & -> & Hok & Hal). split_and!; [|done|done|].
  - eapply calm_trans; [exact Hc1|]. apply qinv_sched; [apply Hc1|done|]. intros Hne. rewrite Hal. destruct (_ || _); lia.
  - intros _. cbn. rewrite Hal. destruct (Z.eqb_spec (alarm_of np (q_sched st1)) 0), (v <? alarm_of np (q_sched st1)); cbn; lia.
Qed.

(** ** Choosing destinations *)

Lemma ident_fields f f' : ident f' = ident f → f_destination (fr f') = f_destination (fr f) ∧ f_payload (fr f') = f_payload (fr f) ∧
  queue (fr f') = queue (fr f) ∧ enqueued_at f' = enqueued_at f ∧ manual_destinations f' = manual_destinations f.
Proof. destruct f as [? ? ? []], f' as [? ? ? []]. cbn. intros [=]. by subst. Qed.
Lemma ident_links f f' : ident f' = ident f → prev f' = prev f ∧ next f' = next f.
Proof. destruct f, f'. cbn. by intros [=]. Qed.

(** Code on a frame that also leaves the packet alone. *)
Definition calmly (ext : nat → Z) (ls : list (list nat)) (a : nat) (st st' : qstate) : Prop := calm ext ls a st st' ∧ q_packet st' = q_packet st.
Lemma calmly_trans ext ls a st1 st2 st3 : calmly ext ls a st1 st2 → calmly ext ls a st2 st3 → calmly ext ls a st1 st3.
Proof. intros [H1 E1] [H2 E2]. split; [by eapply calm_trans|congruence]. Qed.
Lemma calmly_refl ext ls a st : qinv ext ls st → calmly ext ls a st st.
Proof. intros H. split; [by apply calm_refl|done]. Qed.
Lemma runs_calmly {A} (p : prog qstate A) ext ls a st0 st : calmly ext ls a st0 st →
  runs p st (λ _ st', calmly ext ls a st st') → runs p st (λ _ st', calmly ext ls a st0 st').
Proof. intros Hc Hr. eapply runs_mono; [exact Hr|]. intros x st'. by apply calmly_trans. Qed.
(** Sequencing. *)
Lemma runs_seq {A B} (p : prog qstate A) (k : A → prog qstate B) ext ls a st : runs p st (λ _ st', calmly ext ls a st st') →
  (∀ x st', calmly ext ls a st st' → runs (k x) st' (λ _ st'', calmly ext ls a st' st'')) → runs (p ≫= k) st (λ _ st', calmly ext ls a st st').
Proof. intros Hp Hk. apply runs_bind. eapply runs_mono; [exact Hp|]. intros x st' Hc. apply runs_calmly; [done|]. by apply Hk. Qed.

(** A next hop that fits the frame. *)
Definition hop_ok (n : nat) (f : queued) (next : option nat) : Prop :=
  (∀ h, next = Some h → (h < n)%nat) ∧ (is_Some (f_destination (fr f)) → is_Some next).
Lemma hop_kept a st st' f f' next : kept a st st' → ident f' = ident f → hop_ok (length (q_ss st)) f next → hop_ok (length (q_ss st')) f' next.
Proof.
  intros Hk Hid [H1 H2]. unfold hop_ok. rewrite (plain_length _ _ (ke_plain _ _ _ Hk)). destruct (ident_fields _ _ Hid) as (-> & _). done.
Qed.

Lemma add_calmly ext ls a f next dest st : qinv ext ls st → q_frames st !! a = Some f → 0 < weight ext (q_frames st) (p_destination (q_packet st)) dest →
  hop_ok (length (q_ss st)) f next → runs (frame_add_destination a next dest) st (λ _ st', calmly ext ls a st st').
Proof. intros Hi Ha Hd [H1 H2]. by apply (add_destination_calm _ _ _ f). Qed.

Lemma add_links_calm ext ls a next now bounded l : ∀ st f, qinv ext ls st → q_frames st !! a = Some f → Forall (λ l, 0 < ext l.2) l →
  hop_ok (length (q_ss st)) f next → runs (add_links a next now bounded l) st (λ _ st', calmly ext ls a st st').
Proof.
  induction l as [|[timeout d] l IH]; intros st f Hi Ha Hl Hh; cbn [add_links]; [apply runs_ret; by apply calmly_refl|].
  apply Forall_cons in Hl as [Hd Hl]. apply runs_bind, (runs_frame _ f); [done|]. apply runs_seq.
  - destruct (_ && _); [|apply runs_ret; by apply calmly_refl]. apply (add_calmly _ _ _ f); try done. by apply (ext_weight ext ls).
  - intros _ st' [Hc _]. destruct (kept_live _ _ _ _ (proj2 Hc) Ha) as (f' & Ha' & Hid). apply (IH st' f'); [apply Hc|done|done|].
    by apply (hop_kept a st st' f); [apply Hc|..].
Qed.

Lemma drop_stale_calm ext ls a dest n : ∀ st f, qinv ext ls st → q_frames st !! a = Some f → destination_count f = Z.of_nat n →
  runs (drop_stale n a dest) st (λ _ st', calmly ext ls a st st').
Proof.
  induction n as [|i IH]; intros st f Hi Ha Hn; cbn [drop_stale]; [apply runs_ret; by apply calmly_refl|].
  apply runs_bind, (runs_frame _ f); [done|]. destruct (slot_live _ _ _ _ _ (Z.of_nat i) Hi Ha) as (s & d & x & Hs & _); [lia|].
  apply runs_bind, (runs_slot _ _ s); [lia|done|]. destruct (bool_decide _); [apply runs_ret; by apply calmly_refl|].
  apply runs_bind. eapply runs_mono; [apply (remove_destination_calm ext ls a f (Z.of_nat i) st Hi Ha); lia|].
  cbn beta. intros _ st' (Hc & Ha' & Hp). apply runs_calmly; [done|]. apply (IH st' _ (ca_inv _ _ _ _ _ Hc) Ha'). cbn. lia.
Qed.

Lemma directory_hop_runs ext ls d st : qinv ext ls st → (d < length (q_ss st))%nat →
  runs (directory_hop directory_service d) st (λ h st', st' = st ∧ (h < length (q_ss st))%nat).
Proof.
  intros Hi Hd. unfold directory_hop. destruct (lookup_lt_is_Some_2 (q_ss st) d Hd) as [x Hx]. apply runs_bind, (runs_subscriber _ x); [done|].
  destruct directory_service as [s|] eqn:Es; [|by apply runs_ret]. destruct (_ && _); [|by apply runs_ret].
  pose proof (ro_directory _ _ _ _ _ (qi_routes _ _ _ Hi) s Es) as Hs. destruct (lookup_lt_is_Some_2 (q_ss st) s Hs) as [y Hy].
  apply runs_bind, (runs_subscriber _ y); [done|]. apply runs_ret. split; [done|]. by destruct (on _ _).
Qed.

Variable load_subscriber_address : nat → prog qstate (option nat).
(** A configured address is a new destination with one reference, its caller's. *)
Hypothesis load_ok : ∀ d ext ls a st, qinv ext ls st → runs (load_subscriber_address d) st (λ r st', q_packet st' = q_packet st ∧
  match r with None => calm ext ls a st st' | Some x => calm (bump ext x 1) ls a st st' end).

Lemma kept_routes ext ls a st st' : qinv ext ls st → kept a st st' →
  routes_ok ext (q_ss st') (q_routes st') (q_neighbours st') (length (q_interfaces st')).
Proof.
  intros Hi Hk. destruct (ke_routes _ _ _ Hk) as [-> ->]. rewrite (ke_interfaces _ _ _ Hk). apply (plain_routes _ (q_ss st)); [apply Hk|apply Hi].
Qed.

(** The caller's reference is given back. *)
Lemma release_ext ext ls a x st : qinv (bump ext x 1) ls st → routes_ok ext (q_ss st) (q_routes st) (q_neighbours st) (length (q_interfaces st)) →
  runs (release_destination_ref x) st (λ _ st', calmly ext ls a st st').
Proof.
  intros Hi Hro. pose proof Hi as [H1 H2 H3 H4 H5 H6 H7]. eapply runs_mono; [apply (release_runs _ x st H2)|].
  { unfold weight, bump. pose proof (ro_ext _ _ _ _ _ Hro x). rewrite decide_True by done. destruct (decide (_ = Some x)); lia. }
  cbn beta. intros _ ? (ds & -> & Hc & Hw). split; [|done]. split; [|by split]. split; cbn; try done; [|by eapply within_ok].
  revert Hc. apply counted_ext. intros d. unfold weight, bump. destruct (decide (d = x)); lia.
Qed.

Lemma load_calm ext ls a hop d f st : qinv ext ls st → q_frames st !! a = Some f → hop_ok (length (q_ss st)) f (Some hop) →
  runs (dest ← load_subscriber_address d;
        match dest with Some dest => frame_add_destination a (Some hop) dest;; release_destination_ref dest | None => mret tt end) st
    (λ _ st', calmly ext ls a st st').
Proof.
  intros Hi Ha Hh. apply runs_bind. eapply runs_mono; [by apply (load_ok d ext ls a)|]. cbn beta. intros [x|] st1 [Hp Hc].
  2: { apply runs_ret. by split. }
  destruct Hc as [Hi1 Hk1]. destruct (kept_live _ _ _ _ Hk1 Ha) as (f1 & Ha1 & Hid1). apply runs_bind.
  eapply runs_mono; [apply (add_calmly (bump ext x 1) ls a f1 (Some hop) x st1 Hi1 Ha1)|].
  { apply (ext_weight _ ls); [done|]. unfold bump. rewrite decide_True by done. pose proof (ro_ext _ _ _ _ _ (qi_routes _ _ _ Hi) x). lia. }
  { by apply (hop_kept a st st1 f). }
  cbn beta. intros _ st2 [[Hi2 Hk2] Hp2]. assert (kept a st st2) as Hk by (by eapply kept_trans).
  eapply runs_mono; [apply (release_ext ext ls a x st2 Hi2); by apply (kept_routes ext ls a st)|].
  cbn beta. intros _ st3 [[Hi3 Hk3] Hp3]. split; [|congruence]. split; [done|]. by eapply kept_trans.
Qed.

Lemma hop_of f d n hop : f_destination (fr f) = Some d → (hop < n)%nat → hop_ok n f (Some hop).
Proof. intros Hd Hh. split; [by intros h [= <-]|by eexists]. Qed.

Lemma unicast_calm ext ls a d f st : qinv ext ls st → q_frames st !! a = Some f → f_destination (fr f) = Some d →
  runs (unicast_destinations gettime_ms directory_service load_subscriber_address a d) st (λ _ st', calmly ext ls a st st').
Proof.
  intros Hi Ha Hd. pose proof (fk_destination _ _ (frame_live _ _ _ _ _ Hi Ha) d Hd) as Hdn. unfold unicast_destinations.
  apply runs_bind. eapply runs_mono; [by apply (directory_hop_runs ext ls)|]. cbn beta. intros hop ? (-> & Hhop).
  destruct (lookup_lt_is_Some_2 (q_ss st) hop Hhop) as [x Hx]. apply runs_bind, (runs_subscriber _ x); [done|]. apply runs_bind, (runs_frame _ f); [done|].
  apply runs_seq.
  { destruct (_ && _); [|apply runs_ret; by apply calmly_refl]. apply runs_bind, runs_ask.
    destruct (list_find _ _) as [[k n]|] eqn:El; [|apply runs_ret; by apply calmly_refl].
    apply list_find_Some in El as (Hn & _). apply list_elem_of_lookup_2 in Hn.
    apply runs_bind, (runs_gettime ext ls a); [done|]. intros Hc. apply runs_calmly; [by split|]. apply (add_links_calm ext ls a _ _ _ _ _ f); [apply Hc|done| |].
    - by destruct (ro_neighbours _ _ _ _ _ (qi_routes _ _ _ Hi) n Hn).
    - by apply (hop_of _ d). }
  intros _ st1 [[Hi1 Hk1] Hp1]. destruct (kept_live _ _ _ _ Hk1 Ha) as (f1 & Ha1 & Hid1). destruct (ident_fields _ _ Hid1) as (Hd1 & _).
  apply runs_bind, (runs_frame _ f1); [done|]. apply runs_seq.
  { destruct (_ && _); [|apply runs_ret; by apply calmly_refl]. apply (load_calm ext ls a hop d f1); [done|done|].
    apply (hop_of _ d); [congruence|]. by rewrite (plain_length _ _ (ke_plain _ _ _ Hk1)). }
  intros _ st2 [[Hi2 Hk2] Hp2]. assert (kept a st st2) as Hk by (by eapply kept_trans).
  destruct (kept_live _ _ _ _ Hk Ha) as (f2 & Ha2 & Hid2). destruct (ident_fields _ _ Hid2) as (Hd2 & _).
  destruct (plain_lookup _ _ _ _ (ke_plain _ _ _ Hk) Hx) as (x2 & Hx2 & _ & Hreach & _). pose proof (plain_length _ _ (ke_plain _ _ _ Hk)) as Hlen.
  pose proof (qi_routes _ _ _ Hi2) as Hro. destruct (ro_route _ _ _ _ _ Hro hop x2 Hx2) as (r & Hr & _ & Hind). rewrite Hreach in Hind.
  apply runs_bind. assert (runs (if Z.land (reachable x) REACHABLE =? REACHABLE_INDIRECT then r ← the_route hop; deref (r_next_hop r) else mret hop) st2
    (λ h st', st' = st2 ∧ (h < length (q_ss st2))%nat)) as Hhop2.
  { destruct (Z.eqb_spec (Z.land (reachable x) REACHABLE) REACHABLE_INDIRECT) as [E|E]; [|apply runs_ret; split; [done|lia]].
    destruct (Hind E) as (h & Hh & Hlt). apply runs_bind, (runs_route _ r); [done|]. by apply (runs_deref _ h). }
  eapply runs_mono; [exact Hhop2|]. cbn beta. intros h ? (-> & Hh). destruct (lookup_lt_is_Some_2 (q_ss st2) h Hh) as [y Hy].
  apply runs_bind, (runs_subscriber _ y); [done|]. destruct (on (reachable y) REACHABLE_DIRECT) eqn:Edir; [|apply runs_ret; by apply calmly_refl].
  destruct (ro_route _ _ _ _ _ Hro h y Hy) as (r' & Hr' & Hdir & _). destruct (Hdir Edir) as (dest & Hdest & Hpos).
  apply runs_bind, (runs_route _ r'); [done|]. apply runs_bind, (runs_frame _ f2); [done|].
  pose proof (fk_count _ _ (frame_live _ _ _ _ _ Hi2 Ha2)). apply runs_seq; [apply (drop_stale_calm ext ls a _ _ st2 f2 Hi2 Ha2); lia|].
  intros same st3 [[Hi3 Hk3] Hp3]. destruct same; [apply runs_ret; by apply calmly_refl|]. destruct (kept_live _ _ _ _ Hk3 Ha2) as (f3 & Ha3 & Hid3).
  destruct (ident_fields _ _ Hid3) as (Hd3 & _). apply runs_bind, (runs_deref _ dest); [done|]. apply (add_calmly ext ls a f3 (Some h) dest st3 Hi3 Ha3).
  - by apply (ext_weight ext ls).
  - apply (hop_of _ d); [congruence|]. by rewrite (plain_length _ _ (ke_plain _ _ _ Hk3)).
Qed.

Lemma with_version_calm ext ls a f v st : qinv ext ls st → q_frames st !! a = Some f → 0 ≤ v ≤ SUPPORTED_PACKET_VERSION →
  calmly ext ls a st (set_frames (<[a := set_fr (with_version v (fr f)) f]> (q_frames st)) st).
Proof.
  intros Hi Ha Hv. split; [|done]. apply (qinv_upd _ _ _ _ f); try done. destruct (frame_live _ _ _ _ _ Hi Ha). by split.
Qed.

Lemma broadcast_calm ext ls a ns : ∀ added st f, qinv ext ls st → q_frames st !! a = Some f → f_destination (fr f) = None →
  (∀ n, n ∈ ns → n ∈ q_neighbours st) → length added = OVERLAY_MAX_INTERFACES →
  runs (broadcast_destinations gettime_ms a added ns) st (λ _ st', calmly ext ls a st st').
Proof.
  induction ns as [|n ns IH]; intros added st f Hi Ha Hd Hns Hlen; cbn [broadcast_destinations]; [apply runs_ret; by apply calmly_refl|].
  assert (∀ added st' , calmly ext ls a st st' → length added = OVERLAY_MAX_INTERFACES →
    runs (broadcast_destinations gettime_ms a added ns) st' (λ _ st'', calmly ext ls a st' st'')) as Hrec.
  { intros added' st' [Hc Hp] Hlen'. destruct (kept_live _ _ _ _ (proj2 Hc) Ha) as (f' & Ha' & Hid). destruct (ident_fields _ _ Hid) as (Hd' & _).
    apply (IH added' st' f'); [apply Hc|done|congruence| |done]. intros m Hm. destruct (ke_routes _ _ _ (proj2 Hc)) as [_ ->]. apply Hns. by right. }
  pose proof (qi_routes _ _ _ Hi) as Hro. destruct (ro_neighbours _ _ _ _ _ Hro n) as [Hn Hlinks]; [apply Hns; by left|].
  destruct (lookup_lt_is_Some_2 (q_ss st) _ Hn) as [x Hx]. apply runs_bind, (runs_subscriber _ x); [done|].
  assert (∀ st f, f_destination (fr f) = None → hop_ok (length (q_ss st)) f None) as Hnone.
  { intros st' f' Hd'. split; [done|]. rewrite Hd'. intros [? ?]. done. }
  destruct (on (reachable x) REACHABLE_DIRECT) eqn:Edir.
  - destruct (ro_route _ _ _ _ _ Hro _ _ Hx) as (r & Hr & Hdir & _). destruct (Hdir Edir) as (dest & Hdest & Hpos).
    apply runs_bind, (runs_route _ r); [done|]. apply runs_bind, (runs_deref _ dest); [done|]. apply runs_bind, (runs_frame _ f); [done|].
    apply runs_seq. { destruct (_ <? _); [apply (runs_upd_frame _ f); [done|]; apply with_version_calm; [done|done|by eapply (ro_version _ _ _ _ _ Hro)]|apply runs_ret; by apply calmly_refl]. }
    intros _ st1 Hc1. pose proof Hc1 as [[Hi1 Hk1] Hp1]. destruct (kept_live _ _ _ _ Hk1 Ha) as (f1 & Ha1 & Hid1). destruct (ident_fields _ _ Hid1) as (Hd1 & _).
    assert (0 < weight ext (q_frames st1) (p_destination (q_packet st1)) dest) as Hw1 by (by apply (ext_weight ext ls)).
    destruct (dest_live _ _ _ _ Hi1 Hw1) as (y & Hy & Hyok). apply runs_bind, (runs_dest _ y); [done|].
    assert (∀ added, length added = OVERLAY_MAX_INTERFACES →
      runs (frame_add_destination a None dest;; broadcast_destinations gettime_ms a added ns) st1 (λ _ st', calmly ext ls a st1 st')) as Hadd.
    { intros added' Hlen'. apply runs_seq; [apply (add_calmly ext ls a f1); [done|done|done|apply Hnone; congruence]|].
      intros _ st2 Hc2. apply Hrec; [by eapply calmly_trans|done]. }
    destruct (negb (d_unicast y)); [|by apply Hadd]. destruct (dk_interface _ _ Hyok) as (j & Hj & Hjlt). apply runs_bind, (runs_deref _ j); [done|].
    destruct (lookup_lt_is_Some_2 added j) as [was Hwas]; [pose proof (ro_interfaces _ _ _ _ _ (qi_routes _ _ _ Hi1)); lia|].
    apply runs_bind, (runs_deref _ was); [done|]. destruct was; [by apply Hrec|]. apply Hadd. by rewrite length_insert.
  - destruct (negb (on (reachable x) REACHABLE)); [|apply Hrec; [by apply calmly_refl|done]].
    apply runs_bind, (runs_gettime ext ls a); [done|]. intros Hc. apply runs_calmly; [by split|]. apply runs_seq.
    + apply (add_links_calm ext ls a _ _ _ _ _ f); [apply Hc|done|done|by apply Hnone].
    + intros _ st2 Hc2. apply Hrec; [|done]. eapply calmly_trans; [|exact Hc2]. by split.
Qed.

Lemma link_add_calm ext ls a f st : qinv ext ls st → q_frames st !! a = Some f →
  runs (link_add_destinations gettime_ms directory_service load_subscriber_address a) st (λ _ st', calmly ext ls a st st').
Proof.
  intros Hi Ha. unfold link_add_destinations. apply runs_bind, (runs_frame _ f); [done|]. destruct (f_destination (fr f)) as [d|] eqn:Ed.
  - by apply (unicast_calm ext ls a d f).
  - destruct (destination_count f =? 0); [|apply runs_ret; by apply calmly_refl]. apply runs_bind, runs_ask. by apply (broadcast_calm ext ls a _ _ _ f).
Qed.

(** ** Removing a frame *)

Lemma mem_ok_links m fs fs' p : links_only fs fs' → mem_ok m fs p → mem_ok m fs' p.
Proof.
  intros Hl [H1 H2 H3]. assert (∀ b pl, payload_at fs' b pl → payload_at fs b pl) as Hsame.
  { intros b pl (g & Hg & Hpl). destruct (links_only_lookup _ _ _ _ Hl Hg) as (g0 & Hg0 & Ec). exists g0. split; [done|].
    destruct g, g0. cbn in *. injection Ec as -> -> -> -> -> -> -> -> -> ->. done. }
  split.
  - intros b pl Hb. eapply H1. by apply Hsame.
  - intros b b' pl pl' q q' Hne Hb Hb'. by apply (H2 b b'); [|apply Hsame..].
  - destruct H3 as [Hnone H3]. split; [done|]. intros b Hb. destruct (H3 b Hb) as (? & ? & ? & Hap). split_and!; try done.
    intros c pl q Hc. apply (Hap c). by apply Hsame.
Qed.

Definition emptied (f : queued) : queued := set_destinations (destinations f) 0 f.

Lemma release_all_runs ext n a k : ∀ f st, (∀ d, 0 ≤ ext d) → q_frames st !! a = Some f → frame_ok n f → destination_count f = Z.of_nat k →
  let p := p_destination (q_packet st) in counted (weight ext (q_frames st) p) (q_dests st) →
  runs (release_all k a) st (λ _ st', ∃ ds', st' = set_dests ds' (set_frames (<[a := emptied f]> (q_frames st)) st) ∧
    counted (weight ext (<[a := emptied f]> (q_frames st)) p) ds' ∧ within (q_dests st) ds').
Proof.
  induction k as [|k IH]; intros f st Hext Ha Hf Hk p Hc; cbn [release_all].
  - apply runs_ret. exists (q_dests st). assert (emptied f = f) as -> by (unfold emptied; destruct f; cbn in *; by subst).
    rewrite insert_id by done. split_and!; [by destruct st|done|apply within_refl].
  - apply runs_bind, (runs_upd_frame _ f); [done|]. set (f1 := set_destinations _ _ f).
    assert (drop_slot (Z.of_nat k) f = f1) as Ed. { unfold drop_slot, f1. rewrite (proj2 (Z.ltb_ge _ _)) by lia. done. }
    pose proof (fk_count _ _ Hf). destruct (slot_at n f (Z.of_nat k) Hf) as (s & Hs & ([d Hd] & _)); [lia|].
    apply runs_bind, (runs_frame _ f1); [apply lookup_insert_eq|]. apply runs_bind, (runs_slot _ _ s); [cbn; lia| |].
    { cbn. replace (Z.to_nat (destination_count f - 1)) with (Z.to_nat (Z.of_nat k)) by lia. done. }
    apply runs_bind, (runs_deref _ d); [done|]. apply runs_bind. set (st1 := set_frames _ st).
    eapply runs_mono; [apply (release_runs (weight ext (q_frames st) p) d st1 Hc); apply (weight_slot _ _ _ a f (Z.of_nat k) s); done || lia|].
    cbn beta. intros _ ? (ds & -> & Hc1 & Hw1). set (st2 := set_dests ds st1).
    assert (counted (weight ext (q_frames st2) p) (q_dests st2)) as Hc2.
    { revert Hc1. apply counted_ext. intros d'. cbn. rewrite (weight_upd _ _ _ _ f) by done. rewrite (drop_slot_refs n f (Z.of_nat k) s d') by (done || lia).
      rewrite Hd, Ed. unfold bump. destruct (decide (d' = d)) as [->|Hne]; [rewrite decide_True by done|rewrite decide_False by congruence]; lia. }
    eapply runs_mono; [apply (IH f1 st2); [done|apply lookup_insert_eq| |cbn; lia|done]|].
    { rewrite <- Ed. apply drop_slot_ok; [done|lia]. }
    cbn beta. intros _ ? (ds' & -> & Hc' & Hw'). exists ds'. cbn in Hc', Hw' |- *. rewrite insert_insert_eq in *. split_and!; [done|done|].
    by eapply within_trans.
Qed.

Lemma refs_emptied d f : refs d (emptied f) = 0%nat.
Proof. done. Qed.

(** What removing a frame leaves alone. *)
Record removed (a : nat) (st st' : qstate) : Prop := {
  rm_frames : links_only (delete a (q_frames st)) (q_frames st');
  rm_packet : q_packet st' = q_packet st;
  rm_interfaces : q_interfaces st' = q_interfaces st;
  rm_sched : q_sched st' = q_sched st;
  rm_store : q_ss st' = q_ss st;
  rm_routes : q_routes st' = q_routes st ∧ q_neighbours st' = q_neighbours st;
  rm_tx i : latencyTarget <$> q_tx st' !! i = latencyTarget <$> q_tx st !! i;
}.

Lemma free_frame_runs a f p n st : q_frames st !! a = Some f → prev f = p → next f = n →
  (∀ b, p = Some b → ∃ g, q_frames st !! b = Some g ∧ next g ≠ Some a) → (∀ b, n = Some b → ∃ g, q_frames st !! b = Some g ∧ prev g ≠ Some a) →
  mem_ok (q_mem st) (q_frames st) (q_packet st) → is_Some (f_payload (fr f)) →
  runs (free_frame a) st (λ r st', r = 0 ∧ ∃ m, st' = set_frames (delete a (q_frames st)) (set_qmem m st) ∧ mem_ok m (delete a (q_frames st)) (q_packet st)).
Proof.
  intros Ha Hp Hn HP HN Hm [pl Hpl]. unfold free_frame. apply runs_bind, (runs_frame _ f); [done|]. rewrite Hp, Hn.
  assert (∀ o (link : queued → option nat), (∀ b, o = Some b → ∃ g, q_frames st !! b = Some g ∧ link g ≠ Some a) →
    runs (still_linked o link a) st (λ r st', st' = st ∧ r = false)) as Hlink.
  { intros o link Ho. unfold still_linked. destruct o as [b|]; [|by apply runs_ret]. destruct (Ho b eq_refl) as (g & Hg & Hne).
    apply runs_bind, (runs_frame _ g); [done|]. apply runs_ret. by rewrite bool_decide_false. }
  apply runs_bind. eapply runs_mono; [by apply (Hlink p next)|]. cbn beta. intros ? ? (-> & ->).
  apply runs_bind. eapply runs_mono; [by apply (Hlink n prev)|]. cbn beta. intros ? ? (-> & ->).
  apply runs_bind, runs_ask. rewrite Hpl. destruct (free_payload _ _ _ a f pl Hm Ha Hpl) as (m & Hfree & Hm').
  apply runs_bind, (runs_lift _ m); [done|]. apply runs_bind, runs_change. apply runs_ret. split; [done|]. by exists m.
Qed.

Lemma remove_runs ext ls i p a s st : qinv ext ls st → ls !! i = Some (p ++ a :: s) →
  runs (overlay_queue_remove i a) st (λ r st', r = head s ∧ qinv ext (<[i := p ++ s]> ls) st' ∧ removed a st st').
Proof.
  intros Hi Hl. pose proof Hi as [Hqs Hct Hfs Hds Hro Hm Ht]. pose proof (qs_rep _ _ _ Hqs i _ Hl) as Hr.
  destruct (queue_live _ _ _ _ a Hr) as [f Ha]; [apply elem_of_app; right; left|]. pose proof (Hfs a f Ha) as Hf.
  unfold overlay_queue_remove. apply runs_bind, (runs_frame _ f); [done|]. cbv zeta. apply runs_bind.
  destruct (unlink_runs i a p s f st Hr Ha) as (q & Hq & Hun). eapply runs_mono; [exact Hun|]. cbn beta. intros _ st1 Hul.
  pose proof Hul as [(fs1 & tx1 & ->) HL Hself HF HB (q' & Htx & Hends)]. cbn [q_frames set_frames q_tx set_tx] in *.
  apply runs_bind, (runs_frame _ f); [done|]. set (st1 := set_frames fs1 (set_tx tx1 st)) in *. pose proof (fk_count _ _ Hf) as Hcount.
  assert (counted (weight ext fs1 (p_destination (q_packet st))) (q_dests st)) as Hct1.
  { revert Hct. apply counted_ext. intros d. unfold weight. by rewrite (links_only_total (q_frames st) fs1 d HL). }
  apply runs_bind. eapply runs_mono; [apply (release_all_runs ext (length (q_ss st)) a _ f st1 (ro_ext _ _ _ _ _ Hro) Hself Hf); [lia|exact Hct1]|].
  cbn beta. intros _ ? (ds & -> & Hct2 & Hw2). set (fs2 := <[a := emptied f]> (q_frames st1)) in *.
  destruct (linked_at _ _ _ _ _ _ _ (qr_seg _ _ _ _ Hr) (qr_backs _ _ _ _ Hr)) as [En Ep]. unfold fwd, bwd in En, Ep. rewrite Ha in En, Ep. injection En as En. injection Ep as Ep.
  assert ((if decide (p = []) then None else last p) = last p) as Hlp by (by destruct p). rewrite Hlp in Ep.
  destruct (NoDup_mid _ _ _ (qr_nodup _ _ _ _ Hr)) as (Hap & Has & Hnd).
  assert (links_only (q_frames st) (<[a := f]> fs1)) as HL1 by (by rewrite insert_id).
  assert (mem_ok (q_mem st) fs2 (q_packet st)) as Hm2.
  { apply (mem_ok_upd _ fs1 _ a f); [|done|done]. by apply (mem_ok_links _ (q_frames st)). }
  assert (∀ b, b ∈ p ++ s → b ≠ a ∧ ∃ g, fs1 !! b = Some g) as Hother.
  { intros b Hb. split; [intros ->; by apply elem_of_app in Hb as [?|?]|]. destruct (queue_live _ _ _ _ b Hr) as [g0 Hg0].
    { apply elem_of_app in Hb as [?|?]; apply elem_of_app; [by left|right; by right]. }
    specialize (HL b). rewrite Hg0 in HL. apply fmap_Some in HL as (g & -> & _). by exists g. }
  apply runs_bind. eapply runs_mono; [apply (free_frame_runs a (emptied f) (last p) (head s)); [apply lookup_insert_eq|done|done| | |done|apply (fk_payload _ _ Hf)]|].
  { intros b Hb. destruct (Hother b) as (Hne & g & Hg); [apply elem_of_app; left; by apply last_snoc_in|]. exists g.
    split; [cbn; unfold fs2; by rewrite lookup_insert_ne|]. specialize (HF b). rewrite decide_True in HF by done. unfold fwd in HF. rewrite Hg in HF. injection HF as ->.
    intros E. by apply head_in in E. }
  { intros b Hb. destruct (Hother b) as (Hne & g & Hg); [apply elem_of_app; right; by apply head_in|]. exists g.
    split; [cbn; unfold fs2; by rewrite lookup_insert_ne|]. specialize (HB b). rewrite decide_True in HB by done. unfold bwd in HB. rewrite Hg in HB. injection HB as ->.
    intros E. by apply last_snoc_in in E. }
  cbn beta. intros ? ? (-> & m & -> & Hm3). apply runs_ret. cbn [q_frames set_frames set_dests set_qmem] in *.
  assert (delete a fs2 = delete a fs1) as Edel by (unfold fs2; cbn; by rewrite delete_insert_eq). rewrite Edel in *.
  assert (links_only (delete a (q_frames st)) (delete a fs1)) as HLd.
  { intros b. destruct (decide (a = b)) as [<-|]; [by rewrite !lookup_delete_eq|]. rewrite !lookup_delete_ne by done. apply HL. }
  split; [done|]. split.
  - split; cbn; try done.
    + apply (unlinked_queues i a p s q f st st1 ls); try done. intros b Hb. unfold fwd, bwd. by rewrite lookup_delete_ne.
    + revert Hct2. apply counted_ext. intros d. unfold weight. rewrite <- Edel. rewrite (total_delete a (emptied f) fs2) by apply lookup_insert_eq.
      rewrite refs_emptied. done.
    + intros b g Hg. apply lookup_delete_Some in Hg as [Hne Hg]. destruct (links_only_lookup _ _ _ _ HL Hg) as (g0 & Hg0 & Ec).
      apply (frame_ok_core _ g0); [done|]. by apply (Hfs b).
    + by eapply within_ok.
  - split; cbn; try done. intros j. rewrite Htx. destruct (decide (i = j)) as [<-|]; [|by rewrite list_lookup_insert_ne].
    rewrite list_lookup_insert_eq by (by eapply lookup_lt_Some). rewrite Hq. cbn. by destruct Hends as (_ & _ & _ & _ & _ & ->).
Qed.

End Inv.
End OverlayQueueInv.
