(* ===== verification/OverlayQueuePacket.v ===== *)
(** * Writing packets from the queues

    A packet is started for one destination of a frame and filled with frames that go
    the same way; the payloads of all frames stay as they are. *)

From S2P Require Import Prelude Mem Prog OverlayBuffer OverlayBufferSpec OverlayBufferCodec OverlayBufferFill Limit StrScan DataFormats OverlayAddress OverlayAddressTree OverlayAddressCodec OverlayAddressRound LinkWindow OverlayFrame OverlayFrameRound FdQueue FdQueueSpec OverlayQueue OverlayQueueSpec OverlayQueueTimer OverlayQueueInv.
Import Prog OB OBSpec OBFill Limit OverlayAddress OverlayAddressTree OverlayAddressCodec OverlayAddressRound LinkWindow OverlayFrame OverlayFrameRound FdQueueSpec OverlayQueue OverlayQueueSpec OverlayQueueTimer OverlayQueueInv.

Module OverlayQueuePacket.
Section Packet.
Context {arch : Arch} {allocator : Allocator}.

(** ** What writing leaves alone *)

(** Objects apart from the packet, and the subscribers but for [send_full]. *)
Record tame (t t' : tx) : Prop := {
  ta_objects k l : tx_m t !! k = Some l → apart (tx_b t) k → tx_m t' !! k = Some l ∧ apart (tx_b t') k;
  ta_plain : plain (tx_ss t') = plain (tx_ss t);
}.
Lemma tame_refl t : tame t t.
Proof. by split. Qed.
Lemma tame_trans t1 t2 t3 : tame t1 t2 → tame t2 t3 → tame t1 t3.
Proof. intros [H1 H2] [H3 H4]. split; [|congruence]. intros k l Hk Ha. destruct (H1 k l Hk Ha). by apply H3. Qed.

(** A step that writes bytes. *)
Definition tamely (g : tx → outcome tx) : Prop := ∀ t t', g t = Ret t' → tame t t'.
Lemma tame_append t bs m b c : append_raw (tx_m t) (tx_b t) bs = Ret (m, b) → tame t (Tx c m b (tx_ss t)).
Proof. intros H. split; [|done]. intros k l Hk Ha. by apply (append_frame _ _ _ _ _ _ _ H). Qed.
Lemma tame_bytes t bs m b c : ob_append_bytes (tx_m t) (tx_b t) bs = Ret (m, b) → tame t (Tx c m b (tx_ss t)).
Proof. unfold ob_append_bytes. destruct (_ <? _); [|done]. by apply tame_append. Qed.
Lemma tame_byte v : tamely (put_byte v).
Proof. intros t t' H. unfold put_byte in H. apply bind_ret_inv in H as ([m b] & H & [= <-]). by eapply tame_append. Qed.
Lemma tame_address my s : tamely (put_address my s).
Proof.
  intros [c m b ss] t' H. unfold put_address in H. cbn [tx_c tx_m tx_b tx_ss] in H. apply bind_ret_inv in H as ([[[c' m'] b'] ss'] & H & H').
  destruct c' as [c'|]; [|done]. injection H' as <-. unfold overlay_address_append in H. destruct s as [s|]; [|done]. destruct (ss !! s) as [x|] eqn:Ex; [|done].
  apply bind_ret_inv in H as (code & _ & H). apply bind_ret_inv in H as ([[m1 b1] ss1] & H & H'). injection H' as <- <- <- <-. destruct code as [code|].
  - apply bind_ret_inv in H as ([m2 b2] & H & [= <- <- <-]). by apply (tame_append (Tx c m b ss) _ _ _ _ H).
  - apply bind_ret_inv in H as ([m2 b2] & H & H'). destruct (bool_decide _); [|done]. apply bind_ret_inv in H' as ([m3 b3] & H' & [= <- <- <-]).
    apply (tame_trans _ (Tx c m2 b2 ss)); [by apply (tame_append (Tx c m b ss) _ _ _ c H)|]. cbn in H'. destruct (tame_bytes (Tx c m2 b2 ss) _ _ _ c H') as [Ho _].
    split; [exact Ho|]. cbn. destruct (send_full x) eqn:Es; [|done]. unfold plain. rewrite list_fmap_insert. apply list_insert_id. rewrite list_lookup_fmap, Ex. cbn. by destruct x.
Qed.
Lemma tame_broadcast bc : tamely (put_broadcast bc).
Proof.
  intros t t' H. unfold put_broadcast in H. destruct bc as [id|]; [|done]. apply bind_ret_inv in H as ([m b] & H & [= <-]). unfold overlay_broadcast_append in H.
  destruct (bool_decide _); [|done]. by eapply tame_bytes.
Qed.
Lemma tame_if (c : bool) g h : tamely g → tamely h → tamely (λ t, if c then g t else h t).
Proof. by destruct c. Qed.
Lemma tame_ret : tamely (λ t, Ret t).
Proof. intros t t' [= <-]. apply tame_refl. Qed.
Lemma tame_seq g h : tamely g → tamely h → tamely (λ t, t ← g t; h t).
Proof. intros Hg Hh t t' H. apply bind_ret_inv in H as (t1 & H1 & H). eapply tame_trans; [by apply Hg|by apply Hh]. Qed.

Lemma tame_header my v t q ty md wr ttl s bc nh d src r : overlay_frame_build_header my v t q ty md wr ttl s bc nh d src = Ret r → tame t r.1.
Proof.
  unfold overlay_frame_build_header. destruct (_ || _); [intros [= <-]; apply tame_refl|]. cbv zeta. set (flags := header_flags _ _ _ _ _ _ _ _ _).
  intros H. apply bind_ret_inv in H as (t1 & H1 & H). apply tame_byte in H1.
  apply bind_ret_inv in H as (t2 & H2 & H). apply (tame_if (negb _) (put_address my src) (λ t, Ret t) (tame_address my src) tame_ret) in H2.
  apply bind_ret_inv in H as (t3 & H3 & H). assert (tame t2 t3) as H3'.
  { destruct (on flags PAYLOAD_FLAG_TO_BROADCAST).
    - revert H3. by apply (tame_if (negb _) (put_broadcast bc) (λ t, Ret t) (tame_broadcast bc) tame_ret).
    - revert H3. apply (tame_seq (put_address my d) _ (tame_address my d)). apply (tame_if (negb _) (put_address my nh) (λ t, Ret t) (tame_address my nh) tame_ret). }
  apply bind_ret_inv in H as (t4 & H4 & H). apply (tame_if (negb _) (put_byte _) (λ t, Ret t) (tame_byte _) tame_ret) in H4.
  apply bind_ret_inv in H as (t5 & H5 & H). apply (tame_if (on flags _) (put_byte _) (λ t, Ret t) (tame_byte _) tame_ret) in H5.
  apply bind_ret_inv in H as (t6 & H6 & [= <-]). apply (tame_if (1 <=? v) (put_byte _) (λ t, Ret t) (tame_byte _) tame_ret) in H6.
  do 5 (eapply tame_trans; [eassumption|]). done.
Qed.

Lemma tame_cursor c m b b' ss : bytes b' = bytes b → tame (Tx c m b ss) (Tx c m b' ss).
Proof. intros E. split; [|done]. intros k l Hk Ha. split; [done|]. unfold apart in *. cbn in *. by rewrite E. Qed.

Lemma tame_payload my encap t p nh wr r : overlay_frame_append_payload my encap t p nh wr = Ret r → tame t r.1.
Proof.
  unfold overlay_frame_append_payload. destruct t as [c m b ss]. cbn [tx_c tx_m tx_b tx_ss]. set (t0 := Tx c m (ob_checkpoint b) ss). intros H.
  assert (tame (Tx c m b ss) t0) as H0 by (by apply tame_cursor). apply (tame_trans _ t0); [done|]. clear H0.
  apply bind_ret_inv in H as (z & _ & H). apply bind_ret_inv in H as ([t1 ret] & H1 & H). apply tame_header in H1. cbn [fst] in H1.
  assert (∀ t, tame t (Tx (tx_c t) (tx_m t) (ob_rewind (tx_b t)) (tx_ss t))) as Hrew by (intros []; by apply tame_cursor).
  destruct (ret =? -1); [injection H as <-; eapply tame_trans; [done|apply Hrew]|]. destruct (f_payload p) as [pb|]; [|done].
  apply bind_ret_inv in H as (t2 & H2 & H). assert (tame t1 t2) as T2.
  { destruct (encap =? ENCAP_OVERLAY); [|injection H2 as <-; apply tame_refl]. apply bind_ret_inv in H2 as ([m2 b2] & H2 & [= <-]). by eapply tame_append. }
  apply bind_ret_inv in H as (t3 & H3 & H). assert (tame t2 t3) as T3.
  { destruct (ob_position pb =? 0); cbn [negb] in H3; [injection H3 as <-; apply tame_refl|]. destruct (bytes pb) as [q|]; [|done]. apply bind_ret_inv in H3 as (bs & _ & H3).
    apply bind_ret_inv in H3 as ([m3 b3] & H3 & [= <-]). by eapply tame_bytes. }
  assert (tame t0 t3) as T by (do 2 (eapply tame_trans; [eassumption|]); done).
  destruct (ob_overrun (tx_b t3)); cbn [negb] in H; injection H as <-; [|done]. eapply tame_trans; [done|apply Hrew].
Qed.

Lemma tame_init my v e t u i s r : overlay_packet_init_header my v e t u i s = Ret r → tame t r.1.
Proof.
  unfold overlay_packet_init_header. destruct (_ || _); [intros [= <-]; apply tame_refl|]. destruct (_ && _); [intros [= <-]; apply tame_refl|]. intros H.
  apply bind_ret_inv in H as (t1 & H1 & H). apply tame_byte in H1. apply bind_ret_inv in H as (t2 & H2 & H). apply tame_byte in H2.
  destruct (interface (tx_c t2)) as [j|]; [|done]. cbv zeta in H. apply bind_ret_inv in H as (t3 & H3 & H). apply tame_address in H3.
  assert (∀ t t' c c', tame (Tx c (tx_m t) (tx_b t) (tx_ss t)) t' → tame t (Tx c' (tx_m t') (tx_b t') (tx_ss t'))) as Hc by (intros [] [] c c' []; by split).
  eapply Hc in H3. apply bind_ret_inv in H as (t4 & H4 & H). apply tame_byte in H4.
  apply bind_ret_inv in H as (t5 & H5 & H). apply (tame_if (on _ _) (put_byte _) (λ t, Ret t) (tame_byte _) tame_ret) in H5.
  apply bind_ret_inv in H as (t6 & H6 & [= <-]). apply (tame_if (on _ _) (put_byte _) (λ t, Ret t) (tame_byte _) tame_ret) in H6.
  do 5 (eapply tame_trans; [eassumption|]). done.
Qed.

(** ** The header of a packet *)

(** The buffer that [overlay_init_packet] makes, before anything is written. *)
Definition blank (L : Z) (b : overlay_buffer) : Prop := b = Buf None 0 0 L 0 None.

Lemma new_blank m L : malloc_total → 0 ≤ L < SIZE_MAX → ∃ b0, ob_new m = Some b0 ∧ ∃ b, ob_limitsize b0 L = Ret b ∧ blank L b.
Proof.
  intros Hm HL. unfold ob_new, new_struct. destruct (malloc_answer m sizeof_overlay_buffer) eqn:E.
  2: { exfalso. eapply Hm; [|exact E]. unfold sizeof_overlay_buffer. destruct size_bits_ok as [-> | ->]; done. }
  cbn. eexists. split; [reflexivity|]. unfold ob_limitsize. cbn. rewrite (proj2 (Z.eqb_neq L SIZE_MAX)), (proj2 (Z.leb_le 0 L)) by lia. cbn.
  eexists. by split.
Qed.

Lemma first_byte m b L v c ss : malloc_total → blank L b → 1 ≤ L → L + 2 ^ 18 ≤ SIZE_MAX →
  ∃ m' b', put_byte v (Tx c m b ss) = Ret (Tx c m' b' ss) ∧ filling L 0 m' b' [v].
Proof.
  intros Hm -> HL Hs. set (b := Buf None 0 0 L 0 None). pose proof SIZE_MAX_pos. assert (ob_inv m b) as Hi by (split; cbn; done || lia || (unfold settled; cbn; lia)).
  destruct (append_raw_spec m b [v] Hm Hi ltac:(done)) as (m' & b' & Ha & [A1 A2 A3 A4 A5 A6 A7 A8]); [split_and!; cbn; [lia|lia|by left]|].
  exists m', b'. unfold put_byte, ob_append_byte. cbn [tx_m tx_b tx_c tx_ss]. rewrite Ha, bind_ret_l. split; [done|]. cbn in A2, A3, A4, A5.
  destruct A7 as [A7 A7']; [unfold fits; apply andb_true_iff; split; [apply Z.leb_le; cbn; lia|done]|]. rewrite A2 in A7, A7'. cbn in A7'.
  assert (bytes b' ≠ None) as Hb. { intros E. pose proof (inv_live _ _ A1) as Hl. rewrite E in Hl. lia. }
  split; try done; cbn [length]; [intros _; by rewrite A2|]. split_and!; lia || done.
Qed.

Lemma init_header_spec m b L v e c ss me u i s : malloc_total → blank L b → 64 ≤ L → L + 2 ^ 18 ≤ SIZE_MAX → all_sids ss → (me < length ss)%nat →
  is_Some (interface c) → 0 ≤ v ≤ SUPPORTED_PACKET_VERSION → e = ENCAP_OVERLAY ∨ e = ENCAP_SINGLE →
  ∃ t' w, overlay_packet_init_header (Some me) v e (Tx c m b ss) u i s = Ret (t', 0) ∧ wrote (filling L 0) w (length ss) t' ∧ (length w ≤ 38)%nat.
Proof.
  intros Hm Hb HL Hs Hsid Hme Hc Hv He. unfold overlay_packet_init_header. unfold SUPPORTED_PACKET_VERSION in *.
  rewrite (proj2 (Z.ltb_ge v 0)), (proj2 (Z.ltb_ge 1 v)) by lia. cbn [orb].
  assert (negb (e =? ENCAP_OVERLAY) && negb (e =? ENCAP_SINGLE) = false) as -> by (by destruct He as [->| ->]).
  destruct (first_byte m b L v c ss Hm Hb) as (m1 & b1 & -> & Hf1); [lia|done|]. rewrite bind_ret_l. pose proof (filling_appends L 0 Hm) as HW.
  assert (wrote (filling L 0) [v] (length ss) (Tx c m1 b1 ss)) as W1 by (by split). pose proof SIZE_MAX_pos.
  destruct (put_byte_spec _ _ _ _ e HW W1) as (t2 & -> & W2 & Ec2 & Es2); [cbn; lia|]. rewrite bind_ret_l, Ec2. cbn [tx_c]. destruct Hc as [j Hj]. rewrite Hj. cbv zeta.
  set (c2 := if point_to_point j && bool_decide (is_Some (other_device j)) && (1 <=? v) then set_p2p _ _ else _). assert (wrote (filling L 0) ([v] ++ [e]) (length ss) (Tx (put_flags c2 DECODE_FLAG_ENCODING_HEADER) (tx_m t2) (tx_b t2) (tx_ss t2))) as W2'.
  { destruct W2 as [X1 X2 X3 X4]. split; try done. unfold c2. cbn. destruct (_ && _); cbn; by rewrite Hj. }
  destruct (put_address_spec (Some me) _ _ _ _ me HW W2' Hme) as (t3 & bs & -> & W3 & _ & Hl3); [cbn; lia|]. rewrite bind_ret_l.
  assert (wrote (filling L 0) (([v] ++ [e]) ++ bs) (length ss) (Tx (set_sender (put_flags (tx_c t3) 0) (Some me)) (tx_m t3) (tx_b t3) (tx_ss t3))) as W3' by (by destruct W3).
  set (flags := if 0 <=? s then Z.lor _ _ else _). set (w3 := ([v] ++ [e]) ++ bs) in *. assert (length w3 ≤ 35)%nat as Hw3 by (unfold w3; rewrite !length_app; cbn; lia).
  destruct (put_byte_spec _ _ _ _ flags HW W3') as (t4 & -> & W4 & _ & _); [lia|]. rewrite bind_ret_l.
  destruct (put_if_byte _ _ _ _ (on flags PACKET_INTERFACE) (u8 i) HW W4) as (t5 & -> & W5 & _ & _); [rewrite length_app; cbn; lia|]. rewrite bind_ret_l.
  destruct (put_if_byte _ _ _ _ (on flags PACKET_SEQ) (u8 s) HW W5) as (t6 & -> & W6 & _ & _); [rewrite !length_app; destruct (on flags _); cbn; lia|]. rewrite bind_ret_l.
  eexists t6, _. split; [done|]. split; [exact W6|]. rewrite !length_app. destruct (on flags PACKET_INTERFACE), (on flags PACKET_SEQ); cbn; lia.
Qed.

(** ** Starting a packet *)

Variables (gettime_ms : nat → Z) (np send_alarm me : nat) (directory_service : option nat).
Abbreviation Inv := (qinv np me directory_service).
Abbreviation Calm := (calm np me directory_service).
Abbreviation Calmly := (calmly np me directory_service).
Hypothesis clock : ∀ n, 0 < gettime_ms n < 2 ^ 60.
Hypothesis memory : malloc_total.

Lemma mem_ok_tx m fs p t t' p' L cp w : mem_ok m fs p → tx_m t = m → (∀ a pl q, payload_at fs a pl → bytes pl = Some q → apart (tx_b t) (blk q)) →
  tame t t' → filling L cp (tx_m t') (tx_b t') w → Z.of_nat (length w) ≤ L →
  p_buffer p' = Some (tx_b t') → is_Some (interface (p_context p')) → is_Some (p_destination p') → mem_ok (tx_m t') fs p'.
Proof.
  intros [H1 H2 _] Em Hap [Ho _] Hf Hw Hb Hi Hd.
  assert (∀ a pl q, payload_at fs a pl → bytes pl = Some q → tx_m t' !! blk q = m !! blk q ∧ apart (tx_b t') (blk q)) as Hk.
  { intros a pl q Ha Hq. destruct (H1 a pl Ha) as [Hinv _]. pose proof (inv_live _ _ Hinv) as Hl. rewrite Hq in Hl. destruct Hl as (l & Hl & _).
    rewrite <- Em in Hl. destruct (Ho (blk q) l Hl) as [Hl' Ha']; [by apply (Hap a pl)|]. by rewrite Hl', <- Em, Hl. }
  split; [|done|].
  - intros a pl Ha. destruct (H1 a pl Ha) as [Hinv Hst]. split; [|done]. apply (keeps_inv m); [|done]. intros q Hq. by apply (Hk a pl).
  - split; [by rewrite Hb|]. intros b Hb'. rewrite Hb in Hb'. injection Hb' as <-. split_and!; [by exists L, cp, w|done|done|].
    intros a pl q Ha Hq. by apply (Hk a pl).
Qed.

Lemma weight_packet ext fs d d' : weight ext fs (Some d) d' = bump (weight ext fs None) d 1 d'.
Proof.
  unfold weight, bump. rewrite (decide_False (P := None = _)) by done.
  destruct (decide (d' = d)) as [->|Hne]; [rewrite decide_True by done|rewrite decide_False by congruence]; lia.
Qed.

Lemma next_seq_runs d x st wt ni : counted wt (q_dests st) → map_Forall (λ _, dest_ok ni) (q_dests st) → 0 < wt d →
  runs (if sequence_number x <? 0 then set_p (p_seq (-1))
        else upd_dest d (set_seqno (Z.land (sequence_number x + 1) 0xFFFF));; set_p (p_seq (Z.land (sequence_number x + 1) 0xFFFF))) st
    (λ _ st', ∃ ds n, st' = set_packet (p_seq n (q_packet st)) (set_dests ds st) ∧ counted wt ds ∧ map_Forall (λ _, dest_ok ni) ds).
Proof.
  intros Hc Hd Hw. destruct (sequence_number x <? 0).
  - apply runs_change. eexists (q_dests st), _. split; [by destruct st|done].
  - destruct (counted_live _ _ _ Hc Hw) as [y Hy]. apply runs_bind, (runs_upd_dest _ y); [done|]. apply runs_change.
    eexists _, _. split; [reflexivity|]. split; [by apply (counted_upd _ _ _ y)|]. apply map_Forall_insert_2; [|done].
    pose proof (Hd d y Hy) as [K1 K2 K3 K4 K5 K6]. by split.
Qed.

Lemma init_packet_calm ext ls a v dest st : Inv ext ls st → p_buffer (q_packet st) = None → 0 ≤ v ≤ SUPPORTED_PACKET_VERSION →
  0 < weight ext (q_frames st) (p_destination (q_packet st)) dest →
  runs (overlay_init_packet (Some me) v dest) st (λ r st', r = 0 ∧ Calm ext ls a st st' ∧ q_frames st' = q_frames st ∧
    is_Some (p_buffer (q_packet st')) ∧ p_destination (q_packet st') = Some dest ∧ p_version (q_packet st') = v).
Proof.
  intros Hi Hb Hv Hw. pose proof Hi as [Hqs Hct Hfs Hds Hro Hm Ht]. destruct (dest_live _ _ _ _ _ _ _ Hi Hw) as (x & Hx & Hxok).
  destruct (dk_interface _ _ Hxok) as (i & Hif & Hilt). destruct (lookup_lt_is_Some_2 (q_interfaces st) i Hilt) as [y Hy].
  assert (p_destination (q_packet st) = None) as Hnone by (by apply (proj1 (mo_packet _ _ _ Hm))). rewrite Hnone in Hct, Hw.
  unfold overlay_init_packet. apply runs_bind, (runs_dest _ x); [done|]. apply runs_bind, (runs_deref _ i); [done|]. apply runs_bind, (runs_interface _ y); [done|].
  apply runs_bind, runs_change. apply runs_bind, runs_ask. cbn [q_mem set_packet]. pose proof (dk_mtu _ _ Hxok) as Hmtu. pose proof SIZE_MAX_pos as HSM.
  assert (wrapu size_bits (mtu x) = mtu x) as Emtu. { apply wrapu_small. destruct size_bits_ok as [-> | ->]; lia. }
  destruct (new_blank (q_mem st) (mtu x) memory) as (b0 & -> & b & Hlim & Hblank); [lia|]. apply runs_bind, runs_change. apply runs_bind, runs_change.
  apply runs_bind. eapply runs_mono; [apply (add_ref_runs (weight ext (q_frames st) None) dest); done|]. cbn beta. intros ? ? (-> & ds1 & -> & Hc1 & Hw1).
  apply runs_bind. eapply runs_mono; [apply (next_seq_runs dest x _ (bump (weight ext (q_frames st) None) dest 1) (length (q_interfaces st))); [exact Hc1|by eapply within_ok|unfold bump; rewrite decide_True by done; lia]|].
  cbn beta. intros _ ? (ds2 & n & -> & Hc2 & Hd2). rewrite Emtu. apply runs_bind, (runs_lift _ b); [done|]. apply runs_bind, runs_ask. cbn [q_packet set_packet set_dests p_seq packet_seq].
  match goal with |- runs _ ?s _ => set (st2 := s) end.
  destruct (init_header_spec (q_mem st) b (mtu x) v (d_encapsulation x) (p_context (q_packet st2)) (q_ss st) me (d_unicast x) (i8 (Z.of_nat i)) n)
    as (t' & w & Hinit & Hwr & Hwl); [done|done|lia|lia|apply Hro|apply Hro|by eexists|done|apply Hxok|].
  pose proof (tame_init _ _ _ _ _ _ _ _ Hinit) as Htame. cbn [fst] in Htame.
  apply runs_bind. exists 0, (tx_done t' st2). split. { unfold with_tx. change (tx_of b st2) with (Tx (p_context (q_packet st2)) (q_mem st) b (q_ss st)). by rewrite Hinit, bind_ret_l. }
  apply runs_bind, runs_ask. apply runs_bind, (runs_deref _ (tx_b t')); [done|]. cbn [Z.eqb]. apply runs_bind, runs_change. apply runs_ret.
  split; [done|]. split; [|by split_and!]. pose proof (plain_length _ _ (ta_plain _ _ Htame)) as Hlen. cbn in Hlen.
  split; [|split; cbn; try done; apply (ta_plain _ _ Htame)]. split; cbn; try done.
  - revert Hc2. apply counted_ext. apply weight_packet.
  - by rewrite Hlen.
  - apply (plain_routes _ _ _ (q_ss st)); [apply (ta_plain _ _ Htame)|done].
  - destruct Hwr as [F1 F2 F3 F4]. apply (mem_ok_tx (q_mem st) _ (q_packet st) (Tx (p_context (q_packet st2)) (q_mem st) b (q_ss st)) t' _ (mtu x) 0 w Hm eq_refl); [|done|done|lia|done|done|by eexists].
    intros a' pl q _ _ r Hr. cbn in Hr. rewrite Hblank in Hr. done.
Qed.

(** ** Looking for a destination *)

(** A slot in use is given another sequence number or time. *)
Lemma slot_calm ext ls a f i s sq t st : Inv ext ls st → q_frames st !! a = Some f → 0 ≤ i < destination_count f → destinations f !! Z.to_nat i = Some s →
  0 ≤ t < 2 ^ 61 →
  let f' := set_destinations (<[Z.to_nat i := PacketDest sq t (pd_destination s) (next_hop s)]> (destinations f)) (destination_count f) f in
  Calm ext ls a st (set_frames (<[a := f']> (q_frames st)) st) ∧ ∀ d, refs d f' = refs d f.
Proof.
  intros Hi Ha Hr Hs Ht f'. pose proof (frame_live _ _ _ _ _ _ _ _ Hi Ha) as Hf. pose proof (fk_count _ _ Hf) as Hcnt.
  set (s' := PacketDest sq t (pd_destination s) (next_hop s)) in *.
  assert (slots f' = <[Z.to_nat i := s']> (slots f)) as Es. { unfold slots, f'. cbn. apply take_insert_lt. lia. }
  assert (slots f !! Z.to_nat i = Some s) as Hs' by (by rewrite slots_lookup).
  assert (∀ d, refs d f' = refs d f) as Href.
  { intros d. unfold refs. rewrite Es. rewrite <- (list_insert_id _ _ _ Hs') at 2. apply lookup_lt_Some in Hs'.
    rewrite !insert_take_drop by done. rewrite !filter_app, !length_app, !refs_cons. done. }
  split; [|done]. assert (set_frames (<[a := f']> (q_frames st)) st = set_dests (q_dests st) (set_frames (<[a := f']> (q_frames st)) st)) as -> by done.
  apply (qinv_frame _ _ _ _ _ _ _ f); try done; [|by revert Hi; intros [? Hc]; revert Hc; apply counted_ext; intros d; rewrite (weight_upd _ _ _ _ f) by done; rewrite Href; lia|apply Hi].
  pose proof (fk_used _ _ Hf) as Hu. rewrite Forall_lookup in Hu. pose proof (Hu _ _ Hs') as (U1 & U2 & U3 & U4).
  destruct Hf as [H1 H2 H3 H4 H5 H6 H7 H8 H9 H10 H11 H12 H13]. split; try done.
  - unfold f'. cbn. by rewrite length_insert.
  - rewrite Es. apply Forall_insert; [done|exact (conj U1 (conj Ht (conj U3 U4)))].
  - unfold f'. cbn. apply Forall_insert; [done|exact Ht].
Qed.

Lemma store_calm ext ls a z st : Inv ext ls st → q_ss st !! me = Some z →
  Calmly ext ls a st (set_qss (<[me := set_send_full z true]> (q_ss st)) st).
Proof.
  intros [H1 H2 H3 H4 H5 H6 H7] Hz. assert (plain (<[me := set_send_full z true]> (q_ss st)) = plain (q_ss st)) as Hp.
  { unfold plain. rewrite list_fmap_insert. apply list_insert_id. rewrite list_lookup_fmap, Hz. by destruct z. }
  split; [|done]. split; [|by split]. pose proof (plain_length _ _ Hp) as Hl. split; cbn; try done; [by rewrite Hl|]. by apply (plain_routes _ _ _ (q_ss st)).
Qed.

(** The frame is going the way of the packet. *)
Definition going (st : qstate) (f : queued) (i : Z) : Prop :=
  ∃ s d, destinations f !! Z.to_nat i = Some s ∧ pd_destination s = Some d ∧ p_destination (q_packet st) = Some d ∧ is_Some (p_buffer (q_packet st)).

Lemma version_calm ext ls a f s st : Inv ext ls st → q_frames st !! a = Some f → slot_ok (length (q_ss st)) f s →
  runs (match next_hop s with
        | Some h => z ← the_subscriber h; if max_packet_version z <? f_packet_version (fr f)
            then upd_frame a (λ f, set_fr (with_version (max_packet_version z) (fr f)) f) else mret tt
        | None => mret tt end) st
    (λ _ st', Calmly ext ls a st st' ∧ ∃ v, q_frames st' = <[a := set_fr (with_version v (fr f)) f]> (q_frames st) ∧ q_dests st' = q_dests st ∧ q_ss st' = q_ss st).
Proof.
  intros Hi Ha (_ & _ & Hh & _). assert (Calmly ext ls a st st ∧ ∃ v, q_frames st = <[a := set_fr (with_version v (fr f)) f]> (q_frames st) ∧ q_dests st = q_dests st ∧ q_ss st = q_ss st) as Hsame.
  { split; [by apply calmly_refl|]. exists (f_packet_version (fr f)). split; [|done].
    assert (set_fr (with_version (f_packet_version (fr f)) (fr f)) f = f) as -> by (by destruct f as [? ? ? []]). by rewrite insert_id. }
  destruct (next_hop s) as [h|]; [|by apply runs_ret]. destruct (lookup_lt_is_Some_2 (q_ss st) h (Hh h eq_refl)) as [z Hz].
  apply runs_bind, (runs_subscriber _ z); [done|]. destruct (_ <? _); [|by apply runs_ret]. apply (runs_upd_frame _ f); [done|].
  split; [|by exists (max_packet_version z)]. apply with_version_calm; [done|done|]. by eapply (ro_version _ _ _ _ _ _ _ (qi_routes _ _ _ _ _ _ Hi)).
Qed.

Lemma start_packet_calm ext ls a f i s d x st : Inv ext ls st → q_frames st !! a = Some f → 0 ≤ i < destination_count f →
  destinations f !! Z.to_nat i = Some s → pd_destination s = Some d → q_dests st !! d = Some x → p_buffer (q_packet st) = None →
  runs (start_packet gettime_ms (Some me) a i s f d x) st (λ r st', Calm ext ls a st st' ∧ r ≠ None ∧
    ∃ f', q_frames st' !! a = Some f' ∧ destination_count f' = destination_count f ∧ (r = Some true → going st' f' i)).
Proof.
  intros Hi Ha Hr Hs Hd Hx Hb. pose proof (qi_dests _ _ _ _ _ _ Hi d x Hx) as Hxok. pose proof (fk_count _ _ (frame_live _ _ _ _ _ _ _ _ Hi Ha)).
  assert (0 ≤ transmit_time s < 2 ^ 61) as Hts. { pose proof (fk_stale _ _ (frame_live _ _ _ _ _ _ _ _ Hi Ha)) as Hst. rewrite Forall_lookup in Hst. by eapply Hst. }
  unfold start_packet. apply runs_bind, (busy_runs np me directory_service ext ls _ d); [done|done|]. intros j y _ _.
  assert (∀ st', Calm ext ls a st st' → q_frames st' = q_frames st → runs (mret (Some false)) st' (λ (r : option bool) st', Calm ext ls a st st' ∧ r ≠ None ∧
    ∃ f', q_frames st' !! a = Some f' ∧ destination_count f' = destination_count f ∧ (r = Some true → going st' f' i))) as Hno.
  { intros st' Hc Ef. apply runs_ret. split; [done|]. split; [done|]. exists f. rewrite Ef. by split_and!. }
  destruct (tx_packet y); [apply Hno; [by apply calm_refl|done]|].
  apply runs_bind, (runs_gettime gettime_ms np me directory_service ext ls a); [done|]. intros Hc1. cbv zeta. set (r := limit_is_allowed _ _).
  apply runs_bind, (runs_upd_dest _ x); [done|].
  assert (dest_ok (length (q_interfaces st)) (set_limit r.1 x)) as Hok'. { pose proof (is_allowed_ok (transfer_limit x) (gettime_ms (q_ticks st)) (dk_limit _ _ Hxok) (clock _)). destruct Hxok. by split. }
  pose proof (qinv_dest _ _ _ ext ls a (tick st) d x (set_limit r.1 x) (ca_inv _ _ _ _ _ _ _ _ Hc1) Hx eq_refl Hok') as Hc2.
  assert (Calm ext ls a st (set_dests (<[d := set_limit r.1 x]> (q_dests st)) (tick st))) as Hc by (eapply calm_trans; [exact Hc1|exact Hc2]).
  destruct (negb (r.2 =? 0)); [by apply Hno|]. apply runs_bind.
  match goal with |- runs _ ?s _ => set (st2 := s) in * end.
  assert (runs (if fr_source_full f then me ← deref (Some me); z ← the_subscriber me; change (λ st, set_qss (<[me := set_send_full z true]> (q_ss st)) st) else mret tt) st2
    (λ _ st', Calmly ext ls a st2 st' ∧ q_frames st' = q_frames st2)) as Hss.
  { destruct (fr_source_full f); [|apply runs_ret; split; [apply calmly_refl, Hc|done]]. apply runs_bind, (runs_deref _ me); [done|].
    destruct (lookup_lt_is_Some_2 (q_ss st2) me) as [z Hz]; [apply (ro_me _ _ _ _ _ _ _ (qi_routes _ _ _ _ _ _ (ca_inv _ _ _ _ _ _ _ _ Hc)))|].
    apply runs_bind, (runs_subscriber _ z); [done|]. apply runs_change. split; [|done]. apply store_calm; [apply Hc|done]. }
  eapply runs_mono; [exact Hss|]. cbn beta. intros _ st3 [[Hc3 Hp3] Ef3]. apply runs_bind.
  assert (q_frames st3 !! a = Some f) as Ha3 by (by rewrite Ef3).
  assert (0 < weight ext (q_frames st3) (p_destination (q_packet st3)) d) as Hw3.
  { apply (weight_slot _ _ _ a f i s); try done. apply (ro_ext _ _ _ _ _ _ _ (qi_routes _ _ _ _ _ _ Hi)). }
  eapply runs_mono; [apply (init_packet_calm ext ls a (f_packet_version (fr f)) d st3 (ca_inv _ _ _ _ _ _ _ _ Hc3)); [by rewrite Hp3| |done]|].
  { apply (fk_version _ _ (frame_live _ _ _ _ _ _ _ _ Hi Ha)). }
  cbn beta. intros ? st4 (-> & Hc4 & Ef4 & Hb4 & Hd4 & _). cbn [Z.eqb negb]. assert (q_frames st4 !! a = Some f) as Ha4 by (by rewrite Ef4).
  destruct (slot_live _ _ _ _ _ _ _ _ i (ca_inv _ _ _ _ _ _ _ _ Hc4) Ha4 Hr) as (s' & d' & x' & Hs' & _ & Hd' & Hx' & _). rewrite Hs in Hs'. injection Hs' as <-.
  rewrite Hd in Hd'. injection Hd' as <-. apply runs_bind, (runs_dest _ x'); [done|].
  apply runs_bind, (runs_put_slot _ f); [done|unfold MAX_PACKET_DESTINATIONS; lia|]. rewrite <- Hd. apply runs_ret.
  destruct (slot_calm ext ls a f i s (sequence_number x') (transmit_time s) st4 (ca_inv _ _ _ _ _ _ _ _ Hc4) Ha4 Hr Hs Hts) as [Hc5 _].
  split; [do 3 (eapply calm_trans; [eassumption|]); exact Hc5|]. split; [done|]. eexists. split; [apply lookup_insert_eq|]. split; [done|]. intros _.
  eexists _, d. cbn. rewrite list_lookup_insert_eq by (by eapply lookup_lt_Some). split_and!; try done.
Qed.

Lemma check_destination_calm ext ls a f i now st : Inv ext ls st → q_frames st !! a = Some f → 0 ≤ i < destination_count f →
  runs (check_destination gettime_ms (Some me) a i now) st (λ r st', Calm ext ls a st st' ∧
    ∃ f', q_frames st' !! a = Some f' ∧ destination_count f' = destination_count f ∧ (r = Some true → going st' f' i)).
Proof.
  intros Hi Ha Hr. destruct (slot_live _ _ _ _ _ _ _ _ i Hi Ha Hr) as (s & d & x & Hs & Hsok & Hd & Hx & Hxok). pose proof (frame_live _ _ _ _ _ _ _ _ Hi Ha) as Hf.
  assert (∀ r, r ≠ Some true → runs (mret r) st (λ (r : option bool) st', Calm ext ls a st st' ∧ ∃ f', q_frames st' !! a = Some f' ∧
    destination_count f' = destination_count f ∧ (r = Some true → going st' f' i))) as Hstay.
  { intros r Hne. apply runs_ret. split; [by apply calm_refl|]. by exists f. }
  unfold check_destination. apply runs_bind, (runs_frame _ f); [done|]. apply runs_bind, (runs_slot _ _ s); [lia|done|]. rewrite Hd.
  apply runs_bind, (runs_dest _ x); [done|]. destruct (dk_interface _ _ Hxok) as (j & Hj & Hjlt). rewrite Hj.
  destruct (lookup_lt_is_Some_2 (q_interfaces st) j Hjlt) as [y Hy]. apply runs_bind, (runs_interface _ y); [done|].
  destruct (fk_payload _ _ Hf) as [pl Hpl]. apply runs_bind.
  assert (runs (if negb (state y =? INTERFACE_STATE_UP) || (enqueued_at f + transmit_timeout_ms x <? now) then mret true
    else pl ← deref (f_payload (fr f)); mret (u32 (mtu x) <? ob_position pl)) st (λ _ st', st' = st)) as Hlate.
  { destruct (_ || _); [by apply runs_ret|]. apply runs_bind, (runs_deref _ pl); [done|]. by apply runs_ret. }
  eapply runs_mono; [exact Hlate|]. cbn beta. intros late ? ->. destruct late; [by apply Hstay|]. apply runs_bind.
  eapply runs_mono; [by apply (version_calm ext ls a f s)|]. cbn beta. intros _ st1 ([Hc1 Hp1] & v & Ef1 & Ed1 & Es1).
  set (f1 := set_fr (with_version v (fr f)) f) in *. assert (q_frames st1 !! a = Some f1) as Ha1 by (rewrite Ef1; apply lookup_insert_eq).
  destruct (negb _ && _). { apply runs_ret. split; [done|]. by exists f1. }
  apply runs_bind, (runs_frame _ f1); [done|]. apply runs_bind, runs_ask. destruct (p_buffer (q_packet st1)) as [b|] eqn:Eb.
  - apply runs_ret. split; [done|]. exists f1. split_and!; try done. intros Hyes. injection Hyes as Hyes. apply andb_true_iff in Hyes as [_ Hyes].
    apply bool_decide_eq_true in Hyes. exists s, d. split_and!; try done; by rewrite Eb.
  - eapply runs_mono; [apply (start_packet_calm ext ls a f1 i s d x st1 (ca_inv _ _ _ _ _ _ _ _ Hc1) Ha1 Hr Hs Hd); [by rewrite Ed1|done]|].
    cbn beta. intros r st2 (Hc2 & _ & f2 & Ha2 & Hn2 & Hg2). split; [by eapply calm_trans|]. by exists f2.
Qed.

Lemma pick_calm ext ls a now n : ∀ f st, Inv ext ls st → q_frames st !! a = Some f → Z.of_nat n ≤ destination_count f →
  runs (pick_destination gettime_ms (Some me) n a now) st (λ r st', Calm ext ls a st st' ∧
    ∃ f', q_frames st' !! a = Some f' ∧ (r = -1 ∨ 0 ≤ r < destination_count f' ∧ going st' f' r)).
Proof.
  induction n as [|i IH]; intros f st Hi Ha Hn; cbn [pick_destination].
  { apply runs_ret. split; [by apply calm_refl|]. exists f. split; [done|by left]. }
  apply runs_bind. eapply runs_mono; [apply (check_destination_calm ext ls a f (Z.of_nat i) now st Hi Ha); lia|].
  cbn beta. intros r st1 (Hc1 & f1 & Ha1 & Hn1 & Hg). pose proof (ca_inv _ _ _ _ _ _ _ _ Hc1) as Hi1. destruct r as [[]|].
  - apply runs_ret. split; [done|]. exists f1. split; [done|]. right. split; [lia|by apply Hg].
  - eapply runs_mono; [apply (IH f1 st1 Hi1 Ha1); lia|]. cbn beta. intros r st2 [Hc2 H2]. split; [by eapply calm_trans|done].
  - apply runs_bind. eapply runs_mono; [apply (remove_destination_calm _ _ _ ext ls a f1 (Z.of_nat i) st1 Hi1 Ha1); lia|].
    cbn beta. intros _ st2 (Hc2 & Ha2 & _). eapply runs_mono; [apply (IH _ st2 (ca_inv _ _ _ _ _ _ _ _ Hc2) Ha2); cbn; lia|].
    cbn beta. intros r st3 [Hc3 H3]. split; [|done]. do 2 (eapply calm_trans; [eassumption|]). done.
Qed.

(** ** Writing a frame *)

(** The payload in its buffer. *)
Lemma queued_beside m fs p a pl b : mem_ok m fs p → payload_at fs a pl → p_buffer p = Some b → position pl ≤ allocSize pl →
  ∃ bs, position pl = Z.of_nat (length bs) ∧ beside pl bs m b.
Proof.
  intros [H1 _ [_ H3]] Ha Hb Hp. destruct (H1 a pl Ha) as [Hi _]. destruct (H3 b Hb) as (_ & _ & _ & Hap). pose proof (region_length _ _ Hi) as Hl. pose proof (inv_position _ _ Hi).
  exists (take (Z.to_nat (position pl)) (region m pl)). assert (length (take (Z.to_nat (position pl)) (region m pl)) = Z.to_nat (position pl)) as El by (rewrite length_take; lia).
  rewrite El. split; [lia|]. unfold beside. rewrite El. destruct (bytes pl) as [q|] eqn:Eq.
  - right. pose proof (inv_live _ _ Hi) as Hlive. rewrite Eq in Hlive. destruct Hlive as (l & Hq & Ho & Hlen). exists q, l. split_and!; [done|done|by apply (Hap a pl)|].
    rewrite (load_bytes_Ret m q _ l) by (done || lia). unfold region. rewrite Eq, Hq. rewrite take_take. do 2 f_equal. lia.
  - left. pose proof (inv_live _ _ Hi) as Hlive. rewrite Eq in Hlive. assert (position pl = 0) as -> by lia. done.
Qed.

Lemma queued_sendable n f s : frame_ok n f → slot_ok n f s → ∃ src, sendable n (fr f) (next_hop s) (broadcast_of (fr f)) src.
Proof.
  intros Hf (_ & _ & Hh & Hsome). destruct (fk_source _ _ Hf) as (src & Hsrc & Hlt). exists src. destruct (fk_broadcast _ _ Hf) as [Hid Hb].
  split; try done; try apply Hf. destruct (f_destination (fr f)) as [d|] eqn:Ed.
  - split; [by apply (fk_destination _ _ Hf)|]. destruct Hsome as [h Hnh]; [by eexists|]. exists h. split; [done|by apply Hh].
  - unfold broadcast_of, one_hop. rewrite Ed, (bool_decide_true (None = None)) by done. cbn [andb]. rewrite Hid.
    destruct (bool_decide_reflect (broadcast_id (fr f) = replicate BROADCAST_LEN 0)) as [E|E]; cbn [negb]; [|done].
    destruct (Hb eq_refl) as [->|?]; [|done]. cbn. done.
Qed.

(** A frame that is on a queue. *)
Definition queued_ok (f : queued) : Prop := 0 < enqueued_at f ∧ ∃ pl, f_payload (fr f) = Some pl ∧ position pl ≤ allocSize pl ∧ position pl < MDP_MTU.

Lemma append_calm ext ls a f s b encap wr st : Inv ext ls st → q_frames st !! a = Some f → queued_ok f → slot_ok (length (q_ss st)) f s →
  p_buffer (q_packet st) = Some b →
  runs (with_tx b (λ t, overlay_frame_append_payload (Some me) encap t (fr f) (next_hop s) wr)) st
    (λ r st', Calm ext ls a st st' ∧ q_frames st' = q_frames st ∧ q_dests st' = q_dests st).
Proof.
  intros Hi Ha (_ & pl & Hpl & Hsz & Hmtu) Hs Hb. pose proof Hi as [Hqs Hct Hfs Hds Hro Hm Ht]. pose proof (Hfs a f Ha) as Hf.
  pose proof (mo_packet _ _ _ Hm) as [_ Hpk]. destruct (Hpk b Hb) as ((L & cp & w & Hfill & Hw) & Hif & Hd & Hap).
  destruct (queued_beside _ _ _ a pl b Hm) as (bs & Hlen & Hbe); [by exists f|done|done|]. destruct (queued_sendable _ f s Hf Hs) as [src Hsend].
  assert (wrote (filling L cp) w (length (q_ss st)) (tx_of b st)) as Hwr by (split; [done|apply Hro|done|done]).
  destruct (append_payload_spec (Some me) L cp w _ (tx_of b st) (fr f) (next_hop s) wr src encap pl bs memory Hwr Hw Hsend Hpl Hlen) as (hd & t' & Happ & Hwr' & _);
    [unfold MDP_MTU in *; lia|done|]. cbv zeta in *. set (fits := bool_decide _) in *.
  exists (if fits then 0 else -1), (tx_done t' st). split; [unfold with_tx; by rewrite Happ, bind_ret_l|]. split; [|done].
  pose proof (tame_payload _ _ _ _ _ _ _ Happ) as Htame. cbn [fst] in Htame. pose proof (plain_length _ _ (ta_plain _ _ Htame)) as Hl. cbn in Hl.
  split; [|split; cbn; try done; apply (ta_plain _ _ Htame)]. split; cbn; try done.
  - by rewrite Hl.
  - apply (plain_routes _ _ _ (q_ss st)); [apply (ta_plain _ _ Htame)|done].
  - destruct Hwr' as [F1 F2 F3 F4]. apply (mem_ok_tx (q_mem st) _ (q_packet st) (tx_of b st) t' _ L _ _ Hm eq_refl Hap Htame F1); [|done|done|done].
    unfold fits. destruct (bool_decide_reflect (Z.of_nat (length (w ++ hd ++ length_bytes encap bs ++ bs)) ≤ L)); lia.
Qed.

Variable call_hook : nat → nat → option nat → Z → prog qstate Z.
(** A hook leaves the destinations of the frame alone. *)
Hypothesis hook_ok : ∀ h a d sq ext ls st f, Inv ext ls st → q_frames st !! a = Some f →
  runs (call_hook h a d sq) st (λ _ st', Calmly ext ls a st st' ∧
    ∃ f', q_frames st' !! a = Some f' ∧ destinations f' = destinations f ∧ destination_count f' = destination_count f).

Lemma sequence_calm ext ls a n st : Inv ext ls st → Calmly ext ls a st (set_sequence n st).
Proof. intros [H1 H2 H3 H4 H5 H6 H7]. split; [|done]. split; by split. Qed.
Lemma with_sequence_calm ext ls a f n st : Inv ext ls st → q_frames st !! a = Some f →
  Calmly ext ls a st (set_frames (<[a := set_fr (with_sequence n (fr f)) f]> (q_frames st)) st).
Proof.
  intros Hi Ha. split; [|done]. apply (qinv_upd _ _ _ _ _ _ _ f); try done. destruct (frame_live _ _ _ _ _ _ _ _ Hi Ha). by split.
Qed.
Lemma queued_kept f f' : ident f' = ident f → queued_ok f → queued_ok f'.
Proof. intros Hid. destruct (ident_fields _ _ Hid) as (_ & Hp & _ & He & _). unfold queued_ok. by rewrite Hp, He. Qed.

Lemma hook_calm ext ls a f p st : Inv ext ls st → q_frames st !! a = Some f →
  runs (match send_hook f with Some h => r ← call_hook h a (p_destination p) (packet_seq p); mret (negb (r =? 0)) | None => mret false end) st
    (λ _ st', Calmly ext ls a st st' ∧ ∃ f', q_frames st' !! a = Some f' ∧ destinations f' = destinations f ∧ destination_count f' = destination_count f).
Proof.
  intros Hi Ha. destruct (send_hook f) as [h|].
  - apply runs_bind. eapply runs_mono; [by apply (hook_ok h a _ _ ext ls st f)|]. cbn beta. intros r st' H'. by apply runs_ret.
  - apply runs_ret. split; [by apply calmly_refl|]. by exists f.
Qed.

Lemma assign_calm ext ls a f st : Inv ext ls st → q_frames st !! a = Some f →
  runs (if mdp_sequence (fr f) =? -1 then
          change (λ st, set_sequence (Z.land (q_sequence st + 1) 0xFFFF) st);; n ← ask q_sequence; upd_frame a (λ f, set_fr (with_sequence n (fr f)) f)
        else mret tt) st
    (λ _ st', Calmly ext ls a st st' ∧ ∃ n, q_frames st' !! a = Some (set_fr (with_sequence n (fr f)) f)).
Proof.
  intros Hi Ha. destruct (_ =? _).
  - apply runs_bind, runs_change. apply runs_bind, runs_ask. apply (runs_upd_frame _ f); [done|]. split; [|eexists; apply lookup_insert_eq].
    pose proof (sequence_calm ext ls a (Z.land (q_sequence st + 1) 0xFFFF) st Hi) as Hc1. eapply calmly_trans; [exact Hc1|]. by apply with_sequence_calm; [apply Hc1|].
  - apply runs_ret. split; [by apply calmly_refl|]. exists (mdp_sequence (fr f)). rewrite Ha. f_equal. by destruct f as [? ? ? []].
Qed.

Lemma delay_calm ext ls a f t st : Inv ext ls st → q_frames st !! a = Some f → 0 ≤ t < 2 ^ 61 →
  Calmly ext ls a st (set_frames (<[a := set_delay_until t f]> (q_frames st)) st).
Proof.
  intros Hi Ha Ht. split; [|done]. apply (qinv_upd _ _ _ _ _ _ _ f); try done. destruct (frame_live _ _ _ _ _ _ _ _ Hi Ha) as [H1 H2 H3 H4 H5 H6 H7 H8 H9 H10 H11 H12 H13].
  split; try done. cbn. split; [apply H5|done].
Qed.
Lemma transmit_count_calm ext ls a f n st : Inv ext ls st → q_frames st !! a = Some f →
  Calmly ext ls a st (set_frames (<[a := set_transmit_count n f]> (q_frames st)) st).
Proof.
  intros Hi Ha. split; [|done]. apply (qinv_upd _ _ _ _ _ _ _ f); try done. by destruct (frame_live _ _ _ _ _ _ _ _ Hi Ha).
Qed.

Lemma transmit_calm ext ls a f now i st : Inv ext ls st → q_frames st !! a = Some f → queued_ok f → 0 ≤ i < destination_count f → going st f i → 0 ≤ now < 2 ^ 60 →
  runs (transmit (Some me) call_hook a now i) st (λ _ st', Calm ext ls a st st').
Proof.
  intros Hi Ha Hq Hr (s & d & Hs & Hd & Hpd & [b Hb]) Hnow. unfold transmit. apply runs_bind, (runs_frame _ f); [done|]. apply runs_bind, runs_ask.
  apply runs_bind. eapply runs_mono; [by apply (hook_calm ext ls a f)|]. cbn beta. intros drop st1 ([Hc1 Hp1] & f1 & Ha1 & Ed1 & En1). pose proof (ca_inv _ _ _ _ _ _ _ _ Hc1) as Hi1.
  destruct drop; [by apply runs_ret|]. apply runs_bind, (runs_frame _ f1); [done|]. apply runs_bind. eapply runs_mono; [by apply (assign_calm ext ls a f1)|].
  cbn beta. intros _ st2 ([Hc2 Hp2] & n & Ha2). pose proof (ca_inv _ _ _ _ _ _ _ _ Hc2) as Hi2. set (f2 := set_fr (with_sequence n (fr f1)) f1) in *.
  assert (Calm ext ls a st st2) as Hc02 by (by eapply calm_trans). assert (ident f2 = ident f) as Hid2.
  { destruct (kept_live _ _ _ _ _ (proj2 Hc02) Ha) as (f' & Ha' & Hid). rewrite Ha2 in Ha'. by injection Ha' as <-. }
  assert (q_packet st2 = q_packet st) as Hp02 by congruence. assert (0 ≤ i < destination_count f2) as Hr2 by (cbn; lia).
  apply runs_bind, (runs_frame _ f2); [done|]. apply runs_bind, runs_ask. cbv zeta. set (wr := negb _).
  destruct (slot_live _ _ _ _ _ _ _ _ i Hi2 Ha2 Hr2) as (s' & d' & x & Hs2 & Hsok & Hd2 & Hx & _). assert (s' = s) as ->.
  { cbn in Hs2. rewrite Ed1, Hs in Hs2. by injection Hs2. } rewrite Hd in Hd2. injection Hd2 as <-.
  apply runs_bind, (runs_slot _ _ s); [lia|done|]. apply runs_bind, (runs_deref _ d); [by rewrite Hp02|]. apply runs_bind, (runs_dest _ x); [done|].
  apply runs_bind, (runs_deref _ b); [by rewrite Hp02|]. apply runs_bind.
  eapply runs_mono; [apply (append_calm ext ls a f2 s b (d_encapsulation x) wr st2 Hi2 Ha2); [by apply (queued_kept f)|done|by rewrite Hp02]|].
  cbn beta. intros r st3 (Hc3 & Ef3 & Eds3). pose proof (ca_inv _ _ _ _ _ _ _ _ Hc3) as Hi3. assert (q_frames st3 !! a = Some f2) as Ha3 by (by rewrite Ef3).
  assert (Calm ext ls a st st3) as Hc03 by (by eapply calm_trans). destruct (negb (r =? 0)).
  { apply runs_bind, (runs_upd_frame _ f2); [done|]. apply runs_ret. eapply calm_trans; [exact Hc03|]. apply delay_calm; [done|done|lia]. }
  apply runs_bind, (runs_upd_frame _ f2); [done|]. destruct (transmit_count_calm ext ls a f2 (transmit_count f2 + 1) st3 Hi3 Ha3) as [Hc4 _].
  set (f4 := set_transmit_count _ f2) in *. set (st4 := set_frames _ st3) in *. assert (q_frames st4 !! a = Some f4) as Ha4 by apply lookup_insert_eq.
  apply runs_bind, (runs_deref _ d); [done|]. apply runs_bind, (runs_dest _ x); [by cbn; rewrite Eds3|].
  apply runs_bind, (runs_put_slot _ f4); [done| |].
  { pose proof (fk_count _ _ (frame_live _ _ _ _ _ _ _ _ Hi2 Ha2)). unfold MAX_PACKET_DESTINATIONS. lia. }
  assert (0 ≤ now < 2 ^ 61) as Hnow' by lia.
  destruct (slot_calm ext ls a f4 i s (sequence_number x) now st4 (ca_inv _ _ _ _ _ _ _ _ Hc4) Ha4 Hr2 Hs2 Hnow') as [Hc5 _]. rewrite Hd in Hc5.
  set (f5 := set_destinations _ _ f4) in *. set (st5 := set_frames _ st4) in *. assert (q_frames st5 !! a = Some f5) as Ha5 by apply lookup_insert_eq.
  assert (Calm ext ls a st st5) as Hc05 by (do 2 (eapply calm_trans; [eassumption|]); done). destruct wr; [by apply runs_ret|].
  apply runs_bind. eapply runs_mono; [apply (remove_destination_calm _ _ _ ext ls a f5 i st5 (ca_inv _ _ _ _ _ _ _ _ Hc5) Ha5 Hr2)|].
  cbn beta. intros _ st6 (Hc6 & Ha6 & _). apply runs_bind, (runs_frame _ (drop_slot i f5)); [done|]. apply runs_ret. by eapply calm_trans.
Qed.

End Packet.
End OverlayQueuePacket.
