(* ===== verification/OverlayQueueSend.v ===== *)
(** * Sending from the queues

    What the queues need of the rest of the daemon is the class [Surroundings]. Every
    packet that is filled leaves the queues in order: frames are taken out, never
    moved, and while one is left that can be sent the timer runs. *)

From S2P Require Import Prelude Mem Prog OverlayBuffer OverlayBufferSpec OverlayBufferCodec OverlayBufferFill Limit DataFormats OverlayAddress OverlayAddressTree OverlayAddressCodec OverlayAddressRound LinkWindow OverlayFrame OverlayFrameRound FdQueue FdQueueSpec OverlayQueue OverlayQueueSpec OverlayQueueTimer OverlayQueueInv OverlayQueuePacket.
Import Prog OB Limit OverlayAddress OverlayAddressCodec LinkWindow OverlayFrame FdQueueSpec OverlayQueue OverlayQueueSpec OverlayQueueTimer OverlayQueueInv OverlayQueuePacket.

Module OverlayQueueSend.

(** No packet under construction. *)
Definition idle_packet : outgoing_packet := Outgoing None (-1) 0 0 None no_context.
Definition idle (st : qstate) : qstate := set_packet idle_packet st.

(** What sending the packet to the destination [d] may do: interfaces, routes and the
    references of other parts to destinations may change, but no interface becomes
    free that was busy, and the frames, the queues and the timer stay. The reference
    of the packet to [d] is still there. *)
Record handed_over `{Arch, Allocator} (np me : nat) (directory_service : option nat) (d : nat) (ls : list (list nat)) (st st' : qstate) : Prop := {
  ho_inv : ∃ ext, qinv np me directory_service (bump ext d 1) ls (idle st') ∧ routes_ok me directory_service ext (q_ss st') (q_routes st') (q_neighbours st') (length (q_interfaces st'));
  ho_frames : q_frames st' = q_frames st;
  ho_tx : q_tx st' = q_tx st;
  ho_armed : alarm_of np (q_sched st) ≠ 0 → alarm_of np (q_sched st') ≠ 0;
  ho_busy : Forall (λ y, tx_packet y = false) (q_interfaces st') → Forall (λ y, tx_packet y = false) (q_interfaces st);
}.

(** The functions the queues call in other parts of the daemon, with what is needed of
    them: they keep the invariant. [olsr_send], the hooks and the configured addresses
    work for one frame; [overlay_broadcast_ensemble] takes the packet over. *)
Class Surroundings `{Arch, Allocator} (np me : nat) (directory_service : option nat) := {
  gettime_ms : nat → Z;
  clock n : 0 < gettime_ms n < 2 ^ 60;
  load_subscriber_address : nat → prog qstate (option nat);
  load_ok d ext ls a st : qinv np me directory_service ext ls st → runs (load_subscriber_address d) st (λ r st', q_packet st' = q_packet st ∧
    match r with None => calm np me directory_service ext ls a st st' | Some x => calm np me directory_service (bump ext x 1) ls a st st' end);
  olsr_send : nat → prog qstate unit;
  olsr_ok ext ls a st : qinv np me directory_service ext ls st → runs (olsr_send a) st (λ _ st', calmly np me directory_service ext ls a st st' ∧ q_frames st' = q_frames st);
  call_hook : nat → nat → option nat → Z → prog qstate Z;
  hook_ok h a d sq ext ls st f : qinv np me directory_service ext ls st → q_frames st !! a = Some f →
    runs (call_hook h a d sq) st (λ _ st', calmly np me directory_service ext ls a st st' ∧
      ∃ f', q_frames st' !! a = Some f' ∧ destinations f' = destinations f ∧ destination_count f' = destination_count f);
  overlay_broadcast_ensemble : option nat → overlay_buffer → prog qstate unit;
  ensemble_ok d b ext ls st : qinv np me directory_service ext ls st → p_destination (q_packet st) = Some d → p_buffer (q_packet st) = Some b →
    runs (overlay_broadcast_ensemble (Some d) b) st (λ _ st', handed_over np me directory_service d ls st st');
}.

Section Send.
Context {arch : Arch} {allocator : Allocator} {np me : nat} {directory_service : option nat} `{env : !Surroundings np me directory_service}.
Variable send_alarm : nat.
Hypothesis memory : malloc_total.
Abbreviation Inv := (qinv np me directory_service).
Abbreviation Calm := (calm np me directory_service).

(** ** One frame *)

Definition expired (q : overlay_txqueue) (f : queued) (now : Z) : bool :=
  negb (latencyTarget q =? 0) && (enqueued_at f + latencyTarget q <? now).

Lemma consider_calm ext ls i l a f q now st : Inv ext ls st → ls !! i = Some l → a ∈ l → q_frames st !! a = Some f → q_tx st !! i = Some q → 0 ≤ now < 2 ^ 60 →
  runs (consider gettime_ms directory_service load_subscriber_address (Some me) call_hook i now a) st
    (λ v st', Calm ext ls a st st' ∧ (v = Skip → expired q f now = false)).
Proof.
  intros Hi Hl Hal Ha Hq Hnow. destruct (qs_on _ _ _ (qi_queues _ _ _ _ _ _ Hi) i l a f Hl Hal Ha) as (_ & Hqok). fold (queued_ok f) in Hqok.
  unfold consider. apply runs_bind, (runs_frame _ f); [done|]. apply runs_bind, (runs_queue _ q); [done|]. fold (expired q f now).
  destruct (expired q f now); [apply runs_ret; split; [by apply calm_refl|done]|].
  assert (∀ (p : prog qstate verdict) st', runs p st' (λ _ st'', Calm ext ls a st st'') →
    runs p st' (λ v st'', Calm ext ls a st st'' ∧ (v = Skip → false = false))) as Hweak by (intros p st' Hp; eapply runs_mono; [exact Hp|by intros]).
  destruct (now <? delay_until f); [apply runs_ret; split; [by apply calm_refl|done]|]. apply Hweak.
  apply runs_bind, runs_ask. apply runs_bind. pose proof (mo_packet _ _ _ (qi_mem _ _ _ _ _ _ Hi)) as [_ Hpk].
  assert (runs (match p_buffer (q_packet st) with
    | Some b => d ← deref (p_destination (q_packet st)); x ← the_dest d; if d_encapsulation x =? ENCAP_SINGLE then mret true
        else pl ← deref (f_payload (fr f)); n ← lift (ob_remaining b); mret (n <? ob_position pl)
    | None => mret false end) st (λ _ st', st' = st)) as Hfull.
  { destruct (p_buffer (q_packet st)) as [b|] eqn:Eb; [|by apply runs_ret]. destruct (Hpk b eq_refl) as ((L & cp & w & Hfill & Hw) & _ & [d Hd] & _).
    apply runs_bind, (runs_deref _ d); [done|]. destruct (dest_live _ _ _ _ _ _ d Hi) as (x & Hx & _).
    { unfold weight. rewrite Hd, decide_True by done. pose proof (ro_ext _ _ _ _ _ _ _ (qi_routes _ _ _ _ _ _ Hi) d). lia. }
    apply runs_bind, (runs_dest _ x); [done|]. destruct (_ =? _); [by apply runs_ret|]. destruct Hqok as (_ & pl & Hpl & _). apply runs_bind, (runs_deref _ pl); [done|].
    apply runs_bind, (runs_lift _ (L - Z.of_nat (length w))); [|by apply runs_ret]. destruct Hfill as [F1 F2 F3 F4 F5 F6 F7 F8 F9]. unfold ob_remaining.
    rewrite F3, F6, (proj2 (Z.eqb_neq L SIZE_MAX)), (proj2 (Z.leb_le _ _)) by lia. done. }
  eapply runs_mono; [exact Hfull|]. cbn beta. intros full ? ->. destruct full; [apply runs_ret; by apply calm_refl|].
  apply runs_bind. assert (runs (if manual_destinations f then mret tt else link_add_destinations gettime_ms directory_service load_subscriber_address a) st
    (λ _ st', Calm ext ls a st st')) as Hadd.
  { destruct (manual_destinations f); [apply runs_ret; by apply calm_refl|]. eapply runs_mono; [apply (link_add_calm _ np me directory_service _ load_ok ext ls a f st Hi Ha)|].
    by intros _ st' [? _]. }
  eapply runs_mono; [exact Hadd|]. cbn beta. intros _ st1 Hc1. pose proof (ca_inv _ _ _ _ _ _ _ _ Hc1) as Hi1. destruct (kept_live _ _ _ _ _ (proj2 Hc1) Ha) as (f1 & Ha1 & Hid1).
  apply runs_bind, (runs_frame _ f1); [done|]. apply runs_bind, runs_ask. destruct (negb _ && _); [by apply runs_ret|].
  pose proof (fk_count _ _ (frame_live _ _ _ _ _ _ _ _ Hi1 Ha1)). apply runs_bind.
  eapply runs_mono; [apply (pick_calm _ np me directory_service clock memory ext ls a now _ f1 st1 Hi1 Ha1); lia|].
  cbn beta. intros r st2 (Hc2 & f2 & Ha2 & Hr). assert (Calm ext ls a st st2) as Hc02 by (by eapply calm_trans).
  apply runs_bind, (runs_frame _ f2); [done|]. destruct (_ =? 0); [by apply runs_ret|]. destruct (Z.eqb_spec r (-1)) as [->|Hne]; [by apply runs_ret|].
  destruct Hr as [->|[Hr Hg]]; [done|]. eapply runs_mono; [apply (transmit_calm np me directory_service memory call_hook hook_ok ext ls a f2 now r st2 (ca_inv _ _ _ _ _ _ _ _ Hc2) Ha2); try done|].
  - destruct (kept_live _ _ _ _ _ (proj2 Hc02) Ha) as (f' & Ha' & Hid). rewrite Ha2 in Ha'. injection Ha' as <-. by apply (queued_kept f).
  - intros v st3 Hc3. by eapply calm_trans.
Qed.

(** ** One queue *)

(** What stays of a frame when others are taken out of its queue. *)
Definition essence (f : queued) : queued := core (ident f).
Lemma ident_essence f f' : ident f' = ident f → essence f' = essence f.
Proof. unfold essence. by intros ->. Qed.
Lemma essence_enqueued f f' : essence f' = essence f → enqueued_at f' = enqueued_at f.
Proof. destruct f, f'. cbn. by intros [=]. Qed.

(** Frames may be gone, but none is new, and what stays of the others is the same. *)
Record evolved (st st' : qstate) : Prop := {
  ev_frames a f' : q_frames st' !! a = Some f' → ∃ f, q_frames st !! a = Some f ∧ essence f' = essence f;
  ev_latency i : latencyTarget <$> q_tx st' !! i = latencyTarget <$> q_tx st !! i;
  ev_interfaces : q_interfaces st' = q_interfaces st;
  ev_armed : alarm_of np (q_sched st) ≠ 0 → alarm_of np (q_sched st') ≠ 0;
}.
Lemma evolved_refl st : evolved st st.
Proof. split; try done. intros a f' E. by exists f'. Qed.
Lemma evolved_trans st1 st2 st3 : evolved st1 st2 → evolved st2 st3 → evolved st1 st3.
Proof.
  intros [H1 H2 H3 H4] [G1 G2 G3 G4]. split; [|intros i; by rewrite G2|congruence|auto].
  intros a f3 E3. destruct (G1 a f3 E3) as (f2 & E2 & I2). destruct (H1 a f2 E2) as (f1 & E1 & I1). exists f1. by rewrite I2.
Qed.
Lemma kept_evolved a st st' : kept np a st st' → evolved st st'.
Proof.
  intros [H1 H2 H3 H4 H5 H6 H7]. split; [|by rewrite H3|done|done]. intros b f' E. destruct (decide (b = a)) as [->|Hne].
  - rewrite E in H1. symmetry in H1. apply fmap_Some in H1 as (f & Ef & Ei). exists f. split; [done|]. by apply ident_essence.
  - rewrite H2 in E by done. by exists f'.
Qed.
Lemma core_ident f f' : core f' = core f → essence f' = essence f ∧ destination_count f' = destination_count f ∧ fr f' = fr f.
Proof. destruct f, f'. cbn. intros [=]. by subst. Qed.
Lemma removed_evolved a st st' : removed a st st' → evolved st st'.
Proof.
  intros [H1 H2 H3 H4 H5 H6 H7]. split; [|done|done|by rewrite H4]. intros b f' E. destruct (links_only_lookup _ _ _ _ H1 E) as (f & Ef & Ec).
  apply lookup_delete_Some in Ef as [_ Ef]. exists f. split; [done|]. by apply core_ident.
Qed.

(** No interface is busy with an earlier packet. *)
Definition no_busy (st : qstate) : Prop := Forall (λ y, tx_packet y = false) (q_interfaces st).
(** The frame is for one subscriber, or has destinations. *)
Definition to_send (f : queued) : Prop := is_Some (f_destination (fr f)) ∨ 0 < destination_count f.

Lemma to_send_waiting ext ls a f st : Inv ext ls st → no_busy st → q_frames st !! a = Some f → to_send f → waiting st f.
Proof.
  intros Hi Hb Ha Hs. pose proof (fk_count _ _ (frame_live _ _ _ _ _ _ _ _ Hi Ha)) as Hc. destruct (decide (destination_count f = 0)) as [E|E].
  { right. split; [done|]. destruct Hs; [done|lia]. }
  left. exists 0. split; [lia|]. destruct (slot_live _ _ _ _ _ _ _ _ 0 Hi Ha) as (s & d & x & Hs0 & _ & Hd & Hx & Hxok); [lia|].
  destruct (dk_interface _ _ Hxok) as (j & Hj & Hlt). destruct (lookup_lt_is_Some_2 _ _ Hlt) as [y Hy]. exists s, d, x, j, y. split_and!; try done.
  unfold no_busy in Hb. rewrite Forall_lookup in Hb. by apply (Hb j).
Qed.

(** While one of the frames [l] is to be sent, the timer runs. *)
Definition alarmed (st : qstate) (l : list nat) : Prop := no_busy st → ∀ a f, a ∈ l → q_frames st !! a = Some f → to_send f → alarm_of np (q_sched st) ≠ 0.

Lemma alarmed_kept a l st st' : kept np a st st' → a ∉ l → alarmed st l → alarmed st' l.
Proof.
  intros Hk Hal H Hb b f Hbl Hf Hs. apply (ke_armed _ _ _ _ Hk). rewrite (ke_others _ _ _ _ Hk) in Hf by (by intros ->). apply (H ltac:(unfold no_busy in *; by rewrite <- (ke_interfaces _ _ _ _ Hk)) b f); done.
Qed.
Lemma alarmed_removed a l st st' : removed a st st' → alarmed st l → alarmed st' l.
Proof.
  intros Hr H Hb b f Hbl Hf Hs. rewrite (rm_sched _ _ _ Hr). destruct (links_only_lookup _ _ _ _ (rm_frames _ _ _ Hr) Hf) as (g & Hg & Ec).
  apply lookup_delete_Some in Hg as [_ Hg]. destruct (core_ident _ _ Ec) as (_ & En & Ef). unfold no_busy in Hb. rewrite (rm_interfaces _ _ _ Hr) in Hb.
  apply (H Hb b g Hbl Hg). unfold to_send in *. by rewrite <- En, <- Ef.
Qed.

(** What a pass over the queue [i] with the frames [l] leaves: the frames [l'], in
    order, none of them expired. *)
Record passed (ext : nat → Z) (ls : list (list nat)) (i : nat) (pre l : list nat) (now : Z) (st st' : qstate) (l' : list nat) : Prop := {
  pa_inv : Inv ext (<[i := pre ++ l']> ls) st';
  pa_sublist : sublist l' l;
  pa_evolved : evolved st st';
  pa_fresh a f q : a ∈ l' → q_frames st' !! a = Some f → q_tx st' !! i = Some q → expired q f now = false;
}.

Lemma expired_evolved st st' i a f f' q q' now : evolved st st' → q_frames st !! a = Some f → q_frames st' !! a = Some f' →
  q_tx st !! i = Some q → q_tx st' !! i = Some q' → expired q' f' now = expired q f now.
Proof.
  intros Hev Ha Ha' Hq Hq'. destruct (ev_frames _ _ Hev a f' Ha') as (f0 & Hf0 & Hid0). rewrite Ha in Hf0. injection Hf0 as <-.
  pose proof (ev_latency _ _ Hev i) as Hlat. rewrite Hq, Hq' in Hlat. injection Hlat as Hlat. pose proof (essence_enqueued _ _ Hid0) as Hen0.
  unfold expired. by rewrite Hlat, Hen0.
Qed.

Lemma stuff_loop_passed ext i now fuel : 0 ≤ now < 2 ^ 60 → ∀ rest pre watch ls st, Inv ext ls st → ls !! i = Some (pre ++ rest) → (length rest ≤ fuel)%nat →
  (∀ b, b ∈ watch → b ∉ rest) → alarmed st watch →
  runs (stuff_loop gettime_ms np send_alarm directory_service load_subscriber_address (Some me) call_hook fuel i now (head rest)) st
    (λ _ st', ∃ l', passed ext ls i pre rest now st st' l' ∧ alarmed st' (watch ++ l')).
Proof.
  intros Hnow. induction fuel as [|fuel IH]; intros rest pre watch ls st Hi Hl Hlen Hdis Hal; (destruct rest as [|a rest]; cbn [head stuff_loop];
    [apply runs_ret; exists []; rewrite !app_nil_r in *; split; [|done]; split; [by rewrite app_nil_r, list_insert_id|done|apply evolved_refl|by intros ? ? ? ?%not_elem_of_nil]|]).
  { cbn in Hlen. lia. }
  pose proof (qi_queues _ _ _ _ _ _ Hi) as Hqs. pose proof (qs_rep _ _ _ Hqs i _ Hl) as Hr. assert (a ∈ pre ++ a :: rest) as Hin by (apply elem_of_app; right; left).
  destruct (queue_live _ _ _ _ a Hr Hin) as [f Ha]. destruct (qr_ends _ _ _ _ Hr) as (q & Hq & _). destruct (NoDup_mid _ _ _ (qr_nodup _ _ _ _ Hr)) as (_ & Har & _).
  assert (a ∉ watch) as Hap by (intros Haw; apply (Hdis a Haw); left). assert (∀ b, b ∈ watch → b ∉ rest) as Hdis' by (intros b Hb Hbr; apply (Hdis b Hb); by right).
  apply runs_bind. eapply runs_mono; [by apply (consider_calm ext ls i (pre ++ a :: rest) a f q)|]. cbn beta. intros v st1 [[Hi1 Hk1] Hv]. pose proof (kept_evolved _ _ _ Hk1) as Hev1.
  destruct v.
  - apply runs_bind. eapply runs_mono; [apply (remove_runs np me directory_service ext ls i pre a rest st1 Hi1 Hl)|]. cbn beta. intros ? st2 (-> & Hi2 & Hr2).
    pose proof (removed_evolved _ _ _ Hr2) as Hev2. eapply runs_mono; [apply (IH rest pre watch _ st2 Hi2)|].
    { apply list_lookup_insert_eq. by eapply lookup_lt_Some. } { cbn in Hlen. lia. } { done. } { eapply alarmed_removed; [done|]. by eapply alarmed_kept. }
    cbn beta. intros _ st3 (l' & [P1 P2 P3 P4] & Hal3). exists l'. split; [|done]. split; [by rewrite list_insert_insert_eq in P1|by apply sublist_cons| |done].
    do 2 (eapply evolved_trans; [eassumption|]). done.
  - destruct (kept_live _ _ _ _ _ Hk1 Ha) as (f1 & Ha1 & Hid1). destruct (ident_fields _ _ Hid1) as (_ & _ & _ & Hen1 & _).
    assert (0 < enqueued_at f1) as Hpos by (rewrite Hen1; apply (qs_on _ _ _ Hqs i _ a f Hl Hin Ha)).
    apply runs_bind. eapply runs_mono; [apply (calc_queue_time_calm _ np send_alarm me directory_service clock ext ls a f1 st1 Hi1 Ha1 Hpos)|].
    cbn beta. intros _ st2 ([Hi2 Hk2] & Ef2 & _ & Harm). pose proof (kept_evolved _ _ _ Hk2) as Hev2. assert (q_frames st2 !! a = Some f1) as Ha2 by (by rewrite Ef2).
    apply runs_bind, (runs_frame _ f1); [done|]. pose proof (qs_rep _ _ _ (qi_queues _ _ _ _ _ _ Hi2) i _ Hl) as Hr2.
    destruct (linked_at _ _ _ _ _ _ _ (qr_seg _ _ _ _ Hr2) (qr_backs _ _ _ _ Hr2)) as [En _]. unfold fwd in En. rewrite Ha2 in En. injection En as ->.
    assert (alarmed st2 (watch ++ [a])) as Hal2.
    { intros Hb b g Hbl Hg Hs. apply elem_of_app in Hbl as [Hbl|Hbl].
      - by apply (alarmed_kept a watch st1 st2 Hk2 Hap (alarmed_kept a watch st st1 Hk1 Hap Hal) Hb b g).
      - apply list_elem_of_singleton in Hbl as ->. rewrite Ha2 in Hg. injection Hg as <-. apply Harm. apply (to_send_waiting ext ls a); try done.
        unfold no_busy in *. by rewrite <- (ke_interfaces _ _ _ _ Hk2). }
    eapply runs_mono; [apply (IH rest (pre ++ [a]) (watch ++ [a]) ls st2 Hi2); [by rewrite <- app_assoc|cbn in Hlen; lia| |done]|].
    { intros b [Hb|Hb]%elem_of_app; [by apply Hdis'|]. by apply list_elem_of_singleton in Hb as ->. }
    cbn beta. intros _ st3 (l' & [P1 P2 P3 P4] & Hal3). rewrite <- app_assoc in P1, Hal3. exists (a :: l'). split; [|done].
    assert (evolved st st3) as Hev by (do 2 (eapply evolved_trans; [eassumption|]); done). split; [done|by apply sublist_skip|done|].
    intros b g q' Hbl Hg Hq'. apply elem_of_cons in Hbl as [->|Hbl]; [|by apply (P4 b)]. specialize (Hv eq_refl). by rewrite (expired_evolved st st3 i a f g q q').
Qed.

Lemma queue_size tx fs i l : queue_rep tx fs i l → (length l ≤ size fs)%nat.
Proof.
  intros Hr. rewrite <- (size_dom fs), <- (size_list_to_set (C := gset nat) l) by apply Hr. apply subseteq_size. intros a Ha%elem_of_list_to_set.
  apply elem_of_dom. destruct (queue_live _ _ _ _ a Hr Ha) as [f Hf]. by exists f.
Qed.

Lemma stuff_packet_passed ext ls i l watch now st : Inv ext ls st → ls !! i = Some l → 0 ≤ now < 2 ^ 60 → (∀ b, b ∈ watch → b ∉ l) → alarmed st watch →
  runs (overlay_stuff_packet gettime_ms np send_alarm directory_service load_subscriber_address (Some me) call_hook i now) st
    (λ _ st', ∃ l', passed ext ls i [] l now st st' l' ∧ alarmed st' (watch ++ l')).
Proof.
  intros Hi Hl Hnow Hdis Hal. pose proof (qs_rep _ _ _ (qi_queues _ _ _ _ _ _ Hi) i l Hl) as Hr. destruct (qr_ends _ _ _ _ Hr) as (q & Hq & Hfirst & _).
  unfold overlay_stuff_packet. apply runs_bind, (runs_queue _ q); [done|]. apply runs_bind, runs_ask. rewrite Hfirst.
  apply (stuff_loop_passed ext i now _ Hnow l [] watch ls st Hi Hl); [by eapply queue_size|done|done].
Qed.

(** ** All queues *)

(** What a pass over the first [n] queues leaves. *)
Record swept (ext : nat → Z) (n : nat) (now : Z) (ls : list (list nat)) (st : qstate) (ls' : list (list nat)) (st' : qstate) : Prop := {
  sw_inv : Inv ext ls' st';
  sw_order : Forall2 sublist ls' ls;
  sw_evolved : evolved st st';
  sw_rest i : (n ≤ i)%nat → ls' !! i = ls !! i;
  sw_fresh i l a f q : (i < n)%nat → ls' !! i = Some l → a ∈ l → q_frames st' !! a = Some f → q_tx st' !! i = Some q → expired q f now = false;
  sw_alarm : alarmed st' (concat (take n ls'));
}.

Lemma swept_step ext n now ls st ls1 st1 l l' st2 : swept ext n now ls st ls1 st1 → ls1 !! n = Some l → passed ext ls1 n [] l now st1 st2 l' →
  alarmed st2 (concat (take n ls1) ++ l') → swept ext (S n) now ls st (<[n := l']> ls1) st2.
Proof.
  intros [W1 W2 W3 W4 W5 W6] Hl [P1 P2 P3 P4] Hal. pose proof (lookup_lt_Some _ _ _ Hl) as Hlt. split.
  - done.
  - apply Forall2_lookup. intros j. destruct (decide (n = j)) as [<-|].
    + rewrite list_lookup_insert_eq by done. rewrite <- W4 by lia. rewrite Hl. by constructor.
    + rewrite list_lookup_insert_ne by done. by apply Forall2_lookup.
  - by eapply evolved_trans.
  - intros j Hj. rewrite list_lookup_insert_ne by lia. apply W4. lia.
  - intros j lj a f q Hj Hlj Ha Hf Hq. destruct (decide (n = j)) as [<-|].
    + rewrite list_lookup_insert_eq in Hlj by done. injection Hlj as <-. by apply (P4 a).
    + rewrite list_lookup_insert_ne in Hlj by done. destruct (ev_frames _ _ P3 a f Hf) as (f1 & Hf1 & _).
      pose proof (ev_latency _ _ P3 j) as Hlat. rewrite Hq in Hlat. symmetry in Hlat. apply fmap_Some in Hlat as (q1 & Hq1 & _).
      rewrite (expired_evolved st1 st2 j a f1 f q1 q now P3 Hf1 Hf Hq1 Hq). apply (W5 j lj a); try done. lia.
  - rewrite (take_S_r _ _ l') by (by apply list_lookup_insert_eq). rewrite take_insert_ge by lia. rewrite concat_app. cbn. by rewrite app_nil_r.
Qed.

Lemma stuff_all_swept ext now n ls st : Inv ext ls st → (n ≤ OQ_MAX)%nat → 0 ≤ now < 2 ^ 60 →
  runs (stuff_all gettime_ms np send_alarm directory_service load_subscriber_address (Some me) call_hook n now) st (λ _ st', ∃ ls', swept ext n now ls st ls' st').
Proof.
  intros Hi Hn Hnow. induction n as [|n IH]; cbn [stuff_all].
  { apply runs_ret. exists ls. split; [done|reflexivity|apply evolved_refl|done|lia|by intros ? ? ? ?%not_elem_of_nil]. }
  apply runs_bind. eapply runs_mono; [apply IH; lia|]. cbn beta. intros _ st1 (ls1 & Hsw). pose proof (sw_inv _ _ _ _ _ _ _ Hsw) as Hi1.
  pose proof (qi_queues _ _ _ _ _ _ Hi1) as Hqs. destruct (lookup_lt_is_Some_2 ls1 n) as [l Hl]; [rewrite (qs_count _ _ _ Hqs); lia|].
  eapply runs_mono; [apply (stuff_packet_passed ext ls1 n l (concat (take n ls1)) now st1 Hi1 Hl Hnow); [|apply Hsw]|].
  - intros b Hbc Hbl. apply list_elem_of_In, in_concat in Hbc as (lb & Hlb%list_elem_of_In & Hb%list_elem_of_In). apply list_elem_of_lookup in Hlb as [j Hj]. apply lookup_take_Some in Hj as [Hj Hjn].
    pose proof (qs_apart _ _ _ Hqs j n lb l b Hj Hl Hb Hbl). lia.
  - cbn beta. intros _ st2 (l' & Hp & Hal). exists (<[n := l']> ls1). by eapply swept_step.
Qed.

(** ** A packet *)

(** What filling and sending a packet leaves of the queues. *)
Record sent_from (now : Z) (ls : list (list nat)) (st : qstate) (ls' : list (list nat)) (st' : qstate) : Prop := {
  sf_inv : ∃ ext, Inv ext ls' (idle st');
  sf_order : Forall2 sublist ls' ls;
  sf_frames a f' : q_frames st' !! a = Some f' → ∃ f, q_frames st !! a = Some f ∧ essence f' = essence f;
  sf_fresh i l a f q : ls' !! i = Some l → a ∈ l → q_frames st' !! a = Some f → q_tx st' !! i = Some q → expired q f now = false;
  sf_alarm i l a f : ls' !! i = Some l → a ∈ l → no_busy st' → q_frames st' !! a = Some f → to_send f → alarm_of np (q_sched st') ≠ 0;
}.

Lemma idle_qinv ext ls st : Inv ext ls st → p_buffer (q_packet st) = None → Inv ext ls (idle st).
Proof.
  intros [H1 H2 H3 H4 H5 [M1 M2 M3] H7] Hb. split; try done. cbn. by rewrite (proj1 M3 Hb) in H2.
Qed.

(** The packet's reference is given back. *)
Lemma finish_runs d ls st st' : handed_over np me directory_service d ls st st' →
  runs (release_destination_ref d) st' (λ _ st'', (∃ ext, Inv ext ls (idle st'')) ∧ ∃ ds, st'' = set_dests ds st').
Proof.
  intros [(ext & Hi & Hro) _ _ _ _]. pose proof Hi as [H1 H2 H3 H4 H5 H6 H7]. eapply runs_mono; [apply (release_runs _ d st' H2)|].
  { unfold weight, bump. pose proof (ro_ext _ _ _ _ _ _ _ Hro d). cbn. rewrite (decide_True (P := d = d)), (decide_False (P := None = Some d)) by done. lia. }
  cbn beta. intros _ ? (ds & -> & Hc & Hw). split; [|by eexists]. exists ext. split; cbn; try done; [|by eapply within_ok].
  revert Hc. apply counted_ext. intros d'. unfold weight, bump. cbn. destruct (decide (d' = d)); lia.
Qed.

Lemma concat_take_all (ls : list (list nat)) n i l a : length ls = n → ls !! i = Some l → a ∈ l → a ∈ concat (take n ls).
Proof. intros <- Hl Ha. rewrite take_ge by done. apply list_elem_of_In, in_concat. exists l. split; apply list_elem_of_In; [by eapply list_elem_of_lookup_2|done]. Qed.

(** The timer may be stopped: it is started again for what is left. *)
Lemma fill_runs ext ls now st : Inv ext ls st → 0 ≤ now < 2 ^ 60 →
  runs (overlay_fill_send_packet gettime_ms np send_alarm directory_service load_subscriber_address (Some me) call_hook overlay_broadcast_ensemble now) st
    (λ r st', 0 ≤ r ≤ 1 ∧ ∃ ls', sent_from now ls st ls' st').
Proof.
  intros Hi Hnow. unfold overlay_fill_send_packet. destruct (stop_timer np (q_sched st) (qi_timer _ _ _ _ _ _ Hi)) as (s & Es & Hs & _).
  apply runs_bind. eexists tt, _. split; [unfold with_sched; rewrite Es; reflexivity|]. assert (Inv ext ls (set_sched s st)) as Hi0 by (destruct Hi; by split).
  apply runs_bind. eapply runs_mono; [apply (stuff_all_swept ext now OQ_MAX ls (set_sched s st) Hi0); [lia|done]|].
  cbn beta. intros _ st1 (ls' & [W1 W2 [W3 _ _ _] _ W5 W6]). apply runs_bind, runs_ask. cbn [q_frames set_sched] in W3.
  pose proof (qs_count _ _ _ (qi_queues _ _ _ _ _ _ W1)) as Hn. pose proof (λ i l (E : ls' !! i = Some l), lookup_lt_Some _ _ _ E) as Hlt. rewrite Hn in Hlt.
  pose proof (mo_packet _ _ _ (qi_mem _ _ _ _ _ _ W1)) as [Hnone Hpk]. apply runs_bind. destruct (p_buffer (q_packet st1)) as [b|] eqn:Eb.
  - destruct (Hpk b eq_refl) as (_ & _ & [d Hd] & _). rewrite Hd. apply runs_bind. eapply runs_mono; [by apply (ensemble_ok d b ext ls' st1)|].
    cbn beta. intros _ st2 Hho. apply runs_ret. apply runs_bind. eapply runs_mono; [apply (finish_runs d ls' st1 st2 Hho)|]. cbn beta.
    intros _ ? (Hi3 & ds & ->). destruct Hho as [_ Hf2 Ht2 Ha2 Hb2]. apply runs_ret. split; [lia|]. exists ls'. split; try done; cbn [q_frames set_dests q_tx q_sched].
    + by rewrite Hf2.
    + rewrite Hf2, Ht2. intros i l a f q Hl. apply (W5 i l a f q); [by eapply Hlt|done].
    + intros i l a f Hl Ha Hb Hf Hto. rewrite Hf2 in Hf. apply Ha2. apply (W6 (Hb2 Hb) a f); [by apply (concat_take_all ls' _ i l)|done|done].
  - rewrite (Hnone eq_refl). apply runs_ret. apply runs_bind, runs_ret. apply runs_ret. split; [lia|]. exists ls'. split; try done.
    + exists ext. by apply idle_qinv.
    + intros i l a f q Hl. apply (W5 i l a f q); [by eapply Hlt|done].
    + intros i l a f Hl Ha Hb Hf Hto. apply (W6 Hb a f); [by apply (concat_take_all ls' _ i l)|done|done].
Qed.

End Send.
End OverlayQueueSend.
