(* ===== verification/OverlayQueueAppend.v ===== *)
(** * Queueing a frame

    A frame that is not on a queue goes to the end of its queue; what is asked of it
    first, and what is chosen for it, keeps the invariant. *)

From S2P Require Import Prelude Mem Prog OverlayBuffer OverlayBufferSpec OverlayBufferCodec OverlayBufferFill Limit DataFormats OverlayAddress OverlayAddressTree OverlayAddressCodec OverlayAddressRound LinkWindow OverlayFrame FdQueue FdQueueSpec OverlayQueue OverlayQueueSpec OverlayQueueTimer OverlayQueueInv OverlayQueuePacket OverlayQueueSend.
Import Prog OB Limit OverlayAddress OverlayAddressCodec LinkWindow OverlayFrame FdQueueSpec OverlayQueue OverlayQueueSpec OverlayQueueTimer OverlayQueueInv OverlayQueuePacket OverlayQueueSend.

Module OverlayQueueAppend.
Section Append.
Context {arch : Arch} {allocator : Allocator} {np me : nat} {directory_service : option nat} `{env : !Surroundings np me directory_service}.
Variable send_alarm : nat.
Hypothesis memory : malloc_total.
Abbreviation Inv := (qinv np me directory_service).
Abbreviation Calm := (calm np me directory_service).

(** The frame is on no queue. *)
Definition loose (ls : list (list nat)) (a : nat) : Prop := ∀ j l, ls !! j = Some l → a ∉ l.

(** ** The links *)

Definition tail_linked (fs : gmap nat queued) (l : list nat) (a : nat) : gmap nat queued :=
  match last l with Some b => alter (set_next (Some a)) b fs | None => fs end.
Definition queued_at (t : Z) (l : list nat) (f : queued) : queued :=
  set_fr (with_sequence (-1) (fr f)) (set_enqueued_at t (set_next None (set_prev (last l) f))).
Definition longer (l : list nat) (a : nat) (q : overlay_txqueue) : overlay_txqueue :=
  TxQueue (head (l ++ [a])) (Some a) (q_length q + 1) (maxLength q) (small_packet_grace_interval q) (latencyTarget q).

(** What appending leaves. *)
Record appended (i a : nat) (l : list nat) (q : overlay_txqueue) (f : queued) (t : Z) (st st' : qstate) : Prop := {
  ap_time : 0 < t < 2 ^ 60;
  ap_frames : q_frames st' = <[a := queued_at t l f]> (tail_linked (q_frames st) l a);
  ap_tx : q_tx st' = <[i := longer l a q]> (q_tx st);
  ap_mem : q_mem st' = q_mem st;
  ap_store : q_ss st' = q_ss st ∧ q_routes st' = q_routes st ∧ q_neighbours st' = q_neighbours st;
  ap_dests : q_dests st' = q_dests st;
  ap_rest : q_interfaces st' = q_interfaces st ∧ q_sched st' = q_sched st ∧ q_packet st' = q_packet st;
}.

Lemma tail_linked_ne fs l a b : last l ≠ Some b → tail_linked fs l a !! b = fs !! b.
Proof. unfold tail_linked. destruct (last l) as [c|]; [|done]. intros Hne. rewrite lookup_alter_ne; [done|congruence]. Qed.
Lemma tail_linked_eq fs l a b g : last l = Some b → fs !! b = Some g → tail_linked fs l a !! b = Some (set_next (Some a) g).
Proof. unfold tail_linked. intros -> Hg. by rewrite lookup_alter_eq, Hg. Qed.
Lemma tail_links fs l a : links_only fs (tail_linked fs l a).
Proof.
  unfold tail_linked. destruct (last l) as [b|]; [|done]. intros c. destruct (decide (b = c)) as [<-|]; [|by rewrite lookup_alter_ne].
  rewrite lookup_alter_eq. by destruct (fs !! b).
Qed.

Lemma append_runs i a l f q st : queue_rep (q_tx st) (q_frames st) i l → a ∉ l → q_frames st !! a = Some f → q_tx st !! i = Some q →
  runs (append_frame_to gettime_ms i a) st (λ _ st', ∃ t, appended i a l q f t st st').
Proof.
  intros Hr Hal Ha Hq. pose proof Hr as [(q0 & Hq0 & Hfirst & Hlast & _) _ _ _]. rewrite Hq in Hq0. injection Hq0 as <-.
  assert (i < length (q_tx st))%nat as Hi by (by eapply lookup_lt_Some).
  unfold append_frame_to. apply runs_bind, (runs_queue _ q); [done|]. rewrite Hlast. apply runs_bind.
  assert (last l ≠ Some a) as Hla by (intros E; by apply last_snoc_in in E).
  assert (runs (match last l with Some l => upd_frame l (set_next (Some a)) | None => mret tt end) st
    (λ _ st', st' = set_frames (tail_linked (q_frames st) l a) st)) as Htail.
  { unfold tail_linked. destruct (last l) as [b|] eqn:El; [|apply runs_ret; by destruct st].
    destruct (queue_live _ _ _ _ b Hr) as [g Hg]; [by apply last_snoc_in|]. apply (runs_upd_frame _ g); [done|]. f_equal.
    apply map_eq. intros c. destruct (decide (b = c)) as [<-|]; [by rewrite lookup_insert_eq, lookup_alter_eq, Hg|by rewrite lookup_insert_ne, lookup_alter_ne]. }
  eapply runs_mono; [exact Htail|]. cbn beta. intros _ ? ->.
  apply runs_bind, (runs_upd_frame _ f); [cbn; by rewrite tail_linked_ne|]. apply runs_bind. eapply runs_upd_frame; [apply lookup_insert_eq|].
  apply runs_bind. eexists _, _. split; [reflexivity|]. apply runs_bind. eapply runs_upd_frame; [apply lookup_insert_eq|].
  apply runs_bind. eapply runs_upd_frame; [apply lookup_insert_eq|]. apply runs_bind, (runs_upd_queue _ q); [done|].
  apply runs_bind. eapply runs_queue; [by apply list_lookup_insert_eq|]. cbn [q_first set_last]. apply runs_bind.
  match goal with |- runs _ ?s _ => set (st1 := s) end.
  assert (runs (if bool_decide (q_first q = None) then upd_queue i (set_first (Some a)) else mret tt) st1
    (λ _ st', st' = set_tx (<[i := set_first (head (l ++ [a])) (set_last (Some a) q)]> (q_tx st)) st1)) as Hf.
  { rewrite Hfirst. destruct l as [|b l]; cbn.
    - eapply runs_upd_queue; [by apply list_lookup_insert_eq|]. cbn. by rewrite list_insert_insert_eq.
    - apply runs_ret. cbn in Hfirst. rewrite <- Hfirst. assert (set_first (q_first q) (set_last (Some a) q) = set_last (Some a) q) as -> by (by destruct q).
      unfold st1. by destruct st. }
  eapply runs_mono; [exact Hf|]. cbn beta. intros _ ? ->. apply runs_bind. eapply runs_upd_queue; [by apply list_lookup_insert_eq|].
  match goal with |- runs _ ?s _ => set (st2 := s) end. assert (appended i a l q f (gettime_ms (q_ticks st)) st st2) as Hap.
  { split; cbn; try done; [apply clock| |by rewrite !list_insert_insert_eq]. by rewrite !insert_insert_eq. }
  destruct (bool_decide (i = OQ_ISOCHRONOUS_VOICE)); [|apply runs_ret; exists (gettime_ms (q_ticks st)); exact Hap]. apply runs_bind. eexists _, _. split; [reflexivity|]. apply runs_change.
  exists (gettime_ms (q_ticks st)). destruct Hap as [P1 P2 P3 P4 P5 P6 P7]. by split.
Qed.

(** ** The sequences *)

Lemma appended_links ls i a l q f t st st' : loose ls a → ls !! i = Some l → appended i a l q f t st st' → ∀ b, b ≠ a →
  (last l ≠ Some b → q_frames st' !! b = q_frames st !! b) ∧
  (last l = Some b → q_frames st' !! b = set_next (Some a) <$> q_frames st !! b).
Proof.
  intros Hlo Hl Hap b Hne. rewrite (ap_frames _ _ _ _ _ _ _ _ Hap), lookup_insert_ne by done. split; intros E; [by apply tail_linked_ne|].
  unfold tail_linked. rewrite E. by rewrite lookup_alter_eq.
Qed.

Lemma appended_queues ls i a l q f t st st' : queues (q_tx st) (q_frames st) ls → loose ls a → ls !! i = Some l → q_tx st !! i = Some q →
  Z.of_nat (length l) < maxLength q → appended i a l q f t st st' → on_queue i (queued_at t l f) →
  queues (q_tx st') (q_frames st') (<[i := l ++ [a]]> ls).
Proof.
  intros Hqs Hlo Hl Hq Hmax Hap Hon. pose proof (qs_rep _ _ _ Hqs i l Hl) as Hr. pose proof Hr as [(q0 & Hq0 & Hfirst & Hlast & Hlen & _ & Hg) Hs Hb Hnd].
  rewrite Hq in Hq0. injection Hq0 as <-. pose proof (Hlo i l Hl) as Hal. pose proof (appended_links ls i a l q f t st st' Hlo Hl Hap) as Hother.
  assert (i < length (q_tx st))%nat as Hi by (by eapply lookup_lt_Some). assert (i < length ls)%nat as Hi' by (by eapply lookup_lt_Some).
  assert (q_frames st' !! a = Some (queued_at t l f)) as Ha' by (rewrite (ap_frames _ _ _ _ _ _ _ _ Hap); apply lookup_insert_eq).
  assert (∀ b, b ≠ a → bwd (q_frames st') b = bwd (q_frames st) b) as HB.
  { intros b Hne. destruct (Hother b Hne) as [H1 H2]. unfold bwd. destruct (decide (last l = Some b)) as [E|E]; [rewrite (H2 E)|by rewrite (H1 E)].
    by destruct (q_frames st !! b). }
  assert (∀ b, b ≠ a → last l ≠ Some b → fwd (q_frames st') b = fwd (q_frames st) b) as HF.
  { intros b Hne E. unfold fwd. by rewrite (proj1 (Hother b Hne) E). }
  split.
  - rewrite length_insert. apply Hqs.
  - intros j l' Hj. rewrite (ap_tx _ _ _ _ _ _ _ _ Hap). destruct (decide (i = j)) as [<-|Hne].
    + rewrite list_lookup_insert_eq in Hj by done. injection Hj as <-. split.
      * exists (longer l a q). rewrite list_lookup_insert_eq, last_snoc, length_app by done. cbn. split_and!; try done; lia.
      * assert (head (l ++ [a]) = if decide (l = []) then Some a else head l) as -> by (by destruct l).
        apply (seg_insert (fwd (q_frames st)) _ _ l []); [by rewrite app_nil_r|by rewrite app_nil_r|unfold fwd; by rewrite Ha'| |].
        -- intros b Hb' E. rewrite app_nil_r in Hb'. apply HF; [|done]. by intros ->.
        -- intros c E. assert (c ∈ l) as Hc by (by apply last_snoc_in). unfold fwd. rewrite (proj2 (Hother c ltac:(by intros ->)) E).
           destruct (queue_live _ _ _ _ c Hr Hc) as [g ->]. done.
      * apply (backs_insert (bwd (q_frames st)) _ _ l []); [by rewrite app_nil_r|by rewrite app_nil_r| | |done].
        -- unfold bwd. rewrite Ha'. by destruct l.
        -- intros b Hb' _. rewrite app_nil_r in Hb'. apply HB. by intros ->.
      * apply NoDup_app. split_and!; [done| |by apply NoDup_singleton]. intros b Hb' E. by apply list_elem_of_singleton in E as ->.
    + rewrite list_lookup_insert_ne in Hj by done. destruct (qs_rep _ _ _ Hqs j l' Hj) as [R1 R2 R3 R4].
      assert (∀ b, b ∈ l' → b ≠ a) as Hba by (intros b Hb' ->; by apply (Hlo j l' Hj)).
      split; [by rewrite list_lookup_insert_ne| | |done].
      * apply (seg_ext (fwd (q_frames st))); [|done]. intros b Hb'. apply HF; [by apply Hba|]. intros E. apply Hne, (qs_apart _ _ _ Hqs i j l l' b); try done. by apply last_snoc_in.
      * apply (backs_ext (bwd (q_frames st))); [|done]. intros b Hb'. by apply HB, Hba.
  - assert (∀ j l', <[i := l ++ [a]]> ls !! j = Some l' → ∀ b, b ∈ l' → b = a ∧ j = i ∨ ∃ l0, ls !! j = Some l0 ∧ b ∈ l0) as Hsub.
    { intros j l' Hj b Hb'. destruct (decide (i = j)) as [<-|]; [|right; rewrite list_lookup_insert_ne in Hj by done; by exists l'].
      rewrite list_lookup_insert_eq in Hj by done. injection Hj as <-. apply elem_of_app in Hb' as [?|E]; [right; by exists l|].
      apply list_elem_of_singleton in E. by left. }
    intros j k l1 l2 b Hj Hk Hb1 Hb2. destruct (Hsub j l1 Hj b Hb1) as [[-> ->]|(m1 & E1 & M1)], (Hsub k l2 Hk _ Hb2) as [[E2' ->]|(m2 & E2 & M2)]; try done.
    + by destruct (Hlo k m2 E2).
    + subst. by destruct (Hlo j m1 E1).
    + by apply (qs_apart _ _ _ Hqs j k m1 m2 b).
  - intros j l' b g Hj Hb' Hg'. destruct (decide (b = a)) as [->|Hne].
    { rewrite Ha' in Hg'. injection Hg' as <-. destruct (decide (i = j)) as [<-|]; [done|]. rewrite list_lookup_insert_ne in Hj by done. by destruct (Hlo j l' Hj). }
    assert (∃ l0, ls !! j = Some l0 ∧ b ∈ l0) as (l0 & Hj0 & Hb0).
    { destruct (decide (i = j)) as [<-|]; [|rewrite list_lookup_insert_ne in Hj by done; by exists l']. rewrite list_lookup_insert_eq in Hj by done. injection Hj as <-.
      apply elem_of_app in Hb' as [?|E]; [by exists l|]. by apply list_elem_of_singleton in E. }
    destruct (Hother b Hne) as [H1 H2]. destruct (decide (last l = Some b)) as [E|E].
    + rewrite (H2 E) in Hg'. apply fmap_Some in Hg' as (g0 & Hg0 & ->). pose proof (qs_on _ _ _ Hqs j l0 b g0 Hj0 Hb0 Hg0) as Ho. by destruct g0.
    + rewrite (H1 E) in Hg'. by apply (qs_on _ _ _ Hqs j l0 b).
Qed.

Lemma appended_inv ext ls i a l q f t st st' : Inv ext ls st → loose ls a → ls !! i = Some l → q_frames st !! a = Some f → q_tx st !! i = Some q →
  Z.of_nat (length l) < maxLength q → appended i a l q f t st st' → on_queue i (queued_at t l f) → Inv ext (<[i := l ++ [a]]> ls) st'.
Proof.
  intros [H1 H2 H3 H4 H5 H6 H7] Hlo Hl Ha Hq Hmax Hap Hon. assert (last l ≠ Some a) as Hla by (intros E; by apply (Hlo i l Hl), last_snoc_in).
  pose proof (appended_queues ls i a l q f t st st' H1 Hlo Hl Hq Hmax Hap Hon) as Hqs. pose proof (tail_links (q_frames st) l a) as HL.
  destruct Hap as [P1 P2 P3 P4 (P5 & P6 & P7) P8 (P9 & P10 & P11)]. assert (tail_linked (q_frames st) l a !! a = Some f) as Hta by (by rewrite tail_linked_ne).
  split; rewrite ?P4, ?P5, ?P6, ?P7, ?P8, ?P9, ?P10, ?P11; try done; rewrite P2.
  - apply (weight_same _ _ _ _ f); [done|done|]. revert H2. apply counted_ext. intros d. unfold weight. by rewrite (links_only_total _ _ _ HL).
  - apply map_Forall_insert_2.
    + destruct (H3 a f Ha) as [K1 K2 K3 K4 K5 K6 K7 K8 K9 K10 K11 K12 K13]. split; try done. cbn. split; [lia|apply K5].
    + intros b g Hg. destruct (links_only_lookup _ _ _ _ HL Hg) as (g0 & Hg0 & Ec). apply (frame_ok_core _ g0); [done|]. by apply (H3 b).
  - apply (mem_ok_upd _ _ _ _ f); [|done|done]. by apply (mem_ok_links _ (q_frames st)).
Qed.

(** ** What comes before *)

(** What a frame carries, and what it is for. *)
Definition content (f : queued) : queued := core (set_manual false (set_enqueued_at 0 (ident f))).

Record prepared (ext : nat → Z) (ls : list (list nat)) (a : nat) (f : queued) (st : qstate) (f' : queued) (st' : qstate) : Prop := {
  pr_inv : Inv ext ls st';
  pr_frame : q_frames st' !! a = Some f';
  pr_same : set_manual false (ident f') = set_manual false (ident f);
  pr_others b : b ≠ a → q_frames st' !! b = q_frames st !! b;
  pr_tx : q_tx st' = q_tx st;
  pr_interfaces : q_interfaces st' = q_interfaces st;
}.
Lemma prepared_refl ext ls a f st : Inv ext ls st → q_frames st !! a = Some f → prepared ext ls a f st f st.
Proof. intros Hi Ha. by split. Qed.
Lemma prepared_trans ext ls a f1 st1 f2 st2 f3 st3 : prepared ext ls a f1 st1 f2 st2 → prepared ext ls a f2 st2 f3 st3 → prepared ext ls a f1 st1 f3 st3.
Proof. intros [A1 A2 A3 A4 A5 A6] [B1 B2 B3 B4 B5 B6]. split; try done; [congruence| |congruence|congruence]. intros b Hb. by rewrite B4, A4. Qed.
Lemma calm_prepared ext ls a f st st' : Calm ext ls a st st' → q_frames st !! a = Some f → ∃ f', prepared ext ls a f st f' st'.
Proof.
  intros [Hi Hk] Ha. destruct (kept_live _ _ _ _ _ Hk Ha) as (f' & Ha' & Hid). exists f'. split; try done; [by rewrite Hid|apply Hk|apply Hk|apply Hk].
Qed.
Lemma prepared_fields ext ls a f st f' st' : prepared ext ls a f st f' st' → f_payload (fr f') = f_payload (fr f) ∧ f_destination (fr f') = f_destination (fr f) ∧
  queue (fr f') = queue (fr f) ∧ prev f' = prev f ∧ next f' = next f.
Proof. intros H. pose proof (pr_same _ _ _ _ _ _ _ H) as E. destruct f as [? ? ? []], f' as [? ? ? []]. cbn in E. injection E. intros. by subst. Qed.

Lemma clear_sent_calm ext ls a n : ∀ f st, Inv ext ls st → q_frames st !! a = Some f → Z.of_nat n ≤ destination_count f →
  runs (clear_sent n a) st (λ _ st', Calm ext ls a st st' ∧ ∃ f', q_frames st' !! a = Some f' ∧ destination_count f' = destination_count f).
Proof.
  induction n as [|n IH]; intros f st Hi Ha Hn; cbn [clear_sent]; [apply runs_ret; split; [by apply calm_refl|by exists f]|].
  apply runs_bind. eapply runs_mono; [apply (IH f st Hi Ha); lia|]. cbn beta. intros _ st1 (Hc1 & f1 & Ha1 & Hn1). pose proof (ca_inv _ _ _ _ _ _ _ _ Hc1) as Hi1.
  apply runs_bind, (runs_frame _ f1); [done|]. pose proof (fk_count _ _ (frame_live _ _ _ _ _ _ _ _ Hi1 Ha1)).
  destruct (slot_live _ _ _ _ _ _ _ _ (Z.of_nat n) Hi1 Ha1) as (s & d & x & Hs & Hok & _); [lia|]. apply runs_bind, (runs_slot _ _ s); [lia|done|].
  apply (runs_put_slot _ f1); [done|unfold MAX_PACKET_DESTINATIONS; lia|]. destruct (slot_calm np me directory_service ext ls a f1 (Z.of_nat n) s (-1) (transmit_time s) st1 Hi1 Ha1) as [Hc2 _]; [lia|done|apply Hok|].
  split; [by eapply calm_trans|]. eexists. split; [apply lookup_insert_eq|]. done.
Qed.

(** The choice of destinations, and the mark of a frame that came with its own. *)
Lemma destinations_prepared ext ls a f g st : Inv ext ls st → q_frames st !! a = Some f → destination_count f = destination_count g → f_destination (fr f) = f_destination (fr g) →
  runs (if destination_count g =? 0 then
          if bool_decide (f_destination (fr g) = None) then olsr_send a;; link_add_destinations gettime_ms directory_service load_subscriber_address a else mret tt
        else upd_frame a (set_manual true)) st
    (λ _ st', ∃ f', prepared ext ls a f st f' st' ∧ (destination_count f ≠ 0 ∨ is_Some (f_destination (fr f)) → destination_count f' = destination_count f)).
Proof.
  intros Hi Ha En Ed. rewrite <- En, <- Ed. destruct (Z.eqb_spec (destination_count f) 0) as [E|E]; [|].
  - destruct (bool_decide_reflect (f_destination (fr f) = None)) as [Hd|Hd]; [|apply runs_ret; exists f; split; [by apply prepared_refl|done]].
    apply runs_bind. eapply runs_mono; [by apply (olsr_ok ext ls a st)|]. cbn beta. intros _ st1 ([Hc1 _] & Ef1). destruct (calm_prepared _ _ _ f _ _ Hc1 Ha) as (f1 & Hp1).
    eapply runs_mono; [apply (link_add_calm _ np me directory_service _ load_ok ext ls a f1 st1 (ca_inv _ _ _ _ _ _ _ _ Hc1)); apply Hp1|].
    cbn beta. intros _ st2 [Hc2 _]. destruct (calm_prepared _ _ _ f1 _ _ Hc2) as (f2 & Hp2); [apply Hp1|]. exists f2. split; [by eapply prepared_trans|].
    intros [?|[? ?]]; [done|congruence].
  - apply (runs_upd_frame _ f); [done|]. exists (set_manual true f). split; [|done]. split; cbn; try done.
    + apply (qinv_change np me directory_service ext ls st a f (set_manual true f) (q_dests st)); try done; [by destruct (frame_live _ _ _ _ _ _ _ _ Hi Ha)| |apply Hi].
      apply (weight_same _ _ _ _ f); [done|done|apply Hi].
    + apply lookup_insert_eq.
    + intros b Hb. by rewrite lookup_insert_ne.
Qed.

(** A frame without destinations that is on no queue can be freed. *)
Lemma loose_freed ext ls a f st : Inv ext ls st → loose ls a → q_frames st !! a = Some f → destination_count f = 0 → prev f = None → next f = None →
  runs (free_frame a) st (λ r st', r = 0 ∧ Inv ext ls st' ∧ q_frames st' = delete a (q_frames st)).
Proof.
  intros Hi Hlo Ha Hn Hp Hx. pose proof Hi as [H1 H2 H3 H4 H5 H6 H7].
  eapply runs_mono; [apply (free_frame_runs a f None None st Ha Hp Hx); [done|done|done|apply (fk_payload _ _ (H3 a f Ha))]|].
  cbn beta. intros r ? (-> & m & -> & Hm). split; [done|]. split; [|done]. split; cbn; try done.
  - destruct H1 as [Q1 Q2 Q3 Q4]. split; [done| |done|].
    + intros i l Hl. destruct (Q2 i l Hl) as [R1 R2 R3 R4]. split; [done| | |done].
      * apply (seg_ext (fwd (q_frames st))); [|done]. intros b Hb. unfold fwd. rewrite lookup_delete_ne; [done|]. intros <-. by apply (Hlo i l Hl).
      * apply (backs_ext (bwd (q_frames st))); [|done]. intros b Hb. unfold bwd. rewrite lookup_delete_ne; [done|]. intros <-. by apply (Hlo i l Hl).
    + intros i l b g Hl Hb Hg. apply lookup_delete_Some in Hg as [_ Hg]. by apply (Q4 i l b).
  - revert H2. apply counted_ext. intros d. unfold weight. rewrite (total_delete a f (q_frames st)) by done.
    assert (refs d f = 0%nat) as -> by (unfold refs, slots; by rewrite Hn). done.
  - by apply map_Forall_delete.
Qed.

(** ** The whole of it *)

(** The frame has been put at the end of the queue [i], which had the frames [l]. *)
Record enqueued (ext : nat → Z) (ls : list (list nat)) (i a : nat) (l : list nat) (f : queued) (st st' : qstate) : Prop := {
  en_inv : Inv ext (<[i := l ++ [a]]> ls) st';
  en_frame : ∃ f', q_frames st' !! a = Some f' ∧ content f' = content f ∧ to_send f' ∧ 0 < enqueued_at f' ∧ mdp_sequence (fr f') = -1;
  en_others b : b ≠ a → core <$> q_frames st' !! b = core <$> q_frames st !! b;
  en_alarm : no_busy st' → alarm_of np (q_sched st') ≠ 0;
}.

Lemma finish_enqueue ext ls i a l q f st f1 st1 pl : prepared ext ls a f st f1 st1 → loose ls a → ls !! i = Some l → q_tx st !! i = Some q → queue (fr f) = Z.of_nat i →
  Z.of_nat (length l) < maxLength q → f_payload (fr f) = Some pl → position pl ≤ allocSize pl → position pl < MDP_MTU → to_send f1 →
  runs (append_frame_to gettime_ms i a;; overlay_calc_queue_time gettime_ms np send_alarm a;; mret 0) st1 (λ r st', r = 0 ∧ enqueued ext ls i a l f st st').
Proof.
  intros Hp Hlo Hl Hq Hqi Hmax Hpl Hpos Hmtu Hto. pose proof Hp as [Hi1 Ha1 Hsame1 Hoth1 Htx1 Hif1]. destruct (prepared_fields _ _ _ _ _ _ _ Hp) as (Epl & Ed & Eq & _).
  pose proof (qs_rep _ _ _ (qi_queues _ _ _ _ _ _ Hi1) i l Hl) as Hr. assert (q_tx st1 !! i = Some q) as Hq1 by (by rewrite Htx1).
  apply runs_bind. eapply runs_mono; [apply (append_runs i a l f1 q st1 Hr (Hlo i l Hl) Ha1 Hq1)|]. cbn beta. intros _ st2 (t & Hap).
  assert (on_queue i (queued_at t l f1)) as Hon. { split_and!; [cbn; congruence|apply Hap|]. exists pl. cbn. split_and!; [congruence|done|done]. }
  pose proof (appended_inv ext ls i a l q f1 t st1 st2 Hi1 Hlo Hl Ha1 Hq1 Hmax Hap Hon) as Hi2.
  assert (q_frames st2 !! a = Some (queued_at t l f1)) as Ha2 by (rewrite (ap_frames _ _ _ _ _ _ _ _ Hap); apply lookup_insert_eq).
  apply runs_bind. eapply runs_mono; [apply (calc_queue_time_calm _ np send_alarm me directory_service clock ext _ a _ st2 Hi2 Ha2); apply Hap|].
  cbn beta. intros _ st3 ([Hi3 Hk3] & Ef3 & _ & Harm). apply runs_ret. split; [done|]. split; [done| | |].
  - exists (queued_at t l f1). split_and!; [by rewrite Ef3| |done|apply Hap|done]. pose proof (f_equal (λ g, core (set_enqueued_at 0 g)) Hsame1) as E. exact E.
  - intros b Hb. rewrite Ef3, (ap_frames _ _ _ _ _ _ _ _ Hap), lookup_insert_ne by done. rewrite (tail_links (q_frames st1) l a b). by rewrite Hoth1.
  - intros Hb. apply Harm. apply (to_send_waiting (np := np) (me := me) (directory_service := directory_service) ext (<[i := l ++ [a]]> ls) a _ st2); try done. unfold no_busy in *. by rewrite <- (ke_interfaces _ _ _ _ Hk3).
Qed.

End Append.
End OverlayQueueAppend.
