(* ===== verification/OverlayQueueAck.v ===== *)
(** * Acknowledged frames

    What an acknowledgement means for every frame, as a function of the frame, and
    that [overlay_queue_ack] does exactly that; and the rules that decide it, in the
    arithmetic of the window of acknowledged packets. *)

From S2P Require Import Prelude Mem Prog OverlayBuffer OverlayBufferSpec OverlayBufferCodec OverlayBufferFill Limit DataFormats OverlayAddress OverlayAddressTree OverlayAddressCodec OverlayAddressRound LinkWindow OverlayFrame FdQueue FdQueueSpec OverlayQueue OverlayQueueSpec OverlayQueueTimer OverlayQueueInv OverlayQueuePacket OverlayQueueSend.
Import Prog OB Limit OverlayAddress OverlayAddressCodec LinkWindow OverlayFrame FdQueueSpec OverlayQueue OverlayQueueSpec OverlayQueueTimer OverlayQueueInv OverlayQueuePacket OverlayQueueSend.

Module OverlayQueueAck.
Section Ack.
Context {arch : Arch} {allocator : Allocator} {np me : nat} {directory_service : option nat} `{env : !Surroundings np me directory_service}.
Variables (send_alarm neighbour destination : nat) (now ack_mask ack_seq : Z).
Abbreviation Inv := (qinv np me directory_service).
Abbreviation Calm := (calm np me directory_service).

(** ** One frame *)

Inductive answer := Arrived (j : Z) (s : packet_destination) | Missing | Nothing.

(** The packet that the frame was sent by, to the neighbour through the destination, is
    acknowledged; or it was sent before a packet that is. *)
Definition answered (f : queued) : answer :=
  match find_destination (Z.to_nat (destination_count f)) f destination with
  | None => Nothing
  | Some (j, s) =>
      if (0 <=? sent_sequence s) && (bool_decide (next_hop s = Some neighbour) || bool_decide (f_destination (fr f) = None)) then
        if acked ack_mask ack_seq (sent_sequence s) then Arrived j s
        else if (Z.land (ack_seq - sent_sequence s) 0xFF <? 128) && bool_decide (is_Some (f_destination (fr f))) && (now <? delay_until f) then Missing else Nothing
      else Nothing
  end.
(** Nothing more has to be sent. *)
Definition finished (f : queued) : bool :=
  match answered f with Arrived _ _ => bool_decide (is_Some (f_destination (fr f))) || (destination_count f <=? 1) | _ => false end.
Definition after_ack (f : queued) : queued :=
  match answered f with Arrived j _ => drop_slot j f | Missing => set_delay_until now f | Nothing => f end.
Definition after_rtt (rtt : Z) (f : queued) : Z :=
  match answered f with Arrived _ s => least_rtt rtt now (transmit_time s) | _ => rtt end.

Lemma find_destination_slot f d n j s : find_destination n f d = Some (j, s) → 0 ≤ j < Z.of_nat n ∧ destinations f !! Z.to_nat j = Some s ∧ pd_destination s = Some d.
Proof.
  induction n as [|n IH]; cbn [find_destination]; [done|]. destruct (destinations f !! n) as [s'|] eqn:E; [|done]. case_bool_decide as Hd.
  - intros [= <- <-]. rewrite Nat2Z.id. split; [lia|done].
  - intros H. destruct (IH H) as (H1 & H2 & H3). split; [lia|done].
Qed.
Lemma find_destination_core f f' d n : core f' = core f → find_destination n f' d = find_destination n f d.
Proof. intros Hc. assert (destinations f' = destinations f) as E by (destruct f, f'; by injection Hc). induction n as [|n IH]; cbn; [done|]. by rewrite E, IH. Qed.
Lemma answered_slot f j s : answered f = Arrived j s → 0 ≤ destination_count f → 0 ≤ j < destination_count f ∧ destinations f !! Z.to_nat j = Some s ∧
  pd_destination s = Some destination ∧ 0 ≤ sent_sequence s.
Proof.
  unfold answered. destruct (find_destination _ _ _) as [[j' s']|] eqn:E; [|done]. intros H Hn. apply find_destination_slot in E as (E1 & E2 & E3).
  destruct (Z.leb_spec 0 (sent_sequence s')); [|done]. destruct (_ || _); [|done]. cbn in H. destruct (acked _ _ _); [|by destruct (_ && _)].
  injection H as <- <-. split_and!; try done; lia.
Qed.
Lemma answered_core f f' : core f' = core f → answered f' = answered f.
Proof. intros Hc. unfold answered. rewrite (find_destination_core f f') by done. destruct f, f'. cbn in Hc. by injection Hc as -> -> -> -> -> -> -> -> -> ->. Qed.
Lemma finished_core f f' : core f' = core f → finished f' = finished f.
Proof. intros Hc. unfold finished. rewrite (answered_core f f') by done. destruct f, f'. cbn in Hc. by injection Hc as -> -> -> -> -> -> -> -> -> ->. Qed.
Lemma after_core f f' : core f' = core f → core (after_ack f') = core (after_ack f).
Proof. intros Hc. unfold after_ack. rewrite (answered_core f f') by done. destruct (answered f); destruct f, f'; cbn in Hc; by injection Hc as -> -> -> -> -> -> -> -> -> ->. Qed.

(** Round trip times that [overlay_queue_ack] can work with. *)
Definition timely (f : queued) : Prop := ∀ j s, answered f = Arrived j s → i32 (now - transmit_time s) < 2 ^ 30 - 20.
Definition rtt_ok (rtt : Z) : Prop := rtt = 0 ∨ 10 ≤ rtt < 2 ^ 30 - 20.
Lemma after_rtt_ok rtt f : rtt_ok rtt → timely f → rtt_ok (after_rtt rtt f).
Proof.
  intros Hr Ht. unfold after_rtt. destruct (answered f) as [j s| |] eqn:E; [|done|done]. specialize (Ht j s E). unfold least_rtt, rtt_ok in *. cbv zeta.
  set (t := i32 _) in *. destruct (Z.ltb_spec t 10), (Z.eqb_spec rtt 0); cbn [orb]; try lia; match goal with |- context [?x <? rtt] => destruct (Z.ltb_spec x rtt) end; lia.
Qed.

Lemma ack_frame_runs ext ls i l a f rtt st : Inv ext ls st → ls !! i = Some l → a ∈ l → q_frames st !! a = Some f → 0 ≤ now < 2 ^ 60 →
  runs (ack_frame gettime_ms np send_alarm a neighbour destination now ack_mask ack_seq rtt) st
    (λ r st', r = (if finished f then Remove else Skip, after_rtt rtt f) ∧ Calm ext ls a st st' ∧
      (finished f = false → q_frames st' !! a = Some (after_ack f))).
Proof.
  intros Hi Hl Hal Ha Hnow. pose proof (fk_count _ _ (frame_live _ _ _ _ _ _ _ _ Hi Ha)) as Hn.
  destruct (qs_on _ _ _ (qi_queues _ _ _ _ _ _ Hi) i l a f Hl Hal Ha) as (_ & Hen & _).
  unfold ack_frame. apply runs_bind, (runs_frame _ f); [done|]. pose proof (answered_slot f) as Hslot. unfold finished, after_rtt, after_ack. unfold answered in *.
  destruct (find_destination _ _ _) as [[j s]|] eqn:E; [|apply runs_ret; split_and!; try done; by apply calm_refl].
  destruct (_ && (_ || _)); [|apply runs_ret; split_and!; try done; by apply calm_refl]. destruct (acked _ _ _).
  - destruct (Hslot j s eq_refl) as (Hj & _); [lia|]. destruct (_ || _) eqn:Ef; [apply runs_ret; split_and!; try done; by apply calm_refl|].
    apply runs_bind. eapply runs_mono; [by apply (remove_destination_calm np me directory_service ext ls a f j st)|]. cbn beta. intros _ st1 (Hc & Ha1 & _).
    apply runs_ret. by split_and!.
  - destruct (_ && _ && _); [|apply runs_ret; split_and!; try done; by apply calm_refl]. apply runs_bind, (runs_upd_frame _ f); [done|].
    destruct (delay_calm np me directory_service ext ls a f now st Hi Ha) as [Hc1 _]; [lia|]. apply runs_bind.
    eapply runs_mono; [apply (calc_queue_time_calm _ np send_alarm me directory_service clock ext ls a (set_delay_until now f) _ (ca_inv _ _ _ _ _ _ _ _ Hc1)); [apply lookup_insert_eq|done]|].
    cbn beta. intros _ st2 (Hc2 & Ef & _). apply runs_ret. split; [done|]. split; [by eapply calm_trans|]. intros _. rewrite Ef. apply lookup_insert_eq.
Qed.

(** ** One queue *)

(** The frames of a queue that stay. *)
Definition done_at (fs : gmap nat queued) (a : nat) : bool := match fs !! a with Some f => finished f | None => false end.
Definition pending (fs : gmap nat queued) (l : list nat) : list nat := filter (λ a, done_at fs a = false) l.

(** What the acknowledgement makes of the queue [i], of which the frames [rest] are
    looked at. *)
Record acknowledged (ext : nat → Z) (ls : list (list nat)) (i : nat) (pre rest : list nat) (st st' : qstate) : Prop := {
  ak_inv : Inv ext (<[i := pre ++ pending (q_frames st) rest]> ls) st';
  ak_kept a : a ∈ pending (q_frames st) rest → core <$> q_frames st' !! a = (core ∘ after_ack) <$> q_frames st !! a;
  ak_others a : a ∉ rest → core <$> q_frames st' !! a = core <$> q_frames st !! a;
}.

Lemma done_at_core fs fs' a : core <$> fs' !! a = core <$> fs !! a → done_at fs' a = done_at fs a.
Proof. unfold done_at. destruct (fs' !! a) as [f'|], (fs !! a) as [f|]; cbn; try done. intros E%(inj Some). by apply finished_core. Qed.
Lemma pending_core fs fs' l : (∀ a, a ∈ l → core <$> fs' !! a = core <$> fs !! a) → pending fs' l = pending fs l.
Proof.
  unfold pending. induction l as [|a l IH]; intros H; [done|]. pose proof (done_at_core fs fs' a (H a ltac:(left))) as E. rewrite !filter_cons, IH by (intros b Hb; apply H; by right).
  do 2 case_decide; congruence.
Qed.
Lemma pending_elem fs l a : a ∈ pending fs l → a ∈ l.
Proof. unfold pending. rewrite list_elem_of_filter. by intros [_ ?]. Qed.
Lemma pending_cons fs a l f : fs !! a = Some f → pending fs (a :: l) = if finished f then pending fs l else a :: pending fs l.
Proof. intros Ha. assert (done_at fs a = finished f) as E by (unfold done_at; by rewrite Ha). unfold pending. rewrite filter_cons. case_decide as Hd; rewrite E in Hd; by destruct (finished f). Qed.
Lemma timely_core f f' : core f' = core f → timely f → timely f'.
Proof. intros Hc Ht j s. rewrite (answered_core f f' Hc). apply Ht. Qed.
Definition all_timely (fs : gmap nat queued) (l : list nat) : Prop := ∀ a f, a ∈ l → fs !! a = Some f → timely f.
Lemma all_timely_core fs fs' l : (∀ a, a ∈ l → core <$> fs' !! a = core <$> fs !! a) → all_timely fs l → all_timely fs' l.
Proof.
  intros H Ht a f' Ha Hf'. specialize (H a Ha). rewrite Hf' in H. symmetry in H. apply fmap_Some in H as (f & Hf & Ec). apply (timely_core f); [done|]. by apply (Ht a).
Qed.
Lemma core_after_core (fs fs' : gmap nat queued) a : core <$> fs' !! a = core <$> fs !! a → (core ∘ after_ack) <$> fs' !! a = (core ∘ after_ack) <$> fs !! a.
Proof. destruct (fs' !! a) as [f'|], (fs !! a) as [f|]; cbn; try done. intros E%(inj Some). f_equal. by apply after_core. Qed.

(** The frame at the front has been dealt with. *)
Lemma acknowledged_drop ext ls i pre a rest f st st2 st3 : q_frames st !! a = Some f → finished f = true → a ∉ rest → (i < length ls)%nat →
  (∀ b, b ≠ a → core <$> q_frames st2 !! b = core <$> q_frames st !! b) → q_frames st2 !! a = None →
  acknowledged ext (<[i := pre ++ rest]> ls) i pre rest st2 st3 → acknowledged ext ls i pre (a :: rest) st st3.
Proof.
  intros Ha Hf Har Hlt Hoth Hnone [K1 K2 K3]. assert (∀ b, b ∈ rest → b ≠ a) as Hne by (by intros b Hb ->).
  assert (pending (q_frames st2) rest = pending (q_frames st) rest) as Ep by (apply pending_core; intros b Hb; by apply Hoth, Hne). rewrite Ep in *.
  split; rewrite ?(pending_cons _ a rest f), ?Hf by done.
  - by rewrite list_insert_insert_eq in K1.
  - intros b Hb. rewrite (K2 b Hb). apply core_after_core, Hoth, Hne. by eapply pending_elem.
  - intros b Hb. apply not_elem_of_cons in Hb as [Hba Hb]. rewrite (K3 b Hb). by apply Hoth.
Qed.
Lemma acknowledged_keep ext ls i pre a rest f st st2 st3 : q_frames st !! a = Some f → finished f = false → a ∉ rest →
  (∀ b, b ≠ a → core <$> q_frames st2 !! b = core <$> q_frames st !! b) → q_frames st2 !! a = Some (after_ack f) →
  acknowledged ext ls i (pre ++ [a]) rest st2 st3 → acknowledged ext ls i pre (a :: rest) st st3.
Proof.
  intros Ha Hf Har Hoth Ha2 [K1 K2 K3]. assert (∀ b, b ∈ rest → b ≠ a) as Hne by (by intros b Hb ->).
  assert (pending (q_frames st2) rest = pending (q_frames st) rest) as Ep by (apply pending_core; intros b Hb; by apply Hoth, Hne). rewrite Ep in *.
  split; rewrite ?(pending_cons _ a rest f), ?Hf by done.
  - by rewrite <- app_assoc in K1.
  - intros b Hb. apply elem_of_cons in Hb as [->|Hb]; [by rewrite (K3 a Har), Ha2, Ha|]. rewrite (K2 b Hb). apply core_after_core, Hoth, Hne. by eapply pending_elem.
  - intros b Hb. apply not_elem_of_cons in Hb as [Hba Hb]. rewrite (K3 b Hb). by apply Hoth.
Qed.
Lemma kept_core a st st' : kept np a st st' → ∀ b, b ≠ a → core <$> q_frames st' !! b = core <$> q_frames st !! b.
Proof. intros Hk b Hb. by rewrite (ke_others _ _ _ _ Hk). Qed.
Lemma removed_core a st st' : removed a st st' → (∀ b, b ≠ a → core <$> q_frames st' !! b = core <$> q_frames st !! b) ∧ q_frames st' !! a = None.
Proof.
  intros Hr. split.
  - intros b Hb. rewrite (rm_frames _ _ _ Hr b), lookup_delete_ne by done. done.
  - pose proof (rm_frames _ _ _ Hr a) as E. rewrite lookup_delete_eq in E. by apply fmap_None in E.
Qed.

Lemma ack_loop_runs ext i fuel : 0 ≤ now < 2 ^ 60 → ∀ rest pre rtt ls st, Inv ext ls st → ls !! i = Some (pre ++ rest) → (length rest ≤ fuel)%nat →
  rtt_ok rtt → all_timely (q_frames st) rest →
  runs (ack_loop gettime_ms np send_alarm fuel i neighbour destination now ack_mask ack_seq rtt (head rest)) st
    (λ r st', rtt_ok r ∧ acknowledged ext ls i pre rest st st').
Proof.
  intros Hnow. induction fuel as [|fuel IH]; intros rest pre rtt ls st Hi Hl Hlen Hrtt Htm; (destruct rest as [|a rest]; cbn [head ack_loop];
    [apply runs_ret; split; [done|]; split; [by rewrite list_insert_id|by intros ? ?%not_elem_of_nil|done]|]).
  { cbn in Hlen. lia. }
  pose proof (qs_rep _ _ _ (qi_queues _ _ _ _ _ _ Hi) i _ Hl) as Hr. assert (a ∈ pre ++ a :: rest) as Hin by (apply elem_of_app; right; left).
  destruct (queue_live _ _ _ _ a Hr Hin) as [f Ha]. destruct (NoDup_mid _ _ _ (qr_nodup _ _ _ _ Hr)) as (_ & Har & _).
  assert (rtt_ok (after_rtt rtt f)) as Hrtt' by (apply after_rtt_ok; [done|]; apply (Htm a); [left|done]).
  assert (i < length ls)%nat as Hlt by (by eapply lookup_lt_Some). cbn in Hlen.
  assert (∀ b : nat, b ∈ rest → b ≠ a) as Hne by (by intros b Hb ->).
  apply runs_bind. eapply runs_mono; [by apply (ack_frame_runs ext ls i (pre ++ a :: rest) a f rtt st)|]. cbn beta. intros ? st1 (-> & [Hi1 Hk1] & Haf). cbn [fst snd].
  pose proof (kept_core a st st1 Hk1) as Hc1. destruct (finished f) eqn:Ef.
  - apply runs_bind. eapply runs_mono; [apply (remove_runs np me directory_service ext ls i pre a rest st1 Hi1 Hl)|]. cbn beta. intros ? st2 (-> & Hi2 & Hr2).
    destruct (removed_core a st1 st2 Hr2) as [Hc2 Hnone]. assert (∀ b, b ≠ a → core <$> q_frames st2 !! b = core <$> q_frames st !! b) as Hc by (intros b Hb; by rewrite Hc2, Hc1).
    eapply runs_mono; [apply (IH rest pre _ _ st2 Hi2); [by apply list_lookup_insert_eq|lia|done|]|].
    { apply (all_timely_core (q_frames st)); [intros b Hb; by apply Hc, Hne|]. intros b g Hb. apply Htm. by right. }
    cbn beta. intros r st3 [Hr3 Hk3]. split; [done|]. by apply (acknowledged_drop ext ls i pre a rest f st st2).
  - specialize (Haf eq_refl). apply runs_bind, runs_bind, (runs_frame _ (after_ack f)); [done|]. apply runs_ret.
    pose proof (qs_rep _ _ _ (qi_queues _ _ _ _ _ _ Hi1) i _ Hl) as Hr1.
    destruct (linked_at _ _ _ _ _ _ _ (qr_seg _ _ _ _ Hr1) (qr_backs _ _ _ _ Hr1)) as [En _]. unfold fwd in En. rewrite Haf in En. injection En as ->.
    eapply runs_mono; [apply (IH rest (pre ++ [a]) _ ls st1 Hi1); [by rewrite <- app_assoc|lia|done|]|].
    { apply (all_timely_core (q_frames st)); [intros b Hb; by apply Hc1, Hne|]. intros b g Hb. apply Htm. by right. }
    cbn beta. intros r st3 [Hr3 Hk3]. split; [done|]. by apply (acknowledged_keep ext ls i pre a rest f st st1).
Qed.

(** ** All queues *)

(** The first [n] queues have been looked at. *)
Definition upto (n : nat) (fs : gmap nat queued) (ls : list (list nat)) : list (list nat) := (pending fs <$> take n ls) ++ drop n ls.
Record ack_swept (ext : nat → Z) (n : nat) (ls : list (list nat)) (st st' : qstate) : Prop := {
  as_inv : Inv ext (upto n (q_frames st) ls) st';
  as_kept i l a : (i < n)%nat → ls !! i = Some l → a ∈ pending (q_frames st) l → core <$> q_frames st' !! a = (core ∘ after_ack) <$> q_frames st !! a;
  as_others a : (∀ i l, (i < n)%nat → ls !! i = Some l → a ∉ l) → core <$> q_frames st' !! a = core <$> q_frames st !! a;
}.

Lemma upto_at n fs ls l : ls !! n = Some l → upto n fs ls !! n = Some l.
Proof.
  intros Hl. pose proof (lookup_lt_Some _ _ _ Hl). unfold upto. rewrite lookup_app_r by (rewrite length_fmap, length_take; lia).
  rewrite length_fmap, length_take, Nat.min_l, Nat.sub_diag by lia. by rewrite lookup_drop, Nat.add_0_r.
Qed.
Lemma upto_step n fs ls l : ls !! n = Some l → <[n := pending fs l]> (upto n fs ls) = upto (S n) fs ls.
Proof.
  intros Hl. pose proof (lookup_lt_Some _ _ _ Hl). unfold upto. rewrite insert_app_r_alt by (rewrite length_fmap, length_take; lia).
  rewrite length_fmap, length_take, Nat.min_l, Nat.sub_diag by lia. rewrite (drop_S _ l) by done. rewrite (take_S_r _ _ l) by done.
  by rewrite fmap_app, <- app_assoc.
Qed.
Lemma upto_all fs ls n : length ls = n → upto n fs ls = pending fs <$> ls.
Proof. intros <-. unfold upto. by rewrite take_ge, drop_ge, app_nil_r. Qed.

Lemma ack_swept_step ext n ls l st st1 st2 : queues (q_tx st) (q_frames st) ls → ack_swept ext n ls st st1 → ls !! n = Some l →
  acknowledged ext (upto n (q_frames st) ls) n [] l st1 st2 → ack_swept ext (S n) ls st st2.
Proof.
  intros Hqs [A1 A2 A3] Hl [K1 K2 K3]. cbn [app] in K1. assert (∀ a, a ∈ l → core <$> q_frames st1 !! a = core <$> q_frames st !! a) as Hsame.
  { intros a Ha. apply A3. intros i l' Hi Hl' Ha'. pose proof (qs_apart _ _ _ Hqs n i l l' a Hl Hl' Ha Ha'). lia. }
  rewrite (pending_core (q_frames st)) in K1, K2 by done. split.
  - by rewrite <- (upto_step n _ ls l).
  - intros i l' a Hi Hl' Ha. destruct (decide (i = n)) as [->|Hne].
    + rewrite Hl in Hl'. injection Hl' as <-. rewrite (K2 a Ha). apply core_after_core, Hsame. by eapply pending_elem.
    + rewrite K3; [apply (A2 i l'); [lia|done|done]|]. intros Ha'. apply Hne. apply (qs_apart _ _ _ Hqs i n l' l a Hl' Hl); [by eapply pending_elem|done].
  - intros a Ha. rewrite K3 by (apply (Ha n l); [lia|done]). apply A3. intros i l' Hi. apply Ha. lia.
Qed.

Lemma ack_queues_runs ext ls st n : Inv ext ls st → 0 ≤ now < 2 ^ 60 → (n ≤ OQ_MAX)%nat → (∀ i l, ls !! i = Some l → all_timely (q_frames st) l) →
  runs (ack_queues gettime_ms np send_alarm n neighbour destination now ack_mask ack_seq) st (λ r st', rtt_ok r ∧ ack_swept ext n ls st st').
Proof.
  intros Hi Hnow Hn Htm. pose proof (qi_queues _ _ _ _ _ _ Hi) as Hqs. induction n as [|n IH]; cbn [ack_queues].
  { apply runs_ret. split; [by left|]. split; [done|lia|done]. }
  apply runs_bind. eapply runs_mono; [apply IH; lia|]. cbn beta. intros rtt st1 [Hrtt Hsw]. pose proof Hsw as [A1 A2 A3].
  destruct (lookup_lt_is_Some_2 ls n) as [l Hl]; [rewrite (qs_count _ _ _ Hqs); lia|]. pose proof (upto_at n (q_frames st) ls l Hl) as Hl1.
  pose proof (qs_rep _ _ _ (qi_queues _ _ _ _ _ _ A1) n l Hl1) as Hr. destruct (qr_ends _ _ _ _ Hr) as (q & Hq & Hfirst & _).
  apply runs_bind, (runs_queue _ q); [done|]. apply runs_bind, runs_ask. rewrite Hfirst.
  eapply runs_mono; [apply (ack_loop_runs ext n _ Hnow l [] rtt (upto n (q_frames st) ls) st1 A1 Hl1); [by eapply queue_size|done|]|].
  - apply (all_timely_core (q_frames st)); [|by apply (Htm n)]. intros a Ha. apply A3. intros i l' Hin Hl' Ha'. pose proof (qs_apart _ _ _ Hqs n i l l' a Hl Hl' Ha Ha'). lia.
  - cbn beta. intros r st2 [Hr2 Hk]. split; [done|]. by apply (ack_swept_step ext n ls l st st1).
Qed.

Lemma update_rtt_ok ni rtt x : rtt_ok rtt → rtt ≠ 0 → dest_ok ni x → ∃ x', update_rtt rtt x = Ret x' ∧ dest_ok ni x' ∧ _ref_count x' = _ref_count x.
Proof.
  intros Hr Hne Hok. assert (∀ mn mx d, 0 ≤ d < 2 ^ 31 → dest_ok ni (set_rtt mn mx d x)) as Hset by (intros mn mx d Hd; destruct Hok; by split).
  pose proof (dk_delay _ _ Hok) as Hd. unfold rtt_ok in Hr. assert (∀ y mx, dest_ok ni y → dest_ok ni (set_rtt (min_rtt y) mx (resend_delay y) y)) as Hset' by (intros y mx []; by split).
  unfold update_rtt. destruct (_ || _).
  - rewrite (proj2 (Z.ltb_lt (rtt * 2 + 40) (2 ^ 31))) by lia. cbn [mbind outcome_bind]. eexists. split; [reflexivity|].
    set (d := if _ <? _ then _ else _). assert (0 ≤ d < 2 ^ 31) as Hdd by (unfold d; destruct (Z.ltb_spec (rtt * 2 + 40) (resend_delay x)); lia).
    specialize (Hset rtt (max_rtt x) d Hdd). destruct (_ || _); split; try done. by apply Hset'.
  - cbn [mbind outcome_bind]. eexists. split; [reflexivity|]. destruct (_ || _); split; try done. by apply Hset'.
Qed.

(** ** The rules *)

(** The packet with the number [n] is the one the acknowledgement is for, or one of the
    32 before it with its bit in the mask. *)
Definition confirmed (n : Z) : Prop := ∃ k, 0 ≤ k ≤ 32 ∧ (n + k) mod 256 = ack_seq mod 256 ∧ (k = 0 ∨ Z.testbit ack_mask (k - 1) = true).
(** The packet was sent before the one the acknowledgement is for, by less than half the numbers. *)
Definition earlier (n : Z) : Prop := ∃ k, 0 ≤ k < 128 ∧ (n + k) mod 256 = ack_seq mod 256.
(** The last slot of the frame for the destination, with the number of the packet that was
    sent, to the neighbour or to all. *)
Record sent_slot (f : queued) (j : Z) (s : packet_destination) : Prop := {
  ss_index : 0 ≤ j < destination_count f;
  ss_slot : destinations f !! Z.to_nat j = Some s;
  ss_destination : pd_destination s = Some destination;
  ss_last k s' : j < k < destination_count f → destinations f !! Z.to_nat k = Some s' → pd_destination s' ≠ Some destination;
  ss_sent : 0 ≤ sent_sequence s;
  ss_hop : next_hop s = Some neighbour ∨ f_destination (fr f) = None;
}.
(** What becomes of a frame; [None]: it is thrown away. *)
Inductive fate (f : queued) : option queued → Prop :=
| fate_delivered j s : sent_slot f j s → confirmed (sent_sequence s) → is_Some (f_destination (fr f)) ∨ destination_count f ≤ 1 → fate f None
| fate_one_less j s : sent_slot f j s → confirmed (sent_sequence s) → f_destination (fr f) = None → 1 < destination_count f → fate f (Some (drop_slot j f))
| fate_missing j s : sent_slot f j s → ¬ confirmed (sent_sequence s) → earlier (sent_sequence s) → is_Some (f_destination (fr f)) → now < delay_until f → fate f (Some (set_delay_until now f))
| fate_same : (∀ j s, sent_slot f j s → ¬ confirmed (sent_sequence s) ∧ (earlier (sent_sequence s) → f_destination (fr f) = None ∨ delay_until f ≤ now)) → fate f (Some f).

Lemma behind n k : 0 ≤ k < 256 → (n + k) mod 256 = ack_seq mod 256 ↔ Z.land (ack_seq - n) 0xFF = k.
Proof.
  intros Hk. change 0xFF with (Z.ones 8). rewrite Z.land_ones by lia. change (2 ^ 8) with 256. split; intros H.
  - rewrite <- (Z.mod_small k 256) by lia. rewrite <- Zminus_mod_idemp_l, <- H, Zminus_mod_idemp_l. f_equal. lia.
  - rewrite <- H, Zplus_mod_idemp_r. f_equal. lia.
Qed.
Lemma acked_confirmed n : acked ack_mask ack_seq n = true ↔ confirmed n.
Proof.
  unfold acked, confirmed. set (k := Z.land (ack_seq - n) 0xFF). assert (0 ≤ k < 256) as Hk by (unfold k; change 0xFF with (Z.ones 8); rewrite Z.land_ones by lia; apply Z.mod_pos_bound; lia).
  assert (∀ k', 0 ≤ k' < 256 → (n + k') mod 256 = ack_seq mod 256 ↔ k = k') as Hb by (intros k' Hk'; by apply behind). rewrite orb_true_iff, andb_true_iff, Z.eqb_eq, Z.leb_le. split.
  - intros [H|[H1 H2]]; exists k; (split; [lia|split; [by apply Hb|]]); [by left|]. destruct (decide (k = 0)) as [?|Hne]; [by left|right]. by rewrite mask_bit in H2 by lia.
  - intros (k' & H1 & H2 & H3). apply Hb in H2; [|lia]. subst k'. destruct (decide (k = 0)) as [?|Hne]; [by left|right]. split; [lia|]. rewrite mask_bit by lia. destruct H3; [lia|done].
Qed.
Lemma earlier_spec n : (Z.land (ack_seq - n) 0xFF <? 128) = true ↔ earlier n.
Proof.
  rewrite Z.ltb_lt. assert (0 ≤ Z.land (ack_seq - n) 0xFF) as H0 by (apply Z.land_nonneg; right; lia). split.
  - intros H. exists (Z.land (ack_seq - n) 0xFF). split; [lia|]. apply behind; [lia|done].
  - intros (k & Hk & H). apply behind in H; lia.
Qed.
Lemma find_destination_last f n : (n ≤ length (destinations f))%nat → match find_destination n f destination with
  | Some (j, s) => 0 ≤ j < Z.of_nat n ∧ destinations f !! Z.to_nat j = Some s ∧ pd_destination s = Some destination ∧ ∀ k s', j < k < Z.of_nat n → destinations f !! Z.to_nat k = Some s' → pd_destination s' ≠ Some destination
  | None => ∀ k s', 0 ≤ k < Z.of_nat n → destinations f !! Z.to_nat k = Some s' → pd_destination s' ≠ Some destination
  end.
Proof.
  induction n as [|n IH]; intros Hn; cbn [find_destination]; [lia|]. destruct (lookup_lt_is_Some_2 (destinations f) n) as [x Hx]; [lia|]. rewrite Hx. case_bool_decide as Hd.
  - split_and!; [lia|lia|by rewrite Nat2Z.id|done|intros; lia].
  - specialize (IH ltac:(lia)). assert (∀ k s', k = Z.of_nat n → destinations f !! Z.to_nat k = Some s' → pd_destination s' ≠ Some destination) as Hlast by (intros k s' ->; rewrite Nat2Z.id; congruence).
    destruct (find_destination n f destination) as [[j s]|].
    + destruct IH as (H1 & H2 & H3 & H4). split_and!; [lia|lia|done|done|]. intros k s' Hk. destruct (decide (k = Z.of_nat n)) as [E|E]; [by apply Hlast|apply H4; lia].
    + intros k s' Hk. destruct (decide (k = Z.of_nat n)) as [E|E]; [by apply Hlast|apply IH; lia].
Qed.
Lemma sent_slot_det f j s j' s' : sent_slot f j s → sent_slot f j' s' → j' = j ∧ s' = s.
Proof.
  intros [A1 A2 A3 A4 A5 A6] [B1 B2 B3 B4 B5 B6]. destruct (Z.lt_total j j') as [H|[->|H]]; [by destruct (A4 j' s' ltac:(lia) B2)| |by destruct (B4 j s ltac:(lia) A2)]. split; [done|congruence].
Qed.
(** The slot that is looked for. *)
Lemma answered_spec f : 0 ≤ destination_count f ≤ Z.of_nat (length (destinations f)) →
  match answered f with
  | Arrived j s => sent_slot f j s ∧ confirmed (sent_sequence s)
  | Missing => ∃ j s, sent_slot f j s ∧ ¬ confirmed (sent_sequence s) ∧ earlier (sent_sequence s) ∧ is_Some (f_destination (fr f)) ∧ now < delay_until f
  | Nothing => ∀ j s, sent_slot f j s → ¬ confirmed (sent_sequence s) ∧ (earlier (sent_sequence s) → f_destination (fr f) = None ∨ delay_until f ≤ now)
  end.
Proof.
  intros Hn. pose proof (find_destination_last f (Z.to_nat (destination_count f)) ltac:(lia)) as Hfind. rewrite !Z2Nat.id in Hfind by lia. unfold answered.
  destruct (find_destination _ f destination) as [[j s]|]; [|intros j s [A1 A2 A3 A4 A5 A6]; by destruct (Hfind j s A1 A2)].
  destruct Hfind as (F1 & F2 & F3 & F4). assert (0 ≤ sent_sequence s ∧ (next_hop s = Some neighbour ∨ f_destination (fr f) = None) → sent_slot f j s) as Hslot by (intros [? ?]; by split).
  assert (∀ j' s', sent_slot f j' s' → s' = s ∧ 0 ≤ sent_sequence s ∧ (next_hop s = Some neighbour ∨ f_destination (fr f) = None)) as Honly.
  { intros j' s' Hs. pose proof Hs as [A1 A2 A3 A4 A5 A6]. destruct (Z.lt_total j j') as [H|[<-|H]]; [by destruct (F4 j' s' ltac:(lia) A2)| |by destruct (A4 j s ltac:(lia) F2)]. rewrite F2 in A2. by injection A2 as ->. }
  destruct (_ && (_ || _)) eqn:Ec.
  - rewrite andb_true_iff, orb_true_iff, Z.leb_le, !bool_decide_eq_true in Ec. specialize (Hslot Ec). destruct (acked _ _ _) eqn:Ea; [by split; [|apply acked_confirmed]|].
    assert (¬ confirmed (sent_sequence s)) as Hnc by (rewrite <- acked_confirmed; congruence). destruct (_ && _ && _) eqn:Em.
    + rewrite !andb_true_iff, earlier_spec, bool_decide_eq_true, Z.ltb_lt in Em. exists j, s. tauto.
    + intros j' s' Hs. destruct (Honly j' s' Hs) as [-> _]. split; [done|]. intros He. apply earlier_spec in He. rewrite He in Em. cbn [andb] in Em. apply andb_false_iff in Em as [E|E]; [left|right; lia].
      apply bool_decide_eq_false in E. destruct (f_destination (fr f)); [destruct E; by eexists|done].
  - intros j' s' Hs. destruct (Honly j' s' Hs) as (_ & H1 & H2). exfalso. rewrite andb_false_iff, orb_false_iff, Z.leb_gt, !bool_decide_eq_false in Ec. destruct Ec as [?|[? ?]]; [lia|tauto].
Qed.
Lemma fate_ack f : 0 ≤ destination_count f ≤ Z.of_nat (length (destinations f)) → fate f (if finished f then None else Some (after_ack f)).
Proof.
  intros Hn. pose proof (answered_spec f Hn) as H. unfold finished, after_ack. destruct (answered f) as [j s| |].
  - destruct H as [Hs Hc]. destruct (_ || _) eqn:E.
    + apply (fate_delivered f j s); [done|done|]. apply orb_true_iff in E as [E|E]; [left; by apply bool_decide_eq_true in E|right; lia].
    + apply orb_false_iff in E as [E1 E2]. apply (fate_one_less f j s); [done|done| |lia]. apply bool_decide_eq_false in E1. destruct (f_destination (fr f)); [destruct E1; by eexists|done].
  - destruct H as (j & s & H1 & H2 & H3 & H4 & H5). by apply (fate_missing f j s).
  - by apply fate_same.
Qed.
Lemma timely_spec f : 0 ≤ destination_count f ≤ Z.of_nat (length (destinations f)) → (∀ j s, sent_slot f j s → confirmed (sent_sequence s) → i32 (now - transmit_time s) < 2 ^ 30 - 20) → timely f.
Proof. intros Hn H j s E. pose proof (answered_spec f Hn) as Ha. rewrite E in Ha. destruct Ha. by apply (H j s). Qed.

End Ack.
End OverlayQueueAck.
