(* ===== verification/OverlayQueueDemo.v ===== *)
(** * An example of the queues

    Two subscribers, one destination over one interface, a frame that waits on a
    queue for an acknowledgement and one that has not been queued; and simple
    functions for what the queues call. *)

From S2P Require Import Prelude Mem Prog OverlayBuffer OverlayBufferSpec OverlayBufferCodec OverlayBufferFill Limit DataFormats OverlayAddress OverlayAddressTree OverlayAddressCodec OverlayAddressRound LinkWindow OverlayFrame FdQueue FdQueueSpec FdQueueProps OverlayQueue OverlayQueueSpec OverlayQueueTimer OverlayQueueInv OverlayQueuePacket OverlayQueueSend OverlayQueueAppend.
Import Prog OB OBSpec Limit OverlayAddress OverlayAddressCodec OverlayAddressRound LinkWindow OverlayFrame OverlayQueue OverlayQueueSpec OverlayQueueTimer OverlayQueueInv OverlayQueuePacket OverlayQueueSend OverlayQueueAppend.

Module OverlayQueueDemo.

#[local] Instance demo_arch : Arch := arm64.
#[local] Instance demo_allocator : Allocator := calloc_allocator.

(** ** The functions *)

Definition demo_clock (_ : nat) : Z := 1000.
Definition demo_load (_ : nat) : prog qstate (option nat) := mret None.
Definition demo_olsr (_ : nat) : prog qstate unit := mret tt.
Definition demo_hook (_ _ : nat) (_ : option nat) (_ : Z) : prog qstate Z := mret 0.
Definition demo_ensemble (_ : option nat) (b : overlay_buffer) : prog qstate unit := m ← ask q_mem; m ← lift (ob_free m b); change (set_qmem m).

Lemma free_packet m fs p b : mem_ok m fs p → p_buffer p = Some b → ∃ m', ob_free m b = Ret m' ∧ mem_ok m' fs idle_packet.
Proof.
  intros [H1 H2 [_ H3]] Hb. destruct (H3 b Hb) as ((L & cp & w & Hf & _) & _ & _ & Hap). pose proof (OBFill.fi_inv _ _ _ _ _ Hf) as Hi. unfold ob_free.
  assert (∃ m', match allocated b with Some q => free m q | None => Ret m end = Ret m' ∧ ∀ c, (∀ q, bytes c = Some q → apart b (blk q)) → keeps m m' c) as (m' & -> & Hk).
  { destruct (allocated b) as [q|] eqn:Eq; [|exists m; split; [done|]; by intros]. destruct (inv_own _ _ Hi q Eq) as [Eb Eo].
    pose proof (inv_live _ _ Hi) as Hl. rewrite Eb in Hl. destruct Hl as (l & Hl & _). exists (delete (blk q) m). unfold free. rewrite Hl, Eo.
    split; [done|]. intros c Hc q' Eq'. rewrite lookup_delete_ne; [done|]. by apply (Hc q' Eq'). }
  exists m'. split; [done|]. split; [|done|by split]. intros a pl Ha. destruct (H1 a pl Ha) as [Hi' Hst]. split; [|done].
  apply (keeps_inv m); [|done]. apply Hk. intros q Eq. by apply (Hap a pl q).
Qed.

Lemma demo_ensemble_ok np me dir d b ext ls st : qinv np me dir ext ls st → p_destination (q_packet st) = Some d → p_buffer (q_packet st) = Some b →
  runs (demo_ensemble (Some d) b) st (λ _ st', handed_over np me dir d ls st st').
Proof.
  intros [H1 H2 H3 H4 H5 H6 H7] Hd Hb. destruct (free_packet _ _ _ _ H6 Hb) as (m & Em & Hm). unfold demo_ensemble. apply runs_bind, runs_ask.
  apply runs_bind, (runs_lift _ m); [done|]. apply runs_change. split; try done. exists ext. split; [|done]. split; cbn; try done.
  - revert H2. apply counted_ext. intros d'. unfold weight, bump. rewrite Hd. cbn [idle set_packet q_packet p_destination idle_packet].
    rewrite (decide_False (P := None = Some d')) by done. destruct (decide (d' = d)) as [->|Hne]; [rewrite (decide_True (P := Some d = Some d)) by done|rewrite (decide_False (P := Some d = Some d')) by congruence]; lia.
  - destruct H5 as [R1 R2 R3 R4 R5 R6 R7 R8]. assert (∀ d', 0 < ext d' → 0 < bump ext d 1 d') as Hpos by (intros d' ?; unfold bump; destruct (decide _); lia).
    split; try done.
    + intros d'. pose proof (R1 d'). unfold bump. destruct (decide _); lia.
    + intros s x Hs. destruct (R7 s x Hs) as (r & Hr & Hd' & Hn). exists r. split_and!; [done| |done]. intros E. destruct (Hd' E) as (d0 & ? & ?). exists d0. auto.
    + intros n Hn. destruct (R8 n Hn) as [? Hf]. split; [done|]. eapply Forall_impl; [exact Hf|]. cbn. auto.
Qed.

#[export] Instance demo_surroundings np me dir : Surroundings np me dir.
Proof.
  refine {| gettime_ms := demo_clock; load_subscriber_address := demo_load; olsr_send := demo_olsr; call_hook := demo_hook;
            overlay_broadcast_ensemble := demo_ensemble |}.
  - intros n. unfold demo_clock. lia.
  - intros d ext ls a st Hi. apply runs_ret. split; [done|]. by apply calm_refl.
  - intros ext ls a st Hi. apply runs_ret. split; [by apply calmly_refl|done].
  - intros h a d sq ext ls st f Hi Ha. apply runs_ret. split; [by apply calmly_refl|]. by exists f.
  - intros d b ext ls st. apply demo_ensemble_ok.
Defined.

(** ** The state *)

Definition demo_payload : overlay_buffer := Buf None 0 0 SIZE_MAX 0 None.
Definition demo_slot (sq t : Z) (d h : option nat) : packet_destination := PacketDest sq t d h.
Definition spare : packet_destination := PacketDest 0 0 None None.
(** The frame 1 is for the neighbour, sent with sequence number 7; the frame 2 too,
    not yet sent. *)
Definition demo_fr (q : Z) : overlay_frame := Frame 0 0 5 q (-1) (Some 0%nat) (Some 1%nat) (replicate BROADCAST_LEN 0) 1 (Some demo_payload).
Definition demo_waiting : queued :=
  Queued None None 900 (demo_fr 1) 1 None 0 (PacketDest 7 950 (Some 0%nat) (Some 1%nat) :: replicate 15 spare) 1 false 1 false.
Definition demo_new : queued := Queued None None 0 (demo_fr 1) 0 None 0 (replicate 16 spare) 0 false 0 false.
Definition demo_frames : gmap nat queued := <[1%nat := demo_waiting]> (<[2%nat := demo_new]> ∅).

Definition demo_dest : network_destination := Dest 2 (Some 0%nat) false true 1200 500 ENCAP_OVERLAY 0 0 200 7 (LimitState 0 0 0 0 0).
Definition demo_interface : link_interface := LinkInterface INTERFACE_STATE_UP false (Interface false false None).
Definition demo_subscriber (k : Z) : subscriber := Subscriber (replicate 32 k) 0 false 0 0 false false false false 1.
Definition demo_tx : list overlay_txqueue :=
  <[1%nat := TxQueue (Some 1%nat) (Some 1%nat) 1 100 5 0]> (overlay_queue_init (replicate OQ_MAX (TxQueue None None 0 0 0 0))).
Definition demo_timer : FdQueue.sched_ent := FdQueue.Ent None None None false None (FdQueue.Pollfd (-1) 0 0) FdQueue.TIME_MS_NEVER_WILL 0 0 0 0 (-1).
Definition demo_sched : FdQueue.queue :=
  FdQueue.Queue {[9%nat := demo_timer]} (replicate FdQueue.MAX_WATCHED_FDS (FdQueue.Pollfd (-1) 0 0)) 0 (replicate FdQueue.MAX_WATCHED_FDS None) None None None.
Definition demo_state : qstate :=
  QState ∅ [demo_subscriber 1; demo_subscriber 2] [Route None None; Route None None] [OutNeighbour 1 [(5000, 0%nat)]] demo_frames demo_tx
    {[0%nat := demo_dest]} [demo_interface] 0 demo_sched idle_packet 0 0.
Definition demo_ext (d : nat) : Z := if decide (d = 0%nat) then 1 else 0.
Definition demo_lists : list (list nat) := [[]; [1%nat]; []; []; []].

Lemma demo_frame_cases (P : nat → queued → Prop) : P 1%nat demo_waiting → P 2%nat demo_new → ∀ a f, demo_frames !! a = Some f → P a f.
Proof. intros H1 H2 a f. unfold demo_frames. rewrite !lookup_insert_Some. by intros [[<- <-]|[_ [[<- <-]|[_ ?]]]]. Qed.

Lemma demo_timer_ok : timer_ok 9 demo_sched.
Proof.
  split.
  - exists [], [], []. apply FdQueueProps.idle_rep. split; [done| |done]. intros a e. cbn. intros [<- <-]%lookup_singleton_Some. done.
  - exists demo_timer. split; [done|]. by split_and!; [intros; left| |].
Qed.
Lemma demo_mem_ok : mem_ok ∅ demo_frames idle_packet.
Proof.
  assert (∀ a pl, payload_at demo_frames a pl → pl = demo_payload) as Hp.
  { intros a pl (f & Hf & Hpl). revert a f Hf Hpl. by apply (demo_frame_cases (λ _ f, f_payload (fr f) = Some pl → pl = demo_payload)); intros [= <-]. }
  split; [|by intros a a' pl pl' q q' _ ->%Hp ->%Hp|by split]. intros a pl ->%Hp. split; [|done]. split; cbn; try done; try (unfold SIZE_MAX, settled; cbn; lia).
Qed.
Lemma demo_queues : queues demo_tx demo_frames demo_lists.
Proof.
  assert (∀ i l, demo_lists !! i = Some l → (i < 5)%nat) as Hlt by (intros i l; apply lookup_lt_Some).
  split; [done| | |].
  - intros i l Hl. pose proof (Hlt i l Hl). destruct i as [|[|[|[|[|]]]]]; [..|lia]; injection Hl as <-; (split; [eexists; split; [reflexivity|by repeat split]| | |]);
      cbn; try done; try apply NoDup_nil_2; try apply NoDup_singleton. by split; [|eexists].
  - intros i j l l' a Hl Hl' Ha Ha'. pose proof (Hlt i l Hl). pose proof (Hlt j l' Hl').
    destruct i as [|[|[|[|[|]]]]]; [..|lia]; injection Hl as <-; try (by apply not_elem_of_nil in Ha);
    destruct j as [|[|[|[|[|]]]]]; [..|lia]; injection Hl' as <-; try (by apply not_elem_of_nil in Ha'). done.
  - intros i l a f Hl Ha. pose proof (Hlt i l Hl). destruct i as [|[|[|[|[|]]]]]; [..|lia]; injection Hl as <-; try (by apply not_elem_of_nil in Ha).
    apply list_elem_of_singleton in Ha as ->. intros [= <-]. split; [done|]. split; [done|]. exists demo_payload. done.
Qed.
Lemma demo_counted : counted (weight demo_ext demo_frames None) {[0%nat := demo_dest]}.
Proof.
  assert (∀ d, weight demo_ext demo_frames None d = if decide (d = 0%nat) then 2 else 0) as Hw.
  { intros d. unfold weight, demo_frames. rewrite !total_new by done. unfold demo_ext. change (total ∅ d) with 0%nat. change (refs d demo_new) with 0%nat.
    unfold refs. change (slots demo_waiting) with [PacketDest 7 950 (Some 0%nat) (Some 1%nat)]. rewrite filter_cons. cbn [pd_destination].
    destruct (decide (d = 0%nat)) as [->|Hne]; [done|]. by rewrite decide_False by congruence. }
  intros d. rewrite Hw. destruct (decide (d = 0%nat)) as [->|Hne]; [done|]. by rewrite lookup_singleton_ne.
Qed.
Lemma demo_routes_ok : routes_ok 0 None demo_ext [demo_subscriber 1; demo_subscriber 2] [Route None None; Route None None] [OutNeighbour 1 [(5000, 0%nat)]] 1.
Proof.
  split; cbn; try done; try lia.
  - intros d. unfold demo_ext. destruct (decide _); lia.
  - repeat constructor; by apply (bool_decide_unpack _).
  - unfold OVERLAY_MAX_INTERFACES. lia.
  - intros s x Hs. destruct s as [|[|]]; [| |done]; injection Hs as <-; done.
  - intros s x Hs. destruct s as [|[|]]; [| |done]; injection Hs as <-; exists (Route None None); split_and!; done.
  - intros n ->%list_elem_of_singleton. cbn. split; [lia|]. by constructor.
Qed.

Lemma demo_inv : qinv 9 0 None demo_ext demo_lists demo_state.
Proof.
  split; cbn -[demo_frames demo_tx demo_lists].
  - apply demo_queues.
  - apply demo_counted.
  - intros a f. apply (demo_frame_cases (λ _ f, frame_ok 2 f)); (split; cbn; try done; try lia; try (by eexists)).
    + apply Forall_singleton. split_and!; cbn; try lia; try done. intros h [= <-]. lia.
    + by apply (bool_decide_unpack _).
    + exists 0%nat. split; [done|lia].
    + intros d [= <-]. lia.
    + by apply (bool_decide_unpack _).
    + exists 0%nat. split; [done|lia].
    + intros d [= <-]. lia.
  - intros d x [_ <-]%lookup_singleton_Some. split; cbn; try lia. exists 0%nat. split; [done|lia].
  - apply demo_routes_ok.
  - apply demo_mem_ok.
  - apply demo_timer_ok.
Qed.

Lemma demo_loose : loose demo_lists 2.
Proof.
  intros j l Hl Ha. pose proof (lookup_lt_Some _ _ _ Hl). cbn in *. destruct j as [|[|[|[|[|]]]]]; [..|lia]; injection Hl as <-; try (by apply not_elem_of_nil in Ha).
  by apply list_elem_of_singleton in Ha.
Qed.

End OverlayQueueDemo.
