(* ===== verification/OverlayQueueProps.v ===== *)
(** * What the outgoing queues promise

    Frames leave a queue from any place and join it at the end; sending never
    reorders, forgets an old frame or lets the timer run out while one is left; and
    an acknowledgement takes away exactly the frames whose packets it confirms. *)

From S2P Require Import Prelude Mem Prog OverlayBuffer OverlayBufferSpec OverlayBufferCodec OverlayBufferFill Limit DataFormats OverlayAddress OverlayAddressTree OverlayAddressCodec OverlayAddressRound LinkWindow OverlayFrame FdQueue FdQueueSpec OverlayQueue OverlayQueueSpec OverlayQueueTimer OverlayQueueInv OverlayQueuePacket OverlayQueueSend OverlayQueueAppend OverlayQueueAck OverlayQueueDemo.
Import Prog OB Limit OverlayAddress OverlayAddressCodec LinkWindow OverlayFrame OverlayQueue OverlayQueueSpec OverlayQueueTimer OverlayQueueInv OverlayQueuePacket OverlayQueueSend OverlayQueueAppend OverlayQueueAck OverlayQueueDemo.

Module OverlayQueueProps.
Section Props.
Context {arch : Arch} {allocator : Allocator} {np me : nat} {directory_service : option nat} `{env : !Surroundings np me directory_service}.
Variable send_alarm : nat.
Abbreviation Inv := (qinv np me directory_service).

Abbreviation enqueue := (overlay_payload_enqueue gettime_ms np send_alarm directory_service load_subscriber_address olsr_send).
Abbreviation fill_send := (overlay_fill_send_packet gettime_ms np send_alarm directory_service load_subscriber_address (Some me) call_hook overlay_broadcast_ensemble).
Abbreviation send_packet := (overlay_send_packet gettime_ms np send_alarm directory_service load_subscriber_address (Some me) call_hook overlay_broadcast_ensemble).
Abbreviation send_tick_packet := (overlay_send_tick_packet gettime_ms np send_alarm directory_service load_subscriber_address (Some me) call_hook overlay_broadcast_ensemble).
Abbreviation queue_ack := (overlay_queue_ack gettime_ms np send_alarm).

(** ** Removing *)

(** C31: [overlay_queue_remove], called on a frame anywhere in a queue, returns the
    frame after it, takes exactly this frame out of the sequence, gives its
    references back and frees it; of the other frames only links change. *)
Theorem queue_remove_refines ext ls i p a s st : Inv ext ls st → ls !! i = Some (p ++ a :: s) →
  runs (overlay_queue_remove i a) st (λ r st', r = head s ∧ Inv ext (<[i := p ++ s]> ls) st' ∧ q_frames st' !! a = None ∧
    ∀ b, b ≠ a → core <$> q_frames st' !! b = core <$> q_frames st !! b).
Proof.
  intros Hi Hl. eapply runs_mono; [by apply (remove_runs np me directory_service ext ls i p a s st)|]. cbn beta. intros r st' (-> & Hi' & Hr).
  destruct (removed_core a st st' Hr) as [Hc Hn]. by split_and!.
Qed.

(** ** Queueing *)

Lemma enqueue_start a f pl q st Q : q_frames st !! a = Some f → f_payload (fr f) = Some pl → queue (fr f) < Z.of_nat OQ_MAX →
  q_tx st !! Z.to_nat (queue (fr f)) = Some q →
  (let i := Z.to_nat (queue (fr f)) in
   if ob_overrun pl then Q (-1) st
   else if MDP_MTU <=? ob_position pl then False
   else if maxLength q <=? q_length q then Q (-1) st
   else runs ((if f_packet_version (fr f) <=? 0 then upd_frame a (λ f, set_fr (with_version 1 (fr f)) f) else mret tt);;
          (if destination_count f =? 0 then
             if bool_decide (f_destination (fr f) = None) then olsr_send a;; link_add_destinations gettime_ms directory_service load_subscriber_address a else mret tt
           else upd_frame a (set_manual true));;
          f' ← the_frame a;
          if (destination_count f =? 0) && bool_decide (f_destination (fr f) = None) && (destination_count f' =? 0)
          then free_frame a;; mret 0
          else
            (if (destination_count f =? 0) && (resend f' =? 0) then upd_frame a (set_resend 1) else mret tt);;
            clear_sent (Z.to_nat (destination_count f')) a;;
            append_frame_to gettime_ms i a;;
            overlay_calc_queue_time gettime_ms np send_alarm a;;
            mret 0) st Q) → runs (enqueue a) st Q.
Proof.
  intros Ha Hpl Hq Htx H. unfold overlay_payload_enqueue. apply runs_bind, (runs_frame _ f); [done|]. rewrite (proj2 (Z.ltb_lt _ _)) by done. cbn [negb]. rewrite Hpl. cbv zeta.
  apply runs_bind, (runs_queue _ q); [done|]. cbv zeta in H. destruct (ob_overrun pl); [by apply runs_ret|]. destruct (_ <=? _); [done|].
  destruct (_ <=? _); [by apply runs_ret|done].
Qed.

Lemma resend_prepared ext ls a f c st : Inv ext ls st → q_frames st !! a = Some f →
  runs (if c : bool then upd_frame a (set_resend 1) else mret tt) st (λ _ st', ∃ f', prepared (np := np) (me := me) (directory_service := directory_service) ext ls a f st f' st' ∧ destination_count f' = destination_count f).
Proof.
  intros Hi Ha. destruct c; [|apply runs_ret; exists f; split; [by apply prepared_refl|done]]. apply (runs_upd_frame _ f); [done|]. exists (set_resend 1 f).
  split; [|done]. assert (calm np me directory_service ext ls a st (set_frames (<[a := set_resend 1 f]> (q_frames st)) st)) as Hc.
  { apply (qinv_upd _ _ _ _ _ _ _ f); try done. by destruct (frame_live _ _ _ _ _ _ _ _ Hi Ha). }
  split; cbn; try done; [apply Hc|apply lookup_insert_eq|]. intros b Hb. by rewrite lookup_insert_ne.
Qed.

Lemma not_overrun pl : ob_overrun pl = false → position pl ≤ allocSize pl.
Proof. unfold ob_overrun. destruct (negb _ && (sizeLimit pl <? allocSize pl)) eqn:E; intros H%Z.ltb_ge; [|done]. apply andb_true_iff in E as [_ E%Z.ltb_lt]. lia. Qed.

(** C12: a frame with a payload that fits, for a queue with room, is put at the end of
    its queue, ready to be sent and with the timer running unless an interface is
    busy; a broadcast that no destination is found for is freed. Both return 0. *)
Theorem enqueue_appends ext ls i a l q f pl st : Inv ext ls st → loose ls a → q_frames st !! a = Some f → prev f = None → next f = None →
  f_payload (fr f) = Some pl → ob_overrun pl = false → ob_position pl < MDP_MTU → queue (fr f) = Z.of_nat i → ls !! i = Some l → q_tx st !! i = Some q →
  q_length q < maxLength q →
  runs (enqueue a) st (λ r st', r = 0 ∧ (enqueued (np := np) (me := me) (directory_service := directory_service) ext ls i a l f st st' ∨
    f_destination (fr f) = None ∧ destination_count f = 0 ∧ q_frames st' !! a = None ∧ Inv ext ls st')).
Proof.
  intros Hi Hlo Ha Hp Hn Hpl Hov Hmtu Hqi Hl Hq Hlen. pose proof (frame_live _ _ _ _ _ _ _ _ Hi Ha) as Hf. pose proof (fk_queue _ _ Hf) as Hqm.
  assert (Z.to_nat (queue (fr f)) = i) as Ei by lia. apply (enqueue_start a f pl q); [done|done|lia|by rewrite Ei|]. cbv zeta. rewrite Ei, Hov, (proj2 (Z.leb_gt _ _)), (proj2 (Z.leb_gt _ _)) by lia.
  apply runs_bind. assert (runs (if f_packet_version (fr f) <=? 0 then upd_frame a (λ f, set_fr (with_version 1 (fr f)) f) else mret tt) st
    (λ _ st', ∃ f', prepared (np := np) (me := me) (directory_service := directory_service) ext ls a f st f' st' ∧ destination_count f' = destination_count f)) as Hver.
  { destruct (_ <=? 0); [|apply runs_ret; exists f; split; [by apply prepared_refl|done]]. apply (runs_upd_frame _ f); [done|].
    destruct (with_version_calm np me directory_service ext ls a f 1 st Hi Ha) as [Hc _]; [unfold SUPPORTED_PACKET_VERSION; lia|].
    exists (set_fr (with_version 1 (fr f)) f). split; [|done]. split; cbn; try done; [apply Hc|apply lookup_insert_eq|]. intros b Hb. by rewrite lookup_insert_ne. }
  eapply runs_mono; [exact Hver|]. cbn beta. intros _ st1 (f1 & Hp1 & En1). destruct (prepared_fields _ _ _ _ _ _ _ Hp1) as (_ & Ed1 & _).
  apply runs_bind. eapply runs_mono; [apply (destinations_prepared ext ls a f1 f st1); [apply Hp1|apply Hp1|done|done]|]. cbn beta. intros _ st2 (f2 & Hp2 & En2).
  pose proof (prepared_trans _ _ _ _ _ _ _ _ _ Hp1 Hp2) as Hp02. destruct (prepared_fields _ _ _ _ _ _ _ Hp02) as (_ & Ed2 & _ & Epr2 & Enx2).
  pose proof (pr_inv _ _ _ _ _ _ _ Hp2) as Hi2. pose proof (pr_frame _ _ _ _ _ _ _ Hp2) as Ha2. pose proof (fk_count _ _ (frame_live _ _ _ _ _ _ _ _ Hi2 Ha2)) as Hc2.
  apply runs_bind, (runs_frame _ f2); [done|]. destruct ((destination_count f =? 0) && bool_decide (f_destination (fr f) = None) && (destination_count f2 =? 0)) eqn:Enone.
  { apply andb_true_iff in Enone as [[E1%Z.eqb_eq E2%bool_decide_eq_true]%andb_true_iff E3%Z.eqb_eq]. apply runs_bind.
    eapply runs_mono; [apply (loose_freed (np := np) (me := me) (directory_service := directory_service) ext ls a f2 st2 Hi2 Hlo Ha2 E3); congruence|]. cbn beta. intros r st3 (-> & Hi3 & Ef3). apply runs_ret. split; [done|]. right.
    split_and!; try done. rewrite Ef3. apply lookup_delete_eq. }
  assert (to_send f2) as Hto.
  { unfold to_send. rewrite Ed2. destruct (f_destination (fr f)) as [d|] eqn:Ed; [left; by eexists|right]. rewrite bool_decide_true, andb_true_r in Enone by done.
    apply andb_false_iff in Enone as [E%Z.eqb_neq|E%Z.eqb_neq]; [|lia]. rewrite En2, En1 by (left; lia). pose proof (fk_count _ _ Hf). lia. }
  apply runs_bind. eapply runs_mono; [apply (resend_prepared ext ls a f2 _ st2 Hi2 Ha2)|]. cbn beta. intros _ st3 (f3 & Hp3 & En3).
  apply runs_bind. eapply runs_mono; [apply (clear_sent_calm (np := np) (me := me) (directory_service := directory_service) ext ls a _ f3 st3); [apply Hp3|apply Hp3|lia]|]. cbn beta. intros _ st4 (Hc4 & f4 & Ha4 & En4).
  destruct (calm_prepared _ _ _ f3 _ _ Hc4) as (f4' & Hp4); [apply Hp3|]. rewrite (pr_frame _ _ _ _ _ _ _ Hp4) in Ha4. injection Ha4 as ->.
  pose proof (prepared_trans _ _ _ _ _ _ _ _ _ Hp02 (prepared_trans _ _ _ _ _ _ _ _ _ Hp3 Hp4)) as Hp04. destruct (prepared_fields _ _ _ _ _ _ _ Hp04) as (_ & Ed4 & _).
  destruct (qr_ends _ _ _ _ (qs_rep _ _ _ (qi_queues _ _ _ _ _ _ Hi) i l Hl)) as (q0 & Hq0 & _ & _ & Hlen0 & _). rewrite Hq in Hq0. injection Hq0 as <-.
  eapply runs_mono; [apply (finish_enqueue send_alarm ext ls i a l q f st f4 st4 pl Hp04 Hlo Hl Hq Hqi); [lia|done|by apply not_overrun|done|]|].
  - unfold to_send in *. rewrite Ed4, En4, En3. by rewrite Ed2 in Hto.
  - cbn beta. intros r st' [-> He]. split; [done|]. by left.
Qed.

(** A payload that overran its buffer, or a queue that is full, is refused with -1
    and nothing changes. *)
Theorem enqueue_refuses a f pl q st : q_frames st !! a = Some f → f_payload (fr f) = Some pl → 0 ≤ queue (fr f) < Z.of_nat OQ_MAX → q_tx st !! Z.to_nat (queue (fr f)) = Some q →
  ob_overrun pl = true ∨ ob_position pl < MDP_MTU ∧ maxLength q ≤ q_length q → enqueue a st = Ret (-1, st).
Proof.
  intros Ha Hpl Hq Htx H. assert (runs (enqueue a) st (λ r st', r = -1 ∧ st' = st)) as (r & st' & E & -> & ->); [|done].
  apply (enqueue_start a f pl q); [done|done|lia|done|]. cbv zeta. destruct H as [-> | [H1 H2]]; [done|]. destruct (ob_overrun pl); [done|].
  by rewrite (proj2 (Z.leb_gt _ _)), (proj2 (Z.leb_le _ _)) by lia.
Qed.

(** A payload of [MDP_MTU] bytes or more stops the whole daemon. *)
Theorem enqueue_big_aborts a f pl q st : q_frames st !! a = Some f → f_payload (fr f) = Some pl → 0 ≤ queue (fr f) < Z.of_nat OQ_MAX → q_tx st !! Z.to_nat (queue (fr f)) = Some q →
  ob_overrun pl = false → MDP_MTU ≤ ob_position pl → enqueue a st = Aborted.
Proof.
  intros Ha Hpl Hq Htx Hov Hp. unfold overlay_payload_enqueue, the_frame. rewrite (bind_unfold _ _ _ f st) by (by rewrite Ha). rewrite (proj2 (Z.ltb_lt _ _)) by lia. cbn [negb]. rewrite Hpl.
  cbv zeta. rewrite (bind_unfold _ _ _ q st) by (unfold the_queue; by rewrite Htx). by rewrite Hov, (proj2 (Z.leb_le _ _)).
Qed.

(** ** Sending *)

Hypothesis memory : malloc_total.

(** When the timer fires, a packet is filled from the queues and sent. The code
    returns; every queue is what it was with some frames taken out; no frame is left
    that its queue says is too old; the invariant holds, the packet's reference given
    back; and unless an interface is busy the timer runs while any frame is left to
    send. *)
Theorem send_packet_sound ext ls st : Inv ext ls (idle st) →
  runs send_packet st (λ r st', 0 ≤ r ≤ 1 ∧ ∃ ls', sent_from (np := np) (me := me) (directory_service := directory_service) (gettime_ms (q_ticks st)) ls st ls' st').
Proof.
  intros Hi. unfold overlay_send_packet. apply runs_bind, runs_change. apply runs_bind. eexists _, _. split; [reflexivity|].
  assert (Inv ext ls (tick (idle st))) as Hi' by (destruct Hi; by split). pose proof (clock (q_ticks st)).
  eapply runs_mono; [apply (fill_runs send_alarm memory ext ls (gettime_ms (q_ticks st)) (tick (idle st)) Hi'); lia|].
  cbn beta. intros r st' (Hr & ls' & [S1 S2 S3 S4 S5]). split; [done|]. exists ls'. split; [exact S1|exact S2|exact S3|exact S4|exact S5].
Qed.

(** So does a tick packet for a destination that another part of the daemon refers
    to. *)
Theorem send_tick_sound ext ls d st : Inv ext ls (idle st) → 0 < ext d →
  runs (send_tick_packet d) st (λ r st', r = 0 ∧ ∃ ls' n, sent_from (np := np) (me := me) (directory_service := directory_service) (gettime_ms n) ls st ls' st').
Proof.
  intros Hi Hd. unfold overlay_send_tick_packet. apply runs_bind, runs_change. set (st0 := set_packet _ st).
  assert (Inv ext ls st0) as Hi0 by (destruct Hi as [? ? ? ? ? [? ? ?] ?]; split; try done; by split). apply runs_bind.
  eapply runs_mono; [apply (init_packet_calm np me directory_service memory ext ls 0 0 d st0 Hi0); [done|unfold SUPPORTED_PACKET_VERSION; lia|by apply (ext_weight np me directory_service ext ls)]|].
  cbn beta. intros ? st1 (-> & [Hi1 Hk1] & Ef1 & _). cbn [negb Z.eqb]. apply runs_bind, runs_bind. eexists _, _. split; [reflexivity|]. pose proof (clock (q_ticks st1)).
  assert (Inv ext ls (tick st1)) as Hi1' by (destruct Hi1; by split). apply runs_bind. eapply runs_mono; [apply (fill_runs send_alarm memory ext ls (gettime_ms (q_ticks st1)) (tick st1) Hi1'); lia|].
  cbn beta. intros r st' (Hr & ls' & [S1 S2 S3 S4 S5]). apply runs_ret, runs_ret. split; [done|]. exists ls', (q_ticks st1). split; try done.
  intros a f' Ha. destruct (S3 a f' Ha) as (f & Hf & He). exists f. split; [|done]. cbn in Hf. by rewrite Ef1 in Hf.
Qed.

(** ** Acknowledgements *)

(** What an acknowledgement does, as a function of the frames. *)
Lemma queue_ack_runs ext ls neighbour destination ack_mask ack_seq st : Inv ext ls st → 0 < ext destination →
  let now := gettime_ms (q_ticks st) in let stay := pending neighbour destination now ack_mask ack_seq (q_frames st) in
  (∀ i l, ls !! i = Some l → all_timely neighbour destination now ack_mask ack_seq (q_frames st) l) →
  runs (queue_ack neighbour destination ack_mask ack_seq) st (λ r st', r = 0 ∧ Inv ext (stay <$> ls) st' ∧
    (∀ i l a, ls !! i = Some l → a ∈ stay l → core <$> q_frames st' !! a = (core ∘ after_ack neighbour destination now ack_mask ack_seq) <$> q_frames st !! a) ∧
    ∀ a, loose ls a → core <$> q_frames st' !! a = core <$> q_frames st !! a).
Proof.
  intros Hi Hd now stay Htm. unfold overlay_queue_ack. apply runs_bind. eexists _, _. split; [reflexivity|]. fold now. pose proof (clock (q_ticks st)) as Hclk. fold now in Hclk.
  assert (Inv ext ls (tick st)) as Hi0 by (destruct Hi; by split). pose proof (qs_count _ _ _ (qi_queues _ _ _ _ _ _ Hi)) as Hn.
  apply runs_bind. eapply runs_mono; [apply (ack_queues_runs send_alarm neighbour destination now ack_mask ack_seq ext ls (tick st) OQ_MAX Hi0); [lia|lia|done]|].
  cbn beta. intros rtt st1 [Hrtt [A1 A2 A3]]. rewrite (upto_all _ _ _ _ _ _ _ _ Hn) in A1. pose proof (λ i l (E : ls !! i = Some l), lookup_lt_Some _ _ _ E) as Hlt. rewrite Hn in Hlt.
  set (post := λ (r : Z) st', r = 0 ∧ Inv ext (stay <$> ls) st' ∧ (∀ i l a, ls !! i = Some l → a ∈ stay l → core <$> q_frames st' !! a = (core ∘ after_ack neighbour destination now ack_mask ack_seq) <$> q_frames st !! a) ∧ ∀ a, loose ls a → core <$> q_frames st' !! a = core <$> q_frames st !! a).
  assert (∀ st2, Inv ext (stay <$> ls) st2 → q_frames st2 = q_frames st1 → runs (mret 0) st2 post) as Hend.
  { intros st2 Hi2 Ef2. apply runs_ret. split; [done|]. split; [done|]. rewrite Ef2. split; [intros i l a Hl; apply (A2 i l a); [by eapply Hlt|done]|].
    intros a Ha. apply A3. intros i l _ Hl. by apply (Ha i l). }
  apply runs_bind. destruct (Z.eqb_spec rtt 0) as [E|E]; cbn [negb]; [apply runs_ret; by apply Hend|].
  destruct (dest_live np me directory_service ext _ st1 destination A1) as (x & Hx & Hxok); [by apply (ext_weight np me directory_service ext _ _ _ A1)|].
  destruct (update_rtt_ok _ rtt x Hrtt E Hxok) as (x' & Ex & Hx' & Er). apply runs_bind, (runs_dest _ x); [done|]. apply runs_bind, (runs_lift _ x'); [done|].
  apply (runs_upd_dest _ x); [done|]. apply Hend; [|done]. apply (qinv_dest np me directory_service ext _ 0 st1 destination x x' A1 Hx Er Hx').
Qed.

(** C11: an acknowledgement from a neighbour, for a destination that some other part of
    the daemon holds, with packets that were sent less than 2^30 ms ago, gives every
    queued frame its fate, in place: it is thrown away when the number of the packet
    that its slot for the destination was last given is the acknowledged one, or one
    of the 32 before it with the bit set, and it is for the neighbour or was left for
    no other destination; a broadcast for several loses that destination; a frame for
    the neighbour with an earlier number that is not confirmed may be looked at again
    at once, if it was waiting, but its resend delay stays; every other frame, on a
    queue or on none, stays as it is. That the number was given does not mean that the
    packet held the frame. The code returns 0. *)
Theorem queue_ack_exact ext ls neighbour destination ack_mask ack_seq st : Inv ext ls st → 0 < ext destination →
  let now := gettime_ms (q_ticks st) in
  (∀ i l a f j s, ls !! i = Some l → a ∈ l → q_frames st !! a = Some f → sent_slot neighbour destination f j s → confirmed ack_mask ack_seq (sent_sequence s) → i32 (now - transmit_time s) < 2 ^ 30 - 20) →
  runs (queue_ack neighbour destination ack_mask ack_seq) st (λ r st', r = 0 ∧ ∃ ls', Inv ext ls' st' ∧ Forall2 sublist ls' ls ∧
    (∀ i l l' a f, ls !! i = Some l → ls' !! i = Some l' → a ∈ l → q_frames st !! a = Some f →
      ∃ o, fate neighbour destination now ack_mask ack_seq f o ∧ match o with None => a ∉ l' | Some g => a ∈ l' ∧ core <$> q_frames st' !! a = Some (core g) end) ∧
    ∀ a, loose ls a → core <$> q_frames st' !! a = core <$> q_frames st !! a).
Proof.
  intros Hi Hd now Htm. assert (∀ a f, q_frames st !! a = Some f → 0 ≤ destination_count f ≤ Z.of_nat (length (destinations f))) as Hn.
  { intros a f Ha. pose proof (frame_live _ _ _ _ _ _ _ _ Hi Ha) as Hf. rewrite (fk_slots _ _ Hf). apply (fk_count _ _ Hf). }
  eapply runs_mono; [apply (queue_ack_runs ext ls neighbour destination ack_mask ack_seq st Hi Hd)|].
  { intros i l Hl a f Ha Hf. apply timely_spec; [by apply (Hn a)|]. intros j s. by apply (Htm i l a f). }
  cbn beta zeta. fold now. intros r st' (-> & Hi' & Hkept & Hloose). split; [done|]. eexists. split; [exact Hi'|]. split; [|split; [|done]].
  - apply Forall2_fmap_l, Forall_Forall2_diag, Forall_true. intros l. unfold pending. apply sublist_filter.
  - intros i l l' a f Hl Hl' Hal Ha. rewrite list_lookup_fmap, Hl in Hl'. injection Hl' as <-. eexists. split; [apply (fate_ack _ _ _ _ _ f), (Hn a); done|].
    assert (a ∈ pending neighbour destination now ack_mask ack_seq (q_frames st) l ↔ finished neighbour destination now ack_mask ack_seq f = false) as Hp.
    { unfold pending. rewrite list_elem_of_filter. unfold done_at. rewrite Ha. tauto. }
    destruct (finished _ _ _ _ _ f); [rewrite Hp; done|]. split; [by apply Hp|]. rewrite (Hkept i l a Hl) by (by apply Hp). by rewrite Ha.
Qed.

End Props.

(** ** A frame that is acknowledged without having been sent *)

#[local] Existing Instance demo_arch.
#[local] Existing Instance demo_allocator.

(** A frame with a payload of 1190 bytes for a neighbour over a link of 1200 bytes;
    the header of the packet and of the frame do not fit beside it. *)
Definition big_payload : overlay_buffer := Buf (Some (Ptr 3 0)) 0 1190 SIZE_MAX 1216 (Some (Ptr 3 0)).
Definition big_frame : queued :=
  Queued None None 900 (Frame 0 0 5 1 (-1) (Some 0%nat) (Some 1%nat) (replicate BROADCAST_LEN 0) 1 (Some big_payload)) 1 None 0 (replicate 16 spare) 0 false 0 false.
Definition big_state : qstate :=
  QState {[3%nat := replicate 1216 0]} [demo_subscriber 1; demo_subscriber 2] [Route None None; Route None None] [OutNeighbour 1 [(5000, 0%nat)]]
    {[1%nat := big_frame]} demo_tx {[0%nat := set_refs 1 demo_dest]} [demo_interface] 0 demo_sched idle_packet 0 0.
Definition demo_send : prog qstate Z := overlay_send_packet demo_clock 9 3 None demo_load (Some 0%nat) demo_hook demo_ensemble.

(** When the payload that a packet was started for does not fit into it, the frame
    is nevertheless marked with the number of the packet: the packet leaves with
    nothing but its header, the frame has never been written ([transmit_count] is 0),
    and when the neighbour acknowledges the packet the frame is thrown away as
    delivered. *)
Theorem unsent_frame_acknowledged :
  (∃ st, demo_send big_state = Ret (1, st) ∧ position <$> p_buffer (q_packet st) = Some (header_length (q_packet st)) ∧ packet_seq (q_packet st) = 8 ∧
    (λ f, (transmit_count f, sent_sequence <$> head (slots f))) <$> q_frames st !! 1%nat = Some (0, Some 8)) ∧
  (∃ st, (demo_send;; overlay_queue_ack demo_clock 9 3 1 0 0 8) big_state = Ret (0, st) ∧ q_frames st !! 1%nat = None).
Proof.
  split.
  - destruct (demo_send big_state) as [[r st]| |] eqn:E; [|by vm_compute in E|by vm_compute in E]. exists st. vm_compute in E. injection E as <- <-. by split_and!.
  - destruct ((demo_send;; overlay_queue_ack demo_clock 9 3 1 0 0 8) big_state) as [[r st]| |] eqn:E; [|by vm_compute in E|by vm_compute in E].
    exists st. vm_compute in E. injection E as <- <-. done.
Qed.

(** ** Witnesses *)

Lemma queue_remove_refines_witness : demo_lists !! 1%nat = Some ([] ++ [1%nat]) ∧
  runs (overlay_queue_remove 1 1) demo_state (λ r st', r = None ∧ qinv 9 0 None demo_ext [[]; []; []; []; []] st' ∧ q_frames st' !! 1%nat = None).
Proof.
  split; [done|]. eapply runs_mono; [apply (queue_remove_refines demo_ext demo_lists 1 [] 1 [] demo_state demo_inv eq_refl)|]. cbn beta. by intros r st' (-> & ? & ? & _).
Defined.

Lemma enqueue_appends_witness : loose demo_lists 2 ∧
  runs (overlay_payload_enqueue demo_clock 9 3 None demo_load demo_olsr 2) demo_state (λ r st', r = 0 ∧ qinv 9 0 None demo_ext [[]; [1%nat; 2%nat]; []; []; []] st').
Proof.
  split; [apply demo_loose|].
  eapply runs_mono; [apply (enqueue_appends (env := demo_surroundings 9 0 None) 3 demo_ext demo_lists 1 2 [1%nat] (TxQueue (Some 1%nat) (Some 1%nat) 1 100 5 0) demo_new demo_payload demo_state demo_inv demo_loose); done|].
  cbn beta. intros r st' [-> [He|(E & _)]]; [|done]. split; [done|]. apply He.
Defined.

Lemma enqueue_refuses_witness : let st := set_tx (<[1%nat := TxQueue (Some 1%nat) (Some 1%nat) 1 1 5 0]> demo_tx) demo_state in
  overlay_payload_enqueue demo_clock 9 3 None demo_load demo_olsr 2 st = Ret (-1, st).
Proof.
  intros st. apply (enqueue_refuses (env := demo_surroundings 9 0 None) 3 2 demo_new demo_payload (TxQueue (Some 1%nat) (Some 1%nat) 1 1 5 0) st); [done|done|done|done|]. right. done.
Defined.

Lemma enqueue_big_aborts_witness : let big := Buf (Some (Ptr 3 0)) 0 1200 SIZE_MAX 1216 (Some (Ptr 3 0)) in
  let f := Queued None None 0 (Frame 0 0 5 1 (-1) (Some 0%nat) (Some 1%nat) (replicate BROADCAST_LEN 0) 1 (Some big)) 0 None 0 (replicate 16 spare) 0 false 0 false in
  overlay_payload_enqueue demo_clock 9 3 None demo_load demo_olsr 2 (set_frames (<[2%nat := f]> demo_frames) demo_state) = Aborted.
Proof.
  intros big f. apply (enqueue_big_aborts (env := demo_surroundings 9 0 None) 3 2 f big (TxQueue (Some 1%nat) (Some 1%nat) 1 100 5 0)); done.
Defined.

Lemma send_packet_sound_witness : qinv 9 0 None demo_ext demo_lists (idle demo_state) ∧
  runs demo_send demo_state (λ r st', 0 ≤ r ≤ 1 ∧ ∃ ls', sent_from (np := 9) (me := 0) (directory_service := None) 1000 demo_lists demo_state ls' st').
Proof. split; [apply demo_inv|]. apply (send_packet_sound (env := demo_surroundings 9 0 None) 3 calloc_total demo_ext demo_lists demo_state demo_inv). Defined.

Lemma send_tick_sound_witness : runs (overlay_send_tick_packet demo_clock 9 3 None demo_load (Some 0%nat) demo_hook demo_ensemble 0) demo_state (λ r st', r = 0 ∧
  ∃ ls', sent_from (np := 9) (me := 0) (directory_service := None) 1000 demo_lists demo_state ls' st').
Proof.
  eapply runs_mono; [apply (send_tick_sound (env := demo_surroundings 9 0 None) 3 calloc_total demo_ext demo_lists 0 demo_state demo_inv); done|].
  cbn beta. intros r st' (-> & ls' & n & H). split; [done|]. by exists ls'.
Defined.

(** The frame 1 was sent with number 7. *)
Lemma queue_ack_exact_witness : runs (overlay_queue_ack demo_clock 9 3 1 0 0 7) demo_state (λ r st', r = 0 ∧ qinv 9 0 None demo_ext [[]; []; []; []; []] st').
Proof.
  eapply runs_mono; [apply (queue_ack_exact (env := demo_surroundings 9 0 None) 3 demo_ext demo_lists 1 0 0 7 demo_state demo_inv); [done|]|].
  - intros i l a f j s Hl Ha. apply (demo_frame_cases (λ _ f, sent_slot 1 0 f j s → confirmed 0 7 (sent_sequence s) → i32 (gettime_ms (q_ticks demo_state) - transmit_time s) < 2 ^ 30 - 20)).
    + intros [H1 H2 _ _ _ _] _. change (destination_count demo_waiting) with 1 in H1. assert (j = 0) as -> by lia. injection H2 as <-. done.
    + intros [H1 _ _ _ _ _]. change (destination_count demo_new) with 0 in H1. lia.
  - cbn beta. intros r st' (-> & ls' & Hi & Hs & Hf & _). split; [done|].
    assert (ls' = [[]; []; []; []; []]) as ->; [|exact Hi]. apply list_eq_Forall2. apply Forall2_lookup. intros i. apply Forall2_lookup with (i := i) in Hs as Hsi.
    destruct (ls' !! i) as [l'|] eqn:El; [|by inversion Hsi as [|Hx]; destruct i as [|[|[|[|[|]]]]]; try discriminate; constructor].
    inversion Hsi as [? l Hsub E1 E2|]; subst. symmetry in E2. destruct (decide (i = 1%nat)) as [->|Hne].
    + injection E2 as <-. constructor. destruct (Hf 1%nat [1%nat] l' 1%nat demo_waiting eq_refl El ltac:(left) eq_refl) as (o & Ho & Hm).
      assert (sent_slot 1 0 demo_waiting 0 (PacketDest 7 950 (Some 0%nat) (Some 1%nat))) as Hss by (split; try done; [intros k s' Hk; change (destination_count demo_waiting) with 1 in Hk; lia|by left]).
      assert (confirmed 0 7 7) as Hc by (exists 0; split_and!; [lia|lia|done|by left]).
      destruct o as [g|].
      * exfalso. inversion Ho as [|j s H1 H2 H3 H4 E|j s H1 H2 H3 H4 H5 E|H1 E]; subst; [done| |].
        { destruct (sent_slot_det _ _ _ _ _ _ _ Hss H1) as [_ ->]. by destruct H2. }
        { by destruct (H1 _ _ Hss) as [H _]. }
      * destruct l' as [|x l']; [done|]. assert (x ∈ [1%nat]) as Hx by (eapply elem_of_submseteq; [left|by apply sublist_submseteq]). apply list_elem_of_singleton in Hx as ->. destruct Hm. left.
    + destruct i as [|[|[|[|[|]]]]]; try done; injection E2 as <-; constructor; by apply sublist_nil_r.
Defined.

End OverlayQueueProps.
