(* ===== verification/Msp.v ===== *)
(** * Mesh streams (msp_client.c)

    A stream is a pair of sockets, each with a window of packets to send and one of
    packets received. Packets and sockets are in memory, the windows and the list of
    sockets linked through pointers. The handlers of the application, the clock, the
    allocator and the system calls are parameters. *)

From S2P Require Import Prelude Prog DataFormats FdQueue.
Import Prog DataFormats.

Module Msp.

Definition FLAG_SHUTDOWN : Z := 1.
Definition FLAG_ACK : Z := 2.
Definition FLAG_FIRST : Z := 4.
Definition FLAG_STOP : Z := 8.
Definition RETRANSMIT_TIME : Z := 1500.
Definition HANDLER_KEEPALIVE : Z := 1000.
Definition MAX_WINDOW_SIZE : Z := 4.
Definition SALT_INVALID : Z := 0xdeadbeef.
Definition MSP_PAYLOAD_PREAMBLE_SIZE : nat := 5.
Definition MSP_STATE_UNINITIALISED : Z := 0.
Definition MSP_STATE_LISTENING : Z := 1.
Definition MSP_STATE_RECEIVED_DATA : Z := 2.
Definition MSP_STATE_RECEIVED_PACKET : Z := 4.
Definition MSP_STATE_SHUTDOWN_LOCAL : Z := 8.
Definition MSP_STATE_SHUTDOWN_REMOTE : Z := 16.
Definition MSP_STATE_CLOSED : Z := 32.
Definition MSP_STATE_ERROR : Z := 64.
Definition MSP_STATE_DATAOUT : Z := 128.
Definition MSP_STATE_STOPPED : Z := 256.
Definition MDP_FLAG_BIND : Z := 4.
Definition MDP_FLAG_CLOSE : Z := 8.
Definition MDP_FLAG_ERROR : Z := 16.
Definition MDP_LISTEN : Z := 0.
Definition TIME_MS_NEVER_HAS : Z := - 2 ^ 63.
Definition NEVER_RTT : Z := 0xFFFFFFFF.
Definition SID_ANY : list Z := replicate SID_SIZE 0.

(** [x & m] as a condition, [x | m] and [x & ~m]. *)
Definition has (m x : Z) : bool := negb (Z.land x m =? 0).
Definition set_bits (m x : Z) : Z := Z.lor x m.
Definition clear_bits (m x : Z) : Z := Z.land x (Z.lnot m).

(** ** Data *)

Record msp_packet := Packet {
  pk_next : option nat;
  pk_seq : Z;
  pk_flags : Z;
  pk_added : Z;
  pk_sent : Z;
  pk_payload : option (list Z);
  pk_len : nat;
  pk_offset : nat;
}.

Record msp_window := Window {
  packet_count : Z;
  base_rtt : Z;
  rtt : Z;
  next_seq : Z;
  last_activity : Z;
  w_head : option nat;
  w_tail : option nat;
}.

(** mdp_client.h *)
Record mdp_sockaddr := Sockaddr { addr_sid : list Z; addr_port : Z }.
#[export] Instance mdp_sockaddr_eq : EqDecision mdp_sockaddr.
Proof. solve_decision. Defined.
Record mdp_header := Header { local : mdp_sockaddr; remote : mdp_sockaddr; h_flags : Z; h_qos : Z; h_ttl : Z }.

Record msp_sock := Sock {
  s_next : option nat;
  s_prev : option nat;
  salt : Z;
  mdp_sock : Z;
  s_state : Z;
  last_state : Z;
  last_handler : Z;
  tx : msp_window;
  rx : msp_window;
  previous_ack : Z;
  next_ack : Z;
  s_handler : option nat;
  s_context : nat;
  s_header : mdp_header;
  timeout : Z;
  next_action : Z;
}.

(** A handle: a pointer and the salt the socket had. *)
Record msp_handle := Handle { ptr : option nat; h_salt : Z }.
Definition MSP_SOCKET_NULL : msp_handle := Handle None 0.

(** A datagram handed to the daemon, on a socket. *)
Record message := Message { msg_fd : Z; msg_header : mdp_header; msg_bytes : list Z }.
(** What [send_message] can return: the number of bytes, -1 with EAGAIN, or -1. *)
Inductive io := Sent | Again | Failed.

(** The packets and sockets in memory, the variables of msp_client.c, the datagrams
    sent so far, the number of calls to the system and the application's state. *)
Record msp (App : Type) := Msp {
  m_packets : gmap nat msp_packet;
  m_socks : gmap nat msp_sock;
  root : option nat;
  salt_counter : Z;
  daemon_addr : bool;
  m_out : list message;
  m_ticks : nat;
  m_app : App;
}.
Arguments Msp {App}.
Arguments m_packets {App}.
Arguments m_socks {App}.
Arguments root {App}.
Arguments salt_counter {App}.
Arguments daemon_addr {App}.
Arguments m_out {App}.
Arguments m_ticks {App}.
Arguments m_app {App}.

Definition set_pk_next (v : option nat) (p : msp_packet) : msp_packet :=
  Packet v (pk_seq p) (pk_flags p) (pk_added p) (pk_sent p) (pk_payload p) (pk_len p) (pk_offset p).
Definition set_pk_flags (v : Z) (p : msp_packet) : msp_packet :=
  Packet (pk_next p) (pk_seq p) v (pk_added p) (pk_sent p) (pk_payload p) (pk_len p) (pk_offset p).
Definition set_pk_sent (v : Z) (p : msp_packet) : msp_packet :=
  Packet (pk_next p) (pk_seq p) (pk_flags p) (pk_added p) v (pk_payload p) (pk_len p) (pk_offset p).
Definition set_pk_payload (v : option (list Z)) (p : msp_packet) : msp_packet :=
  Packet (pk_next p) (pk_seq p) (pk_flags p) (pk_added p) (pk_sent p) v (pk_len p) (pk_offset p).
Definition set_pk_offset (v : nat) (p : msp_packet) : msp_packet :=
  Packet (pk_next p) (pk_seq p) (pk_flags p) (pk_added p) (pk_sent p) (pk_payload p) (pk_len p) v.

Definition set_count (v : Z) (w : msp_window) : msp_window :=
  Window v (base_rtt w) (rtt w) (next_seq w) (last_activity w) (w_head w) (w_tail w).
Definition set_window_rtt (base r : Z) (w : msp_window) : msp_window :=
  Window (packet_count w) base r (next_seq w) (last_activity w) (w_head w) (w_tail w).
Definition set_next_seq (v : Z) (w : msp_window) : msp_window :=
  Window (packet_count w) (base_rtt w) (rtt w) v (last_activity w) (w_head w) (w_tail w).
Definition set_activity (v : Z) (w : msp_window) : msp_window :=
  Window (packet_count w) (base_rtt w) (rtt w) (next_seq w) v (w_head w) (w_tail w).
Definition set_head (v : option nat) (w : msp_window) : msp_window :=
  Window (packet_count w) (base_rtt w) (rtt w) (next_seq w) (last_activity w) v (w_tail w).
Definition set_tail (v : option nat) (w : msp_window) : msp_window :=
  Window (packet_count w) (base_rtt w) (rtt w) (next_seq w) (last_activity w) (w_head w) v.

Definition set_s_next (v : option nat) (s : msp_sock) : msp_sock :=
  Sock v (s_prev s) (salt s) (mdp_sock s) (s_state s) (last_state s) (last_handler s) (tx s) (rx s) (previous_ack s) (next_ack s) (s_handler s) (s_context s) (s_header s) (timeout s) (next_action s).
Definition set_s_prev (v : option nat) (s : msp_sock) : msp_sock :=
  Sock (s_next s) v (salt s) (mdp_sock s) (s_state s) (last_state s) (last_handler s) (tx s) (rx s) (previous_ack s) (next_ack s) (s_handler s) (s_context s) (s_header s) (timeout s) (next_action s).
Definition set_salt (v : Z) (s : msp_sock) : msp_sock :=
  Sock (s_next s) (s_prev s) v (mdp_sock s) (s_state s) (last_state s) (last_handler s) (tx s) (rx s) (previous_ack s) (next_ack s) (s_handler s) (s_context s) (s_header s) (timeout s) (next_action s).
Definition set_state (v : Z) (s : msp_sock) : msp_sock :=
  Sock (s_next s) (s_prev s) (salt s) (mdp_sock s) v (last_state s) (last_handler s) (tx s) (rx s) (previous_ack s) (next_ack s) (s_handler s) (s_context s) (s_header s) (timeout s) (next_action s).
Definition set_called (st t : Z) (s : msp_sock) : msp_sock :=
  Sock (s_next s) (s_prev s) (salt s) (mdp_sock s) (s_state s) st t (tx s) (rx s) (previous_ack s) (next_ack s) (s_handler s) (s_context s) (s_header s) (timeout s) (next_action s).
Definition set_window_tx (v : msp_window) (s : msp_sock) : msp_sock :=
  Sock (s_next s) (s_prev s) (salt s) (mdp_sock s) (s_state s) (last_state s) (last_handler s) v (rx s) (previous_ack s) (next_ack s) (s_handler s) (s_context s) (s_header s) (timeout s) (next_action s).
Definition set_window_rx (v : msp_window) (s : msp_sock) : msp_sock :=
  Sock (s_next s) (s_prev s) (salt s) (mdp_sock s) (s_state s) (last_state s) (last_handler s) (tx s) v (previous_ack s) (next_ack s) (s_handler s) (s_context s) (s_header s) (timeout s) (next_action s).
Definition set_previous_ack (v : Z) (s : msp_sock) : msp_sock :=
  Sock (s_next s) (s_prev s) (salt s) (mdp_sock s) (s_state s) (last_state s) (last_handler s) (tx s) (rx s) v (next_ack s) (s_handler s) (s_context s) (s_header s) (timeout s) (next_action s).
Definition set_next_ack (v : Z) (s : msp_sock) : msp_sock :=
  Sock (s_next s) (s_prev s) (salt s) (mdp_sock s) (s_state s) (last_state s) (last_handler s) (tx s) (rx s) (previous_ack s) v (s_handler s) (s_context s) (s_header s) (timeout s) (next_action s).
Definition set_handler (v : option nat) (c : nat) (s : msp_sock) : msp_sock :=
  Sock (s_next s) (s_prev s) (salt s) (mdp_sock s) (s_state s) (last_state s) (last_handler s) (tx s) (rx s) (previous_ack s) (next_ack s) v c (s_header s) (timeout s) (next_action s).
Definition set_header (v : mdp_header) (s : msp_sock) : msp_sock :=
  Sock (s_next s) (s_prev s) (salt s) (mdp_sock s) (s_state s) (last_state s) (last_handler s) (tx s) (rx s) (previous_ack s) (next_ack s) (s_handler s) (s_context s) v (timeout s) (next_action s).
Definition set_timeout (v : Z) (s : msp_sock) : msp_sock :=
  Sock (s_next s) (s_prev s) (salt s) (mdp_sock s) (s_state s) (last_state s) (last_handler s) (tx s) (rx s) (previous_ack s) (next_ack s) (s_handler s) (s_context s) (s_header s) v (next_action s).
Definition set_next_action (v : Z) (s : msp_sock) : msp_sock :=
  Sock (s_next s) (s_prev s) (salt s) (mdp_sock s) (s_state s) (last_state s) (last_handler s) (tx s) (rx s) (previous_ack s) (next_ack s) (s_handler s) (s_context s) (s_header s) (timeout s) v.
Definition set_local (v : mdp_sockaddr) (h : mdp_header) : mdp_header := Header v (remote h) (h_flags h) (h_qos h) (h_ttl h).
Definition set_remote (v : mdp_sockaddr) (h : mdp_header) : mdp_header := Header (local h) v (h_flags h) (h_qos h) (h_ttl h).
Definition set_hflags (v : Z) (h : mdp_header) : mdp_header := Header (local h) (remote h) v (h_qos h) (h_ttl h).

Section Msp.
Context {App : Type}.
Abbreviation code := (prog (msp App)).

Definition set_packets (v : gmap nat msp_packet) (m : msp App) : msp App :=
  Msp v (m_socks m) (root m) (salt_counter m) (daemon_addr m) (m_out m) (m_ticks m) (m_app m).
Definition set_socks (v : gmap nat msp_sock) (m : msp App) : msp App :=
  Msp (m_packets m) v (root m) (salt_counter m) (daemon_addr m) (m_out m) (m_ticks m) (m_app m).
Definition set_root (v : option nat) (m : msp App) : msp App :=
  Msp (m_packets m) (m_socks m) v (salt_counter m) (daemon_addr m) (m_out m) (m_ticks m) (m_app m).
Definition set_salt_counter (v : Z) (m : msp App) : msp App :=
  Msp (m_packets m) (m_socks m) (root m) v (daemon_addr m) (m_out m) (m_ticks m) (m_app m).
Definition set_daemon (v : bool) (m : msp App) : msp App :=
  Msp (m_packets m) (m_socks m) (root m) (salt_counter m) v (m_out m) (m_ticks m) (m_app m).
Definition put_out (v : message) (m : msp App) : msp App :=
  Msp (m_packets m) (m_socks m) (root m) (salt_counter m) (daemon_addr m) (m_out m ++ [v]) (m_ticks m) (m_app m).
Definition m_tick (m : msp App) : msp App :=
  Msp (m_packets m) (m_socks m) (root m) (salt_counter m) (daemon_addr m) (m_out m) (S (m_ticks m)) (m_app m).
Definition set_app (v : App) (m : msp App) : msp App :=
  Msp (m_packets m) (m_socks m) (root m) (salt_counter m) (daemon_addr m) (m_out m) (m_ticks m) v.

Definition the_packet (a : nat) : code msp_packet := λ m, match m_packets m !! a with Some p => Ret (p, m) | None => Undef end.
Definition upd_packet (a : nat) (g : msp_packet → msp_packet) : code unit := λ m,
  match m_packets m !! a with Some p => Ret (tt, set_packets (<[a := g p]> (m_packets m)) m) | None => Undef end.
Definition the_sock (a : nat) : code msp_sock := λ m, match m_socks m !! a with Some s => Ret (s, m) | None => Undef end.
Definition upd_sock (a : nat) (g : msp_sock → msp_sock) : code unit := λ m,
  match m_socks m !! a with Some s => Ret (tt, set_socks (<[a := g s]> (m_socks m)) m) | None => Undef end.
Definition assert_ (b : bool) : code unit := if b then mret tt else aborted.
Definition follow {A} (p : option A) : code A := match p with Some a => mret a | None => undefined end.

(** ** The system *)

Variable gettime_ms : nat → Z.
Variable malloc_ok : nat → bool.
Variable send_message : nat → io.
Variable make_local_sockaddr : bool.

Definition event : code nat := λ m, Ret (m_ticks m, m_tick m).
Definition gettime : code Z := n ← event; mret (gettime_ms n).
Definition emalloc : code bool := n ← event; mret (malloc_ok n).
Definition post (v : message) : code io :=
  n ← event;
  match send_message n with Sent => change (put_out v);; mret Sent | r => mret r end.

(** mdp_client.c *)
Definition mdp_send (fd : Z) (h : mdp_header) (payload : list Z) : code Z :=
  if negb make_local_sockaddr then mret (-1)
  else r ← post (Message fd h payload); mret (match r with Sent => 0 | _ => -1 end).

(** ** Handles *)

Definition msp_socket_is_valid (h : msp_handle) : code bool :=
  match ptr h with Some a => s ← the_sock a; mret (h_salt h =? salt s) | None => mret false end.
Definition handle_to_sock (h : msp_handle) : code nat :=
  match ptr h with Some a => s ← the_sock a; assert_ (h_salt h =? salt s);; mret a | None => aborted end.
Definition sock_to_handle (a : nat) (s : msp_sock) : msp_handle := Handle (Some a) (salt s).

Definition new_window (r : Z) : msp_window := Window 0 r r 0 TIME_MS_NEVER_HAS None None.
Definition NO_ADDR : mdp_sockaddr := Sockaddr SID_ANY 0.

Definition msp_socket (fd flags : Z) : code msp_handle :=
  if negb (flags =? 0) then mret MSP_SOCKET_NULL
  else
    ok ← emalloc;
    if negb (ok : bool) then mret MSP_SOCKET_NULL
    else
      c ← ask salt_counter;
      let c := u32 (c + 1) in
      let c := if c =? SALT_INVALID then u32 (c + 1) else c in
      change (set_salt_counter c);;
      t ← gettime;
      a ← ask (λ m, fresh (dom (m_socks m)));
      r ← ask root;
      change (λ m, set_socks (<[a := Sock r None c fd MSP_STATE_UNINITIALISED 0xFFFF TIME_MS_NEVER_HAS (new_window NEVER_RTT) (new_window 0) 0x7FFF 0 None 0
                                      (Header NO_ADDR NO_ADDR 0 0 0) (t + 10000) FdQueue.TIME_MS_NEVER_WILL]> (m_socks m)) m);;
      (match r with Some b => upd_sock b (set_s_prev (Some a)) | None => mret tt end);;
      change (set_root (Some a));;
      mret (Handle (Some a) c).

Definition msp_get_state (h : msp_handle) : code Z := a ← handle_to_sock h; s ← the_sock a; mret (s_state s).
Definition msp_socket_is_initialising (h : msp_handle) : code bool :=
  v ← msp_socket_is_valid h;
  if (v : bool) then st ← msp_get_state h; mret (st =? MSP_STATE_UNINITIALISED) else mret false.
Definition msp_socket_is_open (h : msp_handle) : code bool :=
  v ← msp_socket_is_valid h;
  if negb (v : bool) then mret false
  else
    st ← msp_get_state h;
    a ← handle_to_sock h;
    s ← the_sock a;
    mret ((negb (st =? MSP_STATE_UNINITIALISED) || negb (packet_count (tx s) =? 0)) && negb (has MSP_STATE_CLOSED st)).
Definition msp_socket_is_closed (h : msp_handle) : code bool :=
  v ← msp_socket_is_valid h;
  if negb (v : bool) then mret true else st ← msp_get_state h; mret (has MSP_STATE_CLOSED st).
Definition msp_socket_is_listening (h : msp_handle) : code bool :=
  v ← msp_socket_is_valid h;
  if negb (v : bool) then mret false
  else st ← msp_get_state h; mret (Z.land st (Z.lor MSP_STATE_CLOSED MSP_STATE_LISTENING) =? MSP_STATE_LISTENING).
Definition msp_socket_is_data (h : msp_handle) : code bool :=
  v ← msp_socket_is_valid h;
  if negb (v : bool) then mret false
  else st ← msp_get_state h; a ← handle_to_sock h; s ← the_sock a; mret (has MSP_STATE_DATAOUT st || negb (packet_count (tx s) =? 0)).
Definition socket_state_has (m : Z) (h : msp_handle) : code bool :=
  v ← msp_socket_is_valid h; if negb (v : bool) then mret false else st ← msp_get_state h; mret (has m st).
Definition msp_socket_is_connected : msp_handle → code bool := socket_state_has MSP_STATE_RECEIVED_PACKET.
Definition msp_socket_is_shutdown_local : msp_handle → code bool := socket_state_has MSP_STATE_SHUTDOWN_LOCAL.
Definition msp_socket_is_shutdown_remote : msp_handle → code bool := socket_state_has MSP_STATE_SHUTDOWN_REMOTE.

Fixpoint count_socks (fuel : nat) (p : option nat) : code Z :=
  match p, fuel with
  | None, _ => mret 0
  | Some _, O => undefined
  | Some a, S fuel => s ← the_sock a; n ← count_socks fuel (s_next s); mret (n + 1)
  end.
Definition sock_fuel : code nat := ask (λ m, size (m_socks m)).
Definition msp_socket_count : code Z := r ← ask root; fuel ← sock_fuel; count_socks fuel r.

(** ** Windows *)

(** [&sock->tx] or [&sock->rx]. *)
Inductive side := Tx | Rx.
Definition window (d : side) (s : msp_sock) : msp_window := match d with Tx => tx s | Rx => rx s end.
Definition set_window (d : side) (w : msp_window) (s : msp_sock) : msp_sock := match d with Tx => set_window_tx w s | Rx => set_window_rx w s end.
Definition the_window (a : nat) (d : side) : code msp_window := s ← the_sock a; mret (window d s).
Definition upd_window (a : nat) (d : side) (g : msp_window → msp_window) : code unit := upd_sock a (λ s, set_window d (g (window d s)) s).
Definition free_packet (a : nat) : code unit := p ← the_packet a; change (λ m, set_packets (delete a (m_packets m)) m).
Definition packet_fuel : code nat := ask (λ m, size (m_packets m)).

Fixpoint free_list (fuel : nat) (p : option nat) : code unit :=
  match p, fuel with
  | None, _ => mret tt
  | Some _, O => undefined
  | Some a, S fuel => k ← the_packet a; free_packet a;; free_list fuel (pk_next k)
  end.
(** [_tail] is left as it is. *)
Definition free_all_packets (a : nat) (d : side) : code unit :=
  w ← the_window a d;
  fuel ← packet_fuel;
  free_list fuel (w_head w);;
  upd_window a d (λ w, set_count 0 (set_head None w)).

(** The walk of [free_acked_packets]; [rtt] is the smallest round trip time so far. *)
Fixpoint free_acked_loop (fuel : nat) (a : nat) (d : side) (seq now rtt : Z) (p : option nat) : code (option nat * Z) :=
  match p, fuel with
  | None, _ => mret (None, rtt)
  | Some _, O => undefined
  | Some b, S fuel =>
      k ← the_packet b;
      if compare_wrapped_uint16 (pk_seq k) seq <=? 0 then
        let this := u32 (now - pk_sent k) in
        let rtt := if negb (pk_sent k =? TIME_MS_NEVER_HAS) && (this <? rtt) then this else rtt in
        free_packet b;;
        upd_window a d (λ w, set_count (u32 (packet_count w - 1)) w);;
        free_acked_loop fuel a d seq now rtt (pk_next k)
      else mret (Some b, rtt)
  end.
Definition free_acked_packets (a : nat) (d : side) (seq : Z) : code unit :=
  w ← the_window a d;
  match w_head w with
  | None => mret tt
  | Some h =>
      now ← gettime;
      fuel ← packet_fuel;
      r ← free_acked_loop fuel a d seq now NEVER_RTT (Some h);
      upd_window a d (set_head r.1);;
      (if negb (r.2 =? NEVER_RTT) then
         let t := if r.2 <? 10 then 10 else r.2 in
         upd_window a d (λ w, set_window_rtt (if t <? base_rtt w then t else base_rtt w) t w)
       else mret tt);;
      (if bool_decide (r.1 = None) then upd_window a d (set_tail None) else mret tt)
  end.

(** ** Handlers *)

(** [sock->handler(handle, state, payload, len, context)] *)
Variable handler : nat → msp_handle → Z → list Z → nat → code nat.

(** [now - sock->last_handler > HANDLER_KEEPALIVE], in 64 bits. *)
Definition keepalive (now last : Z) : code bool :=
  if now - last <? 2 ^ 63 then mret (HANDLER_KEEPALIVE <? now - last) else undefined.
Definition call_handler (a : nat) (payload : list Z) : code nat :=
  s ← the_sock a;
  now ← gettime;
  match s_handler s with
  | None => mret (length payload)
  | Some h =>
      due ← (if negb (bool_decide (length payload = 0%nat)) || negb (last_state s =? s_state s) then mret true else keepalive now (last_handler s));
      if (due : bool) then
        upd_sock a (set_called (s_state s) now);;
        n ← handler h (sock_to_handle a s) (s_state s) payload (s_context s);
        assert_ (bool_decide (n ≤ length payload)%nat);;
        mret n
      else mret (length payload)
  end.

(** ** Closing *)

Definition msp_free (a : nat) : code unit :=
  upd_sock a (λ s, set_state (set_bits MSP_STATE_CLOSED (s_state s)) s);;
  s ← the_sock a;
  (match s_prev s with Some p => upd_sock p (set_s_next (s_next s)) | None => change (set_root (s_next s)) end);;
  (match s_next s with Some n => upd_sock n (set_s_prev (s_prev s)) | None => mret tt end);;
  free_all_packets a Tx;;
  free_all_packets a Rx;;
  call_handler a [];;
  upd_sock a (set_salt SALT_INVALID);;
  change (λ m, set_socks (delete a (m_socks m)) m).

Definition msp_stop (h : msp_handle) : code unit :=
  a ← handle_to_sock h;
  s ← the_sock a;
  if has MSP_STATE_STOPPED (s_state s) then mret tt
  else
    let st := clear_bits MSP_STATE_DATAOUT (set_bits (Z.lor MSP_STATE_STOPPED MSP_STATE_CLOSED) (s_state s)) in
    upd_sock a (set_state st);;
    if negb (addr_port (remote (s_header s)) =? 0) && negb (has MSP_STATE_LISTENING st)
    then mdp_send (mdp_sock s) (s_header s) [FLAG_STOP];; mret tt
    else mret tt.

Fixpoint close_loop (fuel : nat) (fd : Z) (p : option nat) : code unit :=
  match p, fuel with
  | None, _ => mret tt
  | Some _, O => undefined
  | Some a, S fuel =>
      s ← the_sock a;
      (if mdp_sock s =? fd then msp_free a else mret tt);;
      close_loop fuel fd (s_next s)
  end.
Definition msp_close_all (fd : Z) : code unit := r ← ask root; fuel ← sock_fuel; close_loop fuel fd r.

(** ** Setting up *)

Definition msp_set_handler (h : msp_handle) (f : option nat) (context : nat) : code unit := a ← handle_to_sock h; upd_sock a (set_handler f context).
Definition msp_set_local (h : msp_handle) (addr : mdp_sockaddr) : code unit :=
  a ← handle_to_sock h;
  s ← the_sock a;
  assert_ (s_state s =? MSP_STATE_UNINITIALISED);;
  upd_sock a (λ s, set_header (set_local addr (s_header s)) s).
Definition msp_connect (h : msp_handle) (addr : mdp_sockaddr) : code unit :=
  a ← handle_to_sock h;
  s ← the_sock a;
  assert_ (s_state s =? MSP_STATE_UNINITIALISED);;
  upd_sock a (λ s, set_state (set_bits MSP_STATE_DATAOUT (s_state s)) (set_header (set_remote addr (s_header s)) s));;
  t ← gettime;
  upd_sock a (λ s, set_next_action (t + 10) (set_next_ack (t + 10) s)).
Definition msp_listen (h : msp_handle) : code Z :=
  a ← handle_to_sock h;
  s ← the_sock a;
  assert_ (s_state s =? MSP_STATE_UNINITIALISED);;
  assert_ (negb (addr_port (local (s_header s)) =? 0));;
  upd_sock a (λ s, set_state (set_bits MSP_STATE_LISTENING (s_state s)) (set_header (set_hflags (set_bits MDP_FLAG_BIND (h_flags (s_header s))) (s_header s)) s));;
  s ← the_sock a;
  r ← mdp_send (mdp_sock s) (s_header s) [];
  if r =? -1 then upd_sock a (λ s, set_state (set_bits (Z.lor MSP_STATE_ERROR MSP_STATE_CLOSED) (s_state s)) s);; mret (-1)
  else
    t ← gettime;
    upd_sock a (λ s, set_next_action (t + 1000) (set_timeout (t + 1000) s));;
    mret 0.
Definition msp_get_local (h : msp_handle) : code mdp_sockaddr := a ← handle_to_sock h; s ← the_sock a; mret (local (s_header s)).
Definition msp_get_remote (h : msp_handle) : code mdp_sockaddr := a ← handle_to_sock h; s ← the_sock a; mret (remote (s_header s)).

(** ** Adding packets *)

(** [struct msp_packet **insert_pos]: the head of the window or the link of a packet. *)
Inductive place := AtHead | After (b : nat).
Definition read_place (a : nat) (d : side) (l : place) : code (option nat) :=
  match l with AtHead => w ← the_window a d; mret (w_head w) | After b => k ← the_packet b; mret (pk_next k) end.
Definition write_place (a : nat) (d : side) (l : place) (v : option nat) : code unit :=
  match l with AtHead => upd_window a d (set_head v) | After b => upd_packet b (set_pk_next v) end.

(** The outcome of the search: a duplicate, an ambiguous number, or the place. *)
Inductive search := Duplicate | Ambiguous | Insert (l : place).

Fixpoint find_place (fuel : nat) (a : nat) (d : side) (seq : Z) (l : place) : code search :=
  match fuel with
  | O => undefined
  | S fuel =>
      v ← read_place a d l;
      b ← follow v;
      k ← the_packet b;
      if compare_wrapped_uint16 (pk_seq k) seq <? 0 then find_place fuel a d seq (After b)
      else mret (if pk_seq k =? seq then Duplicate else Insert l)
  end.
Definition search_place (a : nat) (d : side) (seq : Z) : code search :=
  w ← the_window a d;
  match w_head w with
  | None => mret (Insert AtHead)
  | Some h =>
      t ← follow (w_tail w);
      k ← the_packet t;
      if pk_seq k =? seq then mret Duplicate
      else if compare_wrapped_uint16 (pk_seq k) seq <? 0 then
        k ← the_packet h;
        mret (if 0 <? compare_wrapped_uint16 (pk_seq k) seq then Ambiguous else Insert (After t))
      else fuel ← packet_fuel; find_place fuel a d seq AtHead
  end.

(** When there is no memory for the payload the packet is freed, still linked. *)
Definition add_packet (a : nat) (d : side) (seq flags : Z) (payload : option (list Z)) (len : nat) : code Z :=
  f ← search_place a d seq;
  match f with
  | Duplicate => mret 0
  | Ambiguous => mret (-1)
  | Insert l =>
      ok ← emalloc;
      if negb (ok : bool) then mret (-1)
      else
        b ← ask (λ m, fresh (dom (m_packets m)));
        n ← read_place a d l;
        change (λ m, set_packets (<[b := Packet n 0 0 0 0 None 0 0]> (m_packets m)) m);;
        write_place a d l (Some b);;
        (if bool_decide (n = None) then upd_window a d (set_tail (Some b)) else mret tt);;
        t ← gettime;
        upd_packet b (λ k, Packet (pk_next k) seq flags t TIME_MS_NEVER_HAS None len 0);;
        ok ← (match payload with
              | Some bs =>
                  if bool_decide (len = 0%nat) then mret true
                  else
                    ok ← emalloc;
                    if (ok : bool) then upd_packet b (set_pk_payload (Some (take len bs)));; mret true else free_packet b;; mret false
              | None => mret true
              end);
        if negb (ok : bool) then mret (-1)
        else upd_window a d (λ w, set_count (u32 (packet_count w + 1)) w);; mret 1
  end.

(** ** Sending *)

Definition need_daemon : code bool :=
  d ← ask daemon_addr;
  if (d : bool) then mret true else if make_local_sockaddr then change (set_daemon true);; mret true else mret false.
Definition ack_flags (s : msp_sock) (flags : Z) : Z :=
  let flags := if has MSP_STATE_RECEIVED_DATA (s_state s) then set_bits FLAG_ACK flags else flags in
  if negb (has MSP_STATE_RECEIVED_PACKET (s_state s)) then set_bits FLAG_FIRST flags else flags.
Definition last_seq (s : msp_sock) : Z := u16 (next_seq (rx s) - 1).

Definition msp_send_packet (a b : nat) : code Z :=
  s ← the_sock a;
  assert_ (negb (addr_port (remote (s_header s)) =? 0));;
  ok ← need_daemon;
  if negb (ok : bool) then mret (-1)
  else
    k ← the_packet b;
    let msp_header := [ack_flags s (pk_flags k)] ++ write_uint16 (last_seq s) ++ write_uint16 (pk_seq k) in
    upd_sock a (set_previous_ack (last_seq s));;
    let body := match pk_payload k with Some bs => if bool_decide (pk_len k = 0%nat) then [] else bs | None => [] end in
    r ← post (Message (mdp_sock s) (s_header s) (msp_header ++ body));
    match r with
    | Again => mret 1
    | Failed => msp_close_all (mdp_sock s);; mret (-1)
    | Sent =>
        t ← gettime;
        upd_packet b (set_pk_sent t);;
        upd_window a Tx (set_activity t);;
        upd_sock a (set_next_ack (t + RETRANSMIT_TIME));;
        mret 0
    end.

Definition send_ack (a : nat) : code Z :=
  s ← the_sock a;
  assert_ (negb (addr_port (remote (s_header s)) =? 0));;
  ok ← need_daemon;
  if negb (ok : bool) then mret (-1)
  else
    r ← post (Message (mdp_sock s) (s_header s) ([ack_flags s 0] ++ write_uint16 (last_seq s)));
    match r with
    | Again => mret (-1)
    | Failed => msp_close_all (mdp_sock s);; mret (-1)
    | Sent =>
        upd_sock a (set_previous_ack (last_seq s));;
        t ← gettime;
        upd_window a Tx (set_activity t);;
        upd_sock a (set_next_ack (t + RETRANSMIT_TIME));;
        mret 0
    end.

Definition msp_send (h : msp_handle) (payload : list Z) : code Z :=
  a ← handle_to_sock h;
  s ← the_sock a;
  assert_ (negb (has MSP_STATE_LISTENING (s_state s)));;
  assert_ (negb (addr_port (remote (s_header s)) =? 0));;
  assert_ (negb (has MSP_STATE_SHUTDOWN_LOCAL (s_state s)));;
  if has MSP_STATE_CLOSED (s_state s) || (MAX_WINDOW_SIZE <? packet_count (tx s)) then mret (-1)
  else
    r ← add_packet a Tx (next_seq (tx s)) 0 (Some payload) (length payload);
    if r =? -1 then mret (-1)
    else
      upd_window a Tx (λ w, set_next_seq (u16 (next_seq w + 1)) w);;
      s ← the_sock a;
      (if MAX_WINDOW_SIZE <=? packet_count (tx s) then upd_sock a (λ s, set_state (clear_bits MSP_STATE_DATAOUT (s_state s)) s) else mret tt);;
      t ← gettime;
      upd_sock a (set_next_action t);;
      mret (Z.of_nat (length payload)).

Definition msp_shutdown (h : msp_handle) : code Z :=
  a ← handle_to_sock h;
  s ← the_sock a;
  assert_ (negb (has MSP_STATE_LISTENING (s_state s)));;
  assert_ (negb (has MSP_STATE_SHUTDOWN_LOCAL (s_state s)));;
  unsent ← (match w_tail (tx s) with Some b => k ← the_packet b; mret (pk_sent k =? TIME_MS_NEVER_HAS) | None => mret false end);
  r ← (if (unsent : bool) then b ← follow (w_tail (tx s)); upd_packet b (λ k, set_pk_flags (set_bits FLAG_SHUTDOWN (pk_flags k)) k);; mret 0
       else
         r ← add_packet a Tx (next_seq (tx s)) FLAG_SHUTDOWN None 0;
         if r =? -1 then mret (-1) else upd_window a Tx (λ w, set_next_seq (u16 (next_seq w + 1)) w);; mret 0);
  if r =? -1 then mret (-1)
  else
    upd_sock a (λ s, set_state (clear_bits MSP_STATE_DATAOUT (set_bits MSP_STATE_SHUTDOWN_LOCAL (s_state s))) s);;
    t ← gettime;
    upd_sock a (set_next_action t);;
    mret 0.

(** ** Processing *)

Fixpoint bind_loop (fuel : nat) (fd : Z) (p : option nat) : code bool :=
  match p, fuel with
  | None, _ => mret false
  | Some _, O => undefined
  | Some a, S fuel =>
      s ← the_sock a;
      if (mdp_sock s =? fd) && has MDP_FLAG_BIND (h_flags (s_header s)) then mret true else bind_loop fuel fd (s_next s)
  end.
Definition pending_bind (fd : Z) : code bool := r ← ask root; fuel ← sock_fuel; bind_loop fuel fd r.

(** Packets in order are given to the handler; it may be called several times for one
    packet, as long as it takes something. *)
Fixpoint deliver_loop (fuel : nat) (a : nat) (p : option nat) : code unit :=
  match p, fuel with
  | None, _ => mret tt
  | Some _, O => undefined
  | Some b, S fuel =>
      k ← the_packet b;
      s ← the_sock a;
      if negb (pk_seq k =? next_seq (rx s)) then mret tt
      else
        (if has FLAG_SHUTDOWN (pk_flags k) then upd_sock a (λ s, set_state (set_bits MSP_STATE_SHUTDOWN_REMOTE (s_state s)) s) else mret tt);;
        assert_ (bool_decide (pk_offset k ≤ pk_len k)%nat);;
        n ← call_handler a (drop (pk_offset k) (default [] (pk_payload k)));
        k ← the_packet b;
        if bool_decide (n = 0%nat) && bool_decide (pk_offset k < pk_len k)%nat then mret tt
        else
          upd_packet b (λ k, set_pk_offset (pk_offset k + n) k);;
          k ← the_packet b;
          if bool_decide (pk_offset k < pk_len k)%nat then deliver_loop fuel a (Some b)
          else
            assert_ (bool_decide (pk_offset k = pk_len k));;
            upd_window a Rx (λ w, set_next_seq (u16 (next_seq w + 1)) w);;
            deliver_loop fuel a (pk_next k)
  end.
(** Enough rounds for the packets in memory. *)
Definition deliver_fuel : code nat := ask (λ m, map_fold (λ _ k n, S (pk_len k) + n)%nat 0%nat (m_packets m)).

Fixpoint count_packets (fuel : nat) (p : option nat) : code Z :=
  match p, fuel with
  | None, _ => mret 0
  | Some _, O => undefined
  | Some b, S fuel => k ← the_packet b; n ← count_packets fuel (pk_next k); mret (n + 1)
  end.

(** [None]: all packets that can be sent have been; [Some r]: [process_sock] returns. *)
Fixpoint transmit_loop (fuel : nat) (a : nat) (now : Z) (p : option nat) : code (option Z) :=
  match p, fuel with
  | None, _ => mret None
  | Some _, O => undefined
  | Some b, S fuel =>
      k ← the_packet b;
      let go_on : code (option Z) :=
        k ← the_packet b;
        s ← the_sock a;
        (if pk_sent k + RETRANSMIT_TIME <? next_action s then upd_sock a (set_next_action (pk_sent k + RETRANSMIT_TIME)) else mret tt);;
        transmit_loop fuel a now (pk_next k) in
      if pk_sent k + RETRANSMIT_TIME <? now then
        s ← the_sock a;
        wait ← (if addr_port (local (s_header s)) =? 0 then
                  w ← pending_bind (mdp_sock s);
                  if (w : bool) then mret true
                  else upd_sock a (λ s, set_header (set_hflags (set_bits MDP_FLAG_BIND (h_flags (s_header s))) (s_header s)) s);; mret false
                else mret false);
        if (wait : bool) then mret None
        else
          r ← msp_send_packet a b;
          if r =? -1 then mret (Some (-1)) else if negb (r =? 0) then mret None else go_on
      else go_on
  end.

(** The acknowledgement, the next action and the end of the connection. *)
Definition finish_sock (a : nat) (now : Z) : code Z :=
  s ← the_sock a;
  r ← (if next_ack s <? now then
         bound ← (if addr_port (local (s_header s)) =? 0 then
                    if has MDP_FLAG_BIND (h_flags (s_header s)) then mret false
                    else upd_sock a (λ s, set_header (set_hflags (set_bits MDP_FLAG_BIND (h_flags (s_header s))) (s_header s)) s);; mret true
                  else mret true);
         if negb (bound : bool) then mret (Some 0)
         else r ← send_ack a; mret (if r =? -1 then Some (-1) else None)
       else mret None);
  match r with
  | Some r => mret r
  | None =>
      s ← the_sock a;
      (if next_ack s <? next_action s then upd_sock a (set_next_action (next_ack s)) else mret tt);;
      s ← the_sock a;
      (* [sock->rx.next_seq -1] is an int here *)
      if has MSP_STATE_SHUTDOWN_LOCAL (s_state s) && has MSP_STATE_SHUTDOWN_REMOTE (s_state s) && (packet_count (tx s) =? 0) &&
         (packet_count (rx s) =? 0) && (previous_ack s =? next_seq (rx s) - 1)
      then upd_sock a (λ s, set_state (set_bits MSP_STATE_CLOSED (s_state s)) s);; mret (-1)
      else mret 0
  end.

Definition check_window (a : nat) : code unit :=
  s ← the_sock a;
  fuel ← packet_fuel;
  n ← count_packets fuel (w_head (tx s));
  assert_ (n =? packet_count (tx s));;
  if (MAX_WINDOW_SIZE <=? n) || has (Z.lor MSP_STATE_CLOSED MSP_STATE_SHUTDOWN_LOCAL) (s_state s)
  then assert_ (negb (has MSP_STATE_DATAOUT (s_state s)))
  else assert_ (has MSP_STATE_DATAOUT (s_state s)).

Definition process_sock (a : nat) : code Z :=
  now ← gettime;
  s ← the_sock a;
  if timeout s <? now then upd_sock a (λ s, set_state (set_bits (Z.lor MSP_STATE_CLOSED MSP_STATE_ERROR) (s_state s)) s);; mret (-1)
  else
    upd_sock a (λ s, set_next_action (timeout s) s);;
    if has MSP_STATE_LISTENING (s_state s) then mret 0
    else
      fuel ← deliver_fuel;
      deliver_loop fuel a (w_head (rx s));;
      s ← the_sock a;
      free_acked_packets a Rx (last_seq s);;
      call_handler a [];;
      s ← the_sock a;
      (if bool_decide (is_Some (s_handler s)) && (last_handler s + HANDLER_KEEPALIVE <? next_action s)
       then upd_sock a (set_next_action (last_handler s + HANDLER_KEEPALIVE)) else mret tt);;
      check_window a;;
      s ← the_sock a;
      fuel ← packet_fuel;
      r ← transmit_loop fuel a now (w_head (tx s));
      match r with Some r => mret r | None => finish_sock a now end.

Fixpoint release_loop (fuel : nat) (a : nat) (fd port : Z) (p : option nat) : code bool :=
  match p, fuel with
  | None, _ => mret false
  | Some _, O => undefined
  | Some o, S fuel =>
      s ← the_sock o;
      if negb (bool_decide (o = a)) && (mdp_sock s =? fd) && (addr_port (local (s_header s)) =? port) then mret true
      else release_loop fuel a fd port (s_next s)
  end.
Definition msp_release (a : nat) : code unit :=
  s ← the_sock a;
  if addr_port (local (s_header s)) =? 0 then mret tt
  else
    r ← ask root;
    fuel ← sock_fuel;
    shared ← release_loop fuel a (mdp_sock s) (addr_port (local (s_header s))) r;
    if (shared : bool) then mret tt
    else
      mdp_send (mdp_sock s) (Header (local (s_header s)) (Sockaddr SID_ANY MDP_LISTEN) MDP_FLAG_CLOSE 0 0) [];;
      upd_sock a (λ s, set_header (set_local NO_ADDR (s_header s)) s).

(** [process_sock(sock); sock = sock->_next;] *)
Fixpoint process_loop (fuel : nat) (p : option nat) : code unit :=
  match p, fuel with
  | None, _ => mret tt
  | Some _, O => undefined
  | Some a, S fuel => process_sock a;; s ← the_sock a; process_loop fuel (s_next s)
  end.
Fixpoint sweep_loop (fuel : nat) (next : Z) (p : option nat) : code Z :=
  match p, fuel with
  | None, _ => mret next
  | Some _, O => undefined
  | Some a, S fuel =>
      s ← the_sock a;
      if has MSP_STATE_CLOSED (s_state s) then msp_release a;; msp_free a;; sweep_loop fuel next (s_next s)
      else sweep_loop fuel (if next_action s <? next then next_action s else next) (s_next s)
  end.
(** Sets [*next_action]. *)
Definition msp_processing : code Z :=
  r ← ask root;
  fuel ← sock_fuel;
  process_loop fuel r;;
  r ← ask root;
  fuel ← sock_fuel;
  sweep_loop fuel FdQueue.TIME_MS_NEVER_WILL r.

(** ** Receiving *)

(** The walk over the sockets: the reply to a bind, or the connection and the
    listening socket for the packet. *)
Inductive match_ := Bound | Found (sock listen : option nat).
Definition listens (s : msp_sock) (h : mdp_header) : bool :=
  (addr_port (local (s_header s)) =? addr_port (local h)) &&
  (bool_decide (addr_sid (local (s_header s)) = SID_ANY) || bool_decide (addr_sid (local (s_header s)) = addr_sid (local h))).
Fixpoint match_loop (fuel : nat) (fd : Z) (h : mdp_header) (listen p : option nat) : code match_ :=
  match p, fuel with
  | None, _ => mret (Found None listen)
  | Some _, O => undefined
  | Some a, S fuel =>
      s ← the_sock a;
      if negb (mdp_sock s =? fd) then match_loop fuel fd h listen (s_next s)
      else if has MDP_FLAG_BIND (h_flags (s_header s)) && has MDP_FLAG_BIND (h_flags h) then
        upd_sock a (λ s, set_header (set_hflags (clear_bits MDP_FLAG_BIND (h_flags (s_header s))) (set_local (local h) (s_header s))) s);;
        (if has MSP_STATE_LISTENING (s_state s)
         then upd_sock a (λ s, set_next_action FdQueue.TIME_MS_NEVER_WILL (set_timeout FdQueue.TIME_MS_NEVER_WILL s))
         else t ← gettime; upd_sock a (set_next_action t));;
        mret Bound
      else if has MSP_STATE_LISTENING (s_state s) then match_loop fuel fd h (if listens s h then Some a else listen) (s_next s)
      else if bool_decide (remote (s_header s) = remote h) && bool_decide (local (s_header s) = local h) then mret (Found (Some a) listen)
      else match_loop fuel fd h listen (s_next s)
  end.

(** The connection a packet is for: one that exists, or a new one on a socket that
    listens. *)
Definition accept (h : mdp_header) (sock listen : option nat) (flags : Z) : code (option nat) :=
  match sock, listen with
  | Some a, _ => mret (Some a)
  | None, Some l =>
      if has FLAG_FIRST flags then
        s ← the_sock l;
        n ← msp_socket (mdp_sock s) 0;
        match ptr n with
        | Some a =>
            s ← the_sock l;
            upd_sock a (λ x, set_handler (s_handler s) (s_context s) (set_header h x));;
            mret (Some a)
        | None => mret None
        end
      else mret None
  | None, None => mret None
  end.

(** What a packet does to its connection. *)
Definition receive (a : nat) (flags : Z) (payload : list Z) : code Z :=
  t ← gettime;
  upd_window a Rx (set_activity t);;
  upd_sock a (λ s, set_state (set_bits MSP_STATE_RECEIVED_PACKET (s_state s)) (set_timeout (t + 10000) s));;
  if has FLAG_STOP flags then s ← the_sock a; msp_stop (sock_to_handle a s);; mret 0
  else if bool_decide (length payload < 3)%nat then mret 0
  else
    (if has FLAG_ACK flags then n ← lift (read_uint16 (drop 1 payload)); free_acked_packets a Tx n else mret tt);;
    s ← the_sock a;
    (if (packet_count (tx s) <? MAX_WINDOW_SIZE) && negb (has MSP_STATE_SHUTDOWN_LOCAL (s_state s)) && negb (has MSP_STATE_CLOSED (s_state s))
     then upd_sock a (λ s, set_state (set_bits MSP_STATE_DATAOUT (s_state s)) s) else mret tt);;
    t ← gettime;
    upd_sock a (set_next_action t);;
    if bool_decide (length payload < MSP_PAYLOAD_PREAMBLE_SIZE)%nat then mret 0
    else
      upd_sock a (λ s, set_state (set_bits MSP_STATE_RECEIVED_DATA (s_state s)) s);;
      n ← lift (read_uint16 (drop 3 payload));
      r ← add_packet a Rx n flags (Some (drop MSP_PAYLOAD_PREAMBLE_SIZE payload)) (length payload - MSP_PAYLOAD_PREAMBLE_SIZE);
      (if r =? 1 then t ← gettime; upd_sock a (set_next_ack t) else mret tt);;
      mret 0.

Definition process_packet (fd : Z) (h : mdp_header) (payload : list Z) : code Z :=
  if has MDP_FLAG_ERROR (h_flags h) then mret (-1)
  else
    r ← ask root;
    fuel ← sock_fuel;
    f ← match_loop fuel fd h None r;
    match f, payload with
    | Bound, _ => mret 0
    | Found _ _, [] => mret (-1)
    | Found sock listen, flags :: _ =>
        if bool_decide (sock = None) && has FLAG_STOP flags then mret 0
        else
          c ← accept h sock listen flags;
          match c with
          | None => mdp_send fd h [FLAG_STOP];; mret 0
          | Some a => receive a flags payload
          end
    end.

(** [mdp_recv] into an array of 1200 bytes: -1, or a datagram, of which the bytes that do
    not fit are lost. *)
Definition msp_recv (fd : Z) (arrived : option (mdp_header * list Z)) : code Z :=
  match arrived with None => mret (-1) | Some (h, payload) => process_packet fd h (take 1200 payload) end.

End Msp.
End Msp.
