(* ===== verification/MspSpec.v ===== *)
(** * Windows of packets as sequences

    A window links its packets in the order of their numbers, which count modulo
    2^16. Here a packet is known by its true number; what is added goes to its place,
    and what is acknowledged is a prefix. *)

From stdpp Require Import sorting.
From S2P Require Import Prelude Prog DataFormats FdQueue FdQueueSpec Msp.
Import Prog DataFormats FdQueueSpec Msp.

Module MspSpec.

(** ** Numbers *)

Definition seqn (k : nat) : Z := Z.of_nat k mod 2 ^ 16.
Definition near (j k : nat) : Prop := Z.abs (Z.of_nat j - Z.of_nat k) < 2 ^ 15.

Lemma compare_near j k : near j k → compare_wrapped_uint16 (seqn j) (seqn k) = Z.of_nat j - Z.of_nat k.
Proof.
  unfold near, compare_wrapped_uint16, wraps, seqn. intros H. change (16 - 1) with 15.
  rewrite <- Zplus_mod_idemp_l, <- Zminus_mod, Zplus_mod_idemp_l, Z.mod_small by lia. lia.
Qed.
Lemma seqn_near j k : near j k → seqn j = seqn k → j = k.
Proof.
  intros H E. pose proof (compare_near j k H) as Hc. rewrite E in Hc. unfold compare_wrapped_uint16 in Hc. rewrite Z.sub_diag in Hc. change (i16 0) with 0 in Hc. lia.
Qed.
Lemma seqn_range k : 0 ≤ seqn k < 2 ^ 16.
Proof. unfold seqn. apply Z.mod_pos_bound. lia. Qed.
Lemma seqn_succ k : u16 (seqn k + 1) = seqn (S k).
Proof. unfold seqn, wrapu. rewrite Zplus_mod_idemp_l. f_equal. lia. Qed.

(** ** Running code *)

Section Spec.
Context {App : Type}.
Implicit Types m : msp App.

Lemma runs_packet a p m (Q : msp_packet → msp App → Prop) : m_packets m !! a = Some p → Q p m → runs (the_packet a) m Q.
Proof. intros E HQ. exists p, m. unfold the_packet. by rewrite E. Qed.
Lemma runs_upd_packet a p g m (Q : unit → msp App → Prop) : m_packets m !! a = Some p → Q tt (set_packets (<[a := g p]> (m_packets m)) m) → runs (upd_packet a g) m Q.
Proof. intros E HQ. eexists tt, _. unfold upd_packet. by rewrite E. Qed.
Lemma runs_sock a s m (Q : msp_sock → msp App → Prop) : m_socks m !! a = Some s → Q s m → runs (the_sock a) m Q.
Proof. intros E HQ. exists s, m. unfold the_sock. by rewrite E. Qed.
Lemma runs_upd_sock a s g m (Q : unit → msp App → Prop) : m_socks m !! a = Some s → Q tt (set_socks (<[a := g s]> (m_socks m)) m) → runs (upd_sock a g) m Q.
Proof. intros E HQ. eexists tt, _. unfold upd_sock. by rewrite E. Qed.
Lemma runs_assert b m (Q : unit → msp App → Prop) : b = true → Q tt m → runs (assert_ b) m Q.
Proof. intros -> ?. by apply runs_ret. Qed.
Lemma runs_follow {A} (o : option A) x m (Q : A → msp App → Prop) : o = Some x → Q x m → runs (follow o) m Q.
Proof. intros -> ?. by apply runs_ret. Qed.
Lemma runs_event m (Q : nat → msp App → Prop) : Q (m_ticks m) (m_tick m) → runs event m Q.
Proof. intros HQ. by eexists _, _. Qed.
Lemma runs_window a d s m (Q : msp_window → msp App → Prop) : m_socks m !! a = Some s → Q (window d s) m → runs (the_window a d) m Q.
Proof. intros E HQ. unfold the_window. apply runs_bind, (runs_sock _ s); [done|]. by apply runs_ret. Qed.
Lemma runs_upd_window a d s g m (Q : unit → msp App → Prop) : m_socks m !! a = Some s →
  Q tt (set_socks (<[a := set_window d (g (window d s)) s]> (m_socks m)) m) → runs (upd_window a d g) m Q.
Proof. intros E HQ. by apply (runs_upd_sock _ s). Qed.

Lemma window_set d w s : window d (set_window d w s) = w.
Proof. by destruct d. Qed.
Lemma set_window_set d w w' s : set_window d w (set_window d w' s) = set_window d w s.
Proof. by destruct d. Qed.
Lemma set_window_id d s : set_window d (window d s) s = s.
Proof. by destruct d, s. Qed.

(** What the code on one window leaves alone: the state but for one socket, the
    packets and the count of events. *)
Record steady (a : nat) m m' : Prop := {
  sd_root : root m' = root m;
  sd_out : m_out m' = m_out m;
  sd_app : m_app m' = m_app m;
  sd_salt : salt_counter m' = salt_counter m;
  sd_socks b : b ≠ a → m_socks m' !! b = m_socks m !! b;
}.
Lemma steady_refl a m : steady a m m.
Proof. by split. Qed.
Lemma steady_trans a m1 m2 m3 : steady a m1 m2 → steady a m2 m3 → steady a m1 m3.
Proof. intros [H1 H2 H3 H4 H5] [G1 G2 G3 G4 G5]. split; try congruence. intros b Hb. by rewrite G5, H5. Qed.

(** ** Representation *)

Definition links (pk : gmap nat msp_packet) (b : nat) : option (option nat) := pk_next <$> pk !! b.

(** The window has the packets at the addresses [l]. *)
Record linked (pk : gmap nat msp_packet) (w : msp_window) (l : list nat) : Prop := {
  lk_head : w_head w = head l;
  lk_tail : w_tail w = last l;
  lk_count : packet_count w = Z.of_nat (length l) ∧ Z.of_nat (length l) < 2 ^ 32;
  lk_seg : seg (links pk) (head l) l None;
  lk_nodup : NoDup l;
}.

(** The packets, with their true numbers, in order. *)
Definition numbered (pk : gmap nat msp_packet) (e : nat * nat) : Prop := ∃ p, pk !! e.1 = Some p ∧ pk_seq p = seqn e.2.
Definition ordered (l : list (nat * nat)) : Prop := StronglySorted (λ x y, (x.2 < y.2)%nat) l.
Record window_rep (pk : gmap nat msp_packet) (w : msp_window) (l : list (nat * nat)) : Prop := {
  wr_linked : linked pk w l.*1;
  wr_numbered : Forall (numbered pk) l;
  wr_ordered : ordered l;
}.

Lemma linked_live pk w l b : linked pk w l → b ∈ l → ∃ p, pk !! b = Some p.
Proof. intros Hl Hb. destruct (seg_in _ _ _ _ _ (lk_seg _ _ _ Hl) Hb) as [x Hx]. unfold links in Hx. apply fmap_Some in Hx as (p & Hp & _). by exists p. Qed.
Lemma linked_size pk w l : linked pk w l → (length l ≤ size pk)%nat.
Proof.
  intros Hl. rewrite <- (size_dom pk), <- (size_list_to_set (C := gset nat) l) by apply Hl. apply subseteq_size. intros a Ha%elem_of_list_to_set.
  apply elem_of_dom. destruct (linked_live _ _ _ a Hl Ha) as [p Hp]. by exists p.
Qed.
Lemma linked_ext pk pk' w l : (∀ b, b ∈ l → links pk' b = links pk b) → linked pk w l → linked pk' w l.
Proof. intros H [H1 H2 H3 H4 H5]. split; try done. by apply (seg_ext (links pk)). Qed.
(** The packet after a given one. *)
Lemma window_next pk w p a s : linked pk w (p ++ a :: s) → ∃ k, pk !! a = Some k ∧ pk_next k = head s.
Proof.
  intros [_ _ _ Hs _]. apply seg_app in Hs as (m & _ & -> & n & Hn & Hs). unfold links in Hn. apply fmap_Some in Hn as (k & Hk & ->). exists k. split; [done|]. by apply seg_head in Hs.
Qed.

(** ** Acknowledged packets *)

(** Those up to the number [j], and the others. *)
Definition acked_upto (j : nat) (l : list (nat * nat)) : list (nat * nat) := filter (λ e, (e.2 ≤ j)%nat) l.
Definition after (j : nat) (l : list (nat * nat)) : list (nat * nat) := filter (λ e, (j < e.2)%nat) l.

Lemma after_none j e l : ordered (e :: l) → (j < e.2)%nat → after j (e :: l) = e :: l.
Proof.
  intros Ho Hj. apply StronglySorted_inv in Ho as [_ Hf]. unfold after. rewrite filter_cons, decide_True by done. f_equal.
  induction l as [|x l IH]; [done|]. apply Forall_cons in Hf as [Hx Hf]. rewrite filter_cons, decide_True, IH by (done || lia). done.
Qed.

Lemma after_drop j e l : (e.2 ≤ j)%nat → after j (e :: l) = after j l ∧ acked_upto j (e :: l) = e :: acked_upto j l.
Proof. intros Hj. unfold after, acked_upto. rewrite !filter_cons, decide_False, decide_True by lia. done. Qed.
Lemma acked_none j e l : ordered (e :: l) → (j < e.2)%nat → acked_upto j (e :: l) = [].
Proof.
  intros Ho Hj. apply StronglySorted_inv in Ho as [_ Hf]. unfold acked_upto. rewrite filter_cons, decide_False by lia.
  induction l as [|x l IH]; [done|]. apply Forall_cons in Hf as [Hx Hf]. rewrite filter_cons, decide_False, IH by (done || lia). done.
Qed.

(** The packets at the addresses [l] are gone. *)
Definition freed (l : list nat) (pk pk' : gmap nat msp_packet) : Prop := ∀ b, pk' !! b = if decide (b ∈ l) then None else pk !! b.
Lemma freed_nil pk : freed [] pk pk.
Proof. intros b. rewrite decide_False; [done|apply not_elem_of_nil]. Qed.
Lemma freed_cons a l pk pk' : freed l (delete a pk) pk' → freed (a :: l) pk pk'.
Proof.
  intros H b. rewrite (H b). destruct (decide (b ∈ l)) as [Hb|Hb]; [rewrite decide_True by (by right); done|]. destruct (decide (b = a)) as [->|Hne].
  - rewrite lookup_delete_eq, decide_True by left. done.
  - rewrite lookup_delete_ne by done. rewrite decide_False; [done|]. by intros [?|?]%elem_of_cons.
Qed.
Lemma numbered_ext pk pk' e : pk' !! e.1 = pk !! e.1 → numbered pk e → numbered pk' e.
Proof. intros E (p & Hp & Hs). exists p. by rewrite E. Qed.

Variables (gettime_ms : nat → Z).

Lemma free_packet_runs b p m (Q : unit → msp App → Prop) : m_packets m !! b = Some p → Q tt (set_packets (delete b (m_packets m)) m) → runs (free_packet b) m Q.
Proof. intros Hb HQ. unfold free_packet. apply runs_bind, (runs_packet _ p); [done|]. by apply runs_change. Qed.

Lemma free_acked_loop_runs a d j now fuel : ∀ l rtt m s, m_socks m !! a = Some s → seg (links (m_packets m)) (head l.*1) l.*1 None → NoDup l.*1 →
  Forall (numbered (m_packets m)) l → ordered l → Forall (λ e, near e.2 j) l → (length l ≤ fuel)%nat →
  Z.of_nat (length l) ≤ packet_count (window d s) < 2 ^ 32 →
  runs (free_acked_loop fuel a d (seqn j) now rtt (head l.*1)) m (λ r m', r.1 = head (after j l).*1 ∧ steady a m m' ∧
    freed (acked_upto j l).*1 (m_packets m) (m_packets m') ∧
    m_socks m' !! a = Some (set_window d (set_count (packet_count (window d s) - Z.of_nat (length (acked_upto j l))) (window d s)) s)).
Proof.
  induction fuel as [|fuel IH]; intros l rtt m s Ha Hs Hnd Hnum Ho Hnear Hlen Hc; (destruct l as [|[b k] l]; cbn [fmap list_fmap head fst free_acked_loop];
    [apply runs_ret; split_and!; [done|apply steady_refl|apply freed_nil|]; rewrite Z.sub_0_r, Ha; f_equal; destruct s as [? ? ? ? ? ? ? [] []], d; done|]).
  { cbn in Hlen. lia. }
  apply Forall_cons in Hnum as [(p & Hp & Hseq) Hnum]. apply Forall_cons in Hnear as [Hnj Hnear]. cbn in Hp, Hseq, Hnj.
  change (seg (links (m_packets m)) (Some b) (b :: l.*1) None) in Hs. change (NoDup (b :: l.*1)) in Hnd.
  destruct Hs as (_ & n & Hn & Hs). unfold links in Hn. rewrite Hp in Hn. injection Hn as Hn. apply NoDup_cons in Hnd as [Hbl Hnd].
  apply runs_bind, (runs_packet _ p); [done|]. rewrite Hseq, (compare_near _ _ Hnj).
  destruct (Z.leb_spec (Z.of_nat k - Z.of_nat j) 0) as [Hle|Hgt].
  - destruct (after_drop j (b, k) l) as [Ea Ek]; [cbn; lia|]. rewrite Ea, Ek. cbv zeta. apply runs_bind, (free_packet_runs _ p); [done|].
    apply runs_bind, (runs_upd_window _ _ s); [done|]. match goal with |- runs (free_acked_loop _ _ _ _ _ ?r _) ?st _ => set (rtt' := r); set (m1 := st) end.
    apply StronglySorted_inv in Ho as [Ho _]. cbn in Hlen, Hc.
    assert (∀ c : nat, c ∈ l.*1 → c ≠ b) as Hne by (by intros c Hcl ->).
    assert (n = head l.*1) as -> by (by apply seg_head in Hs). rewrite Hn.
    eapply runs_mono; [apply (IH l rtt' m1 (set_window d (set_count (u32 (packet_count (window d s) - 1)) (window d s)) s))|].
    { cbn. by rewrite lookup_insert_eq. }
    { apply (seg_ext (links (m_packets m))); [|done]. intros c Hcl. unfold links. cbn. rewrite lookup_delete_ne; [done|]. intros ->. by apply (Hne c). }
    { done. }
    { rewrite Forall_forall in Hnum |- *. intros e He. apply (numbered_ext (m_packets m)); [|by apply Hnum]. cbn. rewrite lookup_delete_ne; [done|]. intros ->. apply (Hne e.1); [|done]. by apply list_elem_of_fmap_2. }
    { done. } { done. } { lia. } { rewrite window_set. cbn. rewrite wrapu_small by lia. lia. }
    cbn beta. intros r m2 (Hr & Hst & Hf & Hso). split_and!; [done| | |].
    + eapply steady_trans; [|exact Hst]. split; try done. intros c Hc'. cbn. by rewrite lookup_insert_ne.
    + cbn. by apply freed_cons.
    + rewrite Hso, window_set, set_window_set. cbn [packet_count set_count length]. rewrite wrapu_small by lia. f_equal. f_equal. destruct (window d s). cbn. unfold set_count. cbn. f_equal. lia.
  - rewrite (after_none j (b, k) l Ho), (acked_none j (b, k) l Ho) by (cbn; lia). apply runs_ret. cbn. split_and!; [done|apply steady_refl|apply freed_nil|].
    rewrite Z.sub_0_r, Ha. f_equal. destruct s as [? ? ? ? ? ? ? [] []], d; done.
Qed.

Lemma acked_after j l : ordered l → l = acked_upto j l ++ after j l.
Proof.
  induction l as [|e l IH]; intros Ho; [done|]. destruct (decide (e.2 ≤ j)%nat) as [Hj|Hj].
  - destruct (after_drop j e l Hj) as [-> ->]. apply StronglySorted_inv in Ho as [Ho _]. cbn. by rewrite <- IH.
  - by rewrite (after_none j e l Ho), (acked_none j e l Ho) by lia.
Qed.
Lemma ordered_app p q : ordered (p ++ q) → ordered p ∧ ordered q.
Proof. intros H. split; [by eapply StronglySorted_app_1_l|by eapply StronglySorted_app_1_r]. Qed.

(** The numbers of the packets to come stay. *)
Definition same_stream (w w' : msp_window) : Prop := next_seq w' = next_seq w ∧ last_activity w' = last_activity w.

Lemma linked_suffix pk w p q : linked pk w (p ++ q) → seg (links pk) (head q) q None ∧ NoDup q.
Proof. intros [_ _ _ Hs Hnd]. split; [|by apply NoDup_app in Hnd as (_ & _ & ?)]. apply seg_app in Hs as (n & _ & Hq). by rewrite <- (seg_head _ _ _ Hq). Qed.

Lemma free_acked_runs a d j l m s : m_socks m !! a = Some s → window_rep (m_packets m) (window d s) l → Forall (λ e, near e.2 j) l →
  runs (free_acked_packets gettime_ms a d (seqn j)) m (λ _ m', steady a m m' ∧ freed (acked_upto j l).*1 (m_packets m) (m_packets m') ∧
    ∃ w, m_socks m' !! a = Some (set_window d w s) ∧ same_stream (window d s) w ∧ window_rep (m_packets m') w (after j l)).
Proof.
  intros Ha [Hl Hnum Ho] Hnear. pose proof (acked_after j l Ho) as Hsplit. unfold free_acked_packets. apply runs_bind, (runs_window _ _ s); [done|]. rewrite (lk_head _ _ _ Hl).
  destruct l as [|[b k] l]; [|set (l0 := (b, k) :: l) in *].
  { apply runs_ret. split_and!; [apply steady_refl|apply freed_nil|]. exists (window d s). rewrite set_window_id. done. }
  change (head l0.*1) with (Some b). cbn beta iota. assert (Some b = head l0.*1) as -> by done. clearbody l0. apply runs_bind, runs_bind, runs_event. apply runs_ret. apply runs_bind, runs_ask. apply runs_bind.
  destruct (lk_count _ _ _ Hl) as [Hcnt Hmax]. rewrite length_fmap in Hcnt, Hmax.
  eapply runs_mono; [apply (free_acked_loop_runs a d j _ _ l0 _ (m_tick m) s Ha (lk_seg _ _ _ Hl) (lk_nodup _ _ _ Hl) Hnum Ho Hnear); [|rewrite Hcnt; lia]|].
  { pose proof (linked_size _ _ _ Hl) as Hsz. rewrite length_fmap in Hsz. exact Hsz. }
  cbn beta. intros [r1 r2] m1 (Hr & Hst & Hf & Hso). cbn [fst snd] in *. apply runs_bind. eapply runs_upd_window; [exact Hso|]. apply runs_bind.
  assert (steady a m m1) as Hst' by (destruct Hst; by split). cbn [m_packets m_tick] in Hf.
  set (w1 := set_head r1 _). set (m2 := set_socks _ m1).
  assert (m_socks m2 !! a = Some (set_window d w1 s)) as Hm2 by (cbn; rewrite lookup_insert_eq, set_window_set; done).
  assert (steady a m m2) as Hst2. { eapply steady_trans; [exact Hst'|]. split; try done. intros c Hc. cbn. by rewrite lookup_insert_ne. }
  assert (runs (if negb (r2 =? NEVER_RTT) then let t := if r2 <? 10 then 10 else r2 in upd_window a d (λ w, set_window_rtt (if t <? base_rtt w then t else base_rtt w) t w) else mret tt) m2
    (λ _ m', steady a m m' ∧ m_packets m' = m_packets m1 ∧ ∃ x y, m_socks m' !! a = Some (set_window d (set_window_rtt x y w1) s))) as Hrtt.
  { destruct (negb _); [|apply runs_ret; split_and!; [done|done|]; exists (base_rtt w1), (rtt w1); rewrite Hm2; by destruct w1]. cbv zeta.
    eapply runs_upd_window; [exact Hm2|]. split_and!; [|done|].
    - eapply steady_trans; [exact Hst2|]. split; try done. intros c Hc. cbn. by rewrite lookup_insert_ne.
    - rewrite window_set, set_window_set. eexists _, _. cbn. rewrite lookup_insert_eq. reflexivity. }
  eapply runs_mono; [exact Hrtt|]. cbn beta. intros _ m3 (Hst3 & Hp3 & x & y & Hs3).
  assert (Forall (numbered (m_packets m1)) (after j l0)) as Hnum'.
  { apply Forall_forall. intros e He. pose proof (lk_nodup _ _ _ Hl) as Hnd. rewrite Hsplit, fmap_app in Hnd. apply NoDup_app in Hnd as (_ & Hdis & _).
    apply (numbered_ext (m_packets m)).
    - rewrite (Hf e.1), decide_False; [done|]. intros Hin. apply (Hdis e.1 Hin). by apply list_elem_of_fmap_2.
    - rewrite Forall_forall in Hnum. apply Hnum. rewrite Hsplit. apply elem_of_app. by right. }
  pose proof Hl as Hl'. rewrite Hsplit, fmap_app in Hl'. destruct (linked_suffix _ _ _ _ Hl') as [Hsg Hnd'].
  assert (∀ t, t = last (after j l0).*1 → window_rep (m_packets m1) (set_tail t (set_window_rtt x y w1)) (after j l0)) as Hrep.
  { intros t ->. split; [|done|rewrite Hsplit in Ho; by apply ordered_app in Ho as [_ ?]]. split; cbn; [done|done| | |done].
    - rewrite window_set. cbn. rewrite length_fmap, Hcnt. pose proof (f_equal length Hsplit) as Hlen. rewrite length_app in Hlen. lia.
    - apply (seg_ext (links (m_packets m))); [|done]. intros c Hc. unfold links. rewrite (Hf c), decide_False; [done|]. intros Hin.
      pose proof (lk_nodup _ _ _ Hl') as Hnd. apply NoDup_app in Hnd as (_ & Hdis & _). by apply (Hdis c). }
  destruct (bool_decide_reflect (r1 = None)) as [Hn|Hn].
  - eapply runs_upd_window; [exact Hs3|]. split_and!.
    + eapply steady_trans; [exact Hst3|]. split; try done. intros c Hc. cbn. by rewrite lookup_insert_ne.
    + cbn. by rewrite Hp3.
    + eexists. rewrite window_set, set_window_set. cbn [m_socks set_socks]. rewrite lookup_insert_eq. split; [reflexivity|]. split; [unfold w1; by rewrite window_set|]. cbn [m_packets set_socks]. rewrite Hp3. apply Hrep. revert Hr. rewrite Hn. by destruct (after j l0).
  - apply runs_ret. split_and!; [done|by rewrite Hp3|]. eexists. split; [exact Hs3|]. split; [unfold w1; by rewrite window_set|]. rewrite Hp3.
    assert (set_window_rtt x y w1 = set_tail (w_tail (window d s)) (set_window_rtt x y w1)) as -> by (unfold w1; rewrite window_set; by destruct (window d s)).
    apply Hrep. rewrite (lk_tail _ _ _ Hl'). rewrite last_app. destruct (last (after j l0).*1) eqn:E; [done|]. apply last_None in E. by rewrite E in Hr.
Qed.

(** ** Adding a packet *)

Definition before (k : nat) (l : list (nat * nat)) : list (nat * nat) := filter (λ e, (e.2 < k)%nat) l.
Definition place_of (p : list (nat * nat)) : place := match last p.*1 with Some b => After b | None => AtHead end.

Lemma before_all k l : Forall (λ e, (e.2 < k)%nat) l → before k l = l.
Proof. induction l as [|e l IH]; intros Hf; [done|]. apply Forall_cons in Hf as [He Hf]. unfold before in *. rewrite filter_cons, decide_True by done. by rewrite IH. Qed.
Lemma before_none k e l : ordered (e :: l) → (k ≤ e.2)%nat → before k (e :: l) = [].
Proof.
  intros Ho Hk. apply StronglySorted_inv in Ho as [_ Hf]. unfold before. rewrite filter_cons, decide_False by lia.
  induction l as [|x l IH]; [done|]. apply Forall_cons in Hf as [Hx Hf]. rewrite filter_cons, decide_False, IH by (done || lia). done.
Qed.
Lemma before_after k l : ordered l → k ∉ l.*2 → l = before k l ++ after k l.
Proof.
  induction l as [|e l IH]; intros Ho Hk; [done|]. change (k ∉ e.2 :: l.*2) in Hk. apply not_elem_of_cons in Hk as [Hne Hk]. destruct (decide (e.2 < k)%nat) as [Hlt|Hge].
  - unfold before. rewrite filter_cons, decide_True by done. unfold after. rewrite filter_cons, decide_False by lia. apply StronglySorted_inv in Ho as [Ho _]. cbn. f_equal. by apply IH.
  - rewrite (before_none k e l Ho), (after_none k e l Ho) by lia. done.
Qed.

Lemma read_place_runs a d pre post m s (Q : option nat → msp App → Prop) : m_socks m !! a = Some s → linked (m_packets m) (window d s) (pre ++ post).*1 →
  Q (head post.*1) m → runs (read_place a d (place_of pre)) m Q.
Proof.
  intros Ha Hl HQ. unfold place_of. destruct (last pre.*1) as [b|] eqn:E; cbn [read_place].
  - apply last_Some in E as (p & E). rewrite fmap_app, E, <- app_assoc in Hl. destruct (window_next _ _ p b post.*1 Hl) as (k & Hk & Hn).
    apply runs_bind, (runs_packet _ k); [done|]. apply runs_ret. by rewrite Hn.
  - apply last_None, fmap_nil_inv in E as ->. apply runs_bind, (runs_window _ _ s); [done|]. apply runs_ret. by rewrite (lk_head _ _ _ Hl).
Qed.

Lemma find_place_runs a d k m s l fuel : m_socks m !! a = Some s → window_rep (m_packets m) (window d s) l → Forall (λ e, near e.2 k) l →
  ∀ post pre, l = pre ++ post → Exists (λ e, (k ≤ e.2)%nat) post → (length post ≤ fuel)%nat →
  runs (find_place fuel a d (seqn k) (place_of pre)) m (λ r m', m' = m ∧ r = if decide (k ∈ post.*2) then Duplicate else Insert (place_of (pre ++ before k post))).
Proof.
  intros Ha [Hl Hnum Ho] Hnear. induction fuel as [|fuel IH]; intros post pre El Hex Hlen; (destruct post as [|[b j] post]; [by inversion Hex|]); [cbn in Hlen; lia|].
  assert (numbered (m_packets m) (b, j)) as (p & Hp & Hseq) by (rewrite Forall_forall in Hnum; apply Hnum; rewrite El; apply elem_of_app; right; left). cbn in Hp, Hseq.
  assert (near j k) as Hjk by (rewrite Forall_forall in Hnear; apply (Hnear (b, j)); rewrite El; apply elem_of_app; right; left).
  assert (ordered ((b, j) :: post)) as Ho' by (rewrite El in Ho; by apply ordered_app in Ho as [_ ?]).
  cbn [find_place]. apply runs_bind, (read_place_runs _ _ pre ((b, j) :: post) _ s); [done|by rewrite <- El|]. change (head ((b, j) :: post).*1) with (Some b). apply runs_bind, (runs_follow _ b); [done|].
  apply runs_bind, (runs_packet _ p); [done|]. rewrite Hseq, (compare_near _ _ Hjk). destruct (Z.ltb_spec (Z.of_nat j - Z.of_nat k) 0) as [Hlt|Hge].
  - assert (After b = place_of (pre ++ [(b, j)])) as -> by (unfold place_of; rewrite fmap_app; change ([(b, j)].*1) with [b]; by rewrite last_snoc).
    eapply runs_mono; [apply (IH post (pre ++ [(b, j)])); [by rewrite <- app_assoc| |cbn in Hlen; lia]|].
    { apply Exists_cons in Hex as [Hk|?]; [cbn in Hk; lia|done]. }
    cbn beta. intros r m' [-> ->]. split; [done|]. assert (k ≠ j) as Hne by lia.
    assert (before k ((b, j) :: post) = (b, j) :: before k post) as -> by (unfold before; rewrite filter_cons, decide_True by (cbn; lia); done). rewrite <- app_assoc.
    destruct (decide (k ∈ post.*2)) as [Hin|Hin]; [rewrite decide_True by (by right); done|rewrite decide_False by (change (k ∉ j :: post.*2); by apply not_elem_of_cons); done].
  - apply runs_ret. split; [done|]. destruct (Z.eqb_spec (seqn j) (seqn k)) as [E|E].
    + apply (seqn_near _ _ Hjk) in E as ->. rewrite decide_True by left. done.
    + assert (j ≠ k) by (by intros ->). rewrite decide_False, (before_none k (b, j) post Ho'), app_nil_r; [done|cbn; lia|].
      change (k ∉ j :: post.*2). apply not_elem_of_cons. split; [done|]. intros Hin. apply StronglySorted_inv in Ho' as [_ Hf]. apply list_elem_of_fmap_1 in Hin as (e & -> & He).
      rewrite Forall_forall in Hf. specialize (Hf e He). cbn in Hf. lia.
Qed.

Lemma last_numbered pk l e : last l = Some e → Forall (numbered pk) l → numbered pk e.
Proof. intros E Hf. apply last_Some in E as (l' & ->). apply Forall_app in Hf as [_ Hf]. by apply Forall_cons in Hf as [? _]. Qed.

Lemma search_place_runs a d k m s l : m_socks m !! a = Some s → window_rep (m_packets m) (window d s) l → Forall (λ e, near e.2 k) l →
  runs (search_place a d (seqn k)) m (λ r m', m' = m ∧ r = if decide (k ∈ l.*2) then Duplicate else Insert (place_of (before k l))).
Proof.
  intros Ha Hw Hnear. pose proof Hw as [Hl Hnum Ho]. unfold search_place. apply runs_bind, (runs_window _ _ s); [done|]. rewrite (lk_head _ _ _ Hl).
  destruct l as [|[h i] l]; [apply runs_ret; split; [done|]; rewrite decide_False by apply not_elem_of_nil; done|]. set (l0 := (h, i) :: l) in *. change (head l0.*1) with (Some h). cbn beta iota.
  destruct (last l0) as [[t j]|] eqn:Et; [|by apply last_None in Et].
  assert (last l0.*1 = Some t) as Et1 by (by rewrite fmap_last, Et). apply runs_bind, (runs_follow _ t); [by rewrite (lk_tail _ _ _ Hl)|].
  destruct (last_numbered _ _ _ Et Hnum) as (p & Hp & Hseq). cbn in Hp, Hseq. apply last_Some in Et as (l1 & El1).
  assert (near j k) as Hjk by (rewrite Forall_forall in Hnear; apply (Hnear (t, j)); rewrite El1; apply elem_of_app; right; left).
  assert (near i k) as Hik by (rewrite Forall_forall in Hnear; apply (Hnear (h, i)); left).
  apply runs_bind, (runs_packet _ p); [done|]. rewrite Hseq. destruct (Z.eqb_spec (seqn j) (seqn k)) as [E|E].
  { apply (seqn_near _ _ Hjk) in E as ->. apply runs_ret. split; [done|]. rewrite decide_True; [done|]. rewrite El1, fmap_app. apply elem_of_app. right. left. }
  assert (j ≠ k) by (by intros ->). rewrite (compare_near _ _ Hjk). destruct (Z.ltb_spec (Z.of_nat j - Z.of_nat k) 0) as [Hlt|Hge].
  - assert (Forall (λ e : nat * nat, (e.2 < k)%nat) l0) as Hall.
    { rewrite El1. apply Forall_app. split; [|apply Forall_singleton; cbn; lia]. rewrite El1 in Ho. apply StronglySorted_app in Ho as (Ho & _). apply Forall_forall. intros e He.
      specialize (Ho e (t, j) He). cbn in Ho. assert (e.2 < j)%nat by (apply Ho; left). lia. }
    apply Forall_cons in Hnum as [(q & Hq & Hqs) _]. cbn in Hq, Hqs. apply runs_bind, (runs_packet _ q); [done|]. apply runs_ret. split; [done|].
    rewrite Hqs, (compare_near _ _ Hik). pose proof Hall as Hall'. apply Forall_cons in Hall' as [Hi _]. cbn in Hi. rewrite (proj2 (Z.ltb_ge _ _)) by lia.
    rewrite decide_False; [|intros Hin; apply list_elem_of_fmap_1 in Hin as (e & -> & He); rewrite Forall_forall in Hall; specialize (Hall e He); lia].
    rewrite (before_all k l0 Hall). unfold place_of. by rewrite Et1.
  - apply runs_bind, runs_ask. apply (find_place_runs a d k m s l0 _ Ha Hw Hnear l0 []); [done| |pose proof (linked_size _ _ _ Hl) as Hsz; by rewrite length_fmap in Hsz].
    rewrite El1. apply Exists_app. right. apply Exists_cons_hd. cbn. lia.
Qed.

(** The map and the window after a packet [b] has been put after [pre]. *)
Definition relinked (pk : gmap nat msp_packet) (pre : list (nat * nat)) (b : nat) : gmap nat msp_packet :=
  match last pre.*1 with Some c => alter (set_pk_next (Some b)) c pk | None => pk end.
Definition grown (w : msp_window) (pre post : list (nat * nat)) (b : nat) : msp_window :=
  set_count (packet_count w + 1) (set_tail (if bool_decide (head post.*1 = None) then Some b else w_tail w) (if bool_decide (last pre.*1 = None) then set_head (Some b) w else w)).

Lemma relinked_ne pk pre b c : last pre.*1 ≠ Some c → relinked pk pre b !! c = pk !! c.
Proof. unfold relinked. destruct (last pre.*1) as [x|]; [|done]. intros Hne. rewrite lookup_alter_ne; [done|congruence]. Qed.
Lemma relinked_eq pk pre b c : last pre.*1 = Some c → relinked pk pre b !! c = set_pk_next (Some b) <$> pk !! c.
Proof. unfold relinked. intros ->. by rewrite lookup_alter_eq. Qed.

Lemma inserted_rep pk w pre post b k p : window_rep pk w (pre ++ post) → pk !! b = None → Forall (λ e, (e.2 < k)%nat) pre → Forall (λ e, (k < e.2)%nat) post →
  pk_next p = head post.*1 → pk_seq p = seqn k → Z.of_nat (length (pre ++ post)) + 1 < 2 ^ 32 →
  window_rep (<[b := p]> (relinked pk pre b)) (grown w pre post b) (pre ++ (b, k) :: post).
Proof.
  intros [Hl Hnum Ho] Hb Hpre Hpost Hnext Hseq Hmax. assert (b ∉ (pre ++ post).*1) as Hbl by (intros Hin; destruct (linked_live _ _ _ _ Hl Hin); congruence).
  assert (∀ c, c ∈ (pre ++ post).*1 → c ≠ b) as Hne by (by intros c Hc ->).
  pose proof (lk_nodup _ _ _ Hl) as Hnd. rewrite fmap_app in Hnd.
  assert (∀ c, c ≠ b → last pre.*1 ≠ Some c → links (<[b := p]> (relinked pk pre b)) c = links pk c) as Hsame.
  { intros c Hcb Hc. unfold links. by rewrite lookup_insert_ne, relinked_ne. }
  split.
  - rewrite fmap_app. change (((b, k) :: post).*1) with (b :: post.*1). split.
    + unfold grown. destruct (bool_decide_reflect (last pre.*1 = None)) as [E|E].
      * apply last_None, fmap_nil_inv in E as ->. done.
      * cbn. rewrite (lk_head _ _ _ Hl), fmap_app. destruct pre; [done|]. done.
    + unfold grown. cbn [w_tail set_count set_tail]. rewrite (lk_tail _ _ _ Hl), fmap_app, last_app_cons. destruct post as [|e post]; [done|]. cbn. rewrite last_app_cons. done.
    + unfold grown. cbn. destruct (lk_count _ _ _ Hl) as [Hc _]. rewrite length_fmap in Hc. rewrite length_app in *. cbn. rewrite !length_fmap.
      assert (packet_count (if bool_decide (last pre.*1 = None) then set_head (Some b) w else w) = packet_count w) by (by destruct (bool_decide _)). split; [|lia]. rewrite Hc. lia.
    + assert (head (pre.*1 ++ b :: post.*1) = if decide (pre.*1 = []) then Some b else head (pre ++ post).*1) as -> by (rewrite fmap_app; by destruct pre).
      pose proof (lk_seg _ _ _ Hl) as Hs. rewrite fmap_app in Hs at 2. apply (seg_insert (links pk)); [done|done| | |].
      * unfold links. rewrite lookup_insert_eq. cbn. by rewrite Hnext.
      * intros c Hc. apply Hsame. apply Hne. by rewrite fmap_app.
      * intros c Hc. unfold links. rewrite lookup_insert_ne.
        -- rewrite (relinked_eq _ _ _ _ Hc). destruct (linked_live _ _ _ c Hl) as [q ->]; [|done]. rewrite fmap_app. apply elem_of_app. left. by apply last_snoc_in.
        -- intros <-. apply Hbl. rewrite fmap_app. apply elem_of_app. left. by apply last_snoc_in.
    + apply NoDup_app in Hnd as (N1 & N2 & N3). rewrite fmap_app in Hbl. apply not_elem_of_app in Hbl as [B1 B2]. apply NoDup_app. split_and!; [done| |by apply NoDup_cons].
      intros c Hc [->|Hc']%elem_of_cons; [done|]. by apply (N2 c).
  - assert (∀ e, e ∈ pre ++ post → numbered (<[b := p]> (relinked pk pre b)) e) as Hold.
    { intros e He. rewrite Forall_forall in Hnum. destruct (Hnum e He) as (q & Hq & Hs). assert (e.1 ≠ b) as Heb by (apply Hne; by apply list_elem_of_fmap_2).
      unfold numbered. rewrite lookup_insert_ne by done. destruct (decide (last pre.*1 = Some e.1)) as [E|E]; [rewrite (relinked_eq _ _ _ _ E), Hq|rewrite relinked_ne, Hq by done]; by eexists. }
    apply Forall_app. split; [apply Forall_forall; intros e He; apply Hold, elem_of_app; by left|]. apply Forall_cons. split; [exists p; split; [apply lookup_insert_eq|done]|].
    apply Forall_forall. intros e He. apply Hold, elem_of_app. by right.
  - apply StronglySorted_app in Ho as (O1 & O2 & O3). apply StronglySorted_app. split_and!; [|done|constructor; [done|]].
    + intros x y Hx [->|Hy]%elem_of_cons; [rewrite Forall_forall in Hpre; by apply Hpre|by apply O1].
    + by apply Hpost.
Qed.

Variable malloc_ok : nat → bool.
Hypothesis memory : ∀ n, malloc_ok n = true.

(** What a new packet holds. *)
Definition fresh_packet (next : option nat) (seq flags t : Z) (payload : option (list Z)) (len : nat) : msp_packet :=
  Packet next seq flags t TIME_MS_NEVER_HAS (if bool_decide (len = 0%nat) then None else take len <$> payload) len 0.

Lemma write_place_runs a d pre post b p m s : m_socks m !! a = Some s → linked (m_packets m) (window d s) (pre ++ post).*1 → m_packets m !! b = None →
  runs (write_place a d (place_of pre) (Some b)) (set_packets (<[b := p]> (m_packets m)) m) (λ _ m', steady a m m' ∧
    m_packets m' = <[b := p]> (relinked (m_packets m) pre b) ∧
    m_socks m' !! a = Some (set_window d (if bool_decide (last pre.*1 = None) then set_head (Some b) (window d s) else window d s) s)).
Proof.
  intros Ha Hl Hb. unfold place_of, relinked. destruct (last pre.*1) as [c|] eqn:E; cbn [write_place].
  - destruct (linked_live _ _ _ c Hl) as [q Hq]; [rewrite fmap_app; apply elem_of_app; left; by apply last_snoc_in|]. assert (b ≠ c) as Hne by congruence.
    apply (runs_upd_packet _ q); [cbn; by rewrite lookup_insert_ne|]. cbn [m_packets set_packets m_socks]. split_and!; [by split| |by rewrite bool_decide_false, set_window_id].
    apply map_eq. intros x. destruct (decide (x = c)) as [->|Hxc].
    + rewrite lookup_insert_eq, lookup_insert_ne, lookup_alter_eq, Hq by done. done.
    + rewrite lookup_insert_ne by done. destruct (decide (x = b)) as [->|Hxb]; [by rewrite !lookup_insert_eq|by rewrite !lookup_insert_ne, lookup_alter_ne].
  - apply (runs_upd_window _ _ s); [done|]. cbn [m_packets set_packets set_socks m_socks]. split_and!; [|done|by rewrite lookup_insert_eq, bool_decide_true].
    split; try done. intros x Hx. cbn. by rewrite lookup_insert_ne.
Qed.

Lemma insert_runs a d pre post k flags payload len m s : m_socks m !! a = Some s → window_rep (m_packets m) (window d s) (pre ++ post) →
  Z.of_nat (length (pre ++ post)) + 1 < 2 ^ 32 →
  runs (ok ← emalloc malloc_ok;
      if negb (ok : bool) then mret (-1)
      else
        b ← ask (λ m, fresh (dom (m_packets m)));
        n ← read_place a d (place_of pre);
        change (λ m, set_packets (<[b := Packet n 0 0 0 0 None 0 0]> (m_packets m)) m);;
        write_place a d (place_of pre) (Some b);;
        (if bool_decide (n = None) then upd_window a d (set_tail (Some b)) else mret tt);;
        t ← gettime gettime_ms;
        upd_packet b (λ x, Packet (pk_next x) (seqn k) flags t TIME_MS_NEVER_HAS None len 0);;
        ok ← (match payload with
              | Some bs =>
                  if bool_decide (len = 0%nat) then mret true
                  else
                    ok ← emalloc malloc_ok;
                    if (ok : bool) then upd_packet b (set_pk_payload (Some (take len bs)));; mret true else free_packet b;; mret false
              | None => mret true
              end);
        if negb (ok : bool) then mret (-1)
        else upd_window a d (λ w, set_count (u32 (packet_count w + 1)) w);; mret 1) m
    (λ r m', r = 1 ∧ steady a m m' ∧ ∃ b t n, m_packets m !! b = None ∧ t = gettime_ms n ∧
      m_packets m' = <[b := fresh_packet (head post.*1) (seqn k) flags t payload len]> (relinked (m_packets m) pre b) ∧
      m_socks m' !! a = Some (set_window d (grown (window d s) pre post b) s)).
Proof.
  intros Ha Hw Hmax. pose proof (wr_linked _ _ _ Hw) as Hl. apply runs_bind, runs_bind, runs_event. apply runs_ret. rewrite memory. cbn [negb].
  apply runs_bind, runs_ask. set (b := fresh (dom (m_packets (m_tick m)))). assert (m_packets m !! b = None) as Hb by (apply not_elem_of_dom; apply is_fresh).
  apply runs_bind, (read_place_runs a d pre post (m_tick m) s); [done|done|]. apply runs_bind, runs_change. apply runs_bind.
  eapply runs_mono; [apply (write_place_runs a d pre post b _ (m_tick m) s Ha Hl Hb)|]. cbn beta. intros _ m1 (Hst1 & Hp1 & Hs1). cbn [m_packets m_tick] in Hp1.
  assert (steady a m m1) as Hst by (destruct Hst1; by split). set (w1 := if bool_decide (last pre.*1 = None) then _ else _) in *. apply runs_bind.
  assert (runs (if bool_decide (head post.*1 = None) then upd_window a d (set_tail (Some b)) else mret tt) m1 (λ _ m', steady a m m' ∧ m_packets m' = m_packets m1 ∧
    m_socks m' !! a = Some (set_window d (set_tail (if bool_decide (head post.*1 = None) then Some b else w_tail (window d s)) w1) s))) as Htail.
  { destruct (bool_decide (head post.*1 = None)).
    - eapply runs_upd_window; [exact Hs1|]. split_and!; [|done|cbn [m_socks set_socks]; by rewrite lookup_insert_eq, window_set, set_window_set].
      eapply steady_trans; [exact Hst|]. split; try done. intros x Hx. cbn. by rewrite lookup_insert_ne.
    - apply runs_ret. split_and!; [done|done|]. rewrite Hs1. do 2 f_equal. unfold w1. destruct (bool_decide _); by destruct (window d s). }
  eapply runs_mono; [exact Htail|]. cbn beta. intros _ m2 (Hst2 & Hp2 & Hs2). apply runs_bind, runs_bind, runs_event. apply runs_ret. apply runs_bind.
  eapply runs_upd_packet; [cbn; rewrite Hp2, Hp1; apply lookup_insert_eq|]. cbn [m_packets m_tick pk_next].
  match goal with |- runs _ ?x _ => set (m3 := x) end.
  assert (steady a m m3) as Hst3 by (destruct Hst2; by split). assert (m_packets m3 = <[b := Packet (head post.*1) (seqn k) flags (gettime_ms (m_ticks m2)) TIME_MS_NEVER_HAS None len 0]> (relinked (m_packets m) pre b)) as Hp3.
  { cbn. by rewrite Hp2, Hp1, insert_insert_eq. }
  apply runs_bind. match goal with |- runs ?p _ _ => assert (runs p m3 (λ r m', r = true ∧ steady a m m' ∧ m_socks m' !! a = m_socks m3 !! a ∧
    m_packets m' = <[b := fresh_packet (head post.*1) (seqn k) flags (gettime_ms (m_ticks m2)) payload len]> (relinked (m_packets m) pre b))) as Hpay end.
  { unfold fresh_packet. destruct payload as [bs|]; [|apply runs_ret; split_and!; [done|done|done|]; rewrite Hp3; by destruct (bool_decide (len = 0%nat))].
    destruct (bool_decide (len = 0%nat)); [by apply runs_ret|]. apply runs_bind, runs_bind, runs_event. apply runs_ret. rewrite memory.
    apply runs_bind. eapply runs_upd_packet; [cbn [m_packets m_tick]; rewrite Hp3; apply lookup_insert_eq|]. apply runs_ret. split_and!; [done|destruct Hst3; by split|done|].
    cbn [m_packets set_packets m_tick]. rewrite Hp3, insert_insert_eq. done. }
  eapply runs_mono; [exact Hpay|]. cbn beta. intros r m4 (-> & Hst4 & Hs4 & Hp4). cbn [negb]. apply runs_bind. eapply runs_upd_window; [rewrite Hs4; exact Hs2|]. apply runs_ret. split; [done|].
  split. { eapply steady_trans; [exact Hst4|]. split; try done. intros x Hx. cbn. by rewrite lookup_insert_ne. }
  exists b, (gettime_ms (m_ticks m2)), (m_ticks m2). split_and!; [done|done|done|]. cbn [m_socks set_socks]. rewrite lookup_insert_eq, window_set, set_window_set. do 2 f_equal.
  unfold grown. fold w1. assert (packet_count w1 = packet_count (window d s)) as Ew by (unfold w1; by destruct (bool_decide _)). cbn [packet_count set_tail]. rewrite Ew.
  destruct (lk_count _ _ _ Hl) as [Hc _]. rewrite length_fmap in Hc. rewrite wrapu_small by lia. done.
Qed.

(** A packet that is already there is ignored; any other goes to its place. *)
Lemma add_packet_runs a d k flags payload len l m s : m_socks m !! a = Some s → window_rep (m_packets m) (window d s) l → Forall (λ e, near e.2 k) l →
  Z.of_nat (length l) + 1 < 2 ^ 32 →
  runs (add_packet gettime_ms malloc_ok a d (seqn k) flags payload len) m (λ r m',
    if decide (k ∈ l.*2) then r = 0 ∧ m' = m
    else r = 1 ∧ steady a m m' ∧ ∃ b t n w, m_packets m !! b = None ∧ t = gettime_ms n ∧
      m_packets m' = <[b := fresh_packet (head (after k l).*1) (seqn k) flags t payload len]> (relinked (m_packets m) (before k l) b) ∧
      m_socks m' !! a = Some (set_window d w s) ∧ same_stream (window d s) w ∧ window_rep (m_packets m') w (before k l ++ (b, k) :: after k l)).
Proof.
  intros Ha Hw Hnear Hmax. unfold add_packet. apply runs_bind. eapply runs_mono; [by apply (search_place_runs a d k m s l)|]. cbn beta. intros r m' [-> ->].
  destruct (decide (k ∈ l.*2)) as [Hin|Hin]; [by apply runs_ret|]. pose proof (before_after k l (wr_ordered _ _ _ Hw) Hin) as Hsplit.
  rewrite Hsplit in Hw, Hmax. eapply runs_mono; [apply (insert_runs a d (before k l) (after k l) k flags payload len m s Ha Hw Hmax)|].
  cbn beta. intros r m' (-> & Hst & b & t & n & Hb & Ht & Hp & Hs). split; [done|]. split; [done|]. exists b, t, n, (grown (window d s) (before k l) (after k l) b).
  split_and!; try done.
  - unfold grown. by destruct (bool_decide (last (before k l).*1 = None)).
  - rewrite Hp. apply inserted_rep; [done|done| | |done|done|done].
    + apply Forall_forall. intros e He. by apply list_elem_of_filter in He as [? _].
    + apply Forall_forall. intros e He. by apply list_elem_of_filter in He as [? _].
Qed.

End Spec.
End MspSpec.
