(* ===== verification/MspLive.v ===== *)
(** * One end of a mesh stream

    What holds of a connected socket between two calls: its send window has the
    packets not yet acknowledged, its receive window has packets of the other end,
    and the application has read what the numbers say. *)

From S2P Require Import Prelude Prog DataFormats FdQueue FdQueueSpec Msp MspSpec.
Import Prog DataFormats FdQueueSpec Msp MspSpec.

Module MspLive.

(** ** Flags *)

Lemma has_set_bits m m' x : has m (set_bits m' x) = has m x || has m m'.
Proof.
  unfold has, set_bits. rewrite Z.land_lor_distr_l, <- negb_andb. f_equal.
  destruct (Z.eqb_spec (Z.lor (Z.land x m) (Z.land m' m)) 0) as [E|E], (Z.eqb_spec (Z.land x m) 0) as [E1|E1], (Z.eqb_spec (Z.land m' m) 0) as [E2|E2]; try done; exfalso.
  all: try (apply Z.lor_eq_0_iff in E as [? ?]; congruence). apply E. by rewrite E1, E2.
Qed.
Lemma has_clear_bits m m' x : has m (clear_bits m' x) = has (Z.ldiff m m') x.
Proof. unfold has, clear_bits. by rewrite Z.ldiff_land, <- Z.land_assoc, (Z.land_comm (Z.lnot m')). Qed.
Lemma has_clear_same m x : has m (clear_bits m x) = false.
Proof. rewrite has_clear_bits, Z.ldiff_diag. unfold has. by rewrite Z.land_0_r. Qed.
Lemma has_split m m' x : has (Z.lor m m') x = has m x || has m' x.
Proof. unfold has. rewrite !(Z.land_comm x). change (has x (set_bits m' m) = has x m || has x m'). by rewrite has_set_bits. Qed.

(** Flags without SHUTDOWN and STOP. *)
Definition quiet (f : Z) : Prop := f ∈ [0; 2; 4; 6].
Lemma quiet_flags f : quiet f → has FLAG_SHUTDOWN f = false ∧ has FLAG_STOP f = false ∧ 0 ≤ f < 256.
Proof. unfold quiet. rewrite !elem_of_cons. intros [->|[->|[->|[->|H]]]]; try (split_and!; (done || lia)). by apply not_elem_of_nil in H. Qed.
Lemma quiet_set f : quiet f → quiet (set_bits FLAG_ACK f) ∧ quiet (set_bits FLAG_FIRST f).
Proof. unfold quiet. rewrite !elem_of_cons. intros [->|[->|[->|[->|H]]]]; try (cbn; tauto). by apply not_elem_of_nil in H. Qed.
Lemma quiet_ack s f : quiet f → quiet (ack_flags s f).
Proof. intros Hf. unfold ack_flags. assert (quiet (if has MSP_STATE_RECEIVED_DATA (s_state s) then set_bits FLAG_ACK f else f)) by (destruct (has _ _); [by apply quiet_set|done]). destruct (negb _); [by apply quiet_set|done]. Qed.

(** ** Numbers

    The packets of a stream are numbered from 2^16, so that the number before the
    first exists. *)

Lemma origin_sig : {n : nat | Z.of_nat n = 2 ^ 16}.
Proof. exists (Z.to_nat (2 ^ 16)). apply Z2Nat.id. lia. Qed.
Definition origin : nat := proj1_sig origin_sig.
Lemma origin_Z : Z.of_nat origin = 2 ^ 16.
Proof. exact (proj2_sig origin_sig). Qed.
Definition top (sent : list (list Z)) : nat := (origin + length sent)%nat.
(** How many packets late a datagram may come. *)
Definition LATE : Z := 2 ^ 14.

Lemma seqn_origin : seqn origin = 0.
Proof. unfold seqn. by rewrite origin_Z. Qed.
Lemma seqn_pred n : (origin ≤ n)%nat → u16 (seqn n - 1) = seqn (n - 1).
Proof. intros Hn. pose proof origin_Z. unfold seqn, wrapu. rewrite Zminus_mod_idemp_l. f_equal. lia. Qed.

(** ** The state of a stream *)

(** The packet holds what was sent under its number. *)
Definition held (pay : list (list Z)) (pk : gmap nat msp_packet) (e : nat * nat) : Prop := ∃ p bs, pk !! e.1 = Some p ∧
  (origin ≤ e.2)%nat ∧ pay !! (e.2 - origin)%nat = Some bs ∧ pk_len p = length bs ∧ default [] (pk_payload p) = bs ∧ quiet (pk_flags p).
(** How much of it has been read. *)
Definition read_upto (n off : nat) (pk : gmap nat msp_packet) (e : nat * nat) : Prop :=
  ∀ p, pk !! e.1 = Some p → (n ≤ e.2)%nat → pk_offset p = if decide (e.2 = n) then off else 0%nat.
(** What has been read in all, when [n] is next and [off] bytes of it are. *)
Definition reading (sy : list (list Z)) (n off : nat) : list Z := concat (take (n - origin) sy) ++ take off (default [] (sy !! (n - origin)%nat)).

Record stream (sx sy : list (list Z)) (base n off : nat) (txl rxl : list (nat * nat)) (pk : gmap nat msp_packet) (s : msp_sock) : Prop := {
  st_tx : window_rep pk (tx s) txl;
  st_rx : window_rep pk (rx s) rxl;
  st_apart : ∀ b, b ∈ txl.*1 → b ∈ rxl.*1 → False;
  st_all : ∀ b, is_Some (pk !! b) → b ∈ txl.*1 ∨ b ∈ rxl.*1;
  st_txn : txl.*2 = seq base (top sx - base);
  st_base : (origin ≤ base ∧ base ≤ top sx ∧ top sx ≤ base + 5)%nat;
  st_next : next_seq (tx s) = seqn (top sx);
  st_rxn : next_seq (rx s) = seqn n;
  st_n : (origin ≤ n ∧ n ≤ top sy ∧ top sy ≤ n + 5)%nat;
  st_held_tx : Forall (held sx pk) txl;
  st_held_rx : Forall (held sy pk) rxl;
  st_late : Forall (λ e, Z.of_nat n ≤ Z.of_nat e.2 + LATE + 5 ∧ (e.2 < top sy)%nat) rxl;
  st_read : Forall (read_upto n off pk) rxl;
  st_off : (n ∉ rxl.*2 → off = 0%nat) ∧ (off ≤ length (default [] (sy !! (n - origin)%nat)))%nat;
}.

(** What the numbers of a window depend on. *)
Definition wcore (w : msp_window) : Z * Z * option nat * option nat := (packet_count w, next_seq w, w_head w, w_tail w).
Lemma window_rep_ends pk w w' l : packet_count w' = packet_count w → w_head w' = w_head w → w_tail w' = w_tail w → window_rep pk w l → window_rep pk w' l.
Proof. intros E1 E3 E4 [[] ? ?]. split; [|done|done]. split; try done; congruence. Qed.
Lemma window_rep_core pk w w' l : wcore w' = wcore w → window_rep pk w l → window_rep pk w' l.
Proof. intros [= E1 E2 E3 E4]. by apply window_rep_ends. Qed.
Lemma stream_sock sx sy base n off txl rxl pk s s' : wcore (tx s') = wcore (tx s) → wcore (rx s') = wcore (rx s) →
  stream sx sy base n off txl rxl pk s → stream sx sy base n off txl rxl pk s'.
Proof.
  intros E1 E2 []. split; try assumption; try (by eapply window_rep_core); [injection E1 as _ E _ _|injection E2 as _ E _ _]; by rewrite E.
Qed.

(** A window and what it holds do not depend on other packets. *)
Definition agree (l : list (nat * nat)) (pk pk' : gmap nat msp_packet) : Prop := ∀ b, b ∈ l.*1 → pk' !! b = pk !! b.
Lemma agree_in l pk pk' e : agree l pk pk' → e ∈ l → pk' !! e.1 = pk !! e.1.
Proof. intros H He. apply H. by apply list_elem_of_fmap_2. Qed.
Lemma window_rep_agree pk pk' w l : agree l pk pk' → window_rep pk w l → window_rep pk' w l.
Proof.
  intros H [Hl Hn Ho]. split; [|apply Forall_forall; intros e He; rewrite Forall_forall in Hn; apply (numbered_ext pk); [by eapply agree_in|by apply Hn]|done].
  apply (linked_ext pk); [|done]. intros b Hb. unfold links. by rewrite H.
Qed.

(** What a packet holds, apart from its place. *)
Definition content (p : msp_packet) : Z * option (list Z) * nat * nat := (pk_flags p, pk_payload p, pk_len p, pk_offset p).
Definition alike (l : list (nat * nat)) (pk pk' : gmap nat msp_packet) : Prop := ∀ b, b ∈ l.*1 → content <$> pk' !! b = content <$> pk !! b.
Lemma agree_alike l pk pk' : agree l pk pk' → alike l pk pk'.
Proof. intros H b Hb. by rewrite H. Qed.
Lemma alike_sym l pk pk' : alike l pk pk' → alike l pk' pk.
Proof. intros H b Hb. by rewrite H. Qed.
Lemma alike_some l pk pk' e p : alike l pk pk' → e ∈ l → pk !! e.1 = Some p → ∃ p', pk' !! e.1 = Some p' ∧ content p' = content p.
Proof. intros H He Hp. specialize (H e.1 (list_elem_of_fmap_2 _ _ _ He)). rewrite Hp in H. by apply fmap_Some in H as (p' & ? & ?); exists p'. Qed.
Lemma held_alike pay pk pk' l : alike l pk pk' → Forall (held pay pk) l → Forall (held pay pk') l.
Proof.
  intros H Hf. rewrite Forall_forall in Hf |- *. intros e He. destruct (Hf e He) as (p & bs & Hp & Hr). destruct (alike_some _ _ _ _ _ H He Hp) as (p' & Hp' & E).
  injection E as E1 E2 E3 _. exists p', bs. by rewrite E1, E2, E3.
Qed.
Lemma read_alike n off pk pk' l : alike l pk pk' → Forall (read_upto n off pk) l → Forall (read_upto n off pk') l.
Proof.
  intros H Hf. rewrite Forall_forall in Hf |- *. intros e He p' Hp'. destruct (alike_some _ _ _ _ _ (alike_sym _ _ _ H) He Hp') as (p & Hp & E).
  injection E as _ _ _ E. rewrite <- E. by apply (Hf e He).
Qed.

(** The times of a packet do not matter. *)
Definition pcore (p : msp_packet) : option nat * Z * Z * option (list Z) * nat * nat := (pk_next p, pk_seq p, pk_flags p, pk_payload p, pk_len p, pk_offset p).
Definition same_packets (pk pk' : gmap nat msp_packet) : Prop := ∀ b, pcore <$> pk' !! b = pcore <$> pk !! b.
Lemma same_packets_some pk pk' b p : same_packets pk pk' → pk !! b = Some p → ∃ p', pk' !! b = Some p' ∧ pcore p' = pcore p.
Proof. intros H Hp. specialize (H b). rewrite Hp in H. by apply fmap_Some in H as (p' & ? & ?); exists p'. Qed.
Lemma same_packets_sym pk pk' : same_packets pk pk' → same_packets pk' pk.
Proof. by intros H b. Qed.
(** A window only depends on the places of its packets. *)
Definition placed (p : msp_packet) : option nat * Z := (pk_next p, pk_seq p).
Lemma window_rep_placed pk pk' w l : (∀ b, placed <$> pk' !! b = placed <$> pk !! b) → window_rep pk w l → window_rep pk' w l.
Proof.
  intros H [Hl Hn Ho]. split; [|eapply Forall_impl; [exact Hn|]|done].
  - apply (linked_ext pk); [|done]. intros b _. specialize (H b). unfold links. destruct (pk' !! b), (pk !! b); try done. cbn in *. by injection H as ->.
  - intros e (p & Hp & Hs). specialize (H e.1). rewrite Hp in H. apply fmap_Some in H as (p' & Hp' & Ep). injection Ep as _ Ep. exists p'. by rewrite <- Ep.
Qed.
Lemma same_placed pk pk' : same_packets pk pk' → ∀ b, placed <$> pk' !! b = placed <$> pk !! b.
Proof. intros H b. specialize (H b). destruct (pk' !! b), (pk !! b); try done. cbn in *. injection H as E1 E2 _ _ _ _. unfold placed. by rewrite E1, E2. Qed.
Lemma same_alike l pk pk' : same_packets pk pk' → alike l pk pk'.
Proof. intros H b _. specialize (H b). destruct (pk' !! b), (pk !! b); try done. cbn in *. injection H as _ _ E1 E2 E3 E4. unfold content. by rewrite E1, E2, E3, E4. Qed.
Lemma stream_packets sx sy base n off txl rxl pk pk' s : same_packets pk pk' → stream sx sy base n off txl rxl pk s → stream sx sy base n off txl rxl pk' s.
Proof.
  intros H []. split; try assumption; try (by apply (window_rep_placed pk); [by apply same_placed|]); try (by eapply held_alike; [apply same_alike|]).
  - intros b [p' Hp']. destruct (same_packets_some _ _ _ _ (same_packets_sym _ _ H) Hp') as (p & Hp & _). apply st_all0. by exists p.
  - by apply (read_alike _ _ pk), st_read0; apply same_alike.
Qed.

(** ** One end *)

(** The world a process runs in: its clock, its memory, the socket to the daemon and
    the application. *)
Record world (App : Type) := World {
  w_clock : nat → Z;
  w_memory : nat → bool;
  w_send : nat → io;
  w_local : bool;
  w_handler : nat → msp_handle → Z → list Z → nat → prog (msp App) nat;
}.
Arguments w_clock {App}.
Arguments w_memory {App}.
Arguments w_send {App}.
Arguments w_local {App}.
Arguments w_handler {App}.

(** Nothing fails but a send that would block, and the application, whose state shows
    what it has read, only reads: it takes a part of what it is given. *)
Class Benign {App} (W : world App) (log : App → list Z) : Prop := {
  clock i : 0 ≤ w_clock W i < 2 ^ 60;
  memory i : w_memory W i = true;
  daemon i : w_send W i ≠ Failed;
  local_addr : w_local W = true;
  reader h hd st payload c m : runs (w_handler W h hd st payload c) m (λ k m', (k ≤ length payload)%nat ∧
    ∃ v, m' = set_app v m ∧ log v = log (m_app m) ++ take k payload);
}.

(** The two addresses, the socket to the daemon, and the salt of the connection. *)
Record ends := Ends { me : mdp_sockaddr; peer : mdp_sockaddr; fd : Z; key : Z }.
Definition addressed (E : ends) : Prop := addr_port (me E) ≠ 0 ∧ addr_port (peer E) ≠ 0.

Section Live.
Context {App : Type} (W : world App) (log : App → list Z) `{!Benign W log} (E : ends).
Implicit Types m : msp App.

Record fixed (s : msp_sock) : Prop := {
  fx_next : s_next s = None;
  fx_prev : s_prev s = None;
  fx_fd : mdp_sock s = fd E;
  fx_salt : salt s = key E;
  fx_header : ∃ q t, s_header s = Header (me E) (peer E) 0 q t;
  fx_handler : ∃ h, s_handler s = Some h;
  fx_bits : has MSP_STATE_LISTENING (s_state s) = false ∧ has MSP_STATE_SHUTDOWN_LOCAL (s_state s) = false ∧ has MSP_STATE_SHUTDOWN_REMOTE (s_state s) = false;
  fx_called : last_state s = 0xFFFF ∨ 0 ≤ last_handler s;
}.
(** There is room for data: what [process_sock] asserts. *)
Definition writable (s : msp_sock) : Prop := has MSP_STATE_DATAOUT (s_state s) = negb ((MAX_WINDOW_SIZE <=? packet_count (tx s)) || has MSP_STATE_CLOSED (s_state s)).

Record live sx sy base n off txl rxl a s m : Prop := {
  lv_stream : stream sx sy base n off txl rxl (m_packets m) s;
  lv_fixed : fixed s;
  lv_sock : m_socks m !! a = Some s;
  lv_root : root m = Some a;
  lv_log : log (m_app m) = reading sy n off;
}.

Lemma live_touch sx sy base n off txl rxl a s s' m m' : live sx sy base n off txl rxl a s m →
  m_packets m' = m_packets m → m_socks m' !! a = Some s' → root m' = root m → m_app m' = m_app m →
  wcore (tx s') = wcore (tx s) → wcore (rx s') = wcore (rx s) → fixed s' → live sx sy base n off txl rxl a s' m'.
Proof.
  intros [H1 H2 H3 H4 H5] Ep Es Er Ea E1 E2 Hf. split; [rewrite Ep; by apply (stream_sock _ _ _ _ _ _ _ _ s)|done|done|by rewrite Er|by rewrite Ea].
Qed.

(** ** Datagrams *)

(** What an end that has sent [sx], whose first packet in flight is [base] and which
    waits for [n], says. *)
Inductive said (sx : list (list Z)) (base n : nat) : message → Prop :=
  | said_data k bs f q t : (base ≤ k)%nat → (origin ≤ k)%nat → sx !! (k - origin)%nat = Some bs → quiet f →
      said sx base n (Message (fd E) (Header (me E) (peer E) 0 q t) ([f] ++ write_uint16 (seqn (n - 1)) ++ write_uint16 (seqn k) ++ bs))
  | said_ack f q t : quiet f → said sx base n (Message (fd E) (Header (me E) (peer E) 0 q t) ([f] ++ write_uint16 (seqn (n - 1))))
  | said_stop q t : said sx base n (Message (fd E) (Header (me E) (peer E) 0 q t) [FLAG_STOP])
  | said_close h bs : addr_port (remote h) = 0 → said sx base n (Message (fd E) h bs).

Definition emits (P : message → Prop) m m' : Prop := ∃ new, m_out m' = m_out m ++ new ∧ Forall P new.
Lemma emits_none P m m' : m_out m' = m_out m → emits P m m'.
Proof. intros Eo. exists []. by rewrite Eo, app_nil_r. Qed.
Lemma emits_one (P : message → Prop) m m' x : m_out m' = m_out m ++ [x] → P x → emits P m m'.
Proof. intros Eo Hx. exists [x]. split; [done|]. by apply Forall_singleton. Qed.
Lemma emits_trans P m1 m2 m3 : emits P m1 m2 → emits P m2 m3 → emits P m1 m3.
Proof. intros (l1 & E1 & H1) (l2 & E2 & H2). exists (l1 ++ l2). split; [by rewrite E2, E1, app_assoc|by apply Forall_app]. Qed.

(** ** The system *)

Lemma runs_clock m (Q : Z → msp App → Prop) : (∀ t, 0 ≤ t < 2 ^ 60 → Q t (m_tick m)) → runs (gettime (w_clock W)) m Q.
Proof. intros HQ. unfold gettime. apply runs_bind, runs_event. apply runs_ret, HQ, clock. Qed.
Lemma runs_post v m (Q : io → msp App → Prop) : Q Again (m_tick m) → Q Sent (put_out v (m_tick m)) → runs (post (w_send W) v) m Q.
Proof.
  intros H1 H2. unfold post. apply runs_bind, runs_event. pose proof (daemon (m_ticks m)) as Hd. destruct (w_send W (m_ticks m)); [|by apply runs_ret|done].
  apply runs_bind, runs_change. by apply runs_ret.
Qed.
Lemma runs_mdp_send fd' h bs m (Q : Z → msp App → Prop) : (∀ r, Q r (m_tick m)) → Q 0 (put_out (Message fd' h bs) (m_tick m)) → runs (mdp_send (w_send W) (w_local W) fd' h bs) m Q.
Proof. intros H1 H2. unfold mdp_send. rewrite local_addr. cbn. apply runs_bind, runs_post; by apply runs_ret. Qed.
Lemma runs_daemon m (Q : bool → msp App → Prop) : Q true m → Q true (set_daemon true m) → runs (need_daemon (w_local W)) m Q.
Proof. intros H1 H2. unfold need_daemon. apply runs_bind, runs_ask. destruct (daemon_addr m); [by apply runs_ret|]. rewrite local_addr. apply runs_bind, runs_change. by apply runs_ret. Qed.

(** ** Calling the application *)

(** The handler is set, and was called at a time that is known or never. *)
Definition callable (s : msp_sock) : Prop := (∃ h, s_handler s = Some h) ∧ s_state s ≠ 0xFFFF ∧ (last_state s = 0xFFFF ∨ 0 ≤ last_handler s).
Definition called (s s' : msp_sock) : Prop := s' = s ∨ ∃ t, 0 ≤ t ∧ s' = set_called (s_state s) t s.
Lemma fixed_callable s : fixed s → callable s.
Proof. intros []. split_and!; [done| |done]. intros Es. destruct fx_bits0 as [H _]. by rewrite Es in H. Qed.
Lemma fixed_called s s' : called s s' → fixed s → fixed s'.
Proof. intros [->|(t & Ht & ->)] H; [done|]. destruct H. split; try done. by right. Qed.

(** The handler is called when there is something to read, or is not due. *)
Lemma call_handler_runs a s payload m : m_socks m !! a = Some s → callable s →
  runs (call_handler (w_clock W) (w_handler W) a payload) m (λ k m', (k ≤ length payload)%nat ∧ ∃ s', m_socks m' !! a = Some s' ∧ called s s' ∧
    m_packets m' = m_packets m ∧ root m' = root m ∧ m_out m' = m_out m ∧ log (m_app m') = log (m_app m) ++ take k payload).
Proof.
  intros Ha (Hh & Hword & Hcalled). unfold call_handler. apply runs_bind, (runs_sock _ s); [done|]. apply runs_bind, runs_clock. intros now Hnow.
  destruct Hh as [h Eh]. rewrite Eh. apply runs_bind.
  assert (runs (if negb (bool_decide (length payload = 0%nat)) || negb (last_state s =? s_state s) then mret true else keepalive now (last_handler s)) (m_tick m)
    (λ due m', m' = m_tick m ∧ (due = false → payload = []))) as Hdue.
  { destruct (bool_decide_reflect (length payload = 0%nat)) as [E0|E0]; cbn [negb orb]; [|by apply runs_ret]. apply nil_length_inv in E0.
    destruct (Z.eqb_spec (last_state s) (s_state s)) as [El|El]; cbn [negb]; [|by apply runs_ret]. unfold keepalive.
    destruct Hcalled as [Hc|Hc]; [by destruct Hword; rewrite <- El|]. rewrite (proj2 (Z.ltb_lt _ _)) by lia. by apply runs_ret. }
  eapply runs_mono; [exact Hdue|]. cbn beta. intros due m1 (-> & Hnil). destruct due.
  - apply runs_bind, (runs_upd_sock _ s); [done|]. apply runs_bind. eapply runs_mono; [apply reader|]. cbn beta. intros k m2 (Hk & v & -> & Hv).
    apply runs_bind, runs_assert; [by apply bool_decide_eq_true|]. apply runs_ret. split; [done|]. eexists. cbn. rewrite lookup_insert_eq. split_and!; try done.
    right. exists now. split; [lia|done].
  - apply runs_ret. rewrite (Hnil eq_refl). split; [done|]. exists s. cbn. rewrite app_nil_r. split_and!; try done. by left.
Qed.

End Live.
End MspLive.
