(* ===== verification/MspStream.v ===== *)
(** * What the operations do to a stream

    The changes of the windows that sending, acknowledging, receiving and reading
    make, each as a step from one state of a stream to another. *)

From stdpp Require Import sorting.
From S2P Require Import Prelude Prog DataFormats FdQueue FdQueueSpec Msp MspSpec MspLive.
Import Prog DataFormats FdQueueSpec Msp MspSpec MspLive.

Module MspStream.

(** ** A packet goes in *)

Lemma inserted_alike l pk pre b p : b ∉ l.*1 → alike l pk (<[b := p]> (relinked pk pre b)).
Proof.
  intros Hb c Hc. rewrite lookup_insert_ne by (by intros ->). destruct (decide (last pre.*1 = Some c)) as [E|E]; [|by rewrite relinked_ne].
  rewrite (relinked_eq _ _ _ _ E). by destruct (pk !! c).
Qed.
Lemma inserted_agree l pk pre b p : b ∉ l.*1 → (∀ c, c ∈ pre.*1 → c ∉ l.*1) → agree l pk (<[b := p]> (relinked pk pre b)).
Proof. intros Hb Hl c Hc. rewrite lookup_insert_ne by (by intros ->). apply relinked_ne. intros E. apply (Hl c); [by apply last_snoc_in|done]. Qed.
Lemma inserted_all pk pre b p c : is_Some (<[b := p]> (relinked pk pre b) !! c) → c = b ∨ is_Some (pk !! c).
Proof.
  destruct (decide (c = b)) as [->|Hne]; [by left|]. right. rewrite lookup_insert_ne in H by done. destruct (decide (last pre.*1 = Some c)) as [E|E].
  - rewrite (relinked_eq _ _ _ _ E) in H. by apply fmap_is_Some in H.
  - by rewrite relinked_ne in H.
Qed.

Lemma fresh_not_in pk w l b : window_rep pk w l → pk !! b = None → b ∉ l.*1.
Proof. intros Hw Hb Hin. destruct (linked_live _ _ _ b (wr_linked _ _ _ Hw) Hin). congruence. Qed.

Lemma held_fresh pay pk pk' b k next flags t bs : pay !! (k - origin)%nat = Some bs → (origin ≤ k)%nat → quiet flags →
  pk' = <[b := fresh_packet next (seqn k) flags t (Some bs) (length bs)]> pk → held pay pk' (b, k).
Proof.
  intros Hk Ho Hf ->. exists (fresh_packet next (seqn k) flags t (Some bs) (length bs)), bs. cbn. rewrite lookup_insert_eq. split_and!; try done.
  destruct (bool_decide_reflect (length bs = 0%nat)) as [E0|E0]; [by apply nil_length_inv in E0 as ->|cbn; by rewrite firstn_all].
Qed.
Lemma held_more pay q pk l : Forall (held pay pk) l → Forall (held (pay ++ q) pk) l.
Proof. intros Hf. eapply Forall_impl; [exact Hf|]. intros e (p & bs & H1 & H2 & H3 & H4). exists p, bs. split_and!; try apply H4; try done. by apply lookup_app_l_Some. Qed.
Lemma top_snoc sx p : top (sx ++ [p]) = S (top sx).
Proof. unfold top. rewrite length_app. cbn. lia. Qed.

(** The numbers of a window, all below [k]. *)
Lemma below_numbers (l : list (nat * nat)) base c : l.*2 = seq base c → Forall (λ e, (e.2 < base + c)%nat) l ∧ Forall (λ e, (base ≤ e.2)%nat) l.
Proof. intros E. split; apply Forall_forall; intros e He; assert (e.2 ∈ seq base c) as Hin by (rewrite <- E; by apply list_elem_of_fmap_2); apply elem_of_seq in Hin; lia. Qed.
Lemma after_all k l : Forall (λ e, (e.2 < k)%nat) l → after k l = [].
Proof. induction l as [|e l IH]; intros Hf; [done|]. apply Forall_cons in Hf as [He Hf]. unfold after in *. rewrite filter_cons, decide_False by lia. by apply IH. Qed.

(** Sending. *)
Lemma stream_send sx sy base n off txl rxl pk s payload b t w : stream sx sy base n off txl rxl pk s → pk !! b = None → (top sx < base + 5)%nat →
  let k := top sx in let pk' := <[b := fresh_packet None (seqn k) 0 t (Some payload) (length payload)]> (relinked pk txl b) in
  window_rep pk' w (txl ++ [(b, k)]) → next_seq w = seqn (S k) →
  stream (sx ++ [payload]) sy base n off (txl ++ [(b, k)]) rxl pk' (set_window_tx w s).
Proof.
  intros H Hb Hroom k pk' Hw Hseq. pose proof (fresh_not_in _ _ _ _ (st_tx _ _ _ _ _ _ _ _ _ H) Hb) as Hbt. pose proof (fresh_not_in _ _ _ _ (st_rx _ _ _ _ _ _ _ _ _ H) Hb) as Hbr.
  destruct H. assert (agree rxl pk pk') as Hag. { apply inserted_agree; [done|]. intros c Hc Hr. by apply (st_apart0 c). }
  split; cbn [tx rx set_window_tx]; try assumption.
  - by apply (window_rep_agree pk).
  - intros c Hc Hr. rewrite fmap_app in Hc. apply elem_of_app in Hc as [Hc|Hc]; [by apply (st_apart0 c)|]. change ([(b, k)].*1) with [b] in Hc. apply list_elem_of_singleton in Hc as ->. done.
  - intros c Hc. apply inserted_all in Hc. rewrite fmap_app, elem_of_app. destruct Hc as [->|Hc]; [left; right; left|]. destruct (st_all0 c Hc); [by left; left|by right].
  - rewrite fmap_app, st_txn0, top_snoc. replace (S (top sx) - base)%nat with (top sx - base + 1)%nat by lia. rewrite seq_app. cbn. unfold k. f_equal. f_equal. lia.
  - rewrite top_snoc. lia.
  - rewrite Hseq. by rewrite top_snoc.
  - apply Forall_app. split; [|apply Forall_singleton].
    + apply held_more. apply (held_alike _ pk); [by apply inserted_alike|done].
    + eapply held_fresh; [|unfold k, top; lia|by left|reflexivity]. unfold k, top. rewrite lookup_app_r by lia. by replace (origin + length sx - origin - length sx)%nat with 0%nat by lia.
  - by apply (held_alike _ pk), st_held_rx0; apply agree_alike.
  - by apply (read_alike _ _ pk), st_read0; apply agree_alike.
Qed.

(** Receiving a packet. *)
Lemma stream_receive sx sy base n off txl rxl pk s bs b k flags t w : stream sx sy base n off txl rxl pk s → pk !! b = None → k ∉ rxl.*2 →
  (origin ≤ k)%nat → sy !! (k - origin)%nat = Some bs → quiet flags → Z.of_nat n ≤ Z.of_nat k + LATE + 5 →
  let pk' := <[b := fresh_packet (head (after k rxl).*1) (seqn k) flags t (Some bs) (length bs)]> (relinked pk (before k rxl) b) in
  window_rep pk' w (before k rxl ++ (b, k) :: after k rxl) → next_seq w = next_seq (rx s) →
  stream sx sy base n off txl (before k rxl ++ (b, k) :: after k rxl) pk' (set_window_rx w s).
Proof.
  intros H Hb Hk Hok Hbs Hfl Hlate pk' Hw Hseq. pose proof (fresh_not_in _ _ _ _ (st_tx _ _ _ _ _ _ _ _ _ H) Hb) as Hbt. pose proof (fresh_not_in _ _ _ _ (st_rx _ _ _ _ _ _ _ _ _ H) Hb) as Hbr.
  destruct H. pose proof (before_after k rxl (wr_ordered _ _ _ st_rx0) Hk) as Hsplit.
  assert (∀ e, e ∈ before k rxl ++ (b, k) :: after k rxl ↔ e = (b, k) ∨ e ∈ rxl) as Hin. { intros e. rewrite Hsplit at 3. rewrite !elem_of_app, elem_of_cons. tauto. }
  assert (∀ (P : nat * nat → Prop), P (b, k) → Forall P rxl → Forall P (before k rxl ++ (b, k) :: after k rxl)) as Hall.
  { intros P H1 H2. rewrite Forall_forall in H2 |- *. intros e [->|He]%Hin; auto. }
  assert (∀ c, c ∈ (before k rxl ++ (b, k) :: after k rxl).*1 ↔ c = b ∨ c ∈ rxl.*1) as Hin1. { intros c. rewrite Hsplit at 3. rewrite !fmap_app, elem_of_app. change (((b, k) :: after k rxl).*1) with (b :: (after k rxl).*1). rewrite elem_of_cons, elem_of_app. tauto. }
  assert (agree txl pk pk') as Hag. { apply inserted_agree; [done|]. intros c Hc Ht. apply (st_apart0 c Ht). rewrite Hsplit, fmap_app. apply elem_of_app. by left. }
  assert (k < top sy)%nat as Hlt. { apply lookup_lt_Some in Hbs. unfold top. lia. }
  split; cbn [tx rx set_window_rx]; try assumption.
  - by apply (window_rep_agree pk).
  - intros c Hc [->|Hr]%Hin1; [done|by apply (st_apart0 c)].
  - intros c Hc. apply inserted_all in Hc. rewrite Hin1. destruct Hc as [->|Hc]; [by right; left|]. destruct (st_all0 c Hc); [by left|by right; right].
  - by rewrite Hseq.
  - by apply (held_alike _ pk), st_held_tx0; apply agree_alike.
  - apply Hall; [|apply (held_alike _ pk); [by apply inserted_alike|done]]. by eapply held_fresh.
  - by apply Hall.
  - apply Hall; [|apply (read_alike _ _ pk); [by apply inserted_alike|done]]. intros p Hp Hn. unfold pk' in Hp. cbn [fst] in Hp. rewrite lookup_insert_eq in Hp. injection Hp as <-. cbn in Hn |- *. destruct (decide (k = n)) as [->|]; [|done]. by rewrite (proj1 st_off0 Hk).
  - split; [|apply st_off0]. intros Hn. apply st_off0. intros Hr. apply Hn. apply list_elem_of_fmap_1 in Hr as (e & -> & He). apply list_elem_of_fmap_2, Hin. by right.
Qed.

(** The other end sends. *)
Lemma stream_grow sx sy base n off txl rxl pk s p : stream sx sy base n off txl rxl pk s → (top sy < n + 5)%nat → stream sx (sy ++ [p]) base n off txl rxl pk s.
Proof.
  intros [] Hn. split; try assumption.
  - rewrite top_snoc. lia.
  - by apply held_more.
  - eapply Forall_impl; [exact st_late0|]. intros e He. rewrite top_snoc. cbn in He. lia.
  - split; [apply st_off0|]. destruct st_off0 as [Ho1 Ho2]. destruct (sy !! (n - origin)%nat) as [x|] eqn:E.
    + by rewrite (lookup_app_l_Some _ _ _ _ E).
    + cbn in Ho2. lia.
Qed.
Lemma reading_grow sy n off p : (origin ≤ n ∧ n ≤ top sy)%nat → (off ≤ length (default [] (sy !! (n - origin)%nat)))%nat → reading (sy ++ [p]) n off = reading sy n off.
Proof.
  intros [H1 H2] Ho. unfold reading, top in *. rewrite take_app_le by lia. f_equal. destruct (sy !! (n - origin)%nat) as [x|] eqn:E; [by rewrite (lookup_app_l_Some _ _ _ _ E)|].
  cbn in Ho. assert (off = 0)%nat as -> by lia. done.
Qed.

(** ** Packets go out *)

Lemma freed_agree d l pk pk' : freed d pk pk' → (∀ c, c ∈ l.*1 → c ∉ d) → agree l pk pk'.
Proof. intros Hf Hd c Hc. rewrite (Hf c). by rewrite decide_False by (by apply Hd). Qed.
Lemma freed_all d pk pk' c : freed d pk pk' → is_Some (pk' !! c) → is_Some (pk !! c) ∧ c ∉ d.
Proof. intros Hf. rewrite (Hf c). destruct (decide (c ∈ d)); [|done]. by intros [? ?]. Qed.
Lemma after_in j l e : e ∈ after j l ↔ (j < e.2)%nat ∧ e ∈ l.
Proof. apply (list_elem_of_filter (λ e : nat * nat, (j < e.2)%nat)). Qed.
Lemma after_sub j (l : list (nat * nat)) c : c ∈ (after j l).*1 → c ∈ l.*1.
Proof. intros (e & -> & [_ He]%after_in)%list_elem_of_fmap_1. by apply list_elem_of_fmap_2. Qed.
Lemma after_forall j (P : nat * nat → Prop) l : Forall P l → Forall P (after j l).
Proof. intros Hf. rewrite Forall_forall in Hf |- *. intros e [_ He]%after_in. by apply Hf. Qed.
(** The packets not acknowledged are none of the others. *)
Lemma after_apart j l : ordered l → NoDup l.*1 → (∀ c, c ∈ (after j l).*1 → c ∉ (acked_upto j l).*1) ∧ (∀ c, c ∈ l.*1 → c ∉ (acked_upto j l).*1 → c ∈ (after j l).*1).
Proof.
  intros Ho Hnd. pose proof (acked_after j l Ho) as Hs. split; intros c.
  - rewrite Hs, fmap_app in Hnd. apply NoDup_app in Hnd as (_ & Hd & _). intros Hc Ha. by apply (Hd c).
  - rewrite Hs at 1. rewrite fmap_app, elem_of_app. by intros [?|?].
Qed.

Lemma after_seq i l : ∀ base c, l.*2 = seq base c → (after i l).*2 = seq (base `max` S i) (base + c - base `max` S i).
Proof.
  induction l as [|e l IH]; intros base c E; (destruct c as [|c]; [|]); try done.
  - change (after i []) with (@nil (nat * nat)). by replace (base + 0 - base `max` S i)%nat with 0%nat by lia.
  - change (e.2 :: l.*2 = base :: seq (S base) c) in E. injection E as Ee El. destruct (decide (e.2 ≤ i)%nat) as [Hi|Hi].
    + rewrite (proj1 (after_drop i e l Hi)), (IH _ _ El). f_equal; lia.
    + unfold after. rewrite filter_cons, decide_True by lia. change ((e :: filter (λ e0, (i < e0.2)%nat) l).*2) with (e.2 :: (after i l).*2). rewrite (IH _ _ El).
      replace (base `max` S i)%nat with base by lia. replace (S base `max` S i)%nat with (S base) by lia. replace (base + S c - base)%nat with (S c) by lia. cbn. rewrite Ee. f_equal. f_equal. lia.
Qed.

(** The other end acknowledges what comes before [j]. *)
Lemma stream_acked sx sy base n off txl rxl pk pk' s j w : stream sx sy base n off txl rxl pk s → (origin ≤ j ∧ j ≤ top sx)%nat →
  freed (acked_upto (j - 1) txl).*1 pk pk' → window_rep pk' w (after (j - 1) txl) → next_seq w = next_seq (tx s) →
  stream sx sy (base `max` j) n off (after (j - 1) txl) rxl pk' (set_window_tx w s).
Proof.
  intros [] Hj Hf Hw Hseq. pose proof origin_Z. destruct (after_apart (j - 1) txl (wr_ordered _ _ _ st_tx0) (lk_nodup _ _ _ (wr_linked _ _ _ st_tx0))) as [Hap Hrest].
  assert (∀ c, c ∈ (acked_upto (j - 1) txl).*1 → c ∈ txl.*1) as Hsub. { intros c (e & -> & [_ He]%list_elem_of_filter)%list_elem_of_fmap_1. by apply list_elem_of_fmap_2. }
  assert (agree rxl pk pk') as Hr. { apply (freed_agree _ _ _ _ Hf). intros c Hc Hin. apply (st_apart0 c); [by apply Hsub|done]. }
  assert (agree (after (j - 1) txl) pk pk') as Ht. { by apply (freed_agree _ _ _ _ Hf). }
  split; cbn [tx rx set_window_tx]; try assumption.
  - by apply (window_rep_agree pk).
  - intros c Hc Hr'. apply (st_apart0 c); [by eapply after_sub|done].
  - intros c Hc. destruct (freed_all _ _ _ _ Hf Hc) as [Hc1 Hc2]. destruct (st_all0 c Hc1); [left; by apply Hrest|by right].
  - rewrite (after_seq _ _ _ _ st_txn0). f_equal; lia.
  - lia.
  - by rewrite Hseq.
  - apply (held_alike _ pk); [by apply agree_alike|]. by apply after_forall.
  - apply (held_alike _ pk); [by apply agree_alike|done].
  - apply (read_alike _ _ pk); [by apply agree_alike|done].
Qed.

(** What has been read is freed. *)
Lemma stream_freed sx sy base n off txl rxl pk pk' s w : stream sx sy base n off txl rxl pk s →
  freed (acked_upto (n - 1) rxl).*1 pk pk' → window_rep pk' w (after (n - 1) rxl) → next_seq w = next_seq (rx s) →
  stream sx sy base n off txl (after (n - 1) rxl) pk' (set_window_rx w s).
Proof.
  intros [] Hf Hw Hseq. pose proof origin_Z. destruct (after_apart (n - 1) rxl (wr_ordered _ _ _ st_rx0) (lk_nodup _ _ _ (wr_linked _ _ _ st_rx0))) as [Hap Hrest].
  assert (∀ c, c ∈ (acked_upto (n - 1) rxl).*1 → c ∈ rxl.*1) as Hsub. { intros c (e & -> & [_ He]%list_elem_of_filter)%list_elem_of_fmap_1. by apply list_elem_of_fmap_2. }
  assert (agree txl pk pk') as Ht. { apply (freed_agree _ _ _ _ Hf). intros c Hc Hin. apply (st_apart0 c); [done|by apply Hsub]. }
  assert (agree (after (n - 1) rxl) pk pk') as Hr. { by apply (freed_agree _ _ _ _ Hf). }
  split; cbn [tx rx set_window_rx]; try assumption; try (by apply after_forall).
  - by apply (window_rep_agree pk).
  - intros c Hc Hr'. apply (st_apart0 c); [done|by eapply after_sub].
  - intros c Hc. destruct (freed_all _ _ _ _ Hf Hc) as [Hc1 Hc2]. destruct (st_all0 c Hc1); [by left|right; by apply Hrest].
  - by rewrite Hseq.
  - apply (held_alike _ pk); [by apply agree_alike|done].
  - apply (held_alike _ pk); [by apply agree_alike|]. by apply after_forall.
  - apply (read_alike _ _ pk); [by apply agree_alike|]. by apply after_forall.
  - split; [|apply st_off0]. intros Hn. apply st_off0. intros Hr'. apply Hn. apply list_elem_of_fmap_1 in Hr' as (e & -> & He). apply list_elem_of_fmap_2, after_in. split; [lia|done].
Qed.

(** ** The application reads *)

Lemma entry_number (l : list (nat * nat)) x y : NoDup l.*1 → x ∈ l → y ∈ l → x.1 = y.1 → x = y.
Proof.
  intros Hnd [i Hi]%list_elem_of_lookup_1 [j Hj]%list_elem_of_lookup_1 E. assert (i = j) as ->; [|congruence].
  eapply (NoDup_lookup l.*1 i j x.1); [done|by rewrite list_lookup_fmap, Hi|by rewrite list_lookup_fmap, Hj, E].
Qed.
Lemma ordered_nodup l : ordered l → NoDup l.*2.
Proof.
  induction l as [|e l IH]; intros Ho; [apply NoDup_nil_2|]. apply StronglySorted_inv in Ho as [Ho Hf]. apply NoDup_cons_2; [|by apply IH].
  intros (x & E & Hx)%list_elem_of_fmap_1. rewrite Forall_forall in Hf. specialize (Hf x Hx). lia.
Qed.
Lemma entry_place (l : list (nat * nat)) x y : ordered l → x ∈ l → y ∈ l → x.2 = y.2 → x = y.
Proof.
  intros Hnd%ordered_nodup [i Hi]%list_elem_of_lookup_1 [j Hj]%list_elem_of_lookup_1 E. assert (i = j) as ->; [|congruence].
  eapply (NoDup_lookup l.*2 i j x.2); [done|by rewrite list_lookup_fmap, Hi|by rewrite list_lookup_fmap, Hj, E].
Qed.

Lemma stream_take sx sy base n off txl rxl pk s b p bs r : stream sx sy base n off txl rxl pk s → (b, n) ∈ rxl → pk !! b = Some p →
  sy !! (n - origin)%nat = Some bs → (off + r ≤ length bs)%nat → stream sx sy base n (off + r) txl rxl (<[b := set_pk_offset (off + r) p]> pk) s.
Proof.
  intros [] Hin Hp Hbs Hle. assert (∀ c, placed <$> <[b := set_pk_offset (off + r) p]> pk !! c = placed <$> pk !! c) as Hpl.
  { intros c. destruct (decide (c = b)) as [->|Hne]; [by rewrite lookup_insert_eq, Hp|by rewrite lookup_insert_ne]. }
  assert (∀ pay l, Forall (held pay pk) l → Forall (held pay (<[b := set_pk_offset (off + r) p]> pk)) l) as Hh.
  { intros pay l Hf. eapply Forall_impl; [exact Hf|]. intros e (q & x & Hq & Hr). destruct (decide (e.1 = b)) as [E|E].
    - rewrite E, Hp in Hq. injection Hq as <-. exists (set_pk_offset (off + r) p), x. by rewrite E, lookup_insert_eq.
    - exists q, x. by rewrite lookup_insert_ne. }
  split; try assumption; try (by apply (window_rep_placed pk)); try (by apply Hh).
  - intros c. destruct (decide (c = b)) as [->|Hne]; [intros _; apply st_all0; by exists p|rewrite lookup_insert_ne by done; apply st_all0].
  - rewrite Forall_forall in st_read0 |- *. intros e He q Hq Hn. destruct (decide (e.1 = b)) as [E|E].
    + rewrite E, lookup_insert_eq in Hq. injection Hq as <-. assert (e.2 = n) as ->; [|by rewrite decide_True].
      by rewrite (entry_number rxl e (b, n) (lk_nodup _ _ _ (wr_linked _ _ _ st_rx0)) He Hin E).
    + rewrite lookup_insert_ne in Hq by done. rewrite (st_read0 e He q Hq Hn). destruct (decide (e.2 = n)) as [E2|]; [|done].
      destruct E. by rewrite (entry_place rxl e (b, n) (wr_ordered _ _ _ st_rx0) He Hin E2).
  - split; [|by rewrite Hbs]. intros Hn. exfalso. apply Hn. by apply (list_elem_of_fmap_2 snd) in Hin.
Qed.
Lemma reading_take sy n off r bs : sy !! (n - origin)%nat = Some bs → reading sy n (off + r) = reading sy n off ++ take r (drop off bs).
Proof. intros E. unfold reading. rewrite E. cbn. by rewrite <- app_assoc, take_take_drop. Qed.

(** A packet has been read to the end. *)
Lemma stream_advance sx sy base n txl rxl pk s b bs w : stream sx sy base n (length bs) txl rxl pk s → (b, n) ∈ rxl →
  sy !! (n - origin)%nat = Some bs → Forall (λ e, Z.of_nat (S n) ≤ Z.of_nat e.2 + LATE + 5) rxl →
  wcore w = (packet_count (rx s), seqn (S n), w_head (rx s), w_tail (rx s)) → stream sx sy base (S n) 0 txl rxl pk (set_window_rx w s).
Proof.
  intros [] Hin Hbs Hlate Hw. injection Hw as Hw1 Hw2 Hw3 Hw4. assert (n < top sy)%nat as Hn. { apply lookup_lt_Some in Hbs. unfold top. lia. }
  split; cbn [tx rx set_window_rx]; try assumption.
  - destruct st_rx0 as [[] ? ?]. split; [|done|done]. split; congruence.
  - lia.
  - rewrite Forall_forall in st_late0, Hlate |- *. intros e He. split; [by apply Hlate|]. by apply st_late0.
  - rewrite Forall_forall in st_read0 |- *. intros e He p Hp Hle. rewrite (st_read0 e He p Hp) by lia. rewrite decide_False by lia. by destruct (decide _).
  - split; [done|]. lia.
Qed.
Lemma reading_advance sy n bs : sy !! (n - origin)%nat = Some bs → (origin ≤ n)%nat → reading sy (S n) 0 = reading sy n (length bs).
Proof.
  intros E Hn. unfold reading. rewrite E. cbn. rewrite app_nil_r, firstn_all. replace (S n - origin)%nat with (S (n - origin)) by lia.
  rewrite (take_S_r _ _ _ E), concat_app. cbn. by rewrite app_nil_r.
Qed.

End MspStream.
