(* ===== verification/MspProcess.v ===== *)
(** * Processing a stream

    [msp_processing] on a connected socket: what is in order is read, what has been
    read is freed, packets and acknowledgements go out, and a socket that is closed
    is freed. *)

From stdpp Require Import sorting.
From S2P Require Import Prelude Prog DataFormats FdQueue FdQueueSpec Msp MspSpec MspLive MspStream.
Import Prog DataFormats FdQueueSpec Msp MspSpec MspLive MspStream.

Module MspProcess.

(** The rounds that are left for packets: one for each byte to read, and one. *)
Definition weight (pk : gmap nat msp_packet) (l : list (nat * nat)) : nat :=
  sum_list ((λ e, match pk !! e.1 with Some p => S (pk_len p - pk_offset p) | None => 0%nat end) <$> l).
Lemma weight_cons pk b k l p : pk !! b = Some p → weight pk ((b, k) :: l) = (S (pk_len p - pk_offset p) + weight pk l)%nat.
Proof. intros E. unfold weight. cbn. by rewrite E. Qed.
Lemma weight_insert pk b p l : b ∉ l.*1 → weight (<[b := p]> pk) l = weight pk l.
Proof.
  induction l as [|e l IH]; intros Hb; [done|]. change (b ∉ e.1 :: l.*1) in Hb. apply not_elem_of_cons in Hb as [Hne Hb]. unfold weight in *. cbn. rewrite lookup_insert_ne by done. by rewrite IH.
Qed.
Definition total_len (pk : gmap nat msp_packet) : nat := map_fold (λ _ k n, S (pk_len k) + n)%nat 0%nat pk.
Lemma total_len_delete pk b p : pk !! b = Some p → total_len pk = (S (pk_len p) + total_len (delete b pk))%nat.
Proof. intros E. unfold total_len. apply (map_fold_delete_L (λ _ k n, S (pk_len k) + n)%nat); [|done]. intros. lia. Qed.
Lemma weight_total l : ∀ pk, NoDup l.*1 → (weight pk l ≤ total_len pk)%nat.
Proof.
  induction l as [|[b k] l IH]; intros pk Hnd; [cbn; lia|]. change (NoDup (b :: l.*1)) in Hnd. apply NoDup_cons in Hnd as [Hb Hnd].
  destruct (pk !! b) as [p|] eqn:E.
  - rewrite (weight_cons _ _ _ _ _ E), (total_len_delete _ _ _ E). specialize (IH (delete b pk) Hnd).
    assert (weight (delete b pk) l = weight pk l) as Hw by (rewrite <- (insert_delete_id pk b p E) at 2; by rewrite weight_insert). lia.
  - unfold weight. cbn. rewrite E. by apply IH.
Qed.

Lemma called_same s s' : called s s' → tx s' = tx s ∧ rx s' = rx s ∧ s_state s' = s_state s.
Proof. by intros [->|(t & _ & ->)]. Qed.

Section Process.
Context {App : Type} (W : world App) (log : App → list Z) `{!Benign W log} (E : ends) (ports : addressed E).
Implicit Types m : msp App.
Abbreviation live := (live log E).
Abbreviation fixed := (fixed E).

Lemma live_entry sx sy base n off txl rxl a s m b k : live sx sy base n off txl rxl a s m → (b, k) ∈ rxl →
  ∃ p bs, m_packets m !! b = Some p ∧ pk_seq p = seqn k ∧ near k n ∧ (k < top sy)%nat ∧ sy !! (k - origin)%nat = Some bs ∧ pk_len p = length bs ∧
    default [] (pk_payload p) = bs ∧ quiet (pk_flags p) ∧ (k = n → pk_offset p = off).
Proof.
  intros [[] _ _ _ _] Hin. pose proof origin_Z. rewrite !Forall_forall in *. destruct (st_held_rx0 _ Hin) as (p & bs & H1 & H2 & H3 & H4 & H5 & H6). cbn in *.
  pose proof (wr_numbered _ _ _ st_rx0) as Hnum. rewrite Forall_forall in Hnum. destruct (Hnum _ Hin) as (p' & Hp' & Hs). cbn in *. rewrite H1 in Hp'. injection Hp' as <-.
  destruct (st_late0 _ Hin) as [L1 L2]. cbn in *. unfold LATE in L1. exists p, bs. split_and!; try done; [unfold near; lia|].
  intros ->. rewrite (st_read0 _ Hin p H1) by (cbn; lia). by rewrite decide_True.
Qed.

(** What reading does not change. *)
Definition unread (s s' : msp_sock) : Prop := tx s' = tx s ∧ s_state s' = s_state s.

Lemma deliver_loop_runs sx sy base txl rxl a lo fuel : (top sy ≤ lo + 5)%nat → Forall (λ e, (lo ≤ e.2)%nat) rxl → ∀ n off rest pre s m,
  live sx sy base n off txl rxl a s m → rxl = pre ++ rest → (weight (m_packets m) rest ≤ fuel)%nat →
  runs (deliver_loop (w_clock W) (w_handler W) fuel a (head rest.*1)) m (λ _ m', ∃ n' off' s', live sx sy base n' off' txl rxl a s' m' ∧ (n ≤ n')%nat ∧ m_out m' = m_out m ∧ unread s s').
Proof.
  intros Hlo Hall. induction fuel as [|fuel IH]; intros n off rest pre s m Hlive El Hw; (destruct rest as [|[b k] rest]; [apply runs_ret; by exists n, off, s|]);
    (assert ((b, k) ∈ rxl) as Hin by (rewrite El; apply elem_of_app; right; left)); destruct (live_entry _ _ _ _ _ _ _ _ _ _ _ _ Hlive Hin) as (p & bs & Hp & Hseq & Hnear & Hk & Hbs & Hlen & Hpay & Hq & Hoff).
  { rewrite (weight_cons _ _ _ _ _ Hp) in Hw. lia. }
  pose proof Hlive as [Hst Hfx Hs Hr Hlog]. cbn [deliver_loop fmap list_fmap head fst]. apply runs_bind, (runs_packet _ p); [done|]. apply runs_bind, (runs_sock _ s); [done|].
  rewrite Hseq, (st_rxn _ _ _ _ _ _ _ _ _ Hst). destruct (Z.eqb_spec (seqn k) (seqn n)) as [Ek|Ek]; [|apply runs_ret; by exists n, off, s]. apply seqn_near in Ek as ->; [|done]. specialize (Hoff eq_refl).
  destruct (quiet_flags _ Hq) as (Hsh & _). rewrite Hsh. cbn [negb]. apply runs_bind, runs_ret. destruct (st_off _ _ _ _ _ _ _ _ _ Hst) as [_ Hmax]. rewrite Hbs in Hmax. cbn in Hmax.
  apply runs_bind, runs_assert; [apply bool_decide_eq_true; lia|]. rewrite Hpay, Hoff. apply runs_bind. eapply runs_mono; [apply (call_handler_runs W log a s _ _ Hs), (fixed_callable _ _ Hfx)|]. cbn beta.
  intros r m1 (Hrl & s1 & Hs1 & Hc1 & Hpk1 & Hr1 & Ho1 & Hlog1). rewrite length_drop in Hrl. pose proof (fixed_called _ _ _ Hc1 Hfx) as Hfx1. destruct (called_same _ _ Hc1) as (Htx1 & Hrx1 & Hstate1).
  assert (stream sx sy base n off txl rxl (m_packets m1) s1) as Hst1 by (rewrite Hpk1; by apply (stream_sock _ _ _ _ _ _ _ _ s); rewrite ?Htx1, ?Hrx1).
  apply runs_bind, (runs_packet _ p); [by rewrite Hpk1|]. rewrite Hlen, Hoff.
  destruct (bool_decide (r = 0%nat) && bool_decide (off < length bs)%nat) eqn:Eb.
  { apply andb_true_iff in Eb as [Er%bool_decide_eq_true _]. apply runs_ret. exists n, off, s1. rewrite Er in Hlog1. cbn in Hlog1. rewrite app_nil_r in Hlog1.
    split_and!; [split; congruence|lia|done|done]. }
  assert (off < length bs → r ≠ 0)%nat as Hpos. { intros Hlt ->. by rewrite !bool_decide_true in Eb. }
  apply runs_bind, (runs_upd_packet _ p); [by rewrite Hpk1|]. rewrite Hoff, Hpk1. apply runs_bind. eapply runs_packet; [cbn; apply lookup_insert_eq|]. cbn [pk_offset pk_len pk_next set_pk_offset]. rewrite Hlen.
  rewrite Hpk1 in Hst1. pose proof (stream_take _ _ _ _ _ _ _ _ _ b p bs r Hst1 Hin Hp Hbs ltac:(lia)) as Hst2.
  rewrite Hlog in Hlog1. rewrite <- (reading_take _ _ _ _ _ Hbs) in Hlog1. rewrite (weight_cons _ _ _ _ _ Hp), Hlen, Hoff in Hw.
  assert (b ∉ rest.*1) as Hnb. { pose proof (lk_nodup _ _ _ (wr_linked _ _ _ (st_rx _ _ _ _ _ _ _ _ _ Hst))) as Hnd. rewrite El, fmap_app in Hnd. by apply (NoDup_mid b) in Hnd as (_ & ? & _). }
  destruct (bool_decide_reflect (off + r < length bs)%nat) as [Hlt|Hge].
  - set (m2 := set_packets _ m1). change (Some b) with (head ((b, n) :: rest).*1). eapply runs_mono; [apply (IH n (off + r)%nat ((b, n) :: rest) pre s1 m2)|].
    + split; [done|done|done|cbn; congruence|done].
    + done.
    + erewrite weight_cons by apply lookup_insert_eq. cbn [pk_len pk_offset set_pk_offset m_packets m2 set_packets]. rewrite weight_insert by done. rewrite Hlen. lia.
    + cbn beta. intros _ m' (n' & off' & s' & H1 & H2 & H3 & H4 & H5). exists n', off', s'. split_and!; [done|done|by rewrite H3|cbn in H4, H5; split; congruence].
  - assert (off + r = length bs)%nat as Eoff by lia. rewrite Eoff in Hst2, Hlog1 |- *. set (m2 := set_packets _ m1). apply runs_bind, runs_assert; [by apply bool_decide_eq_true|].
    apply runs_bind, (runs_upd_window _ _ s1); [done|]. cbn [window set_window]. rewrite (st_rxn _ _ _ _ _ _ _ _ _ Hst2), seqn_succ. set (m3 := set_socks _ m2).
    assert (pk_next p = head rest.*1) as ->.
    { pose proof (wr_linked _ _ _ (st_rx _ _ _ _ _ _ _ _ _ Hst)) as Hl. rewrite El, fmap_app in Hl. change (((b, n) :: rest).*1) with (b :: rest.*1) in Hl. destruct (window_next _ _ _ _ _ Hl) as (q & Hq2 & Hn). rewrite Hp in Hq2. injection Hq2 as <-. exact Hn. }
    eapply runs_mono; [apply (IH (S n) 0%nat rest (pre ++ [(b, n)]) (set_window_rx (set_next_seq (seqn (S n)) (rx s1)) s1) m3)|].
    + split; [|by destruct Hfx1|cbn; by rewrite lookup_insert_eq|by cbn; congruence|by rewrite (reading_advance _ _ _ Hbs) by (pose proof (st_n _ _ _ _ _ _ _ _ _ Hst); lia)].
      apply (stream_advance _ _ _ _ _ _ _ _ b bs); [done|done|done| |done]. eapply Forall_impl; [exact Hall|]. cbn. intros e He. unfold LATE. lia.
    + by rewrite El, <- app_assoc.
    + cbn [m_packets m3 m2 set_socks set_packets]. rewrite weight_insert by done. lia.
    + cbn beta. intros _ m' (n' & off' & s' & H1 & H2 & H3 & H4 & H5). exists n', off', s'. split_and!; [done|lia|by rewrite H3|cbn in H4, H5; split; congruence].
Qed.

(** ** Reading *)

Lemma near_all sx sy base n off txl rxl a s m j : live sx sy base n off txl rxl a s m → (n ≤ j + 1 ∧ j ≤ top sy)%nat → Forall (λ e, near e.2 j) rxl.
Proof.
  intros [[] _ _ _ _] Hj. eapply Forall_impl; [exact st_late0|]. intros e He. cbn in He. unfold near, LATE in *. lia.
Qed.

Lemma deliver_runs sx sy base n off txl rxl a s m : live sx sy base n off txl rxl a s m →
  runs (fuel ← deliver_fuel; deliver_loop (w_clock W) (w_handler W) fuel a (w_head (rx s))) m
    (λ _ m', ∃ n' off' s', live sx sy base n' off' txl rxl a s' m' ∧ (n ≤ n')%nat ∧ m_out m' = m_out m ∧ unread s s').
Proof.
  intros Hlive. pose proof Hlive as [Hst _ Hs _ _]. apply runs_bind, runs_ask. change (map_fold _ _ _) with (total_len (m_packets m)).
  pose proof (wr_linked _ _ _ (st_rx _ _ _ _ _ _ _ _ _ Hst)) as Hl. pose proof (weight_total rxl (m_packets m) (lk_nodup _ _ _ Hl)) as Hw. rewrite (lk_head _ _ _ Hl).
  pose proof (st_n _ _ _ _ _ _ _ _ _ Hst) as Hn. destruct rxl as [|[b k] rxl]; [|set (l0 := (b, k) :: rxl) in *; destruct (decide (k = n)) as [->|Hne]].
  - by apply (deliver_loop_runs sx sy base txl [] a n _ ltac:(lia) ltac:(constructor) n off [] [] s m Hlive eq_refl).
  - apply (deliver_loop_runs sx sy base txl l0 a n _ ltac:(lia)) with (pre := []) (off := off); try done.
    pose proof (wr_ordered _ _ _ (st_rx _ _ _ _ _ _ _ _ _ Hst)) as Ho. apply StronglySorted_inv in Ho as [_ Hf]. constructor; [done|]. eapply Forall_impl; [exact Hf|]. cbn. lia.
  - destruct (live_entry _ _ _ _ _ _ _ _ _ _ b k Hlive ltac:(left)) as (p & bs & Hp & Hseq & Hnear & _ & _ & Hlen & _). unfold l0 in Hw. rewrite (weight_cons _ _ _ _ _ Hp) in Hw.
    change (head l0.*1) with (Some b). destruct (total_len (m_packets m)) as [|fuel]; [lia|]. cbn [deliver_loop]. apply runs_bind, (runs_packet _ p); [done|]. apply runs_bind, (runs_sock _ s); [done|].
    rewrite Hseq, (st_rxn _ _ _ _ _ _ _ _ _ Hst). destruct (Z.eqb_spec (seqn k) (seqn n)) as [Ek|Ek]; [by apply (seqn_near _ _ Hnear) in Ek|]. apply runs_ret. by exists n, off, s.
Qed.

Lemma free_read_runs sx sy base n off txl rxl a s m : live sx sy base n off txl rxl a s m →
  runs (s ← the_sock a; free_acked_packets (w_clock W) a Rx (last_seq s)) m
    (λ _ m', ∃ rxl' s', live sx sy base n off txl rxl' a s' m' ∧ Forall (λ e, (n ≤ e.2)%nat) rxl' ∧ m_out m' = m_out m ∧ unread s s').
Proof.
  intros Hlive. pose proof Hlive as [Hst Hfx Hs Hr Hlog]. pose proof (st_n _ _ _ _ _ _ _ _ _ Hst) as Hn. pose proof origin_Z.
  apply runs_bind, (runs_sock _ s); [done|]. unfold last_seq. rewrite (st_rxn _ _ _ _ _ _ _ _ _ Hst), seqn_pred by lia.
  eapply runs_mono; [apply (free_acked_runs (w_clock W) a Rx (n - 1) rxl m s Hs (st_rx _ _ _ _ _ _ _ _ _ Hst))|].
  { apply (near_all _ _ _ _ _ _ _ _ _ _ _ Hlive). lia. }
  cbn beta. intros _ m' (Hsd & Hf & w & Hs' & [Hseq _] & Hw). exists (after (n - 1) rxl), (set_window_rx w s). split_and!.
  - split; [by apply (stream_freed _ _ _ _ _ _ _ (m_packets m))|by destruct Hfx|done|by rewrite (sd_root _ _ _ Hsd)|by rewrite (sd_app _ _ _ Hsd)].
  - apply Forall_forall. intros e [He _]%after_in. lia.
  - apply Hsd.
  - done.
Qed.

(** ** The window *)

Lemma count_packets_runs pk w l fuel : ∀ p l', linked pk w l → l = p ++ l' → (length l' ≤ fuel)%nat → ∀ m, m_packets m = pk →
  runs (count_packets fuel (head l')) m (λ r m', m' = m ∧ r = Z.of_nat (length l')).
Proof.
  induction fuel as [|fuel IH]; intros p l' Hl -> Hlen m Em; (destruct l' as [|b l']; [by apply runs_ret|]); cbn in Hlen; [lia|].
  destruct (window_next _ _ _ _ _ Hl) as (k & Hk & Hn). cbn [count_packets head]. apply runs_bind, (runs_packet _ k); [by rewrite Em|]. rewrite Hn. apply runs_bind.
  eapply runs_mono; [apply (IH (p ++ [b]) l' Hl); [by rewrite <- app_assoc|lia|done]|]. cbn beta. intros r m' [-> ->]. apply runs_ret. split; [done|]. cbn. lia.
Qed.

Lemma check_window_runs sx sy base n off txl rxl a s m : live sx sy base n off txl rxl a s m → writable s → runs (check_window a) m (λ _ m', m' = m).
Proof.
  intros Hlive Hw. pose proof Hlive as [Hst Hfx Hs Hr Hlog]. pose proof (wr_linked _ _ _ (st_tx _ _ _ _ _ _ _ _ _ Hst)) as Hl. unfold check_window. apply runs_bind, (runs_sock _ s); [done|]. apply runs_bind, runs_ask. apply runs_bind.
  rewrite (lk_head _ _ _ Hl). eapply runs_mono; [apply (count_packets_runs _ _ _ _ [] _ Hl eq_refl (linked_size _ _ _ Hl) m eq_refl)|]. cbn beta. intros r m' [-> ->].
  rewrite <- (proj1 (lk_count _ _ _ Hl)). apply runs_bind, runs_assert; [apply Z.eqb_refl|]. destruct (fx_bits _ _ Hfx) as (_ & Hsl & _). rewrite has_split, Hsl, orb_false_r.
  unfold writable in Hw. destruct ((MAX_WINDOW_SIZE <=? packet_count (tx s)) || has MSP_STATE_CLOSED (s_state s)); by apply runs_assert; rewrite ?Hw.
Qed.

(** ** Sending *)

(** What sending does not change. *)
Definition kept (s s' : msp_sock) : Prop := s_state s' = s_state s ∧ packet_count (tx s') = packet_count (tx s).
Lemma sock_kept_trans s1 s2 s3 : kept s1 s2 → kept s2 s3 → kept s1 s3.
Proof. intros [H1 H2] [H3 H4]. split; congruence. Qed.
Lemma kept_writable s s' : kept s s' → writable s → writable s'.
Proof. unfold writable. by intros [-> ->]. Qed.

Lemma live_sent sx sy base n off txl rxl a s m b p t : live sx sy base n off txl rxl a s m → m_packets m !! b = Some p →
  live sx sy base n off txl rxl a s (set_packets (<[b := set_pk_sent t p]> (m_packets m)) m).
Proof.
  intros [H1 H2 H3 H4 H5] Hp. split; try done. apply (stream_packets _ _ _ _ _ _ _ (m_packets m)); [|done]. intros c. cbn.
  destruct (decide (c = b)) as [->|Hne]; [by rewrite lookup_insert_eq, Hp|by rewrite lookup_insert_ne].
Qed.

(** The socket after a datagram has gone out. *)
Lemma live_posted sx sy base n off txl rxl a s m t v : live sx sy base n off txl rxl a s m →
  live sx sy base n off txl rxl a (set_next_ack v (set_window_tx (set_activity t (tx s)) s)) (set_socks (<[a := set_next_ack v (set_window_tx (set_activity t (tx s)) s)]> (m_socks m)) m).
Proof. intros H. eapply live_touch; [exact H|done|cbn; apply lookup_insert_eq|done|done|done|done|]. destruct H as [_ [] _ _ _]. by split. Qed.

Lemma live_state sx sy base n off txl rxl a s m m' : live sx sy base n off txl rxl a s m → m_packets m' = m_packets m → m_socks m' = m_socks m → root m' = root m → m_app m' = m_app m →
  live sx sy base n off txl rxl a s m'.
Proof. intros [] E1 E2 E3 E4. split; congruence. Qed.

(** A change of a socket that is none of its windows, links, flags and addresses. *)
Definition minor (s s' : msp_sock) : Prop := tx s' = tx s ∧ rx s' = rx s ∧ s_next s' = s_next s ∧ s_prev s' = s_prev s ∧ mdp_sock s' = mdp_sock s ∧ salt s' = salt s ∧
  s_header s' = s_header s ∧ s_handler s' = s_handler s ∧ s_state s' = s_state s ∧ last_state s' = last_state s ∧ last_handler s' = last_handler s.
Lemma live_minor sx sy base n off txl rxl a s s' m : live sx sy base n off txl rxl a s m → minor s s' → live sx sy base n off txl rxl a s' (set_socks (<[a := s']> (m_socks m)) m).
Proof.
  intros H (E1 & E2 & E3 & E4 & E5 & E6 & E7 & E8 & E9 & E10 & E11). eapply live_touch; [exact H|done|cbn; apply lookup_insert_eq|done|done|by rewrite E1|by rewrite E2|].
  destruct H as [_ [] _ _ _]. split; rewrite ?E3, ?E4, ?E5, ?E6, ?E7, ?E8, ?E9, ?E10, ?E11; done.
Qed.
Lemma minor_kept s s' : minor s s' → kept s s'.
Proof. intros (E1 & _ & _ & _ & _ & _ & _ & _ & E9 & _). split; [done|by rewrite E1]. Qed.

(** The preamble of what goes out. *)
Lemma ack_bytes sx sy base n off txl rxl a s m : live sx sy base n off txl rxl a s m → last_seq s = seqn (n - 1).
Proof. intros [[] _ _ _ _]. unfold last_seq. rewrite st_rxn0. apply seqn_pred. lia. Qed.
Lemma remote_port s : fixed s → negb (addr_port (remote (s_header s)) =? 0) = true.
Proof. intros []. destruct fx_header0 as (q & t & ->). cbn. destruct ports. by apply negb_true_iff, Z.eqb_neq. Qed.
Lemma local_port s : fixed s → (addr_port (Msp.local (s_header s)) =? 0) = false.
Proof. intros []. destruct fx_header0 as (q & t & ->). cbn. destruct ports. by apply Z.eqb_neq. Qed.

Lemma live_tx_entry sx sy base n off txl rxl a s m b k : live sx sy base n off txl rxl a s m → (b, k) ∈ txl →
  ∃ p bs, m_packets m !! b = Some p ∧ pk_seq p = seqn k ∧ (base ≤ k)%nat ∧ (origin ≤ k)%nat ∧ sx !! (k - origin)%nat = Some bs ∧ pk_len p = length bs ∧
    default [] (pk_payload p) = bs ∧ quiet (pk_flags p).
Proof.
  intros [[] _ _ _ _] Hin. rewrite !Forall_forall in *. destruct (st_held_tx0 _ Hin) as (p & bs & H1 & H2 & H3 & H4 & H5 & H6). cbn in *.
  pose proof (wr_numbered _ _ _ st_tx0) as Hnum. rewrite Forall_forall in Hnum. destruct (Hnum _ Hin) as (p' & Hp' & Hs). cbn in *. rewrite H1 in Hp'. injection Hp' as <-.
  exists p, bs. split_and!; try done. destruct (below_numbers _ _ _ st_txn0) as [_ Hb]. rewrite Forall_forall in Hb. by apply (Hb (b, k)).
Qed.

Definition ran sx sy base n off txl rxl a s m m' : Prop := ∃ s', live sx sy base n off txl rxl a s' m' ∧ kept s s' ∧ emits (said E sx base n) m m'.
Lemma ran_refl sx sy base n off txl rxl a s m : live sx sy base n off txl rxl a s m → ran sx sy base n off txl rxl a s m m.
Proof. intros H. exists s. split_and!; [done|done|by apply emits_none]. Qed.
Lemma ran_trans sx sy base n off txl rxl a s s' m1 m2 m3 : kept s s' → emits (said E sx base n) m1 m2 → ran sx sy base n off txl rxl a s' m2 m3 → ran sx sy base n off txl rxl a s m1 m3.
Proof. intros Hk He (s2 & H1 & H2 & H3). exists s2. split_and!; [done|by eapply sock_kept_trans|by eapply emits_trans]. Qed.

Abbreviation msp_send_packet := (msp_send_packet (w_clock W) (w_send W) (w_local W) (w_handler W)).
Abbreviation send_ack := (send_ack (w_clock W) (w_send W) (w_local W) (w_handler W)).

Lemma runs_need_daemon {B} sx sy base n off txl rxl a s m (k : bool → prog (msp App) B) (Q : B → msp App → Prop) : live sx sy base n off txl rxl a s m →
  (∀ m1, live sx sy base n off txl rxl a s m1 → m_packets m1 = m_packets m → m_out m1 = m_out m → runs (k true) m1 Q) → runs (need_daemon (w_local W) ≫= k) m Q.
Proof. intros Hlive Hk. apply runs_bind, (runs_daemon W log); apply Hk; try done. by eapply live_state. Qed.

Lemma send_packet_runs sx sy base n off txl rxl a s m b k : live sx sy base n off txl rxl a s m → (b, k) ∈ txl →
  runs (msp_send_packet a b) m (λ r m', 0 ≤ r ∧ ran sx sy base n off txl rxl a s m m').
Proof.
  intros Hlive Hin. destruct (live_tx_entry _ _ _ _ _ _ _ _ _ _ _ _ Hlive Hin) as (p & bs & Hp & Hseq & Hbase & Hok & Hbs & Hlen & Hpay & Hq). pose proof (lv_sock _ _ _ _ _ _ _ _ _ _ _ _ Hlive) as Hs.
  pose proof (lv_fixed _ _ _ _ _ _ _ _ _ _ _ _ Hlive) as Hfx. unfold Msp.msp_send_packet. apply runs_bind, (runs_sock _ s); [done|]. apply runs_bind, runs_assert; [by apply remote_port|].
  rewrite (ack_bytes _ _ _ _ _ _ _ _ _ _ Hlive), (fx_fd _ _ Hfx). destruct (fx_header _ _ Hfx) as (q & ttl & Eh). rewrite Eh.
  apply (runs_need_daemon _ _ _ _ _ _ _ _ _ _ _ _ Hlive).
  intros m1 Hl1 Hpk1 Ho1. pose proof (lv_sock _ _ _ _ _ _ _ _ _ _ _ _ Hl1) as Hs1. cbn [negb]. apply runs_bind, (runs_packet _ p); [by rewrite Hpk1|]. cbv zeta. apply runs_bind, (runs_upd_sock _ s); [done|].
  assert (minor s (set_previous_ack (seqn (n - 1)) s)) as Hmin by done. pose proof (live_minor _ _ _ _ _ _ _ _ _ _ _ Hl1 Hmin) as Hl2. set (s2 := set_previous_ack (seqn (n - 1)) s) in *. set (m2 := set_socks _ m1) in *.
  assert ((match pk_payload p with Some bs => if bool_decide (pk_len p = 0%nat) then [] else bs | None => [] end) = bs) as ->.
  { rewrite Hlen, <- Hpay. destruct (pk_payload p) as [x|]; [|done]. cbn. destruct (bool_decide_reflect (length x = 0%nat)) as [E0|E0]; [by apply nil_length_inv in E0|done]. }
  apply runs_bind, (runs_post W log); [apply runs_ret; split; [done|]; exists s2; split_and!; [by eapply live_state|by apply minor_kept|by apply emits_none]|].
  apply runs_bind, (runs_clock W log). intros t _. set (v := Message _ _ _). set (m3 := m_tick (put_out v (m_tick m2))). assert (live sx sy base n off txl rxl a s2 m3) as Hl3 by (by eapply live_state).
  apply runs_bind, (runs_upd_packet _ p); [cbn; by rewrite Hpk1|]. pose proof (live_sent _ _ _ _ _ _ _ _ _ _ b p t Hl3 ltac:(cbn; by rewrite Hpk1)) as Hl4. set (m4 := set_packets _ m3) in *.
  apply runs_bind, (runs_upd_window _ _ s2); [apply Hl4|]. cbn [set_window window]. apply runs_bind. eapply runs_upd_sock; [cbn; apply lookup_insert_eq|]. apply runs_ret. split; [done|].
  pose proof (live_posted _ _ _ _ _ _ _ _ _ _ t (t + RETRANSMIT_TIME) Hl4) as Hl5. eexists. split_and!.
  - eapply live_state; [exact Hl5|done| |done|done]. cbn. by rewrite insert_insert_eq.
  - done.
  - apply (emits_one _ _ _ v); [cbn; by rewrite Ho1|]. unfold v. rewrite Hseq, <- !app_assoc. constructor; [done|done|done|by apply quiet_ack].
Qed.

Lemma send_ack_runs sx sy base n off txl rxl a s m : live sx sy base n off txl rxl a s m → runs (send_ack a) m (λ r m', ran sx sy base n off txl rxl a s m m').
Proof.
  intros Hlive. pose proof (lv_sock _ _ _ _ _ _ _ _ _ _ _ _ Hlive) as Hs. pose proof (lv_fixed _ _ _ _ _ _ _ _ _ _ _ _ Hlive) as Hfx. unfold Msp.send_ack. apply runs_bind, (runs_sock _ s); [done|].
  apply runs_bind, runs_assert; [by apply remote_port|]. rewrite (ack_bytes _ _ _ _ _ _ _ _ _ _ Hlive), (fx_fd _ _ Hfx). destruct (fx_header _ _ Hfx) as (q & ttl & Eh). rewrite Eh.
  set (v := Message _ _ _). apply (runs_need_daemon _ _ _ _ _ _ _ _ _ _ _ _ Hlive).
  intros m1 Hl1 _ Ho1. cbn [negb]. apply runs_bind, (runs_post W log); [apply runs_ret; exists s; split_and!; [by eapply live_state|done|by apply emits_none]|].
  assert (live sx sy base n off txl rxl a s (put_out v (m_tick m1))) as Hl2 by (by eapply live_state). apply runs_bind, (runs_upd_sock _ s); [apply Hl2|].
  pose proof (live_minor _ _ _ _ _ _ _ _ _ (set_previous_ack (seqn (n - 1)) s) _ Hl2 ltac:(done)) as Hl3. set (s3 := set_previous_ack _ s) in *. apply runs_bind, (runs_clock W log). intros t _.
  match goal with |- runs _ ?x _ => set (m3 := x) end. assert (live sx sy base n off txl rxl a s3 m3) as Hl4 by (by eapply live_state).
  apply runs_bind, (runs_upd_window _ _ s3); [apply Hl4|]. cbn [set_window window]. apply runs_bind. eapply runs_upd_sock; [cbn; apply lookup_insert_eq|]. apply runs_ret.
  pose proof (live_posted _ _ _ _ _ _ _ _ _ _ t (t + RETRANSMIT_TIME) Hl4) as Hl5. eexists. split_and!.
  - eapply live_state; [exact Hl5|done| |done|done]. cbn. by rewrite !insert_insert_eq.
  - done.
  - apply (emits_one _ _ _ v); [cbn; by rewrite Ho1|]. constructor. by apply quiet_ack, elem_of_cons; left.
Qed.

Lemma transmit_runs sx sy base n off txl rxl a now fuel : ∀ rest pre s m, live sx sy base n off txl rxl a s m → txl = pre ++ rest → (length rest ≤ fuel)%nat →
  runs (transmit_loop (w_clock W) (w_send W) (w_local W) (w_handler W) fuel a now (head rest.*1)) m (λ r m', r ≠ Some (-1) ∧ ran sx sy base n off txl rxl a s m m').
Proof.
  induction fuel as [|fuel IH]; intros rest pre s m Hlive El Hlen; (destruct rest as [|[b k] rest]; [apply runs_ret; split; [done|by apply ran_refl]|]); cbn in Hlen; [lia|].
  assert ((b, k) ∈ txl) as Hin by (rewrite El; apply elem_of_app; right; left). destruct (live_tx_entry _ _ _ _ _ _ _ _ _ _ _ _ Hlive Hin) as (p & bs & Hp & _).
  cbn [transmit_loop fmap list_fmap head fst]. apply runs_bind, (runs_packet _ p); [done|]. cbv zeta.
  assert (∀ s1 m1, live sx sy base n off txl rxl a s1 m1 → kept s s1 → emits (said E sx base n) m m1 → runs (k ← the_packet b; s ← the_sock a;
    (if pk_sent k + RETRANSMIT_TIME <? next_action s then upd_sock a (set_next_action (pk_sent k + RETRANSMIT_TIME)) else mret tt);;
    transmit_loop (w_clock W) (w_send W) (w_local W) (w_handler W) fuel a now (pk_next k)) m1 (λ r m', r ≠ Some (-1) ∧ ran sx sy base n off txl rxl a s m m')) as Hgo.
  { intros s1 m1 Hl1 Hk1 He1. pose proof (lv_sock _ _ _ _ _ _ _ _ _ _ _ _ Hl1) as Hs1. pose proof (wr_linked _ _ _ (st_tx _ _ _ _ _ _ _ _ _ (lv_stream _ _ _ _ _ _ _ _ _ _ _ _ Hl1))) as Hlk.
    rewrite El, fmap_app in Hlk. change (((b, k) :: rest).*1) with (b :: rest.*1) in Hlk. destruct (window_next _ _ _ _ _ Hlk) as (p1 & Hp1 & Hn1).
    apply runs_bind, (runs_packet _ p1); [done|]. apply runs_bind, (runs_sock _ s1); [done|]. rewrite Hn1. apply runs_bind.
    assert (∀ s2 m2, live sx sy base n off txl rxl a s2 m2 → kept s1 s2 → emits (said E sx base n) m1 m2 → runs (transmit_loop (w_clock W) (w_send W) (w_local W) (w_handler W) fuel a now (head rest.*1)) m2
      (λ r m', r ≠ Some (-1) ∧ ran sx sy base n off txl rxl a s m m')) as Hrec.
    { intros s2 m2 Hl2 Hk2 He2. eapply runs_mono; [apply (IH rest (pre ++ [(b, k)]) s2 m2 Hl2); [by rewrite El, <- app_assoc|lia]|]. cbn beta. intros r m' [Hr Hran]. split; [done|].
      eapply ran_trans; [by eapply sock_kept_trans|by eapply emits_trans|done]. }
    destruct (_ <? next_action s1).
    - apply (runs_upd_sock _ s1); [done|]. eapply Hrec; [by apply (live_minor _ _ _ _ _ _ _ _ s1)|done|by apply emits_none].
    - apply runs_ret. by apply (Hrec s1); [|done|apply emits_none]. }
  destruct (_ <? now); [|by apply (Hgo s); [|done|apply emits_none]]. pose proof (lv_sock _ _ _ _ _ _ _ _ _ _ _ _ Hlive) as Hs. apply runs_bind, (runs_sock _ s); [done|].
  rewrite local_port by apply Hlive. apply runs_bind, runs_ret. apply runs_bind. eapply runs_mono; [by eapply send_packet_runs|]. cbn beta. intros r m1 (Hr & s1 & Hl1 & Hk1 & He1).
  rewrite (proj2 (Z.eqb_neq r (-1))) by lia. destruct (r =? 0); cbn [negb]; [by apply (Hgo s1)|]. apply runs_ret. split; [done|]. by exists s1.
Qed.

Lemma finish_sock_runs sx sy base n off txl rxl a s m now : live sx sy base n off txl rxl a s m →
  runs (finish_sock (w_clock W) (w_send W) (w_local W) (w_handler W) a now) m (λ _ m', ran sx sy base n off txl rxl a s m m').
Proof.
  intros Hlive. pose proof (lv_sock _ _ _ _ _ _ _ _ _ _ _ _ Hlive) as Hs. unfold finish_sock. apply runs_bind, (runs_sock _ s); [done|]. apply runs_bind.
  eapply (runs_mono _ _ (λ _ m', ran sx sy base n off txl rxl a s m m')).
  { destruct (next_ack s <? now); [|apply runs_ret; by apply ran_refl]. rewrite local_port by apply Hlive. apply runs_bind, runs_ret. cbn [negb]. apply runs_bind.
    eapply runs_mono; [by apply send_ack_runs|]. cbn beta. intros r m' Hr. by apply runs_ret. }
  cbn beta. intros r m1 (s1 & Hl1 & Hk1 & He1). destruct r as [r|]; [apply runs_ret; by exists s1|]. pose proof (lv_sock _ _ _ _ _ _ _ _ _ _ _ _ Hl1) as Hs1. apply runs_bind, (runs_sock _ s1); [done|]. apply runs_bind.
  assert (∀ s2 m2, live sx sy base n off txl rxl a s2 m2 → kept s1 s2 → emits (said E sx base n) m1 m2 → ran sx sy base n off txl rxl a s m m2) as Hran.
  { intros s2 m2 H1 H2 H3. exists s2. split_and!; [done|by eapply sock_kept_trans|by eapply emits_trans]. }
  eapply (runs_mono _ _ (λ _ m', ∃ s2, live sx sy base n off txl rxl a s2 m' ∧ kept s1 s2 ∧ emits (said E sx base n) m1 m')).
  { destruct (next_ack s1 <? next_action s1); [|apply runs_ret; exists s1; split_and!; [done|done|by apply emits_none]].
    apply (runs_upd_sock _ s1); [done|]. eexists. split_and!; [by apply (live_minor _ _ _ _ _ _ _ _ s1)|done|by apply emits_none]. }
  cbn beta. intros _ m2 (s2 & Hl2 & Hk2 & He2). apply runs_bind, (runs_sock _ s2); [apply Hl2|]. destruct (fx_bits _ _ (lv_fixed _ _ _ _ _ _ _ _ _ _ _ _ Hl2)) as (_ & Hsl & _). rewrite Hsl. cbn [andb]. apply runs_ret. by apply (Hran s2).
Qed.

(** ** One socket *)

(** After processing: more may have been read, and the socket is closed or has room as
    its flags say. *)
Definition processed sx sy base n a m m' : Prop := ∃ n' off' txl rxl s', live sx sy base n' off' txl rxl a s' m' ∧ (n ≤ n')%nat ∧ emits (said E sx base n') m m' ∧
  (has MSP_STATE_CLOSED (s_state s') = true ∨ writable s').

Lemma unread_kept s s' : unread s s' → kept s s'.
Proof. intros [H1 H2]. split; [done|by rewrite H1]. Qed.

Lemma call_runs sx sy base n off txl rxl a s m : live sx sy base n off txl rxl a s m →
  runs (call_handler (w_clock W) (w_handler W) a []) m (λ _ m', ∃ s', live sx sy base n off txl rxl a s' m' ∧ kept s s' ∧ m_out m' = m_out m).
Proof.
  intros [Hst Hfx Hs Hr Hlog]. eapply runs_mono; [apply (call_handler_runs W log a s _ _ Hs), (fixed_callable _ _ Hfx)|]. cbn beta. intros k m' (_ & s' & Hs' & Hc & Hpk & Hr' & Ho & Hlog').
  pose proof (fixed_called _ _ _ Hc Hfx) as Hfx'. destruct (called_same _ _ Hc) as (Htx & Hrx & Hstate).
  rewrite take_nil, app_nil_r in Hlog'. exists s'. split_and!; [|split; [done|by rewrite Htx]|done]. split; [|done|done|congruence|congruence]. rewrite Hpk. by apply (stream_sock _ _ _ _ _ _ _ _ s); rewrite ?Htx, ?Hrx.
Qed.

Lemma process_sock_runs sx sy base n off txl rxl a s m : live sx sy base n off txl rxl a s m → writable s →
  runs (process_sock (w_clock W) (w_send W) (w_local W) (w_handler W) a) m (λ _ m', processed sx sy base n a m m').
Proof.
  intros Hlive Hw. unfold process_sock. apply runs_bind, (runs_clock W log). intros now _. assert (live sx sy base n off txl rxl a s (m_tick m)) as Hl0 by (by eapply live_state).
  apply runs_bind, (runs_sock _ s); [apply Hl0|]. destruct (timeout s <? now).
  - apply runs_bind, (runs_upd_sock _ s); [apply Hl0|]. apply runs_ret. exists n, off, txl, rxl, (set_state (set_bits (Z.lor MSP_STATE_CLOSED MSP_STATE_ERROR) (s_state s)) s). split_and!; [|done|by apply emits_none|left; cbn [s_state set_state]; by rewrite has_set_bits, orb_true_r].
    eapply live_touch; [exact Hl0|done|cbn; apply lookup_insert_eq|done|done|done|done|]. destruct Hl0 as [_ [] _ _ _]. split; try done. cbn [s_state set_state]. rewrite !has_set_bits. destruct fx_bits0 as (-> & -> & ->). done.
  - apply runs_bind, (runs_upd_sock _ s); [apply Hl0|]. pose proof (live_minor _ _ _ _ _ _ _ _ _ (set_next_action (timeout s) s) _ Hl0 ltac:(done)) as Hl1. set (s1 := set_next_action _ s) in *. set (m1 := set_socks _ (m_tick m)) in *.
    destruct (fx_bits _ _ (lv_fixed _ _ _ _ _ _ _ _ _ _ _ _ Hl1)) as (Hli & _ & _). change (s_state s) with (s_state s1). rewrite Hli. apply runs_assoc. change (w_head (rx s)) with (w_head (rx s1)).
    eapply runs_mono; [by eapply deliver_runs|]. cbn beta. intros _ m2 (n2 & off2 & s2 & Hl2 & Hn2 & Ho2 & Hu2). apply runs_assoc. eapply runs_mono; [by eapply free_read_runs|]. cbn beta.
    intros _ m3 (rxl3 & s3 & Hl3 & _ & Ho3 & Hu3). apply runs_bind. eapply runs_mono; [by eapply call_runs|]. cbn beta. intros _ m4 (s4 & Hl4 & Hk4 & Ho4).
    assert (kept s s4) as Hk. { eapply sock_kept_trans; [|exact Hk4]. eapply sock_kept_trans; [|by apply unread_kept]. eapply sock_kept_trans; [|by apply unread_kept]. done. }
    apply runs_bind, (runs_sock _ s4); [apply Hl4|]. apply runs_bind. eapply (runs_mono _ _ (λ _ m', ∃ s5, live sx sy base n2 off2 txl rxl3 a s5 m' ∧ kept s s5 ∧ m_out m' = m_out m)).
    { destruct (_ && _); [|apply runs_ret; exists s4; split_and!; [done|done|by rewrite Ho4, Ho3, Ho2]]. apply (runs_upd_sock _ s4); [apply Hl4|]. eexists. split_and!; [by apply (live_minor _ _ _ _ _ _ _ _ s4)| |by cbn; rewrite Ho4, Ho3, Ho2].
      eapply sock_kept_trans; [exact Hk|done]. }
    cbn beta. intros _ m5 (s5 & Hl5 & Hk5 & Ho5). apply runs_bind. eapply runs_mono; [eapply check_window_runs; [exact Hl5|by eapply kept_writable]|]. cbn beta. intros _ m' ->.
    apply runs_bind, (runs_sock _ s5); [apply Hl5|]. apply runs_bind, runs_ask. pose proof (wr_linked _ _ _ (st_tx _ _ _ _ _ _ _ _ _ (lv_stream _ _ _ _ _ _ _ _ _ _ _ _ Hl5))) as Hlk. rewrite (lk_head _ _ _ Hlk).
    apply runs_bind. eapply runs_mono; [apply (transmit_runs _ _ _ _ _ _ _ _ _ _ txl [] s5 m5 Hl5 eq_refl); pose proof (linked_size _ _ _ Hlk) as Hsz; by rewrite length_fmap in Hsz|].
    cbn beta. intros r m6 (_ & s6 & Hl6 & Hk6 & He6). assert (emits (said E sx base n2) m m6) as He by (destruct He6 as (new & En & Hnew); exists new; by rewrite En, Ho5).
    destruct r as [r|].
    + apply runs_ret. exists n2, off2, txl, rxl3, s6. split_and!; [done|done|done|]. right. eapply kept_writable; [|exact Hw]. by eapply sock_kept_trans.
    + eapply runs_mono; [by eapply finish_sock_runs|]. cbn beta. intros _ m7 (s7 & Hl7 & Hk7 & He7). exists n2, off2, txl, rxl3, s7. split_and!; [done|done|by eapply emits_trans|]. right. eapply kept_writable; [|exact Hw].
      eapply sock_kept_trans; [exact Hk5|]. by eapply sock_kept_trans.
Qed.

End Process.
End MspProcess.
