(* ===== verification/MspClose.v ===== *)
(** * Closing a stream, and a round of processing

    A socket that is closed is taken off the list, its packets are freed and the
    application is told; with this, what [msp_processing] does. *)

From S2P Require Import Prelude Prog DataFormats FdQueue FdQueueSpec Msp MspSpec MspLive MspStream MspProcess.
Import Prog DataFormats FdQueueSpec Msp MspSpec MspLive MspStream MspProcess.

Module MspClose.

Lemma freed_app l1 l2 pk1 pk2 pk3 : freed l1 pk1 pk2 → freed l2 pk2 pk3 → freed (l1 ++ l2) pk1 pk3.
Proof.
  intros H1 H2 b. rewrite (H2 b), (H1 b). destruct (decide (b ∈ l2)) as [Hb|Hb]; [rewrite decide_True by (apply elem_of_app; by right); done|].
  destruct (decide (b ∈ l1)) as [Hb1|Hb1]; [rewrite decide_True by (apply elem_of_app; by left); done|]. rewrite decide_False; [done|]. by intros [?|?]%elem_of_app.
Qed.

Section Close.
Context {App : Type} (W : world App) (log : App → list Z) `{!Benign W log} (E : ends) (ports : addressed E).
Implicit Types m : msp App.
Abbreviation live := (live log E).

Lemma free_list_runs fuel : ∀ l m (Q : unit → msp App → Prop), seg (links (m_packets m)) (head l) l None → NoDup l → (length l ≤ fuel)%nat →
  (∀ pk, freed l (m_packets m) pk → Q tt (set_packets pk m)) → runs (free_list fuel (head l)) m Q.
Proof.
  induction fuel as [|fuel IH]; intros l m Q Hs Hnd Hlen HQ; (destruct l as [|b l]; [apply runs_ret; specialize (HQ _ (freed_nil _)); by destruct m|]); cbn in Hlen; [lia|].
  destruct Hs as (_ & n & Hn & Hs). unfold links in Hn. apply fmap_Some in Hn as (p & Hp & ->). apply NoDup_cons in Hnd as [Hb Hnd]. cbn [free_list head].
  apply runs_bind, (runs_packet _ p); [done|]. apply runs_bind, (free_packet_runs _ p); [done|]. rewrite (seg_head _ _ _ Hs) in Hs |- *. apply IH; [|done|lia|].
  - apply (seg_ext (links (m_packets m))); [|done]. intros c Hc. unfold links. cbn. rewrite lookup_delete_ne; [done|]. by intros ->.
  - intros pk Hf. cbn in Hf. apply (freed_cons b) in Hf. by apply (HQ pk).
Qed.

Lemma free_all_runs a d l s m (Q : unit → msp App → Prop) : m_socks m !! a = Some s → window_rep (m_packets m) (window d s) l →
  (∀ pk, freed l.*1 (m_packets m) pk → Q tt (set_socks (<[a := set_window d (set_count 0 (set_head None (window d s))) s]> (m_socks m)) (set_packets pk m))) → runs (free_all_packets a d) m Q.
Proof.
  intros Ha [Hl _ _] HQ. unfold free_all_packets. apply runs_bind, (runs_window _ _ s); [done|]. apply runs_bind, runs_ask. apply runs_bind. rewrite (lk_head _ _ _ Hl).
  apply free_list_runs; [apply Hl|apply Hl|by apply linked_size in Hl|]. intros pk Hf. apply (runs_upd_window _ _ s); [done|]. by apply HQ.
Qed.

(** The socket is off the list, and none of its packets is left. *)
Definition gone sy n off m : Prop := root m = None ∧ m_packets m = ∅ ∧ log (m_app m) = reading sy n off ∧ (off ≤ length (default [] (sy !! (n - origin)%nat)))%nat.

(** What [msp_free] needs of a socket. *)
Record closing sx sy base n off txl rxl a s m : Prop := {
  cl_stream : stream sx sy base n off txl rxl (m_packets m) s;
  cl_links : s_next s = None ∧ s_prev s = None;
  cl_call : callable s;
  cl_sock : m_socks m !! a = Some s;
  cl_log : log (m_app m) = reading sy n off;
}.

Lemma msp_free_runs sx sy base n off txl rxl a s m : closing sx sy base n off txl rxl a s m → set_bits MSP_STATE_CLOSED (s_state s) ≠ 0xFFFF →
  runs (msp_free (w_clock W) (w_handler W) a) m (λ _ m', gone sy n off m' ∧ m_out m' = m_out m).
Proof.
  intros [Hst [Hn Hp] (Hh & _ & Hc) Hs Hlog] Hword. unfold msp_free. apply runs_bind, (runs_upd_sock _ s); [done|]. set (s1 := set_state _ s). set (m1 := set_socks _ m). apply runs_bind, (runs_sock _ s1); [cbn; apply lookup_insert_eq|].
  change (s_prev s1) with (s_prev s). change (s_next s1) with (s_next s). rewrite Hn, Hp. apply runs_bind, runs_change. apply runs_bind, runs_ret. set (m2 := set_root None m1).
  apply runs_bind, (free_all_runs a Tx txl s1 m2); [cbn; apply lookup_insert_eq|by destruct Hst|]. intros pk1 Hf1. cbn [set_window window]. set (s2 := set_window_tx _ s1). set (m3 := set_socks _ _).
  apply runs_bind, (free_all_runs a Rx rxl s2 m3); [cbn; apply lookup_insert_eq| |].
  { apply (window_rep_agree (m_packets m)); [|by destruct Hst]. apply (freed_agree txl.*1); [done|]. intros c Hc1 Hc2. by apply (st_apart _ _ _ _ _ _ _ _ _ Hst c). }
  intros pk2 Hf2. cbn [set_window window]. set (s3 := set_window_rx _ s2). set (m4 := set_socks _ _). apply runs_bind.
  eapply runs_mono; [apply (call_handler_runs W log a s3 [] m4); [cbn; apply lookup_insert_eq|by split_and!]|]. cbn beta. intros k m5 (_ & s5 & Hs5 & Hc5 & Hpk5 & Hr5 & Ho5 & Hlog5).
  apply runs_bind, (runs_upd_sock _ s5); [done|]. apply runs_change. split; [|done]. split_and!; [done| |cbn; by rewrite Hlog5, take_nil, app_nil_r|apply Hst].
  cbn. rewrite Hpk5. cbn. apply map_empty. intros b. pose proof (freed_app _ _ _ _ _ Hf1 Hf2 b) as Hb. cbn in Hb. rewrite Hb. case_decide as Hd; [done|].
  destruct (m_packets m !! b) as [p|] eqn:Eb; [|done]. destruct Hd. apply elem_of_app. destruct (st_all _ _ _ _ _ _ _ _ _ Hst b); [by exists p|by left|by right].
Qed.

Lemma one_sock a s m : m_socks m !! a = Some s → ∃ f, size (m_socks m) = S f.
Proof. intros Hs. destruct (size (m_socks m)) as [|f] eqn:Esz; [|by exists f]. apply map_size_empty_iff in Esz. by rewrite Esz in Hs. Qed.

Lemma msp_release_runs sx sy base n off txl rxl a s m : live sx sy base n off txl rxl a s m →
  runs (msp_release (w_send W) (w_local W) a) m (λ _ m', ∃ s', closing sx sy base n off txl rxl a s' m' ∧ s_state s' = s_state s ∧ emits (said E sx base n) m m').
Proof.
  intros [Hst Hfx Hs Hr Hlog]. unfold msp_release. apply runs_bind, (runs_sock _ s); [done|]. rewrite (local_port E ports s Hfx). apply runs_bind, runs_ask. rewrite Hr. apply runs_bind, runs_ask. apply runs_bind.
  destruct (one_sock a s m Hs) as [fuel ->]. cbn [release_loop]. apply runs_bind, (runs_sock _ s); [done|]. rewrite bool_decide_true by done. cbn [negb andb]. rewrite (fx_next _ _ Hfx).
  assert (∀ v w, runs (release_loop fuel a v w None) m (λ r m', r = false ∧ m' = m)) as Hrl by (intros v w; destruct fuel; by apply runs_ret). eapply runs_mono; [apply Hrl|]. cbn beta. intros r m' [-> ->].
  apply runs_bind. assert (∀ m1, m_packets m1 = m_packets m → m_socks m1 = m_socks m → m_app m1 = m_app m → emits (said E sx base n) m m1 →
    runs (upd_sock a (λ s, set_header (set_local NO_ADDR (s_header s)) s)) m1 (λ _ m', ∃ s', closing sx sy base n off txl rxl a s' m' ∧ s_state s' = s_state s ∧ emits (said E sx base n) m m')) as Hgo.
  { intros m1 E1 E2 E3 He. apply (runs_upd_sock _ s); [by rewrite E2|]. exists (set_header (set_local NO_ADDR (s_header s)) s). split_and!; [|reflexivity|done]. split; cbn; [rewrite E1; by apply (stream_sock _ _ _ _ _ _ _ _ s)|by destruct Hfx|exact (fixed_callable E s Hfx)|apply lookup_insert_eq|by rewrite E3]. }
  apply (runs_mdp_send W log).
  - intros r. apply Hgo; try done. by apply emits_none.
  - apply Hgo; try done. rewrite (fx_fd _ _ Hfx). eapply emits_one; [done|]. by apply said_close.
Qed.

(** ** A round *)

Definition alive sx sy base n off a m : Prop := ∃ txl rxl s, live sx sy base n off txl rxl a s m ∧ writable s.

Theorem processing_runs sx sy base n off a m : alive sx sy base n off a m →
  runs (msp_processing (w_clock W) (w_send W) (w_local W) (w_handler W)) m
    (λ _ m', ∃ n' off', (n ≤ n')%nat ∧ (n' ≤ top sy)%nat ∧ emits (said E sx base n') m m' ∧ (alive sx sy base n' off' a m' ∨ gone sy n' off' m')).
Proof.
  intros (txl & rxl & s & Hlive & Hw). unfold msp_processing. apply runs_bind, runs_ask. rewrite (lv_root _ _ _ _ _ _ _ _ _ _ _ _ Hlive). apply runs_bind, runs_ask. apply runs_bind.
  destruct (one_sock a s m (lv_sock _ _ _ _ _ _ _ _ _ _ _ _ Hlive)) as [f ->]. cbn [process_loop]. apply runs_bind. eapply runs_mono; [by eapply process_sock_runs|]. cbn beta.
  intros _ m1 (n1 & off1 & txl1 & rxl1 & s1 & Hl1 & Hn1 & He1 & Hc1). apply runs_bind, (runs_sock _ s1); [apply Hl1|]. pose proof (lv_fixed _ _ _ _ _ _ _ _ _ _ _ _ Hl1) as Hfx1. rewrite (fx_next _ _ Hfx1).
  assert (runs (process_loop (w_clock W) (w_send W) (w_local W) (w_handler W) f None) m1 (λ _ m', m' = m1)) as Hend by (destruct f; by apply runs_ret). eapply runs_mono; [exact Hend|]. cbn beta. intros _ m' ->.
  apply runs_bind, runs_ask. rewrite (lv_root _ _ _ _ _ _ _ _ _ _ _ _ Hl1). apply runs_bind, runs_ask. destruct (one_sock a s1 m1 (lv_sock _ _ _ _ _ _ _ _ _ _ _ _ Hl1)) as [f1 ->]. cbn [sweep_loop].
  pose proof (st_n _ _ _ _ _ _ _ _ _ (lv_stream _ _ _ _ _ _ _ _ _ _ _ _ Hl1)) as Hmax.
  assert (∀ v m2, runs (sweep_loop (w_clock W) (w_send W) (w_local W) (w_handler W) f1 v None) m2 (λ _ m', m' = m2)) as Hlast by (intros v m2; destruct f1; by apply runs_ret).
  apply runs_bind, (runs_sock _ s1); [apply Hl1|]. destruct (has MSP_STATE_CLOSED (s_state s1)) eqn:Ec.
  - apply runs_bind. eapply runs_mono; [by apply msp_release_runs|]. cbn beta. intros _ m2 (s2 & Hcl & Hst2 & He2). apply runs_bind. eapply runs_mono; [eapply msp_free_runs; [exact Hcl|]|].
    { rewrite Hst2. intros Ew. destruct (fx_bits _ _ Hfx1) as [Hli _]. pose proof (has_set_bits MSP_STATE_LISTENING MSP_STATE_CLOSED (s_state s1)) as Hb. by rewrite Ew, Hli in Hb. }
    cbn beta. intros _ m3 [Hg Ho3]. rewrite (fx_next _ _ Hfx1). eapply runs_mono; [apply Hlast|]. cbn beta. intros _ m' ->. exists n1, off1. split_and!; [done|lia| |by right].
    eapply emits_trans; [exact He1|]. eapply emits_trans; [exact He2|by apply emits_none].
  - rewrite (fx_next _ _ Hfx1). eapply runs_mono; [apply Hlast|]. cbn beta. intros _ m' ->. exists n1, off1. split_and!; [done|lia|done|]. left. exists txl1, rxl1, s1. split; [done|]. by destruct Hc1 as [?|?].
Qed.

(** A socket that is gone has nothing to process. *)
Lemma processing_gone sy n off m : gone sy n off m → runs (msp_processing (w_clock W) (w_send W) (w_local W) (w_handler W)) m (λ _ m', m' = m).
Proof.
  intros (Hr & _). unfold msp_processing. apply runs_bind, runs_ask. apply runs_bind, runs_ask. apply runs_bind. rewrite Hr. eapply (runs_mono _ _ (λ _ m', m' = m)); [by destruct (size _); apply runs_ret|].
  cbn beta. intros _ m' ->. apply runs_bind, runs_ask. apply runs_bind, runs_ask. rewrite Hr. by destruct (size _); apply runs_ret.
Qed.

End Close.
End MspClose.
