(* ===== verification/MspReceive.v ===== *)
(** * Sending and receiving on a stream

    [msp_send] adds a packet to the window; a datagram of the other end acknowledges,
    adds a packet to the receive window, or stops the connection. *)

From S2P Require Import Prelude Prog DataFormats FdQueue FdQueueSpec Msp MspSpec MspLive MspStream MspProcess MspClose.
Import Prog DataFormats FdQueueSpec Msp MspSpec MspLive MspStream MspProcess MspClose.

Module MspReceive.

Lemma write16_length v : length (write_uint16 v) = 2%nat.
Proof. reflexivity. Qed.

Section Receive.
Context {App : Type} (W : world App) (log : App → list Z) `{!Benign W log} (E : ends) (ports : addressed E).
Implicit Types m : msp App.
Abbreviation live := (live log E).
Abbreviation alive := (alive log E).
Abbreviation gone := (gone log).
Abbreviation fixed := (fixed E).

Lemma runs_handle a s m (Q : nat → msp App → Prop) : m_socks m !! a = Some s → fixed s → Q a m → runs (handle_to_sock (Handle (Some a) (key E))) m Q.
Proof. intros Hs Hfx HQ. unfold handle_to_sock. cbn. apply runs_bind, (runs_sock _ s); [done|]. rewrite (fx_salt _ _ Hfx). apply runs_bind, runs_assert; [apply Z.eqb_refl|]. by apply runs_ret. Qed.

Lemma tx_length sx sy base n off txl rxl pk s : stream sx sy base n off txl rxl pk s → packet_count (tx s) = Z.of_nat (top sx - base).
Proof. intros []. rewrite (proj1 (lk_count _ _ _ (wr_linked _ _ _ st_tx0))). rewrite length_fmap, <- (length_fmap snd), st_txn0. by rewrite length_seq. Qed.

Lemma live_after sx sy base n off txl rxl a s m m' s' pk' : live sx sy base n off txl rxl a s m → m_packets m' = pk' → m_socks m' !! a = Some s' → root m' = root m → m_app m' = m_app m →
  ∀ sx' base' txl' rxl', stream sx' sy base' n off txl' rxl' pk' s' → fixed s' → live sx' sy base' n off txl' rxl' a s' m'.
Proof. intros [] <- Hs Hr Ha sx' base' txl' rxl' Hst Hfx. split; try done; congruence. Qed.

Lemma fixed_tx s w : fixed s → fixed (set_window_tx w s).
Proof. by intros []. Qed.
Lemma fixed_rx s w : fixed s → fixed (set_window_rx w s).
Proof. by intros []. Qed.
Lemma fixed_state s st : fixed s → has MSP_STATE_LISTENING st = false → has MSP_STATE_SHUTDOWN_LOCAL st = false → has MSP_STATE_SHUTDOWN_REMOTE st = false → fixed (set_state st s).
Proof. by intros [] ? ? ?. Qed.

(** The packet is added when the window has room. *)
Theorem msp_send_runs sx sy base n off a m payload : alive sx sy base n off a m →
  runs (msp_send (w_clock W) (w_memory W) (Handle (Some a) (key E)) payload) m (λ r m', m_out m' = m_out m ∧
    (r = -1 ∧ alive sx sy base n off a m' ∨ r = Z.of_nat (length payload) ∧ (top sx < base + 5)%nat ∧ alive (sx ++ [payload]) sy base n off a m')).
Proof.
  intros (txl & rxl & s & Hlive & Hw). pose proof Hlive as [Hst Hfx Hs Hr Hlog]. unfold msp_send. apply runs_bind, (runs_handle a s); [done|done|]. apply runs_bind, (runs_sock _ s); [done|].
  destruct (fx_bits _ _ Hfx) as (Hli & Hsl & Hsr). apply runs_bind, runs_assert; [by rewrite Hli|]. apply runs_bind, runs_assert; [by apply (remote_port E ports)|]. apply runs_bind, runs_assert; [by rewrite Hsl|].
  pose proof (tx_length _ _ _ _ _ _ _ _ _ Hst) as Hcnt. pose proof (st_base _ _ _ _ _ _ _ _ _ Hst) as Hbase.
  destruct (has MSP_STATE_CLOSED (s_state s)) eqn:Ec; cbn [orb]; [apply runs_ret; split; [done|left; split; [done|by exists txl, rxl, s]]|].
  destruct (Z.ltb_spec MAX_WINDOW_SIZE (packet_count (tx s))) as [Hfull|Hroom]; [apply runs_ret; split; [done|left; split; [done|by exists txl, rxl, s]]|]. unfold MAX_WINDOW_SIZE in Hroom.
  assert (top sx < base + 5)%nat as Htop by lia. rewrite (st_next _ _ _ _ _ _ _ _ _ Hst). apply runs_bind. destruct (below_numbers _ _ _ (st_txn _ _ _ _ _ _ _ _ _ Hst)) as [Hlt Hge].
  replace (base + (top sx - base))%nat with (top sx) in Hlt by lia.
  eapply runs_mono; [apply (add_packet_runs (w_clock W) (w_memory W)) with (l := txl) (s := s); [apply memory|done|by destruct Hst| |]|].
  { rewrite Forall_forall in Hlt, Hge |- *. intros e He. specialize (Hlt e He). specialize (Hge e He). cbn in Hlt, Hge. unfold near. lia. }
  { rewrite <- (length_fmap snd), (st_txn _ _ _ _ _ _ _ _ _ Hst), length_seq. lia. }
  cbn beta. intros r m1. rewrite (before_all _ _ Hlt), (after_all _ _ Hlt), decide_False; [|intros (e & Ee & He)%list_elem_of_fmap_1; rewrite Forall_forall in Hlt; specialize (Hlt e He); lia].
  change (head (@nil (nat * nat)).*1) with (@None nat). intros (-> & Hsd & b & t & i & w & Hb & _ & Hpk & Hs1 & [Hseq _] & Hw1). cbn [window set_window] in *. change (1 =? -1) with false. cbv iota.
  apply runs_bind, (runs_upd_window _ _ (set_window_tx w s)); [done|]. cbn [window set_window]. change (tx (set_window_tx w s)) with w. rewrite Hseq, (st_next _ _ _ _ _ _ _ _ _ Hst), seqn_succ.
  set (s2 := set_window_tx _ (set_window_tx w s)). set (m2 := set_socks _ m1). apply runs_bind, (runs_sock _ s2); [cbn; apply lookup_insert_eq|].
  assert (stream (sx ++ [payload]) sy base n off (txl ++ [(b, top sx)]) rxl (m_packets m1) s2) as Hst2.
  { rewrite Hpk. eapply (stream_sock _ _ _ _ _ _ _ _ (set_window_tx (set_next_seq (seqn (S (top sx))) w) s)); [done|done|]. apply stream_send; try done. rewrite <- Hpk. by apply (window_rep_ends _ w). }
  assert (fixed s2) as Hfx2 by (by apply fixed_tx, fixed_tx).
  pose proof (tx_length _ _ _ _ _ _ _ _ _ Hst2) as Hcnt2. rewrite top_snoc in Hcnt2. set (big := MAX_WINDOW_SIZE <=? packet_count (tx s2)). apply runs_bind.
  eapply (runs_mono _ _ (λ _ m', ∃ s3, live (sx ++ [payload]) sy base n off (txl ++ [(b, top sx)]) rxl a s3 m' ∧ writable s3 ∧ m_out m' = m_out m)).
  { assert (writable s2 ∨ big = true) as Hbig.
    { unfold writable, big in *. change (s_state s2) with (s_state s). rewrite Ec in *. unfold MAX_WINDOW_SIZE in *. destruct (Z.leb_spec 4 (packet_count (tx s2))) as [?|?]; [by right|left].
      rewrite Hw, (proj2 (Z.leb_gt _ _)) by lia. done. }
    destruct big eqn:Eb; [|apply runs_ret; exists s2; split_and!; [|by destruct Hbig|apply Hsd]; eapply live_after; [exact Hlive|reflexivity|cbn; apply lookup_insert_eq|apply Hsd|apply Hsd|done|done]].
    apply (runs_upd_sock _ s2); [cbn; apply lookup_insert_eq|]. exists (set_state (clear_bits MSP_STATE_DATAOUT (s_state s2)) s2). split_and!; [|unfold writable; cbn [s_state set_state]; change (tx (set_state _ s2)) with (tx s2); unfold big in Eb; by rewrite Eb, has_clear_same|apply Hsd].
    eapply live_after; [exact Hlive|reflexivity|cbn; apply lookup_insert_eq|apply Hsd|apply Hsd|by apply (stream_sock _ _ _ _ _ _ _ _ s2)|]. apply fixed_state; [done|..]; by rewrite has_clear_bits. }
  cbn beta. intros _ m3 (s3 & Hl3 & Hw3 & Ho3). apply runs_bind, (runs_clock W log). intros t1 _. apply runs_bind, (runs_upd_sock _ s3); [apply Hl3|]. apply runs_ret. split; [done|]. right. split_and!; [done|done|].
  eexists _, _, _. split; [apply (live_minor log E _ _ _ _ _ _ _ _ s3); [|done]; by eapply live_state|done].
Qed.

(** ** Datagrams of the other end *)

(** What may arrive, when [sx] has been sent and [n] is next: a packet of the other
    end and how far it has read, or only the latter, or the end of the connection. *)
Inductive heard (sx sy : list (list Z)) (n j : nat) : list Z → Prop :=
  | heard_data k bs f : (origin ≤ k)%nat → sy !! (k - origin)%nat = Some bs → quiet f → Z.of_nat n ≤ Z.of_nat k + LATE + 5 →
      heard sx sy n j ([f] ++ write_uint16 (seqn (j - 1)) ++ write_uint16 (seqn k) ++ bs)
  | heard_ack f : quiet f → heard sx sy n j ([f] ++ write_uint16 (seqn (j - 1)))
  | heard_stop : heard sx sy n j [FLAG_STOP].
(** The number it acknowledges is one that was sent not long ago. *)
Definition recent (sx : list (list Z)) (j : nat) : Prop := (origin ≤ j ∧ j ≤ top sx)%nat ∧ Z.of_nat (top sx) ≤ Z.of_nat j + LATE + 5.

(** Flags that only tell what has been received. *)
Lemma live_bits sx sy base n off txl rxl a s m bit m' s' : bit = MSP_STATE_RECEIVED_PACKET ∨ bit = MSP_STATE_RECEIVED_DATA → live sx sy base n off txl rxl a s m → writable s →
  minor (set_state (set_bits bit (s_state s)) s) s' → m_socks m' = <[a := s']> (m_socks m) → m_packets m' = m_packets m → root m' = root m → m_app m' = m_app m →
  live sx sy base n off txl rxl a s' m' ∧ writable s'.
Proof.
  intros Hbit Hlive Hw (E1 & E2 & E3 & E4 & E5 & E6 & E7 & E8 & E9 & E10 & E11) Hm Hp Hr Ha. cbn [s_state set_state] in E9. assert (∀ x, x = MSP_STATE_LISTENING ∨ x = MSP_STATE_SHUTDOWN_LOCAL ∨ x = MSP_STATE_SHUTDOWN_REMOTE ∨ x = MSP_STATE_DATAOUT ∨ x = MSP_STATE_CLOSED → has x (s_state s') = has x (s_state s)) as Hx.
  { intros x Hx. rewrite E9, has_set_bits. assert (has x bit = false) as -> by (by destruct Hbit as [-> | ->], Hx as [->|[->|[->|[->| ->]]]]). by rewrite orb_false_r. }
  split.
  - eapply live_touch; [exact Hlive|done|by rewrite Hm, lookup_insert_eq|done|done|by rewrite E1|by rewrite E2|]. destruct Hlive as [_ [] _ _ _]. split; rewrite ?E3, ?E4, ?E5, ?E6, ?E7, ?E8, ?E10, ?E11; try done.
    by rewrite !Hx by tauto.
  - unfold writable in *. rewrite !Hx by tauto. by rewrite E1.
Qed.

Lemma stop_runs sx sy base n off txl rxl a s m : live sx sy base n off txl rxl a s m → writable s →
  runs (msp_stop (w_send W) (w_local W) (Handle (Some a) (key E))) m (λ _ m', alive sx sy base n off a m' ∧ emits (said E sx base n) m m').
Proof.
  intros Hlive Hw. pose proof Hlive as [Hst Hfx Hs Hr Hlog]. unfold msp_stop. apply runs_bind, (runs_handle a s); [done|done|]. apply runs_bind, (runs_sock _ s); [done|].
  destruct (has MSP_STATE_STOPPED (s_state s)); [apply runs_ret; split; [by exists txl, rxl, s|by apply emits_none]|]. cbv zeta. set (st := clear_bits _ _). apply runs_bind, (runs_upd_sock _ s); [done|].
  destruct (fx_bits _ _ Hfx) as (Hli & Hsl & Hsr). assert (has MSP_STATE_LISTENING st = false ∧ has MSP_STATE_SHUTDOWN_LOCAL st = false ∧ has MSP_STATE_SHUTDOWN_REMOTE st = false ∧ has MSP_STATE_CLOSED st = true) as (Hb1 & Hb2 & Hb3 & Hb4).
  { unfold st. rewrite !has_clear_bits. change (Z.ldiff MSP_STATE_LISTENING _) with MSP_STATE_LISTENING. change (Z.ldiff MSP_STATE_SHUTDOWN_LOCAL _) with MSP_STATE_SHUTDOWN_LOCAL.
    change (Z.ldiff MSP_STATE_SHUTDOWN_REMOTE _) with MSP_STATE_SHUTDOWN_REMOTE. change (Z.ldiff MSP_STATE_CLOSED _) with MSP_STATE_CLOSED. rewrite !has_set_bits, Hli, Hsl, Hsr, orb_true_r. done. }
  rewrite (remote_port E ports s Hfx), Hb1. cbn [negb andb]. set (s1 := set_state st s). set (m1 := set_socks _ m). apply runs_bind.
  assert (∀ m2, m_packets m2 = m_packets m → m_socks m2 = m_socks m1 → root m2 = root m → m_app m2 = m_app m → alive sx sy base n off a m2) as Hal.
  { intros m2 E1 E2 E3 E4. exists txl, rxl, s1. split; [|unfold writable, s1; cbn [s_state set_state tx]; by rewrite Hb4, orb_true_r; unfold st; rewrite has_clear_same].
    eapply live_touch; [exact Hlive|done|rewrite E2; cbn; apply lookup_insert_eq|done|done|done|done|by apply fixed_state]. }
  rewrite (fx_fd _ _ Hfx). destruct (fx_header _ _ Hfx) as (q & ttl & Eh). rewrite Eh. apply (runs_mdp_send W log).
  - intros r. apply runs_ret. split; [by apply Hal|by apply emits_none].
  - apply runs_ret. split; [by apply Hal|]. eapply emits_one; [done|constructor].
Qed.

(** What is acknowledged goes. *)
Lemma acked_runs sx sy base n off txl rxl a s m j : live sx sy base n off txl rxl a s m → recent sx j →
  runs (free_acked_packets (w_clock W) a Tx (seqn (j - 1))) m (λ _ m', ∃ txl' s', live sx sy (base `max` j) n off txl' rxl a s' m' ∧
    s_state s' = s_state s ∧ packet_count (tx s') ≤ packet_count (tx s) ∧ m_out m' = m_out m).
Proof.
  intros Hlive [Hj Hrec]. pose proof Hlive as [Hst Hfx Hs Hr Hlog]. pose proof origin_Z. destruct (below_numbers _ _ _ (st_txn _ _ _ _ _ _ _ _ _ Hst)) as [Hlt Hge]. pose proof (st_base _ _ _ _ _ _ _ _ _ Hst) as Hb.
  eapply runs_mono; [apply (free_acked_runs (w_clock W) a Tx (j - 1) txl m s Hs (st_tx _ _ _ _ _ _ _ _ _ Hst))|].
  { rewrite Forall_forall in Hlt, Hge |- *. intros e He. specialize (Hlt e He). specialize (Hge e He). cbn in Hlt, Hge. unfold near, LATE in *. lia. }
  cbn beta. intros _ m' (Hsd & Hf & w & Hs' & [Hseq _] & Hw). pose proof (stream_acked _ _ _ _ _ _ _ _ _ _ _ _ Hst Hj Hf Hw Hseq) as Hst'. exists (after (j - 1) txl), (set_window_tx w s). split_and!.
  - eapply live_after; [exact Hlive|reflexivity|done|apply Hsd|apply Hsd|done|by apply fixed_tx].
  - done.
  - rewrite (tx_length _ _ _ _ _ _ _ _ _ Hst'), (tx_length _ _ _ _ _ _ _ _ _ Hst). lia.
  - apply Hsd.
Qed.

(** The flags say again that there is room. *)
Lemma room_runs sx sy base n off txl rxl a s m c : live sx sy base n off txl rxl a s m → packet_count (tx s) ≤ c →
  has MSP_STATE_DATAOUT (s_state s) = negb ((MAX_WINDOW_SIZE <=? c) || has MSP_STATE_CLOSED (s_state s)) →
  runs (if (packet_count (tx s) <? MAX_WINDOW_SIZE) && negb (has MSP_STATE_SHUTDOWN_LOCAL (s_state s)) && negb (has MSP_STATE_CLOSED (s_state s))
        then upd_sock a (λ s, set_state (set_bits MSP_STATE_DATAOUT (s_state s)) s) else mret tt) m
    (λ _ m', ∃ s', live sx sy base n off txl rxl a s' m' ∧ writable s' ∧ m_out m' = m_out m).
Proof.
  intros Hlive Hc Hd. pose proof (lv_fixed _ _ _ _ _ _ _ _ _ _ _ _ Hlive) as Hfx. destruct (fx_bits _ _ Hfx) as (Hli & Hsl & Hsr). rewrite Hsl. cbn [negb]. rewrite andb_true_r.
  assert (writable s ∨ ((packet_count (tx s) <? MAX_WINDOW_SIZE) && negb (has MSP_STATE_CLOSED (s_state s))) = true) as Hcase.
  { unfold writable. rewrite Hd. destruct (has MSP_STATE_CLOSED (s_state s)); [left; by rewrite !orb_true_r|]. unfold MAX_WINDOW_SIZE in *. destruct (Z.ltb_spec (packet_count (tx s)) 4); [by right|left]. by rewrite !(proj2 (Z.leb_le _ _)) by lia. }
  destruct ((packet_count (tx s) <? MAX_WINDOW_SIZE) && negb (has MSP_STATE_CLOSED (s_state s))) eqn:Eb; [|apply runs_ret; exists s; split_and!; [done|by destruct Hcase|done]].
  apply andb_true_iff in Eb as [Elt%Z.ltb_lt Ecl%negb_true_iff]. apply (runs_upd_sock _ s); [apply Hlive|]. eexists. split_and!; [|unfold writable|].
  - eapply live_touch; [exact Hlive|done|cbn; apply lookup_insert_eq|done|done|done|done|]. apply fixed_state; [done|..]; rewrite has_set_bits; by rewrite ?Hli, ?Hsl, ?Hsr.
  - cbn [s_state set_state]. change (tx (set_state _ s)) with (tx s). rewrite !has_set_bits, Ecl, (proj2 (Z.leb_gt _ _)) by done. by rewrite orb_true_r.
  - done.
Qed.

Lemma rx_small sx sy base n off txl rxl pk s : stream sx sy base n off txl rxl pk s → Z.of_nat (length rxl) + 1 < 2 ^ 32.
Proof.
  intros []. pose proof origin_Z. assert (length rxl.*2 ≤ length (seq (n - Z.to_nat (LATE + 5)) (Z.to_nat LATE + 10)))%nat as Hlen.
  { apply submseteq_length, NoDup_submseteq; [by apply ordered_nodup; destruct st_rx0|]. intros k (e & -> & He)%list_elem_of_fmap_1. rewrite Forall_forall in st_late0. destruct (st_late0 e He) as [L1 L2]. apply elem_of_seq. unfold LATE in *. lia. }
  rewrite length_fmap, length_seq in Hlen. unfold LATE in *. lia.
Qed.

(** A packet of the other end. *)
Lemma arrived_runs sx sy base n off txl rxl a s m k bs f : live sx sy base n off txl rxl a s m → writable s → (origin ≤ k)%nat → sy !! (k - origin)%nat = Some bs → quiet f → Z.of_nat n ≤ Z.of_nat k + LATE + 5 →
  runs (add_packet (w_clock W) (w_memory W) a Rx (seqn k) f (Some bs) (length bs)) m (λ r m', alive sx sy base n off a m' ∧ m_out m' = m_out m).
Proof.
  intros Hlive Hw Hok Hbs Hf Hlate. pose proof Hlive as [Hst Hfx Hs Hr Hlog]. assert (k < top sy)%nat as Hk by (apply lookup_lt_Some in Hbs; unfold top; lia). pose proof (st_n _ _ _ _ _ _ _ _ _ Hst) as Hn.
  eapply runs_mono; [apply (add_packet_runs (w_clock W) (w_memory W)) with (l := rxl) (s := s); [apply memory|done|by destruct Hst| |by apply rx_small in Hst]|].
  { eapply Forall_impl; [exact (st_late _ _ _ _ _ _ _ _ _ Hst)|]. intros e He. cbn in He. unfold near, LATE in *. lia. }
  cbn beta. intros r m'. destruct (decide (k ∈ rxl.*2)) as [Hin|Hin]; [intros [_ ->]; split; [by exists txl, rxl, s|done]|].
  intros (_ & Hsd & b & t & i & w & Hb & _ & Hpk & Hs1 & [Hseq _] & Hw1). split; [|apply Hsd]. exists txl, (before k rxl ++ (b, k) :: after k rxl), (set_window_rx w s). split; [|done].
  eapply live_after; [exact Hlive|exact Hpk|done|apply Hsd|apply Hsd| |by apply fixed_rx]. apply stream_receive; try done. by rewrite <- Hpk.
Qed.

Abbreviation receive := (receive (w_clock W) (w_memory W) (w_send W) (w_local W)).
Abbreviation process_packet := (process_packet (w_clock W) (w_memory W) (w_send W) (w_local W)).

(** What the preamble of a datagram says. *)
Lemma heard_read sx sy n j f rest : heard sx sy n j (f :: rest) → f = FLAG_STOP ∧ rest = [] ∨ quiet f ∧ ∃ body, rest = write_uint16 (seqn (j - 1)) ++ body ∧ read_uint16 rest = Ret (seqn (j - 1)) ∧
  (body = [] ∨ ∃ k bs, body = write_uint16 (seqn k) ++ bs ∧ read_uint16 body = Ret (seqn k) ∧ (origin ≤ k)%nat ∧ sy !! (k - origin)%nat = Some bs ∧ Z.of_nat n ≤ Z.of_nat k + LATE + 5).
Proof.
  pose proof (λ k, seqn_range k) as Hrange. inversion 1 as [k bs f' Hok Hbs Hq Hlate|f' Hq|]; subst; [right|right|by left].
  - split; [done|]. exists (write_uint16 (seqn k) ++ bs). split_and!; [done|by apply uint_roundtrip|]. right. exists k, bs. split_and!; try done. by apply uint_roundtrip.
  - split; [done|]. exists []. split_and!; [by rewrite app_nil_r| |by left]. rewrite <- (app_nil_r (write_uint16 _)). by apply uint_roundtrip.
Qed.

Lemma receive_runs sx sy base n off a m j f rest : alive sx sy base n off a m → heard sx sy n j (f :: rest) → recent sx j →
  runs (receive a f (f :: rest)) m (λ r m', ∃ base', (base ≤ base' ∧ base' ≤ base `max` j)%nat ∧ alive sx sy base' n off a m' ∧ emits (said E sx base' n) m m').
Proof.
  intros (txl & rxl & s & Hlive & Hw) Hheard Hrec. unfold Msp.receive. apply runs_bind, (runs_clock W log). intros t _. apply runs_bind, (runs_upd_window _ _ s); [apply Hlive|].
  apply runs_bind. eapply runs_upd_sock; [cbn; apply lookup_insert_eq|]. cbn [set_window window]. match goal with |- runs _ (set_socks (<[a := ?x]> _) _) _ => set (s1 := x) end. match goal with |- runs _ ?x _ => set (m1 := x) end.
  assert (live sx sy base n off txl rxl a s1 m1 ∧ writable s1) as [Hl1 Hw1].
  { assert (live sx sy base n off txl rxl a (set_window_rx (set_activity t (rx s)) s) (set_socks (<[a := set_window_rx (set_activity t (rx s)) s]> (m_socks m)) m)) as Hl0.
    { eapply live_touch; [exact Hlive|done|cbn; apply lookup_insert_eq|done|done|done|done|]. apply fixed_rx, Hlive. }
    by eapply (live_bits _ _ _ _ _ _ _ _ _ _ MSP_STATE_RECEIVED_PACKET); [left|exact Hl0|..]. }
  destruct (heard_read _ _ _ _ _ _ Hheard) as [[-> ->]|(Hq & body & Hrest & Hack & Hbody)].
  { change (has FLAG_STOP FLAG_STOP) with true. cbv iota. apply runs_bind, (runs_sock _ s1); [apply Hl1|]. unfold sock_to_handle. rewrite (fx_salt _ _ (lv_fixed _ _ _ _ _ _ _ _ _ _ _ _ Hl1)). apply runs_bind.
    eapply runs_mono; [by eapply stop_runs|]. cbn beta. intros _ m2 [Hal He]. apply runs_ret. exists base. split_and!; [lia|lia|done|done]. }
  destruct (quiet_flags _ Hq) as (_ & Hns & _). rewrite Hns, bool_decide_false by (rewrite Hrest; cbn [length]; rewrite length_app, write16_length; lia). apply runs_bind.
  eapply (runs_mono _ _ (λ _ m', ∃ base' txl' s', (base ≤ base' ∧ base' ≤ base `max` j)%nat ∧ live sx sy base' n off txl' rxl a s' m' ∧ s_state s' = s_state s1 ∧ packet_count (tx s') ≤ packet_count (tx s1) ∧ m_out m' = m_out m)).
  { destruct (has FLAG_ACK f); [|apply runs_ret; exists base, txl, s1; split_and!; [lia|lia|done|done|lia|done]]. apply runs_bind. eapply runs_lift; [exact Hack|].
    eapply runs_mono; [by eapply acked_runs|]. cbn beta. intros _ m2 (txl2 & s2 & Hl2 & H1 & H2 & H3). exists (base `max` j)%nat, txl2, s2. split_and!; [lia|lia|done|done|done|by rewrite H3]. }
  cbn beta. intros _ m2 (base2 & txl2 & s2 & Hb2 & Hl2 & Hst2 & Hc2 & Ho2). apply runs_bind, (runs_sock _ s2); [apply Hl2|]. apply runs_bind.
  eapply runs_mono; [eapply (room_runs _ _ _ _ _ _ _ _ _ _ (packet_count (tx s1)) Hl2 Hc2); by rewrite Hst2|]. cbn beta. intros _ m3 (s3 & Hl3 & Hw3 & Ho3).
  apply runs_bind, (runs_clock W log). intros t2 _. apply runs_bind, (runs_upd_sock _ s3); [apply Hl3|]. set (s4 := set_next_action t2 s3). set (m4 := set_socks _ (m_tick m3)).
  assert (live sx sy base2 n off txl2 rxl a s4 m4) as Hl4 by (apply (live_minor log E _ _ _ _ _ _ _ _ s3); [by eapply live_state|done]).
  assert (∀ s5 m5, live sx sy base2 n off txl2 rxl a s5 m5 → writable s5 → m_out m5 = m_out m → ∃ base', (base ≤ base' ∧ base' ≤ base `max` j)%nat ∧ alive sx sy base' n off a m5 ∧ emits (said E sx base' n) m m5) as Hend.
  { intros s5 m5 H1 H2 H3. exists base2. split_and!; [lia|lia|by exists txl2, rxl, s5|by apply emits_none]. }
  destruct Hbody as [->|(k & bs & -> & Hk & Hok & Hbs & Hlate)].
  { rewrite bool_decide_true by (rewrite Hrest; cbn [length]; rewrite length_app, write16_length; unfold MSP_PAYLOAD_PREAMBLE_SIZE; cbn; lia). apply runs_ret. apply (Hend s4); [done|done|]. cbn. by rewrite Ho3. }
  rewrite bool_decide_false by (rewrite Hrest; cbn [length]; rewrite !length_app, !write16_length; unfold MSP_PAYLOAD_PREAMBLE_SIZE; lia). apply runs_bind, (runs_upd_sock _ s4); [apply Hl4|]. match goal with |- runs _ ?x _ => set (m5 := x) end.
  destruct (live_bits _ _ _ _ _ _ _ _ _ _ MSP_STATE_RECEIVED_DATA m5 (set_state (set_bits MSP_STATE_RECEIVED_DATA (s_state s4)) s4) (or_intror eq_refl) Hl4 Hw3) as [Hl5 Hw5]; try done.
  apply runs_bind. eapply runs_lift; [rewrite Hrest; exact Hk|].
  assert (drop MSP_PAYLOAD_PREAMBLE_SIZE (f :: rest) = bs ∧ (length (f :: rest) - MSP_PAYLOAD_PREAMBLE_SIZE)%nat = length bs) as [-> ->] by (rewrite Hrest; cbn; split; [done|lia]).
  apply runs_bind. eapply runs_mono; [by eapply arrived_runs|]. cbn beta. intros r m6 [(txl6 & rxl6 & s6 & Hl6 & Hw6) Ho6]. apply runs_bind.
  eapply (runs_mono _ _ (λ _ m', ∃ s7, live sx sy base2 n off txl6 rxl6 a s7 m' ∧ writable s7 ∧ m_out m' = m_out m)).
  { destruct (r =? 1); [|apply runs_ret; exists s6; split_and!; [done|done|by rewrite Ho6; cbn; rewrite Ho3]]. apply runs_bind, (runs_clock W log). intros t6 _. apply (runs_upd_sock _ s6); [apply Hl6|].
    eexists. split_and!; [apply (live_minor log E _ _ _ _ _ _ _ _ s6); [by eapply live_state|done]|done|by cbn; rewrite Ho6; cbn; rewrite Ho3]. }
  cbn beta. intros _ m7 (s7 & Hl7 & Hw7 & Ho7). apply runs_ret. exists base2. split_and!; [lia|lia|by exists txl6, rxl6, s7|by apply emits_none].
Qed.

(** The datagram finds its connection. *)
Lemma match_runs sx sy base n off txl rxl a s m q t fuel : live sx sy base n off txl rxl a s m →
  runs (match_loop (w_clock W) (S fuel) (fd E) (Header (me E) (peer E) 0 q t) None (Some a)) m (λ r m', r = Found (Some a) None ∧ m' = m).
Proof.
  intros [_ Hfx Hs _ _]. cbn [match_loop]. apply runs_bind, (runs_sock _ s); [done|]. rewrite (fx_fd _ _ Hfx), Z.eqb_refl. destruct (fx_header _ _ Hfx) as (q' & t' & Eh). rewrite Eh. destruct (fx_bits _ _ Hfx) as (Hli & _ & _).
  change (has MDP_FLAG_BIND (h_flags (Header (me E) (peer E) 0 q' t'))) with false. cbn [negb andb]. rewrite Hli. cbn [remote Msp.local]. rewrite !bool_decide_true by done. by apply runs_ret.
Qed.

Theorem process_packet_runs sx sy base n off a m j bs q t : alive sx sy base n off a m → heard sx sy n j bs → recent sx j →
  runs (process_packet (fd E) (Header (me E) (peer E) 0 q t) bs) m (λ r m', ∃ base', (base ≤ base' ∧ base' ≤ base `max` j)%nat ∧ alive sx sy base' n off a m' ∧ emits (said E sx base' n) m m').
Proof.
  intros Hal Hheard Hrec. pose proof Hal as (txl & rxl & s & Hlive & Hw). unfold Msp.process_packet. change (has MDP_FLAG_ERROR _) with false. cbv iota. apply runs_bind, runs_ask. apply runs_bind, runs_ask. apply runs_bind.
  rewrite (lv_root _ _ _ _ _ _ _ _ _ _ _ _ Hlive). destruct (one_sock a s m (lv_sock _ _ _ _ _ _ _ _ _ _ _ _ Hlive)) as [fuel ->]. eapply runs_mono; [by eapply match_runs|]. cbn beta. intros r m' [-> ->].
  destruct bs as [|f rest]; [by inversion Hheard|]. rewrite bool_decide_false by done. cbn [andb accept]. apply runs_bind, runs_ret. by eapply receive_runs.
Qed.

(** A socket that is gone answers with STOP. *)
Lemma process_packet_gone sx sy base n off m f rest q t : gone sy n off m →
  runs (process_packet (fd E) (Header (me E) (peer E) 0 q t) (f :: rest)) m (λ _ m', gone sy n off m' ∧ emits (said E sx base n) m m').
Proof.
  intros Hg. pose proof Hg as (Hr & Hp & Hlog & Hoff). unfold Msp.process_packet. change (has MDP_FLAG_ERROR _) with false. cbv iota. apply runs_bind, runs_ask. apply runs_bind, runs_ask. apply runs_bind. rewrite Hr.
  eapply (runs_mono _ _ (λ r m', r = Found None None ∧ m' = m)); [by destruct (size _); apply runs_ret|]. cbn beta. intros r m' [-> ->]. rewrite bool_decide_true by done. cbn [andb].
  destruct (has FLAG_STOP f); [apply runs_ret; split; [done|by apply emits_none]|]. apply runs_bind, runs_ret. apply runs_bind, (runs_mdp_send W log).
  - intros r. apply runs_ret. split; [by split_and!|by apply emits_none].
  - apply runs_ret. split; [by split_and!|]. eapply emits_one; [done|constructor].
Qed.

End Receive.
End MspReceive.
