(* ===== verification/MspProps.v ===== *)
(** * Two ends and the network between them

    Both ends are set up by the calls an application makes; then they send, are
    processed, and get datagrams that the other has sent, in any order, more than
    once or not at all. *)

From stdpp Require Import functions.
From S2P Require Import Prelude Prog DataFormats FdQueue FdQueueSpec Msp MspSpec MspLive MspStream MspProcess MspClose MspReceive.
Import Prog DataFormats FdQueueSpec Msp MspSpec MspLive MspStream MspProcess MspClose MspReceive.

Module MspProps.

(** One end: its memory, what it has sent, and what it has given to the network, each
    datagram with the number of packets that had been sent by then. *)
Record side (App : Type) := Side { sd_mem : msp App; sd_sent : list (list Z); sd_net : list (nat * message) }.
Arguments Side {App}.
Arguments sd_mem {App}.
Arguments sd_sent {App}.
Arguments sd_net {App}.

Inductive action := Send (i : bool) (payload : list Z) | Process (i : bool) | Deliver (i : bool) (k : nat).

Section System.
Context {App : Type} (W : bool → world App) (addr : bool → mdp_sockaddr) (fds : bool → Z).
Abbreviation sys := (bool → side App).

Definition total (σ : sys) : nat := (length (sd_sent (σ false)) + length (sd_sent (σ true)))%nat.

(** The calls that set up an end. *)
Definition setup (i : bool) : prog (msp App) msp_handle :=
  h ← msp_socket (w_clock (W i)) (w_memory (W i)) (fds i) 0;
  msp_set_handler h (Some 0%nat) 0;;
  msp_set_local h (addr i);;
  msp_connect (w_clock (W i)) h (addr (negb i));;
  mret h.
Definition boot (v : App) : msp App := Msp ∅ ∅ None 0 false [] 0 v.
Definition start_address : nat := fresh (dom (∅ : gmap nat msp_sock)).
Definition handle : msp_handle := Handle (Some start_address) 1.

(** The side after it has sent nothing new, but maybe given datagrams to the network. *)
Definition after_call (σ : sys) (i : bool) (m' : msp App) : sys :=
  let x := σ i in <[i := Side m' (sd_sent x) (sd_net x ++ (pair (total σ) <$> drop (length (m_out (sd_mem x))) (m_out m')))]> σ.

(** An application that has been told that its connection is closed does not send. A
    datagram goes to the end it is addressed to, unless it is too late. *)
Definition act (σ : sys) (a : action) : outcome sys :=
  match a with
  | Send i p =>
      let x := σ i in
      match root (sd_mem x) with
      | None => Ret σ
      | Some _ =>
          '(r, m') ← msp_send (w_clock (W i)) (w_memory (W i)) handle p (sd_mem x);
          Ret (<[i := Side m' (if r =? -1 then sd_sent x else sd_sent x ++ [p]) (sd_net x)]> σ)
      end
  | Process i => '(_, m') ← msp_processing (w_clock (W i)) (w_send (W i)) (w_local (W i)) (w_handler (W i)) (sd_mem (σ i)); Ret (after_call σ i m')
  | Deliver i k =>
      match sd_net (σ (negb i)) !! k with
      | None => Ret σ
      | Some (t, x) =>
          let h := msg_header x in
          if bool_decide (remote h = addr i) && (Z.of_nat (total σ) - Z.of_nat t <? LATE) then
            '(_, m') ← process_packet (w_clock (W i)) (w_memory (W i)) (w_send (W i)) (w_local (W i)) (fds i) (Header (remote h) (Msp.local h) 0 (h_qos h) (h_ttl h)) (msg_bytes x) (sd_mem (σ i));
            Ret (after_call σ i m')
          else Ret σ
      end
  end.
Fixpoint exec (σ : sys) (l : list action) : outcome sys :=
  match l with [] => Ret σ | a :: l => σ' ← act σ a; exec σ' l end.

(** Both ends are set up. *)
Definition start (v : bool → App) : outcome sys :=
  '(_, m0) ← setup false (boot (v false));
  '(_, m1) ← setup true (boot (v true));
  Ret (λ i : bool, Side (if i then m1 else m0) [] []).

(** ** The invariant *)

Variable log : bool → App → list Z.
Context `{Hb : !∀ i, Benign (W i) (log i)}.
Hypothesis ports : ∀ i, addr_port (addr i) ≠ 0.

Definition E (i : bool) : ends := Ends (addr i) (addr (negb i)) (fds i) 1.
Lemma E_ports i : addressed (E i).
Proof. split; apply ports. Qed.

(** A datagram on its way: it was said not long ago. *)
Definition in_flight (σ : sys) (n : bool → nat) (i : bool) (y : nat * message) : Prop := (y.1 ≤ total σ)%nat ∧ ∃ b j, said (E i) (sd_sent (σ i)) b j y.2 ∧
  (top (sd_sent (σ i)) + y.1 ≤ b + total σ + 5 ∧ origin ≤ j ∧ j ≤ n i ∧ top (sd_sent (σ (negb i))) + y.1 ≤ j + total σ + 5)%nat.

Record inv (σ : sys) (base n off : bool → nat) : Prop := {
  iv_side i : alive (log i) (E i) (sd_sent (σ i)) (sd_sent (σ (negb i))) (base i) (n i) (off i) start_address (sd_mem (σ i)) ∨ gone (log i) (sd_sent (σ (negb i))) (n i) (off i) (sd_mem (σ i));
  iv_base i : (base i ≤ n (negb i) ∧ top (sd_sent (σ i)) ≤ base i + 5)%nat;
  iv_n i : (origin ≤ n i ∧ n i ≤ top (sd_sent (σ (negb i))))%nat;
  iv_net i : Forall (in_flight σ n i) (sd_net (σ i));
}.

Lemma alive_off lg En sx sy base n off a (m : msp App) : alive lg En sx sy base n off a m → (off ≤ length (default [] (sy !! (n - origin)%nat)))%nat.
Proof. intros (txl & rxl & s & [Hst _ _ _ _] & _). apply Hst. Qed.
Lemma alive_grow lg En sx sy base n off a (m : msp App) p : alive lg En sx sy base n off a m → (top sy < n + 5)%nat → alive lg En sx (sy ++ [p]) base n off a m.
Proof.
  intros (txl & rxl & s & Hl & Hw) Hn. exists txl, rxl, s. split; [|done]. destruct Hl as [Hst ? ? ? Hlog]. split; try done; [by apply stream_grow|]. rewrite Hlog. pose proof (st_n _ _ _ _ _ _ _ _ _ Hst). symmetry. apply reading_grow; [lia|apply Hst].
Qed.
Lemma gone_grow lg sy n off (m : msp App) p : gone lg sy n off m → (origin ≤ n ∧ n ≤ top sy)%nat → gone lg (sy ++ [p]) n off m.
Proof.
  intros (H1 & H2 & H3 & H4) Hn. split_and!; [done|done|rewrite H3; symmetry; by apply reading_grow|]. destruct (sy !! (n - origin)%nat) as [x|] eqn:Ex; [by rewrite (lookup_app_l_Some _ _ _ _ Ex)|]. cbn in H4. lia.
Qed.
Lemma said_more En sx b j x p : said En sx b j x → said En (sx ++ [p]) b j x.
Proof. destruct 1 as [k bs f q t H1 H2 H3 H4| | |]; [|by constructor..]. apply said_data; try done. by apply lookup_app_l_Some. Qed.

Lemma sent_after σ i m' j : sd_sent (after_call σ i m' j) = sd_sent (σ j).
Proof. unfold after_call. destruct (decide (j = i)) as [->|Hne]; [by rewrite fn_lookup_insert|by rewrite fn_lookup_insert_ne]. Qed.
Lemma total_after σ i m' : total (after_call σ i m') = total σ.
Proof. unfold total. by rewrite !sent_after. Qed.
Lemma negb_ne i j : j ≠ i → j = negb i.
Proof. by destruct i, j. Qed.

(** A call that sends nothing new to the stream. *)
Lemma after_call_inv σ base n off i m' b' n' off' : inv σ base n off → emits (said (E i) (sd_sent (σ i)) b' n') (sd_mem (σ i)) m' →
  (base i ≤ b' ∧ b' ≤ n (negb i))%nat → (n i ≤ n' ∧ n' ≤ top (sd_sent (σ (negb i))))%nat →
  alive (log i) (E i) (sd_sent (σ i)) (sd_sent (σ (negb i))) b' n' off' start_address m' ∨ gone (log i) (sd_sent (σ (negb i))) n' off' m' →
  ∃ base n off, inv (after_call σ i m') base n off.
Proof.
  intros [Hside Hbase Hn Hnet] (new & Hout & Hnew) Hb' Hn' Hal. exists (<[i := b']> base), (<[i := n']> n), (<[i := off']> off). pose proof (Hbase i) as Hbi. pose proof (Hbase (negb i)) as Hbn. rewrite negb_involutive in Hbn.
  assert (negb i ≠ i) as Hne by (by destruct i). assert (i ≠ negb i) as Hne' by done. split; intros j.
  - rewrite !sent_after. unfold after_call. destruct (decide (j = i)) as [->|Hj]; [by rewrite !fn_lookup_insert|]. rewrite !fn_lookup_insert_ne by done. apply Hside.
  - rewrite sent_after. destruct (decide (j = i)) as [->|Hj]; [rewrite fn_lookup_insert, fn_lookup_insert_ne by done; lia|]. apply negb_ne in Hj as ->. rewrite negb_involutive, fn_lookup_insert, fn_lookup_insert_ne by done. lia.
  - rewrite sent_after. destruct (decide (j = i)) as [->|Hj]; [rewrite fn_lookup_insert; pose proof (Hn i); lia|]. rewrite fn_lookup_insert_ne by done. apply Hn.
  - assert (∀ y, in_flight σ n j y → in_flight (after_call σ i m') (<[i := n']> n) j y) as Hold.
    { intros y (Hy & b & k & Hs & H1 & H2 & H3 & H4). split; [by rewrite total_after|]. exists b, k. rewrite !sent_after, total_after. split_and!; try done. destruct (decide (j = i)) as [->|Hj]; [rewrite fn_lookup_insert; lia|by rewrite fn_lookup_insert_ne]. }
    assert (sd_net (after_call σ i m' j) = sd_net (σ j) ++ if decide (j = i) then pair (total σ) <$> new else []) as ->.
    { unfold after_call. destruct (decide (j = i)) as [->|Hj]; [|by rewrite fn_lookup_insert_ne, app_nil_r]. rewrite fn_lookup_insert. cbn. by rewrite Hout, drop_app_length. }
    apply Forall_app. split; [eapply Forall_impl; [apply Hnet|exact Hold]|]. destruct (decide (j = i)) as [->|Hj]; [|done]. apply Forall_fmap. eapply Forall_impl; [exact Hnew|]. intros x Hx.
    split; cbn [fst snd compose]; [by rewrite total_after|]. exists b', n'. rewrite !sent_after, total_after, fn_lookup_insert. pose proof (Hn i). split_and!; (done || lia).
Qed.

(** A send that is accepted. *)
Lemma send_inv σ base n off i m' p : inv σ base n off → alive (log i) (E i) (sd_sent (σ i) ++ [p]) (sd_sent (σ (negb i))) (base i) (n i) (off i) start_address m' →
  (top (sd_sent (σ i)) < base i + 5)%nat → inv (<[i := Side m' (sd_sent (σ i) ++ [p]) (sd_net (σ i))]> σ) base n off.
Proof.
  intros [Hside Hbase Hn Hnet] Hal Htop. set (σ' := <[i := _]> σ). assert (negb i ≠ i) as Hne by (by destruct i). assert (i ≠ negb i) as Hne' by done.
  assert (σ' i = Side m' (sd_sent (σ i) ++ [p]) (sd_net (σ i))) as Ei by apply fn_lookup_insert. assert (σ' (negb i) = σ (negb i)) as En by (by apply fn_lookup_insert_ne).
  assert (total σ' = S (total σ)) as Et. { unfold total. destruct i; cbn [negb] in *; rewrite Ei, En; cbn; rewrite length_app; cbn; lia. }
  pose proof (Hbase i) as Hbi. pose proof (Hn (negb i)) as Hnn. rewrite negb_involutive in Hnn.
  assert (∀ P : bool → Prop, P i → P (negb i) → ∀ j, P j) as Hboth. { intros P H1 H2 j. destruct (decide (j = i)) as [->|Hj]; [done|]. by apply negb_ne in Hj as ->. }
  split; apply Hboth; rewrite ?negb_involutive, ?Ei, ?En; cbn [sd_mem sd_sent sd_net]; rewrite ?top_snoc.
  - by left.
  - destruct (Hside (negb i)) as [H|H]; rewrite negb_involutive in H; [left; apply alive_grow; [done|lia]|right; by apply gone_grow].
  - lia.
  - pose proof (Hbase (negb i)) as H. by rewrite negb_involutive in H.
  - apply Hn.
  - lia.
  - eapply Forall_impl; [apply Hnet|]. intros y (Hy & b & k & Hs & H1 & H2 & H3 & H4). split; [lia|]. exists b, k. rewrite Ei, En, Et. cbn [sd_sent]. rewrite top_snoc. split_and!; [by apply said_more|lia..].
  - eapply Forall_impl; [apply Hnet|]. intros y (Hy & b & k & Hs & H1 & H2 & H3 & H4). rewrite negb_involutive in H4. split; [lia|]. exists b, k. rewrite negb_involutive, Ei, En, Et. cbn [sd_sent]. rewrite top_snoc. split_and!; [done|lia..].
Qed.

(** What was said can be heard. *)
Lemma said_heard σ base n off i t x : inv σ base n off → in_flight σ n (negb i) (t, x) → remote (msg_header x) = addr i → Z.of_nat (total σ) - Z.of_nat t < LATE →
  ∃ j, heard (sd_sent (σ i)) (sd_sent (σ (negb i))) (n i) j (msg_bytes x) ∧ recent (sd_sent (σ i)) j ∧ (j ≤ n (negb i))%nat ∧ Msp.local (msg_header x) = addr (negb i).
Proof.
  intros [_ _ Hn _] (Ht & b & j & Hs & H1 & H2 & H3 & H4) Hr Hlate. cbn [fst snd] in *. rewrite negb_involutive in *. pose proof (Hn i). pose proof (Hn (negb i)) as Hnn. rewrite negb_involutive in Hnn.
  assert (recent (sd_sent (σ i)) j) as Hrec. { unfold recent, LATE in *. lia. }
  destruct Hs as [k bs f q ttl K1 K2 K3 K4|f q ttl K|q ttl|h bs K]; cbn in *; try (exists j; split_and!; [|done|done|done]).
  - apply heard_data; try done. unfold LATE in *. lia.
  - by apply heard_ack.
  - by apply heard_stop.
  - rewrite Hr in K. by destruct (ports i).
Qed.

(** ** Steps *)

Lemma act_inv σ base n off a : inv σ base n off → ∃ σ', act σ a = Ret σ' ∧ ∃ base n off, inv σ' base n off.
Proof.
  intros Hinv. pose proof Hinv as [Hside Hbase Hn Hnet]. destruct a as [i p|i|i k]; cbn [act].
  - destruct (root (sd_mem (σ i))) as [x|] eqn:Er; [|by exists σ; split; [|exists base, n, off]]. destruct (Hside i) as [Hal|(Hg & _)]; [|congruence].
    destruct (msp_send_runs (W i) (log i) (E i) (E_ports i) _ _ _ _ _ _ _ p Hal) as (r & m' & Em & Ho & [[-> Hal']|(-> & Htop & Hal')]); change (Handle (Some start_address) (key (E i))) with handle in Em; rewrite Em; cbn.
    + eexists. split; [reflexivity|]. assert (<[i := Side m' (sd_sent (σ i)) (sd_net (σ i))]> σ = after_call σ i m') as -> by (unfold after_call; by rewrite Ho, drop_all, app_nil_r).
      eapply after_call_inv; [done|by apply emits_none| | |by left]; [specialize (Hbase i); lia|specialize (Hn i); lia].
    + eexists. split; [reflexivity|]. exists base, n, off. rewrite (proj2 (Z.eqb_neq _ _)) by lia. by apply send_inv.
  - destruct (Hside i) as [Hal|Hg].
    + destruct (processing_runs (W i) (log i) (E i) (E_ports i) _ _ _ _ _ _ _ Hal) as (r & m' & Em & n' & off' & H1 & H2 & He & Hal'). rewrite Em. cbn. eexists. split; [reflexivity|]. eapply after_call_inv; [done|exact He| |done|done]. specialize (Hbase i). lia.
    + destruct (processing_gone (W i) (log i) _ _ _ _ Hg) as (r & m' & Em & ->). rewrite Em. cbn. eexists. split; [reflexivity|]. eapply (after_call_inv _ _ _ _ _ _ (base i) (n i) (off i)); [done|by apply emits_none| | |by right]; [specialize (Hbase i); lia|specialize (Hn i); lia].
  - destruct (sd_net (σ (negb i)) !! k) as [[t x]|] eqn:Ek; [|by exists σ; split; [|exists base, n, off]].
    destruct (bool_decide_reflect (remote (msg_header x) = addr i)) as [Hr|]; cbn [andb]; [|by exists σ; split; [|exists base, n, off]].
    destruct (Z.ltb_spec (Z.of_nat (total σ) - Z.of_nat t) LATE) as [Hlate|]; [|by exists σ; split; [|exists base, n, off]].
    pose proof (Hnet (negb i)) as Hf. rewrite Forall_forall in Hf. destruct (said_heard σ base n off i t x Hinv) as (j & Hh & Hrec & Hj & Hl); [by apply Hf, (list_elem_of_lookup_2 _ k)|done|done|]. rewrite Hr, Hl.
    destruct (Hside i) as [Hal|Hg].
    + destruct (process_packet_runs (W i) (log i) (E i) (E_ports i) _ _ _ _ _ _ _ j (msg_bytes x) (h_qos (msg_header x)) (h_ttl (msg_header x)) Hal Hh Hrec) as (r & m' & Em & b' & H1 & Hal' & He).
      cbn [E me peer fd] in Em. rewrite Em. cbn. eexists. split; [reflexivity|]. eapply after_call_inv; [done|exact He| | |by left]; [specialize (Hbase i); lia|specialize (Hn i); lia].
    + destruct (msg_bytes x) as [|f rest]; [by inversion Hh|].
      destruct (process_packet_gone (W i) (log i) (E i) (sd_sent (σ i)) _ (base i) _ _ _ f rest (h_qos (msg_header x)) (h_ttl (msg_header x)) Hg) as (r & m' & Em & Hg' & He).
      cbn [E me peer fd] in Em. rewrite Em. cbn. eexists. split; [reflexivity|]. eapply after_call_inv; [done|exact He| | |by right]; [specialize (Hbase i); lia|specialize (Hn i); lia].
Qed.

(** ** Setting up *)

Lemma empty_stream pk s : wcore (tx s) = (0, 0, None, None) → wcore (rx s) = (0, 0, None, None) → pk = ∅ → stream [] [] origin origin 0 [] [] pk s.
Proof.
  unfold wcore. intros [= E1 E2 E3 E4] [= F1 F2 F3 F4] ->. assert (∀ w, packet_count w = 0 → w_head w = None → w_tail w = None → window_rep ∅ w []) as Hw.
  { intros w H1 H2 H3. split; [|constructor|constructor]. split; [done|done|done|done|constructor]. }
  assert (top [] = origin) as Et by (unfold top; cbn; lia). split; try (by apply Hw); rewrite ?Et, ?seqn_origin; try done; try (by constructor).
  - intros b Hb'. by apply not_elem_of_nil in Hb'.
  - intros b [p Hp]. by rewrite lookup_empty in Hp.
  - by replace (origin - origin)%nat with 0%nat by lia.
  - lia.
  - lia.
Qed.

Lemma setup_runs i v : log i v = [] → runs (setup i) (boot v) (λ h m, h = handle ∧ alive (log i) (E i) [] [] origin origin 0 start_address m ∧ m_out m = []).
Proof.
  intros Hv. unfold setup. apply runs_bind. unfold msp_socket. cbn [negb]. change (negb (0 =? 0)) with false. cbv iota. unfold emalloc. apply runs_bind, runs_bind, runs_event. apply runs_ret. rewrite (memory (log := log i)). cbn [negb].
  apply runs_bind, runs_ask. cbv zeta. change (u32 (salt_counter (m_tick (boot v)) + 1)) with 1. change (1 =? SALT_INVALID) with false. cbv iota. apply runs_bind, runs_change. apply runs_bind, (runs_clock (W i) (log i)). intros t _.
  apply runs_bind, runs_ask. apply runs_bind, runs_ask. cbn [root set_salt_counter m_tick boot m_socks]. fold start_address. apply runs_bind, runs_change. apply runs_bind, runs_ret. apply runs_bind, runs_change. apply runs_ret. fold handle.
  match goal with |- runs _ (set_root _ (set_socks (<[_ := ?x]> _) _)) _ => set (s0 := x) end. match goal with |- runs _ ?x _ => set (m0 := x) end.
  assert (∀ s m (Q : nat → msp App → Prop), m_socks m !! start_address = Some s → salt s = 1 → Q start_address m → runs (handle_to_sock handle) m Q) as Hh.
  { intros s m Q Hs Hsalt HQ. unfold handle_to_sock. cbn. apply runs_bind, (runs_sock _ s); [done|]. rewrite Hsalt. apply runs_bind, runs_assert; [done|]. by apply runs_ret. }
  apply runs_bind. unfold msp_set_handler. apply runs_bind, (Hh s0); [cbn; apply lookup_insert_eq|done|]. apply (runs_upd_sock _ s0); [cbn; apply lookup_insert_eq|]. set (s1 := set_handler _ _ s0). set (m1 := set_socks _ m0).
  assert (m_socks m1 !! start_address = Some s1) as H1 by (cbn; apply lookup_insert_eq).
  apply runs_bind. unfold msp_set_local. apply runs_bind, (Hh s1); [done|done|]. apply runs_bind, (runs_sock _ s1); [done|]. apply runs_bind, runs_assert; [done|]. apply (runs_upd_sock _ s1); [done|].
  set (s2 := set_header _ s1). set (m2 := set_socks _ m1). assert (m_socks m2 !! start_address = Some s2) as H2 by (cbn; apply lookup_insert_eq).
  apply runs_bind. unfold msp_connect. apply runs_bind, (Hh s2); [done|done|]. apply runs_bind, (runs_sock _ s2); [done|]. apply runs_bind, runs_assert; [done|]. apply runs_bind, (runs_upd_sock _ s2); [done|].
  set (s3 := set_state _ _). set (m3 := set_socks _ m2). assert (m_socks m3 !! start_address = Some s3) as H3 by (cbn; apply lookup_insert_eq).
  apply runs_bind, (runs_clock (W i) (log i)). intros t1 _. apply (runs_upd_sock _ s3); [done|]. apply runs_ret. split; [done|]. split; [|done].
  exists [], [], (set_next_action (t1 + 10) (set_next_ack (t1 + 10) s3)). split; [|reflexivity]. split; [by apply empty_stream| |cbn; apply lookup_insert_eq|done|].
  - split; try done; [by eexists _, _|by eexists|by left].
  - cbn. rewrite Hv. unfold reading. by replace (origin - origin)%nat with 0%nat by lia.
Qed.

Lemma stream_size sx sy base n off txl rxl pk s : stream sx sy base n off txl rxl pk s → Z.of_nat (size pk) = packet_count (tx s) + packet_count (rx s).
Proof.
  intros []. destruct st_tx0 as [Ht _ _], st_rx0 as [Hr _ _]. rewrite (proj1 (lk_count _ _ _ Ht)), (proj1 (lk_count _ _ _ Hr)). rewrite <- Nat2Z.inj_add, <- length_app. f_equal.
  assert (NoDup (txl.*1 ++ rxl.*1)) as Hnd. { apply NoDup_app. split_and!; [apply Ht|intros b H1 H2; by apply (st_apart0 b)|apply Hr]. }
  rewrite <- (size_dom pk), <- (size_list_to_set (C := gset nat) _ Hnd). f_equal. apply leibniz_equiv. intros b. rewrite elem_of_dom, elem_of_list_to_set, elem_of_app. split; [apply st_all0|].
  intros [Hin|Hin]; [destruct (linked_live _ _ _ _ Ht Hin)|destruct (linked_live _ _ _ _ Hr Hin)]; by eexists.
Qed.

Lemma start_inv v : (∀ i, log i (v i) = []) → ∃ σ, start v = Ret σ ∧ inv σ (λ _, origin) (λ _, origin) (λ _, 0%nat).
Proof.
  intros Hv. destruct (setup_runs false (v false) (Hv false)) as (h0 & m0 & E0 & -> & Hal0 & _). destruct (setup_runs true (v true) (Hv true)) as (h1 & m1 & E1 & -> & Hal1 & _).
  unfold start. rewrite E0. cbn [mbind outcome_bind]. rewrite E1. cbn [mbind outcome_bind]. eexists. split; [reflexivity|]. assert (top [] = origin) as Et by (unfold top; cbn; lia).
  split; intros i; cbn [sd_sent sd_mem sd_net]; rewrite ?Et; [left; by destruct i|lia|lia|constructor].
Qed.
Lemma exec_inv l : ∀ σ base n off, inv σ base n off → ∃ σ', exec σ l = Ret σ' ∧ ∃ base n off, inv σ' base n off.
Proof.
  induction l as [|a l IH]; intros σ base n off Hinv; [by exists σ; split; [|exists base, n, off]|]. cbn [exec]. destruct (act_inv _ _ _ _ a Hinv) as (σ1 & -> & base1 & n1 & off1 & Hinv1).
  destruct (IH _ _ _ _ Hinv1) as (σ2 & E2 & Hinv2). by exists σ2.
Qed.

(** A run: both ends are set up, then things happen. *)
Definition run (v : bool → App) (l : list action) : outcome sys := σ ← start v; exec σ l.
Lemma run_inv v l : (∀ i, log i (v i) = []) → ∃ σ, run v l = Ret σ ∧ ∃ base n off, inv σ base n off.
Proof. intros Hv. unfold run. destruct (start_inv v Hv) as (σ & -> & Hinv). by apply (exec_inv l σ _ _ _ Hinv). Qed.

Lemma reading_prefix sy n off : reading sy n off `prefix_of` concat sy.
Proof.
  unfold reading. destruct (sy !! (n - origin)%nat) as [x|] eqn:Ex; cbn.
  - transitivity (concat (take (n - origin) sy ++ x :: drop (S (n - origin)) sy)); [|by rewrite (take_drop_middle sy _ _ Ex)]. rewrite concat_app. apply prefix_app. cbn. apply prefix_app_r, prefix_take.
  - rewrite take_nil, app_nil_r. transitivity (concat (take (n - origin) sy ++ drop (n - origin) sy)); [|by rewrite take_drop]. rewrite concat_app. by apply prefix_app_r.
Qed.
Lemma concat_take_prefix (sy : list (list Z)) i j : (i ≤ j)%nat → concat (take i sy) `prefix_of` concat (take j sy).
Proof. intros H. replace j with (i + (j - i))%nat by lia. rewrite <- take_take_drop, concat_app. by apply prefix_app_r. Qed.
Lemma inv_log σ base n off i : inv σ base n off → log i (m_app (sd_mem (σ i))) = reading (sd_sent (σ (negb i))) (n i) (off i).
Proof. intros [Hs _ _ _]. destruct (Hs i) as [(txl & rxl & s & Hl & _)|(_ & _ & H & _)]; [apply Hl|done]. Qed.

(** C3: Whatever the network and the two applications do, every call returns (no
    assertion fails and no memory is misused), and what an application has read from
    its end of the stream is the beginning of what was sent at the other end: nothing is
    lost, repeated or out of order. *)
Theorem stream_in_order v l : (∀ i, log i (v i) = []) → ∃ σ, run v l = Ret σ ∧
  ∀ i, log i (m_app (sd_mem (σ i))) `prefix_of` concat (sd_sent (σ (negb i))).
Proof.
  intros Hv. destruct (run_inv v l Hv) as (σ & Hrun & base & n & off & Hinv). exists σ. split; [done|]. intros i. rewrite (inv_log _ _ _ _ i Hinv). apply reading_prefix.
Qed.

(** C4: A packet leaves the send window only after the other application has read it:
    all that was sent but for the packets in the window has been read, and when the
    window is empty, everything has. *)
Theorem stream_acknowledged v l σ i s : (∀ i, log i (v i) = []) → run v l = Ret σ →
  root (sd_mem (σ i)) = Some start_address → m_socks (sd_mem (σ i)) !! start_address = Some s →
  let sent := sd_sent (σ i) in let seen := log (negb i) (m_app (sd_mem (σ (negb i)))) in
  concat (take (length sent - Z.to_nat (packet_count (tx s))) sent) `prefix_of` seen ∧ (packet_count (tx s) = 0 → seen = concat sent).
Proof.
  intros Hv Hrun Hroot Hs sent seen. destruct (run_inv v l Hv) as (σ' & Hrun' & base & n & off & Hinv). rewrite Hrun in Hrun'. injection Hrun' as <-. unfold seen. rewrite (inv_log _ _ _ _ (negb i) Hinv), negb_involutive.
  pose proof Hinv as [Hside Hbase Hn _]. specialize (Hbase i). pose proof (Hn (negb i)) as Hnn. rewrite negb_involutive in Hnn. fold sent in Hbase, Hnn |- *.
  destruct (Hside i) as [(txl & rxl & s' & Hl & _)|(Hg & _)]; [|congruence]. pose proof (lv_sock _ _ _ _ _ _ _ _ _ _ _ _ Hl) as Hs'. rewrite Hs in Hs'. injection Hs' as <-.
  pose proof (lv_stream _ _ _ _ _ _ _ _ _ _ _ _ Hl) as Hst. rewrite (tx_length _ _ _ _ _ _ _ _ _ Hst). pose proof (st_base _ _ _ _ _ _ _ _ _ Hst) as Hb'. fold sent in Hb' |- *. unfold top in *. split.
  - unfold reading. apply prefix_app_r, concat_take_prefix. lia.
  - intros Hz. assert (n (negb i) - origin = length sent)%nat as En by lia. unfold reading. rewrite En, firstn_all, lookup_ge_None_2 by lia. cbn. by rewrite take_nil, app_nil_r.
Qed.

(** C34: The packets in memory are the ones the two windows of the connection count, at
    most five of them to send; when the connection has been closed none is left. *)
Theorem stream_memory v l σ i : (∀ i, log i (v i) = []) → run v l = Ret σ → let m := sd_mem (σ i) in
  root m = None ∧ m_packets m = ∅ ∨ root m = Some start_address ∧ ∃ s, m_socks m !! start_address = Some s ∧
    Z.of_nat (size (m_packets m)) = packet_count (tx s) + packet_count (rx s) ∧ 0 ≤ packet_count (tx s) ≤ 5 ∧ 0 ≤ packet_count (rx s).
Proof.
  intros Hv Hrun m. destruct (run_inv v l Hv) as (σ' & Hrun' & base & n & off & Hinv). rewrite Hrun in Hrun'. injection Hrun' as <-.
  destruct (iv_side _ _ _ _ Hinv i) as [(txl & rxl & s & [Hst _ Hs Hr _] & _)|(Hr & Hp & _)]; [right|by left]. split; [done|]. exists s. split; [done|].
  pose proof (tx_length _ _ _ _ _ _ _ _ _ Hst) as Ht. pose proof (st_base _ _ _ _ _ _ _ _ _ Hst). unfold m. rewrite (stream_size _ _ _ _ _ _ _ _ _ Hst). split_and!; [lia..|]. destruct (lk_count _ _ _ (wr_linked _ _ _ (st_rx _ _ _ _ _ _ _ _ _ Hst))). lia.
Qed.

End System.
End MspProps.
