(* ===== verification/MspAccept.v ===== *)
(** * Connections that are accepted

    The walk over the sockets for a datagram of no connection, and the state in which a
    first datagram that is too short leaves the socket that is made for it. *)

From S2P Require Import Prelude Prog DataFormats FdQueue FdQueueSpec Msp MspSpec MspLive MspStream MspProcess MspClose MspReceive MspProps.
Import Prog DataFormats FdQueueSpec Msp MspSpec MspLive MspStream MspProcess MspClose MspReceive MspProps.

Module MspAccept.

(** The sockets in the list that starts at [p]. *)
Fixpoint sock_list (socks : gmap nat msp_sock) (p : option nat) (l : list nat) : Prop :=
  match l with
  | [] => p = None
  | a :: l => p = Some a ∧ ∃ s, socks !! a = Some s ∧ sock_list socks (s_next s) l
  end.
(** The socket has no connection with the addresses of [h]. *)
Definition unrelated (fd : Z) (h : mdp_header) (s : msp_sock) : Prop :=
  mdp_sock s = fd → has MSP_STATE_LISTENING (s_state s) = true ∨ remote (s_header s) ≠ remote h ∨ local (s_header s) ≠ local h.
(** It listens on the address. *)
Definition listens_on (fd : Z) (h : mdp_header) (s : msp_sock) : Prop := mdp_sock s = fd ∧ has MSP_STATE_LISTENING (s_state s) = true ∧ listens s h = true.

Section Accept.
Context {App : Type} (W : world App) (log : App → list Z) `{!Benign W log}.
Implicit Types m : msp App.
Variables (fd : Z) (h : mdp_header).
Hypothesis plain : has MDP_FLAG_BIND (h_flags h) = false ∧ has MDP_FLAG_ERROR (h_flags h) = false.

(** No connection is found; a socket that listens on the address is. *)
Lemma match_listen l : ∀ fuel p listen m, sock_list (m_socks m) p l → (length l ≤ fuel)%nat → (∀ a s, a ∈ l → m_socks m !! a = Some s → unrelated fd h s) → (∀ b, listen = Some b → is_Some (m_socks m !! b)) →
  ∃ o, match_loop (w_clock W) fuel fd h listen p m = Ret (Found None o, m) ∧ (∀ b, o = Some b → is_Some (m_socks m !! b)) ∧ (is_Some listen ∨ (∃ a s, a ∈ l ∧ m_socks m !! a = Some s ∧ listens_on fd h s) → is_Some o).
Proof.
  induction l as [|a l IH]; intros fuel p listen m Hl Hf Hno Hlive; cbn [sock_list] in Hl.
  { subst p. exists listen. split; [by destruct fuel|]. split; [done|]. intros [?|(a & s & Ha & _)]; [done|]. by apply not_elem_of_nil in Ha. }
  destruct Hl as (-> & s & Hs & Hl). cbn [length] in Hf. destruct fuel as [|fuel]; [lia|]. cbn [match_loop]. apply (bind_gives (λ r, ∃ o, r = Ret (Found None o, m) ∧ _)), (runs_sock _ s); [done|].
  assert (∀ listen', (∀ b, listen' = Some b → is_Some (m_socks m !! b)) → (is_Some listen ∨ listens_on fd h s → is_Some listen') → ∃ o, match_loop (w_clock W) fuel fd h listen' (s_next s) m = Ret (Found None o, m) ∧
    (∀ b, o = Some b → is_Some (m_socks m !! b)) ∧ (is_Some listen ∨ (∃ a' s, a' ∈ a :: l ∧ m_socks m !! a' = Some s ∧ listens_on fd h s) → is_Some o)) as Hgo.
  { intros listen' H1 H2. destruct (IH fuel (s_next s) listen' m Hl ltac:(lia)) as (o & E & Ho & Hs'); [intros b sb Hb; apply Hno; by right|done|]. exists o. split_and!; [done|done|].
    intros [H|(a' & s' & [->|Ha]%elem_of_cons & Hsa & Hlo)]; apply Hs'; [left; auto| |right; by exists a', s']. rewrite Hs in Hsa. injection Hsa as <-. left. auto. }
  destruct plain as [Hbind _]. destruct (Z.eqb_spec (mdp_sock s) fd) as [Efd|Efd]; cbn [negb]; [|apply Hgo; [done|]; intros [?|[? _]]; done]. rewrite Hbind, andb_false_r.
  destruct (has MSP_STATE_LISTENING (s_state s)) eqn:Eli.
  - destruct (listens s h) eqn:Els; apply Hgo; [intros b [= <-]; by eexists|by eexists|done|]. intros [?|(_ & _ & ?)]; [done|congruence].
  - destruct (Hno a s ltac:(left) Hs Efd) as [?|Hne]; [congruence|]. destruct (bool_decide_reflect (remote (s_header s) = remote h)), (bool_decide_reflect (local (s_header s) = local h)); cbn [andb];
      [by destruct Hne|..]; (apply Hgo; [done|]; intros [?|(_ & ? & _)]; [done|congruence]).
Qed.

Lemma sock_list_length (socks : gmap nat msp_sock) p l : sock_list socks p l → NoDup l → (length l ≤ size socks)%nat.
Proof.
  intros Hl Hnd. rewrite <- (size_dom socks), <- (size_list_to_set (C := gset nat) l Hnd). apply subseteq_size. intros a Ha%elem_of_list_to_set. clear Hnd. revert p Hl. induction l as [|b l IH]; intros p; [by apply not_elem_of_nil in Ha|].
  intros (_ & s & Hs & Hl). apply elem_of_cons in Ha as [->|Ha]; [apply elem_of_dom; by eexists|by apply (IH Ha (s_next s))].
Qed.

(** The socket that is made for a first datagram of one or two bytes. *)
Definition half_open (t : Z) (s : msp_sock) : Prop := s_state s = MSP_STATE_RECEIVED_PACKET ∧ timeout s = t + 10000 ∧ packet_count (tx s) = 0 ∧ w_head (tx s) = None ∧ w_head (rx s) = None ∧ last_state s = 0xFFFF.

Lemma short_first_runs l f rest m : sock_list (m_socks m) (root m) l → NoDup l → (∀ a s, a ∈ l → m_socks m !! a = Some s → unrelated fd h s) → (∃ a s, a ∈ l ∧ m_socks m !! a = Some s ∧ listens_on fd h s) →
  has FLAG_FIRST f = true → has FLAG_STOP f = false → (length rest ≤ 1)%nat →
  runs (process_packet (w_clock W) (w_memory W) (w_send W) (w_local W) fd h (f :: rest)) m (λ r m', r = 0 ∧ ∃ a s, root m' = Some a ∧ m_socks m' !! a = Some s ∧ half_open (w_clock W (S (S (m_ticks m)))) s ∧ m_ticks m' = S (S (S (m_ticks m)))).
Proof.
  intros Hl Hnd Hno Hlis Hf Hs Hlen. unfold process_packet. rewrite (proj2 plain). apply runs_bind, runs_ask. apply runs_bind, runs_ask.
  destruct (match_listen l (size (m_socks m)) (root m) None m Hl (sock_list_length _ _ _ Hl Hnd) Hno ltac:(done)) as (o & E & Ho & Hsome). destruct (Hsome ltac:(by right)) as [b ->]. destruct (Ho b eq_refl) as [sb Hsb].
  apply runs_bind. exists (Found None (Some b)), m. split; [done|]. rewrite bool_decide_true by done. rewrite Hs. cbn [andb]. apply runs_bind. unfold accept. rewrite Hf. apply runs_bind, (runs_sock _ sb); [done|].
  apply runs_bind. unfold msp_socket. cbn [Z.eqb negb]. apply runs_bind. unfold emalloc. apply runs_bind, runs_event. rewrite memory. apply runs_ret. cbn [negb]. apply runs_bind, runs_ask. apply runs_bind, runs_change.
  apply runs_bind. unfold gettime at 1. apply runs_bind, runs_event. apply runs_ret. apply runs_bind, runs_ask. apply runs_bind, runs_ask. apply runs_bind, runs_change.
  cbn [m_socks set_salt_counter m_tick set_socks root salt_counter m_ticks]. set (a := fresh (dom (m_socks m))). set (c := if _ =? SALT_INVALID then _ else _). set (s0 := Sock (root m) None c _ _ _ _ _ _ _ _ _ _ _ _ _).
  assert (a ≠ b) as Hab. { intros Eab. assert (a ∈ dom (m_socks m)) as Hin by (apply elem_of_dom; rewrite Eab; by eexists). by apply (is_fresh (dom (m_socks m))). }
  apply runs_bind. set (m1 := set_socks _ _). apply (runs_mono _ _ (λ _ m2, m_socks m2 !! a = Some s0 ∧ is_Some (m_socks m2 !! b) ∧ m_ticks m2 = S (S (m_ticks m)))).
  { assert (m_socks m1 !! a = Some s0) as Ha by apply lookup_insert_eq. assert (m_socks m1 !! b = Some sb) as Hb by (cbn; by rewrite lookup_insert_ne). destruct (root m) as [x|] eqn:Er; [|apply runs_ret; split_and!; try done; by eexists].
    destruct l as [|y l]; [cbn in Hl; congruence|]. cbn in Hl. destruct Hl as ([= <-] & sx & Hx & _). assert (a ≠ x) as Hax. { intros Eax. assert (a ∈ dom (m_socks m)) as Hin by (apply elem_of_dom; rewrite Eax; by eexists). by apply (is_fresh (dom (m_socks m))). }
    apply (runs_upd_sock _ sx); [cbn; by rewrite lookup_insert_ne|]. cbn [m_socks set_socks]. split_and!; [by rewrite lookup_insert_ne|apply lookup_insert_is_Some; destruct (decide (x = b)); [by left|right; split; [done|by rewrite Hb]]|done]. }
  cbn beta. intros _ m2 (Ha2 & [sb2 Hb2] & Ht2). apply runs_bind, runs_change. apply runs_ret. cbn [ptr]. apply runs_bind, (runs_sock _ sb2); [done|]. apply runs_bind, (runs_upd_sock _ s0); [done|]. apply runs_ret.
  unfold receive. apply runs_bind. unfold gettime at 1. apply runs_bind, runs_event. apply runs_ret. cbn [m_ticks set_socks set_root]. rewrite Ht2. set (t := w_clock W _).
  apply runs_bind. eapply runs_upd_window; [cbn; apply lookup_insert_eq|]. apply runs_bind. eapply runs_upd_sock; [cbn; apply lookup_insert_eq|]. rewrite Hs. rewrite bool_decide_true by (cbn; lia). apply runs_ret. split; [done|].
  eexists a, _. split; [done|]. split; [cbn; apply lookup_insert_eq|]. split; [by split_and!|]. cbn. by rewrite Ht2.
Qed.

Lemma quiet_call a s m : m_socks m !! a = Some s → s_state s ≠ 0xFFFF → last_state s = 0xFFFF → runs (call_handler (w_clock W) (w_handler W) a []) m (λ _ m', ∃ s', m_socks m' !! a = Some s' ∧ called s s').
Proof.
  intros Hs Hst Hl. destruct (s_handler s) as [x|] eqn:Eh.
  - eapply runs_mono; [apply (call_handler_runs W log a s [] m Hs); split_and!; [by eexists|done|by left]|]. cbn beta. intros k m' (_ & s' & H1 & H2 & _). by exists s'.
  - unfold call_handler. apply runs_bind, (runs_sock _ s); [done|]. apply runs_bind. unfold gettime. apply runs_bind, runs_event. apply runs_ret. rewrite Eh. apply runs_ret. exists s. split; [done|by left].
Qed.

(** What [msp_processing] does with it. *)
Lemma half_open_aborts t a s m : root m = Some a → m_socks m !! a = Some s → half_open t s → w_clock W (m_ticks m) ≤ t + 10000 →
  msp_processing (w_clock W) (w_send W) (w_local W) (w_handler W) m = Aborted.
Proof.
  intros Hr Hs (H1 & H2 & H3 & H4 & H5 & H6) Hclk. unfold msp_processing. do 2 apply (bind_gives (λ o, o = Aborted)), runs_ask. rewrite Hr.
  destruct (one_sock a s m Hs) as [fuel ->]. cbn [process_loop]. enough (process_sock (w_clock W) (w_send W) (w_local W) (w_handler W) a m = Aborted) as Hab by (unfold mbind, prog_bind; by rewrite Hab).
  unfold process_sock. apply (bind_gives (λ o, o = Aborted)). unfold gettime. apply runs_bind, runs_event. apply runs_ret. apply (bind_gives (λ o, o = Aborted)), (runs_sock _ s); [done|].
  rewrite H2, (proj2 (Z.ltb_ge _ _)) by lia. apply (bind_gives (λ o, o = Aborted)), (runs_upd_sock _ s); [done|]. rewrite H1. change (has MSP_STATE_LISTENING MSP_STATE_RECEIVED_PACKET) with false. cbv iota.
  set (s1 := set_next_action (timeout s) s). set (m1 := set_socks _ _). assert (m_socks m1 !! a = Some s1) as Hs1 by apply lookup_insert_eq. clearbody m1. apply (bind_gives (λ o, o = Aborted)), runs_ask.
  rewrite H5. assert (∀ n, deliver_loop (w_clock W) (w_handler W) n a None = mret tt) as -> by (by intros []). apply (bind_gives (λ o, o = Aborted)), runs_ret. apply (bind_gives (λ o, o = Aborted)), (runs_sock _ s1); [done|].
  apply (bind_gives (λ o, o = Aborted)). unfold free_acked_packets. apply runs_bind, (runs_window _ _ s1); [done|]. change (w_head (window Rx s1)) with (w_head (rx s)). rewrite H5. apply runs_ret.
  apply (bind_gives (λ o, o = Aborted)). eapply runs_mono; [apply (quiet_call a s1); [done|cbn; by rewrite H1|done]|]. cbn beta. intros _ m2 (s2 & Hs2 & Hc).
  assert (tx s2 = tx s ∧ s_state s2 = MSP_STATE_RECEIVED_PACKET) as [E1 E2] by (rewrite <- H1; by destruct Hc as [->|(u & _ & ->)]).
  apply (bind_gives (λ o, o = Aborted)), (runs_sock _ s2); [done|]. apply (bind_gives (λ o, o = Aborted)). apply (runs_mono _ _ (λ _ m3, ∃ s3, m_socks m3 !! a = Some s3 ∧ tx s3 = tx s ∧ s_state s3 = MSP_STATE_RECEIVED_PACKET)).
  { destruct (_ && _); [apply (runs_upd_sock _ s2); [done|]; eexists; split; [cbn; apply lookup_insert_eq|done]|apply runs_ret; by exists s2]. }
  cbn beta. intros _ m3 (s3 & Hs3 & E3 & E4). enough (check_window a m3 = Aborted) as Hab by (unfold mbind, prog_bind; by rewrite Hab).
  unfold check_window. apply (bind_gives (λ o, o = Aborted)), (runs_sock _ s3); [done|]. apply (bind_gives (λ o, o = Aborted)), runs_ask. rewrite E3, E4, H3, H4.
  assert (∀ n, count_packets (App := App) n None = mret 0) as -> by (by intros []). apply (bind_gives (λ o, o = Aborted)), runs_ret. done.
Qed.

(** C35: A datagram of one or two bytes with FLAG_FIRST and without FLAG_STOP, from any
    address that has no connection, to an address that some socket listens on, makes
    the next [msp_processing] fail an assertion, when it is called within ten seconds:
    the new connection does not have MSP_STATE_DATAOUT. The sockets are any list
    without a connection between the two addresses, and the handler of the listening
    socket, if it has one, only reads. *)
Theorem short_first_packet_aborts l f rest m : sock_list (m_socks m) (root m) l → NoDup l →
  (∀ a s, a ∈ l → m_socks m !! a = Some s → unrelated fd h s) → (∃ a s, a ∈ l ∧ m_socks m !! a = Some s ∧ listens_on fd h s) →
  has FLAG_FIRST f = true → has FLAG_STOP f = false → (length rest ≤ 1)%nat → (∀ i, w_clock W (S i) ≤ w_clock W i + 10000) →
  (process_packet (w_clock W) (w_memory W) (w_send W) (w_local W) fd h (f :: rest);; msp_processing (w_clock W) (w_send W) (w_local W) (w_handler W)) m = Aborted.
Proof.
  intros H1 H2 H3 H4 H5 H6 H7 Hclk. apply (bind_gives (λ o, o = Aborted)). eapply runs_mono; [by apply (short_first_runs l)|]. cbn beta. intros r m' (_ & a & s & Hr & Hs & Hh & Ht). apply (half_open_aborts _ a s m' Hr Hs Hh). rewrite Ht. apply Hclk.
Qed.

End Accept.
End MspAccept.
