(* ===== verification/MspDemo.v ===== *)
(** * Streams at work

    A world in which everything works, an exchange over a network that loses, repeats
    and reorders, the instances of the properties, and the cases in which the code
    fails. *)

From stdpp Require Import functions.
From S2P Require Import Prelude Prog DataFormats FdQueue FdQueueSpec Msp MspSpec MspLive MspStream MspProcess MspClose MspReceive MspProps MspAccept.
Import Prog DataFormats FdQueueSpec Msp MspSpec MspLive MspStream MspProcess MspClose MspReceive MspProps MspAccept.

Module MspDemo.

(** The clock goes on by 100 ms at each call to the system; the application reads all
    it is given. *)
Definition read_all : nat → msp_handle → Z → list Z → nat → prog (msp (list Z)) nat := λ _ _ _ payload _ m, Ret (length payload, set_app (m_app m ++ payload) m).
Definition calm : world (list Z) := World _ (λ i, Z.min (Z.of_nat i * 100) (2 ^ 59)) (λ _, true) (λ _, Sent) true read_all.
#[export] Instance calm_benign : Benign calm id.
Proof.
  split; try done.
  - intros i. cbn. lia.
  - intros h hd st payload c m. exists (length payload), (set_app (m_app m ++ payload) m). split; [done|]. split; [done|]. exists (m_app m ++ payload). split; [done|]. cbn. by rewrite firstn_all.
Qed.

Definition sid (x : Z) : list Z := replicate SID_SIZE x.
Definition addr (i : bool) : mdp_sockaddr := if i then Sockaddr (sid 2) 20 else Sockaddr (sid 1) 10.
Lemma addr_ports i : addr_port (addr i) ≠ 0.
Proof. by destruct i. Qed.
Abbreviation runs_to l := (run (λ _, calm) addr (λ _, 3) (λ _, []) l).

(** Two packets are sent; the second arrives, twice, the first is lost. It is sent again
    after a while, and both are acknowledged. *)
Definition exchange : list action :=
  [Send false [1; 2; 3]; Send false [4; 5]; Process false; Deliver true 1; Deliver true 1; Process true] ++ replicate 8 (Process false) ++
  [Deliver true 2; Deliver true 0; Process true; Deliver false 1; Deliver false 0].
Definition nothing : bool → side (list Z) := λ _, Side (boot []) [] [].
Definition final : bool → side (list Z) := match runs_to exchange with Ret σ => σ | _ => nothing end.
Lemma exchange_runs : runs_to exchange = Ret final.
Proof.
  unfold final. assert (match runs_to exchange with Ret _ => true | _ => false end = true) as H by (vm_compute; reflexivity). by destruct (runs_to exchange).
Qed.
Lemma exchange_read : m_app (sd_mem (final true)) = [1; 2; 3; 4; 5] ∧ msg_bytes <$> (sd_net (final false)).*2 = [[4; 255; 255; 0; 0; 1; 2; 3]; [4; 255; 255; 1; 0; 4; 5]; [4; 255; 255; 0; 0; 1; 2; 3]].
Proof. vm_compute. split; reflexivity. Qed.
Lemma exchange_window : match m_socks (sd_mem (final false)) !! start_address with Some s => packet_count (tx s) =? 0 | None => false end = true.
Proof. vm_compute. reflexivity. Qed.

Lemma stream_in_order_witness : ∃ σ, runs_to exchange = Ret σ ∧ ∀ i, m_app (sd_mem (σ i)) `prefix_of` concat (sd_sent (σ (negb i))).
Proof. exact (stream_in_order (λ _, calm) addr (λ _, 3) (λ _, id) addr_ports (λ _, []) exchange (λ _, eq_refl)). Defined.
Lemma stream_acknowledged_witness : m_app (sd_mem (final true)) = concat (sd_sent (final false)).
Proof.
  pose proof exchange_window as Hw. destruct (m_socks (sd_mem (final false)) !! start_address) as [s|] eqn:Es; [|done]. apply Z.eqb_eq in Hw.
  assert (root (sd_mem (final false)) = Some start_address) as Hr by (vm_compute; reflexivity).
  exact (proj2 (stream_acknowledged (λ _, calm) addr (λ _, 3) (λ _, id) addr_ports (λ _, []) exchange final false s (λ _, eq_refl) exchange_runs Hr Es) Hw).
Defined.
Lemma stream_memory_witness : let m := sd_mem (final false) in root m = None ∧ m_packets m = ∅ ∨ root m = Some start_address ∧ ∃ s, m_socks m !! start_address = Some s ∧
    Z.of_nat (size (m_packets m)) = packet_count (tx s) + packet_count (rx s) ∧ 0 ≤ packet_count (tx s) ≤ 5 ∧ 0 ≤ packet_count (rx s).
Proof. exact (stream_memory (λ _, calm) addr (λ _, 3) (λ _, id) addr_ports (λ _, []) exchange final false (λ _, eq_refl) exchange_runs). Defined.

(** ** Where the code fails *)

(** A socket that listens, bound to its port. *)
Definition listening : prog (msp (list Z)) unit :=
  h ← msp_socket (w_clock calm) (w_memory calm) 3 0;
  msp_set_handler h (Some 0%nat) 0;;
  msp_set_local h (addr false);;
  msp_listen (w_clock calm) (w_send calm) (w_local calm) h;;
  process_packet (w_clock calm) (w_memory calm) (w_send calm) (w_local calm) 3 (Header (addr false) NO_ADDR MDP_FLAG_BIND 0 0) [];;
  mret tt.
Definition listening_state : msp (list Z) := match listening (boot []) with Ret (_, m) => m | _ => boot [] end.
Lemma calm_steps i : w_clock calm (S i) ≤ w_clock calm i + 10000.
Proof. cbn. lia. Qed.
Lemma short_first_packet_aborts_witness : (process_packet (w_clock calm) (w_memory calm) (w_send calm) (w_local calm) 3 (Header (addr false) (addr true) 0 0 0) [FLAG_FIRST];; msp_processing (w_clock calm) (w_send calm) (w_local calm) (w_handler calm)) listening_state = Aborted.
Proof.
  assert (∃ a s, root listening_state = Some a ∧ m_socks listening_state !! a = Some s ∧ s_next s = None ∧ mdp_sock s = 3 ∧ has MSP_STATE_LISTENING (s_state s) = true ∧ listens s (Header (addr false) (addr true) 0 0 0) = true) as (a & s & Hr & Hs & Hn & H1 & H2 & H3).
  { exists start_address. destruct (m_socks listening_state !! start_address) as [s|] eqn:Es; [|vm_compute in Es; discriminate Es]. exists s. vm_compute in Es. injection Es as <-. split_and!; reflexivity. }
  apply (short_first_packet_aborts calm id 3 (Header (addr false) (addr true) 0 0 0) ltac:(done) [a] FLAG_FIRST [] listening_state).
  - cbn. rewrite Hr. split; [done|]. exists s. done.
  - apply NoDup_singleton.
  - intros b sb ->%list_elem_of_singleton Hsb _. rewrite Hs in Hsb. injection Hsb as <-. by left.
  - exists a, s. split; [by apply list_elem_of_singleton|]. done.
  - reflexivity.
  - reflexivity.
  - cbn. lia.
  - exact calm_steps.
Defined.

(** The daemon's socket fails. *)
Definition broken : world (list Z) := World _ (w_clock calm) (w_memory calm) (λ _, Failed) true read_all.
(** When a datagram cannot be sent, [msp_close_all] frees the socket while it is
    being processed, and [msp_processing] goes on with the freed socket. *)
Theorem failed_send_use_after_free : (setup (λ _, broken) addr (λ _, 3) false ≫= λ h,
    msp_send (w_clock broken) (w_memory broken) h [1; 2; 3];;
    msp_processing (w_clock broken) (w_send broken) (w_local broken) (w_handler broken)) (boot []) = Undef.
Proof. vm_compute. reflexivity. Qed.

(** The allocation of the payload fails. *)
Definition tight : world (list Z) := World _ (w_clock calm) (λ i, bool_decide (i ≠ 5%nat)) (w_send calm) true read_all.
(** When there is no memory for the payload of a packet, [msp_send] fails, but the
    window still has the packet that was freed, which [msp_processing] then reads. *)
Theorem failed_payload_left_linked :
  (∃ m, (setup (λ _, tight) addr (λ _, 3) false ≫= λ h, msp_send (w_clock tight) (w_memory tight) h [1; 2; 3]) (boot []) = Ret (-1, m)) ∧
  (setup (λ _, tight) addr (λ _, 3) false ≫= λ h, msp_send (w_clock tight) (w_memory tight) h [1; 2; 3];;
     msp_processing (w_clock tight) (w_send tight) (w_local tight) (w_handler tight)) (boot []) = Undef.
Proof. split; [eexists|]; vm_compute; reflexivity. Qed.

End MspDemo.
