(* ===== verification/FdQueueClient.v ===== *)
(** * A client of the scheduler

    A component that owns an entry of the scheduler stops it, sets its request and
    starts it again. The invariant of the scheduler and what other components asked
    for stay as they are. *)

From S2P Require Import Prelude Prog FdQueue FdQueueSpec FdQueueRefine FdQueuePoll FdQueueProps OverlayQueue OverlayQueueTimer.
Import Prog FdQueue FdQueueSpec FdQueueRefine FdQueuePoll FdQueueProps OverlayQueueTimer.

Module FdQueueClient.

(** ** What an operation on one entry leaves of the others *)

Definition request (e : sched_ent) := (function e, poll e, run_after e, _scheduled e, alarm e, deadline e).
Definition others (a : nat) (q q' : queue) : Prop := ∀ b, b ≠ a → request <$> ents q' !! b = request <$> ents q !! b.
Lemma others_refl a q : others a q q.
Proof. done. Qed.
Lemma others_trans a q1 q2 q3 : others a q1 q2 → others a q2 q3 → others a q1 q3.
Proof. intros H1 H2 b Hb. by rewrite H2, H1. Qed.
Lemma upd_own q a f q' : upd q a f = Ret q' → others a q q'.
Proof. unfold upd. destruct (ents q !! a) as [e|]; [|done]. intros [= <-] b Hb. cbn. by rewrite lookup_insert_ne. Qed.
Lemma upd_links a q c f q' : (∀ e, request (f e) = request e) → upd q c f = Ret q' → others a q q'.
Proof.
  intros Hf. unfold upd. destruct (ents q !! c) as [e|] eqn:E; [|done]. intros [= <-] b Hb. cbn. destruct (decide (c = b)) as [<-|]; [|by rewrite lookup_insert_ne]. rewrite lookup_insert_eq, E. cbn. by rewrite Hf.
Qed.
Lemma write_others a q l v q' : write_loc q l v = Ret q' → others a q q'.
Proof. destruct l as [[]|]; cbn; [by intros [= <-]|by intros [= <-]|]. by apply upd_links. Qed.

Ltac follow a := repeat match goal with
  | H : (_ ≫= _) = Ret _ |- _ => let x := fresh "x" in let E := fresh "E" in apply bind_ret_inv in H as (x & E & H)
  | H : upd _ a _ = Ret _ |- _ => apply upd_own in H
  | H : upd _ _ _ = Ret _ |- _ => apply (upd_links a) in H; [|done]
  | H : write_loc _ _ _ = Ret _ |- _ => apply (write_others a) in H
  | H : Ret (if ?c then _ else _) = Ret _ |- _ => destruct c
  | H : Ret _ = Ret _ |- _ => injection H as <-
  | H : match ?o with Some _ => _ | None => _ end = Ret _ |- _ => destruct o
  | H : (if ?c then _ else _) = Ret _ |- _ => destruct c; try discriminate H
  | H : (let '(_, _) := ?x in _) = Ret _ |- _ => destruct x
  end; try (repeat (eapply others_trans; [eassumption|]); done).

Lemma remove_run_others fuel q a l q' : remove_run_loop fuel q a l = Ret q' → others a q q'.
Proof. revert l. induction fuel as [|fuel IH]; intros l H; [done|]. cbn [remove_run_loop] in H. follow a. by apply IH in H. Qed.
Lemma insert_run_others r key q a q' : insert_run r key q a = Ret q' → others a q q'.
Proof. unfold insert_run. intros H. follow a. Qed.
Lemma insert_wake_others q a q' : insert_wake_list q a = Ret q' → others a q q'.
Proof. unfold insert_wake_list. intros H. follow a. Qed.
Lemma remove_wake_others q a q' : remove_wake_list q a = Ret q' → others a q q'.
Proof. unfold remove_wake_list. intros H. follow a. Qed.
Lemma unschedule_others q a q' : unschedule q a = Ret q' → others a q q'.
Proof.
  unfold unschedule. intros H. follow a. apply remove_run_others in E0. apply remove_run_others in E1. apply remove_wake_others in E2. repeat (eapply others_trans; [eassumption|]). done.
Qed.
Lemma schedule_others q a q' : schedule q a = Ret q' → others a q q'.
Proof. unfold schedule. intros H. follow a. apply insert_wake_others in E1. apply insert_run_others in E2. repeat (eapply others_trans; [eassumption|]). done. Qed.
Lemma watch_others q a r q' : watch q a = Ret (r, q') → others a q q'.
Proof.
  unfold watch. intros (e & _ & H)%bind_ret_inv. case_bool_decide; [|done]. destruct (negb _); [|done]. apply bind_ret_inv in H as ([|] & _ & H).
  - unfold put_fd in H. case_if; [|done]. by injection H as _ <-.
  - destruct (_ <=? _); [by injection H as _ <-|]. apply bind_ret_inv in H as (q1 & H1 & H). cbv zeta in H. apply bind_ret_inv in H as (q2 & H2%upd_own & H). apply bind_ret_inv in H as (q3 & H3 & [= _ <-]).
    unfold put_callback in H1. case_if; [|done]. injection H1 as <-. unfold put_fd in H3. case_if; [|done]. by injection H3 as <-.
Qed.

(** ** The entry *)

(** The entry at [i] can be started, with what it asks for, and reading is waited for. *)
Record ready (i : nat) (q : queue) (e : sched_ent) : Prop := {
  rd_entry : ents q !! i = Some e;
  rd_function : is_Some (function e);
  rd_events : Z.testbit (events (poll e)) 0 = true;
  rd_after : _scheduled e = false → run_after e = TIME_MS_NEVER_WILL ∨ run_after e = 0;
}.

Lemma ready_others a i q q' e : others a q q' → a ≠ i → ready i q e → ∃ e', ready i q' e' ∧ request e' = request e.
Proof.
  intros Ho Hne [H1 H2 H3 H4]. specialize (Ho i ltac:(done)). rewrite H1 in Ho. apply fmap_Some in Ho as (e' & He' & E). exists e'. split; [|done]. unfold request in E. injection E as E1 E2 E3 E4 E5 E6. split; [done|by rewrite <- E1|by rewrite <- E2|by rewrite <- E3, <- E4].
Qed.
Lemma timer_others np a q q' : others a q q' → a ≠ np → (∃ ns ss ws, rep q' ns ss ws) → timer_ok np q → timer_ok np q'.
Proof.
  intros Ho Hne Hr [_ (e & He & H1 & H2 & H3)]. specialize (Ho np ltac:(done)). rewrite He in Ho. apply fmap_Some in Ho as (e' & He' & E). unfold request in E. injection E as E1 E2 E3 E4 E5 E6. split; [done|]. exists e'. rewrite <- E1, <- E3, <- E4, <- E5. by split_and!.
Qed.

(** Changing a request, while it is not in the lists. *)
Lemma upd_inv q a e g : sched_inv q → ents q !! a = Some e → _scheduled e = false → _scheduled (g e) = false →
  _next_run (g e) = _next_run e → _next_wake (g e) = _next_wake e → _prev_wake (g e) = _prev_wake e →
  (function (g e) = function e ∨ is_Some (function (g e))) → _poll_index (g e) = _poll_index e → fd (poll (g e)) = fd (poll e) →
  ∃ q', upd q a g = Ret q' ∧ sched_inv q' ∧ ents q' !! a = Some (g e) ∧ others a q q'.
Proof.
  intros [(ns & ss & ws & Hr) (l & Hw) Hc] He Hs Hs' H1 H2 H3 H4 H5 H6. pose proof (upd_spec q a e g He) as Hu. eexists. split; [exact Hu|]. split_and!; [|apply lookup_insert_eq|by eapply upd_own]. split.
  - exists ns, ss, ws. by apply (rep_upd q ns ss ws a e g).
  - exists l. apply (watched_ext q); try done. intros b. apply (upd_field (λ e, (_poll_index e, fd (poll e))) q a e g); [done|congruence].
  - intros b eb. simpl. destruct (decide (a = b)) as [<-|]; [|rewrite lookup_insert_ne by done; apply Hc]. rewrite lookup_insert_eq. intros [= <-]. pose proof (Hc a e He) as Hca. unfold callable, polled in *. rewrite Hs', H5. change (fd_callbacks (set_ents q _)) with (fd_callbacks q). destruct H4 as [H4|H4]; [|done]. rewrite H4. intros [?|?]; [done|]. apply Hca. by right.
Qed.

Section Client.
Variable i : nat.

Lemma stop_client q e : sched_inv q → ready i q e →
  ∃ q' e', unschedule q i = Ret q' ∧ sched_inv q' ∧ ready i q' e' ∧ _scheduled e' = false ∧ others i q q'.
Proof.
  intros Hi [H1 H2 H3 H4]. destruct (unschedule_inv q i e Hi H1) as (q' & Hu & Hi' & Hf & Hs). apply fmap_Some in Hs as (e' & He' & Hs'). rewrite He' in Hf. unfold watch_field in Hf. cbn in Hf. injection Hf as F1 F2 F3.
  exists q', e'. split_and!; [done|done| |done|by eapply unschedule_others]. split; [done|by rewrite F1|by rewrite F3|]. intros _.
  pose proof (unschedule_after q i e q' Hu H1) as Ha. destruct (_scheduled e).
  - destruct Ha as (e'' & He'' & Hra). rewrite He' in He''. injection He'' as <-. by left.
  - subst q'. rewrite H1 in He'. injection He' as <-. by apply H4.
Qed.

Lemma request_client q e t d : sched_inv q → ready i q e → _scheduled e = false →
  ∃ q', upd q i (λ e, set_request (run_after e) (t e) (d e) e) = Ret q' ∧ sched_inv q' ∧ ready i q' (set_request (run_after e) (t e) (d e) e) ∧ others i q q'.
Proof.
  intros Hi [H1 H2 H3 H4] Hs. destruct (upd_inv q i e (λ e, set_request (run_after e) (t e) (d e) e) Hi H1) as (q' & Hu & Hi' & He' & Ho); try done; [by left|]. exists q'. by split_and!.
Qed.

Lemma events_client q e g : sched_inv q → ready i q e → _scheduled e = false → Z.testbit (g (events (poll e))) 0 = true →
  ∃ q', upd q i (λ e, set_poll (Pollfd (fd (poll e)) (g (events (poll e))) (revents (poll e))) (_poll_index e) e) = Ret q' ∧ sched_inv q' ∧
    ready i q' (set_poll (Pollfd (fd (poll e)) (g (events (poll e))) (revents (poll e))) (_poll_index e) e) ∧ others i q q'.
Proof.
  intros Hi [H1 H2 H3 H4] Hs Hg. destruct (upd_inv q i e (λ e, set_poll (Pollfd (fd (poll e)) (g (events (poll e))) (revents (poll e))) (_poll_index e) e) Hi H1) as (q' & Hu & Hi' & He' & Ho); try done; [by left|]. exists q'. by split_and!.
Qed.

Lemma watch_client q e : sched_inv q → ready i q e →
  ∃ r q' e', watch q i = Ret (r, q') ∧ sched_inv q' ∧ ready i q' e' ∧ _scheduled e' = _scheduled e ∧ alarm e' = alarm e ∧ others i q q'.
Proof.
  intros Hi [H1 H2 H3 H4]. assert (events (poll e) ≠ 0) as Hev by (intros E; by rewrite E in H3). destruct (watch_inv q i e Hi H1 H2 Hev) as (r & q' & Hw & Hi'). exists r, q'.
  assert (∃ e', ents q' !! i = Some e' ∧ events (poll e') = events (poll e)) as (e' & He' & Eev).
  { clear Hi'. unfold watch in Hw. apply bind_ret_inv in Hw as (e0 & E0 & H). rewrite (ent_spec _ _ e) in E0 by done. injection E0 as <-. case_bool_decide; [|done]. destruct (negb _); [|done]. apply bind_ret_inv in H as ([|] & _ & H).
    - unfold put_fd in H. case_if; [|done]. injection H as _ <-. by exists e.
    - destruct (_ <=? _); [injection H as _ <-; by exists e|]. unfold put_callback in H. case_if; [|done]. rewrite bind_ret_l in H. cbv zeta in H. rewrite (upd_spec _ _ e), bind_ret_l in H by done. unfold put_fd in H. case_if; [|done].
      injection H as _ <-. eexists. split; [apply lookup_insert_eq|done]. }
  pose proof (sl_field _ _ (watch_lists q i r q' Hw) _ (λ e, (function e, run_after e, _scheduled e, alarm e)) i ltac:(done)) as Hf. rewrite He', H1 in Hf. cbn in Hf. injection Hf as F1 F2 F3 F4.
  exists e'. split_and!; [done|done| |done|done|by eapply watch_others]. split; [done|by rewrite F1|by rewrite Eev|by rewrite F2, F3].
Qed.

Lemma start_client q e : sched_inv q → ready i q e → _scheduled e = false → alarm e ≤ deadline e →
  ∃ q' e', schedule q i = Ret q' ∧ sched_inv q' ∧ ready i q' e' ∧ others i q q'.
Proof.
  intros Hi [H1 H2 H3 H4] Hs Hd. assert (effective_after e = alarm e) as Hea. { unfold effective_after. destruct (H4 Hs) as [->| ->]; [by rewrite Z.eqb_refl|]. by rewrite Z.eqb_refl, orb_true_r. }
  destruct (schedule_inv q i e Hi H1) as (q' & Hq & Hi'); [split_and!; [done|done|lia|lia]|]. pose proof (schedule_same _ _ _ Hq i) as Hsame. rewrite H1 in Hsame. apply fmap_Some in Hsame as (e' & He' & Hsame). unfold strip in Hsame. injection Hsame as S1 S2 S3 S4 S5.
  exists q', e'. split_and!; [done|done| |by eapply schedule_others]. split; [done|by rewrite <- S1|by rewrite <- S2|]. intros Hs'. destruct (decide (alarm e = TIME_MS_NEVER_WILL)) as [E|E].
  - left. destruct (inv_lists _ Hi) as (ns & ss & ws & Hr). destruct (schedule_spec q i e ns ss ws Hr H1) as (q2 & Hq2 & _ & Hk & _); [split_and!; [done|done|lia|lia]|]. rewrite Hq in Hq2. injection Hq2 as <-. unfold key_of in Hk. rewrite He' in Hk. cbn in Hk. congruence.
  - exfalso. destruct (inv_lists _ Hi) as (ns & ss & ws & Hr). destruct (schedule_spec q i e ns ss ws Hr H1) as (q2 & Hq2 & Hr2 & _); [split_and!; [done|done|lia|lia]|]. rewrite Hq in Hq2. injection Hq2 as <-.
    assert (_scheduled <$> ents q' !! i = Some true) as H'. { apply (rep_sched _ _ _ _ Hr2). apply elem_of_app. right. unfold soon_after. rewrite Hea, (proj2 (Z.eqb_neq _ _)) by done. apply elem_of_place. by left. }
    rewrite He' in H'. cbn in H'. congruence.
Qed.

End Client.

(** ** The timer of the queues beside it *)

Lemma next_packet_others np send_alarm t q q' : OverlayQueue.schedule_next_packet np send_alarm t q = Ret q' → others np q q'.
Proof.
  unfold OverlayQueue.schedule_next_packet. intros H. follow np; apply unschedule_others in E1; apply schedule_others in H; repeat (eapply others_trans; [eassumption|]); done.
Qed.

Lemma next_packet_inv np send_alarm t q : sched_inv q → timer_ok np q → 0 ≤ t → t + 15 ≤ TIME_MS_NEVER_WILL →
  ∃ q', OverlayQueue.schedule_next_packet np send_alarm t q = Ret q' ∧ sched_inv q' ∧ timer_ok np q' ∧ others np q q'.
Proof.
  intros Hi Hok Ht1 Ht2. destruct (schedule_next_ret np send_alarm t q Hok Ht1 Ht2) as (q' & Hq & Hok' & _). exists q'. split_and!; [done| |done|by eapply next_packet_others].
  destruct Hok as [_ (e & He & Hra & Hfn & _)]. unfold OverlayQueue.schedule_next_packet in Hq. rewrite (ent_spec _ _ e), bind_ret_l in Hq by done. destruct (_ || _); [|by injection Hq as <-]. apply bind_ret_inv in Hq as (q1 & E1 & Hq).
  assert (sched_inv q1 ∧ ∃ e1, ents q1 !! np = Some e1) as [Hi1 [e1 He1]].
  { destruct (bool_decide_reflect (function e = None)) as [Hn|Hn]; [|injection E1 as <-; split; [done|by exists e]]. assert (_scheduled e = false) as Hs. { destruct (_scheduled e) eqn:Es; [|done]. destruct (Hfn eq_refl). congruence. }
    destruct (upd_inv q np e (OverlayQueue.set_function send_alarm) Hi He Hs Hs) as (q1' & Hu & Hi1 & He1 & _); try done; [right; by eexists|]. rewrite E1 in Hu. injection Hu as ->. split; [done|by eexists]. }
  destruct (unschedule_inv q1 np e1 Hi1 He1) as (q2 & Hu2 & Hi2 & _ & Hs2). apply fmap_Some in Hs2 as (e2 & He2 & Hs2). rewrite Hu2, bind_ret_l in Hq.
  destruct (upd_inv q2 np e2 (λ e, set_request (run_after e) t (t + 15) e) Hi2 He2) as (q3 & Hu3 & Hi3 & He3 & _); try done; [by left|]. rewrite Hu3, bind_ret_l in Hq.
  destruct (decide (schedulable (set_request (run_after e2) t (t + 15) e2))) as [Hsch|Hno]; [destruct (schedule_inv q3 np _ Hi3 He3 Hsch) as (q4 & Hq4 & Hi4); rewrite Hq in Hq4; by injection Hq4 as <-|].
  exfalso. apply Hno. clear Hno Hok'. set (e3 := set_request _ _ _ e2) in *. unfold schedule in Hq. rewrite (ent_spec _ _ _ He3), bind_ret_l in Hq. fold (effective_after e3) in Hq. apply bind_ret_inv in Hq as (q4 & _ & Hq).
  destruct (Z.leb_spec (effective_after e3) (alarm e3)); [|done]. destruct (Z.leb_spec (effective_after e3) (deadline e3)); [|done]. destruct (negb (is_scheduled e3)) eqn:En; [|done]. case_bool_decide; [|done].
  by split_and!.
Qed.

End FdQueueClient.
