(* ===== verification/RadioLink.v ===== *)
(** * Packet radio (radio_link.c)

    Packets are cut into frames of at most 255 bytes for the serial line of a radio.
    A frame has its length in a Golay code word and its contents in a Reed-Solomon
    block. The receiver looks for frames in the bytes that arrive, one at a time. The
    Reed-Solomon codec (fec-3.0.1), the clock and the system call that writes are
    parameters. *)

From S2P Require Import Prelude Mem Prog Golay OverlayBuffer FdQueue OverlayQueue.
Import Prog.

Module RadioLink.

Definition MAVLINK_MSG_ID_RADIO : Z := 166.
Definition MAVLINK_MSG_ID_DATASTREAM : Z := 67.
Definition RADIO_SOURCE_SYSTEM : Z := 51.
Definition RADIO_SOURCE_COMPONENT : Z := 68.
Definition FEC_LENGTH : Z := 32.
Definition FEC_MAX_BYTES : Z := 223.
Definition RADIO_HEADER_LENGTH : Z := 6.
Definition RADIO_USED_HEADER_LENGTH : Z := 4.
Definition RADIO_CRC_LENGTH : Z := 2.
Definition HEARTBEAT_SIZE : Z := 8 + 9.
Definition LINK_MTU : Z := 255.
Definition LINK_PAYLOAD_MTU : Z := LINK_MTU - FEC_LENGTH - RADIO_HEADER_LENGTH - RADIO_CRC_LENGTH.
Definition MDP_MTU : Z := 1200.
Definition POLLOUT : Z := 4.

(** The buffers are arrays of fixed size. *)
Record radio_link_state := Link {
  tx_seq : Z;
  payload : list Z;
  payload_length : Z;
  seq : Z;
  payload_start : Z;
  payload_offset : Z;
  dst : list Z;
  packet_length : Z;
  next_heartbeat : Z;
  last_packet : Z;
  radio_rssi : Z;
  remote_rssi : Z;
  remaining_space : Z;
  next_tx_allowed : Z;
  tx_packet : option OB.overlay_buffer;
  txbuffer : list Z;
  tx_bytes : Z;
  tx_pos : Z;
}.

Definition set_tx_seq (v : Z) (l : radio_link_state) : radio_link_state :=
  Link v (payload l) (payload_length l) (seq l) (payload_start l) (payload_offset l) (dst l) (packet_length l) (next_heartbeat l) (last_packet l) (radio_rssi l) (remote_rssi l) (remaining_space l) (next_tx_allowed l) (tx_packet l) (txbuffer l) (tx_bytes l) (tx_pos l).
Definition set_payload (v : list Z) (l : radio_link_state) : radio_link_state :=
  Link (tx_seq l) v (payload_length l) (seq l) (payload_start l) (payload_offset l) (dst l) (packet_length l) (next_heartbeat l) (last_packet l) (radio_rssi l) (remote_rssi l) (remaining_space l) (next_tx_allowed l) (tx_packet l) (txbuffer l) (tx_bytes l) (tx_pos l).
Definition set_payload_length (v : Z) (l : radio_link_state) : radio_link_state :=
  Link (tx_seq l) (payload l) v (seq l) (payload_start l) (payload_offset l) (dst l) (packet_length l) (next_heartbeat l) (last_packet l) (radio_rssi l) (remote_rssi l) (remaining_space l) (next_tx_allowed l) (tx_packet l) (txbuffer l) (tx_bytes l) (tx_pos l).
Definition set_seq (v : Z) (l : radio_link_state) : radio_link_state :=
  Link (tx_seq l) (payload l) (payload_length l) v (payload_start l) (payload_offset l) (dst l) (packet_length l) (next_heartbeat l) (last_packet l) (radio_rssi l) (remote_rssi l) (remaining_space l) (next_tx_allowed l) (tx_packet l) (txbuffer l) (tx_bytes l) (tx_pos l).
(** [payload_start] and [payload_offset], unsigned. *)
Definition set_range (start offset : Z) (l : radio_link_state) : radio_link_state :=
  Link (tx_seq l) (payload l) (payload_length l) (seq l) (u32 start) (u32 offset) (dst l) (packet_length l) (next_heartbeat l) (last_packet l) (radio_rssi l) (remote_rssi l) (remaining_space l) (next_tx_allowed l) (tx_packet l) (txbuffer l) (tx_bytes l) (tx_pos l).
Definition set_dst (v : list Z) (l : radio_link_state) : radio_link_state :=
  Link (tx_seq l) (payload l) (payload_length l) (seq l) (payload_start l) (payload_offset l) v (packet_length l) (next_heartbeat l) (last_packet l) (radio_rssi l) (remote_rssi l) (remaining_space l) (next_tx_allowed l) (tx_packet l) (txbuffer l) (tx_bytes l) (tx_pos l).
Definition set_packet_length (v : Z) (l : radio_link_state) : radio_link_state :=
  Link (tx_seq l) (payload l) (payload_length l) (seq l) (payload_start l) (payload_offset l) (dst l) v (next_heartbeat l) (last_packet l) (radio_rssi l) (remote_rssi l) (remaining_space l) (next_tx_allowed l) (tx_packet l) (txbuffer l) (tx_bytes l) (tx_pos l).
Definition set_next_heartbeat (v : Z) (l : radio_link_state) : radio_link_state :=
  Link (tx_seq l) (payload l) (payload_length l) (seq l) (payload_start l) (payload_offset l) (dst l) (packet_length l) v (last_packet l) (radio_rssi l) (remote_rssi l) (remaining_space l) (next_tx_allowed l) (tx_packet l) (txbuffer l) (tx_bytes l) (tx_pos l).
Definition set_last_packet (v : Z) (l : radio_link_state) : radio_link_state :=
  Link (tx_seq l) (payload l) (payload_length l) (seq l) (payload_start l) (payload_offset l) (dst l) (packet_length l) (next_heartbeat l) v (radio_rssi l) (remote_rssi l) (remaining_space l) (next_tx_allowed l) (tx_packet l) (txbuffer l) (tx_bytes l) (tx_pos l).
Definition set_rssi (local remote : Z) (l : radio_link_state) : radio_link_state :=
  Link (tx_seq l) (payload l) (payload_length l) (seq l) (payload_start l) (payload_offset l) (dst l) (packet_length l) (next_heartbeat l) (last_packet l) local remote (remaining_space l) (next_tx_allowed l) (tx_packet l) (txbuffer l) (tx_bytes l) (tx_pos l).
Definition set_remaining_space (v : Z) (l : radio_link_state) : radio_link_state :=
  Link (tx_seq l) (payload l) (payload_length l) (seq l) (payload_start l) (payload_offset l) (dst l) (packet_length l) (next_heartbeat l) (last_packet l) (radio_rssi l) (remote_rssi l) v (next_tx_allowed l) (tx_packet l) (txbuffer l) (tx_bytes l) (tx_pos l).
Definition set_next_tx_allowed (v : Z) (l : radio_link_state) : radio_link_state :=
  Link (tx_seq l) (payload l) (payload_length l) (seq l) (payload_start l) (payload_offset l) (dst l) (packet_length l) (next_heartbeat l) (last_packet l) (radio_rssi l) (remote_rssi l) (remaining_space l) v (tx_packet l) (txbuffer l) (tx_bytes l) (tx_pos l).
Definition set_tx_packet (v : option OB.overlay_buffer) (l : radio_link_state) : radio_link_state :=
  Link (tx_seq l) (payload l) (payload_length l) (seq l) (payload_start l) (payload_offset l) (dst l) (packet_length l) (next_heartbeat l) (last_packet l) (radio_rssi l) (remote_rssi l) (remaining_space l) (next_tx_allowed l) v (txbuffer l) (tx_bytes l) (tx_pos l).
Definition set_txbuffer (v : list Z) (l : radio_link_state) : radio_link_state :=
  Link (tx_seq l) (payload l) (payload_length l) (seq l) (payload_start l) (payload_offset l) (dst l) (packet_length l) (next_heartbeat l) (last_packet l) (radio_rssi l) (remote_rssi l) (remaining_space l) (next_tx_allowed l) (tx_packet l) v (tx_bytes l) (tx_pos l).
Definition set_tx_range (pos bytes : Z) (l : radio_link_state) : radio_link_state :=
  Link (tx_seq l) (payload l) (payload_length l) (seq l) (payload_start l) (payload_offset l) (dst l) (packet_length l) (next_heartbeat l) (last_packet l) (radio_rssi l) (remote_rssi l) (remaining_space l) (next_tx_allowed l) (tx_packet l) (txbuffer l) bytes pos.

(** The state of the link, the memory with the packets to send, the scheduler, the times
    of the interface, the bytes written to the line, the packets that were received and
    the calls to the clock and the line so far. *)
Record radio := Radio {
  link : radio_link_state;
  r_mem : mem;
  r_sched : FdQueue.queue;
  last_tx : Z;
  tick_ms : Z;
  wire : list Z;
  received : list (list Z);
  r_ticks : nat;
}.
Definition set_link (v : radio_link_state) (r : radio) : radio := Radio v (r_mem r) (r_sched r) (last_tx r) (tick_ms r) (wire r) (received r) (r_ticks r).
Definition set_mem (v : mem) (r : radio) : radio := Radio (link r) v (r_sched r) (last_tx r) (tick_ms r) (wire r) (received r) (r_ticks r).
Definition set_sched (v : FdQueue.queue) (r : radio) : radio := Radio (link r) (r_mem r) v (last_tx r) (tick_ms r) (wire r) (received r) (r_ticks r).
Definition put_wire (v : list Z) (r : radio) : radio := Radio (link r) (r_mem r) (r_sched r) (last_tx r) (tick_ms r) (wire r ++ v) (received r) (r_ticks r).
Definition put_received (v : list Z) (r : radio) : radio := Radio (link r) (r_mem r) (r_sched r) (last_tx r) (tick_ms r) (wire r) (received r ++ [v]) (r_ticks r).
Definition r_tick (r : radio) : radio := Radio (link r) (r_mem r) (r_sched r) (last_tx r) (tick_ms r) (wire r) (received r) (S (r_ticks r)).

(** ** Arrays *)

Definition slice (l : list Z) (i n : Z) : outcome (list Z) :=
  if (0 <=? i) && (0 <=? n) && (i + n <=? Z.of_nat (length l)) then Ret (take (Z.to_nat n) (drop (Z.to_nat i) l)) else Undef.
Definition write_at (l : list Z) (i : Z) (bs : list Z) : outcome (list Z) :=
  if (0 <=? i) && (i + Z.of_nat (length bs) <=? Z.of_nat (length l))
  then Ret (take (Z.to_nat i) l ++ bs ++ drop (Z.to_nat i + length bs) l) else Undef.
Definition byte_of (l : list Z) (i : Z) : outcome Z := bs ← slice l i 1; Ret (nth 0 bs 0).
Definition three (bs : list Z) : Z * Z * Z := (nth 0 bs 0, nth 1 bs 0, nth 2 bs 0).
Definition bytes3 (d : Z * Z * Z) : list Z := [d.1.1; d.1.2; d.2].

(** encode_rs_8 and decode_rs_8: the parity of some data, and the number of errors that
    were corrected, or -1, with the block of data and parity that is left. The last
    argument is the number of bytes by which the block is shorter than 255. *)
Class Fec := {
  rs_parity : list Z → list Z;
  rs_decode : list Z → Z → Z * list Z;
}.

Section Radio.
Context {arch : Arch} {allocator : Allocator} {fec : Fec}.
Abbreviation code := (prog radio).
Definition on_link {A} (g : radio_link_state → A) : code A := ask (λ r, g (link r)).
Definition upd_link (g : radio_link_state → radio_link_state) : code unit := change (λ r, set_link (g (link r)) r).
Definition put_tx (i : Z) (bs : list Z) : code unit := l ← on_link txbuffer; l ← lift (write_at l i bs); upd_link (set_txbuffer l).
Definition golay_tx (i : Z) : code unit := l ← on_link txbuffer; bs ← lift (slice l i 3); put_tx i (bytes3 (Golay.golay_encode (three bs))).

(** ** The system *)

Variable gettime_ms : nat → Z.
(** How many of the bytes are written; zero or less when none can be. *)
Variable write : nat → list Z → Z.
(** The entries of the interface and of the timer of the queues in the scheduler, and the function of that timer. *)
Variables (interface next_packet send_alarm : nat).

Definition gettime : code Z := λ r, Ret (gettime_ms (r_ticks r), r_tick r).
Definition write_line (bs : list Z) : code Z := λ r,
  let n := write (r_ticks r) bs in Ret (n, put_wire (take (Z.to_nat n) bs) (r_tick r)).
(** A call of the scheduler that changes it. *)
Definition sched (g : FdQueue.queue → outcome FdQueue.queue) : code unit := λ r, q ← g (r_sched r); Ret (tt, set_sched q r).
Definition set_alarm (t : Z) : code unit :=
  sched (λ q, FdQueue.upd q interface (λ e, FdQueue.set_request (FdQueue.run_after e) t (FdQueue.deadline e) e)).
Definition set_events (g : Z → Z) : code unit :=
  sched (λ q, FdQueue.upd q interface (λ e, FdQueue.set_poll (FdQueue.Pollfd (FdQueue.fd (FdQueue.poll e)) (g (FdQueue.events (FdQueue.poll e))) (FdQueue.revents (FdQueue.poll e))) (FdQueue._poll_index e) e)).
Definition get_alarm : code Z := q ← ask r_sched; e ← lift (FdQueue.ent q interface); mret (FdQueue.alarm e).
Definition set_deadline (t : Z) : code unit :=
  sched (λ q, FdQueue.upd q interface (λ e, FdQueue.set_request (FdQueue.run_after e) (FdQueue.alarm e) t e)).

(** ** Sending *)

Definition radio_link_init : radio_link_state :=
  Link 0 (replicate 765 0) 0 0 0 0 (replicate 1200 0) 0 0 0 0 0 0 0 None (replicate 255 0) 0 0.

(** The packet that is being sent is not freed. *)
Definition radio_link_free (st : option radio_link_state) : option radio_link_state := match st with Some _ => None | None => None end.

(** [tx_seq++] on an int. *)
Definition next_tx_seq : code Z :=
  n ← on_link tx_seq;
  if n =? 2 ^ 31 - 1 then undefined else upd_link (set_tx_seq (n + 1));; mret n.

(** The first six bytes of a frame. *)
Definition frame_header (count : Z) (startP endP : bool) : code unit :=
  put_tx 0 [0xfe];;
  let len := count + FEC_LENGTH - RADIO_CRC_LENGTH in
  put_tx 1 [u8 len; Z.land len 0xF; 0];;
  golay_tx 1;;
  n ← next_tx_seq;
  let b4 := Z.land n 0x3f in
  let b4 := if startP then Z.lor b4 0x40 else b4 in
  let b4 := if endP then Z.lor b4 0x80 else b4 in
  put_tx 4 [b4; MAVLINK_MSG_ID_DATASTREAM].

Definition radio_link_encode_packet : code unit :=
  p ← on_link tx_packet;
  match p with
  | None => mret tt
  | Some b =>
      count ← lift (OB.ob_remaining b);
      let count := i32 count in
      let startP := OB.ob_position b =? 0 in
      let endP := negb (LINK_PAYLOAD_MTU <? count) in
      let count := if endP then count else LINK_PAYLOAD_MTU in
      frame_header count startP endP;;
      m ← ask r_mem;
      r ← lift (OB.ob_get_bytes m b count);
      upd_link (set_tx_packet (Some r.1));;
      (match r.2 with Some bs => put_tx 6 bs | None => mret tt end);;
      l ← on_link txbuffer;
      data ← lift (slice l 4 (count + 2));
      put_tx (6 + count) (rs_parity data);;
      upd_link (λ s, set_tx_range (tx_pos s) (count + FEC_LENGTH - RADIO_CRC_LENGTH + RADIO_CRC_LENGTH + RADIO_HEADER_LENGTH) s);;
      if endP then
        m ← ask r_mem;
        m ← lift (OB.ob_free m r.1);
        change (set_mem m);;
        upd_link (set_tx_packet None);;
        t ← gettime;
        sched (OverlayQueue.schedule_next_packet next_packet send_alarm t)
      else mret tt
  end.

Definition build_heartbeat : code unit :=
  put_tx 0 (replicate 17 0);;
  put_tx 0 [0xfe; 9; Z.land 9 0xF; 0];;
  golay_tx 1;;
  put_tx 4 [0xf1; 0];;
  put_tx 14 [0x55; 0x05];;
  golay_tx 14;;
  upd_link (λ s, set_tx_range (tx_pos s) (9 + RADIO_CRC_LENGTH + RADIO_HEADER_LENGTH) s).

(** One round of the loop of [radio_link_tx]; [Some] is a break. *)
Definition tx_round (next_tick now : Z) : code (option unit) :=
  n ← on_link tx_bytes;
  if negb (n =? 0) then
    allowed ← on_link next_tx_allowed;
    if now <? allowed then set_alarm allowed;; mret (Some tt)
    else
      s ← on_link id;
      bs ← lift (slice (txbuffer s) (tx_pos s) n);
      written ← write_line bs;
      if written <=? 0 then set_events (λ e, Z.lor e POLLOUT);; mret (Some tt)
      else if remaining_space s - written <? - 2 ^ 31 then undefined
      else
        upd_link (set_remaining_space (remaining_space s - written));;
        upd_link (set_tx_range (if n - written =? 0 then 0 else tx_pos s + written) (n - written));;
        mret None
  else
    set_events (λ e, Z.land e (Z.lnot POLLOUT));;
    s ← on_link id;
    if next_heartbeat s <=? now then build_heartbeat;; upd_link (set_next_heartbeat (now + 1000));; mret None
    else if remaining_space s <? LINK_MTU + HEARTBEAT_SIZE then set_alarm (next_heartbeat s);; mret (Some tt)
    else if bool_decide (tx_packet s = None) then set_alarm next_tick;; mret (Some tt)
    else radio_link_encode_packet;; upd_link (set_last_packet now);; mret None.

Definition radio_link_tx : code unit :=
  sched (λ q, FdQueue.unschedule q interface);;
  set_alarm 0;;
  next_tick ← ask (λ r, last_tx r + tick_ms r);
  now ← gettime;
  forever 20 (tx_round next_tick now);;
  sched (λ q, r ← FdQueue.watch q interface; Ret r.2);;
  a ← get_alarm;
  (if a <? now then set_alarm now else mret tt);;
  a ← get_alarm;
  if negb (a =? 0) then set_deadline (a + 100);; sched (λ q, FdQueue.schedule q interface) else mret tt.

(** -1 when a packet is being sent. *)
Definition radio_link_queue_packet (b : OB.overlay_buffer) : code Z :=
  p ← on_link tx_packet;
  match p with
  | Some _ => m ← ask r_mem; m ← lift (OB.ob_free m b); change (set_mem m);; mret (-1)
  | None =>
      b ← lift (OB.ob_flip b);
      upd_link (set_tx_packet (Some b));;
      radio_link_tx;;
      mret 0
  end.

(** ** Receiving *)

(** [p] is the array from [payload_start]. *)
Definition peek (i : Z) : code Z := s ← on_link id; lift (byte_of (payload s) (payload_start s + i)).

(** The first bytes of the status the radio reports. *)
Definition status_header : code bool :=
  b0 ← peek 0;
  if negb (b0 =? 0xFE) then mret false
  else
    b1 ← peek 1;
    if negb (b1 =? 9) then mret false
    else
      b3 ← peek 3;
      if negb (b3 =? RADIO_SOURCE_SYSTEM) then mret false
      else
        b4 ← peek 4;
        if negb (b4 =? RADIO_SOURCE_COMPONENT) then mret false
        else b5 ← peek 5; mret (b5 =? MAVLINK_MSG_ID_RADIO).

(** The quotient by 1.9 of a small integer, without its fraction. *)
Definition rssi (x y : Z) : Z := Z.quot (10 * (x - y)) 19.

Definition parse_heartbeat : code bool :=
  h ← status_header;
  if negb (h : bool) then mret false
  else
    b10 ← peek 10;
    b13 ← peek 13;
    b11 ← peek 11;
    b14 ← peek 14;
    free_space ← peek 12;
    upd_link (set_rssi (rssi b10 b13) (rssi b11 b14));;
    let free_bytes := Z.quot (free_space * 1280) 100 - 30 in
    upd_link (set_remaining_space free_bytes);;
    (if 0 <? free_bytes then t ← gettime; upd_link (set_next_tx_allowed t) else mret tt);;
    (if 720 <? free_bytes then t ← gettime; upd_link (set_next_heartbeat (t + 1000)) else mret tt);;
    mret true.

(** The data of a block, with its flags, after what has been received of the packet. *)
Definition append_data (b4 data_bytes : Z) : code unit :=
  s ← on_link id;
  if MDP_MTU <? szadd (packet_length s) data_bytes then upd_link (set_packet_length (MDP_MTU + 1))
  else
    bs ← lift (slice (payload s) (payload_start s + RADIO_HEADER_LENGTH) data_bytes);
    d ← lift (write_at (dst s) (packet_length s) bs);
    upd_link (set_dst d);;
    upd_link (set_packet_length (szadd (packet_length s) data_bytes));;
    if negb (Z.land b4 0x80 =? 0) then
      s ← on_link id;
      bs ← lift (slice (dst s) 0 (packet_length s));
      change (put_received bs);;
      upd_link (set_packet_length (MDP_MTU + 1))
    else mret tt.

(** What a block that could be corrected says. *)
Definition accept_block (data_bytes : Z) : code unit :=
  let data_bytes := wrapu size_bits (data_bytes - 2) in
  b4 ← peek 4;
  let n := Z.land b4 0x3f in
  s ← on_link id;
  (if negb (n =? Z.land (seq s + 1) 0x3f) then upd_link (set_packet_length (MDP_MTU + 1)) else mret tt);;
  (if negb (Z.land b4 0x40 =? 0) then upd_link (set_packet_length 0) else mret tt);;
  upd_link (set_seq n);;
  append_data b4 data_bytes.

(** [Some] is the number of bytes to go back ([*backtrack]) when a frame was found. *)
Definition radio_link_parse (packet_length : Z) : code (option Z) :=
  if packet_length =? 17 then
    s ← on_link id;
    bs ← lift (slice (payload s) (payload_start s + 14) 3);
    mret (if (Golay.golay_decode (three bs)).1 =? 0x555 then Some 0 else None)
  else
    let data_bytes := wrapu size_bits (packet_length - (RADIO_USED_HEADER_LENGTH + FEC_LENGTH)) in
    let pad := i32 (wrapu size_bits (FEC_MAX_BYTES - data_bytes)) in
    s ← on_link id;
    if (pad <? 0) || (222 <? pad) then mret None
    else
      block ← lift (slice (payload s) (payload_start s + 4) (255 - pad));
      let r := rs_decode block pad in
      l ← lift (write_at (payload s) (payload_start s + 4) r.2);
      upd_link (set_payload l);;
      if r.1 =? -1 then mret None else accept_block data_bytes;; mret (Some r.1).

(** Whether the bytes at [p + 1] are a length. *)
Definition decode_length : code bool :=
  s ← on_link id;
  bs ← lift (slice (payload s) (payload_start s + 1) 3);
  let gd := (Golay.golay_decode (three bs)).1 in
  if (gd <? 0) || negb (Z.land (Z.shiftr gd 8) 0xF =? Z.land gd 0xF) then mret false
  else
    let length := Z.land gd 0xFF + (RADIO_HEADER_LENGTH + RADIO_CRC_LENGTH) in
    if negb (length =? 17) && ((length <=? FEC_LENGTH) || (LINK_MTU <? length)) then mret false
    else upd_link (set_payload_length length);; mret true.

Definition skip_byte : code unit := upd_link (λ s, set_range (payload_start s + 1) (payload_offset s - 1) s).

(** The search for a header, one byte after the other; [fuel] bounds the bytes. *)
Fixpoint find_header (fuel : nat) : code unit :=
  s ← on_link id;
  if negb ((payload_length s =? 0) && (6 <=? payload_offset s)) then mret tt
  else
    match fuel with
    | O => undefined
    | S fuel =>
        h ← status_header;
        if (h : bool) then upd_link (set_payload_length 17)
        else d ← decode_length; if (d : bool) then mret tt else skip_byte;; find_header fuel
    end.

(** [bcopy] of the bytes from [i] on to position [j], [payload_offset] of them. *)
Definition shuffle (i j : Z) : code unit :=
  s ← on_link id;
  if payload_offset s =? 0 then mret tt
  else bs ← lift (slice (payload s) i (payload_offset s)); l ← lift (write_at (payload s) j bs); upd_link (set_payload l).

(** A round of the loop of [radio_link_decode], after the search; [Some] is a return. *)
Definition decode_word : code (option unit) :=
  s ← on_link id;
  if (payload_length s =? 0) || (payload_offset s <? payload_length s) then mret (Some tt)
  else
    h ← parse_heartbeat;
    if (h : bool) then
      s ← on_link id;
      upd_link (set_range (payload_start s) (payload_offset s - payload_length s));;
      shuffle (payload_start s + payload_length s) (payload_start s);;
      upd_link (λ s, set_payload_length 0 (set_range 0 (payload_offset s + payload_start s) s));;
      mret None
    else
      r ← radio_link_parse (payload_length s);
      (match r with
       | Some backtrack =>
           s ← on_link id;
           upd_link (set_range (payload_start s) (payload_offset s - (payload_length s - backtrack)));;
           shuffle (payload_start s + payload_length s - backtrack) 0;;
           upd_link (λ s, set_range 0 (payload_offset s) s)
       | None => skip_byte
       end);;
      upd_link (set_payload_length 0);;
      mret None.
Definition decode_round : code (option unit) := find_header 766;; decode_word.

(** The byte goes after the others; when the array is full its first byte is dropped. *)
Definition store_byte (c : Z) : code unit :=
  s ← on_link id;
  (if 765 <=? u32 (payload_start s + payload_offset s) then
     rest ← lift (slice (payload s) 1 764);
     l ← lift (write_at (payload s) 0 rest);
     upd_link (λ s, set_range (payload_start s - 1) (payload_offset s) (set_payload l s))
   else mret tt);;
  s ← on_link id;
  l ← lift (write_at (payload s) (payload_start s + payload_offset s) [c]);
  upd_link (λ s, set_range (payload_start s) (payload_offset s + 1) (set_payload l s)).
Definition radio_link_decode (c : Z) : code unit := store_byte c;; forever 20 decode_round.

(** [interface_read_stream]: the bytes that were read, one after the other. *)
Fixpoint read_stream (bs : list Z) : code unit :=
  match bs with [] => mret tt | c :: bs => radio_link_decode c;; read_stream bs end.

End Radio.
End RadioLink.
