(* ===== verification/RadioLinkSafe.v ===== *)
(** * The receiver of the packet radio stays in its buffers

    For every sequence of bytes the search for frames ends, and all accesses are in
    the arrays until a block of one data byte is accepted that continues a packet. *)

From S2P Require Import Prelude Mem Prog Golay OverlayBuffer FdQueue RadioLink.
Import Prog RadioLink.

Module RadioLinkSafe.

(** ** Arrays *)

Lemma slice_ret l i n : 0 ≤ i → 0 ≤ n → i + n ≤ Z.of_nat (length l) → slice l i n = Ret (take (Z.to_nat n) (drop (Z.to_nat i) l)).
Proof. intros H1 H2 H3. unfold slice. by rewrite !(proj2 (Z.leb_le _ _)) by done. Qed.
Lemma slice_length l i n bs : slice l i n = Ret bs → Z.of_nat (length bs) = n.
Proof.
  unfold slice. destruct (Z.leb_spec 0 i), (Z.leb_spec 0 n), (Z.leb_spec (i + n) (Z.of_nat (length l))); cbn; try done. intros [= <-]. rewrite length_take, length_drop. lia.
Qed.
Lemma write_ret l i bs : 0 ≤ i → i + Z.of_nat (length bs) ≤ Z.of_nat (length l) → ∃ l', write_at l i bs = Ret l' ∧ length l' = length l.
Proof.
  intros H1 H2. unfold write_at. rewrite !(proj2 (Z.leb_le _ _)) by done. eexists. split; [reflexivity|]. rewrite !length_app, length_take, length_drop. lia.
Qed.
Lemma byte_ret l i : 0 ≤ i < Z.of_nat (length l) → ∃ x, byte_of l i = Ret x.
Proof. intros H. unfold byte_of. rewrite slice_ret by lia. by eexists. Qed.

Lemma written_byte l i bs l' : write_at l i bs = Ret l' → (0 < length bs)%nat → 0 ≤ i → byte_of l' i = Ret (nth 0 bs 0).
Proof.
  intros Hw Hl Hi. unfold write_at in Hw. destruct (Z.leb_spec 0 i), (Z.leb_spec (i + Z.of_nat (length bs)) (Z.of_nat (length l))); cbn [andb] in Hw; try done. injection Hw as <-.
  unfold byte_of. rewrite slice_ret by (rewrite ?length_app, ?length_take, ?length_drop; lia). rewrite bind_ret_l. f_equal. rewrite drop_app_length' by (rewrite length_take; lia). destruct bs; [cbn in Hl; lia|done].
Qed.

(** What the code relies on the Reed-Solomon codec for: the block keeps its size, and
    the number of bytes that were corrected is at most the number of parity bytes. *)
Class FecLaws (fec : Fec) : Prop := {
  rs_size block pad : length (rs_decode block pad).2 = length block;
  rs_count block pad : (rs_decode block pad).1 = -1 ∨ 0 ≤ (rs_decode block pad).1 ≤ 32;
}.

Section Safe.
Context {arch : Arch} {allocator : Allocator} {fec : Fec} `{!FecLaws fec}.
Variable gettime_ms : nat → Z.
Implicit Types r : radio.
Implicit Types s : radio_link_state.

Lemma runs_on {A} (g : radio_link_state → A) r (Q : A → radio → Prop) : Q (g (link r)) r → runs (on_link g) r Q.
Proof. intros. by apply runs_ask. Qed.
Lemma runs_link r (Q : radio_link_state → radio → Prop) : Q (link r) r → runs (on_link id) r Q.
Proof. intros. by apply runs_ask. Qed.
Lemma runs_upd_link g r (Q : unit → radio → Prop) : Q tt (set_link (g (link r)) r) → runs (upd_link g) r Q.
Proof. intros. by apply runs_change. Qed.
Lemma runs_time r (Q : Z → radio → Prop) : Q (gettime_ms (r_ticks r)) (r_tick r) → runs (gettime gettime_ms) r Q.
Proof. intros H. by eexists _, _. Qed.

(** The lengths of frames that are looked for. *)
Definition frame_length (n : Z) : Prop := n = 17 ∨ 32 < n ≤ 255.

(** While frames are looked for. *)
Record searching s : Prop := {
  se_payload : length (payload s) = 765%nat;
  se_dst : length (dst s) = 1200%nat;
  se_start : 0 ≤ payload_start s;
  se_offset : 0 ≤ payload_offset s;
  se_end : payload_start s + payload_offset s ≤ 765;
  se_length : payload_length s = 0 ∨ frame_length (payload_length s);
  se_packet : 0 ≤ packet_length s ≤ MDP_MTU + 1;
}.
(** Waiting for more bytes. *)
Definition waiting s : Prop := searching s ∧ (payload_length s = 0 ∧ payload_offset s < 6 ∨ payload_offset s < payload_length s).

(** The sending side of the state. *)
Definition tx_side s := (tx_seq s, tx_packet s, txbuffer s, tx_bytes s, tx_pos s).
Definition same_tx r r' : Prop := tx_side (link r') = tx_side (link r) ∧ wire r' = wire r ∧ r_mem r' = r_mem r ∧ (r_sched r', last_tx r', tick_ms r') = (r_sched r, last_tx r, tick_ms r).
Lemma same_tx_refl r : same_tx r r.
Proof. done. Qed.
Lemma same_tx_trans r1 r2 r3 : same_tx r1 r2 → same_tx r2 r3 → same_tx r1 r3.
Proof. intros (H1 & H2 & H3 & H4) (G1 & G2 & G3 & G4). split_and!; congruence. Qed.

Lemma runs_peek i r (Q : Z → radio → Prop) : searching (link r) → 0 ≤ i → payload_start (link r) + i < 765 → (∀ x, Q x r) → runs (peek i) r Q.
Proof.
  intros [] Hi Hlt HQ. unfold peek. apply runs_bind, runs_link. destruct (byte_ret (payload (link r)) (payload_start (link r) + i)) as [x Hx]; [rewrite se_payload0; lia|]. eapply runs_lift; [exact Hx|]. apply HQ.
Qed.

Lemma status_header_runs r : searching (link r) → payload_start (link r) + 5 < 765 → runs status_header r (λ _ r', r' = r).
Proof.
  intros Hs Hlt. unfold status_header. apply runs_bind, runs_peek; [done|lia|lia|]. intros b0. destruct (negb _); [by apply runs_ret|].
  apply runs_bind, runs_peek; [done|lia|lia|]. intros b1. destruct (negb _); [by apply runs_ret|]. apply runs_bind, runs_peek; [done|lia|lia|]. intros b3. destruct (negb _); [by apply runs_ret|].
  apply runs_bind, runs_peek; [done|lia|lia|]. intros b4. destruct (negb _); [by apply runs_ret|]. apply runs_bind, runs_peek; [done|lia|lia|]. intros b5. by apply runs_ret.
Qed.

Lemma golay_length x : 0 ≤ Z.land x 0xFF < 256.
Proof. change 0xFF with (Z.ones 8). rewrite Z.land_ones by lia. apply Z.mod_pos_bound. lia. Qed.

Lemma decode_length_runs r : searching (link r) → payload_start (link r) + 4 ≤ 765 → runs decode_length r (λ d r', if (d : bool) then ∃ n, frame_length n ∧ r' = set_link (set_payload_length n (link r)) r else r' = r).
Proof.
  intros Hs Hlt. unfold decode_length. apply runs_bind, runs_link. apply runs_bind. eapply runs_lift; [apply slice_ret; [destruct Hs; cbn; lia|lia|rewrite (se_payload _ Hs); cbn; lia]|]. cbv zeta.
  set (gd := (Golay.golay_decode _).1). destruct (_ || _); [by apply runs_ret|]. pose proof (golay_length gd) as Hg. unfold RADIO_HEADER_LENGTH, RADIO_CRC_LENGTH, FEC_LENGTH, LINK_MTU.
  destruct (Z.eqb_spec (Z.land gd 0xFF + (6 + 2)) 17) as [E|E]; cbn [negb andb].
  - apply runs_bind, runs_upd_link. apply runs_ret. eexists. split; [|reflexivity]. by left.
  - destruct (Z.leb_spec (Z.land gd 0xFF + (6 + 2)) 32), (Z.ltb_spec 255 (Z.land gd 0xFF + (6 + 2))); cbn [orb]; try (by apply runs_ret).
    apply runs_bind, runs_upd_link. apply runs_ret. eexists. split; [|reflexivity]. right. lia.
Qed.

Lemma range_small s a b : 0 ≤ a < 2 ^ 32 → 0 ≤ b < 2 ^ 32 → payload_start (set_range a b s) = a ∧ payload_offset (set_range a b s) = b.
Proof. intros Ha Hb. cbn. by rewrite !wrapu_small. Qed.

Lemma searching_range s a b : searching s → 0 ≤ a → 0 ≤ b → a + b ≤ 765 → searching (set_range a b s).
Proof. intros [] Ha Hb Hle. destruct (range_small s a b) as [E1 E2]; [lia|lia|]. split; rewrite ?E1, ?E2; done. Qed.

(** What the search for a header changes. *)
Definition searched s s' : Prop := payload_start s' + payload_offset s' = payload_start s + payload_offset s ∧ payload_offset s' ≤ payload_offset s.

(** What it does not change. *)
Definition aside s := (payload s, seq s, dst s, packet_length s, next_heartbeat s, next_tx_allowed s, remaining_space s).

Lemma find_header_runs fuel : ∀ r, searching (link r) → payload_offset (link r) ≤ Z.of_nat fuel →
  runs (find_header fuel) r (λ _ r', searching (link r') ∧ searched (link r) (link r') ∧ same_tx r r' ∧ (received r' = received r ∧ aside (link r') = aside (link r)) ∧ (payload_length (link r') = 0 → payload_offset (link r') < 6)).
Proof.
  induction fuel as [|fuel IH]; intros r Hs Hf; cbn [find_header]; apply runs_bind, runs_link.
  - destruct (Z.leb_spec 6 (payload_offset (link r))); [lia|]. rewrite andb_false_r. apply runs_ret. split_and!; try done.
  - destruct (Z.eqb_spec (payload_length (link r)) 0) as [E|E]; cbn [andb negb]; [|apply runs_ret; split_and!; try done].
    destruct (Z.leb_spec 6 (payload_offset (link r))) as [H6|H6]; cbn [negb]; [|apply runs_ret; split_and!; try done]. pose proof (se_end _ Hs) as Hend.
    apply runs_bind. eapply runs_mono; [apply status_header_runs; [done|lia]|]. cbn beta. intros h r' ->. destruct h.
    + apply runs_upd_link. split_and!; try done. destruct Hs. split; try done. right. by left.
    + apply runs_bind. eapply runs_mono; [apply decode_length_runs; [done|lia]|]. cbn beta. intros d r'. destruct d.
      * intros (n & Hn & ->). apply runs_ret. split_and!; try done; [destruct Hs; split; try done; by right|cbn; intros ->; by destruct Hn; lia].
      * intros ->. apply runs_bind, runs_upd_link. set (s1 := set_range _ _ _). pose proof (se_start _ Hs). destruct (range_small (link r) (payload_start (link r) + 1) (payload_offset (link r) - 1)) as [E1 E2]; [lia|lia|].
        eapply runs_mono; [apply IH; [apply searching_range; [done|lia..]|cbn [link set_link]; unfold s1; rewrite E2; lia]|]. cbn beta. intros _ r2 (H1 & [H2 H2'] & H3 & [H4 H4'] & H5). cbn [link set_link] in H2, H2'. fold s1 in E1, E2. rewrite E1, E2 in H2. rewrite E2 in H2'.
        split_and!; try done. split; lia.
Qed.

(** ** Frames *)

(** The receiving side: what the search and the reassembly use. *)
Definition rx_side s := (payload s, payload_length s, seq s, payload_start s, payload_offset s, dst s, packet_length s).
Lemma searching_rx s s' : rx_side s' = rx_side s → searching s → searching s'.
Proof. intros E []. injection E as E1 E2 E3 E4 E5 E6 E7. split; congruence. Qed.

(** The radio's report: the space it has, at most 3234 bytes. *)
Lemma parse_heartbeat_runs r : searching (link r) → payload_start (link r) + 14 < 765 →
  runs (parse_heartbeat gettime_ms) r (λ h r', rx_side (link r') = rx_side (link r) ∧ same_tx r r' ∧ received r' = received r).
Proof.
  intros Hs Hlt. unfold parse_heartbeat. apply runs_bind. eapply runs_mono; [apply status_header_runs; [done|lia]|]. cbn beta. intros h r' ->. destruct h; cbn [negb]; [|by apply runs_ret].
  apply runs_bind, runs_peek; [done|lia|lia|]. intros b10. apply runs_bind, runs_peek; [done|lia|lia|]. intros b13. apply runs_bind, runs_peek; [done|lia|lia|]. intros b11.
  apply runs_bind, runs_peek; [done|lia|lia|]. intros b14. apply runs_bind, runs_peek; [done|lia|lia|]. intros b12. apply runs_bind, runs_upd_link. cbv zeta. apply runs_bind, runs_upd_link.
  apply runs_bind. eapply (runs_mono _ _ (λ _ r', rx_side (link r') = rx_side (link r) ∧ same_tx r r' ∧ received r' = received r)).
  { destruct (0 <? _); [|by apply runs_ret]. apply runs_bind, runs_time. by apply runs_upd_link. }
  cbn beta. intros _ r1 (H1 & H2 & H3). apply runs_bind. eapply (runs_mono _ _ (λ _ r', rx_side (link r') = rx_side (link r) ∧ same_tx r r' ∧ received r' = received r)).
  { destruct (720 <? _); [|by apply runs_ret]. apply runs_bind, runs_time. apply runs_upd_link. split_and!; [exact H1|eapply same_tx_trans; [exact H2|done]|exact H3]. }
  cbn beta. intros _ r2 H. by apply runs_ret.
Qed.

(** Where the search is. *)
Definition place_of s := (payload_length s, payload_start s, payload_offset s).

Lemma accept_runs r n : searching (link r) → frame_length n → 37 < n → payload_start (link r) + n ≤ 765 →
  runs (accept_block (n - 36)) r (λ _ r', searching (link r') ∧ place_of (link r') = place_of (link r) ∧ same_tx r r').
Proof.
  intros Hs Hn H37 Hend. assert (n ≤ 255) as Hmax by (destruct Hn; lia). pose proof SIZE_MAX_pos as Hsz. unfold accept_block. cbv zeta. replace (n - 36 - 2) with (n - 38) by lia.
  rewrite (wrapu_small size_bits) by (unfold SIZE_MAX in Hsz; lia). apply runs_bind, runs_peek; [done|lia|lia|]. intros b4. apply runs_bind, runs_link.
  assert (∀ r1, searching (link r1) → place_of (link r1) = place_of (link r) → same_tx r r1 → runs (upd_link (set_seq (Z.land b4 0x3f));; append_data b4 (n - 38)) r1
    (λ _ r', searching (link r') ∧ place_of (link r') = place_of (link r) ∧ same_tx r r')) as Hgo.
  { intros r1 Hs1 Hp1 Ht1. pose proof Hp1 as Hp1'. injection Hp1' as P1 P2 P3. apply runs_bind, runs_upd_link. unfold append_data. apply runs_bind, runs_link. cbn [link set_link packet_length set_seq payload payload_start dst].
    pose proof (se_packet _ Hs1) as Hpk. unfold MDP_MTU in *. rewrite szadd_small by lia. destruct (Z.ltb_spec 1200 (packet_length (link r1) + (n - 38))) as [Hbig|Hfit].
    - apply runs_upd_link. split_and!; [destruct Hs1; split; try done; cbn; unfold MDP_MTU; lia|done|eapply same_tx_trans; [exact Ht1|done]].
    - apply runs_bind. eapply runs_lift; [apply slice_ret; [destruct Hs1; unfold RADIO_HEADER_LENGTH; lia|lia|rewrite (se_payload _ Hs1); unfold RADIO_HEADER_LENGTH; lia]|]. set (bs := take _ _).
      assert (Z.of_nat (length bs) = n - 38) as Hbs. { apply (slice_length (payload (link r1)) (payload_start (link r1) + 6)). apply slice_ret; [destruct Hs1; lia|lia|rewrite (se_payload _ Hs1); lia]. }
      destruct (write_ret (dst (link r1)) (packet_length (link r1)) bs) as (d & Hd & Hdl); [lia|rewrite (se_dst _ Hs1); lia|]. apply runs_bind. eapply runs_lift; [exact Hd|].
      apply runs_bind, runs_upd_link. apply runs_bind, runs_upd_link. cbn [link set_link]. match goal with |- runs _ ?x _ => set (r2 := x) end.
      assert (searching (link r2)) as Hs2 by (destruct Hs1; split; try done; cbn; unfold MDP_MTU; [congruence|lia]). assert (same_tx r r2) as Ht2 by (eapply same_tx_trans; [exact Ht1|done]). destruct (negb _).
      + apply runs_bind, runs_link. apply runs_bind. eapply runs_lift; [apply slice_ret; [lia|cbn; lia|rewrite (se_dst _ Hs2); cbn; lia]|]. apply runs_bind, runs_change. apply runs_upd_link.
        split_and!; [destruct Hs2; split; try done; cbn; unfold MDP_MTU; lia|done|eapply same_tx_trans; [exact Ht2|done]].
      + apply runs_ret. split_and!; [done|done|done]. }
  assert (∀ v r1, 0 ≤ v ≤ 1201 → searching (link r1) → searching (set_packet_length v (link r1))) as Hset by (intros v r1 Hv []; by split). unfold MDP_MTU.
  assert (∀ c v r1 (Q : unit → radio → Prop), 0 ≤ v ≤ 1201 → searching (link r1) → place_of (link r1) = place_of (link r) → same_tx r r1 →
    (∀ r2, searching (link r2) → place_of (link r2) = place_of (link r) → same_tx r r2 → Q tt r2) → runs (if (c : bool) then upd_link (set_packet_length v) else mret tt) r1 Q) as Hif.
  { intros c v r1 Q Hv H1 H2 H3 HQ. destruct c; [|apply runs_ret; by apply HQ]. apply runs_upd_link. apply HQ; [by apply Hset|done|eapply same_tx_trans; [exact H3|done]]. }
  apply runs_bind, Hif; [lia|done|done|done|]. intros r1 H1 H2 H3. apply runs_bind, Hif; [lia|done|done|done|]. intros r2 G1 G2 G3. by apply Hgo.
Qed.

(** ** Blocks with one byte of data *)

(** Whether the length of the packet so far, less one, is taken for its new length. *)
Definition continues b4 s : Prop := Z.land b4 0x40 = 0 ∧ (packet_length s ≠ 0 ∨ Z.land b4 0x3f ≠ Z.land (seq s + 1) 0x3f).

Lemma append_tiny b4 r : searching (link r) →
  append_data b4 SIZE_MAX r = if decide (packet_length (link r) = 0) then Ret (tt, set_link (set_packet_length (MDP_MTU + 1) (link r)) r) else Undef.
Proof.
  intros Hs. pose proof SIZE_MAX_pos as Hsz. pose proof (se_packet _ Hs) as Hp. unfold append_data, MDP_MTU in *. apply (bind_gives (λ o, o = _)), runs_link. cbn [id].
  destruct (decide (packet_length (link r) = 0)) as [->|Hne].
  - rewrite szadd_small by lia. by rewrite (proj2 (Z.ltb_lt _ _)) by lia.
  - assert (szadd (packet_length (link r)) SIZE_MAX = packet_length (link r) - 1) as ->.
    { unfold szadd, wrapu, SIZE_MAX in *. replace (packet_length (link r) + (2 ^ size_bits - 1)) with (packet_length (link r) - 1 + 1 * 2 ^ size_bits) by lia. rewrite Z.mod_add by lia. apply Z.mod_small. lia. }
    rewrite (proj2 (Z.ltb_ge _ _)) by lia. unfold slice, RADIO_HEADER_LENGTH. rewrite (proj2 (Z.leb_gt (_ + SIZE_MAX) _)) by (rewrite (se_payload _ Hs); destruct Hs; lia). by rewrite !andb_false_r.
Qed.

(** What a block with one byte of data does, [b4] being that byte. *)
Lemma accept_tiny b4 r : searching (link r) → byte_of (payload (link r)) (payload_start (link r) + 4) = Ret b4 →
  (continues b4 (link r) → accept_block 1 r = Undef) ∧
  (¬ continues b4 (link r) → runs (accept_block 1) r (λ _ r', searching (link r') ∧ place_of (link r') = place_of (link r) ∧ same_tx r r')).
Proof.
  intros Hs Hb. set (Φ := λ o : outcome (unit * radio), (continues b4 (link r) → o = Undef) ∧ (¬ continues b4 (link r) → ∃ a r', o = Ret (a, r') ∧ searching (link r') ∧ place_of (link r') = place_of (link r) ∧ same_tx r r')).
  change (Φ (accept_block 1 r)). unfold accept_block. cbv zeta. assert (wrapu size_bits (1 - 2) = SIZE_MAX) as ->.
  { pose proof SIZE_MAX_pos. unfold wrapu, SIZE_MAX in *. change (1 - 2) with (-1). replace (-1) with (2 ^ size_bits - 1 + (-1) * 2 ^ size_bits) by lia. rewrite Z.mod_add by lia. apply Z.mod_small. lia. }
  apply bind_gives. unfold peek. apply runs_bind, runs_link. eapply runs_lift; [exact Hb|]. apply bind_gives, runs_link. cbn [id].
  assert (∀ r1, searching (link r1) → place_of (link r1) = place_of (link r) → same_tx r r1 → (packet_length (link r1) ≠ 0 ↔ continues b4 (link r)) → Φ ((upd_link (set_seq (Z.land b4 0x3f));; append_data b4 SIZE_MAX) r1)) as Hend.
  { intros r1 H1 H2 H3 H4. apply bind_gives, runs_upd_link. rewrite append_tiny by (destruct H1; by split). cbn [link set_link packet_length set_seq]. destruct (decide _) as [E|E]; (split; intros Hc); [tauto| |done|tauto].
    eexists _, _. split; [reflexivity|]. split_and!; [destruct H1; split; try done; cbn; unfold MDP_MTU; lia|exact H2|eapply same_tx_trans; [exact H3|done]]. }
  assert (∀ v, 0 ≤ v ≤ 1201 → searching (set_packet_length v (link r))) as Hset by (intros v Hv; destruct Hs; by split).
  unfold continues in *. destruct (Z.eqb_spec (Z.land b4 0x3f) (Z.land (seq (link r) + 1) 0x3f)) as [Eq|Eq], (Z.eqb_spec (Z.land b4 0x40) 0) as [E0|E0]; cbn [negb];
    (apply bind_gives; first [apply runs_ret|apply runs_upd_link]); (apply bind_gives; first [apply runs_ret|apply runs_upd_link]); apply Hend; try done; cbn [link set_link packet_length set_packet_length]; unfold MDP_MTU; try (by apply Hset); try naive_solver lia.
Qed.

(** A block with one byte of data that the codec accepts, in a frame that continues a packet. *)
Definition tiny_block s : Prop :=
  let d := rs_decode (take 33 (drop (Z.to_nat (payload_start s + 4)) (payload s))) 222 in d.1 ≠ -1 ∧ continues (nth 0 d.2 0) s.
#[export] Instance tiny_block_dec s : Decision (tiny_block s).
Proof. unfold tiny_block, continues. apply _. Defined.

Lemma pad_of n : 37 ≤ n ≤ 255 → i32 (wrapu size_bits (FEC_MAX_BYTES - (n - 36))) = 259 - n.
Proof.
  intros Hn. pose proof SIZE_MAX_pos as Hsz. unfold SIZE_MAX in Hsz. unfold FEC_MAX_BYTES. rewrite wrapu_small by lia. unfold wraps. change (2 ^ (32 - 1)) with (2 ^ 31). rewrite Z.mod_small by lia. lia.
Qed.
(** Shorter frames have no data. *)
Lemma pad_short n : 32 < n < 37 → (222 <? i32 (wrapu size_bits (FEC_MAX_BYTES - wrapu size_bits (n - 36)))) = true.
Proof.
  intros Hn. pose proof SIZE_MAX_pos as Hsz. unfold SIZE_MAX in Hsz. unfold FEC_MAX_BYTES, wrapu. rewrite Zminus_mod_idemp_r, (Z.mod_small (223 - (n - 36))) by lia. unfold wraps. change (2 ^ (32 - 1)) with (2 ^ 31). rewrite Z.mod_small by lia. apply Z.ltb_lt. lia.
Qed.

Lemma parse_runs r n : searching (link r) → frame_length n → payload_start (link r) + n ≤ 765 → (n = 37 → ¬ tiny_block (link r)) →
  runs (radio_link_parse n) r (λ o r', searching (link r') ∧ place_of (link r') = place_of (link r) ∧ same_tx r r' ∧ match o with Some bt => 0 ≤ bt < n | None => True end).
Proof.
  intros Hs Hn Hend Htiny. unfold radio_link_parse. pose proof (se_start _ Hs) as Hst. destruct (Z.eqb_spec n 17) as [E|E].
  { apply runs_bind, runs_link. apply runs_bind. eapply runs_lift; [apply slice_ret; [lia|lia|rewrite (se_payload _ Hs); lia]|]. destruct (_ =? 0x555); apply runs_ret; split_and!; try done; lia. }
  cbv zeta. change (RADIO_USED_HEADER_LENGTH + FEC_LENGTH) with 36. apply runs_bind, runs_link. destruct Hn as [?|Hn]; [lia|]. destruct (decide (n < 37)) as [H37|H37].
  { rewrite pad_short, orb_true_r by lia. by apply runs_ret. }
  pose proof SIZE_MAX_pos as Hsz. unfold SIZE_MAX in Hsz. rewrite (wrapu_small size_bits (n - 36)) by lia. rewrite pad_of by lia. rewrite (proj2 (Z.ltb_ge (259 - n) 0)), (proj2 (Z.ltb_ge 222 (259 - n))) by lia. cbn [orb].
  apply runs_bind. eapply runs_lift; [apply slice_ret; [lia|lia|rewrite (se_payload _ Hs); lia]|]. set (block := take _ _).
  assert (Z.of_nat (length block) = n - 4) as Hb. { apply (slice_length (payload (link r)) (payload_start (link r) + 4)). rewrite slice_ret by (rewrite ?(se_payload _ Hs); lia). unfold block. do 3 f_equal. lia. }
  destruct (write_ret (payload (link r)) (payload_start (link r) + 4) (rs_decode block (259 - n)).2) as (l & Hl & Hll); [lia|rewrite rs_size, (se_payload _ Hs); lia|]. apply runs_bind. eapply runs_lift; [exact Hl|].
  apply runs_bind, runs_upd_link. match goal with |- runs _ ?x _ => set (r1 := x) end. assert (searching (link r1)) as Hs1 by (destruct Hs; split; try done; cbn; congruence).
  destruct (Z.eqb_spec (rs_decode block (259 - n)).1 (-1)) as [Ee|Ee]; [apply runs_ret; by split_and!|]. apply runs_bind.
  eapply (runs_mono _ _ (λ _ r', searching (link r') ∧ place_of (link r') = place_of (link r1) ∧ same_tx r1 r')).
  { destruct (decide (n = 37)) as [->|H37']; [|apply (accept_runs r1 n); [done|by right|lia|done]]. change (259 - 37) with 222 in *.
    apply (accept_tiny (nth 0 (rs_decode block 222).2 0) r1 Hs1); [|intros Hc; by apply (Htiny eq_refl)].
    cbn [link set_link payload set_payload payload_start r1]. apply (written_byte (payload (link r))); [exact Hl|rewrite rs_size; lia|lia]. }
  cbn beta. intros _ r2 (H1 & H2 & H3). apply runs_ret. destruct (rs_count block (259 - n)) as [?|Hc]; [done|].
  split_and!; [done|exact H2|eapply same_tx_trans; [|exact H3]; done|lia|lia].
Qed.

Lemma tiny_parse_undef r : searching (link r) → payload_start (link r) + 37 ≤ 765 → tiny_block (link r) → radio_link_parse 37 r = Undef.
Proof.
  intros Hs Hend [He Hc]. pose proof (se_start _ Hs) as Hst. pose proof SIZE_MAX_pos as Hsz. unfold SIZE_MAX in Hsz. unfold radio_link_parse. change (37 =? 17) with false. cbv zeta. change (RADIO_USED_HEADER_LENGTH + FEC_LENGTH) with 36.
  apply (bind_gives (λ o, o = Undef)), runs_link. cbn [id]. rewrite (wrapu_small size_bits (37 - 36)) by lia. rewrite pad_of by lia. change (259 - 37) with 222. change ((222 <? 0) || (222 <? 222)) with false. cbn iota.
  apply (bind_gives (λ o, o = Undef)). eapply runs_lift; [apply slice_ret; [lia|lia|rewrite (se_payload _ Hs); lia]|]. change (Z.to_nat (255 - 222)) with 33%nat. set (block := take 33 _) in *.
  assert (length block = 33%nat) as Hb by (unfold block; rewrite length_take, length_drop, (se_payload _ Hs); lia).
  destruct (write_ret (payload (link r)) (payload_start (link r) + 4) (rs_decode block 222).2) as (l & Hl & Hll); [lia|rewrite rs_size, (se_payload _ Hs); lia|].
  apply (bind_gives (λ o, o = Undef)). eapply runs_lift; [exact Hl|]. apply (bind_gives (λ o, o = Undef)), runs_upd_link. match goal with |- _ ?x = Undef => set (r1 := x) end.
  rewrite (proj2 (Z.eqb_neq _ _)) by done. change (37 - 36) with 1. enough (accept_block 1 r1 = Undef) as Hu by (unfold mbind at 1, prog_bind at 1; by rewrite Hu).
  apply (accept_tiny (nth 0 (rs_decode block 222).2 0) r1); [destruct Hs; split; try done; cbn; congruence| |exact Hc].
  cbn [link set_link payload set_payload payload_start r1]. apply (written_byte (payload (link r))); [exact Hl|rewrite rs_size; lia|lia].
Qed.

(** ** The loop *)

(** A round of the search comes upon a tiny block. *)
Definition tiny_found r : Prop := ∃ r1 r2, find_header 766 r = Ret (tt, r1) ∧ payload_length (link r1) = 37 ∧ 37 ≤ payload_offset (link r1) ∧
  parse_heartbeat gettime_ms r1 = Ret (false, r2) ∧ tiny_block (link r2).
(** The rounds that have been made. *)
Inductive search_goes_to : radio → radio → Prop :=
| search_here r : search_goes_to r r
| search_next r r1 r2 : decode_round gettime_ms r = Ret (None, r1) → search_goes_to r1 r2 → search_goes_to r r2.

Lemma shuffle_runs i j r : searching (link r) → 0 ≤ i → 0 ≤ j → i + payload_offset (link r) ≤ 765 → j + payload_offset (link r) ≤ 765 →
  runs (shuffle i j) r (λ _ r', ∃ l, length l = 765%nat ∧ r' = set_link (set_payload l (link r)) r).
Proof.
  intros Hs Hi Hj H1 H2. unfold shuffle. apply runs_bind, runs_link. destruct (Z.eqb_spec (payload_offset (link r)) 0).
  { apply runs_ret. exists (payload (link r)). split; [apply Hs|]. by destruct r as [[] ? ? ? ? ? ? ?]. }
  pose proof (se_offset _ Hs). apply runs_bind. eapply runs_lift; [apply slice_ret; [lia|lia|rewrite (se_payload _ Hs); lia]|]. set (bs := take _ _).
  assert (Z.of_nat (length bs) = payload_offset (link r)) as Hb. { apply (slice_length (payload (link r)) i). apply slice_ret; [lia|lia|rewrite (se_payload _ Hs); lia]. }
  destruct (write_ret (payload (link r)) j bs) as (l & Hl & Hll); [lia|rewrite (se_payload _ Hs); lia|]. apply runs_bind. eapply runs_lift; [exact Hl|]. apply runs_upd_link. exists l. split; [rewrite Hll; apply Hs|done].
Qed.

Definition rounds s : Z := 766 * (payload_start s + payload_offset s) + payload_offset s.

Lemma decode_round_runs r : searching (link r) →
  runs_or (tiny_found r) (decode_round gettime_ms) r (λ o r', match o with Some _ => waiting (link r') ∧ same_tx r r' | None => (searching (link r') ∧ same_tx r r') ∧ 0 ≤ rounds (link r') < rounds (link r) end).
Proof.
  intros Hs. unfold decode_round. destruct (find_header_runs 766 r Hs) as ([] & r1 & Efind & Hs1 & [Hsum Hoff] & Ht1 & _ & H6); [destruct Hs; lia|]. apply (runs_or_after _ _ _ _ _ _ _ Efind). unfold decode_word.
  apply (runs_or_after _ (on_link id) _ _ (link r1) r1); [done|].
  destruct (Z.eqb_spec (payload_length (link r1)) 0) as [E0|E0]; cbn [orb].
  { left. apply runs_ret. split; [split; [done|left; auto]|done]. }
  destruct (Z.ltb_spec (payload_offset (link r1)) (payload_length (link r1))) as [Hlt|Hge]; [left; apply runs_ret; split; [split; [done|by right]|done]|].
  destruct (se_length _ Hs1) as [?|Hlen]; [done|]. pose proof (se_end _ Hs1) as Hend. pose proof (se_start _ Hs1) as Hst. assert (17 ≤ payload_length (link r1)) as H17 by (destruct Hlen; lia).
  destruct (parse_heartbeat_runs r1 Hs1) as (h & r2 & Eheart & Hrx & Ht2 & _); [lia|]. apply (runs_or_after _ _ _ _ _ _ _ Eheart). pose proof (searching_rx _ _ Hrx Hs1) as Hs2. pose proof (same_tx_trans _ _ _ Ht1 Ht2) as Ht12. injection Hrx as _ P1 _ P2 P3 _ _. destruct h.
  - left. apply runs_bind, runs_link. apply runs_bind, runs_upd_link. rewrite P1, P2, P3. destruct (range_small (link r2) (payload_start (link r1)) (payload_offset (link r1) - payload_length (link r1))) as [R1 R2]; [lia|lia|].
    apply runs_bind. eapply runs_mono; [apply shuffle_runs; cbn [link set_link]; [apply searching_range; [done|lia..]|lia|lia|rewrite R2; lia|rewrite R2; lia]|]. cbn beta. intros _ r3 (l & Hl & ->). apply runs_bind, runs_upd_link. apply runs_ret.
    cbn [link set_link]. match goal with |- (searching ?x ∧ _) ∧ _ => set (s3 := x) end.
    assert (payload_start s3 = 0 ∧ payload_offset s3 = payload_offset (link r1) - payload_length (link r1) + payload_start (link r1)) as [Q1 Q2].
    { unfold s3. cbn. rewrite !(wrapu_small 32 (payload_start (link r1))), !(wrapu_small 32 (payload_offset (link r1) - _)) by lia. split; [done|]. by rewrite wrapu_small by lia. }
    split; [|unfold rounds; rewrite Q1, Q2; lia]. split; [|eapply same_tx_trans; [exact Ht12|done]]. destruct Hs2. split; rewrite ?Q1, ?Q2; try done; try lia. by left.
  - destruct (decide (payload_length (link r1) = 37 ∧ tiny_block (link r2))) as [[E37 Htiny]|Hno].
    { right. split; [|exists r1, r2; split_and!; try done; lia]. unfold mbind, prog_bind. rewrite E37, tiny_parse_undef by (done || lia). done. }
    left. apply runs_bind. eapply runs_mono; [apply (parse_runs r2 (payload_length (link r1))); [done|done|lia|tauto]|]. cbn beta. intros o r3 (Hs3 & Hp3 & Ht3 & Hbt). injection Hp3 as Q1 Q2 Q3. rewrite P1 in Q1. rewrite P2 in Q2. rewrite P3 in Q3.
    pose proof (same_tx_trans _ _ _ Ht12 Ht3) as Ht13. apply runs_bind. destruct o as [bt|].
    + apply runs_bind, runs_link. apply runs_bind, runs_upd_link. rewrite Q1, Q2, Q3. destruct (range_small (link r3) (payload_start (link r1)) (payload_offset (link r1) - (payload_length (link r1) - bt))) as [R1 R2]; [lia|lia|].
      apply runs_bind. eapply runs_mono; [apply shuffle_runs; cbn [link set_link]; [apply searching_range; [done|lia..]|lia|lia|rewrite R2; lia|rewrite R2; lia]|]. cbn beta. intros _ r4 (l & Hl & ->). apply runs_upd_link.
      apply runs_bind, runs_upd_link. apply runs_ret. cbn [link set_link]. match goal with |- (searching ?x ∧ _) ∧ _ => set (s4 := x) end.
      assert (payload_start s4 = 0 ∧ payload_offset s4 = payload_offset (link r1) - (payload_length (link r1) - bt)) as [W1 W2].
      { unfold s4. cbn. rewrite !(wrapu_small 32 (payload_offset (link r1) - _)) by lia. done. }
      split; [|unfold rounds; rewrite W1, W2; lia]. split; [|eapply same_tx_trans; [exact Ht13|done]]. destruct Hs3. split; rewrite ?W1, ?W2; try done; try lia. by left.
    + apply runs_upd_link. apply runs_bind, runs_upd_link. apply runs_ret. cbn [link set_link]. rewrite Q2, Q3. match goal with |- (searching ?x ∧ _) ∧ _ => set (s4 := x) end.
      assert (payload_start s4 = payload_start (link r1) + 1 ∧ payload_offset s4 = payload_offset (link r1) - 1) as [W1 W2]. { unfold s4. cbn. by rewrite !wrapu_small by lia. }
      split; [|unfold rounds; rewrite W1, W2; lia]. split; [|eapply same_tx_trans; [exact Ht13|done]]. destruct Hs3. split; rewrite ?W1, ?W2; try done; try lia. by left.
Qed.

(** The loop ends, unless it comes upon a tiny block. *)
Lemma search_runs k r : searching (link r) → rounds (link r) < 2 ^ Z.of_nat k →
  runs_or (∃ r', search_goes_to r r' ∧ tiny_found r') (forever k (decode_round gettime_ms)) r (λ _ r', waiting (link r') ∧ same_tx r r').
Proof.
  intros Hs Hk. apply (forever_runs_or _ _ (λ r', (searching (link r') ∧ same_tx r r') ∧ (∀ r2, search_goes_to r' r2 → search_goes_to r r2)) (λ r', rounds (link r'))); [|done|done].
  intros r1 [[H1 H2] H3]. destruct (decode_round_runs r1 H1) as [(o & r2 & E & H)|[E H]]; [left|right; split; [done|exists r1; split; [apply H3, search_here|done]]].
  exists o, r2. split; [done|]. destruct o; [destruct H as [G1 G2]; split; [done|by eapply same_tx_trans]|]. destruct H as [[G1 G2] G3]. split; [|done].
  split; [split; [done|by eapply same_tx_trans]|]. intros r3 H. apply H3. by eapply search_next.
Qed.

Lemma store_runs r c : waiting (link r) → runs (store_byte c) r (λ _ r', searching (link r') ∧ same_tx r r').
Proof.
  intros [Hs Hwait]. unfold store_byte. apply runs_bind, runs_link. pose proof (se_end _ Hs) as Hend. pose proof (se_start _ Hs) as Hst. pose proof (se_offset _ Hs) as Hof. apply runs_bind.
  assert (payload_offset (link r) < 255) as Hof255. { destruct Hwait as [?|Hw]; [lia|]. destruct (se_length _ Hs) as [?|[?|?]]; lia. }
  rewrite (wrapu_small 32) by lia. eapply (runs_mono _ _ (λ _ r1, searching (link r1) ∧ same_tx r r1 ∧ payload_start (link r1) + payload_offset (link r1) < 765)).
  { destruct (Z.leb_spec 765 (payload_start (link r) + payload_offset (link r))); [|by apply runs_ret]. apply runs_bind. eapply runs_lift; [apply slice_ret; [lia|lia|rewrite (se_payload _ Hs); lia]|]. set (bs := take _ _).
    assert (Z.of_nat (length bs) = 764) as Hb. { apply (slice_length (payload (link r)) 1). apply slice_ret; [lia|lia|rewrite (se_payload _ Hs); lia]. }
    destruct (write_ret (payload (link r)) 0 bs) as (l & Hl & Hll); [lia|rewrite (se_payload _ Hs); lia|]. apply runs_bind. eapply runs_lift; [exact Hl|]. apply runs_upd_link. cbn [link set_link].
    destruct (range_small (set_payload l (link r)) (payload_start (link r) - 1) (payload_offset (link r))) as [R1 R2]; [lia|lia|]. split_and!; [|done|rewrite R1, R2; lia].
    apply searching_range; [|lia..]. destruct Hs. split; try done. cbn. congruence. }
  cbn beta. intros _ r1 (Hs1 & Ht1 & Hlt). apply runs_bind, runs_link. pose proof (se_start _ Hs1). pose proof (se_offset _ Hs1).
  destruct (write_ret (payload (link r1)) (payload_start (link r1) + payload_offset (link r1)) [c]) as (l & Hl & Hll); [lia|rewrite (se_payload _ Hs1); cbn; lia|]. apply runs_bind. eapply runs_lift; [exact Hl|].
  apply runs_upd_link. split; [|eapply same_tx_trans; [exact Ht1|done]]. cbn [link set_link]. apply searching_range; [|lia..]. destruct Hs1. split; try done. cbn. congruence.
Qed.

(** The byte [c] completes a tiny block. *)
Definition tiny_completed c r : Prop := ∃ r1 r2, store_byte c r = Ret (tt, r1) ∧ search_goes_to r1 r2 ∧ tiny_found r2.

Lemma decode_runs r c : waiting (link r) → runs_or (tiny_completed c r) (radio_link_decode gettime_ms c) r (λ _ r', waiting (link r') ∧ same_tx r r').
Proof.
  intros Hw. destruct (store_runs r c Hw) as ([] & r1 & E & Hs & Ht). unfold radio_link_decode. apply (runs_or_after _ _ _ _ _ _ _ E). destruct (search_runs 20 r1 Hs) as [H|[Eu (r2 & H1 & H2)]].
  - unfold rounds. pose proof (se_end _ Hs). pose proof (se_start _ Hs). pose proof (se_offset _ Hs). change (2 ^ Z.of_nat 20) with 1048576. lia.
  - left. eapply runs_mono; [exact H|]. cbn beta. intros _ r' [G1 G2]. split; [done|by eapply same_tx_trans].
  - right. split; [done|by exists r1, r2].
Qed.

End Safe.
End RadioLinkSafe.
