(* ===== verification/RadioLinkRound.v ===== *)
(** * What the packet radio receives

    A frame, a heartbeat or a status report that arrives at a receiver that waits for
    the start of one is recognised, and does what it says. *)

From S2P Require Import Prelude Mem Prog Golay OverlayBuffer FdQueue RadioLink RadioLinkSafe.
Import Prog RadioLink RadioLinkSafe.

Module RadioLinkRound.

(** ** Words *)

Definition at_ (w : list Z) (i : nat) : Z := nth i w 0.
(** The first bytes of a status report. *)
Definition status_of (w : list Z) : bool :=
  (at_ w 0 =? 0xFE) && (at_ w 1 =? 9) && (at_ w 3 =? RADIO_SOURCE_SYSTEM) && (at_ w 4 =? RADIO_SOURCE_COMPONENT) && (at_ w 5 =? MAVLINK_MSG_ID_RADIO).
(** The length that the header says. *)
Definition length_of (w : list Z) : option Z :=
  let gd := (Golay.golay_decode (at_ w 1, at_ w 2, at_ w 3)).1 in
  if (gd <? 0) || negb (Z.land (Z.shiftr gd 8) 0xF =? Z.land gd 0xF) then None
  else
    let length := Z.land gd 0xFF + (RADIO_HEADER_LENGTH + RADIO_CRC_LENGTH) in
    if negb (length =? 17) && ((length <=? FEC_LENGTH) || (LINK_MTU <? length)) then None else Some length.

(** A word of [n] bytes that begins like a frame or a report of that length. *)
Definition word (w : list Z) (n : Z) : Prop := Z.of_nat (length w) = n ∧ frame_length n ∧ (if status_of w then n = 17 else length_of w = Some n).

Lemma drop_nth i (w : list Z) : (i < length w)%nat → drop i w = at_ w i :: drop (S i) w.
Proof. intros H. destruct (lookup_lt_is_Some_2 w i H) as [x Hx]. rewrite (drop_S w x i Hx). f_equal. unfold at_. symmetry. apply nth_lookup_Some with (d := 0) in Hx. done. Qed.
Lemma take_at k (w : list Z) i : (i < k)%nat → at_ (take k w) i = at_ w i.
Proof. intros H. unfold at_. rewrite !nth_lookup. by rewrite lookup_take_lt. Qed.

Lemma take_take_le {A} (l : list A) k n : (n ≤ k)%nat → take n (take k l) = take n l.
Proof. intros. rewrite take_take. f_equal. lia. Qed.
(** What is in an array that begins with the bytes [w]. *)
Lemma slice_prefix (l w : list Z) k i n : take k l = take k w → (k ≤ length l)%nat → 0 ≤ i → 0 ≤ n → i + n ≤ Z.of_nat k →
  slice l i n = Ret (take (Z.to_nat n) (drop (Z.to_nat i) w)).
Proof.
  intros E Hk Hi Hn Hle. rewrite slice_ret by lia. f_equal. rewrite !take_drop_commute. f_equal.
  rewrite <- (take_take_le l k), <- (take_take_le w k) by lia. by rewrite E.
Qed.
Lemma byte_prefix (l w : list Z) k i : take k l = take k w → (k ≤ length l)%nat → (k ≤ length w)%nat → 0 ≤ i < Z.of_nat k → byte_of l i = Ret (at_ w (Z.to_nat i)).
Proof.
  intros E Hk Hw Hi. unfold byte_of. rewrite (slice_prefix l w k) by (done || lia). cbn. rewrite (drop_nth (Z.to_nat i)) by lia. done.
Qed.
Lemma write_prefix (l w : list Z) k x : take k l = take k w → (k < length l)%nat → w !! k = Some x →
  ∃ l', write_at l (Z.of_nat k) [x] = Ret l' ∧ length l' = length l ∧ take (S k) l' = take (S k) w.
Proof.
  intros E Hk Hx. unfold write_at. rewrite !(proj2 (Z.leb_le _ _)) by (cbn; lia). eexists. split; [reflexivity|]. rewrite Nat2Z.id. split; [rewrite !length_app, length_take, length_drop; cbn; lia|].
  rewrite (take_S_r w k x Hx), <- E, app_assoc. rewrite take_app_length'; [done|]. rewrite length_app, length_take. cbn. lia.
Qed.

Section Round.
Context {arch : Arch} {allocator : Allocator} {fec : Fec} `{!FecLaws fec}.
Variable gettime_ms : nat → Z.
Implicit Types r : radio.
Implicit Types s : radio_link_state.

(** [k] bytes of a word have arrived. *)
Record partial (w : list Z) (n : Z) (k : nat) s : Prop := {
  pt_payload : length (payload s) = 765%nat;
  pt_dst : length (dst s) = 1200%nat;
  pt_start : payload_start s = 0;
  pt_offset : payload_offset s = Z.of_nat k;
  pt_bytes : take k (payload s) = take k w;
  pt_length : payload_length s = if bool_decide (k < 6)%nat then 0 else n;
}.

(** Reading the beginning of the array. *)
Definition begins (w : list Z) (k : nat) s : Prop := payload_start s = 0 ∧ length (payload s) = 765%nat ∧ take k (payload s) = take k w ∧ (k ≤ length w)%nat ∧ (k ≤ 765)%nat.
Lemma peek_word w k i r (Q : Z → radio → Prop) : begins w k (link r) → 0 ≤ i < Z.of_nat k → Q (at_ w (Z.to_nat i)) r → runs (peek i) r Q.
Proof. intros (H1 & H2 & H3 & H4 & H5) Hi HQ. unfold peek. apply runs_bind, runs_link. rewrite H1. eapply runs_lift; [apply (byte_prefix _ w k); [done|lia|done|lia]|done]. Qed.

Lemma status_word w k r : begins w k (link r) → (6 ≤ k)%nat → runs status_header r (λ h r', h = status_of w ∧ r' = r).
Proof.
  intros Hb Hk. unfold status_header, status_of. apply runs_bind, (peek_word w k); [done|lia|]. change (Z.to_nat 0) with 0%nat. destruct (at_ w 0 =? 0xFE); cbn [negb andb]; [|by apply runs_ret].
  apply runs_bind, (peek_word w k); [done|lia|]. change (Z.to_nat 1) with 1%nat. destruct (at_ w 1 =? 9); cbn [negb andb]; [|by apply runs_ret].
  apply runs_bind, (peek_word w k); [done|lia|]. change (Z.to_nat 3) with 3%nat. destruct (at_ w 3 =? RADIO_SOURCE_SYSTEM); cbn [negb andb]; [|by apply runs_ret].
  apply runs_bind, (peek_word w k); [done|lia|]. change (Z.to_nat 4) with 4%nat. destruct (at_ w 4 =? RADIO_SOURCE_COMPONENT); cbn [negb andb]; [|by apply runs_ret].
  apply runs_bind, (peek_word w k); [done|lia|]. change (Z.to_nat 5) with 5%nat. by apply runs_ret.
Qed.

Lemma three_word w k i s : begins w k s → (i + 3 ≤ k)%nat → ∃ bs, slice (payload s) (Z.of_nat i) 3 = Ret bs ∧ three bs = (at_ w i, at_ w (S i), at_ w (S (S i))).
Proof.
  intros (H1 & H2 & H3 & H4 & H5) Hi. eexists. split; [apply (slice_prefix _ w k); [done|lia|lia|lia|lia]|]. rewrite Nat2Z.id. change (Z.to_nat 3) with 3%nat.
  rewrite (drop_nth i), (drop_nth (S i)), (drop_nth (S (S i))) by lia. done.
Qed.

Lemma decode_length_word w k r : begins w k (link r) → (4 ≤ k)%nat →
  runs decode_length r (λ d r', match length_of w with Some n => d = true ∧ r' = set_link (set_payload_length n (link r)) r | None => d = false ∧ r' = r end).
Proof.
  intros Hb Hk. unfold decode_length, length_of. apply runs_bind, runs_link. destruct (three_word w k 1 (link r) Hb ltac:(lia)) as (bs & Hbs & H3). destruct Hb as (H1 & _). rewrite H1.
  apply runs_bind. eapply runs_lift; [exact Hbs|]. rewrite H3. cbv zeta. set (gd := (Golay.golay_decode _).1). clearbody gd. destruct (_ || _); [by apply runs_ret|]. destruct (_ && _); [by apply runs_ret|].
  apply runs_bind, runs_upd_link. by apply runs_ret.
Qed.

(** What does not change while a word arrives. *)
Definition budget s := (next_heartbeat s, next_tx_allowed s, remaining_space s).
Definition same_rest r r' : Prop := same_tx r r' ∧ seq (link r') = seq (link r) ∧ dst (link r') = dst (link r) ∧ packet_length (link r') = packet_length (link r) ∧ received r' = received r ∧ budget (link r') = budget (link r).
Lemma same_rest_trans r1 r2 r3 : same_rest r1 r2 → same_rest r2 r3 → same_rest r1 r3.
Proof. intros (H1 & H2 & H3 & H4 & H5 & H6) (G1 & G2 & G3 & G4 & G5 & G6). split_and!; [by eapply same_tx_trans|congruence..]. Qed.

(** After a byte the header has been looked at, when there is one. *)
Lemma find_header_word w n k r : word w n → (k ≤ length w)%nat → (k ≤ 765)%nat → ((k < 6)%nat → payload_length (link r) = 0) → ((6 < k)%nat → payload_length (link r) = n) → (k = 6%nat → payload_length (link r) = 0) →
  length (payload (link r)) = 765%nat → length (dst (link r)) = 1200%nat → payload_start (link r) = 0 → payload_offset (link r) = Z.of_nat k → take k (payload (link r)) = take k w →
  runs (find_header 766) r (λ _ r', partial w n k (link r') ∧ same_rest r r').
Proof.
  intros (Hw & Hn & Hhead) Hk Hk5 H1 H2 H3 Hp Hd Hst Hof Hby. change 766%nat with (S 765). cbn [find_header]. apply runs_bind, runs_link. rewrite Hof. assert (n ≠ 0) as Hn0 by (destruct Hn; lia).
  destruct (decide (k = 6%nat)) as [->|Hne].
  - rewrite (H3 eq_refl), Z.eqb_refl. cbn [andb Z.leb negb]. change (6 <=? Z.of_nat 6) with true. cbn [negb]. assert (begins w 6 (link r)) as Hb by (by split_and!).
    apply runs_bind. eapply runs_mono; [by apply (status_word w 6)|]. cbn beta. intros h r' [-> ->]. destruct (status_of w).
    + apply runs_upd_link. rewrite Hhead. split; [|done]. by split.
    + apply runs_bind. eapply runs_mono; [by apply (decode_length_word w 6); [|lia]|]. cbn beta. rewrite Hhead. intros d r' [-> ->]. apply runs_ret. split; [|done]. by split.
  - assert (negb ((payload_length (link r) =? 0) && (6 <=? Z.of_nat k)) = true) as ->.
    { destruct (decide (k < 6)%nat); [rewrite (proj2 (Z.leb_gt 6 _)) by lia; by rewrite andb_false_r|]. rewrite H2 by lia. by rewrite (proj2 (Z.eqb_neq _ _)). }
    apply runs_ret. split; [|done]. split; try done. destruct (bool_decide_reflect (k < 6)%nat); [by apply H1|apply H2; lia].
Qed.

(** The next byte of a word. *)
Lemma arrive_gives (Φ : outcome (unit * radio) → Prop) w n k x r : word w n → partial w n k (link r) → w !! k = Some x → Z.of_nat (S k) ≤ n →
  (∀ r1 r2, partial w n (S k) (link r2) → same_rest r r2 → decode_round gettime_ms r1 = decode_word gettime_ms r2 → Φ (forever 20 (decode_round gettime_ms) r1)) → Φ (radio_link_decode gettime_ms x r).
Proof.
  intros Hword [] Hx Hlt HQ. pose proof Hword as (Hw & Hn & _). assert (n ≤ 255) as H255 by (destruct Hn; lia). unfold radio_link_decode. apply bind_gives. unfold store_byte. apply runs_bind, runs_link. rewrite pt_start0, pt_offset0, Z.add_0_l, wrapu_small by lia.
  rewrite (proj2 (Z.leb_gt _ _)) by lia. apply runs_bind, runs_ret. apply runs_bind, runs_link. rewrite pt_start0, pt_offset0, Z.add_0_l.
  destruct (write_prefix (payload (link r)) w k x pt_bytes0 ltac:(lia) Hx) as (l & Hl & Hll & Ht). apply runs_bind. eapply runs_lift; [exact Hl|]. apply runs_upd_link. match goal with |- Φ (_ ?y) => set (r1 := y) end.
  assert (payload_start (link r1) = 0 ∧ payload_offset (link r1) = Z.of_nat (S k)) as [S1 S2]. { unfold r1. cbn [link set_link payload_start payload_offset set_range set_payload]. rewrite pt_start0, pt_offset0. rewrite !wrapu_small by lia. split; [done|lia]. }
  destruct (find_header_word w n (S k) r1 Hword) as ([] & r2 & E & Hp2 & Hs2).
  { apply lookup_lt_Some in Hx. lia. } { lia. }
  { intros H. unfold r1. cbn [link set_link payload_length set_range set_payload]. rewrite pt_length0. by rewrite bool_decide_true by lia. }
  { intros H. unfold r1. cbn [link set_link payload_length set_range set_payload]. rewrite pt_length0. by rewrite bool_decide_false by lia. }
  { intros H. unfold r1. cbn [link set_link payload_length set_range set_payload]. rewrite pt_length0. by rewrite bool_decide_true by lia. }
  { unfold r1. cbn. by rewrite Hll. } { done. } { done. } { done. } { done. }
  apply (HQ r1 r2 Hp2); [eapply same_rest_trans; [|exact Hs2]; done|]. unfold decode_round. by rewrite (bind_unfold _ _ _ _ _ E).
Qed.
Lemma arrive w n k x r (Q : unit → radio → Prop) : word w n → partial w n k (link r) → w !! k = Some x → Z.of_nat (S k) ≤ n →
  (∀ r2, partial w n (S k) (link r2) → same_rest r r2 → runs (decode_word gettime_ms) r2 (λ o r3,
     match o with Some _ => Q tt r3 | None => runs (decode_round gettime_ms) r3 (λ o r4, match o with Some _ => Q tt r4 | None => False end) end)) →
  runs (radio_link_decode gettime_ms x) r Q.
Proof.
  intros Hword Hp Hx Hlt HQ. apply (arrive_gives (λ o, ∃ a r', o = Ret (a, r') ∧ Q a r') w n k); try done. intros r1 r2 Hp2 Hs2 E. apply forever_two. destruct (HQ r2 Hp2 Hs2) as (o & r3 & E3 & H3). exists o, r3. split; [by rewrite E|].
  destruct o as [[]|]; [done|]. eapply runs_mono; [exact H3|]. by intros [[]|] r4.
Qed.

(** A byte that does not end the word. *)
Lemma byte_runs w n k x r : word w n → partial w n k (link r) → w !! k = Some x → Z.of_nat (S k) < n →
  runs (radio_link_decode gettime_ms x) r (λ _ r', partial w n (S k) (link r') ∧ same_rest r r').
Proof.
  intros Hword Hp Hx Hlt. apply (arrive w n k); [done|done|done|lia|]. intros r2 Hp2 Hs2. unfold decode_word. apply runs_bind, runs_link.
  assert ((payload_length (link r2) =? 0) || (payload_offset (link r2) <? payload_length (link r2)) = true) as ->.
  { rewrite (pt_length _ _ _ _ Hp2), (pt_offset _ _ _ _ Hp2). destruct (bool_decide_reflect (S k < 6)%nat); [done|]. rewrite (proj2 (Z.ltb_lt _ _)) by done. apply orb_true_r. }
  by apply runs_ret.
Qed.

(** All bytes of a word but the last. *)
Lemma bytes_runs w n m : ∀ k r, word w n → partial w n k (link r) → Z.of_nat (k + m) < n →
  runs (read_stream gettime_ms (take m (drop k w))) r (λ _ r', partial w n (k + m) (link r') ∧ same_rest r r').
Proof.
  induction m as [|m IH]; intros k r Hword Hp Hlt; [apply runs_ret; split; [by rewrite Nat.add_0_r|done]|]. pose proof Hword as (Hw & _ & _).
  destruct (lookup_lt_is_Some_2 w k) as [x Hx]; [lia|]. rewrite (drop_S _ _ _ Hx). cbn [take read_stream]. apply runs_bind. eapply runs_mono; [apply (byte_runs w n k x r Hword Hp Hx); lia|]. cbn beta. intros _ r1 [Hp1 Hs1].
  eapply runs_mono; [apply (IH (S k) r1 Hword Hp1); lia|]. cbn beta. intros _ r2 [Hp2 Hs2]. split; [by rewrite Nat.add_succ_r|by eapply same_rest_trans].
Qed.

End Round.
End RadioLinkRound.
