(* ===== verification/RadioLinkWords.v ===== *)
(** * What the packet radio receives

    What a frame, a heartbeat request or a status report does to a receiver that
    waits for the start of one, and the packets that a line of frames says. *)

From S2P Require Import Prelude Mem Prog Golay OverlayBuffer FdQueue RadioLink RadioLinkSafe RadioLinkRound.
Import Prog RadioLink RadioLinkSafe RadioLinkRound.

Module RadioLinkWords.

(** ** Reassembly *)

(** The sequence number of the last frame, and the packet so far unless a frame of it
    was missed. *)
Abbreviation assembly := (Z * option (list Z))%type.
(** A frame with the given flags and data, and the packets that are then complete. *)
Definition reassemble (a : assembly) (b4 : Z) (chunk : list Z) : assembly * list (list Z) :=
  let n := Z.land b4 0x3f in
  let part := if negb (Z.land b4 0x40 =? 0) then Some [] else if n =? Z.land (a.1 + 1) 0x3f then a.2 else None in
  match part with
  | None => ((n, None), [])
  | Some p =>
      if bool_decide (1200 < length (p ++ chunk))%nat then ((n, None), [])
      else if negb (Z.land b4 0x80 =? 0) then ((n, None), [p ++ chunk]) else ((n, Some (p ++ chunk)), [])
  end.

(** The array of the packet has the bytes so far. *)
Definition holds (part : option (list Z)) (s : radio_link_state) : Prop :=
  length (dst s) = 1200%nat ∧
  match part with Some p => packet_length s = Z.of_nat (length p) ∧ take (length p) (dst s) = p ∧ (length p ≤ 1200)%nat | None => packet_length s = 1201 end.
Definition assembling (a : assembly) (s : radio_link_state) : Prop := seq s = a.1 ∧ holds a.2 s.

Section Words.
Context {arch : Arch} {allocator : Allocator} {fec : Fec} `{!FecLaws fec}.
Variable gettime_ms : nat → Z.
Implicit Types r : radio.
Implicit Types s : radio_link_state.

Lemma write_take (l p c : list Z) : take (length p) l = p → (length p + length c ≤ length l)%nat →
  ∃ l', write_at l (Z.of_nat (length p)) c = Ret l' ∧ length l' = length l ∧ take (length (p ++ c)) l' = p ++ c.
Proof.
  intros E Hl. unfold write_at. rewrite !(proj2 (Z.leb_le _ _)) by lia. eexists. split; [reflexivity|]. rewrite Nat2Z.id, E. split; [rewrite !length_app, length_drop; lia|].
  rewrite app_assoc. by apply take_app_length'.
Qed.

(** What storing the data of a frame leaves. *)
Definition unread s := (payload s, payload_length s, payload_start s, payload_offset s, next_heartbeat s, next_tx_allowed s, remaining_space s).

Lemma append_word w n b4 part r : begins w n (link r) → (38 ≤ n)%nat → (n ≤ 255)%nat → holds part (link r) →
  let chunk := take (n - 38) (drop 6 w) in
  let res := match part with
    | None => (None, [])
    | Some p => if bool_decide (1200 < length (p ++ chunk))%nat then (None, []) else if negb (Z.land b4 0x80 =? 0) then (None, [p ++ chunk]) else (Some (p ++ chunk), [])
    end in
  runs (append_data b4 (Z.of_nat n - 38)) r (λ _ r', holds res.1 (link r') ∧ seq (link r') = seq (link r) ∧ received r' = received r ++ res.2 ∧ unread (link r') = unread (link r) ∧ same_tx r r').
Proof.
  intros (H1 & H2 & H3 & H4 & H5) Hn38 Hn255 [Hd Hp] chunk. cbv zeta. pose proof SIZE_MAX_pos as Hsz. unfold append_data. apply runs_bind, runs_link. unfold MDP_MTU.
  assert (Z.of_nat (length chunk) = Z.of_nat n - 38) as Hc by (unfold chunk; rewrite length_take, length_drop; lia). destruct part as [p|].
  2: { rewrite Hp, szadd_small by lia. rewrite (proj2 (Z.ltb_lt _ _)) by lia. apply runs_upd_link. split_and!; try done. by rewrite app_nil_r. }
  destruct Hp as (Hp1 & Hp2 & Hp3). rewrite Hp1, szadd_small by lia. rewrite length_app. destruct (bool_decide_reflect (1200 < length p + length chunk)%nat) as [Hbig|Hfit].
  { rewrite (proj2 (Z.ltb_lt _ _)) by lia. apply runs_upd_link. split_and!; try done. by rewrite app_nil_r. }
  rewrite (proj2 (Z.ltb_ge _ _)) by lia. apply runs_bind. rewrite H1. eapply runs_lift; [apply (slice_prefix _ w n); [done|lia|done|lia|unfold RADIO_HEADER_LENGTH; lia]|].
  change (Z.to_nat (0 + RADIO_HEADER_LENGTH)) with 6%nat. replace (Z.to_nat (Z.of_nat n - 38)) with (n - 38)%nat by lia. fold chunk.
  destruct (write_take (dst (link r)) p chunk Hp2 ltac:(lia)) as (d & Hw & Hl & Ht). apply runs_bind. eapply runs_lift; [exact Hw|]. apply runs_bind, runs_upd_link. apply runs_bind, runs_upd_link. cbn [link set_link].
  replace (Z.of_nat (length p) + (Z.of_nat n - 38)) with (Z.of_nat (length (p ++ chunk))) by (rewrite length_app; lia). destruct (negb (Z.land b4 0x80 =? 0)).
  - apply runs_bind, runs_link. cbn [link set_link set_packet_length set_dst dst packet_length]. apply runs_bind. eapply runs_lift; [apply slice_ret; [lia|lia|rewrite length_app; lia]|]. rewrite Nat2Z.id. change (Z.to_nat 0) with 0%nat. rewrite drop_0, Ht.
    apply runs_bind, runs_change. apply runs_upd_link. split_and!; try done. split; [cbn; by rewrite Hl|done].
  - apply runs_ret. split_and!; try done; [split; [cbn; congruence|split_and!; [done|done|rewrite length_app; lia]]|by rewrite app_nil_r].
Qed.

Lemma accept_word w n a r : begins w n (link r) → (38 ≤ n)%nat → (n ≤ 255)%nat → assembling a (link r) →
  let res := reassemble a (at_ w 4) (take (n - 38) (drop 6 w)) in
  runs (accept_block (Z.of_nat n - 36)) r (λ _ r', assembling res.1 (link r') ∧ received r' = received r ++ res.2 ∧ unread (link r') = unread (link r) ∧ same_tx r r').
Proof.
  intros Hb H38 H255 [Hseq Hh]. cbv zeta. pose proof SIZE_MAX_pos as Hsz. unfold accept_block. cbv zeta. replace (Z.of_nat n - 36 - 2) with (Z.of_nat n - 38) by lia. rewrite (wrapu_small size_bits) by (unfold SIZE_MAX in Hsz; lia).
  apply runs_bind, (peek_word w n); [done|lia|]. change (Z.to_nat 4) with 4%nat. apply runs_bind, runs_link. rewrite Hseq. unfold reassemble. set (b4 := at_ w 4).
  set (part := if negb (Z.land b4 0x40 =? 0) then Some [] else _).
  assert (∀ part' r1, holds part' (link r1) → (holds None (set_packet_length 1201 (link r1)) ∧ holds (Some []) (set_packet_length 0 (link r1)))) as Hset by (intros ? ? [? _]; split; split; try done; split_and!; [done|done|cbn; lia]).
  eapply runs_assoc. apply (runs_mono _ _ (λ _ r1, holds part (link r1) ∧ unread (link r1) = unread (link r) ∧ same_tx r r1 ∧ received r1 = received r)).
  { apply runs_bind. unfold part, MDP_MTU. change (1200 + 1) with 1201. destruct (Hset _ _ Hh) as [Hs1 Hs2].
    destruct (Z.land b4 0x3f =? Z.land (a.1 + 1) 0x3f); cbn [negb]; [apply runs_ret|apply runs_upd_link]; destruct (Z.land b4 0x40 =? 0); cbn [negb]; (apply runs_ret || apply runs_upd_link); by split_and!. }
  cbn beta. intros _ r1 (Hp & Hu & Ht & Hrc). apply runs_bind, runs_upd_link. injection Hu as U1 U2 U3 U4 U5 U6 U7. destruct Hb as (B1 & B2 & B3 & B4 & B5).
  eapply runs_mono; [apply (append_word w n b4 part)|].
  { cbn [link set_link]. unfold begins. cbn. rewrite U1, U3. by split_and!. } { done. } { done. } { exact Hp. }
  cbn beta zeta. intros _ r2 (G1 & G2 & G3 & G4 & G5). cbn [link set_link received] in G2, G3, G4. change (seq (set_seq ?x _)) with x in G2.
  assert (unread (link r2) = unread (link r)) as G6 by (rewrite G4; unfold unread; cbn; congruence). assert (same_tx r r2) as G7 by (eapply same_tx_trans; [exact Ht|exact G5]). rewrite Hrc in G3.
  destruct part as [p|]; [|by split_and!; [split|..]]. destruct (bool_decide _); [by split_and!; [split|..]|]. destruct (negb _); by split_and!; [split|..].
Qed.

(** ** The end of a word *)

(** The space a status report says. *)
Definition free_of (w : list Z) : Z := Z.quot (at_ w 12 * 1280) 100 - 30.
(** The times the sender waits for, when the clock is at most [B]. *)
Definition times (B : Z) s : Prop := 0 ≤ next_heartbeat s ≤ B + 1000 ∧ 0 ≤ next_tx_allowed s ≤ B.
Definition keeps_times r r' : Prop := ∀ B, (∀ n, 0 ≤ gettime_ms n ≤ B) → times B (link r) → times B (link r').

Lemma heartbeat_word w k r : begins w k (link r) → (17 ≤ k)%nat →
  runs (parse_heartbeat gettime_ms) r (λ h r', h = status_of w ∧ if status_of w then rx_side (link r') = rx_side (link r) ∧ same_tx r r' ∧ received r' = received r ∧ remaining_space (link r') = free_of w ∧ keeps_times r r' else r' = r).
Proof.
  intros Hb Hk. unfold parse_heartbeat. apply runs_bind. eapply runs_mono; [apply (status_word w k); [done|lia]|]. cbn beta. intros h r' [-> ->]. destruct (status_of w); cbn [negb]; [|by apply runs_ret].
  do 5 (apply runs_bind, (peek_word w k); [done|lia|]). apply runs_bind, runs_upd_link. cbv zeta. apply runs_bind, runs_upd_link. change (Z.to_nat 12) with 12%nat. fold (free_of w).
  match goal with |- runs _ ?x _ => set (r1 := x) end.
  assert (rx_side (link r1) = rx_side (link r) ∧ same_tx r r1 ∧ received r1 = received r ∧ remaining_space (link r1) = free_of w ∧ keeps_times r r1) as H1 by (split_and!; try done; by intros B HB).
  clearbody r1. apply runs_bind. eapply (runs_mono _ _ (λ _ r', rx_side (link r') = rx_side (link r) ∧ same_tx r r' ∧ received r' = received r ∧ remaining_space (link r') = free_of w ∧ keeps_times r r')).
  { destruct (0 <? _); [|by apply runs_ret]. apply runs_bind, runs_time. apply runs_upd_link. destruct H1 as (G1 & G2 & G3 & G4 & G5). split_and!; try done. intros B HB Ht. destruct (G5 B HB Ht). split; [done|apply HB]. }
  cbn beta. clear H1 r1. intros _ r1 H1. apply runs_bind. eapply (runs_mono _ _ (λ _ r', rx_side (link r') = rx_side (link r) ∧ same_tx r r' ∧ received r' = received r ∧ remaining_space (link r') = free_of w ∧ keeps_times r r')).
  { destruct (720 <? _); [|by apply runs_ret]. apply runs_bind, runs_time. apply runs_upd_link. destruct H1 as (G1 & G2 & G3 & G4 & G5). split_and!; try done. intros B HB Ht. destruct (G5 B HB Ht). split; [|done]. cbn. specialize (HB (r_ticks r1)). lia. }
  cbn beta. intros _ r2 H. by apply runs_ret.
Qed.

(** Waiting for the first byte of a word. *)
Definition idle s : Prop := length (payload s) = 765%nat ∧ payload_start s = 0 ∧ payload_offset s = 0 ∧ payload_length s = 0.
Lemma round_idle r : payload_length (link r) = 0 → payload_offset (link r) < 6 → runs (decode_round gettime_ms) r (λ o r', o = Some tt ∧ r' = r).
Proof.
  intros H1 H2. unfold decode_round. apply runs_bind. change 766%nat with (S 765). cbn [find_header]. apply runs_bind, runs_link. rewrite (proj2 (Z.leb_gt 6 _)), andb_false_r by done. apply runs_ret.
  unfold decode_word. apply runs_bind, runs_link. rewrite H1. by apply runs_ret.
Qed.
Lemma round_short r : searching (link r) → payload_length (link r) = 0 → payload_offset (link r) < 17 →
  runs (decode_round gettime_ms) r (λ o r', o = Some tt ∧ waiting (link r') ∧ same_tx r r' ∧ received r' = received r ∧ aside (link r') = aside (link r)).
Proof.
  intros Hs H1 H2. unfold decode_round. apply runs_bind. eapply runs_mono; [apply find_header_runs; [done|destruct Hs; lia]|]. cbn beta. intros _ r1 (G1 & [G2 G2'] & G3 & [G4 G4'] & G5). unfold decode_word. apply runs_bind, runs_link.
  destruct (Z.eqb_spec (payload_length (link r1)) 0) as [E|E]; cbn [orb]; [apply runs_ret; split_and!; try done; split; [done|left; auto]|].
  destruct (se_length _ G1) as [?|Hn]; [done|]. rewrite (proj2 (Z.ltb_lt _ _)) by (destruct Hn; lia). apply runs_ret. split_and!; try done. split; [done|]. right. destruct Hn; lia.
Qed.

(** What reading the whole of a word leaves: the assembly [a], the packets [out]. *)
Record heard (a : assembly) (out : list (list Z)) (space : Z) r r' : Prop := {
  hd_assembly : assembling a (link r');
  hd_received : received r' = received r ++ out;
  hd_tx : same_tx r r';
  hd_space : remaining_space (link r') = space;
  hd_times : keeps_times r r';
}.

(** A state in which all of a word is there. *)
Lemma whole_begins w n s : word w n → partial w n (length w) s → begins w (length w) s ∧ payload_offset s = n ∧ payload_length s = n ∧ 17 ≤ n ≤ 255.
Proof.
  intros (Hw & Hn & _) []. assert (17 ≤ n ≤ 255) as H by (destruct Hn; lia). split_and!; try done; try lia; [split_and!; try done; lia|]. rewrite pt_length0, bool_decide_false; [done|lia].
Qed.

Lemma status_end w r a : word w 17 → status_of w = true → partial w 17 17 (link r) → assembling a (link r) →
  runs (decode_word gettime_ms) r (λ o r', o = None ∧ idle (link r') ∧ heard a [] (free_of w) r r').
Proof.
  intros Hword Hst Hp Ha. pose proof Hword as (Hw & _ & _). replace 17%nat with (length w) in Hp by lia. destruct (whole_begins _ _ _ Hword Hp) as (Hb & Ho & Hl & _). unfold decode_word. apply runs_bind, runs_link. rewrite Ho, Hl. cbn [Z.eqb Z.ltb Z.compare Pos.compare Pos.compare_cont orb].
  apply runs_bind. eapply runs_mono; [apply (heartbeat_word w _ _ Hb); lia|]. cbn beta. rewrite Hst. intros h r1 (-> & Hrx & Ht & Hrc & Hsp & Htm). injection Hrx as R1 R2 R3 R4 R5 R6 R7. pose proof (pt_start _ _ _ _ Hp) as Hs0.
  apply runs_bind, runs_link. apply runs_bind, runs_upd_link. rewrite R2, R4, R5, Ho, Hl, Hs0. change (17 - 17) with 0. apply runs_bind. unfold shuffle. apply runs_bind, runs_link.
  cbn [link set_link payload_offset set_range]. change (u32 0 =? 0) with true. apply runs_ret. apply runs_bind, runs_upd_link. apply runs_ret. split; [done|]. destruct Ha as [A1 [A2 A3]]. pose proof (pt_payload _ _ _ _ Hp).
  split; [split_and!; cbn; try done; congruence|]. split; try done; [|cbn; by rewrite app_nil_r].
  split; [cbn; congruence|]. split; [cbn; congruence|]. cbn. destruct a.2; [destruct A3 as (A3 & A4 & A5); split_and!|]; congruence || lia.
Qed.

Lemma assembling_bound a s : assembling a s → length (dst s) = 1200%nat ∧ 0 ≤ packet_length s ≤ MDP_MTU + 1.
Proof. intros [_ [H1 H2]]. split; [done|]. unfold MDP_MTU. destruct a.2; [destruct H2 as (-> & _ & H2)|]; lia. Qed.

(** A word that is not a report, and that [radio_link_parse] accepts. *)
Lemma found_end w n e a r (R : radio → Prop) : word w n → status_of w = false → partial w n (length w) (link r) → 0 ≤ e ≤ 16 →
  runs (radio_link_parse n) r (λ o r1, o = Some e ∧ place_of (link r1) = place_of (link r) ∧ length (payload (link r1)) = 765%nat ∧ assembling a (link r1) ∧ R r1) →
  runs (decode_word gettime_ms) r (λ o r', o = None ∧ ∃ r1 l, R r1 ∧ assembling a (link r1) ∧ length l = 765%nat ∧ r' = set_link (set_payload_length 0 (set_range 0 e (set_payload l (link r1)))) r1).
Proof.
  intros Hword Hst Hp He Hparse. destruct (whole_begins _ _ _ Hword Hp) as (Hb & Ho & Hl & Hn). pose proof (proj1 Hword) as Hw. unfold decode_word. apply runs_bind, runs_link. rewrite Ho, Hl, (proj2 (Z.eqb_neq n 0)), Z.ltb_irrefl by lia. cbn [orb].
  apply runs_bind. eapply runs_mono; [apply (heartbeat_word w _ _ Hb); lia|]. cbn beta. rewrite Hst. intros h r' [-> ->]. apply runs_bind. eapply runs_mono; [exact Hparse|]. cbn beta. intros o r1 (-> & Hpl & Hlen & Ha & HR). injection Hpl as P1 P2 P3.
  apply runs_bind. apply runs_bind, runs_link. apply runs_bind, runs_upd_link. pose proof (pt_start _ _ _ _ Hp) as Hs0. rewrite P1, P2, P3, Ho, Hl, Hs0. replace (n - (n - e)) with e by lia. rewrite Z.add_0_l. pose proof (assembling_bound _ _ Ha) as [Hd Hpk].
  destruct (range_small (link r1) 0 e) as [E1 E2]; [lia|lia|]. apply runs_bind. eapply runs_mono; [apply shuffle_runs; cbn [link set_link]; [|lia|lia|rewrite E2; lia|rewrite E2; lia]|].
  { split; rewrite ?E1, ?E2; try done; try lia. cbn. rewrite P1, Hl. right. apply Hword. }
  cbn beta. intros _ r2 (l & Hll & ->). apply runs_upd_link. apply runs_bind, runs_upd_link. apply runs_ret. split; [done|]. exists r1, l. split_and!; [done|done|done|]. cbn [link set_link]. unfold set_link. f_equal; try done. unfold set_payload_length, set_range, set_payload. cbn.
  change (u32 0) with 0. rewrite !(wrapu_small 32 e) by lia. done.
Qed.

(** A heartbeat request, and the block of a frame. *)
Lemma beat_parse w r : begins w 17 (link r) → (Golay.golay_decode (at_ w 14, at_ w 15, at_ w 16)).1 = 0x555 → runs (radio_link_parse 17) r (λ o r1, o = Some 0 ∧ r1 = r).
Proof.
  intros Hb Hg. unfold radio_link_parse. change (17 =? 17) with true. apply runs_bind, runs_link. destruct (three_word w 17 14 (link r) Hb ltac:(lia)) as (bs & Hbs & H3). destruct Hb as (H1 & _). rewrite H1.
  apply runs_bind. eapply runs_lift; [exact Hbs|]. rewrite H3, Hg. by apply runs_ret.
Qed.

Lemma frame_parse w n e block a r : begins w n (link r) → length w = n → (38 ≤ n)%nat → (n ≤ 255)%nat → rs_decode (drop 4 w) (259 - Z.of_nat n) = (e, block) → 0 ≤ e → assembling a (link r) →
  let res := reassemble a (at_ block 0) (take (n - 38) (drop 2 block)) in
  runs (radio_link_parse (Z.of_nat n)) r (λ o r1, o = Some e ∧ place_of (link r1) = place_of (link r) ∧ length (payload (link r1)) = 765%nat ∧ assembling res.1 (link r1) ∧
    received r1 = received r ++ res.2 ∧ same_tx r r1 ∧ budget (link r1) = budget (link r)).
Proof.
  intros Hb Hw H38 H255 Hrs He Ha. cbv zeta. pose proof Hb as (B1 & B2 & B3 & B4 & B5). unfold radio_link_parse. rewrite (proj2 (Z.eqb_neq _ 17)) by lia. cbv zeta. change (RADIO_USED_HEADER_LENGTH + FEC_LENGTH) with 36. apply runs_bind, runs_link.
  pose proof SIZE_MAX_pos as Hsz. unfold SIZE_MAX in Hsz. rewrite (wrapu_small size_bits (Z.of_nat n - 36)) by lia. rewrite pad_of by lia. rewrite (proj2 (Z.ltb_ge _ 0)), (proj2 (Z.ltb_ge 222 _)) by lia. cbn [orb].
  apply runs_bind. rewrite B1, Z.add_0_l. eapply runs_lift; [apply (slice_prefix _ w n); [done|lia|lia|lia|lia]|]. change (Z.to_nat 4) with 4%nat. rewrite (take_ge (drop 4 w)) by (rewrite length_drop; lia). rewrite Hrs. cbn [fst snd].
  assert (length block = (n - 4)%nat) as Hbl. { pose proof (rs_size (drop 4 w) (259 - Z.of_nat n)) as H. rewrite Hrs, length_drop in H. cbn in H. lia. }
  destruct (write_ret (payload (link r)) 4 block) as (l & Hl & Hll); [lia|lia|]. apply runs_bind. eapply runs_lift; [exact Hl|]. apply runs_bind, runs_upd_link. rewrite (proj2 (Z.eqb_neq e (-1))) by lia.
  set (w' := take 4 w ++ block). assert (length (take 4 w) = 4%nat) as H4 by (rewrite length_take; lia). assert (length w' = n) as Hw' by (unfold w'; rewrite length_app; lia).
  assert (take n l = take n w') as Htk.
  { revert Hl. unfold write_at. rewrite !(proj2 (Z.leb_le _ _)) by lia. intros [= <-]. change (Z.to_nat 4) with 4%nat. assert (take 4 (payload (link r)) = take 4 w) as ->.
    { rewrite <- (take_take_le (payload (link r)) n), <- (take_take_le w n) by lia. by rewrite B3. }
    rewrite app_assoc. fold w'. rewrite take_app_length' by done. by rewrite take_ge by lia. }
  apply runs_bind. eapply runs_mono; [apply (accept_word w' n a)|]. { split_and!; [done|cbn; lia|done|lia|lia]. } { done. } { done. } { done. }
  cbn beta zeta. intros _ r1 (G1 & G2 & G3 & G4). injection G3 as U1 U2 U3 U4 U5 U6 U7. apply runs_ret.
  assert (at_ w' 4 = at_ block 0) as Eb. { unfold w', at_. rewrite app_nth2 by lia. by rewrite H4. }
  assert (drop 6 w' = drop 2 block) as Ed. { unfold w'. rewrite drop_app_ge by lia. by rewrite H4. }
  rewrite Eb, Ed in G1, G2. split_and!; try done; [unfold place_of; cbn in *; congruence|rewrite U1; cbn; lia|unfold budget; cbn in *; congruence].
Qed.

(** A word that arrives while the receiver waits for one. *)
Lemma read_gives (Φ : outcome (unit * radio) → Prop) l1 l2 r : runs (read_stream gettime_ms l1) r (λ _ r', Φ (read_stream gettime_ms l2 r')) → Φ (read_stream gettime_ms (l1 ++ l2) r).
Proof.
  revert r. induction l1 as [|c l1 IH]; intros r H; cbn [app read_stream] in *; [by destruct H as (u & r' & [= <- <-] & H)|]. destruct H as (u & r' & E & H). revert E. unfold mbind, prog_bind. destruct (radio_link_decode gettime_ms c r) as [[v r1]| |] eqn:E1; try done. intros E.
  apply IH. by exists u, r'.
Qed.
Lemma read_app l1 l2 r (Q : unit → radio → Prop) : runs (read_stream gettime_ms l1) r (λ _ r', runs (read_stream gettime_ms l2) r' Q) → runs (read_stream gettime_ms (l1 ++ l2)) r Q.
Proof. apply (read_gives (λ o, ∃ a r', o = Ret (a, r') ∧ Q a r')). Qed.
Lemma word_runs w n r (Q : radio → Prop) : word w n → idle (link r) → length (dst (link r)) = 1200%nat →
  (∀ r2, partial w n (length w) (link r2) → same_rest r r2 → runs (decode_word gettime_ms) r2 (λ o r3, o = None ∧ runs (decode_round gettime_ms) r3 (λ o r4, o = Some tt ∧ Q r4))) →
  runs (read_stream gettime_ms w) r (λ _ r', Q r').
Proof.
  intros Hword (I1 & I2 & I3 & I4) Hd HQ. pose proof Hword as (Hw & Hn & _). assert (17 ≤ n ≤ 255) as Hn' by (destruct Hn; lia). destruct (length w) as [|m] eqn:Em; [lia|].
  destruct (lookup_lt_is_Some_2 w m) as [x Hx]; [lia|]. rewrite <- (take_drop m w). apply read_app.
  assert (partial w n 0 (link r)) as H0 by (split; done). pose proof (bytes_runs gettime_ms w n m 0 r Hword H0 ltac:(lia)) as Hbytes. rewrite drop_0 in Hbytes. eapply runs_mono; [exact Hbytes|]. cbn beta. intros _ r1 [Hp1 Hs1].
  rewrite (drop_S _ _ _ Hx), drop_ge by lia. cbn [read_stream]. apply runs_bind. cbn [Nat.add] in Hp1. apply (arrive gettime_ms w n m); [done|done|done|lia|]. intros r2 Hp2 Hs2. eapply runs_mono; [apply HQ; [done|by eapply same_rest_trans]|]. cbn beta.
  intros o r3 [-> H3]. eapply runs_mono; [exact H3|]. cbn beta. intros o r4 [-> H4]. by apply runs_ret.
Qed.

End Words.
End RadioLinkWords.
