(* ===== verification/RadioLinkStream.v ===== *)
(** * The line of frames

    The bytes of frames, heartbeat requests and status reports, and the packets that a
    receiver gets from a line of them. *)

From S2P Require Import Prelude Mem Prog Golay OverlayBuffer FdQueue RadioLink RadioLinkSafe RadioLinkRound RadioLinkWords.
Import Prog RadioLink RadioLinkSafe RadioLinkRound RadioLinkWords.

Module RadioLinkStream.

(** What a block that was not damaged decodes to. *)
Class FecClean (fec : Fec) : Prop := {
  rs_parity_size data : length (rs_parity data) = 32%nat;
  rs_clean data : (2 ≤ length data ≤ 223)%nat → rs_decode (data ++ rs_parity data) (223 - Z.of_nat (length data)) = (0, data ++ rs_parity data);
}.

(** ** Frames *)

Definition header_of (len : Z) : Z * Z * Z := (u8 len, Z.land len 0xF, 0).
Definition block_of {fec : Fec} (b4 : Z) (chunk : list Z) : list Z := (b4 :: MAVLINK_MSG_ID_DATASTREAM :: chunk) ++ rs_parity (b4 :: MAVLINK_MSG_ID_DATASTREAM :: chunk).
Definition frame_of {fec : Fec} (b4 : Z) (chunk : list Z) : list Z :=
  0xfe :: bytes3 (Golay.golay_encode (header_of (Z.of_nat (length chunk) + 30))) ++ block_of b4 chunk.
Definition heartbeat_bytes : list Z :=
  0xfe :: bytes3 (Golay.golay_encode (header_of 9)) ++ [0xf1; 0] ++ replicate 8 0 ++ bytes3 (Golay.golay_encode (0x55, 0x05, 0)).

(** The 12 bits of a length, and what they say. *)
Definition length_bits (len : Z) : Z := Z.land (Golay.pack3 (header_of len)) 0xFFF.
Lemma length_bits_ok len : 0 ≤ len < 256 → (length_bits len <? 0) || negb (Z.land (Z.shiftr (length_bits len) 8) 0xF =? Z.land (length_bits len) 0xF) = false ∧ Z.land (length_bits len) 0xFF = len.
Proof.
  intros Hl. assert (forallb (λ k, let b := length_bits (Z.of_nat k) in negb ((b <? 0) || negb (Z.land (Z.shiftr b 8) 0xF =? Z.land b 0xF)) && (Z.land b 0xFF =? Z.of_nat k)) (List.seq 0 256) = true) as H by (vm_compute; reflexivity).
  rewrite forallb_forall in H. specialize (H (Z.to_nat len)). rewrite Z2Nat.id in H by lia. cbv zeta in H. apply andb_true_iff in H as [H1 H2]; [|apply in_seq; lia]. split; [by apply negb_true_iff|by apply Z.eqb_eq].
Qed.

(** A header that was damaged in three bits or less. *)
Lemma length_damaged b0 len ps rest : 0 ≤ len < 256 → (length ps ≤ 3)%nat → Forall (λ p, 0 ≤ p < 24) ps → len + 8 = 17 ∨ 32 < len + 8 ≤ 255 →
  length_of (b0 :: bytes3 (Golay.corrupt (Golay.golay_encode (header_of len)) ps) ++ rest) = Some (len + 8).
Proof.
  intros Hl Hps1 Hps2 Hn. pose proof (Golay.golay_decode_flips (header_of len) ps Hps1 Hps2) as Hg. fold (length_bits len) in Hg. destruct (Golay.corrupt _ _) as [[c1 c2] c3]. unfold length_of. unfold at_. cbn [bytes3 app nth fst snd]. rewrite Hg.
  destruct (length_bits_ok len Hl) as [H1 H2]. rewrite H1, H2. cbv zeta. unfold RADIO_HEADER_LENGTH, RADIO_CRC_LENGTH, FEC_LENGTH, LINK_MTU. change (6 + 2) with 8.
  destruct (Z.eqb_spec (len + 8) 17); cbn [negb andb]; [done|]. rewrite (proj2 (Z.leb_gt _ _)), (proj2 (Z.ltb_ge _ _)) by lia. done.
Qed.

Lemma corrupt_nil d : Golay.corrupt (Golay.golay_encode d) [] = Golay.golay_encode d.
Proof. unfold Golay.corrupt. cbn [Golay.flips foldr]. rewrite Z.lxor_0_r. apply Golay.encode_unpack. Qed.
Lemma length_clean b0 len rest : 0 ≤ len < 256 → len + 8 = 17 ∨ 32 < len + 8 ≤ 255 → length_of (b0 :: bytes3 (Golay.golay_encode (header_of len)) ++ rest) = Some (len + 8).
Proof. intros Hl Hn. rewrite <- (corrupt_nil (header_of len)). apply length_damaged; [done|cbn; lia|constructor|done]. Qed.

(** Whatever the line contains. *)
Inductive item :=
  | Frame (b4 : Z) (chunk : list Z)
  | Request
  | Report (w : list Z).
Definition item_ok (i : item) : Prop :=
  match i with Frame b4 chunk => (length chunk ≤ 215)%nat | Request => True | Report w => length w = 17%nat ∧ status_of w = true end.
Definition item_bytes {fec : Fec} (i : item) : list Z := match i with Frame b4 chunk => frame_of b4 chunk | Request => heartbeat_bytes | Report w => w end.
Definition line {fec : Fec} (items : list item) : list Z := concat (item_bytes <$> items).
(** The assembly after an item, and the packets that it completes. *)
Definition hear (a : assembly) (i : item) : assembly * list (list Z) := match i with Frame b4 chunk => reassemble a b4 chunk | _ => (a, []) end.
Fixpoint hear_all (a : assembly) (items : list item) : assembly * list (list Z) :=
  match items with [] => (a, []) | i :: items => let r := hear a i in let r' := hear_all r.1 items in (r'.1, r.2 ++ r'.2) end.
(** The space of the radio: what it was when nothing is reported. *)
Definition space_after (space : Z) (i : item) : Z := match i with Report w => free_of w | _ => space end.

Section Stream.
Context {arch : Arch} {allocator : Allocator} {fec : Fec} `{!FecLaws fec, !FecClean fec}.
Variable gettime_ms : nat → Z.
Implicit Types r : radio.
Implicit Types s : radio_link_state.

Lemma rest_assembling a r r' : same_rest r r' → assembling a (link r) → assembling a (link r').
Proof. intros (_ & E1 & E2 & E3 & _) [H1 [H2 H3]]. split; [congruence|]. split; [congruence|]. destruct a.2; [|congruence]. rewrite E2, E3. done. Qed.
Lemma budget_times r r' : budget (link r') = budget (link r) → keeps_times gettime_ms r r'.
Proof. intros E B HB. unfold times. injection E as -> -> _. done. Qed.

(** A frame with a damaged header and a damaged block that can be corrected. *)
Lemma damaged_runs b0 ps block b4 chunk e a r : (length chunk ≤ 215)%nat → (length ps ≤ 3)%nat → Forall (λ p, 0 ≤ p < 24) ps → length block = (length chunk + 34)%nat →
  rs_decode block (221 - Z.of_nat (length chunk)) = (e, block_of b4 chunk) → 0 ≤ e ≤ 16 →
  let w := b0 :: bytes3 (Golay.corrupt (Golay.golay_encode (header_of (Z.of_nat (length chunk) + 30))) ps) ++ block in
  status_of w = false → idle (link r) → assembling a (link r) → let res := reassemble a b4 chunk in
  runs (read_stream gettime_ms w) r (λ _ r', waiting (link r') ∧ (e = 0 → idle (link r')) ∧ heard gettime_ms res.1 res.2 (remaining_space (link r)) r r').
Proof.
  intros Hc Hps1 Hps2 Hbl Hrs He w Hst Hidle Ha. cbv zeta. set (n := (length chunk + 38)%nat). assert (length w = n) as Hw by (unfold w; cbn; rewrite Hbl; lia).
  assert (word w (Z.of_nat n)) as Hword. { split_and!; [lia|right; lia|]. rewrite Hst. unfold w. rewrite length_damaged by (done || lia). f_equal. lia. }
  apply (word_runs gettime_ms w (Z.of_nat n)); [done|done|apply (assembling_bound a); done|]. intros r2 Hp2 Hs2. pose proof (rest_assembling _ _ _ Hs2 Ha) as Ha2. destruct (whole_begins _ _ _ Hword Hp2) as (Hb2 & _).
  assert (drop 4 w = block) as Hd by done. rewrite Hw in Hb2. pose proof (frame_parse w n e (block_of b4 chunk) a r2 Hb2 Hw ltac:(lia) ltac:(lia)) as Hparse. rewrite Hd in Hparse. replace (259 - Z.of_nat n) with (221 - Z.of_nat (length chunk)) in Hparse by lia.
  specialize (Hparse Hrs ltac:(lia) Ha2). cbv zeta in Hparse. change (at_ (block_of b4 chunk) 0) with b4 in Hparse. replace (take (n - 38) (drop 2 (block_of b4 chunk))) with chunk in Hparse.
  2: { change (drop 2 (block_of b4 chunk)) with (chunk ++ rs_parity (b4 :: MAVLINK_MSG_ID_DATASTREAM :: chunk)). rewrite take_app_length'; [done|lia]. }
  set (res := reassemble a b4 chunk) in *. eapply runs_mono; [apply (found_end gettime_ms w (Z.of_nat n) e res.1 r2 (λ r1, received r1 = received r2 ++ res.2 ∧ same_tx r2 r1 ∧ budget (link r1) = budget (link r2))); [done|done|done|lia|exact Hparse]|].
  cbn beta. intros o r3 (-> & r1 & l & (R1 & R2 & R3) & Ha1 & Hl & ->). split; [done|]. match goal with |- runs _ ?x _ => set (r3 := x) end.
  destruct Hs2 as (S1 & _ & _ & _ & S5 & S6). pose proof (assembling_bound _ _ Ha1) as [Hd1 Hp1]. destruct (range_small (set_payload l (link r1)) 0 e) as [E1 E2]; [lia|lia|].
  assert (payload_length (link r3) = 0) as L3 by done. assert (payload_offset (link r3) = e) as O3 by exact E2.
  assert (searching (link r3)) as Hs3. { assert (payload_start (link r3) = 0) as P3 by done. split; rewrite ?O3, ?P3; try done; lia. }
  assert (heard gettime_ms res.1 res.2 (remaining_space (link r)) r r3) as Hh.
  { split; [exact Ha1|change (received r3) with (received r1); congruence|eapply same_tx_trans; [exact S1|exact R2]|change (remaining_space (link r3)) with (remaining_space (link r1)); injection R3 as _ _ ->; by injection S6 as _ _ ->|].
    apply budget_times. change (budget (link r3)) with (budget (link r1)). congruence. }
  destruct (decide (e = 0)) as [->|Hne].
  - eapply runs_mono; [apply round_idle; [done|rewrite O3; lia]|]. cbn beta. intros o r4 [-> ->]. split_and!; try done. split; [done|]. left. rewrite O3. split; [done|lia].
  - eapply runs_mono; [apply round_short; [done|done|rewrite O3; lia]|]. cbn beta. intros o r4 (-> & G1 & G2 & G3 & G4). injection G4 as A1 A2 A3 A4 A5 A6 A7. split_and!; try done. destruct Hh as [K1 K2 K3 K4 K5]. split; [|by rewrite G3| |by rewrite A7|].
    + apply (rest_assembling _ r3); [|done]. split_and!; try done. unfold budget. by rewrite A5, A6, A7.
    + by eapply same_tx_trans.
    + intros B HB Ht. specialize (K5 B HB Ht). unfold times in *. by rewrite A5, A6.
Qed.

Lemma rest_heard a out space r r2 r' : same_rest r r2 → heard gettime_ms a out space r2 r' → heard gettime_ms a out space r r'.
Proof.
  intros (S1 & _ & _ & _ & S5 & S6) [H1 H2 H3 H4 H5]. split; [done|congruence|by eapply same_tx_trans|done|]. intros B HB Ht. apply (H5 B HB). by apply (budget_times r r2).
Qed.

Lemma item_runs i a r : item_ok i → idle (link r) → assembling a (link r) →
  runs (read_stream gettime_ms (item_bytes i)) r (λ _ r', idle (link r') ∧ heard gettime_ms (hear a i).1 (hear a i).2 (space_after (remaining_space (link r)) i) r r').
Proof.
  intros Hi Hidle Ha. pose proof (assembling_bound _ _ Ha) as [Hd _]. destruct i as [b4 chunk| |w]; cbn [item_bytes hear space_after item_ok] in *.
  - unfold frame_of. rewrite <- (corrupt_nil (header_of _)). set (data := b4 :: MAVLINK_MSG_ID_DATASTREAM :: chunk). eapply runs_mono; [apply (damaged_runs 0xfe [] (block_of b4 chunk) b4 chunk 0 a r)|].
    { done. } { cbn; lia. } { constructor. } { unfold block_of. rewrite length_app, rs_parity_size. cbn. lia. }
    { pose proof (rs_clean data) as H. cbn [length data] in H. replace (223 - Z.of_nat (S (S (length chunk)))) with (221 - Z.of_nat (length chunk)) in H by lia. apply H. lia. }
    { lia. } { rewrite corrupt_nil. unfold status_of. destruct (Golay.golay_encode _) as [[c1 c2] c3]. change (at_ _ 5) with 67. by rewrite !andb_false_r. } { done. } { done. }
    cbn beta zeta. intros _ r' (_ & H1 & H2). split; [by apply H1|done].
  - assert (length heartbeat_bytes = 17%nat) as Hl by done. assert (status_of heartbeat_bytes = false) as Hst by (vm_compute; reflexivity). assert (word heartbeat_bytes 17) as Hword. { split_and!; [done|by left|]. rewrite Hst. vm_compute. reflexivity. }
    apply (word_runs gettime_ms heartbeat_bytes 17); [done|done|done|]. rewrite Hl. intros r2 Hp2 Hs2. pose proof (rest_assembling _ _ _ Hs2 Ha) as Ha2. assert (begins heartbeat_bytes 17 (link r2)) as Hb2 by (rewrite <- Hl in Hp2; destruct (whole_begins _ _ _ Hword Hp2) as (Hb & _); by rewrite Hl in Hb).
    eapply runs_mono; [apply (found_end gettime_ms heartbeat_bytes 17 0 a r2 (λ r1, r1 = r2)); [done|done|done|lia|]|].
    { eapply runs_mono; [apply (beat_parse heartbeat_bytes); [done|vm_compute; reflexivity]|]. cbn beta. intros o r1 [-> ->]. split_and!; [reflexivity|reflexivity|exact (pt_payload _ _ _ _ Hp2)|exact Ha2|reflexivity]. }
    cbn beta. intros o r3 (-> & r1 & l & -> & Ha1 & Hl1 & ->). clear Hword Hst Hb2 Hp2 Hl. split; [done|]. eapply runs_mono; [apply round_idle; [reflexivity|change (0 < 6); lia]|]. cbn beta. intros o r4 [-> ->]. split; [done|]. split; [by split_and!|]. apply (rest_heard _ _ _ r r2); [done|].
    split; [done|by rewrite app_nil_r|done|cbn; by destruct Hs2 as (_ & _ & _ & _ & _ & [= _ _ ->])|by apply budget_times].
  - destruct Hi as [Hl Hst]. assert (word w 17) as Hword by (split_and!; [by rewrite Hl|by left|by rewrite Hst]). apply (word_runs gettime_ms w 17); [done|done|done|]. rewrite Hl. intros r2 Hp2 Hs2. pose proof (rest_assembling _ _ _ Hs2 Ha) as Ha2.
    eapply runs_mono; [by apply (status_end gettime_ms w r2 a)|]. cbn beta. intros o r3 (-> & Hidle3 & Hh). split; [done|]. eapply runs_mono; [apply round_idle; [apply Hidle3|destruct Hidle3 as (_ & _ & -> & _); lia]|]. cbn beta. intros o r4 [-> ->].
    split; [done|]. split; [done|]. by apply (rest_heard _ _ _ r r2).
Qed.

(** A line of such items. *)
Lemma line_runs items : ∀ a r, Forall item_ok items → idle (link r) → assembling a (link r) → let res := hear_all a items in
  runs (read_stream gettime_ms (line items)) r (λ _ r', idle (link r') ∧ heard gettime_ms res.1 res.2 (foldl space_after (remaining_space (link r)) items) r r').
Proof.
  induction items as [|i items IH]; intros a r Hok Hidle Ha; cbv zeta.
  { apply runs_ret. split; [done|]. split; [done|by rewrite app_nil_r|done|done|by apply budget_times]. }
  inversion_clear Hok as [|? ? Hi Hitems]. unfold line. cbn [fmap list_fmap concat]. apply read_app. eapply runs_mono; [by apply (item_runs i a r)|]. cbn beta. intros _ r1 [H1 H2]. eapply runs_mono; [apply (IH (hear a i).1 r1 Hitems H1); apply H2|]. cbn beta zeta. intros _ r2 [G1 G2].
  split; [done|]. destruct H2 as [K1 K2 K3 K4 K5], G2 as [L1 L2 L3 L4 L5]. cbn [hear_all foldl fst snd]. split; [done|rewrite L2, K2; by rewrite app_assoc|by eapply same_tx_trans|by rewrite L4, K4|]. intros B HB Ht. apply (L5 B HB), (K5 B HB Ht).
Qed.

Lemma init_idle : idle radio_link_init ∧ assembling (0, Some []) radio_link_init.
Proof. split; [split_and!; try done; cbn; by rewrite ?length_replicate|]. split; [done|]. split; [cbn; by rewrite ?length_replicate|split_and!; [done|done|cbn; lia]]. Qed.

End Stream.
End RadioLinkStream.
