(* ===== verification/RadioLinkTx.v ===== *)
(** * What the packet radio sends

    The bytes that are written to the line, with those that wait in the buffer, are a
    line of frames and heartbeat requests, and the frames say the packets that were
    queued. *)

From S2P Require Import Prelude Mem Prog Golay OverlayBuffer OverlayBufferCodec FdQueue FdQueueSpec FdQueuePoll OverlayQueue OverlayQueueTimer FdQueueClient RadioLink RadioLinkSafe RadioLinkRound RadioLinkWords RadioLinkStream.
Import Prog RadioLink RadioLinkSafe RadioLinkRound RadioLinkWords RadioLinkStream FdQueueClient.

Module RadioLinkTx.

(** ** Flags *)

Definition flags (n : Z) (startP endP : bool) : Z :=
  let b4 := Z.land n 0x3f in
  let b4 := if startP then Z.lor b4 0x40 else b4 in
  if endP then Z.lor b4 0x80 else b4.

Lemma land_63 n : 0 ≤ Z.land n 0x3f < 64.
Proof. change 0x3f with (Z.ones 6). rewrite Z.land_ones by lia. apply Z.mod_pos_bound. lia. Qed.
Lemma flags_ok n startP endP : Z.land (flags n startP endP) 0x3f = Z.land n 0x3f ∧ negb (Z.land (flags n startP endP) 0x40 =? 0) = startP ∧ negb (Z.land (flags n startP endP) 0x80 =? 0) = endP.
Proof.
  unfold flags. cbv zeta. pose proof (land_63 n) as Hk. set (k := Z.land n 0x3f) in *. clearbody k.
  assert (forallb (λ j, let k := Z.of_nat j in let b := (let b4 := if startP then Z.lor k 0x40 else k in if endP then Z.lor b4 0x80 else b4) in
    (Z.land b 0x3f =? k) && Bool.eqb (negb (Z.land b 0x40 =? 0)) startP && Bool.eqb (negb (Z.land b 0x80 =? 0)) endP) (List.seq 0 64) = true) as H by (destruct startP, endP; vm_compute; reflexivity).
  rewrite forallb_forall in H. specialize (H (Z.to_nat k) ltac:(apply in_seq; lia)). cbv zeta in H. rewrite Z2Nat.id in H by lia. apply andb_true_iff in H as [[H1 H2]%andb_true_iff H3]. split_and!; [by apply Z.eqb_eq|by apply Bool.eqb_prop|by apply Bool.eqb_prop].
Qed.
Lemma next_seq n : Z.land n 0x3f = Z.land (Z.land (n - 1) 0x3f + 1) 0x3f.
Proof. change 0x3f with (Z.ones 6). rewrite !Z.land_ones by lia. rewrite Zplus_mod_idemp_l. f_equal. lia. Qed.

(** The next part of a packet, for a receiver that has the parts before it. *)
Lemma reassemble_next a n x chunk endP : (x ≠ [] → a = (Z.land (n - 1) 0x3f, Some x)) → (length (x ++ chunk) ≤ 1200)%nat →
  reassemble a (flags n (bool_decide (x = [])) endP) chunk = if endP then ((Z.land n 0x3f, None), [x ++ chunk]) else ((Z.land n 0x3f, Some (x ++ chunk)), []).
Proof.
  intros Ha Hl. unfold reassemble. destruct (flags_ok n (bool_decide (x = [])) endP) as (H1 & H2 & H3). rewrite H1, H2, H3. cbv zeta.
  assert ((if bool_decide (x = []) then Some [] else if Z.land n 0x3f =? Z.land (a.1 + 1) 0x3f then a.2 else None) = Some x) as ->.
  { case_bool_decide as Hx; [by rewrite Hx|]. rewrite (Ha Hx). cbn [fst snd]. by rewrite <- next_seq, Z.eqb_refl. }
  rewrite bool_decide_false by lia. done.
Qed.

Lemma hear_snoc a items i : hear_all a (items ++ [i]) = ((hear (hear_all a items).1 i).1, (hear_all a items).2 ++ (hear (hear_all a items).1 i).2).
Proof.
  revert a. induction items as [|j items IH]; intros a; cbn [hear_all app fst snd]; [by rewrite app_nil_r|]. rewrite IH. cbn [fst snd]. by rewrite app_assoc.
Qed.

Lemma overwrite (l p old bs q : list Z) n : take n l = p ++ old ++ q → length bs = length old → (n ≤ length l)%nat → n = length (p ++ old ++ q) →
  ∃ l', write_at l (Z.of_nat (length p)) bs = Ret l' ∧ length l' = length l ∧ take n l' = p ++ bs ++ q.
Proof.
  intros E Hb Hn Hn2. assert (l = (p ++ old ++ q) ++ drop n l) as El by (rewrite <- E; by rewrite take_drop). rewrite !length_app in Hn2. unfold write_at. rewrite !(proj2 (Z.leb_le _ _)) by lia. eexists. split; [reflexivity|]. rewrite Nat2Z.id.
  assert (take (length p) l = p) as ->. { rewrite El, <- app_assoc. by apply take_app_length. }
  assert (drop (length p + length bs) l = q ++ drop n l) as ->. { rewrite El at 1. replace ((p ++ old ++ q) ++ drop n l) with ((p ++ old) ++ q ++ drop n l) by (by rewrite <- !app_assoc). apply drop_app_length'. rewrite length_app. lia. }
  split; [rewrite !length_app, length_drop; lia|]. replace (p ++ bs ++ q ++ drop n l) with ((p ++ bs ++ q) ++ drop n l) by (by rewrite <- !app_assoc). apply take_app_length'. rewrite !length_app. lia.
Qed.

Lemma set_tx_twice l l' s : set_txbuffer l' (set_txbuffer l s) = set_txbuffer l' s.
Proof. done. Qed.

Section Tx.
Context {arch : Arch} {allocator : Allocator} {fec : Fec} `{!FecLaws fec, !FecClean fec}.
Implicit Types r : radio.
Implicit Types s : radio_link_state.

(** ** Building frames *)

(** The buffer begins with the bytes [p]. *)
Definition built (p : list Z) r : Prop := length (txbuffer (link r)) = 255%nat ∧ (length p ≤ 255)%nat ∧ take (length p) (txbuffer (link r)) = p.
(** Only the buffer is different. *)
Definition wrote r r' : Prop := ∃ l, r' = set_link (set_txbuffer l (link r)) r.
Lemma wrote_trans r1 r2 r3 : wrote r1 r2 → wrote r2 r3 → wrote r1 r3.
Proof. intros [l ->] [l' ->]. by exists l'. Qed.

Lemma put_runs p bs r (i : Z) : built p r → i = Z.of_nat (length p) → (length p + length bs ≤ 255)%nat → runs (put_tx i bs) r (λ _ r', built (p ++ bs) r' ∧ wrote r r').
Proof.
  intros (H1 & H2 & H3) -> Hl. unfold put_tx. apply runs_bind, runs_on. destruct (write_take (txbuffer (link r)) p bs H3 ltac:(lia)) as (l & Hw & Hl' & Ht). apply runs_bind. eapply runs_lift; [exact Hw|]. apply runs_upd_link.
  split; [|by exists l]. split_and!; [cbn; lia|rewrite length_app; lia|exact Ht].
Qed.
Lemma over_runs p old bs q r (i : Z) : built (p ++ old ++ q) r → i = Z.of_nat (length p) → length bs = length old → runs (put_tx i bs) r (λ _ r', built (p ++ bs ++ q) r' ∧ wrote r r').
Proof.
  intros (H1 & H2 & H3) -> Hl. unfold put_tx. apply runs_bind, runs_on. destruct (overwrite (txbuffer (link r)) p old bs q _ H3 Hl ltac:(lia) eq_refl) as (l & Hw & Hl' & Ht). apply runs_bind. eapply runs_lift; [exact Hw|]. apply runs_upd_link.
  split; [|by exists l]. rewrite !length_app in *. split_and!; [cbn; lia|rewrite !length_app; lia|]. cbn. rewrite !length_app, Hl. exact Ht.
Qed.
Lemma built_slice p bs q r (i n : Z) : built (p ++ bs ++ q) r → i = Z.of_nat (length p) → n = Z.of_nat (length bs) → slice (txbuffer (link r)) i n = Ret bs.
Proof.
  intros (H1 & H2 & H3) -> ->. rewrite (slice_prefix _ (p ++ bs ++ q) (length (p ++ bs ++ q))); [|by rewrite H3, take_ge|lia|lia|lia|rewrite !length_app; lia].
  rewrite !Nat2Z.id, drop_app_length, take_app_length. done.
Qed.
Lemma golay_runs p a b c q r (i : Z) : built (p ++ [a; b; c] ++ q) r → i = Z.of_nat (length p) → runs (golay_tx i) r (λ _ r', built (p ++ bytes3 (Golay.golay_encode (a, b, c)) ++ q) r' ∧ wrote r r').
Proof. intros Hb ->. unfold golay_tx. apply runs_bind, runs_on. apply runs_bind. eapply runs_lift; [by eapply built_slice|]. by apply (over_runs p [a; b; c]). Qed.

Lemma built_range v w p r : built p r → built p (set_link (set_tx_range v w (link r)) r).
Proof. done. Qed.

Lemma build_heartbeat_runs r : length (txbuffer (link r)) = 255%nat →
  runs build_heartbeat r (λ _ r', built heartbeat_bytes r' ∧ ∃ r1, wrote r r1 ∧ r' = set_link (set_tx_range (tx_pos (link r)) 17 (link r1)) r1).
Proof.
  intros Hl. unfold build_heartbeat. assert (built [] r) as H0 by (split_and!; [done|cbn; lia|done]).
  apply runs_bind. eapply runs_mono; [apply (put_runs [] (replicate 17 0) r 0 H0); [done|cbn; lia]|]. cbn beta. intros _ r1 [H1 W1]. change ([] ++ replicate 17 0) with ([] ++ [0; 0; 0; 0] ++ replicate 13 0) in H1.
  apply runs_bind. eapply runs_mono; [apply (over_runs [] _ [0xfe; 9; Z.land 9 0xF; 0] _ _ 0 H1); done|]. cbn beta. intros _ r2 [H2 W2]. change ([] ++ [0xfe; 9; Z.land 9 0xF; 0] ++ replicate 13 0) with ([0xfe] ++ [9; 9; 0] ++ replicate 13 0) in H2.
  apply runs_bind. eapply runs_mono; [apply (golay_runs _ _ _ _ _ _ 1 H2); done|]. cbn beta. intros _ r3 [H3 W3]. change (9, 9, 0) with (header_of 9) in H3. set (h := bytes3 (Golay.golay_encode (header_of 9))) in H3.
  replace ([0xfe] ++ h ++ replicate 13 0) with (([0xfe] ++ h) ++ [0; 0] ++ replicate 11 0) in H3 by (by rewrite <- app_assoc).
  apply runs_bind. eapply runs_mono; [apply (over_runs _ _ [0xf1; 0] _ _ 4 H3); done|]. cbn beta. intros _ r4 [H4 W4].
  replace (([0xfe] ++ h) ++ [0xf1; 0] ++ replicate 11 0) with (([0xfe] ++ h ++ [0xf1; 0] ++ replicate 8 0) ++ [0; 0] ++ [0]) in H4 by (rewrite <- !app_assoc; done).
  apply runs_bind. eapply runs_mono; [apply (over_runs _ _ [0x55; 0x05] _ _ 14 H4); done|]. cbn beta. intros _ r5 [H5 W5].
  apply runs_bind. eapply runs_mono; [apply (golay_runs _ 0x55 0x05 0 [] _ 14 H5); done|]. cbn beta. intros _ r6 [H6 W6]. apply runs_upd_link.
  assert (wrote r r6) as W by (do 5 (eapply wrote_trans; [eassumption|]); done). split.
  - apply built_range. revert H6. rewrite app_nil_r. unfold heartbeat_bytes. fold h. by rewrite <- !app_assoc.
  - exists r6. split; [done|]. destruct W as [l ->]. done.
Qed.

(** ** The scheduler *)

Variables (interface next_packet send_alarm : nat).
Hypothesis entries : next_packet ≠ interface.

(** The alarm of the interface is off, and at most [C] is asked for. *)
Record tx_off (C : Z) r : Prop := {
  to_inv : FdQueuePoll.sched_inv (r_sched r);
  to_timer : OverlayQueueTimer.timer_ok next_packet (r_sched r);
  to_entry : ∃ e, ready interface (r_sched r) e ∧ FdQueue._scheduled e = false ∧ 0 ≤ FdQueue.alarm e ≤ C;
}.

Lemma own_timer q q' : others interface q q' → FdQueuePoll.sched_inv q' → OverlayQueueTimer.timer_ok next_packet q → OverlayQueueTimer.timer_ok next_packet q'.
Proof. intros Ho Hi. apply (timer_others next_packet interface); [done|done|apply Hi]. Qed.

Lemma runs_sched g q r (Q : unit → radio → Prop) : g (r_sched r) = Ret q → Q tt (set_sched q r) → runs (sched g) r Q.
Proof. intros Hg HQ. exists tt, (set_sched q r). split; [|done]. unfold sched. by rewrite Hg. Qed.

Lemma set_alarm_runs C t r : tx_off C r → 0 ≤ t ≤ C → runs (set_alarm interface t) r (λ _ r', ∃ q, r' = set_sched q r ∧ tx_off C r').
Proof.
  intros [H1 H2 (e & He & Hs & Ha)] Ht. destruct (request_client interface (r_sched r) e (λ _, t) FdQueue.deadline H1 He Hs) as (q & Hq & Hi & Hr & Ho). eapply runs_sched; [exact Hq|]. exists q. split; [done|]. split; [done|by apply (own_timer (r_sched r))|]. eexists. split_and!; [exact Hr|done|apply Ht|apply Ht].
Qed.
Lemma set_events_runs C g r : tx_off C r → (∀ e, Z.testbit e 0 = true → Z.testbit (g e) 0 = true) → runs (set_events interface g) r (λ _ r', ∃ q, r' = set_sched q r ∧ tx_off C r').
Proof.
  intros [H1 H2 (e & He & Hs & Ha)] Hg. destruct (events_client interface (r_sched r) e g H1 He Hs) as (q & Hq & Hi & Hr & Ho); [apply Hg, He|]. eapply runs_sched; [exact Hq|]. exists q. split; [done|]. split; [done|by apply (own_timer (r_sched r))|]. eexists. split_and!; [exact Hr|done|apply Ha|apply Ha].
Qed.
Lemma get_alarm_runs C r : tx_off C r → runs (get_alarm interface) r (λ a r', r' = r ∧ ∃ e, ready interface (r_sched r) e ∧ FdQueue._scheduled e = false ∧ FdQueue.alarm e = a).
Proof.
  intros [_ _ (e & He & Hs & _)]. unfold get_alarm. apply runs_bind, runs_ask. apply runs_bind. eapply runs_lift; [apply (FdQueueSpec.ent_spec _ _ e), He|]. apply runs_ret. split; [done|]. by exists e.
Qed.
Lemma next_packet_runs C t r : tx_off C r → 0 ≤ t → t + 15 ≤ FdQueue.TIME_MS_NEVER_WILL → runs (sched (OverlayQueue.schedule_next_packet next_packet send_alarm t)) r (λ _ r', ∃ q, r' = set_sched q r ∧ tx_off C r').
Proof.
  intros [H1 H2 (e & He & Hs & Ha)] Ht1 Ht2. destruct (next_packet_inv next_packet send_alarm t _ H1 H2 Ht1 Ht2) as (q & Hq & Hi & Hok & Ho). eapply runs_sched; [exact Hq|]. exists q. split; [done|]. split; [done|done|].
  destruct (ready_others _ _ _ _ e Ho entries He) as (e' & He' & E). unfold request in E. injection E as E1 E2 E3 E4 E5 E6. exists e'. rewrite E4, E5. by split_and!; [| |apply Ha..].
Qed.

(** ** Packets *)

Variable gettime_ms : nat → Z.
Variable B : Z.
Hypothesis clock : ∀ n, 0 ≤ gettime_ms n ≤ B.
Hypothesis clock_max : B + 2000 ≤ FdQueue.TIME_MS_NEVER_WILL.

(** What is still to be written. *)
Definition pending s : list Z := take (Z.to_nat (tx_bytes s)) (drop (Z.to_nat (tx_pos s)) (txbuffer s)).

(** The items on the line, and the packets that were queued. *)
Record sends (items : list item) (queued : list (list Z)) r : Prop := {
  sn_buffer : length (txbuffer (link r)) = 255%nat;
  sn_pos : 0 ≤ tx_pos (link r);
  sn_bytes : 0 ≤ tx_bytes (link r);
  sn_end : tx_pos (link r) + tx_bytes (link r) ≤ 255;
  sn_empty : tx_bytes (link r) = 0 → tx_pos (link r) = 0;
  sn_line : wire r ++ pending (link r) = line items;
  sn_ok : Forall item_ok items;
  sn_seq : 0 ≤ tx_seq (link r);
  sn_packet : match tx_packet (link r) with
    | None => ∀ a, (hear_all a items).2 = queued
    | Some b => ∃ prev x y, queued = prev ++ [x ++ y] ∧ OBCodec.reading (r_mem r) b (x ++ y) (length x) ∧ (length (x ++ y) ≤ 1200)%nat ∧ y ≠ [] ∧
        ∀ a, (hear_all a items).2 = prev ∧ (x ≠ [] → (hear_all a items).1 = (Z.land (tx_seq (link r) - 1) 0x3f, Some x))
    end;
}.

(** The receiving side of the state, and the times of the interface. *)
Definition same_rx r r' : Prop := rx_side (link r') = rx_side (link r) ∧ received r' = received r ∧ last_tx r' = last_tx r ∧ (tick_ms r', next_tx_allowed (link r')) = (tick_ms r, next_tx_allowed (link r)).
Lemma same_rx_trans r1 r2 r3 : same_rx r1 r2 → same_rx r2 r3 → same_rx r1 r3.
Proof. intros (H1 & H2 & H3 & H4) (G1 & G2 & G3 & G4). split_and!; congruence. Qed.

Lemma line_snoc items i : line (items ++ [i]) = line items ++ item_bytes i.
Proof. unfold line. rewrite fmap_app, concat_app. cbn. by rewrite app_nil_r. Qed.

Lemma free_reading m b w k : OBCodec.reading m b w k → ∃ m', OB.ob_free m b = Ret m'.
Proof.
  intros [Hi _ _ _ _]. unfold OB.ob_free. destruct (OB.allocated b) as [q|] eqn:E; [|by eexists]. destruct (OB.inv_own _ _ Hi q E) as [Hb H0]. pose proof (OB.inv_live _ _ Hi) as Hl. rewrite Hb in Hl. destruct Hl as (l & Hm & _).
  unfold free. rewrite H0, Hm. by eexists.
Qed.

Lemma reading_remaining m b x y : OBCodec.reading m b (x ++ y) (length x) → (length (x ++ y) ≤ 1200)%nat → OB.ob_remaining b = Ret (Z.of_nat (length y)).
Proof.
  intros [Hi Hlim Hpos _ _] Hl. pose proof SIZE_MAX_pos. unfold OB.ob_remaining. rewrite Hlim, Hpos. rewrite length_app in *. rewrite (proj2 (Z.eqb_neq _ _)), (proj2 (Z.leb_le _ _)) by lia. cbn. f_equal. lia.
Qed.

(** The header of a frame. *)
Lemma frame_header_runs count startP endP n r (len := count + FEC_LENGTH - RADIO_CRC_LENGTH) : length (txbuffer (link r)) = 255%nat → tx_seq (link r) = n → n < 2 ^ 31 - 1 →
  runs (frame_header count startP endP) r (λ _ r', built (0xfe :: bytes3 (Golay.golay_encode (header_of len)) ++ [flags n startP endP; MAVLINK_MSG_ID_DATASTREAM]) r' ∧ ∃ l, r' = set_link (set_tx_seq (n + 1) (set_txbuffer l (link r))) r).
Proof.
  intros Hl Hn Hmax. unfold frame_header. fold len. assert (built [] r) as H0 by (split_and!; [done|cbn; lia|done]).
  apply runs_bind. eapply runs_mono; [apply (put_runs [] [0xfe] r 0 H0); [done|cbn; lia]|]. cbn beta. intros _ r1 [H1 W1].
  apply runs_bind. eapply runs_mono; [apply (put_runs _ [u8 len; Z.land len 0xF; 0] _ 1 H1); [done|cbn; lia]|]. cbn beta. intros _ r2 [H2 W2].
  apply runs_bind. change (([] ++ [0xfe]) ++ [u8 len; Z.land len 0xF; 0]) with ([0xfe] ++ [u8 len; Z.land len 0xF; 0] ++ []) in H2. eapply runs_mono; [apply (golay_runs _ _ _ _ _ _ 1 H2); done|]. cbn beta. fold (header_of len). intros _ r3 [H3 W3].
  assert (wrote r r3) as [l3 W] by (do 2 (eapply wrote_trans; [eassumption|]); done). assert (tx_seq (link r3) = n) as Hn3 by (by rewrite W). unfold next_tx_seq. apply runs_bind. apply runs_bind, runs_on. rewrite Hn3, (proj2 (Z.eqb_neq n _)) by lia.
  apply runs_bind, runs_upd_link. apply runs_ret. cbv zeta. set (h := bytes3 (Golay.golay_encode (header_of len))) in *. match goal with |- runs _ ?x _ => set (r4 := x) end. assert (built ([0xfe] ++ h ++ []) r4) as H4 by done.
  fold (flags n startP endP). eapply runs_mono; [apply (put_runs _ [flags n startP endP; MAVLINK_MSG_ID_DATASTREAM] _ 4 H4); [done|cbn; lia]|]. cbn beta. intros _ r5 [H5 [l5 W5]]. split; [by rewrite app_nil_r, <- app_assoc in H5|].
  exists l5. rewrite W5. unfold r4. by rewrite W.
Qed.

(** The frame is complete: the data and the parity follow the header. *)
Lemma frame_complete b4 chunk r (k : prog radio unit) (Q : unit → radio → Prop) : (length chunk ≤ 215)%nat → built (0xfe :: bytes3 (Golay.golay_encode (header_of (Z.of_nat (length chunk) + 30))) ++ [b4; MAVLINK_MSG_ID_DATASTREAM]) r →
  (∀ r', built (frame_of b4 chunk) r' → wrote r r' → runs k r' Q) →
  runs (put_tx 6 chunk;; l ← on_link txbuffer; data ← lift (slice l 4 (Z.of_nat (length chunk) + 2)); put_tx (6 + Z.of_nat (length chunk)) (rs_parity data);; k) r Q.
Proof.
  intros Hc Hb HQ. set (h := bytes3 (Golay.golay_encode (header_of (Z.of_nat (length chunk) + 30)))) in *. apply runs_bind. eapply runs_mono; [apply (put_runs _ chunk _ 6 Hb); [done|cbn; lia]|]. cbn beta. intros _ r1 [H1 W1].
  change ((0xfe :: h ++ [b4; MAVLINK_MSG_ID_DATASTREAM]) ++ chunk) with ((0xfe :: h) ++ (b4 :: MAVLINK_MSG_ID_DATASTREAM :: chunk)) in H1. set (data := b4 :: MAVLINK_MSG_ID_DATASTREAM :: chunk) in *.
  apply runs_bind, runs_on. apply runs_bind. eapply runs_lift; [apply (built_slice (0xfe :: h) data []); [by rewrite app_nil_r|done|cbn; lia]|].
  apply runs_bind. eapply runs_mono; [apply (put_runs _ (rs_parity data) _ _ H1); [rewrite length_app; cbn; lia|rewrite length_app, rs_parity_size; cbn; lia]|]. cbn beta. intros _ r2 [H2 W2]. apply HQ; [|by eapply wrote_trans]. unfold frame_of, block_of. fold h data. by rewrite <- app_assoc in H2.
Qed.

(** The packets that the next frame says. *)
Lemma frame_heard items prev x y n : (∀ a, (hear_all a items).2 = prev ∧ (x ≠ [] → (hear_all a items).1 = (Z.land (n - 1) 0x3f, Some x))) → (length (x ++ y) ≤ 1200)%nat → ∀ a endP (chunk := take 215 y),
  hear_all a (items ++ [Frame (flags n (bool_decide (x = [])) endP) chunk]) = if endP then ((Z.land n 0x3f, None), prev ++ [x ++ chunk]) else ((Z.land n 0x3f, Some (x ++ chunk)), prev).
Proof.
  intros Hh Hl a endP chunk. destruct (Hh a) as [H1 H2]. rewrite hear_snoc, H1. cbn [hear]. rewrite reassemble_next; [|done|unfold chunk; rewrite length_app in *; rewrite length_take; lia]. destruct endP; cbn; [done|by rewrite app_nil_r].
Qed.

(** The state of the packet that is sent. *)
Definition packet_state (items : list item) (queued : list (list Z)) r : Prop :=
  match tx_packet (link r) with
  | None => ∀ a, (hear_all a items).2 = queued
  | Some b => ∃ prev x y, queued = prev ++ [x ++ y] ∧ OBCodec.reading (r_mem r) b (x ++ y) (length x) ∧ (length (x ++ y) ≤ 1200)%nat ∧ y ≠ [] ∧
      ∀ a, (hear_all a items).2 = prev ∧ (x ≠ [] → (hear_all a items).1 = (Z.land (tx_seq (link r) - 1) 0x3f, Some x))
  end.
Lemma sends_next items queued i r r' : sends items queued r → tx_bytes (link r) = 0 → item_ok i → wire r' = wire r → built (item_bytes i) r' → tx_pos (link r') = tx_pos (link r) → tx_bytes (link r') = Z.of_nat (length (item_bytes i)) →
  0 ≤ tx_seq (link r') → packet_state (items ++ [i]) queued r' → sends (items ++ [i]) queued r'.
Proof.
  intros Hs H0 Hi Hw (Hb1 & Hb2 & Hb3) Hpos Hbytes Hseq Hp. pose proof (sn_empty _ _ _ Hs H0) as Hp0. split; try done; try lia.
  - rewrite line_snoc, Hw, <- (sn_line _ _ _ Hs). unfold pending. rewrite H0, Hpos, Hp0, Hbytes, Nat2Z.id. change (Z.to_nat 0) with 0%nat. rewrite take_0, drop_0, app_nil_r. by rewrite Hb3.
  - apply Forall_app. split; [apply Hs|by constructor].
Qed.

Lemma encode_runs C items queued b r : sends items queued r → tx_bytes (link r) = 0 → tx_packet (link r) = Some b → tx_seq (link r) < 2 ^ 31 - 1 → tx_off C r →
  runs (radio_link_encode_packet gettime_ms next_packet send_alarm) r (λ _ r', ∃ i, sends (items ++ [i]) queued r' ∧ tx_off C r' ∧ tx_seq (link r') = tx_seq (link r) + 1 ∧ 39 ≤ tx_bytes (link r') ≤ 253 ∧ budget (link r') = budget (link r) ∧ same_rx r r').
Proof.
  intros Hs H0 Hb Hmax Hoff. pose proof (sn_packet _ _ _ Hs) as Hp. rewrite Hb in Hp. destruct Hp as (prev & x & y & Hq & Hr & Hl & Hy & Hh). unfold radio_link_encode_packet. apply runs_bind, runs_on. rewrite Hb.
  apply runs_bind. eapply runs_lift; [by apply (reading_remaining (r_mem r) b x y)|]. cbv zeta. pose proof Hl as Hl'. rewrite length_app in Hl'. rewrite wraps_small by lia. change LINK_PAYLOAD_MTU with 215.
  set (chunk := take 215 y). set (rest := drop 215 y). set (endP := negb (215 <? Z.of_nat (length y))). assert (x ++ y = x ++ chunk ++ rest) as Exy by (unfold chunk, rest; by rewrite take_drop).
  assert (chunk ≠ []) as Hchunk by (unfold chunk; by destruct y). assert (1 ≤ length chunk)%nat as Hc1 by (destruct chunk; [done|cbn; lia]). assert (length chunk ≤ 215)%nat as Hc by (unfold chunk; rewrite length_take; lia).
  assert ((if endP then Z.of_nat (length y) else 215) = Z.of_nat (length chunk) ∧ (if endP then rest = [] else rest ≠ [])) as [-> Hend].
  { unfold endP, chunk, rest. rewrite length_take. destruct (Z.ltb_spec 215 (Z.of_nat (length y))); cbn [negb]; (split; [lia|]); [|apply drop_ge; lia]. intros E. apply (f_equal length) in E. rewrite length_drop in E. cbn in E. lia. }
  assert ((OB.ob_position b =? 0) = bool_decide (x = [])) as ->. { unfold OB.ob_position. rewrite (OBCodec.rd_position _ _ _ _ Hr). by destruct x. }
  clearbody endP. set (n := tx_seq (link r)). set (b4 := flags n (bool_decide (x = [])) endP). apply runs_bind. eapply runs_mono; [apply (frame_header_runs _ _ _ n); [apply Hs|done|done]|]. cbn beta. intros _ r1 [Hb1 [l1 W1]].
  unfold FEC_LENGTH, RADIO_CRC_LENGTH in Hb1. replace (Z.of_nat (length chunk) + 32 - 2) with (Z.of_nat (length chunk) + 30) in Hb1 by lia. fold b4 in Hb1.
  apply runs_bind, runs_ask. rewrite Exy in Hr. destruct (OBCodec.get_bytes_reading (r_mem r) b x chunk rest Hr Hchunk) as (b' & Hg & Hr'). apply runs_bind. eapply runs_lift; [by rewrite W1|]. cbn [fst snd]. apply runs_bind, runs_upd_link.
  apply (frame_complete b4); [done|done|]. intros r3 Hb3 [l3 W3]. apply runs_bind, runs_upd_link. match goal with |- runs _ ?x _ => set (r4 := x) end.
  assert (length (frame_of b4 chunk) = (length chunk + 38)%nat) as Hlen by (unfold frame_of, block_of; cbn; rewrite length_app, rs_parity_size; lia).
  assert (same_rx r r4 ∧ budget (link r4) = budget (link r) ∧ wire r4 = wire r ∧ r_mem r4 = r_mem r ∧ r_sched r4 = r_sched r ∧ tx_seq (link r4) = n + 1 ∧ tx_pos (link r4) = tx_pos (link r) ∧ tx_bytes (link r4) = Z.of_nat (length chunk) + 38 ∧ tx_packet (link r4) = Some b' ∧ built (frame_of b4 chunk) r4) as (K1 & K2 & K3 & K4 & K5 & K6 & K7 & K8 & K9 & K10).
  { assert (built (frame_of b4 chunk) r4) as Hb4 by exact Hb3. unfold r4 in *. clear r4. rewrite W3, W1 in *. split_and!; try done. cbn [tx_bytes link set_link set_tx_range]. unfold FEC_LENGTH, RADIO_CRC_LENGTH, RADIO_HEADER_LENGTH. lia. }
  clearbody r4. clear W3 W1 Hb3 Hb1 r3 r1 l1 l3. pose proof (sn_seq _ _ _ Hs) as Hn0. fold n in Hn0.
  assert (tx_off C r4) as Hoff4 by (destruct Hoff; split; by rewrite K5).
  assert (∀ r5, wire r5 = wire r4 → built (frame_of b4 chunk) r5 → tx_pos (link r5) = tx_pos (link r4) → tx_bytes (link r5) = tx_bytes (link r4) → tx_seq (link r5) = n + 1 → packet_state (items ++ [Frame b4 chunk]) queued r5 → sends (items ++ [Frame b4 chunk]) queued r5) as Hnext.
  { intros r5 E1 E2 E3 E4 E5 E6. apply (sends_next items queued (Frame b4 chunk) r); try done; try congruence; [cbn [item_bytes]; rewrite Hlen; lia|lia]. }
  pose proof (frame_heard items prev x y n Hh Hl) as Hheard. cbv zeta in Hheard. fold chunk in Hheard. destruct endP.
  - apply runs_bind, runs_ask. rewrite K4. destruct (free_reading _ _ _ _ Hr') as (m' & Hm'). apply runs_bind. eapply runs_lift; [exact Hm'|]. apply runs_bind, runs_change. apply runs_bind, runs_upd_link. apply runs_bind, runs_time.
    eapply runs_mono; [apply (next_packet_runs C); [destruct Hoff4; by split|apply clock|pose proof (clock (r_ticks r4)); cbn; lia]|]. cbn beta. intros _ r5 (q & -> & Hoff5). exists (Frame b4 chunk). split_and!; [|done|done|cbn; lia|cbn; lia|done|done..].
    apply Hnext; try done. unfold packet_state. cbn [link set_sched r_tick set_link set_mem tx_packet set_tx_packet]. intros a. unfold b4. rewrite Hheard. cbn. rewrite Hq, Exy. rewrite Hend. by rewrite app_nil_r.
  - apply runs_ret. exists (Frame b4 chunk). split_and!; [|done|done|lia|lia|done|apply K1..]. apply Hnext; try done. unfold packet_state. rewrite K9. exists prev, (x ++ chunk), rest. rewrite <- app_assoc, <- Exy. split_and!; [done|by rewrite K4, Exy|done|done|].
    intros a. unfold b4. rewrite Hheard. cbn. split; [done|]. intros _. rewrite K6. do 2 f_equal. lia.
Qed.

(** ** The loop *)

Variable write : nat → list Z → Z.
Hypothesis writes : ∀ n bs, write n bs ≤ Z.of_nat (length bs).

(** The space that is left when all is written. *)
Definition level s : Z := remaining_space s - tx_bytes s.
Definition due (now : Z) s : bool := next_heartbeat s <=? now.
(** What is sent is bounded by the space of the radio and one heartbeat request. *)
Record spending (K L now : Z) s : Prop := {
  sp_max : remaining_space s ≤ 3234;
  sp_seq : 38 * tx_seq s + Z.max 0 (level s) ≤ K;
  sp_low : L + (if due now s then 17 else 0) ≤ level s;
  sp_times : times B s;
}.
Definition work (now : Z) s : Z := 300 * Z.max 0 (level s) + tx_bytes s + (if due now s then 300 else 0).

(** Why the loop ends. *)
Definition stopped (now : Z) s : Prop :=
  (tx_bytes s = 0 → remaining_space s < LINK_MTU + HEARTBEAT_SIZE ∨ tx_packet s = None) ∧
  (tx_bytes s ≠ 0 → now < next_tx_allowed s ∨ ∃ n bs, bs ≠ [] ∧ write n bs ≤ 0).

Definition sending (K L now C : Z) (queued : list (list Z)) r : Prop := (∃ items, sends items queued r) ∧ tx_off C r ∧ spending K L now (link r).

Lemma pending_split s n : 0 ≤ n ≤ tx_bytes s → take (Z.to_nat n) (pending s) ++ take (Z.to_nat (tx_bytes s - n)) (drop (Z.to_nat (tx_pos s) + Z.to_nat n) (txbuffer s)) = pending s.
Proof.
  intros Hn. unfold pending. rewrite take_take, Nat.min_l by lia. rewrite <- drop_drop. set (l := drop (Z.to_nat (tx_pos s)) (txbuffer s)). replace (Z.to_nat (tx_bytes s)) with (Z.to_nat n + Z.to_nat (tx_bytes s - n))%nat by lia. by rewrite take_take_drop.
Qed.

(** Some of the bytes were written. *)
Lemma sends_written items queued r n t : sends items queued r → 0 < n ≤ tx_bytes (link r) →
  let r' := set_link (set_tx_range (if tx_bytes (link r) - n =? 0 then 0 else tx_pos (link r) + n) (tx_bytes (link r) - n) (set_remaining_space t (link r))) (put_wire (take (Z.to_nat n) (pending (link r))) (r_tick r)) in
  sends items queued r'.
Proof.
  intros Hs Hn r'. pose proof (sn_end _ _ _ Hs) as He. pose proof (sn_pos _ _ _ Hs) as Hp. split; try apply Hs.
  - cbn. destruct (_ =? 0); lia.
  - cbn. lia.
  - cbn. destruct (_ =? 0); lia.
  - cbn. intros ->. done.
  - rewrite <- (sn_line _ _ _ Hs). unfold r'. cbn [wire set_link put_wire r_tick]. rewrite <- app_assoc. f_equal. etransitivity; [|apply (pending_split (link r) n); lia]. f_equal. unfold pending. cbn. destruct (Z.eqb_spec (tx_bytes (link r) - n) 0) as [->|]; [done|].
    do 2 f_equal. lia.
Qed.

Lemma pollout_set e : Z.testbit e 0 = true → Z.testbit (Z.lor e POLLOUT) 0 = true.
Proof. intros H. by rewrite Z.lor_spec, H. Qed.
Lemma pollout_clear e : Z.testbit e 0 = true → Z.testbit (Z.land e (Z.lnot POLLOUT)) 0 = true.
Proof. intros H. by rewrite Z.land_spec, H. Qed.

Lemma due_after now s : due now (set_next_heartbeat (now + 1000) s) = false.
Proof. unfold due. cbn. apply Z.leb_gt. lia. Qed.

Lemma sends_sched items queued q r : sends items queued r → sends items queued (set_sched q r).
Proof. intros []. by split. Qed.

(** One round: bytes are written, or a frame is built. *)
Lemma tx_round_runs K L C next_tick now queued r : 0 ≤ now ≤ B → 0 ≤ next_tick ≤ C → B + 1000 ≤ C → - 2 ^ 31 ≤ L ≤ 0 → K < 2 ^ 31 - 1 → sending K L now C queued r →
  runs (tx_round gettime_ms write interface next_packet send_alarm next_tick now) r (λ o r', (sending K L now C queued r' ∧ same_rx r r') ∧ match o with Some _ => stopped now (link r') | None => 0 ≤ work now (link r') < work now (link r) end).
Proof.
  intros Hnow Htick HC HL HK ((items & Hs) & Hoff & Hsp). pose proof Hsp as [S1 S2 S3 S4]. pose proof S4 as [T1 T2]. pose proof (sn_bytes _ _ _ Hs) as Hb0. pose proof (sn_pos _ _ _ Hs). pose proof (sn_end _ _ _ Hs) as Hend. pose proof (sn_seq _ _ _ Hs).
  unfold tx_round. apply runs_bind, runs_on. destruct (Z.eqb_spec (tx_bytes (link r)) 0) as [E0|E0]; cbn [negb].
  - apply runs_bind. eapply runs_mono; [apply (set_events_runs C); [done|apply pollout_clear]|]. cbn beta. intros _ r1 (q1 & -> & Hoff1). apply runs_bind, runs_link. cbn [link set_sched id]. fold (due now (link r)). destruct (due now (link r)) eqn:Edue.
    + apply runs_bind. eapply runs_mono; [apply build_heartbeat_runs; apply Hs|]. cbn beta. intros _ r2 (Hbu & r1 & [l ->] & ->). apply runs_bind, runs_upd_link. apply runs_ret. match goal with |- (sending _ _ _ _ _ ?x ∧ _) ∧ _ => set (r3 := x) end.
      assert (level (link r3) = level (link r) - 17) as El by (unfold level; cbn; lia). assert (due now (link r3) = false) as Ed by apply due_after. assert (tx_bytes (link r3) = 17) as Eb by done. split; [split; [|done]|unfold work; rewrite El, Ed, Eb, Edue; lia].
      split_and!; [|by destruct Hoff1|split; [done|rewrite El; cbn; lia|rewrite Ed, El; lia|split; [cbn; lia|done]]]. exists (items ++ [Request]). apply (sends_next items queued Request (set_sched q1 r)); try done; [by apply sends_sched|].
      pose proof (sn_packet _ _ _ Hs) as Hp. unfold packet_state. cbn [link r3 set_link set_sched tx_packet set_next_heartbeat set_tx_range set_txbuffer r_mem tx_seq]. destruct (tx_packet (link r)) as [b|]; [|intros a; rewrite hear_snoc; cbn; by rewrite app_nil_r].
      destruct Hp as (prev & x & y & G1 & G2 & G3 & G4 & G5). exists prev, x, y. split_and!; try done. intros a. rewrite hear_snoc. cbn. rewrite app_nil_r. apply G5.
    + change (LINK_MTU + HEARTBEAT_SIZE) with 272. destruct (Z.ltb_spec (remaining_space (link r)) 272) as [Hlow|Hspace].
      * apply runs_bind. eapply runs_mono; [apply (set_alarm_runs C); [done|lia]|]. cbn beta. intros _ r2 (q2 & -> & Hoff2). apply runs_ret. split; [split; [|done]|]; [split_and!; [exists items; by repeat apply sends_sched|done|done]|]. split; [by left|done].
      * destruct (bool_decide_reflect (tx_packet (link r) = None)) as [Hnone|Hsome].
        -- apply runs_bind. eapply runs_mono; [apply (set_alarm_runs C); [done|lia]|]. cbn beta. intros _ r2 (q2 & -> & Hoff2). apply runs_ret. split; [split; [|done]|]; [split_and!; [exists items; by repeat apply sends_sched|done|done]|]. split; [by right|done].
        -- destruct (tx_packet (link r)) as [b|] eqn:Eb; [|done]. apply runs_bind. eapply runs_mono; [apply (encode_runs C items queued b); [by apply sends_sched|done|done|cbn; unfold level in *; lia|done]|]. cbn beta. intros _ r2 (i & G1 & G2 & G3 & G4 & G5 & G6).
           apply runs_bind, runs_upd_link. apply runs_ret. match goal with |- (sending _ _ _ _ _ ?x ∧ _) ∧ _ => set (r3 := x) end. cbn [link set_sched] in G3, G5. injection G5 as B1 B2 B3.
           assert (level (link r3) = level (link r) - tx_bytes (link r2)) as El by (unfold level; cbn; lia). assert (due now (link r3) = false) as Ed by (unfold due in *; cbn; by rewrite B1). assert (tx_bytes (link r3) = tx_bytes (link r2)) as Ebb by done. assert (level (link r) = remaining_space (link r)) as Elr by (unfold level; lia).
           split; [split; [|exact G6]|unfold work; rewrite El, Ed, Ebb, Edue; lia]. split_and!; [exists (items ++ [i]); by destruct G1|by destruct G2|]. split; [cbn; lia|rewrite El; cbn; lia|rewrite Ed, El; lia|unfold times; cbn; by rewrite B1, B2].
  - apply runs_bind, runs_on. destruct (Z.ltb_spec now (next_tx_allowed (link r))) as [Hwait|Hgo].
    + apply runs_bind. eapply runs_mono; [apply (set_alarm_runs C); [done|lia]|]. cbn beta. intros _ r2 (q2 & -> & Hoff2). apply runs_ret. split; [split; [|done]|]; [split_and!; [exists items; by repeat apply sends_sched|done|done]|]. split; [done|by left].
    + apply runs_bind, runs_link. apply runs_bind. eapply runs_lift; [apply slice_ret; [done|done|rewrite (sn_buffer _ _ _ Hs); cbn; lia]|]. cbn [id]. fold (pending (link r)). set (n := write (r_ticks r) (pending (link r))).
      assert (Z.of_nat (length (pending (link r))) = tx_bytes (link r)) as Hpl by (unfold pending; rewrite length_take, length_drop, (sn_buffer _ _ _ Hs); lia). pose proof (writes (r_ticks r) (pending (link r))) as Hw. fold n in Hw. rewrite Hpl in Hw.
      apply runs_bind. exists n, (put_wire (take (Z.to_nat n) (pending (link r))) (r_tick r)). split; [done|]. cbn beta. destruct (Z.leb_spec n 0) as [Hn|Hn].
      * assert (take (Z.to_nat n) (pending (link r)) = []) as -> by (by replace (Z.to_nat n) with 0%nat by lia). apply runs_bind. eapply runs_mono; [apply (set_events_runs C); [by destruct Hoff|apply pollout_set]|]. cbn beta. intros _ r2 (q2 & -> & Hoff2). apply runs_ret.
        split; [split; [|done]|]. { split_and!; [|done|done]. exists items. apply sends_sched. destruct Hs. split; try done. cbn. by rewrite app_nil_r. }
        split; [done|]. right. exists (r_ticks r), (pending (link r)). split; [|done]. intros E. rewrite E in Hpl. cbn in Hpl. lia.
      * unfold level in *. rewrite (proj2 (Z.ltb_ge _ _)) by (destruct (due now (link r)); lia). apply runs_bind, runs_upd_link. apply runs_bind, runs_upd_link. apply runs_ret. match goal with |- (sending _ _ _ _ _ ?x ∧ _) ∧ _ => set (r3 := x) end.
        assert (level (link r3) = level (link r)) as El by (unfold level; cbn; lia). assert (due now (link r3) = due now (link r)) as Ed by done. assert (tx_bytes (link r3) = tx_bytes (link r) - n) as Eb by done.
        split; [split; [|done]|unfold work; rewrite El, Ed, Eb; unfold level; destruct (due now (link r)); lia]. split_and!; [|by destruct Hoff|]; [|split; [cbn; lia|rewrite El; done|rewrite Ed, El; done|done]]. exists items. apply (sends_written items queued r n); [done|lia].
Qed.

(** ** The calls *)

Record tx_on r : Prop := {
  tn_inv : FdQueuePoll.sched_inv (r_sched r);
  tn_timer : OverlayQueueTimer.timer_ok next_packet (r_sched r);
  tn_entry : ∃ e, ready interface (r_sched r) e;
}.
(** After [k] calls. *)
Record budgeted (k : Z) s : Prop := {
  bu_max : remaining_space s ≤ 3234;
  bu_seq : 38 * tx_seq s + Z.max 0 (level s) ≤ 3300 * k;
  bu_low : - 300 * k ≤ level s;
  bu_times : times B s;
}.
Definition ticks_ok r : Prop := 0 ≤ last_tx r + tick_ms r ≤ B.

Lemma spending_start k now s : 0 ≤ k → budgeted k s → spending (3300 * (k + 1)) (- 300 * (k + 1)) now s.
Proof. intros Hk []. split; [done|lia|destruct (due now s); lia|done]. Qed.
Lemma spending_end k now s : 0 ≤ k → spending (3300 * k) (- 300 * k) now s → budgeted k s.
Proof. intros Hk []. split; [done|done|destruct (due now s); lia|done]. Qed.

Lemma radio_link_tx_runs k queued r : 0 ≤ k < 500000 → tx_on r → (∃ items, sends items queued r) → budgeted k (link r) → ticks_ok r →
  runs (radio_link_tx gettime_ms write interface next_packet send_alarm) r (λ _ r', tx_on r' ∧ (∃ items, sends items queued r') ∧ budgeted (k + 1) (link r') ∧ same_rx r r' ∧ stopped (gettime_ms (r_ticks r)) (link r')).
Proof.
  intros Hk [H1 H2 (e & He)] (items & Hs) Hbu Htick. unfold radio_link_tx. destruct (stop_client interface (r_sched r) e H1 He) as (q0 & e0 & Hq0 & Hi0 & He0 & Hs0 & Ho0).
  apply runs_bind. eapply runs_sched; [exact Hq0|]. pose proof (own_timer _ _ Ho0 Hi0 H2) as Ht0. set (C := B + 1000).
  destruct (request_client interface q0 e0 (λ _, 0) FdQueue.deadline Hi0 He0 Hs0) as (q1 & Hq1 & Hi1 & He1 & Ho1). pose proof (own_timer _ _ Ho1 Hi1 Ht0) as Ht1. pose proof (clock (r_ticks r)) as Hnow. set (now := gettime_ms (r_ticks r)) in *.
  apply runs_bind. eapply runs_sched; [exact Hq1|]. apply runs_bind, runs_ask. apply runs_bind, runs_time. cbn [r_ticks set_sched]. fold now. match goal with |- runs _ ?x _ => set (r1 := x) end. change (last_tx _ + tick_ms _) with (last_tx r + tick_ms r).
  assert (sending (3300 * (k + 1)) (- 300 * (k + 1)) now C queued r1) as Hsend.
  { split_and!; [exists items; destruct Hs; by split| |apply spending_start; [lia|done]]. split; [done|done|]. eexists. split_and!; [exact He1|done|done|cbn; lia]. }
  apply runs_bind. apply (runs_mono _ _ (λ _ r2, (sending (3300 * (k + 1)) (- 300 * (k + 1)) now C queued r2 ∧ same_rx r r2) ∧ stopped now (link r2))).
  { apply (forever_runs _ (λ r2, sending (3300 * (k + 1)) (- 300 * (k + 1)) now C queued r2 ∧ same_rx r r2) (λ r2, work now (link r2))); [|done|].
    - intros r2 [G1 G2]. eapply runs_mono; [apply (tx_round_runs (3300 * (k + 1)) (- 300 * (k + 1)) C (last_tx r + tick_ms r) now queued r2); try done; unfold ticks_ok in Htick; lia|]. cbn beta. intros o r3 [[F1 F2] F3]. pose proof (same_rx_trans _ _ _ G2 F2). destruct o; (split; [by split|done]).
    - unfold work. change (2 ^ Z.of_nat 20) with 1048576. pose proof (bu_max _ _ Hbu). pose proof (sn_bytes _ _ _ Hs). pose proof (sn_end _ _ _ Hs). pose proof (sn_pos _ _ _ Hs). change (link r1) with (link r). unfold level. destruct (due now (link r)); lia. }
  cbn beta. intros _ r2 [[((items2 & Hs2) & [K1 K2 (e2 & He2 & Hs2' & Ha2)] & Hsp2) Hrx] Hstop]. apply (spending_end (k + 1)) in Hsp2; [|lia].
  destruct (watch_client interface (r_sched r2) e2 K1 He2) as (rc & q3 & e3 & Hq3 & Hi3 & He3 & Hs3 & Ha3 & Ho3). pose proof (own_timer _ _ Ho3 Hi3 K2) as Ht3. apply runs_bind. eapply runs_sched; [rewrite Hq3; reflexivity|].
  match goal with |- runs _ ?x _ => set (r3 := x) end. assert (tx_off C r3) as Hoff3 by (split; [done|done|exists e3; split_and!; [done|congruence|lia|lia]]). apply runs_bind. eapply runs_mono; [by apply (get_alarm_runs C)|]. cbn beta. intros a1 r' [-> _].
  apply runs_bind. apply (runs_mono _ _ (λ _ r4, ∃ q, r4 = set_sched q r2 ∧ tx_off C r4)).
  { destruct (a1 <? now); [|apply runs_ret; by exists q3]. eapply runs_mono; [apply (set_alarm_runs C); [done|lia]|]. cbn beta. intros _ r4 (q & -> & ?). by exists q. }
  cbn beta. intros _ r4 (q4 & -> & Hoff4). apply runs_bind. eapply runs_mono; [by apply (get_alarm_runs C)|]. cbn beta. intros a2 r' (-> & e4 & He4 & Hs4 & <-). destruct Hoff4 as [L1 L2 _].
  assert (∀ q5, FdQueuePoll.sched_inv q5 → others interface q4 q5 → (∃ e, ready interface q5 e) → tx_on (set_sched q5 r2) ∧ (∃ items, sends items queued (set_sched q5 r2)) ∧ budgeted (k + 1) (link (set_sched q5 r2)) ∧ same_rx r (set_sched q5 r2) ∧ stopped now (link (set_sched q5 r2))) as Hdone.
  { intros q5 G1 G2 G3. split_and!; [split; [done|by apply (own_timer q4)|done]|exists items2; by apply sends_sched|done|exact Hrx|exact Hstop]. }
  destruct (negb (FdQueue.alarm e4 =? 0)); [|apply runs_ret; apply Hdone; [done|done|by exists e4]].
  destruct (request_client interface q4 e4 FdQueue.alarm (λ _, FdQueue.alarm e4 + 100) L1 He4 Hs4) as (q5 & Hq5 & Hi5 & He5 & Ho5). apply runs_bind. eapply runs_sched; [exact Hq5|].
  destruct (start_client interface q5 _ Hi5 He5) as (q6 & e6 & Hq6 & Hi6 & He6 & Ho6); [done|cbn; lia|]. eapply runs_sched; [exact Hq6|]. apply Hdone; [done|by eapply others_trans|by exists e6].
Qed.

(** A packet is accepted when no other is being sent. *)
Lemma queue_packet_runs k queued w b r : 0 ≤ k < 500000 → tx_on r → (∃ items, sends items queued r) → budgeted k (link r) → ticks_ok r → OBCodec.writing (r_mem r) b w → (0 < length w ≤ 1200)%nat →
  runs (radio_link_queue_packet gettime_ms write interface next_packet send_alarm b) r (λ c r', tx_on r' ∧ budgeted (k + 1) (link r') ∧ same_rx r r' ∧
    if bool_decide (tx_packet (link r) = None) then c = 0 ∧ (∃ items, sends items (queued ++ [w]) r') ∧ stopped (gettime_ms (r_ticks r)) (link r')
    else c = -1 ∧ link r' = link r ∧ wire r' = wire r).
Proof.
  intros Hk Hon (items & Hs) Hbu Htick Hw Hl. unfold radio_link_queue_packet. apply runs_bind, runs_on. pose proof (sn_packet _ _ _ Hs) as Hp. destruct (tx_packet (link r)) as [b0|] eqn:Eb; [rewrite bool_decide_false by done|rewrite bool_decide_true by done].
  - apply runs_bind, runs_ask. assert (∃ m', OB.ob_free (r_mem r) b = Ret m') as [m' Hm'].
    { destruct Hw as [Hi _ _ _ _ _]. unfold OB.ob_free. destruct (OB.allocated b) as [q|] eqn:E; [|by eexists]. destruct (OB.inv_own _ _ Hi q E) as [Hb H0]. pose proof (OB.inv_live _ _ Hi) as Hlv. rewrite Hb in Hlv. destruct Hlv as (l & Hm & _). unfold free. rewrite H0, Hm. by eexists. }
    apply runs_bind. eapply runs_lift; [exact Hm'|]. apply runs_bind, runs_change. apply runs_ret. split_and!; try done; [by destruct Hon|]. destruct Hbu. split; [done|cbn; lia|cbn; lia|done].
  - pose proof SIZE_MAX_pos. destruct (OBCodec.flip_reading (r_mem r) b w Hw) as (b' & Hf & Hr); [lia|]. apply runs_bind. eapply runs_lift; [exact Hf|]. apply runs_bind, runs_upd_link. apply runs_bind. eapply runs_mono; [apply (radio_link_tx_runs k (queued ++ [w])); [done|by destruct Hon| |by destruct Hbu|done]|].
    { exists items. destruct Hs. split; try done. cbn. exists queued, [], w. split_and!; [done|done|cbn; lia|intros ->; cbn in Hl; lia|]. intros a. split; [apply Hp|done]. }
    cbn beta. intros _ r' (G1 & G2 & G3 & G4 & G5). apply runs_ret. by split_and!.
Qed.

End Tx.
End RadioLinkTx.
