(* ===== verification/RadioLinkProps.v ===== *)
(** * The packet radio

    Packets queued at one radio are received at the other, whatever arrives is read in
    bounds, and frames that the line has damaged are read when their codes correct
    them. *)

From S2P Require Import Prelude Mem Prog Golay OverlayBuffer OverlayBufferCodec FdQueue FdQueuePoll OverlayQueueTimer FdQueueClient RadioLink RadioLinkSafe RadioLinkRound RadioLinkWords RadioLinkStream RadioLinkTx.
Import Prog RadioLink RadioLinkSafe RadioLinkRound RadioLinkWords RadioLinkStream FdQueueClient RadioLinkTx.

Module RadioLinkProps.

(** ** Two radios *)

(** What happens at the sender: a packet [w] is queued in the buffer [b], when the
    radio is not busy; the alarm; an item arrives. *)
Inductive event :=
  | Queue (m : mem) (b : OB.overlay_buffer) (w : list Z)
  | Alarm
  | Hear (i : item).
Definition report_byte (i : item) : Prop := match i with Report w => 0 ≤ at_ w 12 ≤ 255 | _ => True end.

Section Props.
Context {arch : Arch} {allocator : Allocator} {fec : Fec} `{!FecLaws fec, !FecClean fec}.
Implicit Types r : radio.

Definition event_ok (e : event) : Prop :=
  match e with Queue m b w => OBCodec.writing m b w ∧ (0 < length w ≤ 1200)%nat | Alarm => True | Hear i => item_ok i ∧ report_byte i end.

Variable gettime_ms : nat → Z.
Variable write : nat → list Z → Z.
Variables (interface next_packet send_alarm : nat).

(** The packets that are accepted. *)
Definition run_event (e : event) : prog radio (list (list Z)) :=
  match e with
  | Queue m b w =>
      p ← on_link tx_packet;
      match p with
      | Some _ => mret []
      | None => change (set_mem m);; c ← radio_link_queue_packet gettime_ms write interface next_packet send_alarm b; mret (if c =? 0 then [w] else [])
      end
  | Alarm => radio_link_tx gettime_ms write interface next_packet send_alarm;; mret []
  | Hear i => read_stream gettime_ms (item_bytes i);; mret []
  end.
Fixpoint run_events (es : list event) : prog radio (list (list Z)) :=
  match es with [] => mret [] | e :: es => ws ← run_event e; ws' ← run_events es; mret (ws ++ ws') end.

Variable B : Z.
Hypothesis entries : next_packet ≠ interface.
Hypothesis clock : ∀ n, 0 ≤ gettime_ms n ≤ B.
Hypothesis clock_max : B + 2000 ≤ FdQueue.TIME_MS_NEVER_WILL.
Hypothesis writes : ∀ n bs, write n bs ≤ Z.of_nat (length bs).

(** The sender after [k] events. *)
Record radio_ok (k : Z) (queued : list (list Z)) r : Prop := {
  ro_sched : tx_on interface next_packet r;
  ro_sends : ∃ items, sends items queued r;
  ro_budget : budgeted B k (link r);
  ro_ticks : ticks_ok B r;
  ro_idle : idle (link r);
  ro_assembly : ∃ a, assembling a (link r);
}.

Lemma rx_idle r r' : same_rx r r' → idle (link r) → idle (link r').
Proof. intros (E & _) (H1 & H2 & H3 & H4). unfold rx_side in E. injection E as E1 E2 E3 E4 E5 E6 E7. split_and!; congruence. Qed.
Lemma rx_assembling r r' a : same_rx r r' → assembling a (link r) → assembling a (link r').
Proof. intros (E & _) [H1 [H2 H3]]. unfold rx_side in E. injection E as E1 E2 E3 E4 E5 E6 E7. split; [congruence|]. split; [congruence|]. destruct a.2; rewrite ?E6, ?E7; done. Qed.
Lemma rx_ticks r r' : same_rx r r' → ticks_ok B r → ticks_ok B r'.
Proof. intros (_ & _ & E1 & [= E2 _]). unfold ticks_ok. by rewrite E1, E2. Qed.

Lemma free_of_bound w : 0 ≤ at_ w 12 ≤ 255 → - 30 ≤ free_of w ≤ 3234.
Proof. intros H. unfold free_of. rewrite Z.quot_div_nonneg by lia. pose proof (Z.div_pos (at_ w 12 * 1280) 100). pose proof (Z.div_le_upper_bound (at_ w 12 * 1280) 100 3264). lia. Qed.

Lemma tx_same items queued r r' : same_tx r r' → sends items queued r → sends items queued r'.
Proof.
  intros (E1 & E2 & E3 & _) [S1 S2 S3 S4 S5 S6 S7 S8 S9]. unfold tx_side in E1. injection E1 as T1 T2 T3 T4 T5. assert (pending (link r') = pending (link r)) as Ep by (unfold pending; by rewrite T3, T4, T5).
  split; rewrite ?T1, ?T2, ?T3, ?T4, ?T5, ?E2, ?E3, ?Ep; done.
Qed.

Lemma event_runs k queued e r : 0 ≤ k < 500000 → event_ok e → radio_ok k queued r → runs (run_event e) r (λ ws r', radio_ok (k + 1) (queued ++ ws) r').
Proof.
  intros Hk He [H1 H2 H3 H4 H5 (a & H6)]. destruct e as [m b w| |i]; cbn [run_event].
  - destruct He as [Hw Hl]. apply runs_bind, runs_on. destruct (tx_packet (link r)) as [b0|] eqn:Eb; [apply runs_ret; rewrite app_nil_r; destruct H3; split; try done; [split; try done; lia|by exists a]|]. apply runs_bind, runs_change.
    assert (∃ items, sends items queued (set_mem m r)) as Hs by (destruct H2 as (items & [S1 S2 S3 S4 S5 S6 S7 S8 S9]); exists items; split; try done; cbn [link set_mem]; rewrite Eb in S9 |- *; exact S9).
    apply runs_bind. eapply runs_mono; [apply (queue_packet_runs interface next_packet send_alarm entries gettime_ms B clock clock_max write writes k queued w b (set_mem m r) Hk); [by destruct H1|done|done|done|done|done]|]. cbn beta. change (tx_packet (link (set_mem m r))) with (tx_packet (link r)).
    rewrite bool_decide_true by done. intros c r' (G1 & G2 & G3 & -> & G4 & _). apply runs_ret. assert (same_rx r r') as Hrx by exact G3. split; [done|done|done|by apply (rx_ticks r)|by apply (rx_idle r)|exists a; by apply (rx_assembling r)].
  - apply runs_bind. eapply runs_mono; [by apply (radio_link_tx_runs interface next_packet send_alarm entries gettime_ms B clock clock_max write writes k queued)|]. cbn beta. intros _ r' (G1 & G2 & G3 & G4 & _). apply runs_ret. rewrite app_nil_r.
    split; [done|done|done|by apply (rx_ticks r)|by apply (rx_idle r)|exists a; by apply (rx_assembling r)].
  - destruct He as [Hi Hr]. apply runs_bind. eapply runs_mono; [by apply (item_runs gettime_ms i a r)|]. cbn beta. intros _ r' [G1 [K1 K2 K3 K4 K5]]. apply runs_ret. rewrite app_nil_r. pose proof K3 as (E1 & E2 & E3 & E4). injection E4 as Q1 Q2 Q3. unfold tx_side in E1. injection E1 as T1 T2 T3 T4 T5.
    split; [destruct H1; split; by rewrite ?Q1|destruct H2 as (items & Hs); exists items; by apply (tx_same _ _ r)| |unfold ticks_ok; by rewrite Q2, Q3|done|by eexists].
    destruct H3 as [B1 B2 B3 B4]. assert (0 ≤ tx_bytes (link r) ≤ 255) as Hb. { destruct H2 as (items & Hs). pose proof (sn_bytes _ _ _ Hs). pose proof (sn_end _ _ _ Hs). pose proof (sn_pos _ _ _ Hs). lia. }
    unfold level in *. split; [| | |by apply K5]; unfold level; rewrite ?K4, ?T1, ?T4; destruct i as [| |w]; cbn [space_after]; try lia; pose proof (free_of_bound w Hr); lia.
Qed.

Lemma events_run es : ∀ k queued r, 0 ≤ k → k + Z.of_nat (length es) < 500000 → Forall event_ok es → radio_ok k queued r → runs (run_events es) r (λ ws r', ∃ k', radio_ok k' (queued ++ ws) r').
Proof.
  induction es as [|e es IH]; intros k queued r H0 Hk Hok Hr; cbn [run_events]; [apply runs_ret; exists k; by rewrite app_nil_r|]. cbn [length] in Hk. inversion_clear Hok as [|? ? He Hes].
  apply runs_bind. eapply runs_mono; [apply (event_runs k queued e r); [lia|done|done]|]. cbn beta. intros ws r1 Hr1. apply runs_bind. eapply runs_mono; [apply (IH (k + 1) (queued ++ ws) r1); [lia|lia|done|done]|]. cbn beta. intros ws' r2 Hr2. apply runs_ret. by rewrite app_assoc.
Qed.

Lemma radio_init_ok r : tx_on interface next_packet r → ticks_ok B r → 0 ≤ B → link r = radio_link_init → wire r = [] → radio_ok 0 [] r.
Proof.
  intros Hon Ht HB El Ew. destruct init_idle as [Hi Ha]. split; try done; rewrite ?El; try done; [|split; [done|done|done|split; [cbn; lia|cbn; lia]]|by eexists]. exists []. split; rewrite ?El, ?Ew; try done; cbn; rewrite ?length_replicate; try done; lia.
Qed.

(** C5: packets of 1 to 1200 bytes are queued at a radio whenever it is not busy; its
    alarm runs and items arrive in any order, and each call to write takes any part of
    the bytes. Every call returns, and when nothing waits to be written, a new receiver
    that reads what was written gets the packets that were accepted, each once, whole
    and in order, except the one that is still being sent. *)
Theorem radio_packets_arrive (rx_time : nat → Z) es r0 rx : Z.of_nat (length es) < 500000 → Forall event_ok es →
  tx_on interface next_packet r0 → ticks_ok B r0 → link r0 = radio_link_init → wire r0 = [] → link rx = radio_link_init → received rx = [] →
  runs (run_events es) r0 (λ queued r1, tx_bytes (link r1) = 0 →
    runs (read_stream rx_time (wire r1)) rx (λ _ rx', ∃ rest, queued = received rx' ++ rest ∧ length rest = if bool_decide (tx_packet (link r1) = None) then 0%nat else 1%nat)).
Proof.
  intros Hlen Hok Hon Ht El Ew Erx Erc. assert (0 ≤ B) as HB by (pose proof (clock 0); lia). eapply runs_mono; [apply (events_run es 0 [] r0); [done|lia|done|by apply radio_init_ok]|]. cbn beta. intros queued r1 (k & Hr) H0. destruct (ro_sends _ _ _ Hr) as (items & Hs).
  assert (wire r1 = line items) as ->. { rewrite <- (sn_line _ _ _ Hs). unfold pending. rewrite H0. cbn. by rewrite app_nil_r. }
  destruct init_idle as [Hi Ha]. eapply runs_mono; [apply (line_runs rx_time items (0, Some [])); [apply Hs|by rewrite Erx|by rewrite Erx]|]. cbn beta zeta. intros _ rx' [_ [_ -> _ _ _]]. rewrite Erc. cbn [app]. pose proof (sn_packet _ _ _ Hs) as Hp. cbn [app] in Hp. destruct (tx_packet (link r1)) as [b|].
  - rewrite bool_decide_false by done. destruct Hp as (prev & x & y & -> & _ & _ & _ & Hh). exists [x ++ y]. by rewrite (proj1 (Hh (0, Some []))).
  - rewrite bool_decide_true by done. exists []. by rewrite Hp, app_nil_r.
Qed.

(** C36: when the line takes some of every write and the radio allows it, the loop of
    [radio_link_tx] ends with an empty buffer, and with the whole packet sent unless the
    radio has no space for another frame. *)
Theorem radio_tx_progress k queued r : 0 ≤ k < 500000 → radio_ok k queued r → (∀ n bs, bs ≠ [] → 0 < write n bs) → next_tx_allowed (link r) ≤ gettime_ms (r_ticks r) →
  runs (radio_link_tx gettime_ms write interface next_packet send_alarm) r (λ _ r', tx_bytes (link r') = 0 ∧ (remaining_space (link r') < LINK_MTU + HEARTBEAT_SIZE ∨ tx_packet (link r') = None)).
Proof.
  intros Hk [H1 H2 H3 H4 _ _] Hw Ha. eapply runs_mono; [by apply (radio_link_tx_runs interface next_packet send_alarm entries gettime_ms B clock clock_max write writes k queued)|]. cbn beta. intros _ r' (_ & _ & _ & (_ & _ & _ & [= _ E]) & [S1 S2]).
  assert (tx_bytes (link r') = 0) as E0. { destruct (decide (tx_bytes (link r') = 0)) as [|Hne]; [done|]. destruct (S2 Hne) as [?|(m & bs & Hbs & ?)]; [lia|]. specialize (Hw m bs Hbs). lia. }
  split; [done|by apply S1].
Qed.

End Props.

Section Receive.
Context {arch : Arch} {allocator : Allocator} {fec : Fec} `{!FecLaws fec}.
Variable gettime_ms : nat → Z.
Implicit Types r : radio.

Lemma init_waiting : waiting radio_link_init.
Proof. split; [split; cbn; rewrite ?length_replicate; try done; by left|by left]. Qed.

(** C6: for any bytes at all that arrive, in any state the receiver can be in, every
    call of [radio_link_decode] returns with all accesses in its arrays, and the packet
    that is being sent is left alone; the one exception is a frame of 37 bytes with
    a block that the codec accepts, so with a single byte of data, which continues a
    packet: the first such frame that the search comes upon, and nothing else, makes
    an access that is undefined. *)
Theorem radio_reads_in_bounds bs r : waiting (link r) →
  runs (read_stream gettime_ms bs) r (λ _ r', waiting (link r') ∧ same_tx r r') ∨
  read_stream gettime_ms bs r = Undef ∧ ∃ bs1 c bs2 r1, bs = bs1 ++ c :: bs2 ∧ read_stream gettime_ms bs1 r = Ret (tt, r1) ∧ tiny_completed gettime_ms c r1.
Proof.
  revert r. induction bs as [|c bs IH]; intros r Hr; cbn [read_stream]; [left; by apply runs_ret|].
  destruct (decode_runs gettime_ms r c Hr) as [([] & r1 & E & H1 & H2)|[E H]]; [|right; split; [unfold mbind, prog_bind; by rewrite E|by exists [], c, bs, r]]. 
  assert (∀ l, (radio_link_decode gettime_ms c;; read_stream gettime_ms l) r = read_stream gettime_ms l r1) as Hread by (intros l; by rewrite (bind_unfold _ _ _ _ _ E)).
  destruct (IH r1 H1) as [(u & r2 & E2 & H3 & H4)|[Eu (bs1 & c' & bs2 & r2 & -> & E2 & H)]].
  - left. exists u, r2. rewrite Hread. split; [done|]. split; [done|by eapply same_tx_trans].
  - right. rewrite Hread. split; [done|]. exists (c :: bs1), c', bs2, r2. split_and!; [done|cbn [read_stream]; by rewrite Hread|done].
Qed.

(** C37: a frame whose first byte is anything, whose length has up to three wrong bits
    and whose block the codec corrects in up to 16 bytes does what the frame that was
    sent says. *)
Theorem damaged_frame_received b0 ps block b4 chunk e a r : (length chunk ≤ 215)%nat → (length ps ≤ 3)%nat → Forall (λ p, 0 ≤ p < 24) ps → length block = (length chunk + 34)%nat →
  rs_decode block (221 - Z.of_nat (length chunk)) = (e, block_of b4 chunk) → 0 ≤ e ≤ 16 →
  let w := b0 :: bytes3 (Golay.corrupt (Golay.golay_encode (header_of (Z.of_nat (length chunk) + 30))) ps) ++ block in
  status_of w = false → idle (link r) → assembling a (link r) →
  runs (read_stream gettime_ms w) r (λ _ r', assembling (reassemble a b4 chunk).1 (link r') ∧ received r' = received r ++ (reassemble a b4 chunk).2).
Proof.
  intros H1 H2 H3 H4 H5 H6 w H7 H8 H9. eapply runs_mono; [by apply (damaged_runs gettime_ms b0 ps block b4 chunk e a)|]. cbn beta. intros _ r' (_ & _ & [K1 K2 _ _ _]). done.
Qed.

(** ** A frame with one byte of data *)

Context `{!FecClean fec}.
Definition tiny_frame (b4 : Z) : list Z := 0xfe :: bytes3 (Golay.golay_encode (header_of 29)) ++ b4 :: rs_parity [b4].

Lemma tiny_append b4 w p r : begins w 37 (link r) → holds (Some p) (link r) → p ≠ [] → append_data b4 (SIZE_MAX) r = Undef.
Proof.
  intros Hb (H1 & H2 & H3 & H4) Hp. pose proof SIZE_MAX_pos as Hsz. assert (0 < Z.of_nat (length p)) as Hl by (destruct p; [done|cbn; lia]). unfold append_data. apply (bind_gives (λ o, o = Undef)), runs_link. cbn [id].
  assert (szadd (packet_length (link r)) SIZE_MAX = Z.of_nat (length p) - 1) as ->.
  { rewrite H2. unfold szadd, wrapu, SIZE_MAX in *. replace (Z.of_nat (length p) + (2 ^ size_bits - 1)) with (Z.of_nat (length p) - 1 + 1 * 2 ^ size_bits) by lia. rewrite Z.mod_add by lia. apply Z.mod_small. lia. }
  unfold MDP_MTU. rewrite (proj2 (Z.ltb_ge _ _)) by lia. destruct Hb as (B1 & B2 & _). unfold slice. rewrite B1. change (0 + RADIO_HEADER_LENGTH) with 6. rewrite (proj2 (Z.leb_gt (6 + SIZE_MAX) _)) by lia. by rewrite !andb_false_r.
Qed.

(** The block is accepted. *)
Lemma tiny_parse n p w r (b4 := Z.land (n + 1) 0x3f) : rs_decode (b4 :: rs_parity [b4]) 222 = (0, b4 :: rs_parity [b4]) → drop 4 w = b4 :: rs_parity [b4] → length w = 37%nat →
  begins w 37 (link r) → assembling (n, Some p) (link r) → p ≠ [] → radio_link_parse 37 r = Undef.
Proof.
  intros Hrs Hd Hw Hb [Hseq Hh] Hp. pose proof Hb as (B1 & B2 & B3 & B4 & B5). unfold radio_link_parse. change (37 =? 17) with false. cbv zeta. pose proof SIZE_MAX_pos as Hsz. unfold SIZE_MAX in Hsz. change (RADIO_USED_HEADER_LENGTH + FEC_LENGTH) with 36. change (37 - 36) with 1.
  rewrite (wrapu_small size_bits 1) by lia. apply (bind_gives (λ o, o = Undef)), runs_link. rewrite (pad_of 37) by lia. change (259 - 37) with 222. change ((222 <? 0) || (222 <? 222)) with false. cbn iota. cbn [id].
  rewrite B1. change (0 + 4) with 4. apply (bind_gives (λ o, o = Undef)). eapply runs_lift; [apply (slice_prefix _ w 37); [done|lia|lia|lia|lia]|]. change (Z.to_nat 4) with 4%nat. rewrite (take_ge (drop 4 w)) by (rewrite length_drop; lia). rewrite Hd, Hrs. cbn [fst snd].
  assert (length (b4 :: rs_parity [b4]) = 33%nat) as Hbl by (cbn; by rewrite rs_parity_size). clear Hrs. set (bl := b4 :: rs_parity [b4]) in *. assert (nth 0 bl 0 = b4) as Hb0 by done. clearbody bl. destruct (write_ret (payload (link r)) 4 bl) as (l & Hwr & Hll); [lia|lia|].
  apply (bind_gives (λ o, o = Undef)). eapply runs_lift; [exact Hwr|]. apply (bind_gives (λ o, o = Undef)), runs_upd_link. change (0 =? -1) with false. cbn iota. match goal with |- _ ?x = Undef => set (r4 := x) end.
  assert (begins w 37 (link r4)) as Hb4'.
  { split_and!; [done|cbn; lia| |lia|lia]. change (payload (link r4)) with l. clear r4 Hll. revert Hwr. unfold write_at. rewrite !(proj2 (Z.leb_le _ _)) by lia. intros [= <-]. change (Z.to_nat 4) with 4%nat. assert (take 4 (payload (link r)) = take 4 w) as ->.
    { rewrite <- (take_take_le (payload (link r)) 37), <- (take_take_le w 37) by lia. by rewrite B3. }
    rewrite <- Hd, app_assoc, take_drop. rewrite take_app_length' by done. by rewrite take_ge by lia. }
  enough (accept_block 1 r4 = Undef) as Hu by (unfold mbind at 1, prog_bind at 1; by rewrite Hu). unfold accept_block. cbv zeta. assert (wrapu size_bits (1 - 2) = SIZE_MAX) as ->.
  { unfold wrapu, SIZE_MAX. change (1 - 2) with (-1). replace (-1) with (2 ^ size_bits - 1 + (-1) * 2 ^ size_bits) by lia. rewrite Z.mod_add by lia. apply Z.mod_small. lia. }
  assert (at_ w 4 = b4) as Ew. { unfold at_. rewrite <- (take_drop 4 w), app_nth2; rewrite length_take; [|lia]. rewrite Hd, Hw. exact Hb0. }
  apply (bind_gives (λ o, o = Undef)), (peek_word w 37); [done|lia|]. change (Z.to_nat 4) with 4%nat. rewrite Ew. apply (bind_gives (λ o, o = Undef)), runs_link. cbn [id]. change (seq (link r4)) with (seq (link r)). rewrite Hseq. cbn [fst].
  assert (Z.land b4 0x3f = b4 ∧ Z.land b4 0x40 = 0) as [-> ->].
  { unfold b4. rewrite <- !Z.land_assoc. split; [done|]. change (Z.land 0x3f 0x40) with 0. apply Z.land_0_r. }
  fold b4. rewrite !Z.eqb_refl. cbn [negb]. do 2 apply (bind_gives (λ o, o = Undef)), runs_ret. apply (bind_gives (λ o, o = Undef)), runs_upd_link. by apply (tiny_append b4 w p).
Qed.

(** C38: when the codec accepts an undamaged block with a single byte of data, a frame
    with such a block that follows the start of a packet makes the receiver copy
    SIZE_MAX bytes: the number of data bytes less two wraps around, and the check of the
    size of the packet passes. *)
Theorem tiny_frame_overruns n p r : let b4 := Z.land (n + 1) 0x3f in rs_decode (b4 :: rs_parity [b4]) 222 = (0, b4 :: rs_parity [b4]) →
  idle (link r) → assembling (n, Some p) (link r) → p ≠ [] → read_stream gettime_ms (tiny_frame b4) r = Undef.
Proof.
  intros b4 Hrs Hidle Ha Hp. pose proof (land_63 (n + 1)) as Hb4. fold b4 in Hb4. set (w := tiny_frame b4). assert (length w = 37%nat) as Hw by (unfold w, tiny_frame; cbn; by rewrite rs_parity_size).
  assert (status_of w = false) as Hst. { unfold status_of, w, tiny_frame. destruct (Golay.golay_encode _) as [[c1 c2] c3]. change (at_ _ 4) with b4. unfold RADIO_SOURCE_COMPONENT. rewrite (proj2 (Z.eqb_neq b4 68)) by lia. by rewrite !andb_false_r. }
  assert (word w 37) as Hword. { split_and!; [by rewrite Hw|right; lia|]. rewrite Hst. unfold w, tiny_frame. by rewrite (length_clean 0xfe 29) by lia. }
  assert (drop 4 w = b4 :: rs_parity [b4]) as Hd by done. clearbody w. destruct Hidle as (I1 & I2 & I3 & I4). assert (partial w 37 0 (link r)) as H0 by (split; try done; apply Ha).
  destruct (lookup_lt_is_Some_2 w 36) as [x Hx]; [lia|]. rewrite <- (take_drop 36 w). apply (read_gives gettime_ms (λ o, o = Undef)). pose proof (bytes_runs gettime_ms w 37 36 0 r Hword H0 ltac:(lia)) as Hbytes. rewrite drop_0 in Hbytes. eapply runs_mono; [exact Hbytes|]. cbn beta. intros _ r1 [Hp1 Hs1].
  rewrite (drop_S _ _ _ Hx), drop_ge by lia. cbn [read_stream]. unfold mbind at 1, prog_bind at 1. enough (radio_link_decode gettime_ms x r1 = Undef) as -> by done.
  apply (arrive_gives gettime_ms (λ o, o = Undef) w 37 36); try done. intros r2 r3 Hp3 Hs3 E. apply forever_undef. rewrite E. clear E. assert (assembling (n, Some p) (link r3)) as Ha3 by (apply (rest_assembling _ r); [by eapply same_rest_trans|done]).
  destruct (whole_begins w 37 (link r3) Hword) as (Hb & Ho & Hl & _); [by rewrite Hw|]. rewrite Hw in Hb. unfold decode_word. apply (bind_gives (λ o, o = Undef)), runs_link. rewrite Ho, Hl. cbn [id]. change ((37 =? 0) || (37 <? 37)) with false. cbn iota.
  apply (bind_gives (λ o, o = Undef)). eapply runs_mono; [apply (heartbeat_word gettime_ms w 37 _ Hb); lia|]. cbn beta. rewrite Hst. intros h r' [-> ->]. unfold mbind at 1, prog_bind at 1. by rewrite (tiny_parse n p w).
Qed.

End Receive.
End RadioLinkProps.
