(* ===== verification/RadioLinkDemo.v ===== *)
(** * The packet radio at work

    A codec, a clock, a line that takes part of what is written and two radios, the
    exchange of a packet, and the instances of the properties. *)

From S2P Require Import Prelude Mem Prog Golay OverlayBuffer OverlayBufferCodec FdQueue FdQueueSpec FdQueuePoll FdQueueProps OverlayQueueTimer FdQueueClient RadioLink RadioLinkSafe RadioLinkRound RadioLinkWords RadioLinkStream RadioLinkTx RadioLinkProps.
Import Prog RadioLink RadioLinkSafe RadioLinkRound RadioLinkWords RadioLinkStream FdQueueClient RadioLinkTx RadioLinkProps.

Module RadioLinkDemo.

#[local] Instance demo_arch : Arch := arm64.
#[local] Instance demo_allocator : Allocator := calloc_allocator.

(** A codec whose parity is 32 zeros: it corrects up to 16 wrong bytes of the parity. *)
Definition wrong (bs : list Z) : Z := Z.of_nat (length (filter (λ x, x ≠ 0) bs)).
Definition zero_decode (shortest : Z) (block : list Z) (pad : Z) : Z * list Z :=
  let n := (length block - 32)%nat in
  if bool_decide (32 ≤ length block)%nat && (pad <=? shortest) && (wrong (drop n block) <=? 16) then (wrong (drop n block), take n block ++ replicate 32 0) else (-1, block).
Definition zeros (shortest : Z) : Fec := {| rs_parity _ := replicate 32 0; rs_decode := zero_decode shortest |}.
#[local] Instance zeros_laws z : FecLaws (zeros z).
Proof.
  split; intros block pad; cbn [rs_decode zeros]; unfold zero_decode; cbv zeta.
  - destruct (bool_decide_reflect (32 ≤ length block)%nat); [|done]. cbn [andb]. destruct (_ && _); [|done]. cbn [snd]. rewrite length_app, length_take, length_replicate. lia.
  - destruct (bool_decide _); [|by left]. destruct (pad <=? z); [|by left]. cbn [andb]. destruct (Z.leb_spec (wrong (drop (length block - 32) block)) 16); [|by left]. right. cbn [fst]. unfold wrong in *. lia.
Qed.
#[local] Instance zeros_clean z : 221 ≤ z → FecClean (zeros z).
Proof.
  intros Hz. split; intros data; [done|]. intros Hl. cbn [rs_decode rs_parity zeros]. unfold zero_decode. cbv zeta. rewrite length_app, length_replicate. replace (length data + 32 - 32)%nat with (length data) by lia. rewrite drop_app_length, take_app_length.
  rewrite bool_decide_true, (proj2 (Z.leb_le _ _)) by lia. done.
Qed.
#[local] Instance demo_fec : Fec := zeros 221.
#[local] Instance demo_clean : FecClean demo_fec.
Proof. by apply zeros_clean. Qed.

Definition clock_ms (n : nat) : Z := Z.min (1000 + Z.of_nat n) (2 ^ 40).
Definition slow_write (n : nat) (bs : list Z) : Z := Z.min 100 (Z.of_nat (length bs)).

Definition radio_sched : FdQueue.queue :=
  FdQueue.Queue (<[0%nat := FdQueueProps.demo_ent 7 0 0]> (<[1%nat := FdQueueProps.demo_ent 8 0 0]> ∅)) (replicate FdQueue.MAX_WATCHED_FDS (FdQueue.Pollfd (-1) 0 0)) 0 (replicate FdQueue.MAX_WATCHED_FDS None) None None None.
Lemma radio_sched_idle : FdQueueProps.idle radio_sched.
Proof.
  split; [done| |done]. intros a e. cbn. intros [[<- <-]|[_ H]]%lookup_insert_Some; [by split_and!|]. by apply lookup_insert_Some in H as [[<- <-]|[_ H]]; [split_and!|].
Qed.
Definition start_radio : radio := Radio radio_link_init ∅ radio_sched 0 500 [] [] 0.
Lemma start_on : tx_on 0 1 start_radio.
Proof.
  split; [apply FdQueueProps.idle_inv, radio_sched_idle| |].
  - split; [exists [], [], []; apply FdQueueProps.idle_rep, radio_sched_idle|]. exists (FdQueueProps.demo_ent 8 0 0). split_and!; try done. intros _. by left.
  - exists (FdQueueProps.demo_ent 7 0 0). split; [done|by eexists|done|]. intros _. by left.
Qed.

(** A packet of 300 bytes, a report of 100% of the space, and alarms. *)
Definition packet : list Z := Z.of_nat <$> List.seq 1 300.
Definition empty_buffer : OB.overlay_buffer := OB.Buf None 0 0 SIZE_MAX 0 None.
Definition packet_buffer : mem * OB.overlay_buffer := match OB.append_raw ∅ empty_buffer packet with Ret x => x | _ => (∅, empty_buffer) end.
Lemma packet_writing : OBCodec.writing packet_buffer.1 packet_buffer.2 packet.
Proof.
  assert (OBCodec.writing ∅ empty_buffer []) as H0 by (by apply OBCodec.writing_new). destruct (OBCodec.append_writing (allocator := demo_allocator) ∅ empty_buffer [] packet calloc_total H0) as (m & b & E & Hw); [done|vm_compute; congruence|]. unfold packet_buffer. by rewrite E.
Qed.
Definition full_report : list Z := [0xFE; 9; 0; RADIO_SOURCE_SYSTEM; RADIO_SOURCE_COMPONENT; MAVLINK_MSG_ID_RADIO; 0; 0; 0; 0; 90; 80; 100; 50; 50; 0; 0].
Definition happenings : list event := [Alarm; Hear (Report full_report); Queue packet_buffer.1 packet_buffer.2 packet; Hear Request; Alarm].
Lemma happenings_ok : Forall event_ok happenings.
Proof.
  unfold happenings. apply Forall_cons. split; [exact I|]. apply Forall_cons. split; [split; [split; vm_compute; reflexivity|split; vm_compute; congruence]|]. apply Forall_cons. split; [split; [exact packet_writing|unfold packet; rewrite length_fmap, length_seq; lia]|].
  apply Forall_cons. split; [by split|]. apply Forall_cons. split; [exact I|apply Forall_nil_2].
Qed.

Abbreviation exchange := (run_events clock_ms slow_write 0 1 9 happenings).
Definition sent : radio := match exchange start_radio with Ret (_, r) => r | _ => start_radio end.
Lemma exchange_sends : exchange start_radio = Ret ([packet], sent).
Proof.
  unfold sent. assert (match exchange start_radio with Ret (ws, _) => bool_decide (ws = [packet]) | _ => false end = true) as H by (vm_compute; reflexivity). destruct (exchange start_radio) as [[ws r]| |]; try done. apply bool_decide_eq_true in H. by rewrite H.
Qed.

Lemma ret_pair {S T} (x x' : S) (y y' : T) : Ret (x, y) = Ret (x', y') → x = x' ∧ y = y'.
Proof. by intros [= -> ->]. Qed.
Lemma clock_range n : 0 ≤ clock_ms n ≤ 2 ^ 40.
Proof. unfold clock_ms. lia. Qed.
Lemma slow_writes n bs : slow_write n bs ≤ Z.of_nat (length bs).
Proof. unfold slow_write. lia. Qed.

Lemma radio_packets_arrive_witness : ∃ rx, read_stream clock_ms (wire sent) start_radio = Ret (tt, rx) ∧ received rx = [packet].
Proof.
  destruct (radio_packets_arrive clock_ms slow_write 0 1 9 (2 ^ 40) ltac:(done) clock_range ltac:(done) slow_writes clock_ms happenings start_radio start_radio ltac:(done) happenings_ok start_on ltac:(done) eq_refl eq_refl eq_refl eq_refl) as (ws & r & E & H).
  rewrite exchange_sends in E. destruct (ret_pair _ _ _ _ E) as [<- <-]. assert (tx_bytes (link sent) = 0) as H0 by (vm_compute; reflexivity). destruct (H H0) as ([] & rx & E2 & rest & Hq & Hl). exists rx. split; [done|].
  rewrite bool_decide_true in Hl by (vm_compute; reflexivity). destruct rest; [|done]. by rewrite app_nil_r in Hq.
Defined.

Lemma radio_tx_progress_witness : runs (radio_link_tx clock_ms slow_write 0 1 9) start_radio (λ _ r', tx_bytes (link r') = 0 ∧ (remaining_space (link r') < LINK_MTU + HEARTBEAT_SIZE ∨ tx_packet (link r') = None)).
Proof.
  apply (radio_tx_progress clock_ms slow_write 0 1 9 (2 ^ 40) ltac:(done) clock_range ltac:(done) slow_writes 0 []); [done| | |done].
  - apply radio_init_ok; first [exact start_on|exact clock_range|exact slow_writes|done].
  - intros n bs Hbs. unfold slow_write. destruct bs; [done|]. cbn. lia.
Defined.

(** With a codec that accepts blocks of one byte: noise that fills the buffer, then a frame. *)
Lemma radio_reads_in_bounds_witness : @runs radio unit (@read_stream demo_arch (zeros 222) clock_ms (replicate 800 0xFE ++ @tiny_frame (zeros 222) 0x41)) start_radio (λ _ r', waiting (link r') ∧ same_tx start_radio r').
Proof.
  destruct (@radio_reads_in_bounds demo_arch (zeros 222) (zeros_laws 222) clock_ms (replicate 800 0xFE ++ @tiny_frame (zeros 222) 0x41) start_radio init_waiting) as [H|[E _]]; [exact H|].
  assert (match @read_stream demo_arch (zeros 222) clock_ms (replicate 800 0xFE ++ @tiny_frame (zeros 222) 0x41) start_radio with Undef => false | _ => true end = true) as H by (vm_compute; reflexivity). rewrite E in H. discriminate H.
Defined.

(** Three bits of the length and two bytes of the parity are wrong. *)
Definition damaged_block : list Z := [flags 1 true true; 67; 7; 8; 9] ++ [1; 2] ++ replicate 30 0.
Lemma damaged_frame_received_witness :
  runs (read_stream clock_ms (0 :: bytes3 (Golay.corrupt (Golay.golay_encode (header_of 33)) [1; 11; 23]) ++ damaged_block)) start_radio (λ _ r', received r' = [[7; 8; 9]]).
Proof.
  destruct init_idle as [Hi Ha]. eapply runs_mono; [apply (damaged_frame_received clock_ms 0 [1; 11; 23] damaged_block (flags 1 true true) [7; 8; 9] 2 (0, Some []) start_radio)|].
  { cbn; lia. } { cbn; lia. } { repeat constructor; lia. } { done. } { vm_compute. reflexivity. } { lia. } { vm_compute. reflexivity. } { exact Hi. } { exact Ha. }
  cbn beta. intros _ r' [_ ->]. vm_compute. reflexivity.
Defined.

(** The start of a packet with one byte, and a frame with a block of one byte. *)
Definition after_start : radio := set_link (set_seq 1 (set_packet_length 1 radio_link_init)) start_radio.
Lemma tiny_frame_overruns_witness : @read_stream demo_arch (zeros 222) clock_ms (@tiny_frame (zeros 222) 2) after_start = Undef.
Proof.
  apply (@tiny_frame_overruns demo_arch (zeros 222) clock_ms (zeros_clean 222 ltac:(done)) 1 [0] after_start); [vm_compute; reflexivity|apply init_idle| |done].
  split; [done|]. split; [done|]. split_and!; [done|done|cbn; lia].
Defined.

End RadioLinkDemo.
