(* ===== verification/RouteLink.v ===== *)
(** * The choice of routes (route_link.c, overlay_link.c)

    Every neighbour reports the links it knows: for each receiver the transmitter it
    hears it through. A route to a subscriber follows the transmitters from the
    subscriber back to a neighbour; [find_best_link] picks the neighbour with the best
    one. A pointer to a link is the subscriber that receives it, in the tree of its
    neighbour; links are freed with the neighbour only. Memory for a link or a state is
    taken to be available, as in the source, which does not test for it. *)

From S2P Require Import Prelude Prog DataFormats.
Import Prog DataFormats.

Module RouteLink.

Definition REACHABLE_NONE : Z := 0.
Definition REACHABLE_SELF : Z := 1.
Definition REACHABLE_BROADCAST : Z := 2.
Definition REACHABLE_UNICAST : Z := 4.
Definition REACHABLE_INDIRECT : Z := 8.
Definition REACHABLE : Z := 14.

(** ** Links *)

Record link := Link {
  transmitter : option nat;
  parent : option nat;
  l_destination : option nat;
  last_ack_seq : Z;
  path_version : Z;
  link_version : Z;
  drop_rate : Z;
  hop_count : Z;
  path_drop_rate : Z;
  calculating : bool;
}.
Definition set_parent (v : option nat) (l : link) : link := Link (transmitter l) v (l_destination l) (last_ack_seq l) (path_version l) (link_version l) (drop_rate l) (hop_count l) (path_drop_rate l) (calculating l).
Definition set_calculating (v : bool) (l : link) : link := Link (transmitter l) (parent l) (l_destination l) (last_ack_seq l) (path_version l) (link_version l) (drop_rate l) (hop_count l) (path_drop_rate l) v.
Definition set_score (hops version drop : Z) (l : link) : link := Link (transmitter l) (parent l) (l_destination l) (last_ack_seq l) version (link_version l) (drop_rate l) hops drop false.

(** The un-balanced tree of the links of a neighbour. *)
Inductive link_tree :=
  | Leaf
  | Node (receiver : nat) (l : link) (left right : link_tree).

Record neighbour := Neighbour {
  n_subscriber : nat;
  n_path_version : Z;
  link_in_timeout : Z;
  root : link_tree;
}.
Definition set_root (v : link_tree) (n : neighbour) : neighbour := Neighbour (n_subscriber n) (n_path_version n) (link_in_timeout n) v.

Section Links.
(** The identifiers of subscribers, and whether [char] has a sign. *)
Variable sid : nat → list Z.
Variable char_signed : bool.
Definition char (z : Z) : Z := if char_signed then wraps 8 z else u8 z.

Definition goes_left (r x : nat) : bool := cmp_sid_t (sid r) (sid x) <? 0.

Fixpoint search (t : link_tree) (r : nat) : option link :=
  match t with
  | Leaf => None
  | Node x l a b => if decide (r = x) then Some l else if goes_left r x then search a r else search b r
  end.
(** An assignment through a pointer to a link. *)
Fixpoint change_link (t : link_tree) (r : nat) (f : link → link) : link_tree :=
  match t with
  | Leaf => Leaf
  | Node x l a b => if decide (r = x) then Node x (f l) a b else if goes_left r x then Node x l (change_link a r f) b else Node x l a (change_link b r f)
  end.
Fixpoint add_link (t : link_tree) (r : nat) (new : link) : link_tree :=
  match t with
  | Leaf => Node r new Leaf Leaf
  | Node x l a b => if decide (r = x) then t else if goes_left r x then Node x l (add_link a r new) b else Node x l a (add_link b r new)
  end.

Definition new_link (n : neighbour) : link := Link None None None (-1) (char (n_path_version n - 1)) (char (-1)) 0 0 0 false.
Definition find_link (n : neighbour) (receiver : nat) (create : bool) : neighbour * option link :=
  match search (root n) receiver with
  | Some l => (n, Some l)
  | None => if create then let n' := set_root (add_link (root n) receiver (new_link n)) n in (n', search (root n') receiver) else (n, None)
  end.

Definition upd_link (n : neighbour) (r : nat) (f : link → link) : neighbour := set_root (change_link (root n) r f) n.
Definition the_link (n : neighbour) (r : nat) : outcome link := match search (root n) r with Some l => Ret l | None => Undef end.

(** The link whose receiver is the transmitter of this one, found once. *)
Definition get_parent (n : neighbour) (r : nat) : outcome (option nat * neighbour) :=
  l ← the_link n r;
  match transmitter l with
  | None => Ret (None, n)
  | Some t =>
      if bool_decide (r = n_subscriber n) then Ret (None, n)
      else
        match parent l with
        | Some p => Ret (Some p, n)
        | None =>
            let p := match (find_link n t false).2 with Some _ => Some t | None => None end in
            Ret (p, upd_link n r (set_parent p))
        end
  end.

Variable my_subscriber : option nat.

Fixpoint update_path_score (fuel : nat) (n : neighbour) (r : nat) : outcome neighbour :=
  l ← the_link n r;
  if path_version l =? n_path_version n then Ret n
  else if calculating l then Ret n
  else
    match fuel with
    | O => Undef
    | S fuel =>
        let n := upd_link n r (set_calculating true) in
        s ← (if bool_decide (transmitter l = my_subscriber) then Ret (n, (if bool_decide (r = n_subscriber n) then 1 else -1), 0)
             else
               p ← get_parent n r;
               match p with
               | (None, n) => Ret (n, -1, 0)
               | (Some p, n) =>
                   pl ← the_link n p;
                   if calculating pl then Ret (n, -1, 0)
                   else
                     n ← update_path_score fuel n p;
                     pl ← the_link n p;
                     Ret (if 0 <? hop_count pl then (n, hop_count pl + 1, path_drop_rate pl) else (n, -1, 0))
               end);
        let '(n, hops, drop) := s in
        let drop := if 2 <? drop_rate l then drop + drop_rate l else drop in
        Ret (upd_link n r (set_score hops (n_path_version n) drop))
    end.

(** [link_receive]: what a neighbour reports of a link. *)
Definition report_link (transmitter' : option nat) (version drop : Z) (l : link) : link :=
  if negb (bool_decide (transmitter l = transmitter')) || negb (link_version l =? version)
  then Link transmitter' (parent l) (l_destination l) (last_ack_seq l) (path_version l) (char (Z.land version 0xFF)) (char drop) (hop_count l) (path_drop_rate l) (calculating l)
  else l.
Definition path_changed (n : neighbour) : neighbour := Neighbour (n_subscriber n) (char (n_path_version n + 1)) (link_in_timeout n) (root n).
End Links.

(** ** Subscribers *)

(** A pointer to a link: its neighbour and its receiver. *)
Record link_state := State {
  s_next_hop : option nat;
  s_transmitter : option nat;
  s_hop_count : Z;
  s_route_version : Z;
  s_link : option (nat * nat);
  s_calculating : bool;
  next_update : Z;
}.
Definition set_state_calculating (v : bool) (t : link_state) : link_state := State (s_next_hop t) (s_transmitter t) (s_hop_count t) (s_route_version t) (s_link t) v (next_update t).
Definition set_next_update (v : Z) (t : link_state) : link_state := State (s_next_hop t) (s_transmitter t) (s_hop_count t) (s_route_version t) (s_link t) (s_calculating t) v.

(** overlay_address.h: what routing uses of a subscriber. *)
Record subscriber := Subscriber {
  reachable : Z;
  next_hop : option nat;
  sub_hop_count : Z;
  prior_hop : option nat;
  destination : option nat;
  identity : bool;
  sas_valid : bool;
  state : option link_state;
}.
Definition set_reach (v : Z) (x : subscriber) : subscriber := Subscriber v (next_hop x) (sub_hop_count x) (prior_hop x) (destination x) (identity x) (sas_valid x) (state x).
Definition set_hops (hops : Z) (prior : option nat) (x : subscriber) : subscriber := Subscriber (reachable x) (next_hop x) hops prior (destination x) (identity x) (sas_valid x) (state x).
Definition set_next_hop (v : option nat) (x : subscriber) : subscriber := Subscriber (reachable x) v (sub_hop_count x) (prior_hop x) (destination x) (identity x) (sas_valid x) (state x).
Definition set_sub_destination (v : option nat) (x : subscriber) : subscriber := Subscriber (reachable x) (next_hop x) (sub_hop_count x) (prior_hop x) v (identity x) (sas_valid x) (state x).
Definition set_state (v : link_state) (x : subscriber) : subscriber := Subscriber (reachable x) (next_hop x) (sub_hop_count x) (prior_hop x) (destination x) (identity x) (sas_valid x) (Some v).

Record network_destination := Dest { _ref_count : Z; unicast : bool }.

(** What other parts of the daemon are told. *)
Inductive note :=
  | SasRequest (s : nat)
  | DirectoryRegistration
  | PeerLost (s : nat)
  | PeerFound (s : nat)
  | LinkAnnounced (hops : Z) (via : option nat) (s : nat).

Record world := World {
  subs : gmap nat subscriber;
  neighbours : list neighbour;
  route_version : Z;
  dests : gmap nat network_destination;
  notes : list note;
  w_ticks : nat;
}.
Definition set_subs (v : gmap nat subscriber) (w : world) : world := World v (neighbours w) (route_version w) (dests w) (notes w) (w_ticks w).
Definition set_neighbours (v : list neighbour) (w : world) : world := World (subs w) v (route_version w) (dests w) (notes w) (w_ticks w).
Definition set_dests (v : gmap nat network_destination) (w : world) : world := World (subs w) (neighbours w) (route_version w) v (notes w) (w_ticks w).
Definition put_note (v : note) (w : world) : world := World (subs w) (neighbours w) (route_version w) (dests w) (notes w ++ [v]) (w_ticks w).
Definition w_tick (w : world) : world := World (subs w) (neighbours w) (route_version w) (dests w) (notes w) (S (w_ticks w)).

Fixpoint tree_size (t : link_tree) : nat := match t with Leaf => 0 | Node _ _ a b => S (tree_size a + tree_size b) end.

(** The best link so far. *)
Record best := Best {
  b_next_hop : option nat;
  b_hops : Z;
  b_drop : Z;
  b_transmitter : option nat;
  b_destination : option nat;
  b_link : option (nat * nat);
}.

Section Routes.
Variable sid : nat → list Z.
Variable char_signed : bool.
Variables (my_subscriber directory_service : option nat).
Variable gettime_ms : nat → Z.
Abbreviation code := (prog world).

Definition gettime : code Z := λ w, Ret (gettime_ms (w_ticks w), w_tick w).
Definition the_sub (s : nat) : code subscriber := m ← ask subs; match m !! s with Some x => mret x | None => undefined end.
Definition upd_sub (s : nat) (f : subscriber → subscriber) : code unit := x ← the_sub s; change (λ w, set_subs (<[s := f x]> (subs w)) w).
Definition tell (v : note) : code unit := change (put_note v).

Definition get_link_state (s : nat) : code link_state :=
  x ← the_sub s;
  match state x with
  | Some t => mret t
  | None => v ← ask route_version; let t := State None None 0 (v - 1) None false 0 in upd_sub s (set_state t);; mret t
  end.

Definition the_dest (d : nat) : code network_destination := m ← ask dests; match m !! d with Some x => mret x | None => undefined end.
Definition add_destination_ref (d : nat) : code unit := x ← the_dest d; change (λ w, set_dests (<[d := Dest (_ref_count x + 1) (unicast x)]> (dests w)) w).
Definition release_destination_ref (d : nat) : code unit :=
  x ← the_dest d;
  change (λ w, set_dests (if _ref_count x <=? 1 then delete d (dests w) else <[d := Dest (_ref_count x - 1) (unicast x)]> (dests w)) w).
(** [set_destination_ref(&subscriber->destination, ref)] *)
Definition set_destination_ref (s : nat) (ref : option nat) : code unit :=
  x ← the_sub s;
  if bool_decide (ref = destination x) then mret tt
  else
    (match ref with Some d => add_destination_ref d | None => mret tt end);;
    (match destination x with Some d => release_destination_ref d | None => mret tt end);;
    upd_sub s (set_sub_destination ref).

Definition is_reachable (v : Z) : bool := negb (Z.land v REACHABLE =? 0).

Definition set_reachable (s : nat) (dest next : option nat) (hops : Z) (prior : option nat) : code bool :=
  v ← (match dest with
       | Some d => x ← the_dest d; mret (if unicast x then REACHABLE_UNICAST else REACHABLE_BROADCAST)
       | None => mret (match next with Some _ => REACHABLE_INDIRECT | None => REACHABLE_NONE end)
       end);
  upd_sub s (set_hops hops prior);;
  x ← the_sub s;
  if (reachable x =? v) && bool_decide (next_hop x = next) && bool_decide (destination x = dest) then mret false
  else
    upd_sub s (set_reach v);;
    set_destination_ref s dest;;
    upd_sub s (set_next_hop next);;
    (if negb (sas_valid x) && is_reachable v then tell (SasRequest s) else mret tt);;
    (if bool_decide (Some s = directory_service) then tell DirectoryRegistration else mret tt);;
    (if is_reachable (reachable x) && negb (is_reachable v) then tell (PeerLost s) else mret tt);;
    (if negb (is_reachable (reachable x)) && is_reachable v then tell (PeerFound s) else mret tt);;
    mret true.

Definition the_neighbour (i : nat) : code neighbour := l ← ask neighbours; match l !! i with Some n => mret n | None => undefined end.
Definition put_neighbour (i : nat) (n : neighbour) : code unit := change (λ w, set_neighbours (<[i := n]> (neighbours w)) w).

(** The body of the loop over the neighbours; [find] is the call of [find_best_link]. *)
Definition consider (find : nat → code unit) (s : nat) (now : Z) (i : nat) (b : best) : code best :=
  n ← the_neighbour i;
  if link_in_timeout n <? now then mret b
  else
    match search sid (root n) s with
    | None => mret b
    | Some l =>
        match transmitter l with
        | None => mret b
        | Some t =>
            through ← (if bool_decide (Some t = my_subscriber) then mret true
                       else get_link_state t;; find t;; p ← get_link_state t; mret (bool_decide (s_next_hop p = Some (n_subscriber n))));
            if negb (through : bool) then mret b
            else
              n ← the_neighbour i;
              n ← lift (update_path_score sid char_signed my_subscriber (tree_size (root n)) n s);
              put_neighbour i n;;
              l ← lift (the_link sid n s);
              if (0 <? hop_count l) && ((path_drop_rate l <? b_drop b) || (path_drop_rate l =? b_drop b) && (hop_count l <? b_hops b))
              then mret (Best (Some (n_subscriber n)) (hop_count l) (path_drop_rate l) (transmitter l) (l_destination l) (Some (n_subscriber n, s)))
              else mret b
        end
    end.
Fixpoint consider_all (find : nat → code unit) (s : nat) (now : Z) (count i : nat) (b : best) : code best :=
  match count with O => mret b | S count => b ← consider find s now i b; consider_all find s now count (S i) b end.

(** The rest of the function, when the best link is known. *)
Definition take_route (s : nat) (now : Z) (b : best) : code (option (nat * nat)) :=
  t ← get_link_state s;
  v ← ask route_version;
  upd_sub s (set_state (State (b_next_hop b) (b_transmitter b) (b_hops b) v (b_link b) false (next_update t)));;
  let changed := negb (bool_decide (s_transmitter t = b_transmitter b)) || negb (bool_decide (s_link t = b_link b)) in
  c ← set_reachable s (b_destination b) (if bool_decide (b_next_hop b = Some s) then None else b_next_hop b) (b_hops b) (b_transmitter b);
  x ← the_sub s;
  let self := identity x && (reachable x =? REACHABLE_NONE) in
  (if self then upd_sub s (set_reach REACHABLE_SELF) else mret tt);;
  (if changed || c || self then
     tell (LinkAnnounced (b_hops b) (b_transmitter b) s);;
     t ← get_link_state s;
     upd_sub s (set_state (set_next_update (now + 5) t))
   else mret tt);;
  mret (if self then None else b_link b).

Fixpoint find_best_link (fuel : nat) (s : nat) : code (option (nat * nat)) :=
  x ← the_sub s;
  if reachable x =? REACHABLE_SELF then mret None
  else
    t ← get_link_state s;
    v ← ask route_version;
    if s_route_version t =? v then mret (s_link t)
    else if s_calculating t then mret None
    else
      match fuel with
      | O => undefined
      | S fuel =>
          upd_sub s (set_state (set_state_calculating true t));;
          now ← gettime;
          l ← ask neighbours;
          b ← consider_all (λ t, find_best_link fuel t;; mret tt) s now (length l) 0 (Best None 99 99 None None None);
          take_route s now b
      end.

End Routes.
End RouteLink.
