(* ===== verification/RouteLinkPath.v ===== *)
(** * Paths in the links of a neighbour

    The score that [update_path_score] gives to a link is the length and the cost of the
    path along the transmitters back to the neighbour, or -1 when there is none: the
    flags that keep it from going round in circles do not change what it finds. *)

From stdpp Require Import relations.
From S2P Require Import Prelude Prog DataFormats RouteLink.
Import Prog DataFormats RouteLink.

Module RouteLinkPath.

Section Path.
Variable sid : nat → list Z.
Variable char_signed : bool.
Variable my_subscriber : option nat.
Implicit Types n : neighbour.
Abbreviation at_ n r := (search sid (root n) r).

(** ** Trees as maps *)

Lemma search_change t r f x : search sid (change_link sid t r f) x = if decide (x = r) then f <$> search sid t r else search sid t x.
Proof.
  induction t as [|y l a IHa b IHb]; cbn; [by destruct (decide (x = r))|]. destruct (decide (r = y)) as [->|Hr]; cbn; [by repeat case_decide|].
  destruct (decide (x = r)) as [->|Hx].
  - destruct (goes_left sid r y) eqn:Er; cbn; rewrite (decide_False (P := r = y)), Er by done; done.
  - destruct (goes_left sid r y) eqn:Er; cbn; destruct (decide (x = y)); try done; by destruct (goes_left sid x y).
Qed.
Lemma search_add t r new x : search sid (add_link sid t r new) x = if decide (x = r) then Some (default new (search sid t r)) else search sid t x.
Proof.
  induction t as [|y l a IHa b IHb]; cbn; [destruct (decide (x = r)); [done|by destruct (goes_left sid x r)]|]. destruct (decide (r = y)) as [->|Hr]; cbn; [by repeat case_decide|].
  destruct (decide (x = r)) as [->|Hx].
  - destruct (goes_left sid r y) eqn:Er; cbn; rewrite (decide_False (P := r = y)), Er by done; done.
  - destruct (goes_left sid r y) eqn:Er; cbn; destruct (decide (x = y)); try done; by destruct (goes_left sid x y).
Qed.

(** The links that are not being calculated. *)
Fixpoint idle (t : link_tree) : nat := match t with Leaf => 0 | Node _ l a b => (if calculating l then 0 else 1) + idle a + idle b end.
Lemma idle_same t r f : (∀ l, calculating (f l) = calculating l) → idle (change_link sid t r f) = idle t.
Proof. intros Hf. induction t as [|y l a IHa b IHb]; cbn; [done|]. destruct (decide _); cbn; [by rewrite Hf|]. destruct (goes_left _ _ _); cbn; lia. Qed.
Lemma idle_calculating t r l : search sid t r = Some l → calculating l = false → idle t = S (idle (change_link sid t r (set_calculating true))).
Proof.
  induction t as [|y k a IHa b IHb]; cbn; [done|]. destruct (decide _); cbn; [by intros [= ->] ->|]. destruct (goes_left _ _ _); cbn; intros Hs Hl; [rewrite (IHa Hs Hl)|rewrite (IHb Hs Hl)]; lia.
Qed.

Lemma at_upd n r f x : at_ (upd_link sid n r f) x = if decide (x = r) then f <$> at_ n r else at_ n x.
Proof. apply search_change. Qed.
Lemma the_link_ret n r l : at_ n r = Some l → the_link sid n r = Ret l.
Proof. intros H. unfold the_link. by rewrite H. Qed.

(** ** Paths *)

Definition cost (l : link) : Z := if 2 <? drop_rate l then drop_rate l else 0.
(** The receiver of the link before this one: that of the parent when it is cached, or the transmitter. *)
Definition towards (l : link) : option nat := match transmitter l with Some t => Some (default t (parent l)) | None => None end.
(** The way back from the receiver of a link to this node, with its hops and drop rate; [next] is the receiver of the link before. *)
Inductive along (next : link → option nat) n : nat → Z → Z → Prop :=
  | along_first r l : at_ n r = Some l → transmitter l = my_subscriber → r = n_subscriber n → along next n r 1 (cost l)
  | along_next r l t h d : at_ n r = Some l → next l = Some t → transmitter l ≠ my_subscriber → r ≠ n_subscriber n → along next n t h d → along next n r (h + 1) (d + cost l).
(** The path that is followed, and the one along the transmitters that were reported. *)
Abbreviation path := (along towards).
Abbreviation route := (along transmitter).

(** A link that comes after the one to [y]. *)
Definition step n (x y : nat) : Prop := ∃ l, at_ n x = Some l ∧ towards l = Some y ∧ transmitter l ≠ my_subscriber ∧ x ≠ n_subscriber n.

Lemma along_det next n r h d h' d' : along next n r h d → along next n r h' d' → h' = h ∧ d' = d.
Proof.
  intros H. revert h' d'. induction H as [r l H1 H2 H3|r l t h d H1 H2 H3 H4 H5 IH]; intros h' d' H'; inversion H' as [? l' G1 G2 G3|? l' t' h1 d1 G1 G2 G3 G4 G5]; subst; rewrite H1 in G1; injection G1 as <-; try congruence; [done|].
  rewrite H2 in G2. injection G2 as <-. destruct (IH _ _ G5) as [-> ->]. done.
Qed.
Lemma along_no_self next n r l h d : at_ n r = Some l → next l = Some r → transmitter l ≠ my_subscriber → along next n r h d → False.
Proof.
  intros Hl Hn Hm H. inversion H as [? l' G1 G2 G3|? l' t' h1 d1 G1 G2 G3 G4 G5]; subst; rewrite Hl in G1; injection G1 as <-; [done|]. rewrite Hn in G2. injection G2 as <-. destruct (along_det _ _ _ _ _ _ _ H G5). lia.
Qed.
Lemma path_step n x y h d : step n x y → path n x h d → ∃ d', path n y (h - 1) d'.
Proof.
  intros (l & H1 & H2 & H3 & H4) H. inversion H as [? l' G1 G2 G3|? l' t' h1 d1 G1 G2 G3 G4 G5]; subst; rewrite H1 in G1; injection G1 as <-; [done|]. rewrite H2 in G2. injection G2 as <-. exists d1. by replace (h1 + 1 - 1) with h1 by lia.
Qed.
Lemma path_steps n k x y h d : nsteps (step n) k x y → path n x h d → ∃ d', path n y (h - Z.of_nat k) d'.
Proof.
  intros Hk. revert h d. induction Hk as [x|k x y z Hxy Hyz IH]; intros h d H; [exists d; by replace (h - Z.of_nat 0) with h by lia|]. destruct (path_step _ _ _ _ _ Hxy H) as [d1 H1]. destruct (IH _ _ H1) as [d2 H2]. exists d2. by replace (h - Z.of_nat (S k)) with (h - 1 - Z.of_nat k) by lia.
Qed.
(** There is no path from a circle. *)
Lemma no_circle n k x h d : nsteps (step n) (S k) x x → path n x h d → False.
Proof. intros Hk H. destruct (path_steps _ _ _ _ _ _ Hk H) as [d' H']. destruct (along_det _ _ _ _ _ _ _ H H'). lia. Qed.

(** ** Scores *)

(** What a calculation leaves of the links. *)
Definition fixed (l : link) := (transmitter l, l_destination l, last_ack_seq l, link_version l, drop_rate l, towards l).
Record same_links n n' : Prop := {
  sl_subscriber : n_subscriber n' = n_subscriber n;
  sl_version : n_path_version n' = n_path_version n;
  sl_timeout : link_in_timeout n' = link_in_timeout n;
  sl_fixed x : fixed <$> at_ n' x = fixed <$> at_ n x;
}.
Lemma links_refl n : same_links n n.
Proof. done. Qed.
Lemma links_trans n1 n2 n3 : same_links n1 n2 → same_links n2 n3 → same_links n1 n3.
Proof. intros [] []. split; try congruence. Qed.
Lemma same_sym n n' : same_links n n' → same_links n' n.
Proof. intros []. by split. Qed.
Lemma same_upd n r f : (∀ l, at_ n r = Some l → fixed (f l) = fixed l) → same_links n (upd_link sid n r f).
Proof. intros Hf. split; try done. intros x. rewrite at_upd. destruct (decide (x = r)) as [->|]; [|done]. destruct (at_ n r) as [l|]; cbn; [by rewrite (Hf l)|done]. Qed.
Lemma same_at n n' x l : same_links n n' → at_ n x = Some l → ∃ l', at_ n' x = Some l' ∧ fixed l' = fixed l.
Proof. intros H Hl. pose proof (sl_fixed _ _ H x) as E. rewrite Hl in E. apply fmap_Some in E as (l' & H1 & H2). by exists l'. Qed.
Lemma same_along next n n' x h d : (∀ l l', fixed l' = fixed l → next l' = next l) → same_links n n' → along next n x h d → along next n' x h d.
Proof.
  intros Hnext Hs H. induction H as [r l H1 H2 H3|r l t h d H1 H2 H3 H4 H5 IH]; destruct (same_at _ _ _ _ Hs H1) as (l' & Hl' & E); pose proof (Hnext _ _ E) as En; injection E as E1 E2 E3 E4 E5 E6; (assert (cost l = cost l') as -> by (unfold cost; by rewrite E5)).
  - apply along_first; [done|congruence|rewrite (sl_subscriber _ _ Hs); done].
  - apply (along_next _ _ _ _ t); [done|congruence|congruence|rewrite (sl_subscriber _ _ Hs); done|done].
Qed.
Lemma same_path n n' x h d : same_links n n' → path n x h d → path n' x h d.
Proof. apply same_along. by intros l l' [= _ _ _ _ _ E]. Qed.
Lemma same_route n n' x h d : same_links n n' → route n x h d → route n' x h d.
Proof. apply same_along. by intros l l' [= E _ _ _ _ _]. Qed.
Lemma same_step n n' x y : same_links n n' → step n x y → step n' x y.
Proof. intros Hs (l & H1 & H2 & H3 & H4). destruct (same_at _ _ _ _ Hs H1) as (l' & Hl' & E). injection E as E1 _ _ _ _ E6. exists l'. rewrite E1, E6, (sl_subscriber _ _ Hs). done. Qed.
Lemma same_steps n n' k x y : same_links n n' → nsteps (step n) k x y → nsteps (step n') k x y.
Proof. intros Hs H. induction H; econstructor; [by eapply same_step|done]. Qed.

(** A cached parent is a link of the table. *)
Definition parents_known n : Prop := ∀ x l p, at_ n x = Some l → parent l = Some p → is_Some (at_ n p).
(** A cached parent is the link of the transmitter. *)
Definition coherent n : Prop := ∀ x l p, at_ n x = Some l → parent l = Some p → transmitter l = Some p.
Definition fresh n (l : link) : Prop := path_version l = n_path_version n.
(** The score of a link is that of its path. *)
Definition path_scored n x (l : link) : Prop := (∀ h d, path n x h d → hop_count l = h ∧ path_drop_rate l = d) ∧ ((∀ h d, ¬ path n x h d) → hop_count l = -1).
Record consistent n : Prop := {
  cs_known : parents_known n;
  cs_scored x l : at_ n x = Some l → fresh n l → path_scored n x l;
  cs_calculating x l : at_ n x = Some l → calculating l = true → ¬ fresh n l;
}.

Lemma along_pos next n x h d : along next n x h d → 0 < h.
Proof. induction 1; lia. Qed.
Lemma path_dec n k : ∀ x d, {path n x (Z.of_nat k) d} + {¬ path n x (Z.of_nat k) d}.
Proof.
  induction k as [|k IH]; intros x d; [right; intros H; apply along_pos in H; lia|]. destruct (at_ n x) as [l|] eqn:Hl; [|right; inversion 1; congruence].
  destruct (decide (transmitter l = my_subscriber)) as [Hm|Hm].
  - destruct (decide (x = n_subscriber n ∧ k = 0%nat ∧ d = cost l)) as [(Hx & -> & ->)|Hno]; [left; by apply along_first|right]. intros H. apply Hno. inversion H as [? l' G1 G2 G3 G4|? l' t' h1 d1 G1 G2 G3]; subst; rewrite Hl in G1; injection G1 as <-; [split_and!; [done|lia|done]|done].
  - destruct (decide (x = n_subscriber n)) as [Hx|Hx]; [right; inversion 1; congruence|]. destruct (towards l) as [t|] eqn:Ht; [|right; inversion 1; congruence].
    destruct (IH t (d - cost l)) as [H|H]; [left|right].
    + replace (Z.of_nat (S k)) with (Z.of_nat k + 1) by lia. replace d with (d - cost l + cost l) by lia. apply (along_next _ n x l t); congruence.
    + intros H'. apply H. inversion H' as [? l' G1 G2 G3 G4|? l' t' h1 d1 G1 G2 G3 G4 G5 G6]; subst; rewrite Hl in G1; injection G1 as <-; [congruence|]. rewrite Ht in G2. injection G2 as <-. replace (Z.of_nat k) with h1 by lia. by replace (d1 + cost l - cost l) with d1 by lia.
Qed.
Lemma scored_path n x l : path_scored n x l → 0 < hop_count l → path n x (hop_count l) (path_drop_rate l).
Proof.
  intros [H1 H2] Hpos. destruct (path_dec n (Z.to_nat (hop_count l)) x (path_drop_rate l)) as [H|H]; rewrite Z2Nat.id in H by lia; [done|]. exfalso. enough (hop_count l = -1) by lia. apply H2. intros h d Hr. by destruct (H1 h d Hr) as [<- <-].
Qed.
Lemma path_scored_same n n' x l l' : same_links n n' → hop_count l' = hop_count l → path_drop_rate l' = path_drop_rate l → path_scored n x l → path_scored n' x l'.
Proof.
  intros Hs E1 E2 [H1 H2]. unfold path_scored. rewrite E1, E2. split; [intros h d Hr; apply H1; eapply same_path; [by apply same_sym|done]|]. intros Hno. apply H2. intros h d Hr. apply (Hno h d). by eapply same_path.
Qed.

Lemma coherent_upd n r f : (∀ l, parent (f l) = parent l ∧ transmitter (f l) = transmitter l) → coherent n → coherent (upd_link sid n r f).
Proof.
  intros Hf Hc x k p. rewrite at_upd. destruct (decide (x = r)) as [->|]; [|by apply Hc]. intros Hk. apply fmap_Some in Hk as (l & Hl & ->). destruct (Hf l) as [-> ->]. by apply (Hc r).
Qed.

(** What [get_parent] returns. *)
Lemma get_parent_ret n r l : at_ n r = Some l → parents_known n → ∃ po n', get_parent sid char_signed n r = Ret (po, n') ∧ same_links n n' ∧ parents_known n' ∧ (coherent n → coherent n') ∧ idle (root n') = idle (root n) ∧
  (∀ x, ∃ f, at_ n' x = f <$> at_ n x ∧ ∀ k, calculating (f k) = calculating k ∧ path_version (f k) = path_version k ∧ hop_count (f k) = hop_count k ∧ path_drop_rate (f k) = path_drop_rate k) ∧
  match po with Some p => towards l = Some p ∧ r ≠ n_subscriber n ∧ is_Some (at_ n p) | None => r = n_subscriber n ∨ ∀ t, towards l = Some t → at_ n t = None end.
Proof.
  intros Hl Hc. unfold get_parent. rewrite (the_link_ret _ _ _ Hl), bind_ret_l. assert (∀ x, ∃ f, at_ n x = f <$> at_ n x ∧ ∀ k : link, calculating (f k) = calculating k ∧ path_version (f k) = path_version k ∧ hop_count (f k) = hop_count k ∧ path_drop_rate (f k) = path_drop_rate k) as Hid.
  { intros x. exists id. by rewrite option_fmap_id. }
  destruct (transmitter l) as [t|] eqn:Et; [|exists None, n; split_and!; try done; right; unfold towards; by rewrite Et]. destruct (bool_decide_reflect (r = n_subscriber n)) as [Hr|Hr]; [exists None, n; split_and!; try done; by left|].
  destruct (parent l) as [p|] eqn:Ep; [exists (Some p), n; pose proof (Hc r l p Hl Ep) as Hp; split_and!; try done; unfold towards; by rewrite Et, Ep|]. assert ((find_link sid char_signed n t false).2 = at_ n t) as -> by (unfold find_link; by destruct (at_ n t)).
  assert (towards l = Some t) as Etow by (unfold towards; by rewrite Et, Ep).
  set (po := match at_ n t with Some _ => Some t | None => None end). eexists _, _. split; [reflexivity|]. assert (∀ k, at_ n r = Some k → fixed (set_parent po k) = fixed k) as Hf.
  { intros k Hk. rewrite Hl in Hk. injection Hk as <-. unfold fixed, towards. cbn. rewrite Et, Ep. unfold po. by destruct (at_ n t). }
  assert (∀ x, ∃ f, at_ (upd_link sid n r (set_parent po)) x = f <$> at_ n x ∧ ∀ k, calculating (f k) = calculating k ∧ path_version (f k) = path_version k ∧ hop_count (f k) = hop_count k ∧ path_drop_rate (f k) = path_drop_rate k) as Hat.
  { intros x. rewrite at_upd. destruct (decide (x = r)) as [->|]; [by exists (set_parent po)|apply Hid]. }
  assert (∀ p, is_Some (at_ n p) → is_Some (at_ (upd_link sid n r (set_parent po)) p)) as Hin by (intros p Hp; rewrite at_upd; destruct (decide (p = r)) as [->|]; [by apply fmap_is_Some|done]).
  split_and!; [by apply same_upd| | |by apply idle_same|done|].
  - intros x k p. rewrite at_upd. destruct (decide (x = r)) as [->|Hx]; [|intros Hk Hp; by apply Hin, (Hc x k)]. rewrite Hl. intros [= <-]. cbn. unfold po. destruct (at_ n t) as [tl|] eqn:Ett; [|done]. intros [= <-]. apply Hin. by rewrite Ett.
  - intros Hco x k p. rewrite at_upd. destruct (decide (x = r)) as [->|Hx]; [|by apply Hco]. rewrite Hl. intros [= <-]. cbn. rewrite Et. unfold po. destruct (at_ n t); [|done]. by intros [= <-].
  - unfold po. destruct (at_ n t) as [tl|] eqn:Ett; [split_and!; [done|done|by rewrite Ett]|right; congruence].
Qed.

(** No path goes through a link that has none to its transmitter. *)
Lemma no_path n r l h d : at_ n r = Some l → transmitter l ≠ my_subscriber → (r = n_subscriber n ∨ ∀ t, towards l = Some t → ∀ h d, ¬ path n t h d) → ¬ path n r h d.
Proof. intros Hl Hm Hor H. inversion H as [? l' G1 G2 G3|? l' t' h1 d1 G1 G2 G3 G4 G5]; subst; rewrite Hl in G1; injection G1 as <-; [done|]. destruct Hor as [?|Hno]; [done|]. by apply (Hno t' G2 h1 d1). Qed.
Lemma not_at_no_path n t h d : at_ n t = None → ¬ path n t h d.
Proof. intros Hn H. inversion H; congruence. Qed.

(** Storing the score of a link. *)
Lemma store_score n r l hops drop : consistent n → at_ n r = Some l → (∀ h d, path n r h d → hops = h ∧ drop = d) → ((∀ h d, ¬ path n r h d) → hops = -1) →
  let n' := upd_link sid n r (set_score hops (n_path_version n) drop) in same_links n n' ∧ consistent n'.
Proof.
  intros [S1 S2 S3] Hl H1 H2 n'. assert (same_links n n') as Hs by (by apply same_upd). split; [done|]. split.
  - intros x k p. unfold n'. rewrite !at_upd. intros Hk Hp. assert (is_Some (at_ n p)) as G2. { destruct (decide (x = r)) as [->|]; [|by apply (S1 x k)]. rewrite Hl in Hk. injection Hk as <-. by apply (S1 r l). }
    destruct (decide (p = r)); [rewrite Hl; by eexists|done].
  - intros x k Hk Hf. unfold n' in Hk. rewrite at_upd in Hk. destruct (decide (x = r)) as [->|Hx].
    + rewrite Hl in Hk. injection Hk as <-. split; cbn; [intros h d Hr; apply H1; eapply same_path; [by apply same_sym|done]|intros Hno; apply H2; intros h d Hr; by apply (Hno h d), (same_path n)].
    + apply (path_scored_same n n' x k k Hs eq_refl eq_refl). by apply S2.
  - intros x k Hk. unfold n' in Hk. rewrite at_upd in Hk. destruct (decide (x = r)) as [->|Hx]; [rewrite Hl in Hk; by injection Hk as <-|]. apply (S3 x k Hk).
Qed.

Definition calc_of n x : option bool := calculating <$> at_ n x.

(** The score from the score of the parent, when that is found. *)
Lemma found_ret n r l (rec : neighbour → nat → outcome neighbour) : consistent n → at_ n r = Some l → calculating l = true → (∀ x k, at_ n x = Some k → calculating k = true → ∃ j, nsteps (step n) j x r) →
  (∀ n' p pl, same_links n n' → consistent n' → at_ n' p = Some pl → (∀ x, calc_of n' x = calc_of n x) → idle (root n') = idle (root n) → calculating pl = false → step n r p →
     ∃ n'', rec n' p = Ret n'' ∧ same_links n' n'' ∧ consistent n'' ∧ (coherent n' → coherent n'') ∧ (∀ x, calc_of n'' x = calc_of n' x) ∧ ∃ l', at_ n'' p = Some l' ∧ fresh n'' l') →
  ∃ n2 hops drop, (if bool_decide (transmitter l = my_subscriber) then Ret (n, if bool_decide (r = n_subscriber n) then 1 else -1, 0)
    else p ← get_parent sid char_signed n r;
         match p with
         | (None, n) => Ret (n, -1, 0)
         | (Some p, n) => pl ← the_link sid n p; if calculating pl then Ret (n, -1, 0) else n ← rec n p; pl ← the_link sid n p; Ret (if 0 <? hop_count pl then (n, hop_count pl + 1, path_drop_rate pl) else (n, -1, 0))
         end) = Ret (n2, hops, drop) ∧ same_links n n2 ∧ consistent n2 ∧ (coherent n → coherent n2) ∧ (∀ x, calc_of n2 x = calc_of n x) ∧
      (∀ h d, path n r h d → hops = h ∧ drop + cost l = d) ∧ ((∀ h d, ¬ path n r h d) → hops = -1).
Proof.
  intros Hs Hl Hcl Hstack Hrec. destruct (bool_decide_reflect (transmitter l = my_subscriber)) as [Hm|Hm].
  { eexists n, _, 0. split; [reflexivity|]. split_and!; try done.
    - intros h d H. inversion H as [? l' G1 G2 G3|? l' t' h1 d1 G1 G2 G3 G4 G5]; subst; rewrite Hl in G1; injection G1 as <-; [by rewrite bool_decide_true|done].
    - intros Hno. rewrite bool_decide_false; [done|]. intros ->. by apply (Hno 1 (cost l)), along_first. }
  destruct (get_parent_ret n r l Hl (cs_known _ Hs)) as (po & n1 & -> & Hs1 & Hc1 & Hco1 & Hi1 & Hat1 & Hpo). rewrite bind_ret_l. assert (consistent n1) as Hso1.
  { destruct Hs as [C1 C2 C3]. split; [done|..]; intros x k Hk; destruct (Hat1 x) as (f & E & Hfx); rewrite E in Hk; apply fmap_Some in Hk as (k0 & Hk0 & ->); destruct (Hfx k0) as (F1 & F2 & F3 & F4); unfold fresh; rewrite F2, (sl_version _ _ Hs1).
    - intros Hfr. apply (path_scored_same n n1 x k0 _ Hs1 F3 F4). by apply (C2 x k0 Hk0).
    - rewrite F1. by apply (C3 x k0 Hk0). }
  assert (∀ x, calc_of n1 x = calc_of n x) as Hcalc1. { intros x. unfold calc_of. destruct (Hat1 x) as (f & -> & Hfx). destruct (at_ n x) as [k|]; cbn; [by rewrite (proj1 (Hfx k))|done]. }
  destruct po as [p|].
  2: { exists n1, (-1), 0. split_and!; try done. intros h d H. exfalso. apply (no_path n r l h d Hl Hm); [|done]. destruct Hpo as [?|Hno]; [by left|]. right. intros t Ht h' d'. by apply not_at_no_path, Hno. }
  destruct Hpo as (Ht & Hr & (pl0 & Hp0)). assert (step n r p) as Hstep by (by exists l). destruct (same_at _ _ _ _ Hs1 Hp0) as (pl & Hpl & _). rewrite (the_link_ret _ _ _ Hpl), bind_ret_l.
  destruct (calculating pl) eqn:Ecp.
  { exists n1, (-1), 0. split_and!; try done. intros h d H. exfalso. specialize (Hcalc1 p). unfold calc_of in Hcalc1. rewrite Hpl, Hp0 in Hcalc1. cbn in Hcalc1. injection Hcalc1 as Hc. destruct (Hstack p pl0 Hp0) as [j Hj]; [congruence|]. apply (no_circle n j r h d); [by econstructor|done]. }
  destruct (Hrec n1 p pl Hs1 Hso1 Hpl Hcalc1 Hi1 Ecp Hstep) as (n2 & -> & Hs2 & Hso2 & Hco2 & Hcalc2 & l2 & Hl2 & Hfr). rewrite bind_ret_l, (the_link_ret _ _ _ Hl2), bind_ret_l. destruct (cs_scored _ Hso2 p l2 Hl2 Hfr) as [Q1 Q2]. assert (same_links n n2) as Hs12 by (by eapply links_trans).
  assert (∀ h d, path n p h d → hop_count l2 = h ∧ path_drop_rate l2 = d) as Q1' by (intros h d H; by apply Q1, (same_path n)).
  destruct (Z.ltb_spec 0 (hop_count l2)) as [Hpos|Hneg].
  - eexists n2, _, _. split; [reflexivity|]. split_and!; [done|done|by intros Hc; apply Hco2, Hco1|intros x; by rewrite Hcalc2| |].
    + intros h d H. inversion H as [? l' G1 G2 G3|? l' t' h1 d1 G1 G2 G3 G4 G5]; subst; rewrite Hl in G1; injection G1 as <-; [done|]. rewrite Ht in G2. injection G2 as <-. destruct (Q1' _ _ G5) as [-> ->]. done.
    + intros Hno. exfalso. enough (hop_count l2 = -1) by lia. apply Q2. intros h d H. apply (Hno (h + 1) (d + cost l)). apply (along_next _ _ _ _ p); [done|done|done|done|]. eapply same_path; [by apply same_sym|done].
  - eexists n2, _, _. split; [reflexivity|]. split_and!; [done|done|by intros Hc; apply Hco2, Hco1|intros x; by rewrite Hcalc2| |done]. intros h d H. exfalso. destruct (path_step n r p h d Hstep H) as [d' H']. destruct (Q1' _ _ H') as [E _]. apply along_pos in H'. lia.
Qed.

(** The links that are being calculated lead to the one that is asked for. *)
Lemma update_path_ret fuel : ∀ n r l, consistent n → at_ n r = Some l → (∀ x k, at_ n x = Some k → calculating k = true → ∃ j, nsteps (step n) j x r) → (idle (root n) ≤ fuel)%nat →
  ∃ n', update_path_score sid char_signed my_subscriber fuel n r = Ret n' ∧ same_links n n' ∧ consistent n' ∧ (coherent n → coherent n') ∧ (∀ x, calc_of n' x = calc_of n x) ∧ (calculating l = false → ∃ l', at_ n' r = Some l' ∧ fresh n' l').
Proof.
  induction fuel as [|fuel IH]; intros n r l Hs Hl Hstack Hfuel; cbn [update_path_score]; rewrite (the_link_ret _ _ _ Hl), bind_ret_l; (destruct (Z.eqb_spec (path_version l) (n_path_version n)) as [Hf|Hf]; [exists n; split_and!; try done; intros _; by exists l|]);
    destruct (calculating l) eqn:Ec; try (exists n; by split_and!); pose proof (idle_calculating _ _ _ Hl Ec) as Hidle; [lia|]. cbv zeta.
  set (n1 := upd_link sid n r (set_calculating true)). assert (same_links n n1) as Hs1 by (by apply same_upd). set (l1 := set_calculating true l). assert (at_ n1 r = Some l1) as Hl1 by (unfold n1; rewrite at_upd, decide_True by done; by rewrite Hl).
  assert (∀ x, x ≠ r → at_ n1 x = at_ n x) as Hoth by (intros x Hx; unfold n1; by rewrite at_upd, decide_False). assert (consistent n1) as Hso1.
  { destruct Hs as [C1 C2 C3]. split.
    - intros x k p Hk Hp. destruct (decide (x = r)) as [->|Hx]; [rewrite Hl1 in Hk; injection Hk as <-; pose proof (C1 r l p Hl Hp) as G2|rewrite Hoth in Hk by done; pose proof (C1 x k p Hk Hp) as G2]; (destruct (decide (p = r)) as [->|Hpr]; [rewrite Hl1; by eexists|by rewrite Hoth]).
    - intros x k Hk Hfr. destruct (decide (x = r)) as [->|Hx]; [rewrite Hl1 in Hk; by injection Hk as <-|]. rewrite Hoth in Hk by done. apply (path_scored_same n n1 x k k Hs1 eq_refl eq_refl). by apply C2.
    - intros x k Hk Hck. destruct (decide (x = r)) as [->|Hx]; [rewrite Hl1 in Hk; by injection Hk as <-|]. rewrite Hoth in Hk by done. by apply (C3 x k). }
  (* the score that is found, and what it leaves *)
  assert (∃ n2 hops drop, (if bool_decide (transmitter l = my_subscriber) then Ret (n1, if bool_decide (r = n_subscriber n1) then 1 else -1, 0)
    else p ← get_parent sid char_signed n1 r;
         match p with
         | (None, n) => Ret (n, -1, 0)
         | (Some p, n) => pl ← the_link sid n p; if calculating pl then Ret (n, -1, 0) else n ← update_path_score sid char_signed my_subscriber fuel n p; pl ← the_link sid n p; Ret (if 0 <? hop_count pl then (n, hop_count pl + 1, path_drop_rate pl) else (n, -1, 0))
         end) = Ret (n2, hops, drop) ∧ same_links n n2 ∧ consistent n2 ∧ (coherent n1 → coherent n2) ∧ (∀ x, calc_of n2 x = calc_of n1 x) ∧
      (∀ h d, path n r h d → hops = h ∧ drop + cost l = d) ∧ ((∀ h d, ¬ path n r h d) → hops = -1)) as (n2 & hops & drop & -> & Hs2 & Hso2 & Hco2 & Hcalc2 & Hr1 & Hr2).
  { assert (∀ x k, at_ n1 x = Some k → calculating k = true → ∃ j, nsteps (step n1) j x r) as Hstack1.
    { intros x k Hk Hck. destruct (decide (x = r)) as [->|Hx]; [by exists 0%nat; constructor|]. rewrite Hoth in Hk by done. destruct (Hstack x k Hk Hck) as [j Hj]. exists j. by eapply same_steps. }
    destruct (found_ret n1 r l1 (update_path_score sid char_signed my_subscriber fuel) Hso1 Hl1 eq_refl Hstack1) as (n2 & hops & drop & E & F1 & F2 & F6 & F3 & F4 & F5).
    - intros n' p pl G1 G2 G3 G4 G5 G6 G7. destruct (IH n' p pl G2 G3) as (n'' & K1 & K2 & K3 & K6 & K4 & K5); [| |exists n''; split_and!; try done; by apply K5].
      + intros x k Hk Hck. assert (∃ k1, at_ n1 x = Some k1 ∧ calculating k1 = true) as (k1 & Hk1 & Hck1). { specialize (G4 x). unfold calc_of in G4. rewrite Hk in G4. symmetry in G4. apply fmap_Some in G4 as (k1 & ? & ?). exists k1. split; [done|congruence]. }
        destruct (Hstack1 x k1 Hk1 Hck1) as [j Hj]. exists (j + 1)%nat. eapply same_steps; [exact G1|]. eapply nsteps_trans; [exact Hj|]. by apply nsteps_once.
      + rewrite G5. change (root n1) with (change_link sid (root n) r (set_calculating true)). lia.
    - exists n2, hops, drop. change (transmitter l1) with (transmitter l) in E. split; [exact E|]. split_and!; [by eapply links_trans|done|done|done| |].
      + intros h d Hr. apply (F4 h d). by eapply same_path.
      + intros Hno. apply F5. intros h d Hr. apply (Hno h d). eapply same_path; [by apply same_sym|done]. }
  rewrite bind_ret_l. assert ((if 2 <? drop_rate l then drop + drop_rate l else drop) = drop + cost l) as -> by (unfold cost; destruct (2 <? drop_rate l); lia).
  destruct (same_at _ _ _ _ Hs2 Hl) as (l2 & Hl2 & El2). destruct (store_score n2 r l2 hops (drop + cost l) Hso2 Hl2) as [Hs3 Hso3].
  { intros h d Hr. apply Hr1. eapply same_path; [by apply same_sym|done]. } { intros Hno. apply Hr2. intros h d Hr. apply (Hno h d). by eapply same_path. }
  eexists. split; [reflexivity|]. split_and!; [by eapply links_trans|done|intros Hc; by apply coherent_upd, Hco2, coherent_upd| |].
  - intros x. unfold calc_of. rewrite at_upd. destruct (decide (x = r)) as [->|Hx]; [rewrite Hl2, Hl; cbn; by rewrite Ec|]. fold (calc_of n2 x). rewrite Hcalc2. unfold calc_of. by rewrite Hoth.
  - intros _. eexists. rewrite at_upd, decide_True, Hl2 by done. done.
Qed.

(** ** Paths along the transmitters *)

Lemma coherent_route n x h d : coherent n → path n x h d ↔ route n x h d.
Proof.
  intros Hc. assert (∀ r l, at_ n r = Some l → towards l = transmitter l) as E. { intros r l Hl. unfold towards. destruct (transmitter l) as [t|] eqn:Et; [|done]. destruct (parent l) as [p|] eqn:Ep; [|done]. rewrite (Hc r l p Hl Ep) in Et. by injection Et as ->. }
  split; (induction 1 as [r l H1 H2 H3|r l t h d H1 H2 H3 H4 H5 IH]; [by apply along_first|]; apply (along_next _ _ _ _ t); try done); [rewrite <- (E r l)|rewrite (E r l)]; done.
Qed.

(** Every link leads to its transmitter's. *)
Definition scored n x (l : link) : Prop := (∀ h d, route n x h d → hop_count l = h ∧ path_drop_rate l = d) ∧ ((∀ h d, ¬ route n x h d) → hop_count l = -1).
Record sound n : Prop := {
  so_coherent x l p : at_ n x = Some l → parent l = Some p → transmitter l = Some p ∧ is_Some (at_ n p);
  so_scored x l : at_ n x = Some l → fresh n l → scored n x l;
  so_calculating x l : at_ n x = Some l → calculating l = true → ¬ fresh n l;
}.
Lemma scored_coherent n x l : coherent n → scored n x l ↔ path_scored n x l.
Proof. intros Hc. unfold scored, path_scored. by repeat setoid_rewrite (coherent_route n x _ _ Hc). Qed.
Lemma sound_spec n : sound n ↔ consistent n ∧ coherent n.
Proof.
  split.
  - intros [S1 S2 S3]. assert (coherent n) as Hc by (intros x l p Hl Hp; by apply (S1 x l p)). split; [|done]. split; [intros x l p Hl Hp; by apply (S1 x l p)| |done]. intros x l Hl Hf. apply scored_coherent; [done|by apply S2].
  - intros [[C1 C2 C3] Hc]. split; [|intros x l Hl Hf; apply scored_coherent; [done|by apply C2]|done]. intros x l p Hl Hp. split; [by apply (Hc x l p)|by apply (C1 x l p)].
Qed.
Lemma scored_route n x l : coherent n → scored n x l → 0 < hop_count l → route n x (hop_count l) (path_drop_rate l).
Proof. intros Hc Hs Hp. apply coherent_route; [done|]. apply scored_path; [|done]. by apply scored_coherent. Qed.
Lemma update_ret fuel n r l : sound n → at_ n r = Some l → (∀ x k, at_ n x = Some k → calculating k = true → ∃ j, nsteps (step n) j x r) → (idle (root n) ≤ fuel)%nat →
  ∃ n', update_path_score sid char_signed my_subscriber fuel n r = Ret n' ∧ same_links n n' ∧ sound n' ∧ (∀ x, calc_of n' x = calc_of n x) ∧ (calculating l = false → ∃ l', at_ n' r = Some l' ∧ fresh n' l').
Proof.
  intros Hs Hl Hst Hf. apply sound_spec in Hs as [Hcs Hco]. destruct (update_path_ret fuel n r l Hcs Hl Hst Hf) as (n' & H1 & H2 & H3 & H4 & H5 & H6). exists n'. split_and!; try done. apply sound_spec. auto.
Qed.

End Path.
Abbreviation path sid my := (along sid my towards).
Abbreviation route sid my := (along sid my transmitter).
End RouteLinkPath.
