(* ===== verification/RouteLinkBest.v ===== *)
(** * The best route

    [find_best_link] ends whatever the links are, and takes the best of the paths
    through the neighbours that are heard. *)

From S2P Require Import Prelude Prog DataFormats RouteLink RouteLinkPath.
Import Prog DataFormats RouteLink RouteLinkPath.

Module RouteLinkBest.

(** ** Counting *)

Definition count {A} (P : A → bool) (m : gmap nat A) : nat := size (filter (λ p, P p.2 = true) m).
Lemma count_fresh {A} (P : A → bool) m s x : m !! s = None → count P (<[s := x]> m) = (Nat.b2n (P x) + count P m)%nat.
Proof.
  intros Hs. unfold count. destruct (P x) eqn:E; cbn [Nat.b2n].
  - rewrite map_filter_insert_True by done. rewrite map_size_insert_None; [done|]. apply map_lookup_filter_None. by left.
  - rewrite map_filter_insert_False by (cbn; congruence). by rewrite delete_id.
Qed.
Lemma count_insert {A} (P : A → bool) m s x x' : m !! s = Some x → (count P (<[s := x']> m) + Nat.b2n (P x) = count P m + Nat.b2n (P x'))%nat.
Proof.
  intros Hs. assert (m = <[s := x]> (delete s m)) as E by (by rewrite insert_delete_id). rewrite E at 2. replace (<[s := x']> m) with (<[s := x']> (delete s m)) by (by rewrite insert_delete_eq).
  rewrite !count_fresh by apply lookup_delete_eq. lia.
Qed.
Lemma count_pos {A} (P : A → bool) m s x : m !! s = Some x → P x = true → (0 < count P m)%nat.
Proof. intros Hs HP. pose proof (count_insert P m s x x Hs). assert (m = <[s := x]> (delete s m)) as -> by (by rewrite insert_delete_id). rewrite count_fresh by apply lookup_delete_eq. rewrite HP. cbn. lia. Qed.

Section Best.
Variable sid : nat → list Z.
Variable char_signed : bool.
Variables (my_subscriber directory_service : option nat).
Variable gettime_ms : nat → Z.
Implicit Types w : world.
Abbreviation at_ n r := (search sid (root n) r).
Abbreviation route := (route sid my_subscriber).
Abbreviation sound := (sound sid my_subscriber).
Abbreviation same_links := (same_links sid).

(** ** Destinations *)

Definition uses (d : nat) (x : subscriber) : bool := bool_decide (destination x = Some d).
Definition users (m : gmap nat subscriber) (d : nat) : Z := Z.of_nat (count (uses d) m).
Definition link_uses (l : list neighbour) (d : nat) : Prop := ∃ n x k, n ∈ l ∧ at_ n x = Some k ∧ l_destination k = Some d.
(** Every link and every subscriber with a destination holds a reference. *)
Definition dests_ok (L : nat → Prop) (m : gmap nat subscriber) (D : gmap nat network_destination) : Prop :=
  ∀ d, (L d → ∃ e, D !! d = Some e ∧ users m d + 1 ≤ _ref_count e) ∧ (0 < users m d → ∃ e, D !! d = Some e ∧ users m d ≤ _ref_count e).

Lemma users_insert m s x x' d : m !! s = Some x → users (<[s := x']> m) d = users m d - Z.b2z (uses d x) + Z.b2z (uses d x').
Proof. intros Hs. unfold users. pose proof (count_insert (uses d) m s x x' Hs). destruct (uses d x), (uses d x'); cbn [Nat.b2n Z.b2z] in *; lia. Qed.
Lemma users_pos m s x d : m !! s = Some x → destination x = Some d → 0 < users m d.
Proof. intros Hs Hd. unfold users. pose proof (count_pos (uses d) m s x Hs). unfold uses in *. rewrite bool_decide_true in H by done. specialize (H eq_refl). lia. Qed.

(** ** Running *)

Lemma runs_sub s x w (Q : subscriber → world → Prop) : subs w !! s = Some x → Q x w → runs (the_sub s) w Q.
Proof. intros Hs HQ. unfold the_sub. apply runs_bind, runs_ask. rewrite Hs. by apply runs_ret. Qed.
Lemma runs_upd s f x w (Q : unit → world → Prop) : subs w !! s = Some x → Q tt (set_subs (<[s := f x]> (subs w)) w) → runs (upd_sub s f) w Q.
Proof. intros Hs HQ. unfold upd_sub. apply runs_bind, (runs_sub s x); [done|]. by apply runs_change. Qed.
Lemma runs_the_dest d e w (Q : network_destination → world → Prop) : dests w !! d = Some e → Q e w → runs (the_dest d) w Q.
Proof. intros Hs HQ. unfold the_dest. apply runs_bind, runs_ask. rewrite Hs. by apply runs_ret. Qed.

(** What a change of the references leaves of a destination. *)
Definition same_dests (D D' : gmap nat network_destination) : Prop := ∀ d e', D' !! d = Some e' → ∃ e, D !! d = Some e ∧ unicast e' = unicast e.

(** One more reference than the users hold, to [ref]. *)
Definition extra (ref : option nat) (d : nat) : Z := if bool_decide (ref = Some d) then 1 else 0.
Definition held_for (L : nat → Prop) (ref : option nat) (m : gmap nat subscriber) (D : gmap nat network_destination) : Prop :=
  ∀ d, (L d → ∃ e, D !! d = Some e ∧ users m d + 1 + extra ref d ≤ _ref_count e) ∧ (0 < users m d → ∃ e, D !! d = Some e ∧ users m d + extra ref d ≤ _ref_count e).

Lemma take_ref_runs L ref w : dests_ok L (subs w) (dests w) → (∀ d, ref = Some d → L d) →
  runs (match ref with Some d => add_destination_ref d | None => mret tt end) w (λ _ w', ∃ D, w' = set_dests D w ∧ held_for L ref (subs w) D ∧ same_dests (dests w) D).
Proof.
  intros Hd Hl. destruct ref as [d0|].
  - destruct (proj1 (Hd d0) (Hl d0 eq_refl)) as (e & He & Hr). unfold add_destination_ref. apply runs_bind, (runs_the_dest d0 e); [done|]. apply runs_change. eexists. split; [reflexivity|]. split.
    + intros d. destruct (Hd d) as [H1 H2]. unfold extra. destruct (decide (d = d0)) as [->|Hdd].
      * rewrite bool_decide_true by done. rewrite lookup_insert_eq. split; intros; (eexists; split; [done|cbn; lia]).
      * rewrite bool_decide_false by congruence. rewrite lookup_insert_ne by done. split; intros H; [destruct (H1 H) as (e' & ? & ?)|destruct (H2 H) as (e' & ? & ?)]; (exists e'; split; [done|lia]).
    + intros d e' H. destruct (decide (d = d0)) as [->|Hdd]; [rewrite lookup_insert_eq in H; injection H as <-; by exists e|rewrite lookup_insert_ne in H by done; by exists e'].
  - apply runs_ret. exists (dests w). split; [by destruct w|]. split; [|intros d e' H; by exists e']. intros d. unfold extra. rewrite bool_decide_false by done. destruct (Hd d) as [H1 H2]. split; intros H; [destruct (H1 H) as (e' & ? & ?)|destruct (H2 H) as (e' & ? & ?)]; (exists e'; split; [done|lia]).
Qed.

Lemma release_old_runs L s ref x w : held_for L ref (subs w) (dests w) → subs w !! s = Some x → ref ≠ destination x → (∀ d, ref = Some d → L d) →
  runs (match destination x with Some d => release_destination_ref d | None => mret tt end) w (λ _ w', ∃ D, w' = set_dests D w ∧ dests_ok L (<[s := set_sub_destination ref x]> (subs w)) D ∧ same_dests (dests w) D).
Proof.
  intros Hd Hs Hne Hl.
  assert (∀ d, users (<[s := set_sub_destination ref x]> (subs w)) d = users (subs w) d - Z.b2z (uses d x) + extra ref d) as Hu.
  { intros d. rewrite (users_insert _ _ x) by done. unfold uses at 2, extra. cbn. by destruct (bool_decide (ref = Some d)). }
  assert (∀ (D : gmap nat network_destination) d, uses d x = false → D !! d = dests w !! d → (L d → ∃ e, D !! d = Some e ∧ users (<[s := set_sub_destination ref x]> (subs w)) d + 1 ≤ _ref_count e) ∧ (0 < users (<[s := set_sub_destination ref x]> (subs w)) d → ∃ e, D !! d = Some e ∧ users (<[s := set_sub_destination ref x]> (subs w)) d ≤ _ref_count e)) as Hother.
  { intros D d Hno E. rewrite Hu, Hno, E. cbn [Z.b2z]. destruct (Hd d) as [H1 H2]. unfold extra in *. destruct (bool_decide_reflect (ref = Some d)) as [Hr|Hr].
    - destruct (H1 (Hl d Hr)) as (e & He & Hc). split; intros; (exists e; split; [done|lia]).
    - split; intros H; [destruct (H1 H) as (e & He & Hc)|destruct H2 as (e & He & Hc); [lia|]]; (exists e; split; [done|lia]). }
  destruct (destination x) as [d0|] eqn:Ed.
  2: { apply runs_ret. exists (dests w). split; [by destruct w|]. split; [|intros d e' H; by exists e']. intros d. apply Hother; [|done]. unfold uses. by rewrite Ed. }
  assert (uses d0 x = true) as Hx by (unfold uses; rewrite Ed; by apply bool_decide_true). pose proof (users_pos _ _ _ _ Hs Ed) as Hp. destruct (Hd d0) as [H1 H2]. destruct (H2 Hp) as (e & He & Hc). unfold extra in *. rewrite bool_decide_false in H1, H2, Hc by done.
  unfold release_destination_ref. apply runs_bind, (runs_the_dest d0 e); [done|]. apply runs_change. eexists. split; [reflexivity|]. split.
  - intros d. destruct (decide (d = d0)) as [->|Hdd].
    2: { apply Hother; [unfold uses; rewrite Ed; apply bool_decide_false; congruence|]. destruct (_ref_count e <=? 1); [by apply lookup_delete_ne|by apply lookup_insert_ne]. }
    rewrite Hu, Hx. unfold extra. rewrite bool_decide_false by done. cbn [Z.b2z]. destruct (Z.leb_spec (_ref_count e) 1) as [Hle|Hgt].
    + split; intros H; [|lia]. destruct (H1 H) as (e' & He' & Hc'). rewrite He in He'. injection He' as <-. lia.
    + rewrite lookup_insert_eq. split; intros H; (eexists; split; [done|cbn]); [|lia]. destruct (H1 H) as (e' & He' & Hc'). rewrite He in He'. injection He' as <-. lia.
  - intros d e' H. destruct (decide (d = d0)) as [->|Hdd]; destruct (_ref_count e <=? 1); [by rewrite lookup_delete_eq in H|rewrite lookup_insert_eq in H; injection H as <-; by exists e|rewrite lookup_delete_ne in H by done; by exists e'|rewrite lookup_insert_ne in H by done; by exists e'].
Qed.

Lemma same_dests_trans D1 D2 D3 : same_dests D1 D2 → same_dests D2 D3 → same_dests D1 D3.
Proof. intros H1 H2 d e3 H. destruct (H2 _ _ H) as (e2 & G2 & E2). destruct (H1 _ _ G2) as (e1 & G1 & E1). exists e1. split; [done|congruence]. Qed.

(** Nothing but the destination of [s] and the references change. *)
Lemma set_destination_runs L s ref x w : dests_ok L (subs w) (dests w) → subs w !! s = Some x → (∀ d, ref = Some d → L d) →
  runs (set_destination_ref s ref) w (λ _ w', ∃ D, w' = set_dests D (set_subs (<[s := set_sub_destination ref x]> (subs w)) w) ∧ dests_ok L (<[s := set_sub_destination ref x]> (subs w)) D ∧ same_dests (dests w) D).
Proof.
  intros Hd Hs Hl. unfold set_destination_ref. apply runs_bind, (runs_sub s x); [done|]. destruct (bool_decide_reflect (ref = destination x)) as [->|Hne].
  { apply runs_ret. exists (dests w). assert (<[s := set_sub_destination (destination x) x]> (subs w) = subs w) as -> by (apply insert_id; by destruct x). split_and!; [by destruct w|done|intros d e' H; by exists e']. }
  apply runs_bind. eapply runs_mono; [by apply (take_ref_runs L)|]. cbn beta. intros _ w1 (D1 & -> & HD1 & HS1). apply runs_bind.
  eapply runs_mono; [by apply (release_old_runs L s ref x)|]. cbn beta. intros _ w2 (D & -> & HD & HS). apply (runs_upd s _ x); [done|]. exists D. split_and!; [done|done|by eapply same_dests_trans].
Qed.

(** ** Reachability *)

Definition reach_of (D : gmap nat network_destination) (dest next : option nat) : Z :=
  match dest with
  | Some d => match D !! d with Some e => if unicast e then REACHABLE_UNICAST else REACHABLE_BROADCAST | None => REACHABLE_NONE end
  | None => match next with Some _ => REACHABLE_INDIRECT | None => REACHABLE_NONE end
  end.
Definition routed (v : Z) (dest next : option nat) (hops : Z) (prior : option nat) (x : subscriber) : subscriber := Subscriber v next hops prior dest (identity x) (sas_valid x) (state x).

Lemma tell_runs (b : bool) v w (Q : unit → world → Prop) : (∀ ns, Q tt (World (subs w) (neighbours w) (route_version w) (dests w) (notes w ++ ns) (w_ticks w))) → runs (if b then tell v else mret tt) w Q.
Proof. intros H. destruct b; [apply runs_change; apply H|]. apply runs_ret. specialize (H []). rewrite app_nil_r in H. by destruct w. Qed.

(** [set_reachable] stores the route and keeps the references. *)
Lemma set_reachable_runs L s dest next hops prior x w : dests_ok L (subs w) (dests w) → subs w !! s = Some x → (∀ d, dest = Some d → L d) →
  runs (set_reachable directory_service s dest next hops prior) w (λ _ w', ∃ D ns, let m := <[s := routed (reach_of D dest next) dest next hops prior x]> (subs w) in
    w' = World m (neighbours w) (route_version w) D (notes w ++ ns) (w_ticks w) ∧ dests_ok L m D).
Proof.
  intros Hd Hs Hl. unfold set_reachable. apply runs_bind. apply (runs_mono _ _ (λ v w', w' = w ∧ v = reach_of (dests w) dest next)).
  { destruct dest as [d|]; [|by apply runs_ret]. destruct (proj1 (Hd d) (Hl d eq_refl)) as (e & He & _). apply runs_bind, (runs_the_dest d e); [done|]. apply runs_ret. unfold reach_of. by rewrite He. }
  cbn beta. intros v w0 [-> Hv]. apply runs_bind, (runs_upd s _ x); [done|]. cbn beta. apply runs_bind, (runs_sub s (set_hops hops prior x)); [cbn; by rewrite lookup_insert_eq|].
  assert (∀ y, destination y = destination x → dests_ok L (<[s := y]> (subs w)) (dests w)) as Hsame.
  { intros y Hy d. rewrite (users_insert _ _ x) by done. unfold uses. rewrite Hy. replace (users (subs w) d - _ + _) with (users (subs w) d) by lia. apply Hd. }
  change (reachable (set_hops hops prior x)) with (reachable x). change (next_hop (set_hops hops prior x)) with (next_hop x). change (destination (set_hops hops prior x)) with (destination x). change (sas_valid (set_hops hops prior x)) with (sas_valid x).
  destruct ((reachable x =? v) && _ && _) eqn:Eq.
  { rewrite !andb_true_iff, Z.eqb_eq, !bool_decide_eq_true in Eq. destruct Eq as [[E1 E2] E3]. apply runs_ret. exists (dests w), []. rewrite app_nil_r. rewrite <- Hv, <- E1, <- E2, <- E3. split; [by destruct w|]. by apply Hsame. }
  clear Eq. apply runs_bind, (runs_upd s _ (set_hops hops prior x)); [cbn; by rewrite lookup_insert_eq|]. cbn beta. apply runs_bind.
  eapply runs_mono; [apply (set_destination_runs L s dest (set_reach v (set_hops hops prior x)))|].
  { cbn. rewrite !insert_insert_eq. by apply Hsame. } { cbn. by rewrite !insert_insert_eq, lookup_insert_eq. } { done. }
  cbn. rewrite !insert_insert_eq. intros _ w1 (D & -> & HD & HSD). apply runs_bind. eapply runs_upd; [cbn; by rewrite lookup_insert_eq|]. cbn. rewrite !insert_insert_eq. set (y := set_next_hop _ _).
  assert (y = routed (reach_of D dest next) dest next hops prior x) as Ey.
  { unfold y, routed, set_next_hop. cbn. f_equal. rewrite Hv. unfold reach_of. destruct dest as [d|]; [|done]. destruct (proj1 (HD d) (Hl d eq_refl)) as (e' & He' & _). destruct (HSD _ _ He') as (e & He & Eu). by rewrite He', He, Eu. }
  apply runs_bind, tell_runs. intros n1. apply runs_bind, tell_runs. intros n2. apply runs_bind, tell_runs. intros n3. apply runs_bind, tell_runs. intros n4. apply runs_ret. exists D, (n1 ++ n2 ++ n3 ++ n4). cbn. rewrite <- !app_assoc, <- Ey. split; [done|].
  intros d. rewrite (users_insert _ _ x) by done. specialize (HD d). rewrite (users_insert _ _ x) in HD by done. done.
Qed.
End Best.
End RouteLinkBest.
