(* ===== verification/RouteLinkFind.v ===== *)
(** * The search for the best route

    [find_best_link] asks for the route of the transmitter of every link it considers,
    and that again for its own. It ends whatever the links are, leaves what is settled
    as it is, and takes the best offer of the neighbours that are heard. *)

From S2P Require Import Prelude Prog DataFormats RouteLink RouteLinkPath RouteLinkBest.
Import Prog DataFormats RouteLink RouteLinkPath RouteLinkBest.

Module RouteLinkFind.

Section Find.
Variable sid : nat → list Z.
Variable char_signed : bool.
Variables (my_subscriber directory_service : option nat).
Variable gettime_ms : nat → Z.
(** The subscribers that are to keep the time of their next record. *)
Variable held : nat → Prop.
Implicit Types w : world.
Abbreviation at_ n r := (search sid (root n) r).
Abbreviation route := (route sid my_subscriber).
Abbreviation sound := (sound sid my_subscriber).
Abbreviation same_links := (same_links sid).
Abbreviation link_uses := (link_uses sid).

(** ** The state of the search *)

(** A calculation of the route is under way. *)
Definition busy (x : subscriber) : bool := match state x with Some t => s_calculating t | None => false end.
Definition flags w : gmap nat bool := busy <$> subs w.
Definition via w (t : nat) : option nat := match subs w !! t with Some x => match state x with Some p => s_next_hop p | None => None end | None => None end.
(** The transmitter of the route. *)
Definition prior w (t : nat) : option nat := match subs w !! t with Some x => match state x with Some p => s_transmitter p | None => None end | None => None end.
(** The time of the next record. *)
Definition due w (t : nat) : Z := match subs w !! t with Some x => match state x with Some p => next_update p | None => 0 end | None => 0 end.
(** The route is known, and there is nothing to calculate. *)
Definition settled w (s : nat) : Prop := ∃ x, subs w !! s = Some x ∧ (reachable x = REACHABLE_SELF ∨ ∃ t, state x = Some t ∧ s_route_version t = route_version w).
Definition mine w (s : nat) : Prop := ∃ x, subs w !! s = Some x ∧ reachable x = REACHABLE_SELF.
Definition stable w (s : nat) : Prop := settled w s ∨ flags w !! s = Some true.

(** A pointer to a link to [s] that is there. *)
Definition live w (s : nat) (p : option (nat * nat)) : Prop := ∀ n r, p = Some (n, r) → r = s ∧ ∃ nb, nb ∈ neighbours w ∧ n_subscriber nb = n ∧ is_Some (at_ nb r).
(** The link of a route that is up to date is there, and its transmitter is known. *)
Definition state_ok w (s : nat) (t : link_state) : Prop :=
  (s_route_version t = route_version w → live w s (s_link t)) ∧ (∀ u, s_transmitter t = Some u → is_Some (flags w !! u)).

Record winv w : Prop := {
  wi_sound n : n ∈ neighbours w → sound n;
  wi_idle n x k : n ∈ neighbours w → at_ n x = Some k → calculating k = false;
  wi_transmitter n x k t : n ∈ neighbours w → at_ n x = Some k → transmitter k = Some t → is_Some (flags w !! t);
  wi_dests : dests_ok (link_uses (neighbours w)) (subs w) (dests w);
  wi_states s x t : subs w !! s = Some x → state x = Some t → state_ok w s t;
}.
(** The time of the next record is as it was, or soon after a change of the route. *)
Definition dated w w' (t : nat) : Prop := due w' t = due w t ∨ ∃ k, (w_ticks w ≤ k < w_ticks w')%nat ∧ due w' t = gettime_ms k + 5.
Lemma dated_refl w t : dated w w t.
Proof. by left. Qed.
Lemma dated_trans w1 w2 w3 t : (w_ticks w1 ≤ w_ticks w2 ≤ w_ticks w3)%nat → dated w1 w2 t → dated w2 w3 t → dated w1 w3 t.
Proof. intros Hle [E1|(k & Hk & E1)] [E2|(k' & Hk' & E2)]; [left; congruence|right; exists k'; split; [lia|done]|right; exists k; split; [lia|congruence]|right; exists k'; split; [lia|done]]. Qed.
Record keeps w w' : Prop := {
  ke_links : Forall2 same_links (neighbours w) (neighbours w');
  ke_version : route_version w' = route_version w;
  ke_flags : flags w' = flags w;
  ke_stable t : stable w t → stable w' t ∧ via w' t = via w t;
  ke_prior t : stable w t → prior w' t = prior w t;
  ke_mine t : mine w t → mine w' t;
  ke_ticks : (w_ticks w ≤ w_ticks w')%nat;
  ke_due t : stable w t → held t → due w' t = due w t;
  ke_date t : held t → dated w w' t;
}.
Lemma keeps_refl w : keeps w w.
Proof. split; try done; [|intros; apply dated_refl]. apply Forall_Forall2_diag, Forall_forall. by intros. Qed.
Lemma keeps_trans w1 w2 w3 : keeps w1 w2 → keeps w2 w3 → keeps w1 w3.
Proof.
  intros [A1 A2 A3 A4 A5 A6 A8 A7 A9] [B1 B2 B3 B4 B5 B6 B8 B7 B9]. split; try congruence; try lia.
  - eapply Forall2_trans; [|done|done]. intros ??? Hx Hy. by eapply links_trans.
  - intros t Ht. destruct (A4 t Ht) as [H1 E1]. destruct (B4 t H1) as [H2 E2]. split; [done|congruence].
  - intros t Ht. destruct (A4 t Ht) as [H1 _]. rewrite B5 by done. by apply A5.
  - intros t Ht. by apply B6, A6.
  - intros t Ht Hh. destruct (A4 t Ht) as [H1 _]. rewrite B7 by done. by apply A7.
  - intros t Hh. apply (dated_trans _ w2); [lia|by apply A9|by apply B9].
Qed.
Lemma keeps_at w w' i n : keeps w w' → neighbours w !! i = Some n → ∃ n', neighbours w' !! i = Some n' ∧ same_links n n'.
Proof. intros H Hn. by apply (Forall2_lookup_l _ _ _ _ _ (ke_links _ _ H)). Qed.
Lemma keeps_at' w w' i n' : keeps w w' → neighbours w' !! i = Some n' → ∃ n, neighbours w !! i = Some n ∧ same_links n n'.
Proof. intros H Hn. by apply (Forall2_lookup_r _ _ _ _ _ (ke_links _ _ H)). Qed.

Lemma flags_insert w s x : flags (set_subs (<[s := x]> (subs w)) w) = <[s := busy x]> (flags w).
Proof. unfold flags. cbn. apply fmap_insert. Qed.
Lemma flags_some w s : is_Some (flags w !! s) ↔ is_Some (subs w !! s).
Proof. unfold flags. rewrite lookup_fmap. by rewrite fmap_is_Some. Qed.

Lemma flags_more w s y u : is_Some (flags w !! u) → is_Some (flags (set_subs (<[s := y]> (subs w)) w) !! u).
Proof. intros H. rewrite flags_insert. destruct (decide (u = s)) as [->|Hts]; [rewrite lookup_insert_eq; by eexists|by rewrite lookup_insert_ne]. Qed.
(** A subscriber changes, its destination does not. *)
Lemma winv_touch w s x y : winv w → subs w !! s = Some x → destination y = destination x → (∀ t, state y = Some t → state_ok w s t) → winv (set_subs (<[s := y]> (subs w)) w).
Proof.
  intros [H1 H2 H3 H4 H5] Hs Hd Hst. split; [done|done|..].
  - intros n z k t Hn Hk Ht. apply flags_more. by eapply H3.
  - intros d. cbn. rewrite (users_insert _ _ x) by done. unfold uses. rewrite Hd. replace (users (subs w) d - _ + _) with (users (subs w) d) by lia. apply H4.
  - intros v z t Hz Ht. assert (state_ok w v t) as [G1 G2]. { destruct (decide (v = s)) as [->|Hvs]; [change (<[s := y]> (subs w) !! s = Some z) in Hz; rewrite lookup_insert_eq in Hz; injection Hz as <-; by apply Hst|change (<[s := y]> (subs w) !! v = Some z) in Hz; rewrite lookup_insert_ne in Hz by done; by eapply H5]. }
    split; [exact G1|]. intros u Hu. apply flags_more. by apply G2.
Qed.
Lemma via_other w s y t : t ≠ s → via (set_subs (<[s := y]> (subs w)) w) t = via w t.
Proof. intros Ht. unfold via. cbn. by rewrite lookup_insert_ne. Qed.
Lemma prior_other w s y t : t ≠ s → prior (set_subs (<[s := y]> (subs w)) w) t = prior w t.
Proof. intros Ht. unfold prior. cbn. by rewrite lookup_insert_ne. Qed.
Lemma due_other w s y t : t ≠ s → due (set_subs (<[s := y]> (subs w)) w) t = due w t.
Proof. intros Ht. unfold due. cbn. by rewrite lookup_insert_ne. Qed.
Lemma mine_touch w s x y t : subs w !! s = Some x → reachable y = reachable x → mine w t → mine (set_subs (<[s := y]> (subs w)) w) t.
Proof. intros Hs Hr (z & Hz & Ez). destruct (decide (t = s)) as [->|Hts]; [exists y; split; [cbn; by rewrite lookup_insert_eq|congruence]|exists z; split; [cbn; by rewrite lookup_insert_ne|done]]. Qed.
Lemma stable_other w s y t : t ≠ s → stable (set_subs (<[s := y]> (subs w)) w) t ↔ stable w t.
Proof. intros Ht. unfold stable, settled. rewrite flags_insert. cbn. by rewrite !lookup_insert_ne. Qed.

Lemma get_state_runs s w : winv w → is_Some (subs w !! s) → runs (get_link_state s) w (λ p w', winv w' ∧ keeps w w' ∧ w_ticks w' = w_ticks w ∧ ∃ x y, subs w !! s = Some x ∧ subs w' !! s = Some y ∧ reachable y = reachable x ∧ destination y = destination x ∧ state y = Some p ∧ (state x = Some p ∨ s_route_version p ≠ route_version w)).
Proof.
  intros Hw [x Hs]. unfold get_link_state. apply runs_bind, (runs_sub s x); [done|]. destruct (state x) as [p|] eqn:Hp.
  { apply runs_ret. split; [done|]. split; [by apply keeps_refl|]. split; [done|]. exists x, x. split_and!; try done. by left. }
  apply runs_bind, runs_ask, runs_bind. set (p := State _ _ _ _ _ _ _). apply (runs_upd s _ x); [done|]. apply runs_ret.
  split; [apply (winv_touch _ _ x); [done|done|done|]; intros t [= <-]; split; [cbn; lia|done]|]. split; [|split; [done|exists x, (set_state p x); split_and!; try done; [cbn; by rewrite lookup_insert_eq|right; cbn; lia]]].
  split; try done.
  - apply Forall_Forall2_diag, Forall_forall. by intros.
  - rewrite flags_insert. apply insert_id. unfold flags. rewrite lookup_fmap, Hs. cbn. unfold busy. by rewrite Hp.
  - intros t Ht. destruct (decide (t = s)) as [->|Hts]; [|split; [by apply stable_other|by apply via_other]]. split.
    + destruct Ht as [(x' & Hx' & Hor)|Hb].
      * rewrite Hs in Hx'. injection Hx' as <-. left. exists (set_state p x). split; [cbn; by rewrite lookup_insert_eq|]. left. destruct Hor as [?|(q & Hq & _)]; [done|congruence].
      * exfalso. unfold flags in Hb. rewrite lookup_fmap, Hs in Hb. cbn in Hb. unfold busy in Hb. by rewrite Hp in Hb.
    + unfold via. cbn. by rewrite lookup_insert_eq, Hs, Hp.
  - intros t Ht. destruct (decide (t = s)) as [->|Hts]; [|by apply prior_other]. unfold prior. cbn. by rewrite lookup_insert_eq, Hs, Hp.
  - intros t. by apply (mine_touch w s x).
  - intros t Ht _. destruct (decide (t = s)) as [->|Hts]; [|by apply due_other]. unfold due. cbn. by rewrite lookup_insert_eq, Hs, Hp.
  - intros t _. left. destruct (decide (t = s)) as [->|Hts]; [|by apply due_other]. unfold due. cbn. by rewrite lookup_insert_eq, Hs, Hp.
Qed.

(** ** Offers *)

(** A path through a neighbour that is heard, whose next hop the transmitter uses too. *)
Definition offers w (s : nat) (now : Z) (n : neighbour) (l : link) (h d : Z) : Prop :=
  now ≤ link_in_timeout n ∧ at_ n s = Some l ∧ route n s h d ∧ ∃ t, transmitter l = Some t ∧ (Some t = my_subscriber ∨ via w t = Some (n_subscriber n)).
Definition better (p q : Z * Z) : Prop := p.1 < q.1 ∨ p.1 = q.1 ∧ p.2 < q.2.
Definition none_found : best := Best None 99 99 None None None.
Definition found_at (n : neighbour) (s : nat) (l : link) (h d : Z) : best := Best (Some (n_subscriber n)) h d (transmitter l) (l_destination l) (Some (n_subscriber n, s)).
(** [b] is the best of the offers of the first [k] neighbours. *)
Definition best_of w (s : nat) (now : Z) (k : nat) (b : best) : Prop :=
  (b = none_found ∨ ∃ i n l h d, (i < k)%nat ∧ neighbours w !! i = Some n ∧ offers w s now n l h d ∧ better (d, h) (99, 99) ∧ b = found_at n s l h d) ∧
  ∀ i n l h d, (i < k)%nat → neighbours w !! i = Some n → offers w s now n l h d → ¬ better (d, h) (b_drop b, b_hops b).
(** The routes of the transmitters of the first [k] links do not change any more. *)
Definition asked w (s : nat) (now : Z) (k : nat) : Prop :=
  ∀ i n l t, (i < k)%nat → neighbours w !! i = Some n → now ≤ link_in_timeout n → at_ n s = Some l → transmitter l = Some t → Some t ≠ my_subscriber → stable w t.

Lemma offers_same w w' s now n n' l h d : same_links n n' → (∀ t, transmitter l = Some t → Some t ≠ my_subscriber → t ≠ s → via w' t = via w t) → offers w s now n l h d →
  ∃ l', fixed l' = fixed l ∧ offers w' s now n' l' h d.
Proof.
  intros Hs Hv (H1 & H2 & H3 & t & Ht & Hor). destruct (same_at _ _ _ _ _ Hs H2) as (l' & Hl' & El'). exists l'. split; [done|]. assert (transmitter l' = Some t) as Ht' by (injection El'; congruence).
  split; [rewrite (sl_timeout _ _ _ Hs); done|]. split; [done|]. split; [by apply (same_route _ _ n)|]. exists t. split; [done|]. destruct (decide (Some t = my_subscriber)) as [Hm|Hm]; [by left|right].
  destruct Hor as [?|Hor]; [done|]. rewrite (sl_subscriber _ _ _ Hs). rewrite Hv; [done|done|done|]. intros ->. by apply (along_no_self sid my_subscriber transmitter n s l h d); [|rewrite Ht|rewrite Ht|].
Qed.
Lemma found_same n n' s l l' h d : same_links n n' → fixed l' = fixed l → found_at n' s l' h d = found_at n s l h d.
Proof. intros Hs E. injection E as E1 E2 _ _ _ _. unfold found_at. by rewrite (sl_subscriber _ _ _ Hs), E1, E2. Qed.

Lemma best_of_same w w' s now k b : Forall2 same_links (neighbours w) (neighbours w') →
  (∀ i n l t, (i < k)%nat → neighbours w !! i = Some n → now ≤ link_in_timeout n → at_ n s = Some l → transmitter l = Some t → Some t ≠ my_subscriber → t ≠ s → via w' t = via w t) →
  best_of w s now k b → best_of w' s now k b.
Proof.
  intros Hl Hv [H1 H2]. split.
  - destruct H1 as [->|(i & n & l & h & d & Hi & Hn & Ho & Hb & ->)]; [by left|right]. destruct (Forall2_lookup_l _ _ _ _ _ Hl Hn) as (n' & Hn' & Hs). destruct (offers_same w w' s now n n' l h d Hs) as (l' & El & Ho'); [|done|].
    + intros t Ht Hm Hts. destruct Ho as (O1 & O2 & _). by apply (Hv i n l t).
    + exists i, n', l', h, d. split_and!; try done. symmetry. by apply found_same.
  - intros i n' l' h d Hi Hn' Ho'. destruct (Forall2_lookup_r _ _ _ _ _ Hl Hn') as (n & Hn & Hs). destruct (offers_same w' w s now n' n l' h d) as (l & El & Ho); [by apply same_sym| |done|by apply (H2 i n l h d)].
    intros t Ht Hm Hts. destruct Ho' as (O1 & O2 & _). destruct (same_at _ _ _ _ _ (same_sym _ _ _ Hs) O2) as (l & Hl0 & El). injection El as E1 _ _ _ _. symmetry. apply (Hv i n l t); try done; [by rewrite <- (sl_timeout _ _ _ Hs)|congruence].
Qed.
Lemma asked_keeps w w' s now k : keeps w w' → asked w s now k → asked w' s now k.
Proof.
  intros Hk Ha i n' l' t Hi Hn' Ht Hl' Htr Hm. destruct (keeps_at' _ _ _ _ Hk Hn') as (n & Hn & Hs). destruct (same_at _ _ _ _ _ (same_sym _ _ _ Hs) Hl') as (l & Hl & El). injection El as E1 _ _ _ _.
  apply (ke_stable _ _ Hk). apply (Ha i n l t); try done; [by rewrite <- (sl_timeout _ _ _ Hs)|congruence].
Qed.
Lemma best_of_keeps w w' s now k b : keeps w w' → asked w s now k → best_of w s now k b → best_of w' s now k b.
Proof. intros Hk Ha. apply best_of_same; [apply Hk|]. intros i n l t Hi Hn Ht Hl Htr Hm _. apply (ke_stable _ _ Hk). by apply (Ha i n l t). Qed.
(** A neighbour that makes no better offer. *)
Lemma best_of_skip w s now k b n : neighbours w !! k = Some n → best_of w s now k b → (∀ l h d, offers w s now n l h d → ¬ better (d, h) (b_drop b, b_hops b)) → best_of w s now (S k) b.
Proof.
  intros Hn [H1 H2] Hno. split.
  - destruct H1 as [->|(i & n' & l & h & d & Hi & H)]; [by left|right]. exists i, n', l, h, d. split; [lia|done].
  - intros i n' l h d Hi Hn' Ho. destruct (decide (i = k)) as [->|Hne]; [rewrite Hn in Hn'; injection Hn' as <-; by eapply Hno|]. eapply (H2 i); [lia|done|done].
Qed.
Lemma best_of_take w s now k b n l h d : neighbours w !! k = Some n → best_of w s now k b → offers w s now n l h d → better (d, h) (b_drop b, b_hops b) → best_of w s now (S k) (found_at n s l h d).
Proof.
  intros Hn [H1 H2] Ho Hb. split.
  - right. exists k, n, l, h, d. split_and!; [lia|done|done| |done]. destruct H1 as [->|(i & n' & l' & h' & d' & _ & _ & _ & Hb' & ->)]; [done|]. unfold better in *; cbn in *; lia.
  - intros i n' l' h' d' Hi Hn' Ho'. destruct (decide (i = k)) as [->|Hne].
    + rewrite Hn in Hn'. injection Hn' as <-. destruct Ho as (_ & _ & Hr & _), Ho' as (_ & _ & Hr' & _). destruct (along_det _ _ _ _ _ _ _ _ _ Hr Hr') as [-> ->]. unfold better; cbn; lia.
    + intros Hb'. assert (i < k)%nat as Hik by lia. apply (H2 i n' l' h' d' Hik Hn' Ho'). unfold better in *; cbn in *; lia.
Qed.
Lemma asked_next w s now k n : neighbours w !! k = Some n → asked w s now k → (∀ l t, now ≤ link_in_timeout n → at_ n s = Some l → transmitter l = Some t → Some t ≠ my_subscriber → stable w t) → asked w s now (S k).
Proof. intros Hn Ha Hst i n' l t Hi Hn' Ht Hl Htr Hm. destruct (decide (i = k)) as [->|Hne]; [rewrite Hn in Hn'; injection Hn' as <-; by eapply Hst|]. eapply (Ha i); try done. lia. Qed.

(** ** One neighbour *)

Lemma idle_size t : (idle t ≤ tree_size t)%nat.
Proof. induction t as [|x l a IHa b IHb]; cbn; [done|]. destruct (calculating l); lia. Qed.

Lemma put_neighbour_keeps w i n n' : winv w → neighbours w !! i = Some n → same_links n n' → sound n' → (∀ x k, at_ n' x = Some k → calculating k = false) →
  winv (set_neighbours (<[i := n']> (neighbours w)) w) ∧ keeps w (set_neighbours (<[i := n']> (neighbours w)) w).
Proof.
  intros [H1 H2 H3 H4 H5] Hn Hs Hso Hid.
  assert (∀ m, m ∈ <[i := n']> (neighbours w) → m = n' ∨ m ∈ neighbours w) as Hin.
  { intros m Hm. apply list_elem_of_lookup_1 in Hm as [j Hj]. destruct (decide (j = i)) as [->|Hji]; [rewrite list_lookup_insert_eq in Hj by (by eapply lookup_lt_Some); left; by injection Hj|]. rewrite list_lookup_insert_ne in Hj by done. right. by eapply list_elem_of_lookup_2. }
  pose proof (list_elem_of_lookup_2 _ _ _ Hn) as Hni. split; split; try done.
  - intros m Hm. destruct (Hin m Hm) as [->|?]; [done|by apply H1].
  - intros m x k Hm Hk. destruct (Hin m Hm) as [->|?]; [by eapply Hid|by eapply H2].
  - intros m x k t Hm Hk Ht. destruct (Hin m Hm) as [->|?]; [|by eapply H3]. destruct (same_at _ _ _ _ _ (same_sym _ _ _ Hs) Hk) as (k0 & Hk0 & E). injection E as E _ _ _ _. apply (H3 n x k0 t Hni Hk0). congruence.
  - intros d. cbn. destruct (H4 d) as [G1 G2]. split; [|done]. intros (m & x & k & Hm & Hk & Hd). apply G1. destruct (Hin m Hm) as [->|Hmn]; [|by exists m, x, k]. destruct (same_at _ _ _ _ _ (same_sym _ _ _ Hs) Hk) as (k0 & Hk0 & E). injection E as _ E _ _ _. exists n, x, k0. split_and!; [done|done|congruence].
  - intros v z t Hz Ht. destruct (H5 v z t Hz Ht) as [G1 G2]. split; [|exact G2]. intros Hv m r Hl. destruct (G1 Hv m r Hl) as (Er & nb & Hnb & Em & [k Hk]). split; [done|]. apply list_elem_of_lookup_1 in Hnb as [j Hj]. destruct (decide (j = i)) as [->|Hji].
    + rewrite Hn in Hj. injection Hj as <-. exists n'. split; [eapply list_elem_of_lookup_2, list_lookup_insert_eq; by eapply lookup_lt_Some|]. split; [by rewrite (sl_subscriber _ _ _ Hs)|]. destruct (same_at _ _ _ _ _ Hs Hk) as (k' & Hk' & _). by exists k'.
    + exists nb. split; [eapply (list_elem_of_lookup_2 _ j); cbn; by rewrite list_lookup_insert_ne|]. split; [done|by exists k].
  - apply Forall2_same_length_lookup. cbn. split; [by rewrite length_insert|]. intros j a c Ha Hc. destruct (decide (j = i)) as [->|Hji]; [rewrite list_lookup_insert_eq in Hc by (by eapply lookup_lt_Some); congruence|]. rewrite list_lookup_insert_ne in Hc by done. rewrite Ha in Hc. injection Hc as <-. done.
  - intros t _. by left.
Qed.

Section Rounds.
Variables (fuel : nat) (find : nat → prog world unit).
Definition room w : Prop := (count negb (flags w) ≤ fuel)%nat.
Hypothesis Hfind : ∀ t w, winv w → is_Some (flags w !! t) → room w → runs (find t) w (λ _ w', winv w' ∧ keeps w w' ∧ stable w' t).

Lemma room_keeps w w' : keeps w w' → room w → room w'.
Proof. intros Hk. unfold room. by rewrite (ke_flags _ _ Hk). Qed.

(** The transmitter is asked for its route. *)
Lemma through_runs w t m : winv w → room w → is_Some (flags w !! t) →
  runs (if bool_decide (Some t = my_subscriber) then mret true else get_link_state t;; find t;; p ← get_link_state t; mret (bool_decide (s_next_hop p = Some m))) w
    (λ c w', winv w' ∧ keeps w w' ∧ (Some t ≠ my_subscriber → stable w' t) ∧ (c = true ↔ Some t = my_subscriber ∨ via w' t = Some m)).
Proof.
  intros Hw Hr Ht. destruct (bool_decide_reflect (Some t = my_subscriber)) as [Hm|Hm]; [apply runs_ret; split_and!; try done; [by apply keeps_refl|split; [by left|done]]|].
  apply runs_bind. eapply runs_mono; [apply get_state_runs; [done|by apply flags_some]|]. cbn beta. intros _ w1 (Hw1 & Hk1 & _). apply runs_bind. eapply runs_mono; [apply Hfind; [done|by rewrite (ke_flags _ _ Hk1)|by eapply room_keeps]|]. cbn beta. intros _ w2 (Hw2 & Hk2 & Hst).
  assert (keeps w w2) as Hk by (by eapply keeps_trans). apply runs_bind. eapply runs_mono; [apply get_state_runs; [done|apply flags_some; by rewrite (ke_flags _ _ Hk)]|]. cbn beta. intros p w3 (Hw3 & Hk3 & _ & x & y & _ & Hy & _ & _ & Hp & _). apply runs_ret.
  split_and!; [done|by eapply keeps_trans|intros _; by apply (ke_stable _ _ Hk3)|]. rewrite bool_decide_eq_true. unfold via. rewrite Hy, Hp. split; [by right|by intros [?|?]].
Qed.

Lemma better_spec (d h d' h' : Z) : (d <? d') || (d =? d') && (h <? h') = true ↔ better (d, h) (d', h').
Proof. unfold better. cbn. rewrite orb_true_iff, andb_true_iff, Z.ltb_lt, Z.eqb_eq, Z.ltb_lt. lia. Qed.

(** The score of the link, and the choice. *)
Lemma score_runs w s now i n l t b : winv w → neighbours w !! i = Some n → at_ n s = Some l → transmitter l = Some t → (Some t = my_subscriber ∨ via w t = Some (n_subscriber n)) → now ≤ link_in_timeout n → best_of w s now i b → asked w s now (S i) →
  runs (n ← the_neighbour i;
        n ← lift (update_path_score sid char_signed my_subscriber (tree_size (root n)) n s);
        put_neighbour i n;;
        l ← lift (the_link sid n s);
        if (0 <? hop_count l) && ((path_drop_rate l <? b_drop b) || (path_drop_rate l =? b_drop b) && (hop_count l <? b_hops b))
        then mret (Best (Some (n_subscriber n)) (hop_count l) (path_drop_rate l) (transmitter l) (l_destination l) (Some (n_subscriber n, s))) else mret b) w
    (λ b' w', winv w' ∧ keeps w w' ∧ best_of w' s now (S i) b').
Proof.
  intros Hw Hn Hl Ht Hor Hnow Hb Ha. pose proof (list_elem_of_lookup_2 _ _ _ Hn) as Hin. apply runs_bind. unfold the_neighbour at 1. apply runs_bind, runs_ask. rewrite Hn. apply runs_ret.
  destruct (update_ret sid char_signed my_subscriber (tree_size (root n)) n s l) as (n' & E & Hs & Hso & Hcalc & Hfr); [by apply Hw|done| |apply idle_size|].
  { intros x k Hk Hck. rewrite (wi_idle _ Hw n x k Hin Hk) in Hck. done. }
  destruct Hfr as (l' & Hl' & Hf); [by apply (wi_idle _ Hw n s l)|]. apply runs_bind. eapply runs_lift; [exact E|]. apply runs_bind, runs_change.
  destruct (put_neighbour_keeps w i n n') as [Hw' Hk]; try done.
  { intros x k Hx. specialize (Hcalc x). unfold calc_of in Hcalc. rewrite Hx in Hcalc. symmetry in Hcalc. apply fmap_Some in Hcalc as (k0 & Hk0 & ->). by apply (wi_idle _ Hw n x k0). }
  set (w' := set_neighbours _ w) in *. assert (neighbours w' !! i = Some n') as Hn' by (unfold w'; cbn; apply list_lookup_insert_eq; by eapply lookup_lt_Some). apply runs_bind. eapply runs_lift; [by apply the_link_ret|].
  assert (asked w s now i) as Hai by (intros j m k u Hj; apply (Ha j m k u); lia). assert (best_of w' s now i b) as Hb' by (by eapply best_of_keeps). destruct (so_scored _ _ _ Hso s l' Hl' Hf) as [S1 S2].
  destruct (same_at _ _ _ _ _ Hs Hl) as (l2 & Hl2 & E2). rewrite Hl' in Hl2. injection Hl2 as <-.
  destruct ((0 <? hop_count l') && _) eqn:Ec.
  - apply andb_true_iff in Ec as [Hpos Hbet]. apply Z.ltb_lt in Hpos. apply better_spec in Hbet. apply runs_ret. split; [done|]. split; [done|]. apply (best_of_take w' s now i b n' l'); [done|done| |done].
    split; [by rewrite (sl_timeout _ _ _ Hs)|]. split; [done|]. split; [apply scored_route; [by eapply (proj1 (sound_spec _ _ _))|done|done]|]. exists t. split; [injection E2; congruence|]. by rewrite (sl_subscriber _ _ _ Hs).
  - apply runs_ret. split; [done|]. split; [done|]. apply (best_of_skip w' s now i b n'); [done|done|]. intros l3 h d (_ & _ & Hr & _) Hbet. destruct (S1 h d Hr) as [<- <-]. apply better_spec in Hbet. rewrite Hbet, andb_true_r in Ec. apply Z.ltb_ge in Ec. apply along_pos in Hr. lia.
Qed.

Lemma consider_runs w s now i n b : winv w → room w → neighbours w !! i = Some n → best_of w s now i b → asked w s now i →
  runs (consider sid char_signed my_subscriber find s now i b) w (λ b' w', winv w' ∧ keeps w w' ∧ best_of w' s now (S i) b' ∧ asked w' s now (S i)).
Proof.
  intros Hw Hr Hn Hb Ha. unfold consider. apply runs_bind. unfold the_neighbour at 1. apply runs_bind, runs_ask. rewrite Hn. apply runs_ret.
  assert ((∀ l t, now ≤ link_in_timeout n → at_ n s = Some l → transmitter l = Some t → False) → runs (mret b) w (λ b' w', winv w' ∧ keeps w w' ∧ best_of w' s now (S i) b' ∧ asked w' s now (S i))) as Hskip.
  { intros Hno. apply runs_ret. split_and!; [done|by apply keeps_refl| |].
    - apply (best_of_skip _ _ _ _ _ n); [done|done|]. intros l h d (O1 & O2 & _ & t & Ht & _). by destruct (Hno l t).
    - apply (asked_next _ _ _ _ n); [done|done|]. intros l t O1 O2 O3 _. by destruct (Hno l t). }
  destruct (Z.ltb_spec (link_in_timeout n) now) as [Hto|Hto]; [apply Hskip; lia|]. destruct (at_ n s) as [l|] eqn:Hl; [|apply Hskip; congruence]. destruct (transmitter l) as [t|] eqn:Ht; [|apply Hskip; congruence]. clear Hskip.
  pose proof (list_elem_of_lookup_2 _ _ _ Hn) as Hin. apply runs_bind. eapply runs_mono; [apply (through_runs w t (n_subscriber n) Hw Hr); by eapply (wi_transmitter _ Hw)|]. cbn beta. intros c w1 (Hw1 & Hk1 & Hst & Hc).
  destruct (keeps_at _ _ _ _ Hk1 Hn) as (n1 & Hn1 & Hs1). destruct (same_at _ _ _ _ _ Hs1 Hl) as (l1 & Hl1 & E1). assert (transmitter l1 = Some t) as Ht1 by (injection E1; congruence).
  assert (best_of w1 s now i b) as Hb1 by (by eapply best_of_keeps). assert (asked w1 s now (S i)) as Ha1.
  { apply (asked_next _ _ _ _ n1); [done|by eapply asked_keeps|]. intros l2 t2 _ Hl2 Ht2 Hm. rewrite Hl1 in Hl2. injection Hl2 as <-. rewrite Ht1 in Ht2. injection Ht2 as <-. by apply Hst. }
  rewrite <- (sl_subscriber _ _ _ Hs1) in Hc. destruct c; cbn [negb].
  - eapply runs_mono; [eapply (score_runs w1 s now i n1 l1 t b); try done; [by apply Hc|rewrite (sl_timeout _ _ _ Hs1); done]|]. cbn beta. intros b' w2 (Hw2 & Hk2 & Hb2). split_and!; [done|by eapply keeps_trans|done|by eapply asked_keeps].
  - apply runs_ret. split_and!; [done|done| |done]. apply (best_of_skip _ _ _ _ _ n1); [done|done|]. intros l2 h d (_ & Hl2 & _ & t2 & Ht2 & Hor). rewrite Hl1 in Hl2. injection Hl2 as <-. rewrite Ht1 in Ht2. injection Ht2 as <-. apply Hc in Hor. done.
Qed.

Lemma consider_all_runs c : ∀ w s now i b, winv w → room w → length (neighbours w) = (c + i)%nat → best_of w s now i b → asked w s now i →
  runs (consider_all sid char_signed my_subscriber find s now c i b) w (λ b' w', winv w' ∧ keeps w w' ∧ best_of w' s now (length (neighbours w')) b').
Proof.
  induction c as [|c IH]; intros w s now i b Hw Hr Hlen Hb Ha; cbn [consider_all]; [apply runs_ret; split; [done|]; split; [by apply keeps_refl|by rewrite Hlen]|].
  destruct (lookup_lt_is_Some_2 (neighbours w) i) as [n Hn]; [lia|]. apply runs_bind. eapply runs_mono; [by apply (consider_runs w s now i n b)|]. cbn beta. intros b' w1 (Hw1 & Hk1 & Hb1 & Ha1).
  eapply runs_mono; [apply IH; [done|by eapply room_keeps| |done|done]|]. { rewrite <- (Forall2_length _ _ _ (ke_links _ _ Hk1)). lia. } cbn beta. intros b2 w2 (Hw2 & Hk2 & Hb2). split; [done|]. split; [by eapply keeps_trans|done].
Qed.
End Rounds.

(** ** The route that is taken *)

Definition hop_of (b : best) (s : nat) : option nat := if bool_decide (b_next_hop b = Some s) then None else b_next_hop b.
(** A subscriber of this node that is not heard elsewhere is the node itself. *)
Definition is_self (D : gmap nat network_destination) (b : best) (s : nat) (x : subscriber) : bool := identity x && (reach_of D (b_destination b) (hop_of b s) =? REACHABLE_NONE).
Definition taken (D : gmap nat network_destination) (v : Z) (b : best) (s : nat) (u : Z) (x : subscriber) : subscriber :=
  Subscriber (if is_self D b s x then REACHABLE_SELF else reach_of D (b_destination b) (hop_of b s)) (hop_of b s) (b_hops b) (b_transmitter b) (b_destination b) (identity x) (sas_valid x)
    (Some (State (b_next_hop b) (b_transmitter b) (b_hops b) v (b_link b) false u)).

Lemma announce_runs (c : bool) s now hops via' y p w (Q : unit → world → Prop) : subs w !! s = Some y → state y = Some p →
  (∀ ns u, u = next_update p ∨ u = now + 5 → Q tt (World (<[s := set_state (set_next_update u p) y]> (subs w)) (neighbours w) (route_version w) (dests w) (notes w ++ ns) (w_ticks w))) →
  runs (if c then tell (LinkAnnounced hops via' s);; t ← get_link_state s; upd_sub s (set_state (set_next_update (now + 5) t)) else mret tt) w Q.
Proof.
  intros Hy Hp HQ. destruct c.
  - apply runs_bind, runs_change, runs_bind. unfold get_link_state. apply runs_bind, (runs_sub s y); [done|]. rewrite Hp. apply runs_ret, (runs_upd s _ y); [done|]. apply HQ. by right.
  - apply runs_ret. specialize (HQ [] (next_update p) (or_introl eq_refl)). rewrite app_nil_r, insert_id in HQ; [by destruct w|]. rewrite Hy. destruct y, p; cbn in *. by rewrite Hp.
Qed.

Lemma take_runs w s now k b x p : winv w → subs w !! s = Some x → state x = Some p → best_of w s now k b →
  runs (take_route directory_service s now b) w (λ r w', ∃ D ns u, let m := <[s := taken D (route_version w) b s u x]> (subs w) in
    w' = World m (neighbours w) (route_version w) D (notes w ++ ns) (w_ticks w) ∧ dests_ok (link_uses (neighbours w)) m D ∧ r = (if is_self D b s x then None else b_link b) ∧ (u = next_update p ∨ u = now + 5)).
Proof.
  intros Hw Hs Hp [Hb _]. unfold take_route. apply runs_bind. unfold get_link_state at 1. apply runs_bind, (runs_sub s x); [done|]. rewrite Hp. apply runs_ret, runs_bind, runs_ask, runs_bind. set (q := State _ _ _ _ _ _ _). apply (runs_upd s _ x); [done|].
  assert (∀ d, b_destination b = Some d → link_uses (neighbours w) d) as Hd.
  { intros d Hd. destruct Hb as [->|(i & n & l & h & e & _ & Hn & Ho & _ & ->)]; [done|]. exists n, s, l. split; [by eapply list_elem_of_lookup_2|]. split; [apply Ho|done]. }
  apply runs_bind. eapply runs_mono; [apply (set_reachable_runs directory_service (link_uses (neighbours w)) s _ _ _ _ (set_state q x)); [|cbn; by rewrite lookup_insert_eq|done]|].
  { intros d. cbn. rewrite (users_insert _ _ x) by done. change (uses d (set_state q x)) with (uses d x). replace (users (subs w) d - _ + _) with (users (subs w) d) by lia. apply (wi_dests _ Hw). }
  cbn. fold (hop_of b s). intros c w1 (D & ns & -> & HD). rewrite insert_insert_eq in HD |- *. set (y := routed _ _ _ _ _ _) in *. apply runs_bind, (runs_sub s y); [cbn; by rewrite lookup_insert_eq|].
  change (identity y && (reachable y =? REACHABLE_NONE)) with (is_self D b s x). set (z := if is_self D b s x then set_reach REACHABLE_SELF y else y). apply runs_bind.
  apply (runs_mono _ _ (λ _ w2, w2 = World (<[s := z]> (subs w)) (neighbours w) (route_version w) D (notes w ++ ns) (w_ticks w))).
  { unfold z. destruct (is_self D b s x); [|by apply runs_ret]. apply (runs_upd s _ y); [cbn; by rewrite lookup_insert_eq|]. cbn. by rewrite insert_insert_eq. }
  cbn beta. intros _ w2 ->. apply runs_bind. apply (announce_runs _ s now _ _ z q); [cbn; by rewrite lookup_insert_eq|unfold z; by destruct (is_self D b s x)|]. cbn. intros ns2 u Hu. apply runs_ret. rewrite insert_insert_eq, <- app_assoc.
  assert (set_state (set_next_update u q) z = taken D (route_version w) b s u x) as Ez by (unfold z, taken; by destruct (is_self D b s x)). exists D, (ns ++ ns2), u. rewrite Ez. split_and!; [done| |done|done].
  intros d. specialize (HD d). rewrite (users_insert _ _ x) in HD |- * by done. done.
Qed.

(** ** The search *)

(** The route to [s] is the best of the offers. *)
Definition best_taken w (s : nat) (now : Z) (r : option (nat * nat)) : Prop := ∃ b u x0, best_of w s now (length (neighbours w)) b ∧ subs w !! s = Some (taken (dests w) (route_version w) b s u x0) ∧ r = if is_self (dests w) b s x0 then None else b_link b.

(** A calculation begins. *)
Lemma begin_calculation w s y t : winv w → subs w !! s = Some y → state y = Some t → s_calculating t = false → ¬ settled w s →
  let w1 := w_tick (set_subs (<[s := set_state (set_state_calculating true t) y]> (subs w)) w) in
  winv w1 ∧ flags w1 = <[s := true]> (flags w) ∧ (count negb (flags w) = S (count negb (flags w1)))%nat ∧ (∀ v, v ≠ s → (stable w v ↔ stable w1 v) ∧ via w1 v = via w v ∧ prior w1 v = prior w v ∧ due w1 v = due w v ∧ (mine w v → mine w1 v)) ∧ ¬ stable w s ∧ flags w !! s = Some false ∧ due w1 s = due w s.
Proof.
  intros Hw Hy Ht Hc Hns w1. assert (winv w1) as Hw1. { assert (∀ t', state (set_state (set_state_calculating true t) y) = Some t' → state_ok w s t') as Hst by (intros t' [= <-]; destruct (wi_states _ Hw s y t Hy Ht); by split). destruct (winv_touch w s y (set_state (set_state_calculating true t) y) Hw Hy eq_refl Hst); by split. }
  assert (flags w1 = <[s := true]> (flags w)) as Hf by apply (flags_insert w). assert (flags w !! s = Some false) as Hfs by (unfold flags; rewrite lookup_fmap, Hy; cbn; unfold busy; by rewrite Ht, Hc).
  split_and!; [done|done| | | |done|unfold due; cbn; by rewrite lookup_insert_eq, Hy, Ht].
  - rewrite Hf. pose proof (count_insert negb (flags w) s false true Hfs). cbn in *. lia.
  - intros v Hv. split; [symmetry; by apply (stable_other w)|split; [by apply (via_other w)|split; [by apply (prior_other w)|split; [by apply (due_other w)|by apply (mine_touch w s y)]]]].
  - intros [?|Hb]; [done|congruence].
Qed.

Lemma best_live w s now k b : best_of w s now k b → live w s (b_link b).
Proof.
  intros [[->|(i & n & l & h & d & _ & Hn & (_ & Hl & _) & _ & ->)] _]; [done|]. intros n' r [= <- <-]. split; [done|]. exists n. split; [by eapply list_elem_of_lookup_2|]. split; [done|by exists l].
Qed.
Lemma best_state_ok w s now k b v u hops : winv w → best_of w s now k b → state_ok w s (State (b_next_hop b) (b_transmitter b) hops v (b_link b) false u).
Proof.
  intros Hw Hb. split; [intros _; by eapply best_live|]. destruct Hb as [[->|(i & n & l & h & d & _ & Hn & (_ & Hl & _) & _ & ->)] _]; [done|]. intros u' Hu. apply (wi_transmitter _ Hw n s l); [by eapply list_elem_of_lookup_2|done|done].
Qed.

(** The calculation is over. *)
Lemma end_calculation w w1 w2 s now b u x D ns : winv w2 → keeps w1 w2 → neighbours w1 = neighbours w → route_version w1 = route_version w → flags w1 = <[s := true]> (flags w) → flags w !! s = Some false → (∀ v, v ≠ s → (stable w v ↔ stable w1 v) ∧ via w1 v = via w v ∧ prior w1 v = prior w v ∧ due w1 v = due w v ∧ (mine w v → mine w1 v)) → ¬ stable w s → due w1 s = due w s → (w_ticks w < w_ticks w1)%nat → (u = due w2 s ∨ u = gettime_ms (w_ticks w) + 5) →
  subs w2 !! s = Some x → best_of w2 s now (length (neighbours w2)) b →
  let m := <[s := taken D (route_version w2) b s u x]> (subs w2) in let w3 := World m (neighbours w2) (route_version w2) D (notes w2 ++ ns) (w_ticks w2) in
  dests_ok (link_uses (neighbours w2)) m D → winv w3 ∧ keeps w w3 ∧ settled w3 s ∧ best_taken w3 s now (if is_self D b s x then None else b_link b).
Proof.
  intros Hw2 Hk Hn Hv Hf Hfs Hoth Hns Hd1 Htk Hu Hs Hb m w3 HD. assert (flags w3 = <[s := false]> (flags w2)) as Hf3 by (unfold flags; cbn; unfold m; by rewrite fmap_insert).
  assert (flags w3 = flags w) as Hf'. { rewrite Hf3, (ke_flags _ _ Hk), Hf, insert_insert_eq. by apply insert_id. }
  assert (settled w3 s) as Hset. { exists (taken D (route_version w2) b s u x). split; [by apply lookup_insert_eq|]. right. by eexists. }
  assert (∀ v, v ≠ s → via w3 v = via w2 v) as Hvia by (intros v Hvs; unfold via, w3; cbn; unfold m; by rewrite lookup_insert_ne).
  split; [|split; [|split; [done|]]].
  - assert (∀ t, is_Some (flags w2 !! t) → is_Some (flags w3 !! t)) as Hmore by (intros t Ht; rewrite Hf3; destruct (decide (t = s)) as [->|Hts]; [rewrite lookup_insert_eq; by eexists|by rewrite lookup_insert_ne]).
    pose proof Hw2 as [H1 H2 H3 H4 H5]. split; try done; [intros n y k t G1 G2 G3; apply Hmore; by eapply H3|]. intros v y t Hy Ht. assert (state_ok w2 v t) as [G1 G2]; [|split; [exact G1|intros u' Hu'; by apply Hmore, G2]].
    destruct (decide (v = s)) as [->|Hvs]; [|change (m !! v = Some y) in Hy; unfold m in Hy; rewrite lookup_insert_ne in Hy by done; by eapply H5]. change (m !! s = Some y) in Hy. unfold m in Hy. rewrite lookup_insert_eq in Hy. injection Hy as <-. injection Ht as <-. by eapply best_state_ok.
  - split; [rewrite <- Hn; apply Hk|cbn; by rewrite (ke_version _ _ Hk)|done| | | |cbn; pose proof (ke_ticks _ _ Hk); lia| |].
    intros v Hst. assert (v ≠ s) as Hvs by (by intros ->). destruct (Hoth v Hvs) as (E1 & E2 & _). destruct (ke_stable _ _ Hk v) as [G1 G2]; [by apply E1|]. split; [|rewrite Hvia by done; congruence].
    destruct G1 as [(z & Hz & Hor)|Hb2]; [left; exists z; split; [cbn; unfold m; by rewrite lookup_insert_ne|done]|right; rewrite Hf3; by rewrite lookup_insert_ne].
    intros v Hst. assert (v ≠ s) as Hvs by (by intros ->). destruct (Hoth v Hvs) as (E1 & _ & E3 & _). rewrite <- E3, <- (ke_prior _ _ Hk v) by (by apply E1). unfold prior, w3; cbn; unfold m. by rewrite lookup_insert_ne.
    intros v Hmi. assert (v ≠ s) as Hvs by (intros ->; apply Hns; left; destruct Hmi as (z & Hz & Ez); exists z; split; [done|by left]). destruct (Hoth v Hvs) as (_ & _ & _ & _ & E4). destruct (ke_mine _ _ Hk v (E4 Hmi)) as (z & Hz & Ez). exists z. split; [cbn; unfold m; by rewrite lookup_insert_ne|done].
    intros v Hst Hh. assert (v ≠ s) as Hvs by (by intros ->). destruct (Hoth v Hvs) as (E1 & _ & _ & E3 & _). rewrite <- E3, <- (ke_due _ _ Hk v) by (done || by apply E1). unfold due, w3; cbn; unfold m. by rewrite lookup_insert_ne.
    intros v Hh. pose proof (ke_ticks _ _ Hk) as Hle. assert (due w3 s = u) as Eu by (unfold due, w3; cbn; unfold m; by rewrite lookup_insert_eq). destruct (decide (v = s)) as [->|Hvs].
    + destruct Hu as [->|Hu]; [|right; exists (w_ticks w); split; [cbn; lia|congruence]]. apply (dated_trans _ w1); [cbn; lia|by left|]. apply (dated_trans _ w2); [cbn; lia|by apply Hk|by left].
    + destruct (Hoth v Hvs) as (_ & _ & _ & E3 & _). apply (dated_trans _ w1); [cbn; lia|by left|]. apply (dated_trans _ w2); [cbn; lia|by apply Hk|]. left. unfold due, w3; cbn; unfold m. by rewrite lookup_insert_ne.
  - exists b, u, x. split; [|split; [apply lookup_insert_eq|done]]. eapply (best_of_same w2); [apply Forall_Forall2_diag, Forall_forall; by intros| |done]. intros i n l t _ _ _ _ _ _ Hts. by apply Hvia.
Qed.

(** The ways to return before a calculation. *)
Lemma enter_runs s w (K : link_state → prog world (option (nat * nat))) (Q : option (nat * nat) → world → Prop) : winv w → is_Some (flags w !! s) →
  (∀ r w', winv w' → keeps w w' → stable w s → live w' s r → Q r w') →
  (∀ t y w0, winv w0 → keeps w w0 → w_ticks w0 = w_ticks w → subs w0 !! s = Some y → state y = Some t → s_calculating t = false → ¬ settled w0 s → runs (K t) w0 Q) →
  runs (x ← the_sub s; if reachable x =? REACHABLE_SELF then mret None else t ← get_link_state s; v ← ask route_version; if s_route_version t =? v then mret (s_link t) else if s_calculating t then mret None else K t) w Q.
Proof.
  intros Hw Hs Hret HK. pose proof Hs as [x Hx]%flags_some. apply runs_bind, (runs_sub s x); [done|]. destruct (Z.eqb_spec (reachable x) REACHABLE_SELF) as [Hself|Hself].
  { apply runs_ret, Hret; [done|by apply keeps_refl| |done]. left. exists x. split; [done|by left]. }
  apply runs_bind. eapply runs_mono; [apply (get_state_runs s w Hw); by eexists|]. cbn beta. intros t w0 (Hw0 & Hk0 & Htk & x0 & y & Hx0 & Hy & Hreach & Hdest & Ht & Hnew). rewrite Hx in Hx0. injection Hx0 as <-. apply runs_bind, runs_ask.
  destruct (Z.eqb_spec (s_route_version t) (route_version w0)) as [Hv|Hv]. { apply runs_ret, Hret; [done|done| |by apply (wi_states _ Hw0 s y t)]. left. exists x. split; [done|]. right. exists t. rewrite (ke_version _ _ Hk0) in Hv. by destruct Hnew. }
  destruct (s_calculating t) eqn:Hc. { apply runs_ret, Hret; [done|done| |done]. right. rewrite <- (ke_flags _ _ Hk0). unfold flags. rewrite lookup_fmap, Hy. cbn. unfold busy. by rewrite Ht, Hc. }
  apply (HK t y); try done. intros (z & Hz & Hor). rewrite Hy in Hz. injection Hz as <-. destruct Hor as [?|(q & Hq & ?)]; [congruence|]. rewrite Ht in Hq. injection Hq as <-. done.
Qed.

Lemma find_runs fuel : ∀ s w, winv w → is_Some (flags w !! s) → room fuel w →
  runs (find_best_link sid char_signed my_subscriber directory_service gettime_ms fuel s) w (λ r w', winv w' ∧ keeps w w' ∧ stable w' s ∧ live w' s r ∧ (¬ stable w s → best_taken w' s (gettime_ms (w_ticks w)) r)).
Proof.
  induction fuel as [|fuel IH]; intros s w Hw Hs Hroom; cbn [find_best_link]; (apply enter_runs; [done|done|intros r w' Hw' Hk' Hst Hli; split_and!; [done|done|by apply (ke_stable _ _ Hk')|done|done]|]);
    intros t y w0 Hw0 Hk0 Htk Hy Ht Hc Hns; destruct (begin_calculation w0 s y t Hw0 Hy Ht Hc Hns) as (Hw1 & Hf1 & Hcount & Hoth & Hnst & Hfs & Hd1); apply (room_keeps _ _ _ Hk0) in Hroom; unfold room in Hroom; [lia|].
  apply runs_bind, (runs_upd s _ y); [done|]. apply runs_bind. unfold gettime. eexists _, _. split; [reflexivity|]. cbn beta. set (w1 := w_tick _) in *. apply runs_bind, runs_ask. change (w_ticks (set_subs _ w0)) with (w_ticks w0). rewrite Htk. set (now := gettime_ms (w_ticks w)).
  apply runs_bind. eapply runs_mono; [apply (consider_all_runs fuel _) with (i := 0%nat); [|done|unfold room; lia|lia|split; [by left|lia]|intros i; lia]|].
  { intros v w' Hw' Hv Hr. apply runs_bind. eapply runs_mono; [by apply IH|]. cbn beta. intros r w2 (G1 & G2 & G3 & _). by apply runs_ret. }
  cbn beta. intros b w2 (Hw2 & Hk2 & Hb2). assert (∃ x2 p2, subs w2 !! s = Some x2 ∧ state x2 = Some p2) as (x2 & p2 & Hx2 & Hp2).
  { assert (flags w2 !! s = Some true) as Hf by (by rewrite (ke_flags _ _ Hk2), Hf1, lookup_insert_eq). unfold flags in Hf. rewrite lookup_fmap in Hf. apply fmap_Some in Hf as (x2 & Hx2 & E). exists x2. unfold busy in E. destruct (state x2) as [p2|]; [by exists p2|done]. }
  eapply runs_mono; [by apply (take_runs w2 s now (length (neighbours w2)) b x2 p2)|]. cbn. intros r w3 (D & ns & u & -> & HD & -> & Hu).
  destruct (end_calculation w0 w1 w2 s now b u x2 D ns) as (G1 & G2 & G3 & G4); try done; [cbn; lia|rewrite Htk; unfold due; by rewrite Hx2, Hp2|]. split_and!; [done|by eapply keeps_trans|by left| |done].
  destruct G4 as (b' & u' & x' & Hb' & _ & ->). destruct (is_self _ _ _ _); [done|]. by apply (best_live _ s now (length (neighbours w2))).
Qed.

End Find.
End RouteLinkFind.
