(* ===== verification/RouteLinkProps.v ===== *)
(** * What holds of the routes

    The scores are those of the paths in the reported links, the search ends and takes
    the best of them; what a change of a report leaves behind. *)

From S2P Require Import Prelude Prog DataFormats RouteLink RouteLinkPath RouteLinkBest RouteLinkFind.
Import Prog DataFormats RouteLink RouteLinkPath RouteLinkBest RouteLinkFind.

Module RouteLinkProps.

(** ** Where the invariant comes from *)

Fixpoint tree_all (P : link → bool) (t : link_tree) : bool := match t with Leaf => true | Node _ l a b => P l && tree_all P a && tree_all P b end.
Lemma tree_all_search sid P t r l : tree_all P t = true → search sid t r = Some l → P l = true.
Proof.
  induction t as [|x k a IHa b IHb]; cbn; [done|]. rewrite !andb_true_iff. intros [[H1 H2] H3]. destruct (decide (r = x)); [by intros [= <-]|]. destruct (goes_left sid r x); auto.
Qed.
Lemma tree_all_add sid P t r k : tree_all P t = true → P k = true → tree_all P (add_link sid t r k) = true.
Proof. intros H Hk. induction t as [|x l a IHa b IHb]; cbn in *; [by rewrite Hk|]. rewrite !andb_true_iff in H. destruct H as [[H1 H2] H3]. destruct (decide (r = x)); cbn; [by rewrite H1, H2, H3|]. destruct (goes_left sid r x); cbn; rewrite ?IHa, ?IHb, ?H1, ?H2, ?H3 by done; done. Qed.

(** Links nothing was calculated of since the last report. *)
Definition unscored (v : Z) (l : link) : bool := negb (path_version l =? v) && bool_decide (parent l = None) && negb (calculating l).
Definition reported (w : world) (n : neighbour) : bool :=
  tree_all (λ l, unscored (n_path_version n) l && match transmitter l with Some t => bool_decide (is_Some (subs w !! t)) | None => true end
    && match l_destination l with Some d => match dests w !! d with Some e => 1 <=? _ref_count e | None => false end | None => true end) (root n).
Definition untouched (w : world) : bool := forallb (reported w) (neighbours w) && bool_decide (map_Forall (λ _ x, destination x = None ∧ state x = None) (subs w)).

Lemma unused (m : gmap nat subscriber) d : map_Forall (λ _ x, destination x = None) m → users m d = 0.
Proof. intros H. unfold users, count. replace (filter _ m) with (∅ : gmap nat subscriber); [done|]. symmetry. apply map_empty. intros s. apply map_lookup_filter_None. right. intros x Hs Hu. cbn in Hu. unfold uses in Hu. rewrite (H s x Hs) in Hu. done. Qed.
(** The invariant of the routes holds when all that is known was just reported. *)
Lemma untouched_inv sid my w : untouched w = true → winv sid my w.
Proof.
  unfold untouched. rewrite andb_true_iff, bool_decide_eq_true. intros [Hn Hd]. apply Is_true_eq_left, forallb_True in Hn. rewrite Forall_forall in Hn.
  assert (∀ n x k, n ∈ neighbours w → search sid (root n) x = Some k → (path_version k ≠ n_path_version n ∧ parent k = None ∧ calculating k = false) ∧ (∀ t, transmitter k = Some t → is_Some (subs w !! t)) ∧ (∀ d, l_destination k = Some d → ∃ e, dests w !! d = Some e ∧ 1 ≤ _ref_count e)) as H.
  { intros n x k Hin Hk. specialize (Hn n Hin). apply Is_true_eq_true in Hn. pose proof (tree_all_search _ _ _ _ _ Hn Hk) as E. unfold unscored in E. rewrite !andb_true_iff, !negb_true_iff, Z.eqb_neq, bool_decide_eq_true in E. destruct E as [[[[E1 E2] E3] E4] E5]. split_and!; [done|done|done| |].
    - intros t Ht. rewrite Ht in E4. by apply bool_decide_eq_true in E4.
    - intros d Hl. rewrite Hl in E5. destruct (dests w !! d) as [e|]; [|done]. exists e. split; [done|lia]. }
  split.
  - intros n Hin. split; [intros x l p Hl Hp|intros x l Hl Hf|intros x l Hl Hc]; destruct (H n x l Hin Hl) as ((E1 & E2 & E3) & _); [congruence|by destruct E1|congruence].
  - intros n x k Hin Hk. by apply (H n x k).
  - intros n x k t Hin Hk Ht. apply flags_some. by apply (proj1 (proj2 (H n x k Hin Hk))).
  - intros d. rewrite unused by (by intros s x Hx; apply (Hd s x)). split; [|lia]. intros (n & x & k & Hin & Hk & Hl). destruct (proj2 (proj2 (H n x k Hin Hk)) d Hl) as (e & He & Hc). exists e. split; [done|lia].
  - intros s x t Hx Ht. destruct (Hd s x Hx) as [_ E]. congruence.
Qed.

(** The table after a report of the link to [r]. *)
Definition after_report sid cs (n : neighbour) (r : nat) (t : option nat) (v d : Z) : neighbour := path_changed cs (upd_link sid n r (report_link cs t v d)).
(** No calculation is under way, and none of the links was scored at the new version. *)
Definition unused_version sid (n : neighbour) (v : Z) : Prop := ∀ x k, search sid (root n) x = Some k → calculating k = false ∧ path_version k ≠ v.

Section Report.
Variables (sid : nat → list Z) (cs : bool) (my : option nat) (n : neighbour) (r : nat) (t : option nat) (v d : Z).
Abbreviation n' := (after_report sid cs n r t v d).
Lemma reported_at x : search sid (root n') x = if decide (x = r) then report_link cs t v d <$> search sid (root n) r else search sid (root n) x.
Proof. change (root n') with (root (upd_link sid n r (report_link cs t v d))). apply at_upd. Qed.
Lemma report_keeps k : parent (report_link cs t v d k) = parent k ∧ calculating (report_link cs t v d k) = calculating k ∧ path_version (report_link cs t v d k) = path_version k ∧ transmitter (report_link cs t v d k) = t.
Proof. unfold report_link. destruct (bool_decide_reflect (transmitter k = t)); [|done]. by destruct (_ || _). Qed.
Lemma reported_back x k : search sid (root n') x = Some k → ∃ k0, search sid (root n) x = Some k0 ∧ parent k = parent k0 ∧ calculating k = calculating k0 ∧ path_version k = path_version k0 ∧ transmitter k = if decide (x = r) then t else transmitter k0.
Proof.
  rewrite reported_at. destruct (decide (x = r)) as [->|]; [|by exists k]. intros Hk. apply fmap_Some in Hk as (k0 & Hk0 & ->). exists k0. split; [done|]. apply report_keeps.
Qed.
(** A report keeps the scores those of the paths, when its version is not one that a link was scored at. *)
Lemma report_consistent : consistent sid my n → unused_version sid n (n_path_version n') → consistent sid my n'.
Proof.
  intros [C1 C2 C3] Hk. split.
  - intros x k p Hx Hp. destruct (reported_back x k Hx) as (k0 & Hk0 & E1 & _). rewrite E1 in Hp. rewrite reported_at. destruct (decide (p = r)) as [->|]; [apply fmap_is_Some|]; by apply (C1 x k0).
  - intros x k Hx Hf. destruct (reported_back x k Hx) as (k0 & Hk0 & _ & _ & E & _). destruct (Hk x k0 Hk0) as [_ Hno]. unfold fresh in Hf. congruence.
  - intros x k Hx Hc. destruct (reported_back x k Hx) as (k0 & Hk0 & _ & E & _). destruct (Hk x k0 Hk0) as [Hno _]. congruence.
Qed.
(** They are those of the transmitters when it does not give the link another transmitter than the one its parent was found by. *)
Lemma report_sound l : sound sid my n → unused_version sid n (n_path_version n') → search sid (root n) r = Some l → parent l = None ∨ transmitter l = t → sound sid my n'.
Proof.
  rewrite !sound_spec. intros [Hcs Hco] Hk Hl Hor. split; [by apply report_consistent|]. intros x k p Hx Hp. destruct (reported_back x k Hx) as (k0 & Hk0 & E1 & _ & _ & E2). rewrite E1 in Hp. pose proof (Hco x k0 p Hk0 Hp) as Ht. rewrite E2.
  destruct (decide (x = r)) as [->|]; [|done]. rewrite Hl in Hk0. injection Hk0 as <-. destruct Hor; congruence.
Qed.
End Report.

(** Tables where nothing is scored. *)
Definition ready sid (n : neighbour) : bool := tree_all (λ l, negb (path_version l =? n_path_version n) && negb (calculating l) && match parent l with Some p => bool_decide (is_Some (search sid (root n) p)) | None => true end) (root n).
Lemma ready_consistent sid my n : ready sid n = true → consistent sid my n ∧ ∀ x k, search sid (root n) x = Some k → calculating k = false.
Proof.
  intros H. assert (∀ x k, search sid (root n) x = Some k → path_version k ≠ n_path_version n ∧ calculating k = false ∧ ∀ p, parent k = Some p → is_Some (search sid (root n) p)) as Hall.
  { intros x k Hk. pose proof (tree_all_search _ _ _ _ _ H Hk) as E. rewrite !andb_true_iff, !negb_true_iff, Z.eqb_neq in E. destruct E as [[E1 E2] E3]. split_and!; [done|done|]. intros p Hp. rewrite Hp in E3. by apply bool_decide_eq_true in E3. }
  split; [|intros x k Hk; by apply (Hall x k Hk)]. split; [intros x k p Hk Hp; by apply (Hall x k Hk)|intros x k Hk Hf|intros x k Hk Hf]; destruct (Hall x k Hk) as (E1 & E2 & _); [by destruct E1|congruence].
Qed.

(** A path that is given by its steps. *)
Lemma along_by next sid my n r l t h d h' d' : search sid (root n) r = Some l → next l = Some t → transmitter l ≠ my → r ≠ n_subscriber n → h' = h + 1 → d' = d + cost l → along sid my next n t h d → along sid my next n r h' d'.
Proof. intros. subst. by eapply along_next. Qed.
Lemma along_start next sid my n r l d : search sid (root n) r = Some l → transmitter l = my → r = n_subscriber n → d = cost l → along sid my next n r 1 d.
Proof. intros. subst. by apply along_first. Qed.

(** ** An example *)

Definition ex_sid (k : nat) : list Z := [Z.of_nat k].
Definition ex_sub (r : Z) : subscriber := Subscriber r None 0 None None false true None.
Definition ex_link (t : nat) (dest : option nat) (drop : Z) : link := Link (Some t) None dest (-1) (-1) 1 drop 0 0 false.
Definition ex_subs : gmap nat subscriber := <[0%nat := ex_sub REACHABLE_SELF]> (gset_to_gmap (ex_sub REACHABLE_NONE) (list_to_set [1; 2; 3; 4]%nat)).
Definition ex_dests : gmap nat network_destination := {[0%nat := Dest 3 false]}.
(** Node 0 hears 1 and 2; 3 is heard by 1, with losses, and by 4, and 4 by 2. *)
Definition ex_n1 : neighbour := Neighbour 1 0 1000 (Node 1 (ex_link 0 (Some 0%nat) 0) Leaf (Node 3 (ex_link 1 None 5) Leaf Leaf)).
Definition ex_n2 : neighbour := Neighbour 2 0 1000 (Node 2 (ex_link 0 (Some 0%nat) 0) Leaf (Node 4 (ex_link 2 None 0) (Node 3 (ex_link 4 None 0) Leaf Leaf) Leaf)).
Definition ex_world : world := World ex_subs [ex_n1; ex_n2] 1 ex_dests [] 0.
Definition ex_find (w : world) (s : nat) := find_best_link ex_sid true (Some 0%nat) None (λ k, Z.of_nat k) 5 s w.
Example ex_best : match ex_find ex_world 3 with Ret (r, w) => r = Some (2, 3)%nat ∧ next_hop <$> subs w !! 3%nat = Some (Some 2%nat) ∧ sub_hop_count <$> subs w !! 3%nat = Some 3 | _ => False end.
Proof. vm_compute. done. Qed.

(** An example of a state: the neighbour has reported the link to a receiver again. *)
Definition again (w : world) (i : nat) (r : nat) (t : option nat) (v : Z) : world :=
  match neighbours w !! i with
  | Some n => World (subs w) (<[i := after_report ex_sid true n r t v 0]> (neighbours w)) (route_version w + 1) (dests w) (notes w) (w_ticks w)
  | None => w
  end.

(** A report that repeats the version 128 or a later one changes the routes again where [char] has a sign. *)
Lemma report_changes_again t v d l : 128 ≤ v < 256 → -128 ≤ link_version l < 128 → link_version (report_link true t v d l) ≠ v.
Proof.
  intros Hv Hl. unfold report_link. destruct (negb (bool_decide _) || _) eqn:E; [|lia]. cbn. unfold char. change 0xFF with (Z.ones 8). rewrite Z.land_ones, Z.mod_small by lia. unfold wraps. intros E'. pose proof (Z.mod_pos_bound (v + 2 ^ (8 - 1)) (2 ^ 8)). lia.
Qed.

(** ** Claims *)

Lemma count_le {A} (P : A → bool) (m : gmap nat A) : (count P m ≤ size m)%nat.
Proof. unfold count. apply map_size_filter. Qed.

(** What a score is after it was asked for. *)
Lemma score_ret sid cs my n r l : consistent sid my n → (∀ x k, search sid (root n) x = Some k → calculating k = false) → search sid (root n) r = Some l →
  ∃ n' l', update_path_score sid cs my (tree_size (root n)) n r = Ret n' ∧ search sid (root n') r = Some l' ∧ path_scored sid my n r l' ∧ same_links sid n n' ∧ consistent sid my n' ∧ (coherent sid n → coherent sid n') ∧ ∀ x k, search sid (root n') x = Some k → calculating k = false.
Proof.
  intros Hs Hid Hl. destruct (update_path_ret sid cs my (tree_size (root n)) n r l Hs Hl) as (n' & E & Hsame & Hso & Hco & Hc & Hf); [|apply idle_size|].
  { intros x k Hk Hck. specialize (Hid x k Hk). congruence. }
  destruct (Hf (Hid r l Hl)) as (l' & Hl' & Hfr). exists n', l'. split_and!; try done.
  - eapply (path_scored_same _ _ n' n); [by apply same_sym|done|done|]. by apply (cs_scored _ _ _ Hso).
  - intros x k Hk. specialize (Hc x). unfold calc_of in Hc. rewrite Hk in Hc. symmetry in Hc. apply fmap_Some in Hc as (k0 & Hk0 & ->). by apply (Hid x k0).
Qed.

(** C9: Path scores are exact: in a table whose cached parents are in the table and whose scores at the current version are right, which every report keeps, when the score of a link is asked for and no other calculation is under way, the calculation ends with the table's size as fuel; the link then has as hop count and drop rate those of the path from its receiver back to this node through the neighbour, which goes from a link to its cached parent, or where none is cached to its transmitter, and the hop count -1 when that leads nowhere or in a circle; what was reported of the links is as before, and the table fit for the next calculation. Where the cached parents are those of the transmitters, and they stay so, the path is the one along the reported transmitters. *)
Theorem path_score_exact sid cs my n r l : consistent sid my n → (∀ x k, search sid (root n) x = Some k → calculating k = false) → search sid (root n) r = Some l →
  ∃ n' l', update_path_score sid cs my (tree_size (root n)) n r = Ret n' ∧ search sid (root n') r = Some l' ∧ (∀ h d, path sid my n r h d ↔ 0 < hop_count l' ∧ hop_count l' = h ∧ path_drop_rate l' = d) ∧ ((∀ h d, ¬ path sid my n r h d) → hop_count l' = -1) ∧
    same_links sid n n' ∧ consistent sid my n' ∧ (∀ x k, search sid (root n') x = Some k → calculating k = false) ∧ (coherent sid n → coherent sid n' ∧ ∀ h d, path sid my n r h d ↔ route sid my n r h d).
Proof.
  intros Hs Hid Hl. destruct (score_ret sid cs my n r l Hs Hid Hl) as (n' & l' & E & Hl' & Hsc & H1 & H2 & H3 & H4). exists n', l'. split_and!; try done; [|apply Hsc|intros Hco; split; [by apply H3|intros h d; by apply coherent_route]].
  intros h d. split.
  - intros Hr. pose proof (along_pos _ _ _ _ _ _ _ Hr). by destruct (proj1 Hsc h d Hr) as [<- <-].
  - intros (Hp & <- & <-). by apply scored_path.
Qed.

(** C8: The search for a route ends and takes the best one: with the number of subscribers as fuel, [find_best_link] returns from every consistent state, whatever circles the reported links and the routes of the transmitters form; reports and what is settled stay as they are and the references to destinations stay counted, the link that is returned is in a table; and when the route had to be calculated, the one that is stored, for sending and for the reports to others, is the offer of a neighbour that is heard with the least drop rate and, among those, the least hops, or no route when no neighbour offers one better than 99. *)
Theorem best_route_taken sid cs my dir clock fuel w s : winv sid my w → is_Some (subs w !! s) → (size (subs w) ≤ fuel)%nat →
  ∃ r w', find_best_link sid cs my dir clock fuel s w = Ret (r, w') ∧ winv sid my w' ∧ keeps sid clock (λ _, True) w w' ∧ stable w' s ∧ live sid w' s r ∧ (¬ stable w s → best_taken sid my w' s (clock (w_ticks w)) r).
Proof.
  intros Hw Hs Hf. destruct (find_runs sid cs my dir clock (λ _, True) fuel s w Hw) as (r & w' & E & H); [by apply flags_some| |by exists r, w'].
  unfold room. etransitivity; [apply count_le|]. unfold flags. by rewrite map_size_fmap.
Qed.
Lemma path_score_exact_witness : (consistent ex_sid (Some 0%nat) ex_n2 ∧ (∀ x k, search ex_sid (root ex_n2) x = Some k → calculating k = false) ∧ search ex_sid (root ex_n2) 3%nat = Some (ex_link 4 None 0)) ∧ ∃ n' l', update_path_score ex_sid true (Some 0%nat) 3 ex_n2 3 = Ret n' ∧ search ex_sid (root n') 3%nat = Some l' ∧ hop_count l' = 3.
Proof.
  destruct (ready_consistent ex_sid (Some 0%nat) ex_n2) as [Hs Hid]; [by vm_compute|].
  split; [split_and!; [done|done|vm_compute; done]|]. destruct (path_score_exact ex_sid true (Some 0%nat) ex_n2 3 (ex_link 4 None 0) Hs Hid) as (n' & l' & E & Hl & Hr & _); [vm_compute; done|]. exists n', l'. split; [exact E|]. split; [done|].
  assert (path ex_sid (Some 0%nat) ex_n2 3 3 0) as Hpath.
  { eapply (along_by towards _ _ _ 3 _ 4 2 0); [by vm_compute|done..|]. eapply (along_by towards _ _ _ 4 _ 2 1 0); [by vm_compute|done..|]. eapply (along_start towards _ _ _ 2); [by vm_compute|done..]. }
  apply Hr in Hpath. destruct Hpath as (_ & E' & _). exact E'.
Defined.

Lemma best_route_taken_witness : (winv ex_sid (Some 0%nat) ex_world ∧ is_Some (subs ex_world !! 3%nat) ∧ (size (subs ex_world) ≤ 5)%nat) ∧ ∃ r w', ex_find ex_world 3 = Ret (r, w') ∧ best_taken ex_sid (Some 0%nat) w' 3 0 r.
Proof.
  assert (winv ex_sid (Some 0%nat) ex_world) as Hw by (apply untouched_inv; vm_compute; done). assert (is_Some (subs ex_world !! 3%nat)) as Hs by (eexists; vm_compute; done). assert (size (subs ex_world) ≤ 5)%nat as Hf by (vm_compute; lia). split; [done|].
  destruct (best_route_taken ex_sid true (Some 0%nat) None (λ k, Z.of_nat k) 5 ex_world 3 Hw Hs Hf) as (r & w' & E & _ & _ & _ & _ & Hb). exists r, w'. split; [exact E|]. apply Hb. intros [(x & Hx & Hor)|Hf']; [|vm_compute in Hf'; discriminate]. assert (x = ex_sub REACHABLE_NONE) as -> by (vm_compute in Hx; injection Hx as <-; reflexivity). destruct Hor as [Hn|(t & Ht & _)]; discriminate.
Defined.

Definition after {A} (o : outcome (A * world)) (w : world) : world := match o with Ret (_, w') => w' | _ => w end.
Definition dead_link : link := Link None None None (-1) (-1) 1 0 0 0 false.

(** C39: A link whose transmitter changes keeps the path of the old one: whatever transmitter a neighbour reports for a link whose parent is cached, not this node, the next score of the link is one hop more than the path through that parent, or -1 when there is none; the link has the new transmitter and still the old parent. *)
Theorem stale_parent_followed sid cs my n r l p t v d : let n1 := after_report sid cs n r (Some t) v d in
  consistent sid my n → unused_version sid n (n_path_version n1) → search sid (root n) r = Some l → parent l = Some p → r ≠ n_subscriber n → Some t ≠ my →
  ∃ n' l', update_path_score sid cs my (tree_size (root n1)) n1 r = Ret n' ∧ search sid (root n') r = Some l' ∧ transmitter l' = Some t ∧ towards l' = Some p ∧
    (∀ h d, path sid my n1 p h d → hop_count l' = h + 1) ∧ ((∀ h d, ¬ path sid my n1 p h d) → hop_count l' = -1).
Proof.
  intros n1 Hs Hv Hl Hp Hr Ht. pose proof (report_keeps cs (Some t) v d l) as (R1 & _ & _ & R2). assert (search sid (root n1) r = Some (report_link cs (Some t) v d l)) as Hl1 by (unfold n1; rewrite reported_at, decide_True by done; by rewrite Hl).
  set (l1 := report_link cs (Some t) v d l) in *. assert (towards l1 = Some p) as Htow by (unfold towards; by rewrite R1, R2, Hp).
  destruct (score_ret sid cs my n1 r l1) as (n' & l' & E & Hl' & [S1 S2] & Hsame & _); [by apply report_consistent| |done|].
  { intros x k Hk. destruct (reported_back _ _ _ _ _ _ _ _ _ Hk) as (k0 & Hk0 & _ & -> & _). by apply (Hv x k0 Hk0). }
  pose proof (same_at sid n1 n' r l1 Hsame Hl1) as (l2 & Hl2 & Ef). rewrite Hl' in Hl2. injection Hl2 as <-. injection Ef as F1 _ _ _ _ F6. exists n', l'. split_and!; [done|done|congruence|congruence| |].
  - intros h dr Hh. apply (S1 (h + 1) (dr + cost l1)). apply (along_next _ _ _ _ _ _ p); [done|done|congruence|done|done].
  - intros Hno. apply S2. intros h dr Hh. inversion Hh as [? k G1 G2 G3|? k u h1 d1 G1 G2 G3 G4 G5]; rewrite Hl1 in G1; injection G1 as <-; [by destruct Hr|]. rewrite Htow in G2. injection G2 as <-. by apply (Hno h1 d1).
Qed.

(** Neighbour 1 hears 2 and 3, and 2 heard 4, with the parent cached; 2 is lost, and 3 hears 4: there is a path of three hops to 4 by the reports, and none is found. *)
Definition moved : neighbour :=
  Neighbour 1 0 1000 (Node 1 (ex_link 0 (Some 0%nat) 0) Leaf (Node 2 dead_link Leaf (Node 3 (ex_link 1 None 0) Leaf (Node 4 (Link (Some 2%nat) (Some 2%nat) None (-1) (-1) 1 0 0 0 false) Leaf Leaf)))).
Lemma stale_parent_followed_witness : let n1 := after_report ex_sid true moved 4 (Some 3%nat) 2 0 in
  route ex_sid (Some 0%nat) n1 4 3 0 ∧ ∃ n' l', update_path_score ex_sid true (Some 0%nat) (tree_size (root n1)) n1 4 = Ret n' ∧ search ex_sid (root n') 4%nat = Some l' ∧ hop_count l' = -1.
Proof.
  intros n1. split.
  { eapply (along_by transmitter _ _ _ _ _ 3 2 0); [by vm_compute|done..|]. eapply (along_by transmitter _ _ _ _ _ 1 1 0); [by vm_compute|done..|]. eapply (along_start transmitter _ _ _ 1); [by vm_compute|done..]. }
  destruct (ready_consistent ex_sid (Some 0%nat) moved) as [Hs Hid]; [by vm_compute|]. set (l := Link (Some 2%nat) (Some 2%nat) None (-1) (-1) 1 0 0 0 false).
  destruct (stale_parent_followed ex_sid true (Some 0%nat) moved 4 l 2 3 2 0 Hs) as (n' & l' & E & Hl' & _ & _ & _ & Hno); [|by vm_compute|done|done|done|].
  - intros x k Hk. assert (tree_all (λ l, negb (calculating l) && negb (path_version l =? n_path_version n1)) (root moved) = true) as H by (by vm_compute). pose proof (tree_all_search _ _ _ _ _ H Hk) as G. rewrite andb_true_iff, !negb_true_iff, Z.eqb_neq in G. exact G.
  - exists n', l'. split; [exact E|]. split; [done|]. apply Hno. intros h d Hh. inversion Hh as [? k G1 G2 G3|? k u h1 d1 G1 G2 G3 G4 G5]; vm_compute in G1; injection G1 as <-; discriminate G2.
Defined.

(** 3 is heard by 4 as 1 reports, by 2 with losses, and then by 5; 4 is heard by 1, with more losses, and by 3 as 2 reports. *)
Definition crossed : world :=
  let w := World (<[5%nat := ex_sub REACHABLE_NONE]> ex_subs)
    [Neighbour 1 0 1000 (Node 1 (ex_link 0 (Some 0%nat) 0) Leaf (Node 3 (ex_link 4 None 0) Leaf (Node 4 (ex_link 1 None 10) Leaf Leaf)));
     Neighbour 2 0 1000 (Node 2 (ex_link 0 (Some 0%nat) 0) Leaf (Node 3 (ex_link 2 None 5) Leaf (Node 4 (ex_link 3 None 0) Leaf Leaf)));
     Neighbour 5 0 1000 (Node 5 (ex_link 0 (Some 0%nat) 0) (Node 3 dead_link Leaf Leaf) Leaf)] 1 ex_dests [] 0 in
  again (after (ex_find w 3) w) 2 3 (Some 5%nat) 2.
Definition hop (w : world) (s : nat) : option nat := match subs w !! s with Some x => match state x with Some p => if s_route_version p =? route_version w then s_next_hop p else None | None => None end | None => None end.
(** While a route is calculated its old next hop is taken for the new one: the same reports give 4 the next hop 2 when the route to 3 is asked for first, with 3 as its transmitter, whose own next hop is 5, and the next hop 1 when the route to 4 is asked for first. *)
Theorem stale_next_hop_followed : let w := after (ex_find crossed 3) crossed in let w' := after (ex_find crossed 4) crossed in
  hop w 3 = Some 5%nat ∧ hop w 4 = Some 2%nat ∧ (prior_hop <$> subs w !! 4%nat) = Some (Some 3%nat) ∧ hop w' 3 = Some 5%nat ∧ hop w' 4 = Some 1%nat.
Proof. vm_compute. done. Qed.

End RouteLinkProps.
