(* ===== verification/LinkState.v ===== *)
(** * Link state messages (route_link.c)

    A node tells its neighbours of the links it uses in a message of records, one for
    each receiver: [append_link_state] writes a record, [link_receive] reads a message
    into the tables that [RouteLink] chooses routes from. Allocations of neighbours and
    links are taken to succeed, as the code does. *)

From S2P Require Import Prelude Mem Prog OverlayBuffer DataFormats OverlayAddress OverlayAddressTree OverlayAddressCodec RouteLink.
Import Prog OB OverlayAddress OverlayAddressCodec.

Module LinkState.

Definition FLAG_HAS_INTERFACE : Z := Z.shiftl 1 0.
Definition FLAG_NO_PATH : Z := Z.shiftl 1 1.
Definition FLAG_BROADCAST : Z := Z.shiftl 1 2.
Definition FLAG_UNICAST : Z := Z.shiftl 1 3.
Definition FLAG_HAS_ACK : Z := Z.shiftl 1 4.
Definition FLAG_HAS_DROP_RATE : Z := Z.shiftl 1 5.
Definition OVERLAY_MAX_INTERFACES : Z := 16.

(** The number of bits set in an unsigned int. *)
Definition NumberOfSetBits (i : Z) : Z :=
  let i := u32 (i - Z.land (Z.shiftr i 1) 0x55555555) in
  let i := u32 (Z.land i 0x33333333 + Z.land (Z.shiftr i 2) 0x33333333) in
  Z.shiftr (u32 (Z.land (u32 (i + Z.shiftr i 4)) 0x0F0F0F0F * 0x01010101)) 24.

Definition if_then {S} (c : bool) (p : prog S unit) : prog S unit := if c then p else mret tt.

Section LinkState.
Context {arch : Arch} {allocator : Allocator}.
Variable my_subscriber : option nat.

(** ** Writing *)

(** The message that is written, and the subscribers, of which [send_full] is reset. *)
Record message := Msg { o_mem : mem; o_buf : overlay_buffer; o_ss : store }.
Abbreviation writer := (prog message).
Definition put_byte (v : Z) : writer unit := λ t, r ← ob_append_byte (o_mem t) (o_buf t) (u8 v); Ret (tt, Msg r.1 r.2 (o_ss t)).
Definition put_ui32 (v : Z) : writer unit := λ t, r ← ob_append_ui32 (o_mem t) (o_buf t) v; Ret (tt, Msg r.1 r.2 (o_ss t)).
Definition put_subscriber (s : nat) : writer unit := λ t, r ← overlay_address_append my_subscriber None (o_mem t) (o_buf t) (o_ss t) (Some s); let '(_, m, b, ss) := r in Ret (tt, Msg m b ss).
Definition set_at (pos v : Z) : writer unit := λ t, m ← ob_set (o_mem t) (o_buf t) pos (u8 v); Ret (tt, Msg m (o_buf t) (o_ss t)).

Definition record_flags (flags : Z) (transmitter : option nat) (interface ack_sequence drop_rate : Z) : Z :=
  let flags := if negb (interface =? -1) then Z.lor flags FLAG_HAS_INTERFACE else flags in
  let flags := if bool_decide (transmitter = None) then Z.lor flags FLAG_NO_PATH else flags in
  let flags := if negb (ack_sequence =? -1) then Z.lor flags FLAG_HAS_ACK else flags in
  if negb (drop_rate =? -1) then Z.lor flags FLAG_HAS_DROP_RATE else flags.

Definition append_link_state (flags : Z) (transmitter : option nat) (receiver : nat) (interface version ack_sequence ack_mask drop_rate : Z) : writer Z :=
  let flags := record_flags flags transmitter interface ack_sequence drop_rate in
  length_pos ← ask (λ t, ob_position (o_buf t));
  put_byte 0;;
  put_byte flags;;
  put_subscriber receiver;;
  put_byte version;;
  (match transmitter with Some s => put_subscriber s | None => mret tt end);;
  if_then (negb (interface =? -1)) (put_byte interface);;
  if_then (negb (ack_sequence =? -1)) (put_byte ack_sequence;; put_ui32 ack_mask);;
  if_then (negb (drop_rate =? -1)) (put_byte drop_rate);;
  b ← ask o_buf;
  if ob_overrun b then mret (-1)
  else
    set_at length_pos (ob_position b - length_pos);;
    change (λ t, Msg (o_mem t) (ob_checkpoint (o_buf t)) (o_ss t));;
    mret 0.

(** ** What a message changes *)

Record link_out := LinkOut { out_timeout : Z; out_destination : nat }.
(** overlay_interface.h: what is used of a destination and of an interface. *)
Record network_destination := Dest {
  _ref_count : Z;
  d_interface : nat;
  d_unicast : bool;
  sequence_number : Z;
  d_last_ack_seq : Z;
  reachable_timeout_ms : Z;
}.
Record interface_state := Iface { if_up : bool; if_destination : nat }.
(** struct neighbour: the table of links and the rest. *)
Record peer := Peer {
  table : RouteLink.neighbour;
  using_us : bool;
  routing_through_us : Z;
  last_update_seq : Z;
  next_neighbour_update : Z;
  out_links : list link_out;
}.
Definition set_table (v : RouteLink.neighbour) (p : peer) : peer := Peer v (using_us p) (routing_through_us p) (last_update_seq p) (next_neighbour_update p) (out_links p).
Definition set_using_us (v : bool) (p : peer) : peer := Peer (table p) v (routing_through_us p) (last_update_seq p) (next_neighbour_update p) (out_links p).
Definition set_through (v : Z) (p : peer) : peer := Peer (table p) (using_us p) v (last_update_seq p) (next_neighbour_update p) (out_links p).
Definition set_last_seq (v : Z) (p : peer) : peer := Peer (table p) (using_us p) (routing_through_us p) v (next_neighbour_update p) (out_links p).
Definition set_next_update (v : Z) (p : peer) : peer := Peer (table p) (using_us p) (routing_through_us p) (last_update_seq p) v (out_links p).
Definition set_out_links (v : list link_out) (p : peer) : peer := Peer (table p) (using_us p) (routing_through_us p) (last_update_seq p) (next_neighbour_update p) v.

(** Calls of other parts of the daemon. *)
Inductive call :=
  | QueueAck (source : nat) (destination : nat) (ack_mask ack_seq : Z)
  | NeighbourChange (s : nat) (found : bool) (count : nat)
  | SendExplain (f : out_frame).

(** [link_alarm] is the time of the alarm of [link_send]. *)
Record node := Node {
  n_world : world;
  n_payload : overlay_buffer;
  peers : list peer;
  n_dests : gmap nat network_destination;
  n_route_version : Z;
  link_alarm : Z;
  changed : bool;
  calls : list call;
}.
Definition set_world (v : world) (x : node) : node := Node v (n_payload x) (peers x) (n_dests x) (n_route_version x) (link_alarm x) (changed x) (calls x).
Definition set_in (v : overlay_buffer) (x : node) : node := Node (n_world x) v (peers x) (n_dests x) (n_route_version x) (link_alarm x) (changed x) (calls x).
Definition set_peers (v : list peer) (x : node) : node := Node (n_world x) (n_payload x) v (n_dests x) (n_route_version x) (link_alarm x) (changed x) (calls x).
Definition set_n_dests (v : gmap nat network_destination) (x : node) : node := Node (n_world x) (n_payload x) (peers x) v (n_route_version x) (link_alarm x) (changed x) (calls x).
Definition set_version (v : Z) (x : node) : node := Node (n_world x) (n_payload x) (peers x) (n_dests x) v (link_alarm x) (changed x) (calls x).
Definition set_alarm (v : Z) (x : node) : node := Node (n_world x) (n_payload x) (peers x) (n_dests x) (n_route_version x) v (changed x) (calls x).
Definition set_changed (v : bool) (x : node) : node := Node (n_world x) (n_payload x) (peers x) (n_dests x) (n_route_version x) (link_alarm x) v (calls x).
Definition put_call (v : call) (x : node) : node := Node (n_world x) (n_payload x) (peers x) (n_dests x) (n_route_version x) (link_alarm x) (changed x) (calls x ++ [v]).
Abbreviation reader := (prog node).

Variable gettime_ms : nat → Z.
Variables (frame_alloc alloc : nat → bool).
Variable char_signed : bool.
Variable overlay_interfaces : list interface_state.
(** Whether a frame is queued, and whether a unicast destination can be made. *)
Variables (enqueue : out_frame → bool) (unicast_made : bool).

Definition gettime : reader Z := λ x, let w := n_world x in Ret (gettime_ms (ticks w), set_world (World (w_mem w) (w_root w) (w_ss w) (w_ctx w) (explained w) (S (ticks w)) (frames w)) x).
Definition sid_of (ss : store) (s : nat) : list Z := match ss !! s with Some x => sid x | None => [] end.

(** *** Reading a record *)

Definition get_byte : reader Z := λ x, r ← ob_get (w_mem (n_world x)) (n_payload x); Ret (r.2, set_in r.1 x).
Definition get_ui32 : reader Z := λ x, r ← ob_get_ui32 (w_mem (n_world x)) (n_payload x); Ret (r.2, set_in r.1 x).
Definition get_subscriber : reader (option nat * Z) := λ x, r ← overlay_address_parse my_subscriber gettime_ms frame_alloc alloc (n_world x) (n_payload x) None; let '(w, b, s, v) := r in Ret ((s, v), set_in b (set_world w x)).
Definition set_context_flags (v : Z) : reader unit := change (λ x, let c := w_ctx (n_world x) in
  set_world (set_ctx (n_world x) (Ctx (interface c) (sender_interface c) (packet_version c) (encapsulation c) v (please_explain c) (sender c) (previous c) (point_to_point_device c))) x).

Record link_record := Record_ {
  lr_flags : Z;
  lr_receiver : option nat;
  lr_version : Z;
  lr_transmitter : option nat;
  lr_interface : Z;
  lr_ack_seq : Z;
  lr_ack_mask : Z;
  lr_drop_rate : Z;
}.
(** The end of the loop, the next record, or a record to deal with. *)
Inductive parsed := Stop | Skip | Read (r : link_record).

Definition on (v f : Z) : bool := negb (Z.land v f =? 0).
(** Reading goes on when the value is there. *)
Definition or_stop (p : reader Z) (k : Z → reader parsed) : reader parsed := v ← p; if v <? 0 then mret Stop else k v.

(** The transmitter and all after it, when the receiver has been read. *)
Definition read_rest (start length flags : Z) (receiver : option nat) (version : Z) : reader parsed :=
  t ← (if on flags FLAG_NO_PATH then mret (None, 0) else get_subscriber);
  if negb (t.2 =? 0) then mret Stop
  else
    i ← (if on flags FLAG_HAS_INTERFACE then v ← get_byte; mret (Some v) else mret None);
    if match i with Some v => v <? 0 | None => false end then mret Stop
    else if match i with Some v => OVERLAY_MAX_INTERFACES <=? v | None => false end then mret Skip
    else
      a ← (if on flags FLAG_HAS_ACK then
             seq ← get_byte; mask ← get_ui32;
             let drop := 15 - NumberOfSetBits (Z.land mask 0x7FFF) in
             mret (seq, mask, if drop <=? 3 then 0 else drop)
           else mret (-1, 0, 0));
      let '(ack_seq, ack_mask, drop) := a in
      d ← (if on flags FLAG_HAS_DROP_RATE then get_byte else mret drop);
      if on flags FLAG_HAS_DROP_RATE && (d <? 0) then mret Stop
      else
        change (λ x, set_in (set_position (n_payload x) (szadd start length)) x);;
        c ← ask (λ x, w_ctx (n_world x));
        mret (if has_flag c DECODE_FLAG_INVALID_ADDRESS then Skip else Read (Record_ flags receiver version t.1 (default (-1) i) ack_seq ack_mask d)).

Definition read_record : reader parsed :=
  start ← ask (λ x, ob_position (n_payload x));
  length ← get_byte;
  if length <=? 0 then mret Stop
  else
    or_stop get_byte (λ flags,
      set_context_flags (if on flags FLAG_NO_PATH then DECODE_FLAG_DONT_EXPLAIN else 0);;
      r ← get_subscriber;
      if negb (r.2 =? 0) then mret Stop
      else or_stop get_byte (λ version, read_rest start length flags r.1 version)).

(** *** Dealing with a record *)

Definition the_peer (i : nat) : reader peer := l ← ask peers; match l !! i with Some p => mret p | None => undefined end.
Definition upd_peer (i : nat) (f : peer → peer) : reader unit := p ← the_peer i; change (λ x, set_peers (<[i := f p]> (peers x)) x).
Definition the_dest (d : nat) : reader network_destination := m ← ask n_dests; match m !! d with Some e => mret e | None => undefined end.
Definition upd_dest (d : nat) (f : network_destination → network_destination) : reader unit := e ← the_dest d; change (λ x, set_n_dests (<[d := f e]> (n_dests x)) x).
Definition the_interface (i : Z) : reader interface_state := match overlay_interfaces !! Z.to_nat i with Some v => mret v | None => undefined end.

Definition add_destination_ref (d : nat) : reader unit := upd_dest d (λ e, Dest (_ref_count e + 1) (d_interface e) (d_unicast e) (sequence_number e) (d_last_ack_seq e) (reachable_timeout_ms e)).
Definition release_destination_ref (d : nat) : reader unit :=
  e ← the_dest d;
  if _ref_count e <=? 1 then change (λ x, set_n_dests (delete d (n_dests x)) x)
  else upd_dest d (λ e, Dest (_ref_count e - 1) (d_interface e) (d_unicast e) (sequence_number e) (d_last_ack_seq e) (reachable_timeout_ms e)).

Definition update_alarm (limit : Z) : reader unit := if limit =? 0 then aborted else t ← ask link_alarm; if_then (limit <? t) (change (set_alarm limit)).

(** A broadcast link to the neighbour on the interface. *)
Definition create_out_link (i : nat) (v : interface_state) : reader nat :=
  add_destination_ref (if_destination v);;
  now ← gettime;
  e ← the_dest (if_destination v);
  upd_peer i (λ p, set_out_links (LinkOut (now + reachable_timeout_ms e) (if_destination v) :: out_links p) p);;
  update_alarm (now + 5);;
  mret 0%nat.

(** The place of the link on the interface in the list. *)
Fixpoint find_out (ds : gmap nat network_destination) (iface : nat) (unicast : bool) (l : list link_out) : outcome (option nat) :=
  match l with
  | [] => Ret None
  | o :: l =>
      match ds !! out_destination o with
      | None => Undef
      | Some e => if bool_decide (d_interface e = iface) && eqb (d_unicast e) unicast then Ret (Some 0%nat) else r ← find_out ds iface unicast l; Ret (option_map S r)
      end
  end.

Definition reach_of (s : nat) : reader Z := ss ← ask (λ x, w_ss (n_world x)); match ss !! s with Some x => mret (reachable x) | None => undefined end.
Definition ask_full (s : nat) : reader unit := ss ← ask (λ x, w_ss (n_world x)); match ss !! s with Some y => change (λ x, set_world (set_ss (n_world x) (<[s := set_send_full y true]> ss)) x) | None => undefined end.

(** The destination by which the neighbour hears us; [None] when the record is to be ignored. *)
Definition heard_by (i : nat) (now : Z) (r : link_record) : reader (option nat) :=
  if negb (bool_decide (lr_transmitter r = my_subscriber)) || (lr_interface r =? -1) then mret None
  else
    v ← the_interface (lr_interface r);
    if negb (if_up v) then mret None
    else
      p ← the_peer i;
      ds ← ask n_dests;
      o ← lift (find_out ds (Z.to_nat (lr_interface r)) (on (lr_flags r) FLAG_UNICAST) (out_links p));
      o ← (match o with Some k => mret (Some k) | None => if on (lr_flags r) FLAG_UNICAST then mret None else k ← create_out_link i v; mret (Some k) end);
      match o with
      | None => mret None
      | Some k =>
          p ← the_peer i;
          match out_links p !! k with
          | None => undefined
          | Some o =>
              let d := out_destination o in
              e ← the_dest d;
              if_then (sequence_number e <? 0) (upd_dest d (λ e, Dest (_ref_count e) (d_interface e) (d_unicast e) 0 (d_last_ack_seq e) (reachable_timeout_ms e)));;
              upd_peer i (λ p, set_out_links (<[k := LinkOut (now + reachable_timeout_ms e) d]> (out_links p)) p);;
              mret (Some d)
          end
      end.

Definition the_link (i r : nat) : reader RouteLink.link := p ← the_peer i; ss ← ask (λ x, w_ss (n_world x)); lift (RouteLink.the_link (sid_of ss) (table p) r).
Definition upd_link (i r : nat) (f : RouteLink.link → RouteLink.link) : reader unit := ss ← ask (λ x, w_ss (n_world x)); upd_peer i (λ p, set_table (RouteLink.upd_link (sid_of ss) (table p) r f) p).
Definition set_l_destination (v : option nat) (l : RouteLink.link) : RouteLink.link := RouteLink.Link (RouteLink.transmitter l) (RouteLink.parent l) v (RouteLink.last_ack_seq l) (RouteLink.path_version l) (RouteLink.link_version l) (RouteLink.drop_rate l) (RouteLink.hop_count l) (RouteLink.path_drop_rate l) (RouteLink.calculating l).
Definition set_ack_seq (v : Z) (l : RouteLink.link) : RouteLink.link := RouteLink.Link (RouteLink.transmitter l) (RouteLink.parent l) (RouteLink.l_destination l) v (RouteLink.path_version l) (RouteLink.link_version l) (RouteLink.drop_rate l) (RouteLink.hop_count l) (RouteLink.path_drop_rate l) (RouteLink.calculating l).

(** [set_destination_ref(&link->destination, ref)] *)
Definition set_destination_ref (i r : nat) (ref : option nat) : reader bool :=
  l ← the_link i r;
  if bool_decide (ref = RouteLink.l_destination l) then mret false
  else
    (match ref with Some d => add_destination_ref d | None => mret tt end);;
    (match RouteLink.l_destination l with Some d => release_destination_ref d | None => mret tt end);;
    upd_link i r (set_l_destination ref);;
    mret true.

(** Acknowledgements of what was sent to the neighbour. *)
Definition process_acks (i source d : nat) (now : Z) (r : link_record) : reader unit :=
  if_then (negb (lr_ack_seq r =? -1))
    (e ← the_dest d;
     if_then ((d_last_ack_seq e =? -1) || (Z.land (lr_ack_seq r - d_last_ack_seq e) 0xFF <=? 127))
       (upd_dest d (λ e, Dest (_ref_count e) (d_interface e) (d_unicast e) (sequence_number e) (lr_ack_seq r) (reachable_timeout_ms e)));;
     change (put_call (QueueAck source d (lr_ack_mask r) (lr_ack_seq r)));;
     p ← the_peer i;
     if_then (negb (last_update_seq p =? -1))
       (let delta := Z.land (lr_ack_seq r - last_update_seq p) 0xFF in
        if (delta <=? 32) && ((delta =? 0) || Z.testbit (lr_ack_mask r) (delta - 1)) then upd_peer i (set_last_seq (-1))
        else if_then (delta <? 128) (upd_peer i (set_next_update (now + 10));; update_alarm (now + 10)))).

Definition set_in_timeout (v : Z) (p : peer) : peer := set_table (RouteLink.Neighbour (RouteLink.n_subscriber (table p)) (RouteLink.n_path_version (table p)) v (RouteLink.root (table p))) p.

(** They can hear us: the version that the link then has. *)
Definition hears_us (i source receiver d : nat) (now : Z) (r : link_record) : reader Z :=
  l ← the_link i receiver;
  let version := RouteLink.link_version l in
  c ← set_destination_ref i receiver (Some d);
  if_then c (change (set_changed true));;
  let version := if (c : bool) then version + 1 else version in
  p ← the_peer i;
  let late := (RouteLink.link_in_timeout (table p) <? now) || (version <? 0) in
  if_then late (change (set_changed true));;
  let version := if late then version + 1 else version in
  v ← the_interface (lr_interface r);
  e ← the_dest (if_destination v);
  upd_peer i (set_in_timeout (now + reachable_timeout_ms e));;
  let version := if negb (lr_drop_rate r =? RouteLink.drop_rate l) || negb (bool_decide (lr_transmitter r = RouteLink.transmitter l)) then version + 1 else version in
  process_acks i source d now r;;
  upd_link i receiver (set_ack_seq (lr_ack_seq r));;
  mret version.

(** The link of the receiver in the table. [transmitter] is not always that of the record. *)
Definition store_link (i source receiver : nat) (now : Z) (r : link_record) (transmitter destination : option nat) : reader unit :=
  ss ← ask (λ x, w_ss (n_world x));
  p ← the_peer i;
  let '(n, l) := RouteLink.find_link (sid_of ss) char_signed (table p) receiver (bool_decide (is_Some transmitter)) in
  upd_peer i (set_table n);;
  match l with
  | None => mret tt
  | Some _ =>
      version ← (match destination with
                 | Some d => if bool_decide (transmitter = my_subscriber) && bool_decide (receiver = source) && negb (lr_interface r =? -1) then hears_us i source receiver d now r
                             else set_destination_ref i receiver None;; mret (lr_version r)
                 | None => set_destination_ref i receiver None;; mret (lr_version r)
                 end);
      l ← the_link i receiver;
      if_then (negb (bool_decide (RouteLink.transmitter l = transmitter)) || negb (RouteLink.link_version l =? version)) (change (set_changed true));;
      upd_link i receiver (RouteLink.report_link char_signed transmitter version (lr_drop_rate r))
  end.

Definition apply_record (i source : nat) (now : Z) (r : link_record) : reader unit :=
  impossible ← (match lr_transmitter r with Some t => if bool_decide (Some t = my_subscriber) then mret false else v ← reach_of t; mret (v =? REACHABLE_SELF) | None => mret false end);
  if (impossible : bool) then match lr_transmitter r with Some t => ask_full t | None => mret tt end
  else if bool_decide (lr_receiver r = my_subscriber) then upd_peer i (set_using_us (bool_decide (lr_transmitter r = Some source)))
  else
    match lr_receiver r with
    | None => undefined
    | Some receiver =>
        v ← reach_of receiver;
        if (v =? REACHABLE_SELF) && bool_decide (is_Some (lr_transmitter r)) && negb (bool_decide (lr_transmitter r = my_subscriber)) then ask_full receiver
        else if bool_decide (receiver = source) then
          d ← heard_by i now r;
          match d with None => mret tt | Some d => store_link i source receiver now r (lr_transmitter r) (Some d) end
        else if bool_decide (lr_transmitter r = my_subscriber) then
          if_then (negb (v =? REACHABLE_SELF)) (upd_peer i (set_through (now + 2500)));;
          store_link i source receiver now r None None
        else store_link i source receiver now r (lr_transmitter r) None
    end.

(** *** The message *)

(** Every round consumes at least a byte. *)
Fixpoint receive_loop (fuel : nat) (i source : nat) (now : Z) : reader unit :=
  match fuel with
  | O => undefined
  | S fuel =>
      b ← ask n_payload;
      n ← lift (ob_remaining b);
      if n <=? 0 then mret tt
      else
        r ← read_record;
        match r with
        | Stop => mret tt
        | Skip => receive_loop fuel i source now
        | Read r => apply_record i source now r;; receive_loop fuel i source now
        end
  end.

Definition new_peer (s : nat) (next : Z) : peer := Peer (RouteLink.Neighbour s 0 0 RouteLink.Leaf) false 0 (-1) next [].
Fixpoint find_peer (l : list peer) (s : nat) : option nat :=
  match l with [] => None | p :: l => if bool_decide (RouteLink.n_subscriber (table p) = s) then Some 0%nat else option_map S (find_peer l s) end.
(** [get_neighbour(s, 1)] *)
Definition get_neighbour (s : nat) : reader nat :=
  l ← ask peers;
  match find_peer l s with
  | Some i => mret i
  | None =>
      now ← gettime;
      change (λ x, set_peers (new_peer s (now + 10) :: peers x) x);;
      if_then (bool_decide (l = [])) (now ← gettime; change (set_alarm (now + 10)));;
      change (put_call (NeighbourChange s true (S (length l))));;
      mret 0%nat
  end.

Definition link_receive (source : nat) (iface : option overlay_interface) : reader unit :=
  if bool_decide (Some source = my_subscriber) then mret tt
  else
    i ← get_neighbour source;
    change (λ x, set_changed false (set_world (set_ctx (n_world x) (Ctx iface 0 0 0 0 None None None None)) x));;
    now ← gettime;
    b ← ask n_payload;
    receive_loop (S (Z.to_nat (sizeLimit b))) i source now;;
    c ← ask (λ x, w_ctx (n_world x));
    e ← lift (send_please_explain my_subscriber enqueue unicast_made c my_subscriber (Some source));
    (match e.1 with Some f => change (put_call (SendExplain f)) | None => mret tt end);;
    ch ← ask changed;
    if_then ch
      (change (λ x, set_version (n_route_version x + 1) x);;
       upd_peer i (λ p, set_table (RouteLink.path_changed char_signed (table p)) p);;
       t ← ask link_alarm;
       if_then (now + 5 <? t) (change (set_alarm (now + 5)))).

End LinkState.
End LinkState.
