(* ===== verification/LinkStateWrite.v ===== *)
(** * Writing link state messages

    What [append_link_state] writes: a record when it fits into the message, and
    nothing after the last record that did otherwise. *)

From S2P Require Import Prelude Mem Prog OverlayBuffer OverlayBufferSpec OverlayBufferCodec OverlayBufferFill StrCtype StrNum StrScan DataFormats OverlayAddress OverlayAddressTree OverlayAddressCodec OverlayAddressRound RouteLink LinkState.
Import Prog OB OBSpec OBCodec OBFill DataFormats OverlayAddress OverlayAddressTree OverlayAddressCodec OverlayAddressRound LinkState.

Module LinkStateWrite.

(** What a record says. *)
Record report := Report {
  rp_flags : Z;
  rp_transmitter : option nat;
  rp_receiver : nat;
  rp_interface : Z;
  rp_version : Z;
  rp_ack : Z;
  rp_mask : Z;
  rp_drop : Z;
}.
Record report_ok (n : nat) (r : report) : Prop := {
  ro_flags : rp_flags r = 0 ∨ rp_flags r = FLAG_BROADCAST ∨ rp_flags r = FLAG_UNICAST;
  ro_receiver : (rp_receiver r < n)%nat;
  ro_transmitter t : rp_transmitter r = Some t → (t < n)%nat;
  ro_interface : -1 ≤ rp_interface r < OVERLAY_MAX_INTERFACES;
  ro_ack : -1 ≤ rp_ack r < 256;
  ro_mask : 0 ≤ rp_mask r < 2 ^ 32;
  ro_drop : -1 ≤ rp_drop r < 256;
}.

Section Write.
Context {arch : Arch} {allocator : Allocator}.
Variable my : option nat.

(** The bytes of an address without a context, and what writing it leaves of the subscribers. *)
Definition sent (ss : store) (s : nat) (ss' : store) (bs : list Z) : Prop := ∃ x, ss !! s = Some x ∧ is_sid (sid x) ∧ bs = address_bytes None None x ∧ Forall2 same_address ss ss'.
Definition sent_opt (ss : store) (s : option nat) (ss' : store) (bs : list Z) : Prop := match s with Some s => sent ss s ss' bs | None => ss' = ss ∧ bs = [] end.
Definition flags_of (r : report) : Z := record_flags (rp_flags r) (rp_transmitter r) (rp_interface r) (rp_ack r) (rp_drop r).
Definition opt_byte (v : Z) : list Z := if v =? -1 then [] else [u8 v].
Definition ack_bytes (r : report) : list Z := if rp_ack r =? -1 then [] else u8 (rp_ack r) :: be_bytes 4 (rp_mask r).
(** A record after its length. *)
Definition body (r : report) (b1 b2 : list Z) : list Z := u8 (flags_of r) :: b1 ++ u8 (rp_version r) :: b2 ++ opt_byte (rp_interface r) ++ ack_bytes r ++ opt_byte (rp_drop r).
Definition record_of (bd : list Z) : list Z := Z.of_nat (S (length bd)) :: bd.
Definition written (ss : store) (r : report) (ss' : store) (bd : list Z) : Prop := ∃ b1 ss1 b2, sent ss (rp_receiver r) ss1 b1 ∧ sent_opt ss1 (rp_transmitter r) ss' b2 ∧ bd = body r b1 b2.

Lemma sent_length ss s ss' bs : sent ss s ss' bs → (0 < length bs ≤ 33)%nat.
Proof. intros (x & _ & Hsid & -> & _). by apply address_bytes_length. Qed.
Lemma opt_byte_length v : (length (opt_byte v) ≤ 1)%nat.
Proof. unfold opt_byte. destruct (v =? -1); cbn; lia. Qed.
Lemma ack_bytes_length r : (length (ack_bytes r) ≤ 5)%nat.
Proof. unfold ack_bytes. destruct (_ =? -1); cbn [length]; [lia|]. rewrite be_bytes_length. lia. Qed.
Lemma written_length ss r ss' bd : written ss r ss' bd → (0 < length bd ≤ 75)%nat.
Proof.
  intros (b1 & ss1 & b2 & H1 & H2 & ->). pose proof (sent_length _ _ _ _ H1). assert (length b2 ≤ 33)%nat by (destruct (rp_transmitter r); [apply sent_length in H2; lia|destruct H2 as [_ ->]; cbn; lia]).
  unfold body. pose proof (opt_byte_length (rp_interface r)). pose proof (opt_byte_length (rp_drop r)). pose proof (ack_bytes_length r). cbn [length]. rewrite length_app. cbn [length]. rewrite !length_app. lia.
Qed.
Lemma written_same ss r ss' bd : written ss r ss' bd → Forall2 same_address ss ss'.
Proof.
  intros (b1 & ss1 & b2 & (_ & _ & _ & _ & H1) & H2 & _). destruct (rp_transmitter r); [|by destruct H2 as [-> _]]. destruct H2 as (_ & _ & _ & _ & H2). eapply Forall2_trans; [|exact H1|exact H2]. intros ??? [E1 F1] [E2 F2]. split; congruence.
Qed.

Section Append.
Variable W : mem → overlay_buffer → list Z → Prop.
Hypothesis HW : appends W.
(** What has been written, with room for more. *)
Definition holds (t : message) (w : list Z) : Prop := W (o_mem t) (o_buf t) w ∧ all_sids (o_ss t).
Definition small (w : list Z) (n : Z) : Prop := Z.of_nat (length w) + n + 2 ^ 17 ≤ SIZE_MAX.

Lemma put_byte_runs v t w (Q : unit → message → Prop) : holds t w → small w 1 → (∀ t', holds t' (w ++ [u8 v]) → o_ss t' = o_ss t → Q tt t') → runs (put_byte v) t Q.
Proof.
  intros [Hw Ha] Hs HQ. unfold put_byte, runs, ob_append_byte. destruct (HW _ _ _ [u8 v] Hw ltac:(done)) as (m' & b' & E & Hw'); [exact Hs|]. rewrite E, bind_ret_l. eexists _, _. split; [reflexivity|]. by apply HQ.
Qed.
Lemma put_ui32_runs v t w (Q : unit → message → Prop) : holds t w → small w 4 → (∀ t', holds t' (w ++ be_bytes 4 v) → o_ss t' = o_ss t → Q tt t') → runs (put_ui32 v) t Q.
Proof.
  intros [Hw Ha] Hs HQ. unfold put_ui32, runs, ob_append_ui32. rewrite <- be_bytes_4. destruct (HW _ _ _ (be_bytes 4 v) Hw) as (m' & b' & E & Hw'); [by rewrite be_bytes_4|by rewrite be_bytes_length|]. rewrite E, bind_ret_l. eexists _, _. split; [reflexivity|]. by apply HQ.
Qed.
Lemma put_subscriber_runs s t w (Q : unit → message → Prop) : holds t w → small w 33 → (s < length (o_ss t))%nat → (∀ t' bs, holds t' (w ++ bs) → sent (o_ss t) s (o_ss t') bs → Q tt t') → runs (put_subscriber my s) t Q.
Proof.
  intros [Hw Ha] Hs Hlt HQ. destruct (lookup_lt_is_Some_2 (o_ss t) s Hlt) as [x Hx]. assert (is_sid (sid x)) as Hsid by (unfold all_sids in Ha; rewrite Forall_lookup in Ha; by eapply Ha).
  destruct (append_spec W my None (o_mem t) (o_buf t) w (o_ss t) s x None HW Hw Hx Hsid eq_refl Hs) as (m' & b' & ss' & E & Hw' & Hss). unfold put_subscriber, runs. rewrite E, bind_ret_l. eexists _, _. split; [reflexivity|].
  apply (HQ _ (address_bytes None None x)); [split; [done|by eapply same_all_sids]|by exists x].
Qed.
Lemma if_put_runs v t w (Q : unit → message → Prop) : holds t w → small w 1 → (∀ t', holds t' (w ++ opt_byte v) → o_ss t' = o_ss t → Q tt t') → runs (if_then (negb (v =? -1)) (put_byte v)) t Q.
Proof. intros Hh Hs HQ. unfold if_then, opt_byte in *. destruct (v =? -1); cbn [negb]; [apply runs_ret; apply HQ; [by rewrite app_nil_r|done]|by eapply put_byte_runs]. Qed.

(** All of a record but for its length. *)
Lemma put_record_runs {A} (k : prog message A) r t w n (Q : A → message → Prop) : (∀ Q : unit → message → Prop, (∀ t', holds t' (w ++ [u8 0]) → o_ss t' = o_ss t → Q tt t') → runs (put_byte 0) t Q) → small w 80 → report_ok n r → length (o_ss t) = n →
  (∀ t' bd, holds t' (w ++ 0 :: bd) → written (o_ss t) r (o_ss t') bd → runs k t' Q) →
  runs (put_byte 0;; put_byte (flags_of r);; put_subscriber my (rp_receiver r);; put_byte (rp_version r);;
        (match rp_transmitter r with Some s => put_subscriber my s | None => mret tt end);;
        if_then (negb (rp_interface r =? -1)) (put_byte (rp_interface r));;
        if_then (negb (rp_ack r =? -1)) (put_byte (rp_ack r);; put_ui32 (rp_mask r));;
        if_then (negb (rp_drop r =? -1)) (put_byte (rp_drop r));; k) t Q.
Proof.
  intros Hfirst Hs Hok Hn HQ. unfold small in *.
  apply runs_bind. apply Hfirst. intros t1 H1 E1.
  apply runs_bind. eapply put_byte_runs; [done|unfold small; rewrite length_app; cbn; lia|]. intros t2 H2 E2.
  apply runs_bind. eapply put_subscriber_runs; [done|unfold small; rewrite !length_app; cbn; lia|rewrite E2, E1, Hn; apply Hok|]. intros t3 b1 H3 S1. pose proof (sent_length _ _ _ _ S1). rewrite E2, E1 in S1.
  apply runs_bind. eapply put_byte_runs; [done|unfold small; rewrite !length_app; cbn; lia|]. intros t4 H4 E4.
  apply runs_bind. apply (runs_mono _ _ (λ _ t5, ∃ b2, (length b2 ≤ 33)%nat ∧ holds t5 ((((w ++ [u8 0]) ++ [u8 (flags_of r)]) ++ b1) ++ [u8 (rp_version r)] ++ b2) ∧ sent_opt (o_ss t4) (rp_transmitter r) (o_ss t5) b2)).
  { destruct (rp_transmitter r) as [s|] eqn:Et.
    - eapply put_subscriber_runs; [done|unfold small; rewrite !length_app; cbn; lia| |].
      + assert (length (o_ss t3) = n) as L3 by (destruct S1 as (_ & _ & _ & _ & S1); rewrite <- (Forall2_length _ _ _ S1); done). rewrite E4, L3. by apply (ro_transmitter _ _ Hok).
      + intros t5 b2 H5 S2. pose proof (sent_length _ _ _ _ S2). exists b2. split; [lia|]. split; [|done]. by rewrite app_assoc.
    - apply runs_ret. exists []. split; [cbn; lia|]. by rewrite app_nil_r. }
  cbn beta. intros _ t5 (b2 & Hb2 & H5 & S2). rewrite E4 in S2.
  apply runs_bind. eapply if_put_runs; [done|unfold small; rewrite !length_app; cbn; lia|]. intros t6 H6 E6. pose proof (opt_byte_length (rp_interface r)) as Lo.
  apply runs_bind. apply (runs_mono _ _ (λ _ t7, holds t7 (((((w ++ [u8 0]) ++ [u8 (flags_of r)]) ++ b1) ++ [u8 (rp_version r)] ++ b2) ++ opt_byte (rp_interface r) ++ ack_bytes r) ∧ o_ss t7 = o_ss t6)).
  { unfold ack_bytes, if_then. destruct (rp_ack r =? -1); cbn [negb]; [apply runs_ret; by rewrite app_nil_r|]. apply runs_bind. eapply put_byte_runs; [done|unfold small; rewrite !length_app; cbn [length]; lia|]. intros ta Ha Ea.
    eapply put_ui32_runs; [done|unfold small; rewrite !length_app; cbn [length]; lia|]. intros tb Hb Eb. split; [|congruence]. rewrite <- !app_assoc in Hb. rewrite <- !app_assoc. exact Hb. }
  cbn beta. intros _ t7 (H7 & E7). pose proof (ack_bytes_length r) as La.
  apply runs_bind. eapply if_put_runs; [done|unfold small; rewrite !length_app; cbn [length]; lia|]. intros t8 H8 E8. apply (HQ t8 (body r b1 b2)).
  - unfold body. rewrite <- !app_assoc in H8. exact H8.
  - exists b1, (o_ss t3), b2. split; [done|]. split; [|done]. by rewrite E8, E7, E6.
Qed.
End Append.

(** A message that is being written: its records end at the checkpoint. *)
Definition open_message (L : Z) (t : message) (w : list Z) : Prop := Z.of_nat (length w) ≤ L ∧ all_sids (o_ss t) ∧ (filling L (length w) (o_mem t) (o_buf t) w ∨ w = [] ∧ unfilled L (o_mem t) (o_buf t)).
Lemma open_position L t w : open_message L t w → ob_position (o_buf t) = Z.of_nat (length w) ∧ L + 2 ^ 18 ≤ SIZE_MAX.
Proof. intros (_ & _ & [Hf|[-> Hu]]); [split; [apply Hf|apply Hf]|split; [apply Hu|apply Hu]]. Qed.
Lemma open_first L t w (Q : unit → message → Prop) : malloc_total → open_message L t w → (∀ t', holds (filling L (length w)) t' (w ++ [u8 0]) → o_ss t' = o_ss t → Q tt t') → runs (put_byte 0) t Q.
Proof.
  intros Hm (Hle & Ha & [Hf|[-> Hu]]) HQ.
  - eapply (put_byte_runs (filling L (length w)) (filling_appends L (length w) Hm)); [by split|unfold small; pose proof (fi_small _ _ _ _ _ Hf); lia|done].
  - destruct (first_filling L (o_mem t) (o_buf t) (u8 0) Hm Hu) as (m' & b' & E & Hf). unfold put_byte, runs, ob_append_byte. rewrite E, bind_ret_l. eexists _, _. split; [reflexivity|]. by apply HQ.
Qed.

(** A record that fits is there with its length; another leaves the ones before it. *)
Lemma append_link_state_runs L r t w n : malloc_total → open_message L t w → length (o_ss t) = n → report_ok n r →
  runs (append_link_state my (rp_flags r) (rp_transmitter r) (rp_receiver r) (rp_interface r) (rp_version r) (rp_ack r) (rp_mask r) (rp_drop r)) t
    (λ v t', ∃ bd, written (o_ss t) r (o_ss t') bd ∧ if bool_decide (Z.of_nat (length (w ++ record_of bd)) ≤ L) then v = 0 ∧ open_message L t' (w ++ record_of bd)
      else v = -1 ∧ filling L (length w) (o_mem t') (o_buf t') (w ++ 0 :: bd)).
Proof.
  intros Hm Ho Hn Hok. destruct (open_position _ _ _ Ho) as [Hpos Hsm]. pose proof Ho as (Hle & _). unfold append_link_state. fold (flags_of r). apply runs_bind, runs_ask. rewrite Hpos.
  eapply (put_record_runs (filling L (length w)) (filling_appends L (length w) Hm)); [intros Q; by apply open_first|unfold small; lia|done|done|].
  intros t' bd [Hf' Ha'] Hw. apply runs_bind, runs_ask. rewrite (filling_overrun _ _ _ _ _ Hf'). assert (length (w ++ 0 :: bd) = length (w ++ record_of bd)) as El by (by rewrite !length_app). rewrite El.
  destruct (bool_decide_reflect (Z.of_nat (length (w ++ record_of bd)) ≤ L)) as [Hfit|Hno].
  2: { rewrite bool_decide_true by lia. apply runs_ret. exists bd. split; [done|]. rewrite bool_decide_false by lia. done. }
  rewrite bool_decide_false by lia. assert (ob_position (o_buf t') - Z.of_nat (length w) = Z.of_nat (S (length bd))) as Elen.
  { unfold ob_position. rewrite (fi_position _ _ _ _ _ Hf'), length_app. cbn. lia. }
  rewrite Elen. pose proof (written_length _ _ _ _ Hw) as Hlen. destruct (set_filling L (length w) (o_mem t') (o_buf t') w 0 (Z.of_nat (S (length bd))) bd Hf') as (m' & Es & Hs); [done|by rewrite El|].
  apply runs_bind. unfold set_at, runs at 1. rewrite wrapu_small by lia. rewrite Es, bind_ret_l. eexists _, _. split; [reflexivity|]. apply runs_bind, runs_change, runs_ret. exists bd. split; [done|]. rewrite bool_decide_true by done. split; [done|]. split; [done|]. split; [done|]. left. cbn. by apply (checkpoint_filling L (length w)).
Qed.
End Write.
End LinkStateWrite.
