(* ===== verification/LinkStateRead.v ===== *)
(** * Reading link state messages

    A record that was written is read as it was meant, by a node that knows the
    subscribers it names. *)

From S2P Require Import Prelude Mem Prog OverlayBuffer OverlayBufferSpec OverlayBufferCodec OverlayBufferFill StrCtype StrNum StrScan DataFormats OverlayAddress OverlayAddressTree OverlayAddressCodec OverlayAddressRound RouteLink LinkState LinkStateWrite.
Import Prog OB OBSpec OBCodec OBFill DataFormats OverlayAddress OverlayAddressTree OverlayAddressCodec OverlayAddressRound LinkState LinkStateWrite.

Module LinkStateRead.
Section Read.
Context {arch : Arch} {allocator : Allocator}.
Variable my : option nat.
Variable gettime_ms : nat → Z.
Variables (frame_alloc alloc : nat → bool).
(** The subscribers of the sender as the receiver knows them. *)
Variables (ssA : store) (f : nat → nat).

Definition knows (ssB : store) (s : nat) : Prop := ∃ x y, ssA !! s = Some x ∧ ssB !! f s = Some y ∧ sid x = sid y ∧ (abbreviate_len y ≤ S (abbreviate_len x))%nat.
(** [rest] is still to be read of the message [W]. *)
Definition reads (x : node) (W rest : list Z) : Prop := ∃ pre, W = pre ++ rest ∧ reading (w_mem (n_world x)) (n_payload x) W (length pre).
Lemma reads_position x W rest : reads x W rest → ob_position (n_payload x) = Z.of_nat (length W) - Z.of_nat (length rest).
Proof. intros (pre & -> & Hr). unfold ob_position. rewrite (rd_position _ _ _ _ Hr), length_app. lia. Qed.
(** Reading moves on in the message and changes the context. *)
Record moved (x x' : node) : Prop := {
  mv_rest : x' = set_in (n_payload x') (set_world (set_ctx (n_world x) (w_ctx (n_world x'))) x);
  mv_explain : please_explain (w_ctx (n_world x')) = please_explain (w_ctx (n_world x));
}.
Lemma moved_refl x : moved x x.
Proof. split; destruct x as [w]; by destruct w. Qed.
Lemma moved_on x1 x2 x3 : moved x1 x2 → moved x2 x3 → moved x1 x3.
Proof. intros [H1 E1] [H2 E2]. split; [rewrite H2, H1; done|congruence]. Qed.
Lemma moved_store x x' : moved x x' → w_ss (n_world x') = w_ss (n_world x) ∧ w_root (n_world x') = w_root (n_world x) ∧ w_mem (n_world x') = w_mem (n_world x).
Proof. intros [-> _]. done. Qed.

Lemma get_byte_runs x W c rest (Q : Z → node → Prop) : reads x W (c :: rest) → (∀ x', moved x x' → w_ctx (n_world x') = w_ctx (n_world x) → reads x' W rest → Q c x') → runs get_byte x Q.
Proof.
  intros (pre & -> & Hg) HQ. destruct (ob_get_reading _ _ _ _ _ Hg) as (b' & E & Hr). unfold get_byte, runs. rewrite E, bind_ret_l. eexists _, _. split; [reflexivity|]. apply HQ; [|done|]; [split; destruct x as [w]; by destruct w|]. exists (pre ++ [c]). split; [by rewrite <- app_assoc|exact Hr].
Qed.
Lemma get_ui32_runs x W v rest (Q : Z → node → Prop) : 0 ≤ v < 2 ^ 32 → reads x W (be_bytes 4 v ++ rest) → (∀ x', moved x x' → w_ctx (n_world x') = w_ctx (n_world x) → reads x' W rest → Q v x') → runs get_ui32 x Q.
Proof.
  intros Hv (pre & -> & Hg) HQ. destruct (get_fixed_field _ _ _ _ _ 4 0xFFFFFFFF (λ bs, u32 (Z.lor (Z.lor (Z.lor (u32 (Z.shiftl (nthb bs 0) 24)) (u32 (shl_byte (nthb bs 1) 16))) (u32 (shl_byte (nthb bs 2) 8))) (nthb bs 3))) v Hg) as (b' & E & Hr); [done|done| |].
  { refine (eq_trans _ (be_value_bytes 4 v Hv)). rewrite be_bytes_4. apply combine_be32; apply land_is_byte. }
  unfold get_ui32, runs, ob_get_ui32. rewrite E, bind_ret_l. eexists _, _. split; [reflexivity|]. apply HQ; [|done|]; [split; destruct x as [w]; by destruct w|]. exists (pre ++ be_bytes 4 v). split; [by rewrite <- app_assoc|exact Hr].
Qed.
Lemma same_known ss ss' s x : Forall2 same_address ss ss' → ss' !! s = Some x → ∃ x0, ss !! s = Some x0 ∧ sid x0 = sid x ∧ abbreviate_len x0 = abbreviate_len x.
Proof. intros Hs Hx. destruct (Forall2_lookup_r _ _ _ _ _ Hs Hx) as (x0 & Hx0 & E1 & E2). by exists x0. Qed.
Lemma get_subscriber_runs x W ss s ss' bs rest (Q : option nat * Z → node → Prop) : tree_reachable (w_root (n_world x)) (w_ss (n_world x)) → Forall2 same_address ssA ss → knows (w_ss (n_world x)) s → sent ss s ss' bs → reads x W (bs ++ rest) →
  (∀ x', moved x x' → flags (w_ctx (n_world x')) = flags (w_ctx (n_world x)) → reads x' W rest → Q (Some (f s), 0) x') → runs (get_subscriber my gettime_ms frame_alloc alloc) x Q.
Proof.
  intros Ht Hss (x0 & y & Hx0 & Hy & Esid & Hab) (x1 & Hx1 & Hsid & -> & _) (pre & -> & Hg) HQ. destruct (same_known _ _ _ _ Hss Hx1) as (x2 & Hx2 & E1 & E2). rewrite Hx0 in Hx2. injection Hx2 as <-.
  destruct (parse_abbreviated my gettime_ms frame_alloc alloc None x1 (n_world x) (n_payload x) None (f s) y pre rest Ht Hsid Hy) as (b' & E & Hr); [congruence|lia|done|].
  unfold get_subscriber, runs. rewrite E, bind_ret_l. eexists _, _. split; [reflexivity|]. apply HQ; [|done|]; [split; destruct x as [w]; by destruct w|]. exists (pre ++ address_bytes None None x1). split; [by rewrite <- app_assoc|exact Hr].
Qed.

(** ** A record *)

Definition loss (mask : Z) : Z := let drop := 15 - NumberOfSetBits (Z.land mask 0x7FFF) in if drop <=? 3 then 0 else drop.
Definition drop_of (r : report) : Z := if rp_drop r =? -1 then if rp_ack r =? -1 then 0 else loss (rp_mask r) else rp_drop r.
(** What is read of a report. *)
Definition read_of (r : report) : link_record :=
  Record_ (u8 (flags_of r)) (Some (f (rp_receiver r))) (u8 (rp_version r)) (f <$> rp_transmitter r) (rp_interface r) (rp_ack r) (if rp_ack r =? -1 then 0 else rp_mask r) (drop_of r).

Lemma flags_bits n r : report_ok n r → on (u8 (flags_of r)) FLAG_HAS_INTERFACE = negb (rp_interface r =? -1) ∧ on (u8 (flags_of r)) FLAG_NO_PATH = bool_decide (rp_transmitter r = None) ∧ on (u8 (flags_of r)) FLAG_HAS_ACK = negb (rp_ack r =? -1) ∧ on (u8 (flags_of r)) FLAG_HAS_DROP_RATE = negb (rp_drop r =? -1) ∧ 0 ≤ u8 (flags_of r).
Proof.
  intros Hok. unfold flags_of, record_flags. destruct (rp_interface r =? -1), (bool_decide (rp_transmitter r = None)), (rp_ack r =? -1), (rp_drop r =? -1); destruct (ro_flags _ _ Hok) as [-> | [-> | ->]]; vm_compute; (split_and!; congruence).
Qed.
Lemma small_byte v : -1 ≤ v < 256 → v ≠ -1 → u8 v = v.
Proof. intros. apply wrapu_small. lia. Qed.

(** The message has been read up to [rest], and the addresses so far were valid. *)
Definition upto (x x' : node) (W rest : list Z) : Prop := moved x x' ∧ flags (w_ctx (n_world x')) = flags (w_ctx (n_world x)) ∧ reads x' W rest.
Lemma upto_next x x1 x2 W r1 r2 : upto x x1 W r1 → moved x1 x2 → flags (w_ctx (n_world x2)) = flags (w_ctx (n_world x1)) → reads x2 W r2 → upto x x2 W r2.
Proof. intros (M1 & C1 & _) M2 C2 R2. split; [by eapply moved_on|]. split; [congruence|done]. Qed.

Lemma opt_byte_runs x x1 W v rest (k : Z) : -1 ≤ v < 256 → upto x x1 W (opt_byte v ++ rest) → runs (if negb (v =? -1) then get_byte else mret k) x1 (λ d x2, d = (if v =? -1 then k else v) ∧ upto x x2 W rest).
Proof.
  intros Hv Hu. unfold opt_byte in Hu. destruct (Z.eqb_spec v (-1)) as [|Hn]; cbn [negb]; [by apply runs_ret|]. rewrite small_byte in Hu by lia. eapply get_byte_runs; [apply Hu|]. intros x2 M2 C2 R2. split; [done|]. eapply upto_next; [done|done|by rewrite C2|done].
Qed.

Lemma read_ack_runs n r x x1 W rest : report_ok n r → upto x x1 W (ack_bytes r ++ rest) →
  runs (if negb (rp_ack r =? -1) then seq ← get_byte; mask ← get_ui32; let drop := 15 - NumberOfSetBits (Z.land mask 0x7FFF) in mret (seq, mask, if drop <=? 3 then 0 else drop) else mret (-1, 0, 0)) x1
    (λ a x2, a = (rp_ack r, if rp_ack r =? -1 then 0 else rp_mask r, if rp_ack r =? -1 then 0 else loss (rp_mask r)) ∧ upto x x2 W rest).
Proof.
  intros Hok Hu. pose proof (ro_ack _ _ Hok) as Ha. unfold ack_bytes in Hu. destruct (Z.eqb_spec (rp_ack r) (-1)) as [Ea|Hn]; cbn [negb]; [apply runs_ret; by rewrite Ea|]. rewrite small_byte in Hu by lia.
  apply runs_bind. eapply get_byte_runs; [apply Hu|]. intros x2 M2 C2 R2. apply runs_bind. eapply get_ui32_runs; [apply Hok|exact R2|]. intros x3 M3 C3 R3. apply runs_ret. split; [done|]. eapply upto_next; [done|by eapply moved_on|congruence|done].
Qed.

(** The end that a record gives itself. *)
Definition jump (position : Z) (x : node) : node := set_in (set_position (n_payload x) position) x.
Lemma jump_here x W rest : reads x W rest → jump (Z.of_nat (length W) - Z.of_nat (length rest)) x = x.
Proof. intros Hr. unfold jump. rewrite <- (reads_position _ _ _ Hr). destruct x as [w b]. by destruct b. Qed.
Lemma jump_moved x x' position : moved x x' → moved x (jump position x').
Proof. intros [-> E]. by split. Qed.

Lemma read_rest_runs start len n r x x0 W b2 ss ss' rest (Q : parsed → node → Prop) : report_ok n r → tree_reachable (w_root (n_world x0)) (w_ss (n_world x0)) → Forall2 same_address ssA ss → sent_opt ss (rp_transmitter r) ss' b2 → (∀ t, rp_transmitter r = Some t → knows (w_ss (n_world x0)) t) →
  has_flag (w_ctx (n_world x)) DECODE_FLAG_INVALID_ADDRESS = false → upto x x0 W (b2 ++ opt_byte (rp_interface r) ++ ack_bytes r ++ opt_byte (rp_drop r) ++ rest) →
  (∀ x', upto x x' W rest → Q (Read (read_of r)) (jump (szadd start len) x')) →
  runs (read_rest my gettime_ms frame_alloc alloc start len (u8 (flags_of r)) (Some (f (rp_receiver r))) (u8 (rp_version r))) x0 Q.
Proof.
  intros Hok Ht Hss Hsent Hk Hfl Hu HQ. destruct (flags_bits n r Hok) as (F1 & F2 & F3 & F4 & _). unfold read_rest. rewrite F1, F2, F3, F4.
  apply runs_bind. apply (runs_mono _ _ (λ p x1, p = (f <$> rp_transmitter r, 0) ∧ upto x x1 W (opt_byte (rp_interface r) ++ ack_bytes r ++ opt_byte (rp_drop r) ++ rest))).
  { destruct (rp_transmitter r) as [s|]; cbn [sent_opt fmap option_fmap option_map] in *.
    - rewrite bool_decide_false by done. eapply get_subscriber_runs; [done|done|by apply Hk|done|apply Hu|]. intros x1 M1 C1 R1. split; [done|]. by eapply upto_next.
    - destruct Hsent as [_ ->]. rewrite bool_decide_true by done. by apply runs_ret. }
  cbn beta. intros p x1 (-> & Hu1). cbn [snd fst]. rewrite (proj2 (Z.eqb_eq 0 0)) by done. cbn [negb]. pose proof (ro_interface _ _ Hok) as Hi. unfold OVERLAY_MAX_INTERFACES in *.
  apply runs_bind. apply (runs_mono _ _ (λ i x2, i = (if rp_interface r =? -1 then None else Some (rp_interface r)) ∧ upto x x2 W (ack_bytes r ++ opt_byte (rp_drop r) ++ rest))).
  { unfold opt_byte at 1 in Hu1. destruct (Z.eqb_spec (rp_interface r) (-1)) as [|Hn]; cbn [negb]; [by apply runs_ret|]. rewrite small_byte in Hu1 by lia. apply runs_bind. eapply get_byte_runs; [apply Hu1|]. intros x2 M2 C2 R2. apply runs_ret. split; [done|]. eapply upto_next; [done|done|by rewrite C2|done]. }
  cbn beta. intros i x2 (-> & Hu2).
  replace (match (if rp_interface r =? -1 then None else Some (rp_interface r)) with Some v => v <? 0 | None => false end) with false by (destruct (Z.eqb_spec (rp_interface r) (-1)); [done|symmetry; apply Z.ltb_ge; lia]).
  replace (match (if rp_interface r =? -1 then None else Some (rp_interface r)) with Some v => 16 <=? v | None => false end) with false by (destruct (Z.eqb_spec (rp_interface r) (-1)); [done|symmetry; apply Z.leb_gt; lia]).
  apply runs_bind. eapply runs_mono; [by eapply read_ack_runs|]. cbn beta. intros a x3 (-> & Hu3).
  apply runs_bind. eapply runs_mono; [by apply opt_byte_runs; [apply Hok|]|]. cbn beta. intros d x4 (-> & Hu4). fold (drop_of r).
  replace (negb (rp_drop r =? -1) && (drop_of r <? 0)) with false. 2: { symmetry. unfold drop_of. pose proof (ro_drop _ _ Hok). destruct (Z.eqb_spec (rp_drop r) (-1)); [done|]. apply Z.ltb_ge. lia. }
  destruct Hu4 as (M4 & C4 & R4). apply runs_bind, runs_change. fold (jump (szadd start len) x4). apply runs_bind, runs_ask. change (w_ctx (n_world (jump (szadd start len) x4))) with (w_ctx (n_world x4)). unfold has_flag in *. rewrite C4, Hfl. apply runs_ret.
  replace (Record_ _ _ _ _ _ _ _ _) with (read_of r); [by apply HQ|]. unfold read_of. f_equal. by destruct (Z.eqb_spec (rp_interface r) (-1)).
Qed.

(** A record is read whatever length it gives itself, and the next is looked for after that length. *)
Lemma read_long_runs L n r x W bd ss ss' rest (Q : parsed → node → Prop) : report_ok n r → tree_reachable (w_root (n_world x)) (w_ss (n_world x)) → Forall2 same_address ssA ss → written ss r ss' bd → knows (w_ss (n_world x)) (rp_receiver r) → (∀ t, rp_transmitter r = Some t → knows (w_ss (n_world x)) t) →
  0 < L → reads x W (L :: bd ++ rest) → (∀ x', moved x x' → reads x' W rest → Q (Read (read_of r)) (jump (szadd (Z.of_nat (length W) - Z.of_nat (length (L :: bd ++ rest))) L) x')) → runs (read_record my gettime_ms frame_alloc alloc) x Q.
Proof.
  intros Hok Ht Hss Hw Hkr Hkt HL Hr HQ. destruct Hw as (b1 & ss1 & b2 & S1 & S2 & Ebd). unfold read_record. apply runs_bind, runs_ask. rewrite (reads_position _ _ _ Hr). set (start := Z.of_nat (length W) - _).
  apply runs_bind. eapply get_byte_runs; [exact Hr|]. intros x1 M1 C1 R1. destruct (Z.leb_spec L 0) as [?|_]; [lia|].
  rewrite Ebd in R1. unfold body in R1. cbn [app] in R1. unfold or_stop. apply runs_bind. eapply get_byte_runs; [exact R1|]. intros x2 M2 C2 R2. destruct (flags_bits n r Hok) as (F1 & F2 & F3 & F4 & F5). destruct (Z.ltb_spec (u8 (flags_of r)) 0) as [?|_]; [lia|].
  apply runs_bind, runs_change. set (x3 := set_world _ x2). assert (moved x x3) as M3. { apply (moved_on _ _ _ M1), (moved_on _ _ _ M2). split; unfold x3; destruct x2 as [w]; by destruct w. }
  destruct (moved_store _ _ M3) as (Es & Er & _). assert (reads x3 W (b1 ++ u8 (rp_version r) :: b2 ++ opt_byte (rp_interface r) ++ ack_bytes r ++ opt_byte (rp_drop r) ++ rest)) as R3. { rewrite <- !app_assoc in R2. cbn [app] in R2. rewrite <- !app_assoc in R2. exact R2. }
  apply runs_bind. eapply (get_subscriber_runs x3 W ss (rp_receiver r) ss1 b1); [by rewrite Er, Es|done|by rewrite Es|done|exact R3|]. intros x4 M4 C4 R4. cbn [snd fst]. rewrite (proj2 (Z.eqb_eq 0 0)) by done. cbn [negb].
  apply runs_bind. eapply get_byte_runs; [exact R4|]. intros x5 M5 C5 R5. assert (0 ≤ u8 (rp_version r)) by (pose proof (wrapu_range 8 (rp_version r)); lia). destruct (Z.ltb_spec (u8 (rp_version r)) 0) as [?|_]; [lia|].
  assert (moved x x5) as M by (apply (moved_on _ _ _ M3), (moved_on _ _ _ M4), M5). destruct (moved_store _ _ M) as (Es5 & Er5 & _). assert (Forall2 same_address ssA ss1) as Hss1. { destruct S1 as (_ & _ & _ & _ & S1). eapply Forall2_trans; [|exact Hss|exact S1]. intros ??? [E1 G1] [E2 G2]. split; congruence. }
  eapply (read_rest_runs start _ n r x3 x5 W b2 ss1 ss' rest); [done|by rewrite Er5, Es5|done|done|intros t Et; rewrite Es5; by apply Hkt| |split; [apply (moved_on _ _ _ M4), M5|split; [by rewrite C5|exact R5]]|].
  { change (w_ctx (n_world x3)) with (Ctx (interface (w_ctx (n_world x2))) (sender_interface (w_ctx (n_world x2))) (packet_version (w_ctx (n_world x2))) (encapsulation (w_ctx (n_world x2))) (if on (u8 (flags_of r)) FLAG_NO_PATH then DECODE_FLAG_DONT_EXPLAIN else 0) (please_explain (w_ctx (n_world x2))) (sender (w_ctx (n_world x2))) (previous (w_ctx (n_world x2))) (point_to_point_device (w_ctx (n_world x2)))). unfold has_flag. cbn [flags]. rewrite F2. by destruct (bool_decide (rp_transmitter r = None)). }
  intros x' (M' & _ & R'). apply HQ; [apply (moved_on _ _ _ M3), M'|done].
Qed.
(** A record that was written gives its own length. *)
Lemma jump_own x x' W bd rest : reads x W (record_of bd ++ rest) → reads x' W rest → jump (szadd (Z.of_nat (length W) - Z.of_nat (length (record_of bd ++ rest))) (Z.of_nat (S (length bd)))) x' = x'.
Proof.
  intros (pre & EW & Hr) Hx'. pose proof (inv_limit _ _ (rd_inv _ _ _ _ Hr)) as Hi. rewrite (rd_limit _ _ _ _ Hr) in Hi. assert (length W = length pre + S (length bd) + length rest)%nat as El by (rewrite EW, !length_app; cbn [record_of length]; lia).
  rewrite <- (jump_here x' W rest Hx') at 2. f_equal. unfold record_of. rewrite length_app. cbn [length]. rewrite szadd_small by lia. lia.
Qed.
End Read.
End LinkStateRead.
