(* ===== verification/LinkStateApply.v ===== *)
(** * Reports enter the table

    What [link_receive] does with a message of reports about other nodes. *)

From S2P Require Import Prelude Mem Prog OverlayBuffer OverlayBufferSpec OverlayBufferCodec OverlayBufferFill StrCtype StrNum StrScan DataFormats OverlayAddress OverlayAddressTree OverlayAddressCodec OverlayAddressRound RouteLink RouteLinkPath LinkState LinkStateWrite LinkStateRead.
Import Prog OB OBSpec OBCodec OBFill DataFormats OverlayAddress OverlayAddressTree OverlayAddressCodec OverlayAddressRound LinkState LinkStateWrite LinkStateRead.

Module LinkStateApply.
Section Apply.
Context {arch : Arch} {allocator : Allocator}.
Variable my : option nat.
Variable gettime_ms : nat → Z.
Variables (frame_alloc alloc : nat → bool).
Variable char_signed : bool.
Variable overlay_interfaces : list interface_state.
Variables (enqueue : out_frame → bool) (unicast_made : bool).

(** ** The table *)

(** A link that goes through this node is of no use to it. *)
Definition useful (t : option nat) : option nat := if bool_decide (t = my) then None else t.
Definition table_report (sid : nat → list Z) (n : RouteLink.neighbour) (receiver : nat) (t : option nat) (version drop : Z) : RouteLink.neighbour :=
  let '(n', l) := RouteLink.find_link sid char_signed n receiver (bool_decide (is_Some (useful t))) in
  match l with None => n' | Some _ => RouteLink.upd_link sid n' receiver (RouteLink.report_link char_signed (useful t) version drop) end.
(** Only the link to the neighbour itself has a destination. *)
Definition direct_only (sid : nat → list Z) (n : RouteLink.neighbour) : Prop := ∀ r l, RouteLink.search sid (RouteLink.root n) r = Some l → r ≠ RouteLink.n_subscriber n → RouteLink.l_destination l = None.

Lemma report_fixed t v d l : RouteLink.l_destination (RouteLink.report_link char_signed t v d l) = RouteLink.l_destination l.
Proof. unfold RouteLink.report_link. by destruct (_ || _). Qed.
Lemma find_link_table sid n receiver c n' l : RouteLink.find_link sid char_signed n receiver c = (n', l) → l = RouteLink.search sid (RouteLink.root n') receiver ∧ RouteLink.n_subscriber n' = RouteLink.n_subscriber n ∧ RouteLink.n_path_version n' = RouteLink.n_path_version n ∧ RouteLink.link_in_timeout n' = RouteLink.link_in_timeout n ∧
  (n' = n ∨ c = true ∧ l = Some (RouteLink.new_link char_signed n)) ∧ ∀ r, RouteLink.search sid (RouteLink.root n') r = if decide (r = receiver) then l else RouteLink.search sid (RouteLink.root n) r.
Proof.
  unfold RouteLink.find_link. destruct (RouteLink.search sid (RouteLink.root n) receiver) as [k|] eqn:E.
  - intros [= <- <-]. split_and!; try done; [by left|]. intros r. by destruct (decide (r = receiver)) as [->|].
  - destruct c; intros [= <- <-].
    + assert (∀ r, RouteLink.search sid (RouteLink.add_link sid (RouteLink.root n) receiver (RouteLink.new_link char_signed n)) r = if decide (r = receiver) then Some (RouteLink.new_link char_signed n) else RouteLink.search sid (RouteLink.root n) r) as Ha. { intros r. rewrite RouteLinkPath.search_add. by rewrite E. }
      cbn. split_and!; try done; [by right; split; [|rewrite Ha, decide_True]|]. intros r. rewrite !Ha. rewrite (decide_True _ _ (eq_refl receiver)). done.
    + split_and!; try done; [by left|]. intros r. by destruct (decide (r = receiver)) as [->|].
Qed.
Lemma table_report_at sid n receiver t v d r : RouteLink.search sid (RouteLink.root (table_report sid n receiver t v d)) r =
  if decide (r = receiver) then RouteLink.report_link char_signed (useful t) v d <$> (match useful t with Some _ => Some (default (RouteLink.new_link char_signed n) (RouteLink.search sid (RouteLink.root n) receiver)) | None => RouteLink.search sid (RouteLink.root n) receiver end) else RouteLink.search sid (RouteLink.root n) r.
Proof.
  unfold table_report. destruct (RouteLink.find_link _ _ _ _ _) as [n' l] eqn:E. pose proof (find_link_table _ _ _ _ _ _ E) as (El & _ & _ & _ & Hor & Hat).
  assert (l = match useful t with Some _ => Some (default (RouteLink.new_link char_signed n) (RouteLink.search sid (RouteLink.root n) receiver)) | None => RouteLink.search sid (RouteLink.root n) receiver end) as Hl.
  { unfold RouteLink.find_link in E. destruct (RouteLink.search sid (RouteLink.root n) receiver) as [k|] eqn:Ek; [injection E as <- <-; by destruct (useful t)|]. destruct (useful t) as [u|].
    - destruct Hor as [->|[_ ->]]; [|done]. exfalso. rewrite bool_decide_true in E by eauto. injection E as _ E2. cbn [RouteLink.root RouteLink.set_root] in E2. rewrite RouteLinkPath.search_add, decide_True in E2 by done. congruence.
    - rewrite bool_decide_false in E by (by intros [? ?]). by injection E as <- <-. }
  rewrite <- Hl. destruct l as [k|].
  - rewrite RouteLinkPath.at_upd. destruct (decide (r = receiver)) as [->|Hr]; [by rewrite <- El|]. by rewrite Hat, decide_False.
  - rewrite Hat. by destruct (decide (r = receiver)).
Qed.
Lemma table_report_rest sid n receiver t v d : RouteLink.n_subscriber (table_report sid n receiver t v d) = RouteLink.n_subscriber n ∧ RouteLink.n_path_version (table_report sid n receiver t v d) = RouteLink.n_path_version n ∧ RouteLink.link_in_timeout (table_report sid n receiver t v d) = RouteLink.link_in_timeout n.
Proof. unfold table_report. destruct (RouteLink.find_link _ _ _ _ _) as [n' l] eqn:E. destruct (find_link_table _ _ _ _ _ _ E) as (_ & E1 & E2 & E3 & _). destruct l; cbn; done. Qed.
Lemma direct_report sid n receiver t v d : direct_only sid n → direct_only sid (table_report sid n receiver t v d).
Proof.
  intros Hd r l Hl Hr. destruct (table_report_rest sid n receiver t v d) as (E & _). rewrite E in Hr. rewrite table_report_at in Hl. destruct (decide (r = receiver)) as [->|]; [|by apply (Hd r)].
  apply fmap_Some in Hl as (k & Hk & ->). rewrite report_fixed. destruct (RouteLink.search sid (RouteLink.root n) receiver) as [k0|] eqn:E0; [assert (k = k0) as -> by (destruct (useful t); cbn in Hk; congruence); by apply (Hd receiver)|]. destruct (useful t); cbn in Hk; [injection Hk as <-; done|done].
Qed.

(** ** Running *)

Lemma runs_peer i x p (Q : peer → node → Prop) : peers x !! i = Some p → Q p x → runs (the_peer i) x Q.
Proof. intros Hp HQ. unfold the_peer. apply runs_bind, runs_ask. rewrite Hp. by apply runs_ret. Qed.
Lemma runs_upd_peer i f x p (Q : unit → node → Prop) : peers x !! i = Some p → Q tt (set_peers (<[i := f p]> (peers x)) x) → runs (upd_peer i f) x Q.
Proof. intros Hp HQ. unfold upd_peer. apply runs_bind, (runs_peer i x p); [done|]. by apply runs_change. Qed.
Lemma the_link_runs i r x p l (Q : RouteLink.link → node → Prop) : peers x !! i = Some p → RouteLink.search (sid_of (w_ss (n_world x))) (RouteLink.root (table p)) r = Some l → Q l x → runs (the_link i r) x Q.
Proof. intros Hp Hl HQ. unfold the_link. apply runs_bind, (runs_peer i x p); [done|]. apply runs_bind, runs_ask. eapply runs_lift; [unfold RouteLink.the_link; by rewrite Hl|done]. Qed.
Lemma upd_link_runs i r f x p (Q : unit → node → Prop) : peers x !! i = Some p → Q tt (set_peers (<[i := set_table (RouteLink.upd_link (sid_of (w_ss (n_world x))) (table p) r f) p]> (peers x)) x) → runs (upd_link i r f) x Q.
Proof. intros Hp HQ. unfold upd_link. apply runs_bind, runs_ask. by apply (runs_upd_peer i _ x p). Qed.

Lemma change_id sid t r f : (∀ l, RouteLink.search sid t r = Some l → f l = l) → RouteLink.change_link sid t r f = t.
Proof.
  induction t as [|x l a IHa b IHb]; intros Hf; [done|]. cbn in *. destruct (decide (r = x)); [by rewrite Hf|]. destruct (RouteLink.goes_left sid r x); f_equal; auto.
Qed.

(** Only the table of the neighbour changes, and nothing of it when no change is recorded. *)
Definition applied (i : nat) (x : node) (p : peer) (n : RouteLink.neighbour) (x' : node) : Prop :=
  ∃ p' c, x' = set_changed c (set_peers (<[i := p']> (peers x)) x) ∧ table p' = n ∧ out_links p' = out_links p ∧ (changed x = true → c = true) ∧ (c = false → n = table p).

Lemma store_report_runs i source receiver now r x p t : peers x !! i = Some p → RouteLink.n_subscriber (table p) = source → receiver ≠ source → let sid := sid_of (w_ss (n_world x)) in direct_only sid (table p) →
  runs (store_link my char_signed overlay_interfaces i source receiver now r (useful t) None) x (λ _ x', applied i x p (table_report sid (table p) receiver t (lr_version r) (lr_drop_rate r)) x').
Proof.
  intros Hp Hn Hrs sid Hd. unfold store_link. apply runs_bind, runs_ask, runs_bind, (runs_peer i x p); [done|]. fold sid. unfold table_report. destruct (RouteLink.find_link sid _ _ _ _) as [n' l] eqn:E. pose proof (find_link_table _ _ _ _ _ _ E) as (El & Es & _ & _ & Hor & Hat).
  apply runs_bind, (runs_upd_peer i _ x p); [done|]. set (x1 := set_peers _ x). assert (peers x1 !! i = Some (set_table n' p)) as Hp1 by (apply list_lookup_insert_eq; by eapply lookup_lt_Some).
  destruct l as [k|].
  2: { apply runs_ret. exists (set_table n' p), (changed x). split; [unfold x1; by destruct x|]. split; [done|]. split; [done|]. split; [done|]. intros _. by destruct Hor as [->|[_ ?]]. }
  assert (RouteLink.l_destination k = None) as Hk. { destruct Hor as [->|[_ [= ->]]]; [|done]. apply (Hd receiver); [by rewrite <- El|congruence]. }
  apply runs_bind, runs_bind. unfold set_destination_ref. apply runs_bind. eapply (the_link_runs i receiver x1); [done|symmetry; exact El|]. rewrite Hk, bool_decide_true by done. apply runs_ret, runs_ret. apply runs_bind. eapply (the_link_runs i receiver x1); [done|symmetry; exact El|].
  set (c := negb (bool_decide _) || _). apply runs_bind. apply (runs_mono _ _ (λ _ x2, x2 = set_changed (c || changed x) x1)). { unfold if_then. destruct c; [by apply runs_change|apply runs_ret; unfold x1; by destruct x]. }
  cbn beta. intros _ x2 ->. eapply upd_link_runs; [exact Hp1|]. cbn. rewrite list_insert_insert_eq. eexists _, (c || changed x). split; [reflexivity|]. split; [done|]. split; [done|]. split; [intros ->; by rewrite orb_true_r|].
  intros Hc. apply orb_false_iff in Hc as [Hc _]. assert (n' = table p) as ->.
  { destruct Hor as [?|[Hu [= ->]]]; [done|]. exfalso. unfold c in Hc. cbn in Hc. apply orb_false_iff in Hc as [Hc _]. apply negb_false_iff, bool_decide_eq_true in Hc. rewrite <- Hc in Hu. by rewrite bool_decide_false in Hu by (by intros [? ?]). }
  unfold RouteLink.upd_link, RouteLink.set_root. fold sid. rewrite change_id; [by destruct (table p)|]. intros l Hl. rewrite <- El in Hl. injection Hl as <-. unfold RouteLink.report_link. fold c. by rewrite Hc.
Qed.

(** A node that is not this one. *)
Definition foreign (ss : store) (t : nat) : Prop := ∃ y, ss !! t = Some y ∧ reachable y ≠ REACHABLE_SELF ∧ Some t ≠ my.

Lemma impossible_runs x t : (∀ u, t = Some u → Some u = my ∨ foreign (w_ss (n_world x)) u) →
  runs (match t with Some u => if bool_decide (Some u = my) then mret false else v ← reach_of u; mret (v =? REACHABLE_SELF) | None => mret false end) x (λ c x', c = false ∧ x' = x).
Proof.
  intros Hft. destruct t as [u|]; [|by apply runs_ret]. destruct (Hft u eq_refl) as [Hm|(z & Hz & Hzr & Hzm)]; [rewrite bool_decide_true by done; by apply runs_ret|]. rewrite bool_decide_false by done. apply runs_bind. unfold reach_of. apply runs_bind, runs_ask. rewrite Hz. apply runs_ret, runs_ret. split; [|done]. by apply Z.eqb_neq.
Qed.

Lemma apply_report_runs i source now r x p receiver t : peers x !! i = Some p → RouteLink.n_subscriber (table p) = source → lr_receiver r = Some receiver → lr_transmitter r = t → receiver ≠ source → foreign (w_ss (n_world x)) receiver → (∀ u, t = Some u → Some u = my ∨ foreign (w_ss (n_world x)) u) →
  let sid := sid_of (w_ss (n_world x)) in direct_only sid (table p) →
  runs (apply_record my gettime_ms char_signed overlay_interfaces i source now r) x (λ _ x', applied i x p (table_report sid (table p) receiver t (lr_version r) (lr_drop_rate r)) x').
Proof.
  intros Hp Hn Er Et Hrs (y & Hy & Hyr & Hym) Hft sid Hd. unfold apply_record. rewrite Er, Et. apply runs_bind. apply (runs_mono _ _ (λ c x', c = false ∧ x' = x)).
  { by apply impossible_runs. }
  cbn beta. intros c x' [-> ->]. rewrite bool_decide_false by done. apply runs_bind. unfold reach_of. apply runs_bind, runs_ask. rewrite Hy. apply runs_ret. rewrite (proj2 (Z.eqb_neq _ _) Hyr). cbn [andb negb]. rewrite (bool_decide_false (receiver = source)) by done.
  destruct (bool_decide_reflect (t = my)) as [Hm|Hm].
  - unfold if_then. apply runs_bind, (runs_upd_peer i _ x p); [done|]. set (x1 := set_peers _ x). assert (peers x1 !! i = Some (set_through (now + 2500) p)) as Hp1 by (apply list_lookup_insert_eq; by eapply lookup_lt_Some).
    replace (None : option nat) with (useful t) at 1 by (unfold useful; by rewrite bool_decide_true). eapply runs_mono; [apply (store_report_runs i source receiver now r x1 _ t Hp1); [done|done|done]|]. cbn beta. intros _ x2 (p' & ch & -> & F1 & F2 & F3 & F4). exists p', ch. split; [cbn; by rewrite list_insert_insert_eq|]. done.
  - replace t with (useful t) at 1 by (unfold useful; by rewrite bool_decide_false). by apply store_report_runs.
Qed.

(** A report about this node says whether the neighbour hears it. *)
Lemma apply_own_runs i source now r x p t : peers x !! i = Some p → lr_receiver r = my → lr_transmitter r = t → (∀ u, t = Some u → Some u = my ∨ foreign (w_ss (n_world x)) u) →
  runs (apply_record my gettime_ms char_signed overlay_interfaces i source now r) x (λ _ x', applied i x p (table p) x').
Proof.
  intros Hp Er Et Hft. unfold apply_record. rewrite Er, Et. apply runs_bind. apply (runs_mono _ _ (λ c x', c = false ∧ x' = x)); [by apply impossible_runs|]. cbn beta. intros c x' [-> ->]. rewrite bool_decide_true by done. apply (runs_upd_peer i _ x p); [done|].
  eexists _, (changed x). split; [by destruct x|]. done.
Qed.

(** ** Messages *)

(** What is written for a list of reports. *)
Inductive wrote : store → list report → store → list Z → Prop :=
  | wrote_nil ss : wrote ss [] ss []
  | wrote_cons ss r bd ss1 rs ss' bs : written ss r ss1 bd → wrote ss1 rs ss' bs → wrote ss (r :: rs) ss' (record_of bd ++ bs).

Section Message.
Variables (ssA : store) (f : nat → nat).
Definition tell_table (sid : nat → list Z) (n : RouteLink.neighbour) (r : report) : RouteLink.neighbour := if bool_decide (Some (f (rp_receiver r)) = my) then n else table_report sid n (f (rp_receiver r)) (f <$> rp_transmitter r) (u8 (rp_version r)) (drop_of r).
(** A report about other nodes, for a receiver that knows them. *)
Record concerns (ssB : store) (source n : nat) (r : report) : Prop := {
  co_ok : report_ok n r;
  co_receiver : knows ssA f ssB (rp_receiver r) ∧ (Some (f (rp_receiver r)) = my ∨ foreign ssB (f (rp_receiver r))) ∧ f (rp_receiver r) ≠ source;
  co_transmitter t : rp_transmitter r = Some t → knows ssA f ssB t ∧ (Some (f t) = my ∨ foreign ssB (f t));
}.

Lemma tell_rest sid n r : RouteLink.n_subscriber (tell_table sid n r) = RouteLink.n_subscriber n.
Proof. unfold tell_table. destruct (bool_decide _); [done|]. apply table_report_rest. Qed.
Lemma direct_tell sid n r : direct_only sid n → direct_only sid (tell_table sid n r).
Proof. unfold tell_table. destruct (bool_decide _); [done|]. apply direct_report. Qed.

Lemma fold_rest sid rs : ∀ n, RouteLink.n_subscriber (foldl (tell_table sid) n rs) = RouteLink.n_subscriber n.
Proof. induction rs as [|r rs IH]; intros n; [done|]. cbn. by rewrite IH, tell_rest. Qed.
Lemma direct_fold sid rs n : direct_only sid n → direct_only sid (foldl (tell_table sid) n rs).
Proof. revert n. induction rs as [|r rs IH]; intros n Hn; [done|]. by apply IH, direct_tell. Qed.

(** The message is read, and nothing else changes. *)
Record told (i : nat) (x : node) (p : peer) (n : RouteLink.neighbour) (x' : node) : Prop := {
  to_rest : ∃ b c p' ch, x' = set_changed ch (set_peers (<[i := p']> (peers x)) (set_in b (set_world (set_ctx (n_world x) c) x))) ∧ please_explain c = please_explain (w_ctx (n_world x)) ∧ table p' = n ∧ out_links p' = out_links p ∧ (changed x = true → ch = true) ∧ (ch = false → n = table p);
}.
Lemma told_refl i x p : peers x !! i = Some p → told i x p (table p) x.
Proof. intros Hp. split. exists (n_payload x), (w_ctx (n_world x)), p, (changed x). split_and!; try done. rewrite list_insert_id by done. destruct x as [w]. by destruct w. Qed.
Lemma told_moved i x x1 p n x' : moved x x1 → told i x1 p n x' → told i x p n x'.
Proof. intros [M E] [(b & c & p' & ch & -> & H1 & H2 & H3 & H4 & H5)]. split. exists b, c, p', ch. split; [rewrite M; done|]. split; [congruence|]. split_and!; try done. intros Hc. apply H4. by rewrite M. Qed.
Lemma told_applied i x p n x1 p1 n' x' : peers x !! i = Some p → applied i x p n x1 → peers x1 !! i = Some p1 → told i x1 p1 n' x' → told i x p n' x'.
Proof.
  intros Hp (p0 & c & -> & F1 & F2 & F3 & F4) Hp1 [(b & cx & p' & ch & -> & H1 & H2 & H3 & H4 & H5)]. cbn in Hp1. rewrite list_lookup_insert_eq in Hp1 by (by eapply lookup_lt_Some). injection Hp1 as <-.
  split. exists b, cx, p', ch. split; [cbn; by rewrite list_insert_insert_eq|]. split_and!; [done|done|congruence|intros Hc; apply H4; cbn; by apply F3|]. intros Hc. rewrite (H5 Hc). destruct c; [|by rewrite F1, F4]. cbn in H4. rewrite H4 in Hc; done.
Qed.

Lemma remaining_reads x W rest : reads x W rest → Z.of_nat (length W) < SIZE_MAX → ob_remaining (n_payload x) = Ret (Z.of_nat (length rest)).
Proof. intros (pre & -> & Hr) Hmax. unfold ob_remaining. rewrite (rd_limit _ _ _ _ Hr), (rd_position _ _ _ _ Hr). rewrite length_app in *. rewrite (proj2 (Z.eqb_neq _ SIZE_MAX)), (proj2 (Z.leb_le _ _)) by lia. cbn [negb]. f_equal. lia. Qed.

(** A round of the loop on a record that gives itself the length [L]. *)
Lemma round_gives L fuel x W r bd rest ss ss' i source now p n : peers x !! i = Some p → RouteLink.n_subscriber (table p) = source → direct_only (sid_of (w_ss (n_world x))) (table p) → tree_reachable (w_root (n_world x)) (w_ss (n_world x)) → Forall2 same_address ssA ss → written ss r ss' bd → concerns (w_ss (n_world x)) source n r →
  0 < L → reads x W (L :: bd ++ rest) → Z.of_nat (length W) < SIZE_MAX →
  ∃ x1 x2, receive_loop my gettime_ms frame_alloc alloc char_signed overlay_interfaces (S fuel) i source now x = receive_loop my gettime_ms frame_alloc alloc char_signed overlay_interfaces fuel i source now x2 ∧
    moved x x1 ∧ reads x1 W rest ∧ applied i (jump (szadd (Z.of_nat (length W) - Z.of_nat (length (L :: bd ++ rest))) L) x1) p (tell_table (sid_of (w_ss (n_world x))) (table p) r) x2.
Proof.
  intros Hp Hn Hd Ht Hss Hw [Hok (Hkr & Hfr & Hrs) Htr] HL Hr Hmax. cbn [receive_loop]. apply (bind_gives (λ o, ∃ x1 x2, o = _ ∧ _)), runs_ask. apply (bind_gives (λ o, ∃ x1 x2, o = _ ∧ _)). eapply runs_lift; [by eapply remaining_reads|].
  destruct (Z.leb_spec (Z.of_nat (length (L :: bd ++ rest))) 0) as [Hle|_]; [cbn in Hle; lia|].
  apply (bind_gives (λ o, ∃ x1 x2, o = _ ∧ _)). eapply (read_long_runs my gettime_ms frame_alloc alloc ssA f L n r x W bd ss ss' rest); [done|done|done|done|done|intros t Et; by apply Htr|done|done|]. intros x1 M1 R1. set (x1' := jump _ x1).
  destruct (moved_store _ _ (jump_moved _ _ _ M1 : moved x x1')) as (Es & Er & Em). assert (peers x1' = peers x) as Epe by (change (peers x1') with (peers x1); by rewrite (mv_rest _ _ M1)).
  assert (∀ u, f <$> rp_transmitter r = Some u → Some u = my ∨ foreign (w_ss (n_world x1')) u) as Hft. { intros u Eu. apply fmap_Some in Eu as (t & Et & ->). rewrite Es. by apply Htr. }
  apply (bind_gives (λ o, ∃ x1 x2, o = _ ∧ _)). apply (runs_mono _ _ (λ _ x2, applied i x1' p (tell_table (sid_of (w_ss (n_world x))) (table p) r) x2)); [|intros _ x2 Hap; by exists x1, x2].
  unfold tell_table. destruct (bool_decide_reflect (Some (f (rp_receiver r)) = my)) as [Hm|Hm].
  - by apply (apply_own_runs i source now (read_of f r) x1' p (f <$> rp_transmitter r)); [rewrite Epe|..].
  - destruct Hfr as [?|Hfr]; [done|]. rewrite <- Es. apply (apply_report_runs i source now (read_of f r) x1' p (f (rp_receiver r)) (f <$> rp_transmitter r)); [by rewrite Epe|done|done|done|done|by rewrite Es|done|by rewrite Es].
Qed.

(** Records that were written are dealt with one after the other. *)
Lemma receive_loop_gives rs : ∀ fuel x W bs rest ss ss' i source now p n, peers x !! i = Some p → RouteLink.n_subscriber (table p) = source → direct_only (sid_of (w_ss (n_world x))) (table p) →
  tree_reachable (w_root (n_world x)) (w_ss (n_world x)) → Forall2 same_address ssA ss → wrote ss rs ss' bs → Forall (concerns (w_ss (n_world x)) source n) rs → reads x W (bs ++ rest) → Z.of_nat (length W) < SIZE_MAX →
  ∃ x', receive_loop my gettime_ms frame_alloc alloc char_signed overlay_interfaces (length rs + fuel) i source now x = receive_loop my gettime_ms frame_alloc alloc char_signed overlay_interfaces fuel i source now x' ∧
    told i x p (foldl (tell_table (sid_of (w_ss (n_world x)))) (table p) rs) x' ∧ reads x' W rest ∧ Forall2 same_address ssA ss'.
Proof.
  induction rs as [|r rs IH]; intros fuel x W bs rest ss ss' i source now p n Hp Hn Hd Ht Hss Hw Hc Hr Hmax; inversion Hw as [? E1 E2 E3 E4|? r' bd ss1 rs' ? bs' Hw1 Hw' E1 E2 E3 E4]; subst; [exists x; split_and!; try done; by apply told_refl|].
  apply Forall_cons in Hc as [Hco Hc]. rewrite <- app_assoc in Hr. destruct (round_gives (Z.of_nat (S (length bd))) (length rs + fuel) x W r bd (bs' ++ rest) ss ss1 i (RouteLink.n_subscriber (table p)) now p n) as (x1 & x2 & E & M1 & R1 & Hap); try done.
  assert (Forall2 same_address ssA ss1) as Hss1. { eapply Forall2_trans; [|exact Hss|by eapply written_same]. intros ??? [G1 G2] [G3 G4]. split; congruence. }
  change (Z.of_nat (S (length bd)) :: bd ++ bs' ++ rest) with (record_of bd ++ bs' ++ rest) in Hap. rewrite (jump_own x x1 W bd (bs' ++ rest) Hr R1) in Hap. destruct (moved_store _ _ M1) as (Es & Er & Em). assert (peers x1 = peers x) as Epe by (by rewrite (mv_rest _ _ M1)).
  pose proof Hap as (p' & ch & Ex2 & F1 & F2 & _). assert (peers x2 !! i = Some p') as Hp2 by (rewrite Ex2, Epe; apply list_lookup_insert_eq; by eapply lookup_lt_Some). assert (n_world x2 = n_world x1 ∧ n_payload x2 = n_payload x1) as [Ew2 Eb2] by (by rewrite Ex2).
  destruct (IH fuel x2 W bs' rest ss1 ss' i (RouteLink.n_subscriber (table p)) now p' n) as (x3 & E3 & Htold & R3 & S3); try done; [by rewrite F1; apply tell_rest|by rewrite Ew2, Es, F1; apply direct_tell|by rewrite Ew2, Er, Es|by rewrite Ew2, Es| |].
  { destruct R1 as (pre & EW & Hrd). exists pre. split; [done|]. by rewrite Ew2, Eb2. }
  exists x3. split; [cbn [length Nat.add]; by rewrite E|]. split; [|done]. apply (told_moved _ _ _ _ _ _ M1). eapply told_applied; [by rewrite Epe|exact Hap|exact Hp2|]. rewrite F1, Ew2, Es in Htold. exact Htold.
Qed.
Lemma receive_loop_runs fuel rs x W bs ss ss' i source now p n : (length rs < fuel)%nat → peers x !! i = Some p → RouteLink.n_subscriber (table p) = source → direct_only (sid_of (w_ss (n_world x))) (table p) →
  tree_reachable (w_root (n_world x)) (w_ss (n_world x)) → Forall2 same_address ssA ss → wrote ss rs ss' bs → Forall (concerns (w_ss (n_world x)) source n) rs → reads x W bs → Z.of_nat (length W) < SIZE_MAX →
  runs (receive_loop my gettime_ms frame_alloc alloc char_signed overlay_interfaces fuel i source now) x (λ _ x', told i x p (foldl (tell_table (sid_of (w_ss (n_world x)))) (table p) rs) x').
Proof.
  intros Hf Hp Hn Hd Ht Hss Hw Hc Hr Hmax. rewrite <- (app_nil_r bs) in Hr. destruct (receive_loop_gives rs (S (fuel - length rs - 1)) x W bs [] ss ss' i source now p n) as (x' & E & Htold & R & _); try done. replace (length rs + S (fuel - length rs - 1))%nat with fuel in E by lia.
  unfold runs. rewrite E. cbn [receive_loop]. apply runs_bind, runs_ask, runs_bind. eapply runs_lift; [by eapply remaining_reads|]. by apply runs_ret.
Qed.
(** Behind the end of the message the assertion of [ob_remaining] fails. *)
Lemma beyond_aborts fuel i source now x : sizeLimit (n_payload x) < position (n_payload x) → sizeLimit (n_payload x) ≠ SIZE_MAX → receive_loop my gettime_ms frame_alloc alloc char_signed overlay_interfaces (S fuel) i source now x = Aborted.
Proof. intros Hlt Hne. cbn [receive_loop]. apply (bind_gives (λ o, o = Aborted)), runs_ask. unfold mbind, prog_bind, lift, ob_remaining. rewrite (proj2 (Z.eqb_neq _ _) Hne), (proj2 (Z.leb_gt _ _) Hlt). done. Qed.
Lemma long_loop_aborts L fuel rs x W bs r bd rest ss ss1 ss2 i source now p n : peers x !! i = Some p → RouteLink.n_subscriber (table p) = source → direct_only (sid_of (w_ss (n_world x))) (table p) →
  tree_reachable (w_root (n_world x)) (w_ss (n_world x)) → Forall2 same_address ssA ss → wrote ss rs ss1 bs → written ss1 r ss2 bd → Forall (concerns (w_ss (n_world x)) source n) (rs ++ [r]) → reads x W (bs ++ L :: bd ++ rest) → Z.of_nat (length W) + 256 ≤ SIZE_MAX →
  Z.of_nat (length (L :: bd ++ rest)) < L < 256 → (length rs + 2 ≤ fuel)%nat → receive_loop my gettime_ms frame_alloc alloc char_signed overlay_interfaces fuel i source now x = Aborted.
Proof.
  intros Hp Hn Hd Ht Hss Hw Hwr Hc Hr Hmax HL Hf. apply Forall_app in Hc as [Hc Hco]. rewrite Forall_singleton in Hco. destruct (receive_loop_gives rs (S (S (fuel - length rs - 2))) x W bs (L :: bd ++ rest) ss ss1 i source now p n) as (x' & E & Htold & R & S1); try done; [lia|]. replace (length rs + S (S (fuel - length rs - 2)))%nat with fuel in E by lia. rewrite E.
  destruct Htold as [(b & c & p' & ch & Ex' & _ & Etab & _)]. assert (peers x' !! i = Some p') as Hp' by (rewrite Ex'; apply list_lookup_insert_eq; by eapply lookup_lt_Some). assert (w_ss (n_world x') = w_ss (n_world x) ∧ w_root (n_world x') = w_root (n_world x)) as [Es Er] by (by rewrite Ex').
  destruct (round_gives L (S (fuel - length rs - 2)) x' W r bd rest ss1 ss2 i source now p' n) as (x1 & x2 & E2 & M1 & R1 & (p2 & c2 & Ex2 & _)); [done|by rewrite Etab, fold_rest|rewrite Es, Etab; by apply direct_fold|by rewrite Es, Er|done|done|rewrite Es; exact Hco|lia|done|lia|].
  rewrite E2. assert (n_payload x2 = set_position (n_payload x1) (szadd (Z.of_nat (length W) - Z.of_nat (length (L :: bd ++ rest))) L)) as Eb by (by rewrite Ex2). assert (sizeLimit (n_payload x1) = Z.of_nat (length W)) as El by (destruct R1 as (pre & _ & Hrd); apply (rd_limit _ _ _ _ Hrd)).
  assert (length (L :: bd ++ rest) ≤ length W)%nat as Hle by (destruct R as (pre & -> & _); rewrite length_app; lia). rewrite szadd_small in Eb by lia. apply beyond_aborts; rewrite Eb; cbn [sizeLimit position set_position]; lia.
Qed.
End Message.
End Apply.
End LinkStateApply.
