(* ===== verification/LinkSend.v ===== *)
(** * Sending link state messages (route_link.c)

    [append_link] brings the route to a subscriber up to date and writes a record of it
    when one is due; [link_send] does that for all subscribers until the message is
    full. The cleaning of the list of neighbours and the acknowledgements that
    [link_send] starts with are not modelled. *)

From S2P Require Import Prelude Mem Prog OverlayBuffer DataFormats OverlayAddress OverlayAddressTree OverlayAddressCodec RouteLink LinkState.
Import Prog OB OverlayAddress.

Module LinkSend.

Definition TIME_MS_NEVER_WILL : Z := 2 ^ 63 - 1.

(** The routes, the message, the alarm of [link_send], and the identities that were asked for. *)
Record sender := Sender { s_routes : RouteLink.world; s_message : LinkState.message; s_alarm : Z; s_unlocks : list nat }.
Definition set_routes (v : RouteLink.world) (t : sender) : sender := Sender v (s_message t) (s_alarm t) (s_unlocks t).
Definition set_message (v : LinkState.message) (t : sender) : sender := Sender (s_routes t) v (s_alarm t) (s_unlocks t).
Definition set_s_alarm (v : Z) (t : sender) : sender := Sender (s_routes t) (s_message t) v (s_unlocks t).
Definition put_unlock (s : nat) (t : sender) : sender := Sender (s_routes t) (s_message t) (s_alarm t) (s_unlocks t ++ [s]).

Section Send.
Context {arch : Arch} {allocator : Allocator}.
Variables (my_subscriber directory_service : option nat).
(** The identifiers of the subscribers, which do not change. *)
Variable sid : nat → list Z.
Variable char_signed : bool.
Variable gettime_ms : nat → Z.
(** [destination->ifconfig.route]: whether links by it are told. *)
Variable advertised : nat → bool.

Definition with_routes {A} (p : prog RouteLink.world A) : prog sender A := λ t, r ← p (s_routes t); Ret (r.1, set_routes r.2 t).
Definition with_message {A} (p : prog LinkState.message A) : prog sender A := λ t, r ← p (s_message t); Ret (r.1, set_message r.2 t).

(** The link that a pointer leads to. *)
Definition the_best (p : option (nat * nat)) : prog sender (option RouteLink.link) :=
  match p with
  | None => mret None
  | Some (n, r) => with_routes (l ← ask RouteLink.neighbours;
      match list_find (λ x, RouteLink.n_subscriber x = n) l with Some (_, x) => lift (l ← RouteLink.the_link sid x r; Ret (Some l)) | None => undefined end)
  end.
Definition set_update (s : nat) (v : Z) : prog sender unit := with_routes (t ← RouteLink.get_link_state s; RouteLink.upd_sub s (RouteLink.set_state (RouteLink.set_next_update v t))).

(** The record of a subscriber, and when the next is due; [true] when the message is full. *)
Definition append_due (s : nat) (now : Z) (t : RouteLink.link_state) (transmitter : option nat) (version drop_rate : Z) : prog sender bool :=
  if RouteLink.next_update t - 20 <=? now then
    v ← with_message (LinkState.append_link_state my_subscriber 0 transmitter s (-1) version (-1) 0 drop_rate);
    if negb (v =? 0) then change (set_s_alarm (now + 5));; mret true
    else set_update s (now + 5000);; mret false
  else mret false.

Definition append_link (fuel : nat) (s : nat) : prog sender bool :=
  if bool_decide (Some s = my_subscriber) then mret false
  else
    with_routes (RouteLink.get_link_state s);;
    p ← with_routes (RouteLink.find_best_link sid char_signed my_subscriber directory_service gettime_ms fuel s);
    now ← with_routes (RouteLink.gettime gettime_ms);
    x ← with_routes (RouteLink.the_sub s);
    t ← with_routes (RouteLink.get_link_state s);
    full ← (if RouteLink.reachable x =? RouteLink.REACHABLE_SELF then append_due s now t my_subscriber 1 0
            else
              LinkState.if_then (RouteLink.identity x) (change (put_unlock s));;
              best ← the_best p;
              if match best with Some l => match RouteLink.l_destination l with Some d => negb (advertised d) | None => false end | None => false end
              then set_update s TIME_MS_NEVER_WILL;; mret false
              else append_due s now t (RouteLink.s_transmitter t) (match best with Some l => RouteLink.link_version l | None => -1 end) (match best with Some l => RouteLink.drop_rate l | None => 32 end));
    if (full : bool) then mret true
    else
      t ← with_routes (RouteLink.get_link_state s);
      a ← ask s_alarm;
      LinkState.if_then (RouteLink.next_update t <? a) (change (set_s_alarm (RouteLink.next_update t)));;
      mret false.

(** The callback of the walk over the subscribers. *)
Definition each (fuel : nat) (s : nat) (t : sender) : outcome (sender * bool) := r ← append_link fuel s t; Ret (r.2, r.1).

(** The message that [link_send] gives to [overlay_send_frame], if there is one. *)
Definition send_links (fuel : nat) (root : tree_node) : prog sender (option overlay_buffer) := λ t,
  let m := s_message t in
  match ob_new (LinkState.o_mem m) with
  | None => r ← with_routes (RouteLink.gettime gettime_ms) t; Ret (None, set_s_alarm (r.1 + 20) r.2)
  | Some b =>
      b ← ob_limitsize b 400;
      let b := ob_checkpoint b in
      let pos := ob_position b in
      t ← enum_subscribers (each fuel) root None (set_message (LinkState.Msg (LinkState.o_mem m) b (LinkState.o_ss m)) t);
      let m := s_message t in
      let b := ob_rewind (LinkState.o_buf m) in
      if negb (ob_position b =? pos) then b ← ob_flip b; Ret (Some b, set_message (LinkState.Msg (LinkState.o_mem m) b (LinkState.o_ss m)) t)
      else Ret (None, set_message (LinkState.Msg (LinkState.o_mem m) b (LinkState.o_ss m)) t)
  end.

End Send.
End LinkSend.
