(* ===== verification/LinkSendRuns.v ===== *)
(** * A message says what the routes are

    [send_links] brings all routes up to date and writes a record for each that is due,
    as long as they fit: the transmitter it tells is the one of the route. *)

From S2P Require Import Prelude Mem Prog OverlayBuffer OverlayBufferSpec OverlayBufferCodec OverlayBufferFill StrCtype StrNum StrScan DataFormats OverlayAddress OverlayAddressTree OverlayAddressWalk OverlayAddressCodec OverlayAddressRound RouteLink RouteLinkPath RouteLinkBest RouteLinkFind LinkState LinkStateWrite LinkStateRead LinkStateApply LinkSend.
Import Prog OB OBSpec OBCodec OBFill DataFormats OverlayAddress OverlayAddressTree OverlayAddressWalk OverlayAddressRound LinkStateWrite LinkSend.

Module LinkSendRuns.
Section Runs.
Context {arch : Arch} {allocator : Allocator}.
Variables (my dir : option nat).
Variable sid : nat → list Z.
Variable char_signed : bool.
Variable clock : nat → Z.
Variable advertised : nat → bool.
Variable N : nat.
Implicit Types w : RouteLink.world.
Abbreviation winv := (RouteLinkFind.winv sid my).
Abbreviation keeps := (RouteLinkFind.keeps sid clock).
(** All but one keep the time of their next record, or all, or none need to. *)
Definition but (s t : nat) : Prop := t ≠ s.
Definition none (t : nat) : Prop := False.
Definition all (t : nat) : Prop := True.
Abbreviation at_ n r := (RouteLink.search sid (RouteLink.root n) r).

(** ** The tables *)

Record good w : Prop := {
  go_inv : winv w;
  go_subs t : is_Some (RouteLink.subs w !! t) ↔ (t < N)%nat;
  go_drop n x k : n ∈ RouteLink.neighbours w → at_ n x = Some k → 0 ≤ RouteLink.drop_rate k < 256;
  go_distinct : NoDup (RouteLink.n_subscriber <$> RouteLink.neighbours w);
}.
Lemma same_subscribers l l' : Forall2 (RouteLinkPath.same_links sid) l l' → RouteLink.n_subscriber <$> l' = RouteLink.n_subscriber <$> l.
Proof. induction 1 as [|n n' l l' Hs Hl IH]; [done|]. cbn [fmap list_fmap map]. by rewrite (RouteLinkPath.sl_subscriber _ _ _ Hs), IH. Qed.
Lemma keeps_good {P} w w' : winv w' → keeps P w w' → good w → good w'.
Proof.
  intros Hw' Hk [H1 H2 H3 H4]. split; [done|..].
  - intros t. rewrite <- RouteLinkFind.flags_some, (RouteLinkFind.ke_flags _ _ _ _ _ Hk), RouteLinkFind.flags_some. apply H2.
  - intros n' x k' Hin Hk'. apply list_elem_of_lookup_1 in Hin as [i Hi]. destruct (RouteLinkFind.keeps_at' _ _ _ _ _ _ _ Hk Hi) as (n & Hn & Hs). destruct (RouteLinkPath.same_at _ _ _ _ _ (RouteLinkPath.same_sym _ _ _ Hs) Hk') as (k & Hkk & E). injection E as _ _ _ _ E. rewrite <- E. eapply (H3 n x k); [|exact Hkk]. by eapply list_elem_of_lookup_2.
  - assert (RouteLink.n_subscriber <$> RouteLink.neighbours w' = RouteLink.n_subscriber <$> RouteLink.neighbours w) as ->; [|done]. apply same_subscribers, (RouteLinkFind.ke_links _ _ _ _ _ Hk).
Qed.
Lemma keeps_weaken {P} (P' : nat → Prop) w w' : (∀ t, P' t → P t) → keeps P w w' → keeps P' w w'.
Proof. intros HP [H1 H2 H3 H4 H5 H6 H7 H8 H9]. split; try done; [intros t Ht Hp; apply H8; [done|by apply HP]|]. intros t Hp. by apply H9, HP. Qed.
Lemma keeps_size {P} w w' : keeps P w w' → size (RouteLink.subs w') = size (RouteLink.subs w).
Proof. intros Hk. rewrite <- (map_size_fmap RouteLinkFind.busy (RouteLink.subs w')), <- (map_size_fmap RouteLinkFind.busy (RouteLink.subs w)). f_equal. apply (RouteLinkFind.ke_flags _ _ _ _ _ Hk). Qed.

(** The time of the next record changes, or the clock is read. *)
Lemma update_keeps w s y t v : winv w → RouteLink.subs w !! s = Some y → RouteLink.state y = Some t → let w' := RouteLink.set_subs (<[s := RouteLink.set_state (RouteLink.set_next_update v t) y]> (RouteLink.subs w)) w in winv w' ∧ keeps (but s) w w'.
Proof.
  intros Hw Hy Ht w'. split.
  - apply (RouteLinkFind.winv_touch _ _ w s y); [done|done|done|]. intros t' [= <-]. destruct (RouteLinkFind.wi_states _ _ _ Hw s y t Hy Ht). by split.
  - assert (∀ u, RouteLinkFind.stable w u → RouteLinkFind.stable w' u) as Hst.
    { intros u Hu. destruct (decide (u = s)) as [->|Hus]; [|by apply RouteLinkFind.stable_other]. destruct Hu as [(z & Hz & Hor)|Hb].
      - rewrite Hy in Hz. injection Hz as <-. left. exists (RouteLink.set_state (RouteLink.set_next_update v t) y). split; [cbn; by rewrite lookup_insert_eq|]. destruct Hor as [?|(q & Hq & E)]; [by left|right]. rewrite Ht in Hq. injection Hq as <-. by eexists.
      - right. unfold w'. rewrite RouteLinkFind.flags_insert, lookup_insert_eq. unfold RouteLinkFind.flags in Hb. rewrite lookup_fmap, Hy in Hb. cbn in Hb |- *. unfold RouteLinkFind.busy in *. cbn. by rewrite Ht in Hb. }
    split; [apply Forall_Forall2_diag, Forall_forall; by intros|done| | | | |done| |].
    + unfold w'. rewrite RouteLinkFind.flags_insert. apply insert_id. unfold RouteLinkFind.flags. rewrite lookup_fmap, Hy. cbn. unfold RouteLinkFind.busy. by rewrite Ht.
    + intros u Hu. split; [by apply Hst|]. destruct (decide (u = s)) as [->|Hus]; [|by apply RouteLinkFind.via_other]. unfold RouteLinkFind.via, w'. cbn. by rewrite lookup_insert_eq, Hy, Ht.
    + intros u Hu. destruct (decide (u = s)) as [->|Hus]; [|by apply RouteLinkFind.prior_other]. unfold RouteLinkFind.prior, w'. cbn. by rewrite lookup_insert_eq, Hy, Ht.
    + intros u. by apply (RouteLinkFind.mine_touch w s y).
    + intros u _ Hu. by apply RouteLinkFind.due_other.
    + intros u Hu. left. by apply RouteLinkFind.due_other.
Qed.
Lemma tick_keeps P w : winv w → winv (RouteLink.w_tick w) ∧ keeps P w (RouteLink.w_tick w).
Proof. intros Hw. split; [destruct Hw; by split|]. split; try done; [|cbn; lia|intros t _; by left]. apply Forall_Forall2_diag, Forall_forall. by intros. Qed.

(** ** Running *)

Lemma routes_run {A} (p : prog RouteLink.world A) t (Q : A → sender → Prop) : runs p (s_routes t) (λ a w', Q a (set_routes w' t)) → runs (with_routes p) t Q.
Proof. intros (a & w' & E & HQ). unfold with_routes, runs. rewrite E, bind_ret_l. by eexists _, _. Qed.
Lemma message_run {A} (p : prog LinkState.message A) t (Q : A → sender → Prop) : runs p (s_message t) (λ a m', Q a (set_message m' t)) → runs (with_message p) t Q.
Proof. intros (a & w' & E & HQ). unfold with_message, runs. rewrite E, bind_ret_l. by eexists _, _. Qed.

(** The routes are good and keep what was settled in [w0]; the message holds [wr], or is full. *)
Definition routing w0 (t : sender) : Prop := good (s_routes t) ∧ keeps none w0 (s_routes t).
Lemma routing_step {P} w0 t w' : routing w0 t → winv w' → keeps P (s_routes t) w' → routing w0 (set_routes w' t).
Proof. intros [Hg Hk] Hw' Hk'. split; [by eapply keeps_good|]. cbn. eapply RouteLinkFind.keeps_trans; [done|]. by apply (keeps_weaken (P := P)). Qed.

Lemma state_run P w0 t s (Q : RouteLink.link_state → sender → Prop) : routing w0 t → (s < N)%nat →
  (∀ w' p y, routing w0 (set_routes w' t) → RouteLink.subs w' !! s = Some y → RouteLink.state y = Some p → keeps P (s_routes t) w' → Q p (set_routes w' t)) → runs (with_routes (RouteLink.get_link_state s)) t Q.
Proof.
  intros Hr Hs HQ. apply routes_run. destruct Hr as [Hg Hk]. eapply runs_mono; [apply (RouteLinkFind.get_state_runs sid my clock P); [apply Hg|by apply (go_subs _ Hg)]|]. cbn beta. intros p w' (Hw' & Hk' & _ & x & y & _ & Hy & _ & _ & Hp & _). eapply HQ; [by eapply routing_step|done|done|done].
Qed.
Lemma update_run w0 t s v (Q : unit → sender → Prop) : routing w0 t → (s < N)%nat → (∀ w', routing w0 (set_routes w' t) → keeps (but s) (s_routes t) w' → RouteLinkFind.due w' s = v → Q tt (set_routes w' t)) → runs (set_update s v) t Q.
Proof.
  intros [Hg Hk] Hs HQ. apply routes_run, runs_bind. eapply runs_mono; [apply (RouteLinkFind.get_state_runs sid my clock (but s)); [apply Hg|by apply (go_subs _ Hg)]|]. cbn beta. intros p w1 (Hw1 & Hk1 & _ & x & y & _ & Hy & _ & _ & Hp & _).
  eapply RouteLinkBest.runs_upd; [done|]. destruct (update_keeps w1 s y p v Hw1 Hy Hp) as [Hw2 Hk2]. apply HQ; [eapply routing_step; [by split|done|]| |]; [by eapply RouteLinkFind.keeps_trans..|]. unfold RouteLinkFind.due. cbn. by rewrite lookup_insert_eq.
Qed.
Lemma live_keeps {P} w w' s p : keeps P w w' → RouteLinkFind.live sid w s p → RouteLinkFind.live sid w' s p.
Proof.
  intros Hk Hl n r E. destruct (Hl n r E) as (Er & nb & Hin & En & [l Hl']). split; [done|]. apply list_elem_of_lookup_1 in Hin as [i Hi]. destruct (RouteLinkFind.keeps_at _ _ _ _ _ _ _ Hk Hi) as (nb' & Hi' & Hs). exists nb'. split; [by eapply list_elem_of_lookup_2|]. split; [by rewrite (RouteLinkPath.sl_subscriber _ _ _ Hs)|]. destruct (RouteLinkPath.same_at _ _ _ _ _ Hs Hl') as (l' & ? & _). by exists l'.
Qed.
Lemma distinct_find (l : list RouteLink.neighbour) nb : NoDup (RouteLink.n_subscriber <$> l) → nb ∈ l → ∃ i, list_find (λ x, RouteLink.n_subscriber x = RouteLink.n_subscriber nb) l = Some (i, nb).
Proof.
  induction l as [|x l IH]; cbn [fmap list_fmap map]; intros Hd Hin; [by apply elem_of_nil in Hin|]. apply NoDup_cons in Hd as [Hx Hd]. cbn. destruct (decide (RouteLink.n_subscriber x = RouteLink.n_subscriber nb)) as [E|E].
  - apply elem_of_cons in Hin as [->|Hin]; [by exists 0%nat|]. exfalso. apply Hx. rewrite E. by apply list_elem_of_fmap_2.
  - apply elem_of_cons in Hin as [->|Hin]; [done|]. destruct (IH Hd Hin) as [i ->]. by eexists.
Qed.
(** The link to [s] of a neighbour. *)
Definition linked w (s : nat) (l : RouteLink.link) : Prop := ∃ nb, nb ∈ RouteLink.neighbours w ∧ at_ nb s = Some l.
Lemma best_run t s p (Q : option RouteLink.link → sender → Prop) : good (s_routes t) → RouteLinkFind.live sid (s_routes t) s p → (∀ o, (∀ l, o = Some l → linked (s_routes t) s l ∧ 0 ≤ RouteLink.drop_rate l < 256) → Q o t) → runs (the_best sid p) t Q.
Proof.
  intros Hg Hl HQ. unfold the_best. destruct p as [[n r]|]; [|apply runs_ret; by apply HQ]. destruct (Hl n r eq_refl) as (-> & nb & Hin & <- & [l Hat]). apply routes_run, runs_bind, runs_ask. destruct (distinct_find _ nb (go_distinct _ Hg) Hin) as [i ->].
  eapply runs_lift; [unfold RouteLink.the_link; rewrite Hat; reflexivity|]. replace (set_routes (s_routes t) t) with t by (by destruct t). apply HQ. intros l' [= <-]. split; [by exists nb|]. by apply (go_drop _ Hg nb s).
Qed.

(** ** The record of a subscriber *)

(** A record that tells the route to [s]. *)
Record reports w (s : nat) (r : report) : Prop := {
  re_receiver : rp_receiver r = s ∧ (s < N)%nat ∧ Some s ≠ my;
  re_plain : rp_flags r = 0 ∧ rp_interface r = -1 ∧ rp_ack r = -1 ∧ rp_mask r = 0 ∧ 0 ≤ rp_drop r < 256;
  re_transmitter : rp_transmitter r = RouteLinkFind.prior w s ∨ RouteLinkFind.mine w s ∧ rp_transmitter r = my;
  re_known u : rp_transmitter r = Some u → (u < N)%nat;
  re_stable : RouteLinkFind.stable w s;
}.
Lemma reports_keeps {P} w w' s r : keeps P w w' → reports w s r → reports w' s r.
Proof.
  intros Hk [H1 H2 H3 H4 H5]. split; try done.
  - destruct H3 as [->|[Hm ?]]; [left; symmetry; by apply (RouteLinkFind.ke_prior _ _ _ _ _ Hk)|right; split; [by apply (RouteLinkFind.ke_mine _ _ _ _ _ Hk)|done]].
  - by apply (RouteLinkFind.ke_stable _ _ _ _ _ Hk).
Qed.
Lemma reports_ok w s r : reports w s r → report_ok N r.
Proof. intros [(H1 & H2 & _) (F1 & F2 & F3 & F4 & F5) _ H4 _]. split; [by left|by rewrite H1|done|..]; rewrite ?F2, ?F3, ?F4; unfold LinkState.OVERLAY_MAX_INTERFACES; try lia. Qed.

(** From [w0] on no record of [s] was due, and none was put off; or its link is by a destination that is not to be told. *)
Definition silent w0 w (s : nat) : Prop := Some s = my ∨ RouteLinkFind.stable w s ∧
  (RouteLinkFind.dated clock w0 w s ∧ (∃ k, (RouteLink.w_ticks w0 ≤ k < RouteLink.w_ticks w)%nat ∧ clock k < RouteLinkFind.due w s - 20) ∨
   RouteLinkFind.due w s = TIME_MS_NEVER_WILL ∧ ∃ l d, linked w s l ∧ RouteLink.l_destination l = Some d ∧ advertised d = false).
Lemma linked_keeps {P : nat → Prop} w w' s l : keeps P w w' → linked w s l → ∃ l', linked w' s l' ∧ RouteLink.l_destination l' = RouteLink.l_destination l.
Proof.
  intros Hk (nb & Hin & Hl). apply list_elem_of_lookup_1 in Hin as [i Hi]. destruct (RouteLinkFind.keeps_at _ _ _ _ _ _ _ Hk Hi) as (nb' & Hi' & Hs). destruct (RouteLinkPath.same_at _ _ _ _ _ Hs Hl) as (l' & Hl' & E'). injection E' as _ E' _ _ _. exists l'. split; [|done]. exists nb'. split; [by eapply list_elem_of_lookup_2|done].
Qed.
Lemma silent_keeps {P : nat → Prop} w0 w w' s : keeps P w w' → P s → silent w0 w s → silent w0 w' s.
Proof.
  intros Hk Hp [?|[Hst H]]; [by left|right]. split; [by apply (RouteLinkFind.ke_stable _ _ _ _ _ Hk)|]. rewrite (RouteLinkFind.ke_due _ _ _ _ _ Hk s Hst Hp). pose proof (RouteLinkFind.ke_ticks _ _ _ _ _ Hk). destruct H as [(Hda & k & Hlt & Hc)|(E & l & d & Hl & Hd & Ha)].
  - left. split; [|exists k; split; [lia|done]]. apply (RouteLinkFind.dated_trans _ _ w); [lia|done|by apply Hk].
  - right. destruct (linked_keeps w w' s l Hk Hl) as (l' & Hl' & El). split; [done|]. exists l', d. split; [done|]. split; [congruence|done].
Qed.
(** What a call of [append_link] leaves of the message [wr]. *)
Definition step_out (before : RouteLink.world) (t : sender) (wr : list Z) (s : nat) (full : bool) (t' : sender) : Prop :=
  full = false ∧ s_message t' = s_message t ∧ silent before (s_routes t') s ∨
  ∃ r bd, reports (s_routes t') s r ∧ written (LinkState.o_ss (s_message t)) r (LinkState.o_ss (s_message t')) bd ∧
    (full = false ∧ open_message 400 (s_message t') (wr ++ record_of bd) ∨
     full = true ∧ 400 < Z.of_nat (length (wr ++ record_of bd)) ∧ filling 400 (length wr) (LinkState.o_mem (s_message t')) (LinkState.o_buf (s_message t')) (wr ++ 0 :: bd)).

Lemma append_due_runs before w0 t wr s k y p tr version drop : let now := clock k in (RouteLink.w_ticks before ≤ k < RouteLink.w_ticks (s_routes t))%nat → RouteLinkFind.dated clock before (s_routes t) s → malloc_total → routing w0 t → RouteLink.subs (s_routes t) !! s = Some y → RouteLink.state y = Some p → open_message 400 (s_message t) wr → length (LinkState.o_ss (s_message t)) = N → (s < N)%nat → let r := Report 0 tr s (-1) version (-1) 0 drop in reports (s_routes t) s r →
  runs (append_due my s now p tr version drop) t (λ full t', routing w0 t' ∧ keeps (but s) (s_routes t) (s_routes t') ∧ step_out before t wr s full t').
Proof.
  intros now Hk Hda Hm Hr Hy Hp Ho Hn Hs r Hrep. unfold append_due. pose proof (RouteLinkFind.keeps_refl sid clock (but s) (s_routes t)) as Hkr. destruct (Z.leb_spec (RouteLink.next_update p - 20) now) as [Hdue|Hdue].
  2: { apply runs_ret. split; [done|]. split; [done|]. left. split; [done|]. split; [done|]. right. split; [apply Hrep|]. left. split; [done|]. exists k. split; [done|]. unfold RouteLinkFind.due. rewrite Hy, Hp. exact Hdue. }
  apply runs_bind, message_run. eapply runs_mono; [apply (append_link_state_runs my 400 r (s_message t) wr N Hm Ho Hn); by eapply reports_ok|]. cbn beta. intros v m' (bd & Hw & Hv).
  destruct (bool_decide_reflect (Z.of_nat (length (wr ++ record_of bd)) ≤ 400)) as [Hfit|Hfit]; destruct Hv as [-> Hv]; cbn [Z.eqb negb].
  - apply runs_bind. eapply (update_run w0); [done|done|]. intros w' Hr' Hk' Hu'. apply runs_ret. split; [done|]. split; [done|]. right. exists r, bd. split; [by apply (reports_keeps _ _ _ _ Hk')|]. split; [done|]. by left.
  - apply runs_bind, runs_change, runs_ret. split; [done|]. split; [done|]. right. exists r, bd. split; [done|]. split; [done|]. right. split; [done|]. split; [lia|done].
Qed.

Lemma append_link_runs w0 fuel t wr s : malloc_total → routing w0 t → (size (RouteLink.subs (s_routes t)) ≤ fuel)%nat → (∀ u, my = Some u → (u < N)%nat) → open_message 400 (s_message t) wr → length (LinkState.o_ss (s_message t)) = N → (s < N)%nat →
  let before := s_routes t in runs (append_link my dir sid char_signed clock advertised fuel s) t (λ full t', routing w0 t' ∧ keeps (but s) (s_routes t) (s_routes t') ∧ step_out before t wr s full t').
Proof.
  intros Hm Hr Hfuel Hmy Ho Hn Hs before. unfold append_link. destruct (bool_decide_reflect (Some s = my)) as [|Hsm]; [apply runs_ret; split; [done|]; split; [apply RouteLinkFind.keeps_refl|left; split; [done|split; [done|by left]]]|].
  apply runs_bind. eapply (state_run all w0); [done|done|]. intros w1 p1 y1 Hr1 _ _ Hk1.
  apply runs_bind, routes_run. eapply runs_mono; [apply (RouteLinkFind.find_runs sid char_signed my dir clock all fuel s w1)|].
  { apply Hr1. } { apply RouteLinkFind.flags_some, (go_subs _ (proj1 Hr1)), Hs. } { unfold RouteLinkFind.room. etransitivity; [|exact Hfuel]. rewrite <- (keeps_size _ _ Hk1), <- (map_size_fmap RouteLinkFind.busy (RouteLink.subs w1)). unfold RouteLinkBest.count. apply map_size_filter. }
  cbn beta. intros p w2 (Hw2 & Hk2 & Hst2 & Hli2 & _). assert (keeps all (s_routes t) w2) as Hk02 by (by eapply RouteLinkFind.keeps_trans).
  apply runs_bind, routes_run. unfold RouteLink.gettime, runs at 1. eexists _, _. split; [reflexivity|]. cbn beta. set (now := clock (RouteLink.w_ticks w2)). destruct (tick_keeps all w2 Hw2) as [Hw3 Hk3]. set (w3 := RouteLink.w_tick w2) in *.
  match goal with |- runs _ ?a _ => change a with (set_routes w3 t) end. set (t3 := set_routes w3 t). assert (routing w0 t3) as Hr3. { eapply (routing_step (P := all)); [done|done|by eapply RouteLinkFind.keeps_trans]. }
  destruct (proj2 (go_subs _ (proj1 Hr3) s) Hs) as [x Hx]. apply runs_bind, routes_run. eapply RouteLinkBest.runs_sub; [exact Hx|]. replace (set_routes (s_routes t3) t3) with t3 by done.
  apply runs_bind. eapply (state_run all w0); [done|done|]. intros w4 q y Hr4 Hy Hq Hk4. set (t4 := set_routes w4 t3) in *. assert (keeps all (s_routes t) w4) as Hk04. { apply (RouteLinkFind.keeps_trans _ _ _ _ _ _ Hk02), (RouteLinkFind.keeps_trans _ _ _ _ _ _ Hk3), Hk4. }
  assert (keeps (but s) (s_routes t) w4) as Hk04b by (by apply (keeps_weaken (P := all))). pose proof (RouteLinkFind.ke_date _ _ _ _ _ Hk04 s I) as Hda.
  assert (RouteLink.w_ticks before ≤ RouteLink.w_ticks w2 < RouteLink.w_ticks w4)%nat as Htk. { pose proof (RouteLinkFind.ke_ticks _ _ _ _ _ Hk02). pose proof (RouteLinkFind.ke_ticks _ _ _ _ _ Hk4) as Hle. cbn in Hle. unfold before. lia. }
  assert (RouteLinkFind.stable w4 s) as Hst4. { apply (RouteLinkFind.ke_stable _ _ _ _ _ Hk4), (RouteLinkFind.ke_stable _ _ _ _ _ Hk3), Hst2. }
  apply runs_bind. apply (runs_mono _ _ (λ full t5, routing w0 t5 ∧ keeps (but s) (s_routes t) (s_routes t5) ∧ step_out before t wr s full t5)).
  { assert (∀ tr version drop, reports w4 s (Report 0 tr s (-1) version (-1) 0 drop) → runs (append_due my s now q tr version drop) t4 (λ full t', routing w0 t' ∧ keeps (but s) (s_routes t) (s_routes t') ∧ step_out before t wr s full t')) as Hdue.
    { intros tr version drop Hrep. eapply runs_mono; [apply (append_due_runs before w0 t4 wr s (RouteLink.w_ticks w2) y q tr version drop); done|]. cbn beta. intros full t' (G1 & G2 & G3). split; [done|]. split; [by eapply RouteLinkFind.keeps_trans|]. exact G3. }
    destruct (Z.eqb_spec (RouteLink.reachable x) RouteLink.REACHABLE_SELF) as [Hself|Hself].
    - apply Hdue. split; try done. right. split; [|done]. apply (RouteLinkFind.ke_mine _ _ _ _ _ Hk4). by exists x.
    - apply runs_bind. apply (runs_mono _ _ (λ _ t5, ∃ u, t5 = Sender w4 (s_message t) (s_alarm t) u)). { unfold LinkState.if_then. destruct (RouteLink.identity x); [apply runs_change|apply runs_ret]; by eexists. }
      cbn beta. intros _ t5 (us & ->). set (t5 := Sender _ _ _ _). assert (routing w0 t5) as Hr5 by exact Hr4. apply runs_bind. eapply best_run; [apply Hr5|by apply (live_keeps w3 w4 s p Hk4), (live_keeps w2 w3 s p Hk3)|]. intros o Hdrop.
      destruct (match o with Some l => _ | None => false end) eqn:Eadv.
      + apply runs_bind. eapply (update_run w0); [done|done|]. intros w' Hr' Hk' Hu'. apply runs_ret. split; [done|]. split; [by apply (RouteLinkFind.keeps_trans _ _ _ _ _ _ Hk04b)|]. left. split; [done|]. split; [done|]. right. split; [by apply (RouteLinkFind.ke_stable _ _ _ _ _ Hk')|]. right. split; [done|].
        destruct o as [l|]; [|done]. destruct (RouteLink.l_destination l) as [d|] eqn:Ed; [|done]. destruct (linked_keeps w4 w' s l Hk' (proj1 (Hdrop l eq_refl))) as (l' & Hl' & El). exists l', d. apply negb_true_iff in Eadv. split; [done|]. split; [congruence|done].
      + eapply runs_mono; [apply (append_due_runs before w0 t5 wr s (RouteLink.w_ticks w2) y q); try done|].
        * split; try done; cbn; [destruct o as [l|]; [pose proof (proj2 (Hdrop l eq_refl))|]; lia| |].
          -- left. unfold RouteLinkFind.prior. by rewrite Hy, Hq.
          -- intros u Hu. apply (go_subs _ (proj1 Hr4)), RouteLinkFind.flags_some. by apply (RouteLinkFind.wi_states _ _ _ (go_inv _ (proj1 Hr4)) s y q Hy Hq).
        * cbn beta. intros full t' (G1 & G2 & G3). split; [done|]. split; [by apply (RouteLinkFind.keeps_trans _ _ _ _ _ _ Hk04b)|exact G3]. }
  cbn beta. intros full t5 (Hr5 & Hk5 & Hout). destruct full; [by apply runs_ret|]. apply runs_bind. eapply (state_run (λ _, True) w0); [done|done|]. intros w6 q6 y6 Hr6 _ _ Hk6. apply runs_bind, runs_ask, runs_bind.
  assert (step_out before t wr s false (set_routes w6 t5)) as Hout6. { destruct Hout as [(_ & E & Hsi)|(r & bd & Hrep & Hw & Hc)]; [left; split; [done|]; split; [done|]; by apply (silent_keeps _ _ _ _ Hk6)|right]. exists r, bd. split; [by apply (reports_keeps _ _ _ _ Hk6)|]. done. }
  apply (runs_mono _ _ (λ _ t7, ∃ a, t7 = set_s_alarm a (set_routes w6 t5))). { unfold LinkState.if_then. destruct (_ <? _); [apply runs_change; by eexists|apply runs_ret; by exists (s_alarm t5)]. }
  cbn beta. intros _ t7 (a & ->). apply runs_ret. split; [exact Hr6|]. split; [apply (RouteLinkFind.keeps_trans _ _ _ _ _ _ Hk5); by apply (keeps_weaken (P := λ _, True))|exact Hout6].
Qed.

(** ** The message *)

Abbreviation wrote := LinkStateApply.wrote.
Lemma wrote_snoc ss rs ss1 wr r ss2 bd : wrote ss rs ss1 wr → written ss1 r ss2 bd → wrote ss (rs ++ [r]) ss2 (wr ++ record_of bd).
Proof.
  intros Hw Hr. induction Hw as [ss|ss r0 bd0 ss0 rs ss' bs H0 Hw IH]; cbn [app].
  - rewrite <- (app_nil_r (record_of bd)). by eapply LinkStateApply.wrote_cons; [|constructor].
  - rewrite <- app_assoc. eapply LinkStateApply.wrote_cons; [done|by apply IH].
Qed.

(** What is kept of the message when it is closed. *)
Definition closing (m : LinkState.message) (wr : list Z) : Prop := Z.of_nat (length wr) ≤ 400 ∧ ((∃ rest, filling 400 (length wr) (LinkState.o_mem m) (LinkState.o_buf m) (wr ++ rest)) ∨ wr = [] ∧ unfilled 400 (LinkState.o_mem m) (LinkState.o_buf m)).
Lemma open_closing m wr : open_message 400 m wr → closing m wr.
Proof. intros (H1 & _ & [Hf|Hu]); (split; [done|]); [left; exists []; by rewrite app_nil_r|by right]. Qed.

(** The records so far: one at most for each subscriber, and they tell the routes. *)
Record tells (w : RouteLink.world) (rs : list report) (l : list nat) : Prop := {
  td_reports : Forall (λ r, reports w (rp_receiver r) r) rs;
  td_nodup : NoDup (rp_receiver <$> rs);
  td_new r : r ∈ rs → rp_receiver r ∉ l;
}.
Lemma tells_keeps {P} w w' rs l l' : keeps P w w' → l' ⊆ l → tells w rs l → tells w' rs l'.
Proof. intros Hk Hl [H1 H2 H3]. split; [|done|intros r Hr Hin; by apply (H3 r Hr), Hl]. eapply Forall_impl; [exact H1|]. cbn beta. intros r. by apply (reports_keeps (P := P)). Qed.
Lemma tells_snoc w rs s l r : tells w rs (s :: l) → s ∉ l → reports w s r → tells w (rs ++ [r]) l.
Proof.
  intros [H1 H2 H3] Hs Hr. pose proof (re_receiver _ _ _ Hr) as (E & _ & _). split.
  - apply Forall_app. split; [done|]. apply Forall_singleton. by rewrite E.
  - rewrite fmap_app. apply NoDup_app. split; [done|]. split; [|apply NoDup_singleton]. intros x Hx Hx'. cbn in Hx'. apply list_elem_of_singleton in Hx' as ->. apply list_elem_of_fmap in Hx as (r0 & E0 & Hr0). apply (H3 r0 Hr0). rewrite <- E0, E. by left.
  - intros r0 Hr0. apply elem_of_app in Hr0 as [Hr0|Hr0%list_elem_of_singleton]; [intros Hin; apply (H3 r0 Hr0); by right|]. subst r0. by rewrite E.
Qed.

Lemma silent_earlier {P : nat → Prop} w0 w1 w s : keeps P w0 w1 → P s → silent w1 w s → silent w0 w s.
Proof.
  intros Hk Hp [?|[Hst [(Hda & k & Hlt & Hc)|H]]]; [by left|right..]; (split; [done|]); [left|by right]. pose proof (RouteLinkFind.ke_ticks _ _ _ _ _ Hk). split; [|exists k; split; [lia|done]]. apply (RouteLinkFind.dated_trans _ _ w1); [lia|by apply Hk|done].
Qed.
(** Each of [l] is passed over, or a record tells of it. *)
Definition covered w0 w (rs : list report) (l : list nat) : Prop := ∀ s, s ∈ l → silent w0 w s ∨ ∃ r, r ∈ rs ∧ rp_receiver r = s.
Lemma covered_cons w0 w w' rs s l : s ∉ l → keeps (but s) w0 w → keeps (λ v, v ∉ l) w w' → (silent w0 w s ∨ ∃ r, r ∈ rs ∧ rp_receiver r = s) → covered w w' rs l → covered w0 w' rs (s :: l).
Proof.
  intros Hs Hk Hk' Hor Hc v Hv. apply elem_of_cons in Hv as [->|Hv]; [destruct Hor as [Hsi|?]; [left; by apply (silent_keeps _ _ _ _ Hk')|by right]|]. destruct (Hc v Hv) as [Hsi|?]; [left|by right]. apply (silent_earlier _ w _ _ Hk); [|done]. intros ->. done.
Qed.
Lemma but_out s l w1 w2 w3 : s ∉ l → keeps (but s) w1 w2 → keeps (λ v, v ∉ l) w2 w3 → keeps (λ v, v ∉ s :: l) w1 w3.
Proof. intros Hs H1 H2. eapply RouteLinkFind.keeps_trans; [apply (keeps_weaken (P := but s)); [|done]|apply (keeps_weaken (P := λ v, v ∉ l)); [|done]]; unfold but; set_solver. Qed.

Lemma visit_runs w0 fuel ss0 l : ∀ t wr rs, malloc_total → routing w0 t → (size (RouteLink.subs (s_routes t)) ≤ fuel)%nat → (∀ u, my = Some u → (u < N)%nat) → open_message 400 (s_message t) wr → length (LinkState.o_ss (s_message t)) = N → NoDup l → Forall (λ s, s < N)%nat l →
  wrote ss0 rs (LinkState.o_ss (s_message t)) wr → tells (s_routes t) rs l →
  ∃ t' c, visit (each my dir sid char_signed clock advertised fuel) l t = Ret (t', c) ∧ routing w0 t' ∧ keeps (λ v, v ∉ l) (s_routes t) (s_routes t') ∧ ∃ wr' rs' ss', closing (s_message t') wr' ∧ wrote ss0 rs' ss' wr' ∧ tells (s_routes t') rs' [] ∧ rs ⊆ rs' ∧
    (400 < Z.of_nat (length wr') + 76 ∨ covered (s_routes t) (s_routes t') rs' l).
Proof.
  induction l as [|s l IH]; intros t wr rs Hm Hr Hf Hmy Ho Hn Hd Hl Hw Ht; cbn [visit].
  { exists t, false. split; [done|]. split; [done|]. split; [apply RouteLinkFind.keeps_refl|]. exists wr, rs, (LinkState.o_ss (s_message t)). split; [by apply open_closing|]. split; [done|]. split; [done|]. split; [done|]. right. intros s Hs. by apply elem_of_nil in Hs. }
  apply NoDup_cons in Hd as [Hs Hd]. apply Forall_cons in Hl as [Hlt Hl]. destruct (append_link_runs w0 fuel t wr s Hm Hr Hf Hmy Ho Hn Hlt) as (full & t1 & E & Hr1 & Hk1 & Hout).
  assert (each my dir sid char_signed clock advertised fuel s t = Ret (t1, full)) as -> by (unfold each; by rewrite E, bind_ret_l). rewrite bind_ret_l. cbn [fst snd].
  assert ((size (RouteLink.subs (s_routes t1)) ≤ fuel)%nat) as Hf1 by (by rewrite (keeps_size _ _ Hk1)).
  destruct Hout as [(-> & Em & Hsi)|(r & bd & Hrep & Hwr & Hc)].
  - destruct (IH t1 wr rs) as (t2 & c & E2 & Hr2 & Hk2 & wr2 & rs2 & ss2 & G1 & G2 & G3 & G4 & G5); try done; rewrite ?Em; try done; [eapply tells_keeps; [done| |done]; set_solver|]. exists t2, c. split; [done|]. split; [done|]. split; [by apply (but_out _ _ _ (s_routes t1))|]. exists wr2, rs2, ss2. split_and!; try done.
    destruct G5 as [Hfull|Hrest]; [by left|right]. by apply (covered_cons _ (s_routes t1)); [..|left|].
  - assert (tells (s_routes t1) rs (s :: l)) as Ht1 by (eapply tells_keeps; [done|done|done]). destruct Hc as [[-> Ho1]|(-> & Hbig & Hf')].
    + pose proof (written_same _ _ _ _ Hwr) as Hss. assert (length (LinkState.o_ss (s_message t1)) = N) as Hn1 by (rewrite <- (Forall2_length _ _ _ Hss); done).
      destruct (IH t1 (wr ++ record_of bd) (rs ++ [r])) as (t2 & c & E2 & Hr2 & Hk2 & wr2 & rs2 & ss2 & G1 & G2 & G3 & G4 & G5); try done; [by eapply wrote_snoc|by apply (tells_snoc _ _ s)|]. exists t2, c. split; [done|]. split; [done|]. split; [by apply (but_out _ _ _ (s_routes t1))|]. exists wr2, rs2, ss2. split_and!; try done; [set_solver|].
      destruct G5 as [Hfull|Hrest]; [by left|right]. apply (covered_cons _ (s_routes t1)); [done..| |done]. right. exists r. split; [apply G4; set_solver|]. apply (re_receiver _ _ _ Hrep).
    + exists t1, true. split; [done|]. split; [done|]. split; [apply (keeps_weaken (P := but s)); [unfold but; set_solver|done]|]. exists wr, rs, (LinkState.o_ss (s_message t)). split; [split; [apply Ho|left; by eexists]|]. split; [done|]. split; [eapply tells_keeps; [apply (RouteLinkFind.keeps_refl _ clock none)| |exact Ht1]; set_solver|]. split; [done|]. left. pose proof (written_length _ _ _ _ Hwr). unfold record_of in Hbig. rewrite length_app in Hbig. cbn [length] in Hbig. lia.
Qed.

(** The whole message: what is given to the network can be read, and tells routes as they are now. *)
Lemma send_links_runs fuel root t : malloc_total → good (s_routes t) → (size (RouteLink.subs (s_routes t)) ≤ fuel)%nat → (∀ u, my = Some u → (u < N)%nat) → let m := s_message t in tree_reachable root (LinkState.o_ss m) → all_sids (LinkState.o_ss m) → length (LinkState.o_ss m) = N → is_Some (ob_new (LinkState.o_mem m)) → 400 + 2 ^ 18 ≤ SIZE_MAX →
  ∃ r t', send_links my dir sid char_signed clock advertised fuel root t = Ret (r, t') ∧ routing (s_routes t) t' ∧ ∃ W rs ss', wrote (LinkState.o_ss m) rs ss' W ∧ tells (s_routes t') rs [] ∧ Z.of_nat (length W) ≤ 400 ∧
    (400 < Z.of_nat (length W) + 76 ∨ ∀ s, (s < N)%nat → silent (s_routes t) (s_routes t') s ∨ ∃ r, r ∈ rs ∧ rp_receiver r = s) ∧ match r with Some b => reading (LinkState.o_mem (s_message t')) b W 0 | None => W = [] end.
Proof.
  intros Hm Hg Hf Hmy m Htr Ha Hn [b Hb] Hmax. unfold send_links. fold m. rewrite Hb. destruct (unfilled_new 400 _ _ Hb ltac:(lia) Hmax) as (b1 & E1 & Hu). rewrite E1, bind_ret_l. rewrite (un_position _ _ _ Hu : ob_position (ob_checkpoint b1) = 0).
  set (t1 := set_message _ t). destruct (tree_reachable_inv _ _ Htr) as [Hwf Hk]. assert (enough (S DEPTH) []) as He by (unfold enough; lia).
  unfold enum_subscribers. rewrite (walk_visit (each my dir sid char_signed clock advertised fuel) (LinkState.o_ss m) (S DEPTH) [] root) by done.
  destruct (visit_runs (s_routes t) fuel (LinkState.o_ss m) (order (S DEPTH) root) t1 [] []) as (t2 & c & E2 & Hr2 & _ & wr & rs & ss' & Hc & Hw & Ht & _ & Hall); try done.
  - split; [done|apply RouteLinkFind.keeps_refl].
  - split; [cbn; lia|]. split; [done|]. by right.
  - eapply sorted_nodup, order_sorted. exact Hwf.
  - pose proof (order_below (LinkState.o_ss m) (S DEPTH) [] root Hwf) as Hbl. eapply Forall_impl; [exact Hbl|]. cbn beta. intros s (sub & Hsub & _). rewrite <- Hn. by eapply lookup_lt_Some.
  - constructor.
  - split; [constructor|constructor|]. intros r Hin. by apply elem_of_nil in Hin.
  - assert (400 < Z.of_nat (length wr) + 76 ∨ ∀ s, (s < N)%nat → silent (s_routes t) (s_routes t2) s ∨ ∃ r, r ∈ rs ∧ rp_receiver r = s) as Hall'.
    { destruct Hall as [Hfull|Hrest]; [by left|right]. intros s Hs. apply Hrest. rewrite <- Hn in Hs. destruct (lookup_lt_is_Some_2 (LinkState.o_ss m) s Hs) as [sub Hsub]. destruct (Hk s sub Hsub) as [_ Hlk]. by apply (order_lookup (LinkState.o_ss m) _ [] root (nibbles (OverlayAddress.sid sub))). }
    rewrite E2, bind_ret_l, bind_ret_l. cbn [fst]. destruct Hc as [Hle [(rest & Hfi)|[-> Hu2]]].
    + pose proof (rewind_filling _ _ _ _ _ Hfi) as Hre. rewrite take_app_length in Hre. rewrite (fi_position _ _ _ _ _ Hre : ob_position (ob_rewind _) = _). destruct (Z.eqb_spec (Z.of_nat (length wr)) 0) as [E0|Hne]; cbn [negb].
      * assert (wr = []) as -> by (destruct wr; [done|cbn in E0; lia]). eexists _, _. split; [reflexivity|]. split; [done|]. by exists [], rs, ss'.
      * destruct (filling_flip _ _ _ _ _ Hre Hle) as (b2 & E3 & Hrd). rewrite E3, bind_ret_l. eexists _, _. split; [reflexivity|]. split; [done|]. by exists wr, rs, ss'.
    + change (ob_position (ob_rewind (LinkState.o_buf (s_message t2)))) with (checkpointLength (LinkState.o_buf (s_message t2))). rewrite (un_checkpoint _ _ _ Hu2). cbn [Z.eqb negb]. eexists _, _. split; [reflexivity|]. split; [done|]. by exists [], rs, ss'.
Qed.
End Runs.
End LinkSendRuns.
