(* ===== verification/LinkStateProps.v ===== *)
(** * Routes spread through the mesh

    What one node routes by is what its neighbours then hold of it; and a message that
    stops the daemon. *)

From S2P Require Import Prelude Mem Prog OverlayBuffer OverlayBufferSpec OverlayBufferCodec OverlayBufferFill StrCtype StrNum StrScan DataFormats OverlayAddress OverlayAddressTree OverlayAddressWalk OverlayAddressCodec OverlayAddressRound OverlayFrameRound RouteLink RouteLinkPath RouteLinkBest RouteLinkFind RouteLinkProps LinkState LinkStateWrite LinkStateRead LinkStateApply LinkSend LinkSendRuns.
Import Prog OB OBSpec OBCodec OBFill DataFormats OverlayAddress OverlayAddressTree OverlayAddressCodec OverlayAddressRound LinkState LinkStateWrite LinkStateRead LinkStateApply LinkSend LinkSendRuns.

Module LinkStateProps.
Section Props.
Context {arch : Arch} {allocator : Allocator}.
Variable my : option nat.
Variable gettime_ms : nat → Z.
Variables (frame_alloc alloc : nat → bool).
Variable char_signed : bool.
Variable overlay_interfaces : list interface_state.
Variables (enqueue : out_frame → bool) (unicast_made : bool).

(** ** The neighbour that reports *)

Definition table_of (x : node) (s : nat) : RouteLink.neighbour := match find_peer (peers x) s with Some i => match peers x !! i with Some p => table p | None => RouteLink.Neighbour s 0 0 RouteLink.Leaf end | None => RouteLink.Neighbour s 0 0 RouteLink.Leaf end.
Lemma find_peer_at l s i : find_peer l s = Some i → ∃ p, l !! i = Some p ∧ RouteLink.n_subscriber (table p) = s.
Proof.
  revert i. induction l as [|p l IH]; intros i; cbn; [done|]. destruct (bool_decide_reflect (RouteLink.n_subscriber (table p) = s)) as [E|E]; [intros [= <-]; by exists p|]. destruct (find_peer l s) as [j|]; [|done]. intros [= <-]. destruct (IH j eq_refl) as (q & Hq & Eq). by exists q.
Qed.
Lemma find_peer_set l s i p p' : find_peer l s = Some i → l !! i = Some p → RouteLink.n_subscriber (table p') = s → find_peer (<[i := p']> l) s = Some i.
Proof.
  revert i. induction l as [|q l IH]; intros i; cbn; [done|]. destruct (bool_decide_reflect (RouteLink.n_subscriber (table q) = s)) as [E|E].
  - intros [= <-] _ Hp'. cbn. by rewrite bool_decide_true.
  - destruct (find_peer l s) as [j|] eqn:Ej; [|done]. intros [= <-] Hp Hp'. change (<[S j := p']> (q :: l)) with (q :: <[j := p']> l). cbn [find_peer]. rewrite bool_decide_false by done. by rewrite (IH j eq_refl Hp Hp').
Qed.

(** Only the clock moves on, and the neighbour is there. *)
Record introduced (x : node) (s i : nat) (x' : node) : Prop := {
  in_peer : ∃ p, peers x' !! i = Some p ∧ table p = table_of x s ∧ RouteLink.n_subscriber (table p) = s;
  in_found : find_peer (peers x') s = Some i;
  in_world : w_mem (n_world x') = w_mem (n_world x) ∧ w_root (n_world x') = w_root (n_world x) ∧ w_ss (n_world x') = w_ss (n_world x);
  in_payload : n_payload x' = n_payload x;
}.
Lemma get_neighbour_runs s x (Q : nat → node → Prop) : (∀ i x', introduced x s i x' → Q i x') → runs (get_neighbour gettime_ms s) x Q.
Proof.
  intros HQ. unfold get_neighbour. apply runs_bind, runs_ask. destruct (find_peer (peers x) s) as [i|] eqn:E.
  - apply runs_ret, HQ. destruct (find_peer_at _ _ _ E) as (p & Hp & Ep). split; [|done|done|done]. exists p. unfold table_of. by rewrite E, Hp.
  - apply runs_bind. unfold gettime, runs at 1. eexists _, _. split; [reflexivity|]. cbn beta. apply runs_bind, runs_change, runs_bind.
    match goal with |- runs _ ?a _ => set (x1 := a) end. assert (introduced x s 0 x1) as Hi1. { split; [|cbn; by rewrite bool_decide_true|done|done]. eexists. split; [reflexivity|]. unfold table_of. by rewrite E. }
    apply (runs_mono _ _ (λ _ x2, introduced x s 0 x2)). { unfold if_then. destruct (bool_decide _); [|by apply runs_ret]. apply runs_bind. unfold gettime, runs at 1. eexists _, _. split; [reflexivity|]. apply runs_change. destruct Hi1. by split. }
    cbn beta. intros _ x2 [I1 I2 I3 I4]. apply runs_bind, runs_change, runs_ret, HQ. by split.
Qed.

(** ** What a message of reports leaves *)

Section Told.
Variables (ssA : store) (f : nat → nat).
(** The link of the receiver, as it was and as it is, tells what was reported. *)
Definition heard (r : report) (o0 o : option RouteLink.link) : Prop :=
  match useful my (f <$> rp_transmitter r) with
  | Some u => ∃ l, o = Some l ∧ RouteLink.transmitter l = Some u ∧ (RouteLink.drop_rate l = RouteLink.char char_signed (drop_of r) ∧ RouteLink.link_version l = RouteLink.char char_signed (Z.land (u8 (rp_version r)) 0xFF) ∨ o0 = Some l)
  | None => ∀ l, o = Some l → RouteLink.transmitter l = None
  end.
Lemma tell_heard sid n r : Some (f (rp_receiver r)) ≠ my → heard r (RouteLink.search sid (RouteLink.root n) (f (rp_receiver r))) (RouteLink.search sid (RouteLink.root (tell_table my char_signed f sid n r)) (f (rp_receiver r))).
Proof.
  intros Hm. unfold tell_table. rewrite bool_decide_false by done. rewrite table_report_at, decide_True by done. unfold heard. destruct (useful my (f <$> rp_transmitter r)) as [u|].
  - eexists. split; [reflexivity|]. unfold RouteLink.report_link. destruct (RouteLink.search sid _ _) as [l|]; cbn [default].
    + destruct (negb (bool_decide _) || _) eqn:E; cbn; [split; [done|by left]|]. apply orb_false_iff in E as [E _]. apply negb_false_iff, bool_decide_eq_true in E. split; [done|by right].
    + rewrite bool_decide_false by done. cbn. split; [done|by left].
  - intros l Hl. apply fmap_Some in Hl as (k & _ & ->). unfold RouteLink.report_link. destruct (negb (bool_decide _) || _) eqn:E; [done|]. apply orb_false_iff in E as [E _]. by apply negb_false_iff, bool_decide_eq_true in E.
Qed.
Lemma tell_other sid n r y : y ≠ f (rp_receiver r) → RouteLink.search sid (RouteLink.root (tell_table my char_signed f sid n r)) y = RouteLink.search sid (RouteLink.root n) y.
Proof. intros Hy. unfold tell_table. destruct (bool_decide _); [done|]. by rewrite table_report_at, decide_False. Qed.
Lemma fold_other sid rs y : ∀ n, (∀ r, r ∈ rs → y ≠ f (rp_receiver r)) → RouteLink.search sid (RouteLink.root (foldl (tell_table my char_signed f sid) n rs)) y = RouteLink.search sid (RouteLink.root n) y.
Proof. induction rs as [|r rs IH]; intros n Hy; [done|]. cbn [foldl]. rewrite IH; [apply tell_other, Hy; by left|]. intros r' Hr'. apply Hy. by right. Qed.
Lemma fold_heard sid rs r : ∀ n, NoDup ((f ∘ rp_receiver) <$> rs) → r ∈ rs → Some (f (rp_receiver r)) ≠ my → heard r (RouteLink.search sid (RouteLink.root n) (f (rp_receiver r))) (RouteLink.search sid (RouteLink.root (foldl (tell_table my char_signed f sid) n rs)) (f (rp_receiver r))).
Proof.
  induction rs as [|r0 rs IH]; intros n Hd Hin Hm; [by apply elem_of_nil in Hin|]. cbn [foldl]. apply NoDup_cons in Hd as [H0 Hd]. apply elem_of_cons in Hin as [->|Hin].
  - rewrite fold_other; [by apply tell_heard|]. intros r' Hr' E. apply H0. change (f (rp_receiver r0)) with ((f ∘ rp_receiver) r0) in E. rewrite E. by apply (list_elem_of_fmap_2 (f ∘ rp_receiver)).
  - specialize (IH (tell_table my char_signed f sid n r0) Hd Hin Hm). rewrite tell_other in IH; [done|]. intros E. apply H0. change (f (rp_receiver r0)) with ((f ∘ rp_receiver) r0) in E. rewrite <- E. by apply (list_elem_of_fmap_2 (f ∘ rp_receiver)).
Qed.
End Told.

Lemma link_receive_runs ssA f source iface x W rs ss' n : Some source ≠ my → tree_reachable (w_root (n_world x)) (w_ss (n_world x)) → direct_only (sid_of (w_ss (n_world x))) (table_of x source) → wrote ssA rs ss' W → Forall (concerns my ssA f (w_ss (n_world x)) source n) rs → reads x W W → Z.of_nat (length W) < SIZE_MAX → (length rs ≤ length W)%nat →
  runs (link_receive my gettime_ms frame_alloc alloc char_signed overlay_interfaces enqueue unicast_made source iface) x
    (λ _ x', RouteLink.root (table_of x' source) = RouteLink.root (foldl (tell_table my char_signed f (sid_of (w_ss (n_world x)))) (table_of x source) rs) ∧ w_ss (n_world x') = w_ss (n_world x)).
Proof.
  intros Hs Ht Hd Hw Hc Hr Hmax Hlen. unfold link_receive. rewrite bool_decide_false by done. apply runs_bind. apply get_neighbour_runs. intros i x1 [(p & Hp & Etab & En) Hfind (Em & Er & Es) Eb].
  apply runs_bind, runs_change, runs_bind. unfold gettime at 1, runs at 1. eexists _, _. split; [reflexivity|]. cbn beta. match goal with |- runs _ ?a _ => set (x2 := a) end. set (now := gettime_ms _).
  apply runs_bind, runs_ask, runs_bind. assert (reads x2 W W) as Hr2. { destruct Hr as (pre & EW & Hrd). exists pre. split; [done|]. change (w_mem (n_world x2)) with (w_mem (n_world x1)). change (n_payload x2) with (n_payload x1). by rewrite Em, Eb. }
  assert (sizeLimit (n_payload x2) = Z.of_nat (length W)) as Esz by (destruct Hr2 as (pre & _ & Hrd); apply (rd_limit _ _ _ _ Hrd)). rewrite Esz, Nat2Z.id.
  eapply runs_mono; [apply (receive_loop_runs my gettime_ms frame_alloc alloc char_signed overlay_interfaces ssA f (S (length W)) rs x2 W W ssA ss' i source now p n)|].
  { lia. } { exact Hp. } { done. } { change (w_ss (n_world x2)) with (w_ss (n_world x1)). by rewrite Es, Etab. } { change (w_root (n_world x2)) with (w_root (n_world x1)). change (w_ss (n_world x2)) with (w_ss (n_world x1)). by rewrite Es, Er. } { apply Forall_Forall2_diag, Forall_forall. by intros. } { done. } { change (w_ss (n_world x2)) with (w_ss (n_world x1)). by rewrite Es. } { done. } { done. }
  cbn beta. intros _ x3 [(b & c & p' & ch & -> & Hex & Etab' & _ & _ & _)]. change (w_ss (n_world x2)) with (w_ss (n_world x1)) in Etab'. rewrite Es, Etab in Etab'. apply runs_bind, runs_ask, runs_bind. cbn [n_world w_ctx set_changed set_peers set_in set_world set_ctx].
  eapply runs_lift; [unfold send_please_explain; rewrite Hex; reflexivity|]. cbn [fst]. apply runs_bind, runs_ret, runs_bind, runs_ask.
  match goal with |- runs _ ?a _ => set (x4 := a) end. assert (RouteLink.n_subscriber (table p') = source) as En'. { rewrite Etab', fold_rest, <- Etab. exact En. }
  assert (peers x4 !! i = Some p') as Hp4 by (apply list_lookup_insert_eq; by eapply lookup_lt_Some). assert (find_peer (peers x4) source = Some i) as Hf4 by (apply (find_peer_set _ _ _ p); done).
  assert (w_ss (n_world x4) = w_ss (n_world x)) as Ess by exact Es. unfold if_then. destruct (changed x4).
  - apply runs_bind, runs_change, runs_bind, (runs_upd_peer i _ _ p'); [exact Hp4|]. apply runs_bind, runs_ask. match goal with |- runs _ ?a _ => set (x5 := a) end.
    assert (RouteLink.root (table_of x5 source) = RouteLink.root (foldl (tell_table my char_signed f (sid_of (w_ss (n_world x)))) (table_of x source) rs)) as E5.
    { unfold table_of at 1. change (peers x5) with (<[i := set_table (RouteLink.path_changed char_signed (table p')) p']> (peers x4)). rewrite (find_peer_set _ _ _ p') by done. rewrite list_lookup_insert_eq by (by eapply lookup_lt_Some). cbn. by rewrite Etab'. }
    destruct (now + 5 <? link_alarm x5); [apply runs_change|apply runs_ret]; by split.
  - apply runs_ret. split; [|done]. unfold table_of at 1. by rewrite Hf4, Hp4, Etab'.
Qed.

(** ** Two nodes *)

(** The node that receives knows the subscribers of the sender [a], as [f] names them, and is none of the others itself. *)
Record hears (ssA : store) (f : nat → nat) (a : nat) (x : node) : Prop := {
  li_tree : tree_reachable (w_root (n_world x)) (w_ss (n_world x));
  li_knows s : (s < length ssA)%nat → knows ssA f (w_ss (n_world x)) s;
  li_other s : (s < length ssA)%nat → Some (f s) = my ∨ foreign my (w_ss (n_world x)) (f s);
  li_source : Some (f a) ≠ my;
  li_direct : direct_only (sid_of (w_ss (n_world x))) (table_of x (f a));
}.
Lemma names_distinct root ssA ssB f s s' : tree_reachable root ssA → knows ssA f ssB s → knows ssA f ssB s' → f s = f s' → s = s'.
Proof.
  intros Ht (x & y & Hx & Hy & E & _) (x' & y' & Hx' & Hy' & E' & _) Ef. rewrite Ef, Hy' in Hy. injection Hy as <-. pose proof (tree_reachable_inv _ _ Ht) as Hi. pose proof (known_sid _ _ s x (sid x) Hi Hx eq_refl) as L. pose proof (known_sid _ _ s' x' (sid x) Hi Hx') as L'. rewrite L' in L; congruence.
Qed.
Lemma wrote_length ss rs ss' bs : wrote ss rs ss' bs → (length rs ≤ length bs)%nat.
Proof. induction 1 as [|ss r bd ss1 rs ss' bs Hw H IH]; cbn [length]; [lia|]. unfold record_of. cbn [app length]. rewrite length_app. lia. Qed.

Lemma told_concerns a N w rootA ssA f x rs : hears ssA f a x → tree_reachable rootA ssA → length ssA = N → (a < N)%nat → tells (Some a) N w rs [] → Forall (concerns my ssA f (w_ss (n_world x)) (f a) N) rs.
Proof.
  intros [Ht Hk Ho Hs Hd] HtA Hn Ha [Hr _ _]. eapply Forall_impl; [exact Hr|]. cbn beta. intros r Hrep. pose proof Hrep as [(_ & Hlt & Hra) _ _ Hkn _]. split.
  - by eapply reports_ok.
  - split; [apply Hk; lia|]. split; [apply Ho; lia|]. intros E. apply Hra. f_equal. eapply (names_distinct rootA ssA); [done|apply Hk; lia|apply Hk; lia|done].
  - intros t Et. pose proof (Hkn t Et). split; [apply Hk; lia|apply Ho; lia].
Qed.
Lemma told_distinct a N w rootA ssA f x rs : hears ssA f a x → tree_reachable rootA ssA → length ssA = N → tells (Some a) N w rs [] → NoDup ((f ∘ rp_receiver) <$> rs).
Proof.
  intros [Ht Hk Ho Hs Hd] HtA Hn [Hr Hnd _]. rewrite list_fmap_compose. apply NoDup_fmap_2_strong; [|done]. intros s s' H1 H2 E. apply list_elem_of_fmap in H1 as (r & -> & H1), H2 as (r' & -> & H2). rewrite Forall_forall in Hr. pose proof (re_receiver _ _ _ _ _ (Hr r H1)) as (_ & G1 & _). pose proof (re_receiver _ _ _ _ _ (Hr r' H2)) as (_ & G2 & _).
  eapply (names_distinct rootA ssA); [done|apply Hk; lia|apply Hk; lia|done].
Qed.
Lemma reachable_sids root ss : tree_reachable root ss → all_sids ss.
Proof. intros Ht. destruct (tree_reachable_inv _ _ Ht) as [_ Hk]. unfold all_sids. apply Forall_lookup. intros i x Hx. apply (Hk i x Hx). Qed.
End Props.

(** C7: Routes spread: a node that sends its link state brings all its routes up to date and writes a message that tells of every subscriber whose record is due, unless the message is full, once each and with the transmitter of the route that it uses itself; and a node that is given this message, and knows the subscribers it names, has in its table for the sender, for each of them that is not the node itself, a link with that transmitter, or none when the transmitter is the node itself or there is no route. *)
Theorem routes_spread {arch : Arch} {allocator : Allocator} a N fuel dir sidA csA clockA adv rootA t my clock fa al cs ifs enq um f iface x :
  let ssA := o_ss (s_message t) in malloc_total → good (Some a) sidA N (s_routes t) → (size (RouteLink.subs (s_routes t)) ≤ fuel)%nat → (a < N)%nat → tree_reachable rootA ssA → length ssA = N → is_Some (ob_new (o_mem (s_message t))) → hears my ssA f a x →
  ∃ b t', send_links (Some a) dir sidA csA clockA adv fuel rootA t = Ret (b, t') ∧ ∃ W rs, tells (Some a) N (s_routes t') rs [] ∧
    (400 < Z.of_nat (length W) + 76 ∨ ∀ s, (s < N)%nat → silent (Some a) sidA clockA adv (s_routes t) (s_routes t') s ∨ ∃ r, r ∈ rs ∧ rp_receiver r = s) ∧ (match b with Some b => reading (o_mem (s_message t')) b W 0 | None => W = [] end) ∧
    (reads x W W → ∃ x', link_receive my clock fa al cs ifs enq um (f a) iface x = Ret (tt, x') ∧ ∀ r, r ∈ rs → Some (f (rp_receiver r)) ≠ my →
      let sidB := sid_of (w_ss (n_world x)) in heard my cs f r (RouteLink.search sidB (RouteLink.root (table_of x (f a))) (f (rp_receiver r))) (RouteLink.search sidB (RouteLink.root (table_of x' (f a))) (f (rp_receiver r)))).
Proof.
  intros ssA Hm Hg Hfuel Ha Ht Hn Hb Hl. pose proof SIZE_MAX_pos as Hmax.
  destruct (send_links_runs (Some a) dir sidA csA clockA adv N fuel rootA t Hm Hg Hfuel) as (b & t' & E & Hr & W & rs & ss' & Hw & Htold & Hle & Hall & Hrd); try done; [by intros u [= <-]|by eapply reachable_sids|lia|].
  exists b, t'. split; [done|]. exists W, rs. split; [done|]. split; [done|]. split; [done|]. intros Hreads.
  destruct (link_receive_runs my clock fa al cs ifs enq um ssA f (f a) iface x W rs ss' N) as ([] & x' & Ex & Eroot & _); [apply Hl|apply Hl|apply Hl|done|by eapply told_concerns|done|lia|by eapply wrote_length|].
  exists x'. split; [done|]. intros r Hin Hmy sidB. rewrite Eroot. apply fold_heard; [by eapply told_distinct|done|done].
Qed.

(** ** Three nodes *)

(** Node 0 hears 1, which hears 2. *)
Definition near_links : RouteLink.link_tree := RouteLink.Node 1 (RouteLinkProps.ex_link 0 (Some 0%nat) 0) RouteLink.Leaf (RouteLink.Node 2 (RouteLinkProps.ex_link 1 None 5) RouteLink.Leaf RouteLink.Leaf).
Definition near_subs : gmap nat RouteLink.subscriber := <[0%nat := RouteLinkProps.ex_sub RouteLink.REACHABLE_SELF]> (gset_to_gmap (RouteLinkProps.ex_sub RouteLink.REACHABLE_NONE) (list_to_set [1; 2]%nat)).
Definition near_routes : RouteLink.world := RouteLink.World near_subs [RouteLink.Neighbour 1 0 1000 near_links] 1 RouteLinkProps.ex_dests [] 0.
Definition near_sid : nat → list Z := sid_of OverlayFrameRound.store3.
Definition near_clock (k : nat) : Z := 100 + Z.of_nat k.
Definition near_sender : sender := Sender near_routes (Msg ∅ (Buf None 0 0 0 0 None) OverlayFrameRound.store3) 0 [].
(** The node that is given the message [W], and knows the same subscribers. *)
Definition near_node (W : list Z) : node :=
  Node (World {[0%nat := W]} OverlayFrameRound.root3 OverlayFrameRound.store3 (Ctx None 0 0 0 0 None None None None) [] 0 0) (Buf (Some (Ptr 0 0)) 0 0 (Z.of_nat (length W)) (Z.of_nat (length W)) None) [] ∅ 1 5000 false [].
(** The message that [near_sender] gives: 1 is heard by 0, and 2 by 1. *)
Definition near_message : list Z := [8; 32; 1; 34; 1; 1; 17; 0; 8; 32; 1; 51; 1; 1; 34; 5].
Definition near_sent := @send_links arm64 calloc_allocator (Some 0%nat) None near_sid true near_clock (λ _, true) 3 OverlayFrameRound.root3 near_sender.
Definition near_receive (my : nat) (W : list Z) := @link_receive arm64 calloc_allocator (Some my) (λ _, 100) (λ _, true) (λ _, true) true [] (λ _, true) false 0 None (near_node W).

Lemma near_good : good (Some 0%nat) near_sid 3 near_routes.
Proof.
  split.
  - apply RouteLinkProps.untouched_inv. vm_compute. done.
  - intros t. destruct t as [|[|[|t]]]; [split; [lia|by eexists]..|]. split; [|lia]. intros [x Hx]. apply elem_of_dom_2 in Hx. unfold near_routes, near_subs in Hx. cbn [RouteLink.subs] in Hx. rewrite dom_insert, dom_gset_to_gmap in Hx. cbn in Hx. set_unfold in Hx. lia.
  - intros n x k Hn Hk. apply list_elem_of_singleton in Hn as ->. assert (∀ l, RouteLinkProps.tree_all l near_links = true → l k = true) as Hall by (intros P HP; by apply (RouteLinkProps.tree_all_search near_sid P near_links x)). specialize (Hall (λ l, (0 <=? RouteLink.drop_rate l) && (RouteLink.drop_rate l <? 256)) eq_refl). cbn beta in Hall. lia.
  - apply NoDup_singleton.
Qed.
Lemma near_hears W : hears (Some 2%nat) OverlayFrameRound.store3 id 0 (near_node W).
Proof.
  split; try done; [apply OverlayFrameRound.reachable3|..]; intros s Hs; destruct (lookup_lt_is_Some_2 OverlayFrameRound.store3 s Hs) as [y Hy].
  - exists y, y. split_and!; [done|done|done|lia].
  - destruct s as [|[|[|s]]]; [right; eexists; split; [reflexivity|by split]|right; eexists; split; [reflexivity|by split]|by left|cbn in Hs; lia].
Qed.
(** What the sender gives, and when the next record of 1 is due. *)
Definition near_given : option (Z * list Z * Z * Z * option nat) :=
  match near_sent with Ret (Some b, t) => Some (sizeLimit b, take 16 (region (o_mem (s_message t)) b), RouteLinkFind.due (s_routes t) 1, Z.of_nat (RouteLink.w_ticks (s_routes t)), RouteLinkFind.prior (s_routes t) 1) | _ => None end.
Lemma near_is_given : near_given = Some (16, near_message, 5101, 4, Some 0%nat).
Proof. vm_compute. reflexivity. Qed.
Lemma near_sends b t' : near_sent = Ret (b, t') → (∃ b', b = Some b' ∧ sizeLimit b' = 16 ∧ take 16 (region (o_mem (s_message t')) b') = near_message) ∧ RouteLinkFind.due (s_routes t') 1 = 5101 ∧ (RouteLink.w_ticks (s_routes t') < 99)%nat ∧ RouteLinkFind.prior (s_routes t') 1 = Some 0%nat.
Proof. intros E. pose proof near_is_given as H. unfold near_given in H. rewrite E in H. clear E. destruct b as [b'|]; [|done]. injection H as H1 H2 H3 H4 H5. split; [by exists b'|]. split; [done|]. split; [lia|done]. Qed.
(** Such a message with its last record a byte too long. *)
Definition near_long : list Z := [8; 32; 1; 34; 1; 1; 17; 0; 9; 32; 1; 51; 1; 1; 34; 5].
Lemma near_reads W : W = near_message ∨ W = near_long → @reads arm64 (near_node W) W W.
Proof. intros [-> | ->]; (exists []; split; [done|]; split; [|done|done|done|done]; split; [vm_compute; split; congruence|vm_compute; split; congruence|vm_compute; split; congruence|vm_compute; split; congruence| |by intros q|left; vm_compute; congruence|left; vm_compute; congruence]; eexists; split; [reflexivity|]; vm_compute; split; congruence). Qed.
Lemma near_told t' : near_sent = Ret t' → ¬ silent (Some 0%nat) near_sid near_clock (λ _, true) near_routes (s_routes t'.2) 1.
Proof.
  destruct t' as [b t']. intros E. destruct (near_sends b t' E) as (_ & Hd & Htk & _). clear E. cbn [snd]. intros [?|[_ [([Hs|(k & Hk & Hs)] & _)|(Hs & _)]]]; [done|..].
  - rewrite Hs in Hd. change (RouteLinkFind.due near_routes 1) with 0 in Hd. lia.
  - unfold near_clock in Hs. lia.
  - unfold TIME_MS_NEVER_WILL in Hs. lia.
Qed.
Lemma routes_spread_witness : ∃ x', near_receive 2 near_message = Ret (tt, x') ∧ ∃ l, RouteLink.search near_sid (RouteLink.root (table_of x' 0)) 1 = Some l ∧ RouteLink.transmitter l = Some 0%nat.
Proof.
  destruct (@routes_spread arm64 calloc_allocator 0 3 3 None near_sid true near_clock (λ _, true) OverlayFrameRound.root3 near_sender (Some 2%nat) (λ _, 100) (λ _, true) (λ _, true) true [] (λ _, true) false id None (near_node near_message)) as (b & t' & E & W & rs & Ht & Hall & Hrd & Hrec).
  { exact calloc_total. } { exact near_good. } { vm_compute. lia. } { lia. } { exact OverlayFrameRound.reachable3. } { done. } { by eexists. } { apply near_hears. }
  change (near_sent = Ret (b, t')) in E. destruct (near_sends b t' E) as ((b' & -> & Hlim & Hcont) & _ & _ & Hprior). assert (W = near_message) as ->. { destruct Hrd as [_ Hl _ _ Hc]. rewrite Hlim in Hl. rewrite <- Hc, <- Hcont. f_equal. lia. }
  destruct (Hrec (near_reads _ (or_introl eq_refl))) as (x' & Ex & Hheard). exists x'. split; [exact Ex|]. destruct Hall as [Hfull|Hall]; [by cbn in Hfull; lia|]. destruct (Hall 1%nat ltac:(lia)) as [Hsi|(r & Hr & Er)]; [destruct (near_told _ E Hsi)|].
  specialize (Hheard r Hr). rewrite Er in Hheard. specialize (Hheard ltac:(done)).
  assert (rp_transmitter r = Some 0%nat) as Etr. { pose proof (proj1 (Forall_forall _ _) (td_reports _ _ _ _ _ Ht) r Hr) as Hrep. destruct (re_transmitter _ _ _ _ _ Hrep) as [Ep|[_ Ep]]; [|done]. rewrite Ep, Er. exact Hprior. }
  unfold heard in Hheard. rewrite Etr in Hheard. destruct Hheard as (l & Hl & Hlt & _). exists l. split; [exact Hl|exact Hlt].
Defined.

(** C40: A message stops the daemon: when a message of a neighbour, after any number of whole records, has a record that gives itself a length past the end of the message, the reader takes the record, jumps behind the limit, and the assertion that it is not there fails when the next record is looked for. The records are about nodes other than the neighbour itself, and name subscribers that the receiver knows. *)
Theorem long_record_aborts {arch : Arch} {allocator : Allocator} my clock fa al cs ifs enq um ssA f source iface x rs ss1 bs r ss2 bd L rest n :
  let W := bs ++ L :: bd ++ rest in Some source ≠ my → tree_reachable (w_root (n_world x)) (w_ss (n_world x)) → direct_only (sid_of (w_ss (n_world x))) (table_of x source) → wrote ssA rs ss1 bs → written ss1 r ss2 bd → Forall (concerns my ssA f (w_ss (n_world x)) source n) (rs ++ [r]) →
  reads x W W → Z.of_nat (length W) + 256 ≤ SIZE_MAX → Z.of_nat (length (L :: bd ++ rest)) < L < 256 → link_receive my clock fa al cs ifs enq um source iface x = Aborted.
Proof.
  intros W Hs Ht Hd Hw Hwr Hc Hr Hmax HL. unfold link_receive. rewrite bool_decide_false by done. apply (bind_gives (λ o, o = Aborted)). apply get_neighbour_runs. intros i x1 [(p & Hp & Etab & En) Hfind (Em & Er & Es) Eb].
  apply (bind_gives (λ o, o = Aborted)), runs_change, (bind_gives (λ o, o = Aborted)). unfold gettime at 1, runs at 1. eexists _, _. split; [reflexivity|]. cbn beta. match goal with |- _ ?a = _ => set (x2 := a) end. set (now := clock _).
  apply (bind_gives (λ o, o = Aborted)), runs_ask. assert (reads x2 W W) as Hr2. { destruct Hr as (pre & EW & Hrd). exists pre. split; [done|]. change (w_mem (n_world x2)) with (w_mem (n_world x1)). change (n_payload x2) with (n_payload x1). by rewrite Em, Eb. }
  assert (sizeLimit (n_payload x2) = Z.of_nat (length W)) as Esz by (destruct Hr2 as (pre & _ & Hrd); apply (rd_limit _ _ _ _ Hrd)). rewrite Esz, Nat2Z.id. pose proof (wrote_length _ _ _ _ Hw). assert (length W = length bs + S (length bd + length rest))%nat as El by (unfold W; rewrite !length_app; cbn [length]; by rewrite length_app). pose proof (written_length _ _ _ _ Hwr).
  unfold mbind, prog_bind at 1. rewrite (long_loop_aborts my clock fa al cs ifs ssA f L (S (length W)) rs x2 W bs r bd rest ssA ss1 ss2 i source now p n); [done|done|done| | | |done|done| |done|done|done|lia].
  { change (w_ss (n_world x2)) with (w_ss (n_world x1)). by rewrite Es, Etab. } { change (w_root (n_world x2)) with (w_root (n_world x1)). change (w_ss (n_world x2)) with (w_ss (n_world x1)). by rewrite Es, Er. } { apply Forall_Forall2_diag, Forall_forall. by intros. } { change (w_ss (n_world x2)) with (w_ss (n_world x1)). by rewrite Es. }
Qed.

(** What the records of [near_long] say. *)
Definition near_reports : list report := [Report 0 (Some 0%nat) 1 (-1) 1 (-1) 0 0].
Definition near_last : report := Report 0 (Some 1%nat) 2 (-1) 1 (-1) 0 5.
Lemma near_sent_bytes s x bs : OverlayFrameRound.store3 !! s = Some x → bs = address_bytes None None x → sent OverlayFrameRound.store3 s OverlayFrameRound.store3 bs.
Proof. intros Hx ->. exists x. split; [done|]. split; [|split; [done|]]; [|apply Forall_Forall2_diag, Forall_forall; by intros]. pose proof (reachable_sids _ _ OverlayFrameRound.reachable3) as H. exact (proj1 (Forall_lookup _ _) H s x Hx). Qed.
Lemma near_wrote : wrote OverlayFrameRound.store3 near_reports OverlayFrameRound.store3 [8; 32; 1; 34; 1; 1; 17; 0].
Proof. apply (wrote_cons _ _ [32; 1; 34; 1; 1; 17; 0] OverlayFrameRound.store3 [] _ []); [|apply wrote_nil]. exists [1; 34], OverlayFrameRound.store3, [1; 17]. split; [eapply near_sent_bytes; reflexivity|]. split; [eapply near_sent_bytes; reflexivity|done]. Qed.
Lemma near_written : written OverlayFrameRound.store3 near_last OverlayFrameRound.store3 [32; 1; 51; 1; 1; 34; 5].
Proof. exists [1; 51], OverlayFrameRound.store3, [1; 34]. split; [eapply near_sent_bytes; reflexivity|]. split; [eapply near_sent_bytes; reflexivity|done]. Qed.
Lemma near_concern W r : report_ok 3 r → rp_receiver r ≠ 0%nat → concerns (Some 2%nat) OverlayFrameRound.store3 id (w_ss (n_world (near_node W))) 0 3 r.
Proof. intros Hok H0. destruct (near_hears W) as [_ Hk Ho _ _]. split; [done|split_and!; [apply Hk, Hok|apply Ho, Hok|done]|]. intros t Et. split; [apply Hk|apply Ho]; by apply (ro_transmitter _ _ Hok). Qed.
Lemma near_ok r : r ∈ near_reports ++ [near_last] → report_ok 3 r ∧ rp_receiver r ≠ 0%nat.
Proof. intros Hr. apply elem_of_cons in Hr as [->|Hr]; [|apply list_elem_of_singleton in Hr as ->]; (split; [|done]; split; cbn; [by left|lia|intros t [= <-]; lia|unfold OVERLAY_MAX_INTERFACES; lia|lia|lia|lia]). Qed.
Lemma long_record_aborts_witness : near_receive 2 near_long = Aborted.
Proof.
  eapply (long_record_aborts (Some 2%nat) (λ _, 100) (λ _, true) (λ _, true) true [] (λ _, true) false OverlayFrameRound.store3 id 0 None (near_node near_long) near_reports OverlayFrameRound.store3 [8; 32; 1; 34; 1; 1; 17; 0] near_last OverlayFrameRound.store3 [32; 1; 51; 1; 1; 34; 5] 9 [] 3).
  { done. } { apply near_hears. } { apply near_hears. } { exact near_wrote. } { exact near_written. } { apply Forall_forall. intros r Hr. destruct (near_ok r Hr). by apply near_concern. } { apply near_reads. by right. } { vm_compute. congruence. } { cbn. lia. }
Defined.
End LinkStateProps.
